(* ===== verification/_CoqProject ===== *)
-Q . S2P
Prelude.v
Ids.v
Bytes.v
Randomness.v
RandomnessFacts.v
Hamilton.v
FastSampler.v
FastSamplerBits.v
FastSamplerDraw.v
FastSamplerExp.v
FastSamplerLoops.v
FastSamplerFacts.v
FastSamplerSeeds.v
Library.v
LibraryRows.v
LibraryFacts.v
LibraryShuffle.v
LibraryMoves.v
LibraryReach.v
LibraryKnowledge.v
London.v
LondonFacts.v
LondonProtocol.v
LondonGame.v
InferenceCache.v
InferenceCacheFacts.v
Staleness.v
StalenessFacts.v
Bo3Match.v
Mana.v
ManaSearch.v
ManaSolve.v
Json.v
JsonRender.v
JsonParser.v
JsonParserFacts.v
JsonSerializer.v
JsonSerializerFacts.v
JsonCodec.v
JsonMax.v
CombatDamage.v
CombatDamageFacts.v
Sideboard.v
SideboardFacts.v
SideboardPolicy.v
SideboardBytes.v
SideboardAdmission.v
Bo3Session.v
Bo3SessionFacts.v
Float32.v
SearchMath.v
SearchMathFacts.v
SearchAuthority.v
SearchTree.v
SearchTreeFacts.v
SearchWalk.v
SearchFacts.v
Redetermine.v
RedetermineFacts.v
RedetermineForgets.v
LegendRule.v
LegendFacts.v
CombatRules.v
Surface.v
PolicySurface.v
CombatFacts.v
ScanFacts.v
SurfaceInv.v
SurfaceToy.v
AttackTargets.v
SessionInv.v
SurfaceDiscard.v
SurfaceFacts.v
RulesSession.v
RulesSessionInv.v
RulesSessionSteps.v
RulesSessionFacts.v
Belief.v
BeliefFacts.v
BeliefBlind.v
