(* ===== verification/Prelude.v ===== *)
(** * mtg-kernel: a Rocq development of the rules kernel's core

    mtg-kernel is a Rust implementation of the rules of a trading card game,
    driven by search and training programs. This development models the parts of
    src/mtg-kernel/src that carry a closed contract of their own, as executable
    definitions that follow the Rust code function by function, and proves what
    makes each part correct. Every definition that models code keeps the name of
    the code; a few lines of a long function that are a definition of their own
    are named after what they do.

    ** Conventions

    A Rust [Result] is [result] below and [?] is [let?]; a method on [&mut self]
    returns the new state, paired with its result where it can fail. Integers
    are [Z] kept at their width: [checked_*] functions return options, and an
    unchecked addition wraps as a release build wraps it. A panic is a value
    where it can happen (an index out of range, an [expect]), and theorems say
    it does not. Loops are structural recursion over the list they walk;
    the six that are not take fuel, and it is proved that the fuel the code's own
    bound gives is enough on every input (the JSON parser, the drain loops of combat
    damage and of mulligans, the loop of a search, the rejection draw) or that some
    fuel is (the loop of the decision surface).

    Code outside src/ (the sha2 and serde_json crates, the card table generated
    by the build script, the checked-in data files) is a parameter of the
    definitions that use it; so are the engine queries and the engine commit that
    combat damage calls, the object rules a zone change consults, the networks
    behind the prediction cache, the episode producer of the scheduler and the
    session and the evaluator of a search.

    ** Components, in dependency order

    - Prelude: results, folds, machine integers, automation (the hint and
      rewrite databases [kernel], [inv_bind], [bool_to_prop]) and generic lemmas.
    - Ids (ids.rs): player and object ids, the two-seat array, the arena.
    - Bytes: byte strings and their order.
    - Randomness, RandomnessFacts (the generator of state.rs,
      environment_randomization_v2.rs): SplitMix64, the Fisher-Yates shuffle and
      the hashed substreams. The draws of a shuffle and the orders of the cards
      correspond one to one, and the hashed message of a substream determines
      its root, owner, purpose and ordinal.
    - Hamilton: largest-remainder apportionment, the reference of the samplers.
    - FastSampler, FastSamplerBits, FastSamplerDraw, FastSamplerExp,
      FastSamplerLoops, FastSamplerFacts, FastSamplerSeeds (fast_sampler.rs): the
      categorical sampler on the bits of binary32 logits, narrow and wide, with its
      scratch arrays as state. Differences of logits are exact and correctly
      rounded; the table is within 257 units of the exponential; both samplers are
      the Hamilton apportionment of 2^64 to the table weights, whatever the scratch
      held and without a panic; and over the 2^64 seeds every action is drawn
      exactly as often as its mass.
    - Float32, SearchMath, SearchMathFacts (the search arithmetic of
      kernel_native_search_opponent_v1.rs,
      model_guided_search_prior_quantization_v1.rs and
      model_guided_search_value_quantization_v1.rs): single-precision operations
      on bit patterns, over the Standard Library's [SpecFloat]; the integer
      exploration bonus is its closed form, the prior of a node the Hamilton
      apportionment of a million, and the error of a quantized value is bounded.
    - SearchAuthority (model_guided_search_authority_v1.rs): the record a search
      is bound to, valid exactly when it is its own reconstruction in this build
      ([SearchBuild] is what the build contributes).
    - SearchTree, SearchTreeFacts, SearchWalk, SearchFacts
      (model_guided_search_core_v1.rs): the tree search. [descend] is the loop of
      a simulation, [simulate] the loop over simulations; [SearchSession] and
      [LeafEvaluator] are the session and the network. [answers L r P] says that
      [r] satisfies [P] or is an error that [L] excludes, and never a panic: with
      [L] false the theorems hold for every session and evaluator that answers
      within its types ([typed_session]), with [L] the word of a session
      ([lawful]) they exclude the errors too. The word is given for a number of
      answers: [good n] says that no line of the next [n] answers is halted or cut off
      by a cap. Only the live decision, asked about with its own number of actions, has
      to be evaluated; a network refuses a terminal that has no winner, and a search
      that meets one fails, as the example [cut_off_search_refuses] shows. [searching]
      is the invariant of the loop. A decision's books balance, the search ends and does
      not panic, over a session lawful for its 64 answers it decides, and a node's choice
      is the argmax it claims. The witnesses run in a session of two players counting
      down that cuts a game off after a number of answers.
    - Library, LibraryRows, LibraryFacts, LibraryShuffle, LibraryMoves,
      LibraryReach, LibraryKnowledge (state.rs, with the zone change of event.rs, the
      casts and aborted casts of engine.rs and the placement of a searched card of
      effect.rs): libraries, hands, zone changes, shuffle tokens, random choices, and
      what each player knows of libraries and hands. The state is [GameState]; the card
      table and what the rules say of an object entering a zone are the class
      [ObjectRules] with its laws [LawfulRules], instantiated in LibraryFacts by
      [BareRules] for the witnesses. The zone change is [move_between_zones], the test
      of the face it was asked for ([require_face]), the code for what enters the
      battlefield ([entry_effects], which may panic) and the reveals. [step] closes the
      operations, the places of the kernel that edit a library or a hand during a game,
      with [elsewhere] for everything the rest of the engine may do to the state outside
      hidden zones. In every reachable state the knowledge rows are true
      ([knowledge_is_true]), every object is of a card of the table, and which
      operations panic is known exactly ([hidden_zone_panics_exact]); [hidden_view] is
      what one observer can tell, and hidden choices of a player leave
      [indistinguishable] games indistinguishable to the other. Draw, scry, shuffle and
      random choice have functional theorems.
    - Redetermine, RedetermineFacts, RedetermineForgets
      (the hidden-zone sampler of kernel_native_search_opponent_v1.rs and the
      census clone of rl_session.rs): on top of Library. The rejection draw ends
      and is uniform; the sampler permutes the identities of the cards a player
      does not know, within each owner, and changes nothing else; and its outcome
      does not depend on where those cards really are. [HiddenCards] is what it
      reads and writes of an object and of the card table, [PendingSelection]
      what it reads of the engine.
    - London, LondonFacts, LondonProtocol, LondonGame
      (london_mulligan_v1.rs): opening hands, on top of Library. [drain_or_decide]
      and [answer] are the two calls of the engine; [OpeningEvents] is the event
      pipeline and [LawfulOpening] its promise that, with nothing on the table,
      a zone change or a draw is what Library says it is. [mull_ok] is the
      invariant. However the questions are answered, cards stay with their
      owners and a hand has seven cards less the mulligans taken; the drain never
      fails and asks only questions whose offered answers are accepted; and no
      game takes more than seventy answers, which is attained.
    - InferenceCache, InferenceCacheFacts (inference_cache_v1.rs and the cached
      forwards of sideboard_play_policy_v1.rs): keys, hash, slots, index, age
      queue and free stack. Every sequence of gets and inserts behaves as a
      bounded queue of entries ([repr] relates the two), whatever the hash does;
      and forwards of any models through one shared cache return what the
      models return, since the key determines the path, the weights, the mode
      and the encoded decision.
    - Staleness, StalenessFacts (bounded_staleness_async_v1.rs): the producer
      thread and the trainer around two mutexes. A step is one critical section
      and [run] a sequence of them, so the theorems speak of every interleaving:
      batches come in update order from weights published with their version and
      within the bound; an honest trainer sees no violation; and the two threads
      never wait for each other.
    - Bo3Match (bo3_match.rs): the best-of-three match state. [choose_play_draw_v1]
      and [record_game_result_v1] are its transitions; [reachable] closes them
      under every sequence of calls, failed ones included, and [match_inv] is the
      invariant: counters, game indices, choosers and the winner are those the
      recorded games imply. A match has a winner exactly at two wins, never
      records a fourth decisive game, and a result is recorded atomically.
    - Mana, ManaSearch, ManaSolve (mana.rs): costs, payment plans and the
      backtracking search, with its in-place mutations and their undo. [pip_step]
      and [generic_paid] say which payments are legal, independently of the
      search: a failed search restores its state, a plan pays its cost and
      nothing else, and the search of a spell's total cost succeeds exactly when
      a legal payment exists. [solve] is exact without Phyrexian pips and, as a
      proved counterexample shows, not with them. Restricted mana and delve are
      covered.
    - Json, JsonRender, JsonParser, JsonParserFacts,
      JsonSerializer, JsonSerializerFacts, JsonCodec, JsonMax
      (canonical_json_v1.rs): the codec every stored record goes through. The
      emitter is proved against an abstract sink ([ChunkSink], [LawfulSink]) with
      [render] as its specification; the reader accepts exactly the renderings of
      canonical values whose nulls the policy lists, on every byte string and
      always terminating; a serde client is a script that sees each result and may
      swallow errors, and nothing it swallows is ever published; what is written
      is read back; counting is encoding; and the closed-grammar size calculus
      computes a bound that is sound and attained.
    - CombatDamage, CombatDamageFacts (combat_damage_v1.rs, part of
      attack_target_v1.rs): a damage wave is divided through binary answers to
      range questions. The offered range is the set of completable amounts, so
      division is never stuck, commits only legal divisions, and can commit each
      of them.
    - LegendRule, LegendFacts (legend_rule_v1.rs): one pass of state-based actions
      with choices in it. The groups are the legends that share a controller and a
      name, a choice is accepted exactly for a member of the group asked about, and
      the one batch of departures leaves at most one legend of each name
      ([LegendEngine] is what the pass asks of the engine).
    - CombatRules, CombatFacts (the combat declarations of engine.rs): who may
      attack and block, who must, and the two validators, over what the engine
      answers about one creature ([CombatView]). The validators accept exactly
      [legal_attack] and [legal_block].
    - Surface, SurfaceInv, SurfaceDiscard
      (surface_v2.rs, types of surface.rs): the surface between the engine and a
      player, which passes windows, asks for blocks attacker by attacker, for
      discards card by card and for an optional cost in two stages.
      [SurfaceEngine] is what it calls, [EngineLaws] what it relies on: a legal
      declaration is accepted in the state in which the engine has just asked for it
      ([attackers_asked], [blockers_asked]), and nowhere else, since an engine that waits for
      the target of an attack refuses everything but a target. [settle]
      is its treatment of one engine decision, [next_decision] its loop, [inner_ok]
      its invariant: the blocks collected are legal and the queue live. The loop
      ends and never panics, the audit mode is inert, and discards commit the
      distinct picks.
    - AttackTargets (attack_target_v1.rs): what each attacker attacks when the
      defender has planeswalkers, one answer per attacker ([AttackEngine]); the
      completed declaration is the one combat damage reads.
    - PolicySurface, ScanFacts, SessionInv, SurfaceToy,
      SurfaceFacts (policy_surface_v5.rs and its hunter_order_v45.rs): a
      combat declaration as a scan of yes-or-no questions, a large group of
      triggers as a permutation chosen step by step, the binding of both to their
      state, and the in-place path next to the copying one. Probing two
      completions is exact, a scan commits exactly its declaration, both paths
      agree, and in every [session] a shown scan can be answered to its commit.
      SurfaceToy is one combat of four creatures, for the witnesses; its engine asks
      what the attack is aimed at before it goes on.
    - RulesSession, RulesSessionInv, RulesSessionSteps, RulesSessionFacts
      (rl_session/rules_only_v1.rs, with the step of rl_session.rs and the
      candidate lists of rl.rs): an episode without a consumer contract, on the
      policy surface. [reset_rules_only_v1] admits the decks and starts a game,
      [advance_rules_only_v1] asks and binds the answers it offers,
      [apply_prechecked_step_v1] applies one of them in place. [RulesEngine] is what
      the session calls besides the surface, [SessionLaws] what it relies on.
      [session_ok] is the invariant of every session an episode reaches: the
      counters are the accepted steps and keep their caps, a failed step changes
      nothing or halts the episode, an episode ends within its limits, and a combat
      declaration is offered exactly its feasible answers and is never cut short by
      a cap ([position] says where in its group of steps a surface stands).
    - Belief, BeliefFacts, BeliefBlind (the worlds of
      limited_match_v1.rs and the clone of rl_session.rs they start from): a fair
      search draws the opponent's unseen cards from a corpus of decks, on top of
      Redetermine. The walks over sorted lists are the multiset operations; a world
      is a corpus deck around the cards seen, or the rest of a nearest deck; and a
      world depends on nothing the player does not know. [BeliefCards] is what is
      read of an object, [HiddenLaws] that writing an identity forgets the one
      before.
    - Sideboard, SideboardFacts, SideboardPolicy, SideboardBytes,
      SideboardAdmission (sideboard.rs, a narrow view of card_def.rs): registered
      60/15 decks, exchange plans, the deterministic policy, receipts and
      registration. Plans and policies forget the order of their input; a
      policy answers every known matchup; applying it is exactly the multiset
      exchange of the chosen plan or the first shortage; canonical bytes
      determine the policy; and exactly the supported decks within the copy limit
      are admitted.
    - Bo3Session, Bo3SessionFacts (bo3_session.rs): the match state composed with
      two registered decks and a static policy or live policies (the trait
      [LiveSideboardSwapPolicyV1] is a class). Over every reachable session, a
      prepared game plays exactly the registered 75 cards of each seat, failed
      calls change nothing, and static preparation fails only on a shortage.

    Interfaces between components are typeclasses ([ChunkSink] and
    [LawfulSink] between emitter and sinks, [ObjectRules] and [LawfulRules]
    between zone changes and the rules, [OpeningEvents] and [LawfulOpening]
    between mulligans and events, [SearchSession] and [lawful] between search and
    session, [CombatView], [SurfaceEngine], [DeclareLaws] and [EngineLaws] between
    the surfaces and the engine, [RulesEngine] and [SessionLaws] between the session
    and the rules, [LiveSideboardSwapPolicyV1] and
    [LawfulLivePolicy] between session and live policies) or records of queries
    ([Queries] between combat damage and the engine); theorems of a client use
    the interface only.

    ** Bounds

    The parser of a document of [n] bytes runs with fuel [2 * n + 1], the drain
    loop of combat damage with the code's own iteration bound, and that of
    mulligans with nine rounds, which suffice in every state
    ([drain_terminates]). A search with a depth cap of at least one runs with its
    transition budget as fuel, since every simulation makes a transition. The
    rejection loop of a redetermination has 2^64 turns, one for every state of the
    generator, which always suffice. The limits of an episode are any [u64] numbers,
    but for a step limit of 2^64-1, at which the saturating sum of the cap test
    lets a group begin that does not fit. The hypotheses [mana_fits]
    (the total mana a search can credit is at most 255 per color) and the bound
    on effective power in combat state when the code's [u8] and [i32]
    arithmetic does not wrap; the undo theorem needs no such hypothesis.

    ** Not modelled

    The tools under infoset_v1 that rewrite libraries for experiments are outside the
    steps of a game. The rules engine proper (engine.rs, effect.rs, trigger.rs, and event.rs beyond
    the journal, and beyond the combat declarations) and the card programs, the
    observation and tensor code, the JSON session of rl_session.rs and the guards
    and caches of its contract modes, the menus of the surface decisions in rl.rs,
    the transport of a policy surface in a payload, the rollouts (in binary64), match
    loop and deck files of limited_match_v1.rs, the older surface of surface.rs, the
    training stores and trainers, the network forward and the evaluator over it,
    the integer searcher, and process I/O. Display texts and serde derives are left out of every component,
    and so are the environment variables and reports of the cache, the run
    metadata of the scheduler and the durations of its waits. The scan of the
    game state for mana sources is an input of the mana solver.

    ** Plan

    Next: planeswalker loyalty and counter distribution over narrow views of the
    state; the integer searcher of kernel_native_search_opponent_v1.rs; the consumer
    contract modes of rl_session.rs. *)

From Stdlib Require Export ZArith Lia Permutation.
From stdpp Require Export base tactics decidable numbers option sorting.
From stdpp Require Export list.

#[export] Set Default Proof Using "Type".

Declare Scope kernel_scope.
Delimit Scope kernel_scope with kernel.
Open Scope kernel_scope.

(* ------------------------------------------------------------------ *)
(** ** Results

    Rust's [Result<T, E>]: every fallible operation of the source returns
    one, and [?] is [let?]. *)

Inductive result (E A : Type) : Type :=
  | Ok (a : A)
  | Err (e : E).
Arguments Ok {E A} a.
Arguments Err {E A} e.

Definition result_bind {E A B : Type} (r : result E A) (k : A -> result E B)
  : result E B :=
  match r with Ok a => k a | Err e => Err e end.

Definition result_map {E A B : Type} (f : A -> B) (r : result E A) : result E B :=
  match r with Ok a => Ok (f a) | Err e => Err e end.

(** [Option::ok_or] *)
Definition ok_or {E A : Type} (e : E) (o : option A) : result E A :=
  match o with Some a => Ok a | None => Err e end.

Definition is_ok {E A : Type} (r : result E A) : bool :=
  match r with Ok _ => true | Err _ => false end.

Notation "'let?' x := r 'in' k" :=
  (result_bind r (fun x => k))
  (at level 10, x pattern, r at level 100, k at level 200)
  : kernel_scope.

(** A failed call either panics or returns an error value. *)
Inductive Fault (E : Type) := Panic | Reject (e : E).
Arguments Panic {E}.
Arguments Reject {E} e.

Definition from_reject {E A} (r : result E A) : result (Fault E) A :=
  match r with Ok a => Ok a | Err e => Err (Reject e) end.

(** [Iterator::try_fold] and the [for .. { ..? }] loops of the source. *)
Section TryFold.
Context {E A S : Type} (f : S -> A -> result E S).

Fixpoint try_fold (s : S) (l : list A) : result E S :=
  match l with
  | [] => Ok s
  | a :: l => let? s := f s a in try_fold s l
  end.

Lemma try_fold_app s l1 l2 :
  try_fold s (l1 ++ l2) = let? s := try_fold s l1 in try_fold s l2.
Proof. revert s. induction l1 as [|a l1 IH]; intros s; cbn; [done|].
  destruct (f s a); cbn; [apply IH|done]. Qed.

Lemma try_fold_ext_in (g : S -> A -> result E S) l :
  (forall s a, a ∈ l -> f s a = g s a) ->
  forall s, try_fold s l = (fix fold s l := match l with
    | [] => Ok s | a :: l => let? s := g s a in fold s l end) s l.
Proof.
  induction l as [|a l IH]; intros Hf s; cbn; [done|].
  rewrite Hf by left. destruct (g s a); cbn; [|done].
  apply IH. intros ? ? ?. apply Hf. by right.
Qed.

(** The invariant rule of a [for] loop. *)
Lemma try_fold_invariant (I : S -> list A -> Prop) s l s' :
  (forall s a l s1, I s (a :: l) -> f s a = Ok s1 -> I s1 l) ->
  I s l -> try_fold s l = Ok s' -> I s' [].
Proof.
  intros Hstep. revert s. induction l as [|a l IH]; intros s HI; cbn.
  - by intros [= <-].
  - destruct (f s a) as [s1|e] eqn:F; cbn; [|done]. eapply IH, Hstep; eauto.
Qed.
End TryFold.

(* ------------------------------------------------------------------ *)
(** ** Machine integers

    A [w]-bit unsigned integer is a [Z] in [0, 2^w); [wrap_u8] is the release
    build's wrapping arithmetic, and the [checked_*] functions are Rust's. *)

Definition u8_max : Z := 255.
Definition u16_max : Z := 65535.
Definition u32_max : Z := 4294967295.
Definition u64_max : Z := 18446744073709551615.
Definition i32_min : Z := -2147483648.
Definition i32_max : Z := 2147483647.
Definition i64_min : Z := -9223372036854775808.
Definition i64_max : Z := 9223372036854775807.

Definition wrap_u8 (z : Z) : Z := z mod 256.
Definition wrap_u64 (z : Z) : Z := z mod 18446744073709551616.

Definition checked_unsigned (max z : Z) : option Z :=
  if ((0 <=? z) && (z <=? max))%Z then Some z else None.
Definition checked_add_u8 (a b : Z) : option Z := checked_unsigned u8_max (a + b).
Definition checked_add_u64 (a b : Z) : option Z := checked_unsigned u64_max (a + b).
Definition checked_mul_u64 (a b : Z) : option Z := checked_unsigned u64_max (a * b).
Definition checked_i32 (z : Z) : option Z :=
  if ((i32_min <=? z) && (z <=? i32_max))%Z then Some z else None.

(* ------------------------------------------------------------------ *)
(** ** Automation *)

Create HintDb kernel discriminated.
Create Rewrite HintDb kernel.

(** Case analysis on every [let?] of a hypothesis [H : _ = Ok _] (or
    [Err _]), keeping the equation of each step. *)
Ltac inv_bind H :=
  repeat match type of H with
  | result_bind ?r _ = _ =>
      let E := fresh "E" in
      destruct r eqn:E; cbn [result_bind] in H; [|try discriminate H]
  | Ok _ = Ok _ => injection H as H
  | Err _ = Ok _ => discriminate H
  | Ok _ = Err _ => discriminate H
  end.

(** Splits a boolean conjunction hypothesis into its conjuncts, and turns
    the integer comparisons of the source into propositions. *)
Ltac bool_to_prop :=
  repeat match goal with
  | H : (_ && _)%bool = true |- _ => apply andb_prop in H; destruct H as [? ?]
  | H : (_ || _)%bool = false |- _ => apply orb_false_elim in H; destruct H as [? ?]
  | H : negb _ = true |- _ => apply negb_true_iff in H
  | H : negb _ = false |- _ => apply negb_false_iff in H
  | H : (_ <=? _)%Z = true |- _ => apply Z.leb_le in H
  | H : (_ <=? _)%Z = false |- _ => apply Z.leb_gt in H
  | H : (_ <? _)%Z = true |- _ => apply Z.ltb_lt in H
  | H : (_ <? _)%Z = false |- _ => apply Z.ltb_ge in H
  | H : (_ =? _)%Z = true |- _ => apply Z.eqb_eq in H
  | H : (_ =? _)%Z = false |- _ => apply Z.eqb_neq in H
  | H : bool_decide _ = true |- _ => apply bool_decide_eq_true in H
  | H : bool_decide _ = false |- _ => apply bool_decide_eq_false in H
  end.

(** Destructs the innermost scrutinee of a [match]/[if] in [H]. *)
Ltac break_in H :=
  match type of H with
  | context [match ?x with _ => _ end] =>
      lazymatch x with
      | context [match _ with _ => _ end] => fail
      | _ => destruct x eqn:?
      end
  end.
Ltac break_goal :=
  match goal with
  | |- context [match ?x with _ => _ end] =>
      lazymatch x with
      | context [match _ with _ => _ end] => fail
      | _ => destruct x eqn:?
      end
  end.

(* ------------------------------------------------------------------ *)
(** ** Generic lemmas *)

Lemma Ok_inj {E A} (a b : A) : @Ok E A a = Ok b -> a = b.
Proof. by intros [= ->]. Qed.

Lemma result_bind_ok {E A B} (r : result E A) (k : A -> result E B) b :
  result_bind r k = Ok b <-> exists a, r = Ok a /\ k a = Ok b.
Proof.
  destruct r as [a|e]; cbn; split.
  - intros H; eauto.
  - intros (a' & [= <-] & H); done.
  - done.
  - intros (a' & [=] & _).
Qed.

Lemma result_bind_err {E A B} (r : result E A) (k : A -> result E B) e :
  result_bind r k = Err e <-> r = Err e \/ exists a, r = Ok a /\ k a = Err e.
Proof.
  destruct r as [a|e']; cbn; split.
  - intros H'. right. by exists a.
  - intros [[=]|(a' & [= <-] & H')]. done.
  - intros [= <-]. by left.
  - intros [[= <-]|(a' & [=] & _)]. done.
Qed.

Lemma result_bind_assoc {E A B D} (r : result E A) (k : A -> result E B) (h : B -> result E D) :
  result_bind (result_bind r k) h = result_bind r (fun a => result_bind (k a) h).
Proof. by destruct r. Qed.

Lemma result_bind_ret {E A} (r : result E A) : result_bind r Ok = r.
Proof. by destruct r. Qed.

Lemma result_bind_ext {E A B} (r : result E A) (k h : A -> result E B) :
  (forall a, r = Ok a -> k a = h a) -> result_bind r k = result_bind r h.
Proof. destruct r; cbn; auto. Qed.

Lemma checked_unsigned_some max z v :
  checked_unsigned max z = Some v <-> v = z /\ (0 <= z <= max)%Z.
Proof.
  unfold checked_unsigned. destruct (_ && _)%bool eqn:E; split.
  - intros [= <-]. bool_to_prop. lia.
  - intros [-> _]. done.
  - done.
  - intros [-> H]. apply andb_false_iff in E.
    destruct E as [E|E]; bool_to_prop; lia.
Qed.

Lemma checked_unsigned_none max z :
  checked_unsigned max z = None <-> ~ (0 <= z <= max)%Z.
Proof.
  unfold checked_unsigned. destruct (_ && _)%bool eqn:E; split; try done.
  - bool_to_prop. intros Hz. lia.
  - intros _ Hz. apply andb_false_iff in E. destruct E as [E|E]; bool_to_prop; lia.
Qed.

Lemma wrap_u8_small z : (0 <= z <= 255)%Z -> wrap_u8 z = z.
Proof. intros. unfold wrap_u8. apply Z.mod_small. lia. Qed.

(** Without duplicate keys an element is determined by its key. *)
Lemma NoDup_map_inj {A K} (key : A -> K) (l : list A) a b :
  NoDup (map key l) -> a ∈ l -> b ∈ l -> key a = key b -> a = b.
Proof.
  induction l as [|x l IH]; [by intros _ ?%elem_of_nil|].
  cbn [map]. intros [Nin ND]%NoDup_cons Ha Hb E.
  assert (forall y, y ∈ l -> key x <> key y) as Hx.
  { intros y Hy Ey. apply Nin. rewrite Ey. apply list_elem_of_In, in_map.
    by apply list_elem_of_In. }
  apply elem_of_cons in Ha as [->|Ha], Hb as [->|Hb]; [done|..].
  - by destruct (Hx b Hb).
  - by destruct (Hx a Ha).
  - by apply IH.
Qed.

Lemma filter_all {A} (P : A -> Prop) `{!forall x, base.Decision (P x)} l : Forall P l -> filter P l = l.
Proof. induction 1 as [|x l Hx _ IH]; [done|]. by rewrite filter_cons, decide_True, IH. Qed.

#[export] Hint Rewrite @result_bind_ok @result_bind_err : kernel.
