(* ===== verification/Ids.v ===== *)
(** * Stable arena ids (src/mtg-kernel/src/ids.rs)

    [PlayerId], [ObjectId], [StackItemId] and the append-only object arena.
    The arena's backing [Arc<Vec<T>>] is copy on write, so a value of [Arena]
    here is the vector the [Arc] points to: [push] and [get_mut] detach it
    before they write, and no clone of the arena observes the write. *)

From S2P Require Import Prelude.

(** [pub struct PlayerId(pub u8)] *)
Record PlayerId := MkPlayerId { player_num : Z }.
#[export] Instance PlayerId_eq_dec : EqDecision PlayerId.
Proof. solve_decision. Defined.

Module PlayerIds.
Definition P0 : PlayerId := MkPlayerId 0.
Definition P1 : PlayerId := MkPlayerId 1.
End PlayerIds.
Import PlayerIds.

(** [PlayerId(1 - self.0)], in [u8] arithmetic. *)
Definition opponent (p : PlayerId) : PlayerId :=
  MkPlayerId (wrap_u8 (1 - player_num p)).

Definition valid_player (p : PlayerId) : Prop := p = P0 \/ p = P1.

(** An array [[T; 2]] indexed by [PlayerId::index]. Indexing with any other
    id panics in Rust; every caller modelled here has validated the id or is
    called with one of the two constants. *)
Record per_player (T : Type) := PerPlayer { of_p0 : T; of_p1 : T }.
Arguments PerPlayer {T} of_p0 of_p1.
Arguments of_p0 {T} _.
Arguments of_p1 {T} _.

Definition seat {T} (a : per_player T) (p : PlayerId) : T :=
  if decide (p = P0) then of_p0 a else of_p1 a.
Definition set_seat {T} (a : per_player T) (p : PlayerId) (v : T) : per_player T :=
  if decide (p = P0) then PerPlayer v (of_p1 a) else PerPlayer (of_p0 a) v.

(** [pub struct ObjectId(pub u32)]: ordered by its number. *)
Record ObjectId := MkObjectId { object_num : Z }.
#[export] Instance ObjectId_eq_dec : EqDecision ObjectId.
Proof. solve_decision. Defined.

(** [pub struct StackItemId(pub u64)] *)
Record StackItemId := MkStackItemId { stack_item_num : Z }.
#[export] Instance StackItemId_eq_dec : EqDecision StackItemId.
Proof. solve_decision. Defined.

Module Arena.
Section Arena.
Context {T : Type}.

Record t := MkArena { items : list T }.

Definition new : t := MkArena [].

(** The id is [self.items.len() as u32]: truncated to 32 bits. *)
Definition push (a : t) (value : T) : t * ObjectId :=
  (MkArena (items a ++ [value]),
   MkObjectId (Z.of_nat (length (items a)) mod (u32_max + 1))).

Definition index (id : ObjectId) : nat := Z.to_nat (object_num id).

(** [try_get]; [get] is the same read, panicking on [None]. *)
Definition try_get (a : t) (id : ObjectId) : option T := items a !! index id.

(** A write through [get_mut]: panics out of range, where the list
    update does nothing. *)
Definition update (a : t) (id : ObjectId) (f : T -> T) : t :=
  MkArena (alter f (index id) (items a)).

Definition len (a : t) : nat := length (items a).
Definition is_empty (a : t) : bool := bool_decide (items a = []).

(** [iter]: ascending ids. *)
Definition iter (a : t) : list (ObjectId * T) :=
  imap (fun i v => (MkObjectId (Z.of_nat i), v)) (items a).
End Arena.
Arguments t T : clear implicits.
End Arena.

(* ------------------------------------------------------------------ *)

Lemma valid_P0 : valid_player P0. Proof. by left. Qed.
Lemma valid_P1 : valid_player P1. Proof. by right. Qed.
#[export] Hint Resolve valid_P0 valid_P1 : kernel.

Lemma P0_ne_P1 : P0 <> P1. Proof. discriminate. Qed.
#[export] Hint Resolve P0_ne_P1 : kernel.

Lemma opponent_P0 : opponent P0 = P1. Proof. reflexivity. Qed.
Lemma opponent_P1 : opponent P1 = P0. Proof. reflexivity. Qed.
#[export] Hint Rewrite opponent_P0 opponent_P1 : kernel.

Lemma opponent_valid p : valid_player p -> valid_player (opponent p).
Proof. intros [->| ->]; [right|left]; reflexivity. Qed.
#[export] Hint Resolve opponent_valid : kernel.

Lemma opponent_involutive p : valid_player p -> opponent (opponent p) = p.
Proof. by intros [->| ->]. Qed.

Lemma opponent_ne p : valid_player p -> opponent p <> p.
Proof. by intros [->| ->]. Qed.

Lemma seat_set_eq {T} (a : per_player T) p v : seat (set_seat a p v) p = v.
Proof. unfold seat, set_seat. by destruct (decide (p = P0)). Qed.

Lemma seat_set_ne {T} (a : per_player T) p q v :
  valid_player p -> valid_player q -> p <> q -> seat (set_seat a p v) q = seat a q.
Proof.
  unfold seat, set_seat. intros [->| ->] [->| ->] ?; try done; by repeat case_decide.
Qed.
#[export] Hint Rewrite @seat_set_eq : kernel.

Lemma seat_P0 {T} (a : per_player T) : seat a P0 = of_p0 a.
Proof. reflexivity. Qed.
Lemma seat_P1 {T} (a : per_player T) : seat a P1 = of_p1 a.
Proof. reflexivity. Qed.
#[export] Hint Rewrite @seat_P0 @seat_P1 : kernel.

Lemma seat_ext {T} (a b : per_player T) :
  seat a P0 = seat b P0 -> seat a P1 = seat b P1 -> a = b.
Proof. rewrite !seat_P0, !seat_P1. destruct a, b; cbn. congruence. Qed.

Section ArenaFacts.
Context {T : Type}.
Implicit Types (a : Arena.t T) (v : T).

Lemma push_index a v :
  (Z.of_nat (Arena.len a) <= u32_max)%Z ->
  Arena.index (snd (Arena.push a v)) = Arena.len a.
Proof.
  unfold Arena.len, Arena.index, Arena.push, u32_max; cbn. intros.
  rewrite Z.mod_small by lia. lia.
Qed.

Lemma push_get_new a v :
  (Z.of_nat (Arena.len a) <= u32_max)%Z ->
  Arena.try_get (fst (Arena.push a v)) (snd (Arena.push a v)) = Some v.
Proof.
  intros H. unfold Arena.try_get. rewrite (push_index _ _ H). cbn.
  unfold Arena.len. rewrite lookup_app_r by lia. by rewrite Nat.sub_diag.
Qed.

Lemma push_get_old a v id x :
  Arena.try_get a id = Some x -> Arena.try_get (fst (Arena.push a v)) id = Some x.
Proof.
  unfold Arena.try_get; cbn. intros H.
  rewrite lookup_app_l; [done|]. by eapply lookup_lt_Some.
Qed.

Lemma update_get_eq a id f x :
  Arena.try_get a id = Some x -> Arena.try_get (Arena.update a id f) id = Some (f x).
Proof. unfold Arena.try_get; cbn. intros H. by rewrite list_lookup_alter_eq, H. Qed.

Lemma update_get_ne a id id' f :
  Arena.index id <> Arena.index id' ->
  Arena.try_get (Arena.update a id f) id' = Arena.try_get a id'.
Proof. unfold Arena.try_get; cbn. intros H. by rewrite list_lookup_alter_ne. Qed.

Lemma update_len a id f : Arena.len (Arena.update a id f) = Arena.len a.
Proof. unfold Arena.len; cbn. by rewrite length_alter. Qed.
End ArenaFacts.
