(* ===== verification/Bytes.v ===== *)
(** * Byte strings

    A byte is a [Z] in [0, 255]; a Rust [String] or [&str] is the list of its
    UTF-8 bytes, ordered bytewise as [Ord for str] orders them. *)

From Stdlib Require Import String Ascii.
From S2P Require Import Prelude.

Abbreviation bytes := (list Z).

Definition bytes_of (s : string) : bytes :=
  map (fun a => Z.of_N (N_of_ascii a)) (list_ascii_of_string s).

(** The order of [String]: bytewise lexicographic. *)
Fixpoint bytes_lt (a b : bytes) : bool :=
  match a, b with
  | _, [] => false
  | [], _ :: _ => true
  | x :: a, y :: b => ((x <? y) || ((x =? y) && bytes_lt a b))%Z
  end.

Lemma bytes_lt_irrefl a : bytes_lt a a = false.
Proof. induction a as [|x a IH]; cbn; [done|]. rewrite Z.ltb_irrefl, Z.eqb_refl, IH. done. Qed.

Lemma bytes_lt_cons x a y b :
  bytes_lt (x :: a) (y :: b) = true <-> (x < y)%Z \/ x = y /\ bytes_lt a b = true.
Proof.
  cbn. rewrite orb_true_iff, andb_true_iff, Z.ltb_lt, Z.eqb_eq. done.
Qed.

Lemma bytes_lt_trans a : forall b c,
  bytes_lt a b = true -> bytes_lt b c = true -> bytes_lt a c = true.
Proof.
  induction a as [|x a IH]; intros [|y b] [|z c]; try done.
  rewrite !bytes_lt_cons. intros [?|[-> Hab]] [?|[-> Hbc]]; try (left; lia).
  right. split; [done|]. by eapply IH.
Qed.

Lemma bytes_lt_total a : forall b, a <> b -> bytes_lt a b = false -> bytes_lt b a = true.
Proof.
  induction a as [|x a IH]; intros [|y b] Hne; try done.
  intros H. apply bytes_lt_cons. cbn in H.
  apply orb_false_iff in H as [H1 H2]. apply Z.ltb_ge in H1.
  apply andb_false_iff in H2. destruct (decide (x = y)) as [->|]; [|left; lia].
  right. split; [done|]. apply IH; [congruence|].
  destruct H2 as [H2|H2]; [by rewrite Z.eqb_refl in H2|done].
Qed.

(** [to_be_bytes] of a [w]-byte unsigned integer, and [from_be_bytes]. *)
Fixpoint to_be_bytes (w : nat) (z : Z) : bytes :=
  match w with O => [] | S w => to_be_bytes w (z / 256) ++ [(z mod 256)%Z] end.

Definition from_be_bytes (b : bytes) : Z :=
  foldl (fun acc byte => acc * 256 + byte)%Z 0%Z b.

Lemma length_be w : forall z, length (to_be_bytes w z) = w.
Proof. induction w as [|w IH]; intros z; cbn; [done|]. rewrite length_app, IH. cbn. lia. Qed.

Lemma to_be_bytes_inj w : forall x y,
  (0 <= x < 256 ^ Z.of_nat w)%Z -> (0 <= y < 256 ^ Z.of_nat w)%Z ->
  to_be_bytes w x = to_be_bytes w y -> x = y.
Proof.
  induction w as [|w IH]; intros x y Hx Hy E; [cbn in Hx, Hy; lia|].
  cbn [to_be_bytes] in E. apply app_inj_2 in E as [E1 [= E2]]; [|done].
  rewrite Nat2Z.inj_succ, Z.pow_succ_r in Hx, Hy by lia.
  assert (x / 256 = y / 256)%Z as Q.
  { apply IH; [split; [apply Z.div_pos|apply Z.div_lt_upper_bound]; lia..|done]. }
  rewrite (Z.div_mod x 256), (Z.div_mod y 256) by lia. congruence.
Qed.

(** Of any integers, negative ones in two's complement: the bytes fix the residue. *)
Lemma to_be_bytes_mod w : forall x y,
  to_be_bytes w x = to_be_bytes w y -> (x mod 256 ^ Z.of_nat w = y mod 256 ^ Z.of_nat w)%Z.
Proof.
  induction w as [|w IH]; intros x y E; [by rewrite !Z.mod_1_r|].
  cbn [to_be_bytes] in E. apply app_inj_2 in E as [E1 [= E2]]; [|done].
  rewrite Nat2Z.inj_succ, Z.pow_succ_r by lia.
  rewrite !Z.rem_mul_r by lia. rewrite (IH _ _ E1). lia.
Qed.

Lemma same_residue (m lo x y : Z) :
  (lo <= x < lo + m)%Z -> (lo <= y < lo + m)%Z -> (x mod m = y mod m)%Z -> x = y.
Proof.
  intros Hx Hy E. pose proof (Z.div_mod x m) as Dx. pose proof (Z.div_mod y m) as Dy.
  assert (x / m = y / m)%Z; [|nia].
  assert (x - y = m * (x / m - y / m))%Z by nia. nia.
Qed.
