(* ===== verification/Randomness.v ===== *)
(** * Random streams and shuffles
      (src/mtg-kernel/src/state.rs, environment_randomization_v2.rs)

    [SplitMix64] is the only generator of the kernel. A legacy game keeps one; an
    environment-v2 game keeps a 64-bit root and a counter per owner, and
    derives a fresh seed for every shuffle from a SHA-256 digest of the
    length-framed root, owner, purpose and counter. [sha256] is a parameter:
    updating a hasher is appending to the message it digests. *)

From Stdlib Require Import String.
From S2P Require Import Prelude Bytes.

(** [pub struct SplitMix64 { state: u64 }] *)
Record SplitMix64 := MkSplitMix64 { sm_state : Z }.
#[export] Instance SplitMix64_eq_dec : EqDecision SplitMix64.
Proof. solve_decision. Defined.

(** [SplitMix64::seed] *)
Definition SplitMix64_seed (seed : Z) : SplitMix64 := MkSplitMix64 seed.

Definition next_u64 (rng : SplitMix64) : SplitMix64 * Z :=
  let state := wrap_u64 (sm_state rng + 0x9E3779B97F4A7C15)%Z in
  let z := state in
  let z := wrap_u64 (Z.lxor z (Z.shiftr z 30) * 0xBF58476D1CE4E5B9)%Z in
  let z := wrap_u64 (Z.lxor z (Z.shiftr z 27) * 0x94D049BB133111EB)%Z in
  (MkSplitMix64 state, Z.lxor z (Z.shiftr z 31)).

(** [slice::swap]; it panics out of range, where nothing changes here. *)
Definition swap {A} (items : list A) (i j : nat) : list A :=
  match items !! i, items !! j with
  | Some x, Some y => <[j := x]> (<[i := y]> items)
  | _, _ => items
  end.

(** [for i in (1..=i).rev()] with its body. *)
Fixpoint shuffle_down {A} (i : nat) (rng : SplitMix64) (items : list A)
  : list A * SplitMix64 :=
  match i with
  | O => (items, rng)
  | S i' =>
      let (rng, u) := next_u64 rng in
      let j := Z.to_nat (u mod (Z.of_nat i + 1)) in
      shuffle_down i' rng (swap items i j)
  end.

(** The descending loop [for i in (1..items.len()).rev()]. *)
Definition fisher_yates {A} (rng : SplitMix64) (items : list A) : list A * SplitMix64 :=
  shuffle_down (pred (length items)) rng items.

(* ------------------------------------------------------------------ *)
(** ** environment_randomization_v2.rs *)

Definition ENVIRONMENT_RANDOMIZATION_IDENTITY_V2 : bytes :=
  bytes_of "mtg-kernel-environment-randomization-sha256-v2".
Definition ENVIRONMENT_RANDOMIZATION_NAMESPACE_V2 : bytes :=
  bytes_of "environment-randomization-substream".

Inductive PhysicalOwnerV2 := PhysicalP0 | PhysicalP1.
Inductive ShufflePurposeV2 := InitialLibraryShuffle | InGameLibraryShuffle.
Inductive EnvironmentRandomizationErrorV2 :=
  InvalidOwnerName | InvalidPurpose | NonZeroInitialOrdinal | OrdinalOverflow.

#[export] Instance PhysicalOwnerV2_eq_dec : EqDecision PhysicalOwnerV2.
Proof. solve_decision. Defined.
#[export] Instance ShufflePurposeV2_eq_dec : EqDecision ShufflePurposeV2.
Proof. solve_decision. Defined.

Definition owner_as_str (o : PhysicalOwnerV2) : bytes :=
  match o with PhysicalP0 => bytes_of "p0" | PhysicalP1 => bytes_of "p1" end.

Definition owner_parse (value : bytes) : result EnvironmentRandomizationErrorV2 PhysicalOwnerV2 :=
  if decide (value = bytes_of "p0") then Ok PhysicalP0
  else if decide (value = bytes_of "p1") then Ok PhysicalP1
  else Err InvalidOwnerName.

Definition purpose_as_str (p : ShufflePurposeV2) : bytes :=
  match p with
  | InitialLibraryShuffle => bytes_of "initial-library-shuffle"
  | InGameLibraryShuffle => bytes_of "in-game-library-shuffle"
  end.

Definition purpose_parse (value : bytes)
  : result EnvironmentRandomizationErrorV2 ShufflePurposeV2 :=
  if decide (value = bytes_of "initial-library-shuffle") then Ok InitialLibraryShuffle
  else if decide (value = bytes_of "in-game-library-shuffle") then Ok InGameLibraryShuffle
  else Err InvalidPurpose.

(** The lengths are those of the short literals and 8-byte integers below:
    their conversions to [u32] and [u64] cannot fail. *)
Definition append_atom (hasher : bytes) (tag payload : bytes) : bytes :=
  hasher ++ to_be_bytes 4 (Z.of_nat (length tag)) ++ tag
         ++ to_be_bytes 8 (Z.of_nat (length payload)) ++ payload.

(** What the hasher has consumed when it is finalized. *)
Definition substream_message (pair_environment_seed : Z) (physical_owner : PhysicalOwnerV2)
    (purpose : ShufflePurposeV2) (ordinal : Z) : bytes :=
  let hasher := [] in
  let hasher := append_atom hasher (bytes_of "version") ENVIRONMENT_RANDOMIZATION_IDENTITY_V2 in
  let hasher := append_atom hasher (bytes_of "namespace") ENVIRONMENT_RANDOMIZATION_NAMESPACE_V2 in
  let hasher := append_atom hasher (bytes_of "field-name") (bytes_of "pair_environment_seed") in
  let hasher := append_atom hasher (bytes_of "u64") (to_be_bytes 8 pair_environment_seed) in
  let hasher := append_atom hasher (bytes_of "field-name") (bytes_of "physical_owner") in
  let hasher := append_atom hasher (bytes_of "str") (owner_as_str physical_owner) in
  let hasher := append_atom hasher (bytes_of "field-name") (bytes_of "purpose") in
  let hasher := append_atom hasher (bytes_of "str") (purpose_as_str purpose) in
  let hasher := append_atom hasher (bytes_of "field-name") (bytes_of "ordinal") in
  append_atom hasher (bytes_of "u64") (to_be_bytes 8 ordinal).

Definition derive_environment_randomization_seed_v2 (sha256 : bytes -> bytes)
    (pair_environment_seed : Z) (physical_owner : PhysicalOwnerV2)
    (purpose : ShufflePurposeV2) (ordinal : Z)
  : result EnvironmentRandomizationErrorV2 Z :=
  if decide (ordinal = u64_max) then Err OrdinalOverflow
  else if decide (purpose = InitialLibraryShuffle /\ ordinal <> 0%Z) then Err NonZeroInitialOrdinal
  else
    let digest :=
      sha256 (substream_message pair_environment_seed physical_owner purpose ordinal) in
    Ok (from_be_bytes (take 8 digest)).

Definition shuffle_slice_in_place_v2 {A} (derived_seed : Z) (items : list A) : list A :=
  fst (fisher_yates (SplitMix64_seed derived_seed) items).

Definition permutation_v2 (derived_seed : Z) (ids : list Z) : list Z :=
  shuffle_slice_in_place_v2 derived_seed ids.

(** [next_live_shuffle_ordinal: [u64; 2]] *)
Record GameEnvironmentRandomizationV2 := MkEnvironmentV2 {
  pair_environment_seed : Z;
  ordinal_p0 : Z;
  ordinal_p1 : Z;
}.

(** [GameEnvironmentRandomizationV2::new] *)
Definition environment_v2_new (root : Z) : GameEnvironmentRandomizationV2 :=
  MkEnvironmentV2 root 0 0.

Definition next_live_shuffle_ordinal (v2 : GameEnvironmentRandomizationV2)
    (owner : PhysicalOwnerV2) : Z :=
  match owner with PhysicalP0 => ordinal_p0 v2 | PhysicalP1 => ordinal_p1 v2 end.

Definition set_live_shuffle_ordinal (v2 : GameEnvironmentRandomizationV2)
    (owner : PhysicalOwnerV2) (checked_successor : Z) : GameEnvironmentRandomizationV2 :=
  match owner with
  | PhysicalP0 => MkEnvironmentV2 (pair_environment_seed v2) checked_successor (ordinal_p1 v2)
  | PhysicalP1 => MkEnvironmentV2 (pair_environment_seed v2) (ordinal_p0 v2) checked_successor
  end.
