(* ===== verification/RandomnessFacts.v ===== *)
(** * Shuffles are exact, substreams are separated

    The descending Fisher-Yates loop is a bijection between admissible index
    draws and orders of the deck, so no order is unreachable and none is reachable
    twice; the messages hashed for two different shuffles differ; and a
    generator that has been stepped fewer than 2^64 times is never back where
    it was. *)

From Stdlib Require Import String.
From S2P Require Import Prelude Bytes Randomness.

(** The indices the loop draws, and the loop run on given indices. *)
Fixpoint draws (i : nat) (rng : SplitMix64) : list nat :=
  match i with
  | O => []
  | S i' =>
      let (rng, u) := next_u64 rng in
      Z.to_nat (u mod (Z.of_nat i + 1)) :: draws i' rng
  end.

Fixpoint shuffle_with {A} (i : nat) (js : list nat) (items : list A) : list A :=
  match i, js with
  | S i', j :: js => shuffle_with i' js (swap items i j)
  | _, _ => items
  end.

(** One index for each [i] of the descending loop, at most [i]. *)
Fixpoint admissible (i : nat) (js : list nat) : Prop :=
  match i, js with
  | O, [] => True
  | S i', j :: js => j <= i /\ admissible i' js
  | _, _ => False
  end.

(* ------------------------------------------------------------------ *)
(** ** Swaps *)

Section Swap.
Context {A : Type}.
Implicit Types l : list A.

Lemma swap_length l i j : length (swap l i j) = length l.
Proof.
  unfold swap. destruct (l !! i), (l !! j); [|done..]. by rewrite !length_insert.
Qed.

Lemma swap_lookup l i j k : i < length l -> j < length l ->
  swap l i j !! k = if decide (k = j) then l !! i else if decide (k = i) then l !! j else l !! k.
Proof.
  intros Hi Hj. destruct (lookup_lt_is_Some_2 l i Hi) as [x Ex].
  destruct (lookup_lt_is_Some_2 l j Hj) as [y Ey]. unfold swap. rewrite Ex, Ey.
  repeat case_decide; subst.
  - rewrite list_lookup_insert_eq; [done|]. by rewrite length_insert.
  - rewrite list_lookup_insert_ne by done. by rewrite list_lookup_insert_eq.
  - by rewrite !list_lookup_insert_ne by done.
Qed.

Lemma swap_perm l i j : swap l i j ≡ₚ l.
Proof.
  unfold swap. destruct (l !! i) as [x|] eqn:Ex; [|done].
  destruct (l !! j) as [y|] eqn:Ey; [|done].
  destruct (decide (i = j)) as [<-|Hne].
  { rewrite list_insert_insert_eq. rewrite list_insert_id by done. done. }
  apply Permutation_inj. split; [by rewrite !length_insert|].
  pose proof (lookup_lt_Some _ _ _ Ex). pose proof (lookup_lt_Some _ _ _ Ey).
  exists (fun k => if decide (k = j) then i else if decide (k = i) then j else k). split.
  - intros a b. repeat case_decide; congruence.
  - intros k. repeat case_decide; subst.
    + rewrite list_lookup_insert_eq; [done|]. by rewrite length_insert.
    + rewrite list_lookup_insert_ne by done. by rewrite list_lookup_insert_eq.
    + by rewrite !list_lookup_insert_ne by done.
Qed.
End Swap.

(* ------------------------------------------------------------------ *)
(** ** Fisher-Yates *)

Section FisherYates.
Context {A : Type}.
Implicit Types l : list A.

Lemma draws_admissible i : forall rng, admissible i (draws i rng).
Proof.
  induction i as [|i IH]; intros rng; [done|]. cbn -[Z.add next_u64].
  destruct (next_u64 rng) as [rng' u]. split; [|apply IH].
  pose proof (Z.mod_pos_bound u (Z.of_nat (S i) + 1)). lia.
Qed.

Lemma shuffle_down_draws i : forall rng l,
  fst (shuffle_down i rng l) = shuffle_with i (draws i rng) l.
Proof.
  induction i as [|i IH]; intros rng l; [done|]. cbn -[Z.add next_u64].
  destruct (next_u64 rng) as [rng' u]. apply IH.
Qed.

Lemma shuffle_with_perm i : forall js l, shuffle_with i js l ≡ₚ l.
Proof.
  induction i as [|i IH]; intros [|j js] l; try done. cbn. rewrite IH. apply swap_perm.
Qed.

Lemma fisher_yates_perm rng l : fst (fisher_yates rng l) ≡ₚ l.
Proof. unfold fisher_yates. rewrite shuffle_down_draws. apply shuffle_with_perm. Qed.

Lemma shuffle_with_above i : forall js l k, admissible i js -> i < length l -> i < k ->
  shuffle_with i js l !! k = l !! k.
Proof.
  induction i as [|i IH]; intros [|j js] l k Ha Hl Hk; try done. destruct Ha as [Hj Ha].
  cbn. rewrite IH; [|done|rewrite swap_length; lia|lia].
  rewrite swap_lookup by lia. by rewrite !decide_False by lia.
Qed.

(** The element the first draw fixes at position [S i]. *)
Lemma shuffle_with_pivot i j js l : admissible (S i) (j :: js) -> S i < length l ->
  shuffle_with (S i) (j :: js) l !! S i = l !! j.
Proof.
  intros [Hj Ha] Hl. cbn [shuffle_with].
  rewrite shuffle_with_above; [|done|rewrite swap_length; lia|lia].
  rewrite swap_lookup by lia. destruct (decide (S i = j)) as [<-|]; [done|].
  by rewrite decide_True.
Qed.

Lemma shuffle_with_inj i : forall js1 js2 l, NoDup l -> i < length l ->
  admissible i js1 -> admissible i js2 ->
  shuffle_with i js1 l = shuffle_with i js2 l -> js1 = js2.
Proof.
  induction i as [|i IH]; intros [|j1 js1] [|j2 js2] l Hnd Hl A1 A2 E; try done.
  assert (j1 = j2) as <-.
  { pose proof (shuffle_with_pivot _ _ _ l A1 Hl) as P1.
    pose proof (shuffle_with_pivot _ _ _ l A2 Hl) as P2. rewrite E, P2 in P1.
    destruct A1 as [L1 _], A2 as [L2 _].
    destruct (lookup_lt_is_Some_2 l j2) as [x Ex]; [lia|].
    symmetry. apply (NoDup_lookup l j2 j1 x); congruence. }
  f_equal. destruct A1 as [_ A1], A2 as [_ A2].
  apply (IH js1 js2 (swap l (S i) j1)); [|rewrite swap_length; lia|done..].
  by rewrite swap_perm.
Qed.

Lemma shuffle_with_onto i : forall l l', NoDup l -> i < length l -> l' ≡ₚ l ->
  (forall k, i < k -> l' !! k = l !! k) ->
  exists js, admissible i js /\ shuffle_with i js l = l'.
Proof.
  induction i as [|i IH]; intros l l' Hnd Hl Hp Hk.
  { exists []. split; [done|]. cbn. destruct l as [|x l]; [cbn in Hl; lia|].
    destruct l' as [|y l']; [by apply Permutation_length in Hp|].
    assert (l' = l) as ->.
    { apply list_eq. intros k. apply (Hk (S k)). lia. }
    apply Permutation_app_inv_r with (l := l) (l1 := [y]) (l2 := [x]) in Hp.
    by apply Permutation_singleton_inj in Hp as ->. }
  pose proof (Permutation_length Hp) as EL.
  destruct (lookup_lt_is_Some_2 l' (S i)) as [x Ex]; [lia|].
  assert (x ∈ l) as Hx by (rewrite <- Hp; by eapply list_elem_of_lookup_2).
  apply list_elem_of_lookup in Hx as [j Ej].
  assert (j <= S i) as Hj.
  { destruct (decide (j <= S i)) as [|Hgt]; [done|]. rewrite <- Hk in Ej by lia.
    assert (NoDup l') as Hnd' by by rewrite Hp.
    pose proof (NoDup_lookup _ _ _ _ Hnd' Ex Ej). lia. }
  destruct (IH (swap l (S i) j) l') as (js & Ha & E).
  - by rewrite swap_perm.
  - rewrite swap_length. lia.
  - by rewrite swap_perm.
  - intros k Hlt. rewrite swap_lookup by lia. repeat case_decide; subst.
    + assert (j = S i) as -> by lia. congruence.
    + congruence.
    + apply Hk. lia.
  - by exists (j :: js).
Qed.
End FisherYates.

(* ------------------------------------------------------------------ *)
(** ** The generator does not come back *)

Definition gamma : Z := 0x9E3779B97F4A7C15.

Fixpoint steps (n : nat) (rng : SplitMix64) : SplitMix64 :=
  match n with O => rng | S n => steps n (fst (next_u64 rng)) end.

Lemma next_u64_state rng : sm_state (fst (next_u64 rng)) = wrap_u64 (sm_state rng + gamma).
Proof. reflexivity. Qed.

Lemma steps_state n : forall rng, (0 <= sm_state rng <= u64_max)%Z ->
  sm_state (steps n rng) = wrap_u64 (sm_state rng + Z.of_nat n * gamma).
Proof.
  induction n as [|n IH]; intros rng Hr.
  { cbn [steps]. rewrite Z.mul_0_l, Z.add_0_r. unfold wrap_u64, u64_max in *. by rewrite Z.mod_small by lia. }
  cbn [steps]. rewrite IH, next_u64_state.
  - unfold wrap_u64. rewrite Zplus_mod_idemp_l. f_equal. lia.
  - rewrite next_u64_state. unfold wrap_u64, u64_max.
    pose proof (Z.mod_pos_bound (sm_state rng + gamma) 18446744073709551616). lia.
Qed.

(** The increment is odd, so it has an inverse modulo 2^64. *)
Lemma gamma_inverse : (gamma * 17428512612931826493 = 10771413168148108919 * 18446744073709551616 + 1)%Z.
Proof. reflexivity. Qed.

Lemma steps_never_return n rng : (0 <= sm_state rng <= u64_max)%Z ->
  0 < n -> (Z.of_nat n <= u64_max)%Z -> steps n rng <> rng.
Proof.
  intros Hr Hn Hm E. pose proof (steps_state n rng Hr) as S. rewrite E in S.
  unfold wrap_u64 in S. unfold u64_max in *.
  pose proof (Z.div_mod (sm_state rng + Z.of_nat n * gamma) 18446744073709551616) as D.
  rewrite <- S in D.
  set (q := ((sm_state rng + Z.of_nat n * gamma) / 18446744073709551616)%Z) in *. clearbody q.
  assert (Z.of_nat n * gamma = q * 18446744073709551616)%Z as G by lia.
  pose proof (f_equal (fun z => z * 17428512612931826493)%Z G) as G'. cbn beta in G'.
  rewrite <- Z.mul_assoc, gamma_inverse in G'. lia.
Qed.

Lemma shuffle_down_steps {A} i : forall rng (l : list A),
  snd (shuffle_down i rng l) = steps i rng.
Proof.
  induction i as [|i IH]; intros rng l; [done|]. cbn -[Z.add next_u64].
  destruct (next_u64 rng) as [rng' u]. apply IH.
Qed.

(* ------------------------------------------------------------------ *)
(** ** Substreams *)

#[local] Opaque to_be_bytes bytes_of.

Lemma atom_inj tag p1 p2 r1 r2 :
  (Z.of_nat (length p1) <= u64_max)%Z -> (Z.of_nat (length p2) <= u64_max)%Z ->
  append_atom [] tag p1 ++ r1 = append_atom [] tag p2 ++ r2 -> p1 = p2 /\ r1 = r2.
Proof.
  intros H1 H2. unfold append_atom. cbn [app]. rewrite <- !app_assoc. intros E.
  do 2 apply app_inv_head in E.
  apply app_inj_1 in E as [EL E]; [|by rewrite !length_be].
  apply to_be_bytes_inj in EL; [|unfold u64_max in *; change (256 ^ Z.of_nat 8)%Z with 18446744073709551616%Z; lia..].
  apply app_inj_1 in E; [done|lia].
Qed.

Lemma append_atom_app h tag p : append_atom h tag p = h ++ append_atom [] tag p.
Proof. reflexivity. Qed.

Lemma substream_message_frames r o p n :
  substream_message r o p n =
  append_atom [] (bytes_of "version") ENVIRONMENT_RANDOMIZATION_IDENTITY_V2 ++
  append_atom [] (bytes_of "namespace") ENVIRONMENT_RANDOMIZATION_NAMESPACE_V2 ++
  append_atom [] (bytes_of "field-name") (bytes_of "pair_environment_seed") ++
  append_atom [] (bytes_of "u64") (to_be_bytes 8 r) ++
  append_atom [] (bytes_of "field-name") (bytes_of "physical_owner") ++
  append_atom [] (bytes_of "str") (owner_as_str o) ++
  append_atom [] (bytes_of "field-name") (bytes_of "purpose") ++
  append_atom [] (bytes_of "str") (purpose_as_str p) ++
  append_atom [] (bytes_of "field-name") (bytes_of "ordinal") ++
  append_atom [] (bytes_of "u64") (to_be_bytes 8 n).
Proof. unfold substream_message, append_atom. cbn [app]. by rewrite <- !app_assoc. Qed.

#[local] Transparent bytes_of.

Lemma owner_as_str_inj o1 o2 : owner_as_str o1 = owner_as_str o2 -> o1 = o2.
Proof. by destruct o1, o2. Qed.
Lemma purpose_as_str_inj p1 p2 : purpose_as_str p1 = purpose_as_str p2 -> p1 = p2.
Proof. by destruct p1, p2. Qed.

Lemma owner_as_str_short o : (Z.of_nat (length (owner_as_str o)) <= u64_max)%Z.
Proof. by destruct o. Qed.
Lemma purpose_as_str_short p : (Z.of_nat (length (purpose_as_str p)) <= u64_max)%Z.
Proof. by destruct p. Qed.
Lemma be8_short z : (Z.of_nat (length (to_be_bytes 8 z)) <= u64_max)%Z.
Proof. by rewrite length_be. Qed.
#[local] Hint Resolve owner_as_str_short purpose_as_str_short be8_short : core.

#[local] Opaque bytes_of.

(** Peels one atom off both messages. *)
Ltac peel E H := apply atom_inj in E as [H E]; [|auto..].

Lemma substream_message_inj r1 o1 p1 n1 r2 o2 p2 n2 :
  (0 <= r1 <= u64_max)%Z -> (0 <= r2 <= u64_max)%Z ->
  (0 <= n1 <= u64_max)%Z -> (0 <= n2 <= u64_max)%Z ->
  substream_message r1 o1 p1 n1 = substream_message r2 o2 p2 n2 ->
  r1 = r2 /\ o1 = o2 /\ p1 = p2 /\ n1 = n2.
Proof.
  unfold u64_max. intros R1 R2 N1 N2 E. rewrite !substream_message_frames in E.
  do 3 apply app_inv_head in E. peel E Hr. apply app_inv_head in E. peel E Ho.
  apply app_inv_head in E. peel E Hp. apply app_inv_head in E.
  rewrite <- (app_nil_r (append_atom _ _ (to_be_bytes 8 n1))) in E.
  rewrite <- (app_nil_r (append_atom _ _ (to_be_bytes 8 n2))) in E. peel E Hn.
  change 18446744073709551615%Z with (256 ^ Z.of_nat 8 - 1)%Z in *.
  split_and!.
  - by apply to_be_bytes_inj in Hr; [|lia..].
  - by apply owner_as_str_inj.
  - by apply purpose_as_str_inj.
  - by apply to_be_bytes_inj in Hn; [|lia..].
Qed.

(* ------------------------------------------------------------------ *)
(** ** Properties *)

(** The descending Fisher-Yates loop rearranges its items by the indices it
    draws, each index [j] of step [i] at most [i]; and among distinct
    items every order is the result of exactly one sequence of such
    indices, so a shuffle can produce every order and no order is favoured
    beyond the bias of reducing a 64-bit draw. *)
Theorem shuffle_reaches_every_order_once {A} (l : list A) :
  (forall rng, admissible (pred (length l)) (draws (pred (length l)) rng) /\
     fst (fisher_yates rng l) = shuffle_with (pred (length l)) (draws (pred (length l)) rng) l) /\
  (NoDup l -> forall l', l' ≡ₚ l <->
     exists! js, admissible (pred (length l)) js /\ shuffle_with (pred (length l)) js l = l').
Proof.
  split.
  - intros rng. split; [apply draws_admissible|]. apply shuffle_down_draws.
  - intros Hnd l'. split.
    + intros Hp. destruct l as [|x l].
      { apply Permutation_nil_r in Hp as ->. exists []. split; [done|].
        intros [|j js] [Ha _]; [done|destruct Ha]. }
      destruct (shuffle_with_onto (length l) (x :: l) l') as (js & Ha & E); cbn; [done|lia|done|..].
      { intros k Hk. pose proof (Permutation_length Hp) as EL. cbn in EL.
        rewrite !lookup_ge_None_2; [done|cbn; lia|lia]. }
      exists js. split; [done|]. intros js' [Ha' E'].
      apply (shuffle_with_inj (length l) js js' (x :: l)); cbn; [done|lia|done|done|congruence].
    + intros (js & [_ <-] & _). apply shuffle_with_perm.
Qed.

(** The third row of the checked-in golden permutations. *)
Lemma shuffle_reaches_every_order_once_witness :
  permutation_v2 2460523621681622887 [3; 1; 4; 15; 9]%Z = [9; 1; 15; 3; 4]%Z /\
  exists! js, admissible 4 js /\ shuffle_with 4 js [3; 1; 4; 15; 9]%Z = [9; 1; 15; 3; 4]%Z.
Proof.
  split; [vm_compute; reflexivity|].
  assert (NoDup [3; 1; 4; 15; 9]%Z) as H by (apply (bool_decide_unpack _); vm_compute; exact I).
  assert ([9; 1; 15; 3; 4]%Z ≡ₚ [3; 1; 4; 15; 9]%Z) as P by solve_Permutation.
  exact (proj1 (proj2 (shuffle_reaches_every_order_once [3; 1; 4; 15; 9]%Z) H _) P).
Defined.

(** A substream seed is refused exactly for the last ordinal or a non-zero
    initial ordinal, and is otherwise read off the digest of a message
    that no other root, owner, purpose or ordinal has: two different
    shuffles never hash the same bytes. *)
Theorem substreams_are_separated (r1 n1 r2 n2 : Z) o1 p1 o2 p2 :
  (0 <= r1 <= u64_max)%Z -> (0 <= n1 <= u64_max)%Z ->
  (0 <= r2 <= u64_max)%Z -> (0 <= n2 <= u64_max)%Z ->
  (forall sha256, is_ok (derive_environment_randomization_seed_v2 sha256 r1 o1 p1 n1) = false <->
     n1 = u64_max \/ p1 = InitialLibraryShuffle /\ n1 <> 0%Z) /\
  (~ (r1 = r2 /\ o1 = o2 /\ p1 = p2 /\ n1 = n2) ->
   exists m1 m2, m1 <> m2 /\ forall sha256 s1 s2,
     derive_environment_randomization_seed_v2 sha256 r1 o1 p1 n1 = Ok s1 ->
     derive_environment_randomization_seed_v2 sha256 r2 o2 p2 n2 = Ok s2 ->
     s1 = from_be_bytes (take 8 (sha256 m1)) /\ s2 = from_be_bytes (take 8 (sha256 m2))).
Proof.
  intros R1 N1 R2 N2. split.
  - intros sha. unfold derive_environment_randomization_seed_v2.
    clear R1 N1 R2 N2. repeat case_decide; cbn; naive_solver.
  - intros Hne. exists (substream_message r1 o1 p1 n1), (substream_message r2 o2 p2 n2). split.
    + intros E. by apply Hne, substream_message_inj.
    + intros sha s1 s2. unfold derive_environment_randomization_seed_v2.
      repeat case_decide; intros [= <-] [= <-]; done.
Qed.

Lemma substreams_are_separated_witness :
  exists m1 m2, m1 <> m2 /\ forall sha256 s1 s2,
    derive_environment_randomization_seed_v2 sha256 7 PhysicalP0 InGameLibraryShuffle 0 = Ok s1 ->
    derive_environment_randomization_seed_v2 sha256 7 PhysicalP1 InGameLibraryShuffle 0 = Ok s2 ->
    s1 = from_be_bytes (take 8 (sha256 m1)) /\ s2 = from_be_bytes (take 8 (sha256 m2)).
Proof.
  apply (substreams_are_separated 7 0 7 0 PhysicalP0 InGameLibraryShuffle PhysicalP1 InGameLibraryShuffle);
    unfold u64_max; [lia..|]. intros (_ & H & _). discriminate H.
Defined.
