(* ===== verification/Hamilton.v ===== *)
(** * Largest-remainder apportionment

    The reference the samplers and the search prior are proved against: [total]
    units are divided among weights in proportion, each getting the floor of its
    quota, and the units left over go one each to the largest remainders, the
    earlier index first among equal ones. *)

From S2P Require Import Prelude.

Local Open Scope Z_scope.

Definition sumZ (l : list Z) : Z := foldr Z.add 0 l.

(** [a] is served no later than [b]. *)
Definition precedes (rems : list Z) (a b : nat) : Prop :=
  nth b rems 0 < nth a rems 0 \/ nth a rems 0 = nth b rems 0 /\ (a <= b)%nat.
#[export] Instance precedes_dec rems : RelDecision (precedes rems).
Proof. intros a b. unfold precedes. apply _. Defined.

(** How many are served before [i]. *)
Definition rank (rems : list Z) (i : nat) : nat :=
  length (filter (fun j => precedes rems j i /\ j <> i) (seq 0 (length rems))).

Definition quotas (total : Z) (ws : list Z) : list Z :=
  map (fun w => w * total / sumZ ws) ws.
Definition rests (total : Z) (ws : list Z) : list Z :=
  map (fun w => w * total mod sumZ ws) ws.
Definition leftover (total : Z) (ws : list Z) : Z := total - sumZ (quotas total ws).

Definition hamilton (total : Z) (ws : list Z) : list Z :=
  imap (fun i q => q + if bool_decide (Z.of_nat (rank (rests total ws) i) < leftover total ws)
                       then 1 else 0) (quotas total ws).

(** One unit more for each listed index. *)
Definition bump_all (l : list Z) (indices : list nat) : list Z :=
  foldl (fun l i => alter (Z.add 1) i l) l indices.

(* ------------------------------------------------------------------ *)
(** ** Sums *)

Arguments sumZ : simpl never.

Lemma sumZ_cons x l : sumZ (x :: l) = x + sumZ l.
Proof. done. Qed.

Lemma sumZ_app l l' : sumZ (l ++ l') = sumZ l + sumZ l'.
Proof. induction l as [|x l IH]; cbn; [done|]. rewrite !sumZ_cons. lia. Qed.

Lemma sumZ_bounds l b : Forall (fun x => 0 <= x <= b) l ->
  0 <= sumZ l <= Z.of_nat (length l) * b.
Proof.
  induction 1 as [|x l Hx Hl IH]; [done|].
  rewrite sumZ_cons. cbn [length]. rewrite Nat2Z.inj_succ, Z.mul_succ_l. lia.
Qed.

Lemma sumZ_nonneg l : Forall (Z.le 0) l -> 0 <= sumZ l.
Proof. induction 1; rewrite ?sumZ_cons; [done|lia]. Qed.

Lemma sumZ_lookup_le l i x : Forall (Z.le 0) l -> l !! i = Some x -> x <= sumZ l.
Proof.
  intros H. revert i. induction H as [|y l Hy Hl IH]; intros i; [done|].
  pose proof (sumZ_nonneg l Hl). rewrite sumZ_cons. destruct i as [|i]; cbn.
  - intros [= ->]. lia.
  - intros E%IH. lia.
Qed.

Lemma sumZ_alter l i d : (i < length l)%nat -> sumZ (alter (Z.add d) i l) = d + sumZ l.
Proof.
  revert i. induction l as [|x l IH]; intros [|i] Hi; try (cbn in Hi; lia).
  - change (sumZ ((d + x) :: l) = d + sumZ (x :: l)). rewrite !sumZ_cons. lia.
  - change (sumZ (x :: alter (Z.add d) i l) = d + sumZ (x :: l)).
    rewrite !sumZ_cons, IH by (cbn in Hi; lia). lia.
Qed.

Lemma sumZ_map_mul c l : sumZ (map (fun x => x * c) l) = sumZ l * c.
Proof. induction l as [|x l IH]; cbn; [done|]. rewrite !sumZ_cons. lia. Qed.

Lemma filter_keeps {A} (P : A -> Prop) `{!forall x, Decision (P x)} (l : list A) :
  Forall P l -> filter P l = l.
Proof. induction 1; [done|]. rewrite filter_cons_True by done. by f_equal. Qed.

Lemma filter_drops {A} (P : A -> Prop) `{!forall x, Decision (P x)} (l : list A) :
  Forall (fun x => ~ P x) l -> filter P l = [].
Proof. induction 1; [done|]. by rewrite filter_cons_False by done. Qed.

Lemma filter_length_mono {A} (P Q : A -> Prop) `{!forall x, Decision (P x)}
    `{!forall x, Decision (Q x)} (l : list A) :
  (forall x, P x -> Q x) -> (length (filter P l) <= length (filter Q l))%nat.
Proof.
  intros HPQ. induction l as [|x l IH]; [done|]. rewrite !filter_cons.
  repeat case_decide; cbn; try lia. naive_solver.
Qed.

(* ------------------------------------------------------------------ *)
(** ** The order of service *)

Section Ranking.
Context (rems : list Z).

#[export] Instance precedes_trans : Transitive (precedes rems).
Proof. intros a b c. unfold precedes. lia. Qed.
#[export] Instance precedes_antisymm : AntiSymm (=) (precedes rems).
Proof. intros a b. unfold precedes. lia. Qed.
#[export] Instance precedes_total : Total (precedes rems).
Proof. intros a b. unfold precedes. lia. Qed.

Definition ranking : list nat := merge_sort (precedes rems) (seq 0 (length rems)).

Lemma ranking_perm : ranking ≡ₚ seq 0 (length rems).
Proof. apply merge_sort_Permutation. Qed.

Lemma ranking_sorted : StronglySorted (precedes rems) ranking.
Proof. apply StronglySorted_merge_sort; apply _. Qed.

Lemma ranking_nodup : NoDup ranking.
Proof. rewrite ranking_perm. apply NoDup_seq. Qed.

Lemma ranking_length : length ranking = length rems.
Proof. rewrite ranking_perm. apply length_seq. Qed.

Lemma ranking_elem i : i ∈ ranking <-> (i < length rems)%nat.
Proof. rewrite ranking_perm, elem_of_seq. lia. Qed.

Lemma ranking_unique l :
  l ≡ₚ seq 0 (length rems) -> StronglySorted (precedes rems) l -> l = ranking.
Proof.
  intros Hp Hs. apply (StronglySorted_unique (precedes rems)); [done|apply ranking_sorted|].
  by rewrite Hp, ranking_perm.
Qed.

Lemma rank_ranking k i : ranking !! k = Some i -> rank rems i = k.
Proof.
  intros Hk. unfold rank. rewrite <- ranking_perm.
  pose proof ranking_sorted as Hs. pose proof ranking_nodup as Hn.
  pose proof (lookup_lt_Some _ _ _ Hk) as Hlt.
  rewrite <- (take_drop_middle _ _ _ Hk) in Hs, Hn |- *.
  apply StronglySorted_app in Hs as (Hx & Hs1 & Hs2).
  apply StronglySorted_cons in Hs2 as [Hi Hs2].
  apply NoDup_app in Hn as (_ & Hd & Hn2). apply NoDup_cons in Hn2 as [Hin _].
  rewrite filter_app, length_app, filter_cons, decide_False by tauto.
  rewrite (filter_keeps _ (take k ranking)), (filter_drops _ (drop (S k) ranking)).
  - cbn. rewrite length_take. lia.
  - apply Forall_forall. intros j Hj [Hp Hne]. rewrite Forall_forall in Hi.
    apply Hne, (anti_symm (precedes rems)); [done|by apply Hi].
  - apply Forall_forall. intros j Hj. split; [|intros ->].
    + apply (Hx j i Hj). by left.
    + apply (Hd i Hj). by left.
Qed.

Lemma elem_of_take_ranking k i : (i < length rems)%nat ->
  i ∈ take k ranking <-> (rank rems i < k)%nat.
Proof.
  intros Hi. apply ranking_elem, list_elem_of_lookup in Hi as [p Hp].
  rewrite (rank_ranking p i Hp), elem_of_take. split.
  - intros (q & Hq & Hlt). by rewrite (NoDup_lookup _ _ _ _ ranking_nodup Hp Hq).
  - intros Hlt. by exists p.
Qed.
End Ranking.

Lemma rank_mono rems i j : precedes rems i j -> (rank rems i <= rank rems j)%nat.
Proof.
  intros Hij. apply filter_length_mono. intros k [Hki Hne]. split.
  - by trans i.
  - intros ->. apply Hne. by apply (anti_symm (precedes rems)).
Qed.

(* ------------------------------------------------------------------ *)
(** ** Serving the units left over *)

Lemma bump_all_length l indices : length (bump_all l indices) = length l.
Proof.
  revert l. induction indices as [|i indices IH]; intros l; cbn; [done|].
  by rewrite IH, length_alter.
Qed.

Lemma bump_all_lookup l indices i : NoDup indices ->
  bump_all l indices !! i = (fun q => q + if bool_decide (i ∈ indices) then 1 else 0) <$> l !! i.
Proof.
  revert l. induction indices as [|j indices IH]; intros l Hn; cbn.
  - rewrite bool_decide_eq_false_2 by apply not_elem_of_nil.
    destruct (l !! i); cbn; [|done]. by rewrite Z.add_0_r.
  - apply NoDup_cons in Hn as [Hj Hn]. rewrite (IH _ Hn).
    destruct (decide (i = j)) as [->|Hij].
    + rewrite list_lookup_alter_eq, (bool_decide_eq_false_2 _ Hj), bool_decide_eq_true_2 by left.
      destruct (l !! j); cbn; [|done]. f_equal. lia.
    + rewrite list_lookup_alter_ne by done.
      rewrite (bool_decide_ext (i ∈ j :: indices) (i ∈ indices)); [done|].
      rewrite elem_of_cons. tauto.
Qed.

Lemma bump_all_sum l indices : Forall (fun i => (i < length l)%nat) indices ->
  sumZ (bump_all l indices) = sumZ l + Z.of_nat (length indices).
Proof.
  revert l. induction indices as [|j indices IH]; intros l H; cbn -[Z.of_nat]; [lia|].
  apply Forall_cons in H as [Hj H].
  rewrite IH by (eapply Forall_impl; [exact H|]; intros i; by rewrite length_alter).
  rewrite sumZ_alter by done. lia.
Qed.

(* ------------------------------------------------------------------ *)
(** ** Apportionment *)

Section Apportionment.
Context (total : Z) (ws : list Z).

Lemma rests_length : length (rests total ws) = length ws.
Proof. apply length_map. Qed.
Lemma quotas_length : length (quotas total ws) = length ws.
Proof. apply length_map. Qed.

Lemma quotas_and_rests l W : 0 < W ->
  sumZ (map (fun w => w * total / W) l) * W + sumZ (map (fun w => w * total mod W) l)
  = sumZ l * total.
Proof.
  intros HW. induction l as [|w l IH]; cbn [map]; rewrite ?sumZ_cons; [done|].
  pose proof (Z.div_mod (w * total) W ltac:(lia)). lia.
Qed.

Lemma rests_bounded : 0 < sumZ ws -> Forall (fun r => 0 <= r < sumZ ws) (rests total ws).
Proof.
  intros HW. apply Forall_forall. intros r (w & -> & _)%list_elem_of_fmap.
  by apply Z.mod_pos_bound.
Qed.

Lemma sumZ_lt_length l b : 0 < b -> (0 < length l)%nat ->
  Forall (fun x => 0 <= x < b) l -> sumZ l < Z.of_nat (length l) * b.
Proof.
  intros Hb Hl H. assert (Forall (fun x => 0 <= x <= b - 1) l) as H'.
  { eapply Forall_impl; [exact H|]. cbn. lia. }
  apply sumZ_bounds in H'. nia.
Qed.

(** What is left over is what the remainders add up to. *)
Lemma leftover_rests : 0 < sumZ ws -> leftover total ws * sumZ ws = sumZ (rests total ws).
Proof.
  intros HW. unfold leftover. pose proof (quotas_and_rests ws (sumZ ws) HW) as E.
  fold (quotas total ws) (rests total ws) in E. nia.
Qed.

Lemma leftover_bounds : 0 < sumZ ws -> 0 <= leftover total ws < Z.of_nat (length ws).
Proof.
  intros HW. pose proof (leftover_rests HW) as E. pose proof (rests_bounded HW) as Hr.
  assert (0 < length ws)%nat as Hl by (destruct ws; [done|cbn; lia]).
  rewrite <- rests_length in Hl |- *.
  pose proof (sumZ_lt_length _ _ HW Hl Hr).
  assert (0 <= sumZ (rests total ws)).
  { apply sumZ_nonneg. eapply Forall_impl; [exact Hr|]. cbn. lia. }
  nia.
Qed.

(** The reference is what serving the order of service computes. *)
Lemma hamilton_bump : 0 < sumZ ws ->
  bump_all (quotas total ws) (take (Z.to_nat (leftover total ws)) (ranking (rests total ws)))
  = hamilton total ws.
Proof.
  intros HW. pose proof (leftover_bounds HW). apply list_eq. intros i.
  rewrite bump_all_lookup by (eapply sublist_NoDup; [apply ranking_nodup|apply sublist_take]).
  unfold hamilton. rewrite list_lookup_imap.
  destruct (quotas total ws !! i) as [q|] eqn:Eq; cbn; [|done]. do 2 f_equal.
  apply lookup_lt_Some in Eq. rewrite quotas_length in Eq.
  rewrite (bool_decide_ext (i ∈ _) (Z.of_nat (rank (rests total ws) i) < leftover total ws)); [done|].
  rewrite elem_of_take_ranking by (by rewrite rests_length). lia.
Qed.

Lemma hamilton_length : length (hamilton total ws) = length ws.
Proof. unfold hamilton. by rewrite length_imap, quotas_length. Qed.

Lemma hamilton_sum : 0 < sumZ ws -> sumZ (hamilton total ws) = total.
Proof.
  intros HW. pose proof (leftover_bounds HW). rewrite <- hamilton_bump by done.
  rewrite bump_all_sum.
  - rewrite length_take, ranking_length, rests_length, Nat.min_l by lia.
    unfold leftover in *. lia.
  - apply Forall_forall. intros i Hi. apply elem_of_take in Hi as (p & Hp & _).
    apply list_elem_of_lookup_2, ranking_elem in Hp.
    by rewrite rests_length in Hp; rewrite quotas_length.
Qed.

Lemma hamilton_lookup i m : hamilton total ws !! i = Some m <->
  exists w, ws !! i = Some w /\
    m = w * total / sumZ ws
        + (if bool_decide (Z.of_nat (rank (rests total ws) i) < leftover total ws) then 1 else 0).
Proof.
  unfold hamilton, quotas. rewrite list_lookup_imap, list_lookup_fmap.
  destruct (ws !! i) as [w|]; cbn; split.
  - intros [= <-]. by exists w.
  - by intros (w' & [= <-] & ->).
  - done.
  - by intros (w' & [=] & _).
Qed.

Lemma hamilton_nonneg : 0 <= total -> Forall (Z.le 0) ws -> 0 < sumZ ws ->
  Forall (Z.le 0) (hamilton total ws).
Proof.
  intros Ht Hw HW. apply Forall_forall. intros x [j Hj]%list_elem_of_lookup.
  apply hamilton_lookup in Hj as (w & Ew & ->).
  pose proof (Forall_lookup_1 _ _ _ _ Hw Ew) as Hwb. cbv beta in Hwb.
  assert (0 <= w * total / sumZ ws) by (apply Z.div_pos; nia).
  destruct (bool_decide _); lia.
Qed.

(** The quota rule: every share is within one unit of the exact proportion. *)
Lemma hamilton_quota i m w : 0 < sumZ ws -> hamilton total ws !! i = Some m ->
  ws !! i = Some w -> w * total - sumZ ws < m * sumZ ws <= w * total + sumZ ws.
Proof.
  intros HW (w' & Ew & ->)%hamilton_lookup E. rewrite E in Ew. injection Ew as <-.
  pose proof (Z.div_mod (w * total) (sumZ ws) ltac:(lia)).
  pose proof (Z.mod_pos_bound (w * total) (sumZ ws) HW).
  case_bool_decide; nia.
Qed.

Lemma rests_nth i w : ws !! i = Some w -> nth i (rests total ws) 0 = w * total mod sumZ ws.
Proof.
  intros E. apply nth_lookup_Some. unfold rests. by rewrite list_lookup_fmap, E.
Qed.

(** A larger weight never gets less; an equal one gets less by one unit at
    most, and only behind in the list. *)
Lemma hamilton_mono i j wi wj mi mj : 0 < sumZ ws -> 0 < total ->
  ws !! i = Some wi -> ws !! j = Some wj -> wi < wj \/ wi = wj /\ (j <= i)%nat ->
  hamilton total ws !! i = Some mi -> hamilton total ws !! j = Some mj -> mi <= mj.
Proof.
  intros HW Ht Ei Ej Hij (wi' & Ei' & ->)%hamilton_lookup (wj' & Ej' & ->)%hamilton_lookup.
  rewrite Ei in Ei'. rewrite Ej in Ej'. injection Ei' as <-. injection Ej' as <-.
  assert (wi * total / sumZ ws <= wj * total / sumZ ws) as Hq by (apply Z.div_le_mono; nia).
  destruct (decide (wi * total / sumZ ws = wj * total / sumZ ws)) as [Eq|]; cycle 1.
  { repeat case_bool_decide; lia. }
  assert (rank (rests total ws) j <= rank (rests total ws) i)%nat as Hr.
  { apply rank_mono. unfold precedes. rewrite (rests_nth i wi Ei), (rests_nth j wj Ej).
    pose proof (Z.div_mod (wi * total) (sumZ ws) ltac:(lia)).
    pose proof (Z.div_mod (wj * total) (sumZ ws) ltac:(lia)).
    destruct Hij as [Hij|[-> Hij]]; [left; nia|right; lia]. }
  repeat case_bool_decide; lia.
Qed.
End Apportionment.
