(* ===== verification/FastSampler.v ===== *)
(** * The fast categorical sampler (src/mtg-kernel/src/fast_sampler.rs)

    Logits become integer masses that add up to 2^64, and one draw of 64 bits
    picks an action. An [f32] is its 32 bits; a [u128] operation wraps as a
    release build wraps it, an index out of range is a panic. The scratch arrays
    are state: they keep what the last call left in them. *)

From stdpp Require Import strings.
From S2P Require Import Prelude.

Definition FAST_CATEGORICAL_MAX_ACTIONS : nat := 64.
Definition FAST_CATEGORICAL_MASS_TOTAL : Z := Z.shiftl 1 64.
Definition FAST_CATEGORICAL_EXP_BASE_Q63 : Z := 9187413517043429148.
Definition WIDE_CATEGORICAL_MAX_ACTIONS_V1 : Z := 65536.
Definition Q63_SCALE : Z := Z.shiftl 1 63.
Definition Q63_HALF : Z := Z.shiftl 1 62.
Definition F32_SIGN_MASK : Z := Z.shiftl 1 31.
Definition F32_EXP_MASK : Z := Z.shiftl 0xff 23.
Definition F32_FRACTION_MASK : Z := Z.shiftl 1 23 - 1.
Definition UNIVERSAL_SCALE_TO_Q8_SHIFT : nat := 141.
Definition Q8_CLAMP : Z := 4096.

Definition wrap_u16 (z : Z) : Z := z mod 65536.
Definition wrap_u128 (z : Z) : Z := z mod 2 ^ 128.

(** ** The table of weights *)

Definition round_q63_product_ties_even (left right : Z) : Z :=
  let product := (left * right)%Z in
  let quotient := Z.shiftr product 63 in
  let remainder := Z.land product (Q63_SCALE - 1) in
  let increment := (Q63_HALF <? remainder)%Z
    || ((remainder =? Q63_HALF)%Z && (Z.land quotient 1 =? 1)%Z) in
  wrap_u64 (quotient + if increment then 1 else 0).

(** The loop of [build_exp_table_q63]: every entry from the one before it. *)
Fixpoint exp_entries (n : nat) (previous : Z) : list Z :=
  match n with
  | O => []
  | S n =>
      let entry := round_q63_product_ties_even previous FAST_CATEGORICAL_EXP_BASE_Q63 in
      entry :: exp_entries n entry
  end.

Definition build_exp_table_q63 : list Z :=
  Z.shiftl 1 63 :: exp_entries (Z.to_nat 4096) (Z.shiftl 1 63).

Definition FAST_CATEGORICAL_EXP_TABLE_Q63 : list Z := build_exp_table_q63.

(** ** Errors *)

Inductive FastCategoricalError :=
  | Empty
  | WidthExceeded (width maximum : Z)
  | NonFinite (index : nat) (bits : Z)
  | InternalInvariant (code : string).

#[export] Instance FastCategoricalError_eq_dec : EqDecision FastCategoricalError.
Proof. solve_decision. Defined.

Definition validate_width (logits : list Z) : result FastCategoricalError nat :=
  let width := length logits in
  if decide (width = 0) then Err Empty
  else if decide (FAST_CATEGORICAL_MAX_ACTIONS < width) then
    Err (WidthExceeded (Z.of_nat width) (Z.of_nat FAST_CATEGORICAL_MAX_ACTIONS))
  else Ok width.

(** ** Exact differences of binary32 values *)

Definition finite_order_key (bits : Z) : Z :=
  if decide (Z.land bits F32_SIGN_MASK = 0%Z) then Z.lxor bits F32_SIGN_MASK
  else Z.lxor bits u32_max.

(** [[u64; 5]], the low word first. *)
Definition Magnitude := list Z.

Definition f32_magnitude_in_subnormal_units (bits : Z) : Magnitude :=
  let exponent := Z.shiftr (Z.land bits F32_EXP_MASK) 23 in
  let fraction := Z.land bits F32_FRACTION_MASK in
  let (significand, shift) :=
    if decide (exponent = 0%Z) then (fraction, 0%Z)
    else (Z.lor fraction (Z.shiftl 1 23), (exponent - 1)%Z) in
  let result := replicate 5 0%Z in
  let word := Z.to_nat (shift / 64) in
  let offset := (shift mod 64)%Z in
  let result := <[word := wrap_u64 (Z.shiftl significand offset)]> result in
  if decide (offset <> 0%Z) then
    <[word + 1 := Z.shiftr significand (64 - offset)]> result
  else result.

(** The loop of [add_magnitude] with the carry it ends with. *)
Fixpoint add_words (left right : list Z) (carry : Z) : list Z * Z :=
  match left, right with
  | l :: ls, r :: rs =>
      let sum := (l + r + carry)%Z in
      let (words, carry) := add_words ls rs (Z.shiftr sum 64) in
      (wrap_u64 sum :: words, carry)
  | _, _ => ([], carry)
  end.

Definition add_magnitude (left right : Magnitude) : result FastCategoricalError Magnitude :=
  let (words, carry) := add_words left right 0 in
  if decide (carry <> 0%Z) then Err (InternalInvariant "magnitude-add-overflow") else Ok words.

Fixpoint subtract_words (left right : list Z) (borrow : Z) : list Z * Z :=
  match left, right with
  | minuend :: ls, r :: rs =>
      let subtrahend := (r + borrow)%Z in
      let (words, borrow) :=
        subtract_words ls rs (if (minuend <? subtrahend)%Z then 1 else 0) in
      (wrap_u64 (wrap_u128 (minuend - subtrahend)) :: words, borrow)
  | _, _ => ([], borrow)
  end.

Definition subtract_magnitude (left right : Magnitude)
  : result FastCategoricalError Magnitude :=
  let (words, borrow) := subtract_words left right 0 in
  if decide (borrow <> 0%Z) then Err (InternalInvariant "magnitude-subtract-underflow")
  else Ok words.

(** The words of a [Magnitude] by index; its five words are always there. *)
Definition word_at (value : Magnitude) (index : nat) : Z := nth index value 0%Z.

Definition bit_is_set (value : Magnitude) (bit : nat) : bool :=
  negb (Z.land (word_at value (bit / 64)) (Z.shiftl 1 (Z.of_nat (bit mod 64))) =? 0)%Z.

Definition any_nonzero (words : list Z) : bool := existsb (fun word => negb (word =? 0)%Z) words.

Definition any_bits_below (value : Magnitude) (exclusive_bit : nat) : bool :=
  let whole_words := exclusive_bit / 64 in
  if any_nonzero (take whole_words value) then true
  else
    let partial := exclusive_bit mod 64 in
    negb (Nat.eqb partial 0)
    && negb (Z.land (word_at value whole_words) (Z.shiftl 1 (Z.of_nat partial) - 1) =? 0)%Z.

Definition any_bits_at_or_above (value : Magnitude) (inclusive_bit : nat) : bool :=
  let word := inclusive_bit / 64 in
  let offset := inclusive_bit mod 64 in
  negb (Z.shiftr (word_at value word) (Z.of_nat offset) =? 0)%Z
  || any_nonzero (drop (word + 1) value).

Definition extract_u16 (value : Magnitude) (start_bit width : nat) : Z :=
  let word := start_bit / 64 in
  let offset := start_bit mod 64 in
  let result := Z.shiftr (word_at value word) (Z.of_nat offset) in
  let result :=
    if decide (64 < offset + width) then
      Z.lor result (wrap_u64 (Z.shiftl (word_at value (word + 1)) (Z.of_nat (64 - offset))))
    else result in
  wrap_u16 (Z.land result (Z.shiftl 1 (Z.of_nat width) - 1)).

Definition is_negative (bits : Z) : bool := negb (Z.land bits F32_SIGN_MASK =? 0)%Z.

Definition gap_magnitude (maximum_bits value_bits : Z) : result FastCategoricalError Magnitude :=
  let maximum_magnitude := f32_magnitude_in_subnormal_units maximum_bits in
  let value_magnitude := f32_magnitude_in_subnormal_units value_bits in
  match is_negative maximum_bits, is_negative value_bits with
  | false, false => subtract_magnitude maximum_magnitude value_magnitude
  | false, true => add_magnitude maximum_magnitude value_magnitude
  | true, true => subtract_magnitude value_magnitude maximum_magnitude
  | true, false => Err (InternalInvariant "finite-maximum-sign-order")
  end.

Definition quantized_gap_q8 (maximum_bits value_bits : Z) : result FastCategoricalError Z :=
  let? gap := gap_magnitude maximum_bits value_bits in
  if any_bits_at_or_above gap (UNIVERSAL_SCALE_TO_Q8_SHIFT + 12) then Ok Q8_CLAMP
  else
    let quotient := extract_u16 gap UNIVERSAL_SCALE_TO_Q8_SHIFT 12 in
    let half_bit := UNIVERSAL_SCALE_TO_Q8_SHIFT - 1 in
    let round_up := bit_is_set gap half_bit
      && (any_bits_below gap half_bit || (Z.land quotient 1 =? 1)%Z) in
    let quotient := if round_up then wrap_u16 (quotient + 1) else quotient in
    Ok (Z.min quotient Q8_CLAMP).

(* ------------------------------------------------------------------ *)
(** ** The scratch

    The four arrays of [FastCategoricalScratch]; those of
    [WideCategoricalScratchV1] are the same four with vectors for arrays. *)

Record FastCategoricalScratch := MkScratch {
  weights : list Z;
  remainders : list Z;
  masses : list Z;
  order : list nat;
}.

(** [FastCategoricalScratch::default] *)
Definition default_scratch : FastCategoricalScratch :=
  MkScratch (replicate FAST_CATEGORICAL_MAX_ACTIONS 0%Z)
    (replicate FAST_CATEGORICAL_MAX_ACTIONS 0%Z)
    (replicate FAST_CATEGORICAL_MAX_ACTIONS 0%Z)
    (replicate FAST_CATEGORICAL_MAX_ACTIONS 0).

(** A method on [&mut self]: what it leaves in [self] and how it returns. *)
Definition M (S A : Type) : Type := S -> S * result (Fault FastCategoricalError) A.

Definition ret {S A} (a : A) : M S A := fun s => (s, Ok a).
Definition bind {S A B} (m : M S A) (k : A -> M S B) : M S B :=
  fun s => let (s, r) := m s in match r with Ok a => k a s | Err e => (s, Err e) end.
Definition lift {S A} (r : result (Fault FastCategoricalError) A) : M S A := fun s => (s, r).
Definition reject {S A} (r : result FastCategoricalError A) : M S A := lift (from_reject r).
Definition gets {S A} (f : S -> A) : M S A := fun s => (s, Ok (f s)).

Notation "'let!' x := m 'in' k" :=
  (bind m (fun x => k))
  (at level 10, x pattern, m at level 100, k at level 200)
  : kernel_scope.

(** [array[index]] and [array[index] = value]. *)
Definition read {A} (array : list A) (index : nat) : result (Fault FastCategoricalError) A :=
  ok_or Panic (array !! index).
Definition write {A} (array : list A) (index : nat) (value : A)
  : result (Fault FastCategoricalError) (list A) :=
  if decide (index < length array) then Ok (<[index := value]> array) else Err Panic.

Section Stores.
Implicit Types (s : FastCategoricalScratch) (index : nat) (value : Z).

Definition store_weight index value : M FastCategoricalScratch () := fun s =>
  match write (weights s) index value with
  | Ok a => (MkScratch a (remainders s) (masses s) (order s), Ok ())
  | Err e => (s, Err e)
  end.
Definition store_remainder index value : M FastCategoricalScratch () := fun s =>
  match write (remainders s) index value with
  | Ok a => (MkScratch (weights s) a (masses s) (order s), Ok ())
  | Err e => (s, Err e)
  end.
Definition store_mass index value : M FastCategoricalScratch () := fun s =>
  match write (masses s) index value with
  | Ok a => (MkScratch (weights s) (remainders s) a (order s), Ok ())
  | Err e => (s, Err e)
  end.
Definition store_order index (value : nat) : M FastCategoricalScratch () := fun s =>
  match write (order s) index value with
  | Ok a => (MkScratch (weights s) (remainders s) (masses s) a, Ok ())
  | Err e => (s, Err e)
  end.

Definition load {A} (field : FastCategoricalScratch -> list A) index
  : M FastCategoricalScratch A := fun s => (s, read (field s) index).

(** [&array[..width]] *)
Definition load_slice {A} (field : FastCategoricalScratch -> list A) (width : nat)
  : M FastCategoricalScratch (list A) := fun s =>
  (s, if decide (width <= length (field s)) then Ok (take width (field s)) else Err Panic).
End Stores.

(** ** The loops of [apportion] *)

Fixpoint scan_maximum (index : nat) (logits : list Z) (maximum_bits maximum_key : Z)
  : result FastCategoricalError Z :=
  match logits with
  | [] => Ok maximum_bits
  | bits :: logits =>
      if decide (Z.land bits F32_EXP_MASK = F32_EXP_MASK) then Err (NonFinite index bits)
      else
        let key := finite_order_key bits in
        if decide (maximum_key < key)%Z then scan_maximum (S index) logits bits key
        else scan_maximum (S index) logits maximum_bits maximum_key
  end.

Definition find_maximum (logits : list Z) : result (Fault FastCategoricalError) Z :=
  let? maximum_bits := read logits 0 in
  from_reject (scan_maximum 0 logits maximum_bits (finite_order_key maximum_bits)).

Fixpoint weigh (maximum_bits : Z) (index : nat) (logits : list Z) (weight_total : Z)
  : M FastCategoricalScratch Z :=
  match logits with
  | [] => ret weight_total
  | bits :: logits =>
      let! delta_index := reject (quantized_gap_q8 maximum_bits bits) in
      let! weight := lift (read FAST_CATEGORICAL_EXP_TABLE_Q63 (Z.to_nat delta_index)) in
      let! _ := store_weight index weight in
      weigh maximum_bits (S index) logits (wrap_u128 (weight_total + weight))
  end.

(** [numerator / weight_total] panics on zero; [cast] is the conversion of an
    index to an element of [order]. *)
Fixpoint divide (cast : nat -> nat) (weight_total : Z) (indices : list nat)
    (apportioned_total : Z) : M FastCategoricalScratch Z :=
  match indices with
  | [] => ret apportioned_total
  | index :: indices =>
      let! weight := load weights index in
      let numerator := wrap_u128 (weight * FAST_CATEGORICAL_MASS_TOTAL) in
      let! _ := lift (if decide (weight_total = 0%Z) then Err Panic else Ok ()) in
      let quotient := (numerator / weight_total)%Z in
      let! _ := store_mass index quotient in
      let! _ := store_remainder index (numerator mod weight_total)%Z in
      let! _ := store_order index (cast index) in
      divide cast weight_total indices (wrap_u128 (apportioned_total + quotient))
  end.

(** [index as u8] *)
Definition as_u8 (index : nat) : nat := Z.to_nat (wrap_u8 (Z.of_nat index)).

Definition candidate_is_better (candidate_remainder previous_remainder : Z)
    (candidate_index previous_index : nat) : bool :=
  ((previous_remainder <? candidate_remainder)
   || (candidate_remainder =? previous_remainder)
      && bool_decide (candidate_index < previous_index)%nat)%Z.

(** The [while] loop: it moves worse entries up and returns where it stops. *)
Fixpoint sift (candidate insertion : nat) : M FastCategoricalScratch nat :=
  match insertion with
  | O => ret O
  | S below =>
      let! previous := load order below in
      let! candidate_remainder := load remainders candidate in
      let! previous_remainder := load remainders previous in
      if candidate_is_better candidate_remainder previous_remainder candidate previous then
        let! _ := store_order insertion previous in
        sift candidate below
      else ret insertion
  end.

Fixpoint insertion_sort (positions : list nat) : M FastCategoricalScratch () :=
  match positions with
  | [] => ret ()
  | position :: positions =>
      let! candidate := load order position in
      let! insertion := sift candidate position in
      let! _ := store_order insertion candidate in
      insertion_sort positions
  end.

Fixpoint add_residual (ranks : list nat) : M FastCategoricalScratch () :=
  match ranks with
  | [] => ret ()
  | rank :: ranks =>
      let! index := load order rank in
      let! mass := load masses index in
      let! _ := store_mass index (wrap_u128 (mass + 1)) in
      add_residual ranks
  end.

Definition sum_u128 (values : list Z) : Z :=
  foldl (fun total value => wrap_u128 (total + value)) 0%Z values.

Definition usize_try_from (z : Z) : option Z := checked_unsigned u64_max z.

(** [u128::checked_sub] *)
Definition checked_sub_u128 (a b : Z) : option Z := checked_unsigned (2 ^ 128 - 1) (a - b).

Definition narrow_residual (width : nat) (apportioned_total : Z)
  : result FastCategoricalError Z :=
  let? residual_mass := ok_or (InternalInvariant "apportioned-total-overflow")
    (checked_sub_u128 FAST_CATEGORICAL_MASS_TOTAL apportioned_total) in
  let? residual := ok_or (InternalInvariant "hamilton-residual-not-usize")
    (usize_try_from residual_mass) in
  if decide (Z.of_nat width <= residual)%Z then
    Err (InternalInvariant "hamilton-residual-out-of-range")
  else Ok residual.

Definition apportion (logits : list Z) : M FastCategoricalScratch (list Z) :=
  let! width := reject (validate_width logits) in
  let! maximum_bits := lift (find_maximum logits) in
  let! weight_total := weigh maximum_bits 0 logits 0 in
  let! apportioned_total := divide as_u8 weight_total (seq 0 width) 0 in
  let! _ := insertion_sort (seq 1 (width - 1)) in
  let! residual := reject (narrow_residual width apportioned_total) in
  let! _ := add_residual (seq 0 (Z.to_nat residual)) in
  let! masses := load_slice masses width in
  if decide (sum_u128 masses <> FAST_CATEGORICAL_MASS_TOTAL) then
    reject (Err (InternalInvariant "hamilton-mass-total"))
  else ret masses.

(** ** Sampling *)

Definition splitmix64_first (seed : Z) : Z :=
  let mixed := wrap_u64 (seed + 0x9E3779B97F4A7C15)%Z in
  let mixed := wrap_u64 (Z.lxor mixed (Z.shiftr mixed 30) * 0xBF58476D1CE4E5B9)%Z in
  let mixed := wrap_u64 (Z.lxor mixed (Z.shiftr mixed 27) * 0x94D049BB133111EB)%Z in
  Z.lxor mixed (Z.shiftr mixed 31).

Fixpoint inverse_cdf (draw : Z) (index : nat) (cumulative : Z) (masses : list Z) : option nat :=
  match masses with
  | [] => None
  | mass :: masses =>
      let cumulative := wrap_u128 (cumulative + mass) in
      if decide (draw < cumulative)%Z then Some index
      else inverse_cdf draw (S index) cumulative masses
  end.

Definition sample (logits : list Z) (seed : Z) : M FastCategoricalScratch nat :=
  let draw := splitmix64_first seed in
  let! masses := apportion logits in
  reject (ok_or (InternalInvariant "inverse-cdf-not-total") (inverse_cdf draw 0 0 masses)).

Definition last_masses_v1 (width : nat) (s : FastCategoricalScratch)
  : result (Fault FastCategoricalError) (list Z) := snd (load_slice masses width s).

(* ------------------------------------------------------------------ *)
(** ** The wide sampler

    [reserve len additional] is the answer of the allocator to
    [try_reserve_exact]; [sort_unstable_by] with a comparator that never says
    equal is the sort by that order. *)

Record WideCategoricalScratchV1 := MkWide {
  narrow : FastCategoricalScratch;
  wide : FastCategoricalScratch;
}.

(** [WideCategoricalScratchV1::default] *)
Definition default_wide : WideCategoricalScratchV1 :=
  MkWide default_scratch (MkScratch [] [] [] []).

(** A method of one of the fields. *)
Definition on_narrow {A} (m : M FastCategoricalScratch A) : M WideCategoricalScratchV1 A :=
  fun s => let (n, r) := m (narrow s) in (MkWide n (wide s), r).
Definition on_wide {A} (m : M FastCategoricalScratch A) : M WideCategoricalScratchV1 A :=
  fun s => let (w, r) := m (wide s) in (MkWide (narrow s) w, r).

(** The closure of [sort_unstable_by] as a relation: [a] not after [b]. *)
Definition hamilton_le (remainders : list Z) (a b : nat) : Prop :=
  let ra := nth a remainders 0%Z in
  let rb := nth b remainders 0%Z in
  (rb < ra)%Z \/ (ra = rb /\ a <= b).
#[export] Instance hamilton_le_dec remainders : RelDecision (hamilton_le remainders).
Proof. intros a b. unfold hamilton_le. cbn. apply _. Defined.

Section Wide.
Context (reserve : nat -> nat -> bool).

Definition resize_wide_scratch {A} (default : A) (values : list A) (width : nat)
  : result FastCategoricalError (list A) :=
  if bool_decide (length values < width) && negb (reserve (length values) (width - length values))
  then Err (InternalInvariant "wide-scratch-allocation")
  else Ok (resize width default values).

Definition resize_weights (width : nat) : M FastCategoricalScratch () := fun s =>
  match resize_wide_scratch 0%Z (weights s) width with
  | Ok a => (MkScratch a (remainders s) (masses s) (order s), Ok ())
  | Err e => (s, Err (Reject e))
  end.
Definition resize_remainders (width : nat) : M FastCategoricalScratch () := fun s =>
  match resize_wide_scratch 0%Z (remainders s) width with
  | Ok a => (MkScratch (weights s) a (masses s) (order s), Ok ())
  | Err e => (s, Err (Reject e))
  end.
Definition resize_masses (width : nat) : M FastCategoricalScratch () := fun s =>
  match resize_wide_scratch 0%Z (masses s) width with
  | Ok a => (MkScratch (weights s) (remainders s) a (order s), Ok ())
  | Err e => (s, Err (Reject e))
  end.
Definition resize_order (width : nat) : M FastCategoricalScratch () := fun s =>
  match resize_wide_scratch 0 (order s) width with
  | Ok a => (MkScratch (weights s) (remainders s) (masses s) a, Ok ())
  | Err e => (s, Err (Reject e))
  end.

Definition sort_order : M FastCategoricalScratch () := fun s =>
  (MkScratch (weights s) (remainders s) (masses s)
     (merge_sort (hamilton_le (remainders s)) (order s)), Ok ()).

Definition wide_residual (width : nat) (apportioned_total : Z)
  : result FastCategoricalError Z :=
  ok_or (InternalInvariant "wide-hamilton-residual-out-of-range")
    (n ← checked_sub_u128 FAST_CATEGORICAL_MASS_TOTAL apportioned_total;
     n ← usize_try_from n;
     if decide (n < Z.of_nat width)%Z then Some n else None).

(** [for &index in &self.order[..residual]] *)
Definition apportion_wide (logits : list Z) : M FastCategoricalScratch (list Z) :=
  let width := length logits in
  let! _ := reject (if decide (WIDE_CATEGORICAL_MAX_ACTIONS_V1 < Z.of_nat width)%Z
                    then Err (WidthExceeded (Z.of_nat width) WIDE_CATEGORICAL_MAX_ACTIONS_V1)
                    else Ok ()) in
  let! maximum_bits := lift (find_maximum logits) in
  let! _ := resize_weights width in
  let! _ := resize_remainders width in
  let! _ := resize_masses width in
  let! _ := resize_order width in
  let! weight_total := weigh maximum_bits 0 logits 0 in
  let! apportioned_total := divide id weight_total (seq 0 width) 0 in
  let! _ := sort_order in
  let! residual := reject (wide_residual width apportioned_total) in
  let! _ := add_residual (seq 0 (Z.to_nat residual)) in
  let! masses := gets masses in
  if decide (sum_u128 masses <> FAST_CATEGORICAL_MASS_TOTAL) then
    reject (Err (InternalInvariant "wide-hamilton-mass-total"))
  else ret masses.

Definition wide_apportion (logits : list Z) : M WideCategoricalScratchV1 (list Z) :=
  if decide (length logits <= FAST_CATEGORICAL_MAX_ACTIONS) then on_narrow (apportion logits)
  else on_wide (apportion_wide logits).

Definition wide_sample (logits : list Z) (seed : Z) : M WideCategoricalScratchV1 nat :=
  if decide (length logits <= FAST_CATEGORICAL_MAX_ACTIONS) then on_narrow (sample logits seed)
  else
    let draw := splitmix64_first seed in
    let! masses := on_wide (apportion_wide logits) in
    reject (ok_or (InternalInvariant "wide-inverse-cdf-not-total") (inverse_cdf draw 0 0 masses)).

Definition wide_last_masses_v1 (width : nat) (s : WideCategoricalScratchV1)
  : result (Fault FastCategoricalError) (list Z) :=
  if decide (width <= FAST_CATEGORICAL_MAX_ACTIONS) then last_masses_v1 width (narrow s)
  else last_masses_v1 width (wide s).
End Wide.
