(* ===== verification/FastSamplerBits.v ===== *)
(** * Exact differences of binary32 logits

    [f32_units] is the value of a finite binary32 in units of 2^-149. The five-word
    subtraction of the sampler computes differences of such values exactly, and
    [quantized_gap_q8] is that difference times 256, rounded to the nearest integer
    with ties to even and clamped; the order key orders values. *)

From stdpp Require Import strings.
From S2P Require Import Prelude FastSampler.

Local Open Scope Z_scope.

(** The exponent and fraction fields, and the value they stand for. *)
Definition f32_exponent (bits : Z) : Z := (bits / 2 ^ 23) mod 256.
Definition f32_fraction (bits : Z) : Z := bits mod 2 ^ 23.
Definition f32_is_finite (bits : Z) : Prop := 0 <= bits < 2 ^ 32 /\ f32_exponent bits <> 255.

Definition magnitude_units (bits : Z) : Z :=
  if decide (f32_exponent bits = 0) then f32_fraction bits
  else (f32_fraction bits + 2 ^ 23) * 2 ^ (f32_exponent bits - 1).
Definition f32_units (bits : Z) : Z :=
  if decide (bits < 2 ^ 31) then magnitude_units bits else - magnitude_units bits.

(** Round to nearest, ties to even. *)
Definition round_half_even (n d : Z) : Z :=
  let q := n / d in
  let r := n mod d in
  if decide (d < 2 * r \/ 2 * r = d /\ Z.odd q) then q + 1 else q.

(** The value of a list of words, the low word first. *)
Fixpoint words_value (ws : list Z) : Z :=
  match ws with [] => 0 | w :: ws => w + 2 ^ 64 * words_value ws end.
Definition is_word (w : Z) : Prop := 0 <= w < 2 ^ 64.

#[export] Instance f32_is_finite_dec bits : Decision (f32_is_finite bits).
Proof. unfold f32_is_finite. apply _. Defined.

(* ------------------------------------------------------------------ *)
(** ** Rounding *)

Lemma round_half_even_nearest n d : 0 < d ->
  2 * Z.abs (n - round_half_even n d * d) <= d
  /\ (2 * Z.abs (n - round_half_even n d * d) = d -> Z.even (round_half_even n d)).
Proof.
  intros Hd. unfold round_half_even.
  pose proof (Z.div_mod n d ltac:(lia)). pose proof (Z.mod_pos_bound n d Hd).
  case_decide as E; (split; [nia|intros Hh]).
  - assert (2 * (n mod d) = d) as E2 by nia. destruct E as [E|[_ E]]; [lia|].
    by rewrite Z.add_1_r, Z.even_succ.
  - rewrite <- Z.negb_odd. destruct (Z.odd (n / d)) eqn:Ho; [|done].
    destruct E. right. split; [nia|done].
Qed.

Lemma round_half_even_mono n m d : 0 < d -> n <= m -> round_half_even n d <= round_half_even m d.
Proof.
  intros Hd Hnm. unfold round_half_even.
  pose proof (Z.div_mod n d ltac:(lia)). pose proof (Z.mod_pos_bound n d Hd).
  pose proof (Z.div_mod m d ltac:(lia)). pose proof (Z.mod_pos_bound m d Hd).
  pose proof (Z.div_le_mono n m d Hd Hnm) as Hq.
  destruct (decide (n / d = m / d)) as [E|E].
  - rewrite E in *. destruct (Z.odd (m / d)); cbn; repeat case_decide; lia.
  - repeat case_decide; lia.
Qed.

Lemma round_half_even_bounds n d : 0 < d -> n / d <= round_half_even n d <= n / d + 1.
Proof. intros Hd. unfold round_half_even. case_decide; lia. Qed.

Lemma round_half_even_nonneg n d : 0 < d -> 0 <= n -> 0 <= round_half_even n d.
Proof. intros Hd Hn. pose proof (round_half_even_bounds n d Hd). pose proof (Z.div_pos n d). lia. Qed.

(* ------------------------------------------------------------------ *)
(** ** Masks *)

Lemma land_field bits k w : 0 <= k -> 0 <= w ->
  Z.land bits (Z.shiftl (Z.ones w) k) = (bits / 2 ^ k) mod 2 ^ w * 2 ^ k.
Proof.
  intros Hk Hw. rewrite <- Z.shiftr_div_pow2, <- Z.land_ones, <- Z.shiftl_mul_pow2 by done.
  apply Z.bits_inj'. intros n Hn. rewrite Z.land_spec, !Z.shiftl_spec by done.
  destruct (decide (n < k)).
  - by rewrite !(Z.testbit_neg_r _ (n - k)), andb_false_r by lia.
  - rewrite Z.land_spec, Z.shiftr_spec by lia. by replace (n - k + k) with n by lia.
Qed.

Lemma land_sign bits : Z.land bits F32_SIGN_MASK = (bits / 2 ^ 31) mod 2 * 2 ^ 31.
Proof. change F32_SIGN_MASK with (Z.shiftl (Z.ones 1) 31). by rewrite land_field. Qed.
Lemma land_exp bits : Z.land bits F32_EXP_MASK = f32_exponent bits * 2 ^ 23.
Proof. change F32_EXP_MASK with (Z.shiftl (Z.ones 8) 23). by rewrite land_field. Qed.
Lemma land_fraction bits : Z.land bits F32_FRACTION_MASK = f32_fraction bits.
Proof. change F32_FRACTION_MASK with (Z.ones 23). by rewrite Z.land_ones. Qed.

Lemma is_negative_spec bits : 0 <= bits < 2 ^ 32 -> is_negative bits = bool_decide (2 ^ 31 <= bits).
Proof.
  intros Hb. unfold is_negative. rewrite land_sign.
  pose proof (Z.div_mod bits (2 ^ 31) ltac:(lia)). pose proof (Z.mod_pos_bound bits (2 ^ 31) ltac:(lia)).
  case_bool_decide.
  - replace (bits / 2 ^ 31) with 1 by nia. done.
  - rewrite Z.div_small by lia. done.
Qed.

Lemma not_finite_mask bits :
  Z.land bits F32_EXP_MASK = F32_EXP_MASK <-> f32_exponent bits = 255.
Proof. rewrite land_exp. change F32_EXP_MASK with (255 * 2 ^ 23). lia. Qed.

Lemma f32_exponent_bounds bits : 0 <= f32_exponent bits < 256.
Proof. apply Z.mod_pos_bound. lia. Qed.
Lemma f32_fraction_bounds bits : 0 <= f32_fraction bits < 2 ^ 23.
Proof. apply Z.mod_pos_bound. lia. Qed.

Lemma add_disjoint a b : Z.land a b = 0 -> Z.lxor a b = a + b /\ Z.lor a b = a + b.
Proof. intros H. rewrite Z.add_nocarry_lxor by done. split; [done|]. by rewrite Z.lxor_lor. Qed.

Lemma testbit_high a k n : 0 <= k -> 0 <= a < 2 ^ k -> k <= n -> Z.testbit a n = false.
Proof.
  intros Hk Ha Hn. rewrite <- (Z.mod_small a (2 ^ k)) by done. by apply Z.mod_pow2_bits_high.
Qed.

Lemma land_pow2_small a k : 0 <= k -> 0 <= a < 2 ^ k -> Z.land a (2 ^ k) = 0.
Proof.
  intros Hk Ha. apply Z.bits_inj'. intros n Hn. rewrite Z.land_spec, Z.bits_0, Z.pow2_bits_eqb by done.
  destruct (Z.eqb_spec k n) as [<-|]; [|apply andb_false_r].
  by rewrite (testbit_high a k).
Qed.

Lemma lxor_u32_max a : 0 <= a < 2 ^ 32 -> Z.lxor a u32_max = u32_max - a.
Proof.
  intros Ha. change u32_max with (Z.ones 32).
  assert (Z.land a (Z.lxor a (Z.ones 32)) = 0) as Hd.
  { apply Z.bits_inj'. intros n Hn. rewrite Z.land_spec, Z.lxor_spec, Z.bits_0.
    destruct (decide (n < 32)).
    - rewrite Z.ones_spec_low by lia. by destruct (Z.testbit a n).
    - by rewrite (testbit_high a 32) by lia. }
  apply add_disjoint in Hd as [E _]. rewrite <- Z.lxor_assoc, Z.lxor_nilpotent, Z.lxor_0_l in E. lia.
Qed.

(* ------------------------------------------------------------------ *)
(** ** The order key *)

Lemma finite_order_key_spec bits : 0 <= bits < 2 ^ 32 ->
  finite_order_key bits = if decide (bits < 2 ^ 31) then bits + 2 ^ 31 else 2 ^ 32 - 1 - bits.
Proof.
  intros Hb. unfold finite_order_key.
  assert (Z.land bits F32_SIGN_MASK = 0 <-> bits < 2 ^ 31) as Hs.
  { pose proof (is_negative_spec bits Hb) as E. unfold is_negative in E.
    destruct (Z.eqb_spec (Z.land bits F32_SIGN_MASK) 0) as [E0|E0]; cbn in E;
      symmetry in E; bool_to_prop; lia. }
  destruct (decide (bits < 2 ^ 31)) as [Hlt|Hge].
  - rewrite decide_True by tauto. change F32_SIGN_MASK with (2 ^ 31).
    apply add_disjoint, land_pow2_small; lia.
  - rewrite decide_False by tauto. by apply lxor_u32_max.
Qed.

Lemma bits_fields bits : 0 <= bits < 2 ^ 32 ->
  bits = (if decide (bits < 2 ^ 31) then 0 else 2 ^ 31)
         + f32_exponent bits * 2 ^ 23 + f32_fraction bits.
Proof.
  intros Hb. unfold f32_exponent, f32_fraction.
  pose proof (Z.div_mod bits (2 ^ 23) ltac:(lia)).
  pose proof (Z.mod_pos_bound bits (2 ^ 23) ltac:(lia)).
  pose proof (Z.div_mod (bits / 2 ^ 23) 256 ltac:(lia)).
  pose proof (Z.mod_pos_bound (bits / 2 ^ 23) 256 ltac:(lia)).
  assert (bits / 2 ^ 23 / 256 = if decide (bits < 2 ^ 31) then 0 else 1) as E.
  { rewrite Z.div_div by lia. case_decide; symmetry; apply Z.div_unique_pos with
      (if decide (bits < 2 ^ 31) then bits else bits - 2 ^ 31); case_decide; lia. }
  rewrite E in *. case_decide; lia.
Qed.

Lemma magnitude_units_nonneg bits : 0 <= magnitude_units bits.
Proof.
  unfold magnitude_units. pose proof (f32_fraction_bounds bits). case_decide; [lia|].
  apply Z.mul_nonneg_nonneg; [lia|]. apply Z.pow_nonneg. lia.
Qed.

(** The magnitude grows with the exponent and fraction fields. *)
Lemma magnitude_units_mono a b :
  f32_exponent a * 2 ^ 23 + f32_fraction a <= f32_exponent b * 2 ^ 23 + f32_fraction b ->
  magnitude_units a <= magnitude_units b.
Proof.
  intros Hle. unfold magnitude_units.
  pose proof (f32_fraction_bounds a). pose proof (f32_fraction_bounds b).
  pose proof (f32_exponent_bounds a). pose proof (f32_exponent_bounds b).
  repeat case_decide; [lia| |lia|].
  - assert (1 <= 2 ^ (f32_exponent b - 1)) as Hp by (apply (Z.pow_le_mono_r 2 0); lia).
    apply (Z.le_trans _ ((f32_fraction b + 2 ^ 23) * 1)); [lia|].
    apply Z.mul_le_mono_nonneg_l; lia.
  - destruct (decide (f32_exponent a = f32_exponent b)) as [E|].
    + rewrite E in *. apply Z.mul_le_mono_nonneg_r; [apply Z.pow_nonneg; lia|lia].
    + assert (2 ^ 1 * 2 ^ (f32_exponent a - 1) <= 2 ^ (f32_exponent b - 1)) as Hp.
      { rewrite <- Z.pow_add_r by lia. apply Z.pow_le_mono_r; lia. }
      assert (0 < 2 ^ (f32_exponent a - 1)) as Ha by (apply Z.pow_pos_nonneg; lia).
      generalize dependent (2 ^ (f32_exponent a - 1)). intros x Hx Hx0.
      generalize dependent (2 ^ (f32_exponent b - 1)). intros y Hy. nia.
Qed.

(** The order of keys refines the order of values. *)
Lemma order_key_values a b : 0 <= a < 2 ^ 32 -> 0 <= b < 2 ^ 32 ->
  finite_order_key a <= finite_order_key b ->
  f32_units a <= f32_units b /\ (2 ^ 31 <= b -> 2 ^ 31 <= a).
Proof.
  intros Ha Hb Hk. rewrite !finite_order_key_spec in Hk by done.
  pose proof (bits_fields a Ha). pose proof (bits_fields b Hb).
  pose proof (magnitude_units_nonneg a). pose proof (magnitude_units_nonneg b).
  unfold f32_units. repeat case_decide; split; try lia.
  - apply magnitude_units_mono. lia.
  - apply (Z.opp_le_mono _ (magnitude_units a)), magnitude_units_mono. lia.
Qed.

(* ------------------------------------------------------------------ *)
(** ** Five-word arithmetic *)

Arguments words_value : simpl never.

Lemma words_value_cons w ws : words_value (w :: ws) = w + 2 ^ 64 * words_value ws.
Proof. done. Qed.

Lemma words_value_nonneg ws : Forall is_word ws -> 0 <= words_value ws.
Proof. induction 1 as [|w ws Hw]; [done|]. rewrite words_value_cons. unfold is_word in Hw. lia. Qed.

Lemma words_value_bound ws : Forall is_word ws ->
  0 <= words_value ws < 2 ^ (64 * Z.of_nat (length ws)).
Proof.
  induction 1 as [|w ws Hw _ IH]; [done|]. rewrite words_value_cons. unfold is_word in Hw.
  cbn [length]. replace (64 * Z.of_nat (S (length ws))) with (64 + 64 * Z.of_nat (length ws)) by lia.
  rewrite Z.pow_add_r by lia. nia.
Qed.

Lemma add_words_spec left_ right_ carry ws c :
  Forall is_word left_ -> Forall is_word right_ -> length left_ = length right_ ->
  0 <= carry <= 1 -> add_words left_ right_ carry = (ws, c) ->
  Forall is_word ws /\ length ws = length left_ /\ 0 <= c <= 1
  /\ words_value ws + 2 ^ (64 * Z.of_nat (length left_)) * c
     = words_value left_ + words_value right_ + carry.
Proof.
  intros Hl. revert right_ carry ws c.
  induction Hl as [|l ls Hl Hls IH]; intros [|r rs] carry ws c Hr Hlen Hc; try done.
  - intros [= <- <-]. change (words_value []) with 0. cbn [length].
    change (2 ^ (64 * Z.of_nat 0)) with 1. split_and!; [constructor|done|lia..].
  - apply Forall_cons in Hr as [Hr Hrs]. injection Hlen as Hlen. unfold is_word in Hl, Hr.
    cbn [add_words]. rewrite Z.shiftr_div_pow2 by lia.
    destruct (add_words ls rs _) as [words k] eqn:E. intros [= <- <-].
    pose proof (Z.div_mod (l + r + carry) (2 ^ 64) ltac:(lia)) as Hdm.
    pose proof (Z.mod_pos_bound (l + r + carry) (2 ^ 64) ltac:(lia)) as Hm.
    apply IH in E as (Hw & El & Hk & Ev); [|done|done|lia].
    split_and!; [|cbn; lia|lia|lia|].
    + constructor; [|done]. exact Hm.
    + rewrite !words_value_cons. cbn [length].
      replace (64 * Z.of_nat (S (length ls))) with (64 + 64 * Z.of_nat (length ls)) by lia.
      rewrite Z.pow_add_r by lia. unfold wrap_u64.
      change 18446744073709551616 with (2 ^ 64). nia.
Qed.

Lemma subtract_words_spec left_ right_ borrow ws b :
  Forall is_word left_ -> Forall is_word right_ -> length left_ = length right_ ->
  0 <= borrow <= 1 -> subtract_words left_ right_ borrow = (ws, b) ->
  Forall is_word ws /\ length ws = length left_ /\ 0 <= b <= 1
  /\ words_value ws - 2 ^ (64 * Z.of_nat (length left_)) * b
     = words_value left_ - words_value right_ - borrow.
Proof.
  intros Hl. revert right_ borrow ws b.
  induction Hl as [|l ls Hl Hls IH]; intros [|r rs] borrow ws b Hr Hlen Hc; try done.
  - intros [= <- <-]. change (words_value []) with 0. cbn [length].
    change (2 ^ (64 * Z.of_nat 0)) with 1. split_and!; [constructor|done|lia..].
  - apply Forall_cons in Hr as [Hr Hrs]. injection Hlen as Hlen. unfold is_word in Hl, Hr.
    cbn [subtract_words].
    destruct (subtract_words ls rs _) as [words k] eqn:E. intros [= <- <-].
    assert (wrap_u64 (wrap_u128 (l - (r + borrow)))
            = l - (r + borrow) + 2 ^ 64 * (if l <? r + borrow then 1 else 0)) as Ew.
    { unfold wrap_u64, wrap_u128. rewrite Z.mod_mod_divide by (by exists (2 ^ 64)).
      symmetry. apply Z.mod_unique_pos with (- (if l <? r + borrow then 1 else 0));
        destruct (Z.ltb_spec l (r + borrow)); lia. }
    apply IH in E as (Hw & El & Hk & Ev); [|done|done|destruct (_ <? _); lia].
    split_and!; [|cbn; lia|lia|lia|].
    + constructor; [|done]. unfold wrap_u64. apply Z.mod_pos_bound. lia.
    + rewrite !words_value_cons, Ew. cbn [length].
      replace (64 * Z.of_nat (S (length ls))) with (64 + 64 * Z.of_nat (length ls)) by lia.
      rewrite Z.pow_add_r by lia. nia.
Qed.

(** A magnitude of the code: five words. *)
Definition magnitude_ok (m : Magnitude) : Prop := Forall is_word m /\ length m = 5%nat.

Lemma magnitude_bound m : magnitude_ok m -> 0 <= words_value m < 2 ^ 320.
Proof. intros [Hw El]. pose proof (words_value_bound m Hw) as H. by rewrite El in H. Qed.

Lemma add_magnitude_spec a b : magnitude_ok a -> magnitude_ok b ->
  words_value a + words_value b < 2 ^ 320 ->
  exists m, add_magnitude a b = Ok m /\ magnitude_ok m
    /\ words_value m = words_value a + words_value b.
Proof.
  intros [Ha La] [Hb Lb] Hlt. unfold add_magnitude.
  destruct (add_words a b 0) as [ws c] eqn:E.
  apply add_words_spec in E as (Hw & El & Hc & Ev); [|done|done|congruence|lia].
  pose proof (words_value_nonneg ws Hw). rewrite La in El, Ev.
  change (2 ^ (64 * Z.of_nat 5)) with (2 ^ 320) in Ev.
  rewrite decide_False by lia. exists ws. split; [done|]. split; [done|lia].
Qed.

Lemma subtract_magnitude_spec a b : magnitude_ok a -> magnitude_ok b ->
  words_value b <= words_value a ->
  exists m, subtract_magnitude a b = Ok m /\ magnitude_ok m
    /\ words_value m = words_value a - words_value b.
Proof.
  intros [Ha La] [Hb Lb] Hle. unfold subtract_magnitude.
  destruct (subtract_words a b 0) as [ws c] eqn:E.
  apply subtract_words_spec in E as (Hw & El & Hc & Ev); [|done|done|congruence|lia].
  pose proof (words_value_bound ws Hw). rewrite La in El, Ev. rewrite El in H.
  change (2 ^ (64 * Z.of_nat 5)) with (2 ^ 320) in *.
  rewrite decide_False by lia. exists ws. split; [done|]. split; [done|lia].
Qed.

Lemma words_value_insert w a b : (w <= 3)%nat ->
  words_value (<[w := a]> (replicate 5 0)) = a * 2 ^ (64 * Z.of_nat w)
  /\ words_value (<[(w + 1)%nat := b]> (<[w := a]> (replicate 5 0)))
     = (a + 2 ^ 64 * b) * 2 ^ (64 * Z.of_nat w).
Proof.
  intros Hw. do 4 (destruct w as [|w]; [cbn [replicate insert list_insert Nat.add];
    rewrite !words_value_cons; change (words_value []) with 0; split; lia|]). lia.
Qed.

(** Shifting a significand across two words loses nothing. *)
Lemma split_shift s offset : 0 <= offset < 64 ->
  wrap_u64 (Z.shiftl s offset) + 2 ^ 64 * Z.shiftr s (64 - offset) = s * 2 ^ offset.
Proof.
  intros Ho. unfold wrap_u64. change 18446744073709551616 with (2 ^ 64).
  rewrite Z.shiftl_mul_pow2, Z.shiftr_div_pow2 by lia.
  rewrite (Z.div_mod (s * 2 ^ offset) (2 ^ 64)) at 2 by lia.
  replace (s * 2 ^ offset / 2 ^ 64) with (s / 2 ^ (64 - offset)); [lia|].
  replace (2 ^ 64) with (2 ^ (64 - offset) * 2 ^ offset)
    by (rewrite <- Z.pow_add_r by lia; f_equal; lia).
  symmetry. apply Z.div_mul_cancel_r; apply Z.pow_nonzero; lia.
Qed.

Lemma magnitude_of_shift s shift_ : 0 <= s < 2 ^ 24 -> 0 <= shift_ < 256 ->
  let word := Z.to_nat (shift_ / 64) in
  let offset := shift_ mod 64 in
  let base := <[word := wrap_u64 (Z.shiftl s offset)]> (replicate 5 0) in
  let m := if decide (offset <> 0)
           then <[(word + 1)%nat := Z.shiftr s (64 - offset)]> base else base in
  magnitude_ok m /\ words_value m = s * 2 ^ shift_.
Proof.
  intros Hs Hsh word offset base m.
  pose proof (Z.div_mod shift_ 64 ltac:(lia)) as Hdm. pose proof (Z.mod_pos_bound shift_ 64 ltac:(lia)).
  fold offset in Hdm, H. assert (0 <= shift_ / 64 <= 3) as Hq by lia.
  assert (Z.of_nat word = shift_ / 64) as Ew by (unfold word; lia).
  assert (word <= 3)%nat as Hw by lia.
  assert (is_word (wrap_u64 (Z.shiftl s offset))) as H0 by (apply Z.mod_pos_bound; lia).
  assert (is_word (Z.shiftr s (64 - offset))) as H1.
  { unfold is_word. rewrite Z.shiftr_div_pow2 by lia.
    assert (0 < 2 ^ (64 - offset)) by (apply Z.pow_pos_nonneg; lia). split.
    - apply Z.div_pos; lia.
    - eapply Z.le_lt_trans; [apply Z.div_le_upper_bound with (q := s); nia|lia]. }
  assert (Forall is_word (replicate 5 0)) as Hz by (apply Forall_replicate; unfold is_word; lia).
  assert (Forall is_word base) as Hb by (by apply Forall_insert).
  pose proof (words_value_insert word (wrap_u64 (Z.shiftl s offset)) (Z.shiftr s (64 - offset)) Hw)
    as [E1 E2].
  pose proof (split_shift s offset H) as Es.
  assert (2 ^ shift_ = 2 ^ offset * 2 ^ (64 * Z.of_nat word)) as Ep.
  { rewrite <- Z.pow_add_r by lia. f_equal. lia. }
  rewrite Ep, Z.mul_assoc, <- Es. unfold m. case_decide as Ho; split.
  - split; [by apply Forall_insert|]. by unfold base; rewrite !length_insert.
  - exact E2.
  - split; [done|]. by unfold base; rewrite !length_insert.
  - assert (Z.shiftr s (64 - offset) = 0) as ->.
    { replace offset with 0 by lia. rewrite Z.shiftr_div_pow2 by lia. apply Z.div_small. lia. }
    unfold base. rewrite E1. lia.
Qed.

Lemma f32_magnitude_spec bits :
  let m := f32_magnitude_in_subnormal_units bits in
  magnitude_ok m /\ words_value m = magnitude_units bits.
Proof.
  cbv zeta. unfold f32_magnitude_in_subnormal_units, magnitude_units.
  rewrite land_fraction, land_exp, Z.shiftr_div_pow2, Z.div_mul by lia.
  pose proof (f32_fraction_bounds bits). pose proof (f32_exponent_bounds bits).
  case_decide as E.
  - pose proof (magnitude_of_shift (f32_fraction bits) 0 ltac:(lia) ltac:(lia)) as [Hm Ev].
    split; [exact Hm|]. by rewrite Z.pow_0_r, Z.mul_1_r in Ev.
  - assert (Z.lor (f32_fraction bits) (Z.shiftl 1 23) = f32_fraction bits + 2 ^ 23) as ->.
    { change (Z.shiftl 1 23) with (2 ^ 23). apply add_disjoint, land_pow2_small; lia. }
    apply magnitude_of_shift; lia.
Qed.

(* ------------------------------------------------------------------ *)
(** ** Bits of a magnitude *)

Lemma words_split ws j : words_value ws
  = words_value (take j ws) + 2 ^ (64 * Z.of_nat (length (take j ws))) * words_value (drop j ws).
Proof.
  revert j. induction ws as [|w l IH]; intros [|j]; try done.
  - cbn [take drop length]. change (2 ^ (64 * Z.of_nat 0)) with 1.
    change (words_value []) with 0. lia.
  - cbn [take drop length]. rewrite !words_value_cons, (IH j).
    replace (64 * Z.of_nat (S (length (take j l)))) with (64 + 64 * Z.of_nat (length (take j l)))
      by lia.
    rewrite Z.pow_add_r by lia. lia.
Qed.

Lemma any_nonzero_spec l : Forall is_word l -> any_nonzero l = bool_decide (words_value l <> 0).
Proof.
  induction 1 as [|w l Hw Hl IH]; [done|].
  change (any_nonzero (w :: l)) with (negb (w =? 0) || any_nonzero l).
  rewrite IH, words_value_cons.
  pose proof (words_value_nonneg l Hl). unfold is_word in Hw.
  destruct (Z.eqb_spec w 0); cbn; repeat case_bool_decide; lia.
Qed.

Section Bits.
Context (ws : list Z) (bit : nat).
Hypothesis Hws : Forall is_word ws.
Hypothesis Hbit : (bit / 64 < length ws)%nat.

Let k := (bit / 64)%nat.
Let o := Z.of_nat (bit mod 64).

(** The word of a bit, the words below and the words above. *)
Lemma bit_split : exists lo hi,
  lo = words_value (take k ws) /\ hi = words_value (drop (k + 1) ws)
  /\ words_value ws = lo + 2 ^ (64 * Z.of_nat k) * (word_at ws k + 2 ^ 64 * hi)
  /\ 0 <= lo < 2 ^ (64 * Z.of_nat k) /\ 0 <= word_at ws k < 2 ^ 64 /\ 0 <= hi
  /\ 2 ^ Z.of_nat bit = 2 ^ (64 * Z.of_nat k) * 2 ^ o /\ 0 <= o < 64.
Proof using Hws Hbit.
  exists (words_value (take k ws)), (words_value (drop (k + 1) ws)).
  pose proof (words_split ws k) as E. rewrite length_take, Nat.min_l in E by (unfold k; lia).
  assert (length (take k ws) = k) as El by (rewrite length_take; unfold k; lia).
  destruct (lookup_lt_is_Some_2 ws k Hbit) as [w Ew].
  assert (word_at ws k = w) as Eat by (by apply nth_lookup_Some).
  rewrite (drop_S ws w k Ew), words_value_cons, <- Nat.add_1_r in E.
  rewrite Eat. pose proof (Forall_lookup_1 _ _ _ _ Hws Ew) as Hw.
  pose proof (words_value_bound (take k ws) (Forall_take _ _ _ Hws)) as Hlo.
  pose proof (words_value_nonneg (drop (k + 1) ws) (Forall_drop _ _ _ Hws)).
  rewrite El in Hlo. pose proof (Nat.div_mod_eq bit 64). pose proof (Nat.mod_upper_bound bit 64).
  split_and!; try done; try lia; [apply Hw|apply Hw|].
  rewrite <- Z.pow_add_r by (unfold o; lia). f_equal. unfold k, o. lia.
Qed.

Lemma words_div : words_value ws / 2 ^ Z.of_nat bit
  = word_at ws k / 2 ^ o + 2 ^ (64 - o) * words_value (drop (k + 1) ws)
  /\ words_value ws mod 2 ^ Z.of_nat bit
     = words_value (take k ws) + 2 ^ (64 * Z.of_nat k) * (word_at ws k mod 2 ^ o).
Proof using Hws Hbit.
  destruct bit_split as (lo & hi & <- & <- & -> & Hlo & Hw & Hhi & -> & Ho).
  set (X := 2 ^ (64 * Z.of_nat k)) in *.
  assert (0 < 2 ^ o) as Hp by (apply Z.pow_pos_nonneg; lia).
  pose proof (Z.div_mod (word_at ws k) (2 ^ o) ltac:(lia)) as Hdm.
  pose proof (Z.mod_pos_bound (word_at ws k) (2 ^ o) Hp) as Hm.
  assert (2 ^ 64 = 2 ^ o * 2 ^ (64 - o)) as E64 by (rewrite <- Z.pow_add_r by lia; f_equal; lia).
  set (a := word_at ws k / 2 ^ o) in *. set (r := word_at ws k mod 2 ^ o) in *.
  assert (lo + X * (word_at ws k + 2 ^ 64 * hi)
          = X * 2 ^ o * (a + 2 ^ (64 - o) * hi) + (lo + X * r)) as E.
  { rewrite Hdm, E64. ring. }
  assert (0 <= lo + X * r < X * 2 ^ o) as Hr by nia.
  split; symmetry; [eapply Z.div_unique_pos|eapply Z.mod_unique_pos]; [exact Hr|exact E|exact Hr|exact E].
Qed.

Lemma any_bits_at_or_above_spec :
  any_bits_at_or_above ws bit = bool_decide (2 ^ Z.of_nat bit <= words_value ws).
Proof using Hws Hbit.
  unfold any_bits_at_or_above. fold k o.
  rewrite any_nonzero_spec by (by apply Forall_drop).
  destruct bit_split as (lo & hi & _ & Ehi & _ & _ & Hw & Hhi & _ & Ho).
  destruct words_div as [Ed _]. rewrite <- Ehi in *.
  rewrite Z.shiftr_div_pow2 by lia.
  assert (0 < 2 ^ o) as Hp by (apply Z.pow_pos_nonneg; lia).
  assert (0 < 2 ^ (64 - o)) as Hp' by (apply Z.pow_pos_nonneg; lia).
  pose proof (Z.div_pos (word_at ws k) (2 ^ o) ltac:(lia) Hp).
  assert (0 < 2 ^ Z.of_nat bit) as Hb by (apply Z.pow_pos_nonneg; lia).
  pose proof (words_value_nonneg ws Hws).
  assert (2 ^ Z.of_nat bit <= words_value ws <-> words_value ws / 2 ^ Z.of_nat bit <> 0) as Hiff.
  { rewrite Z.div_small_iff by lia. lia. }
  rewrite Ed in Hiff.
  destruct (Z.eqb_spec (word_at ws k / 2 ^ o) 0); cbn; repeat case_bool_decide; nia.
Qed.

Lemma any_bits_below_spec :
  any_bits_below ws bit = bool_decide (words_value ws mod 2 ^ Z.of_nat bit <> 0).
Proof using Hws Hbit.
  unfold any_bits_below. fold k o.
  rewrite any_nonzero_spec by (by apply Forall_take).
  destruct bit_split as (lo & hi & Elo & _ & _ & Hlo & Hw & _ & _ & Ho).
  destruct words_div as [_ Em]. rewrite <- Elo in *. rewrite Em.
  assert (0 < 2 ^ o) as Hp by (apply Z.pow_pos_nonneg; lia).
  pose proof (Z.mod_pos_bound (word_at ws k) (2 ^ o) Hp) as Hm.
  replace (Z.shiftl 1 o - 1) with (Z.ones o) by (rewrite Z.ones_equiv, Z.shiftl_1_l; lia).
  rewrite Z.land_ones by lia.
  case_bool_decide as Hz; [symmetry; apply bool_decide_eq_true; nia|].
  destruct (Nat.eqb_spec (bit mod 64) 0) as [E0|E0]; cbn.
  - assert (o = 0) as Eo by (unfold o; lia). rewrite Eo, Z.pow_0_r, Z.mod_1_r in *.
    symmetry. apply bool_decide_eq_false. nia.
  - destruct (Z.eqb_spec (word_at ws k mod 2 ^ o) 0); cbn; case_bool_decide; nia.
Qed.

Lemma bit_is_set_spec : bit_is_set ws bit = Z.odd (words_value ws / 2 ^ Z.of_nat bit).
Proof using Hws Hbit.
  unfold bit_is_set. fold k o.
  destruct bit_split as (lo & hi & _ & _ & _ & _ & Hw & _ & _ & Ho).
  destruct words_div as [-> _].
  replace (2 ^ (64 - o)) with (2 * 2 ^ (63 - o))
    by (rewrite <- Z.pow_succ_r by lia; f_equal; lia).
  rewrite <- Z.mul_assoc, Z.odd_add_mul_2, <- Z.shiftr_div_pow2 by lia.
  rewrite <- Z.bit0_odd, Z.shiftr_spec, Z.add_0_l by lia.
  rewrite Z.shiftl_1_l. destruct (Z.testbit (word_at ws k) o) eqn:E.
  - destruct (Z.eqb_spec (Z.land (word_at ws k) (2 ^ o)) 0) as [E0|]; [|done].
    assert (Z.testbit (Z.land (word_at ws k) (2 ^ o)) o = false) as E1 by (by rewrite E0, Z.bits_0).
    by rewrite Z.land_spec, E, Z.pow2_bits_true in E1 by lia.
  - replace (Z.land (word_at ws k) (2 ^ o)) with 0; [done|].
    symmetry. apply Z.bits_inj'. intros n Hn. rewrite Z.land_spec, Z.bits_0, Z.pow2_bits_eqb by lia.
    destruct (Z.eqb_spec o n) as [<-|]; [by rewrite E|apply andb_false_r].
Qed.

Lemma extract_u16_spec width : Z.of_nat width <= 16 -> o + Z.of_nat width <= 64 ->
  extract_u16 ws bit width = (words_value ws / 2 ^ Z.of_nat bit) mod 2 ^ Z.of_nat width.
Proof using Hws Hbit.
  intros H16 H64. unfold extract_u16. fold k o.
  destruct bit_split as (lo & hi & _ & _ & _ & _ & Hw & _ & _ & Ho).
  destruct words_div as [-> _].
  rewrite decide_False by (unfold o in H64; lia).
  replace (Z.shiftl 1 (Z.of_nat width) - 1) with (Z.ones (Z.of_nat width))
    by (rewrite Z.ones_equiv, Z.shiftl_1_l; lia).
  rewrite Z.land_ones, Z.shiftr_div_pow2 by lia.
  assert (0 < 2 ^ Z.of_nat width <= 2 ^ 16) as Hp.
  { split; [apply Z.pow_pos_nonneg; lia|apply Z.pow_le_mono_r; lia]. }
  replace (2 ^ (64 - o)) with (2 ^ (64 - o - Z.of_nat width) * 2 ^ Z.of_nat width)
    by (rewrite <- Z.pow_add_r by lia; f_equal; lia).
  rewrite <- Z.mul_assoc, (Z.mul_comm (2 ^ Z.of_nat width)), Z.mul_assoc, Z_mod_plus_full.
  unfold wrap_u16. apply Z.mod_small.
  pose proof (Z.mod_pos_bound (word_at ws k / 2 ^ o) (2 ^ Z.of_nat width) ltac:(lia)). lia.
Qed.
End Bits.

(* ------------------------------------------------------------------ *)
(** ** The gap *)

Lemma magnitude_units_lt bits : magnitude_units bits < 2 ^ 280.
Proof.
  unfold magnitude_units. pose proof (f32_fraction_bounds bits).
  pose proof (f32_exponent_bounds bits). case_decide; [lia|].
  apply (Z.lt_le_trans _ (2 ^ 24 * 2 ^ (f32_exponent bits - 1))).
  - apply Z.mul_lt_mono_pos_r; [apply Z.pow_pos_nonneg; lia|lia].
  - rewrite <- Z.pow_add_r by lia. apply Z.pow_le_mono_r; lia.
Qed.

(** The difference of two logits, exactly; the sign branch that is an internal
    error is never taken when the first has the larger key. *)
Lemma gap_magnitude_spec a b : 0 <= a < 2 ^ 32 -> 0 <= b < 2 ^ 32 ->
  finite_order_key b <= finite_order_key a ->
  exists m, gap_magnitude a b = Ok m /\ magnitude_ok m
    /\ words_value m = f32_units a - f32_units b.
Proof.
  intros Ha Hb Hk. destruct (order_key_values b a Hb Ha Hk) as [Hv Hs].
  destruct (f32_magnitude_spec a) as [Ma Ea]. destruct (f32_magnitude_spec b) as [Mb Eb].
  pose proof (magnitude_units_lt a). pose proof (magnitude_units_lt b).
  unfold gap_magnitude. rewrite !is_negative_spec by done. unfold f32_units in *.
  repeat case_bool_decide; repeat case_decide; try lia.
  - edestruct subtract_magnitude_spec as (m & E & Hm & Ev); [exact Mb|exact Ma|lia|].
    exists m. rewrite E. split; [done|]. split; [done|lia].
  - edestruct add_magnitude_spec as (m & E & Hm & Ev); [exact Ma|exact Mb|lia|].
    exists m. rewrite E. split; [done|]. split; [done|lia].
  - edestruct subtract_magnitude_spec as (m & E & Hm & Ev); [exact Ma|exact Mb|lia|].
    exists m. rewrite E. split; [done|]. split; [done|lia].
Qed.

Lemma land_1_odd q : (Z.land q 1 =? 1) = Z.odd q.
Proof.
  change 1 with (Z.ones 1) at 1. rewrite Z.land_ones, Z.pow_1_r, Zmod_odd by done.
  by destruct (Z.odd q).
Qed.

(** The half bit and the bits below decide the rounding of a quotient. *)
Lemma round_up_spec v : 0 <= v ->
  (if (Z.odd (v / 2 ^ 140) && (bool_decide (v mod 2 ^ 140 <> 0) || Z.odd (v / 2 ^ 141)))%bool
   then v / 2 ^ 141 + 1 else v / 2 ^ 141) = round_half_even v (2 ^ 141).
Proof.
  intros Hv. unfold round_half_even.
  pose proof (Z.div_mod v (2 ^ 141) ltac:(lia)) as H1.
  pose proof (Z.mod_pos_bound v (2 ^ 141) ltac:(lia)) as B1.
  pose proof (Z.div_mod v (2 ^ 140) ltac:(lia)) as H0.
  pose proof (Z.mod_pos_bound v (2 ^ 140) ltac:(lia)) as B0.
  pose proof (Z.div_mod (v / 2 ^ 140) 2 ltac:(lia)) as H2.
  assert (v / 2 ^ 140 / 2 = v / 2 ^ 141) as Eh by (by rewrite Z.div_div by lia).
  assert ((v / 2 ^ 140) mod 2 = if Z.odd (v / 2 ^ 140) then 1 else 0) as Em by apply Zmod_odd.
  rewrite Eh in H2. rewrite Em in H2. clear Em Eh.
  destruct (Z.odd (v / 2 ^ 140)); cbn [andb].
  - destruct (Z.odd (v / 2 ^ 141)); rewrite ?orb_true_r, ?orb_false_r; cbn [Is_true];
      repeat case_bool_decide; repeat case_decide; lia.
  - rewrite decide_False; [done|]. lia.
Qed.

Lemma quantized_gap_q8_spec a b : 0 <= a < 2 ^ 32 -> 0 <= b < 2 ^ 32 ->
  finite_order_key b <= finite_order_key a ->
  quantized_gap_q8 a b
  = Ok (Z.min 4096 (round_half_even (f32_units a - f32_units b) (2 ^ 141))).
Proof.
  intros Ha Hb Hk. unfold quantized_gap_q8.
  destruct (gap_magnitude_spec a b Ha Hb Hk) as (m & -> & [Hw El] & <-). cbn [result_bind].
  change (UNIVERSAL_SCALE_TO_Q8_SHIFT + 12)%nat with 153%nat.
  change (UNIVERSAL_SCALE_TO_Q8_SHIFT - 1)%nat with 140%nat.
  change UNIVERSAL_SCALE_TO_Q8_SHIFT with 141%nat.
  assert (forall bit, (bit / 64 <= 4)%nat -> (bit / 64 < length m)%nat) as Hin by (intros; lia).
  rewrite any_bits_at_or_above_spec, any_bits_below_spec, bit_is_set_spec, extract_u16_spec
    by (done || apply Hin, leb_complete; reflexivity).
  pose proof (words_value_nonneg m Hw) as Hv. set (v := words_value m) in *. clearbody v.
  change (Z.of_nat 153) with 153. change (Z.of_nat 141) with 141. change (Z.of_nat 140) with 140.
  change (Z.of_nat 12) with 12.
  pose proof (round_half_even_bounds v (2 ^ 141) ltac:(lia)) as Hb2.
  case_bool_decide as Hbig.
  - rewrite Z.min_l; [done|]. pose proof (Z.div_le_mono (2 ^ 153) v (2 ^ 141) ltac:(lia) Hbig) as Hd.
    change (2 ^ 153 / 2 ^ 141) with 4096 in Hd. lia.
  - assert (v / 2 ^ 141 < 4096) as Hlt by (apply Z.div_lt_upper_bound; lia).
    pose proof (Z.div_pos v (2 ^ 141) Hv ltac:(lia)).
    rewrite (Z.mod_small (v / 2 ^ 141)), land_1_odd, <- round_up_spec by lia.
    unfold wrap_u16, Q8_CLAMP. destruct (_ && _)%bool; [|f_equal; lia].
    rewrite Z.mod_small by lia. f_equal. lia.
Qed.
