(* ===== verification/FastSamplerDraw.v ===== *)
(** * Weights and draws

    The weight table decreases strictly between fixed ends, each entry the
    previous one times the base correctly rounded; and the first SplitMix64 output
    is a permutation of the 2^64 seeds, with the inverse written out. *)

From stdpp Require Import strings.
From S2P Require Import Prelude FastSampler FastSamplerBits Randomness.

Local Open Scope Z_scope.

(* ------------------------------------------------------------------ *)
(** ** The table *)

Lemma round_q63_spec l r : 0 <= l < 2 ^ 64 -> 0 <= r <= 2 ^ 63 ->
  l * r < 2 ^ 127 - 2 ^ 63 -> round_q63_product_ties_even l r = round_half_even (l * r) (2 ^ 63).
Proof.
  intros Hl Hr Hlt. unfold round_q63_product_ties_even, round_half_even.
  replace (Q63_SCALE - 1) with (Z.ones 63) by reflexivity.
  rewrite Z.land_ones, Z.shiftr_div_pow2, land_1_odd by lia.
  change Q63_HALF with (2 ^ 62). set (p := l * r) in *.
  assert (0 <= p / 2 ^ 63 < 2 ^ 64 - 1) as Hq.
  { split; [apply Z.div_pos; nia|apply Z.div_lt_upper_bound; lia]. }
  assert (((2 ^ 62 <? p mod 2 ^ 63) || (p mod 2 ^ 63 =? 2 ^ 62) && Z.odd (p / 2 ^ 63))%bool
          = bool_decide (2 ^ 63 < 2 * (p mod 2 ^ 63)
                         \/ 2 * (p mod 2 ^ 63) = 2 ^ 63 /\ Z.odd (p / 2 ^ 63))) as ->.
  { destruct (Z.odd (p / 2 ^ 63)); cbn [Is_true]; rewrite ?andb_true_r, ?andb_false_r, ?orb_false_r;
      case_bool_decide; destruct (Z.ltb_spec (2 ^ 62) (p mod 2 ^ 63));
      try destruct (Z.eqb_spec (p mod 2 ^ 63) (2 ^ 62)); cbn; lia. }
  unfold wrap_u64. case_bool_decide as H; [rewrite decide_True by done|rewrite decide_False by done];
    rewrite Z.mod_small by lia; lia.
Qed.

(** Neighbouring entries, checked by evaluation. *)
Fixpoint strictly_decreasing (l : list Z) : bool :=
  match l with
  | a :: (b :: _) as l => (b <? a) && strictly_decreasing l
  | _ => true
  end.

Lemma strictly_decreasing_lookup l i j a b : strictly_decreasing l = true ->
  (i < j)%nat -> l !! i = Some a -> l !! j = Some b -> b < a.
Proof.
  revert i j a. induction l as [|x l IH]; intros i j a H Hij Ha Hb; [done|].
  destruct j as [|j]; [lia|]. cbn in Hb.
  assert (strictly_decreasing l = true) as Hl.
  { destruct l as [|y l]; [done|]. cbn in H. bool_to_prop. done. }
  destruct i as [|i]; [|apply (IH i j a Hl); [lia|done|done]].
  injection Ha as ->. destruct l as [|y l]; [done|].
  assert (y < a) as Hy by (cbn in H; bool_to_prop; done).
  destruct j as [|j]; [injection Hb as ->; done|].
  specialize (IH 0%nat (S j) y Hl ltac:(lia) eq_refl Hb). lia.
Qed.

Lemma table_length : length FAST_CATEGORICAL_EXP_TABLE_Q63 = 4097%nat.
Proof. vm_compute. reflexivity. Qed.
Lemma table_decreasing : strictly_decreasing FAST_CATEGORICAL_EXP_TABLE_Q63 = true.
Proof. vm_compute. reflexivity. Qed.
Lemma table_first : FAST_CATEGORICAL_EXP_TABLE_Q63 !! 0%nat = Some (2 ^ 63).
Proof. reflexivity. Qed.
Lemma table_last : FAST_CATEGORICAL_EXP_TABLE_Q63 !! Z.to_nat 4096 = Some 1037953783666.
Proof. vm_compute. reflexivity. Qed.

Lemma exp_entries_step n previous k w w' :
  (previous :: exp_entries n previous) !! k = Some w ->
  (previous :: exp_entries n previous) !! S k = Some w' ->
  w' = round_q63_product_ties_even w FAST_CATEGORICAL_EXP_BASE_Q63.
Proof.
  revert previous k. induction n as [|n IH]; intros previous k; [by destruct k|].
  destruct k as [|k].
  - cbn. by intros [= <-] [= <-].
  - cbn [exp_entries]. apply IH.
Qed.

Lemma table_step k w w' : FAST_CATEGORICAL_EXP_TABLE_Q63 !! k = Some w ->
  FAST_CATEGORICAL_EXP_TABLE_Q63 !! S k = Some w' ->
  w' = round_q63_product_ties_even w FAST_CATEGORICAL_EXP_BASE_Q63.
Proof. apply exp_entries_step. Qed.

(** Proofs below see the table through these lemmas only. *)
#[global] Opaque FAST_CATEGORICAL_EXP_TABLE_Q63.

Lemma table_lookup k : 0 <= k <= 4096 ->
  exists w, FAST_CATEGORICAL_EXP_TABLE_Q63 !! Z.to_nat k = Some w.
Proof. intros Hk. apply lookup_lt_is_Some_2. rewrite table_length. lia. Qed.

Lemma table_mono i j a b : (i <= j)%nat ->
  FAST_CATEGORICAL_EXP_TABLE_Q63 !! i = Some a ->
  FAST_CATEGORICAL_EXP_TABLE_Q63 !! j = Some b -> b <= a.
Proof.
  intros Hij Ha Hb. destruct (decide (i = j)) as [->|]; [rewrite Ha in Hb; injection Hb as ->; lia|].
  pose proof (strictly_decreasing_lookup _ i j a b table_decreasing ltac:(lia) Ha Hb). lia.
Qed.

Lemma table_bounds i a : FAST_CATEGORICAL_EXP_TABLE_Q63 !! i = Some a ->
  1037953783666 <= a <= 2 ^ 63.
Proof.
  intros Ha. pose proof (lookup_lt_Some _ _ _ Ha) as Hi. rewrite table_length in Hi. split.
  - apply (table_mono i (Z.to_nat 4096)); [lia|done|apply table_last].
  - apply (table_mono 0 i); [lia|apply table_first|done].
Qed.

(* ------------------------------------------------------------------ *)
(** ** SplitMix64 is a permutation *)

Definition xor_shift (k z : Z) : Z := Z.lxor z (Z.shiftr z k).
Definition xor_unshift (k z : Z) : Z := Z.lxor (Z.lxor z (Z.shiftr z k)) (Z.shiftr z (k + k)).

(** The seed whose first output is [draw]. *)
Definition seed_of_draw (draw : Z) : Z :=
  let mixed := xor_unshift 31 draw in
  let mixed := xor_unshift 27 (wrap_u64 (mixed * 0x319642B2D24D8EC3)) in
  let mixed := xor_unshift 30 (wrap_u64 (mixed * 0x96DE1B173F119089)) in
  wrap_u64 (mixed - 0x9E3779B97F4A7C15).

Lemma lxor_is_word a b : is_word a -> is_word b -> is_word (Z.lxor a b).
Proof.
  intros Ha Hb. unfold is_word in *.
  assert (Z.lxor a b = Z.lxor a b mod 2 ^ 64) as ->; [|apply Z.mod_pos_bound; lia].
  rewrite <- Z.land_ones by lia. apply Z.bits_inj'. intros n Hn.
  rewrite Z.land_spec, Z.lxor_spec. destruct (decide (n < 64)).
  - by rewrite Z.ones_spec_low, andb_true_r by lia.
  - by rewrite (testbit_high a 64 n), (testbit_high b 64 n) by lia.
Qed.

Lemma shiftr_is_word a k : 0 <= k -> is_word a -> is_word (Z.shiftr a k).
Proof.
  intros Hk [H0 H1]. unfold is_word. rewrite Z.shiftr_div_pow2 by done.
  assert (0 < 2 ^ k) by (apply Z.pow_pos_nonneg; lia). split; [by apply Z.div_pos|].
  eapply Z.le_lt_trans; [|exact H1]. apply Z.div_le_upper_bound; nia.
Qed.

Lemma xor_shift_is_word k z : 0 <= k -> is_word z -> is_word (xor_shift k z).
Proof. intros Hk Hz. by apply lxor_is_word, shiftr_is_word. Qed.
Lemma xor_unshift_is_word k z : 0 <= k -> is_word z -> is_word (xor_unshift k z).
Proof. intros Hk Hz. repeat apply lxor_is_word; try apply shiftr_is_word; (done || lia). Qed.
Lemma wrap_is_word z : is_word (wrap_u64 z).
Proof. apply Z.mod_pos_bound. lia. Qed.

Lemma shiftr_vanishes k z : 22 <= k -> is_word z -> Z.shiftr z (k + k + k) = 0.
Proof.
  intros Hk [H0 H1]. rewrite Z.shiftr_div_pow2 by lia. apply Z.div_small. split; [done|].
  eapply Z.lt_le_trans; [exact H1|]. apply Z.pow_le_mono_r; lia.
Qed.

Lemma xor_unshift_shift k z : 22 <= k -> is_word z -> xor_unshift k (xor_shift k z) = z.
Proof.
  intros Hk Hz. unfold xor_unshift, xor_shift.
  rewrite !Z.shiftr_lxor, !Z.shiftr_shiftr by lia.
  replace (k + (k + k)) with (k + k + k) by lia. rewrite shiftr_vanishes by done.
  rewrite Z.lxor_0_r, (Z.lxor_assoc z), <- (Z.lxor_assoc (Z.shiftr z k)), Z.lxor_nilpotent,
    Z.lxor_0_l, Z.lxor_assoc, Z.lxor_nilpotent. apply Z.lxor_0_r.
Qed.

Lemma xor_shift_unshift k z : 22 <= k -> is_word z -> xor_shift k (xor_unshift k z) = z.
Proof.
  intros Hk Hz. unfold xor_unshift, xor_shift.
  rewrite !Z.shiftr_lxor, !Z.shiftr_shiftr by lia.
  rewrite shiftr_vanishes, Z.lxor_0_r by done.
  rewrite (Z.lxor_assoc z), Z.lxor_assoc, Z.lxor_nilpotent. apply Z.lxor_0_r.
Qed.

Lemma wrap_mul_inverse z c d : is_word z -> wrap_u64 (c * d) = 1 ->
  wrap_u64 (wrap_u64 (z * c) * d) = z.
Proof.
  unfold wrap_u64. intros Hz E. rewrite Z.mul_mod_idemp_l, <- Z.mul_assoc by lia.
  rewrite <- Z.mul_mod_idemp_r, E, Z.mul_1_r by lia. by apply Z.mod_small.
Qed.

Lemma splitmix64_first_fold seed : splitmix64_first seed
  = xor_shift 31 (wrap_u64 (xor_shift 27 (wrap_u64 (xor_shift 30
      (wrap_u64 (seed + 0x9E3779B97F4A7C15)) * 0xBF58476D1CE4E5B9)) * 0x94D049BB133111EB)).
Proof. done. Qed.

Lemma splitmix64_first_is_word seed : is_word (splitmix64_first seed).
Proof. rewrite splitmix64_first_fold. apply xor_shift_is_word; [lia|apply wrap_is_word]. Qed.

Lemma seed_of_draw_is_word draw : is_word (seed_of_draw draw).
Proof. apply wrap_is_word. Qed.

Lemma seed_of_first_draw seed : is_word seed -> seed_of_draw (splitmix64_first seed) = seed.
Proof.
  intros Hs. rewrite splitmix64_first_fold. unfold seed_of_draw.
  rewrite xor_unshift_shift by (lia || apply wrap_is_word).
  rewrite wrap_mul_inverse by (try apply xor_shift_is_word; (lia || apply wrap_is_word || reflexivity)).
  rewrite xor_unshift_shift by (lia || apply wrap_is_word).
  rewrite wrap_mul_inverse by (try apply xor_shift_is_word; (lia || apply wrap_is_word || reflexivity)).
  rewrite xor_unshift_shift by (lia || apply wrap_is_word).
  unfold wrap_u64. rewrite Zminus_mod_idemp_l. rewrite Z.add_simpl_r. by apply Z.mod_small.
Qed.

Lemma first_draw_of_seed draw : is_word draw -> splitmix64_first (seed_of_draw draw) = draw.
Proof.
  intros Hd. rewrite splitmix64_first_fold. unfold seed_of_draw.
  assert (forall z c, is_word z -> wrap_u64 (wrap_u64 (z - c) + c) = z) as Hadd.
  { intros z c Hz. unfold wrap_u64. rewrite Z.add_mod_idemp_l, Z.sub_simpl_r by lia.
    by apply Z.mod_small. }
  rewrite Hadd by (apply xor_unshift_is_word; [lia|apply wrap_is_word]).
  rewrite xor_shift_unshift by (lia || apply wrap_is_word).
  rewrite wrap_mul_inverse
    by (try apply xor_unshift_is_word; (lia || apply wrap_is_word || reflexivity)).
  rewrite xor_shift_unshift by (lia || apply wrap_is_word).
  rewrite wrap_mul_inverse by (try apply xor_unshift_is_word; (lia || done || reflexivity)).
  by apply xor_shift_unshift.
Qed.

(** It is the first output of the generator of games. *)
Lemma splitmix64_first_is_next_u64 seed :
  splitmix64_first seed = snd (next_u64 (SplitMix64_seed seed)).
Proof. done. Qed.
