(* ===== verification/FastSamplerExp.v ===== *)
(** * The weight table approximates the exponential

    Entry [k] of the table is within 257 units of [2^63 * exp (- k / 256)]: the
    base constant is the correctly rounded [2^63 * exp (- 1 / 256)], a step of the
    recurrence adds less than one unit, and multiplying by [exp (- 1 / 256)] shrinks
    what was there. *)

From Stdlib Require Import Reals Lra.
From stdpp Require Import strings.
From S2P Require Import Prelude FastSampler FastSamplerBits FastSamplerDraw.

Local Open Scope R_scope.

(** The terms of the series of [exp (- 1 / 256)], without their signs. *)
Definition exp_term (n : nat) : R := (/ 256) ^ n / INR (fact n).

Lemma exp_term_pos n : 0 < exp_term n.
Proof.
  apply Rdiv_lt_0_compat; [apply pow_lt; lra|]. apply lt_0_INR, lt_O_fact.
Qed.

Lemma exp_term_succ n : exp_term (S n) = exp_term n / (256 * INR (S n)).
Proof.
  unfold exp_term. rewrite fact_simpl, mult_INR. cbn [pow].
  pose proof (lt_0_INR (S n) (Nat.lt_0_succ n)). pose proof (lt_0_INR _ (lt_O_fact n)).
  field. split; lra.
Qed.

Lemma exp_term_decreasing : Un_decreasing exp_term.
Proof.
  intros n. rewrite exp_term_succ. pose proof (exp_term_pos n) as Hp.
  assert (1 <= INR (S n)) as Hn by (apply (le_INR 1); lia).
  apply Rmult_le_reg_r with (256 * INR (S n)); [lra|].
  unfold Rdiv. rewrite Rmult_assoc, Rinv_l by lra. nra.
Qed.

Lemma exp_series : Un_cv (fun n => sum_f_R0 (tg_alt exp_term) n) (exp (- / 256)).
Proof.
  unfold exp. destruct (exist_exp (- / 256)) as [l Hl]. cbn.
  intros eps Heps. destruct (Hl eps Heps) as [n Hn]. exists n. intros k Hk.
  rewrite (sum_eq _ (fun i => / INR (fact i) * (- / 256) ^ i)); [by apply Hn|].
  intros i _. unfold tg_alt, exp_term.
  replace ((- / 256) ^ i) with ((-1) ^ i * (/ 256) ^ i); [field; apply INR_fact_neq_0|].
  rewrite <- Rpow_mult_distr. f_equal. lra.
Qed.

(** [FAST_CATEGORICAL_EXP_BASE_Q63] is correctly rounded. *)
Lemma base_is_rounded :
  Rabs (IZR FAST_CATEGORICAL_EXP_BASE_Q63 - 2 ^ 63 * exp (- / 256)) <= / 2.
Proof.
  destruct (alternated_series_ineq exp_term (exp (- / 256)) 4 exp_term_decreasing
    (cv_speed_pow_fact (/ 256)) exp_series) as [Hlo Hhi].
  set (x := exp (- / 256)) in *. clearbody x.
  change (2 * 4)%nat with 8%nat in *. unfold tg_alt in Hlo, Hhi. cbn [sum_f_R0] in Hlo, Hhi.
  assert (exp_term 0 = 1) as E0 by (unfold exp_term; cbn; lra).
  pose proof (exp_term_succ 0) as E1. pose proof (exp_term_succ 1) as E2.
  pose proof (exp_term_succ 2) as E3. pose proof (exp_term_succ 3) as E4.
  pose proof (exp_term_succ 4) as E5. pose proof (exp_term_succ 5) as E6.
  pose proof (exp_term_succ 6) as E7. pose proof (exp_term_succ 7) as E8.
  pose proof (exp_term_succ 8) as E9.
  rewrite !S_INR in *. change (INR 0) with 0 in *.
  generalize dependent (exp_term 9). generalize dependent (exp_term 8).
  generalize dependent (exp_term 7). generalize dependent (exp_term 6).
  generalize dependent (exp_term 5). generalize dependent (exp_term 4).
  generalize dependent (exp_term 3). generalize dependent (exp_term 2).
  generalize dependent (exp_term 1). generalize dependent (exp_term 0).
  intros t0 -> t1 E1 t2 E2 t3 E3 t4 E4 t5 E5 t6 E6 t7 E7 t8 E8 Hhi t9 Hlo E9.
  unfold FAST_CATEGORICAL_EXP_BASE_Q63. cbn [pow] in *.
  apply Rabs_le. split; lra.
Qed.

Lemma IZR_pow63 : IZR (2 ^ 63) = 2 ^ 63.
Proof. symmetry. exact (pow_IZR 2 63). Qed.

(** Rounding to nearest is off by half a unit at most. *)
Lemma round_half_even_real n d : (0 < d)%Z ->
  Rabs (IZR (round_half_even n d) - IZR n / IZR d) <= / 2.
Proof.
  intros Hd. destruct (round_half_even_nearest n d Hd) as [Hn _].
  pose proof (IZR_lt 0 d Hd) as Hd0. apply IZR_le in Hn.
  rewrite mult_IZR, abs_IZR, minus_IZR, mult_IZR in Hn.
  apply Rmult_le_reg_r with (IZR d); [done|].
  rewrite <- (Rabs_pos_eq (IZR d)) at 2 by lra. rewrite <- Rabs_mult.
  replace ((IZR (round_half_even n d) - IZR n / IZR d) * IZR d)
    with (- (IZR n - IZR (round_half_even n d) * IZR d)) by (field; lra).
  rewrite Rabs_Ropp. lra.
Qed.

Lemma table_recurrence k w w' : FAST_CATEGORICAL_EXP_TABLE_Q63 !! k = Some w ->
  FAST_CATEGORICAL_EXP_TABLE_Q63 !! S k = Some w' ->
  Rabs (IZR w' - IZR w * (IZR FAST_CATEGORICAL_EXP_BASE_Q63 / 2 ^ 63)) <= / 2.
Proof.
  intros Ew Ew'. pose proof (table_bounds k w Ew) as [Hlo Hhi].
  rewrite (table_step k w w' Ew Ew'), round_q63_spec
    by (unfold FAST_CATEGORICAL_EXP_BASE_Q63; lia).
  pose proof (round_half_even_real (w * FAST_CATEGORICAL_EXP_BASE_Q63) (2 ^ 63) ltac:(lia)) as H.
  rewrite mult_IZR in H. rewrite IZR_pow63 in H.
  unfold Rdiv in *. by rewrite <- Rmult_assoc.
Qed.

(** One step: what was off shrinks, and less than one unit is added. *)
Lemma exp_step w w' e : 0 <= w <= 2 ^ 63 ->
  Rabs (w' - w * (IZR FAST_CATEGORICAL_EXP_BASE_Q63 / 2 ^ 63)) <= / 2 ->
  Rabs (w - 2 ^ 63 * e) <= 257 ->
  Rabs (w' - 2 ^ 63 * (e * exp (- / 256))) <= 257.
Proof.
  intros Hw Hr He. pose proof base_is_rounded as Hb.
  pose proof (exp_pos (- / 256)) as Hx0.
  assert (exp (- / 256) * 257 <= 256) as Hx.
  { pose proof (exp_ineq1 (/ 256) ltac:(lra)) as Hy.
    assert (exp (- / 256) * exp (/ 256) = 1) as E.
    { rewrite <- exp_plus, Rplus_opp_l. apply exp_0. }
    nra. }
  set (x := exp (- / 256)) in *. clearbody x.
  set (B := IZR FAST_CATEGORICAL_EXP_BASE_Q63) in *. clearbody B.
  replace (w' - 2 ^ 63 * (e * x)) with
    ((w' - w * (B / 2 ^ 63)) + ((w / 2 ^ 63) * (B - 2 ^ 63 * x) + (w - 2 ^ 63 * e) * x))
    by (field; apply pow_nonzero; lra).
  assert (0 <= w / 2 ^ 63 <= 1) as Hq.
  { assert (0 < 2 ^ 63) as Hp by (apply pow_lt; lra). split.
    - apply Rmult_le_pos; [lra|]. left. by apply Rinv_0_lt_compat.
    - apply Rmult_le_reg_r with (2 ^ 63); [done|]. unfold Rdiv.
      rewrite Rmult_assoc, Rinv_l by lra. lra. }
  eapply Rle_trans; [apply Rabs_triang|].
  assert (Rabs (w / 2 ^ 63 * (B - 2 ^ 63 * x)) <= / 2) as H1.
  { rewrite Rabs_mult, (Rabs_pos_eq (w / 2 ^ 63)) by lra. pose proof (Rabs_pos (B - 2 ^ 63 * x)). nra. }
  assert (Rabs ((w - 2 ^ 63 * e) * x) <= 256) as H2.
  { rewrite Rabs_mult, (Rabs_pos_eq x) by lra. pose proof (Rabs_pos (w - 2 ^ 63 * e)). nra. }
  pose proof (Rabs_triang (w / 2 ^ 63 * (B - 2 ^ 63 * x)) ((w - 2 ^ 63 * e) * x)). lra.
Qed.

(** Every entry of the weight table is within 257 units of the exponential it stands
    for, [2^63 * exp (- k / 256)], and there is an entry for each of the 4097 gaps. *)
Theorem weights_approximate_exp k : (k <= 4096)%nat ->
  exists w, FAST_CATEGORICAL_EXP_TABLE_Q63 !! k = Some w
    /\ Rabs (IZR w - 2 ^ 63 * exp (- (INR k / 256))) <= 257.
Proof.
  induction k as [|k IH]; intros Hk.
  - exists (2 ^ 63)%Z. split; [apply table_first|].
    replace (- (INR 0 / 256)) with 0 by (cbn; lra). rewrite exp_0, Rmult_1_r.
    rewrite IZR_pow63.
    rewrite Rminus_diag, Rabs_R0. lra.
  - destruct (IH ltac:(lia)) as (w & Ew & He).
    destruct (lookup_lt_is_Some_2 FAST_CATEGORICAL_EXP_TABLE_Q63 (S k)
      ltac:(rewrite table_length; lia)) as [w' Ew'].
    exists w'. split; [done|]. pose proof (table_bounds k w Ew) as [Hlo Hhi].
    replace (exp (- (INR (S k) / 256))) with (exp (- (INR k / 256)) * exp (- / 256))
      by (rewrite <- exp_plus, S_INR; f_equal; lra).
    apply (exp_step (IZR w)); [|by apply (table_recurrence k)|done]. split.
    + apply IZR_le. lia.
    + rewrite <- IZR_pow63.
      by apply IZR_le.
Qed.

Lemma weights_approximate_exp_witness :
  (256 <= 4096)%nat /\ exists w, FAST_CATEGORICAL_EXP_TABLE_Q63 !! 256%nat = Some w
    /\ Rabs (IZR w - 2 ^ 63 * exp (- (INR 256 / 256))) <= 257.
Proof.
  assert (256 <= 4096)%nat as H by (apply leb_complete; vm_compute; done).
  split; [exact H|]. exact (weights_approximate_exp 256 H).
Defined.
