(* ===== verification/FastSamplerLoops.v ===== *)
(** * The loops of the fast sampler

    What each loop of [apportion] leaves in the scratch arrays and returns: the
    maximum, the weights, the quotients with their remainders, the order of service
    of the insertion sort, and the units added along it. Arrays may be longer than
    the width of the call; what lies behind it is untouched. *)

From stdpp Require Import strings.
From S2P Require Import Prelude FastSampler Hamilton FastSamplerBits FastSamplerDraw.

Local Open Scope Z_scope.

(** ** The reference weights *)

(** The largest of the values. *)
Definition peak (vs : list Z) : Z :=
  match vs with [] => 0 | v :: vs => foldr Z.max v vs end.

Definition gap_q8 (peak v : Z) : Z := Z.min 4096 (round_half_even (peak - v) (2 ^ 141)).
Definition reference_weight (peak v : Z) : Z :=
  nth (Z.to_nat (gap_q8 peak v)) FAST_CATEGORICAL_EXP_TABLE_Q63 0.
Definition reference_weights (logits : list Z) : list Z :=
  let vs := map f32_units logits in map (reference_weight (peak vs)) vs.
Definition reference_masses (logits : list Z) : list Z :=
  hamilton (2 ^ 64) (reference_weights logits).

Lemma peak_ge vs v : v ∈ vs -> v <= peak vs.
Proof.
  destruct vs as [|x vs]; [by intros ?%elem_of_nil|]. cbn.
  intros [->|Hv]%elem_of_cons; induction vs as [|y vs IH]; cbn.
  - lia.
  - lia.
  - by apply elem_of_nil in Hv.
  - apply elem_of_cons in Hv as [->|Hv]; [lia|]. apply IH in Hv. lia.
Qed.

Lemma peak_unique vs m : m ∈ vs -> (forall v, v ∈ vs -> v <= m) -> peak vs = m.
Proof.
  intros Hm Hle. apply Z.le_antisymm; [|by apply peak_ge]. destruct vs as [|x vs]; [by apply elem_of_nil in Hm|].
  clear Hm. cbn. induction vs as [|y vs IH]; cbn; [apply Hle; by left|].
  apply Z.max_lub; [apply Hle; right; by left|]. apply IH. intros v Hv. apply Hle.
  apply elem_of_cons in Hv as [->|Hv]; [by left|by right; right].
Qed.

Lemma gap_q8_bounds p v : v <= p -> 0 <= gap_q8 p v <= 4096.
Proof.
  intros Hv. unfold gap_q8. pose proof (round_half_even_nonneg (p - v) (2 ^ 141) ltac:(lia) ltac:(lia)).
  lia.
Qed.

Lemma reference_weight_lookup p v : v <= p ->
  FAST_CATEGORICAL_EXP_TABLE_Q63 !! Z.to_nat (gap_q8 p v) = Some (reference_weight p v).
Proof.
  intros Hv. destruct (table_lookup (gap_q8 p v) (gap_q8_bounds p v Hv)) as [w Ew].
  rewrite Ew. f_equal. symmetry. by apply nth_lookup_Some.
Qed.

Lemma reference_weight_bounds p v : v <= p -> 1037953783666 <= reference_weight p v <= 2 ^ 63.
Proof. intros Hv. eapply table_bounds, reference_weight_lookup, Hv. Qed.

Lemma reference_weight_mono p v v' : v <= v' -> v' <= p ->
  reference_weight p v <= reference_weight p v'.
Proof.
  intros Hv Hp. eapply table_mono; [|apply reference_weight_lookup; lia..].
  unfold gap_q8. pose proof (round_half_even_mono (p - v') (p - v) (2 ^ 141) ltac:(lia) ltac:(lia)).
  pose proof (round_half_even_nonneg (p - v') (2 ^ 141) ltac:(lia) ltac:(lia)). lia.
Qed.

(** Different gaps have different weights. *)
Lemma reference_weight_strict p v v' : v <= v' -> v' <= p -> gap_q8 p v <> gap_q8 p v' ->
  reference_weight p v < reference_weight p v'.
Proof.
  intros Hv Hp Hne. eapply strictly_decreasing_lookup;
    [apply table_decreasing| |apply reference_weight_lookup; lia..].
  pose proof (gap_q8_bounds p v' ltac:(lia)). pose proof (gap_q8_bounds p v ltac:(lia)).
  unfold gap_q8 in *. pose proof (round_half_even_mono (p - v') (p - v) (2 ^ 141) ltac:(lia) ltac:(lia)).
  lia.
Qed.

Lemma reference_weights_length logits : length (reference_weights logits) = length logits.
Proof. unfold reference_weights. by rewrite !length_map. Qed.

Lemma reference_weights_bounds logits :
  Forall (fun w => 1037953783666 <= w <= 2 ^ 63) (reference_weights logits).
Proof.
  apply Forall_forall. intros w (v & -> & Hv)%list_elem_of_fmap.
  by apply reference_weight_bounds, peak_ge.
Qed.

Lemma reference_weights_lookup logits i w : reference_weights logits !! i = Some w <->
  exists bits, logits !! i = Some bits
    /\ w = reference_weight (peak (map f32_units logits)) (f32_units bits).
Proof.
  unfold reference_weights. rewrite !list_lookup_fmap. destruct (logits !! i) as [b|]; cbn; split.
  - intros [= <-]. eauto.
  - by intros (? & [= <-] & ->).
  - done.
  - by intros (? & [=] & _).
Qed.

Lemma reference_total logits : (0 < length logits)%nat ->
  0 < sumZ (reference_weights logits) <= Z.of_nat (length logits) * 2 ^ 63.
Proof.
  intros Hl. pose proof (reference_weights_bounds logits) as Hb.
  rewrite <- reference_weights_length in Hl |- *. destruct (reference_weights logits) as [|w ws]; [cbn in Hl; lia|].
  assert (Forall (fun x => 0 <= x <= 2 ^ 63) (w :: ws)) as H' by (eapply Forall_impl; [exact Hb|cbn; lia]).
  split; [|apply sumZ_bounds in H'; lia].
  apply Forall_cons in Hb as [Hw _]. apply Forall_cons in H' as [_ H'].
  apply sumZ_bounds in H'. rewrite sumZ_cons. lia.
Qed.

(* ------------------------------------------------------------------ *)
(** ** Running the methods *)

Lemma bind_ok {S A B} (m : M S A) (k : A -> M S B) s s' a :
  m s = (s', Ok a) -> bind m k s = k a s'.
Proof. unfold bind. by intros ->. Qed.

Lemma bind_err {S A B} (m : M S A) (k : A -> M S B) s s' e :
  m s = (s', Err e) -> bind m k s = (s', Err e).
Proof. unfold bind. by intros ->. Qed.

Lemma bind_lift_ok {S A B} (r : result (Fault FastCategoricalError) A) (k : A -> M S B) a s :
  r = Ok a -> bind (lift r) k s = k a s.
Proof. by intros ->. Qed.

Lemma insert_middle {A} (l1 l2 : list A) x y : <[length l1 := y]> (l1 ++ x :: l2) = l1 ++ y :: l2.
Proof. by rewrite <- (Nat.add_0_r (length l1)), insert_app_r. Qed.

Lemma alter_as_insert {A} (f : A -> A) (l : list A) (i : nat) x : l !! i = Some x -> alter f i l = <[i := f x]> l.
Proof.
  revert i. induction l as [|y l IH]; intros [|i]; cbn; [done..|by intros [= ->]|].
  intros H. f_equal. by apply IH.
Qed.

Lemma write_middle {A} (l1 l2 : list A) x y i : i = length l1 ->
  write (l1 ++ x :: l2) i y = Ok (l1 ++ y :: l2).
Proof.
  intros ->. unfold write. rewrite decide_True by (rewrite length_app; cbn; lia).
  by rewrite insert_middle.
Qed.

Lemma read_some {A} (l : list A) i x : l !! i = Some x -> read l i = Ok x.
Proof. unfold read. by intros ->. Qed.

Lemma sum_u128_spec l : Forall (Z.le 0) l -> sumZ l < 2 ^ 128 -> sum_u128 l = sumZ l.
Proof.
  intros Hl. unfold sum_u128.
  assert (forall t, 0 <= t -> t + sumZ l < 2 ^ 128 ->
    foldl (fun total value => wrap_u128 (total + value)) t l = t + sumZ l) as H; [|intros; by apply H].
  induction Hl as [|x l Hx Hl IH]; intros t Ht Hs; cbn [foldl].
  - change (sumZ []) with 0. lia.
  - rewrite sumZ_cons in *. pose proof (sumZ_nonneg l Hl).
    unfold wrap_u128. rewrite Z.mod_small by lia. rewrite IH; lia.
Qed.

(* ------------------------------------------------------------------ *)
(** ** The maximum *)

Lemma scan_maximum_ok index logits m : Forall f32_is_finite logits ->
  exists m', scan_maximum index logits m (finite_order_key m) = Ok m'
    /\ m' ∈ m :: logits
    /\ forall b, b ∈ m :: logits -> finite_order_key b <= finite_order_key m'.
Proof.
  intros Hl. revert index m. induction Hl as [|b logits Hb Hl IH]; intros index m; cbn.
  - exists m. split; [done|]. split; [by left|]. intros b [->|Hb]%elem_of_cons; [done|].
    by apply elem_of_nil in Hb.
  - rewrite decide_False by (rewrite not_finite_mask; apply Hb).
    case_decide as Hk.
    + destruct (IH (S index) b) as (m' & E & Hin & Hmax). exists m'. split; [done|].
      split; [by right|]. intros c [->|Hc]%elem_of_cons; [|by apply Hmax].
      pose proof (Hmax b ltac:(by left)). lia.
    + destruct (IH (S index) m) as (m' & E & Hin & Hmax). exists m'. split; [done|]. split.
      * apply elem_of_cons in Hin as [->|Hin]; [by left|by do 2 right].
      * intros c [->|[->|Hc]%elem_of_cons]%elem_of_cons.
        -- apply Hmax. by left.
        -- pose proof (Hmax m ltac:(by left)). lia.
        -- apply Hmax. by right.
Qed.

(** The first logit that is not finite is reported. *)
Lemma scan_maximum_err index pre bad post m k : Forall f32_is_finite pre ->
  f32_exponent bad = 255 ->
  scan_maximum index (pre ++ bad :: post) m k = Err (NonFinite (index + length pre) bad).
Proof.
  intros Hp Hbad. revert index m k. induction Hp as [|b pre Hb Hp IH]; intros index m k; cbn.
  - rewrite decide_True by (by apply not_finite_mask). by rewrite Nat.add_0_r.
  - rewrite decide_False by (rewrite not_finite_mask; apply Hb).
    replace (index + S (length pre))%nat with (S index + length pre)%nat by lia.
    case_decide; apply IH.
Qed.

(** The maximum found has the largest value, and comes last in every gap. *)
Lemma find_maximum_ok logits : logits <> [] -> Forall f32_is_finite logits ->
  exists m, find_maximum logits = Ok m /\ 0 <= m < 2 ^ 32
    /\ f32_units m = peak (map f32_units logits)
    /\ forall b, b ∈ logits -> finite_order_key b <= finite_order_key m.
Proof.
  intros Hne Hf. destruct logits as [|b logits]; [done|].
  unfold find_maximum, read. cbn [lookup list_lookup ok_or result_bind].
  destruct (scan_maximum_ok 0 (b :: logits) b Hf) as (m & -> & Hin & Hmax).
  assert (m ∈ b :: logits) as Hin'.
  { apply elem_of_cons in Hin as [->|Hin]; [by left|done]. }
  rewrite Forall_forall in Hf. destruct (Hf m Hin') as [Hr _].
  exists m. split; [done|]. split; [done|]. split.
  - symmetry. apply peak_unique; [by apply list_elem_of_fmap_2|].
    intros v (c & -> & Hc)%list_elem_of_fmap. destruct (Hf c Hc) as [Hc32 _].
    apply (order_key_values c m Hc32 Hr). apply Hmax. by right.
  - intros c Hc. apply Hmax. by right.
Qed.

(* ------------------------------------------------------------------ *)
(** ** Weights *)

Lemma weigh_spec m index logits total s pre old post p :
  0 <= m < 2 ^ 32 -> f32_units m = p -> Forall f32_is_finite logits ->
  (forall b, b ∈ logits -> finite_order_key b <= finite_order_key m) ->
  weights s = pre ++ old ++ post -> length pre = index -> length old = length logits ->
  let ws := map (fun b => reference_weight p (f32_units b)) logits in
  0 <= total -> total + sumZ ws < 2 ^ 128 ->
  weigh m index logits total s
  = (MkScratch (pre ++ ws ++ post) (remainders s) (masses s) (order s), Ok (total + sumZ ws)).
Proof.
  intros Hm Hp Hf. revert index total s pre old.
  induction Hf as [|b logits Hb Hf IH]; intros index total s pre old Hk Hw Hi Hlen ws Ht Hs.
  - destruct old; [|done]. cbn in Hw. cbn. rewrite <- Hw. change (sumZ []) with 0.
    rewrite Z.add_0_r. by destruct s.
  - destruct old as [|o old]; [done|]. injection Hlen as Hlen.
    assert (finite_order_key b <= finite_order_key m) as Hkb by (apply Hk; by left).
    assert (f32_units b <= p) as Hv.
    { rewrite <- Hp. apply (order_key_values b m); [apply Hb|done|done]. }
    cbn [weigh]. unfold reject.
    erewrite bind_lift_ok; cycle 1.
    { rewrite quantized_gap_q8_spec by (done || apply Hb). reflexivity. }
    rewrite Hp. fold (gap_q8 p (f32_units b)).
    erewrite bind_lift_ok; cycle 1.
    { apply read_some, reference_weight_lookup, Hv. }
    erewrite bind_ok; cycle 1.
    { unfold store_weight. rewrite Hw. cbn [app]. rewrite write_middle by done. reflexivity. }
    pose proof (reference_weight_bounds p (f32_units b) Hv) as Hwb.
    assert (Forall (Z.le 0) (map (fun b => reference_weight p (f32_units b)) logits)) as Hpos.
    { apply Forall_forall. intros w (c & -> & Hc)%list_elem_of_fmap.
      assert (f32_units c <= p) as Hvc.
      { rewrite <- Hp. rewrite Forall_forall in Hf. destruct (Hf c Hc).
        apply (order_key_values c m); [done|done|apply Hk; by right]. }
      pose proof (reference_weight_bounds p (f32_units c) Hvc). lia. }
    apply sumZ_nonneg in Hpos. unfold ws in *. cbn [map] in Hs |- *. rewrite sumZ_cons in Hs |- *.
    unfold wrap_u128. rewrite Z.mod_small by lia.
    rewrite (IH (S index) (total + reference_weight p (f32_units b)) _
      (pre ++ [reference_weight p (f32_units b)]) old).
    + cbn. rewrite <- app_assoc. cbn. f_equal. f_equal. lia.
    + intros c Hc. apply Hk. by right.
    + cbn. by rewrite <- app_assoc.
    + rewrite length_app. cbn. lia.
    + done.
    + lia.
    + lia.
Qed.

(* ------------------------------------------------------------------ *)
(** ** Quotients *)

Lemma divide_spec cast W i s wpre ws wpost mpre ms mpost rpre rs rpost opre os opost t :
  0 < W -> Forall (fun w => 0 <= w <= 2 ^ 63) ws ->
  weights s = wpre ++ ws ++ wpost -> masses s = mpre ++ ms ++ mpost ->
  remainders s = rpre ++ rs ++ rpost -> order s = opre ++ os ++ opost ->
  length wpre = i -> length mpre = i -> length rpre = i -> length opre = i ->
  length ms = length ws -> length rs = length ws -> length os = length ws ->
  let qs := map (fun w => w * 2 ^ 64 / W) ws in
  0 <= t -> t + sumZ qs < 2 ^ 128 ->
  divide cast W (seq i (length ws)) t s
  = (MkScratch (weights s) (rpre ++ map (fun w => w * 2 ^ 64 mod W) ws ++ rpost)
       (mpre ++ qs ++ mpost) (opre ++ map cast (seq i (length ws)) ++ opost), Ok (t + sumZ qs)).
Proof.
  intros HW Hws. revert i s wpre mpre ms rpre rs opre os t.
  induction Hws as [|w ws Hw Hws IH];
    intros i s wpre mpre ms rpre rs opre os t Ew Em Er Eo Lw Lm Lr Lo Hm Hr Ho qs Ht Hs.
  - destruct ms, rs, os; try done. cbn. cbn in Em, Er, Eo. rewrite <- Em, <- Er, <- Eo.
    change (sumZ []) with 0. rewrite Z.add_0_r. by destruct s.
  - destruct ms as [|m ms], rs as [|r rs], os as [|o os]; try done.
    injection Hm as Hm. injection Hr as Hr. injection Ho as Ho.
    cbn [length seq divide].
    erewrite bind_ok; cycle 1.
    { unfold load. rewrite (read_some _ _ w); [reflexivity|]. rewrite Ew. cbn.
      by apply list_lookup_middle. }
    erewrite bind_lift_ok; cycle 1.
    { rewrite decide_False by lia. reflexivity. }
    assert (wrap_u128 (w * FAST_CATEGORICAL_MASS_TOTAL) = w * 2 ^ 64) as Ewr.
    { change FAST_CATEGORICAL_MASS_TOTAL with (2 ^ 64). unfold wrap_u128. apply Z.mod_small. lia. }
    rewrite Ewr.
    erewrite bind_ok; cycle 1.
    { unfold store_mass. rewrite Em. cbn [app]. rewrite write_middle by done. reflexivity. }
    erewrite bind_ok; cycle 1.
    { unfold store_remainder. cbn [weights remainders masses order]. rewrite Er. cbn [app].
      rewrite write_middle by done. reflexivity. }
    erewrite bind_ok; cycle 1.
    { unfold store_order. cbn [weights remainders masses order]. rewrite Eo. cbn [app].
      rewrite write_middle by done. reflexivity. }
    assert (0 <= w * 2 ^ 64 / W) as Hq by (apply Z.div_pos; lia).
    assert (0 <= sumZ (map (fun w => w * 2 ^ 64 / W) ws)) as Hqs.
    { apply sumZ_nonneg, Forall_forall. intros x (y & -> & Hy)%list_elem_of_fmap.
      rewrite Forall_forall in Hws. specialize (Hws y Hy). apply Z.div_pos; lia. }
    unfold qs in *. cbn [map] in Hs |- *. rewrite sumZ_cons in Hs |- *.
    cbn [weights remainders masses order]. unfold wrap_u128 at 1. rewrite Z.mod_small by lia.
    rewrite (IH (S i) _ (wpre ++ [w]) (mpre ++ [w * 2 ^ 64 / W]) ms
      (rpre ++ [w * 2 ^ 64 mod W]) rs (opre ++ [cast i]) os).
    + cbn [weights remainders masses order]. rewrite <- !app_assoc. cbn [app].
      by rewrite Z.add_assoc.
    + cbn. by rewrite Ew, <- app_assoc.
    + cbn. by rewrite <- app_assoc.
    + cbn. by rewrite <- app_assoc.
    + cbn. by rewrite <- app_assoc.
    + rewrite length_app. cbn. lia.
    + rewrite length_app. cbn. lia.
    + rewrite length_app. cbn. lia.
    + rewrite length_app. cbn. lia.
    + done.
    + done.
    + done.
    + lia.
    + lia.
Qed.

(* ------------------------------------------------------------------ *)
(** ** The insertion sort *)

Section InsertionSort.
Context (rems rpost : list Z).
Let n := length rems.

Lemma candidate_is_better_spec c p : c <> p ->
  candidate_is_better (nth c rems 0) (nth p rems 0) c p = bool_decide (precedes rems c p).
Proof using.
  intros Hne. unfold candidate_is_better, precedes.
  destruct (Z.ltb_spec (nth p rems 0) (nth c rems 0)),
    (Z.eqb_spec (nth c rems 0) (nth p rems 0)); cbn [orb andb]; repeat case_bool_decide; lia.
Qed.

Lemma load_remainder s i : remainders s = rems ++ rpost -> (i < n)%nat ->
  load remainders i s = (s, Ok (nth i rems 0)).
Proof using.
  intros Er Hi. unfold load. destruct (lookup_lt_is_Some_2 rems i Hi) as [x Ex].
  rewrite (read_some _ _ x).
  - by erewrite nth_lookup_Some.
  - by rewrite Er, lookup_app_l.
Qed.

(** The [while] loop opens a gap where the candidate belongs. *)
Lemma sift_spec c q x r s : remainders s = rems ++ rpost -> (c < n)%nat -> c ∉ q ->
  Forall (fun i => (i < n)%nat) q -> order s = q ++ x :: r ->
  exists q1 q2 x', q = q1 ++ q2
    /\ sift c (length q) s
       = (MkScratch (weights s) (remainders s) (masses s) (q1 ++ x' :: q2 ++ r), Ok (length q1))
    /\ Forall (precedes rems c) q2
    /\ (forall y, last q1 = Some y -> precedes rems y c).
Proof using.
  intros Er Hc. revert x r s Er. induction q as [|y q IH] using rev_ind; intros x r s Er Hcq Hq Eo.
  - exists [], [], x. split; [done|]. cbn in Eo. split; [|done]. cbn. rewrite <- Eo. by destruct s.
  - apply not_elem_of_app in Hcq as [Hcq Hcy]. rewrite list_elem_of_singleton in Hcy.
    apply Forall_app in Hq as [Hq Hy]. apply Forall_cons in Hy as [Hy _].
    rewrite length_app. cbn [length]. rewrite Nat.add_1_r. cbn [sift].
    rewrite <- app_assoc in Eo. cbn [app] in Eo.
    erewrite bind_ok; cycle 1.
    { unfold load. rewrite (read_some _ _ y); [reflexivity|]. rewrite Eo. by apply list_lookup_middle. }
    erewrite bind_ok by (by apply load_remainder). erewrite bind_ok by (by apply load_remainder).
    rewrite candidate_is_better_spec by done. case_bool_decide as Hp.
    + erewrite bind_ok; cycle 1.
      { unfold store_order. rewrite Eo, (cons_middle y), app_assoc.
        rewrite write_middle, <- app_assoc by (rewrite length_app; cbn; lia). reflexivity. }
      destruct (IH y (y :: r) (MkScratch (weights s) (remainders s) (masses s) (q ++ y :: y :: r))
        Er Hcq Hq eq_refl) as (q1 & q2 & x' & -> & E & H2 & H1).
      exists q1, (q2 ++ [y]), x'. split; [by rewrite app_assoc|]. split.
      { cbn [app]. rewrite E. cbn. by rewrite <- !app_assoc. }
      split; [|done]. apply Forall_app. by split; [|apply Forall_singleton].
    + exists (q ++ [y]), [], x. split; [by rewrite app_nil_r|]. split.
      { rewrite length_app, Nat.add_1_r. cbn. rewrite <- app_assoc. cbn. rewrite <- Eo. by destruct s. }
      split; [done|]. intros z Hz. rewrite last_snoc in Hz. injection Hz as <-.
      by destruct (total (precedes rems) y c).
Qed.

Lemma sorted_insert c q1 q2 : StronglySorted (precedes rems) (q1 ++ q2) ->
  Forall (precedes rems c) q2 -> (forall y, last q1 = Some y -> precedes rems y c) ->
  StronglySorted (precedes rems) (q1 ++ c :: q2).
Proof using.
  intros Hs H2 Hl. apply StronglySorted_app in Hs as (Hx & Hs1 & Hs2).
  assert (forall y, y ∈ q1 -> precedes rems y c) as H1.
  { induction q1 as [|a q1 IH]; [by intros y ?%elem_of_nil|].
    intros y [->|Hy]%elem_of_cons.
    - destruct q1 as [|b q1]; [by apply Hl|]. trans b.
      + apply StronglySorted_cons in Hs1 as [Ha _]. rewrite Forall_cons in Ha. apply Ha.
      + apply IH; [intros u v Hu Hv; apply Hx; [by right|done]| |exact Hl|by left].
        by apply StronglySorted_cons in Hs1 as [_ Hs1].
    - apply IH; [intros u v Hu Hv; apply Hx; [by right|done]| | |done].
      + by apply StronglySorted_cons in Hs1 as [_ Hs1].
      + intros z Hz. apply Hl. cbn. destruct q1; [done|exact Hz]. }
  apply StronglySorted_app. split_and!; [|done|].
  - intros u v Hu [->|Hv]%elem_of_cons; [by apply H1|by apply Hx].
  - apply StronglySorted_cons. done.
Qed.

Lemma insertion_sort_spec p todo post s : remainders s = rems ++ rpost ->
  Forall (fun i => (i < n)%nat) (p ++ todo) -> NoDup (p ++ todo) ->
  StronglySorted (precedes rems) p -> order s = p ++ todo ++ post ->
  exists p', p' ≡ₚ p ++ todo /\ StronglySorted (precedes rems) p'
    /\ insertion_sort (seq (length p) (length todo)) s
       = (MkScratch (weights s) (remainders s) (masses s) (p' ++ post), Ok ()).
Proof using.
  revert p s. induction todo as [|c todo IH]; intros p s Er Hn Hd Hs Eo.
  - exists p. rewrite app_nil_r. split; [done|]. split; [done|]. cbn in Eo |- *. rewrite <- Eo.
    by destruct s.
  - apply Forall_app in Hn as [Hnp Hn]. apply Forall_cons in Hn as [Hnc Hn].
    assert (c ∉ p) as Hcp.
    { apply NoDup_app in Hd as (_ & Hd & _). intros Hc. apply (Hd c Hc). by left. }
    cbn [length seq insertion_sort].
    erewrite bind_ok; cycle 1.
    { unfold load. rewrite (read_some _ _ c); [reflexivity|]. rewrite Eo. by apply list_lookup_middle. }
    destruct (sift_spec c p c (todo ++ post) s Er Hnc Hcp Hnp) as (q1 & q2 & x' & -> & E & H2 & H1);
      [by rewrite Eo|].
    erewrite bind_ok by exact E.
    erewrite bind_ok; cycle 1.
    { unfold store_order. cbn [order weights remainders masses].
      rewrite write_middle by done. reflexivity. }
    assert (q1 ++ c :: q2 ≡ₚ (q1 ++ q2) ++ [c]) as Hperm.
    { rewrite <- app_assoc, <- Permutation_cons_append. done. }
    destruct (IH (q1 ++ c :: q2) (MkScratch (weights s) (remainders s) (masses s)
      ((q1 ++ c :: q2) ++ todo ++ post))) as (p' & Hp' & Hs' & Ep').
    + exact Er.
    + rewrite Hperm. rewrite !Forall_app in *. rewrite Forall_singleton. tauto.
    + rewrite Hperm, <- app_assoc. exact Hd.
    + by apply sorted_insert.
    + done.
    + exists p'. split; [rewrite Hp', Hperm, <- app_assoc; done|]. split; [done|].
      replace (S (length (q1 ++ q2))) with (length (q1 ++ c :: q2))
        by (rewrite !length_app; cbn; lia).
      rewrite <- app_assoc in Ep'. cbn [app] in Ep'. rewrite Ep'. done.
Qed.
End InsertionSort.

(* ------------------------------------------------------------------ *)
(** ** The units left over *)

Lemma bump_all_app l post indices : Forall (fun i => (i < length l)%nat) indices ->
  bump_all (l ++ post) indices = bump_all l indices ++ post.
Proof.
  revert l. induction indices as [|i indices IH]; intros l H; cbn; [done|].
  apply Forall_cons in H as [Hi H]. rewrite alter_app_l by done.
  apply IH. eapply Forall_impl; [exact H|]. intros j. by rewrite length_alter.
Qed.

Lemma add_residual_spec ord opost m k s ms mpost :
  order s = ord ++ opost -> masses s = ms ++ mpost -> (k + m <= length ord)%nat ->
  Forall (fun i => (i < length ms)%nat) ord ->
  Forall (fun x => 0 <= x /\ x + Z.of_nat m < 2 ^ 128) ms ->
  add_residual (seq k m) s
  = (MkScratch (weights s) (remainders s) (bump_all ms (take m (drop k ord)) ++ mpost) (order s),
     Ok ()).
Proof.
  revert k s ms. induction m as [|m IH]; intros k s ms Eo Em Hk Hord Hms.
  - rewrite take_0. cbn [seq add_residual]. change (bump_all ms []) with ms. rewrite <- Em. by destruct s.
  - destruct (lookup_lt_is_Some_2 ord k ltac:(lia)) as [i Ei].
    pose proof (Forall_lookup_1 _ _ _ _ Hord Ei) as Hi. cbv beta in Hi.
    destruct (lookup_lt_is_Some_2 ms i Hi) as [x Ex].
    pose proof (Forall_lookup_1 _ _ _ _ Hms Ex) as Hx. cbv beta in Hx.
    cbn [seq add_residual].
    erewrite bind_ok; cycle 1.
    { unfold load. rewrite (read_some _ _ i); [reflexivity|]. by rewrite Eo, lookup_app_l by lia. }
    erewrite bind_ok; cycle 1.
    { unfold load. rewrite (read_some _ _ x); [reflexivity|]. by rewrite Em, lookup_app_l by lia. }
    erewrite bind_ok; cycle 1.
    { unfold store_mass, write. rewrite Em, decide_True by (rewrite length_app; lia). reflexivity. }
    unfold wrap_u128. rewrite Z.mod_small by lia.
    rewrite insert_app_l by done. rewrite (Z.add_comm x), <- (alter_as_insert (Z.add 1)) by done.
    rewrite (IH (S k) _ (alter (Z.add 1) i ms)); try done; cbn [order masses weights remainders].
    + by rewrite (drop_S ord i k Ei).
    + lia.
    + eapply Forall_impl; [exact Hord|]. intros j. by rewrite length_alter.
    + rewrite (alter_as_insert _ _ _ x Ex). apply Forall_insert; [|lia].
      eapply Forall_impl; [exact Hms|]. cbn. lia.
Qed.

(* ------------------------------------------------------------------ *)
(** ** From the maximum to the masses *)

Section Run.
Context (logits : list Z) (m : Z).
Let n := length logits.
Let ws := reference_weights logits.
Hypothesis Hn : (0 < n)%nat.
Hypothesis Hwidth : Z.of_nat n <= 65536.
Hypothesis Hm : 0 <= m < 2 ^ 32.
Hypothesis Hpeak : f32_units m = peak (map f32_units logits).
Hypothesis Hfin : Forall f32_is_finite logits.
Hypothesis Hkey : forall b, b ∈ logits -> finite_order_key b <= finite_order_key m.

Lemma weights_small : Forall (fun w => 0 <= w <= 2 ^ 63) ws /\ 0 < sumZ ws < 2 ^ 80.
Proof using Hn Hwidth.
  clear Hkey Hpeak Hfin Hm.
  split.
  - eapply Forall_impl; [apply reference_weights_bounds|]. cbn. lia.
  - pose proof (reference_total logits Hn). unfold ws, n in *. lia.
Qed.

Lemma quotas_small : Forall (Z.le 0) (quotas (2 ^ 64) ws) /\ sumZ (quotas (2 ^ 64) ws) <= 2 ^ 64.
Proof using Hn Hwidth.
  clear Hkey Hpeak Hfin Hm.
  destruct weights_small as [Hw HW]. split.
  - apply Forall_forall. intros q (w & -> & Hin)%list_elem_of_fmap.
    rewrite Forall_forall in Hw. specialize (Hw w Hin). apply Z.div_pos; lia.
  - pose proof (leftover_bounds (2 ^ 64) ws ltac:(lia)). unfold leftover in *. lia.
Qed.

(** The first two loops. *)
Lemma quotients_run {A} cast s wold wpost rold rpost mold mpost oold opost
    (k : Z -> M FastCategoricalScratch A) :
  weights s = wold ++ wpost -> remainders s = rold ++ rpost ->
  masses s = mold ++ mpost -> order s = oold ++ opost ->
  length wold = n -> length rold = n -> length mold = n -> length oold = n ->
  map cast (seq 0 n) = seq 0 n ->
  bind (weigh m 0 logits 0) (fun weight_total => bind (divide cast weight_total (seq 0 n) 0) k) s
  = k (sumZ (quotas (2 ^ 64) ws))
      (MkScratch (ws ++ wpost) (rests (2 ^ 64) ws ++ rpost) (quotas (2 ^ 64) ws ++ mpost)
         (seq 0 n ++ opost)).
Proof using Hn Hwidth Hm Hpeak Hfin Hkey.
  intros Ew Er Em Eo Lw Lr Lm Lo Hcast.
  destruct weights_small as [Hw HW]. destruct quotas_small as [_ Hq].
  assert (map (fun b => reference_weight (peak (map f32_units logits)) (f32_units b)) logits = ws)
    as Ews by (unfold ws, reference_weights; by rewrite map_map).
  erewrite bind_ok; cycle 1.
  { rewrite (weigh_spec m 0 logits 0 s [] wold wpost _ Hm Hpeak Hfin Hkey); try done.
    rewrite Ews. lia. }
  rewrite Ews, Z.add_0_l. cbn [app].
  pose proof (divide_spec cast (sumZ ws) 0
    (MkScratch (ws ++ wpost) (remainders s) (masses s) (order s))
    [] ws wpost [] mold mpost [] rold rpost [] oold opost 0 ltac:(lia) Hw) as E.
  assert (length ws = n) as Lws by apply reference_weights_length.
  cbn [weights masses remainders order app] in E. rewrite Lws in E.
  erewrite bind_ok by (apply E; (done || congruence || lia || (fold (quotas (2 ^ 64) ws); lia))).
  by rewrite Z.add_0_l, Hcast.
Qed.

(** The last loop and the check of the total. *)
Lemma residual_run s opost mpost :
  order s = ranking (rests (2 ^ 64) ws) ++ opost -> masses s = quotas (2 ^ 64) ws ++ mpost ->
  add_residual (seq 0 (Z.to_nat (leftover (2 ^ 64) ws))) s
  = (MkScratch (weights s) (remainders s) (reference_masses logits ++ mpost) (order s), Ok ())
  /\ sum_u128 (reference_masses logits) = 2 ^ 64.
Proof using Hn Hwidth.
  clear Hkey Hpeak Hfin Hm.
  intros Eo Em. destruct weights_small as [Hw HW]. destruct quotas_small as [Hq Hs].
  pose proof (leftover_bounds (2 ^ 64) ws ltac:(lia)) as Hlo.
  assert (length ws = n) as Lws by apply reference_weights_length. split.
  - rewrite (add_residual_spec (ranking (rests (2 ^ 64) ws)) opost _ 0 s (quotas (2 ^ 64) ws) mpost
      Eo Em).
    + cbn [drop]. by rewrite hamilton_bump by lia.
    + rewrite ranking_length, rests_length. lia.
    + apply Forall_forall. intros i Hi%ranking_elem. rewrite rests_length in Hi.
      by rewrite quotas_length.
    + apply Forall_forall. intros q [j Hj]%list_elem_of_lookup.
      pose proof (sumZ_lookup_le _ _ _ Hq Hj). pose proof (Forall_lookup_1 _ _ _ _ Hq Hj). lia.
  - assert (sumZ (reference_masses logits) = 2 ^ 64) as E
      by exact (hamilton_sum (2 ^ 64) ws (proj1 HW)).
    rewrite sum_u128_spec; [exact E| |by rewrite E].
    apply (hamilton_nonneg (2 ^ 64) ws); [done| |apply HW].
    eapply Forall_impl; [exact Hw|]. cbn. tauto.
Qed.
End Run.
