(* ===== verification/FastSamplerFacts.v ===== *)
(** * The fast sampler is exact

    Both samplers compute the same reference: weights from correctly rounded gaps,
    Hamilton apportionment of 2^64 units, errors in a fixed precedence, never a
    panic and never an internal invariant failure, whatever the scratch held
    before. Over the 2^64 seeds an action is picked exactly as often as its mass. *)

From stdpp Require Import strings.
From S2P Require Import Prelude FastSampler Hamilton FastSamplerBits FastSamplerDraw FastSamplerLoops.

Local Open Scope Z_scope.

(** What a call with width limit [maximum] answers. *)
Definition apportion_reference (maximum : Z) (logits : list Z)
  : result FastCategoricalError (list Z) :=
  if decide (logits = []) then Err Empty
  else if decide (maximum < Z.of_nat (length logits)) then
    Err (WidthExceeded (Z.of_nat (length logits)) maximum)
  else match list_find (fun bits => f32_exponent bits = 255) logits with
       | Some (index, bits) => Err (NonFinite index bits)
       | None => Ok (reference_masses logits)
       end.

Definition is_f32 (bits : Z) : Prop := 0 <= bits < 2 ^ 32.

(** All four arrays have the length [n]; those of the narrow scratch have 64. *)
Definition scratch_sized (n : nat) (s : FastCategoricalScratch) : Prop :=
  length (weights s) = n /\ length (remainders s) = n
  /\ length (masses s) = n /\ length (order s) = n.

Definition fixed_scratch : FastCategoricalScratch -> Prop :=
  scratch_sized FAST_CATEGORICAL_MAX_ACTIONS.

Lemma default_scratch_fixed : fixed_scratch default_scratch.
Proof. done. Qed.

(* ------------------------------------------------------------------ *)
(** ** Pieces of [apportion] *)

Lemma as_u8_seq n : (n <= 256)%nat -> map as_u8 (seq 0 n) = seq 0 n.
Proof.
  intros Hn. rewrite <- (map_id (seq 0 n)) at 2. apply map_ext_in.
  intros i Hi%in_seq. unfold as_u8. rewrite wrap_u8_small by lia. lia.
Qed.

Lemma seq_head n : (0 < n)%nat -> seq 0 n = [0%nat] ++ seq 1 (n - 1).
Proof. destruct n as [|n]; [lia|]. intros _. cbn. by rewrite Nat.sub_0_r. Qed.

(** From the identity order the insertion sort reaches the order of service. *)
Lemma insertion_sort_ranks rems rpost opost s :
  remainders s = rems ++ rpost -> order s = seq 0 (length rems) ++ opost -> (0 < length rems)%nat ->
  insertion_sort (seq 1 (length rems - 1)) s
  = (MkScratch (weights s) (remainders s) (masses s) (ranking rems ++ opost), Ok ()).
Proof.
  intros Er Eo Hn. rewrite (seq_head _ Hn), <- app_assoc in Eo.
  destruct (insertion_sort_spec rems rpost [0%nat] (seq 1 (length rems - 1)) opost s Er)
    as (p & Hp & Hs & E); [..|done|].
  - rewrite <- seq_head by done. apply Forall_forall. intros i Hi%elem_of_seq. lia.
  - rewrite <- seq_head by done. apply NoDup_seq.
  - repeat constructor.
  - rewrite length_seq in E. cbn [length] in E. rewrite E.
    rewrite <- seq_head in Hp by done. by rewrite (ranking_unique rems p Hp Hs).
Qed.

Lemma narrow_residual_spec width q : 0 <= q <= 2 ^ 64 ->
  0 <= 2 ^ 64 - q < Z.of_nat width -> Z.of_nat width <= 2 ^ 17 ->
  narrow_residual width q = Ok (2 ^ 64 - q).
Proof.
  intros Hq Hr Hw. unfold narrow_residual, checked_sub_u128, usize_try_from.
  change FAST_CATEGORICAL_MASS_TOTAL with (2 ^ 64).
  assert (checked_unsigned (2 ^ 128 - 1) (2 ^ 64 - q) = Some (2 ^ 64 - q)) as ->
    by (apply checked_unsigned_some; lia).
  cbn [ok_or result_bind].
  assert (checked_unsigned u64_max (2 ^ 64 - q) = Some (2 ^ 64 - q)) as ->
    by (apply checked_unsigned_some; unfold u64_max; lia).
  cbn [ok_or result_bind]. by rewrite decide_False by lia.
Qed.

Lemma wide_residual_spec width q : 0 <= q <= 2 ^ 64 ->
  0 <= 2 ^ 64 - q < Z.of_nat width -> Z.of_nat width <= 2 ^ 17 ->
  wide_residual width q = Ok (2 ^ 64 - q).
Proof.
  intros Hq Hr Hw. unfold wide_residual, checked_sub_u128, usize_try_from.
  change FAST_CATEGORICAL_MASS_TOTAL with (2 ^ 64).
  assert (checked_unsigned (2 ^ 128 - 1) (2 ^ 64 - q) = Some (2 ^ 64 - q)) as ->
    by (apply checked_unsigned_some; lia).
  cbn [mbind option_bind].
  assert (checked_unsigned u64_max (2 ^ 64 - q) = Some (2 ^ 64 - q)) as ->
    by (apply checked_unsigned_some; unfold u64_max; lia).
  cbn [mbind option_bind]. by rewrite decide_True by lia.
Qed.

Lemma find_nonfinite_none logits : Forall is_f32 logits ->
  list_find (fun bits => f32_exponent bits = 255) logits = None -> Forall f32_is_finite logits.
Proof.
  intros Hf Hn%list_find_None. apply Forall_forall. intros b Hb.
  rewrite Forall_forall in Hf, Hn. split; [by apply Hf|by apply Hn].
Qed.

Lemma find_maximum_err logits i bad : Forall is_f32 logits ->
  list_find (fun bits => f32_exponent bits = 255) logits = Some (i, bad) ->
  find_maximum logits = Err (Reject (NonFinite i bad)).
Proof.
  intros Hf (Hi & Hbad & Hpre)%list_find_Some.
  assert (logits <> []) as Hne by (by intros ->).
  destruct logits as [|b logits]; [done|].
  unfold find_maximum, read. cbn [lookup list_lookup ok_or result_bind].
  rewrite <- (take_drop_middle _ _ _ Hi) at 1.
  rewrite scan_maximum_err; [|apply Forall_forall|done].
  - cbn. rewrite length_take_le; [done|]. apply lookup_lt_Some in Hi. lia.
  - intros c (j & Hj & Hlt)%elem_of_take. rewrite Forall_forall in Hf. split.
    + by eapply Hf, list_elem_of_lookup_2.
    + by apply (Hpre j c).
Qed.

Lemma split_sized {A} (l : list A) n k : length l = k -> (n <= k)%nat ->
  l = take n l ++ drop n l /\ length (take n l) = n.
Proof. intros Hl Hn. split; [by rewrite take_drop|]. rewrite length_take. lia. Qed.

(* ------------------------------------------------------------------ *)
(** ** The narrow sampler *)

Lemma apportion_finite s logits : fixed_scratch s -> logits <> [] ->
  (length logits <= 64)%nat -> Forall f32_is_finite logits ->
  exists s', apportion logits s = (s', Ok (reference_masses logits)) /\ fixed_scratch s'
    /\ last_masses_v1 (length logits) s' = Ok (reference_masses logits).
Proof.
  intros (Lw & Lr & Lm & Lo) Hne Hlen Hf. change FAST_CATEGORICAL_MAX_ACTIONS with 64%nat in *.
  assert (0 < length logits)%nat as Hn by (destruct logits; [done|cbn; lia]).
  destruct (find_maximum_ok logits Hne Hf) as (m & Em & Hm & Hpeak & Hkey).
  destruct (split_sized _ _ _ Lw Hlen) as [Ew Lw']. destruct (split_sized _ _ _ Lr Hlen) as [Er Lr'].
  destruct (split_sized _ _ _ Lm Hlen) as [Ema Lm']. destruct (split_sized _ _ _ Lo Hlen) as [Eo Lo'].
  unfold apportion, reject.
  erewrite bind_lift_ok; cycle 1.
  { unfold validate_width. rewrite decide_False by lia.
    rewrite decide_False by (unfold FAST_CATEGORICAL_MAX_ACTIONS; lia). reflexivity. }
  erewrite bind_lift_ok by exact Em.
  rewrite (quotients_run logits m Hn ltac:(lia) Hm Hpeak Hf Hkey as_u8 s _ _ _ _ _ _ _ _ _
    Ew Er Ema Eo Lw' Lr' Lm' Lo' (as_u8_seq (length logits) ltac:(lia))).
  set (ws := reference_weights logits).
  assert (length (rests (2 ^ 64) ws) = length logits) as Lrests
    by (rewrite rests_length; apply reference_weights_length).
  erewrite bind_ok; cycle 1.
  { rewrite <- Lrests at 1. eapply insertion_sort_ranks; cbn [remainders order]; [reflexivity| |lia].
    by rewrite Lrests. }
  cbn [weights remainders masses order].
  destruct (weights_small logits Hn ltac:(lia)) as [Hw HW].
  destruct (quotas_small logits Hn ltac:(lia)) as [Hq Hqs].
  pose proof (leftover_bounds (2 ^ 64) ws (proj1 HW)) as Hlo.
  rewrite (reference_weights_length logits : length ws = _) in Hlo.
  pose proof (sumZ_nonneg _ Hq) as Hq0.
  erewrite bind_lift_ok; cycle 1.
  { rewrite narrow_residual_spec; [reflexivity|split; [exact Hq0|exact Hqs]|exact Hlo|lia]. }
  destruct (residual_run logits Hn ltac:(lia) (MkScratch (ws ++ drop (length logits) (weights s))
    (rests (2 ^ 64) ws ++ drop (length logits) (remainders s))
    (quotas (2 ^ 64) ws ++ drop (length logits) (masses s))
    (ranking (rests (2 ^ 64) ws) ++ drop (length logits) (order s))) _ _ eq_refl eq_refl)
    as [Erun Esum].
  erewrite bind_ok by exact Erun. cbn [weights remainders masses order].
  assert (length (reference_masses logits) = length logits) as Lref.
  { unfold reference_masses. rewrite hamilton_length. apply reference_weights_length. }
  assert (take (length logits) (reference_masses logits ++ drop (length logits) (masses s))
          = reference_masses logits) as Etake by (by rewrite take_app_length').
  assert (length logits <= length (reference_masses logits ++ drop (length logits) (masses s)))%nat
    as Hle by (rewrite length_app; lia).
  erewrite bind_ok; cycle 1.
  { unfold load_slice. cbn [masses]. rewrite decide_True, Etake by exact Hle. reflexivity. }
  rewrite Esum, decide_False by (intros H; by apply H).
  eexists. split; [reflexivity|]. split.
  - unfold fixed_scratch, scratch_sized. cbn [weights remainders masses order].
    change FAST_CATEGORICAL_MAX_ACTIONS with 64%nat.
    rewrite !length_app, !length_drop, Lref, Lrests, ranking_length, Lrests.
    rewrite (reference_weights_length logits : length ws = _). lia.
  - unfold last_masses_v1, load_slice. cbn [masses snd]. by rewrite decide_True, Etake by exact Hle.
Qed.

(** Two limits that admit a width answer alike. *)
Lemma apportion_reference_limit a b logits :
  Z.of_nat (length logits) <= a -> Z.of_nat (length logits) <= b ->
  apportion_reference a logits = apportion_reference b logits.
Proof.
  intros Ha Hb. unfold apportion_reference. case_decide; [done|].
  by rewrite !decide_False by lia.
Qed.

(** The narrow sampler on every input. *)
Lemma apportion_runs s logits : fixed_scratch s -> Forall is_f32 logits ->
  exists s', apportion logits s = (s', from_reject (apportion_reference 64 logits))
    /\ fixed_scratch s'
    /\ forall ms, apportion_reference 64 logits = Ok ms ->
         last_masses_v1 (length logits) s' = Ok ms.
Proof.
  intros Hs Hf. unfold apportion_reference.
  case_decide as Hne.
  { subst. exists s. by split. }
  assert (0 < length logits)%nat as Hn by (destruct logits; [done|cbn; lia]).
  case_decide as Hwide.
  { exists s. split; [|done]. unfold apportion, reject, validate_width.
    rewrite decide_False by lia.
    rewrite decide_True by (unfold FAST_CATEGORICAL_MAX_ACTIONS; lia). done. }
  destruct (list_find _ logits) as [[i bad]|] eqn:Efind.
  - exists s. split; [|done]. unfold apportion, reject, validate_width.
    rewrite decide_False by lia.
    rewrite decide_False by (unfold FAST_CATEGORICAL_MAX_ACTIONS; lia).
    erewrite bind_lift_ok by reflexivity.
    by rewrite (bind_err _ _ s s (Reject (NonFinite i bad)))
      by (unfold lift; by rewrite (find_maximum_err _ _ _ Hf Efind)).
  - destruct (apportion_finite s logits Hs Hne ltac:(lia) (find_nonfinite_none _ Hf Efind))
      as (s' & E & Hs' & El).
    exists s'. split; [done|]. split; [done|]. by intros ms [= <-].
Qed.

(** C29: [FastCategoricalScratch::apportion] is its reference on every input, whatever an
    earlier call left in the scratch: no logits, too many, the first that is not
    finite, and otherwise the Hamilton apportionment of 2^64 to the weights of the
    correctly rounded gaps; it never panics, no internal invariant ever fails,
    and [last_masses_v1] returns what was computed. *)
Theorem apportion_is_hamilton s logits : fixed_scratch s -> Forall is_f32 logits ->
  exists s', apportion logits s = (s', from_reject (apportion_reference 64 logits))
    /\ fixed_scratch s'
    /\ forall ms, apportion_reference 64 logits = Ok ms ->
         last_masses_v1 (length logits) s' = Ok ms.
Proof. apply apportion_runs. Qed.

Lemma apportion_is_hamilton_witness :
  fixed_scratch default_scratch
  /\ exists s', apportion [0; 0x3f800000; 0x80000000; 0x3f800000] default_scratch
      = (s', from_reject (apportion_reference 64 [0; 0x3f800000; 0x80000000; 0x3f800000]))
    /\ fixed_scratch s'
    /\ forall ms, apportion_reference 64 [0; 0x3f800000; 0x80000000; 0x3f800000] = Ok ms ->
         last_masses_v1 4 s' = Ok ms.
Proof.
  split; [apply default_scratch_fixed|]. apply apportion_is_hamilton; [apply default_scratch_fixed|].
  repeat constructor; unfold is_f32; lia.
Defined.

(* ------------------------------------------------------------------ *)
(** ** The wide sampler *)

Section Wide.
Context (reserve : nat -> nat -> bool).

(** A resize gives the vector its new length, or the allocator refused. *)
Lemma resize_spec {A} (d : A) values width :
  (exists l, resize_wide_scratch reserve d values width = Ok l /\ length l = width)
  \/ resize_wide_scratch reserve d values width = Err (InternalInvariant "wide-scratch-allocation")
     /\ reserve (length values) (width - length values)%nat = false.
Proof.
  unfold resize_wide_scratch. destruct (_ && _)%bool eqn:E.
  - right. bool_to_prop. done.
  - left. eexists. split; [done|]. apply length_resize.
Qed.

Definition resize_all (width : nat) : M FastCategoricalScratch () :=
  let! _ := resize_weights reserve width in
  let! _ := resize_remainders reserve width in
  let! _ := resize_masses reserve width in
  resize_order reserve width.

Lemma resize_all_spec width s :
  (exists s', resize_all width s = (s', Ok ()) /\ scratch_sized width s')
  \/ (exists s', resize_all width s
        = (s', Err (Reject (InternalInvariant "wide-scratch-allocation"))))
     /\ exists len additional, reserve len additional = false.
Proof.
  unfold resize_all, bind, resize_weights, resize_remainders, resize_masses, resize_order.
  destruct (resize_spec 0 (weights s) width) as [(l & -> & El)|[-> E]]; [|right; split; eauto].
  cbn [weights remainders masses order].
  destruct (resize_spec 0 (remainders s) width) as [(l1 & -> & El1)|[-> E]]; [|right; split; eauto].
  cbn [weights remainders masses order].
  destruct (resize_spec 0 (masses s) width) as [(l2 & -> & El2)|[-> E]]; [|right; split; eauto].
  cbn [weights remainders masses order].
  destruct (resize_spec 0%nat (order s) width) as [(l3 & -> & El3)|[-> E]]; [|right; split; eauto].
  left. eexists. split; [reflexivity|]. done.
Qed.

Lemma sort_order_ranks rems s : remainders s = rems -> order s = seq 0 (length rems) ->
  sort_order s = (MkScratch (weights s) (remainders s) (masses s) (ranking rems), Ok ()).
Proof.
  intros Er Eo. unfold sort_order. by rewrite Er, Eo.
Qed.

Lemma resize_run {A} width (k : () -> M FastCategoricalScratch A) s :
  bind (resize_weights reserve width) (fun _ => bind (resize_remainders reserve width)
    (fun _ => bind (resize_masses reserve width)
      (fun _ => bind (resize_order reserve width) k))) s
  = bind (resize_all width) k s.
Proof.
  unfold resize_all, bind.
  destruct (resize_weights _ _ s) as [s1 [[]|]]; [|done].
  destruct (resize_remainders _ _ s1) as [s2 [[]|]]; [|done].
  destruct (resize_masses _ _ s2) as [s3 [[]|]]; done.
Qed.

Lemma apportion_wide_finite s logits : (64 < length logits)%nat ->
  Z.of_nat (length logits) <= 65536 -> Forall f32_is_finite logits ->
  (exists s', apportion_wide reserve logits s = (s', Ok (reference_masses logits))
     /\ last_masses_v1 (length logits) s' = Ok (reference_masses logits))
  \/ (exists s', apportion_wide reserve logits s
        = (s', Err (Reject (InternalInvariant "wide-scratch-allocation"))))
     /\ exists len additional, reserve len additional = false.
Proof.
  intros H64 Hlen Hf. assert (0 < length logits)%nat as Hn by lia.
  destruct (find_maximum_ok logits ltac:(intros ->; cbn in H64; lia) Hf)
    as (m & Em & Hm & Hpeak & Hkey).
  set (ws := reference_weights logits).
  unfold apportion_wide, reject.
  erewrite bind_lift_ok
    by (by rewrite decide_False by (unfold WIDE_CATEGORICAL_MAX_ACTIONS_V1; lia)).
  erewrite bind_lift_ok by exact Em. rewrite resize_run.
  destruct (resize_all_spec (length logits) s) as [(s1 & Es & Lw & Lr & Lm & Lo)|[[s1 Es] Hr]]; cycle 1.
  { right. split; [|done]. exists s1. by apply bind_err. }
  left. erewrite bind_ok by exact Es.
  rewrite (quotients_run logits m Hn Hlen Hm Hpeak Hf Hkey id s1 (weights s1) []
    (remainders s1) [] (masses s1) [] (order s1) []); rewrite ?app_nil_r; try done; [|apply map_id].
  fold ws.
  assert (length (rests (2 ^ 64) ws) = length logits) as Lrests
    by (rewrite rests_length; apply reference_weights_length).
  erewrite bind_ok; cycle 1.
  { apply (sort_order_ranks (rests (2 ^ 64) ws)); cbn [remainders order]; [done|by rewrite Lrests]. }
  cbn [weights remainders masses order].
  destruct (weights_small logits Hn Hlen) as [Hw HW].
  destruct (quotas_small logits Hn Hlen) as [Hq Hqs].
  pose proof (leftover_bounds (2 ^ 64) ws (proj1 HW)) as Hlo.
  rewrite (reference_weights_length logits : length ws = _) in Hlo.
  pose proof (sumZ_nonneg _ Hq) as Hq0.
  erewrite bind_lift_ok; cycle 1.
  { rewrite wide_residual_spec; [reflexivity|split; [exact Hq0|exact Hqs]|exact Hlo|lia]. }
  destruct (residual_run logits Hn Hlen (MkScratch ws (rests (2 ^ 64) ws)
    (quotas (2 ^ 64) ws) (ranking (rests (2 ^ 64) ws))) [] []
    (eq_sym (app_nil_r _)) (eq_sym (app_nil_r _))) as [Erun Esum].
  erewrite bind_ok by exact Erun. cbn [weights remainders masses order].
  erewrite bind_ok by reflexivity. cbn [masses]. rewrite app_nil_r.
  rewrite Esum, decide_False by (intros H; by apply H).
  eexists. split; [reflexivity|].
  unfold last_masses_v1, load_slice. cbn [masses snd].
  assert (length (reference_masses logits) = length logits) as Lref.
  { unfold reference_masses. rewrite hamilton_length. apply reference_weights_length. }
  rewrite decide_True by lia. by rewrite take_ge by lia.
Qed.
End Wide.

(** The wide sampler on every input. *)
Lemma wide_apportion_runs reserve w logits :
  fixed_scratch (narrow w) -> Forall is_f32 logits ->
  exists w' r, wide_apportion reserve logits w = (w', r) /\ fixed_scratch (narrow w')
    /\ (r = from_reject (apportion_reference 65536 logits)
           /\ (forall ms, r = Ok ms -> wide_last_masses_v1 (length logits) w' = Ok ms)
         \/ (64 < length logits)%nat
           /\ r = Err (Reject (InternalInvariant "wide-scratch-allocation"))
           /\ (exists ms, apportion_reference 65536 logits = Ok ms)
           /\ exists len additional, reserve len additional = false).
Proof.
  intros Hs Hf. unfold wide_apportion, wide_last_masses_v1.
  change FAST_CATEGORICAL_MAX_ACTIONS with 64%nat. case_decide as Hnarrow.
  { destruct (apportion_runs (narrow w) logits Hs Hf) as (s' & E & Hs' & Hl).
    rewrite (apportion_reference_limit 64 65536) in E, Hl by lia.
    exists (MkWide s' (wide w)), (from_reject (apportion_reference 65536 logits)).
    unfold on_narrow. rewrite E. split; [done|]. split; [done|]. left. split; [done|].
    intros ms Hms. apply Hl. revert Hms.
    destruct (apportion_reference 65536 logits); cbn; congruence. }
  unfold on_wide, apportion_reference. rewrite decide_False by (intros ->; cbn in Hnarrow; lia).
  case_decide as Hwide.
  { eexists _, _. unfold apportion_wide, reject.
    erewrite bind_err by (by rewrite decide_True by exact Hwide).
    split; [done|]. split; [done|]. by left. }
  destruct (list_find _ logits) as [[i bad]|] eqn:Efind.
  - eexists _, _. unfold apportion_wide, reject.
    erewrite bind_lift_ok by (by rewrite decide_False by exact Hwide).
    erewrite bind_err by (unfold lift; by rewrite (find_maximum_err _ _ _ Hf Efind)).
    split; [done|]. split; [done|]. by left.
  - destruct (apportion_wide_finite reserve (wide w) logits ltac:(lia)
      ltac:(unfold WIDE_CATEGORICAL_MAX_ACTIONS_V1 in *; lia) (find_nonfinite_none _ Hf Efind))
      as [(s' & E & El)|[[s' E] Hr]]; rewrite E; eexists _, _; (split; [done|]); (split; [done|]).
    + left. split; [done|]. by intros ms [= <-].
    + right. split; [lia|]. split; [done|]. split; [by eexists|done].
Qed.

(** What it returns without error are the reference masses. *)
Lemma wide_apportion_ok reserve w logits ms : fixed_scratch (narrow w) -> Forall is_f32 logits ->
  snd (wide_apportion reserve logits w) = Ok ms -> apportion_reference 65536 logits = Ok ms.
Proof.
  intros Hs Hf. destruct (wide_apportion_runs reserve w logits Hs Hf)
    as (w' & r & -> & _ & [[-> _]|(_ & -> & _)]); cbn; [|done].
  by destruct (apportion_reference 65536 logits); cbn; intros [= ->].
Qed.

(** [WideCategoricalScratchV1::apportion] answers as the same reference with the limit
    65536: up to 64 logits it is the narrow sampler, above it sorts instead of
    inserting and still serves in the same order; the one thing that can go wrong is
    that the allocator refuses to grow a vector. *)
Theorem wide_apportion_is_hamilton reserve w logits :
  fixed_scratch (narrow w) -> Forall is_f32 logits ->
  exists w' r, wide_apportion reserve logits w = (w', r) /\ fixed_scratch (narrow w')
    /\ (r = from_reject (apportion_reference 65536 logits)
           /\ (forall ms, r = Ok ms -> wide_last_masses_v1 (length logits) w' = Ok ms)
         \/ (64 < length logits)%nat
           /\ r = Err (Reject (InternalInvariant "wide-scratch-allocation"))
           /\ (exists ms, apportion_reference 65536 logits = Ok ms)
           /\ exists len additional, reserve len additional = false).
Proof. apply wide_apportion_runs. Qed.

Lemma wide_apportion_is_hamilton_witness :
  fixed_scratch (narrow default_wide)
  /\ exists w' r, wide_apportion (fun _ _ => true) (replicate 65 0) default_wide = (w', r)
    /\ r = from_reject (apportion_reference 65536 (replicate 65 0))
    /\ forall ms, r = Ok ms -> wide_last_masses_v1 65 w' = Ok ms.
Proof.
  split; [apply default_scratch_fixed|].
  destruct (wide_apportion_is_hamilton (fun _ _ => true) default_wide (replicate 65 0)
    default_scratch_fixed ltac:(apply Forall_replicate; unfold is_f32; lia))
    as (w' & r & E & _ & [[Er Hl]|(_ & _ & _ & ? & ? & [=])]).
  exists w', r. split; [exact E|]. split; [exact Er|exact Hl].
Defined.
