(* ===== verification/FastSamplerSeeds.v ===== *)
(** * What the sampler draws

    An action is drawn for exactly as many of the 2^64 seeds as its mass, which is
    positive, within one unit of its exact share, and no smaller than the mass of a
    smaller logit; each of the samplers draws what the other does. *)

From stdpp Require Import strings.
From S2P Require Import Prelude FastSampler Hamilton FastSamplerBits FastSamplerDraw FastSamplerLoops FastSamplerFacts.

Local Open Scope Z_scope.

(** [draw] falls into the [i]-th interval of the cumulative masses. *)
Definition falls_into (masses : list Z) (draw : Z) (i : nat) : Prop :=
  (i < length masses)%nat /\ sumZ (take i masses) <= draw < sumZ (take (S i) masses).

Lemma sumZ_take_mono l i j : Forall (Z.le 0) l -> (i <= j)%nat ->
  sumZ (take i l) <= sumZ (take j l).
Proof.
  intros Hl Hij. replace j with (i + (j - i))%nat by lia.
  rewrite <- (take_drop i (take (i + (j - i)) l)), take_take, Nat.min_l, sumZ_app by lia.
  pose proof (sumZ_nonneg (drop i (take (i + (j - i)) l))
    (Forall_drop _ _ _ (Forall_take _ _ _ Hl))). lia.
Qed.

Lemma falls_into_unique masses draw i j : Forall (Z.le 0) masses ->
  falls_into masses draw i -> falls_into masses draw j -> i = j.
Proof.
  intros Hm (_ & Hi1 & Hi2) (_ & Hj1 & Hj2).
  destruct (lt_eq_lt_dec i j) as [[H|H]|H]; [|done|].
  - pose proof (sumZ_take_mono masses (S i) j Hm ltac:(lia)). lia.
  - pose proof (sumZ_take_mono masses (S j) i Hm ltac:(lia)). lia.
Qed.

Lemma inverse_cdf_spec draw index cumulative masses : Forall (Z.le 0) masses ->
  0 <= cumulative <= draw -> cumulative + sumZ masses < 2 ^ 128 ->
  draw < cumulative + sumZ masses ->
  exists j, inverse_cdf draw index cumulative masses = Some (index + j)%nat
    /\ falls_into masses (draw - cumulative) j.
Proof.
  intros Hm. revert index cumulative. induction Hm as [|m masses H0 Hm IH];
    intros index cumulative Hc Hb Hd.
  - change (sumZ []) with 0 in Hd. lia.
  - rewrite sumZ_cons in Hb, Hd. pose proof (sumZ_nonneg masses Hm).
    cbn [inverse_cdf]. unfold wrap_u128. rewrite Z.mod_small by lia. case_decide as Hlt.
    + exists 0%nat. rewrite Nat.add_0_r. split; [done|]. split; [cbn; lia|].
      cbn [take]. rewrite take_0, sumZ_cons. change (sumZ []) with 0. lia.
    + destruct (IH (S index) (cumulative + m) ltac:(lia) ltac:(lia) ltac:(lia))
        as (j & -> & Hj & Hlo & Hhi).
      exists (S j). split; [f_equal; lia|]. split; [cbn; lia|].
      change (take (S (S j)) (m :: masses)) with (m :: take (S j) masses).
      change (take (S j) (m :: masses)) with (m :: take j masses).
      rewrite !sumZ_cons. lia.
Qed.

(* ------------------------------------------------------------------ *)
(** ** Masses *)

Section Masses.
Context (logits : list Z).
Let ws := reference_weights logits.
Hypothesis Hne : (0 < length logits)%nat.
Hypothesis Hlen : Z.of_nat (length logits) <= 65536.

Lemma reference_masses_sum : sumZ (reference_masses logits) = 2 ^ 64.
Proof using Hne Hlen.
  destruct (weights_small logits Hne Hlen) as [_ HW].
  exact (hamilton_sum (2 ^ 64) ws (proj1 HW)).
Qed.

Lemma reference_masses_nonneg : Forall (Z.le 0) (reference_masses logits).
Proof using Hne Hlen.
  destruct (weights_small logits Hne Hlen) as [Hw HW].
  apply (hamilton_nonneg (2 ^ 64) ws); [done| |apply HW].
  eapply Forall_impl; [exact Hw|]. cbn. tauto.
Qed.

Lemma reference_masses_length : length (reference_masses logits) = length logits.
Proof using.
  unfold reference_masses. rewrite hamilton_length. apply reference_weights_length.
Qed.

(** No action is starved: the smallest weight still has millions of units. *)
Lemma reference_mass_positive i m : reference_masses logits !! i = Some m -> 2 ^ 24 < m.
Proof using Hne Hlen.
  intros Hi. destruct (proj1 (hamilton_lookup (2 ^ 64) ws i m) Hi) as (w & Ew & ->).
  destruct (weights_small logits Hne Hlen) as [_ HW]. fold ws in HW.
  pose proof (reference_total logits Hne) as HT. fold ws in HT.
  pose proof (Forall_lookup_1 _ _ _ _ (reference_weights_bounds logits) Ew) as Hw. cbv beta in Hw.
  assert (2 ^ 24 + 1 <= w * 2 ^ 64 / sumZ ws) as Hq.
  { apply Z.div_le_lower_bound; [apply HW|]. nia. }
  destruct (bool_decide _); lia.
Qed.

Lemma draws_cover draw : is_word draw ->
  exists i, inverse_cdf draw 0 0 (reference_masses logits) = Some i
    /\ falls_into (reference_masses logits) draw i.
Proof using Hne Hlen.
  intros [H0 H1]. pose proof reference_masses_sum as Es.
  destruct (inverse_cdf_spec draw 0 0 (reference_masses logits) reference_masses_nonneg)
    as (i & E & Hi); [lia|lia|lia|].
  exists i. split; [exact E|]. by rewrite Z.sub_0_r in Hi.
Qed.

(** The seeds that draw [i]: the inverse images of its interval. *)
Definition seeds_of (i : nat) : list Z :=
  map seed_of_draw (seqZ (sumZ (take i (reference_masses logits)))
    (nth i (reference_masses logits) 0)).

Lemma interval_is_words i m draw : reference_masses logits !! i = Some m ->
  draw ∈ seqZ (sumZ (take i (reference_masses logits))) m ->
  is_word draw /\ falls_into (reference_masses logits) draw i.
Proof using Hne Hlen.
  intros Hi Hd. apply elem_of_seqZ in Hd as [Hlo Hhi].
  pose proof reference_masses_nonneg as Hm.
  assert (sumZ (take (S i) (reference_masses logits))
          = sumZ (take i (reference_masses logits)) + m) as Es.
  { rewrite (take_S_r _ _ _ Hi), sumZ_app, sumZ_cons. change (sumZ []) with 0. lia. }
  pose proof (lookup_lt_Some _ _ _ Hi) as Hlt.
  pose proof (sumZ_take_mono (reference_masses logits) (S i) (length (reference_masses logits)) Hm
    ltac:(lia)) as Hle.
  rewrite (take_ge _ (length _)), reference_masses_sum in Hle by done.
  pose proof (sumZ_nonneg _ (Forall_take _ i _ Hm)). split; [split; lia|].
  split; [done|]. rewrite Es. lia.
Qed.

Lemma seeds_of_spec i m seed : reference_masses logits !! i = Some m -> is_word seed ->
  seed ∈ seeds_of i <-> inverse_cdf (splitmix64_first seed) 0 0 (reference_masses logits) = Some i.
Proof using Hne Hlen.
  intros Hi Hs. unfold seeds_of. rewrite (nth_lookup_Some _ _ _ _ Hi).
  destruct (draws_cover (splitmix64_first seed) (splitmix64_first_is_word seed)) as (j & Ej & Hj).
  split.
  - intros (draw & -> & Hd)%list_elem_of_fmap.
    destruct (interval_is_words i m draw Hi Hd) as [Hw Hf].
    rewrite first_draw_of_seed in Ej, Hj |- * by done. rewrite Ej. f_equal.
    exact (falls_into_unique _ _ _ _ reference_masses_nonneg Hj Hf).
  - rewrite Ej. intros [= ->]. apply list_elem_of_fmap. exists (splitmix64_first seed).
    split; [by rewrite seed_of_first_draw|]. destruct Hj as (_ & Hlo & Hhi).
    rewrite (take_S_r _ _ _ Hi), sumZ_app, sumZ_cons in Hhi. change (sumZ []) with 0 in Hhi.
    apply elem_of_seqZ. lia.
Qed.

Lemma seeds_of_count i m : reference_masses logits !! i = Some m ->
  NoDup (seeds_of i) /\ Z.of_nat (length (seeds_of i)) = m.
Proof using Hne Hlen.
  intros Hi. pose proof (reference_mass_positive i m Hi). unfold seeds_of.
  rewrite (nth_lookup_Some _ _ _ _ Hi). split.
  - apply NoDup_fmap_2_strong; [|apply NoDup_seqZ]. intros a b Ha Hb E.
    destruct (interval_is_words i m a Hi Ha) as [Wa _].
    destruct (interval_is_words i m b Hi Hb) as [Wb _].
    by rewrite <- (first_draw_of_seed a Wa), E, first_draw_of_seed.
  - rewrite length_map, length_seqZ. lia.
Qed.
End Masses.

(* ------------------------------------------------------------------ *)
(** ** The theorems *)

Lemma admitted_input maximum logits ms : apportion_reference maximum logits = Ok ms ->
  (0 < length logits)%nat /\ Z.of_nat (length logits) <= maximum /\ ms = reference_masses logits.
Proof.
  unfold apportion_reference. case_decide as Hne; [done|]. case_decide; [done|].
  destruct (list_find _ _) as [[? ?]|]; [done|]. intros [= <-].
  split; [|split; [lia|done]]. destruct logits; [done|cbn; lia].
Qed.

(** Both samplers look the first output of the seed up in the reference masses. *)
Lemma wide_sample_runs reserve w logits ms seed : fixed_scratch (narrow w) ->
  Forall is_f32 logits -> (forall len additional, reserve len additional = true) ->
  apportion_reference 65536 logits = Ok ms ->
  (forall i, inverse_cdf (splitmix64_first seed) 0 0 ms = Some i ->
     snd (wide_sample reserve logits seed w) = Ok i)
  /\ ((length logits <= 64)%nat ->
      snd (sample logits seed (narrow w)) = snd (wide_sample reserve logits seed w)).
Proof.
  intros Hs Hf Hres Hms. unfold wide_sample. change FAST_CATEGORICAL_MAX_ACTIONS with 64%nat.
  case_decide as Hn.
  - unfold on_narrow. destruct (sample logits seed (narrow w)) as [n r] eqn:Er.
    split; [|done]. intros i Hi. cbn.
    destruct (apportion_runs (narrow w) logits Hs Hf) as (s' & E & _ & _).
    rewrite (apportion_reference_limit 64 65536), Hms in E by lia.
    unfold sample in Er. erewrite bind_ok in Er by exact E.
    unfold reject in Er. rewrite Hi in Er. cbn in Er. by injection Er as _ <-.
  - split; [|done]. intros i Hi. destruct (admitted_input _ _ _ Hms) as (_ & Hlen & ->).
    assert (Forall f32_is_finite logits) as Hfin.
    { apply find_nonfinite_none; [done|]. revert Hms. unfold apportion_reference.
      repeat case_decide; try done. by destruct (list_find _ _) as [[? ?]|]. }
    destruct (apportion_wide_finite reserve (wide w) logits ltac:(lia) Hlen Hfin)
      as [(s' & E & _)|[_ (len & add & Hr)]]; [|by rewrite Hres in Hr].
    erewrite bind_ok by (unfold on_wide; rewrite E; reflexivity).
    unfold reject. by rewrite Hi.
Qed.

(** C28: Over the 2^64 seeds the samplers return each action exactly as often as its mass
    says, whatever is in their scratch: the seeds that draw it can be listed
    without repetition, and their number is the mass, which is never zero; every
    seed draws some action; and up to 64 actions the wide sampler draws what the
    narrow one does. *)
Theorem seeds_match_masses reserve w logits ms : fixed_scratch (narrow w) ->
  Forall is_f32 logits -> (forall len additional, reserve len additional = true) ->
  snd (wide_apportion reserve logits w) = Ok ms ->
  (forall i m, ms !! i = Some m -> 0 < m /\ exists seeds, NoDup seeds
     /\ Z.of_nat (length seeds) = m
     /\ forall seed, 0 <= seed < 2 ^ 64 ->
          snd (wide_sample reserve logits seed w) = Ok i <-> seed ∈ seeds)
  /\ (forall seed, exists i, (i < length logits)%nat
       /\ snd (wide_sample reserve logits seed w) = Ok i)
  /\ ((length logits <= 64)%nat -> forall seed,
       snd (sample logits seed (narrow w)) = snd (wide_sample reserve logits seed w)).
Proof.
  intros Hs Hf Hres Hms%wide_apportion_ok; [|done..].
  pose proof (fun seed => wide_sample_runs reserve w logits ms seed Hs Hf Hres Hms) as Hrun.
  destruct (admitted_input _ _ _ Hms) as (Hne & Hlen & ->).
  assert (forall seed, exists i, (i < length logits)%nat
    /\ inverse_cdf (splitmix64_first seed) 0 0 (reference_masses logits) = Some i
    /\ snd (wide_sample reserve logits seed w) = Ok i) as Hcover.
  { intros seed. destruct (draws_cover logits Hne Hlen (splitmix64_first seed)
      (splitmix64_first_is_word seed)) as (i & E & Hi & _).
    exists i. split; [by rewrite <- (reference_masses_length logits)|].
    split; [done|]. by apply Hrun. }
  split; [|split].
  - intros i m Hi. pose proof (reference_mass_positive logits Hne Hlen i m Hi).
    split; [lia|]. exists (seeds_of logits i).
    destruct (seeds_of_count logits Hne Hlen i m Hi) as [Hd Hl].
    split; [done|]. split; [done|]. intros seed Hseed.
    rewrite (seeds_of_spec logits Hne Hlen i m seed Hi Hseed).
    destruct (Hcover seed) as (k & _ & -> & ->). split; congruence.
  - intros seed. destruct (Hcover seed) as (i & Hi & _ & E). by exists i.
  - intros Hn seed. by apply Hrun.
Qed.

Lemma seeds_match_masses_witness :
  snd (wide_apportion (fun _ _ => true) [0; 0x3f800000] default_wide)
  = Ok [4961093570831980813; 13485650502877570803]
  /\ snd (wide_sample (fun _ _ => true) [0; 0x3f800000] 17 default_wide) = Ok 1%nat
  /\ exists seeds, NoDup seeds /\ Z.of_nat (length seeds) = 13485650502877570803
     /\ forall seed, 0 <= seed < 2 ^ 64 ->
          snd (wide_sample (fun _ _ => true) [0; 0x3f800000] seed default_wide) = Ok 1%nat
          <-> seed ∈ seeds.
Proof.
  assert (snd (wide_apportion (fun _ _ => true) [0; 0x3f800000] default_wide)
          = Ok [4961093570831980813; 13485650502877570803]) as E by (vm_compute; reflexivity).
  split; [exact E|]. split; [vm_compute; reflexivity|].
  destruct (seeds_match_masses (fun _ _ => true) default_wide [0; 0x3f800000] _
    default_scratch_fixed ltac:(repeat constructor; unfold is_f32; lia) ltac:(done) E) as [H _].
  by destruct (H 1%nat _ eq_refl) as [_ Hseeds].
Defined.

(** C30: The masses follow the logits: each is within one unit of the exact share of its
    weight and above 2^24, equal rounded gaps differ by a unit at most, the earlier
    action having it, and a larger logit never gets less than a smaller one beyond
    that unit. *)
Theorem masses_follow_logits reserve w logits ms : fixed_scratch (narrow w) ->
  Forall is_f32 logits -> snd (wide_apportion reserve logits w) = Ok ms ->
  let top := peak (map f32_units logits) in
  let weight bits := reference_weight top (f32_units bits) in
  let total := sumZ (map weight logits) in
  (forall i bits m, logits !! i = Some bits -> ms !! i = Some m ->
     2 ^ 24 < m /\ Z.abs (m * total - weight bits * 2 ^ 64) <= total)
  /\ forall i j bi bj mi mj, logits !! i = Some bi -> logits !! j = Some bj ->
       ms !! i = Some mi -> ms !! j = Some mj -> f32_units bi <= f32_units bj ->
       mi <= mj + (if decide (gap_q8 top (f32_units bi) = gap_q8 top (f32_units bj)
                              /\ (i < j)%nat) then 1 else 0).
Proof.
  intros Hs Hf Hms%wide_apportion_ok top weight total; [|done..]. destruct (admitted_input _ _ _ Hms) as (Hne & Hlen & ->).
  assert (total = sumZ (reference_weights logits)) as Et.
  { unfold total, weight, reference_weights. by rewrite map_map. }
  destruct (weights_small logits Hne ltac:(lia)) as [_ [HW _]].
  assert (forall i bits, logits !! i = Some bits ->
    reference_weights logits !! i = Some (weight bits)) as Hw.
  { intros i bits Hi. apply reference_weights_lookup. by exists bits. }
  split.
  - intros i bits m Hi Hm. split; [by apply (reference_mass_positive logits Hne ltac:(lia) i)|].
    pose proof (hamilton_quota (2 ^ 64) _ i m _ HW Hm (Hw i bits Hi)). rewrite Et. lia.
  - intros i j bi bj mi mj Hi Hj Hmi Hmj Hv.
    assert (f32_units bj <= top) as Hp.
    { apply peak_ge, list_elem_of_fmap_2. by eapply list_elem_of_lookup_2. }
    pose proof (reference_weight_mono top _ _ Hv Hp) as Hmono.
    pose proof (hamilton_mono (2 ^ 64) (reference_weights logits) i j _ _ mi mj HW ltac:(lia)
      (Hw i bi Hi) (Hw j bj Hj)) as Hlt.
    destruct (decide (gap_q8 top (f32_units bi) = gap_q8 top (f32_units bj))) as [Eg|Eg].
    + assert (weight bi = weight bj) as Ew by (unfold weight, reference_weight; by rewrite Eg).
      destruct (proj1 (hamilton_lookup (2 ^ 64) _ i mi) Hmi) as (wi & Ewi & Emi).
      destruct (proj1 (hamilton_lookup (2 ^ 64) _ j mj) Hmj) as (wj & Ewj & Emj).
      rewrite (Hw i bi Hi) in Ewi. rewrite (Hw j bj Hj) in Ewj. injection Ewi as <-. injection Ewj as <-.
      rewrite <- Ew in Emj.
      match goal with |- context [decide ?P] => destruct (decide P) as [Hd|Hd] end.
      { clear - Emi Emj. set (q := weight bi * 2 ^ 64 / _) in *. clearbody q.
        rewrite Emi, Emj. repeat case_bool_decide; lia. }
      rewrite Z.add_0_r. apply Hlt; [right; split; [done|]|done|done].
      destruct (decide (j <= i)%nat); [done|]. destruct Hd. split; [done|lia].
    + rewrite decide_False, Z.add_0_r by tauto. apply Hlt; [left|done|done].
      pose proof (reference_weight_strict top _ _ Hv Hp Eg). done.
Qed.

Lemma masses_follow_logits_witness :
  f32_units 0 <= f32_units 0x3f800000 /\ 4961093570831980813 <= 13485650502877570803 + 0.
Proof.
  split; [vm_compute; done|].
  assert (snd (wide_apportion (fun _ _ => true) [0; 0x3f800000] default_wide)
          = Ok [4961093570831980813; 13485650502877570803]) as E by (vm_compute; reflexivity).
  destruct (masses_follow_logits (fun _ _ => true) default_wide [0; 0x3f800000] _
    default_scratch_fixed ltac:(repeat constructor; unfold is_f32; lia) E) as [_ H].
  exact (H 0%nat 1%nat 0 0x3f800000 4961093570831980813 13485650502877570803 eq_refl eq_refl
    eq_refl eq_refl ltac:(vm_compute; done)).
Defined.
