(* ===== verification/Library.v ===== *)
(** * Hidden zones: libraries, hands, and what each player knows of them
      (src/mtg-kernel/src/state.rs; the zone mover of event.rs)

    The state below keeps what the library and hand operations read and write:
    the object arena, the zones, the stack, each observer's facts about each
    library and hand, the random state and the observation journal. The
    remaining fields of an object ([v4], and its characteristics) and of the
    state ([rest]: turn, combat, event log, ...) are types of the class
    [ObjectRules], together with the calls that touch only those fields.
    An index or [get] that Rust would panic on is [Panic], as is an index into the
    card table CARD_DEFS, and the [panic!] of a face the card does not have. *)

From S2P Require Import Prelude Ids Bytes Randomness.
Import PlayerIds.

(** [usize as u32], and [u32 += 1] in a release build. *)
Definition as_u32 (n : nat) : Z := (Z.of_nat n mod (u32_max + 1))%Z.
Definition wrap_u32 (z : Z) : Z := (z mod (u32_max + 1))%Z.

Module Zone.
Inductive t := Library | Hand | Battlefield | Graveyard | Stack | Exile | Command.
End Zone.
#[export] Instance Zone_eq_dec : EqDecision Zone.t.
Proof. solve_decision. Defined.

(** [zone_change_count] is the incarnation of the object: every zone change
    advances it. [spell_copied] is [spell_copy_origin.is_some()]. *)
Record GameObject (V4 : Type) := MkObject {
  card_def : Z;
  owner : PlayerId;
  controller : PlayerId;
  zone : Zone.t;
  zone_change_count : Z;
  spell_copied : bool;
  v4 : V4;
}.
Arguments MkObject {V4}.
Arguments card_def {V4} _.
Arguments owner {V4} _.
Arguments controller {V4} _.
Arguments zone {V4} _.
Arguments zone_change_count {V4} _.
Arguments spell_copied {V4} _.
Arguments v4 {V4} _.

(** [library] is top first. *)
Record PlayerState := MkPlayerState {
  library : list ObjectId;
  hand : list ObjectId;
  battlefield : list ObjectId;
  graveyard : list ObjectId;
}.

(** [source_generation] is [v4.source_contract.map(|c| c.zone_change_count)]. *)
Record StackItem := MkStackItem {
  is_spell : bool;
  source : ObjectId;
  source_generation : option Z;
}.

Record LibraryKnowledgeEntry := MkLibraryEntry {
  position : Z;
  lk_object : ObjectId;
  lk_generation : Z;
}.
Record HandKnowledgeEntry := MkHandEntry {
  hk_object : ObjectId;
  hk_generation : Z;
}.
#[export] Instance LibraryKnowledgeEntry_eq_dec : EqDecision LibraryKnowledgeEntry.
Proof. solve_decision. Defined.
#[export] Instance HandKnowledgeEntry_eq_dec : EqDecision HandKnowledgeEntry.
Proof. solve_decision. Defined.

(** [ObjectLinkV4]: one incarnation of an object. *)
Record ObjectLinkV4 := MkLink { link_object : ObjectId; link_generation : Z }.

Inductive GameRandomnessState :=
  | Legacy (rng : SplitMix64)
  | EnvironmentV2 (v2 : GameEnvironmentRandomizationV2).

Inductive ObservationNoteKindV1 :=
  | LibraryRandomized (owner : PlayerId)
  | LibraryLooked (observer owner : PlayerId) (positions : list (Z * ObjectId))
  | LibraryReordered (owner : PlayerId) (ordered : list ObjectId) (revealed_to : list PlayerId)
  | LibraryScried (owner : PlayerId) (retained_top ordered_bottom : list ObjectId)
  | HandCardRevealed (observer owner : PlayerId) (object : ObjectId)
  | LibraryRemoval (owner : PlayerId) (position : Z)
  | LibraryInsertion (owner : PlayerId) (position : Z).

Record ObservationNoteV1 := MkNote { history_len : nat; kind : ObservationNoteKindV1 }.

(** Indexed observer first, then owner of the zone. *)
Abbreviation known T := (per_player (per_player (list T))).

Record GameState (V4 Rest : Type) := MkGame {
  objects : Arena.t (GameObject V4);
  players : per_player PlayerState;
  stack : list StackItem;
  exile : list ObjectId;
  command : list ObjectId;
  library_knowledge : known LibraryKnowledgeEntry;
  hand_knowledge : known HandKnowledgeEntry;
  randomness : GameRandomnessState;
  observation_journal : list ObservationNoteV1;
  rest : Rest;
}.
Arguments MkGame {V4 Rest}.
Arguments objects {V4 Rest} _.
Arguments players {V4 Rest} _.
Arguments stack {V4 Rest} _.
Arguments exile {V4 Rest} _.
Arguments command {V4 Rest} _.
Arguments library_knowledge {V4 Rest} _.
Arguments hand_knowledge {V4 Rest} _.
Arguments randomness {V4 Rest} _.
Arguments observation_journal {V4 Rest} _.
Arguments rest {V4 Rest} _.

(** [LibraryPlacement] and [LibraryInsertVisibility] of event.rs. *)
Inductive LibraryPlacement := Top | SecondFromTop | Bottom | ThirdFromTop.
Inductive LibraryInsertVisibility := Hidden | Owner | Public.

(** What the hidden-zone operations call of the rest of the kernel. *)
Class ObjectRules (V4 Rest : Type) := {
  (* ObjectStateV4::from_card_def, and its is_token field *)
  v4_from_card_def : Z -> V4;
  v4_is_token : V4 -> bool;
  (* ObjectStateV4::reset_for_zone_change(card_def, to_zone, turn) *)
  reset_for_zone_change : V4 -> Z -> Zone.t -> Z -> V4;
  (* CARD_DEFS.len(), and two fields of CARD_DEFS[card_def]: is_token, and
     transform_face.is_some() *)
  card_def_count : Z;
  card_is_token : Z -> bool;
  has_transform_face : Z -> bool;
  (* the fields of a new game *)
  initial_rest : PlayerId -> Rest;
  turn_key_v1 : Rest -> Z;
  (* engine.event_history.len(), engine.spellbench_neutral_v1.choices *)
  event_history_len : Rest -> nat;
  spellbench_neutral_choices : Rest -> bool;
  (* the cards that copies go back to: standard_v1.aegis_copies and the like *)
  saved_card_defs : Rest -> list Z;
  (* a card with daybound, at night; false without standard-magezero-fixtures *)
  enters_transformed_at_night : GameState V4 Rest -> Z -> bool;
  (* attachments, exile links and copy effects that name the moving object *)
  clear_object_relations : ObjectId -> GameState V4 Rest -> GameState V4 Rest;
  (* engine.combat.remove_from_combat, when an object leaves the battlefield *)
  remove_from_combat : ObjectId -> GameState V4 Rest -> GameState V4 Rest;
  (* characteristics, those of the face it enters with among them, counters and
     entry effects of the new incarnation, moved from the first zone to the second;
     true when the engine halted on them, and no result when that code panics *)
  entry_effects : option Z -> ObjectId -> Zone.t -> Zone.t -> GameState V4 Rest ->
    option (GameState V4 Rest * bool);
  (* move_to_stack: last known counters of a stashed card *)
  stash_effects : ObjectId -> GameState V4 Rest -> GameState V4 Rest;
  (* materialize_aborted_cast_v1: counters, plot and Adventure permissions that the card
     keeps from before the cast, and the records of the attempt; the first state is the
     one the cast is aborted in *)
  aborted_effects : ObjectId -> GameState V4 Rest -> GameState V4 Rest -> GameState V4 Rest;
  (* cease_to_exist: the exile records and events of a ceased object *)
  ceased_effects : ObjectId -> GameState V4 Rest -> GameState V4 Rest;
}.

(* ------------------------------------------------------------------ *)
(** ** Field updates *)

Definition with_library (l : list ObjectId) (ps : PlayerState) : PlayerState :=
  MkPlayerState l (hand ps) (battlefield ps) (graveyard ps).
Definition with_hand (l : list ObjectId) (ps : PlayerState) : PlayerState :=
  MkPlayerState (library ps) l (battlefield ps) (graveyard ps).
Definition with_battlefield (l : list ObjectId) (ps : PlayerState) : PlayerState :=
  MkPlayerState (library ps) (hand ps) l (graveyard ps).
Definition with_graveyard (l : list ObjectId) (ps : PlayerState) : PlayerState :=
  MkPlayerState (library ps) (hand ps) (battlefield ps) l.

(** The row [knowledge[observer][owner]]. *)
Definition row {T} (k : known T) (observer owner : PlayerId) : list T :=
  seat (seat k observer) owner.
Definition set_row {T} (k : known T) (observer owner : PlayerId) (v : list T) : known T :=
  set_seat k observer (set_seat (seat k observer) owner v).

Section Updates.
Context {V4 Rest : Type}.
Implicit Types s : GameState V4 Rest.

Definition with_objects s v : GameState V4 Rest :=
  MkGame v (players s) (stack s) (exile s) (command s) (library_knowledge s) (hand_knowledge s)
    (randomness s) (observation_journal s) (rest s).
Definition with_players s v : GameState V4 Rest :=
  MkGame (objects s) v (stack s) (exile s) (command s) (library_knowledge s) (hand_knowledge s)
    (randomness s) (observation_journal s) (rest s).
Definition with_stack s v : GameState V4 Rest :=
  MkGame (objects s) (players s) v (exile s) (command s) (library_knowledge s) (hand_knowledge s)
    (randomness s) (observation_journal s) (rest s).
Definition with_exile s v : GameState V4 Rest :=
  MkGame (objects s) (players s) (stack s) v (command s) (library_knowledge s) (hand_knowledge s)
    (randomness s) (observation_journal s) (rest s).
Definition with_command s v : GameState V4 Rest :=
  MkGame (objects s) (players s) (stack s) (exile s) v (library_knowledge s) (hand_knowledge s)
    (randomness s) (observation_journal s) (rest s).
Definition with_library_knowledge s v : GameState V4 Rest :=
  MkGame (objects s) (players s) (stack s) (exile s) (command s) v (hand_knowledge s)
    (randomness s) (observation_journal s) (rest s).
Definition with_hand_knowledge s v : GameState V4 Rest :=
  MkGame (objects s) (players s) (stack s) (exile s) (command s) (library_knowledge s) v
    (randomness s) (observation_journal s) (rest s).
Definition with_randomness s v : GameState V4 Rest :=
  MkGame (objects s) (players s) (stack s) (exile s) (command s) (library_knowledge s)
    (hand_knowledge s) v (observation_journal s) (rest s).
Definition with_journal s v : GameState V4 Rest :=
  MkGame (objects s) (players s) (stack s) (exile s) (command s) (library_knowledge s)
    (hand_knowledge s) (randomness s) v (rest s).

Definition update_player (p : PlayerId) (f : PlayerState -> PlayerState) s : GameState V4 Rest :=
  with_players s (set_seat (players s) p (f (seat (players s) p))).

Definition update_library_row (observer owner : PlayerId)
    (f : list LibraryKnowledgeEntry -> list LibraryKnowledgeEntry) s : GameState V4 Rest :=
  with_library_knowledge s
    (set_row (library_knowledge s) observer owner (f (row (library_knowledge s) observer owner))).
Definition update_hand_row (observer owner : PlayerId)
    (f : list HandKnowledgeEntry -> list HandKnowledgeEntry) s : GameState V4 Rest :=
  with_hand_knowledge s
    (set_row (hand_knowledge s) observer owner (f (row (hand_knowledge s) observer owner))).

(** [for observer in [PlayerId::P0, PlayerId::P1]] *)
Definition for_observers (f : PlayerId -> GameState V4 Rest -> GameState V4 Rest) s
  : GameState V4 Rest := f P1 (f P0 s).

(** [objects.get]: [None] is its panic. *)
Definition get s (id : ObjectId) : option (GameObject V4) := Arena.try_get (objects s) id.

Definition library_of s (p : PlayerId) : list ObjectId := library (seat (players s) p).
Definition hand_of s (p : PlayerId) : list ObjectId := hand (seat (players s) p).
Definition generation_of s (id : ObjectId) : option Z := zone_change_count <$> get s id.
End Updates.

(* ------------------------------------------------------------------ *)
(** ** Facts about libraries and hands *)

(** [sort_by_key(|entry| entry.position)], by object, and [sort_unstable]. *)
Definition lk_le (a b : LibraryKnowledgeEntry) : Prop := (position a <= position b)%Z.
Definition hk_le (a b : HandKnowledgeEntry) : Prop :=
  (object_num (hk_object a) <= object_num (hk_object b))%Z.
Definition object_le (a b : ObjectId) : Prop := (object_num a <= object_num b)%Z.
#[export] Instance lk_le_dec : RelDecision lk_le.
Proof. intros a b. unfold lk_le. apply _. Defined.
#[export] Instance hk_le_dec : RelDecision hk_le.
Proof. intros a b. unfold hk_le. apply _. Defined.
#[export] Instance object_le_dec : RelDecision object_le.
Proof. intros a b. unfold object_le. apply _. Defined.

Definition place (e : LibraryKnowledgeEntry) : nat := Z.to_nat (position e).
Definition move_entry (f : Z -> Z) (e : LibraryKnowledgeEntry) : LibraryKnowledgeEntry :=
  MkLibraryEntry (f (position e)) (lk_object e) (lk_generation e).

Section Knowledge.
Context {V4 Rest : Type} `{!ObjectRules V4 Rest}.
Implicit Types s : GameState V4 Rest.

Definition note_observation (k : ObservationNoteKindV1) s : GameState V4 Rest :=
  with_journal s (observation_journal s ++ [MkNote (event_history_len (rest s)) k]).

Definition known_library_cards s (observer owner : PlayerId) : list LibraryKnowledgeEntry :=
  row (library_knowledge s) observer owner.
Definition known_hand_cards s (observer owner : PlayerId) : list HandKnowledgeEntry :=
  row (hand_knowledge s) observer owner.

Definition clear_library_knowledge (owner : PlayerId) s : GameState V4 Rest :=
  note_observation (LibraryRandomized owner)
    (for_observers (fun observer => update_library_row observer owner (fun _ => [])) s).

Definition removal_row (at_ : nat) (entries : list LibraryKnowledgeEntry) :=
  map (fun e => if decide (at_ < place e) then move_entry (fun p => p - 1)%Z e else e)
    (filter (fun e => place e <> at_) entries).

Definition note_library_removal (owner : PlayerId) (at_ : nat) s : GameState V4 Rest :=
  let s := note_observation (LibraryRemoval owner (as_u32 at_)) s in
  for_observers (fun observer => update_library_row observer owner (removal_row at_)) s.

(** [checked_add(1).expect(..)]: [None] is the panic. *)
Definition insertion_row (at_ : nat) (entries : list LibraryKnowledgeEntry)
  : option (list LibraryKnowledgeEntry) :=
  mapM (fun e =>
    if decide (at_ <= place e)
    then p ← checked_unsigned u32_max (position e + 1); Some (move_entry (fun _ => p) e)
    else Some e) entries.

Definition note_library_insertion (owner : PlayerId) (at_ : nat) s : option (GameState V4 Rest) :=
  let s := note_observation (LibraryInsertion owner (as_u32 at_)) s in
  r0 ← insertion_row at_ (row (library_knowledge s) P0 owner);
  let s := update_library_row P0 owner (fun _ => r0) s in
  r1 ← insertion_row at_ (row (library_knowledge s) P1 owner);
  Some (update_library_row P1 owner (fun _ => r1) s).

Definition forget_hand_object (object : ObjectId) s : GameState V4 Rest :=
  for_observers (fun observer s =>
    for_observers (fun owner =>
      update_hand_row observer owner (filter (fun e => hk_object e <> object))) s) s.

Definition clear_nonowner_hand_knowledge (owner : PlayerId) s : GameState V4 Rest :=
  for_observers (fun observer s =>
    if decide (observer <> owner) then update_hand_row observer owner (fun _ => []) s else s) s.

Definition learn_hand_entry (e : HandKnowledgeEntry) (entries : list HandKnowledgeEntry) :=
  if decide (hk_object e ∈ map hk_object entries) then entries
  else merge_sort hk_le (entries ++ [e]).

Inductive RevealHandError := MissingHandObject | NotALiveHandCard.

Definition reveal_hand_card (observer owner_ : PlayerId) (object : ObjectId) s
  : result RevealHandError (GameState V4 Rest) :=
  let live := bool_decide (valid_player owner_) && bool_decide (object ∈ hand_of s owner_) in
  match get s object with
  | None => Err MissingHandObject
  | Some card =>
      if negb live || bool_decide (owner card <> owner_) || bool_decide (zone card <> Zone.Hand)
      then Err NotALiveHandCard
      else if decide (observer = owner_) then Ok s
      else
        let s := note_observation (HandCardRevealed observer owner_ object) s in
        Ok (update_hand_row observer owner_
              (learn_hand_entry (MkHandEntry object (zone_change_count card))) s)
  end.

Definition transfer_library_knowledge_to_hand (owner : PlayerId) (at_ : nat) (object : ObjectId) s
  : option (GameState V4 Rest) :=
  generation ← generation_of s object;
  Some (for_observers (fun observer s =>
    if decide (observer = owner) then s
    else if bool_decide (Exists (fun e => place e = at_ /\ lk_object e = object
                                          /\ lk_generation e = generation)
                           (row (library_knowledge s) observer owner))
    then update_hand_row observer owner (learn_hand_entry (MkHandEntry object generation)) s
    else s) s).

(** The entries anchored to the current incarnations of cards at positions. *)
Definition anchor_entries s (cards : list (nat * ObjectId)) : option (list LibraryKnowledgeEntry) :=
  mapM (fun '(p, object) =>
    generation ← generation_of s object; Some (MkLibraryEntry (as_u32 p) object generation)) cards.

(** [iter().enumerate()] from a first position. *)
Definition enumerate_from {A} (start : nat) (l : list A) : list (nat * A) :=
  imap (fun i x => (start + i, x)) l.

Definition reveal_library_top (observer owner : PlayerId) (count : nat) s
  : option (GameState V4 Rest) :=
  let count := Nat.min count (length (library_of s owner)) in
  let top := enumerate_from 0 (take count (library_of s owner)) in
  new ← anchor_entries s top;
  let s := update_library_row observer owner (fun entries =>
             merge_sort lk_le (filter (fun e => count <= place e) entries ++ new)) s in
  Some (note_observation
          (LibraryLooked observer owner (map (fun '(p, object) => (as_u32 p, object)) top)) s).

Definition reveal_library_position (observer owner : PlayerId) (at_ : nat) s
  : option (GameState V4 Rest) :=
  object ← library_of s owner !! at_;
  generation ← generation_of s object;
  let s := update_library_row observer owner (fun entries =>
             merge_sort lk_le
               (filter (fun e => place e <> at_
                          /\ ~ (lk_object e = object /\ lk_generation e = generation)) entries
                ++ [MkLibraryEntry (as_u32 at_) object generation])) s in
  Some (note_observation (LibraryLooked observer owner [(as_u32 at_, object)]) s).

Inductive ReorderError := TooManyCards | NotAPermutation.

Definition reorder_library_top (owner : PlayerId) (ordered : list ObjectId)
    (revealed_to : list PlayerId) s : result (Fault ReorderError) (GameState V4 Rest) :=
  let count := length ordered in
  let library_ := library_of s owner in
  if decide (length library_ < count) then Err (Reject TooManyCards)
  else if decide (merge_sort object_le ordered <> merge_sort object_le (take count library_))
  then Err (Reject NotAPermutation)
  else
    let s := update_player owner (with_library (ordered ++ drop count library_)) s in
    let? new := ok_or Panic (anchor_entries s (enumerate_from 0 ordered)) in
    let s := for_observers (fun observer =>
      update_library_row observer owner (fun entries =>
        let entries := filter (fun e => count <= place e) entries in
        if decide (observer ∈ revealed_to) then merge_sort lk_le (entries ++ new) else entries)) s in
    Ok (note_observation (LibraryReordered owner ordered revealed_to) s).
End Knowledge.

(* ------------------------------------------------------------------ *)
(** ** Scry *)

Inductive ScryError :=
  PrefixTooLong | PrefixReordered | PrefixObjectMissing | PrefixObjectChanged | NotAPartition.

Section Scry.
Context {V4 Rest : Type} `{!ObjectRules V4 Rest}.
Implicit Types s : GameState V4 Rest.

Definition check_scry_prefix (owner_ : PlayerId) s (at_ : nat * ObjectLinkV4)
  : result (Fault ScryError) () :=
  let (p, expected) := at_ in
  let? found := ok_or Panic (library_of s owner_ !! p) in
  if decide (found <> link_object expected) then Err (Reject PrefixReordered)
  else
    let? object := ok_or (Reject PrefixObjectMissing) (get s (link_object expected)) in
    if decide (owner object <> owner_ \/ zone object <> Zone.Library
               \/ zone_change_count object <> link_generation expected)
    then Err (Reject PrefixObjectChanged) else Ok ().

(** The new facts of [observer] about the cards of the prefix. *)
Definition scry_learned s (owner observer : PlayerId) (expected_prefix : list ObjectLinkV4)
    (retained_top ordered_bottom : list ObjectId) : option (list LibraryKnowledgeEntry) :=
  let bottom_count := length ordered_bottom in
  let library_len := length (library_of s owner) in
  let old := row (library_knowledge s) observer owner in
  if decide (observer = owner) then
    top ← anchor_entries s (enumerate_from 0 retained_top);
    bottom ← anchor_entries s (enumerate_from (library_len - bottom_count) ordered_bottom);
    Some (top ++ bottom)
  else
    match expected_prefix with
    | [expected] =>
        if bool_decide (Exists (fun e => position e = 0%Z
             /\ lk_object e = link_object expected
             /\ lk_generation e = link_generation expected) old)
        then Some [MkLibraryEntry (if decide (bottom_count = 1) then as_u32 (library_len - 1) else 0%Z)
                     (link_object expected) (link_generation expected)]
        else Some []
    | _ => Some []
    end.

(** The facts about the untouched tail. *)
Definition scry_tail (prefix_len bottom_count : nat) (old : list LibraryKnowledgeEntry) :=
  map (move_entry (fun p => wrap_u32 (p - as_u32 bottom_count)))
    (filter (fun e => prefix_len <= place e) old).

(** The row of [observer] after the scry. *)
Definition scry_row s (owner observer : PlayerId) (expected_prefix : list ObjectLinkV4)
    (retained_top ordered_bottom : list ObjectId) : option (list LibraryKnowledgeEntry) :=
  learned ← scry_learned s owner observer expected_prefix retained_top ordered_bottom;
  Some (merge_sort lk_le
          (scry_tail (length expected_prefix) (length ordered_bottom)
             (row (library_knowledge s) observer owner) ++ learned)).

Definition apply_scry_result (owner : PlayerId) (expected_prefix : list ObjectLinkV4)
    (retained_top ordered_bottom : list ObjectId) s
  : result (Fault ScryError) (GameState V4 Rest) :=
  let library_ := library_of s owner in
  let prefix_len := length expected_prefix in
  if decide (length library_ < prefix_len) then Err (Reject PrefixTooLong)
  else
    let? _ := try_fold (fun _ => check_scry_prefix owner s) () (enumerate_from 0 expected_prefix) in
    if decide (merge_sort object_le (retained_top ++ ordered_bottom)
               <> merge_sort object_le (map link_object expected_prefix))
    then Err (Reject NotAPartition)
    else
      let result_library := retained_top ++ drop prefix_len library_ ++ ordered_bottom in
      let? row0 := ok_or Panic (scry_row s owner P0 expected_prefix retained_top ordered_bottom) in
      let? row1 := ok_or Panic (scry_row s owner P1 expected_prefix retained_top ordered_bottom) in
      let s := update_player owner (with_library result_library) s in
      let s := update_library_row P0 owner (fun _ => row0) s in
      let s := update_library_row P1 owner (fun _ => row1) s in
      Ok (note_observation (LibraryScried owner retained_top ordered_bottom) s).
End Scry.

(* ------------------------------------------------------------------ *)
(** ** The shuffle transaction *)

Inductive LibraryShuffleError :=
  | InvalidOwner
  | ExhaustedOwnerOrdinal
  | CallerOwnerMismatch
  | TokenStateMismatch
  | Derivation (e : EnvironmentRandomizationErrorV2)
  | SpellbenchNeutralPartialRandomization.

Inductive LibraryShuffleAuthorization :=
  | AuthorizedLegacy (expected_rng : SplitMix64)
  | AuthorizedV2 (pair_root ordinal next_ordinal derived_seed : Z).

Record LibraryShuffleToken := MkShuffleToken {
  token_owner : PlayerId;
  authorization : LibraryShuffleAuthorization;
}.

Definition library_shuffle_owner (p : PlayerId) : result LibraryShuffleError PlayerId :=
  if decide (p = P0 \/ p = P1) then Ok p else Err InvalidOwner.

Definition physical_owner_v2_exact (p : PlayerId) : result LibraryShuffleError PhysicalOwnerV2 :=
  if decide (p = P0) then Ok PhysicalP0
  else if decide (p = P1) then Ok PhysicalP1 else Err InvalidOwner.

(** [?] through [impl From<EnvironmentRandomizationErrorV2>]. *)
Definition from_derivation {A} (r : result EnvironmentRandomizationErrorV2 A)
  : result LibraryShuffleError A :=
  match r with Ok a => Ok a | Err e => Err (Derivation e) end.

Section Shuffle.
Context {V4 Rest : Type} `{!ObjectRules V4 Rest} (sha256 : bytes -> bytes).
Implicit Types s : GameState V4 Rest.

Definition preflight_library_shuffle (owner : PlayerId) s
  : result LibraryShuffleError LibraryShuffleToken :=
  let? owner := library_shuffle_owner owner in
  let? authorization :=
    match randomness s with
    | Legacy rng => Ok (AuthorizedLegacy rng)
    | EnvironmentV2 v2 =>
        let? physical_owner := physical_owner_v2_exact owner in
        let ordinal := next_live_shuffle_ordinal v2 physical_owner in
        let? next_ordinal := ok_or ExhaustedOwnerOrdinal (checked_add_u64 ordinal 1) in
        let? derived_seed := from_derivation (derive_environment_randomization_seed_v2 sha256
          (pair_environment_seed v2) physical_owner InGameLibraryShuffle ordinal) in
        Ok (AuthorizedV2 (pair_environment_seed v2) ordinal next_ordinal derived_seed)
    end in
  Ok (MkShuffleToken owner authorization).

Definition commit_library_shuffle (owner : PlayerId) (token : LibraryShuffleToken) s
  : result LibraryShuffleError (GameState V4 Rest) :=
  let? owner := library_shuffle_owner owner in
  if decide (token_owner token <> owner) then Err CallerOwnerMismatch
  else
    match randomness s, authorization token with
    | Legacy rng, AuthorizedLegacy expected_rng =>
        if decide (rng <> expected_rng) then Err TokenStateMismatch
        else
          let (library_, next_rng) := fisher_yates expected_rng (library_of s owner) in
          let s := update_player owner (with_library library_) s in
          let s := with_randomness s (Legacy next_rng) in
          Ok (clear_library_knowledge owner s)
    | EnvironmentV2 v2, AuthorizedV2 pair_root ordinal next_ordinal derived_seed =>
        let? physical_owner := physical_owner_v2_exact owner in
        if decide (pair_environment_seed v2 <> pair_root) then Err TokenStateMismatch
        else
          let current := next_live_shuffle_ordinal v2 physical_owner in
          if decide (current <> ordinal) then Err TokenStateMismatch
          else
            let? expected_successor := ok_or ExhaustedOwnerOrdinal (checked_add_u64 current 1) in
            if decide (expected_successor <> next_ordinal) then Err TokenStateMismatch
            else
              let? recomputed := from_derivation (derive_environment_randomization_seed_v2 sha256
                pair_root physical_owner InGameLibraryShuffle current) in
              if decide (recomputed <> derived_seed) then Err TokenStateMismatch
              else
                let library_ := shuffle_slice_in_place_v2 recomputed (library_of s owner) in
                let successor_randomness :=
                  set_live_shuffle_ordinal v2 physical_owner expected_successor in
                let s := update_player owner (with_library library_) s in
                let s := with_randomness s (EnvironmentV2 successor_randomness) in
                Ok (clear_library_knowledge owner s)
    | _, _ => Err TokenStateMismatch
    end.

Definition shuffle_library (owner : PlayerId) s : result LibraryShuffleError (GameState V4 Rest) :=
  let? token := preflight_library_shuffle owner s in
  commit_library_shuffle owner token s.

(** The sampling transactions shuffle a projection of the state whose library
    is the candidates, and keep only its random state. *)
Definition shuffle_projection (owner : PlayerId) (cards : list ObjectId) s
  : result LibraryShuffleError (GameState V4 Rest) :=
  shuffle_library owner (update_player owner (with_library cards) s).

Definition sample_card (owner : PlayerId) (cards : list ObjectId) s
  : result LibraryShuffleError (option ObjectId * GameState V4 Rest) :=
  if decide (length cards < 2) then Ok (head cards, s)
  else
    let? projected := shuffle_projection owner cards s in
    Ok (head (library_of projected owner), with_randomness s (randomness projected)).

(** The cards of a zone that satisfy a test on the live object; [objects.get]
    panics on a missing one. *)
Definition filter_cards s (f : GameObject V4 -> bool) (l : list ObjectId)
  : option (list ObjectId) :=
  foldr (fun id acc => card ← get s id; ids ← acc; Some (if f card then id :: ids else ids))
    (Some []) l.

Definition random_graveyard_card_v1 (owner_ : PlayerId) s
  : result (Fault LibraryShuffleError) (option ObjectId * GameState V4 Rest) :=
  let? owner_ := from_reject (library_shuffle_owner owner_) in
  let? cards := ok_or Panic (filter_cards s (fun card =>
    bool_decide (zone card = Zone.Graveyard) && bool_decide (owner card = owner_)
    && negb (v4_is_token (v4 card)) && negb (card_is_token (card_def card))
    && negb (spell_copied card)) (graveyard (seat (players s) owner_))) in
  from_reject (sample_card owner_ cards s).

Definition random_hand_card_v1 (owner_ : PlayerId) s
  : result (Fault LibraryShuffleError) (option ObjectId * GameState V4 Rest) :=
  let? owner_ := from_reject (library_shuffle_owner owner_) in
  let? cards := ok_or Panic (filter_cards s (fun card =>
    bool_decide (zone card = Zone.Hand) && bool_decide (owner card = owner_)) (hand_of s owner_)) in
  from_reject (sample_card owner_ cards s).

Definition flip_coin_v1 (player : PlayerId) s
  : result LibraryShuffleError (bool * GameState V4 Rest) :=
  let? player := library_shuffle_owner player in
  let heads := MkObjectId 0 in
  let? projected := shuffle_projection player [heads; MkObjectId 1] s in
  Ok (bool_decide (head (library_of projected player) = Some heads),
      with_randomness s (randomness projected)).

Definition randomize_library_bottom_v1 (owner : PlayerId) (count : nat) s
  : result LibraryShuffleError (GameState V4 Rest) :=
  let? owner := library_shuffle_owner owner in
  let len := length (library_of s owner) in
  let count := Nat.min count len in
  if decide (count < 2) then Ok s
  else if spellbench_neutral_choices (rest s) then Err SpellbenchNeutralPartialRandomization
  else
    let start := len - count in
    let? staged := shuffle_projection owner (drop start (library_of s owner)) s in
    let s := update_player owner
      (with_library (take start (library_of s owner) ++ library_of staged owner)) s in
    let s := with_randomness s (randomness staged) in
    Ok (for_observers (fun observer =>
          update_library_row observer owner (filter (fun e => place e < start))) s).

Definition resample_future_randomness_for_search_v3 (seed : Z) s : GameState V4 Rest :=
  with_randomness s
    match randomness s with
    | Legacy _ => Legacy (SplitMix64_seed seed)
    | EnvironmentV2 v2 =>
        let replacement := environment_v2_new seed in
        let replacement := set_live_shuffle_ordinal replacement PhysicalP0
                             (next_live_shuffle_ordinal v2 PhysicalP0) in
        let replacement := set_live_shuffle_ordinal replacement PhysicalP1
                             (next_live_shuffle_ordinal v2 PhysicalP1) in
        EnvironmentV2 replacement
    end.

Definition legacy_rng s : option SplitMix64 :=
  match randomness s with Legacy rng => Some rng | EnvironmentV2 _ => None end.
Definition environment_randomization_v2 s : option GameEnvironmentRandomizationV2 :=
  match randomness s with Legacy _ => None | EnvironmentV2 v2 => Some v2 end.
End Shuffle.

(* ------------------------------------------------------------------ *)
(** ** Construction, draws and zone changes *)

Section ZoneChanges.
Context {V4 Rest : Type} `{!ObjectRules V4 Rest}.
Implicit Types s : GameState V4 Rest.

(** [CARD_DEFS[card_def]]: [None] is its panic. *)
Definition in_table (card_def : Z) : Prop := (0 <= card_def < card_def_count)%Z.
#[export] Instance in_table_dec card_def : base.Decision (in_table card_def).
Proof. unfold in_table. apply _. Defined.
Definition indexed (card_def : Z) : option unit := if decide (in_table card_def) then Some tt else None.

(** A card outside of the table panics here, in [from_card_def]: the decks of a game
    hold cards of the table. *)
Definition new_in_library (card_def : Z) (owner : PlayerId) : GameObject V4 :=
  MkObject card_def owner owner Zone.Library 0 false (v4_from_card_def card_def).

Definition push_library (owner : PlayerId) (objects : Arena.t (GameObject V4)) (lib : list Z)
  : Arena.t (GameObject V4) * list ObjectId :=
  foldl (fun '(objects, ids) card_def =>
    let (objects, id) := Arena.push objects (new_in_library card_def owner) in
    (objects, ids ++ [id])) (objects, []) lib.

Definition no_knowledge {T} : known T := PerPlayer (PerPlayer [] []) (PerPlayer [] []).

Definition new_from_libraries_with_starting_player_v1 (lib0 lib1 : list Z) (seed : Z)
    (starting_player : PlayerId) : GameState V4 Rest :=
  let (objects, library0) := push_library P0 Arena.new lib0 in
  let (objects, library1) := push_library P1 objects lib1 in
  MkGame objects
    (PerPlayer (MkPlayerState library0 [] [] []) (MkPlayerState library1 [] [] []))
    [] [] [] no_knowledge no_knowledge (Legacy (SplitMix64_seed seed)) []
    (initial_rest starting_player).

Definition new_from_libraries (lib0 lib1 : list Z) (seed : Z) : GameState V4 Rest :=
  new_from_libraries_with_starting_player_v1 lib0 lib1 seed P0.

Definition new_from_libraries_environment_v2_with_starting_player_v1 (lib0 lib1 : list Z)
    (pair_environment_seed : Z) (starting_player : PlayerId) : GameState V4 Rest :=
  with_randomness (new_from_libraries_with_starting_player_v1 lib0 lib1 0 starting_player)
    (EnvironmentV2 (environment_v2_new pair_environment_seed)).

(** The field writes of a zone change: the marker, the incarnation (a [u32]
    that wraps in a release build) and [reset_for_zone_change]. *)
Definition new_incarnation (to_zone : Zone.t) (turn : Z) (o : GameObject V4) : GameObject V4 :=
  MkObject (card_def o) (owner o) (controller o) to_zone (wrap_u32 (zone_change_count o + 1))
    (spell_copied o) (reset_for_zone_change (v4 o) (card_def o) to_zone turn).

(** [objects.get_mut]: [None] is its panic. *)
Definition update_object (id : ObjectId) (f : GameObject V4 -> GameObject V4) s
  : option (GameState V4 Rest) :=
  _ ← get s id; Some (with_objects s (Arena.update (objects s) id f)).

(** [reset_for_zone_change] starts with [from_card_def], which indexes the table. *)
Definition enter_zone (id : ObjectId) (to_zone : Zone.t) s : option (GameState V4 Rest) :=
  object ← get s id;
  _ ← indexed (card_def object);
  update_object id (new_incarnation to_zone (turn_key_v1 (rest s))) s.

Definition draw_card (player : PlayerId) s : option (option ObjectId * GameState V4 Rest) :=
  match library_of s player with
  | [] => Some (None, s)
  | id :: library_ =>
      let s := update_player player (fun ps => with_hand (hand ps ++ [id]) (with_library library_ ps)) s in
      s ← transfer_library_knowledge_to_hand player 0 id s;
      let s := note_library_removal player 0 s in
      let s := clear_object_relations id s in
      s ← enter_zone id Zone.Hand s;
      new_generation ← generation_of s id;
      let s := for_observers (fun observer =>
        update_hand_row observer player (map (fun entry =>
          if decide (hk_object entry = id) then MkHandEntry id new_generation else entry))) s in
      Some (Some id, s)
  end.

Definition drop_from (id : ObjectId) (l : list ObjectId) : list ObjectId :=
  filter (fun x => x <> id) l.

(** [position]: the first index of the object. *)
Definition index_of (id : ObjectId) (l : list ObjectId) : option nat :=
  fst <$> list_find (fun x => x = id) l.

Definition remove_from_zone (owner : PlayerId) (id : ObjectId) (from : Zone.t) s
  : option (GameState V4 Rest * bool) :=
  let removed (l : list ObjectId) := bool_decide (length l <> length (drop_from id l)) in
  match from with
  | Zone.Library =>
      let l := library_of s owner in
      let s := update_player owner (fun ps => with_library (drop_from id (library ps)) ps) s in
      Some (match index_of id l with
            | Some at_ => note_library_removal owner at_ s
            | None => s
            end, removed l)
  | Zone.Hand =>
      Some (update_player owner (fun ps => with_hand (drop_from id (hand ps)) ps) s,
            removed (hand_of s owner))
  | Zone.Battlefield =>
      object ← get s id;
      let l := battlefield (seat (players s) (controller object)) in
      Some (update_player (controller object)
              (fun ps => with_battlefield (drop_from id (battlefield ps)) ps) s, removed l)
  | Zone.Graveyard =>
      let l := graveyard (seat (players s) owner) in
      Some (update_player owner (fun ps => with_graveyard (drop_from id (graveyard ps)) ps) s,
            removed l)
  | Zone.Exile => Some (with_exile s (drop_from id (exile s)), removed (exile s))
  | Zone.Command => Some (with_command s (drop_from id (command s)), removed (command s))
  | Zone.Stack =>
      object ← get s id;
      let left := filter (fun item =>
        is_spell item = false \/ source item <> id
        \/ source_generation item <> Some (zone_change_count object)) (stack s) in
      Some (with_stack s left, bool_decide (length (stack s) <> length left))
  end.

Definition insertion_index (placement : LibraryPlacement) (library_len : nat) : nat :=
  match placement with
  | Top => 0
  | SecondFromTop => Nat.min 1 library_len
  | Bottom => library_len
  | ThirdFromTop => Nat.min 2 library_len
  end.

(** [Vec::insert] *)
Definition insert_at {A} (i : nat) (x : A) (l : list A) : list A := take i l ++ x :: drop i l.

Definition set_controller (p : PlayerId) (o : GameObject V4) : GameObject V4 :=
  MkObject (card_def o) (owner o) p (zone o) (zone_change_count o) (spell_copied o) (v4 o).

(** The observers a public reveal has informed of a card about to go to hand. *)
Definition informed_observers (preserve : bool) (from to : Zone.t) (owner : PlayerId)
    (id : ObjectId) s : list PlayerId :=
  if preserve && bool_decide (from = Zone.Library) && bool_decide (to = Zone.Hand) then
    match index_of id (library_of s owner), generation_of s id with
    | Some at_, Some generation =>
        filter (fun observer =>
          Exists (fun e => place e = at_ /\ lk_object e = id /\ lk_generation e = generation)
            (known_library_cards s observer owner)) [P0; P1]
    | _, _ => []
    end
  else [].

(** The [match to_zone] of the zone mover. *)
Definition add_to_zone (owner destination_controller : PlayerId) (id : ObjectId) (to : Zone.t)
    (placement : LibraryPlacement) s : option (GameState V4 Rest) :=
  match to with
  | Zone.Library =>
      let at_ := insertion_index placement (length (library_of s owner)) in
      s ← note_library_insertion owner at_ s;
      Some (update_player owner (fun ps => with_library (insert_at at_ id (library ps)) ps) s)
  | Zone.Hand => Some (update_player owner (fun ps => with_hand (hand ps ++ [id]) ps) s)
  | Zone.Battlefield =>
      Some (update_player destination_controller
              (fun ps => with_battlefield (battlefield ps ++ [id]) ps) s)
  | Zone.Graveyard => Some (update_player owner (fun ps => with_graveyard (graveyard ps ++ [id]) ps) s)
  | Zone.Exile => Some (with_exile s (exile s ++ [id]))
  | Zone.Command => Some (with_command s (command s ++ [id]))
  | Zone.Stack => None
  end.

(** Reveals to a list of observers, in order. *)
Definition reveal_to_each {A} (reveal : PlayerId -> A -> option A) (observers : list PlayerId)
    (s : A) : option A :=
  foldl (fun acc observer => s ← acc; reveal observer s) (Some s) observers.

(** [.expect(..)] on the result of [reveal_hand_card]. *)
Definition reveal_hand_or_panic (owner : PlayerId) (id : ObjectId) (observer : PlayerId) s
  : option (GameState V4 Rest) :=
  match reveal_hand_card observer owner id s with Ok s => Some s | Err _ => None end.

Definition visible_to (visibility : LibraryInsertVisibility) (owner : PlayerId) : list PlayerId :=
  match visibility with Hidden => [] | Owner => [owner] | Public => [P0; P1] end.

(** The reveals that end a zone change. *)
Definition arrival_reveals (from to : Zone.t) (visibility : LibraryInsertVisibility)
    (informed : list PlayerId) (owner : PlayerId) (id : ObjectId) s : option (GameState V4 Rest) :=
  s ← (if decide (to = Zone.Library) then
         at_ ← index_of id (library_of s owner);
         reveal_to_each (fun observer => reveal_library_position observer owner at_)
           (visible_to visibility owner) s
       else Some s);
  if decide (to = Zone.Hand /\ from <> Zone.Library)
  then reveal_to_each (reveal_hand_or_panic owner id) [P0; P1] s
  else if decide (to = Zone.Hand) then reveal_to_each (reveal_hand_or_panic owner id) informed s
  else Some s.

(** From where the object is to where it goes, as a new incarnation under its
    controller. [battlefield_controller] is the explicit controller override; a
    resolving permanent goes to the controller of the spell. The name of a card that
    is resolving is read for Nine-Lives Familiar before anything moves. *)
Definition move_between_zones (id : ObjectId) (to : Zone.t) (placement : LibraryPlacement)
    (battlefield_controller : option PlayerId) s : option (GameState V4 Rest) :=
  object ← get s id;
  let owner_ := owner object in
  let from := zone object in
  _ ← (if decide (from = Zone.Stack /\ to = Zone.Battlefield) then indexed (card_def object) else Some tt);
  let battlefield_controller :=
    match battlefield_controller with
    | Some p => Some p
    | None => if decide (from = Zone.Stack /\ to = Zone.Battlefield)
              then Some (controller object) else None
    end in
  let destination := default owner_ battlefield_controller in
  '(s, _) ← remove_from_zone owner_ id from s;
  let s := forget_hand_object id s in
  let s := clear_object_relations id s in
  let s := if decide (from = Zone.Battlefield) then remove_from_combat id s else s in
  s ← add_to_zone owner_ destination id to placement s;
  s ← enter_zone id to s;
  update_object id
    (set_controller (if decide (to = Zone.Battlefield) then destination else owner_)) s.

(** The face a card enters with: the one asked for, or the back of a daybound card
    that enters at night. *)
Definition entry_face (battlefield_face_index : option Z) (id : ObjectId) (to : Zone.t) s : option Z :=
  match battlefield_face_index with
  | Some face_index => Some face_index
  | None =>
      object ← get s id;
      if bool_decide (to = Zone.Battlefield) && enters_transformed_at_night s (card_def object)
      then Some 1%Z else None
  end.

(** The one face that can be asked for is the [transform_face], if the card has one. *)
Definition face_defined (face : option Z) (to : Zone.t) (object : GameObject V4) : bool :=
  match face with
  | Some face_index =>
      bool_decide (to <> Zone.Battlefield) || bool_decide (face_index = 1%Z) && has_transform_face (card_def object)
  | None => true
  end.

(** [panic!], when the face is undefined. *)
Definition require_face (face : option Z) (to : Zone.t) (id : ObjectId) s : option unit :=
  object ← get s id;
  if face_defined face to object then Some tt else None.

Definition materialize_zone_change_v1 (id : ObjectId) (to : Zone.t) (placement : LibraryPlacement)
    (preserve_known_identity : bool) (visibility : LibraryInsertVisibility)
    (battlefield_face_index : option Z) (battlefield_controller : option PlayerId) s
  : option (GameState V4 Rest) :=
  object ← get s id;
  let owner_ := owner object in
  let from := zone object in
  let face := entry_face battlefield_face_index id to s in
  let informed := informed_observers preserve_known_identity from to owner_ id s in
  s ← move_between_zones id to placement battlefield_controller s;
  _ ← require_face face to id s;
  '(s, halted) ← entry_effects face id from to s;
  if (halted : bool) then Some s else arrival_reveals from to visibility informed owner_ id s.

(** Casting: hand, graveyard, exile or library to the stack. *)
Definition move_to_stack (id : ObjectId) (from : Zone.t) s : option (GameState V4 Rest) :=
  object ← get s id;
  let owner_ := owner object in
  let s := stash_effects id s in
  let s :=
    match from with
    | Zone.Graveyard =>
        update_player owner_ (fun ps => with_graveyard (drop_from id (graveyard ps)) ps) s
    | Zone.Exile => with_exile s (drop_from id (exile s))
    | Zone.Library =>
        match index_of id (library_of s owner_) with
        | Some at_ =>
            note_library_removal owner_ at_
              (update_player owner_ (fun ps => with_library (delete at_ (library ps)) ps) s)
        | None => s
        end
    | _ => update_player owner_ (fun ps => with_hand (drop_from id (hand ps)) ps) s
    end in
  let s := forget_hand_object id s in
  let s := clear_object_relations id s in
  enter_zone id Zone.Stack s.

(** Where the card of an aborted cast goes; [None] is [unreachable!]. *)
Definition return_to_zone (owner : PlayerId) (id : ObjectId) (to : Zone.t) s : option (GameState V4 Rest) :=
  match to with
  | Zone.Hand => Some (update_player owner (fun ps => with_hand (hand ps ++ [id]) ps) s)
  | Zone.Graveyard => Some (update_player owner (fun ps => with_graveyard (graveyard ps ++ [id]) ps) s)
  | Zone.Exile => Some (with_exile s (exile s ++ [id]))
  | Zone.Library =>
      note_library_insertion owner 0
        (update_player owner (fun ps => with_library (insert_at 0 id (library ps)) ps) s)
  | _ => None
  end.

(** An announced spell that cannot be finished is taken off the stack and goes back to
    where it was cast from; a madness card goes to the graveyard. *)
Definition materialize_aborted_cast_v1 (spell : ObjectId) (madness : bool) (origin_zone : Zone.t) s
  : option (GameState V4 Rest) :=
  let aborted := s in
  let s := with_stack s (removelast (stack s)) in
  object ← get s spell;
  let owner_ := owner object in
  let to_zone := if madness then Zone.Graveyard else origin_zone in
  s ← return_to_zone owner_ spell to_zone s;
  let s := forget_hand_object spell s in
  let s := clear_object_relations spell s in
  s ← enter_zone spell to_zone s;
  s ← update_object spell (set_controller owner_) s;
  Some (aborted_effects spell aborted s).

Definition cease_to_exist (id : ObjectId) s : option (GameState V4 Rest * bool) :=
  object ← get s id;
  '(s, removed) ← remove_from_zone (owner object) id (zone object) s;
  if (removed : bool) then
    let s := forget_hand_object id s in
    let s := clear_object_relations id s in
    Some (ceased_effects id s, removed)
  else Some (s, removed).

Definition move_hand_to_battlefield (player : PlayerId) (id : ObjectId) s
  : option (bool * GameState V4 Rest) :=
  match index_of id (hand_of s player) with
  | None => Some (false, s)
  | Some pos =>
      let s := update_player player (fun ps =>
        with_battlefield (battlefield ps ++ [id]) (with_hand (delete pos (hand ps)) ps)) s in
      let s := forget_hand_object id s in
      let s := clear_object_relations id s in
      s ← enter_zone id Zone.Battlefield s;
      Some (true, s)
  end.
End ZoneChanges.

(* ------------------------------------------------------------------ *)
(** ** Searching a library *)

Inductive SearchTopError := ShuffleRefused (e : LibraryShuffleError) | SearchedCardLeft.

Section SearchTop.
Context {V4 Rest : Type} `{!ObjectRules V4 Rest} (sha256 : bytes -> bytes).
Implicit Types s : GameState V4 Rest.

(** [LibraryTopAfterShuffle]: the card found is put on top of the shuffled library and
    shown, to both players or, by [VampiricSearchV1] of eternal_e5a_v1/choices.rs, to the
    one who searched. The checks of the binding that come first change nothing. *)
Definition library_top_after_shuffle (player : PlayerId) (selected : list ObjectId)
    (shown_to : list PlayerId) s
  : result (Fault SearchTopError) (GameState V4 Rest) :=
  match shuffle_library sha256 player s with
  | Err e => Err (Reject (ShuffleRefused e))
  | Ok s =>
      match selected with
      | [] => Ok s
      | card :: _ =>
          let? at_ := ok_or (Reject SearchedCardLeft) (index_of card (library_of s player)) in
          let s := update_player player (fun ps =>
            with_library (insert_at 0 card (delete at_ (library ps))) ps) s in
          ok_or Panic (reveal_to_each (fun observer => reveal_library_position observer player 0) shown_to s)
      end
  end.
End SearchTop.
