(* ===== verification/LibraryRows.v ===== *)
(** * Rows of facts

    A row of library facts is exact when every entry names the card at its
    position by its current incarnation and the positions ascend; each way the
    kernel edits a row when the library changes keeps it exact. Hand rows are
    treated the same way. *)

From S2P Require Import Prelude Ids Bytes Randomness Library.

Definition lk_lt (a b : LibraryKnowledgeEntry) : Prop := (position a < position b)%Z.
Definition hk_lt (a b : HandKnowledgeEntry) : Prop :=
  (object_num (hk_object a) < object_num (hk_object b))%Z.

(** Positions of the library fit [u32]. *)
Definition fits (lib : list ObjectId) : Prop := (Z.of_nat (length lib) <= u32_max + 1)%Z.

Lemma as_u32_small n : (Z.of_nat n <= u32_max)%Z -> as_u32 n = Z.of_nat n.
Proof. intros. unfold as_u32. rewrite Z.mod_small; [done|]. unfold u32_max in *. lia. Qed.

Lemma wrap_u32_small z : (0 <= z <= u32_max)%Z -> wrap_u32 z = z.
Proof. intros. unfold wrap_u32. rewrite Z.mod_small; [done|]. lia. Qed.

(* ------------------------------------------------------------------ *)
(** ** Sorted lists *)

Section Sorted.
Context {A : Type}.

Lemma strongly_sorted_filter (R : relation A) (P : A -> Prop) `{!forall x, Decision (P x)} l :
  StronglySorted R l -> StronglySorted R (filter P l).
Proof.
  induction 1 as [|x l _ IH HF]; [constructor|]. rewrite filter_cons. case_decide; [|done].
  constructor; [done|]. rewrite Forall_forall in *. intros y Hy.
  apply HF. by apply list_elem_of_filter in Hy as [_ Hy].
Qed.

Lemma strongly_sorted_map {B} (R : relation A) (R' : relation B) (f : A -> B) l :
  (forall a b, a ∈ l -> b ∈ l -> R a b -> R' (f a) (f b)) ->
  StronglySorted R l -> StronglySorted R' (map f l).
Proof.
  intros H. induction 1 as [|x l _ IH HF]; [constructor|]. cbn. constructor.
  - apply IH. intros a b ??. apply H; by constructor.
  - apply Forall_forall. intros y Hy. apply list_elem_of_fmap in Hy as (z & -> & Hz).
    apply H; [left|by right|]. rewrite Forall_forall in HF. by apply HF.
Qed.

(** Sorting by an integer key without repetitions sorts strictly. *)
Lemma merge_sort_strict (key : A -> Z) (le : relation A) `{!RelDecision le} l :
  (forall a b, le a b <-> (key a <= key b)%Z) -> NoDup (map key l) ->
  StronglySorted (fun a b => (key a < key b)%Z) (merge_sort le l).
Proof.
  intros Hle Hnd.
  assert (Transitive le) by (intros a b c; rewrite !Hle; lia).
  assert (Total le) by (intros a b; rewrite !Hle; lia).
  assert (NoDup (map key (merge_sort le l))) as Hnd'.
  { rewrite merge_sort_Permutation. done. }
  pose proof (StronglySorted_merge_sort le l) as HS. clear Hnd.
  induction HS as [|x l' _ IH HF]; [constructor|].
  cbn in Hnd'. apply NoDup_cons in Hnd' as [Hx Hnd']. constructor; [by apply IH|].
  rewrite Forall_forall in *. intros y Hy. specialize (HF y Hy). rewrite Hle in HF.
  assert (key x <> key y); [|lia]. intros E. apply Hx. rewrite E.
  apply list_elem_of_fmap. by exists y.
Qed.

Lemma strict_NoDup (key : A -> Z) l :
  StronglySorted (fun a b => (key a < key b)%Z) l -> NoDup (map key l).
Proof.
  induction 1 as [|x l _ IH HF]; cbn; constructor; [|done].
  intros (y & E & Hy)%list_elem_of_fmap. rewrite Forall_forall in HF. specialize (HF y Hy). lia.
Qed.
End Sorted.

(* ------------------------------------------------------------------ *)
(** ** Library rows *)

Section Rows.
Context (gen : ObjectId -> option Z).
Implicit Types (lib : list ObjectId) (e : LibraryKnowledgeEntry) (r : list LibraryKnowledgeEntry).

Definition entry_ok lib e : Prop :=
  (0 <= position e)%Z /\ lib !! place e = Some (lk_object e)
  /\ gen (lk_object e) = Some (lk_generation e).

Definition row_ok lib r : Prop :=
  (forall e, e ∈ r -> entry_ok lib e) /\ StronglySorted lk_lt r.

Lemma row_ok_nil lib : row_ok lib [].
Proof. split; [|constructor]. intros e He. by apply not_elem_of_nil in He. Qed.

Lemma row_ok_filter lib r (P : LibraryKnowledgeEntry -> Prop) `{!forall e, Decision (P e)} :
  row_ok lib r -> row_ok lib (filter P r).
Proof.
  intros [H1 H2]. split; [|by apply strongly_sorted_filter].
  intros e [_ He]%list_elem_of_filter. by apply H1.
Qed.

Lemma entry_in_range lib e : entry_ok lib e -> place e < length lib.
Proof. intros (_ & H & _). by eapply lookup_lt_Some. Qed.

Lemma row_ok_NoDup lib r : row_ok lib r -> NoDup (map position r).
Proof. intros [_ H]. by apply (strict_NoDup position). Qed.

(** Distinct cards: no card twice in a row. *)
Lemma row_objects_NoDup lib r : NoDup lib -> row_ok lib r -> NoDup (map lk_object r).
Proof.
  intros Hnd H. pose proof (NoDup_fmap_1 _ _ (row_ok_NoDup lib r H)) as HP.
  apply NoDup_fmap_2_strong; [|done]. intros [p o g] [p' o' g'] Ha Hb E. cbn in E. subst o'.
  destruct (proj1 H _ Ha) as (Hz & L & G), (proj1 H _ Hb) as (Hz' & L' & G'). unfold place in *. cbn in *.
  pose proof (NoDup_lookup lib _ _ _ Hnd L L'). f_equal; [lia|congruence].
Qed.

Lemma row_ok_sort lib l :
  (forall e, e ∈ l -> entry_ok lib e) -> NoDup (map position l) ->
  row_ok lib (merge_sort lk_le l).
Proof.
  intros H1 H2. split.
  - intros e He. apply H1. by rewrite merge_sort_Permutation in He.
  - by apply (merge_sort_strict position).
Qed.

(** An edited row: the facts are transported by [f] from one library to
    another, in order. *)
Lemma row_ok_move lib lib' r f :
  row_ok lib r ->
  (forall e, e ∈ r -> entry_ok lib e ->
     (0 <= f (position e))%Z /\ lib' !! Z.to_nat (f (position e)) = Some (lk_object e)) ->
  (forall e e', e ∈ r -> e' ∈ r -> entry_ok lib e -> entry_ok lib e' ->
     lk_lt e e' -> (f (position e) < f (position e'))%Z) ->
  row_ok lib' (map (move_entry f) r).
Proof.
  intros [H1 H2] Hf Hm. split.
  - intros e' (e & -> & He)%list_elem_of_fmap. destruct (Hf e He (H1 e He)).
    pose proof (H1 e He) as (_ & _ & ?). by split_and!.
  - eapply strongly_sorted_map; [|exact H2]. intros a b Ha Hb. by apply Hm; [..|apply H1|apply H1].
Qed.

Lemma row_ok_same lib lib' r :
  row_ok lib r -> (forall e, e ∈ r -> entry_ok lib e -> lib' !! place e = Some (lk_object e)) ->
  row_ok lib' r.
Proof.
  intros [H1 H2] H. split; [|done]. intros e He. pose proof (H1 e He) as HO.
  destruct HO as (? & ? & ?) eqn:E. split_and!; [done| |done]. apply H; [done|]. by split_and!.
Qed.

Lemma removal_row_ok lib at_ r :
  row_ok lib r -> row_ok (delete at_ lib) (removal_row at_ r).
Proof.
  intros H. unfold removal_row.
  assert (row_ok lib (filter (fun e => place e <> at_) r)) as HF by by apply row_ok_filter.
  rewrite (map_ext_in _ (move_entry (fun p => if decide (at_ < Z.to_nat p) then (p - 1)%Z else p))).
  - apply row_ok_move with lib; [done|..].
    + intros e [Hne _]%list_elem_of_filter (Hp & Hl & _). unfold place in *. case_decide.
      * split; [lia|]. rewrite list_lookup_delete_ge by lia. rewrite <- Hl. f_equal. lia.
      * split; [lia|]. rewrite list_lookup_delete_lt by lia. done.
    + intros e e' [He _]%list_elem_of_filter [He' _]%list_elem_of_filter (? & _) (? & _).
      unfold lk_lt, place in *. repeat case_decide; lia.
  - intros [p o g] _. unfold place, move_entry; cbn. by case_decide.
Qed.

Lemma insertion_row_ok lib at_ id r :
  row_ok lib r -> at_ <= length lib -> fits (insert_at at_ id lib) ->
  exists r', insertion_row at_ r = Some r' /\ row_ok (insert_at at_ id lib) r'.
Proof.
  intros H Hat Hfit.
  set (f := fun p : Z => if decide (at_ <= Z.to_nat p) then (p + 1)%Z else p).
  exists (map (move_entry f) r). split.
  - unfold insertion_row. destruct H as [H _]. revert H.
    induction r as [|e r IH]; intros H; [done|].
    cbn [mapM map]. rewrite IH by (intros e' ?; apply H; by right).
    destruct (H e) as (Hp & Hl%lookup_lt_Some & _); [by left|].
    unfold place in *. destruct e as [p o g].
    cbn [position lk_object lk_generation] in *. unfold move_entry at 3, f at 2; cbn.
    case_decide; [|done].
    unfold fits, insert_at in Hfit. rewrite length_app in Hfit. cbn [length] in Hfit.
    rewrite length_take, length_drop in Hfit. unfold checked_unsigned.
    destruct (_ && _) eqn:EB; [done|]. unfold u32_max in *. lia.
  - apply row_ok_move with lib; [done|..].
    + intros e _ (Hp & Hl & _). unfold f, insert_at, place in *. case_decide.
      * split; [lia|]. rewrite lookup_app_r; rewrite length_take; [|lia].
        replace (Z.to_nat (position e + 1) - at_ `min` length lib)
          with (S (Z.to_nat (position e) - at_)) by lia.
        change (drop at_ lib !! (Z.to_nat (position e) - at_) = Some (lk_object e)).
        rewrite lookup_drop. rewrite <- Hl. f_equal. lia.
      * split; [lia|]. rewrite lookup_app_l; [|rewrite length_take; pose proof (lookup_lt_Some _ _ _ Hl); lia].
        rewrite lookup_take_lt by lia. done.
    + intros e e' _ _ (? & _) (? & _). unfold lk_lt, f. repeat case_decide; lia.
Qed.
End Rows.

Section RowEdits.
Context (gen : ObjectId -> option Z).
Implicit Types (lib : list ObjectId) (r new : list LibraryKnowledgeEntry).

Lemma row_ok_ext (gen' : ObjectId -> option Z) lib r :
  (forall id, id ∈ lib -> gen' id = gen id) -> row_ok gen lib r -> row_ok gen' lib r.
Proof.
  intros H [H1 H2]. split; [|done]. intros e He. destruct (H1 e He) as (? & Hl & ?).
  split_and!; [done..|]. rewrite H; [done|]. by eapply list_elem_of_lookup_2.
Qed.

Lemma row_ok_learn lib r new :
  row_ok gen lib r -> (forall e, e ∈ new -> entry_ok gen lib e) -> NoDup (map position new) ->
  (forall e e', e ∈ r -> e' ∈ new -> position e <> position e') ->
  row_ok gen lib (merge_sort lk_le (r ++ new)).
Proof.
  intros H Hn Hnd Hd. apply row_ok_sort.
  - intros e [He|He]%elem_of_app; [by apply H|by apply Hn].
  - rewrite map_app. apply NoDup_app. split_and!; [by eapply row_ok_NoDup| |done].
    intros p (e & -> & He)%list_elem_of_fmap (e' & E & He')%list_elem_of_fmap. by eapply Hd.
Qed.

(** The facts below a replaced prefix stay. *)
Lemma prefix_replaced_ok lib ordered r n :
  row_ok gen lib r -> length ordered = n ->
  row_ok gen (ordered ++ drop n lib) (filter (fun e => n <= place e) r).
Proof.
  intros H <-. apply row_ok_same with lib; [by apply row_ok_filter|].
  intros e [Hp _]%list_elem_of_filter (_ & Hl & _).
  rewrite lookup_app_r by done. rewrite lookup_drop. rewrite <- Hl. f_equal. lia.
Qed.

(** The facts above a replaced suffix stay. *)
Lemma suffix_replaced_ok lib bottom r n :
  row_ok gen lib r ->
  row_ok gen (take n lib ++ bottom) (filter (fun e => place e < n) r).
Proof.
  intros H. apply row_ok_same with lib; [by apply row_ok_filter|].
  intros e [Hp _]%list_elem_of_filter (_ & Hl & _).
  rewrite lookup_app_l; [by rewrite lookup_take_lt|].
  rewrite length_take. pose proof (lookup_lt_Some _ _ _ Hl). lia.
Qed.

(** The facts below a scried prefix move up by the cards moved to the bottom. *)
Lemma scry_tail_ok lib top bottom r n :
  row_ok gen lib r -> fits lib -> length top + length bottom = n -> n <= length lib ->
  row_ok gen (top ++ drop n lib ++ bottom)
    (map (move_entry (fun p => wrap_u32 (p - as_u32 (length bottom)))) (filter (fun e => n <= place e) r)).
Proof.
  intros H Hfit Hn Hle. apply row_ok_move with lib; [by apply row_ok_filter|..].
  - intros e [Hp _]%list_elem_of_filter (Hz & Hl & _).
    pose proof (lookup_lt_Some _ _ _ Hl) as Hlt. unfold fits, place, u32_max in *.
    rewrite as_u32_small by (unfold u32_max; lia).
    rewrite wrap_u32_small by (unfold u32_max; lia). split; [lia|].
    rewrite lookup_app_r by lia. rewrite lookup_app_l by (rewrite length_drop; lia).
    rewrite lookup_drop, <- Hl. f_equal. lia.
  - intros e e' [Hp _]%list_elem_of_filter [Hp' _]%list_elem_of_filter
      (Hz & Hl%lookup_lt_Some & _) (Hz' & Hl'%lookup_lt_Some & _).
    unfold fits, place, lk_lt, u32_max in *. rewrite as_u32_small by (unfold u32_max; lia).
    rewrite !wrap_u32_small by (unfold u32_max; lia). lia.
Qed.
End RowEdits.

(* ------------------------------------------------------------------ *)
(** ** Hand rows *)

Section HandRows.
Context (gen : ObjectId -> option Z).
Implicit Types (hd : list ObjectId) (r : list HandKnowledgeEntry).

Definition hand_entry_ok hd (e : HandKnowledgeEntry) : Prop :=
  hk_object e ∈ hd /\ gen (hk_object e) = Some (hk_generation e).

Definition hand_row_ok hd r : Prop :=
  (forall e, e ∈ r -> hand_entry_ok hd e) /\ StronglySorted hk_lt r.

Lemma hand_row_ok_nil hd : hand_row_ok hd [].
Proof. split; [|constructor]. intros e He. by apply not_elem_of_nil in He. Qed.

Lemma hand_row_ok_filter hd r (P : HandKnowledgeEntry -> Prop) `{!forall e, Decision (P e)} :
  hand_row_ok hd r -> hand_row_ok hd (filter P r).
Proof.
  intros [H1 H2]. split; [|by apply strongly_sorted_filter].
  intros e [_ He]%list_elem_of_filter. by apply H1.
Qed.

Lemma object_num_inj (a b : ObjectId) : object_num a = object_num b -> a = b.
Proof. destruct a, b; cbn. congruence. Qed.

Lemma learn_hand_entry_ok hd r e :
  hand_row_ok hd r -> hand_entry_ok hd e -> hand_row_ok hd (learn_hand_entry e r).
Proof.
  intros [H1 H2] He. unfold learn_hand_entry. case_decide as Hin; [done|]. split.
  - intros e' He'. rewrite merge_sort_Permutation in He'.
    apply elem_of_app in He' as [?| ->%list_elem_of_singleton]; [by apply H1|done].
  - apply (merge_sort_strict (fun e => object_num (hk_object e))); [done|].
    rewrite map_app. cbn. apply NoDup_app. split_and!.
    + by apply (strict_NoDup (fun e => object_num (hk_object e))).
    + intros z (a & -> & Ha)%list_elem_of_fmap E%list_elem_of_singleton. apply Hin.
      apply object_num_inj in E. rewrite <- E. by apply list_elem_of_fmap_2.
    + apply NoDup_singleton.
Qed.

(** Learning never forgets, and the entry is known afterwards. *)
Lemma learn_hand_entry_elem e r x :
  x ∈ map hk_object (learn_hand_entry e r) <-> x ∈ map hk_object r \/ x = hk_object e.
Proof.
  unfold learn_hand_entry. case_decide as Hin.
  { split; [by left|]. by intros [?| ->]. }
  rewrite merge_sort_Permutation, map_app, elem_of_app. cbn [map].
  by rewrite list_elem_of_singleton.
Qed.
End HandRows.

Lemma hand_row_ok_ext gen gen' hd hd' r :
  hand_row_ok gen hd r ->
  (forall e, e ∈ r -> hand_entry_ok gen hd e ->
     hk_object e ∈ hd' /\ gen' (hk_object e) = gen (hk_object e)) ->
  hand_row_ok gen' hd' r.
Proof.
  intros [H1 H2] H. split; [|done]. intros e He.
  destruct (H e He (H1 e He)) as [? Hg]. destruct (H1 e He) as [_ ?].
  split; [done|]. by rewrite Hg.
Qed.

(* ------------------------------------------------------------------ *)
(** ** Anchored entries *)

Section Anchor.
Context {V4 Rest : Type}.
Implicit Types s : GameState V4 Rest.

Lemma enumerate_from_cons {A} start (x : A) l :
  enumerate_from start (x :: l) = (start, x) :: enumerate_from (S start) l.
Proof.
  unfold enumerate_from. cbn. rewrite Nat.add_0_r. f_equal. apply imap_ext.
  intros i y _. cbn. f_equal. lia.
Qed.

(** Entries of live cards at positions from [start]. *)
Lemma anchor_entries_some s start l :
  (forall id, id ∈ l -> is_Some (generation_of s id)) ->
  exists new, anchor_entries s (enumerate_from start l) = Some new /\
    Forall2 (fun pid e => position e = as_u32 (fst pid) /\ lk_object e = snd pid
                          /\ generation_of s (snd pid) = Some (lk_generation e))
      (enumerate_from start l) new.
Proof.
  revert start. induction l as [|id l IH]; intros start H; [by exists []|].
  rewrite enumerate_from_cons. destruct (IH (S start)) as (new & E & F).
  { intros ??. apply H. by right. }
  destruct (H id) as [g Eg]; [by left|].
  exists (MkLibraryEntry (as_u32 start) id g :: new). split.
  - unfold anchor_entries in *. cbn. rewrite Eg. cbn. by rewrite E.
  - by constructor.
Qed.

Lemma anchored_ok s lib start l new :
  fits lib -> start + length l <= length lib ->
  (forall i id, l !! i = Some id -> lib !! (start + i) = Some id) ->
  anchor_entries s (enumerate_from start l) = Some new ->
  (forall id, id ∈ l -> is_Some (generation_of s id)) ->
  (forall e, e ∈ new -> entry_ok (generation_of s) lib e /\ start <= place e < start + length l)
  /\ map position new = map Z.of_nat (seq start (length l)).
Proof.
  intros Hfit Hlen Hl E Hg. destruct (anchor_entries_some s start l Hg) as (new' & E' & F).
  assert (new' = new) as -> by congruence. clear E E' Hg.
  revert start Hlen Hl new F. induction l as [|id l IH]; intros start Hlen Hl new F.
  { unfold enumerate_from in F. cbn in F. inversion F. split; [|done].
    intros e He. by apply not_elem_of_nil in He. }
  rewrite enumerate_from_cons in F.
  apply Forall2_cons_inv_l in F as (e & new1 & (Ep & Eo & Eg) & F & ->). cbn in *.
  destruct (IH (S start)) with new1 as [A P]; [lia| |done|].
  { intros i x Hx. rewrite <- (Hl (S i) x Hx). f_equal. lia. }
  rewrite as_u32_small in Ep by (unfold fits in Hfit; lia). split.
  - intros e' [->|He']%elem_of_cons.
    + unfold entry_ok, place. rewrite Ep, Eo, Nat2Z.id. split_and!; [lia| |done|lia..].
      rewrite <- (Hl 0 id eq_refl). f_equal. lia.
    + destruct (A e' He') as [? ?]. split; [done|]. lia.
  - by rewrite Ep, P.
Qed.

Lemma seq_positions_NoDup start n : NoDup (map Z.of_nat (seq start n)).
Proof. apply NoDup_fmap_2; [intros ???; lia|apply NoDup_seq]. Qed.
End Anchor.
