(* ===== verification/LibraryFacts.v ===== *)
(** * What the players know is true

    [hidden_ok] is the invariant of the hidden zones: the cards of a library or a
    hand are distinct live objects of their owner, marked with that zone; every
    fact an observer holds about a library names the card at that position, and
    every fact about a hand names a card of it, each by its current
    incarnation.

    [BareRules] is the smallest kernel around the hidden zones: an instance of the
    interfaces without tokens, relations, combat and entry effects. The examples
    of the hidden-zone theorems run in it; [bare_game] is a game of three cards
    against two, and [toy_sha256] stands for the hash. *)

From S2P Require Import Prelude Ids Bytes Randomness RandomnessFacts Library LibraryRows.
Import PlayerIds.

Section Invariant.
Context {V4 Rest : Type}.
Implicit Types s : GameState V4 Rest.

Definition ident s (id : ObjectId) : option (PlayerId * Zone.t * Z) :=
  (fun o => (owner o, zone o, zone_change_count o)) <$> get s id.

(** The incarnation an identity carries. *)
Definition gen_of (i : ObjectId -> option (PlayerId * Zone.t * Z)) (id : ObjectId) : option Z :=
  snd <$> i id.

Lemma gen_of_ident s id : gen_of (ident s) id = generation_of s id.
Proof. unfold gen_of, ident, generation_of. by destruct (get s id). Qed.
End Invariant.

Section OwnerOk.
Context (i : ObjectId -> option (PlayerId * Zone.t * Z)).

Definition lives (p : PlayerId) (z : Zone.t) (id : ObjectId) : Prop :=
  (0 <= object_num id <= u32_max)%Z /\ exists g, i id = Some (p, z, g).

Definition zone_ok (p : PlayerId) (z : Zone.t) (l : list ObjectId) : Prop :=
  NoDup l /\ forall id, id ∈ l -> lives p z id.

(** The zones of one owner and what each observer knows of them. *)
Record owner_ok (w : PlayerId) (lib hd : list ObjectId)
    (lk : PlayerId -> list LibraryKnowledgeEntry) (hk : PlayerId -> list HandKnowledgeEntry)
  : Prop := MkOwnerOk {
  library_ok : zone_ok w Zone.Library lib;
  hand_ok : zone_ok w Zone.Hand hd;
  library_rows_ok : forall o, valid_player o -> row_ok (gen_of i) lib (lk o);
  hand_rows_ok : forall o, valid_player o -> hand_row_ok (gen_of i) hd (hk o);
  own_row_empty : hk w = [];
}.
End OwnerOk.

Section HiddenOk.
Context {V4 Rest : Type}.
Implicit Types s : GameState V4 Rest.

Definition owner_view_ok s (i : ObjectId -> option (PlayerId * Zone.t * Z)) (w : PlayerId) : Prop :=
  owner_ok i w (library_of s w) (hand_of s w)
    (fun o => known_library_cards s o w) (fun o => known_hand_cards s o w).

Definition hidden_ok s : Prop := forall w, valid_player w -> owner_view_ok s (ident s) w.

(** What the invariant reads. *)
Record same_hidden s s' : Prop := MkSameHidden {
  same_library : forall p, valid_player p -> library_of s' p = library_of s p;
  same_hand : forall p, valid_player p -> hand_of s' p = hand_of s p;
  same_library_rows : forall o p, valid_player o -> valid_player p ->
    known_library_cards s' o p = known_library_cards s o p;
  same_hand_rows : forall o p, valid_player o -> valid_player p ->
    known_hand_cards s' o p = known_hand_cards s o p;
  same_ident : forall id, ident s' id = ident s id;
}.

#[global] Instance same_hidden_refl : Reflexive same_hidden.
Proof. by split. Qed.
#[global] Instance same_hidden_trans : Transitive same_hidden.
Proof.
  intros a b c [A1 A2 A3 A4 A5] [B1 B2 B3 B4 B5]. split; intros.
  - by rewrite B1, A1.
  - by rewrite B2, A2.
  - by rewrite B3, A3.
  - by rewrite B4, A4.
  - by rewrite B5, A5.
Qed.
End HiddenOk.

(** Every object is of a card of the table, and would be if the copies ended. *)
Record tabled {V4 Rest} `{!ObjectRules V4 Rest} (s : GameState V4 Rest) : Prop := MkTabled {
  tabled_objects : forall id o, get s id = Some o -> in_table (card_def o);
  tabled_saved : Forall in_table (saved_card_defs (rest s));
}.

Record kept {V4 Rest} `{!ObjectRules V4 Rest} (s s' : GameState V4 Rest) : Prop := MkKept {
  kept_hidden :> same_hidden s s';
  kept_tabled : tabled s -> tabled s';
}.

(** The kernel's other code, called in the middle of a zone change, leaves the
    hidden zones, the facts and every object's owner, zone and incarnation
    alone, and gives an object, if any, the card it had before it became a copy. What
    follows an arrival anywhere but on the battlefield returns; on the battlefield
    nothing is assumed of it. *)
Class LawfulRules (V4 Rest : Type) `{!ObjectRules V4 Rest} := {
  initial_saved p : saved_card_defs (initial_rest p) = [];
  clear_object_relations_same (id : ObjectId) (s : GameState V4 Rest) :
    kept s (clear_object_relations id s);
  remove_from_combat_same (id : ObjectId) (s : GameState V4 Rest) :
    kept s (remove_from_combat id s);
  entry_effects_same face (id : ObjectId) from to (s s' : GameState V4 Rest) halted :
    entry_effects face id from to s = Some (s', halted) -> kept s s';
  entry_effects_return face (id : ObjectId) from to (s : GameState V4 Rest) o :
    get s id = Some o -> in_table (card_def o) -> to <> Zone.Battlefield ->
    is_Some (entry_effects face id from to s);
  stash_effects_same (id : ObjectId) (s : GameState V4 Rest) :
    kept s (stash_effects id s);
  aborted_effects_same (id : ObjectId) (before s : GameState V4 Rest) :
    kept s (aborted_effects id before s);
  ceased_effects_same (id : ObjectId) (s : GameState V4 Rest) :
    kept s (ceased_effects id s);
}.

#[export] Instance kept_refl {V4 Rest} `{!ObjectRules V4 Rest} : Reflexive (kept (V4:=V4) (Rest:=Rest)).
Proof. by split. Qed.
#[export] Instance kept_trans {V4 Rest} `{!ObjectRules V4 Rest} : Transitive (kept (V4:=V4) (Rest:=Rest)).
Proof. intros a b c [H1 T1] [H2 T2]. split; [by etransitivity|auto]. Qed.

(** Cards and records that did not change. *)
Lemma tabled_same {V4 Rest} `{!ObjectRules V4 Rest} (s s' : GameState V4 Rest) :
  objects s' = objects s -> rest s' = rest s -> tabled s -> tabled s'.
Proof. intros Eo Er [H1 H2]. split; [|by rewrite Er]. intros id o. unfold get. rewrite Eo. apply H1. Qed.

(* ------------------------------------------------------------------ *)
(** ** Frames *)

Lemma zone_ok_ext i i' p z l :
  (forall id, id ∈ l -> i' id = i id) -> zone_ok i p z l -> zone_ok i' p z l.
Proof.
  intros H [H1 H2]. split; [done|]. intros id Hid. destruct (H2 id Hid) as (? & g & Hg).
  split; [done|]. exists g. by rewrite H.
Qed.

Lemma zone_ok_sub i p z l l' :
  NoDup l' -> (forall id, id ∈ l' -> id ∈ l) -> zone_ok i p z l -> zone_ok i p z l'.
Proof. intros Hnd H [_ H2]. split; [done|]. intros id Hid. by apply H2, H. Qed.

Lemma zone_ok_perm i p z l l' : l' ≡ₚ l -> zone_ok i p z l -> zone_ok i p z l'.
Proof.
  intros E Hz. apply zone_ok_sub with l; [|intros id; by rewrite E|done].
  rewrite E. by destruct Hz.
Qed.

Lemma gen_of_ext i i' (id : ObjectId) : i' id = i id -> gen_of i' id = gen_of i id.
Proof. unfold gen_of. by intros ->. Qed.

(** The objects of an owner's hidden zones decide everything. *)
Lemma owner_ok_ext i i' w lib hd lk hk :
  (forall id, id ∈ lib \/ id ∈ hd -> i' id = i id) ->
  owner_ok i w lib hd lk hk -> owner_ok i' w lib hd lk hk.
Proof.
  intros H [HL HH HK HR HE]. split; [..|done].
  - apply zone_ok_ext with i; [|done]. naive_solver.
  - apply zone_ok_ext with i; [|done]. naive_solver.
  - intros o Ho. apply row_ok_ext with (gen_of i); [|by apply HK].
    intros id Hid. apply gen_of_ext. naive_solver.
  - intros o Ho. apply hand_row_ok_ext with (gen_of i) hd; [by apply HR|].
    intros e _ [He _]. split; [done|]. apply gen_of_ext. naive_solver.
Qed.

Lemma owner_ok_pointwise i w lib hd lk lk' hk hk' :
  valid_player w ->
  (forall o, valid_player o -> lk' o = lk o) -> (forall o, valid_player o -> hk' o = hk o) ->
  owner_ok i w lib hd lk hk -> owner_ok i w lib hd lk' hk'.
Proof.
  intros Hw El Eh [HL HH HK HR HE]. split; [done|done|..].
  - intros o Ho. rewrite El by done. by apply HK.
  - intros o Ho. rewrite Eh by done. by apply HR.
  - by rewrite Eh.
Qed.

(** A library's positions fit [u32] because its cards are distinct ids. *)
Lemma zone_ok_fits i p z l : zone_ok i p z l -> fits l.
Proof.
  intros [Hnd Hl]. unfold fits, u32_max.
  assert (map object_num l ⊆+ seqZ 0 4294967296) as Hs.
  { apply NoDup_submseteq.
    - apply NoDup_fmap_2; [|done]. intros a b. apply object_num_inj.
    - intros z' (id & -> & Hid)%list_elem_of_fmap. destruct (Hl id Hid) as [Hr _].
      unfold u32_max in Hr. apply elem_of_seqZ. lia. }
  apply submseteq_length in Hs. rewrite length_fmap, length_seqZ in Hs. lia.
Qed.

Section SameHidden.
Context {V4 Rest : Type}.
Implicit Types s : GameState V4 Rest.

Lemma same_hidden_ok s s' : same_hidden s s' -> hidden_ok s -> hidden_ok s'.
Proof.
  intros [Hl Hh Hlk Hhk Hi] H w Hw. unfold owner_view_ok. rewrite Hl, Hh by done.
  eapply owner_ok_pointwise; [done|..]; [intros o Ho; by apply Hlk|intros o Ho; by apply Hhk|].
  eapply owner_ok_ext; [|by apply H]. intros id _. apply Hi.
Qed.
End SameHidden.

(* ------------------------------------------------------------------ *)
(** ** Operations on one owner's zones *)

Section Becomes.
Context {V4 Rest : Type}.
Implicit Types s : GameState V4 Rest.

(** [s'] is [s] with these hidden zones and facts for [p]. *)
Record becomes s s' (p : PlayerId) (lib hd : list ObjectId)
    (lk : PlayerId -> list LibraryKnowledgeEntry) (hk : PlayerId -> list HandKnowledgeEntry)
  : Prop := MkBecomes {
  new_library : library_of s' p = lib;
  new_hand : hand_of s' p = hd;
  new_library_rows : forall o, valid_player o -> known_library_cards s' o p = lk o;
  new_hand_rows : forall o, valid_player o -> known_hand_cards s' o p = hk o;
  other_library : forall w, valid_player w -> w <> p -> library_of s' w = library_of s w;
  other_hand : forall w, valid_player w -> w <> p -> hand_of s' w = hand_of s w;
  other_library_rows : forall o w, valid_player o -> valid_player w -> w <> p ->
    known_library_cards s' o w = known_library_cards s o w;
  other_hand_rows : forall o w, valid_player o -> valid_player w -> w <> p ->
    known_hand_cards s' o w = known_hand_cards s o w;
}.

Lemma hidden_ok_becomes s s' p lib hd lk hk :
  hidden_ok s -> valid_player p -> becomes s s' p lib hd lk hk ->
  (forall id w, valid_player w -> w <> p -> id ∈ library_of s w \/ id ∈ hand_of s w ->
     ident s' id = ident s id) ->
  owner_ok (ident s') p lib hd lk hk -> hidden_ok s'.
Proof.
  intros H Hp [N1 N2 N3 N4 O1 O2 O3 O4] Hi Hok w Hw. unfold owner_view_ok.
  destruct (decide (w = p)) as [->|Hne].
  - rewrite N1, N2. by apply owner_ok_pointwise with lk hk.
  - rewrite O1, O2 by done.
    apply owner_ok_pointwise with (fun o => known_library_cards s o w)
      (fun o => known_hand_cards s o w); [done|by intros; apply O3|by intros; apply O4|].
    apply owner_ok_ext with (ident s); [|by apply H]. intros id Hid. by apply (Hi id w).
Qed.

(** The same, for a step that leaves every identity alone. *)
Lemma hidden_ok_rows s s' p lib hd lk hk :
  hidden_ok s -> valid_player p -> becomes s s' p lib hd lk hk ->
  (forall id, ident s' id = ident s id) ->
  owner_ok (ident s) p lib hd lk hk -> hidden_ok s'.
Proof.
  intros H Hp Hb Hi Hok. eapply hidden_ok_becomes; [done|done|done|by intros; apply Hi|].
  eapply owner_ok_ext; [|done]. intros id _. apply Hi.
Qed.

Lemma becomes_trans s s1 s2 p lib hd lk hk lib' hd' lk' hk' :
  becomes s s1 p lib hd lk hk -> becomes s1 s2 p lib' hd' lk' hk' ->
  becomes s s2 p lib' hd' lk' hk'.
Proof.
  intros [_ _ _ _ A1 A2 A3 A4] [B1 B2 B3 B4 C1 C2 C3 C4].
  split; [done..|intros w Hw Hne|intros w Hw Hne|intros o w Ho Hw Hne|intros o w Ho Hw Hne].
  - by rewrite C1, A1.
  - by rewrite C2, A2.
  - by rewrite C3, A3.
  - by rewrite C4, A4.
Qed.

Lemma becomes_same s s1 s2 p lib hd lk hk :
  valid_player p -> becomes s s1 p lib hd lk hk -> same_hidden s1 s2 -> becomes s s2 p lib hd lk hk.
Proof.
  intros Hp [B1 B2 B3 B4 A1 A2 A3 A4] [C1 C2 C3 C4 _].
  split; [| | | |intros w Hw Hne|intros w Hw Hne|intros o w Ho Hw Hne|intros o w Ho Hw Hne].
  - by rewrite C1.
  - by rewrite C2.
  - intros o Ho. rewrite C3 by done. by apply B3.
  - intros o Ho. rewrite C4 by done. by apply B4.
  - by rewrite C1, A1.
  - by rewrite C2, A2.
  - by rewrite C3, A3.
  - by rewrite C4, A4.
Qed.

Lemma becomes_refl s p :
  becomes s s p (library_of s p) (hand_of s p)
    (fun o => known_library_cards s o p) (fun o => known_hand_cards s o p).
Proof. by split. Qed.
End Becomes.

(** Case analysis on the two seats, after which everything computes. *)
Ltac seats :=
  repeat match goal with
  | H : valid_player ?p |- _ => destruct H as [->| ->]
  | |- forall p : PlayerId, valid_player p -> _ => intros ? [->| ->]
  | |- forall p q : PlayerId, valid_player p -> valid_player q -> _ => intros ? ? [->| ->] [->| ->]
  end.

Ltac becomes_seats := seats; split; seats; first [reflexivity | intros Hne; first [reflexivity | by destruct Hne]].

Section Primitive.
Context {V4 Rest : Type} `{!ObjectRules V4 Rest}.
Implicit Types s : GameState V4 Rest.

Lemma note_observation_same k s : same_hidden s (note_observation k s).
Proof. by split. Qed.

Lemma with_randomness_same r s : same_hidden s (with_randomness s r).
Proof. by split. Qed.

Lemma update_player_becomes p f s : valid_player p ->
  becomes s (update_player p f s) p (library (f (seat (players s) p))) (hand (f (seat (players s) p)))
    (fun o => known_library_cards s o p) (fun o => known_hand_cards s o p).
Proof. intros Hp. becomes_seats. Qed.

Lemma library_becomes p lib s : valid_player p ->
  becomes s (update_player p (with_library lib) s) p lib (hand_of s p)
    (fun o => known_library_cards s o p) (fun o => known_hand_cards s o p).
Proof. exact (update_player_becomes p (with_library lib) s). Qed.

Lemma library_rows_become p g s : valid_player p ->
  becomes s (for_observers (fun o => update_library_row o p (g o)) s) p
    (library_of s p) (hand_of s p)
    (fun o => g o (known_library_cards s o p)) (fun o => known_hand_cards s o p).
Proof. intros Hp. becomes_seats. Qed.

Lemma hand_rows_become p g s : valid_player p ->
  becomes s (for_observers (fun o => update_hand_row o p (g o)) s) p
    (library_of s p) (hand_of s p)
    (fun o => known_library_cards s o p) (fun o => g o (known_hand_cards s o p)).
Proof. intros Hp. becomes_seats. Qed.

(** Chained: rows edited after the zones have changed. *)
Lemma becomes_library_rows s s1 p lib hd lk hk g : valid_player p ->
  becomes s s1 p lib hd lk hk ->
  becomes s (for_observers (fun o => update_library_row o p (g o)) s1) p lib hd
    (fun o => g o (lk o)) hk.
Proof.
  intros Hp B. destruct (becomes_trans _ _ _ _ _ _ _ _ _ _ _ _ B (library_rows_become p g s1 Hp))
    as [N1 N2 N3 N4 O1 O2 O3 O4]. destruct B as [M1 M2 M3 M4 _ _ _ _].
  split; [congruence|congruence| | |done..].
  - intros o Ho. rewrite N3 by done. by rewrite M3.
  - intros o Ho. rewrite N4 by done. by apply M4.
Qed.

Lemma becomes_hand_rows s s1 p lib hd lk hk g : valid_player p ->
  becomes s s1 p lib hd lk hk ->
  becomes s (for_observers (fun o => update_hand_row o p (g o)) s1) p lib hd lk
    (fun o => g o (hk o)).
Proof.
  intros Hp B. destruct (becomes_trans _ _ _ _ _ _ _ _ _ _ _ _ B (hand_rows_become p g s1 Hp))
    as [N1 N2 N3 N4 O1 O2 O3 O4]. destruct B as [M1 M2 M3 M4 _ _ _ _].
  split; [congruence|congruence| | |done..].
  - intros o Ho. rewrite N3 by done. by apply M3.
  - intros o Ho. rewrite N4 by done. by rewrite M4.
Qed.

Lemma library_row_becomes o p g s : valid_player o -> valid_player p ->
  becomes s (update_library_row o p g s) p (library_of s p) (hand_of s p)
    (fun q => if decide (q = o) then g (known_library_cards s q p) else known_library_cards s q p)
    (fun q => known_hand_cards s q p).
Proof. intros Ho Hp. becomes_seats. Qed.

Lemma hand_row_becomes o p g s : valid_player o -> valid_player p ->
  becomes s (update_hand_row o p g s) p (library_of s p) (hand_of s p)
    (fun q => known_library_cards s q p)
    (fun q => if decide (q = o) then g (known_hand_cards s q p) else known_hand_cards s q p).
Proof. intros Ho Hp. becomes_seats. Qed.

Lemma ident_update_player p f s id : ident (update_player p f s) id = ident s id.
Proof. reflexivity. Qed.
Lemma ident_for_library_rows p g s id :
  ident (for_observers (fun o => update_library_row o p (g o)) s) id = ident s id.
Proof. reflexivity. Qed.
End Primitive.

(* ------------------------------------------------------------------ *)
(** ** Looking at and rearranging a library *)

Section Looks.
Context {V4 Rest : Type} `{!ObjectRules V4 Rest}.
Implicit Types s : GameState V4 Rest.

Lemma library_generation s p id :
  hidden_ok s -> valid_player p -> id ∈ library_of s p -> is_Some (generation_of s id).
Proof.
  intros H Hp Hid. destruct (H p Hp) as [[_ HL] _ _ _ _]. destruct (HL id Hid) as (_ & g & E).
  rewrite <- gen_of_ident. unfold gen_of. rewrite E. by eexists.
Qed.

Lemma library_fits s p : hidden_ok s -> valid_player p -> fits (library_of s p).
Proof. intros H Hp. destruct (H p Hp) as [HL _ _ _ _]. by eapply zone_ok_fits. Qed.

Lemma library_row_ok s o p : hidden_ok s -> valid_player o -> valid_player p ->
  row_ok (generation_of s) (library_of s p) (known_library_cards s o p).
Proof.
  intros H Ho Hp. destruct (H p Hp) as [_ _ HK _ _]. apply row_ok_ext with (gen_of (ident s)).
  - intros id _. by rewrite gen_of_ident.
  - by apply HK.
Qed.

(** One owner's library becomes [lib], a permutation of itself, with new
    exact rows. *)
Lemma owner_ok_new_library s p lib lk :
  hidden_ok s -> valid_player p -> lib ≡ₚ library_of s p ->
  (forall o, valid_player o -> row_ok (generation_of s) lib (lk o)) ->
  owner_ok (ident s) p lib (hand_of s p) lk (fun o => known_hand_cards s o p).
Proof.
  intros H Hp Hl Hk. destruct (H p Hp) as [HL HH HK HR HE]. split; [|done| |done|done].
  - by apply zone_ok_perm with (library_of s p).
  - intros o Ho. apply row_ok_ext with (generation_of s); [|by apply Hk].
    intros id _. by rewrite gen_of_ident.
Qed.

Lemma clear_library_knowledge_ok owner s :
  hidden_ok s -> valid_player owner -> hidden_ok (clear_library_knowledge owner s).
Proof.
  intros H Hp. unfold clear_library_knowledge.
  eapply same_hidden_ok; [apply note_observation_same|].
  eapply hidden_ok_rows; [exact H|exact Hp|by apply library_rows_become|done|].
  apply owner_ok_new_library; [done..|]. intros o Ho. apply row_ok_nil.
Qed.

(** Learning the cards of [lib] from position [start] on. *)
Lemma learn_positions s lib start l kept new :
  fits lib -> (forall id, id ∈ l -> is_Some (generation_of s id)) ->
  (forall i id, l !! i = Some id -> lib !! (start + i) = Some id) ->
  start + length l <= length lib ->
  anchor_entries s (enumerate_from start l) = Some new ->
  row_ok (generation_of s) lib kept ->
  (forall e, e ∈ kept -> ~ (start <= place e < start + length l)) ->
  row_ok (generation_of s) lib (merge_sort lk_le (kept ++ new)).
Proof.
  intros Hfit Hg Hl Hlen E Hk Hout.
  destruct (anchored_ok s lib start l new) as [HA HP]; [done..|].
  apply row_ok_learn; [done|intros e He; by apply HA|rewrite HP; apply seq_positions_NoDup|].
  intros e e' He He' Eq. destruct (HA e' He') as [_ Hr]. apply (Hout e He).
  unfold place in *. by rewrite Eq.
Qed.

Lemma reveal_library_top_ok observer owner count s :
  hidden_ok s -> valid_player observer -> valid_player owner ->
  exists s', reveal_library_top observer owner count s = Some s' /\ hidden_ok s'.
Proof.
  intros H Ho Hp. unfold reveal_library_top.
  set (n := Nat.min count (length (library_of s owner))).
  destruct (anchor_entries_some s 0 (take n (library_of s owner))) as (new & E & _).
  { intros id (i & Hi & _)%elem_of_take. apply library_generation with owner; [done..|].
    by eapply list_elem_of_lookup_2. }
  rewrite E. eexists. split; [reflexivity|].
  eapply same_hidden_ok; [apply note_observation_same|].
  eapply hidden_ok_rows; [exact H|exact Hp|by apply library_row_becomes|done|].
  apply owner_ok_new_library; [done..|]. intros q Hq. case_decide; [|by apply library_row_ok].
  eapply learn_positions; [by apply library_fits| | | |exact E| |].
  - intros id (i & Hi & _)%elem_of_take. apply library_generation with owner; [done..|].
    by eapply list_elem_of_lookup_2.
  - intros i id Hi. cbn. apply lookup_take_Some in Hi. by destruct Hi.
  - rewrite length_take. lia.
  - apply row_ok_filter, library_row_ok; done.
  - intros e [Hle _]%list_elem_of_filter. rewrite length_take. lia.
Qed.

Lemma reveal_library_position_ok observer owner at_ s :
  hidden_ok s -> valid_player observer -> valid_player owner -> at_ < length (library_of s owner) ->
  exists s', reveal_library_position observer owner at_ s = Some s' /\ hidden_ok s'.
Proof.
  intros H Ho Hp Hlt. unfold reveal_library_position.
  destruct (lookup_lt_is_Some_2 _ _ Hlt) as [id Eid]. rewrite Eid. cbn.
  destruct (library_generation s owner id) as [g Eg]; [done..|by eapply list_elem_of_lookup_2|].
  rewrite Eg. cbn. eexists. split; [reflexivity|].
  eapply same_hidden_ok; [apply note_observation_same|].
  eapply hidden_ok_rows; [exact H|exact Hp|by apply library_row_becomes|done|].
  apply owner_ok_new_library; [done..|]. intros q Hq. case_decide; [|by apply library_row_ok].
  apply (learn_positions s _ at_ [id]); [by apply library_fits| | | | | |].
  - intros x ->%list_elem_of_singleton. by exists g.
  - intros [|i] x [= <-]. by rewrite Nat.add_0_r.
  - cbn. lia.
  - unfold anchor_entries, enumerate_from. cbn. rewrite Nat.add_0_r, Eg. done.
  - apply row_ok_filter, library_row_ok; done.
  - intros e [[Hne _] _]%list_elem_of_filter. cbn. lia.
Qed.

Lemma sorted_objects_perm l l' : merge_sort object_le l = merge_sort object_le l' -> l ≡ₚ l'.
Proof.
  intros E. rewrite <- (merge_sort_Permutation object_le l), E. apply merge_sort_Permutation.
Qed.

Lemma sorted_objects_eq l l' : l ≡ₚ l' -> merge_sort object_le l = merge_sort object_le l'.
Proof.
  intros E.
  assert (Transitive object_le) by (intros a b c; unfold object_le; lia).
  assert (Total object_le) by (intros a b; unfold object_le; lia).
  assert (AntiSymm (=) object_le).
  { intros a b ??. apply object_num_inj. unfold object_le in *. lia. }
  apply (StronglySorted_unique object_le); [apply (StronglySorted_merge_sort object_le)..|].
  by rewrite !merge_sort_Permutation.
Qed.

(** A reorder succeeds on the permutations of the top, and nothing else. *)
Lemma reorder_library_top_ok owner ordered revealed_to s :
  hidden_ok s -> valid_player owner ->
  ordered ≡ₚ take (length ordered) (library_of s owner) ->
  exists s', reorder_library_top owner ordered revealed_to s = Ok s' /\ hidden_ok s' /\
    exists lk, becomes s s' owner (ordered ++ drop (length ordered) (library_of s owner))
      (hand_of s owner) lk (fun o => known_hand_cards s o owner) /\
      forall o, o ∉ revealed_to ->
        lk o = filter (fun e => length ordered <= place e) (known_library_cards s o owner).
Proof.
  intros H Hp E. pose proof (Permutation_length E) as EL. rewrite length_take in EL.
  unfold reorder_library_top. rewrite decide_False by lia.
  rewrite decide_False by (intros Hne; by apply Hne, sorted_objects_eq).
  assert (forall id, id ∈ ordered -> is_Some (generation_of s id)) as Hg.
  { intros id Hid. rewrite E in Hid. apply elem_of_take in Hid as (i & Hi & _).
    apply library_generation with owner; [done..|]. by eapply list_elem_of_lookup_2. }
  set (lib := ordered ++ drop (length ordered) (library_of s owner)).
  assert (lib ≡ₚ library_of s owner) as Hlib.
  { unfold lib. rewrite E at 1. by rewrite take_drop. }
  destruct (anchor_entries_some s 0 ordered Hg) as (new & En & _).
  unfold anchor_entries in *. cbn [ok_or result_bind].
  change (generation_of (update_player owner (with_library lib) s)) with (generation_of s).
  rewrite En. cbn [ok_or result_bind]. eexists. split; [reflexivity|].
  set (s1 := update_player owner (with_library lib) s).
  pose proof (library_becomes owner lib s Hp) as B1.
  pose proof (becomes_library_rows _ _ _ _ _ _ _ (fun o entries =>
    let entries := filter (fun e => length ordered <= place e) entries in
    if decide (o ∈ revealed_to) then merge_sort lk_le (entries ++ new) else entries) Hp B1) as B.
  split.
  - eapply same_hidden_ok; [apply note_observation_same|].
    eapply hidden_ok_rows; [exact H|exact Hp|exact B|done|].
    apply owner_ok_new_library; [done..|]. intros o Ho. cbn zeta.
    assert (row_ok (generation_of s) lib
              (filter (fun e => length ordered <= place e) (known_library_cards s o owner))) as HF.
    { apply prefix_replaced_ok; [|done]. by apply library_row_ok. }
    case_decide; [|exact HF].
    apply (learn_positions s lib 0 ordered); [|exact Hg|..].
    + unfold fits. rewrite Hlib. by apply library_fits.
    + intros i id Hi. cbn. unfold lib. by apply lookup_app_l_Some.
    + unfold lib. rewrite length_app. cbn. lia.
    + done.
    + done.
    + intros e [Hle _]%list_elem_of_filter. lia.
  - eexists. split; [eapply becomes_same; [exact Hp|exact B|apply note_observation_same]|].
    intros o Ho. cbn beta zeta. by rewrite decide_False.
Qed.

Lemma reorder_library_top_rejects owner ordered revealed_to s :
  ~ ordered ≡ₚ take (length ordered) (library_of s owner) ->
  exists e, reorder_library_top owner ordered revealed_to s = Err (Reject e).
Proof.
  intros H. unfold reorder_library_top. case_decide; [by eexists|].
  rewrite decide_True; [by eexists|]. intros E. by apply H, sorted_objects_perm.
Qed.
End Looks.

(* ------------------------------------------------------------------ *)
(** ** Scry *)

Lemma try_fold_unit_ok {E A} (f : A -> result E ()) l :
  try_fold (fun _ => f) () l = Ok () <-> forall a, a ∈ l -> f a = Ok ().
Proof.
  induction l as [|a l IH]; cbn; [split; [intros _ a Ha; by apply not_elem_of_nil in Ha|done]|].
  destruct (f a) as [[]|e] eqn:Ea; cbn.
  - rewrite IH. split; [|intros H b Hb; apply H; by right].
    intros H b [->|Hb]%elem_of_cons; [done|by apply H].
  - split; [done|]. intros H. rewrite <- Ea. rewrite (H a) by left. done.
Qed.

Lemma try_fold_unit_err {E A} (f : A -> result E ()) l e :
  try_fold (fun _ => f) () l = Err e -> exists a, a ∈ l /\ f a = Err e.
Proof.
  induction l as [|a l IH]; cbn; [done|]. destruct (f a) as [[]|e'] eqn:Ea; cbn.
  - intros H. destruct (IH H) as (b & Hb & E'). exists b. split; [by right|done].
  - intros [= <-]. exists a. split; [by left|done].
Qed.

Lemma elem_of_enumerate {A} start (l : list A) p x :
  (p, x) ∈ enumerate_from start l <-> exists i, p = start + i /\ l !! i = Some x.
Proof.
  unfold enumerate_from. rewrite elem_of_lookup_imap. split.
  - intros (i & y & [= -> ->] & Hy). by exists i.
  - intros (i & -> & Hy). by exists i, x.
Qed.

Section ScryFacts.
Context {V4 Rest : Type} `{!ObjectRules V4 Rest}.
Implicit Types s : GameState V4 Rest.

(** What a scry is asked to do: the links name the top of the library, and the
    two groups share them out. *)
Record scry_valid s (owner : PlayerId) (prefix : list ObjectLinkV4) (top bottom : list ObjectId)
  : Prop := MkScryValid {
  scry_prefix : forall i l, prefix !! i = Some l ->
    library_of s owner !! i = Some (link_object l)
    /\ generation_of s (link_object l) = Some (link_generation l);
  scry_partition : top ++ bottom ≡ₚ map link_object prefix;
}.

Lemma scry_prefix_length s owner prefix top bottom :
  scry_valid s owner prefix top bottom -> length prefix <= length (library_of s owner).
Proof.
  intros [H _]. destruct (decide (length prefix = 0)) as [|Hne]; [lia|].
  destruct (lookup_lt_is_Some_2 prefix (pred (length prefix))) as [l Hl]; [lia|].
  destruct (H _ _ Hl) as [Hlt%lookup_lt_Some _]. lia.
Qed.

Lemma scry_lengths s owner prefix top bottom :
  scry_valid s owner prefix top bottom -> length top + length bottom = length prefix.
Proof.
  intros [_ H]. apply Permutation_length in H. by rewrite length_app, length_fmap in H.
Qed.

Lemma scry_prefix_cards s owner prefix top bottom :
  scry_valid s owner prefix top bottom ->
  map link_object prefix = take (length prefix) (library_of s owner).
Proof.
  intros H. apply list_eq. intros i. pose proof (scry_prefix_length _ _ _ _ _ H) as HL.
  destruct H as [H _]. destruct (decide (i < length prefix)) as [Hi|Hi].
  - destruct (lookup_lt_is_Some_2 prefix i Hi) as [l El]. destruct (H _ _ El) as [E _].
    rewrite lookup_take_lt by done. rewrite E.
    pose proof (list_lookup_fmap link_object prefix i) as EM. by rewrite El in EM.
  - rewrite lookup_take_ge by lia. apply lookup_ge_None_2. rewrite length_fmap. lia.
Qed.

Definition scried_library s (owner : PlayerId) (n : nat) (top bottom : list ObjectId) :=
  top ++ drop n (library_of s owner) ++ bottom.

Lemma scried_library_perm s owner prefix top bottom :
  scry_valid s owner prefix top bottom ->
  scried_library s owner (length prefix) top bottom ≡ₚ library_of s owner.
Proof.
  intros H. unfold scried_library. rewrite (Permutation_app_comm (drop _ _)), app_assoc.
  rewrite (scry_partition _ _ _ _ _ H), (scry_prefix_cards s owner prefix top bottom) by done.
  by rewrite take_drop.
Qed.

Lemma check_scry_prefix_ok s owner p l :
  hidden_ok s -> valid_player owner ->
  check_scry_prefix owner s (p, l) = Ok () <->
  library_of s owner !! p = Some (link_object l)
  /\ generation_of s (link_object l) = Some (link_generation l).
Proof.
  intros H Hp. unfold check_scry_prefix.
  destruct (library_of s owner !! p) as [x|] eqn:Ex; cbn; [|by split; [|intros [? _]]].
  case_decide as Hx; [by split; [|intros [[= ->] _]]|]. subst x.
  assert (lives (ident s) owner Zone.Library (link_object l)) as (_ & g & Eg).
  { destruct (H owner Hp) as [[_ HL] _ _ _ _]. apply HL. by eapply list_elem_of_lookup_2. }
  unfold ident in Eg. unfold generation_of.
  destruct (get s (link_object l)) as [o|]; [|done]. cbn in *.
  injection Eg as Eo Ez Eg. rewrite Eo, Ez. case_decide as Hc.
  - split; [done|]. intros [_ [= E]]. by destruct Hc as [?|[?|?]].
  - split; [|done]. intros _. split; [done|]. f_equal. apply dec_stable. intros Hne.
    apply Hc. by do 2 right.
Qed.

Lemma check_scry_prefix_err s owner p l e :
  hidden_ok s -> valid_player owner -> p < length (library_of s owner) ->
  check_scry_prefix owner s (p, l) = Err e -> exists e', e = Reject e'.
Proof.
  intros H Hp Hlt. unfold check_scry_prefix.
  destruct (lookup_lt_is_Some_2 _ _ Hlt) as [x ->]. cbn. case_decide.
  { intros [= <-]. by eexists. }
  destruct (get s (link_object l)); cbn; [|intros [= <-]; by eexists].
  case_decide; [|done]. intros [= <-]. by eexists.
Qed.

(** The positions the untouched tail moves to. *)
Lemma scry_tail_range s owner o n (bottom : list ObjectId) e :
  hidden_ok s -> valid_player owner -> valid_player o ->
  length bottom <= n <= length (library_of s owner) ->
  e ∈ scry_tail n (length bottom) (known_library_cards s o owner) ->
  n - length bottom <= place e < length (library_of s owner) - length bottom.
Proof.
  intros H Hp Ho Hle (e' & -> & [Hpl He']%list_elem_of_filter)%list_elem_of_fmap.
  destruct (library_row_ok s o owner H Ho Hp) as [HR _].
  destruct (HR e' He') as (Hz & Hl%lookup_lt_Some & _).
  pose proof (library_fits s owner H Hp) as Hfit. unfold fits, place, u32_max in *. cbn.
  rewrite as_u32_small by (unfold u32_max; lia). rewrite wrap_u32_small by (unfold u32_max; lia).
  lia.
Qed.

Lemma scried_library_length s owner prefix top bottom : scry_valid s owner prefix top bottom ->
  length (scried_library s owner (length prefix) top bottom) = length (library_of s owner).
Proof. intros HV. by apply Permutation_length, scried_library_perm. Qed.

(** Facts a scry adds: exact, distinct, and off the tail. *)
Definition learned_ok s owner (n : nat) (top bottom : list ObjectId)
    (new : list LibraryKnowledgeEntry) : Prop :=
  (forall e, e ∈ new -> entry_ok (generation_of s) (scried_library s owner n top bottom) e) /\ NoDup (map position new) /\
  (forall e, e ∈ new ->
     ~ (length top <= place e < length (library_of s owner) - length bottom)).

Lemma learned_nil_ok s owner n top bottom : learned_ok s owner n top bottom [].
Proof.
  split_and!; [|apply NoDup_nil_2|]; intros e He; by apply not_elem_of_nil in He.
Qed.

Lemma scry_learned_own s owner prefix top bottom :
  hidden_ok s -> valid_player owner -> scry_valid s owner prefix top bottom ->
  exists new, scry_learned s owner owner prefix top bottom = Some new /\
    learned_ok s owner (length prefix) top bottom new /\
    map position new = map Z.of_nat (seq 0 (length top)
      ++ seq (length (library_of s owner) - length bottom) (length bottom)).
Proof.
  intros H Hp HV.
  pose proof (scry_lengths _ _ _ _ _ HV) as HL.
  pose proof (scry_prefix_length _ _ _ _ _ HV) as HLe.
  pose proof (scried_library_length _ _ _ _ _ HV) as HPL.
  set (lib' := scried_library s owner (length prefix) top bottom) in *.
  assert (fits lib') as Hfit' by (unfold fits; rewrite HPL; by apply library_fits).
  assert (forall id, id ∈ top \/ id ∈ bottom -> is_Some (generation_of s id)) as Hg.
  { intros id Hid. apply library_generation with owner; [done..|].
    rewrite <- (scried_library_perm _ _ _ _ _ HV). unfold scried_library.
    rewrite !elem_of_app. tauto. }
  destruct (anchor_entries_some s 0 top) as (nt & Et & _); [auto|].
  destruct (anchor_entries_some s (length (library_of s owner) - length bottom) bottom)
    as (nb & Eb & _); [auto|].
  destruct (anchored_ok s lib' 0 top nt) as [At Pt]; [done|lia| |done|auto|].
  { intros i id Hi. by apply lookup_app_l_Some. }
  destruct (anchored_ok s lib' (length (library_of s owner) - length bottom) bottom nb)
    as [Ab Pb]; [done|lia| |done|auto|].
  { intros i id Hi. unfold lib', scried_library. pose proof (lookup_lt_Some _ _ _ Hi).
    rewrite lookup_app_r by lia. rewrite lookup_app_r by (rewrite length_drop; lia).
    rewrite <- Hi. f_equal. rewrite length_drop. lia. }
  exists (nt ++ nb). unfold scry_learned. rewrite decide_True, Et, Eb by done.
  split; [done|]. split; [|by rewrite !map_app, Pt, Pb]. split_and!.
  - intros e [He|He]%elem_of_app; [by apply At|by apply Ab].
  - rewrite map_app, Pt, Pb. apply NoDup_app.
    split_and!; [apply seq_positions_NoDup| |apply seq_positions_NoDup].
    intros z (a & -> & [? Ha]%elem_of_seq)%list_elem_of_fmap
      (b & Eab & [? Hb]%elem_of_seq)%list_elem_of_fmap. lia.
  - intros e [He|He]%elem_of_app; [apply At in He as [_ ?]|apply Ab in He as [_ ?]]; lia.
Qed.

Lemma scry_learned_other s owner o prefix top bottom :
  hidden_ok s -> valid_player owner -> scry_valid s owner prefix top bottom -> o <> owner ->
  exists new, scry_learned s owner o prefix top bottom = Some new /\
    learned_ok s owner (length prefix) top bottom new.
Proof.
  intros H Hp HV Hown. pose proof (learned_nil_ok s owner (length prefix) top bottom) as HN. pose proof (scry_lengths _ _ _ _ _ HV) as HL.
  pose proof (scry_prefix_length _ _ _ _ _ HV) as HLe.
  pose proof (library_fits s owner H Hp) as Hfit.
  unfold scry_learned. rewrite decide_False by done.
  destruct prefix as [|l [|l' prefix']]; [by eexists| |by eexists].
  case_bool_decide as HE; [|by eexists]. eexists. split; [reflexivity|].
  destruct (scry_prefix _ _ _ _ _ HV 0 l eq_refl) as [El Eg].
  pose proof (scry_partition _ _ _ _ _ HV) as HS. cbn in HS, HL, HLe.
  unfold fits, u32_max in Hfit. unfold learned_ok.
  destruct bottom as [|b [|]]; cbn in HL; [| |lia].
  - rewrite app_nil_r in HS. apply Permutation_singleton_r in HS as ->.
    rewrite decide_False by done. split_and!; [|apply NoDup_singleton|]; intros e ->%list_elem_of_singleton.
    + by split_and!.
    + unfold place. cbn. lia.
  - destruct top; [|cbn in HL; lia]. apply Permutation_singleton_r in HS as [= ->].
    rewrite decide_True, as_u32_small by (unfold u32_max; done || lia).
    split_and!; [|apply NoDup_singleton|]; intros e ->%list_elem_of_singleton;
      unfold entry_ok, place; cbn -[scried_library]; rewrite Nat2Z.id; [|lia].
    split_and!; [lia| |done]. unfold scried_library. cbn [app length].
    rewrite lookup_app_r by (rewrite length_drop; lia). rewrite length_drop.
    by rewrite Nat.sub_diag.
Qed.

(** The row of every observer after a scry is exact for the new library. *)
Lemma scry_row_ok s owner o prefix top bottom :
  hidden_ok s -> valid_player owner -> scry_valid s owner prefix top bottom -> valid_player o ->
  exists r, scry_row s owner o prefix top bottom = Some r /\
    row_ok (generation_of s) (scried_library s owner (length prefix) top bottom) r.
Proof.
  intros H Hp HV Ho. pose proof (scry_lengths _ _ _ _ _ HV) as HL.
  pose proof (scry_prefix_length _ _ _ _ _ HV) as HLe.
  assert (exists new, scry_learned s owner o prefix top bottom = Some new /\
            learned_ok s owner (length prefix) top bottom new) as (new & E & H1 & H2 & H3).
  { destruct (decide (o = owner)) as [->|Hne]; [|by apply scry_learned_other].
    destruct (scry_learned_own s owner prefix top bottom H Hp HV) as (new & ? & ? & _). by exists new. }
  unfold scry_row. rewrite E. eexists. split; [reflexivity|]. apply row_ok_learn; [|done..|].
  - apply scry_tail_ok; [by apply library_row_ok|by apply library_fits|done..].
  - intros e e' He He' Ep.
    apply (scry_tail_range s owner o (length prefix) bottom) in He; [|done..|lia].
    apply (H3 e' He'). unfold place in *. rewrite <- Ep. lia.
Qed.

Lemma apply_scry_result_ok s owner prefix top bottom :
  hidden_ok s -> valid_player owner -> scry_valid s owner prefix top bottom ->
  exists s', apply_scry_result owner prefix top bottom s = Ok s' /\ hidden_ok s' /\
    becomes s s' owner (scried_library s owner (length prefix) top bottom) (hand_of s owner)
      (fun o => known_library_cards s' o owner) (fun o => known_hand_cards s o owner) /\
    (forall o, valid_player o ->
       Some (known_library_cards s' o owner) = scry_row s owner o prefix top bottom).
Proof.
  intros H Hp HV. unfold apply_scry_result.
  rewrite decide_False by (pose proof (scry_prefix_length _ _ _ _ _ HV); lia).
  replace (try_fold _ () _) with (@Ok (Fault ScryError) () ()); [cbn|].
  2: { symmetry. apply try_fold_unit_ok. intros [p l] Hpl. apply check_scry_prefix_ok; [done..|].
       apply elem_of_enumerate in Hpl as (i & -> & Hl). by apply (scry_prefix _ _ _ _ _ HV). }
  rewrite decide_False.
  2: { intros Hne. apply Hne, sorted_objects_eq. by apply (scry_partition _ _ _ _ _ HV). }
  destruct (scry_row_ok s owner P0 prefix top bottom) as (r0 & E0 & R0); [done..|auto with kernel|].
  destruct (scry_row_ok s owner P1 prefix top bottom) as (r1 & E1 & R1); [done..|auto with kernel|].
  rewrite E0, E1. cbn. eexists. split; [reflexivity|].
  set (lib' := scried_library s owner (length prefix) top bottom) in *.
  pose proof (becomes_library_rows _ _ _ _ _ _ _
    (fun o _ => if decide (o = P0) then r0 else r1) Hp (library_becomes owner lib' s Hp)) as B.
  split_and!.
  - eapply same_hidden_ok; [apply note_observation_same|].
    eapply hidden_ok_rows; [exact H|exact Hp|exact B|done|].
    apply owner_ok_new_library; [done..|by apply scried_library_perm|].
    intros o [->| ->]; cbn; done.
  - destruct B as [B1 B2 B3 B4 B5 B6 B7 B8]. by split.
  - intros o Ho.
    transitivity (Some (if decide (o = P0) then r0 else r1)).
    + f_equal. exact (new_library_rows _ _ _ _ _ _ _ B o Ho).
    + by destruct Ho as [->| ->].
Qed.

Lemma apply_scry_result_rejects s owner prefix top bottom :
  hidden_ok s -> valid_player owner -> ~ scry_valid s owner prefix top bottom ->
  exists e, apply_scry_result owner prefix top bottom s = Err (Reject e).
Proof.
  intros H Hp HV. unfold apply_scry_result. case_decide as Hlen; [by eexists|].
  destruct (try_fold _ () _) as [[]|e] eqn:EF; cbn.
  - rewrite decide_True; [by eexists|]. intros E. apply HV. split.
    + intros i l Hl. apply (check_scry_prefix_ok s owner i l H Hp).
      rewrite try_fold_unit_ok in EF. apply EF. apply elem_of_enumerate. by exists i.
    + by apply sorted_objects_perm.
  - apply try_fold_unit_err in EF as ([p l] & Hpl & E).
    apply elem_of_enumerate in Hpl as (i & -> & Hl%lookup_lt_Some).
    destruct (check_scry_prefix_err s owner (0 + i) l e) as [e' ->]; [done|done|cbn; lia|done|].
    by eexists.
Qed.
End ScryFacts.

#[export] Instance BareRules : ObjectRules unit PlayerId := {
  v4_from_card_def _ := tt;
  v4_is_token _ := false;
  reset_for_zone_change v _ _ _ := v;
  card_def_count := 100%Z;
  card_is_token _ := false;
  has_transform_face card := bool_decide (card = 30%Z);
  initial_rest p := p;
  turn_key_v1 _ := 1%Z;
  event_history_len _ := 0;
  spellbench_neutral_choices _ := false;
  saved_card_defs _ := [];
  enters_transformed_at_night _ _ := false;
  clear_object_relations _ s := s;
  remove_from_combat _ s := s;
  entry_effects _ _ _ _ s := Some (s, false);
  stash_effects _ s := s;
  aborted_effects _ _ s := s;
  ceased_effects _ s := s;
}.

#[export] Instance BareLawful : LawfulRules unit PlayerId.
Proof.
  split; try done. by intros face id from to s s' halted [= <- <-].
Qed.

Definition toy_sha256 (message : bytes) : bytes := take 32 (message ++ replicate 32 0%Z).

Definition bare_game : GameState unit PlayerId :=
  new_from_libraries_with_starting_player_v1 [10%Z; 11%Z; 12%Z] [20%Z; 21%Z] 7%Z P0.
Definition bare_game_v2 : GameState unit PlayerId :=
  new_from_libraries_environment_v2_with_starting_player_v1 [10%Z; 11%Z; 12%Z] [20%Z; 21%Z] 7%Z P0.

(** A computation that returns, as its result. *)
Definition ok_state {E} (r : result E (GameState unit PlayerId)) : GameState unit PlayerId :=
  match r with Ok s => s | Err _ => bare_game end.
Definition some_state (r : option (GameState unit PlayerId)) : GameState unit PlayerId :=
  default bare_game r.
