(* ===== verification/LibraryShuffle.v ===== *)
(** * The shuffle transaction

    A shuffle permutes one library, clears what was known of it, advances the
    random state and touches nothing else; it fails only when a v2 owner's counter
    is exhausted. A token authorizes one shuffle of one owner: it is
    refused afterwards, and v2 tokens of the two owners commit in either
    order. The sampling transactions keep only the random state. *)

From S2P Require Import Prelude Ids Bytes Randomness RandomnessFacts Library LibraryRows LibraryFacts.
Import PlayerIds.

(** The counters and the generator are machine words. *)
Definition word (z : Z) : Prop := (0 <= z <= u64_max)%Z.

Definition random_wf (r : GameRandomnessState) : Prop :=
  match r with
  | Legacy rng => word (sm_state rng)
  | EnvironmentV2 v2 =>
      word (pair_environment_seed v2) /\ word (ordinal_p0 v2) /\ word (ordinal_p1 v2)
  end.

(** The physical owner of a valid player. *)
Definition physical (p : PlayerId) : PhysicalOwnerV2 :=
  if decide (p = P0) then PhysicalP0 else PhysicalP1.

Lemma physical_exact p : valid_player p -> physical_owner_v2_exact p = Ok (physical p).
Proof. by intros [->| ->]. Qed.

Lemma owner_exact p : valid_player p -> library_shuffle_owner p = Ok p.
Proof. by intros [->| ->]. Qed.

Lemma physical_inj p q : valid_player p -> valid_player q -> physical p = physical q -> p = q.
Proof. by intros [->| ->] [->| ->]. Qed.

Lemma ordinal_word v2 o : random_wf (EnvironmentV2 v2) -> word (next_live_shuffle_ordinal v2 o).
Proof. intros (_ & ? & ?). by destruct o. Qed.

Lemma next_set_eq v2 o n : next_live_shuffle_ordinal (set_live_shuffle_ordinal v2 o n) o = n.
Proof. by destruct o. Qed.
Lemma next_set_ne v2 o o' n : o' <> o ->
  next_live_shuffle_ordinal (set_live_shuffle_ordinal v2 o n) o' = next_live_shuffle_ordinal v2 o'.
Proof. by destruct o, o'. Qed.
Lemma seed_set v2 o n :
  pair_environment_seed (set_live_shuffle_ordinal v2 o n) = pair_environment_seed v2.
Proof. by destruct o. Qed.

Lemma random_wf_set v2 o n : random_wf (EnvironmentV2 v2) -> word n ->
  random_wf (EnvironmentV2 (set_live_shuffle_ordinal v2 o n)).
Proof. intros (? & ? & ?) ?. by destruct o. Qed.

(** A live ordinal below the last derives a seed, whose successor is a word. *)
Lemma derive_live sha256 root o n : n <> u64_max ->
  derive_environment_randomization_seed_v2 sha256 root o InGameLibraryShuffle n =
  Ok (from_be_bytes (take 8 (sha256 (substream_message root o InGameLibraryShuffle n)))).
Proof.
  intros Hn. unfold derive_environment_randomization_seed_v2.
  rewrite decide_False by done. rewrite decide_False; [done|]. by intros [? _].
Qed.

Lemma successor_live n : word n -> n <> u64_max -> checked_add_u64 n 1 = Some (n + 1)%Z.
Proof.
  unfold word, checked_add_u64, checked_unsigned. intros. destruct (_ && _) eqn:E; [done|].
  unfold u64_max in *. lia.
Qed.

Lemma successor_last : checked_add_u64 u64_max 1 = None.
Proof. reflexivity. Qed.

Section Shuffle.
Context {V4 Rest : Type} `{!ObjectRules V4 Rest} (sha256 : bytes -> bytes).
Implicit Types s : GameState V4 Rest.

(** The state a shuffle of [owner] commits. *)
Definition shuffled (owner : PlayerId) (lib : list ObjectId) (r : GameRandomnessState) s :=
  clear_library_knowledge owner (with_randomness (update_player owner (with_library lib) s) r).

(** The seed of the next shuffle of an owner. *)
Definition live_seed (v2 : GameEnvironmentRandomizationV2) (o : PhysicalOwnerV2) : Z :=
  from_be_bytes (take 8 (sha256 (substream_message (pair_environment_seed v2) o
    InGameLibraryShuffle (next_live_shuffle_ordinal v2 o)))).

Definition live_token (owner : PlayerId) (v2 : GameEnvironmentRandomizationV2) : LibraryShuffleToken :=
  let n := next_live_shuffle_ordinal v2 (physical owner) in
  MkShuffleToken owner
    (AuthorizedV2 (pair_environment_seed v2) n (n + 1) (live_seed v2 (physical owner))).

Definition advanced (owner : PlayerId) (v2 : GameEnvironmentRandomizationV2) :=
  EnvironmentV2 (set_live_shuffle_ordinal v2 (physical owner)
    (next_live_shuffle_ordinal v2 (physical owner) + 1)).

Lemma preflight_legacy owner s rng : valid_player owner -> randomness s = Legacy rng ->
  preflight_library_shuffle sha256 owner s = Ok (MkShuffleToken owner (AuthorizedLegacy rng)).
Proof.
  intros Hp Hr. unfold preflight_library_shuffle. rewrite owner_exact by done. cbn. by rewrite Hr.
Qed.

Lemma preflight_v2 owner s v2 :
  valid_player owner -> randomness s = EnvironmentV2 v2 -> random_wf (randomness s) ->
  preflight_library_shuffle sha256 owner s =
    if decide (next_live_shuffle_ordinal v2 (physical owner) = u64_max)
    then Err ExhaustedOwnerOrdinal else Ok (live_token owner v2).
Proof.
  intros Hp Hr Hw. rewrite Hr in Hw. unfold preflight_library_shuffle.
  rewrite owner_exact by done. cbn. rewrite Hr, physical_exact by done. cbn.
  pose proof (ordinal_word v2 (physical owner) Hw) as Ho. case_decide as Hn.
  - by rewrite Hn, successor_last.
  - rewrite successor_live by done. cbn. by rewrite derive_live.
Qed.

Lemma commit_legacy owner s rng t : valid_player owner -> randomness s = Legacy rng ->
  commit_library_shuffle sha256 owner (MkShuffleToken owner (AuthorizedLegacy t)) s =
    if decide (rng = t) then
      Ok (shuffled owner (fst (fisher_yates rng (library_of s owner)))
            (Legacy (snd (fisher_yates rng (library_of s owner)))) s)
    else Err TokenStateMismatch.
Proof.
  intros Hp Hr. unfold commit_library_shuffle. rewrite owner_exact by done. cbn [result_bind].
  rewrite decide_False by (cbn; congruence). rewrite Hr. cbn [authorization].
  destruct (decide (rng = t)) as [<-|Hne].
  - rewrite decide_False by congruence. by destruct (fisher_yates rng _).
  - by rewrite decide_True.
Qed.

(** A v2 token is honoured exactly by a state whose owner counter and root are
    those it was made from. *)
Lemma commit_v2 owner s v2 v2' :
  valid_player owner -> randomness s = EnvironmentV2 v2 -> random_wf (randomness s) ->
  next_live_shuffle_ordinal v2' (physical owner) <> u64_max ->
  commit_library_shuffle sha256 owner (live_token owner v2') s =
    if decide (pair_environment_seed v2 = pair_environment_seed v2' /\
               next_live_shuffle_ordinal v2 (physical owner)
               = next_live_shuffle_ordinal v2' (physical owner))
    then Ok (shuffled owner
               (shuffle_slice_in_place_v2 (live_seed v2 (physical owner)) (library_of s owner))
               (advanced owner v2) s)
    else Err TokenStateMismatch.
Proof.
  intros Hp Hr Hw Hn. rewrite Hr in Hw. unfold commit_library_shuffle.
  rewrite owner_exact by done. cbn [result_bind]. rewrite decide_False by (cbn; congruence).
  rewrite Hr. cbn [authorization live_token]. rewrite physical_exact by done. cbn [result_bind].
  destruct (decide (pair_environment_seed v2 = pair_environment_seed v2')) as [Es|Es].
  2: { rewrite decide_True by done. rewrite decide_False; [done|]. by intros [? _]. }
  rewrite decide_False by congruence.
  destruct (decide (next_live_shuffle_ordinal v2 (physical owner)
                    = next_live_shuffle_ordinal v2' (physical owner))) as [En|En].
  2: { rewrite decide_True by done. rewrite decide_False; [done|]. by intros [_ ?]. }
  rewrite (decide_False (P := next_live_shuffle_ordinal v2 _ <> _)) by congruence.
  rewrite <- Es, <- En in *.
  rewrite successor_live by (done || by apply ordinal_word). cbn [ok_or result_bind].
  rewrite decide_False by congruence. rewrite derive_live by done. cbn [from_derivation result_bind].
  rewrite decide_False by (unfold live_seed; rewrite <- Es, <- En; congruence).
  by rewrite decide_True.
Qed.

Lemma shuffle_legacy owner s rng : valid_player owner -> randomness s = Legacy rng ->
  shuffle_library sha256 owner s =
    Ok (shuffled owner (fst (fisher_yates rng (library_of s owner)))
          (Legacy (snd (fisher_yates rng (library_of s owner)))) s).
Proof.
  intros Hp Hr. unfold shuffle_library. rewrite (preflight_legacy owner s rng) by done.
  cbn [result_bind]. rewrite (commit_legacy owner s rng rng) by done. by rewrite decide_True.
Qed.

Lemma shuffle_v2 owner s v2 :
  valid_player owner -> randomness s = EnvironmentV2 v2 -> random_wf (randomness s) ->
  shuffle_library sha256 owner s =
    if decide (next_live_shuffle_ordinal v2 (physical owner) = u64_max)
    then Err ExhaustedOwnerOrdinal
    else Ok (shuffled owner
               (shuffle_slice_in_place_v2 (live_seed v2 (physical owner)) (library_of s owner))
               (advanced owner v2) s).
Proof.
  intros Hp Hr Hw. unfold shuffle_library. rewrite (preflight_v2 owner s v2) by done.
  case_decide; [done|]. cbn [result_bind]. rewrite (commit_v2 owner s v2) by done.
  by rewrite decide_True.
Qed.

(** Every shuffle has one of two outcomes. *)
Lemma shuffle_library_cases owner s : valid_player owner -> random_wf (randomness s) ->
  (exists lib r, shuffle_library sha256 owner s = Ok (shuffled owner lib r s) /\
     lib ≡ₚ library_of s owner /\
     match randomness s, r with
     | Legacy rng, Legacy rng' => (lib, rng') = fisher_yates rng (library_of s owner)
     | EnvironmentV2 v2, r =>
         next_live_shuffle_ordinal v2 (physical owner) <> u64_max /\ r = advanced owner v2 /\
         lib = shuffle_slice_in_place_v2 (live_seed v2 (physical owner)) (library_of s owner)
     | _, _ => False
     end) \/
  (shuffle_library sha256 owner s = Err ExhaustedOwnerOrdinal /\
   exists v2, randomness s = EnvironmentV2 v2 /\
     next_live_shuffle_ordinal v2 (physical owner) = u64_max).
Proof.
  intros Hp Hw. destruct (randomness s) as [rng|v2] eqn:Hr.
  - left. exists (fst (fisher_yates rng (library_of s owner))),
      (Legacy (snd (fisher_yates rng (library_of s owner)))).
    split_and!; [by apply shuffle_legacy|apply fisher_yates_perm|]. by destruct (fisher_yates rng _).
  - destruct (decide (next_live_shuffle_ordinal v2 (physical owner) = u64_max)) as [En|En].
    + right. split; [|by eexists]. rewrite (shuffle_v2 owner s v2) by (rewrite ?Hr; done).
      by rewrite decide_True.
    + left. do 2 eexists. split_and!; [|apply fisher_yates_perm|done|reflexivity|reflexivity].
      rewrite (shuffle_v2 owner s v2) by (rewrite ?Hr; done). by rewrite decide_False.
Qed.

Lemma shuffled_becomes owner lib r s : valid_player owner ->
  becomes s (shuffled owner lib r s) owner lib (hand_of s owner) (fun _ => [])
    (fun o => known_hand_cards s o owner).
Proof.
  intros Hp. eapply becomes_same; [done| |apply note_observation_same].
  apply (becomes_library_rows s _ owner lib _ (fun o => known_library_cards s o owner) _
           (fun _ _ => []) Hp).
  eapply becomes_same; [done|exact (library_becomes owner lib s Hp)|apply with_randomness_same].
Qed.

Lemma shuffled_ok owner lib r s :
  hidden_ok s -> valid_player owner -> lib ≡ₚ library_of s owner -> hidden_ok (shuffled owner lib r s).
Proof.
  intros H Hp HP. eapply hidden_ok_rows; [exact H|exact Hp|by apply shuffled_becomes|done|].
  apply owner_ok_new_library; [done..|]. intros o _. apply row_ok_nil.
Qed.

Lemma advanced_wf owner v2 : valid_player owner -> random_wf (EnvironmentV2 v2) ->
  next_live_shuffle_ordinal v2 (physical owner) <> u64_max -> random_wf (advanced owner v2).
Proof.
  intros Hp Hw Hn. apply random_wf_set; [done|].
  pose proof (ordinal_word v2 (physical owner) Hw). unfold word in *. lia.
Qed.

Lemma next_u64_word rng : word (sm_state (fst (next_u64 rng))).
Proof. rewrite next_u64_state. unfold word, wrap_u64, u64_max.
  pose proof (Z.mod_pos_bound (sm_state rng + gamma) 18446744073709551616). lia. Qed.

Lemma steps_word n : forall rng, word (sm_state rng) -> word (sm_state (steps n rng)).
Proof. induction n as [|n IH]; intros rng Hw; [done|]. apply IH, next_u64_word. Qed.

Lemma shuffle_library_random_wf owner s s' :
  valid_player owner -> random_wf (randomness s) ->
  shuffle_library sha256 owner s = Ok s' -> random_wf (randomness s').
Proof.
  intros Hp Hw E. destruct (shuffle_library_cases owner s Hp Hw) as [(lib & r & E' & _ & Hr)|[E' _]];
    rewrite E' in E; [|done]. injection E as <-. change (random_wf r).
  destruct (randomness s) as [rng|v2].
  - destruct r as [rng'|]; [|done]. unfold fisher_yates in Hr.
    pose proof (f_equal snd Hr) as Es. cbn in Es. rewrite shuffle_down_steps in Es. subst.
    by apply steps_word.
  - destruct Hr as (Hn & -> & _). by apply advanced_wf.
Qed.
End Shuffle.

(* ------------------------------------------------------------------ *)
(** ** Sampling *)

Section Sampling.
Context {V4 Rest : Type} `{!ObjectRules V4 Rest} (sha256 : bytes -> bytes).
Implicit Types s : GameState V4 Rest.

(** A shuffle of a projection: the sampled order and the random state. *)
Lemma shuffle_projection_cases owner cards s : valid_player owner -> random_wf (randomness s) ->
  (exists s', shuffle_projection sha256 owner cards s = Ok s' /\ library_of s' owner ≡ₚ cards /\
     random_wf (randomness s')) \/
  (shuffle_projection sha256 owner cards s = Err ExhaustedOwnerOrdinal /\
   exists v2, randomness s = EnvironmentV2 v2 /\
     next_live_shuffle_ordinal v2 (physical owner) = u64_max).
Proof.
  intros Hp Hw. unfold shuffle_projection.
  pose proof (library_becomes owner cards s Hp) as B0.
  destruct (shuffle_library_cases sha256 owner (update_player owner (with_library cards) s) Hp Hw)
    as [(lib & r & E & HP & _)|[E Hv]]; [left|by right].
  eexists. split_and!; [exact E| |].
  - pose proof (new_library _ _ _ _ _ _ _ B0) as E0. rewrite E0 in HP.
    pose proof (shuffled_becomes owner lib r (update_player owner (with_library cards) s) Hp) as B1.
    pose proof (new_library _ _ _ _ _ _ _ B1) as E1. rewrite E1. exact HP.
  - apply shuffle_library_random_wf in E; [exact E|exact Hp|exact Hw].
Qed.

(** Sampling returns a candidate, and touches the random state only; it is
    deterministic, and free, with fewer than two candidates. *)
Lemma sample_card_cases owner cards s : valid_player owner -> random_wf (randomness s) ->
  match sample_card sha256 owner cards s with
  | Ok (chosen, s') =>
      s' = with_randomness s (randomness s') /\ random_wf (randomness s') /\
      (chosen = None <-> cards = []) /\ (forall id, chosen = Some id -> id ∈ cards) /\
      (length cards < 2 -> s' = s)
  | Err e => e = ExhaustedOwnerOrdinal /\ 2 <= length cards /\
      exists v2, randomness s = EnvironmentV2 v2 /\
        next_live_shuffle_ordinal v2 (physical owner) = u64_max
  end.
Proof.
  intros Hp Hw. unfold sample_card. case_decide as Hlen.
  - split_and!; [by destruct s|done| | |done].
    + by destruct cards.
    + intros id. destruct cards as [|x cards]; [done|]. intros [= ->]. by left.
  - destruct (shuffle_projection_cases owner cards s Hp Hw) as [(s' & -> & HP & Hr)|[-> Hv]]; cbn.
    + pose proof (Permutation_length HP) as HL.
      destruct (library_of s' owner) as [|x l]; [cbn in HL; lia|]. cbn.
      split_and!; [done|done| | |lia].
      * split; [done|]. intros ->. cbn in Hlen. lia.
      * intros id [= ->]. rewrite <- HP. by left.
    + split_and!; [done|lia|done].
Qed.

Lemma filter_cards_some s f l ids : filter_cards s f l = Some ids ->
  forall id, id ∈ ids <-> id ∈ l /\ exists card, get s id = Some card /\ f card = true.
Proof.
  revert ids. induction l as [|x l IH]; cbn; intros ids E.
  { injection E as <-. intros id. split; [by intros ?%not_elem_of_nil|].
    by intros [?%not_elem_of_nil _]. }
  destruct (get s x) as [card|] eqn:Ex; [|done]. cbn in E.
  destruct (foldr _ _ l) as [ids'|] eqn:E'; [|done]. cbn in E. injection E as <-.
  intros id. specialize (IH ids' E' id). rewrite elem_of_cons.
  destruct (f card) eqn:Ef; [rewrite elem_of_cons|]; rewrite IH; split.
  - intros [->|[? ?]]; [split; [by left|by exists card]|split; [by right|done]].
  - intros [[->|?] ?]; [by left|by right].
  - intros [? ?]. split; [by right|done].
  - intros [[->|?] (c & Ec & Ht)]; [congruence|]. split; [done|by exists c].
Qed.
End Sampling.

(** Of two candidates the second survives an odd draw. *)
Lemma fisher_yates_two {A} rng (x y : A) :
  fst (fisher_yates rng [x; y]) = if Z.odd (snd (next_u64 rng)) then [x; y] else [y; x].
Proof.
  unfold fisher_yates. cbn -[next_u64]. destruct (next_u64 rng) as [rng' u]. cbn.
  rewrite Zmod_odd. by destruct (Z.odd u).
Qed.

(** The generator a flip draws from. *)
Definition coin_rng {V4 Rest} (sha256 : bytes -> bytes) (player : PlayerId)
    (s : GameState V4 Rest) : SplitMix64 :=
  match randomness s with
  | Legacy rng => rng
  | EnvironmentV2 v2 => SplitMix64_seed (live_seed sha256 v2 (physical player))
  end.

Lemma flip_coin_cases {V4 Rest} `{!ObjectRules V4 Rest} sha256 player (s : GameState V4 Rest) :
  valid_player player -> random_wf (randomness s) ->
  match flip_coin_v1 sha256 player s with
  | Ok (won, s') => s' = with_randomness s (randomness s') /\
      won = Z.odd (snd (next_u64 (coin_rng sha256 player s)))
  | Err e => e = ExhaustedOwnerOrdinal
  end.
Proof.
  intros Hp Hw. unfold flip_coin_v1. rewrite owner_exact by done. cbn [result_bind].
  unfold shuffle_projection.
  set (sp := update_player player (with_library [MkObjectId 0; MkObjectId 1]) s).
  assert (library_of sp player = [MkObjectId 0; MkObjectId 1]) as EL.
  { exact (new_library _ _ _ _ _ _ _ (library_becomes player _ s Hp)). }
  destruct (shuffle_library_cases sha256 player sp Hp Hw) as [(lib & r & -> & _ & Hr)|[-> _]]; [|done].
  cbn [result_bind]. split; [done|].
  pose proof (shuffled_becomes player lib r sp Hp) as B.
  pose proof (new_library _ _ _ _ _ _ _ B) as E1. rewrite E1.
  assert (lib = fst (fisher_yates (coin_rng sha256 player s) [MkObjectId 0; MkObjectId 1])) as ->.
  { unfold coin_rng. change (randomness sp) with (randomness s) in Hr. rewrite EL in Hr.
    destruct (randomness s) as [rng|v2].
    - destruct r; [|done]. by rewrite <- Hr.
    - by destruct Hr as (_ & _ & ->). }
  rewrite fisher_yates_two. by destruct (Z.odd _).
Qed.

(* ------------------------------------------------------------------ *)
(** ** Tokens *)

Section Tokens.
Context {V4 Rest : Type} `{!ObjectRules V4 Rest} (sha256 : bytes -> bytes).
Implicit Types s : GameState V4 Rest.

Lemma preflight_owner owner t s : valid_player owner ->
  preflight_library_shuffle sha256 owner s = Ok t -> token_owner t = owner.
Proof.
  intros Hp E. unfold preflight_library_shuffle in E. rewrite owner_exact in E by done.
  cbn [result_bind] in E. apply result_bind_ok in E as (a & _ & [= <-]). done.
Qed.

Lemma token_of_other_owner owner t s : valid_player owner ->
  preflight_library_shuffle sha256 owner s = Ok t ->
  commit_library_shuffle sha256 (opponent owner) t s = Err CallerOwnerMismatch.
Proof.
  intros Hp E. apply preflight_owner in E; [|done]. unfold commit_library_shuffle.
  rewrite owner_exact by by apply opponent_valid. cbn [result_bind]. rewrite decide_True; [done|].
  rewrite E. by destruct Hp as [->| ->].
Qed.

Lemma legacy_rng_some s rng : legacy_rng s = Some rng -> randomness s = Legacy rng.
Proof. unfold legacy_rng. destruct (randomness s); congruence. Qed.
Lemma environment_v2_some s v2 :
  environment_randomization_v2 s = Some v2 -> randomness s = EnvironmentV2 v2.
Proof. unfold environment_randomization_v2. destruct (randomness s); congruence. Qed.

Lemma legacy_token_expires owner t s s1 rng :
  random_wf (randomness s) -> legacy_rng s = Some rng -> valid_player owner ->
  2 <= length (library_of s owner) -> (Z.of_nat (length (library_of s owner)) <= u64_max)%Z ->
  preflight_library_shuffle sha256 owner s = Ok t ->
  commit_library_shuffle sha256 owner t s = Ok s1 ->
  commit_library_shuffle sha256 owner t s1 = Err TokenStateMismatch.
Proof.
  intros Hw Hr%legacy_rng_some Hp H2 Hmax Hpre Hc. rewrite Hr in Hw.
  rewrite (preflight_legacy sha256 owner s rng) in Hpre by done. injection Hpre as <-.
  rewrite (commit_legacy sha256 owner s rng rng Hp Hr), decide_True in Hc by done.
  injection Hc as <-.
  rewrite (commit_legacy sha256 owner _ (snd (fisher_yates rng (library_of s owner))) rng) by done.
  rewrite decide_False; [done|]. unfold fisher_yates. rewrite shuffle_down_steps.
  apply steps_never_return; [exact Hw|lia|lia].
Qed.

Lemma v2_token_expires owner t s s1 v2 :
  random_wf (randomness s) -> environment_randomization_v2 s = Some v2 -> valid_player owner ->
  preflight_library_shuffle sha256 owner s = Ok t ->
  commit_library_shuffle sha256 owner t s = Ok s1 ->
  commit_library_shuffle sha256 owner t s1 = Err TokenStateMismatch.
Proof.
  intros Hw Hr%environment_v2_some Hp Hpre Hc.
  rewrite (preflight_v2 sha256 owner s v2) in Hpre by done. case_decide as Hn; [done|].
  injection Hpre as <-. rewrite (commit_v2 sha256 owner s v2 v2), decide_True in Hc by done.
  injection Hc as <-. rewrite Hr in Hw.
  rewrite (commit_v2 sha256 owner _ (set_live_shuffle_ordinal v2 (physical owner)
    (next_live_shuffle_ordinal v2 (physical owner) + 1)%Z) v2);
    [|done|done|by apply advanced_wf|done].
  rewrite decide_False; [done|]. rewrite next_set_eq. lia.
Qed.

Lemma v2_tokens_commute s v2 t0 t1 :
  random_wf (randomness s) -> environment_randomization_v2 s = Some v2 ->
  preflight_library_shuffle sha256 P0 s = Ok t0 ->
  preflight_library_shuffle sha256 P1 s = Ok t1 ->
  exists s0 s1 s01 s10,
    commit_library_shuffle sha256 P0 t0 s = Ok s0 /\
    commit_library_shuffle sha256 P1 t1 s0 = Ok s01 /\
    commit_library_shuffle sha256 P1 t1 s = Ok s1 /\
    commit_library_shuffle sha256 P0 t0 s1 = Ok s10 /\
    with_journal s01 [] = with_journal s10 [].
Proof.
  intros Hw Hr%environment_v2_some H0 H1.
  rewrite (preflight_v2 sha256 P0 s v2) in H0 by auto with kernel. case_decide as N0; [done|].
  rewrite (preflight_v2 sha256 P1 s v2) in H1 by auto with kernel. case_decide as N1; [done|].
  injection H0 as <-. injection H1 as <-. pose proof Hw as Hw'. rewrite Hr in Hw'.
  do 4 eexists. split_and!.
  - rewrite (commit_v2 sha256 P0 s v2 v2) by auto with kernel. by rewrite decide_True.
  - rewrite (commit_v2 sha256 P1 _ (set_live_shuffle_ordinal v2 PhysicalP0
      (next_live_shuffle_ordinal v2 PhysicalP0 + 1)%Z) v2);
      [|auto with kernel|done|exact (advanced_wf P0 v2 valid_P0 Hw' N0)|done].
    by rewrite decide_True.
  - rewrite (commit_v2 sha256 P1 s v2 v2) by auto with kernel. by rewrite decide_True.
  - rewrite (commit_v2 sha256 P0 _ (set_live_shuffle_ordinal v2 PhysicalP1
      (next_live_shuffle_ordinal v2 PhysicalP1 + 1)%Z) v2);
      [|auto with kernel|done|exact (advanced_wf P1 v2 valid_P1 Hw' N1)|done].
    by rewrite decide_True.
  - destruct s as [? [[] []] ? ? ? [[] []] ? ? ? ?]. destruct v2. reflexivity.
Qed.
End Tokens.

(* ------------------------------------------------------------------ *)
(** ** Properties *)

Section Properties.
Context {V4 Rest : Type} `{!ObjectRules V4 Rest} (sha256 : bytes -> bytes).
Implicit Types s : GameState V4 Rest.

(** A shuffle in either mode permutes the owner's library, clears every
    observer's facts about it, advances the random state (the generator, or
    exactly the owner's counter by one) and leaves everything else as it was:
    the other library and the facts about it, hands, graveyards, battlefields,
    stack, exile and every object. It fails only when a v2 owner's counter is
    exhausted. *)
Theorem shuffle_changes_one_library owner s :
  valid_player owner -> random_wf (randomness s) ->
  match shuffle_library sha256 owner s with
  | Ok s' =>
      library_of s' owner ≡ₚ library_of s owner /\
      (forall o, valid_player o -> known_library_cards s' o owner = []) /\
      (forall o p, valid_player o -> valid_player p -> p <> owner ->
         library_of s' p = library_of s p /\
         known_library_cards s' o p = known_library_cards s o p) /\
      (forall p, valid_player p -> hand_of s' p = hand_of s p /\
         graveyard (seat (players s') p) = graveyard (seat (players s) p) /\
         battlefield (seat (players s') p) = battlefield (seat (players s) p)) /\
      hand_knowledge s' = hand_knowledge s /\ objects s' = objects s /\ stack s' = stack s /\
      exile s' = exile s /\ command s' = command s /\ rest s' = rest s /\
      match randomness s with
      | Legacy rng => randomness s' = Legacy (snd (fisher_yates rng (library_of s owner)))
      | EnvironmentV2 v2 => randomness s' = EnvironmentV2 (set_live_shuffle_ordinal v2
          (physical owner) (next_live_shuffle_ordinal v2 (physical owner) + 1)%Z)
      end
  | Err e => e = ExhaustedOwnerOrdinal /\ exists v2, randomness s = EnvironmentV2 v2 /\
      next_live_shuffle_ordinal v2 (physical owner) = u64_max
  end.
Proof.
  intros Hp Hw.
  destruct (shuffle_library_cases sha256 owner s Hp Hw) as [(lib & r & -> & HP & Hr)|[-> Hv]]; [|done].
  pose proof (shuffled_becomes owner lib r s Hp) as B.
  split_and!; try reflexivity.
  - by rewrite (new_library _ _ _ _ _ _ _ B).
  - intros o Ho. exact (new_library_rows _ _ _ _ _ _ _ B o Ho).
  - intros o p Ho Hq Hne. split; [exact (other_library _ _ _ _ _ _ _ B p Hq Hne)|].
    exact (other_library_rows _ _ _ _ _ _ _ B o p Ho Hq Hne).
  - seats; done.
  - destruct (randomness s), r; try done; cbn in *; [|by destruct Hr as (_ & -> & _)..].
    by rewrite <- Hr.
Qed.

(** A token authorizes one shuffle of one owner. Whoever presents it for
    the other owner is refused; once committed it is refused forever after
    (in legacy mode, where it names the generator, once the
    library had two cards to shuffle). In v2 mode tokens of the two owners made
    from the same state commit in either order, to the same state. *)
Theorem shuffle_tokens_are_single_use s :
  random_wf (randomness s) ->
  (forall owner t s1, valid_player owner ->
     preflight_library_shuffle sha256 owner s = Ok t ->
     commit_library_shuffle sha256 owner t s = Ok s1 ->
     commit_library_shuffle sha256 (opponent owner) t s = Err CallerOwnerMismatch /\
     (is_Some (legacy_rng s) -> 2 <= length (library_of s owner) ->
      (Z.of_nat (length (library_of s owner)) <= u64_max)%Z ->
      commit_library_shuffle sha256 owner t s1 = Err TokenStateMismatch) /\
     (is_Some (environment_randomization_v2 s) ->
      commit_library_shuffle sha256 owner t s1 = Err TokenStateMismatch)) /\
  (forall t0 t1, is_Some (environment_randomization_v2 s) ->
     preflight_library_shuffle sha256 P0 s = Ok t0 ->
     preflight_library_shuffle sha256 P1 s = Ok t1 ->
     exists s0 s1 s01 s10,
       commit_library_shuffle sha256 P0 t0 s = Ok s0 /\
       commit_library_shuffle sha256 P1 t1 s0 = Ok s01 /\
       commit_library_shuffle sha256 P1 t1 s = Ok s1 /\
       commit_library_shuffle sha256 P0 t0 s1 = Ok s10 /\
       with_journal s01 [] = with_journal s10 []).
Proof.
  intros Hw. split.
  - intros owner t s1 Hp Hpre Hc. split; [|split].
    + by apply (token_of_other_owner sha256 owner t s).
    + intros [rng Hr] Hlen Hmax. by apply (legacy_token_expires sha256 owner t s s1 rng).
    + intros [v2 Hr]. by apply (v2_token_expires sha256 owner t s s1 v2).
  - intros t0 t1 [v2 Hr]. by apply (v2_tokens_commute sha256 s v2).
Qed.

(** Choosing a random card of a hand or graveyard and flipping a coin change
    nothing but the random state. A choice is one of the cards that qualify,
    is missing exactly when there is none, and draws nothing when there
    is no alternative; a flip is won exactly on an odd draw. *)
Theorem sampling_changes_only_randomness player s :
  valid_player player -> random_wf (randomness s) ->
  (forall chosen s', random_hand_card_v1 sha256 player s = Ok (chosen, s') ->
     s' = with_randomness s (randomness s') /\
     (forall id, chosen = Some id -> id ∈ hand_of s player) /\
     (chosen = None <-> forall id card, id ∈ hand_of s player -> get s id = Some card ->
        ~ (zone card = Zone.Hand /\ owner card = player))) /\
  (forall chosen s', random_graveyard_card_v1 sha256 player s = Ok (chosen, s') ->
     s' = with_randomness s (randomness s') /\
     (forall id, chosen = Some id -> id ∈ graveyard (seat (players s) player) /\
        exists card, get s id = Some card /\ zone card = Zone.Graveyard /\
          owner card = player /\ v4_is_token (v4 card) = false /\
          card_is_token (card_def card) = false /\ spell_copied card = false)) /\
  match flip_coin_v1 sha256 player s with
  | Ok (won, s') => s' = with_randomness s (randomness s') /\
      won = Z.odd (snd (next_u64 (coin_rng sha256 player s)))
  | Err e => e = ExhaustedOwnerOrdinal
  end.
Proof.
  intros Hp Hw. split; [|split; [|by apply flip_coin_cases]]; intros chosen s' E.
  - unfold random_hand_card_v1 in E. rewrite owner_exact in E by done. cbn [from_reject result_bind] in E.
    destruct (filter_cards s _ _) as [cards|] eqn:EF; [cbn in E|done].
    pose proof (filter_cards_some s _ _ _ EF) as HF.
    pose proof (sample_card_cases sha256 player cards s Hp Hw) as HS.
    destruct (sample_card _ _ _ _) as [[c s1]|]; [|done]. injection E as -> ->.
    destruct HS as (? & _ & HN & HI & _). split_and!; [done|..].
    + intros id Hid. by apply HF, HI.
    + rewrite HN. split.
      * intros -> id card Hid Hget [Hz Ho]. apply (not_elem_of_nil id), HF.
        split; [done|]. exists card. split; [done|]. rewrite !bool_decide_true by done. done.
      * intros Hnone. destruct cards as [|x cards]; [done|].
        destruct (proj1 (HF x)) as (Hx & card & Hget & Hb); [by left|].
        apply andb_true_iff in Hb as [?%bool_decide_eq_true ?%bool_decide_eq_true].
        by destruct (Hnone x card Hx Hget).
  - unfold random_graveyard_card_v1 in E. rewrite owner_exact in E by done.
    cbn [from_reject result_bind] in E.
    destruct (filter_cards s _ _) as [cards|] eqn:EF; [cbn in E|done].
    pose proof (filter_cards_some s _ _ _ EF) as HF.
    pose proof (sample_card_cases sha256 player cards s Hp Hw) as HS.
    destruct (sample_card _ _ _ _) as [[c s1]|]; [|done]. injection E as -> ->.
    destruct HS as (? & _ & _ & HI & _). split; [done|]. intros id Hid.
    destruct (proj1 (HF id) (HI id Hid)) as (? & card & ? & Hb). split; [done|]. exists card.
    rewrite !andb_true_iff, !negb_true_iff, !bool_decide_eq_true in Hb. tauto.
Qed.
End Properties.

Lemma shuffle_changes_one_library_witness :
  random_wf (randomness bare_game_v2) /\
  match shuffle_library toy_sha256 P0 bare_game_v2 with
  | Ok s' => library_of s' P0 ≡ₚ library_of bare_game_v2 P0
  | Err _ => False
  end.
Proof.
  assert (random_wf (randomness bare_game_v2)) as Hw by (repeat split; vm_compute; discriminate).
  split; [exact Hw|].
  pose proof (shuffle_changes_one_library toy_sha256 P0 bare_game_v2 valid_P0 Hw) as K.
  destruct (shuffle_library toy_sha256 P0 bare_game_v2) as [s'|e].
  - exact (proj1 K).
  - destruct K as (_ & v2 & E & F). injection E as <-. vm_compute in F. discriminate F.
Defined.

Lemma shuffle_tokens_are_single_use_witness :
  exists t s1, preflight_library_shuffle toy_sha256 P0 bare_game_v2 = Ok t /\
    commit_library_shuffle toy_sha256 P0 t bare_game_v2 = Ok s1 /\
    commit_library_shuffle toy_sha256 P1 t bare_game_v2 = Err CallerOwnerMismatch /\
    commit_library_shuffle toy_sha256 P0 t s1 = Err TokenStateMismatch.
Proof.
  assert (random_wf (randomness bare_game_v2)) as Hw by (repeat split; vm_compute; discriminate).
  destruct (preflight_library_shuffle toy_sha256 P0 bare_game_v2) as [t|e] eqn:Et;
    [|vm_compute in Et; discriminate Et].
  destruct (commit_library_shuffle toy_sha256 P0 t bare_game_v2) as [s1|e] eqn:Es;
    [|injection Et as <-; vm_compute in Es; discriminate Es].
  destruct (proj1 (shuffle_tokens_are_single_use toy_sha256 bare_game_v2 Hw) P0 t s1 valid_P0 Et Es)
    as (K1 & _ & K2).
  exists t, s1. split; [reflexivity|split; [exact Es|split; [exact K1|]]].
  apply K2. vm_compute. eexists. reflexivity.
Defined.

Lemma sampling_changes_only_randomness_witness :
  exists s', random_hand_card_v1 toy_sha256 P0 bare_game = Ok (None, s') /\
    s' = with_randomness bare_game (randomness s').
Proof.
  assert (random_wf (randomness bare_game)) as Hw by (repeat split; vm_compute; discriminate).
  destruct (random_hand_card_v1 toy_sha256 P0 bare_game) as [[c s']|e] eqn:E;
    [|vm_compute in E; discriminate E].
  assert (c = None) as -> by (vm_compute in E; by injection E).
  exists s'. split; [reflexivity|].
  exact (proj1 (proj1 (sampling_changes_only_randomness toy_sha256 P0 bare_game valid_P0 Hw) None s' E)).
Defined.
