(* ===== verification/LibraryMoves.v ===== *)
(** * Cards entering and leaving hidden zones

    Every zone change keeps the invariant of LibraryFacts, and of the panics on its
    way only two can happen, that of an undefined face and those of the code for what
    enters the battlefield: the removal and the arrival each keep the facts about the
    other cards exact, every object is of a card of the table, and the reveals that end
    it are about cards that are there. *)

From S2P Require Import Prelude Ids Bytes Randomness RandomnessFacts Library LibraryRows LibraryFacts.
Import PlayerIds.

(* ------------------------------------------------------------------ *)
(** ** Lists *)

Lemma index_of_some id l at_ : index_of id l = Some at_ <->
  l !! at_ = Some id /\ forall j, j < at_ -> l !! j <> Some id.
Proof.
  unfold index_of. rewrite fmap_Some. split.
  - intros ([j x] & Hf & ->). apply list_find_Some in Hf as (Hl & -> & Hlt). cbn.
    split; [done|]. intros k Hk E. exact (Hlt k id E Hk eq_refl).
  - intros [Hl Hlt]. exists (at_, id). split; [|done]. apply list_find_Some.
    split_and!; [done|done|]. intros j y Hy Hj ->. exact (Hlt j Hj Hy).
Qed.

Lemma index_of_elem id l : id ∈ l -> exists at_, index_of id l = Some at_ /\ at_ < length l.
Proof.
  intros Hin. unfold index_of. destruct (list_find (fun x => x = id) l) as [[j x]|] eqn:E.
  - exists j. split; [done|]. apply list_find_Some in E as (Hl & _ & _). by eapply lookup_lt_Some.
  - apply list_find_None in E. rewrite Forall_forall in E. by destruct (E id Hin).
Qed.

Lemma index_of_none id l : id ∉ l -> index_of id l = None.
Proof.
  intros Hni. destruct (index_of id l) as [j|] eqn:E; [|done].
  apply index_of_some in E as [Hl _]. destruct Hni. by eapply list_elem_of_lookup_2.
Qed.

Lemma drop_from_absent id l : id ∉ l -> drop_from id l = l.
Proof.
  unfold drop_from. induction l as [|x l IH]; [done|]. intros [Hx Hl]%not_elem_of_cons.
  rewrite filter_cons_True by congruence. by rewrite IH.
Qed.

(** Without repetitions [retain] removes exactly the first occurrence. *)
Lemma drop_from_delete id l at_ :
  NoDup l -> index_of id l = Some at_ -> drop_from id l = delete at_ l.
Proof.
  intros Hnd H. apply index_of_some in H as [Hl _]. rewrite delete_take_drop.
  pose proof (take_drop_middle l at_ id Hl) as E. rewrite <- E in Hnd.
  apply NoDup_app in Hnd as (_ & Hd & Hnd). apply NoDup_cons in Hnd as [Hni _].
  rewrite <- E at 1. unfold drop_from.
  rewrite filter_app, filter_cons_False by (intros H; by apply H).
  f_equal; apply drop_from_absent; [|done]. intros Hid. apply (Hd id Hid). by left.
Qed.

Lemma elem_of_drop_from id l x : x ∈ drop_from id l <-> x ∈ l /\ x <> id.
Proof. unfold drop_from. rewrite list_elem_of_filter. tauto. Qed.

Lemma NoDup_drop_from id l : NoDup l -> NoDup (drop_from id l).
Proof. apply NoDup_filter. Qed.

Lemma elem_of_insert_at {A} i (x y : A) l : y ∈ insert_at i x l <-> y = x \/ y ∈ l.
Proof.
  unfold insert_at. rewrite elem_of_app, elem_of_cons. rewrite <- (take_drop i l) at 3.
  rewrite elem_of_app. tauto.
Qed.

Lemma NoDup_insert_at {A} i (x : A) l : x ∉ l -> NoDup l -> NoDup (insert_at i x l).
Proof.
  intros Hni Hnd. unfold insert_at. rewrite <- Permutation_middle, take_drop.
  by constructor.
Qed.

Lemma index_of_insert_at id l i : id ∉ l -> i <= length l -> index_of id (insert_at i id l) = Some i.
Proof.
  intros Hni Hi. apply index_of_some. unfold insert_at. split.
  - rewrite lookup_app_r; rewrite length_take; [|lia].
    by replace (i - i `min` length l) with 0 by lia.
  - intros j Hj E. rewrite lookup_app_l in E by (rewrite length_take; lia).
    apply Hni. rewrite lookup_take_lt in E by done. by eapply list_elem_of_lookup_2.
Qed.

Lemma insertion_index_le placement n : insertion_index placement n <= n.
Proof. destruct placement; unfold insertion_index; lia. Qed.

(** Distinct [u32] ids are few enough for [u32] positions. *)
Lemma ids_fit l : NoDup l -> (forall id, id ∈ l -> (0 <= object_num id <= u32_max)%Z) -> fits l.
Proof.
  intros Hnd Hl. apply (zone_ok_fits (fun _ => Some (P0, Zone.Library, 0%Z)) P0 Zone.Library).
  split; [done|]. intros id Hid. split; [by apply Hl|by eexists].
Qed.

(* ------------------------------------------------------------------ *)
(** ** Identities *)

Section Idents.
Context {V4 Rest : Type} `{!ObjectRules V4 Rest}.
Implicit Types s : GameState V4 Rest.

(** An [ObjectId] is a [u32]. *)
Definition is_u32 (id : ObjectId) : Prop := (0 <= object_num id <= u32_max)%Z.

(** Every object has one of the two players as owner, and a card of the table. *)
Definition owners_valid s : Prop :=
  (forall id p z g, ident s id = Some (p, z, g) -> valid_player p) /\ tabled s.

Definition state_ok s : Prop := hidden_ok s /\ owners_valid s.

(** The object is in no library and no hand. *)
Definition away s (id : ObjectId) : Prop :=
  forall p, valid_player p -> (id ∉ library_of s p) /\ (id ∉ hand_of s p).

Lemma kept_owners s s' : kept s s' -> owners_valid s -> owners_valid s'.
Proof.
  intros [H HT] [Ho Ht]. split; [|auto]. intros id p z g E. rewrite (same_ident _ _ H) in E. by eapply Ho.
Qed.

Lemma kept_state s s' : kept s s' -> state_ok s -> state_ok s'.
Proof. intros H [H1 H2]. split; [by eapply same_hidden_ok, H1; apply H|by eapply kept_owners]. Qed.

(** A change of the zones and the facts alone. *)
Lemma zones_kept s s' : same_hidden s s' -> objects s' = objects s -> rest s' = rest s -> kept s s'.
Proof. intros H Eo Er. split; [done|by apply tabled_same]. Qed.

Lemma objects_owners s s' : objects s' = objects s /\ rest s' = rest s -> owners_valid s -> owners_valid s'.
Proof.
  intros [E Er] [Hv Ht]. split; [|by eapply tabled_same].
  intros id p z g Ei. unfold ident, get in Ei. rewrite E in Ei. by eapply Hv.
Qed.

Lemma card_in_table s id o : owners_valid s -> get s id = Some o -> in_table (card_def o).
Proof. intros [_ [Ht _]]. apply Ht. Qed.

Lemma same_hidden_away s s' id : same_hidden s s' -> away s id -> away s' id.
Proof.
  intros H Ha p Hp. rewrite (same_library _ _ H), (same_hand _ _ H) by done. by apply Ha.
Qed.

Lemma library_lives s p id : hidden_ok s -> valid_player p -> id ∈ library_of s p ->
  lives (ident s) p Zone.Library id.
Proof. intros H Hp Hid. destruct (H p Hp) as [[_ HL] _ _ _ _]. by apply HL. Qed.

Lemma hand_lives s p id : hidden_ok s -> valid_player p -> id ∈ hand_of s p ->
  lives (ident s) p Zone.Hand id.
Proof. intros H Hp Hid. destruct (H p Hp) as [_ [_ HL] _ _ _]. by apply HL. Qed.

Lemma ident_get s id o : get s id = Some o ->
  ident s id = Some (owner o, zone o, zone_change_count o).
Proof. unfold ident. by intros ->. Qed.

Lemma ident_some s id p z g : ident s id = Some (p, z, g) ->
  exists o, get s id = Some o /\ owner o = p /\ zone o = z /\ zone_change_count o = g.
Proof.
  unfold ident. destruct (get s id) as [o|]; [|done]. intros [= <- <- <-]. by exists o.
Qed.

(** An object that is in no hidden zone by its marker or owner is away. *)
Lemma in_library_owner s p id o : hidden_ok s -> valid_player p -> get s id = Some o ->
  id ∈ library_of s p -> owner o = p /\ zone o = Zone.Library.
Proof.
  intros H Hp E Hid. destruct (library_lives s p id H Hp Hid) as (_ & g & Eg).
  rewrite (ident_get s id o E) in Eg. by injection Eg.
Qed.

Lemma in_hand_owner s p id o : hidden_ok s -> valid_player p -> get s id = Some o ->
  id ∈ hand_of s p -> owner o = p /\ zone o = Zone.Hand.
Proof.
  intros H Hp E Hid. destruct (hand_lives s p id H Hp Hid) as (_ & g & Eg).
  rewrite (ident_get s id o E) in Eg. by injection Eg.
Qed.

(** [enter_zone] and [update_object] change the identity of one object. *)
Lemma update_object_some s id o f : get s id = Some o ->
  exists s', update_object id f s = Some s' /\ get s' id = Some (f o) /\
    (forall x, is_u32 x -> is_u32 id -> x <> id -> ident s' x = ident s x) /\
    s' = with_objects s (objects s').
Proof.
  intros E. unfold update_object. rewrite E. cbn. eexists. split; [reflexivity|].
  unfold get, Arena.try_get, Arena.update in *. cbn. split_and!.
  - rewrite list_lookup_alter, decide_True by done. by rewrite E.
  - intros x Hx Hid Hne. unfold ident, get, Arena.try_get, Arena.update. cbn.
    rewrite list_lookup_alter_ne; [done|]. unfold Arena.index. intros En. apply Hne.
    apply object_num_inj. unfold is_u32 in *. lia.
  - done.
Qed.

Lemma with_objects_becomes s os p :
  becomes s (with_objects s os) p (library_of s p) (hand_of s p)
    (fun o => known_library_cards s o p) (fun o => known_hand_cards s o p).
Proof. by split. Qed.

Lemma ident_update_owner s s' id o f :
  get s id = Some o -> update_object id f s = Some s' -> owner (f o) = owner o ->
  card_def (f o) = card_def o -> owners_valid s -> owners_valid s'.
Proof.
  intros E Eu Ef Ec [Hv [Ht Hsv]]. unfold update_object in Eu. rewrite E in Eu. cbn in Eu.
  injection Eu as <-. split; [intros x p z g Ex|split; [intros x o' Ex|exact Hsv]];
    unfold ident, get, Arena.try_get, Arena.update in Ex, E; cbn in Ex;
    rewrite list_lookup_alter in Ex; case_decide as Ei.
  - rewrite E in Ex. cbn in Ex. injection Ex as Eo _ _. rewrite Ef in Eo. subst p.
    eapply Hv. apply (ident_get s id o). exact E.
  - by eapply Hv.
  - rewrite E in Ex. cbn in Ex. injection Ex as <-. rewrite Ec. by apply (Ht id).
  - by apply (Ht x).
Qed.
End Idents.

(* ------------------------------------------------------------------ *)
(** ** Leaving *)

Section Leaving.
Context {V4 Rest : Type} `{!ObjectRules V4 Rest}.
Implicit Types s : GameState V4 Rest.

Lemma forget_library id s : forall p, valid_player p ->
  library_of (forget_hand_object id s) p = library_of s p.
Proof. done. Qed.
Lemma forget_hand id s : forall p, valid_player p ->
  hand_of (forget_hand_object id s) p = hand_of s p.
Proof. done. Qed.
Lemma forget_library_rows id s : forall o p, valid_player o -> valid_player p ->
  known_library_cards (forget_hand_object id s) o p = known_library_cards s o p.
Proof. done. Qed.
Lemma forget_hand_rows id s : forall o p, valid_player o -> valid_player p ->
  known_hand_cards (forget_hand_object id s) o p
  = filter (fun e => hk_object e <> id) (known_hand_cards s o p).
Proof. seats; reflexivity. Qed.
Lemma forget_ident id s x : ident (forget_hand_object id s) x = ident s x.
Proof. done. Qed.

(** Cards other than [id] are where they were; [id] may have left a hand. *)
Record left_hand id s s' : Prop := MkLeftHand {
  lh_library : forall p, valid_player p -> library_of s' p = library_of s p;
  lh_hand : forall p, valid_player p -> hand_of s' p = hand_of s p \/
                                      hand_of s' p = drop_from id (hand_of s p);
  lh_library_rows : forall o p, valid_player o -> valid_player p ->
    known_library_cards s' o p = known_library_cards s o p;
  lh_hand_rows : forall o p, valid_player o -> valid_player p ->
    known_hand_cards s' o p = known_hand_cards s o p;
  lh_ident : forall x, ident s' x = ident s x;
}.

Lemma forget_ok id s s' : hidden_ok s -> left_hand id s s' -> hidden_ok (forget_hand_object id s').
Proof.
  intros H [L1 L2 L3 L4 L5] w Hw. unfold owner_view_ok. rewrite forget_library, forget_hand by done.
  destruct (H w Hw) as [HL HH HK HR HE].
  apply owner_ok_ext with (ident s); [by intros x _; rewrite forget_ident, L5|].
  rewrite L1 by done. split; [done| | | |].
  - destruct (L2 w Hw) as [->| ->]; [done|].
    apply zone_ok_sub with (hand_of s w); [apply NoDup_drop_from, HH| |done].
    intros x [? _]%elem_of_drop_from. done.
  - intros o Ho. rewrite forget_library_rows, L3 by done. by apply HK.
  - intros o Ho. rewrite forget_hand_rows, L4 by done.
    apply hand_row_ok_ext with (gen_of (ident s)) (hand_of s w);
      [by apply hand_row_ok_filter, HR|].
    intros e [Hne _]%list_elem_of_filter [Hin _]. split; [|done].
    destruct (L2 w Hw) as [->| ->]; [done|]. by apply elem_of_drop_from.
  - rewrite forget_hand_rows, L4 by done. by rewrite HE.
Qed.

Lemma left_hand_refl id s : left_hand id s s.
Proof. split; auto. Qed.

(** A card leaves its library: the facts below it move up. *)
Lemma library_removal_ok p id at_ s :
  hidden_ok s -> valid_player p -> index_of id (library_of s p) = Some at_ ->
  let s1 := update_player p (fun ps => with_library (drop_from id (library ps)) ps) s in
  let s2 := note_library_removal p at_ s1 in
  hidden_ok s2 /\ becomes s s2 p (drop_from id (library_of s p)) (hand_of s p)
    (fun o => removal_row at_ (known_library_cards s o p)) (fun o => known_hand_cards s o p).
Proof.
  intros H Hp Hat s1 s2. destruct (H p Hp) as [HL HH HK HR HE].
  assert (becomes s s2 p (drop_from id (library_of s p)) (hand_of s p)
    (fun o => removal_row at_ (known_library_cards s o p)) (fun o => known_hand_cards s o p)) as B.
  { apply (becomes_library_rows s _ p _ _ (fun o => known_library_cards s o p) _
      (fun _ => removal_row at_) Hp).
    eapply becomes_same; [done| |apply note_observation_same].
    exact (update_player_becomes p _ s Hp). }
  split; [|done]. eapply hidden_ok_rows; [exact H|exact Hp|exact B|done|].
  rewrite (drop_from_delete id (library_of s p) at_) by (done || apply HL).
  split; [|done| |done|done].
  - apply zone_ok_sub with (library_of s p); [|intros x; apply list_elem_of_delete_inv|done].
    rewrite <- (drop_from_delete id) by (done || apply HL). apply NoDup_drop_from, HL.
  - intros o Ho. apply removal_row_ok. by apply HK.
Qed.

(** [retain] changed the length exactly when the card was there. *)
Lemma drop_from_length id l : length l = length (drop_from id l) -> id ∉ l.
Proof.
  intros E Hin. pose proof (length_filter_lt (fun x => x <> id) l id Hin) as H.
  unfold drop_from in E. rewrite <- E in H. assert (~ id <> id) as Hn by auto. specialize (H Hn). lia.
Qed.

(** What every removal achieves. *)
Record removed id s s' : Prop := MkRemoved {
  rm_library : forall p, valid_player p -> library_of s' p = drop_from id (library_of s p);
  rm_hand : forall p, valid_player p -> hand_of s' p = drop_from id (hand_of s p);
  rm_ident : forall x, ident s' x = ident s x;
  rm_tabled : tabled s -> tabled s';
  rm_ok : hidden_ok (forget_hand_object id s');
}.

Lemma removed_away id s s' : removed id s s' -> away s' id.
Proof.
  intros [R1 R2 _ _ _] p Hp. rewrite R1, R2 by done.
  split; intros [_ Hne]%elem_of_drop_from; by apply Hne.
Qed.

Lemma absent_library id o s p : hidden_ok s -> valid_player p -> get s id = Some o ->
  ~ (owner o = p /\ zone o = Zone.Library) -> drop_from id (library_of s p) = library_of s p.
Proof.
  intros H Hp E Hne. apply drop_from_absent. intros Hin. apply Hne.
  by eapply in_library_owner.
Qed.

Lemma absent_hand id o s p : hidden_ok s -> valid_player p -> get s id = Some o ->
  ~ (owner o = p /\ zone o = Zone.Hand) -> drop_from id (hand_of s p) = hand_of s p.
Proof.
  intros H Hp E Hne. apply drop_from_absent. intros Hin. apply Hne. by eapply in_hand_owner.
Qed.

(** A removal that touches no library. *)
Lemma removed_left id o s s' :
  hidden_ok s -> get s id = Some o -> left_hand id s s' ->
  (forall p, valid_player p -> drop_from id (library_of s p) = library_of s p) ->
  (forall p, valid_player p -> hand_of s' p = drop_from id (hand_of s p)) ->
  objects s' = objects s -> rest s' = rest s -> removed id s s'.
Proof.
  intros H E L Hl Hh Eo Er. split; [|done|apply L|by apply tabled_same|by eapply forget_ok].
  intros p Hp. rewrite Hl by done. by apply L.
Qed.

Lemma removed_same id o s s' :
  hidden_ok s -> get s id = Some o -> zone o <> Zone.Library -> zone o <> Zone.Hand ->
  same_hidden s s' -> objects s' = objects s -> rest s' = rest s -> removed id s s'.
Proof.
  intros H E HzL HzH S Eo Er.
  assert (forall p, valid_player p -> drop_from id (library_of s p) = library_of s p) as Hl.
  { intros p Hp. eapply absent_library; [done..|]. by intros [_ ?]. }
  assert (forall p, valid_player p -> drop_from id (hand_of s p) = hand_of s p) as Hh.
  { intros p Hp. eapply absent_hand; [done..|]. by intros [_ ?]. }
  apply removed_left with o; [done|done| |done| |done|done].
  - split; intros; [by apply S|left; by apply S|by apply S|by apply S|by apply S].
  - intros p Hp. rewrite Hh by done. by apply S.
Qed.

Lemma remove_from_library_ok id o s :
  state_ok s -> get s id = Some o -> zone o = Zone.Library ->
  exists s' b, remove_from_zone (owner o) id Zone.Library s = Some (s', b) /\ removed id s s' /\
    (b = false -> same_hidden s s').
Proof.
  intros [H Ho] E Ez. assert (valid_player (owner o)) as Hw by (eapply Ho, ident_get, E).
  assert (forall p, valid_player p -> drop_from id (hand_of s p) = hand_of s p) as Hh.
  { intros p Hp. eapply absent_hand; [done..|]. rewrite Ez. by intros [_ ?]. }
  cbn. do 2 eexists. split; [reflexivity|].
  destruct (decide (id ∈ library_of s (owner o))) as [Hin|Hni].
  - destruct (index_of_elem id _ Hin) as (at_ & Eat & _). rewrite Eat.
    destruct (library_removal_ok (owner o) id at_ s H Hw Eat) as [H2 B]. split.
    + split; [| |done|by apply tabled_same|by eapply forget_ok, left_hand_refl].
      * intros p Hp. destruct (decide (p = owner o)) as [->|Hne].
        { exact (new_library _ _ _ _ _ _ _ B). }
        rewrite (absent_library id o s p) by (done || by intros [? _]).
        exact (other_library _ _ _ _ _ _ _ B p Hp Hne).
      * intros p Hp. rewrite Hh by done. destruct (decide (p = owner o)) as [->|Hne].
        { exact (new_hand _ _ _ _ _ _ _ B). }
        exact (other_hand _ _ _ _ _ _ _ B p Hp Hne).
    + intros Hb%bool_decide_eq_false. destruct (drop_from_length id (library_of s (owner o))); [|done].
      by apply dec_stable.
  - rewrite index_of_none by done.
    pose proof (update_player_becomes (owner o)
      (fun ps => with_library (drop_from id (library ps)) ps) s Hw) as B.
    assert (same_hidden s (update_player (owner o)
      (fun ps => with_library (drop_from id (library ps)) ps) s)) as S.
    { split; [| | | |done]; intros.
      - destruct (decide (p = owner o)) as [->|Hne];
          [|exact (other_library _ _ _ _ _ _ _ B p H0 Hne)].
        rewrite (new_library _ _ _ _ _ _ _ B). by apply drop_from_absent.
      - destruct (decide (p = owner o)) as [->|Hne];
          [exact (new_hand _ _ _ _ _ _ _ B)|exact (other_hand _ _ _ _ _ _ _ B p H0 Hne)].
      - done.
      - done. }
    split; [|done]. apply removed_left with o; [done|done| | | |done|done].
    + split; intros; [by apply S|left; by apply S|by apply S|by apply S|by apply S].
    + intros p Hp. apply drop_from_absent. intros Hin. apply Hni.
      destruct (in_library_owner s p id o H Hp E Hin) as [-> _]. done.
    + intros p Hp. rewrite Hh by done. by apply S.
Qed.

Lemma remove_from_hand_ok id o s :
  state_ok s -> get s id = Some o -> zone o = Zone.Hand ->
  exists s' b, remove_from_zone (owner o) id Zone.Hand s = Some (s', b) /\ removed id s s' /\
    (b = false -> same_hidden s s').
Proof.
  intros [H Ho] E Ez. assert (valid_player (owner o)) as Hw by (eapply Ho, ident_get, E).
  cbn. do 2 eexists. split; [reflexivity|].
  pose proof (update_player_becomes (owner o)
    (fun ps => with_hand (drop_from id (hand ps)) ps) s Hw) as B.
  set (s' := update_player _ _ s) in *.
  assert (forall p, valid_player p -> library_of s' p = library_of s p) as Hl.
  { intros p Hp. destruct (decide (p = owner o)) as [->|Hne];
      [exact (new_library _ _ _ _ _ _ _ B)|exact (other_library _ _ _ _ _ _ _ B p Hp Hne)]. }
  assert (forall p, valid_player p -> hand_of s' p = drop_from id (hand_of s p)) as Hh.
  { intros p Hp. destruct (decide (p = owner o)) as [->|Hne]; [exact (new_hand _ _ _ _ _ _ _ B)|].
    rewrite (absent_hand id o s p) by (done || by intros [? _]).
    exact (other_hand _ _ _ _ _ _ _ B p Hp Hne). }
  split.
  - apply removed_left with o; [done|done| | |done|done|done].
    + split; [done|by intros p Hp; right; apply Hh|done..].
    + intros p Hp. eapply absent_library; [done..|]. rewrite Ez. by intros [_ ?].
  - intros Hb%bool_decide_eq_false. apply dec_stable, drop_from_length in Hb.
    split; [done| |done..]. intros p Hp. rewrite Hh by done. apply drop_from_absent.
    intros Hin. apply Hb. by destruct (in_hand_owner s p id o H Hp E Hin) as [-> _].
Qed.

(** Edits of the public zones. *)
Lemma public_zone_same q f s :
  (forall ps, library (f ps) = library ps) -> (forall ps, hand (f ps) = hand ps) ->
  same_hidden s (update_player q f s).
Proof.
  intros Hl Hh. split; [| |done..]; intros p _;
    unfold library_of, hand_of, update_player, seat, set_seat; cbn;
    repeat case_decide; cbn; by rewrite ?Hl, ?Hh.
Qed.

Lemma remove_from_zone_ok id o s :
  state_ok s -> get s id = Some o ->
  exists s' b, remove_from_zone (owner o) id (zone o) s = Some (s', b) /\ removed id s s' /\
    (b = false -> same_hidden s s').
Proof.
  intros Hs E. pose proof Hs as [H _].
  assert (forall s' b, zone o <> Zone.Library -> zone o <> Zone.Hand -> same_hidden s s' ->
            objects s' = objects s -> rest s' = rest s ->
            removed id s s' /\ (b = false -> same_hidden s s')) as K.
  { intros s' b ?????. split; [by eapply removed_same|done]. }
  destruct (zone o) eqn:Ez; [by eapply remove_from_library_ok|by eapply remove_from_hand_ok|..];
    cbn; rewrite ?E; cbn; do 2 eexists; (split; [reflexivity|]); (apply K; [done|done| |done|done]);
    first [by apply public_zone_same | by split].
Qed.
End Leaving.

(* ------------------------------------------------------------------ *)
(** ** Arriving *)

Section Arriving.
Context {V4 Rest : Type} `{!ObjectRules V4 Rest}.
Implicit Types s : GameState V4 Rest.

(** A new identity for an object outside the hidden zones disturbs nothing. *)
Lemma away_ident_ok s i id w :
  hidden_ok s -> valid_player w -> away s id -> is_u32 id ->
  (forall x, is_u32 x -> x <> id -> i x = ident s x) -> owner_view_ok s i w.
Proof.
  intros H Hw Ha Hid Hi. eapply owner_ok_ext; [|by apply H]. intros x Hx. apply Hi.
  - destruct Hx as [Hx|Hx]; [apply (library_lives s w x H Hw Hx)|apply (hand_lives s w x H Hw Hx)].
  - intros ->. destruct (Ha w Hw). tauto.
Qed.

Lemma elsewhere_ident s s' i id p :
  hidden_ok s -> away s id -> is_u32 id ->
  (forall x, is_u32 x -> x <> id -> i x = ident s x) ->
  forall x w, valid_player w -> w <> p -> x ∈ library_of s w \/ x ∈ hand_of s w -> i x = ident s x.
Proof.
  intros H Ha Hid Hi x w Hw _ Hx. apply Hi.
  - destruct Hx as [Hx|Hx]; [apply (library_lives s w x H Hw Hx)|apply (hand_lives s w x H Hw Hx)].
  - intros ->. destruct (Ha w Hw). tauto.
Qed.

(** The card joins the library, and the facts below it move down. *)
Lemma owner_ok_insert s i id w g at_ :
  owner_view_ok s i w -> away s id -> valid_player w -> is_u32 id ->
  i id = Some (w, Zone.Library, g) -> at_ <= length (library_of s w) ->
  exists r0 r1, insertion_row at_ (known_library_cards s P0 w) = Some r0 /\
    insertion_row at_ (known_library_cards s P1 w) = Some r1 /\
    owner_ok i w (insert_at at_ id (library_of s w)) (hand_of s w)
      (fun o => if decide (o = P0) then r0 else r1) (fun o => known_hand_cards s o w).
Proof.
  intros [HL HH HK HR HE] Ha Hw Hid Ei Hat. destruct (Ha w Hw) as [Hni _].
  assert (zone_ok i w Zone.Library (insert_at at_ id (library_of s w))) as HL'.
  { destruct HL as [Hnd HL]. split; [by apply NoDup_insert_at|].
    intros x [->|Hx]%elem_of_insert_at; [by split; [|exists g]|by apply HL]. }
  pose proof (zone_ok_fits _ _ _ _ HL') as Hfit.
  destruct (insertion_row_ok _ _ at_ id _ (HK P0 valid_P0) Hat Hfit) as (r0 & E0 & R0).
  destruct (insertion_row_ok _ _ at_ id _ (HK P1 valid_P1) Hat Hfit) as (r1 & E1 & R1).
  exists r0, r1. split_and!; [done..|]. split; [done|done| |done|done].
  intros o [->| ->]; done.
Qed.

Lemma owner_ok_push_hand s i id w g :
  owner_view_ok s i w -> away s id -> valid_player w -> is_u32 id ->
  i id = Some (w, Zone.Hand, g) ->
  owner_ok i w (library_of s w) (hand_of s w ++ [id])
    (fun o => known_library_cards s o w) (fun o => known_hand_cards s o w).
Proof.
  intros [HL HH HK HR HE] Ha Hw Hid Ei. destruct (Ha w Hw) as [_ Hni].
  split; [done| |done| |done].
  - destruct HH as [Hnd HH]. split.
    + apply NoDup_app. split_and!; [done| |apply NoDup_singleton].
      intros x Hx ->%list_elem_of_singleton. done.
    + intros x [Hx| ->%list_elem_of_singleton]%elem_of_app; [by apply HH|by split; [|exists g]].
  - intros o Ho. apply hand_row_ok_ext with (gen_of i) (hand_of s w); [by apply HR|].
    intros e _ [He _]. split; [apply elem_of_app; by left|done].
Qed.

(** The library and the hand of the owner after an arrival. *)
Definition gained_library (placement : LibraryPlacement) (to : Zone.t) (id : ObjectId)
    (lib : list ObjectId) : list ObjectId :=
  match to with
  | Zone.Library => insert_at (insertion_index placement (length lib)) id lib
  | _ => lib
  end.
Definition gained_hand (to : Zone.t) (id : ObjectId) (hd : list ObjectId) : list ObjectId :=
  match to with Zone.Hand => hd ++ [id] | _ => hd end.

(** What an arrival achieves. *)
Record arrived id w to placement s s' : Prop := MkArrived {
  ar_ok : state_ok s';
  ar_ident : exists g, ident s' id = Some (w, to, g);
  ar_library : library_of s' w = gained_library placement to id (library_of s w);
  ar_hand : hand_of s' w = gained_hand to id (hand_of s w);
  ar_other : forall p, valid_player p -> p <> w ->
    library_of s' p = library_of s p /\ hand_of s' p = hand_of s p;
  ar_idents : forall x, is_u32 x -> x <> id -> ident s' x = ident s x;
}.

Lemma enter_zone_some s id o to : get s id = Some o -> in_table (card_def o) ->
  exists s', enter_zone id to s = Some s' /\
    get s' id = Some (new_incarnation to (turn_key_v1 (rest s)) o) /\
    (forall x, is_u32 x -> is_u32 id -> x <> id -> ident s' x = ident s x) /\
    s' = with_objects s (objects s').
Proof.
  intros E Ht. unfold enter_zone, indexed. rewrite E. cbn [mbind option_bind]. rewrite decide_True by done.
  by apply update_object_some.
Qed.

Lemma enter_zone_owners s s' id o to :
  get s id = Some o -> enter_zone id to s = Some s' -> owners_valid s -> owners_valid s'.
Proof.
  intros E. unfold enter_zone, indexed. rewrite E. cbn [mbind option_bind].
  destruct (decide _); [|done]. intros Eu. by eapply ident_update_owner.
Qed.

(** The rows and zones of a state whose objects alone have changed. *)
Lemma becomes_objects s s1 s2 p lib hd lk hk :
  becomes s s1 p lib hd lk hk -> s2 = with_objects s1 (objects s2) -> becomes s s2 p lib hd lk hk.
Proof. intros [? ? ? ? ? ? ? ?] ->. by split. Qed.

Lemma becomes_zones s s1 p lib hd lk hk f : valid_player p ->
  becomes s s1 p lib hd lk hk ->
  forall lib' hd', library (f (seat (players s1) p)) = lib' -> hand (f (seat (players s1) p)) = hd' ->
  becomes s (update_player p f s1) p lib' hd' lk hk.
Proof.
  intros Hp B lib' hd' <- <-. pose proof (update_player_becomes p f s1 Hp) as B'.
  destruct (becomes_trans _ _ _ _ _ _ _ _ _ _ _ _ B B') as [N1 N2 N3 N4 O1 O2 O3 O4].
  destruct B as [M1 M2 M3 M4 _ _ _ _]. split; [done|done| | |done..].
  - intros o Ho. rewrite N3 by done. by apply M3.
  - intros o Ho. rewrite N4 by done. by apply M4.
Qed.

(** Entering a zone after edits that leave every identity alone. *)
Lemma arrive_kept s s1 id o to placement lib hd lk hk :
  state_ok s -> away s id -> is_u32 id -> get s1 id = Some o ->
  (forall x, ident s1 x = ident s x) -> tabled s1 -> becomes s s1 (owner o) lib hd lk hk ->
  (forall i, i id = Some (owner o, to, wrap_u32 (zone_change_count o + 1)) ->
     owner_view_ok s i (owner o) -> owner_ok i (owner o) lib hd lk hk) ->
  lib = gained_library placement to id (library_of s (owner o)) ->
  hd = gained_hand to id (hand_of s (owner o)) ->
  exists s2, enter_zone id to s1 = Some s2 /\ arrived id (owner o) to placement s s2.
Proof.
  intros [H Hv] Ha Hid E1 Ei1 Ht B Hok Hl Hh.
  assert (owners_valid s1) as Hv1.
  { split; [|done]. intros x p z g Ex. apply (proj1 Hv x p z g). by rewrite <- Ei1. }
  assert (valid_player (owner o)) as Hw by (eapply Hv1, ident_get, E1).
  destruct (enter_zone_some s1 id o to E1 (card_in_table s1 id o Hv1 E1)) as (s2 & E2 & G2 & I2 & F2).
  exists s2. split; [done|].
  assert (ident s2 id = Some (owner o, to, wrap_u32 (zone_change_count o + 1))) as Ei
    by by rewrite (ident_get s2 id _ G2).
  assert (forall x, is_u32 x -> x <> id -> ident s2 x = ident s x) as Ix.
  { intros x Hx Hne. by rewrite I2. }
  pose proof (becomes_objects _ _ _ _ _ _ _ _ B F2) as B2.
  split; [split| | | |intros p Hp Hne|exact Ix].
  - eapply hidden_ok_becomes; [exact H|exact Hw|exact B2|by apply elsewhere_ident with id|].
    apply Hok; [done|]. by apply away_ident_ok with id.
  - eapply enter_zone_owners; [exact E1|exact E2|exact Hv1].
  - by exists (wrap_u32 (zone_change_count o + 1)).
  - by rewrite (new_library _ _ _ _ _ _ _ B2).
  - by rewrite (new_hand _ _ _ _ _ _ _ B2).
  - split; [by apply (other_library _ _ _ _ _ _ _ B2)|by apply (other_hand _ _ _ _ _ _ _ B2)].
Qed.

(** Edits that leave the objects themselves alone. *)
Lemma arrive_by s s1 id o to placement lib hd lk hk :
  state_ok s -> away s id -> is_u32 id -> get s id = Some o ->
  objects s1 = objects s -> rest s1 = rest s -> becomes s s1 (owner o) lib hd lk hk ->
  (forall i, i id = Some (owner o, to, wrap_u32 (zone_change_count o + 1)) ->
     owner_view_ok s i (owner o) -> owner_ok i (owner o) lib hd lk hk) ->
  lib = gained_library placement to id (library_of s (owner o)) ->
  hd = gained_hand to id (hand_of s (owner o)) ->
  exists s2, enter_zone id to s1 = Some s2 /\ arrived id (owner o) to placement s s2.
Proof.
  intros Hs Ha Hid E Eo Er. apply arrive_kept; [done..| | |].
  - unfold get in *. by rewrite Eo.
  - intros x. unfold ident, get. by rewrite Eo.
  - eapply tabled_same; [done|done|apply Hs].
Qed.

Lemma note_insertion_becomes w at_ s r0 r1 : valid_player w ->
  insertion_row at_ (known_library_cards s P0 w) = Some r0 ->
  insertion_row at_ (known_library_cards s P1 w) = Some r1 ->
  exists s1, note_library_insertion w at_ s = Some s1 /\
    objects s1 = objects s /\ rest s1 = rest s /\
    becomes s s1 w (library_of s w) (hand_of s w)
      (fun o => if decide (o = P0) then r0 else r1) (fun o => known_hand_cards s o w).
Proof.
  intros Hw E0 E1. unfold note_library_insertion.
  change (row _ P0 w) with (known_library_cards s P0 w). rewrite E0. cbn [mbind option_bind].
  set (s' := update_library_row P0 w _ _).
  assert (row (library_knowledge s') P1 w = known_library_cards s P1 w) as Er1.
  { unfold s'. by destruct Hw as [->| ->]. }
  rewrite Er1, E1. cbn [mbind option_bind]. eexists. split; [reflexivity|].
  unfold s'. split; [done|]. split; [done|]. clear E0 E1 Er1 s'. becomes_seats.
Qed.

Lemma arrive_library s id o d placement :
  state_ok s -> away s id -> is_u32 id -> get s id = Some o ->
  exists s1 s2, add_to_zone (owner o) d id Zone.Library placement s = Some s1 /\
    enter_zone id Zone.Library s1 = Some s2 /\ arrived id (owner o) Zone.Library placement s s2.
Proof.
  intros Hs Ha Hid E. pose proof Hs as [H Hv].
  assert (valid_player (owner o)) as Hw by (eapply Hv, ident_get, E).
  set (w := owner o) in *. set (at_ := insertion_index placement (length (library_of s w))).
  set (i := fun x => if decide (x = id) then Some (w, Zone.Library, 0%Z) else ident s x).
  destruct (owner_ok_insert s i id w 0%Z at_) as (r0 & r1 & E0 & E1 & _);
    [|done..|unfold i; by rewrite decide_True|apply insertion_index_le|].
  { apply away_ident_ok with id; [done..|]. intros x _ Hne. unfold i. by rewrite decide_False. }
  destruct (note_insertion_becomes w at_ s r0 r1 Hw E0 E1) as (s1 & En & Eo & Er & B).
  set (s1' := update_player w (fun ps => with_library (insert_at at_ id (library ps)) ps) s1).
  assert (becomes s s1' w (insert_at at_ id (library_of s w)) (hand_of s w)
    (fun o => if decide (o = P0) then r0 else r1) (fun o => known_hand_cards s o w)) as B1.
  { eapply becomes_zones; [exact Hw|exact B| |exact (new_hand _ _ _ _ _ _ _ B)]. cbn.
    by rewrite <- (new_library _ _ _ _ _ _ _ B). }
  destruct (arrive_by s s1' id o Zone.Library placement _ _ _ _ Hs Ha Hid E Eo Er B1)
    as (s2 & E2 & A); [|done|done|].
  - intros i' Ei Hok.
    destruct (owner_ok_insert s i' id w _ at_ Hok Ha Hw Hid Ei (insertion_index_le _ _))
      as (r0' & r1' & E0' & E1' & Hok').
    assert (r0' = r0) as -> by congruence. assert (r1' = r1) as -> by congruence. exact Hok'.
  - exists s1', s2. split_and!; [|done|done]. unfold add_to_zone. fold at_. by rewrite En.
Qed.

Lemma arrive_elsewhere s id o d to placement :
  state_ok s -> away s id -> is_u32 id -> get s id = Some o ->
  to <> Zone.Library -> to <> Zone.Stack ->
  exists s1 s2, add_to_zone (owner o) d id to placement s = Some s1 /\
    enter_zone id to s1 = Some s2 /\ arrived id (owner o) to placement s s2.
Proof.
  intros Hs Ha Hid E HL HS. pose proof Hs as [H Hv].
  assert (valid_player (owner o)) as Hw by (eapply Hv, ident_get, E).
  pose proof (becomes_refl s (owner o)) as B0.
  assert (forall s1, add_to_zone (owner o) d id to placement s = Some s1 ->
    objects s1 = objects s -> rest s1 = rest s -> same_hidden s s1 -> to <> Zone.Hand ->
    exists s1 s2, add_to_zone (owner o) d id to placement s = Some s1 /\
      enter_zone id to s1 = Some s2 /\ arrived id (owner o) to placement s s2) as K.
  { intros s1 E1 Eo Er S Hh.
    destruct (arrive_by s s1 id o to placement _ _ _ _ Hs Ha Hid E Eo Er
      (becomes_same _ _ _ _ _ _ _ _ Hw B0 S)) as (s2 & E2 & A); [by intros|by destruct to|by destruct to|].
    by exists s1, s2. }
  destruct to; [done| | | |done| |]; [|eapply K; [reflexivity|done..| |done]..].
  - pose proof (update_player_becomes (owner o) (fun ps => with_hand (hand ps ++ [id]) ps) s Hw) as B.
    set (s1 := update_player _ _ s) in *.
    destruct (arrive_by s s1 id o Zone.Hand placement _ _ _ _ Hs Ha Hid E eq_refl eq_refl B)
      as (s2 & E2 & A); [|done|done|by exists s1, s2].
    intros i Ei Hok. by eapply owner_ok_push_hand.
  - by apply public_zone_same.
  - by apply public_zone_same.
  - by split.
  - by split.
Qed.
End Arriving.

(* ------------------------------------------------------------------ *)
(** ** Reveals *)

(** Cards stay where they are; only facts change. *)
Record same_zones {V4 Rest} `{!ObjectRules V4 Rest} (s s' : GameState V4 Rest) : Prop := MkSameZones {
  sz_library : forall p, valid_player p -> library_of s' p = library_of s p;
  sz_hand : forall p, valid_player p -> hand_of s' p = hand_of s p;
  sz_ident : forall x, ident s' x = ident s x;
  sz_tabled : tabled s -> tabled s';
}.

#[export] Instance same_zones_refl {V4 Rest} `{!ObjectRules V4 Rest} : Reflexive (same_zones (V4:=V4) (Rest:=Rest)).
Proof. by split. Qed.
#[export] Instance same_zones_trans {V4 Rest} `{!ObjectRules V4 Rest} : Transitive (same_zones (V4:=V4) (Rest:=Rest)).
Proof.
  intros a b c [A1 A2 A3 A4] [B1 B2 B3 B4]. split; intros.
  - by rewrite B1, A1.
  - by rewrite B2, A2.
  - by rewrite B3, A3.
  - auto.
Qed.

Lemma kept_zones {V4 Rest} `{!ObjectRules V4 Rest} (s s' : GameState V4 Rest) : kept s s' -> same_zones s s'.
Proof. intros [[H1 H2 _ _ H5] HT]. by split. Qed.

Section Reveals.
Context {V4 Rest : Type} `{!ObjectRules V4 Rest}.
Implicit Types s : GameState V4 Rest.

Lemma becomes_after s s1 s2 p lib hd lk hk : valid_player p ->
  same_hidden s s1 -> becomes s1 s2 p lib hd lk hk -> becomes s s2 p lib hd lk hk.
Proof.
  intros Hp S B. eapply becomes_trans; [|exact B].
  eapply becomes_same; [exact Hp|apply becomes_refl|exact S].
Qed.

Lemma becomes_same_zones s s' p lk hk :
  becomes s s' p (library_of s p) (hand_of s p) lk hk -> objects s' = objects s -> rest s' = rest s ->
  same_zones s s'.
Proof.
  intros B Eo Er. split; [..|by apply tabled_same].
  - intros q Hq. destruct (decide (q = p)) as [->|Hne];
      [exact (new_library _ _ _ _ _ _ _ B)|exact (other_library _ _ _ _ _ _ _ B q Hq Hne)].
  - intros q Hq. destruct (decide (q = p)) as [->|Hne];
      [exact (new_hand _ _ _ _ _ _ _ B)|exact (other_hand _ _ _ _ _ _ _ B q Hq Hne)].
  - intros x. unfold ident, get. by rewrite Eo.
Qed.

Lemma same_zones_owners s s' : same_zones s s' -> owners_valid s -> owners_valid s'.
Proof.
  intros S [Hv Ht]. split; [|by apply (sz_tabled _ _ S)]. intros x p z g E.
  rewrite (sz_ident _ _ S) in E. by eapply Hv.
Qed.

Lemma reveal_hand_card_ok observer w id s :
  state_ok s -> valid_player observer -> valid_player w -> id ∈ hand_of s w ->
  exists s', reveal_hand_card observer w id s = Ok s' /\ state_ok s' /\ same_zones s s'.
Proof.
  intros Hs Ho Hw Hin. pose proof Hs as [H Hv]. unfold reveal_hand_card.
  destruct (hand_lives s w id H Hw Hin) as (_ & g & E).
  apply ident_some in E as (o & E & Eo & Ez & Eg). rewrite E, Eo, Ez.
  rewrite (bool_decide_true (valid_player w)), (bool_decide_true (id ∈ hand_of s w)) by done.
  rewrite !bool_decide_false by (intros Hne; by apply Hne). cbn [negb andb orb].
  case_decide as Hne; [by exists s|].
  eexists. split; [reflexivity|].
  set (g' := learn_hand_entry (MkHandEntry id (zone_change_count o))).
  set (s' := update_hand_row _ _ _ _).
  assert (becomes s s' w (library_of s w) (hand_of s w) (fun q => known_library_cards s q w)
    (fun q => if decide (q = observer) then g' (known_hand_cards s q w)
              else known_hand_cards s q w)) as B.
  { eapply becomes_after; [exact Hw|apply note_observation_same|].
    exact (hand_row_becomes observer w g'
      (note_observation (HandCardRevealed observer w id) s) Ho Hw). }
  assert (same_zones s s') as S by (by eapply becomes_same_zones).
  split; [|done]. split; [|by eapply same_zones_owners].
  eapply hidden_ok_rows; [exact H|exact Hw|exact B|done|].
  destruct (H w Hw) as [HL HH HK HR HE]. split; [done|done|done| |].
  - intros q Hq. case_decide; [|by apply HR]. apply learn_hand_entry_ok; [by apply HR|].
    split; [done|]. cbn. rewrite gen_of_ident. unfold generation_of. by rewrite E.
  - rewrite decide_False by congruence. exact HE.
Qed.

Lemma reveal_library_position_state observer w at_ s :
  state_ok s -> valid_player observer -> valid_player w -> at_ < length (library_of s w) ->
  exists s', reveal_library_position observer w at_ s = Some s' /\ state_ok s' /\ same_zones s s'.
Proof.
  intros [H Hv] Ho Hw Hlt.
  destruct (reveal_library_position_ok observer w at_ s H Ho Hw Hlt) as (s' & E & H').
  exists s'. split; [done|].
  assert (same_zones s s') as S; [|split; [split; [done|by eapply same_zones_owners]|done]].
  unfold reveal_library_position in E.
  destruct (library_of s w !! at_) as [x|]; [cbn in E|done].
  destruct (generation_of s x) as [g|]; [cbn in E|done]. injection E as <-.
  eapply becomes_same_zones; [|done|done]. eapply becomes_same; [exact Hw| |apply note_observation_same].
  by apply library_row_becomes.
Qed.

(** A list of reveals that each succeed. *)
Lemma reveal_to_each_ok (reveal : PlayerId -> GameState V4 Rest -> option (GameState V4 Rest))
    (P : GameState V4 Rest -> Prop) observers s :
  (forall o s, o ∈ observers -> state_ok s -> P s ->
     exists s', reveal o s = Some s' /\ state_ok s' /\ same_zones s s') ->
  (forall s s', same_zones s s' -> P s -> P s') -> state_ok s -> P s ->
  exists s', reveal_to_each reveal observers s = Some s' /\ state_ok s' /\ same_zones s s'.
Proof.
  intros Hr HP. unfold reveal_to_each. revert s. induction observers as [|o os IH]; intros s Hs Hp.
  - by exists s.
  - cbn. destruct (Hr o s) as (s1 & E1 & Hs1 & S1); [by left|done|done|]. rewrite E1.
    destruct (IH) with s1 as (s2 & E2 & Hs2 & S2);
      [intros o' s' Ho'; apply Hr; by right|done|by eapply HP|].
    exists s2. split_and!; [done|done|by etransitivity].
Qed.

Lemma reveal_hand_to_each_ok observers w id s :
  (forall o, o ∈ observers -> valid_player o) -> valid_player w -> state_ok s -> id ∈ hand_of s w ->
  exists s', reveal_to_each (reveal_hand_or_panic w id) observers s = Some s' /\ state_ok s' /\
    same_zones s s'.
Proof.
  intros Ho Hw Hs Hin. apply reveal_to_each_ok with (fun s => id ∈ hand_of s w); [| |done|done].
  - intros o s1 Hin' Hs1 Hin1. unfold reveal_hand_or_panic.
    destruct (reveal_hand_card_ok o w id s1) as (s' & -> & ? & ?); [done|by apply Ho|done..|].
    by exists s'.
  - intros s1 s2 S Hin1. by rewrite (sz_hand _ _ S).
Qed.

Lemma both_valid o : o ∈ [P0; P1] -> valid_player o.
Proof.
  intros [->|Ho]%elem_of_cons; [apply valid_P0|].
  apply list_elem_of_singleton in Ho as ->. apply valid_P1.
Qed.

Lemma visible_valid visibility w o : valid_player w -> o ∈ visible_to visibility w -> valid_player o.
Proof.
  intros Hw. destruct visibility; cbn.
  - by intros ?%not_elem_of_nil.
  - by intros ->%list_elem_of_singleton.
  - apply both_valid.
Qed.

Lemma arrival_reveals_ok from to visibility informed w id s :
  state_ok s -> valid_player w -> (forall o, o ∈ informed -> valid_player o) ->
  (to = Zone.Library -> id ∈ library_of s w) -> (to = Zone.Hand -> id ∈ hand_of s w) ->
  exists s', arrival_reveals from to visibility informed w id s = Some s' /\ state_ok s' /\
    same_zones s s'.
Proof.
  intros Hs Hw Hi Hl Hh. unfold arrival_reveals.
  destruct (decide (to = Zone.Library)) as [Ht|Ht].
  - destruct (index_of_elem id _ (Hl Ht)) as (at_ & -> & Hlt). cbn [mbind option_bind].
    destruct (reveal_to_each_ok (fun o => reveal_library_position o w at_)
      (fun s => at_ < length (library_of s w)) (visible_to visibility w) s) as (s1 & -> & Hs1 & S1).
    + intros o s1 Ho Hs1 Hlt1. apply reveal_library_position_state; [done| |done|done].
      by eapply visible_valid.
    + intros s1 s2 S. by rewrite (sz_library _ _ S).
    + done.
    + done.
    + cbn [mbind option_bind]. subst to. rewrite !decide_False by (by intros [? _] || done). by exists s1.
  - cbn [mbind option_bind].
    destruct (decide (to = Zone.Hand /\ from <> Zone.Library)) as [Ht'|_];
      [|destruct (decide (to = Zone.Hand)) as [Ht'|_]].
    + apply reveal_hand_to_each_ok; [apply both_valid|done|done|apply Hh; tauto].
    + apply reveal_hand_to_each_ok; [done|done|done|by apply Hh].
    + by exists s.
Qed.
End Reveals.

(* ------------------------------------------------------------------ *)
(** ** The zone mover *)

Section Mover.
Context {V4 Rest : Type} `{!ObjectRules V4 Rest} `{!LawfulRules V4 Rest}.
Implicit Types s : GameState V4 Rest.
Set Default Proof Using "Type*".

Lemma informed_valid preserve from to w id s o :
  o ∈ informed_observers preserve from to w id s -> valid_player o.
Proof.
  unfold informed_observers. repeat case_match; try by intros ?%not_elem_of_nil.
  intros [_ Ho]%list_elem_of_filter. by apply both_valid.
Qed.

(** A write that keeps owner, zone and incarnation. *)
Lemma update_object_same s id o f :
  get s id = Some o -> owner (f o) = owner o -> zone (f o) = zone o ->
  zone_change_count (f o) = zone_change_count o -> card_def (f o) = card_def o -> owners_valid s ->
  exists s', update_object id f s = Some s' /\ kept s s' /\ get s' id = Some (f o).
Proof.
  intros E E1 E2 E3 E4 Hv. destruct (update_object_some s id o f E) as (s' & Eu & G & _). exists s'.
  split; [exact Eu|]. split; [|exact G].
  split; [|intros _; by apply (ident_update_owner s s' id o f E Eu E1 E4 Hv)].
  unfold update_object in Eu. rewrite E in Eu. cbn in Eu. injection Eu as <-.
  split; [done..|]. intros x. unfold ident, get, Arena.try_get, Arena.update in *. cbn.
  rewrite list_lookup_alter. case_decide as Ex; [|done]. rewrite <- Ex, E. cbn. by rewrite E1, E2, E3.
Qed.

(** From the removal to the forgotten hand facts. *)
Lemma removed_forgotten id s s' :
  owners_valid s -> removed id s s' ->
  state_ok (forget_hand_object id s') /\ away (forget_hand_object id s') id.
Proof.
  intros Hv R. split; [split; [apply R|split; [|by apply (tabled_same s'), (rm_tabled _ _ _ R), Hv]]|].
  - intros x p z g E. rewrite forget_ident, (rm_ident _ _ _ R) in E. by eapply Hv.
  - intros p Hp. rewrite forget_library, forget_hand by done. by apply (removed_away _ _ _ R).
Qed.

Lemma ident_get_some s s' id o : get s id = Some o -> ident s' id = ident s id ->
  exists o', get s' id = Some o' /\ owner o' = owner o /\ zone o' = zone o.
Proof.
  intros E Ei. rewrite (ident_get s id o E) in Ei.
  apply ident_some in Ei as (o' & ? & ? & ? & _). by exists o'.
Qed.

(** The combat step of the mover. *)
Lemma leave_combat_same (from : Zone.t) id s :
  kept s (if decide (from = Zone.Battlefield) then remove_from_combat id s else s).
Proof. case_decide; [apply remove_from_combat_same|done]. Qed.

(** What a zone change does to the libraries and hands: one card moves. *)
Record moved id w to placement s s' : Prop := MkMoved {
  mv_library : library_of s' w = gained_library placement to id (drop_from id (library_of s w));
  mv_hand : hand_of s' w = gained_hand to id (drop_from id (hand_of s w));
  mv_other : forall p, valid_player p -> p <> w ->
    library_of s' p = library_of s p /\ hand_of s' p = hand_of s p;
  mv_ident : forall x, is_u32 x -> x <> id -> ident s' x = ident s x;
  mv_zone : exists g, ident s' id = Some (w, to, g);
}.

Lemma moved_by id o to placement s s1 s4 s6 s9 :
  hidden_ok s -> valid_player (owner o) -> get s id = Some o -> removed id s s1 ->
  same_hidden (forget_hand_object id s1) s4 -> arrived id (owner o) to placement s4 s6 ->
  same_zones s6 s9 -> moved id (owner o) to placement s s9.
Proof.
  intros H Hw E [R1 R2 R3 _ _] S [_ AI AL AH AO AX] Z. split.
  - rewrite (sz_library _ _ Z), AL, (same_library _ _ S), forget_library, R1; done.
  - rewrite (sz_hand _ _ Z), AH, (same_hand _ _ S), forget_hand, R2; done.
  - intros p Hp Hne. rewrite (sz_library _ _ Z), (sz_hand _ _ Z) by done.
    destruct (AO p Hp Hne) as [-> ->].
    rewrite (same_library _ _ S), (same_hand _ _ S), forget_library, forget_hand, R1, R2 by done.
    assert (forall z, ~ (owner o = p /\ zone o = z)) as Hn by (by intros z [<- _]).
    split; [eapply absent_library|eapply absent_hand]; done.
  - intros x Hx Hne. rewrite (sz_ident _ _ Z), AX, (same_ident _ _ S), forget_ident by done. apply R3.
  - destruct AI as [g AI]. exists g. by rewrite (sz_ident _ _ Z).
Qed.

(** Everywhere but to the stack an object gets, and keeps the invariant. *)
Lemma move_between_zones_ok id to placement bc s o :
  state_ok s -> is_u32 id -> get s id = Some o -> to <> Zone.Stack ->
  exists s' o', move_between_zones id to placement bc s = Some s' /\ get s' id = Some o' /\
    state_ok s' /\ moved id (owner o) to placement s s'.
Proof.
  intros Hs Hid E Hto. pose proof Hs as [H Hv].
  assert (valid_player (owner o)) as Hw by (eapply Hv, ident_get, E).
  unfold move_between_zones. rewrite E. cbn [mbind option_bind].
  assert ((if decide (zone o = Zone.Stack /\ to = Zone.Battlefield) then indexed (card_def o) else Some ()) = Some ())
    as ->.
  { case_decide; [|done]. unfold indexed. by rewrite decide_True by (by eapply card_in_table). }
  cbn [mbind option_bind]. set (destination := default _ _).
  destruct (remove_from_zone_ok id o s Hs E) as (s1 & b & -> & R & _). cbn [mbind option_bind].
  destruct (removed_forgotten id s s1 Hv R) as [Hs2 Ha2].
  set (s2 := forget_hand_object id s1) in *.
  pose proof (clear_object_relations_same id s2) as S3.
  set (s3 := clear_object_relations id s2) in *.
  pose proof (leave_combat_same (zone o) id s3) as S4. set (s4 := if decide _ then _ else s3) in *.
  assert (kept s2 s4) as S24 by (by etransitivity).
  destruct (ident_get_some s s4 id o E) as (o4 & E4 & Eo & _).
  { rewrite (same_ident _ _ S24). unfold s2. rewrite forget_ident. apply R. }
  assert (exists s5 s6, add_to_zone (owner o4) destination id to placement s4 = Some s5 /\
    enter_zone id to s5 = Some s6 /\ arrived id (owner o4) to placement s4 s6)
    as (s5 & s6 & E5 & E6 & A).
  { pose proof (kept_state _ _ S24 Hs2). pose proof (same_hidden_away _ _ _ S24 Ha2).
    destruct (decide (to = Zone.Library)) as [->|HL]; [by apply arrive_library|].
    by apply arrive_elsewhere. }
  rewrite Eo in E5, A. rewrite E5. cbn [mbind option_bind]. rewrite E6. cbn [mbind option_bind].
  destruct (ar_ident _ _ _ _ _ _ A) as (g & Ei).
  apply ident_some in Ei as (o6 & G6 & Ow & Ez & _).
  destruct (update_object_same s6 id o6
    (set_controller (if decide (to = Zone.Battlefield) then destination else owner o)) G6)
    as (s7 & E7 & S7 & G7); [done..|apply A|]. eexists s7, _.
  split_and!; [exact E7|exact G7|exact (kept_state _ _ S7 (ar_ok _ _ _ _ _ _ A))|].
  exact (moved_by id o to placement s s1 s4 s6 s7 H Hw E R (kept_hidden _ _ S24) A (kept_zones _ _ S7)).
Qed.

(** Once the entry code has run, a zone change runs to its end and keeps the
    invariant. *)
Lemma entered_ok id (o : GameObject V4) to placement visibility informed s s1 s2 (halted : bool) :
  valid_player (owner o) -> state_ok s1 -> moved id (owner o) to placement s s1 -> kept s1 s2 ->
  (forall q, q ∈ informed -> valid_player q) ->
  exists s', (if halted then Some s2 else arrival_reveals (zone o) to visibility informed (owner o) id s2) = Some s' /\
    state_ok s' /\ moved id (owner o) to placement s s'.
Proof.
  intros Hw Hs1 M S Hi. pose proof (kept_state _ _ S Hs1) as Hs2.
  assert (forall s', same_zones s1 s' -> moved id (owner o) to placement s s') as Hmoved.
  { intros s' Z. destruct M as [M1 M2 M3 M4 [g M5]]. split.
    - by rewrite (sz_library _ _ Z).
    - by rewrite (sz_hand _ _ Z).
    - intros p Hp Hne. rewrite (sz_library _ _ Z), (sz_hand _ _ Z) by done. by apply M3.
    - intros x Hx Hne. rewrite (sz_ident _ _ Z). by apply M4.
    - exists g. by rewrite (sz_ident _ _ Z). }
  destruct halted.
  { exists s2. split_and!; [done|done|]. by apply Hmoved, kept_zones. }
  destruct (arrival_reveals_ok (zone o) to visibility informed (owner o) id s2)
    as (s3 & -> & Hs3 & Z3); [done|done|done|intros ->|intros ->|].
  - rewrite (same_library _ _ S), (mv_library _ _ _ _ _ _ M) by done. apply elem_of_insert_at. by left.
  - rewrite (same_hand _ _ S), (mv_hand _ _ _ _ _ _ M) by done. apply elem_of_app. right. by left.
  - exists s3. split_and!; [done..|]. apply Hmoved. etransitivity; [by apply kept_zones|done].
Qed.

(** The mover returns exactly when the face is one the card has and the entry code
    returns; and then it keeps the invariant. *)
Lemma materialize_exact id to placement preserve visibility face bc s o :
  state_ok s -> is_u32 id -> get s id = Some o -> to <> Zone.Stack ->
  let face' := entry_face face id to s in
  exists s1 o1, move_between_zones id to placement bc s = Some s1 /\ get s1 id = Some o1 /\ in_table (card_def o1) /\
    if face_defined face' to o1 then
      match entry_effects face' id (zone o) to s1 with
      | Some _ => exists s', materialize_zone_change_v1 id to placement preserve visibility face bc s = Some s' /\
                    state_ok s' /\ moved id (owner o) to placement s s'
      | None => materialize_zone_change_v1 id to placement preserve visibility face bc s = None
      end
    else materialize_zone_change_v1 id to placement preserve visibility face bc s = None.
Proof.
  intros Hs Hid E Hto face'.
  destruct (move_between_zones_ok id to placement bc s o Hs Hid E Hto) as (s1 & o1 & E1 & G1 & Hs1 & M).
  exists s1, o1. split_and!; [done|done|by eapply card_in_table, G1; apply Hs1|].
  unfold materialize_zone_change_v1, require_face. rewrite E, E1. cbn [mbind option_bind]. rewrite G1. cbn [mbind option_bind].
  fold face'. destruct (face_defined face' to o1); [cbn [mbind option_bind]|done].
  destruct (entry_effects face' id (zone o) to s1) as [[s2 halted]|] eqn:E2; [cbn [mbind option_bind]|done].
  apply (entered_ok id o to placement visibility _ s s1 s2 halted); [|done|done|by eapply entry_effects_same|].
  - eapply (proj2 Hs), ident_get, E.
  - intros q. apply informed_valid.
Qed.

Lemma materialize_state id to placement preserve visibility face bc s o s' :
  state_ok s -> is_u32 id -> get s id = Some o -> to <> Zone.Stack ->
  materialize_zone_change_v1 id to placement preserve visibility face bc s = Some s' ->
  state_ok s' /\ moved id (owner o) to placement s s'.
Proof.
  intros Hs Hid E Hto Em.
  destruct (materialize_exact id to placement preserve visibility face bc s o Hs Hid E Hto) as (s1 & o1 & _ & _ & _ & H).
  destruct (face_defined _ _ _); [|congruence]. destruct (entry_effects _ _ _ _ _); [|congruence].
  destruct H as (s2 & E2 & H). rewrite Em in E2. by injection E2 as <-.
Qed.

(** Off the battlefield nothing stops it. *)
Lemma materialize_ok id to placement preserve visibility face bc s o :
  state_ok s -> is_u32 id -> get s id = Some o -> to <> Zone.Stack -> to <> Zone.Battlefield ->
  exists s', materialize_zone_change_v1 id to placement preserve visibility face bc s = Some s' /\
    state_ok s' /\ moved id (owner o) to placement s s'.
Proof.
  intros Hs Hid E Hto Hb.
  destruct (materialize_exact id to placement preserve visibility face bc s o Hs Hid E Hto) as (s1 & o1 & _ & G1 & Ht & H).
  assert (forall face', face_defined face' to o1 = true) as Hf.
  { intros [f|]; [|done]. unfold face_defined. by rewrite bool_decide_true. }
  rewrite Hf in H.
  destruct (entry_effects_return (entry_face face id to s) id (zone o) to s1 o1 G1 Ht Hb) as [r Er]. by rewrite Er in H.
Qed.
End Mover.
