(* ===== verification/LibraryReach.v ===== *)
(** * Reachable states

    Draws, casts, aborted casts and searches keep the invariant of LibraryFacts. A game
    starts from two libraries and proceeds by the operations of [Library]: draws,
    zone changes, casts and their undoing, reveals, rearrangements, scries, shuffles,
    searches, partial randomizations and random choices. In every state it can reach, what each player
    is recorded to know is true and every object is of a card of the table. *)

From S2P Require Import Prelude Ids Bytes Randomness RandomnessFacts Library LibraryRows LibraryFacts LibraryShuffle LibraryMoves.
Import PlayerIds.

Section Steps.
Context {V4 Rest : Type} `{!ObjectRules V4 Rest} `{!LawfulRules V4 Rest}.
Implicit Types s : GameState V4 Rest.
Set Default Proof Using "Type*".

(* ------------------------------------------------------------------ *)
(** ** Leaving for a public zone *)

Lemma enter_public_ok s id o to :
  state_ok s -> away s id -> is_u32 id -> get s id = Some o ->
  to <> Zone.Library -> to <> Zone.Hand ->
  exists s', enter_zone id to s = Some s' /\ state_ok s'.
Proof.
  intros Hs Ha Hid E HL HH.
  destruct (arrive_by s s id o to Top _ _ _ _ Hs Ha Hid E eq_refl eq_refl (becomes_refl s (owner o)))
    as (s' & E' & A); [by intros|by destruct to|by destruct to|]. exists s'. split; [done|apply A].
Qed.

(** What follows every removal to a public zone. *)
Lemma depart_ok s s1 id o to :
  state_ok s -> is_u32 id -> get s id = Some o -> removed id s s1 ->
  to <> Zone.Library -> to <> Zone.Hand ->
  exists s', enter_zone id to (clear_object_relations id (forget_hand_object id s1)) = Some s' /\
    state_ok s'.
Proof.
  intros [H Hv] Hid E R HL HH. destruct (removed_forgotten id s s1 Hv R) as [Hs2 Ha2].
  pose proof (clear_object_relations_same id (forget_hand_object id s1)) as S.
  destruct (ident_get_some s (clear_object_relations id (forget_hand_object id s1)) id o E)
    as (o' & E' & _ & _).
  { rewrite (same_ident _ _ S), forget_ident. apply R. }
  eapply enter_public_ok; [by eapply kept_state|by eapply same_hidden_away; [apply S|]|done|done|done|done].
Qed.

(** Any edit of the owner's zones that drops the card from the hand. *)
Lemma hand_edit_removed s id o f :
  state_ok s -> get s id = Some o -> zone o <> Zone.Library ->
  library (f (seat (players s) (owner o))) = library_of s (owner o) ->
  hand (f (seat (players s) (owner o))) = drop_from id (hand_of s (owner o)) ->
  removed id s (update_player (owner o) f s).
Proof.
  intros [H Hv] E Hz Hl Hd. assert (valid_player (owner o)) as Hw by (eapply Hv, ident_get, E).
  pose proof (update_player_becomes (owner o) f s Hw) as B. rewrite Hl, Hd in B.
  set (s' := update_player _ _ s) in *.
  assert (forall p, valid_player p -> hand_of s' p = drop_from id (hand_of s p)) as Hh.
  { intros p Hp. destruct (decide (p = owner o)) as [->|Hne]; [exact (new_hand _ _ _ _ _ _ _ B)|].
    rewrite (absent_hand id o s p) by (done || by intros [? _]).
    exact (other_hand _ _ _ _ _ _ _ B p Hp Hne). }
  apply removed_left with o; [done|done| | |done|done|done].
  - split; [|by intros p Hp; right; apply Hh| | |done]; intros p.
    + intros Hp. destruct (decide (p = owner o)) as [->|Hne];
        [exact (new_library _ _ _ _ _ _ _ B)|exact (other_library _ _ _ _ _ _ _ B p Hp Hne)].
    + done.
    + done.
  - intros p Hp. eapply absent_library; [done..|]. by intros [_ ?].
Qed.

Lemma hand_drop_removed s id o :
  state_ok s -> get s id = Some o -> zone o <> Zone.Library ->
  removed id s (update_player (owner o) (fun ps => with_hand (drop_from id (hand ps)) ps) s).
Proof. intros. by apply hand_edit_removed. Qed.

Lemma cease_to_exist_ok id s o :
  state_ok s -> get s id = Some o ->
  exists s' b, cease_to_exist id s = Some (s', b) /\ state_ok s'.
Proof.
  intros Hs E. pose proof Hs as [H Hv]. unfold cease_to_exist. rewrite E. cbn [mbind option_bind].
  destruct (remove_from_zone_ok id o s Hs E) as (s1 & b & -> & R & Hb). cbn [mbind option_bind].
  destruct b; do 2 eexists; (split; [reflexivity|]).
  - eapply kept_state; [|by apply (removed_forgotten id s s1 Hv R)].
    etransitivity; [apply clear_object_relations_same|apply ceased_effects_same].
  - eapply kept_state; [|exact Hs]. split; [by apply Hb|apply R].
Qed.

(** The library arm of [move_to_stack] is that of [remove_from_zone]. *)
Lemma delete_removed s id o at_ :
  state_ok s -> get s id = Some o -> zone o = Zone.Library ->
  index_of id (library_of s (owner o)) = Some at_ ->
  removed id s (note_library_removal (owner o) at_
    (update_player (owner o) (fun ps => with_library (delete at_ (library ps)) ps) s)).
Proof.
  intros Hs E Hz Hat. pose proof Hs as [H Hv].
  assert (valid_player (owner o)) as Hw by (eapply Hv, ident_get, E).
  destruct (remove_from_library_ok id o s Hs E Hz) as (s' & b & Er & R & _).
  cbn in Er. rewrite Hat in Er. injection Er as <- _.
  assert (NoDup (library_of s (owner o))) as Hnd by (destruct (H _ Hw) as [[Hnd _] _ _ _ _]; done).
  unfold update_player in *. fold (library_of s (owner o)).
  change (library (seat (players s) (owner o))) with (library_of s (owner o)) in *.
  rewrite (drop_from_delete id _ at_ Hnd Hat) in R. exact R.
Qed.

Lemma missing_removed s id o :
  state_ok s -> get s id = Some o -> zone o = Zone.Library ->
  id ∉ library_of s (owner o) -> removed id s s.
Proof.
  intros [H _] E Hz Hni. apply removed_left with o; [done|done|apply left_hand_refl| | |done|done].
  - intros p Hp. apply drop_from_absent. intros Hin. apply Hni.
    by destruct (in_library_owner s p id o H Hp E Hin) as [-> _].
  - intros p Hp. symmetry. eapply absent_hand; [done..|]. rewrite Hz. by intros [_ ?].
Qed.

Lemma move_to_stack_ok id s o :
  state_ok s -> is_u32 id -> get s id = Some o ->
  exists s', move_to_stack id (zone o) s = Some s' /\ state_ok s'.
Proof.
  intros Hs Hid E. unfold move_to_stack. rewrite E. cbn [mbind option_bind].
  pose proof (stash_effects_same id s) as S. set (s1 := stash_effects id s) in *.
  pose proof (kept_state _ _ S Hs) as Hs1. pose proof Hs1 as [H1 Hv1].
  destruct (ident_get_some s s1 id o E (same_ident _ _ S id)) as (o1 & E1 & Eo & Ez).
  rewrite <- Eo, <- Ez.
  match goal with |- context [forget_hand_object id ?t] => assert (removed id s1 t) as R end.
  { destruct (zone o1) eqn:Hz.
    - destruct (index_of id (library_of s1 (owner o1))) as [at_|] eqn:Hat.
      + by apply delete_removed.
      + apply missing_removed with o1; [done..|]. intros Hin.
        destruct (index_of_elem id _ Hin) as (? & ? & _). congruence.
    - by apply hand_drop_removed; rewrite ?Hz.
    - by apply hand_drop_removed; rewrite ?Hz.
    - eapply removed_same; [done|exact E1|by rewrite Hz..| |done|done]. by apply public_zone_same.
    - by apply hand_drop_removed; rewrite ?Hz.
    - eapply removed_same; [done|exact E1|by rewrite Hz..| |done|done]. by split.
    - by apply hand_drop_removed; rewrite ?Hz. }
  by eapply depart_ok.
Qed.

Lemma move_hand_to_battlefield_ok player id s :
  state_ok s -> is_u32 id -> valid_player player ->
  exists b s', move_hand_to_battlefield player id s = Some (b, s') /\ state_ok s' /\
    (b = true <-> id ∈ hand_of s player).
Proof.
  intros Hs Hid Hp. pose proof Hs as [H Hv]. unfold move_hand_to_battlefield.
  destruct (index_of id (hand_of s player)) as [pos|] eqn:Hat.
  - assert (id ∈ hand_of s player) as Hin.
    { apply index_of_some in Hat as [Hl _]. by eapply list_elem_of_lookup_2. }
    destruct (hand_lives s player id H Hp Hin) as (_ & g & Eg).
    apply ident_some in Eg as (o & E & Eo & Ez & _). subst player.
    assert (NoDup (hand_of s (owner o))) as Hnd by (destruct (H _ Hp) as [_ [Hnd _] _ _ _]; done).
    pose proof (hand_edit_removed s id o (fun ps =>
      with_battlefield (battlefield ps ++ [id]) (with_hand (delete pos (hand ps)) ps)) Hs E) as R1.
    rewrite Ez in R1. specialize (R1 ltac:(done) eq_refl).
    specialize (R1 (eq_sym (drop_from_delete id _ pos Hnd Hat))).
    set (s1 := update_player _ _ s) in R1.
    destruct (depart_ok s s1 id o Zone.Battlefield Hs Hid E R1) as (s' & E' & Hs'); [done..|].
    exists true, s'. split_and!; [|done|done]. fold s1. by rewrite E'.
  - exists false, s. split_and!; [done|done|]. split; [done|]. intros Hin.
    destruct (index_of_elem id _ Hin) as (? & ? & _). congruence.
Qed.

(* ------------------------------------------------------------------ *)
(** ** Draws *)

(** The entry an informed opponent keeps of the drawn card. *)
Definition transferred s (w : PlayerId) (at_ : nat) (id : ObjectId) (g : Z) (o : PlayerId)
    (r : list HandKnowledgeEntry) : list HandKnowledgeEntry :=
  if decide (o = w) then r
  else if bool_decide (Exists (fun e => place e = at_ /\ lk_object e = id /\ lk_generation e = g)
                         (known_library_cards s o w))
  then learn_hand_entry (MkHandEntry id g) r else r.

Lemma transfer_becomes s w at_ id g : valid_player w -> generation_of s id = Some g ->
  exists s', transfer_library_knowledge_to_hand w at_ id s = Some s' /\
    objects s' = objects s /\ rest s' = rest s /\
    becomes s s' w (library_of s w) (hand_of s w) (fun o => known_library_cards s o w)
      (fun o => transferred s w at_ id g o (known_hand_cards s o w)).
Proof.
  intros Hw Eg. unfold transfer_library_knowledge_to_hand. rewrite Eg. cbn [mbind option_bind].
  eexists. split; [reflexivity|]. unfold transferred, for_observers.
  destruct Hw as [->| ->];
    rewrite ?(decide_True (P := P0 = P0)), ?(decide_True (P := P1 = P1)),
      ?(decide_False (P := P1 = P0)), ?(decide_False (P := P0 = P1)) by done;
    (case_bool_decide as Hk; (split; [done|split; [done|]]); split; seats;
     first [ reflexivity | by intros Hne; destruct Hne | by intros _
           | by rewrite ?decide_True, ?decide_False, ?bool_decide_true, ?bool_decide_false by done ]).
Qed.

(** A card of the hand changes its incarnation, and its entry with it. *)
Lemma hand_row_bump gen gen' hd id g r :
  hand_row_ok gen hd r -> gen' id = Some g -> (forall x, x ∈ hd -> x <> id -> gen' x = gen x) ->
  hand_row_ok gen' hd (map (fun e => if decide (hk_object e = id) then MkHandEntry id g else e) r).
Proof.
  intros [H1 H2] Hid Hne. split.
  - intros e' (e & -> & He)%list_elem_of_fmap. destruct (H1 e He) as [Hin Hg].
    case_decide as Ee; split; cbn; [congruence|done|done|by rewrite Hne].
  - eapply strongly_sorted_map; [|exact H2]. intros a b Ha Hb. unfold hk_lt.
    repeat case_decide; cbn; congruence || lia.
Qed.

Lemma transferred_ok s w at_ id g o hd r :
  hand_row_ok (generation_of s) hd r -> id ∈ hd -> generation_of s id = Some g ->
  hand_row_ok (generation_of s) hd (transferred s w at_ id g o r).
Proof.
  intros H Hin Eg. unfold transferred. case_decide; [done|]. case_bool_decide; [|done].
  by apply learn_hand_entry_ok.
Qed.

(** The zones and facts a draw leaves are right under the new identity. *)
Lemma owner_ok_draw s i p id lib g g' :
  hidden_ok s -> valid_player p -> library_of s p = id :: lib -> generation_of s id = Some g ->
  i id = Some (p, Zone.Hand, g') -> (forall x, is_u32 x -> x <> id -> i x = ident s x) ->
  owner_ok i p lib (hand_of s p ++ [id]) (fun o => removal_row 0 (known_library_cards s o p))
    (fun o => map (fun e => if decide (hk_object e = id) then MkHandEntry id g' else e)
                (transferred s p 0 id g o (known_hand_cards s o p))).
Proof.
  intros H Hp El Eg Ei Hne. destruct (H p Hp) as [HL HH HK HR HE]. rewrite El in HL, HK.
  destruct HL as [[Hni Hnd]%NoDup_cons HL]. destruct HH as [Hnd' HH].
  assert (is_u32 id) as Hid by (destruct (HL id) as [? _]; [by left|done]).
  assert (id ∉ hand_of s p) as Hnh.
  { intros Hin. destruct (HH id Hin) as (_ & ? & E1). destruct (HL id) as (_ & ? & E2); [by left|].
    congruence. }
  assert (forall x, x ∈ lib -> i x = ident s x) as Il.
  { intros x Hx. apply Hne; [apply (HL x); by right|congruence]. }
  assert (forall x, x ∈ hand_of s p -> i x = ident s x) as Ih.
  { intros x Hx. apply Hne; [apply (HH x Hx)|congruence]. }
  split.
  - split; [done|]. intros x Hx. destruct (HL x) as (? & gx & Ex); [by right|].
    split; [done|]. exists gx. by rewrite Il.
  - split.
    + apply NoDup_app. split_and!; [done| |apply NoDup_singleton].
      intros x Hx ->%list_elem_of_singleton. done.
    + intros x [Hx| ->%list_elem_of_singleton]%elem_of_app; [|by split; [|exists g']].
      destruct (HH x Hx) as (? & gx & Ex). split; [done|]. exists gx. by rewrite Ih.
  - intros o Ho. change lib with (delete 0 (id :: lib)).
    apply row_ok_ext with (gen_of (ident s)); [|apply removal_row_ok; by apply HK].
    intros x Hx. apply gen_of_ext. by apply Il.
  - intros o Ho. apply hand_row_bump with (generation_of s).
    + apply transferred_ok; [|apply elem_of_app; right; by left|done].
      apply hand_row_ok_ext with (gen_of (ident s)) (hand_of s p); [by apply HR|].
      intros e _ [He _]. split; [apply elem_of_app; by left|]. by rewrite gen_of_ident.
    + unfold gen_of. by rewrite Ei.
    + intros x [Hx| ->%list_elem_of_singleton]%elem_of_app Hx'; [|done].
      rewrite <- gen_of_ident. apply gen_of_ext. by apply Ih.
  - unfold transferred. rewrite decide_True by done. by rewrite HE.
Qed.

(** The whole effect of a draw on the hidden zones. *)
Lemma draw_card_ok p s id lib g :
  state_ok s -> valid_player p -> library_of s p = id :: lib -> generation_of s id = Some g ->
  exists s', draw_card p s = Some (Some id, s') /\ state_ok s' /\
    becomes s s' p lib (hand_of s p ++ [id]) (fun o => removal_row 0 (known_library_cards s o p))
      (fun o => map (fun e =>
           if decide (hk_object e = id) then MkHandEntry id (wrap_u32 (g + 1)) else e)
         (transferred s p 0 id g o (known_hand_cards s o p))) /\
    (forall x, is_u32 x -> x <> id -> ident s' x = ident s x).
Proof.
  intros [H Hv] Hp El Hg. unfold draw_card. rewrite El.
  destruct (library_lives s p id H Hp) as (Hid & g0 & Eid); [rewrite El; by left|].
  apply ident_some in Eid as (o & Eo & Ow & _ & _).
  assert (g = zone_change_count o) as -> by (unfold generation_of in Hg; rewrite Eo in Hg; by injection Hg).
  pose proof (update_player_becomes p
    (fun ps => with_hand (hand ps ++ [id]) (with_library lib ps)) s Hp) as B1.
  set (s1 := update_player _ _ s) in *.
  destruct (transfer_becomes s1 p 0 id (zone_change_count o) Hp Hg) as (s2 & -> & O2 & R2 & B2).
  cbn [mbind option_bind].
  assert (becomes s s2 p lib (hand_of s p ++ [id]) (fun o => known_library_cards s o p)
    (fun q => transferred s p 0 id (zone_change_count o) q (known_hand_cards s q p))) as B12
    by (destruct Hp as [->| ->]; exact (becomes_trans _ _ _ _ _ _ _ _ _ _ _ _ B1 B2)).
  pose proof (becomes_library_rows _ _ _ _ _ _ _ (fun _ => removal_row 0) Hp
    (becomes_same _ _ _ _ _ _ _ _ Hp B12 (note_observation_same (LibraryRemoval p (as_u32 0)) s2)))
    as B3. fold (note_library_removal p 0 s2) in B3. cbn beta in B3.
  pose proof (clear_object_relations_same id (note_library_removal p 0 s2)) as S4.
  pose proof (becomes_same _ _ _ _ _ _ _ _ Hp B3 (kept_hidden _ _ S4)) as B4.
  set (s4 := clear_object_relations id (note_library_removal p 0 s2)) in *.
  assert (forall x, ident s4 x = ident s x) as I4.
  { intros x. rewrite (same_ident _ _ S4). unfold note_library_removal.
    rewrite (ident_for_library_rows p (fun _ => removal_row 0)). unfold ident, get. cbn. by rewrite O2. }
  destruct (ident_get_some s s4 id o Eo (I4 id)) as (o4 & E4 & Ow4 & _).
  assert (zone_change_count o4 = zone_change_count o) as Eg4.
  { pose proof (I4 id) as Ei. rewrite (ident_get s4 id o4 E4), (ident_get s id o Eo) in Ei.
    by injection Ei. }
  assert (owners_valid s4) as Hv4.
  { split; [intros y q' z' g'' Ey; rewrite I4 in Ey; by eapply Hv|]. apply (kept_tabled _ _ S4).
    apply (tabled_same s); [unfold note_library_removal; cbn; by rewrite O2|unfold note_library_removal; cbn; by rewrite R2|apply Hv]. }
  destruct (enter_zone_some s4 id o4 Zone.Hand E4 (card_in_table s4 id o4 Hv4 E4)) as (s5 & E5 & G5 & I5 & F5).
  rewrite E5. cbn [mbind option_bind].
  set (g' := wrap_u32 (zone_change_count o + 1)).
  assert (generation_of s5 id = Some g') as -> by (unfold generation_of; rewrite G5; cbn; by rewrite Eg4).
  cbn [mbind option_bind]. eexists. split; [reflexivity|].
  pose proof (becomes_hand_rows _ _ _ _ _ _ _ (fun _ => map (fun e =>
    if decide (hk_object e = id) then MkHandEntry id g' else e)) Hp
    (becomes_objects _ _ _ _ _ _ _ _ B4 F5)) as B6. cbn beta in B6.
  assert (forall x, is_u32 x -> x <> id -> ident s5 x = ident s x) as I6.
  { intros x Hx Hne. by rewrite I5, I4. }
  split; [|split; [exact B6|exact I6]].
  split.
  - eapply hidden_ok_becomes; [exact H|exact Hp|exact B6| |].
    + intros x w Hw Hne Hx. apply I6.
      * destruct Hx as [Hx|Hx];
          [apply (library_lives s w x H Hw Hx)|apply (hand_lives s w x H Hw Hx)].
      * intros ->. apply Hne. destruct Hx as [Hx|Hx].
        -- destruct (in_library_owner s w id o H Hw Eo Hx). congruence.
        -- destruct (in_hand_owner s w id o H Hw Eo Hx). congruence.
    + apply owner_ok_draw; [done..| |exact I6]. change (ident s5 id = Some (p, Zone.Hand, g')).
      rewrite (ident_get s5 id _ G5). cbn. by rewrite Ow4, Ow, Eg4.
  - destruct (enter_zone_owners s4 s5 id o4 Zone.Hand E4 E5 Hv4) as [Ho5 Ht5].
    split; [exact Ho5|]. by apply (tabled_same s5).
Qed.
End Steps.

(* ------------------------------------------------------------------ *)
(** ** The first state *)

Section Initial.
Context {V4 Rest : Type} `{!ObjectRules V4 Rest} `{!LawfulRules V4 Rest}.
Implicit Types s : GameState V4 Rest.

(** The ids of [n] objects pushed from position [start] of the arena. *)
Definition fresh_ids (start n : nat) : list ObjectId :=
  map (fun k => MkObjectId (Z.of_nat k)) (seq start n).

Lemma push_library_spec w lib : forall objs : Arena.t (GameObject V4),
  (Z.of_nat (Arena.len objs + length lib) <= u32_max + 1)%Z ->
  push_library w objs lib =
    (Arena.MkArena (Arena.items objs ++ map (fun c => new_in_library c w) lib),
     fresh_ids (Arena.len objs) (length lib)).
Proof.
  assert (forall objs ids, (Z.of_nat (Arena.len objs + length lib) <= u32_max + 1)%Z ->
    foldl (fun '(objects, ids) card_def =>
      let (objects, id) := Arena.push objects (new_in_library card_def w) in
      (objects, ids ++ [id])) (objs, ids) lib =
    (Arena.MkArena (Arena.items objs ++ map (fun c => new_in_library c w) lib),
     ids ++ fresh_ids (Arena.len objs) (length lib))) as K.
  { induction lib as [|c lib IH]; intros objs ids Hb.
    - cbn. rewrite !app_nil_r. by destruct objs.
    - cbn [foldl]. cbn [length] in Hb. unfold Arena.push at 2.
      rewrite IH by (unfold Arena.len in *; cbn; rewrite length_app; cbn; lia).
      unfold Arena.len in *. cbn. rewrite length_app, <- !app_assoc. cbn. f_equal. f_equal.
      unfold fresh_ids. cbn. rewrite Nat.add_1_r. f_equal. f_equal.
      unfold u32_max in *. apply Z.mod_small. lia. }
  intros objs Hb. unfold push_library. by rewrite K.
Qed.

Lemma fresh_ids_elem start n id : id ∈ fresh_ids start n <->
  exists k, id = MkObjectId (Z.of_nat k) /\ start <= k < start + n.
Proof.
  unfold fresh_ids. rewrite list_elem_of_fmap. split.
  - intros (k & -> & ?%elem_of_seq). exists k. by split.
  - intros (k & -> & ?). exists k. split; [done|]. by apply elem_of_seq.
Qed.

Lemma fresh_ids_NoDup start n : NoDup (fresh_ids start n).
Proof. apply NoDup_fmap_2; [intros ?? [= ?]; lia|apply NoDup_seq]. Qed.

Lemma new_from_libraries_ok lib0 lib1 seed first :
  Forall in_table (lib0 ++ lib1) -> (Z.of_nat (length lib0 + length lib1) <= u32_max + 1)%Z ->
  state_ok (new_from_libraries_with_starting_player_v1 (V4 := V4) (Rest := Rest) lib0 lib1 seed first).
Proof.
  intros Hdecks Hb. unfold new_from_libraries_with_starting_player_v1.
  rewrite push_library_spec by (cbn; lia).
  rewrite push_library_spec by (unfold Arena.len; cbn; rewrite length_fmap; cbn; lia).
  set (objs0 := map (fun c => new_in_library c P0) lib0).
  set (objs1 := map (fun c => new_in_library c P1) lib1).
  set (s := MkGame _ _ _ _ _ _ _ _ _ _).
  assert (forall p n start objs pre post cards,
    Arena.items (objects s) = pre ++ objs ++ post -> objs = map (fun c => new_in_library c p) cards ->
    n = length cards -> start = length pre ->
    (Z.of_nat (start + n) <= u32_max + 1)%Z ->
    zone_ok (ident s) p Zone.Library (fresh_ids start n)) as K.
  { intros p n start objs pre post cards Ei -> -> -> Hn. split; [apply fresh_ids_NoDup|].
    intros id (k & -> & Hk)%fresh_ids_elem. split; [cbn; unfold u32_max in *; lia|]. exists 0%Z.
    unfold ident, get, Arena.try_get, Arena.index. rewrite Ei. cbn. rewrite Nat2Z.id.
    rewrite lookup_app_r by lia. rewrite lookup_app_l by (rewrite length_fmap; lia).
    destruct (lookup_lt_is_Some_2 cards (k - length pre)) as [c Ec]; [lia|].
    assert (map (fun c => new_in_library c p) cards !! (k - length pre)
            = Some (@new_in_library V4 Rest _ c p)) as EL.
    { pose proof (list_lookup_fmap (fun c => @new_in_library V4 Rest _ c p) cards (k - length pre))
        as EM. by rewrite Ec in EM. }
    by rewrite EL. }
  assert (forall p lib, zone_ok (ident s) p Zone.Library lib ->
    owner_ok (ident s) p lib [] (fun _ => []) (fun _ => [])) as O.
  { intros p lib HL. split; [done|split; [apply NoDup_nil_2|by intros ? ?%not_elem_of_nil]| | |done].
    - intros _ _. apply row_ok_nil.
    - intros _ _. apply hand_row_ok_nil. }
  split.
  - assert (forall w, valid_player w -> zone_ok (ident s) w Zone.Library (library_of s w)) as HL.
    2: { intros w Hw. apply (owner_ok_pointwise _ _ _ _ (fun _ => []) _ (fun _ => []));
           [done|by seats|by seats|].
         replace (hand_of s w) with (@nil ObjectId) by (by seats). by apply O, HL. }
    intros w [->| ->].
    + apply (K P0 (length lib0) 0 objs0 [] objs1 lib0); [done..|lia].
    + apply (K P1 (length lib1) (length objs0) objs1 objs0 [] lib1); [|done..|].
      * cbn. by rewrite app_nil_r.
      * unfold objs0. rewrite length_map. lia.
  - assert (forall id o, get s id = Some o -> exists p c, valid_player p /\ c ∈ lib0 ++ lib1 /\ o = new_in_library c p)
      as Hobj.
    { intros id o E. unfold get, Arena.try_get in E. apply list_elem_of_lookup_2 in E. cbn in E.
      apply elem_of_app in E as [(c & -> & Hc)%list_elem_of_fmap|(c & -> & Hc)%list_elem_of_fmap].
      - exists P0, c. split_and!; [apply valid_P0|apply elem_of_app; by left|done].
      - exists P1, c. split_and!; [apply valid_P1|apply elem_of_app; by right|done]. }
    split; [|split; [|by cbn; rewrite initial_saved]].
    + intros id p z g E. apply ident_some in E as (o & E & <- & _).
      by apply Hobj in E as (p & c & Hp & _ & ->).
    + intros id o (p & c & _ & Hc & ->)%Hobj. cbn. by apply (proj1 (list.Forall_forall _ _) Hdecks).
Qed.
End Initial.

(* ------------------------------------------------------------------ *)
(** ** Random operations *)

Section RandomSteps.
Context {V4 Rest : Type} `{!ObjectRules V4 Rest} (sha256 : bytes -> bytes).
Implicit Types s : GameState V4 Rest.

(** Whatever the random state, a committed shuffle permutes one library. *)
Lemma commit_permutes owner t s s' : commit_library_shuffle sha256 owner t s = Ok s' ->
  exists lib r, lib ≡ₚ library_of s owner /\ s' = shuffled owner lib r s.
Proof.
  unfold commit_library_shuffle. intros E. apply result_bind_ok in E as (w & Ew & E).
  assert (w = owner) as ->.
  { unfold library_shuffle_owner in Ew. destruct (decide _); [by injection Ew|done]. }
  case_decide; [done|]. destruct (randomness s) as [rng|v2], (authorization t) as [e|a b c d]; try done.
  - case_decide; [done|]. pose proof (fisher_yates_perm e (library_of s owner)) as HP.
    destruct (fisher_yates e (library_of s owner)) as [lib r]. injection E as <-.
    by exists lib, (Legacy r).
  - apply result_bind_ok in E as (o & _ & E). case_decide; [done|]. case_decide; [done|].
    apply result_bind_ok in E as (n & _ & E). case_decide; [done|].
    apply result_bind_ok in E as (x & _ & E). case_decide; [done|]. injection E as <-.
    do 2 eexists. split; [|reflexivity]. apply fisher_yates_perm.
Qed.

Lemma shuffle_permutes owner s s' : shuffle_library sha256 owner s = Ok s' ->
  exists lib r, lib ≡ₚ library_of s owner /\ s' = shuffled owner lib r s.
Proof. intros E. apply result_bind_ok in E as (t & _ & E). by eapply commit_permutes. Qed.

Lemma projection_permutes owner cards s s' : valid_player owner ->
  shuffle_projection sha256 owner cards s = Ok s' -> library_of s' owner ≡ₚ cards.
Proof.
  intros Hp E. apply shuffle_permutes in E as (lib & r & HP & ->).
  pose proof (library_becomes owner cards s Hp) as B. pose proof (new_library _ _ _ _ _ _ _ B) as E0.
  rewrite E0 in HP. pose proof (shuffled_becomes owner lib r
    (update_player owner (with_library cards) s) Hp) as B1.
  pose proof (new_library _ _ _ _ _ _ _ B1) as E1. rewrite E1. exact HP.
Qed.

Lemma with_randomness_ok s r : state_ok s -> state_ok (with_randomness s r).
Proof. apply kept_state. by apply zones_kept; [apply with_randomness_same|..]. Qed.

Lemma shuffle_library_ok owner s s' :
  state_ok s -> valid_player owner -> shuffle_library sha256 owner s = Ok s' -> state_ok s'.
Proof.
  intros [H Hv] Hp E. apply shuffle_permutes in E as (lib & r & HP & ->).
  split; [by apply shuffled_ok|by apply (objects_owners s)].
Qed.

(** What randomizing the bottom does, when there is anything to randomize. *)
Lemma randomize_bottom_becomes owner count s s' :
  valid_player owner -> randomize_library_bottom_v1 sha256 owner count s = Ok s' ->
  let n := length (library_of s owner) in
  let start := n - Nat.min count n in
  if decide (Nat.min count n < 2) then s' = s
  else exists bottom, bottom ≡ₚ drop start (library_of s owner) /\
    (objects s' = objects s /\ rest s' = rest s) /\
    becomes s s' owner (take start (library_of s owner) ++ bottom) (hand_of s owner)
      (fun o => filter (fun e => place e < start) (known_library_cards s o owner))
      (fun o => known_hand_cards s o owner).
Proof.
  intros Hp E n start. unfold randomize_library_bottom_v1 in E.
  rewrite owner_exact in E by done. cbn [result_bind] in E. fold n in E.
  destruct (decide (Nat.min count n < 2)); [by injection E as <-|].
  destruct (spellbench_neutral_choices _); [done|]. fold start in E.
  apply result_bind_ok in E as (staged & E' & [= <-]).
  exists (library_of staged owner). split; [by apply projection_permutes in E'|].
  split; [by split|].
  eapply (becomes_library_rows _ _ _ _ _ _ _ (fun _ => filter (fun e => place e < start)) Hp).
  eapply becomes_same; [done|apply library_becomes; done|apply with_randomness_same].
Qed.

Lemma randomize_bottom_ok owner count s s' :
  state_ok s -> valid_player owner -> randomize_library_bottom_v1 sha256 owner count s = Ok s' ->
  state_ok s'.
Proof.
  intros [H Hv] Hp E. apply randomize_bottom_becomes in E; [|done]. cbn zeta in E.
  case_decide; [by subst s'|]. destruct E as (bottom & HP & [EO ER] & B).
  assert (forall id, ident s' id = ident s id) as Ei by (intros id; unfold ident, get; by rewrite EO).
  split; [|by apply (objects_owners s)].
  eapply hidden_ok_rows; [exact H|exact Hp|exact B|exact Ei|].
  apply owner_ok_new_library; [done..| |].
  - rewrite HP. by rewrite take_drop.
  - intros o Ho. by apply suffix_replaced_ok, library_row_ok.
Qed.

(** A sampling transaction that returns has only moved the random state. *)
Lemma sampled_ok owner cards s chosen s' :
  state_ok s -> sample_card sha256 owner cards s = Ok (chosen, s') -> state_ok s'.
Proof.
  intros Hs E. unfold sample_card in E. case_decide; [by injection E as _ <-|].
  apply result_bind_ok in E as (p & _ & [= _ <-]). by apply with_randomness_ok.
Qed.

Lemma from_reject_ok {E A} (r : result E A) a : from_reject r = Ok a -> r = Ok a.
Proof. destruct r; cbn; congruence. Qed.

Lemma random_hand_ok owner s chosen s' :
  state_ok s -> random_hand_card_v1 sha256 owner s = Ok (chosen, s') -> state_ok s'.
Proof.
  intros Hs E. apply result_bind_ok in E as (w & _ & E). apply result_bind_ok in E as (cards & _ & E).
  apply from_reject_ok in E. by eapply sampled_ok.
Qed.

Lemma random_graveyard_ok owner s chosen s' :
  state_ok s -> random_graveyard_card_v1 sha256 owner s = Ok (chosen, s') -> state_ok s'.
Proof.
  intros Hs E. apply result_bind_ok in E as (w & _ & E). apply result_bind_ok in E as (cards & _ & E).
  apply from_reject_ok in E. by eapply sampled_ok.
Qed.

Lemma flip_coin_ok player s won s' :
  state_ok s -> flip_coin_v1 sha256 player s = Ok (won, s') -> state_ok s'.
Proof.
  intros Hs E. apply result_bind_ok in E as (w & _ & E).
  apply result_bind_ok in E as (projected & _ & [= _ <-]). by apply with_randomness_ok.
Qed.
End RandomSteps.

(* ------------------------------------------------------------------ *)
(** ** Steps *)

Section Reachable.
Context {V4 Rest : Type} `{!ObjectRules V4 Rest} (sha256 : bytes -> bytes).
Implicit Types s : GameState V4 Rest.

(** The rest of the kernel: objects may be created and everything else of the
    state may change, but no card moves between hidden zones, no fact changes
    and no object changes its owner, zone or incarnation. *)
Record elsewhere s s' : Prop := MkElsewhere {
  el_library : forall p, valid_player p -> library_of s' p = library_of s p;
  el_hand : forall p, valid_player p -> hand_of s' p = hand_of s p;
  el_library_rows : forall o p, valid_player o -> valid_player p ->
    known_library_cards s' o p = known_library_cards s o p;
  el_hand_rows : forall o p, valid_player o -> valid_player p ->
    known_hand_cards s' o p = known_hand_cards s o p;
  el_ident : forall id i, ident s id = Some i -> ident s' id = Some i;
  el_owners : owners_valid s';
}.

Inductive step s : GameState V4 Rest -> Prop :=
  | step_elsewhere s' : elsewhere s s' -> step s s'
  | step_draw p c s' : valid_player p -> draw_card p s = Some (c, s') -> step s s'
  | step_zone_change id to placement preserve visibility face bc s' : is_u32 id ->
      materialize_zone_change_v1 id to placement preserve visibility face bc s = Some s' -> step s s'
  | step_cast id from s' : is_u32 id -> zone <$> get s id = Some from ->
      move_to_stack id from s = Some s' -> step s s'
  | step_aborted_cast id madness origin s' : is_u32 id -> zone <$> get s id = Some Zone.Stack ->
      materialize_aborted_cast_v1 id madness origin s = Some s' -> step s s'
  | step_cease id s' b : cease_to_exist id s = Some (s', b) -> step s s'
  | step_play player id b s' : valid_player player -> is_u32 id ->
      move_hand_to_battlefield player id s = Some (b, s') -> step s s'
  | step_reveal_hand observer w id s' : valid_player observer -> valid_player w ->
      reveal_hand_card observer w id s = Ok s' -> step s s'
  | step_reveal_top observer w count s' : valid_player observer -> valid_player w ->
      reveal_library_top observer w count s = Some s' -> step s s'
  | step_reveal_position observer w at_ s' : valid_player observer -> valid_player w ->
      reveal_library_position observer w at_ s = Some s' -> step s s'
  | step_forget_hand w : valid_player w -> step s (clear_nonowner_hand_knowledge w s)
  | step_reorder w ordered revealed_to s' : valid_player w ->
      reorder_library_top w ordered revealed_to s = Ok s' -> step s s'
  | step_scry w prefix top bottom s' : valid_player w ->
      apply_scry_result w prefix top bottom s = Ok s' -> step s s'
  | step_shuffle w s' : valid_player w -> shuffle_library sha256 w s = Ok s' -> step s s'
  | step_search_top w selected shown_to s' : valid_player w -> (forall o, o ∈ shown_to -> valid_player o) ->
      library_top_after_shuffle sha256 w selected shown_to s = Ok s' -> step s s'
  | step_bottom w count s' : valid_player w ->
      randomize_library_bottom_v1 sha256 w count s = Ok s' -> step s s'
  | step_random_hand w c s' : valid_player w -> random_hand_card_v1 sha256 w s = Ok (c, s') -> step s s'
  | step_random_graveyard w c s' : valid_player w ->
      random_graveyard_card_v1 sha256 w s = Ok (c, s') -> step s s'
  | step_flip w won s' : valid_player w -> flip_coin_v1 sha256 w s = Ok (won, s') -> step s s'
  | step_resample seed : step s (resample_future_randomness_for_search_v3 seed s).

(** Decks hold cards of the table, at most as many as there are object numbers. *)
Inductive reachable : GameState V4 Rest -> Prop :=
  | reachable_legacy lib0 lib1 seed first : Forall in_table (lib0 ++ lib1) ->
      (Z.of_nat (length lib0 + length lib1) <= u32_max + 1)%Z ->
      reachable (new_from_libraries_with_starting_player_v1 lib0 lib1 seed first)
  | reachable_v2 lib0 lib1 root first : Forall in_table (lib0 ++ lib1) ->
      (Z.of_nat (length lib0 + length lib1) <= u32_max + 1)%Z ->
      reachable (new_from_libraries_environment_v2_with_starting_player_v1 lib0 lib1 root first)
  | reachable_step s s' : reachable s -> step s s' -> reachable s'.

Lemma elsewhere_ok s s' : elsewhere s s' -> state_ok s -> state_ok s'.
Proof.
  intros [E1 E2 E3 E4 E5 E6] [H Hv]. split; [|done].
  intros w Hp. unfold owner_view_ok. rewrite E1, E2 by done.
  eapply owner_ok_pointwise; [done|by intros; apply E3|by intros; apply E4|].
  eapply owner_ok_ext; [|by apply H]. intros id [Hid|Hid].
  - destruct (library_lives s w id H Hp Hid) as (_ & g & Eg). rewrite Eg. by apply E5.
  - destruct (hand_lives s w id H Hp Hid) as (_ & g & Eg). rewrite Eg. by apply E5.
Qed.

Lemma clear_nonowner_ok w s : state_ok s -> valid_player w ->
  state_ok (clear_nonowner_hand_knowledge w s).
Proof.
  intros [H Hv] Hw. split; [|by destruct Hw as [->| ->]; apply (objects_owners s)].
  assert (becomes s (clear_nonowner_hand_knowledge w s) w (library_of s w) (hand_of s w)
    (fun o => known_library_cards s o w)
    (fun o => if decide (o <> w) then [] else known_hand_cards s o w)) as B.
  { unfold clear_nonowner_hand_knowledge, for_observers.
    destruct Hw as [->| ->];
      rewrite ?(decide_False (P := P0 <> P0)), ?(decide_False (P := P1 <> P1)),
        ?(decide_True (P := P1 <> P0)), ?(decide_True (P := P0 <> P1)) by (intros Hn; by apply Hn);
      split; seats; first [reflexivity | by intros Hne; destruct Hne | by intros _]. }
  eapply hidden_ok_rows; [exact H|exact Hw|exact B| |].
  - intros id. by destruct Hw as [->| ->].
  - destruct (H w Hw) as [HL HH HK HR HE]. split; [done|done|done| |].
    + intros o Ho. case_decide; [apply hand_row_ok_nil|by apply HR].
    + by rewrite decide_False by (intros Hn; by apply Hn).
Qed.

(* ------------------------------------------------------------------ *)
(** ** Every step keeps the invariant *)

Lemma reveal_top_objects o w count s s' :
  reveal_library_top o w count s = Some s' -> objects s' = objects s /\ rest s' = rest s.
Proof.
  unfold reveal_library_top. destruct (anchor_entries _ _); [cbn|done]. by intros [= <-].
Qed.

Lemma reorder_objects w ordered revealed_to s s' :
  reorder_library_top w ordered revealed_to s = Ok s' -> objects s' = objects s /\ rest s' = rest s.
Proof.
  unfold reorder_library_top. case_decide; [done|]. case_decide; [done|].
  intros E. by apply result_bind_ok in E as (new & _ & [= <-]).
Qed.

Lemma scry_objects w prefix top bottom s s' :
  apply_scry_result w prefix top bottom s = Ok s' -> objects s' = objects s /\ rest s' = rest s.
Proof.
  unfold apply_scry_result. case_decide; [done|]. intros E.
  apply result_bind_ok in E as (_ & _ & E). case_decide; [done|].
  apply result_bind_ok in E as (r0 & _ & E). by apply result_bind_ok in E as (r1 & _ & [= <-]).
Qed.

Lemma reveal_top_state o w count s s' :
  state_ok s -> valid_player o -> valid_player w -> reveal_library_top o w count s = Some s' ->
  state_ok s'.
Proof.
  intros [H Hv] Ho Hw E. split; [|by eapply objects_owners; [eapply reveal_top_objects|]].
  destruct (reveal_library_top_ok o w count s H Ho Hw) as (s1 & E1 & H1).
  rewrite E in E1. by injection E1 as ->.
Qed.

Lemma reveal_position_state o w at_ s s' :
  state_ok s -> valid_player o -> valid_player w -> reveal_library_position o w at_ s = Some s' ->
  state_ok s'.
Proof.
  intros Hs Ho Hw E. assert (at_ < length (library_of s w)) as Hlt.
  { unfold reveal_library_position in E. destruct (library_of s w !! at_) eqn:El; [|done].
    by eapply lookup_lt_Some. }
  destruct (reveal_library_position_state o w at_ s Hs Ho Hw Hlt) as (s1 & E1 & H1 & _).
  rewrite E in E1. by injection E1 as ->.
Qed.

Lemma reveal_hand_state o w id s s' :
  state_ok s -> valid_player o -> valid_player w -> reveal_hand_card o w id s = Ok s' -> state_ok s'.
Proof.
  intros Hs Ho Hw E. assert (id ∈ hand_of s w) as Hin.
  { unfold reveal_hand_card in E. destruct (get s id); [|done].
    destruct (bool_decide (id ∈ hand_of s w)) eqn:EB; [by apply bool_decide_eq_true in EB|].
    by rewrite andb_false_r in E. }
  destruct (reveal_hand_card_ok o w id s Hs Ho Hw Hin) as (s1 & E1 & H1 & _).
  rewrite E in E1. by injection E1 as ->.
Qed.

Lemma reorder_becomes w ordered revealed_to s s' :
  hidden_ok s -> valid_player w -> reorder_library_top w ordered revealed_to s = Ok s' ->
  hidden_ok s' /\ exists lk, becomes s s' w (ordered ++ drop (length ordered) (library_of s w))
      (hand_of s w) lk (fun o => known_hand_cards s o w) /\
    forall o, o ∉ revealed_to ->
      lk o = filter (fun e => length ordered <= place e) (known_library_cards s o w).
Proof.
  intros H Hw E. assert (ordered ≡ₚ take (length ordered) (library_of s w)) as HP.
  { unfold reorder_library_top in E. case_decide; [done|]. case_decide as Hs; [done|].
    by apply sorted_objects_perm. }
  destruct (reorder_library_top_ok w ordered revealed_to s H Hw HP) as (s1 & E1 & K).
  rewrite E in E1. by injection E1 as ->.
Qed.

Lemma reorder_state w ordered revealed_to s s' :
  state_ok s -> valid_player w -> reorder_library_top w ordered revealed_to s = Ok s' -> state_ok s'.
Proof.
  intros [H Hv] Hw E. split; [|by eapply objects_owners; [eapply reorder_objects|]].
  by apply (reorder_becomes w ordered revealed_to s s' H Hw E).
Qed.

(** A scry that returns was asked for what it must be asked for. *)
Lemma scry_returns w prefix top bottom s s' :
  hidden_ok s -> valid_player w -> apply_scry_result w prefix top bottom s = Ok s' ->
  scry_valid s w prefix top bottom /\ hidden_ok s' /\
  becomes s s' w (scried_library s w (length prefix) top bottom) (hand_of s w)
    (fun o => known_library_cards s' o w) (fun o => known_hand_cards s o w) /\
  (forall o, valid_player o -> Some (known_library_cards s' o w) = scry_row s w o prefix top bottom).
Proof.
  intros H Hw E. assert (scry_valid s w prefix top bottom) as HV.
  { unfold apply_scry_result in E. case_decide; [done|].
    apply result_bind_ok in E as ([] & EF & E). case_decide as Hs; [done|].
    split; [|by apply sorted_objects_perm].
    intros i l Hl. apply (check_scry_prefix_ok s w i l H Hw).
    rewrite try_fold_unit_ok in EF. apply EF, elem_of_enumerate. by exists i. }
  split; [done|]. destruct (apply_scry_result_ok s w prefix top bottom H Hw HV) as (s1 & E1 & K).
  rewrite E in E1. by injection E1 as ->.
Qed.

Lemma scry_state w prefix top bottom s s' :
  state_ok s -> valid_player w -> apply_scry_result w prefix top bottom s = Ok s' -> state_ok s'.
Proof.
  intros [H Hv] Hw E. split; [|by eapply objects_owners; [eapply scry_objects|]].
  by apply (scry_returns w prefix top bottom s s' H Hw E).
Qed.
End Reachable.

(* ------------------------------------------------------------------ *)
(** ** Cards that come back *)

Section Returning.
Context {V4 Rest : Type} `{!ObjectRules V4 Rest} `{!LawfulRules V4 Rest}.
Implicit Types s : GameState V4 Rest.
Set Default Proof Using "Type*".

(** The zones a spell can have been cast from. *)
Definition castable_from (from : Zone.t) : Prop :=
  from = Zone.Hand \/ from = Zone.Graveyard \/ from = Zone.Exile \/ from = Zone.Library.

(** Nothing is forgotten of a card that was in no hand. *)
Lemma forgotten_same s s1 id :
  hidden_ok s -> away s id ->
  (forall o p, valid_player o -> valid_player p -> known_hand_cards s1 o p = known_hand_cards s o p) ->
  same_hidden s1 (forget_hand_object id s1).
Proof.
  intros H Ha E. split; [done|done|done| |done]. intros o p Ho Hp.
  rewrite forget_hand_rows by done. rewrite E by done. apply filter_all, list.Forall_forall.
  intros e He Eid. destruct (H p Hp) as [_ _ _ HR _].
  destruct (proj1 (HR o Ho) e He) as [Hin _]. rewrite Eid in Hin. by apply (Ha p Hp).
Qed.

(** A card of no library and no hand, put into a zone before its facts are dropped. *)
Lemma return_by s s1 id o to lib hd lk before :
  state_ok s -> away s id -> is_u32 id -> get s id = Some o ->
  objects s1 = objects s -> rest s1 = rest s ->
  becomes s s1 (owner o) lib hd lk (fun q => known_hand_cards s q (owner o)) ->
  (forall i, i id = Some (owner o, to, wrap_u32 (zone_change_count o + 1)) ->
     owner_view_ok s i (owner o) ->
     owner_ok i (owner o) lib hd lk (fun q => known_hand_cards s q (owner o))) ->
  lib = gained_library Top to id (library_of s (owner o)) ->
  hd = gained_hand to id (hand_of s (owner o)) ->
  exists s', (s2 ← enter_zone id to (clear_object_relations id (forget_hand_object id s1));
              s3 ← update_object id (set_controller (owner o)) s2;
              Some (aborted_effects id before s3)) = Some s' /\ state_ok s'.
Proof.
  intros Hs Ha Hid E Eo Er B Hok Hl Hh. pose proof Hs as [H Hv].
  assert (valid_player (owner o)) as Hw by (eapply (proj1 Hv), ident_get, E).
  assert (same_hidden s1 (forget_hand_object id s1)) as S1.
  { apply (forgotten_same s); [done|done|]. intros q p Hq Hp. destruct (decide (p = owner o)) as [->|Hne].
    - by rewrite (new_hand_rows _ _ _ _ _ _ _ B).
    - by apply (other_hand_rows _ _ _ _ _ _ _ B). }
  pose proof (clear_object_relations_same id (forget_hand_object id s1)) as S2.
  set (s2 := clear_object_relations _ _) in *.
  assert (forall x, ident s2 x = ident s x) as Ei.
  { intros x. rewrite (same_ident _ _ S2), forget_ident. unfold ident, get. by rewrite Eo. }
  pose proof (Ei id) as Eid. rewrite (ident_get s id o E) in Eid.
  apply ident_some in Eid as (o2 & E2 & Ow & _ & Eg).
  rewrite <- Ow in *. rewrite <- Eg in Hok.
  assert (tabled s2) as Ht.
  { apply (kept_tabled _ _ S2). eapply tabled_same; [exact Eo|exact Er|apply Hv]. }
  destruct (arrive_kept s s2 id o2 to Top lib hd lk _ Hs Ha Hid E2 Ei Ht
    (becomes_same _ _ _ _ _ _ _ _ Hw (becomes_same _ _ _ _ _ _ _ _ Hw B S1) (kept_hidden _ _ S2)) Hok Hl Hh)
    as (s3 & E3 & A).
  rewrite E3. cbn [mbind option_bind]. destruct (ar_ident _ _ _ _ _ _ A) as (g & Ei3).
  apply ident_some in Ei3 as (o3 & G3 & Ow3 & _ & _).
  destruct (update_object_same s3 id o3 (set_controller (owner o2)) G3) as (s4 & E4 & S4 & _);
    [done..|apply A|]. rewrite E4. eexists. split; [reflexivity|].
  eapply kept_state; [apply aborted_effects_same|]. eapply kept_state; [exact S4|apply A].
Qed.

(** Back on top of the library, whose facts move down. *)
Lemma library_return s id o before :
  state_ok s -> away s id -> is_u32 id -> get s id = Some o ->
  exists s', (s1 ← return_to_zone (owner o) id Zone.Library s;
    s2 ← enter_zone id Zone.Library (clear_object_relations id (forget_hand_object id s1));
    s3 ← update_object id (set_controller (owner o)) s2; Some (aborted_effects id before s3)) = Some s' /\ state_ok s'.
Proof.
  intros Hs Ha Hid E. pose proof Hs as [H Hv].
  assert (valid_player (owner o)) as Hw by (eapply (proj1 Hv), ident_get, E).
  set (w := owner o) in *. set (i := fun x => if decide (x = id) then Some (w, Zone.Library, 0%Z) else ident s x).
  destruct (owner_ok_insert s i id w 0%Z 0) as (r0 & r1 & E0 & E1 & _);
    [|done..|unfold i; by rewrite decide_True|lia|].
  { apply away_ident_ok with id; [done..|]. intros x _ Hne. unfold i. by rewrite decide_False. }
  set (s1 := update_player w (fun ps => with_library (insert_at 0 id (library ps)) ps) s).
  assert (becomes s s1 w (insert_at 0 id (library_of s w)) (hand_of s w)
    (fun q => known_library_cards s q w) (fun q => known_hand_cards s q w)) as B1
    by exact (update_player_becomes w (fun ps => with_library (insert_at 0 id (library ps)) ps) s Hw).
  destruct (note_insertion_becomes w 0 s1 r0 r1 Hw) as (s2 & En & Eo & Er & B2).
  { by rewrite (new_library_rows _ _ _ _ _ _ _ B1) by apply valid_P0. }
  { by rewrite (new_library_rows _ _ _ _ _ _ _ B1) by apply valid_P1. }
  cbn [return_to_zone]. fold s1. rewrite En. cbn [mbind option_bind].
  eapply (return_by s s2 id o Zone.Library (insert_at 0 id (library_of s w)) (hand_of s w)
    (fun q => if decide (q = P0) then r0 else r1)); [done|done|done|done|exact Eo|exact Er| | |done|done].
  - destruct (becomes_trans _ _ _ _ _ _ _ _ _ _ _ _ B1 B2) as [N1 N2 N3 N4 O1 O2 O3 O4].
    split; [|by etransitivity; [exact N2|apply B1]|done| |done..].
    + etransitivity; [exact N1|apply B1].
    + intros q Hq. rewrite N4 by done. by apply B1.
  - intros i' Ei Hok.
    destruct (owner_ok_insert s i' id w _ 0 Hok Ha Hw Hid Ei ltac:(lia)) as (r0' & r1' & E0' & E1' & Hok').
    assert (r0' = r0) as -> by congruence. assert (r1' = r1) as -> by congruence. exact Hok'.
Qed.

(** The card of an aborted cast returns, exactly when it was cast from a zone it can be
    cast from. *)
Lemma aborted_cast_ok id madness origin s o :
  state_ok s -> is_u32 id -> get s id = Some o -> zone o = Zone.Stack ->
  let to := if (madness : bool) then Zone.Graveyard else origin in
  if decide (castable_from to) then
    exists s', materialize_aborted_cast_v1 id madness origin s = Some s' /\ state_ok s'
  else materialize_aborted_cast_v1 id madness origin s = None.
Proof.
  intros Hs Hid E Ez to. pose proof Hs as [H Hv].
  unfold materialize_aborted_cast_v1. fold to. set (s0 := with_stack s _).
  assert (state_ok s0) as Hs0 by (eapply kept_state; [|exact Hs]; by apply zones_kept).
  assert (away s0 id) as Ha.
  { intros p Hp. split; intros Hin.
    - destruct (in_library_owner s p id o H Hp E Hin) as [_ Hz]. congruence.
    - destruct (in_hand_owner s p id o H Hp E Hin) as [_ Hz]. congruence. }
  assert (get s0 id = Some o) as E0 by exact E. rewrite E0. cbn [mbind option_bind].
  assert (valid_player (owner o)) as Hw by (eapply (proj1 Hv), ident_get, E).
  pose proof (becomes_refl s0 (owner o)) as B0.
  assert (forall s1, return_to_zone (owner o) id to s0 = Some s1 -> objects s1 = objects s0 ->
    rest s1 = rest s0 -> same_hidden s0 s1 -> to <> Zone.Hand -> to <> Zone.Library ->
    exists s', (s1 ← return_to_zone (owner o) id to s0;
      s2 ← enter_zone id to (clear_object_relations id (forget_hand_object id s1));
      s3 ← update_object id (set_controller (owner o)) s2; Some (aborted_effects id s s3)) = Some s' /\ state_ok s')
    as K.
  { intros s1 -> Eo Er S HH HL. cbn [mbind option_bind].
    eapply return_by; [exact Hs0|exact Ha|exact Hid|exact E0|exact Eo|exact Er|
      exact (becomes_same _ _ _ _ _ _ _ _ Hw B0 S)|by intros|by destruct to|by destruct to]. }
  case_decide as Hto; unfold castable_from in Hto.
  2: { destruct to; try done; destruct Hto; tauto. }
  destruct Hto as [-> |[-> |[-> | ->]]]; [| | |].
  - cbn [return_to_zone mbind option_bind].
    pose proof (update_player_becomes (owner o) (fun ps => with_hand (hand ps ++ [id]) ps) s0 Hw) as B.
    eapply return_by; [exact Hs0|exact Ha|exact Hid|exact E0|done|done|exact B| |done|done].
    intros i Ei Hok. by eapply owner_ok_push_hand.
  - eapply K; [reflexivity|done|done| |done|done]. by apply public_zone_same.
  - eapply K; [reflexivity|done|done|by split|done|done].
  - by apply library_return.
Qed.

(** A searched card is put on top of the shuffled library and shown, without a panic. *)
Lemma search_top_ok (sha256 : bytes -> bytes) w selected shown_to s :
  state_ok s -> valid_player w -> (forall o, o ∈ shown_to -> valid_player o) ->
  match library_top_after_shuffle sha256 w selected shown_to s with
  | Ok s' => state_ok s'
  | Err e => e <> Panic
  end.
Proof.
  intros Hs Hw Hshown. pose proof Hs as [H Hv]. unfold library_top_after_shuffle.
  destruct (shuffle_library sha256 w s) as [s1|e] eqn:E; [|done].
  pose proof (shuffle_library_ok sha256 w s s1 Hs Hw E) as Hs1.
  destruct selected as [|card selected]; [done|].
  destruct (index_of card (library_of s1 w)) as [at_|] eqn:Ei; [cbn [ok_or result_bind]|done].
  apply shuffle_permutes in E as (lib & r & HP & ->). pose proof (shuffled_becomes w lib r s Hw) as B.
  rewrite (new_library _ _ _ _ _ _ _ B) in Ei. apply index_of_some in Ei as [Ei _].
  set (s1 := shuffled w lib r s) in *.
  set (s2 := update_player w _ s1).
  assert (becomes s s2 w (insert_at 0 card (delete at_ lib)) (hand_of s w) (fun _ => [])
    (fun q => known_hand_cards s q w)) as B2.
  { eapply becomes_zones; [exact Hw|exact B| |exact (new_hand _ _ _ _ _ _ _ B)].
    change (insert_at 0 card (delete at_ (library_of s1 w)) = insert_at 0 card (delete at_ lib)).
    by rewrite (new_library _ _ _ _ _ _ _ B). }
  assert (state_ok s2) as Hs2.
  { split; [|by apply (objects_owners s)]. eapply hidden_ok_rows; [exact H|exact Hw|exact B2|done|].
    apply owner_ok_new_library; [done|done| |].
    - change (insert_at 0 card (delete at_ lib)) with (card :: delete at_ lib).
      rewrite <- HP. symmetry. by apply delete_Permutation.
    - intros o _. apply row_ok_nil. }
  destruct (reveal_to_each_ok (fun observer => reveal_library_position observer w 0)
    (fun s => 0 < length (library_of s w)) shown_to s2) as (s3 & E3 & Hs3 & _); [| |done| |].
  - intros q s3 Hq Hs3 Hl. apply reveal_library_position_state; [done|by apply Hshown|done..].
  - intros s3 s4 S. by rewrite (sz_library _ _ S).
  - rewrite (new_library _ _ _ _ _ _ _ B2). apply Nat.lt_0_succ.
  - by rewrite E3.
Qed.
End Returning.

Section StepsKeep.
Context {V4 Rest : Type} `{!ObjectRules V4 Rest} `{!LawfulRules V4 Rest} (sha256 : bytes -> bytes).
Implicit Types s : GameState V4 Rest.
Set Default Proof Using "Type*".

Lemma draw_state p c s s' :
  state_ok s -> valid_player p -> draw_card p s = Some (c, s') -> state_ok s'.
Proof.
  intros Hs Hp E. destruct (library_of s p) as [|id lib] eqn:El.
  - unfold draw_card in E. rewrite El in E. by injection E as _ <-.
  - destruct (library_generation s p id) as [g Eg]; [apply Hs|done|rewrite El; by left|].
    destruct (draw_card_ok p s id lib g Hs Hp El Eg) as (s1 & E1 & H1 & _).
    rewrite E in E1. by injection E1 as _ ->.
Qed.

Lemma zone_change_state id to placement preserve visibility face bc s s' :
  state_ok s -> is_u32 id ->
  materialize_zone_change_v1 id to placement preserve visibility face bc s = Some s' -> state_ok s'.
Proof.
  intros Hs Hid E. destruct (get s id) as [o|] eqn:Eo.
  2: { unfold materialize_zone_change_v1 in E. by rewrite Eo in E. }
  assert (to <> Zone.Stack) as Hto.
  { intros ->. unfold materialize_zone_change_v1, move_between_zones in E. rewrite Eo in E.
    cbn [mbind option_bind] in E.
    destruct (decide (zone o = Zone.Stack /\ Zone.Stack = Zone.Battlefield)) as [[_ ?]|_]; [done|].
    cbn [mbind option_bind] in E. by destruct (remove_from_zone _ _ _ _) as [[s1 b]|]. }
  by destruct (materialize_state id to placement preserve visibility face bc s o s' Hs Hid Eo Hto E).
Qed.

Lemma step_ok s s' : state_ok s -> step sha256 s s' -> state_ok s'.
Proof.
  intros Hs. destruct 1.
  - eapply elsewhere_ok; [..|eassumption]; done.
  - eapply draw_state; [..|eassumption]; done.
  - eapply zone_change_state; [..|eassumption]; done.
  - destruct (get s id) as [o|] eqn:Eo; [|done].
    match goal with E : _ <$> Some o = Some _ |- _ => injection E as <- end.
    destruct (move_to_stack_ok id s o) as (s1 & E1 & Hs1); [done..|].
    match goal with E : move_to_stack _ _ _ = Some _ |- _ => rewrite E1 in E; by injection E as <- end.
  - match goal with E : materialize_aborted_cast_v1 _ _ _ _ = _ |- _ => rename E into E0 end.
    destruct (get s id) as [o|] eqn:Eo; [|done].
    match goal with E : _ <$> Some o = Some _ |- _ => injection E as Ez end.
    pose proof (aborted_cast_ok id madness origin s o Hs ltac:(done) Eo Ez) as K. cbn zeta in K.
    case_decide; [|congruence]. destruct K as (s1 & E1 & Hs1). rewrite E1 in E0. by injection E0 as <-.
  - match goal with E : cease_to_exist _ _ = _ |- _ => rename E into E0 end.
    destruct (get s id) as [o|] eqn:Eo; [|unfold cease_to_exist in E0; by rewrite Eo in E0].
    destruct (cease_to_exist_ok id s o) as (s1 & b1 & E1 & Hs1); [done..|].
    rewrite E1 in E0. by injection E0 as <- _.
  - destruct (move_hand_to_battlefield_ok player id s) as (b1 & s1 & E1 & Hs1 & _); [done..|].
    match goal with E : move_hand_to_battlefield _ _ _ = Some _ |- _ =>
      rewrite E1 in E; by injection E as _ <- end.
  - eapply reveal_hand_state; [..|eassumption]; done.
  - eapply reveal_top_state; [..|eassumption]; done.
  - eapply reveal_position_state; [..|eassumption]; done.
  - by apply clear_nonowner_ok.
  - eapply reorder_state; [..|eassumption]; done.
  - eapply scry_state; [..|eassumption]; done.
  - eapply shuffle_library_ok; [..|eassumption]; done.
  - match goal with E : library_top_after_shuffle _ _ ?l ?o _ = _ |- _ =>
      pose proof (search_top_ok sha256 w l o s Hs ltac:(done) ltac:(done)) as K; by rewrite E in K end.
  - eapply randomize_bottom_ok; [..|eassumption]; done.
  - eapply random_hand_ok; [..|eassumption]; done.
  - eapply random_graveyard_ok; [..|eassumption]; done.
  - eapply flip_coin_ok; [..|eassumption]; done.
  - by apply with_randomness_ok.
Qed.

Lemma reachable_ok s : reachable sha256 s -> state_ok s.
Proof.
  induction 1 as [lib0 lib1 seed first Hd Hb|lib0 lib1 root first Hd Hb|s s' _ IH Hstep].
  - by apply new_from_libraries_ok.
  - by apply with_randomness_ok, new_from_libraries_ok.
  - eapply step_ok; [..|eassumption]; done.
Qed.
End StepsKeep.
