(* ===== verification/LibraryKnowledge.v ===== *)
(** * What the players know, and what they cannot find out

    The properties of the hidden zones: recorded knowledge is true in every
    reachable state, which operations panic there, draws and scries do to cards
    and knowledge what the rules say, and what one player does in hidden zones
    tells the other nothing: two states that look the same to an observer still
    look the same after it. *)

From S2P Require Import Prelude Ids Bytes Randomness RandomnessFacts Library LibraryRows LibraryFacts LibraryMoves LibraryShuffle LibraryReach.
Import PlayerIds.

(** [observer] has a fact about the card at a position of the library. *)
Definition knows {V4 Rest} (s : GameState V4 Rest) (observer owner : PlayerId) (i : nat) : Prop :=
  exists e, e ∈ known_library_cards s observer owner /\ place e = i.

(* ------------------------------------------------------------------ *)
(** ** Scries *)

Section Scries.
Context {V4 Rest : Type} `{!ObjectRules V4 Rest}.
Implicit Types s : GameState V4 Rest.

Lemma scry_tail_place s owner o n (bottom : list ObjectId) i :
  hidden_ok s -> valid_player owner -> valid_player o ->
  length bottom <= n <= length (library_of s owner) ->
  (exists e, e ∈ scry_tail n (length bottom) (known_library_cards s o owner) /\ place e = i) <->
  n <= i + length bottom /\ knows s o owner (i + length bottom).
Proof.
  intros H Hp Ho Hn. pose proof (library_fits s owner H Hp) as Hfit. unfold fits, u32_max in Hfit.
  assert (forall e, e ∈ known_library_cards s o owner -> n <= place e ->
    Z.to_nat (wrap_u32 (position e - as_u32 (length bottom))) + length bottom = place e) as K.
  { intros e He Hle. destruct (library_row_ok s o owner H Ho Hp) as [HR _].
    destruct (HR e He) as (Hz & Hl%lookup_lt_Some & _). unfold place in *.
    rewrite as_u32_small, wrap_u32_small by (unfold u32_max; lia || (rewrite ?as_u32_small; unfold u32_max; lia)).
    lia. }
  unfold scry_tail, knows. split.
  - intros (e & (e0 & -> & [Hle He]%list_elem_of_filter)%list_elem_of_fmap & <-).
    specialize (K e0 He Hle). unfold place at 1 3; cbn. split; [lia|]. exists e0. by rewrite K.
  - intros (Hle & e & He & Ei). specialize (K e He). rewrite Ei in K. specialize (K Hle).
    exists (move_entry (fun p => wrap_u32 (p - as_u32 (length bottom))) e). split.
    + apply list_elem_of_fmap. exists e. split; [done|]. apply list_elem_of_filter. split; [lia|done].
    + unfold place; cbn. lia.
Qed.

(** A row after a scry: the moved tail and what was learned. *)
Lemma scry_row_place s owner o prefix top bottom r i :
  hidden_ok s -> valid_player owner -> valid_player o -> scry_valid s owner prefix top bottom ->
  scry_row s owner o prefix top bottom = Some r ->
  (exists e, e ∈ r /\ place e = i) <->
  (length prefix <= i + length bottom /\ knows s o owner (i + length bottom)) \/
  exists new e, scry_learned s owner o prefix top bottom = Some new /\ e ∈ new /\ place e = i.
Proof.
  intros H Hp Ho HV E. pose proof (scry_lengths _ _ _ _ _ HV) as HL.
  pose proof (scry_prefix_length _ _ _ _ _ HV) as HLe.
  rewrite <- (scry_tail_place s owner o (length prefix) bottom i) by (done || lia).
  unfold scry_row in E. destruct (scry_learned _ _ _ _ _ _) as [new|]; [|done].
  cbn in E. injection E as <-. setoid_rewrite merge_sort_Permutation.
  setoid_rewrite elem_of_app. split.
  - intros (e & [He|He] & Ei); [left; by exists e|right; by exists new, e].
  - intros [(e & He & Ei)|(new' & e & [= <-] & He & Ei)]; exists e; tauto.
Qed.

Lemma learned_own_place s owner prefix top bottom i :
  hidden_ok s -> valid_player owner -> scry_valid s owner prefix top bottom ->
  (exists new e, scry_learned s owner owner prefix top bottom = Some new /\ e ∈ new /\ place e = i) <->
  i < length top \/ length (library_of s owner) - length bottom <= i < length (library_of s owner).
Proof.
  intros H Hp HV. destruct (scry_learned_own s owner prefix top bottom H Hp HV)
    as (new & E & (HE & _ & _) & HP).
  pose proof (scry_lengths _ _ _ _ _ HV). pose proof (scry_prefix_length _ _ _ _ _ HV).
  assert (i < length top \/ length (library_of s owner) - length bottom <= i < length (library_of s owner)
          <-> Z.of_nat i ∈ map position new) as ->.
  { rewrite HP, list_elem_of_fmap. setoid_rewrite elem_of_app. setoid_rewrite elem_of_seq. split.
    - intros Hi. exists i. split; [done|lia].
    - intros (k & ?%Nat2Z.inj & Hk). lia. }
  split.
  - intros (new' & e & E' & He & <-). assert (new' = new) as -> by congruence.
    apply list_elem_of_fmap. exists e. split; [|done]. destruct (HE e He) as (? & _). unfold place. lia.
  - intros (e & Ei & He)%list_elem_of_fmap. exists new, e. split_and!; [done..|]. unfold place. lia.
Qed.

Lemma scry_learned_off_tail s w o prefix top bottom new e :
  hidden_ok s -> valid_player w -> scry_valid s w prefix top bottom ->
  scry_learned s w o prefix top bottom = Some new -> e ∈ new ->
  ~ (length top <= place e < length (library_of s w) - length bottom).
Proof.
  intros H Hw HV E He.
  assert (exists new, scry_learned s w o prefix top bottom = Some new /\
            learned_ok s w (length prefix) top bottom new) as (new' & E' & _ & _ & K).
  { destruct (decide (o = w)) as [->|Hne]; [|by apply scry_learned_other].
    destruct (scry_learned_own s w prefix top bottom H Hw HV) as (x & ? & ? & _). by exists x. }
  apply K. congruence.
Qed.

Lemma learned_other_none s owner o prefix top bottom new :
  o <> owner -> length prefix <> 1 -> scry_learned s owner o prefix top bottom = Some new -> new = [].
Proof.
  intros Hne Hl. unfold scry_learned. rewrite decide_False by done.
  destruct prefix as [|? [|]]; [|done|]; by intros [= <-].
Qed.
End Scries.

(* ------------------------------------------------------------------ *)
(** ** Draws *)

Section Draws.
Context {V4 Rest : Type} `{!ObjectRules V4 Rest}.
Implicit Types s : GameState V4 Rest.

(** The positions known after the top card has left. *)
Lemma removal_row_top_place s o p i :
  hidden_ok s -> valid_player o -> valid_player p ->
  (exists e, e ∈ removal_row 0 (known_library_cards s o p) /\ place e = i) <-> knows s o p (S i).
Proof.
  intros H Ho Hp. destruct (library_row_ok s o p H Ho Hp) as [HR _]. unfold removal_row, knows. split.
  - intros (e & (e0 & -> & [Hne He]%list_elem_of_filter)%list_elem_of_fmap & <-).
    destruct (HR e0 He) as (Hz & _). exists e0. split; [done|].
    rewrite decide_True by (unfold place in *; lia). unfold place; cbn. unfold place in Hne. lia.
  - intros (e & He & Ei). destruct (HR e He) as (Hz & _).
    exists (move_entry (fun p => p - 1)%Z e). split; [|unfold place in *; cbn; lia].
    apply list_elem_of_fmap. exists e. rewrite decide_True by lia. split; [done|].
    apply list_elem_of_filter. split; [lia|done].
Qed.

(** True knowledge of the top is knowledge of the top card. *)
Lemma knows_top s o p id g lib :
  hidden_ok s -> valid_player o -> valid_player p -> library_of s p = id :: lib ->
  generation_of s id = Some g ->
  Exists (fun e => place e = 0 /\ lk_object e = id /\ lk_generation e = g) (known_library_cards s o p)
  <-> knows s o p 0.
Proof.
  intros H Ho Hp El Eg. destruct (library_row_ok s o p H Ho Hp) as [HR _].
  rewrite Exists_exists. unfold knows. split.
  - intros (e & He & Ei & _). by exists e.
  - intros (e & He & Ei). exists e. destruct (HR e He) as (_ & Hl & Hg).
    rewrite Ei, El in Hl. injection Hl as ->. split_and!; [done..|congruence].
Qed.

(** Nobody has a fact about the top card as a card of the hand. *)
Lemma top_not_in_hand_facts s o p id lib :
  hidden_ok s -> valid_player o -> valid_player p -> library_of s p = id :: lib ->
  id ∉ map hk_object (known_hand_cards s o p).
Proof.
  intros H Ho Hp El (e & -> & He)%list_elem_of_fmap. destruct (H p Hp) as [_ _ _ HR _].
  destruct (HR o Ho) as [HR' _]. destruct (HR' e He) as [Hin _].
  destruct (library_lives s p (hk_object e) H Hp) as (_ & g1 & E1); [rewrite El; by left|].
  destruct (hand_lives s p (hk_object e) H Hp Hin) as (_ & g2 & E2). congruence.
Qed.

(** Whom the drawn card is known to in hand. *)
Lemma drawn_entry s o p id g lib :
  hidden_ok s -> valid_player o -> valid_player p -> o <> p -> library_of s p = id :: lib ->
  generation_of s id = Some g ->
  id ∈ map hk_object (map (fun e => if decide (hk_object e = id) then MkHandEntry id (wrap_u32 (g + 1)) else e)
         (transferred s p 0 id g o (known_hand_cards s o p))) <-> knows s o p 0.
Proof.
  intros H Ho Hp Hne El Eg. rewrite <- (knows_top s o p id g lib) by done.
  rewrite map_map, (map_ext _ hk_object) by (intros e; by case_decide).
  unfold transferred. rewrite decide_False by done.
  pose proof (top_not_in_hand_facts s o p id lib H Ho Hp El) as Hno.
  case_bool_decide as HE; [|tauto]. rewrite learn_hand_entry_elem. cbn. tauto.
Qed.
End Draws.

(* ------------------------------------------------------------------ *)
(** ** What an observer sees *)

(** What the hidden zones show one player: the sizes of libraries and hands,
    the own hand, and the facts recorded for that player. *)
Record HiddenView := MkView {
  view_own_hand : list ObjectId;
  view_libraries : per_player nat;
  view_hands : per_player nat;
  view_library_facts : per_player (list LibraryKnowledgeEntry);
  view_hand_facts : per_player (list HandKnowledgeEntry);
}.

Section Views.
Context {V4 Rest : Type} `{!ObjectRules V4 Rest}.
Implicit Types s t : GameState V4 Rest.

Definition hidden_view (o : PlayerId) s : HiddenView :=
  MkView (hand_of s o)
    (PerPlayer (length (library_of s P0)) (length (library_of s P1)))
    (PerPlayer (length (hand_of s P0)) (length (hand_of s P1)))
    (PerPlayer (known_library_cards s o P0) (known_library_cards s o P1))
    (PerPlayer (known_hand_cards s o P0) (known_hand_cards s o P1)).

(** Two states one player cannot tell apart by the hidden zones. *)
Definition indistinguishable (o : PlayerId) s t : Prop := hidden_view o s = hidden_view o t.

#[export] Instance indistinguishable_equivalence o : Equivalence (indistinguishable o).
Proof. split; red; unfold indistinguishable; congruence. Qed.

Record seen_alike (o : PlayerId) s t : Prop := MkSeenAlike {
  alike_hand : hand_of s o = hand_of t o;
  alike_library_size : forall p, valid_player p -> length (library_of s p) = length (library_of t p);
  alike_hand_size : forall p, valid_player p -> length (hand_of s p) = length (hand_of t p);
  alike_library_facts : forall p, valid_player p -> known_library_cards s o p = known_library_cards t o p;
  alike_hand_facts : forall p, valid_player p -> known_hand_cards s o p = known_hand_cards t o p;
}.

Lemma indistinguishable_alike o s t : indistinguishable o s t <-> seen_alike o s t.
Proof.
  unfold indistinguishable, hidden_view. split.
  - intros [=]. split; [done|..]; by intros p [->| ->].
  - intros [H1 H2 H3 H4 H5]. rewrite H1, !H2, !H3, !H4, !H5 by auto with kernel. done.
Qed.

(** Operations on one player's zones, seen from outside. *)
Lemma becomes_indistinguishable o s t s' t' p lib lib' hd hd' lk lk' hk hk' :
  valid_player o -> valid_player p -> indistinguishable o s t ->
  becomes s s' p lib hd lk hk -> becomes t t' p lib' hd' lk' hk' ->
  length lib = length lib' -> length hd = length hd' -> (o = p -> hd = hd') ->
  lk o = lk' o -> hk o = hk' o -> indistinguishable o s' t'.
Proof.
  rewrite !indistinguishable_alike. intros Ho Hp [H1 H2 H3 H4 H5]
    [A1 A2 A3 A4 A5 A6 A7 A8] [B1 B2 B3 B4 B5 B6 B7 B8] El Eh Eo Elk Ehk.
  split.
  - destruct (decide (o = p)) as [->|Hne]; [rewrite A2, B2; auto|]. by rewrite A6, B6.
  - intros q Hq. destruct (decide (q = p)) as [->|Hne]; [by rewrite A1, B1|].
    rewrite A5, B5 by done. by apply H2.
  - intros q Hq. destruct (decide (q = p)) as [->|Hne]; [by rewrite A2, B2|].
    rewrite A6, B6 by done. by apply H3.
  - intros q Hq. destruct (decide (q = p)) as [->|Hne]; [by rewrite A3, B3|].
    rewrite A7, B7 by done. by apply H4.
  - intros q Hq. destruct (decide (q = p)) as [->|Hne]; [by rewrite A4, B4|].
    rewrite A8, B8 by done. by apply H5.
Qed.
End Views.

Section NothingLearned.
Context {V4 Rest : Type} `{!ObjectRules V4 Rest} `{!LawfulRules V4 Rest} (sha256 : bytes -> bytes).
Implicit Types s t : GameState V4 Rest.
Set Default Proof Using "Type*".

Lemma shuffle_alike o p s t s' t' :
  valid_player o -> valid_player p -> indistinguishable o s t ->
  shuffle_library sha256 p s = Ok s' -> shuffle_library sha256 p t = Ok t' -> indistinguishable o s' t'.
Proof.
  intros Ho Hp HI (lib & r & HP & ->)%shuffle_permutes (lib' & r' & HP' & ->)%shuffle_permutes.
  pose proof (proj1 (indistinguishable_alike o s t) HI) as [A1 A2 A3 A4 A5].
  eapply becomes_indistinguishable; [exact Ho|exact Hp|exact HI|by apply shuffled_becomes..| | | | |].
  - rewrite HP, HP'. by apply A2.
  - by apply A3.
  - by intros <-.
  - done.
  - by apply A5.
Qed.

Lemma bottom_alike o p count s t s' t' :
  valid_player o -> valid_player p -> indistinguishable o s t ->
  randomize_library_bottom_v1 sha256 p count s = Ok s' ->
  randomize_library_bottom_v1 sha256 p count t = Ok t' -> indistinguishable o s' t'.
Proof.
  intros Ho Hp HI E E'. pose proof (proj1 (indistinguishable_alike o s t) HI) as [A1 A2 A3 A4 A5].
  apply randomize_bottom_becomes in E; [|done]. apply randomize_bottom_becomes in E'; [|done].
  cbn zeta in E, E'. rewrite <- (A2 p Hp) in E'. case_decide; [by subst|].
  destruct E as (b & HP & _ & B), E' as (b' & HP' & _ & B').
  eapply becomes_indistinguishable; [exact Ho|exact Hp|exact HI|exact B|exact B'| | | | |].
  - rewrite HP, HP', !take_drop. by apply A2.
  - by apply A3.
  - by intros <-.
  - cbn beta. by rewrite (A4 p Hp).
  - by apply A5.
Qed.

Lemma reorder_alike o p ordered ordered' revealed_to s t s' t' :
  hidden_ok s -> hidden_ok t ->
  valid_player o -> valid_player p -> indistinguishable o s t -> o ∉ revealed_to ->
  length ordered = length ordered' ->
  reorder_library_top p ordered revealed_to s = Ok s' ->
  reorder_library_top p ordered' revealed_to t = Ok t' -> indistinguishable o s' t'.
Proof.
  intros H H' Ho Hp HI Hno Hlen E E'. pose proof (proj1 (indistinguishable_alike o s t) HI) as [A1 A2 A3 A4 A5].
  pose proof (reorder_becomes p ordered revealed_to s s' H Hp E) as (HL & lk & B & K).
  pose proof (reorder_becomes p ordered' revealed_to t t' H' Hp E') as (HL' & lk' & B' & K').
  eapply becomes_indistinguishable; [exact Ho|exact Hp|exact HI|exact B|exact B'| | | | |].
  - rewrite !length_app, !length_drop, Hlen, (A2 p Hp). done.
  - by apply A3.
  - by intros <-.
  - rewrite K, K', Hlen, (A4 p Hp) by done. done.
  - by apply A5.
Qed.

(** A lone card whose place the observer knew is the same card in both. *)
Lemma scry_learned_alike o p s t prefix prefix' top top' bottom bottom' :
  hidden_ok s -> hidden_ok t -> valid_player o -> valid_player p -> o <> p -> indistinguishable o s t ->
  scry_valid s p prefix top bottom -> scry_valid t p prefix' top' bottom' ->
  length prefix = length prefix' -> length bottom = length bottom' ->
  scry_learned s p o prefix top bottom = scry_learned t p o prefix' top' bottom'.
Proof.
  intros H H' Ho Hp Hne HI HV HV' EL EB.
  pose proof (proj1 (indistinguishable_alike o s t) HI) as [A1 A2 A3 A4 A5].
  unfold scry_learned. rewrite !(decide_False (P := o = p)) by done.
  destruct prefix as [|l [|? ?]], prefix' as [|l' [|? ?]]; try (done || (exfalso; cbn in EL; lia)).
  destruct (library_row_ok s o p H Ho Hp) as [R _], (library_row_ok t o p H' Ho Hp) as [R' _].
  destruct (scry_prefix _ _ _ _ _ HV 0 l eq_refl) as [Top Gen].
  destruct (scry_prefix _ _ _ _ _ HV' 0 l' eq_refl) as [Top' Gen'].
  change (row (library_knowledge ?u) o p) with (known_library_cards u o p).
  rewrite <- (A4 p Hp), <- (A2 p Hp), EB.
  assert (forall e, e ∈ known_library_cards s o p -> position e = 0%Z ->
    (lk_object e = link_object l /\ lk_generation e = link_generation l) /\
    (lk_object e = link_object l' /\ lk_generation e = link_generation l')) as K.
  { intros e He Ep. destruct (R e He) as (_ & L & G). pose proof He as He'. rewrite (A4 p Hp) in He'.
    destruct (R' e He') as (_ & L' & G'). unfold place in *. rewrite Ep in L, L'.
    change (Z.to_nat 0) with 0 in L, L'. rewrite L in Top. rewrite L' in Top'. injection Top as E1. injection Top' as E2.
    rewrite E1, Gen in G. rewrite E2, Gen' in G'. split; split; congruence. }
  case_bool_decide as HE.
  - apply Exists_exists in HE as (e & He & Ep & _). destruct (K e He Ep) as [[L1 L2] [L3 L4]].
    rewrite bool_decide_true by (apply Exists_exists; by exists e). by rewrite <- L1, <- L2, <- L3, <- L4.
  - rewrite bool_decide_false; [done|]. intros (e & He & Ep & _)%Exists_exists. apply HE.
    apply Exists_exists. exists e. destruct (K e He Ep) as [? _]. done.
Qed.
End NothingLearned.

Section OpponentActs.
Context {V4 Rest : Type} `{!ObjectRules V4 Rest} `{!LawfulRules V4 Rest}.
Implicit Types s t : GameState V4 Rest.
Set Default Proof Using "Type*".

Lemma scry_alike o p s t s' t' prefix prefix' top top' bottom bottom' :
  hidden_ok s -> hidden_ok t -> valid_player o -> valid_player p -> o <> p -> indistinguishable o s t ->
  length prefix = length prefix' -> length bottom = length bottom' ->
  apply_scry_result p prefix top bottom s = Ok s' ->
  apply_scry_result p prefix' top' bottom' t = Ok t' -> indistinguishable o s' t'.
Proof.
  intros H H' Ho Hp Hne HI EL EB E E'.
  pose proof (proj1 (indistinguishable_alike o s t) HI) as [A1 A2 A3 A4 A5].
  destruct (scry_returns p prefix top bottom s s' H Hp E) as (HV & _ & B & R).
  destruct (scry_returns p prefix' top' bottom' t t' H' Hp E') as (HV' & _ & B' & R').
  eapply becomes_indistinguishable; [exact Ho|exact Hp|exact HI|exact B|exact B'| | | | |].
  - rewrite (Permutation_length (scried_library_perm _ _ _ _ _ HV)).
    rewrite (Permutation_length (scried_library_perm _ _ _ _ _ HV')). by apply A2.
  - by apply A3.
  - by intros <-.
  - cbn beta. specialize (R o Ho). specialize (R' o Ho). unfold scry_row in R, R'.
    rewrite (scry_learned_alike o p s t prefix prefix' top top' bottom bottom') in R by done.
    change (row (library_knowledge ?u) o p) with (known_library_cards u o p) in R, R'.
    rewrite (A4 p Hp), EL, EB, <- R' in R. by injection R.
  - by apply A5.
Qed.

Lemma draw_alike o p s t c c' s' t' :
  state_ok s -> state_ok t -> valid_player o -> valid_player p -> o <> p -> indistinguishable o s t ->
  draw_card p s = Some (c, s') -> draw_card p t = Some (c', t') -> indistinguishable o s' t'.
Proof.
  intros Hs Ht Ho Hp Hne HI E E'. pose proof Hs as [H _]. pose proof Ht as [H' _].
  pose proof (proj1 (indistinguishable_alike o s t) HI) as [A1 A2 A3 A4 A5].
  pose proof (A2 p Hp) as HL.
  destruct (library_of s p) as [|id lib] eqn:El, (library_of t p) as [|id' lib'] eqn:El'; try done.
  { unfold draw_card in E, E'. rewrite El in E. rewrite El' in E'. by injection E as _ <-; injection E' as _ <-. }
  destruct (library_generation s p id) as [g Eg]; [done..|rewrite El; by left|].
  destruct (library_generation t p id') as [g' Eg']; [done..|rewrite El'; by left|].
  destruct (draw_card_ok p s id lib g Hs Hp El Eg) as (s1 & E1 & _ & B & _).
  destruct (draw_card_ok p t id' lib' g' Ht Hp El' Eg') as (t1 & E1' & _ & B' & _).
  rewrite E in E1. rewrite E' in E1'. injection E1 as _ <-. injection E1' as _ <-.
  eapply becomes_indistinguishable; [exact Ho|exact Hp|exact HI|exact B|exact B'| | | | |].
  - cbn in HL. lia.
  - rewrite !length_app, (A3 p Hp). done.
  - by intros <-.
  - cbn beta. by rewrite (A4 p Hp).
  - cbn beta. unfold transferred. rewrite !(decide_False (P := o = p)) by done.
    pose proof (knows_top s o p id g lib H Ho Hp El Eg) as K.
    pose proof (knows_top t o p id' g' lib' H' Ho Hp El' Eg') as K'.
    pose proof (top_not_in_hand_facts s o p id lib H Ho Hp El) as N.
    pose proof (top_not_in_hand_facts t o p id' lib' H' Ho Hp El') as N'.
    rewrite <- (A4 p Hp) in K'. rewrite <- (A5 p Hp) in N'. rewrite <- (A4 p Hp), <- (A5 p Hp).
    assert (forall r x g, x ∉ map hk_object r ->
      map (fun e => if decide (hk_object e = x) then MkHandEntry x g else e) r = r) as Idle.
    { intros r x y Hx. rewrite <- (map_id r) at 2. apply map_ext_in. intros e He%list_elem_of_In.
      case_decide as Ee; [|done]. destruct Hx. apply list_elem_of_fmap. by exists e. }
    assert (knows t o p 0 <-> knows s o p 0) as KK by (unfold knows; by rewrite (A4 p Hp)).
    rewrite KK in K'. case_bool_decide as X.
    + rewrite bool_decide_true by tauto. apply K in X as (e & He & Ep).
      destruct (library_row_ok s o p H Ho Hp) as [R _], (library_row_ok t o p H' Ho Hp) as [R' _].
      destruct (R e He) as (_ & L & G). rewrite (A4 p Hp) in He. destruct (R' e He) as (_ & L' & G').
      rewrite Ep, El in L. rewrite Ep, El' in L'. injection L as L. injection L' as L'.
      rewrite <- L in G. rewrite <- L' in G'.
      assert (id = id') as <- by congruence. assert (g = g') as <- by congruence. done.
    + rewrite bool_decide_false by tauto. by rewrite !Idle.
Qed.
End OpponentActs.

Section Total.
Context {V4 Rest : Type} `{!ObjectRules V4 Rest}.
Implicit Types s : GameState V4 Rest.

Lemma look_unseen o p w count s s' :
  valid_player o -> valid_player p -> valid_player w -> o <> p ->
  reveal_library_top p w count s = Some s' -> indistinguishable o s s'.
Proof.
  intros Ho Hp Hw Hne E. unfold reveal_library_top in E.
  destruct (anchor_entries _ _) as [new|]; [cbn in E|done]. injection E as <-.
  unfold indistinguishable. by destruct Ho as [->| ->], Hp as [->| ->], Hw as [->| ->].
Qed.

Lemma filter_cards_total s f l : (forall id, id ∈ l -> is_Some (get s id)) -> is_Some (filter_cards s f l).
Proof.
  induction l as [|id l IH]; cbn; intros H; [by eexists|].
  destruct (H id) as [card ->]; [by left|]. destruct IH as [ids E]; [intros x Hx; apply H; by right|].
  unfold filter_cards in E. rewrite E. by eexists.
Qed.

Lemma hand_card_exists s p id : hidden_ok s -> valid_player p -> id ∈ hand_of s p -> is_Some (get s id).
Proof.
  intros H Hp Hid. destruct (hand_lives s p id H Hp Hid) as (_ & g & E).
  apply ident_some in E as (o & E & _). by exists o.
Qed.

Lemma draw_empty s p : library_of s p = [] -> draw_card p s = Some (None, s).
Proof. unfold draw_card. by intros ->. Qed.
End Total.

(* ------------------------------------------------------------------ *)
(** ** Properties *)

Section Properties.
Context {V4 Rest : Type} `{!ObjectRules V4 Rest} `{!LawfulRules V4 Rest} (sha256 : bytes -> bytes).
Implicit Types s t : GameState V4 Rest.
Set Default Proof Using "Type*".

(** C5: in every state a game can reach, a player's library and hand hold
    distinct cards the player owns, marked with that zone; every fact an observer
    holds about a library names the card at that position by its current
    incarnation, in ascending order of position and with no card twice; every fact
    about a hand names a card of it by its current incarnation, in ascending
    order of object; and nobody keeps facts about the own hand. *)
Theorem knowledge_is_true s observer w :
  reachable sha256 s -> valid_player observer -> valid_player w ->
  (NoDup (library_of s w) /\ forall id, id ∈ library_of s w ->
     exists o, get s id = Some o /\ owner o = w /\ zone o = Zone.Library) /\
  (NoDup (hand_of s w) /\ forall id, id ∈ hand_of s w ->
     exists o, get s id = Some o /\ owner o = w /\ zone o = Zone.Hand) /\
  (forall e, e ∈ known_library_cards s observer w ->
     library_of s w !! place e = Some (lk_object e) /\
     generation_of s (lk_object e) = Some (lk_generation e)) /\
  StronglySorted lk_lt (known_library_cards s observer w) /\
  NoDup (map lk_object (known_library_cards s observer w)) /\
  (forall e, e ∈ known_hand_cards s observer w ->
     hk_object e ∈ hand_of s w /\ generation_of s (hk_object e) = Some (hk_generation e)) /\
  StronglySorted hk_lt (known_hand_cards s observer w) /\
  known_hand_cards s w w = [].
Proof.
  intros Hr Ho Hw. destruct (reachable_ok sha256 s Hr) as [H _].
  pose proof (library_row_ok s observer w H Ho Hw) as R.
  destruct (H w Hw) as [[NL _] [NH _] _ HR HE]. split_and!; [done| |done| | |apply R| | | |done].
  - intros id Hid. destruct (library_lives s w id H Hw Hid) as (_ & g & E).
    apply ident_some in E as (o & E & ? & ? & _). by exists o.
  - intros id Hid. destruct (hand_lives s w id H Hw Hid) as (_ & g & E).
    apply ident_some in E as (o & E & ? & ? & _). by exists o.
  - intros e He. by destruct (proj1 R e He) as (_ & ? & ?).
  - by apply (row_objects_NoDup (generation_of s) (library_of s w)).
  - intros e He. destruct (HR observer Ho) as [HR' _]. destruct (HR' e He) as [? Hg].
    by rewrite gen_of_ident in Hg.
  - by apply HR.
Qed.

(** In every reachable state a draw takes the top card of the library to the
    end of the hand (from an empty library, nothing); the opponent knows the drawn
    card in hand exactly when the top of the library was known to them, everyone
    still knows the same cards of the library, one position up, and the other
    player's zones and the facts about them stay. *)
Theorem draw_carries_knowledge s p :
  reachable sha256 s -> valid_player p ->
  match library_of s p with
  | [] => draw_card p s = Some (None, s)
  | id :: lib => exists s', draw_card p s = Some (Some id, s') /\
      library_of s' p = lib /\ hand_of s' p = hand_of s p ++ [id] /\
      (forall o, valid_player o -> o <> p ->
         (id ∈ map hk_object (known_hand_cards s' o p) <-> knows s o p 0)) /\
      (forall o i, valid_player o -> (knows s' o p i <-> knows s o p (S i))) /\
      (forall o q, valid_player o -> valid_player q -> q <> p ->
         library_of s' q = library_of s q /\ hand_of s' q = hand_of s q /\
         known_library_cards s' o q = known_library_cards s o q /\
         known_hand_cards s' o q = known_hand_cards s o q)
  end.
Proof.
  intros Hr Hp. pose proof (reachable_ok sha256 s Hr) as Hs. pose proof Hs as [H _].
  destruct (library_of s p) as [|id lib] eqn:El; [by apply draw_empty|].
  destruct (library_generation s p id) as [g Eg]; [done..|rewrite El; by left|].
  destruct (draw_card_ok p s id lib g Hs Hp El Eg) as (s' & E & _ & B & _). exists s'.
  destruct B as [B1 B2 B3 B4 B5 B6 B7 B8]. split_and!; [done..| | |].
  - intros o Ho Hne. rewrite B4 by done. by apply (drawn_entry s o p id g lib).
  - intros o i Ho. unfold knows at 1. rewrite B3 by done. by apply removal_row_top_place.
  - intros o q Ho Hq Hne. by rewrite B5, B6, B7, B8.
Qed.

(** C7: in every reachable state a scry is accepted exactly when the given links
    name, in order, the top cards of the library by their current incarnations
    and the two groups share those cards out; it never panics. The kept group
    then tops the library, the rest follows, the other group ends it. The owner
    knows the places of both groups; everyone knows of the untouched cards
    what they knew before; and the opponent knows nothing of the scried cards
    unless it was a single one. *)
Theorem scry_arranges_and_informs s w prefix top bottom :
  reachable sha256 s -> valid_player w ->
  let n := length (library_of s w) in
  match apply_scry_result w prefix top bottom s with
  | Ok s' =>
      scry_valid s w prefix top bottom /\
      library_of s' w = top ++ drop (length prefix) (library_of s w) ++ bottom /\
      hand_of s' w = hand_of s w /\
      (forall i, i < length top \/ n - length bottom <= i < n -> knows s' w w i) /\
      (forall o i, valid_player o -> length top <= i < n - length bottom ->
         (knows s' o w i <-> knows s o w (i + length bottom))) /\
      (forall o i, valid_player o -> o <> w -> length prefix <> 1 ->
         i < length top \/ n - length bottom <= i -> ~ knows s' o w i)
  | Err Panic => False
  | Err (Reject _) => ~ scry_valid s w prefix top bottom
  end.
Proof.
  intros Hr Hw n. destruct (reachable_ok sha256 s Hr) as [H _].
  destruct (apply_scry_result w prefix top bottom s) as [s'|e] eqn:E.
  2: { assert (~ scry_valid s w prefix top bottom) as HV.
       { intros HV. destruct (apply_scry_result_ok s w prefix top bottom H Hw HV) as (s' & E' & _).
         congruence. }
       destruct (apply_scry_result_rejects s w prefix top bottom H Hw HV) as [e' E'].
       rewrite E in E'. by injection E' as ->. }
  destruct (scry_returns w prefix top bottom s s' H Hw E) as (HV & H' & B & R).
  pose proof (scry_lengths _ _ _ _ _ HV) as HL. pose proof (scry_prefix_length _ _ _ _ _ HV) as HLe.
  fold n in HLe. destruct B as [B1 B2 _ _ _ _ _ _].
  assert (forall o i, valid_player o -> knows s' o w i <->
    (length prefix <= i + length bottom /\ knows s o w (i + length bottom)) \/
    exists new e, scry_learned s w o prefix top bottom = Some new /\ e ∈ new /\ place e = i) as K.
  { intros o i Ho. unfold knows at 1. apply scry_row_place; try done. by rewrite <- R. }
  split_and!; [done..| | |].
  - intros i Hi. apply K; [done|]. right. apply learned_own_place; done || (fold n; lia).
  - intros o i Ho Hi. rewrite K by done. split; [|intros ?; left; split; [lia|done]].
    intros [[_ ?]|(new & e & E1 & He & Ei)]; [done|]. exfalso.
    pose proof (scry_learned_off_tail s w o prefix top bottom new e H Hw HV E1 He) as Off.
    rewrite Ei in Off. fold n in Off. lia.
  - intros o i Ho Hne H1 Hi Hk. apply K in Hk as [[Hle Hk]|(new & e & E1 & He & _)]; [| |done].
    + destruct Hi as [Hi|Hi]; [lia|]. destruct Hk as (e & He & Ei).
      destruct (library_row_ok s o w H Ho Hw) as [HR _].
      destruct (HR e He) as (_ & Hlt%lookup_lt_Some & _). fold n in Hlt. lia.
    + rewrite (learned_other_none s w o prefix top bottom new Hne H1 E1) in He. by apply not_elem_of_nil in He.
Qed.

(** C39: which operations on hidden zones panic in a reachable state, exactly. Drawing,
    putting a card of a hand onto the battlefield, casting, ceasing to exist and
    looking never do: no index is out of range, neither of the objects nor of the card
    table, no object is missing and no announced fact is refused. An aborted cast panics
    exactly for a zone no spell is cast from. A change of zone always moves its card; it
    panics only after that, for a face the card does not have or inside the code for what
    enters the battlefield, so never when the card goes elsewhere. A look at a position
    panics when the position does not exist; rearrangements, scries and searches may be
    refused for what they ask, never by a panic. *)
Theorem hidden_zone_panics_exact s w :
  reachable sha256 s -> valid_player w ->
  is_Some (draw_card w s) /\
  (forall id, is_u32 id -> is_Some (move_hand_to_battlefield w id s)) /\
  (forall id o, is_u32 id -> get s id = Some o ->
     is_Some (move_to_stack id (zone o) s) /\ is_Some (cease_to_exist id s) /\
     (zone o = Zone.Stack -> forall madness origin,
        is_Some (materialize_aborted_cast_v1 id madness origin s) <->
        castable_from (if (madness : bool) then Zone.Graveyard else origin)) /\
     forall to placement preserve visibility face controller, to <> Zone.Stack ->
       let face' := entry_face face id to s in
       (exists s1 o1, move_between_zones id to placement controller s = Some s1 /\ get s1 id = Some o1 /\
          (is_Some (materialize_zone_change_v1 id to placement preserve visibility face controller s) <->
           face_defined face' to o1 = true /\ is_Some (entry_effects face' id (zone o) to s1))) /\
       (to <> Zone.Battlefield ->
          is_Some (materialize_zone_change_v1 id to placement preserve visibility face controller s))) /\
  (forall o id, valid_player o -> id ∈ hand_of s w ->
     exists s', reveal_hand_card o w id s = Ok s') /\
  (forall o count, valid_player o -> is_Some (reveal_library_top o w count s)) /\
  (forall o i, valid_player o ->
     (is_Some (reveal_library_position o w i s) <-> i < length (library_of s w))) /\
  (forall ordered revealed_to, reorder_library_top w ordered revealed_to s <> Err Panic) /\
  (forall prefix top bottom, apply_scry_result w prefix top bottom s <> Err Panic) /\
  random_hand_card_v1 sha256 w s <> Err Panic /\
  (forall selected shown_to, (forall o, o ∈ shown_to -> valid_player o) ->
     library_top_after_shuffle sha256 w selected shown_to s <> Err Panic).
Proof.
  intros Hr Hw. pose proof (reachable_ok sha256 s Hr) as Hs. pose proof Hs as [H _]. split_and!.
  - destruct (library_of s w) as [|id lib] eqn:El; [by rewrite draw_empty|].
    destruct (library_generation s w id) as [g Eg]; [done..|rewrite El; by left|].
    destruct (draw_card_ok w s id lib g Hs Hw El Eg) as (s' & -> & _). by eexists.
  - intros id Hid. destruct (move_hand_to_battlefield_ok w id s Hs Hid Hw) as (b & s' & -> & _). by eexists.
  - intros id o Hid E. split_and!.
    + destruct (move_to_stack_ok id s o Hs Hid E) as (s' & -> & _). by eexists.
    + destruct (cease_to_exist_ok id s o Hs E) as (s' & b & -> & _). by eexists.
    + intros Ez madness origin. pose proof (aborted_cast_ok id madness origin s o Hs Hid E Ez) as K.
      cbn zeta in K. case_decide; [destruct K as (s' & -> & _); by split; [|eexists]|].
      rewrite K. by split; [intros []|].
    + intros to placement preserve visibility face c Hto. cbn zeta. split.
      * destruct (materialize_exact id to placement preserve visibility face c s o Hs Hid E Hto)
          as (s1 & o1 & E1 & G1 & _ & M).
        exists s1, o1. split_and!; [done|done|].
        destruct (face_defined _ _ _); [|rewrite M; split; [by intros []|by intros []]].
        destruct (entry_effects _ _ _ _ _); [destruct M as (s' & -> & _)|rewrite M].
        -- split; intros _; [|by eexists]. split; [done|by eexists].
        -- split; [by intros []|by intros (_ & [])].
      * intros Hb. destruct (materialize_ok id to placement preserve visibility face c s o Hs Hid E Hto Hb)
          as (s' & -> & _). by eexists.
  - intros o id Ho Hid. destruct (reveal_hand_card_ok o w id s Hs Ho Hw Hid) as (s' & E & _). by exists s'.
  - intros o count Ho. destruct (reveal_library_top_ok o w count s H Ho Hw) as (s' & -> & _). by eexists.
  - intros o i Ho. split.
    + intros [s' E]. unfold reveal_library_position in E.
      destruct (library_of s w !! i) eqn:Ei; [by eapply lookup_lt_Some|done].
    + intros Hi. destruct (reveal_library_position_ok o w i s H Ho Hw Hi) as (s' & -> & _). by eexists.
  - intros ordered revealed_to E.
    destruct (decide (ordered ≡ₚ take (length ordered) (library_of s w))) as [HP|HP].
    + destruct (reorder_library_top_ok w ordered revealed_to s H Hw HP) as (s' & E' & _). congruence.
    + destruct (reorder_library_top_rejects w ordered revealed_to s HP) as [e E']. congruence.
  - intros prefix top bottom E.
    assert (~ scry_valid s w prefix top bottom) as HV.
    { intros HV. destruct (apply_scry_result_ok s w prefix top bottom H Hw HV) as (s' & E' & _). congruence. }
    destruct (apply_scry_result_rejects s w prefix top bottom H Hw HV) as [e E']. congruence.
  - unfold random_hand_card_v1. rewrite owner_exact by done. cbn [from_reject result_bind].
    destruct (filter_cards_total s (fun card => bool_decide (zone card = Zone.Hand)
      && bool_decide (owner card = w)) (hand_of s w)) as [ids ->].
    { intros id. by apply hand_card_exists. }
    cbn. by destruct (sample_card _ _ _ _).
  - intros selected shown_to Ho E. pose proof (search_top_ok sha256 w selected shown_to s Hs Hw Ho) as K. by rewrite E in K.
Qed.

(** C4: what happens in hidden zones tells an observer nothing. Take two reachable
    states the observer cannot tell apart (same own hand, same sizes, same facts)
    and let any player shuffle or randomize the bottom of a library or rearrange
    its top without showing it, or let the opponent look, draw or scry, in each
    state with whatever cards are really there: if the numbers of cards match,
    the resulting states look the same to the observer again. *)
Theorem hidden_choices_tell_nothing s t o p :
  reachable sha256 s -> reachable sha256 t -> valid_player o -> valid_player p ->
  indistinguishable o s t ->
  (forall s' t', shuffle_library sha256 p s = Ok s' -> shuffle_library sha256 p t = Ok t' ->
     indistinguishable o s' t') /\
  (forall count s' t', randomize_library_bottom_v1 sha256 p count s = Ok s' ->
     randomize_library_bottom_v1 sha256 p count t = Ok t' -> indistinguishable o s' t') /\
  (forall ordered ordered' revealed_to s' t', o ∉ revealed_to -> length ordered = length ordered' ->
     reorder_library_top p ordered revealed_to s = Ok s' ->
     reorder_library_top p ordered' revealed_to t = Ok t' -> indistinguishable o s' t') /\
  (o <> p ->
   (forall w count s', valid_player w -> reveal_library_top p w count s = Some s' ->
      indistinguishable o s' t) /\
   (forall c c' s' t', draw_card p s = Some (c, s') -> draw_card p t = Some (c', t') ->
      indistinguishable o s' t') /\
   (forall prefix prefix' top top' bottom bottom' s' t',
      length prefix = length prefix' -> length bottom = length bottom' ->
      apply_scry_result p prefix top bottom s = Ok s' ->
      apply_scry_result p prefix' top' bottom' t = Ok t' -> indistinguishable o s' t')).
Proof.
  intros Hs%reachable_ok Ht%reachable_ok Ho Hp HI. pose proof Hs as [H _]. pose proof Ht as [H' _].
  split_and!.
  - intros s' t'. by apply shuffle_alike.
  - intros count s' t'. by apply bottom_alike.
  - intros ordered ordered' revealed_to s' t'. by apply reorder_alike.
  - intros Hne. split_and!.
    + intros w count s' Hw E. pose proof (look_unseen o p w count s s' Ho Hp Hw Hne E) as K.
      unfold indistinguishable in *. congruence.
    + intros c c' s' t'. by apply draw_alike.
    + intros prefix prefix' top top' bottom bottom' s' t'. by apply scry_alike.
Qed.
End Properties.

(* ------------------------------------------------------------------ *)
(** ** Witnesses *)

(** [bare_game] with the other cards of the same numbers. *)
Definition other_game : GameState unit PlayerId :=
  new_from_libraries_with_starting_player_v1 [12%Z; 11%Z; 10%Z] [21%Z; 20%Z] 9%Z P0.

Lemma bare_game_reachable : reachable toy_sha256 bare_game.
Proof. apply reachable_legacy; [repeat constructor; vm_compute; discriminate|vm_compute; discriminate]. Qed.
Lemma other_game_reachable : reachable toy_sha256 other_game.
Proof. apply reachable_legacy; [repeat constructor; vm_compute; discriminate|vm_compute; discriminate]. Qed.

(** P1 looks at the two top cards of P0, who then draws. *)
Definition looked_game : GameState unit PlayerId :=
  some_state (reveal_library_top P1 P0 2 bare_game).

Lemma looked_game_reachable : reachable toy_sha256 looked_game.
Proof.
  apply reachable_step with bare_game; [apply bare_game_reachable|].
  apply (step_reveal_top _ _ P1 P0 2); [apply valid_P1|apply valid_P0|].
  unfold looked_game, some_state. destruct (reveal_library_top P1 P0 2 bare_game) eqn:E; [done|].
  vm_compute in E. discriminate.
Qed.

Lemma knowledge_is_true_witness :
  known_library_cards looked_game P1 P0 = [MkLibraryEntry 0 (MkObjectId 0) 0; MkLibraryEntry 1 (MkObjectId 1) 0] /\
  library_of looked_game P0 !! 1 = Some (MkObjectId 1).
Proof.
  split; [vm_compute; reflexivity|].
  destruct (knowledge_is_true toy_sha256 looked_game P1 P0 looked_game_reachable valid_P1 valid_P0)
    as (_ & _ & K & _).
  refine (proj1 (K (MkLibraryEntry 1 (MkObjectId 1) 0) _)).
  replace (known_library_cards looked_game P1 P0) with
    [MkLibraryEntry 0 (MkObjectId 0) 0; MkLibraryEntry 1 (MkObjectId 1) 0] by (vm_compute; reflexivity).
  right. left.
Defined.

Lemma draw_carries_knowledge_witness :
  exists s', draw_card P0 looked_game = Some (Some (MkObjectId 0), s') /\
    hand_of s' P0 = [MkObjectId 0] /\ knows s' P1 P0 0.
Proof.
  pose proof (draw_carries_knowledge toy_sha256 looked_game P0 looked_game_reachable valid_P0) as K.
  replace (library_of looked_game P0) with [MkObjectId 0; MkObjectId 1; MkObjectId 2] in K
    by (vm_compute; reflexivity).
  replace (hand_of looked_game P0) with (@nil ObjectId) in K by (vm_compute; reflexivity).
  destruct K as (s' & E & _ & Eh & _ & Ek & _). exists s'. split; [exact E|split; [exact Eh|]].
  apply (Ek P1 0 valid_P1). exists (MkLibraryEntry 1 (MkObjectId 1) 0). split; [|reflexivity].
  replace (known_library_cards looked_game P1 P0) with
    [MkLibraryEntry 0 (MkObjectId 0) 0; MkLibraryEntry 1 (MkObjectId 1) 0] by (vm_compute; reflexivity).
  right. left.
Defined.

(** P0 scries two: the first card to the bottom, the second stays. *)
Definition scried_links : list ObjectLinkV4 := [MkLink (MkObjectId 0) 0; MkLink (MkObjectId 1) 0].

Lemma scry_arranges_and_informs_witness :
  exists s', apply_scry_result P0 scried_links [MkObjectId 1] [MkObjectId 0] looked_game = Ok s' /\
    library_of s' P0 = [MkObjectId 1; MkObjectId 2; MkObjectId 0] /\ knows s' P0 P0 2 /\
    ~ knows s' P1 P0 0.
Proof.
  pose proof (scry_arranges_and_informs toy_sha256 looked_game P0 scried_links [MkObjectId 1] [MkObjectId 0]
    looked_game_reachable valid_P0) as K.
  destruct (apply_scry_result P0 scried_links [MkObjectId 1] [MkObjectId 0] looked_game) as [s'|e] eqn:E;
    [|vm_compute in E; discriminate E].
  replace (library_of looked_game P0) with [MkObjectId 0; MkObjectId 1; MkObjectId 2] in K
    by (vm_compute; reflexivity).
  destruct K as (_ & El & _ & Ek & _ & En). exists s'. split; [reflexivity|split; [exact El|split]].
  - apply Ek. cbn. lia.
  - apply (En P1 0 valid_P1); [discriminate|discriminate|left; cbn; lia].
Defined.

(** The card has no back: it can be put onto the battlefield, not with that face. *)
Lemma hidden_zone_panics_exact_witness :
  is_Some (materialize_zone_change_v1 (MkObjectId 0) Zone.Graveyard Top false Hidden (Some 1%Z) None bare_game) /\
  is_Some (materialize_zone_change_v1 (MkObjectId 0) Zone.Battlefield Top false Hidden None None bare_game) /\
  materialize_zone_change_v1 (MkObjectId 0) Zone.Battlefield Top false Hidden (Some 1%Z) None bare_game = None.
Proof.
  pose proof (hidden_zone_panics_exact toy_sha256 bare_game P0 bare_game_reachable valid_P0) as (_ & _ & K & _).
  destruct (get bare_game (MkObjectId 0)) as [o|] eqn:Eo; [|vm_compute in Eo; discriminate Eo].
  destruct (K (MkObjectId 0) o ltac:(vm_compute; split; first [discriminate|reflexivity]) Eo) as (_ & _ & _ & M). split_and!.
  - apply (M Zone.Graveyard Top false Hidden (Some 1%Z) None); discriminate.
  - destruct (M Zone.Battlefield Top false Hidden None None) as ((s1 & o1 & _ & _ & E) & _); [discriminate|].
    apply E. split; [reflexivity|eexists; reflexivity].
  - destruct (M Zone.Battlefield Top false Hidden (Some 1%Z) None) as ((s1 & o1 & E1 & G1 & E) & _); [discriminate|].
    destruct (materialize_zone_change_v1 _ _ _ _ _ _ _ _); [exfalso|reflexivity].
    destruct (proj1 E ltac:(eexists; reflexivity)) as [F _].
    vm_compute in E1. apply Some_inj in E1. subst s1. vm_compute in G1. apply Some_inj in G1. subst o1.
    vm_compute in F. discriminate F.
Defined.

Lemma hidden_choices_tell_nothing_witness :
  exists s' t', shuffle_library toy_sha256 P0 bare_game = Ok s' /\
    shuffle_library toy_sha256 P0 other_game = Ok t' /\ indistinguishable P1 s' t'.
Proof.
  assert (indistinguishable P1 bare_game other_game) as HI by (vm_compute; reflexivity).
  destruct (shuffle_library toy_sha256 P0 bare_game) as [s'|e] eqn:E; [|vm_compute in E; discriminate E].
  destruct (shuffle_library toy_sha256 P0 other_game) as [t'|e] eqn:E'; [|vm_compute in E'; discriminate E'].
  exists s', t'. split; [reflexivity|split; [reflexivity|]].
  exact (proj1 (hidden_choices_tell_nothing toy_sha256 bare_game other_game P1 P0 bare_game_reachable
    other_game_reachable valid_P1 valid_P0 HI) s' t' E E').
Defined.
