(* ===== verification/London.v ===== *)
(** * London mulligans (src/mtg-kernel/src/london_mulligan_v1.rs)

    Before the first turn each player may redraw seven cards any number of times,
    up to seven, putting as many cards on the bottom as mulligans were taken.
    The state is the game of Library.v with the field [london_mulligans_v1].
    The event pipeline that carries out a zone change or a draw is the class
    [OpeningEvents]; what the pregame reads of turn and step is [OpeningView]. *)

From S2P Require Import Prelude Ids Bytes Randomness Library.
Import PlayerIds.

Definition HAND_SIZE : Z := 7.

Module Stage.
Inductive t := Announce (next : Z) | Bottom (next remaining : Z) | Complete.
End Stage.
#[export] Instance Stage_eq_dec : EqDecision Stage.t.
Proof. solve_decision. Defined.

Record LondonMulligansV1 := MkLondon {
  starting_player : PlayerId;
  counts : per_player Z;
  kept : per_player bool;
  mulligan_this_round : per_player bool;
  hands : per_player (list ObjectLinkV4);
  stage : Stage.t;
}.

Definition with_counts (v : per_player Z) m :=
  MkLondon (starting_player m) v (kept m) (mulligan_this_round m) (hands m) (stage m).
Definition with_kept (v : per_player bool) m :=
  MkLondon (starting_player m) (counts m) v (mulligan_this_round m) (hands m) (stage m).
Definition with_mulligan_this_round (v : per_player bool) m :=
  MkLondon (starting_player m) (counts m) (kept m) v (hands m) (stage m).
Definition with_hands (v : per_player (list ObjectLinkV4)) m :=
  MkLondon (starting_player m) (counts m) (kept m) (mulligan_this_round m) v (stage m).
Definition with_stage (v : Stage.t) m :=
  MkLondon (starting_player m) (counts m) (kept m) (mulligan_this_round m) (hands m) v.

Definition is_complete (m : LondonMulligansV1) : bool := bool_decide (stage m = Stage.Complete).

Definition player (m : LondonMulligansV1) (index : Z) : PlayerId :=
  if decide (index = 0)%Z then starting_player m else opponent (starting_player m).

(** [ProposedEvent::zone_change(_, Library)], [private_bottom_library_insert]
    and [draw]. *)
Inductive ProposedEvent :=
  | ZoneChangeToLibrary (card : ObjectId)
  | PrivateBottomLibraryInsert (card : ObjectId)
  | Draw (p : PlayerId).

(** [propose_and_commit]: [None] is a panic. *)
Class OpeningEvents (V4 Rest : Type) := {
  propose_and_commit : ProposedEvent -> GameState V4 Rest -> option (GameState V4 Rest);
}.

(** The fields of the state the pregame reads. *)
Class OpeningView (Rest : Type) := {
  game_starting_player : Rest -> PlayerId;
  active_player : Rest -> PlayerId;
  turn : Rest -> Z;
  step_is_untap : Rest -> bool;
  has_lost : Rest -> PlayerId -> bool;
}.

Inductive LondonError :=
  | NotAFreshDeal
  | NoMulliganPending
  | InvalidContinuation
  | HandBindingMismatch
  | ShuffleFailed (e : LibraryShuffleError)
  | InvalidStage
  | NoMoreMulligans
  | NotInHand
  | NotAnAnswer
  | KeepsUnfinished.

(** The decisions offered and the actions that may answer them. *)
Inductive Decision :=
  | ChooseLondonMulligan (p : PlayerId) (mulligan_count : Z)
  | ChooseLondonBottom (p : PlayerId) (remaining : Z) (candidates : list ObjectId).

Inductive Action :=
  | AnswerLondonMulligan (mulligan : bool)
  | AnswerLondonBottom (card : ObjectId)
  | OtherAction.

Section London.
Context {V4 Rest : Type} `{!ObjectRules V4 Rest} `{!OpeningEvents V4 Rest} `{!OpeningView Rest}.
Context (sha256 : bytes -> bytes).
Implicit Types s : GameState V4 Rest.

(** A game and its [london_mulligans_v1]. *)
Record Opening := MkOpening {
  game : GameState V4 Rest;
  london_mulligans_v1 : option LondonMulligansV1;
}.

(** [objects.get] panics on a missing card. *)
Definition hand_bindings s (p : PlayerId) : option (list ObjectLinkV4) :=
  mapM (fun object => generation ← generation_of s object; Some (MkLink object generation))
    (hand_of s p).

Definition fresh_deal s : bool :=
  bool_decide (valid_player (game_starting_player (rest s)))
  && bool_decide (turn (rest s) = 1%Z) && step_is_untap (rest s)
  && bool_decide (active_player (rest s) = game_starting_player (rest s))
  && bool_decide (length (stack s) = 0) && bool_decide (exile s = []) && bool_decide (command s = [])
  && forallb (fun p =>
       bool_decide (Z.of_nat (length (hand_of s p)) = HAND_SIZE)
       && bool_decide (battlefield (seat (players s) p) = [])
       && bool_decide (graveyard (seat (players s) p) = [])
       && negb (has_lost (rest s) p)) [P0; P1].

Definition enable_london_mulligans_v1 (o : Opening) : result (Fault LondonError) Opening :=
  let s := game o in
  if bool_decide (is_Some (london_mulligans_v1 o)) || negb (fresh_deal s) then Err (Reject NotAFreshDeal)
  else
    let? hand0 := ok_or Panic (hand_bindings s P0) in
    let? hand1 := ok_or Panic (hand_bindings s P1) in
    Ok (MkOpening s (Some (MkLondon (game_starting_player (rest s)) (PerPlayer 0%Z 0%Z)
          (PerPlayer false false) (PerPlayer false false) (PerPlayer hand0 hand1)
          (Stage.Announce 0)))).

Definition has_pending (o : Opening) : bool :=
  match london_mulligans_v1 o with Some m => negb (is_complete m) | None => false end.

(** One card of a hand against its binding. *)
Definition binding_holds s (p : PlayerId) (id : ObjectId) (binding : ObjectLinkV4) : bool :=
  bool_decide (id = link_object binding)
  && match get s id with
     | Some object =>
         bool_decide (zone object = Zone.Hand) && bool_decide (owner object = p)
         && bool_decide (zone_change_count object = link_generation binding)
     | None => false
     end.

Definition hand_matches s (m : LondonMulligansV1) (p : PlayerId) : bool :=
  bool_decide (length (hand_of s p) = length (seat (hands m) p))
  && forallb (fun '(id, binding) => binding_holds s p id binding)
       (zip (hand_of s p) (seat (hands m) p)).

Definition validate (o : Opening) : result LondonError LondonMulligansV1 :=
  let s := game o in
  let? m := ok_or NoMulliganPending (london_mulligans_v1 o) in
  if bool_decide (starting_player m <> game_starting_player (rest s))
     || negb (bool_decide (valid_player (starting_player m)))
     || (HAND_SIZE <? seat (counts m) P0)%Z || (HAND_SIZE <? seat (counts m) P1)%Z
     || negb (step_is_untap (rest s)) || bool_decide (turn (rest s) <> 1%Z)
  then Err InvalidContinuation
  else if hand_matches s m P0 && hand_matches s m P1 then Ok m else Err HandBindingMismatch.

(** [for card in hand]: each card goes to the library. *)
Definition return_hand (cards : list ObjectId) s : option (GameState V4 Rest) :=
  foldl (fun acc card => s ← acc; propose_and_commit (ZoneChangeToLibrary card) s) (Some s) cards.

(** [for _ in 0..HAND_SIZE] *)
Fixpoint draw_times (n : nat) (p : PlayerId) s : option (GameState V4 Rest) :=
  match n with
  | O => Some s
  | S n => s ← propose_and_commit (Draw p) s; draw_times n p s
  end.

(** One player's redraw, after all announcements. *)
Definition redraw (p : PlayerId) (o : GameState V4 Rest * LondonMulligansV1)
  : result (Fault LondonError) (GameState V4 Rest * LondonMulligansV1) :=
  let (s, m) := o in
  if negb (seat (mulligan_this_round m) p) then Ok (s, m)
  else
    let? s := ok_or Panic (return_hand (hand_of s p) s) in
    let? s := match shuffle_library sha256 p s with
              | Ok s => Ok s
              | Err e => Err (Reject (ShuffleFailed e))
              end in
    let? s := ok_or Panic (draw_times (Z.to_nat HAND_SIZE) p s) in
    let? bindings := ok_or Panic (hand_bindings s p) in
    let m := with_counts (set_seat (counts m) p (wrap_u8 (seat (counts m) p + 1))) m in
    Ok (s, with_hands (set_seat (hands m) p bindings) m).

(** The body of the drain loop: [return Ok(Some(_))], [return Ok(None)], or the
    next state of the loop. *)
Inductive Drained := Ask (d : Decision) (o : Opening) | Finish (o : Opening) | Continue (o : Opening).

Definition drain_step (s : GameState V4 Rest) (m : LondonMulligansV1)
  : result (Fault LondonError) Drained :=
  let continue_ m := Ok (Continue (MkOpening s (Some m))) in
  match stage m with
  | Stage.Announce next =>
      if (next <? 2)%Z then
        let p := player m next in
        if seat (kept m) p || (seat (counts m) p =? HAND_SIZE)%Z then
          continue_ (with_stage (Stage.Announce (wrap_u8 (next + 1)))
                       (with_kept (set_seat (kept m) p true) m))
        else Ok (Ask (ChooseLondonMulligan p (seat (counts m) p)) (MkOpening s (Some m)))
      else if (next =? 2)%Z then
        if seat (kept m) P0 && seat (kept m) P1 then
          Ok (Finish (MkOpening s (Some (with_stage Stage.Complete m))))
        else
          let? o := redraw (player m 0) (s, m) in
          let? o := redraw (player m 1) o in
          let (s, m) := o in
          Ok (Continue (MkOpening s (Some (with_stage (Stage.Bottom 0 0) m))))
      else Err (Reject InvalidStage)
  | Stage.Bottom next remaining =>
      if (next <? 2)%Z then
        let p := player m next in
        if negb (seat (mulligan_this_round m) p) then
          continue_ (with_stage (Stage.Bottom (wrap_u8 (next + 1)) 0) m)
        else
          let remaining := if (remaining =? 0)%Z then seat (counts m) p else remaining in
          Ok (Ask (ChooseLondonBottom p remaining (hand_of s p))
                (MkOpening s (Some (with_stage (Stage.Bottom next remaining) m))))
      else if (next =? 2)%Z then
        continue_ (with_stage (Stage.Announce 0) (with_mulligan_this_round (PerPlayer false false) m))
      else Err (Reject InvalidStage)
  | Stage.Complete => Err (Reject InvalidStage)
  end.

(** [while has_pending(state)]: [None] when the fuel runs out. *)
Fixpoint drain_loop (fuel : nat) (o : Opening)
  : option (result (Fault LondonError) (option Decision * Opening)) :=
  match fuel with
  | O => None
  | S fuel =>
      if negb (has_pending o) then Some (Ok (None, o))
      else
        match (let? m := from_reject (validate o) in drain_step (game o) m) with
        | Err e => Some (Err e)
        | Ok (Ask d o) => Some (Ok (Some d, o))
        | Ok (Finish o) => Some (Ok (None, o))
        | Ok (Continue o) => drain_loop fuel o
        end
  end.

(** Enough for every state ([drain_terminates]). *)
Definition drain_fuel : nat := 9.

Definition drain_or_decide (o : Opening)
  : option (result (Fault LondonError) (option Decision * Opening)) := drain_loop drain_fuel o.

Definition answer (action : Action) (o : Opening) : result (Fault LondonError) Opening :=
  let? m := from_reject (validate o) in
  let s := game o in
  match stage m, action with
  | Stage.Announce next, AnswerLondonMulligan mulligan =>
      if negb (next <? 2)%Z then Err (Reject NotAnAnswer)
      else
        let p := player m next in
        if seat (kept m) p || (HAND_SIZE <=? seat (counts m) p)%Z then Err (Reject NoMoreMulligans)
        else
          let m := with_kept (set_seat (kept m) p (negb mulligan)) m in
          let m := with_mulligan_this_round (set_seat (mulligan_this_round m) p mulligan) m in
          Ok (MkOpening s (Some (with_stage (Stage.Announce (wrap_u8 (next + 1))) m)))
  | Stage.Bottom next remaining, AnswerLondonBottom card =>
      if negb ((next <? 2) && (0 <? remaining))%Z then Err (Reject NotAnAnswer)
      else
        let p := player m next in
        if negb (bool_decide (card ∈ hand_of s p)) then Err (Reject NotInHand)
        else
          let? s := ok_or Panic (propose_and_commit (PrivateBottomLibraryInsert card) s) in
          let? bindings := ok_or Panic (hand_bindings s p) in
          let m := with_hands (set_seat (hands m) p bindings) m in
          Ok (MkOpening s (Some (with_stage
            (if (remaining =? 1)%Z then Stage.Bottom (wrap_u8 (next + 1)) 0
             else Stage.Bottom next (remaining - 1)) m)))
  | _, _ => Err (Reject NotAnAnswer)
  end.

Definition kept_hands_for_opening_v1 (o : Opening)
  : result LondonError (option (per_player (list ObjectLinkV4))) :=
  match london_mulligans_v1 o with
  | None => Ok None
  | Some m =>
      let? _ := validate o in
      if negb (is_complete m) then Err KeepsUnfinished else Ok (Some (hands m))
  end.
End London.
Arguments Opening : clear implicits.
Arguments Drained : clear implicits.
