(* ===== verification/LondonFacts.v ===== *)
(** * The redraw of a London mulligan

    What the event pipeline promises to the pregame ([LawfulOpening]), and
    what returning a hand, shuffling, drawing and bottoming do to the hidden
    zones of the player and to those of the opponent. *)

From S2P Require Import Prelude Ids Bytes Randomness RandomnessFacts.
From S2P Require Import Library LibraryRows LibraryFacts LibraryShuffle LibraryMoves LibraryReach.
From S2P Require Import London.
Import PlayerIds.

Section Contract.
Context {V4 Rest : Type} `{!ObjectRules V4 Rest} `{!OpeningView Rest}.
Implicit Types s : GameState V4 Rest.

(** Nothing is anywhere but in libraries and hands. *)
Record quiet s : Prop := MkQuiet {
  no_permanents : forall p, valid_player p ->
    battlefield (seat (players s) p) = [] /\ graveyard (seat (players s) p) = [];
  no_stack : stack s = [];
  no_exile : exile s = [];
  no_command : command s = [];
}.

Definition pregame_view s : PlayerId * Z * bool :=
  (game_starting_player (rest s), turn (rest s), step_is_untap (rest s)).

(** The events of the pregame: cards of a hand, and the two players. *)
Definition in_order (e : ProposedEvent) s : Prop :=
  match e with
  | ZoneChangeToLibrary card | PrivateBottomLibraryInsert card =>
      exists p, valid_player p /\ card ∈ hand_of s p
  | Draw p => valid_player p
  end.

(** What an event asks of the zone operations. *)
Definition performs (e : ProposedEvent) s : option (GameState V4 Rest) :=
  match e with
  | ZoneChangeToLibrary card => materialize_zone_change_v1 card Zone.Library Top false Hidden None None s
  | PrivateBottomLibraryInsert card =>
      materialize_zone_change_v1 card Zone.Library Bottom false Owner None None s
  | Draw p => snd <$> draw_card p s
  end.
End Contract.

(** With no permanent, spell or emblem around, nothing replaces an event: it is
    carried out by the zone operations, and besides them only bookkeeping
    outside the hidden zones and the random state happens. *)
Class LawfulOpening (V4 Rest : Type) `{!ObjectRules V4 Rest} `{!OpeningEvents V4 Rest}
    `{!OpeningView Rest} := {
  commit_performs (e : ProposedEvent) (s s1 : GameState V4 Rest) :
    state_ok s -> quiet s -> in_order e s -> performs e s = Some s1 ->
    exists s', propose_and_commit e s = Some s' /\ elsewhere s1 s' /\ quiet s' /\
      randomness s' = randomness s /\ pregame_view s' = pregame_view s;
}.

(* ------------------------------------------------------------------ *)
(** ** Bindings *)

Section Bindings.
Context {V4 Rest : Type}.
Implicit Types s : GameState V4 Rest.

Definition bound s (id : ObjectId) : option ObjectLinkV4 :=
  generation ← generation_of s id; Some (MkLink id generation).

Lemma hand_bindings_some s p : hidden_ok s -> valid_player p ->
  exists l, hand_bindings s p = Some l /\ length l = length (hand_of s p).
Proof.
  intros H Hp. assert (is_Some (hand_bindings s p)) as [l El].
  { apply mapM_is_Some_2, Forall_forall. intros id Hid.
    destruct (hand_lives s p id H Hp Hid) as (_ & g & E). apply ident_some in E as (o & Eo & _).
    unfold compose, generation_of. rewrite Eo. by eexists. }
  exists l. split; [done|]. symmetry. by eapply Forall2_length, mapM_Some.
Qed.

Lemma hand_bindings_same s s' p :
  hand_of s' p = hand_of s p -> (forall id, id ∈ hand_of s p -> ident s' id = ident s id) ->
  hand_bindings s' p = hand_bindings s p.
Proof.
  intros Eh Ei. unfold hand_bindings. rewrite Eh. clear Eh.
  induction (hand_of s p) as [|id l IH]; [done|]. cbn [mapM].
  assert (generation_of s' id = generation_of s id) as ->.
  { rewrite <- !gen_of_ident. apply gen_of_ext, Ei. by left. }
  rewrite IH; [done|]. intros x Hx. apply Ei. by right.
Qed.

Lemma hand_matches_bindings s m p : hidden_ok s -> valid_player p ->
  hand_bindings s p = Some (seat (hands m) p) -> hand_matches s m p = true.
Proof.
  intros H Hp E. apply mapM_Some in E. unfold hand_matches.
  rewrite bool_decide_true by (by eapply Forall2_length). cbn [andb].
  assert (forall id, id ∈ hand_of s p -> exists g, ident s id = Some (p, Zone.Hand, g)) as Hl.
  { intros id Hid. by destruct (hand_lives s p id H Hp Hid) as (_ & ?). }
  induction E as [|id b l k Eb E IH]; [done|]. cbn [zip zip_with forallb].
  rewrite IH by (intros x Hx; apply Hl; by right). rewrite andb_true_r. unfold binding_holds.
  destruct (Hl id) as (g & Ei); [by left|]. apply ident_some in Ei as (o & Eo & Ew & Ez & _).
  unfold generation_of in Eb. rewrite Eo in *. cbn in Eb. injection Eb as <-. cbn.
  by rewrite Ez, Ew, !bool_decide_true.
Qed.
End Bindings.

(* ------------------------------------------------------------------ *)
(** ** Single events *)

Section Events.
Context {V4 Rest : Type} `{!ObjectRules V4 Rest} `{!LawfulRules V4 Rest}.
Context `{!OpeningEvents V4 Rest} `{!OpeningView Rest} `{!LawfulOpening V4 Rest}.
Implicit Types s : GameState V4 Rest.
Set Default Proof Using "Type*".

(** What happens to one player leaves the other alone. *)
Record opened (p : PlayerId) s s' : Prop := MkOpened {
  op_ok : state_ok s';
  op_quiet : quiet s';
  op_view : pregame_view s' = pregame_view s;
  op_other : forall q, valid_player q -> q <> p ->
    library_of s' q = library_of s q /\ hand_of s' q = hand_of s q /\
    hand_bindings s' q = hand_bindings s q;
}.

Lemma opened_trans p s1 s2 s3 : opened p s1 s2 -> opened p s2 s3 -> opened p s1 s3.
Proof.
  intros [_ _ A3 A4] [B1 B2 B3 B4]. split; [done|done|by rewrite B3|].
  intros q Hq Hne. destruct (B4 q Hq Hne) as (-> & -> & ->). by apply A4.
Qed.

Lemma performed e p s s1 : state_ok s -> quiet s -> in_order e s -> performs e s = Some s1 -> state_ok s1 ->
  (forall q, valid_player q -> q <> p ->
     library_of s1 q = library_of s q /\ hand_of s1 q = hand_of s q /\
     forall id, id ∈ hand_of s q -> ident s1 id = ident s id) ->
  exists s', propose_and_commit e s = Some s' /\ opened p s s' /\ randomness s' = randomness s /\
    forall q, valid_player q -> library_of s' q = library_of s1 q /\ hand_of s' q = hand_of s1 q.
Proof.
  intros Hs Hq Hin E Hs1 Ho. destruct (commit_performs e s s1 Hs Hq Hin E) as (s' & E' & X & Hq' & Er & Ev).
  exists s'. split; [done|]. split_and!; [|done|intros q Hv; split; by apply X].
  split; [by eapply elsewhere_ok|done|done|]. intros q Hv Hne. destruct (Ho q Hv Hne) as (El & Eh & Ei).
  rewrite (el_library _ _ X), (el_hand _ _ X), El, Eh by done. split_and!; [done|done|].
  apply hand_bindings_same; [by rewrite (el_hand _ _ X)|]. intros id Hid.
  destruct (hand_lives s q id (proj1 Hs) Hv Hid) as (_ & g & Eid). rewrite Eid.
  apply X. by rewrite Ei.
Qed.

(** A card of the hand goes to the library. *)
Lemma to_library e placement visibility p s id :
  state_ok s -> quiet s -> valid_player p -> id ∈ hand_of s p ->
  in_order e s ->
  performs e s = materialize_zone_change_v1 id Zone.Library placement false visibility None None s ->
  exists s', propose_and_commit e s = Some s' /\ opened p s s' /\ randomness s' = randomness s /\
    library_of s' p = insert_at (insertion_index placement (length (library_of s p))) id (library_of s p) /\
    hand_of s' p = drop_from id (hand_of s p).
Proof.
  intros Hs Hq Hp Hid Hin Ee. pose proof Hs as [H _].
  destruct (hand_lives s p id H Hp Hid) as (Hu & g & Ei).
  apply ident_some in Ei as (o & Eo & Ew & Ez & _).
  destruct (materialize_ok id Zone.Library placement false visibility None None s o Hs Hu Eo)
    as (s1 & E1 & Hs1 & M); [done|done|]. rewrite Ew in M. rewrite E1 in Ee.
  destruct (performed e p s s1 Hs Hq Hin Ee Hs1) as (s' & E' & O & Er & Z).
  { intros q Hv Hne. destruct (mv_other _ _ _ _ _ _ M q Hv Hne) as [El Eh]. split_and!; [done|done|].
    intros x Hx. destruct (hand_lives s q x H Hv Hx) as (Hux & g' & Ex). apply M; [done|].
    intros ->. apply ident_some in Ex as (o' & Eo' & Ew' & _). congruence. }
  exists s'. destruct (Z p Hp) as [-> ->]. split_and!; [done|done|done| |apply M].
  rewrite (mv_library _ _ _ _ _ _ M), (absent_library id o); [done|done|done|done|].
  rewrite Ez. by intros [_ ?].
Qed.

(** A draw from a library that has a card. *)
Lemma one_draw p s id lib :
  state_ok s -> quiet s -> valid_player p -> library_of s p = id :: lib ->
  exists s', propose_and_commit (Draw p) s = Some s' /\ opened p s s' /\ randomness s' = randomness s /\
    library_of s' p = lib /\ hand_of s' p = hand_of s p ++ [id].
Proof.
  intros Hs Hq Hp El. pose proof Hs as [H _].
  destruct (library_lives s p id H Hp) as (Hu & g & Ei); [rewrite El; by left|].
  apply ident_some in Ei as (o & Eo & Ew & Ez & _).
  destruct (draw_card_ok p s id lib (zone_change_count o) Hs Hp El) as (s1 & E1 & Hs1 & B & I1).
  { unfold generation_of. by rewrite Eo. }
  destruct (performed (Draw p) p s s1 Hs Hq Hp) as (s' & E' & O & Er & Z);
    [cbn [performs]; by rewrite E1|done| |].
  { intros q Hv Hne. split_and!; [by apply (other_library _ _ _ _ _ _ _ B)|by apply (other_hand _ _ _ _ _ _ _ B)|].
    intros x Hx. destruct (hand_lives s q x H Hv Hx) as (Hux & g' & Ex). apply I1; [done|].
    intros ->. apply ident_some in Ex as (o' & Eo' & Ew' & Ez' & _). congruence. }
  exists s'. destruct (Z p Hp) as [-> ->]. split_and!; [done|done|done|apply B|apply B].
Qed.

(* ------------------------------------------------------------------ *)
(** ** The loops of the redraw *)

Lemma return_hand_ok p cards : forall s, state_ok s -> quiet s -> valid_player p -> hand_of s p = cards ->
  exists s', return_hand cards s = Some s' /\ opened p s s' /\ randomness s' = randomness s /\
    library_of s' p ≡ₚ library_of s p ++ cards /\ hand_of s' p = [].
Proof.
  induction cards as [|id cards IH]; intros s Hs Hq Hp Eh.
  - exists s. split_and!; [done| |done|by rewrite app_nil_r|done]. by split.
  - pose proof Hs as [H _]. assert (NoDup (hand_of s p)) as Hnd by apply (H p Hp).
    destruct (to_library (ZoneChangeToLibrary id) Top Hidden p s id Hs Hq Hp) as (s1 & E1 & O1 & R1 & L1 & H1);
      [rewrite Eh; by left|exists p; split; [done|rewrite Eh; by left]|done|].
    assert (hand_of s1 p = cards) as Eh1.
    { rewrite H1, Eh. rewrite Eh in Hnd. apply NoDup_cons in Hnd as [Hni _]. unfold drop_from.
      rewrite filter_cons_False by (intros Hn; by apply Hn). by apply (drop_from_absent id). }
    destruct (IH s1) as (s2 & E2 & O2 & R2 & L2 & H2); [apply O1|apply O1|done|done|].
    exists s2. split_and!; [|by eapply opened_trans|by rewrite R2| |done].
    + unfold return_hand in *. cbn [foldl mbind option_bind]. by rewrite E1.
    + rewrite L2, L1. cbn [insertion_index]. unfold insert_at. cbn. apply Permutation_middle.
Qed.

Lemma draw_times_ok p n : forall s, state_ok s -> quiet s -> valid_player p -> n <= length (library_of s p) ->
  exists s', draw_times n p s = Some s' /\ opened p s s' /\ randomness s' = randomness s /\
    library_of s' p = drop n (library_of s p) /\ hand_of s' p = hand_of s p ++ take n (library_of s p).
Proof.
  induction n as [|n IH]; intros s Hs Hq Hp Hn.
  - exists s. split_and!; [done| |done|done|by rewrite app_nil_r]. by split.
  - destruct (library_of s p) as [|id lib] eqn:El; [cbn in Hn; lia|].
    destruct (one_draw p s id lib Hs Hq Hp El) as (s1 & E1 & O1 & R1 & L1 & H1).
    destruct (IH s1) as (s2 & E2 & O2 & R2 & L2 & H2); [apply O1|apply O1|done|rewrite L1; cbn in Hn; lia|].
    exists s2. split_and!; [|by eapply opened_trans|by rewrite R2| |].
    + cbn [draw_times]. by rewrite E1.
    + by rewrite L2, L1.
    + rewrite H2, L1, H1, <- app_assoc. done.
Qed.

(** [n] more shuffles of the owner are possible. *)
Definition budget (n : Z) (r : GameRandomnessState) (p : PlayerId) : Prop :=
  match r with
  | Legacy _ => True
  | EnvironmentV2 v2 => (next_live_shuffle_ordinal v2 (physical p) + n <= u64_max)%Z
  end.

Lemma shuffled_opened p lib r s : state_ok s -> quiet s -> valid_player p -> lib ≡ₚ library_of s p ->
  opened p s (shuffled p lib r s) /\ library_of (shuffled p lib r s) p = lib /\
  hand_of (shuffled p lib r s) p = hand_of s p.
Proof.
  intros [H Hv] Hq Hp HP. pose proof (shuffled_becomes p lib r s Hp) as B.
  split_and!; [|apply B|apply B]. split.
  - split; [by apply shuffled_ok|by apply (objects_owners s)].
  - destruct Hq as [Q1 Q2 Q3 Q4]. split; [|done..]. intros q Hq. destruct (Q1 q Hq) as [Q5 Q6].
    destruct Hp as [->| ->], Hq as [->| ->]; by split.
  - done.
  - intros q Hw Hne. assert (hand_of (shuffled p lib r s) q = hand_of s q) as Eh
      by (by apply (other_hand _ _ _ _ _ _ _ B)).
    split_and!; [by apply (other_library _ _ _ _ _ _ _ B)|done|]. by apply hand_bindings_same.
Qed.

Lemma shuffle_opened sha256 p s : state_ok s -> quiet s -> valid_player p ->
  random_wf (randomness s) -> budget 1 (randomness s) p ->
  exists s', shuffle_library sha256 p s = Ok s' /\ opened p s s' /\
    library_of s' p ≡ₚ library_of s p /\ hand_of s' p = hand_of s p /\ random_wf (randomness s') /\
    forall q n, valid_player q -> budget (if decide (q = p) then n + 1 else n) (randomness s) q ->
      budget n (randomness s') q.
Proof.
  intros Hs Hq Hp Hw Hb.
  destruct (shuffle_library_cases sha256 p s Hp Hw) as [(lib & r & E & HP & Hr)|(_ & v2 & E & En)].
  2:{ rewrite E in Hb. cbn in Hb. lia. }
  destruct (shuffled_opened p lib r s Hs Hq Hp HP) as (O & El & Eh).
  exists (shuffled p lib r s). split_and!; [done|done|by rewrite El|done| |].
  - by eapply shuffle_library_random_wf.
  - intros q n Hv. change (randomness (shuffled p lib r s)) with r.
    destruct (randomness s) as [rng|v2]; [by destruct r|]. destruct Hr as (Hn & -> & _). cbn [budget advanced].
    case_decide as Ed; [subst q; rewrite next_set_eq; lia|].
    rewrite next_set_ne; [done|]. intros Hph. apply Ed. by apply physical_inj.
Qed.

(** The whole redraw of a player who takes a mulligan. *)
Lemma redraw_ok sha256 p s m :
  state_ok s -> quiet s -> valid_player p -> random_wf (randomness s) -> budget 1 (randomness s) p ->
  seat (mulligan_this_round m) p = true -> 7 <= length (library_of s p ++ hand_of s p) ->
  exists s' l, redraw sha256 p (s, m) =
      Ok (s', with_hands (set_seat (hands m) p l)
                (with_counts (set_seat (counts m) p (wrap_u8 (seat (counts m) p + 1))) m)) /\
    opened p s s' /\ hand_bindings s' p = Some l /\ length (hand_of s' p) = 7 /\
    library_of s' p ++ hand_of s' p ≡ₚ library_of s p ++ hand_of s p /\ random_wf (randomness s') /\
    forall q n, valid_player q -> budget (if decide (q = p) then n + 1 else n) (randomness s) q ->
      budget n (randomness s') q.
Proof.
  intros Hs Hq Hp Hw Hb Em Hl. unfold redraw. rewrite Em. cbn [negb].
  destruct (return_hand_ok p (hand_of s p) s Hs Hq Hp eq_refl) as (s1 & -> & O1 & R1 & L1 & H1).
  cbn [ok_or result_bind]. rewrite <- R1 in Hw, Hb.
  destruct (shuffle_opened sha256 p s1) as (s2 & -> & O2 & L2 & H2 & W2 & B2); [apply O1|apply O1|done..|].
  cbn [ok_or result_bind]. assert (library_of s2 p ≡ₚ library_of s p ++ hand_of s p) as L12 by (by rewrite L2, L1).
  change (Z.to_nat HAND_SIZE) with 7.
  destruct (draw_times_ok p 7 s2) as (s3 & -> & O3 & R3 & L3 & H3); [apply O2|apply O2|done|by rewrite L12|].
  cbn [ok_or result_bind]. pose proof (opened_trans _ _ _ _ O1 (opened_trans _ _ _ _ O2 O3)) as O.
  destruct (hand_bindings_some s3 p (proj1 (op_ok _ _ _ O3)) Hp) as (l & Eb & _). rewrite Eb.
  cbn [ok_or result_bind]. exists s3, l. rewrite H2, H1 in H3. cbn [app] in H3.
  split_and!; [done|done|done| | |by rewrite R3|].
  - rewrite H3, length_take, L12. lia.
  - rewrite L3, H3, <- L12. rewrite Permutation_app_comm. by rewrite take_drop.
  - intros q n Hv Hn. rewrite R3. apply B2; [done|]. by rewrite R1.
Qed.
End Events.
