(* ===== verification/LondonProtocol.v ===== *)
(** * The protocol of London mulligans

    The invariant of the pregame between any two calls, and what the drain loop
    and an answer do to it: cards stay with their owners, a hand has seven cards
    less the mulligans taken, the drain always ends in a question with legal
    answers or in kept hands, and a player can answer only so often. *)

From S2P Require Import Prelude Ids Bytes Randomness RandomnessFacts.
From S2P Require Import Library LibraryRows LibraryFacts LibraryShuffle LibraryMoves.
From S2P Require Import LibraryReach London LondonFacts.
Import PlayerIds.

(* ------------------------------------------------------------------ *)
(** ** The stage, seen from one seat *)

(** [i] is the place in turn order, [c] the mulligans taken, [k] and [mu] the
    flags of the seat and [h] the size of its hand. *)
Definition seat_stage (st : Stage.t) (i c : Z) (k mu : bool) (h : Z) : Prop :=
  match st with
  | Stage.Announce next =>
      h = (7 - c)%Z /\ ((next <= i)%Z -> mu = false) /\
      ((i < next)%Z -> k = negb mu /\ (mu = true -> (c < 7)%Z))
  | Stage.Bottom next remaining =>
      k = negb mu /\ (i = next -> (remaining <= if mu then c else 0)%Z) /\
      if mu then (1 <= c)%Z /\
        h = (7 - c + (if (i <? next)%Z then 0
                      else if (i =? next)%Z then if (remaining =? 0)%Z then c else remaining
                      else c))%Z
      else h = (7 - c)%Z
  | Stage.Complete => k = true /\ h = (7 - c)%Z
  end.

Definition stage_wf (st : Stage.t) : Prop :=
  match st with
  | Stage.Announce next => (0 <= next <= 2)%Z
  | Stage.Bottom next remaining => (0 <= next <= 2 /\ 0 <= remaining)%Z
  | Stage.Complete => True
  end.

(** Twice the answers a seat may still give: with [c] mulligans taken, [j + 2]
    for each [j] from [c] to six. *)
Definition answers_from (c : Z) : Z := 70 - c * c - 3 * c.

Definition seat_answers (st : Stage.t) (i c : Z) (k mu : bool) : Z :=
  match st with
  | Stage.Announce next =>
      if (next <=? i)%Z then (if k then 0 else answers_from c)%Z
      else if mu then (2 * (c + 1) + answers_from (c + 1))%Z else 0%Z
  | Stage.Bottom next remaining =>
      if mu then (answers_from c + 2 * (if (i <? next)%Z then 0
                      else if (i =? next)%Z then if (remaining =? 0)%Z then c else remaining
                      else c))%Z
      else 0%Z
  | Stage.Complete => 0%Z
  end.

Definition answers_left (m : LondonMulligansV1) : Z :=
  let left i := seat_answers (stage m) i (seat (counts m) (player m i)) (seat (kept m) (player m i))
                  (seat (mulligan_this_round m) (player m i)) in
  (left 0%Z + left 1%Z)%Z.

Lemma answers_from_nonneg c : (0 <= c <= 7)%Z -> (0 <= answers_from c)%Z.
Proof. intros H. unfold answers_from. nia. Qed.

Lemma answers_from_step c : answers_from c = (answers_from (c + 1) + 2 * (c + 1) + 2)%Z.
Proof. unfold answers_from. lia. Qed.

(** Drain steps until a question or the end. *)
Definition rank (m : LondonMulligansV1) : nat :=
  let k i := seat (kept m) (player m i) in
  match stage m with
  | Stage.Announce 0 => 4
  | Stage.Announce 1 => if k 0%Z then 3 else 9
  | Stage.Announce _ => if k 0%Z && k 1%Z then 2 else 8
  | Stage.Bottom 0 _ => 7
  | Stage.Bottom 1 _ => 6
  | Stage.Bottom _ _ => 5
  | Stage.Complete => 1
  end.

Lemma player_valid m i : valid_player (starting_player m) -> valid_player (player m i).
Proof.
  unfold player. intros [->| ->]; case_decide; unfold valid_player; auto.
Qed.

Lemma seat_set_player {T} (a : per_player T) m i j v : valid_player (starting_player m) ->
  i = 0%Z \/ i = 1%Z -> j = 0%Z \/ j = 1%Z ->
  seat (set_seat a (player m i) v) (player m j) = if decide (j = i) then v else seat a (player m j).
Proof. unfold player. by intros [->| ->] [->| ->] [->| ->]. Qed.

Lemma player_neq m i j : valid_player (starting_player m) ->
  i = 0%Z \/ i = 1%Z -> j = 0%Z \/ j = 1%Z -> i <> j -> player m i <> player m j.
Proof. unfold player. by intros [->| ->] [->| ->] [->| ->]. Qed.

Lemma both_kept m : valid_player (starting_player m) ->
  seat (kept m) P0 && seat (kept m) P1 = seat (kept m) (player m 0) && seat (kept m) (player m 1).
Proof. unfold player. intros [->| ->]; [done|]. apply andb_comm. Qed.

Lemma player_cases m p : valid_player (starting_player m) -> valid_player p ->
  exists i, (i = 0%Z \/ i = 1%Z) /\ p = player m i.
Proof.
  unfold player. intros [->| ->] [->| ->];
    first [by exists 0%Z; split; [left|] | by exists 1%Z; split; [right|]].
Qed.

(* ------------------------------------------------------------------ *)
(** ** The drain loop ends on every state *)

Section Protocol.
Context {V4 Rest : Type} `{!ObjectRules V4 Rest} `{!OpeningEvents V4 Rest} `{!OpeningView Rest}.
Context (sha256 : bytes -> bytes).
Implicit Types s : GameState V4 Rest.

Lemma redraw_fields p s m s' m' : redraw sha256 p (s, m) = Ok (s', m') ->
  starting_player m' = starting_player m /\ stage m' = stage m /\ kept m' = kept m /\
  mulligan_this_round m' = mulligan_this_round m.
Proof.
  unfold redraw. destruct (negb _); [by intros [= _ <-]|].
  intros E. apply result_bind_ok in E as (s1 & _ & E). apply result_bind_ok in E as (s2 & _ & E).
  apply result_bind_ok in E as (s3 & _ & E). apply result_bind_ok in E as (l & _ & E).
  by injection E as _ <-.
Qed.

(** Every step that asks nothing comes closer to the end. *)
Lemma drain_step_rank s m o : valid_player (starting_player m) -> stage_wf (stage m) ->
  drain_step sha256 s m = Ok (Continue o) ->
  exists m', london_mulligans_v1 o = Some m' /\ starting_player m' = starting_player m /\
    stage_wf (stage m') /\ rank m' < rank m.
Proof.
  intros Hv Hw. unfold drain_step. destruct (stage m) as [next|next remaining|] eqn:Es; [| |done].
  - destruct (Z.ltb_spec next 2) as [Hn|Hn].
    + destruct (_ || _); [|done]. intros [= <-]. eexists. split; [reflexivity|]. cbn in Hw.
      split; [done|]. assert (next = 0 \/ next = 1)%Z as Hc by lia. unfold rank. cbn [stage with_stage kept with_kept].
      rewrite Es. rewrite !wrap_u8_small by lia. change (player (with_stage _ _)) with (player m).
      rewrite !seat_set_player by auto. split; [cbn; lia|].
      destruct Hc as [->| ->].
      * change (0 + 1)%Z with 1%Z. rewrite (decide_True (P := (0 = 0)%Z)) by done. lia.
      * change (1 + 1)%Z with 2%Z. rewrite (decide_False (P := (0 = 1)%Z)), (decide_True (P := (1 = 1)%Z)) by done.
        cbn. destruct (seat (kept m) (player m 0)); cbn; lia.
    + destruct (Z.eqb_spec next 2) as [->|]; [|done]. rewrite both_kept by done.
      destruct (_ && _) eqn:Ek; [done|].
      * intros E. apply result_bind_ok in E as ([s1 m1] & E1 & E). apply result_bind_ok in E as ([s2 m2] & E2 & E).
        injection E as <-. eexists. split; [reflexivity|].
        apply redraw_fields in E1 as (A1 & A2 & A3 & A4), E2 as (B1 & B2 & B3 & B4).
        cbn. split; [congruence|]. split; [lia|]. unfold rank. cbn. rewrite Es, Ek. lia.
  - destruct Hw as [Hw _]. destruct (Z.ltb_spec next 2) as [Hn|Hn].
    + destruct (negb _); [|done]. intros [= <-]. eexists. split; [reflexivity|].
      assert (next = 0 \/ next = 1)%Z as Hc by lia. split; [done|]. unfold rank. cbn. rewrite Es.
      rewrite wrap_u8_small by lia. split; [cbn; lia|]. destruct Hc as [->| ->].
      * change (0 + 1)%Z with 1%Z. cbn. lia.
      * change (1 + 1)%Z with 2%Z. cbn. lia.
    + destruct (Z.eqb_spec next 2) as [->|]; [|done]. intros [= <-]. eexists. split; [reflexivity|].
      split; [done|]. unfold rank. cbn. rewrite Es. split; [cbn; lia|cbn; lia].
Qed.

Lemma validated_field (o : Opening V4 Rest) m : validate o = Ok m ->
  london_mulligans_v1 o = Some m /\ valid_player (starting_player m).
Proof.
  unfold validate. destruct (london_mulligans_v1 o) as [m'|]; [|done]. cbn [ok_or result_bind].
  destruct (decide (valid_player (starting_player m'))) as [Hv|Hv].
  - destruct (_ || _); [done|]. destruct (_ && _); [|done]. by intros [= <-].
  - rewrite (bool_decide_false (valid_player _)) by done. cbn [negb]. rewrite orb_true_r. done.
Qed.

Lemma rank_bound m : rank m <= 9.
Proof. unfold rank. repeat case_match; lia. Qed.

Lemma drain_loop_ends fuel : forall o : Opening V4 Rest,
  match london_mulligans_v1 o with Some m => stage_wf (stage m) /\ rank m <= fuel | None => 0 < fuel end ->
  drain_loop sha256 fuel o <> None.
Proof.
  induction fuel as [|fuel IH]; intros o Ho.
  - destruct (london_mulligans_v1 o) as [m|]; [|lia]. destruct Ho as [_ Hr].
    exfalso. revert Hr. unfold rank. repeat case_match; lia.
  - cbn [drain_loop]. destruct (negb (has_pending o)) eqn:Hp; [done|].
    destruct (validate o) as [m|e] eqn:Ev; [|done]. apply validated_field in Ev as [Em Hv]. cbn [from_reject result_bind].
    rewrite Em in Ho. destruct Ho as [Hw Hr].
    destruct (drain_step sha256 (game o) m) as [[d o'|o'|o']|e] eqn:Ed; [done|done| |done].
    destruct (drain_step_rank _ _ _ Hv Hw Ed) as (m' & Em' & _ & Hw' & Hlt).
    apply IH. rewrite Em'. split; [done|lia].
Qed.

Lemma drain_terminates (o : Opening V4 Rest) :
  match london_mulligans_v1 o with Some m => stage_wf (stage m) | None => True end ->
  drain_or_decide sha256 o <> None.
Proof.
  intros H. apply drain_loop_ends. destruct (london_mulligans_v1 o) as [m|]; [|unfold drain_fuel; lia].
  split; [done|]. apply rank_bound.
Qed.
End Protocol.

(* ------------------------------------------------------------------ *)
(** ** The invariant *)

Section Invariant.
Context {V4 Rest : Type} `{!ObjectRules V4 Rest} `{!LawfulRules V4 Rest}.
Context `{!OpeningEvents V4 Rest} `{!OpeningView Rest} `{!LawfulOpening V4 Rest}.
Context (sha256 : bytes -> bytes) (deck : PlayerId -> list ObjectId).
Context (deck_size : forall p, valid_player p -> 7 <= length (deck p)).
Implicit Types s : GameState V4 Rest.
Implicit Types o : Opening V4 Rest.
Set Default Proof Using "Type*".

Definition hand_size s (p : PlayerId) : Z := Z.of_nat (length (hand_of s p)).

(** What holds of one seat: the cards are those of its deck, and enough
    shuffles are left for the mulligans it may still take. *)
Record seat_at (st : Stage.t) s m (i : Z) : Prop := MkSeatAt {
  so_count : (0 <= seat (counts m) (player m i) <= 7)%Z;
  so_bound : hand_bindings s (player m i) = Some (seat (hands m) (player m i));
  so_cards : library_of s (player m i) ++ hand_of s (player m i) ≡ₚ deck (player m i);
  so_budget : budget (7 - seat (counts m) (player m i)) (randomness s) (player m i);
  so_stage : seat_stage st i (seat (counts m) (player m i)) (seat (kept m) (player m i))
               (seat (mulligan_this_round m) (player m i)) (hand_size s (player m i));
}.

Record table_ok s m : Prop := MkTableOk {
  to_state : state_ok s;
  to_quiet : quiet s;
  to_random : random_wf (randomness s);
  to_valid : valid_player (starting_player m);
  to_view : pregame_view s = (starting_player m, 1%Z, true);
}.

Record mull_ok o m : Prop := MkMullOk {
  mo_field : london_mulligans_v1 o = Some m;
  mo_table : table_ok (game o) m;
  mo_stage : stage_wf (stage m);
  mo_seat : forall i, i = 0%Z \/ i = 1%Z -> seat_at (stage m) (game o) m i;
}.

Lemma mull_validates o m : mull_ok o m -> validate o = Ok m.
Proof.
  intros [E [Hs _ _ Hv Ht] _ Hi]. unfold validate. rewrite E. cbn [ok_or result_bind].
  injection Ht as E1 E2 E3. rewrite E1, E2, E3.
  rewrite (bool_decide_false (starting_player m <> _)), (bool_decide_true (valid_player _)),
    (bool_decide_false (1%Z <> 1%Z)) by (done || by intros Hn; apply Hn).
  assert (forall p, valid_player p -> hand_matches (game o) m p = true /\
            (HAND_SIZE <? seat (counts m) p)%Z = false) as K.
  { intros p Hp. destruct (player_cases m p Hv Hp) as (i & Hi' & ->). destruct (Hi i Hi') as [A B _ _ _].
    split; [apply hand_matches_bindings; [apply Hs|done|done]|]. apply Z.ltb_ge. unfold HAND_SIZE. lia. }
  destruct (K P0 valid_P0) as [-> ->], (K P1 valid_P1) as [-> ->]. done.
Qed.

(** A step that changes flags and stage only. *)
Lemma restage o m m' : mull_ok o m -> starting_player m' = starting_player m ->
  counts m' = counts m -> hands m' = hands m -> stage_wf (stage m') ->
  (forall i, i = 0%Z \/ i = 1%Z -> seat_stage (stage m') i (seat (counts m) (player m i))
     (seat (kept m') (player m i)) (seat (mulligan_this_round m') (player m i))
     (hand_size (game o) (player m i))) ->
  mull_ok (MkOpening (game o) (Some m')) m'.
Proof.
  intros [E [T1 T2 T3 T4 T5] Hw Hi] E1 E2 E3 Hw' Hst. split; [done| |done|].
  - split; rewrite ?E1; done.
  - intros i Hi'. destruct (Hi i Hi') as [A B C D _]. assert (player m' i = player m i) as Ep
      by (unfold player; by rewrite E1).
    cbn [game]. split; rewrite ?Ep, ?E2, ?E3; try done. by apply Hst.
Qed.

(** One seat redraws; the other is untouched. *)
Lemma redraw_seat s m i : table_ok s m -> i = 0%Z \/ i = 1%Z ->
  library_of s (player m i) ++ hand_of s (player m i) ≡ₚ deck (player m i) ->
  budget (7 - seat (counts m) (player m i)) (randomness s) (player m i) ->
  (0 <= seat (counts m) (player m i) < 7)%Z -> seat (mulligan_this_round m) (player m i) = true ->
  exists s' m', redraw sha256 (player m i) (s, m) = Ok (s', m') /\ table_ok s' m' /\
    starting_player m' = starting_player m /\ stage m' = stage m /\ kept m' = kept m /\
    mulligan_this_round m' = mulligan_this_round m /\
    (seat (counts m') (player m i) = seat (counts m) (player m i) + 1)%Z /\
    hand_size s' (player m i) = 7%Z /\
    hand_bindings s' (player m i) = Some (seat (hands m') (player m i)) /\
    library_of s' (player m i) ++ hand_of s' (player m i) ≡ₚ deck (player m i) /\
    budget (7 - seat (counts m') (player m i)) (randomness s') (player m i) /\
    forall j, j = 0%Z \/ j = 1%Z -> j <> i ->
      seat (counts m') (player m j) = seat (counts m) (player m j) /\
      seat (hands m') (player m j) = seat (hands m) (player m j) /\
      library_of s' (player m j) = library_of s (player m j) /\
      hand_of s' (player m j) = hand_of s (player m j) /\
      hand_bindings s' (player m j) = hand_bindings s (player m j) /\
      forall n, budget n (randomness s) (player m j) -> budget n (randomness s') (player m j).
Proof.
  intros [T1 T2 T3 T4 T5] Hi Hc Hb Hn Hm. pose proof (player_valid m i T4) as Hp.
  destruct (redraw_ok sha256 (player m i) s m T1 T2 Hp T3) as (s' & l & E & O & Eb & El & EP & W & B).
  { destruct (randomness s); [done|]. cbn in *. lia. }
  { done. }
  { rewrite Hc. by apply deck_size. }
  eexists s', _. split; [exact E|]. rewrite wrap_u8_small by lia.
  split; [split; [apply O|apply O|done|done|by rewrite (op_view _ _ _ O)]|].
  cbn [starting_player stage kept mulligan_this_round counts hands with_counts with_hands].
  rewrite !seat_set_player, !decide_True by done.
  split_and!; try done.
  - unfold hand_size. by rewrite El.
  - by rewrite EP.
  - apply B; [done|]. rewrite decide_True by done.
    replace (7 - (seat (counts m) (player m i) + 1) + 1)%Z with (7 - seat (counts m) (player m i))%Z by lia.
    done.
  - intros j Hj Hne. rewrite !seat_set_player, !decide_False by done.
    assert (player m j <> player m i) as Hpne by (by apply player_neq).
    pose proof (player_valid m j T4) as Hpj. destruct (op_other _ _ _ O (player m j) Hpj Hpne) as (A1 & A2 & A3).
    split_and!; try done. intros n Hbn. apply B; [done|]. by rewrite decide_False.
Qed.

(** A seat's part of the redraw, whether it took a mulligan or not. *)
Lemma redraw_any s m i : table_ok s m -> i = 0%Z \/ i = 1%Z -> seat_at (Stage.Announce 2) s m i ->
  exists s' m', redraw sha256 (player m i) (s, m) = Ok (s', m') /\ table_ok s' m' /\
    starting_player m' = starting_player m /\ kept m' = kept m /\
    mulligan_this_round m' = mulligan_this_round m /\ seat_at (Stage.Bottom 0 0) s' m' i /\
    seat_answers (Stage.Bottom 0 0) i (seat (counts m') (player m i)) (seat (kept m) (player m i))
        (seat (mulligan_this_round m) (player m i)) =
      seat_answers (Stage.Announce 2) i (seat (counts m) (player m i)) (seat (kept m) (player m i))
        (seat (mulligan_this_round m) (player m i)) /\
    forall j, j = 0%Z \/ j = 1%Z -> j <> i ->
      seat (counts m') (player m j) = seat (counts m) (player m j) /\
      forall st, seat_at st s m j -> seat_at st s' m' j.
Proof.
  intros T Hi [A B C D (H1 & _ & H3)]. destruct H3 as [Ek Hc]; [destruct Hi; lia|].
  assert (((i <? 0) = false)%Z) as Hlt by (apply Z.ltb_ge; destruct Hi; lia).
  destruct (seat (mulligan_this_round m) (player m i)) eqn:Em.
  - specialize (Hc eq_refl).
    destruct (redraw_seat s m i T Hi C D) as
      (s' & m' & E & T' & E1 & E2 & E3 & E4 & Ec & Eh & Eb & EP & Ebud & Ej); [lia|done|].
    assert (forall j, player m' j = player m j) as Ep by (intros j; unfold player; by rewrite E1).
    exists s', m'. split; [exact E|]. split; [exact T'|]. split; [done|]. split; [done|]. split; [done|].
    split; [|split].
    + split; rewrite ?Ep; [lia|done|done|done|]. rewrite E3, E4, Ek, Em, Ec, Eh. cbn. rewrite Hlt.
      split; [done|]. split; [lia|]. split; [lia|]. destruct (i =? 0)%Z; lia.
    + cbn. rewrite Hlt. destruct (Z.leb_spec 2 i); [destruct Hi; lia|]. rewrite Ec.
      destruct (i =? 0)%Z; lia.
    + intros j Hj Hne. destruct (Ej j Hj Hne) as (J1 & J2 & J3 & J4 & J5 & J6). split; [done|].
      intros st [K1 K2 K3 K4 K5]. split; rewrite ?Ep, ?E3, ?E4, ?J1, ?J2, ?J3, ?J4, ?J5; try done; [by apply J6|].
      unfold hand_size. by rewrite J4.
  - exists s, m. unfold redraw. rewrite Em. split; [done|]. split; [done|].
    do 3 (split; [done|]). split; [|split].
    + split; try done. cbn. by rewrite Ek, Em.
    + cbn. destruct (Z.leb_spec 2 i); [destruct Hi; lia|]. done.
    + by intros j _ _.
Qed.

(** The step that ends the announcements. *)
Lemma both_redraw o m : mull_ok o m -> stage m = Stage.Announce 2 ->
  seat (kept m) P0 && seat (kept m) P1 = false ->
  exists o' m', drain_step sha256 (game o) m = Ok (Continue o') /\ mull_ok o' m' /\
    (answers_left m' <= answers_left m)%Z.
Proof.
  intros [E T Hw Hi] Es Ek. pose proof (to_valid _ _ T) as Hv.
  rewrite Es in Hi. pose proof (Hi 0%Z (or_introl eq_refl)) as S0. pose proof (Hi 1%Z (or_intror eq_refl)) as S1.
  destruct (redraw_any (game o) m 0 T (or_introl eq_refl) S0) as
    (s1 & m1 & E1 & T1 & A1 & A2 & A3 & B0 & L0 & J0).
  destruct (J0 1%Z (or_intror eq_refl)) as [C1 J1]; [done|].
  assert (forall j, player m1 j = player m j) as Ep1 by (intros j; unfold player; by rewrite A1).
  destruct (redraw_any s1 m1 1 T1 (or_intror eq_refl) (J1 _ S1)) as
    (s2 & m2 & E2 & T2 & A1' & A2' & A3' & B1 & L1 & K0).
  destruct (K0 0%Z (or_introl eq_refl)) as [C0 K1]; [done|].
  assert (forall j, player m2 j = player m j) as Ep2 by (intros j; unfold player; by rewrite A1', A1).
  exists (MkOpening s2 (Some (with_stage (Stage.Bottom 0 0) m2))), (with_stage (Stage.Bottom 0 0) m2).
  split; [|split].
  - unfold drain_step. rewrite Es, Ek. cbn [Z.ltb Z.eqb Z.compare]. rewrite E1. cbn [result_bind].
    rewrite <- (Ep1 1%Z), E2. done.
  - split; [done|destruct T2; by split|cbn; lia|]. cbn [game].
    intros j [-> | ->]; [destruct (K1 _ B0) as [X1 X2 X3 X4 X5]|destruct B1 as [X1 X2 X3 X4 X5]]; by split.
  - unfold answers_left. cbn [stage with_stage counts kept mulligan_this_round].
    change (player (with_stage _ _)) with (player m2). rewrite Es, !Ep2, A2', A2, A3', A3.
    rewrite !Ep1 in *. rewrite A2, A3, C1 in L1. rewrite L1, C0, L0. lia.
Qed.

(** What a question says of the pregame it interrupts. *)
Definition asks (d : Decision) o m : Prop :=
  match d with
  | ChooseLondonMulligan p c => exists next, stage m = Stage.Announce next /\ (0 <= next < 2)%Z /\
      p = player m next /\ seat (kept m) p = false /\ seat (counts m) p = c /\ (c < 7)%Z
  | ChooseLondonBottom p remaining candidates => exists next, stage m = Stage.Bottom next remaining /\
      (0 <= next < 2)%Z /\ p = player m next /\ seat (mulligan_this_round m) p = true /\
      candidates = hand_of (game o) p /\ (0 < remaining <= seat (counts m) p)%Z
  end.

(** The answers of one seat. *)
Definition answers_at m (i : Z) : Z :=
  seat_answers (stage m) i (seat (counts m) (player m i)) (seat (kept m) (player m i))
    (seat (mulligan_this_round m) (player m i)).

Lemma answers_left_le m m' :
  (forall i, i = 0%Z \/ i = 1%Z -> (answers_at m' i <= answers_at m i)%Z) ->
  (answers_left m' <= answers_left m)%Z.
Proof.
  intros H. pose proof (H 0%Z (or_introl eq_refl)). pose proof (H 1%Z (or_intror eq_refl)).
  unfold answers_left, answers_at in *. lia.
Qed.

Lemma answers_left_drop m m' next : next = 0%Z \/ next = 1%Z ->
  (forall i, i = 0%Z \/ i = 1%Z ->
     (answers_at m' i + (if decide (i = next) then 2 else 0) <= answers_at m i)%Z) ->
  (answers_left m' + 2 <= answers_left m)%Z.
Proof.
  intros Hn H. pose proof (H 0%Z (or_introl eq_refl)) as H0. pose proof (H 1%Z (or_intror eq_refl)) as H1.
  change (answers_at m' 0 + answers_at m' 1 + 2 <= answers_at m 0 + answers_at m 1)%Z.
  destruct Hn as [-> | ->]; [rewrite decide_True in H0 by done; rewrite decide_False in H1 by done
                            |rewrite decide_False in H0 by done; rewrite decide_True in H1 by done]; lia.
Qed.

(** A result of a drain step: a question, or on with no more answers than
    before. *)
Definition settled m (r : Drained V4 Rest) : Prop :=
  match r with
  | Ask d o' => exists m', mull_ok o' m' /\ asks d o' m' /\ (answers_left m' <= answers_left m)%Z
  | Finish o' => exists m', mull_ok o' m' /\ (answers_left m' <= answers_left m)%Z /\
      stage m' = Stage.Complete
  | Continue o' => exists m', mull_ok o' m' /\ (answers_left m' <= answers_left m)%Z
  end.

Lemma round_seat o m i : mull_ok o m -> i = 0%Z \/ i = 1%Z ->
  (0 <= seat (counts m) (player m i) <= 7)%Z /\
  seat_stage (stage m) i (seat (counts m) (player m i)) (seat (kept m) (player m i))
    (seat (mulligan_this_round m) (player m i)) (hand_size (game o) (player m i)).
Proof. intros M Hi. by destruct (mo_seat _ _ M i Hi). Qed.

(** A continuation that changes flags and stage only. *)
Lemma settle_restage o m m' : mull_ok o m -> starting_player m' = starting_player m ->
  counts m' = counts m -> hands m' = hands m -> stage_wf (stage m') ->
  (forall i, i = 0%Z \/ i = 1%Z ->
     seat_stage (stage m') i (seat (counts m) (player m i))
       (seat (kept m') (player m i)) (seat (mulligan_this_round m') (player m i))
       (hand_size (game o) (player m i)) /\
     (seat_answers (stage m') i (seat (counts m) (player m i)) (seat (kept m') (player m i))
        (seat (mulligan_this_round m') (player m i)) <= answers_at m i)%Z) ->
  mull_ok (MkOpening (game o) (Some m')) m' /\ (answers_left m' <= answers_left m)%Z.
Proof.
  intros M E1 E2 E3 Hw H. split.
  - apply restage with m; try done. intros i Hi. by apply H.
  - apply answers_left_le. intros i Hi. destruct (H i Hi) as [_ K].
    assert (player m' i = player m i) as Ep by (unfold player; by rewrite E1).
    unfold answers_at in *. by rewrite Ep, E2.
Qed.

Ltac seat_view i M :=
  let A := fresh "A" in let B := fresh "B" in
  destruct (round_seat _ _ i M) as [A B]; [done|].

(** Both have kept: the mulligans are over. *)
Lemma announce_done o m : mull_ok o m -> stage m = Stage.Announce 2 ->
  seat (kept m) P0 && seat (kept m) P1 = true ->
  exists r, drain_step sha256 (game o) m = Ok r /\ settled m r.
Proof.
  intros M Es Ek. eexists (Finish _). split; [unfold drain_step; by rewrite Es, Ek|].
  pose proof (to_valid _ _ (mo_table _ _ M)) as Hv. rewrite both_kept in Ek by done.
  apply andb_true_iff in Ek as [K0 K1]. exists (with_stage Stage.Complete m). apply and_assoc.
  split; [|done]. eapply settle_restage; try done. intros i Hi.
  seat_view i M. rewrite Es in B. destruct B as (B & _ & C). cbn.
  assert (seat (kept m) (player m i) = true) as Ek by (by destruct Hi as [->| ->]).
  split; [by rewrite Ek|]. unfold answers_at. rewrite Es. cbn.
  rewrite (proj2 (Z.leb_gt 2 i)) by (destruct Hi; lia). rewrite Ek in C.
  destruct C as [C _]; [destruct Hi; lia|]. by destruct (seat (mulligan_this_round m) _).
Qed.

(** A seat that kept, or has taken all seven mulligans, is passed over. *)
Lemma announce_pass o m next : mull_ok o m -> stage m = Stage.Announce next ->
  next = 0%Z \/ next = 1%Z ->
  seat (kept m) (player m next) || (seat (counts m) (player m next) =? HAND_SIZE)%Z = true ->
  exists r, drain_step sha256 (game o) m = Ok r /\ settled m r.
Proof.
  intros M Es Hn Ek. eexists (Continue _). split.
  { unfold drain_step. by rewrite Es, (proj2 (Z.ltb_lt next 2)), Ek by lia. }
  rewrite wrap_u8_small by lia. pose proof (to_valid _ _ (mo_table _ _ M)) as Hv.
  eexists. eapply settle_restage; try done; [cbn; lia|]. intros i Hi. seat_view i M.
  unfold answers_at. rewrite Es in *. destruct B as (H1 & H2 & H3).
  cbn [stage with_stage kept with_kept mulligan_this_round seat_stage seat_answers].
  rewrite seat_set_player by done. pose proof (answers_from_nonneg _ A).
  destruct (decide (i = next)) as [->|Hne].
  - rewrite H2 by lia. rewrite (proj2 (Z.leb_gt _ _)), (proj2 (Z.leb_le _ _)) by lia.
    split; [|by destruct (seat (kept m) _)]. split; [done|]. split; [done|]. done.
  - split; [split; [done|]; split; intros; [apply H2|apply H3]; lia|].
    destruct (Z.leb_spec (next + 1) i), (Z.leb_spec next i); lia.
Qed.

Lemma announce_ask o m next : mull_ok o m -> stage m = Stage.Announce next ->
  next = 0%Z \/ next = 1%Z ->
  seat (kept m) (player m next) || (seat (counts m) (player m next) =? HAND_SIZE)%Z = false ->
  exists r, drain_step sha256 (game o) m = Ok r /\ settled m r.
Proof.
  intros M Es Hn Ek. eexists (Ask _ _). split.
  { unfold drain_step. by rewrite Es, (proj2 (Z.ltb_lt next 2)), Ek by lia. }
  apply orb_false_iff in Ek as [Ek Ec%Z.eqb_neq]. unfold HAND_SIZE in Ec.
  exists m. destruct (settle_restage o m m M) as [K1 K2]; try done; [apply M| |].
  - intros i Hi. seat_view i M. split; [done|]. unfold answers_at. lia.
  - split; [done|]. split; [|done]. seat_view next M. exists next. split_and!; try done; lia.
Qed.

(** The round is over. *)
Lemma bottom_done o m remaining : mull_ok o m -> stage m = Stage.Bottom 2 remaining ->
  exists r, drain_step sha256 (game o) m = Ok r /\ settled m r.
Proof.
  intros M Es. eexists (Continue _). split; [unfold drain_step; by rewrite Es|].
  eexists. eapply settle_restage; try done. intros i Hi. seat_view i M.
  assert (seat (PerPlayer false false) (player m i) = false) as Hf
    by (unfold seat; by destruct (decide _)).
  unfold answers_at. rewrite Es in *. destruct B as (H1 & _ & H2).
  cbn [stage with_stage kept mulligan_this_round with_mulligan_this_round seat_stage seat_answers].
  rewrite Hf, H1, (proj2 (Z.leb_le 0 i)) by (destruct Hi; lia).
  assert ((i <? 2)%Z = true) as Hlt by (apply Z.ltb_lt; destruct Hi; lia). rewrite Hlt in *.
  destruct (seat (mulligan_this_round m) (player m i)); cbn; [|split; [split; [done|lia]|lia]].
  destruct H2 as (_ & H2). split; [split; [lia|]|lia]. split; [done|lia].
Qed.

(** A seat that took no mulligan this round has nothing to put back. *)
Lemma bottom_pass o m next remaining : mull_ok o m -> stage m = Stage.Bottom next remaining ->
  next = 0%Z \/ next = 1%Z -> seat (mulligan_this_round m) (player m next) = false ->
  exists r, drain_step sha256 (game o) m = Ok r /\ settled m r.
Proof.
  intros M Es Hn Em. eexists (Continue _). split.
  { unfold drain_step. by rewrite Es, (proj2 (Z.ltb_lt next 2)), Em by lia. }
  rewrite wrap_u8_small by lia. eexists. eapply settle_restage; try done; [cbn; lia|].
  intros i Hi. seat_view i M. unfold answers_at. rewrite Es in *. destruct B as (H1 & _ & H2).
  cbn [stage with_stage kept mulligan_this_round seat_stage seat_answers].
  destruct (decide (i = next)) as [->|Hne].
  { rewrite Em in *. split; [|done]. split_and!; [done|lia|done]. }
  destruct (seat (mulligan_this_round m) (player m i)); [|split; [|done]; split_and!; [done|lia|done]].
  destruct H2 as (H2 & H3). revert H3.
  destruct (Z.ltb_spec i next), (Z.ltb_spec i (next + 1)), (Z.eqb_spec i next), (Z.eqb_spec i (next + 1));
    cbn; intros; split_and!; done || lia.
Qed.

Lemma bottom_ask o m next remaining : mull_ok o m -> stage m = Stage.Bottom next remaining ->
  next = 0%Z \/ next = 1%Z -> seat (mulligan_this_round m) (player m next) = true ->
  exists r, drain_step sha256 (game o) m = Ok r /\ settled m r.
Proof.
  intros M Es Hn Em. eexists (Ask _ _). split.
  { unfold drain_step. by rewrite Es, (proj2 (Z.ltb_lt next 2)), Em by lia. }
  set (r := if (remaining =? 0)%Z then _ else _). pose proof (mo_stage _ _ M) as Hw. rewrite Es in Hw.
  assert (0 < r <= seat (counts m) (player m next))%Z as Hr.
  { seat_view next M. rewrite Es in B. destruct B as (_ & B2 & B). rewrite Em in B, B2. destruct B as (B1 & _).
    specialize (B2 eq_refl). cbn in Hw. unfold r. destruct (Z.eqb_spec remaining 0); lia. }
  destruct (settle_restage o m (with_stage (Stage.Bottom next r) m) M) as [K1 K2]; try done; [cbn; lia| |].
  - intros i Hi. seat_view i M. unfold answers_at. rewrite Es in *. destruct B as (H1 & _ & H2).
    cbn [stage with_stage kept mulligan_this_round seat_stage seat_answers].
    rewrite (proj2 (Z.eqb_neq r 0)) by lia. destruct (decide (i = next)) as [->|Hne].
    + rewrite Em in *. rewrite Z.eqb_refl in *. fold r in H2 |- *. split; [|done].
      split_and!; [done|intros _; apply Hr|apply H2|apply H2].
    + rewrite (proj2 (Z.eqb_neq i next)) in * by done. split; [|done].
      split_and!; [done|by intros ->|done].
  - eexists. split; [exact K1|]. split; [|done]. exists next. split_and!; try done; [lia|lia|apply Hr|apply Hr].
Qed.

(** One round of the loop. *)
Lemma mulligan_drain_step_ok o m : mull_ok o m -> stage m <> Stage.Complete ->
  exists r, drain_step sha256 (game o) m = Ok r /\ settled m r.
Proof.
  intros M Hst. pose proof (mo_stage _ _ M) as Hw.
  destruct (stage m) as [next|next remaining|] eqn:Es; [| |done]; cbn in Hw.
  - destruct (decide (next = 2)%Z) as [->|Hn].
    + destruct (seat (kept m) P0 && seat (kept m) P1) eqn:Ek; [by eapply announce_done|].
      destruct (both_redraw o m M Es Ek) as (o' & m' & Ed & K1 & K2). exists (Continue o').
      split; [done|]. by exists m'.
    + assert (next = 0 \/ next = 1)%Z as Hc by lia.
      destruct (seat (kept m) (player m next) || (seat (counts m) (player m next) =? HAND_SIZE)%Z) eqn:Ek;
        [by eapply announce_pass|by eapply announce_ask].
  - destruct (decide (next = 2)%Z) as [->|Hn]; [by eapply bottom_done|].
    assert (next = 0 \/ next = 1)%Z as Hc by lia.
    destruct (seat (mulligan_this_round m) (player m next)) eqn:Em; [by eapply bottom_ask|by eapply bottom_pass].
Qed.

(** The drain: it asks a question, or both have kept. *)
Lemma mulligan_drain_ok o m : mull_ok o m ->
  exists d o' m', drain_or_decide sha256 o = Some (Ok (d, o')) /\ mull_ok o' m' /\
    (answers_left m' <= answers_left m)%Z /\
    match d with Some d => asks d o' m' | None => stage m' = Stage.Complete end.
Proof.
  intros M. unfold drain_or_decide, drain_fuel. assert (rank m <= 9) as Hr by apply rank_bound.
  revert o m M Hr. generalize 9 as fuel. induction fuel as [|fuel IH]; intros o m M Hr.
  { exfalso. revert Hr. unfold rank. repeat case_match; lia. }
  cbn [drain_loop]. unfold has_pending. rewrite (mo_field _ _ M). unfold is_complete.
  destruct (decide (stage m = Stage.Complete)) as [Es|Es].
  { rewrite bool_decide_true by done. exists None, o, m. split_and!; done || lia. }
  rewrite bool_decide_false by done. cbn [negb]. rewrite (mull_validates o m M). cbn [from_reject result_bind].
  destruct (mulligan_drain_step_ok o m M Es) as ([d o'|o'|o'] & Ed & S); rewrite Ed; cbn [settled] in S.
  - destruct S as (m' & M' & A & L). by exists (Some d), o', m'.
  - destruct S as (m' & M' & L & E). by exists None, o', m'.
  - destruct S as (m' & M' & L).
    destruct (drain_step_rank sha256 (game o) m o') as (m'' & Em & _ & _ & Hlt);
      [apply (mo_table _ _ M)|apply M|done|].
    rewrite (mo_field _ _ M') in Em. injection Em as <-.
    destruct (IH o' m' M') as (d & o2 & m2 & E2 & M2 & L2 & A2); [lia|].
    exists d, o2, m2. split_and!; [done|done|lia|done].
Qed.

(* ------------------------------------------------------------------ *)
(** ** Answers *)

Definition legal (d : Decision) (action : Action) : bool :=
  match d, action with
  | ChooseLondonMulligan _ _, AnswerLondonMulligan _ => true
  | ChooseLondonBottom _ _ candidates, AnswerLondonBottom card => bool_decide (card ∈ candidates)
  | _, _ => false
  end.

Lemma next_place next : (0 <= next < 2)%Z -> next = 0%Z \/ next = 1%Z.
Proof. lia. Qed.

Lemma announced o m p c mulligan : mull_ok o m -> asks (ChooseLondonMulligan p c) o m ->
  exists m', answer (AnswerLondonMulligan mulligan) o = Ok (MkOpening (game o) (Some m')) /\
    mull_ok (MkOpening (game o) (Some m')) m' /\ (answers_left m' + 2 <= answers_left m)%Z.
Proof.
  intros M (next & Es & Hn & -> & Ek & Ec & Hc). apply next_place in Hn.
  pose proof (to_valid _ _ (mo_table _ _ M)) as Hv. eexists. split; [|split].
  - unfold answer. rewrite (mull_validates o m M). cbn [from_reject result_bind]. rewrite Es.
    rewrite (proj2 (Z.ltb_lt next 2)) by lia. rewrite Ek, (proj2 (Z.leb_gt _ _)); [reflexivity|].
    unfold HAND_SIZE. lia.
  - apply restage with m; [done|done|done|done|cbn; rewrite wrap_u8_small; lia|]. intros i Hi. seat_view i M.
    rewrite Es in B. destruct B as (H1 & H2 & H3). rewrite wrap_u8_small by lia.
    cbn [stage with_stage kept with_kept mulligan_this_round with_mulligan_this_round seat_stage].
    rewrite !seat_set_player by done.
    split; [done|]. destruct (decide (i = next)) as [->|Hne];
      [split; [lia|]; intros _; split; [done|lia]|split; intros; [apply H2|apply H3]; lia].
  - apply answers_left_drop with next; [done|]. intros i Hi. rewrite wrap_u8_small by lia. unfold answers_at.
    cbn [stage with_stage kept with_kept mulligan_this_round with_mulligan_this_round counts seat_answers].
    change (player (with_stage _ _)) with (player m). rewrite !seat_set_player, Es by done.
    cbn [seat_answers]. seat_view i M. destruct (decide (i = next)) as [->|Hne].
    + rewrite (proj2 (Z.leb_gt _ _)), (proj2 (Z.leb_le _ _)), Ek by lia.
      pose proof (answers_from_step (seat (counts m) (player m next))).
      pose proof (answers_from_nonneg (seat (counts m) (player m next) + 1)). destruct mulligan; cbn [negb]; lia.
    + destruct (Z.leb_spec (next + 1) i), (Z.leb_spec next i); lia.
Qed.

Lemma drop_from_one id l : NoDup l -> id ∈ l ->
  l ≡ₚ id :: drop_from id l /\ length l = S (length (drop_from id l)).
Proof.
  intros Hnd Hid. assert (l ≡ₚ id :: drop_from id l) as HP.
  { destruct (index_of_elem id l Hid) as (at_ & E & _). rewrite (drop_from_delete id l at_) by done.
    apply index_of_some in E as [E _]. by apply delete_Permutation. }
  split; [done|]. by rewrite HP at 1.
Qed.

(** The stage after a card was put back. *)
Definition bottomed (next remaining : Z) : Stage.t :=
  if (remaining =? 1)%Z then Stage.Bottom (wrap_u8 (next + 1)) 0 else Stage.Bottom next (remaining - 1).

Lemma bottomed_seat m next remaining i c k mu h : stage m = Stage.Bottom next remaining ->
  next = 0%Z \/ next = 1%Z -> (0 < remaining)%Z -> i = 0%Z \/ i = 1%Z ->
  seat_stage (stage m) i c k mu h -> (i = next -> mu = true) ->
  seat_stage (bottomed next remaining) i c k mu (if decide (i = next) then h - 1 else h)%Z /\
  (seat_answers (bottomed next remaining) i c k mu + (if decide (i = next) then 2 else 0)
   <= seat_answers (stage m) i c k mu)%Z.
Proof.
  intros -> Hn Hr Hi (H1 & H2 & H3) Hmu. unfold bottomed.
  destruct (decide (i = next)) as [->|Hin].
  - rewrite Hmu in * by done. destruct H3 as [H3 H4]. specialize (H2 eq_refl). revert H4.
    rewrite Z.ltb_irrefl, Z.eqb_refl, (proj2 (Z.eqb_neq remaining 0)) by lia. intros H4.
    destruct (Z.eqb_spec remaining 1) as [->|Hne]; [rewrite wrap_u8_small by lia|]; cbn [seat_stage seat_answers];
      rewrite ?Z.ltb_irrefl, ?Z.eqb_refl.
    + rewrite (proj2 (Z.ltb_lt next (next + 1))) by lia. change (1 =? 0)%Z with false.
      split; [split_and!; [done|lia..]|lia].
    + rewrite (proj2 (Z.eqb_neq (remaining - 1) 0)), (proj2 (Z.eqb_neq remaining 0)) by lia.
      split; [split_and!; [done|lia..]|lia].
  - rewrite (proj2 (Z.eqb_neq i next)) in * by done.
    destruct (Z.eqb_spec remaining 1) as [->|Hne]; [rewrite wrap_u8_small by lia|]; cbn [seat_stage seat_answers];
      rewrite ?(proj2 (Z.eqb_neq i next)) by done;
      (destruct mu; [|split; [split_and!; [done|lia|done]|lia]]); destruct H3 as [H3 H4]; revert H4;
      destruct (Z.ltb_spec i next); try (destruct (Z.ltb_spec i (next + 1)); try lia);
      try (destruct (Z.eqb_spec i (next + 1)); try lia); intros; cbn;
      (split; [split_and!; done || lia|lia]).
Qed.

Lemma put_back o m p remaining candidates card : mull_ok o m ->
  asks (ChooseLondonBottom p remaining candidates) o m -> card ∈ candidates ->
  exists o' m', answer (AnswerLondonBottom card) o = Ok o' /\ mull_ok o' m' /\
    (answers_left m' + 2 <= answers_left m)%Z.
Proof.
  intros M (next & Es & Hn & -> & Em & -> & Hr) Hcard. apply next_place in Hn.
  pose proof M as [E T Hw Hi]. pose proof T as [T1 T2 T3 T4 T5]. pose proof (player_valid m next T4) as Hp.
  destruct (to_library (PrivateBottomLibraryInsert card) Bottom Owner (player m next) (game o) card T1 T2 Hp Hcard)
    as (s' & Ev & O & Er & El & Eh); [by exists (player m next)|done|].
  destruct (hand_bindings_some s' (player m next) (proj1 (op_ok _ _ _ O)) Hp) as (l & Eb & _).
  set (m' := with_stage (bottomed next remaining) (with_hands (set_seat (hands m) (player m next) l) m)).
  exists (MkOpening s' (Some m')), m'. split; [|split].
  - unfold answer. rewrite (mull_validates o m M). cbn [from_reject result_bind]. rewrite Es.
    rewrite (proj2 (Z.ltb_lt next 2)), (proj2 (Z.ltb_lt 0 remaining)) by lia. cbn [negb andb].
    rewrite bool_decide_true by done. cbn [negb]. rewrite Ev. cbn [ok_or result_bind]. rewrite Eb. done.
  - assert (NoDup (hand_of (game o) (player m next))) as Hnd by apply (proj1 T1 _ Hp).
    destruct (drop_from_one card _ Hnd Hcard) as [HP HL].
    split; [done|cbn [game]; split; [apply O|apply O|by rewrite Er|done|by rewrite (op_view _ _ _ O)]| |].
    { cbn. unfold bottomed. destruct (Z.eqb_spec remaining 1); cbn; rewrite ?wrap_u8_small; lia. }
    intros i Hi'. pose proof (Hi i Hi') as [A B C D F]. cbn [game].
    destruct (bottomed_seat m next remaining i _ _ _ _ Es Hn ltac:(lia) Hi' F) as [G _]; [by intros ->|].
    unfold hand_size in G |- *. destruct (decide (i = next)) as [->|Hne].
    + split; cbn [m' counts hands kept mulligan_this_round stage with_stage with_hands]; [done| |  |by rewrite Er|].
      * change (player m' next) with (player m next). by rewrite seat_set_player, decide_True.
      * change (player m' next) with (player m next). rewrite El, Eh, <- C. cbn [insertion_index]. unfold insert_at.
        rewrite firstn_all, drop_all, <- app_assoc. cbn. by rewrite <- HP.
      * change (player m' next) with (player m next). unfold hand_size. rewrite Eh. rewrite HL in G.
        replace (Z.of_nat (length (drop_from card (hand_of (game o) (player m next)))))
          with (Z.of_nat (S (length (drop_from card (hand_of (game o) (player m next))))) - 1)%Z by lia. exact G.
    + assert (player m i <> player m next) as Hpne by (by apply player_neq).
      destruct (op_other _ _ _ O _ (player_valid m i T4) Hpne) as (J1 & J2 & J3).
      split; unfold hand_size; cbn [m' counts hands kept mulligan_this_round stage with_stage with_hands];
        change (player m' i) with (player m i); rewrite ?seat_set_player, ?decide_False, ?J1, ?J2, ?J3, ?Er by done;
        done.
  - apply answers_left_drop with next; [done|]. intros i Hi'. pose proof (Hi i Hi') as [_ _ _ _ F].
    destruct (bottomed_seat m next remaining i _ _ _ _ Es Hn ltac:(lia) Hi' F) as [_ G]; [by intros ->|].
    exact G.
Qed.
End Invariant.
