(* ===== verification/LondonGame.v ===== *)
(** * Opening hands

    The pregame from the moment it is enabled to the kept hands, under every
    sequence of drains and answers: what the players end up with, which questions
    they are asked, and how long it takes. The examples run in the smallest kernel of
    LibraryFacts.v with events that do exactly what is asked. *)

From S2P Require Import Prelude Ids Bytes Randomness RandomnessFacts Library LibraryRows LibraryFacts LibraryShuffle LibraryMoves LibraryReach London LondonFacts LondonProtocol.
Import PlayerIds.

#[export] Instance BareEvents : OpeningEvents unit PlayerId := {
  propose_and_commit e s := performs e s;
}.

#[export] Instance BareView : OpeningView PlayerId := {
  game_starting_player p := p;
  active_player p := p;
  turn _ := 1%Z;
  step_is_untap _ := true;
  has_lost _ _ := false;
}.

Abbreviation bare := (GameState unit PlayerId).

(** What no pregame event touches. *)
Record same_public (s s' : bare) : Prop := MkSamePublic {
  sp_zones : forall p, valid_player p -> battlefield (seat (players s') p) = battlefield (seat (players s) p) /\
    graveyard (seat (players s') p) = graveyard (seat (players s) p);
  sp_stack : stack s' = stack s;
  sp_exile : exile s' = exile s;
  sp_command : command s' = command s;
  sp_randomness : randomness s' = randomness s;
  sp_rest : rest s' = rest s;
}.

Lemma same_public_refl s : same_public s s.
Proof. by split. Qed.

Lemma same_public_trans s1 s2 s3 : same_public s1 s2 -> same_public s2 s3 -> same_public s1 s3.
Proof.
  intros [A1 A2 A3 A4 A5 A6] [B1 B2 B3 B4 B5 B6]. split; [|congruence..].
  intros p Hp. destruct (A1 p Hp) as [<- <-]. by apply B1.
Qed.

Lemma update_player_public p f s : (forall ps, battlefield (f ps) = battlefield ps) ->
  (forall ps, graveyard (f ps) = graveyard ps) -> valid_player p -> same_public s (update_player p f s).
Proof.
  intros Hb Hg Hp. split; [|done..]. intros q _.
  unfold update_player, seat, set_seat; cbn; repeat case_decide; cbn; by rewrite ?Hb, ?Hg.
Qed.

Lemma update_object_public id f (s s' : bare) : update_object id f s = Some s' -> same_public s s'.
Proof. unfold update_object. destruct (get s id); [|done]. by intros [= <-]. Qed.

Lemma insertion_public w at_ (s s' : bare) : note_library_insertion w at_ s = Some s' -> same_public s s'.
Proof.
  unfold note_library_insertion. destruct (insertion_row at_ _); [cbn [mbind option_bind]|done].
  destruct (insertion_row at_ _); [cbn [mbind option_bind]|done]. by intros [= <-].
Qed.

Lemma reveal_position_public observer w at_ (s s' : bare) :
  reveal_library_position observer w at_ s = Some s' -> same_public s s'.
Proof.
  unfold reveal_library_position. destruct (library_of s w !! at_); [cbn [mbind option_bind]|done].
  destruct (generation_of s _); [cbn [mbind option_bind]|done]. by intros [= <-].
Qed.

Lemma transfer_public w at_ id (s s' : bare) :
  transfer_library_knowledge_to_hand w at_ id s = Some s' -> same_public s s'.
Proof.
  unfold transfer_library_knowledge_to_hand. destruct (generation_of s id); [cbn [mbind option_bind]|done].
  intros [= <-]. unfold for_observers. repeat case_match; by split.
Qed.

Lemma enter_zone_public id to (s s' : bare) : enter_zone id to s = Some s' -> same_public s s'.
Proof.
  unfold enter_zone. destruct (get s id) as [o|]; [cbn [mbind option_bind]|done].
  destruct (indexed _); [cbn [mbind option_bind]|done]. apply update_object_public.
Qed.

Lemma to_library_moves id placement w (s s' : bare) :
  valid_player w -> ident s id = Some (w, Zone.Hand, default 0%Z (generation_of s id)) ->
  move_between_zones id Zone.Library placement None s = Some s' -> same_public s s'.
Proof.
  intros Hw Ei. apply ident_some in Ei as (o & Eo & Ew & Ez & _).
  unfold move_between_zones. rewrite Eo. cbn [mbind option_bind]. rewrite Ez, Ew.
  cbn [remove_from_zone mbind option_bind]. set (s1 := clear_object_relations _ _).
  assert (same_public s s1) as P1.
  { eapply same_public_trans; [by apply (update_player_public w (fun ps => with_hand (drop_from id (hand ps)) ps))|by split]. }
  destruct (decide (Zone.Hand = Zone.Stack /\ _)) as [[? _]|_]; [done|].
  destruct (decide (Zone.Hand = Zone.Battlefield)) as [?|_]; [done|]. cbn [add_to_zone mbind option_bind].
  destruct (note_library_insertion _ _ _) as [s2|] eqn:E2; [cbn [mbind option_bind]|done].
  apply insertion_public in E2 as P2. set (s3 := update_player _ _ s2).
  assert (same_public s2 s3) as P3 by (by apply update_player_public).
  destruct (enter_zone id Zone.Library s3) as [s4|] eqn:E4; [cbn [mbind option_bind]|done].
  apply enter_zone_public in E4. intros E5%update_object_public.
  exact (same_public_trans _ _ _ P1 (same_public_trans _ _ _ P2 (same_public_trans _ _ _ P3
    (same_public_trans _ _ _ E4 E5)))).
Qed.

Lemma to_library_public id placement visibility w (s s' : bare) :
  valid_player w -> ident s id = Some (w, Zone.Hand, default 0%Z (generation_of s id)) ->
  visibility = Hidden \/ visibility = Owner ->
  materialize_zone_change_v1 id Zone.Library placement false visibility None None s = Some s' ->
  same_public s s'.
Proof.
  intros Hw Ei Hv.
  assert (forall s1, move_between_zones id Zone.Library placement None s = Some s1 -> same_public s s1) as K.
  { intros s1. by apply (to_library_moves id placement w). }
  apply ident_some in Ei as (o & Eo & Ew & Ez & _).
  unfold materialize_zone_change_v1. rewrite Eo. cbn [mbind option_bind]. rewrite Ez, Ew.
  destruct (move_between_zones _ _ _ _ _) as [s5|]; [cbn [mbind option_bind]|done].
  pose proof (K s5 eq_refl) as P. destruct (require_face _ _ _ _); [cbn [mbind option_bind]|done].
  cbn [entry_effects BareRules mbind option_bind]. cbn beta iota.
  unfold arrival_reveals. rewrite decide_True by done. cbn [mbind option_bind].
  destruct (index_of id _) as [at_|]; [cbn [mbind option_bind]|done].
  destruct Hv as [-> | ->]; cbn.
  - by intros [= <-].
  - destruct (reveal_library_position w w at_ s5) as [s6|] eqn:E6; [|done]. cbn. intros [= <-].
    eapply same_public_trans; [exact P|]. by eapply reveal_position_public.
Qed.

Lemma draw_public p c (s s' : bare) : valid_player p -> draw_card p s = Some (c, s') -> same_public s s'.
Proof.
  intros Hp. unfold draw_card. destruct (library_of s p) as [|id lib].
  { intros [= _ <-]. apply same_public_refl. }
  set (s1 := update_player _ _ s). assert (same_public s s1) as P1 by (by apply update_player_public).
  destruct (transfer_library_knowledge_to_hand p 0 id s1) as [s2|] eqn:E2; [cbn [mbind option_bind]|done].
  apply transfer_public in E2. set (s3 := clear_object_relations _ _).
  assert (same_public s2 s3) as P3 by (by split).
  destruct (enter_zone id Zone.Hand s3) as [s4|] eqn:E4; [cbn [mbind option_bind]|done].
  apply enter_zone_public in E4. destruct (generation_of s4 id); [cbn [mbind option_bind]|done].
  intros [= _ <-]. eapply same_public_trans; [exact P1|]. eapply same_public_trans; [exact E2|].
  eapply same_public_trans; [exact P3|]. eapply same_public_trans; [exact E4|]. by split.
Qed.

#[export] Instance BareOpening : LawfulOpening unit PlayerId.
Proof.
  split. intros e s s1 Hs Hq Hin E. exists s1. split; [done|].
  assert (same_public s s1 /\ state_ok s1) as [[P1 P2 P3 P4 P5 P6] Hs1].
  { assert (forall id, (exists p, valid_player p /\ id ∈ hand_of s p) ->
      is_u32 id /\ exists w, valid_player w /\ ident s id = Some (w, Zone.Hand, default 0%Z (generation_of s id)))
      as Hhand.
    { intros id (p & Hp & Hid). destruct (hand_lives s p id (proj1 Hs) Hp Hid) as (Hu & g & Ei).
      split; [done|]. exists p. split; [done|]. rewrite <- gen_of_ident. unfold gen_of. by rewrite Ei. }
    destruct e as [card|card|p]; cbn in E, Hin.
    - destruct (Hhand card Hin) as (Hu & w & Hw & Ei).
      split; [by eapply (to_library_public card Top Hidden w); auto|by eapply zone_change_state].
    - destruct (Hhand card Hin) as (Hu & w & Hw & Ei).
      split; [by eapply (to_library_public card Bottom Owner w); auto|by eapply zone_change_state].
    - destruct (draw_card p s) as [[c s2]|] eqn:Ed; [|done]. injection E as ->.
      split; [by eapply draw_public|by eapply draw_state]. }
  destruct Hq as [Q1 Q2 Q3 Q4]. split_and!; [| |done|unfold pregame_view; by rewrite P6].
  - split; try done. apply Hs1.
  - split; [|congruence..]. intros p Hp. destruct (P1 p Hp) as [-> ->]. by apply Q1.
Qed.

(** Eight cards against nine, dealt. *)
Definition bare_deal : bare :=
  let s := new_from_libraries_with_starting_player_v1 (map Z.of_nat (seq 10 8)) (map Z.of_nat (seq 30 9)) 7%Z P1 in
  default s (s ← draw_times 7 P0 s; draw_times 7 P1 s).

Definition bare_opening : Opening unit PlayerId := MkOpening bare_deal None.

(** Seven mulligans of both players: every card of the bottom is the first of the
    hand. *)
Fixpoint always_mulligan (fuel : nat) (o : Opening unit PlayerId) : nat * Opening unit PlayerId :=
  match fuel with
  | O => (O, o)
  | S fuel =>
      match drain_or_decide toy_sha256 o with
      | Some (Ok (Some d, o)) =>
          let action := match d with
                        | ChooseLondonMulligan _ _ => AnswerLondonMulligan true
                        | ChooseLondonBottom _ _ candidates =>
                            AnswerLondonBottom (default (MkObjectId 0) (head candidates))
                        end in
          match answer action o with
          | Ok o => let (n, o) := always_mulligan fuel o in (S n, o)
          | Err _ => (O, o)
          end
      | Some (Ok (None, o)) => (O, o)
      | _ => (O, o)
      end
  end.

Section Game.
Context {V4 Rest : Type} `{!ObjectRules V4 Rest} `{!LawfulRules V4 Rest}.
Context `{!OpeningEvents V4 Rest} `{!OpeningView Rest} `{!LawfulOpening V4 Rest}.
Context (sha256 : bytes -> bytes).
Implicit Types s : GameState V4 Rest.
Implicit Types o : Opening V4 Rest.
Set Default Proof Using "Type*".

(** After [n] accepted answers, with drains anywhere in between. *)
Inductive reaches o0 : nat -> Opening V4 Rest -> Prop :=
  | reaches_start : reaches o0 0 o0
  | reaches_drain n o d o' : reaches o0 n o ->
      drain_or_decide sha256 o = Some (Ok (d, o')) -> reaches o0 n o'
  | reaches_answer n o action o' : reaches o0 n o -> answer action o = Ok o' -> reaches o0 (S n) o'.

(** The cards a player was dealt from. *)
Definition deck_of s (p : PlayerId) : list ObjectId := library_of s p ++ hand_of s p.

(** A state the pregame may start from: seven shuffles of each player are left. *)
Record can_open s : Prop := MkCanOpen {
  co_state : state_ok s;
  co_random : random_wf (randomness s);
  co_budget : forall p, valid_player p -> budget 7 (randomness s) p;
}.

Lemma fresh_deal_true s : fresh_deal s = true ->
  quiet s /\ valid_player (game_starting_player (rest s)) /\
  pregame_view s = (game_starting_player (rest s), 1%Z, true) /\
  forall p, valid_player p -> length (hand_of s p) = 7.
Proof.
  unfold fresh_deal, pregame_view. rewrite !andb_true_iff. intros [[[[[[[A1 A2] A3] _] A5] A6] A7] A8].
  apply bool_decide_eq_true in A1, A2, A5, A6, A7. rewrite A2, A3.
  cbn [forallb] in A8. rewrite !andb_true_iff, !bool_decide_eq_true in A8. unfold HAND_SIZE in A8.
  destruct A8 as ([[[B1 B2] B3] _] & [[[C1 C2] C3] _] & _).
  split_and!; [|done|done|intros p [->| ->]; lia].
  split; [by intros p [->| ->]|by apply nil_length_inv|done|done].
Qed.

(** The pregame is enabled exactly on a fresh deal, once. *)
Lemma enable_exact o : state_ok (game o) ->
  enable_london_mulligans_v1 o =
  if decide (fresh_deal (game o) = true /\ london_mulligans_v1 o = None) then
    Ok (MkOpening (game o) (Some (MkLondon (game_starting_player (rest (game o))) (PerPlayer 0%Z 0%Z)
      (PerPlayer false false) (PerPlayer false false)
      (PerPlayer (default [] (hand_bindings (game o) P0)) (default [] (hand_bindings (game o) P1)))
      (Stage.Announce 0))))
  else Err (Reject NotAFreshDeal).
Proof.
  intros Hs. unfold enable_london_mulligans_v1. destruct (fresh_deal (game o)) eqn:Ef; cbn [negb].
  - destruct (london_mulligans_v1 o) as [m|] eqn:El.
    + rewrite bool_decide_true by eauto. cbn [orb]. by rewrite decide_False by (by intros [_ ?]).
    + rewrite bool_decide_false by (by intros [? ?]). cbn [orb]. rewrite decide_True by done.
      destruct (hand_bindings_some (game o) P0 (proj1 Hs) valid_P0) as (l0 & -> & _).
      destruct (hand_bindings_some (game o) P1 (proj1 Hs) valid_P1) as (l1 & -> & _). done.
  - rewrite orb_true_r. by rewrite decide_False by (by intros [? _]).
Qed.

Lemma enable_ok o o0 : can_open (game o) -> enable_london_mulligans_v1 o = Ok o0 ->
  game o0 = game o /\ (forall p, valid_player p -> 7 <= length (deck_of (game o) p)) /\
  exists m, mull_ok (deck_of (game o)) o0 m /\ answers_left m = 140%Z.
Proof.
  intros [Hs Hw Hb] E. rewrite enable_exact in E by done. case_decide as Hd; [|done]. destruct Hd as [Ef _].
  destruct (fresh_deal_true _ Ef) as (Hq & Hv & Ev & Eh). injection E as <-. split; [done|]. split.
  { intros p Hp. unfold deck_of. rewrite length_app, Eh by done. lia. }
  eexists. split; [split; [reflexivity|by split|cbn; lia|]|].
  - intros i Hi. set (m := MkLondon _ _ _ _ _ _). pose proof (player_valid m i Hv) as Hp. cbn [game].
    assert (seat (counts m) (player m i) = 0%Z /\ seat (mulligan_this_round m) (player m i) = false /\
      hand_bindings (game o) (player m i) = Some (seat (hands m) (player m i))) as (E1 & E2 & E3).
    { destruct (hand_bindings_some (game o) P0 (proj1 Hs) valid_P0) as (l0 & B0 & _).
      destruct (hand_bindings_some (game o) P1 (proj1 Hs) valid_P1) as (l1 & B1 & _).
      destruct Hp as [Ep|Ep]; rewrite Ep; unfold m; rewrite B0, B1; by split_and!. }
    split; rewrite ?E1, ?E2; [lia|done|done|by apply Hb|]. cbn. unfold hand_size. rewrite Eh by done.
    split; [done|]. split; [done|]. lia.
  - unfold answers_left. cbn. unfold seat, answers_from. by destruct (decide _), (decide _).
Qed.

(** Every answer that is accepted answers the question of the state. *)
Lemma answered deck o m action o' : (forall p, valid_player p -> 7 <= length (deck p)) ->
  mull_ok deck o m -> answer action o = Ok o' ->
  exists d, asks d o m /\ legal d action = true.
Proof.
  intros Hd M E. unfold answer in E. rewrite (mull_validates deck Hd o m M) in E. cbn [from_reject result_bind] in E.
  pose proof (mo_stage _ _ _ M) as Hw.
  destruct (stage m) as [next|next remaining|] eqn:Es, action as [mulligan|card|]; try done; cbn in Hw.
  - destruct (Z.ltb_spec next 2); [|done]. cbn [negb] in E.
    destruct (seat (kept m) (player m next)) eqn:Ek; [done|].
    destruct (Z.leb_spec HAND_SIZE (seat (counts m) (player m next))) as [|Hc]; [done|]. unfold HAND_SIZE in Hc.
    exists (ChooseLondonMulligan (player m next) (seat (counts m) (player m next))). split; [|done].
    exists next. split_and!; done || lia.
  - destruct (Z.ltb_spec next 2); [|done]. destruct (Z.ltb_spec 0 remaining); [|done]. cbn [negb andb] in E.
    destruct (decide (card ∈ hand_of (game o) (player m next))) as [Hc|Hc];
      [|by rewrite bool_decide_false in E].
    exists (ChooseLondonBottom (player m next) remaining (hand_of (game o) (player m next))).
    split; [|by apply bool_decide_eq_true].
    destruct (mo_seat _ _ _ M next) as [_ _ _ _ F]; [lia|]. rewrite Es in F. destruct F as (_ & F & _).
    specialize (F eq_refl). exists next.
    destruct (seat (mulligan_this_round m) (player m next)); [|lia]. split_and!; done || lia.
Qed.

Lemma answer_ok deck o m action o' : (forall p, valid_player p -> 7 <= length (deck p)) ->
  mull_ok deck o m -> answer action o = Ok o' ->
  exists m', mull_ok deck o' m' /\ (answers_left m' + 2 <= answers_left m)%Z.
Proof.
  intros Hd M E. destruct (answered deck o m action o' Hd M E) as ([p c|p remaining candidates] & A & L).
  - destruct action as [mulligan| |]; try done.
    destruct (announced deck Hd o m p c mulligan M A) as (m' & E' & M' & L'). rewrite E in E'. injection E' as ->.
    by exists m'.
  - destruct action as [|card|]; try done. apply bool_decide_eq_true in L.
    destruct (put_back deck Hd o m p remaining candidates card M A L) as (o2 & m' & E' & M' & L').
    rewrite E in E'. injection E' as ->. by exists m'.
Qed.

Lemma reaches_ok deck o0 m0 n o : (forall p, valid_player p -> 7 <= length (deck p)) ->
  mull_ok deck o0 m0 -> reaches o0 n o ->
  exists m, mull_ok deck o m /\ (answers_left m + 2 * Z.of_nat n <= answers_left m0)%Z.
Proof.
  intros Hd M0. induction 1 as [|n o d o' _ (m & M & L) E|n o action o' _ (m & M & L) E].
  - exists m0. split; [done|lia].
  - destruct (mulligan_drain_ok sha256 deck Hd o m M) as (d1 & o1 & m1 & E1 & M1 & L1 & _).
    rewrite E in E1. injection E1 as -> ->. exists m1. split; [done|lia].
  - destruct (answer_ok deck o m action o' Hd M E) as (m' & M' & L'). exists m'. split; [done|lia].
Qed.

(** An answer to another question, or none, is rejected. *)
Lemma illegal_rejected deck o m d action : (forall p, valid_player p -> 7 <= length (deck p)) ->
  mull_ok deck o m -> asks d o m -> legal d action = false ->
  exists e, answer action o = Err (Reject e).
Proof.
  intros Hd M A L. unfold answer. rewrite (mull_validates deck Hd o m M). cbn [from_reject result_bind].
  destruct d as [p c|p remaining candidates], A as (next & Es & A), action; try done; rewrite Es; try (by eexists).
  destruct A as (Hn & -> & _ & -> & Hr & _). cbn [legal] in L. apply bool_decide_eq_false in L.
  rewrite (proj2 (Z.ltb_lt next 2)), (proj2 (Z.ltb_lt 0 remaining)) by lia. cbn [negb andb].
  rewrite bool_decide_false by done. by eexists.
Qed.
End Game.

(* ------------------------------------------------------------------ *)
(** ** The properties *)

Section Properties.
Context {V4 Rest : Type} `{!ObjectRules V4 Rest} `{!LawfulRules V4 Rest}.
Context `{!OpeningEvents V4 Rest} `{!OpeningView Rest} `{!LawfulOpening V4 Rest}.
Context (sha256 : bytes -> bytes).
Implicit Types o : Opening V4 Rest.
Set Default Proof Using "Type*".

(** The cards a player still has to put back in the round under way. *)
Definition place_of m (p : PlayerId) : Z := if decide (p = starting_player m) then 0 else 1.
Definition owed m (p : PlayerId) : Z :=
  match stage m with
  | Stage.Bottom next remaining =>
      if seat (mulligan_this_round m) p then
        if (place_of m p <? next)%Z then 0%Z
        else if (place_of m p =? next)%Z then if (remaining =? 0)%Z then seat (counts m) p else remaining
        else seat (counts m) p
      else 0%Z
  | _ => 0%Z
  end.

Lemma place_player m i : valid_player (starting_player m) -> i = 0%Z \/ i = 1%Z ->
  place_of m (player m i) = i.
Proof. unfold place_of, player. by intros [->| ->] [->| ->]. Qed.

Lemma seat_owed m i c k mu h : valid_player (starting_player m) -> i = 0%Z \/ i = 1%Z ->
  seat_stage (stage m) i c k mu h -> seat (counts m) (player m i) = c ->
  seat (mulligan_this_round m) (player m i) = mu -> h = (7 - c + owed m (player m i))%Z.
Proof.
  intros Hv Hi F Ec Em. unfold owed. rewrite place_player, Ec, Em by done.
  destruct (stage m) as [next|next remaining|]; [destruct F as [-> _]; lia| |destruct F as [_ ->]; lia].
  destruct F as (_ & _ & F). destruct mu; [|lia]. by destruct F as [_ ->].
Qed.

Lemma bindings_objects {V4' Rest'} (s : GameState V4' Rest') p l :
  hand_bindings s p = Some l -> map link_object l = hand_of s p.
Proof.
  intros E. apply mapM_Some in E. induction E as [|id b ids l Eb _ IH]; [done|]. cbn. rewrite IH.
  destruct (generation_of s id) as [g|]; [|done]. cbn in Eb. by injection Eb as <-.
Qed.

(** C33: however the mulligans are answered, each player's library and hand are
    the cards of the deal; the hand has seven cards less one for each mulligan
    taken, plus those still to be put back, and is the hand the pregame has
    bound, incarnation by incarnation; what is finally kept is that hand. *)
Theorem opening_hands_come_from_the_deal o o0 n o1 :
  can_open (game o) -> enable_london_mulligans_v1 o = Ok o0 -> reaches sha256 o0 n o1 ->
  state_ok (game o1) /\
  exists m, london_mulligans_v1 o1 = Some m /\ forall p, valid_player p ->
    deck_of (game o1) p ≡ₚ deck_of (game o) p /\ (0 <= seat (counts m) p <= 7)%Z /\
    hand_size (game o1) p = (7 - seat (counts m) p + owed m p)%Z /\
    hand_bindings (game o1) p = Some (seat (hands m) p) /\
    map link_object (seat (hands m) p) = hand_of (game o1) p /\
    (is_complete m = true -> owed m p = 0%Z /\ kept_hands_for_opening_v1 o1 = Ok (Some (hands m))).
Proof.
  intros Ho E R. destruct (enable_ok o o0 Ho E) as (Eg & Hd & m0 & M0 & _).
  destruct (reaches_ok sha256 _ o0 m0 n o1 Hd M0 R) as (m & M & _).
  pose proof (to_valid _ _ (mo_table _ _ _ M)) as Hv. split; [apply M|].
  exists m. split; [apply M|]. intros p Hp. destruct (player_cases m p Hv Hp) as (i & Hi & ->).
  destruct (mo_seat _ _ _ M i Hi) as [A B C _ F].
  split_and!; try done; try lia.
  - by eapply seat_owed.
  - by apply bindings_objects.
  - intros Hc. split.
    + unfold owed. unfold is_complete in Hc. apply bool_decide_eq_true in Hc as ->. done.
    + unfold kept_hands_for_opening_v1. rewrite (mo_field _ _ _ M), (mull_validates _ Hd o1 m M).
      cbn [result_bind]. by rewrite Hc.
Qed.

(** What a question shows of the game it interrupts. *)
Definition question o (d : Decision) : Prop :=
  match d with
  | ChooseLondonMulligan p c => hand_size (game o) p = (7 - c)%Z /\ (0 <= c < 7)%Z
  | ChooseLondonBottom p remaining candidates =>
      candidates = hand_of (game o) p /\ (0 < remaining <= hand_size (game o) p)%Z
  end.

Lemma asks_question deck d o m : mull_ok deck o m -> asks d o m ->
  question o d /\ exists action, legal d action = true.
Proof.
  intros M A. pose proof (to_valid _ _ (mo_table _ _ _ M)) as Hv. destruct d as [p c|p remaining candidates].
  - destruct A as (next & Es & Hn & -> & Ek & <- & Hc). split; [|by exists (AnswerLondonMulligan true)].
    destruct (mo_seat _ _ _ M next) as [A' _ _ _ F]; [lia|]. rewrite Es in F. destruct F as [F _].
    cbn. rewrite F. lia.
  - destruct A as (next & Es & Hn & -> & Em & -> & Hr).
    destruct (mo_seat _ _ _ M next) as [A' _ _ _ F]; [lia|]. rewrite Es in F. destruct F as (_ & _ & F).
    rewrite Em in F. destruct F as [_ F]. revert F.
    rewrite Z.ltb_irrefl, Z.eqb_refl, (proj2 (Z.eqb_neq remaining 0)) by lia. intros F.
    split; [split; [done|rewrite F; lia]|]. unfold hand_size in F.
    destruct (hand_of (game o) (player m next)) as [|card l]; [cbn in F; lia|].
    exists (AnswerLondonBottom card). apply bool_decide_eq_true. by left.
Qed.

(** The pregame is never stuck and never fails. At every point the drain
    returns, without a panic or an error: either both players have kept and the
    game may start, or it asks a question some action answers, exactly the
    offered answers are accepted, everything else is rejected, and an announcement
    changes no zone: hands change only when both players have announced. *)
Theorem every_mulligan_question_is_answerable o o0 n o1 :
  can_open (game o) -> enable_london_mulligans_v1 o = Ok o0 -> reaches sha256 o0 n o1 ->
  exists d o2, drain_or_decide sha256 o1 = Some (Ok (d, o2)) /\
    match d with
    | None => has_pending o2 = false
    | Some d => question o2 d /\ (exists action, legal d action = true) /\
        forall action,
          if legal d action then
            exists o3, answer action o2 = Ok o3 /\
              match d with ChooseLondonMulligan _ _ => game o3 = game o2 | _ => True end
          else exists e, answer action o2 = Err (Reject e)
    end.
Proof.
  intros Ho E R. destruct (enable_ok o o0 Ho E) as (Eg & Hd & m0 & M0 & _).
  destruct (reaches_ok sha256 _ o0 m0 n o1 Hd M0 R) as (m & M & _).
  destruct (mulligan_drain_ok sha256 _ Hd o1 m M) as (d & o2 & m2 & E2 & M2 & _ & A). exists d, o2. split; [done|].
  destruct d as [d|]; [|unfold has_pending, is_complete; by rewrite (mo_field _ _ _ M2), A].
  destruct (asks_question _ d o2 m2 M2 A) as [Q L]. split; [done|]. split; [done|]. intros action.
  destruct (legal d action) eqn:El; [|by eapply illegal_rejected].
  destruct d as [p c|p remaining candidates], action as [mulligan|card|]; try done.
  - destruct (announced _ Hd o2 m2 p c mulligan M2 A) as (m3 & E3 & _). by eexists.
  - apply bool_decide_eq_true in El.
    destruct (put_back _ Hd o2 m2 p remaining candidates card M2 A El) as (o3 & m3 & E3 & _). by exists o3.
Qed.

(** C34: the mulligans end: no sequence of accepted answers is longer than
    seventy, two players taking seven mulligans each. *)
Theorem mulligans_end_within_seventy_answers o o0 n o1 :
  can_open (game o) -> enable_london_mulligans_v1 o = Ok o0 -> reaches sha256 o0 n o1 -> n <= 70.
Proof.
  intros Ho E R. destruct (enable_ok o o0 Ho E) as (Eg & Hd & m0 & M0 & L0).
  destruct (reaches_ok sha256 _ o0 m0 n o1 Hd M0 R) as (m & M & L).
  assert (forall i, i = 0%Z \/ i = 1%Z -> (0 <= answers_at m i)%Z) as K.
  { intros i Hi. destruct (round_seat _ Hd o1 m i M Hi) as [A F]. unfold answers_at.
    pose proof (answers_from_nonneg _ A). pose proof (mo_stage _ _ _ M) as Hw.
    destruct (stage m) as [next|next remaining|]; cbn in F, Hw |- *; [| |done].
    - destruct (Z.leb_spec next i); [by destruct (seat (kept m) _)|].
      destruct F as (_ & _ & F). destruct F as [_ F]; [lia|].
      destruct (seat (mulligan_this_round m) _); [|done]. specialize (F eq_refl).
      pose proof (answers_from_nonneg (seat (counts m) (player m i) + 1)). lia.
    - destruct (seat (mulligan_this_round m) _); [|done]. repeat case_match; lia. }
  pose proof (K 0%Z (or_introl eq_refl)). pose proof (K 1%Z (or_intror eq_refl)).
  change (answers_left m) with (answers_at m 0 + answers_at m 1)%Z in L. lia.
Qed.
End Properties.

(* ------------------------------------------------------------------ *)
(** ** Examples *)

Definition bare_enabled : Opening unit PlayerId :=
  match enable_london_mulligans_v1 bare_opening with Ok o => o | Err _ => bare_opening end.

(** The bound is attained: both players take every mulligan. *)
Example seventy_answers : fst (always_mulligan 100 bare_enabled) = 70.
Proof. vm_compute. reflexivity. Qed.

Lemma always_mulligan_reaches fuel : forall o0 n o, reaches toy_sha256 o0 n o ->
  reaches toy_sha256 o0 (n + fst (always_mulligan fuel o)) (snd (always_mulligan fuel o)).
Proof.
  induction fuel as [|fuel IH]; intros o0 n o R; [by rewrite Nat.add_0_r|]. cbn [always_mulligan].
  destruct (drain_or_decide toy_sha256 o) as [[[[d|] o1]|e]|] eqn:Ed; cbn [fst snd]; try by rewrite Nat.add_0_r.
  2:{ rewrite Nat.add_0_r. by eapply reaches_drain. }
  destruct (answer _ o1) as [o2|e] eqn:Ea; cbn [fst snd]; [|rewrite Nat.add_0_r; by eapply reaches_drain].
  destruct (always_mulligan fuel o2) as [n' o'] eqn:El. cbn [fst snd]. rewrite <- plus_n_Sm.
  pose proof (IH o0 (S n) o2) as H. rewrite El in H. apply H. eapply reaches_answer; [|exact Ea].
  by eapply reaches_drain.
Qed.

Lemma bare_deal_state : can_open bare_deal.
Proof.
  assert (reachable toy_sha256
    (new_from_libraries_with_starting_player_v1 (map Z.of_nat (seq 10 8)) (map Z.of_nat (seq 30 9)) 7%Z P1
     : GameState unit PlayerId)) as R.
  { apply reachable_legacy; [|vm_compute; discriminate]. apply (bool_decide_unpack _). vm_compute. exact I. }
  split; [|vm_compute; by split|by intros p _; vm_compute].
  assert (forall n p (s s' : GameState unit PlayerId), valid_player p -> state_ok s ->
    draw_times n p s = Some s' -> state_ok s') as K.
  { induction n as [|n IH]; intros p s s' Hp Hs E; cbn in E; [by injection E as <-|].
    destruct (draw_card p s) as [[c s1]|] eqn:Ed; [|done]. cbn in E. eapply IH; [exact Hp| |exact E].
    by eapply draw_state. }
  apply reachable_ok in R. unfold bare_deal. set (s := new_from_libraries_with_starting_player_v1 _ _ _ _) in *.
  destruct (draw_times 7 P0 s) as [s1|] eqn:E1; [|done]. cbn [mbind option_bind].
  destruct (draw_times 7 P1 s1) as [s2|] eqn:E2; [|done]. cbn [default].
  eapply K; [apply valid_P1| |exact E2]. eapply K; [apply valid_P0|exact R|exact E1].
Qed.

Definition bare_midway : Opening unit PlayerId := snd (always_mulligan 30 bare_enabled).
Definition bare_final : Opening unit PlayerId := snd (always_mulligan 100 bare_enabled).

Lemma bare_enabled_ok : enable_london_mulligans_v1 bare_opening = Ok bare_enabled.
Proof. vm_compute. reflexivity. Qed.

Lemma bare_midway_reached : reaches toy_sha256 bare_enabled (fst (always_mulligan 30 bare_enabled)) bare_midway.
Proof.
  pose proof (always_mulligan_reaches 30 bare_enabled 0 _ (reaches_start _ _)) as R.
  rewrite Nat.add_0_l in R. exact R.
Qed.

Lemma bare_final_reached : reaches toy_sha256 bare_enabled 70 bare_final.
Proof.
  pose proof (always_mulligan_reaches 100 bare_enabled 0 _ (reaches_start _ _)) as R.
  rewrite seventy_answers, Nat.add_0_l in R. exact R.
Qed.

Lemma opening_hands_come_from_the_deal_witness :
  state_ok (game bare_midway) /\
  exists m, london_mulligans_v1 bare_midway = Some m /\ forall p, valid_player p ->
    deck_of (game bare_midway) p ≡ₚ deck_of (game bare_opening) p /\ (0 <= seat (counts m) p <= 7)%Z /\
    hand_size (game bare_midway) p = (7 - seat (counts m) p + owed m p)%Z /\
    hand_bindings (game bare_midway) p = Some (seat (hands m) p) /\
    map link_object (seat (hands m) p) = hand_of (game bare_midway) p /\
    (is_complete m = true -> owed m p = 0%Z /\ kept_hands_for_opening_v1 bare_midway = Ok (Some (hands m))).
Proof.
  apply (opening_hands_come_from_the_deal toy_sha256 bare_opening bare_enabled
           (fst (always_mulligan 30 bare_enabled))).
  - exact bare_deal_state.
  - exact bare_enabled_ok.
  - exact bare_midway_reached.
Defined.

Lemma every_mulligan_question_is_answerable_witness :
  exists d o2, drain_or_decide toy_sha256 bare_midway = Some (Ok (d, o2)) /\
    match d with
    | None => has_pending o2 = false
    | Some d => question o2 d /\ (exists action, legal d action = true) /\
        forall action,
          if legal d action then
            exists o3, answer action o2 = Ok o3 /\
              match d with ChooseLondonMulligan _ _ => game o3 = game o2 | _ => True end
          else exists e, answer action o2 = Err (Reject e)
    end.
Proof.
  apply (every_mulligan_question_is_answerable toy_sha256 bare_opening bare_enabled
           (fst (always_mulligan 30 bare_enabled))).
  - exact bare_deal_state.
  - exact bare_enabled_ok.
  - exact bare_midway_reached.
Defined.

Lemma mulligans_end_within_seventy_answers_witness :
  reaches toy_sha256 bare_enabled 70 bare_final /\ 70 <= 70.
Proof.
  split; [exact bare_final_reached|].
  apply (mulligans_end_within_seventy_answers toy_sha256 bare_opening bare_enabled 70 bare_final).
  - exact bare_deal_state.
  - exact bare_enabled_ok.
  - exact bare_final_reached.
Defined.
