(* ===== verification/InferenceCache.v ===== *)
(** * The prediction cache (src/mtg-kernel/src/inference_cache_v1.rs and the two
      forwards through it in sideboard_play_policy_v1.rs)

    A byte-budgeted first-in-first-out cache of network outputs. Entries live in
    slots; an index from hash to slots finds them, a queue orders them by age and
    a stack keeps the free slots. A [usize] and a [u64] counter are 64 bits wide
    and wrap as a release build wraps them; an [f32] is its bits. Indexing a
    missing slot is a panic, [None]. *)

From stdpp Require Import gmap strings.
From S2P Require Import Prelude Bytes.

(** ** Keys *)

Inductive ForwardPathV1 := Flat | TransferV3 | TransferV4 | TransferV7 | TransferV8.
#[export] Instance ForwardPathV1_eq_dec : EqDecision ForwardPathV1.
Proof. solve_decision. Defined.

Definition path_tag (path : ForwardPathV1) : Z :=
  match path with
  | Flat => 1 | TransferV3 => 3 | TransferV4 => 4 | TransferV7 => 7 | TransferV8 => 8
  end.

Inductive ForwardActivationModeV1 := LibmTanh | KernelDeterministicTanh | FastSearchTanh.
#[export] Instance ForwardActivationModeV1_eq_dec : EqDecision ForwardActivationModeV1.
Proof. solve_decision. Defined.

Definition mode_tag (mode : ForwardActivationModeV1) : Z :=
  match mode with LibmTanh => 1 | KernelDeterministicTanh => 2 | FastSearchTanh => 3 end.

Record NativeEncodedDecisionSchemaV1 := MkSchema {
  version : bytes;
  registry_version : bytes;
  contract_digest : bytes;
  encoding_digest : bytes;
  state_dim : Z;
  object_feature_dim : Z;
  edge_feature_dim : Z;
  action_feature_dim : Z;
  object_group_count : Z;
  action_ref_feature_dim : Z;
}.

Record NativeEncodedDecisionViewV1 := MkView {
  schema : NativeEncodedDecisionSchemaV1;
  view_state : list Z;
  object_features : list Z;
  object_card_ids : list Z;
  object_groups : list Z;
  object_node_ids : list Z;
  edge_features : list Z;
  edge_source_indices : list Z;
  edge_target_indices : list Z;
  action_features : list Z;
  action_ref_features : list Z;
  action_ref_card_ids : list Z;
  action_ref_action_indices : list Z;
  action_ref_node_indices : list Z;
  pairing_node_indices : list Z;
}.

(** [to_le_bytes]; a negative [i64] is its two's complement. *)
Definition to_le_bytes (w : nat) (z : Z) : bytes := rev (to_be_bytes w z).

Definition key_text (key text : bytes) : bytes :=
  key ++ to_le_bytes 8 (Z.of_nat (length text)) ++ text.
Definition key_dim (key : bytes) (dim : Z) : bytes := key ++ to_le_bytes 8 dim.
Definition key_slice (w : nat) (key : bytes) (values : list Z) : bytes :=
  key ++ to_le_bytes 8 (Z.of_nat (length values)) ++ flat_map (to_le_bytes w) values.
Definition floats : bytes -> list Z -> bytes := key_slice 4.
Definition integers : bytes -> list Z -> bytes := key_slice 8.

Definition write_key_v1 (model : bytes) (path : ForwardPathV1) (mode : ForwardActivationModeV1)
    (view : NativeEncodedDecisionViewV1) : bytes :=
  let key := bytes_of "inference-cache-v1"%string ++ [0%Z] in
  let key := key ++ model in
  let key := key ++ [path_tag path] in
  let key := key ++ [mode_tag mode] in
  let s := schema view in
  let key := foldl key_text key
    [version s; registry_version s; contract_digest s; encoding_digest s] in
  let key := foldl key_dim key
    [state_dim s; object_feature_dim s; edge_feature_dim s; action_feature_dim s;
     object_group_count s; action_ref_feature_dim s] in
  let key := floats key (view_state view) in
  let key := floats key (object_features view) in
  let key := integers key (object_card_ids view) in
  let key := integers key (object_groups view) in
  let key := integers key (object_node_ids view) in
  let key := floats key (edge_features view) in
  let key := integers key (edge_source_indices view) in
  let key := integers key (edge_target_indices view) in
  let key := floats key (action_features view) in
  let key := floats key (action_ref_features view) in
  let key := integers key (action_ref_card_ids view) in
  let key := integers key (action_ref_action_indices view) in
  let key := integers key (action_ref_node_indices view) in
  if decide (path = TransferV8) then integers key (pairing_node_indices view) else key.

(** ** The bucketing hash *)

Definition from_le_bytes (b : bytes) : Z := from_be_bytes (rev b).
Definition wrapping_mul (a b : Z) : Z := wrap_u64 (a * b).
Definition rotate_left_32 (z : Z) : Z :=
  Z.lor (wrap_u64 (Z.shiftl z 32)) (Z.shiftr z 32).

(** [chunks_exact(8)] and its remainder. *)
Fixpoint hash_chunks (n : nat) (hash : Z) (key : bytes) : Z * bytes :=
  match n with
  | O => (hash, key)
  | S n =>
      let word := from_le_bytes (take 8 key) in
      let hash := wrapping_mul (Z.lxor hash word) 0xff51afd7ed558ccd in
      hash_chunks n (Z.lxor hash (Z.shiftr hash 32)) (drop 8 key)
  end.

Definition hash_v1 (key : bytes) : Z :=
  let hash := Z.lxor 0x9e3779b97f4a7c15 (rotate_left_32 (Z.of_nat (length key))) in
  let (hash, remainder) := hash_chunks (Nat.div (length key) 8) hash key in
  let tail := remainder ++ replicate (8 - length remainder) 0%Z in
  let hash := wrapping_mul (Z.lxor hash (from_le_bytes tail)) 0xc4ceb9fe1a85ec53 in
  Z.lxor hash (Z.shiftr hash 29).

(** ** The cache *)

Definition ENTRY_OVERHEAD_BYTES_V1 : Z := 128.

Record EntryV1 := MkEntry { entry_key : bytes; entry_logits : list Z; entry_value : Z }.

Definition cost (e : EntryV1) : Z :=
  wrap_u64 (Z.of_nat (length (entry_key e)) + Z.of_nat (length (entry_logits e)) * 4
            + ENTRY_OVERHEAD_BYTES_V1).

Record InferenceCacheStatsV1 := MkStats {
  requests : Z;
  hits : Z;
  misses : Z;
  collisions : Z;
  inserts : Z;
  oversize : Z;
  evictions : Z;
  forwards : Z;
  key_bytes : Z;
  max_key_bytes : Z;
  peak_bytes : Z;
  peak_entries : Z;
}.
Definition default_stats : InferenceCacheStatsV1 := MkStats 0 0 0 0 0 0 0 0 0 0 0 0.

Record InferenceCacheV1 := MkCache {
  budget : Z;
  cached_bytes : Z;
  by_hash : gmap Z (list nat);
  entries : list (option EntryV1);
  order : list (Z * nat);
  free : list nat;
  stats : InferenceCacheStatsV1;
}.

Definition InferenceCacheV1_new (budget : Z) : InferenceCacheV1 :=
  MkCache budget 0 ∅ [] [] [] default_stats.

Definition reset (c : InferenceCacheV1) : InferenceCacheV1 := InferenceCacheV1_new (budget c).

Definition with_stats (c : InferenceCacheV1) (s : InferenceCacheStatsV1) : InferenceCacheV1 :=
  MkCache (budget c) (cached_bytes c) (by_hash c) (entries c) (order c) (free c) s.

Definition inc (z : Z) : Z := wrap_u64 (z + 1).

Definition note_request (key : bytes) (s : InferenceCacheStatsV1) : InferenceCacheStatsV1 :=
  MkStats (inc (requests s)) (hits s) (misses s) (collisions s) (inserts s) (oversize s)
    (evictions s) (forwards s) (wrap_u64 (key_bytes s + Z.of_nat (length key)))
    (Z.max (max_key_bytes s) (Z.of_nat (length key))) (peak_bytes s) (peak_entries s).
Definition note_hit (s : InferenceCacheStatsV1) : InferenceCacheStatsV1 :=
  MkStats (requests s) (inc (hits s)) (misses s) (collisions s) (inserts s) (oversize s)
    (evictions s) (forwards s) (key_bytes s) (max_key_bytes s) (peak_bytes s) (peak_entries s).
Definition note_miss (same_hash : bool) (s : InferenceCacheStatsV1) : InferenceCacheStatsV1 :=
  MkStats (requests s) (hits s) (inc (misses s))
    (if same_hash then inc (collisions s) else collisions s) (inserts s) (oversize s)
    (evictions s) (forwards s) (key_bytes s) (max_key_bytes s) (peak_bytes s) (peak_entries s).
Definition note_oversize (s : InferenceCacheStatsV1) : InferenceCacheStatsV1 :=
  MkStats (requests s) (hits s) (misses s) (collisions s) (inserts s) (inc (oversize s))
    (evictions s) (forwards s) (key_bytes s) (max_key_bytes s) (peak_bytes s) (peak_entries s).
Definition note_eviction (s : InferenceCacheStatsV1) : InferenceCacheStatsV1 :=
  MkStats (requests s) (hits s) (misses s) (collisions s) (inserts s) (oversize s)
    (inc (evictions s)) (forwards s) (key_bytes s) (max_key_bytes s) (peak_bytes s) (peak_entries s).
Definition note_insert (bytes_now entries_now : Z) (s : InferenceCacheStatsV1)
  : InferenceCacheStatsV1 :=
  MkStats (requests s) (hits s) (misses s) (collisions s) (inc (inserts s)) (oversize s)
    (evictions s) (forwards s) (key_bytes s) (max_key_bytes s)
    (Z.max (peak_bytes s) bytes_now) (Z.max (peak_entries s) entries_now).
Definition note_forward (s : InferenceCacheStatsV1) : InferenceCacheStatsV1 :=
  MkStats (requests s) (hits s) (misses s) (collisions s) (inserts s) (oversize s)
    (evictions s) (inc (forwards s)) (key_bytes s) (max_key_bytes s) (peak_bytes s) (peak_entries s).

Definition count_forward (c : InferenceCacheV1) : InferenceCacheV1 :=
  with_stats c (note_forward (stats c)).

(** The walk over a bucket: the matching entry, or whether a slot was live. *)
Fixpoint scan_bucket (slots : list (option EntryV1)) (key : bytes) (bucket : list nat)
    (same_hash : bool) : option (EntryV1 + bool) :=
  match bucket with
  | [] => Some (inr same_hash)
  | index :: bucket =>
      match slots !! index with
      | None => None
      | Some None => scan_bucket slots key bucket same_hash
      | Some (Some entry) =>
          if decide (entry_key entry = key) then Some (inl entry)
          else scan_bucket slots key bucket true
      end
  end.

Definition get (hash : Z) (key : bytes) (c : InferenceCacheV1)
  : option (option (list Z * Z) * InferenceCacheV1) :=
  let s := note_request key (stats c) in
  found ← scan_bucket (entries c) key (default [] (by_hash c !! hash)) false;
  match found with
  | inl entry =>
      Some (Some (entry_logits entry, entry_value entry), with_stats c (note_hit s))
  | inr same_hash => Some (None, with_stats c (note_miss same_hash s))
  end.

(** One turn of the eviction loop: the popped slot is emptied, unindexed and freed. *)
Definition evict_one (old_hash : Z) (old_index : nat) (queue : list (Z * nat))
    (c : InferenceCacheV1) : option InferenceCacheV1 :=
  slot ← entries c !! old_index;
  let '(held, s) :=
    match slot with
    | Some old => (wrap_u64 (cached_bytes c - cost old), note_eviction (stats c))
    | None => (cached_bytes c, stats c)
    end in
  let index :=
    match by_hash c !! old_hash with
    | Some bucket =>
        match filter (fun i => i <> old_index) bucket with
        | [] => delete old_hash (by_hash c)
        | others => <[old_hash := others]> (by_hash c)
        end
    | None => by_hash c
    end in
  Some (MkCache (budget c) held index (<[old_index := None]> (entries c)) queue
          (free c ++ [old_index]) s).

(** [while self.bytes + cost > self.budget], over the queue it consumes. *)
Fixpoint evict (need : Z) (queue : list (Z * nat)) (c : InferenceCacheV1) : option InferenceCacheV1 :=
  if decide (budget c < wrap_u64 (cached_bytes c + need))%Z then
    match queue with
    | [] => Some c
    | (old_hash, old_index) :: queue =>
        c ← evict_one old_hash old_index queue c;
        evict need queue c
    end
  else Some c.

(** [self.free.pop()] or a new slot. *)
Definition take_slot (e : EntryV1) (c : InferenceCacheV1)
  : option (nat * list (option EntryV1) * list nat) :=
  match last (free c) with
  | Some index =>
      _ ← entries c !! index;
      Some (index, <[index := Some e]> (entries c), removelast (free c))
  | None => Some (length (entries c), entries c ++ [Some e], free c)
  end.

Definition insert (hash : Z) (key : bytes) (logits : list Z) (value : Z) (c : InferenceCacheV1)
  : option InferenceCacheV1 :=
  let entry := MkEntry key logits value in
  if decide (budget c < cost entry)%Z then Some (with_stats c (note_oversize (stats c)))
  else
    c ← evict (cost entry) (order c) c;
    '(index, slots, free) ← take_slot entry c;
    let order := order c ++ [(hash, index)] in
    let held := wrap_u64 (cached_bytes c + cost entry) in
    Some (MkCache (budget c) held
            (<[hash := default [] (by_hash c !! hash) ++ [index]]> (by_hash c)) slots order free
            (note_insert held (Z.of_nat (length order)) (stats c))).

(** ** Forwards through the cache *)

(** [f32::is_finite] on the bits. *)
Definition is_finite (bits : Z) : bool := negb (Z.land bits 0x7f800000 =? 0x7f800000)%Z.

Definition storable (logits : list Z) (value : Z) : bool := forallb is_finite logits && is_finite value.

(** [cached_forward_v1] with a cache attached, without the passive probe: the
    forward of the installed model is a parameter. *)
Definition cached_forward_v1 {E} (forward : ForwardPathV1 -> ForwardActivationModeV1 ->
      NativeEncodedDecisionViewV1 -> result E (list Z * Z))
    (model : bytes) (path : ForwardPathV1) (mode : ForwardActivationModeV1)
    (view : NativeEncodedDecisionViewV1) (c : InferenceCacheV1)
  : option (result E (list Z * Z) * InferenceCacheV1) :=
  let key := write_key_v1 model path mode view in
  let hash := hash_v1 key in
  '(found, c) ← get hash key c;
  match found with
  | Some scores => Some (Ok scores, c)
  | None =>
      let c := count_forward c in
      match forward path mode view with
      | Err e => Some (Err e, c)
      | Ok (logits, value) =>
          c ← (if storable logits value then insert hash key logits value c else Some c);
          Some (Ok (logits, value), c)
      end
  end.

(** [cached_s_forward_v1]: one fixed path and mode, the view of the tensor. *)
Definition cached_s_forward_v1 {E Tensor} (score_tensor : Tensor -> result E (list Z * Z))
    (encoded_decision_view_v4 : Tensor -> NativeEncodedDecisionViewV1) (model : bytes)
    (tensor : Tensor) (c : InferenceCacheV1) : option (result E (list Z * Z) * InferenceCacheV1) :=
  cached_forward_v1 (fun _ _ _ => score_tensor tensor) model TransferV4 KernelDeterministicTanh
    (encoded_decision_view_v4 tensor) c.
