(* ===== verification/InferenceCacheFacts.v ===== *)
(** * The prediction cache is a bounded queue, and never changes an answer

    The keys frame every forward input, so equal keys mean equal inputs. The slots,
    the hash index and the free stack implement a plain queue of entries
    ([repr]) that evicts its oldest entries and stays within the byte budget.
    Hence a forward through the cache answers what the forward itself answers. *)

From stdpp Require Import gmap strings.
From S2P Require Import Prelude Bytes InferenceCache.

(* ------------------------------------------------------------------ *)
(** ** Keys *)

#[local] Opaque to_be_bytes bytes_of.

Lemma length_le w z : length (to_le_bytes w z) = w.
Proof. unfold to_le_bytes. by rewrite length_rev, length_be. Qed.

Lemma to_le_bytes_inj w lo x y r1 r2 :
  (lo <= x < lo + 256 ^ Z.of_nat w)%Z -> (lo <= y < lo + 256 ^ Z.of_nat w)%Z ->
  to_le_bytes w x ++ r1 = to_le_bytes w y ++ r2 -> x = y /\ r1 = r2.
Proof.
  intros Hx Hy E. apply app_inj_1 in E as [E ->]; [|by rewrite !length_le]. split; [|done].
  apply (f_equal (@rev Z)) in E. unfold to_le_bytes in E. rewrite !rev_involutive in E.
  apply (same_residue _ lo _ _ Hx Hy). by apply to_be_bytes_mod.
Qed.

(** A count or a dimension. *)
Definition usize (z : Z) : Prop := (0 <= z <= u64_max)%Z.

Lemma usize_inj x y r1 r2 : usize x -> usize y ->
  to_le_bytes 8 x ++ r1 = to_le_bytes 8 y ++ r2 -> x = y /\ r1 = r2.
Proof.
  unfold usize, u64_max. intros Hx Hy. apply (to_le_bytes_inj 8 0);
    change (256 ^ Z.of_nat 8)%Z with 18446744073709551616%Z; lia.
Qed.

Definition short {A} (l : list A) : Prop := usize (Z.of_nat (length l)).

Lemma text_inj t1 t2 r1 r2 : short t1 -> short t2 ->
  to_le_bytes 8 (Z.of_nat (length t1)) ++ t1 ++ r1 = to_le_bytes 8 (Z.of_nat (length t2)) ++ t2 ++ r2 ->
  t1 = t2 /\ r1 = r2.
Proof.
  intros H1 H2 E. apply usize_inj in E as [EL E]; [|done..]. apply app_inj_1 in E; [done|lia].
Qed.

(** Element values: a [w]-byte window from [lo]. *)
Definition in_window (w : nat) (lo z : Z) : Prop := (lo <= z < lo + 256 ^ Z.of_nat w)%Z.

Lemma elements_inj w lo : forall l1 l2 r1 r2,
  Forall (in_window w lo) l1 -> Forall (in_window w lo) l2 -> length l1 = length l2 ->
  flat_map (to_le_bytes w) l1 ++ r1 = flat_map (to_le_bytes w) l2 ++ r2 -> l1 = l2 /\ r1 = r2.
Proof.
  induction l1 as [|x l1 IH]; intros [|y l2] r1 r2 H1 H2 L E; try done.
  apply Forall_cons in H1 as [Hx H1]. apply Forall_cons in H2 as [Hy H2]. cbn in E, L.
  rewrite <- !app_assoc in E. apply (to_le_bytes_inj w lo) in E as [-> E]; [|done..].
  apply IH in E as [-> ->]; [done|done|done|lia].
Qed.

Definition slice_ok (w : nat) (lo : Z) (l : list Z) : Prop := short l /\ Forall (in_window w lo) l.

Lemma slice_inj w lo l1 l2 r1 r2 : slice_ok w lo l1 -> slice_ok w lo l2 ->
  to_le_bytes 8 (Z.of_nat (length l1)) ++ flat_map (to_le_bytes w) l1 ++ r1 =
  to_le_bytes 8 (Z.of_nat (length l2)) ++ flat_map (to_le_bytes w) l2 ++ r2 -> l1 = l2 /\ r1 = r2.
Proof.
  intros [S1 F1] [S2 F2] E. apply usize_inj in E as [EL E]; [|done..].
  apply (elements_inj w lo) in E; [done..|lia].
Qed.

Definition floats_ok : list Z -> Prop := slice_ok 4 0.
Definition integers_ok : list Z -> Prop := slice_ok 8 i64_min.

(** The slices and dimensions have their machine types; only FlatV8 carries a
    pairing relation. *)
Record view_ok (path : ForwardPathV1) (v : NativeEncodedDecisionViewV1) : Prop := MkViewOk {
  texts_short : let s := schema v in
    short (version s) /\ short (registry_version s) /\ short (contract_digest s)
    /\ short (encoding_digest s);
  dims_usize : let s := schema v in
    usize (state_dim s) /\ usize (object_feature_dim s) /\ usize (edge_feature_dim s)
    /\ usize (action_feature_dim s) /\ usize (object_group_count s)
    /\ usize (action_ref_feature_dim s);
  floats_typed : floats_ok (view_state v) /\ floats_ok (object_features v)
    /\ floats_ok (edge_features v) /\ floats_ok (action_features v)
    /\ floats_ok (action_ref_features v);
  integers_typed : integers_ok (object_card_ids v) /\ integers_ok (object_groups v)
    /\ integers_ok (object_node_ids v) /\ integers_ok (edge_source_indices v)
    /\ integers_ok (edge_target_indices v) /\ integers_ok (action_ref_card_ids v)
    /\ integers_ok (action_ref_action_indices v) /\ integers_ok (action_ref_node_indices v)
    /\ integers_ok (pairing_node_indices v);
  pairing_only_v8 : path <> TransferV8 -> pairing_node_indices v = [];
}.

Lemma path_tag_inj p q : path_tag p = path_tag q -> p = q.
Proof. by destruct p, q. Qed.
Lemma mode_tag_inj m n : mode_tag m = mode_tag n -> m = n.
Proof. by destruct m, n. Qed.

(** The frames of a key, in order. *)
Lemma write_key_frames model path mode v :
  write_key_v1 model path mode v =
  bytes_of "inference-cache-v1"%string ++ [0%Z] ++ model ++ [path_tag path] ++ [mode_tag mode] ++
  let s := schema v in
  let text t := to_le_bytes 8 (Z.of_nat (length t)) ++ t in
  let slice w l := to_le_bytes 8 (Z.of_nat (length l)) ++ flat_map (to_le_bytes w) l in
  text (version s) ++ text (registry_version s) ++ text (contract_digest s) ++ text (encoding_digest s) ++
  to_le_bytes 8 (state_dim s) ++ to_le_bytes 8 (object_feature_dim s) ++
  to_le_bytes 8 (edge_feature_dim s) ++ to_le_bytes 8 (action_feature_dim s) ++
  to_le_bytes 8 (object_group_count s) ++ to_le_bytes 8 (action_ref_feature_dim s) ++
  slice 4 (view_state v) ++ slice 4 (object_features v) ++ slice 8 (object_card_ids v) ++
  slice 8 (object_groups v) ++ slice 8 (object_node_ids v) ++ slice 4 (edge_features v) ++
  slice 8 (edge_source_indices v) ++ slice 8 (edge_target_indices v) ++ slice 4 (action_features v) ++
  slice 4 (action_ref_features v) ++ slice 8 (action_ref_card_ids v) ++
  slice 8 (action_ref_action_indices v) ++ slice 8 (action_ref_node_indices v) ++
  (if decide (path = TransferV8) then slice 8 (pairing_node_indices v) else []).
Proof.
  unfold write_key_v1, floats, integers, key_slice, key_text, key_dim. cbn [foldl].
  case_decide; rewrite <- ?app_assoc, ?app_nil_r; reflexivity.
Qed.

(** Equal keys come from equal inputs. *)
Lemma write_key_inj m1 m2 p1 p2 o1 o2 v1 v2 :
  length m1 = length m2 -> view_ok p1 v1 -> view_ok p2 v2 ->
  write_key_v1 m1 p1 o1 v1 = write_key_v1 m2 p2 o2 v2 -> m1 = m2 /\ p1 = p2 /\ o1 = o2 /\ v1 = v2.
Proof.
  intros Hm [T1 D1 F1 I1 P1] [T2 D2 F2 I2 P2] E. rewrite !write_key_frames in E.
  do 2 apply app_inv_head in E. apply app_inj_1 in E as [-> E]; [|done].
  apply app_inj_1 in E as [[= ->%path_tag_inj] E]; [|done].
  apply app_inj_1 in E as [[= ->%mode_tag_inj] E]; [|done].
  destruct v1 as [[] ? ? ? ? ? ? ? ? ? ? ? ? ? pr1], v2 as [[] ? ? ? ? ? ? ? ? ? ? ? ? ? pr2]. cbn in *.
  destruct_and!. rewrite <- ?app_assoc in E.
  do 4 (apply text_inj in E as [-> E]; [|done..]).
  do 6 (apply usize_inj in E as [-> E]; [|done..]).
  do 13 (first [apply (slice_inj 4 0) in E as [-> E]; [|done..]
               |apply (slice_inj 8 i64_min) in E as [-> E]; [|done..]]).
  case_decide as Hp.
  - assert (pr1 = pr2) as ->; [|done].
    apply (slice_inj 8 i64_min _ _ [] []); [done..|]. by rewrite !app_nil_r.
  - by rewrite P1, P2.
Qed.

(* ------------------------------------------------------------------ *)
(** ** The specification: a queue of entries within a byte budget *)

Definition exact_cost (e : EntryV1) : Z :=
  Z.of_nat (length (entry_key e)) + Z.of_nat (length (entry_logits e)) * 4 + ENTRY_OVERHEAD_BYTES_V1.

Abbreviation queue := (list (Z * EntryV1)).

Definition queue_bytes (q : queue) : Z := foldr (fun he acc => exact_cost (snd he) + acc)%Z 0%Z q.

(** The oldest entry stored under this hash with exactly this key. *)
Definition queue_get (hash : Z) (key : bytes) (q : queue) : option (list Z * Z) :=
  (fun he => (entry_logits (snd (snd he)), entry_value (snd (snd he))))
    <$> list_find (fun he => fst he = hash /\ entry_key (snd he) = key) q.

(** Oldest entries leave until [need] more bytes fit. *)
Fixpoint make_room (b need : Z) (q : queue) : queue :=
  if decide (b < queue_bytes q + need)%Z then
    match q with [] => [] | _ :: q => make_room b need q end
  else q.

Definition queue_insert (b hash : Z) (e : EntryV1) (q : queue) : queue :=
  if decide (b < exact_cost e)%Z then q else make_room b (exact_cost e) q ++ [(hash, e)].

(** A key and logits that fit in memory. *)
Definition entry_fits (e : EntryV1) : Prop := (exact_cost e <= u64_max)%Z.

Lemma exact_cost_pos e : (0 < exact_cost e)%Z.
Proof. unfold exact_cost, ENTRY_OVERHEAD_BYTES_V1. lia. Qed.

Lemma wrap_u64_small z : (0 <= z <= u64_max)%Z -> wrap_u64 z = z.
Proof. unfold wrap_u64, u64_max. intros. apply Z.mod_small. lia. Qed.

Lemma cost_exact e : entry_fits e -> cost e = exact_cost e.
Proof.
  unfold entry_fits. intros H. pose proof (exact_cost_pos e).
  unfold cost, exact_cost in *. apply wrap_u64_small. lia.
Qed.

Lemma queue_bytes_app q1 q2 : queue_bytes (q1 ++ q2) = (queue_bytes q1 + queue_bytes q2)%Z.
Proof. induction q1 as [|he q1 IH]; cbn; [done|]. unfold queue_bytes in *. rewrite IH. lia. Qed.

Lemma queue_bytes_nonneg q : (0 <= queue_bytes q)%Z.
Proof. induction q as [|he q IH]; cbn; [done|]. pose proof (exact_cost_pos (snd he)). unfold queue_bytes in *. lia. Qed.

Lemma make_room_fits b need q : (need <= b)%Z -> (queue_bytes (make_room b need q) + need <= b)%Z.
Proof.
  intros Hn. induction q as [|he q IH]; cbn -[queue_bytes].
  - case_decide; cbn; lia.
  - case_decide; [done|lia].
Qed.

Lemma make_room_suffix b need q : exists n, make_room b need q = drop n q.
Proof.
  induction q as [|he q [n IH]]; cbn -[queue_bytes]; case_decide; [by exists 0..| |by exists 0].
  by exists (S n).
Qed.

(* ------------------------------------------------------------------ *)
(** ** The slots, the index and the free stack hold that queue *)

(** Which queue a cache with this budget holds: the i-th oldest entry is in
    the slot the order names; every bucket lists its slots in age order and is
    not empty; the empty slots are the free ones; bytes are counted. *)
Record repr (b : Z) (c : InferenceCacheV1) (q : queue) : Prop := MkRepr {
  repr_budget : budget c = b;
  repr_machine : (b <= i64_max)%Z;
  repr_order : Forall2 (fun hk he => fst hk = fst he /\ entries c !! snd hk = Some (Some (snd he)))
                 (order c) q;
  repr_distinct : NoDup (map snd (order c));
  repr_index : forall h, default [] (by_hash c !! h) = map snd (filter (fun hk => fst hk = h) (order c));
  repr_buckets : forall h, by_hash c !! h <> Some [];
  repr_free : NoDup (free c) /\ forall k, k ∈ free c <-> entries c !! k = Some None;
  repr_live : forall k e, entries c !! k = Some (Some e) -> k ∈ map snd (order c);
  repr_bytes : cached_bytes c = queue_bytes q;
  repr_within : (queue_bytes q <= b)%Z;
  repr_fits : Forall (fun he => entry_fits (snd he)) q;
}.

Lemma repr_new b : (0 <= b <= i64_max)%Z -> repr b (InferenceCacheV1_new b) [].
Proof.
  intros Hb. unfold InferenceCacheV1_new. split; cbn [budget order entries by_hash free cached_bytes].
  - done.
  - lia.
  - constructor.
  - constructor.
  - intros h. by rewrite lookup_empty.
  - intros h. by rewrite lookup_empty.
  - split; [constructor|]. intros k. split; [by intros ?%not_elem_of_nil|done].
  - done.
  - done.
  - cbn. lia.
  - constructor.
Qed.

Lemma repr_stats b c q s : repr b c q -> repr b (with_stats c s) q.
Proof. by intros [? ? ? ? ? ? ? ? ? ? ?]; split. Qed.

(** The walk over a bucket is the search of the queue. *)
Lemma scan_bucket_queue slots key (hash : Z) : forall (ord : list (Z * nat)) (q : queue) same,
  Forall2 (fun hk he => fst hk = fst he /\ slots !! snd hk = Some (Some (snd he))) ord q ->
  scan_bucket slots key (map snd (filter (fun hk => fst hk = hash) ord)) same =
  Some match list_find (fun he => fst he = hash /\ entry_key (snd he) = key) q with
       | Some (_, he) => inl (snd he)
       | None => inr (same || bool_decide (Exists (fun he => fst he = hash) q))
       end.
Proof.
  intros ord q same H. revert same. induction H as [|[h k] [h' e] ord q [E1 E2] H IH]; intros same.
  { cbn. by rewrite orb_false_r. }
  cbn in E1, E2. subst h'. rewrite filter_cons. cbn [list_find fst snd].
  case_decide as Hh; cbn [fst] in Hh.
  - cbn [map scan_bucket snd]. rewrite E2. destruct (decide (entry_key e = key)) as [Hk|Hk].
    + by rewrite decide_True.
    + rewrite decide_False by tauto. rewrite IH. f_equal.
      destruct (list_find _ q) as [[i he]|]; cbn; [done|]. f_equal.
      rewrite bool_decide_true by (by left). by rewrite orb_true_r.
  - rewrite decide_False by tauto. rewrite IH. f_equal.
    destruct (list_find _ q) as [[i he]|]; cbn; [done|]. do 2 f_equal.
    apply bool_decide_ext. rewrite Exists_cons. cbn. tauto.
Qed.

Lemma get_queue b c q hash key : repr b c q ->
  exists c', get hash key c = Some (queue_get hash key q, c') /\ repr b c' q /\
    stats c' = (match queue_get hash key q with
                | Some _ => note_hit
                | None => note_miss (bool_decide (Exists (fun he => fst he = hash) q))
                end) (note_request key (stats c)) /\ order c' = order c.
Proof.
  intros R. unfold get. rewrite (repr_index _ _ _ R).
  rewrite (scan_bucket_queue _ key hash _ q false) by apply R. cbn [mbind option_bind].
  unfold queue_get. destruct (list_find _ q) as [[i he]|]; cbn; eexists;
    (split; [reflexivity|]); (split; [by apply repr_stats|done]).
Qed.

(** Only the slots the order names matter. *)
Lemma slots_ext (slots slots' : list (option EntryV1)) (ord : list (Z * nat)) (q : queue) :
  (forall k, k ∈ map snd ord -> slots' !! k = slots !! k) ->
  Forall2 (fun hk he => fst hk = fst he /\ slots !! snd hk = Some (Some (snd he))) ord q ->
  Forall2 (fun hk he => fst hk = fst he /\ slots' !! snd hk = Some (Some (snd he))) ord q.
Proof.
  intros E H. induction H as [|hk he ord q [H1 H2] H IH]; constructor.
  - split; [done|]. rewrite E; [done|by left].
  - apply IH. intros k Hk. apply E. by right.
Qed.

(** Filtering out the slot of the oldest entry. *)
Lemma bucket_without (h h' : Z) (k : nat) (ord : list (Z * nat)) : k ∉ map snd ord ->
  filter (fun i => i <> k) (map snd (filter (fun hk => fst hk = h) ((h', k) :: ord))) =
  map snd (filter (fun hk => fst hk = h) ord).
Proof.
  intros Hk. assert (filter (fun i => i <> k) (map snd (filter (fun hk => fst hk = h) ord))
    = map snd (filter (fun hk => fst hk = h) ord)) as K.
  { apply filter_all. apply Forall_forall.
    intros i (hk & -> & [_ Hin]%list_elem_of_filter)%list_elem_of_fmap E.
    apply Hk, list_elem_of_fmap. by exists hk. }
  rewrite filter_cons. case_decide; [|done]. cbn [map snd]. rewrite filter_cons, decide_False; [done|].
  intros Hn. by apply Hn.
Qed.

Lemma evict_one_queue b c h k ord he q :
  repr b c (he :: q) -> order c = (h, k) :: ord ->
  exists c', evict_one h k ord c = Some c' /\ repr b c' q /\ order c' = ord /\
    stats c' = note_eviction (stats c).
Proof.
  intros [R1 RM R2 R3 R4 R5 [R6 R7] R8 R9 R10 R11] Eo. rewrite Eo in R2, R3, R4, R8.
  apply Forall2_cons in R2 as [[E1 E2] R2]. destruct he as [h' e]. cbn in E1, E2. subst h'.
  cbn [map snd] in R3. apply NoDup_cons in R3 as [Hk R3]. apply Forall_cons in R11 as [He R11].
  cbn in He. unfold evict_one. rewrite E2. cbn [mbind option_bind]. eexists. split; [reflexivity|].
  assert (forall j, j <> k -> <[k := None]> (entries c) !! j = entries c !! j) as Hj
    by (intros j Hne; by apply list_lookup_insert_ne).
  assert (<[k := None]> (entries c) !! k = Some None) as Hself
    by (apply list_lookup_insert_eq; by eapply lookup_lt_Some).
  assert (forall g, default [] ((match by_hash c !! h with
    | Some bucket => match filter (fun i => i <> k) bucket with
                     | [] => delete h (by_hash c) | others => <[h := others]> (by_hash c) end
    | None => by_hash c end) !! g) = map snd (filter (fun hk => fst hk = g) ord)) as Hidx.
  { intros g. pose proof (bucket_without h h k ord Hk) as B. pose proof (R4 h) as R4h.
    destruct (by_hash c !! h) as [bucket|] eqn:Eb;
      [change (default [] (Some bucket)) with bucket in R4h|change (default [] None) with (@nil nat) in R4h].
    - rewrite <- R4h in B. destruct (decide (g = h)) as [->|Hg].
      + rewrite B. destruct (map snd (filter (fun hk => fst hk = h) ord)) eqn:EF;
          [by rewrite lookup_delete_eq|by rewrite lookup_insert_eq].
      + pose proof (R4 g) as R4g. rewrite filter_cons, decide_False in R4g by done.
        rewrite <- R4g. destruct (filter _ bucket);
          [by rewrite lookup_delete_ne|by rewrite lookup_insert_ne].
    - exfalso. rewrite filter_cons, decide_True in R4h by done. done. }
  split; [|done]. split; cbn [budget order entries by_hash free cached_bytes]; [done|done| | |exact Hidx| | | | | |done].
  - eapply slots_ext; [|exact R2]. intros j Hin. apply Hj. by intros ->.
  - done.
  - intros g Eg. destruct (by_hash c !! h) as [bucket|] eqn:Eb.
    + destruct (decide (g = h)) as [->|Hg].
      * destruct (filter _ bucket); [by rewrite lookup_delete_eq in Eg|by rewrite lookup_insert_eq in Eg].
      * destruct (filter _ bucket);
          [rewrite lookup_delete_ne in Eg by done|rewrite lookup_insert_ne in Eg by done]; by eapply R5.
    + by eapply R5.
  - split.
    + apply NoDup_app. split_and!; [done| |apply NoDup_singleton].
      intros j Hin ->%list_elem_of_singleton. apply R7 in Hin. congruence.
    + intros j. rewrite elem_of_app, list_elem_of_singleton, R7.
      destruct (decide (j = k)) as [->|Hne]; [by rewrite Hself; tauto|]. rewrite Hj by done. tauto.
  - intros j e' Ej. destruct (decide (j = k)) as [->|Hne]; [congruence|]. rewrite Hj in Ej by done.
    apply R8 in Ej. apply elem_of_cons in Ej as [->|?]; done.
  - rewrite R9, cost_exact by done. cbn [queue_bytes foldr snd]. fold (queue_bytes q).
    pose proof (queue_bytes_nonneg q). pose proof (exact_cost_pos e). unfold entry_fits, u64_max, i64_max in *.
    cbn in R10. fold (queue_bytes q) in R10. rewrite wrap_u64_small by (unfold u64_max; lia). lia.
  - cbn in R10. fold (queue_bytes q) in R10. pose proof (exact_cost_pos e). lia.
Qed.

Lemma room_test b c q need : repr b c q -> (0 <= need <= b)%Z ->
  wrap_u64 (cached_bytes c + need) = (queue_bytes q + need)%Z.
Proof.
  intros R Hn. pose proof (repr_machine _ _ _ R). pose proof (repr_within _ _ _ R).
  pose proof (queue_bytes_nonneg q). rewrite (repr_bytes _ _ _ R).
  apply wrap_u64_small. unfold i64_max, u64_max in *. lia.
Qed.

Lemma evict_queue b need : forall q c, repr b c q -> (0 <= need <= b)%Z ->
  exists c', evict need (order c) c = Some c' /\ repr b c' (make_room b need q) /\
    stats c' = Nat.iter (length q - length (make_room b need q)) note_eviction (stats c).
Proof.
  induction q as [|he q IH]; intros c R Hn; pose proof (room_test b c _ need R Hn) as Hr;
    pose proof (repr_budget _ _ _ R) as Eb; pose proof (repr_order _ _ _ R) as Ho.
  - apply Forall2_nil_inv_r in Ho. rewrite Ho. cbn [evict make_room]. rewrite Hr, Eb.
    exists c. split; [by case_decide|]. split; [by case_decide|]. by case_decide.
  - destruct (order c) as [|[h k] ord] eqn:Eo; [by apply Forall2_nil_cons_inv in Ho|].
    cbn [evict make_room]. rewrite Hr, Eb. case_decide as Hd.
    + destruct (evict_one_queue b c h k ord he q R Eo) as (c1 & -> & R1 & O1 & S1). cbn [mbind option_bind].
      rewrite <- O1. destruct (IH c1 R1 Hn) as (c2 & -> & R2 & S2). exists c2. split; [done|]. split; [done|].
      rewrite S2, S1. cbn [length]. destruct (make_room_suffix b need q) as [n ->]. rewrite length_drop.
      replace (S (length q) - (length q - n)) with (S (length q - (length q - n))) by lia.
      by rewrite Nat.iter_succ_r.
    + exists c. split; [done|]. split; [done|]. by rewrite Nat.sub_diag.
Qed.

Lemma live_slot b c q k : repr b c q -> k ∈ map snd (order c) ->
  exists x, entries c !! k = Some (Some x).
Proof.
  intros R (hk & -> & Hin)%list_elem_of_fmap. apply list_elem_of_lookup in Hin as [i Hi].
  destruct (Forall2_lookup_l _ _ _ _ _ (repr_order _ _ _ R) Hi) as (he & _ & _ & E). by eexists.
Qed.

(** The slot a new entry takes: free or fresh, and no longer free. *)
Lemma take_slot_queue b c q e : repr b c q ->
  exists index slots free', take_slot e c = Some (index, slots, free') /\
    slots !! index = Some (Some e) /\ (forall j, j <> index -> slots !! j = entries c !! j) /\
    ~ index ∈ map snd (order c) /\ NoDup free' /\ (forall j, j ∈ free' <-> j ∈ free c /\ j <> index).
Proof.
  intros R. destruct (repr_free _ _ _ R) as [Hnd Hf]. unfold take_slot.
  pose proof (fun j => live_slot b c q j R) as Hlive.
  destruct (last (free c)) as [index|] eqn:El.
  - apply last_Some in El as [l El]. rewrite El in *.
    assert (entries c !! index = Some None) as Ei by (apply Hf, elem_of_app; right; by left).
    rewrite Ei. cbn [mbind option_bind]. do 3 eexists. split; [reflexivity|]. rewrite removelast_last.
    apply NoDup_app in Hnd as (Hl & Hdis & _). split_and!.
    + apply list_lookup_insert_eq. by eapply lookup_lt_Some.
    + intros j Hne. by apply list_lookup_insert_ne.
    + intros [x Ex]%Hlive. congruence.
    + done.
    + intros j. rewrite elem_of_app, list_elem_of_singleton. split.
      * intros Hj. split; [by left|]. intros ->. apply (Hdis index Hj). by left.
      * tauto.
  - apply last_None in El. rewrite El in *. do 3 eexists. split; [reflexivity|]. split_and!.
    + rewrite lookup_app_r, Nat.sub_diag by lia. done.
    + intros j Hne. destruct (decide (j < length (entries c))); [by apply lookup_app_l|].
      rewrite (lookup_ge_None_2 (entries c)), lookup_ge_None_2; [done|rewrite length_app; cbn; lia|lia].
    + intros [x Ex%lookup_lt_Some]%Hlive. lia.
    + constructor.
    + intros j. split; [by intros ?%not_elem_of_nil|]. tauto.
Qed.

Lemma push_queue b c q h e held s : repr b c q -> entry_fits e ->
  (queue_bytes q + exact_cost e <= b)%Z -> held = (queue_bytes q + exact_cost e)%Z ->
  exists index slots free', take_slot e c = Some (index, slots, free') /\
    repr b (MkCache (budget c) held (<[h := default [] (by_hash c !! h) ++ [index]]> (by_hash c))
              slots (order c ++ [(h, index)]) free' s) (q ++ [(h, e)]).
Proof.
  intros R He Hb ->. destruct (take_slot_queue b c q e R)
    as (index & slots & free' & E & Hi & Hj & Hn & Hnd & Hf).
  exists index, slots, free'. split; [done|].
  destruct R as [R1 RM R2 R3 R4 R5 [R6 R7] R8 R9 R10 R11].
  split; cbn [budget order entries by_hash free cached_bytes]; [done|done|..].
  - apply Forall2_app; [|by repeat constructor]. eapply slots_ext; [|exact R2].
    intros j Hin. apply Hj. by intros ->.
  - rewrite map_app. apply NoDup_app. split_and!; [done| |apply NoDup_singleton].
    cbn. by intros j Hin ->%list_elem_of_singleton.
  - intros g. rewrite filter_app, map_app, <- R4, filter_cons. cbn [fst].
    destruct (decide (h = g)) as [->|Hne]; [by rewrite lookup_insert_eq|].
    rewrite lookup_insert_ne by done. cbn. by rewrite app_nil_r.
  - intros g Eg. destruct (decide (h = g)) as [->|Hne].
    + rewrite lookup_insert_eq in Eg. injection Eg as Eg. by destruct (default _ _).
    + rewrite lookup_insert_ne in Eg by done. by eapply R5.
  - split; [done|]. intros j. rewrite Hf, R7. destruct (decide (j = index)) as [->|Hne].
    + rewrite Hi. split; [tauto|done].
    + rewrite Hj by done. tauto.
  - intros j x Ex. rewrite map_app. apply elem_of_app. destruct (decide (j = index)) as [->|Hne].
    + right. by left.
    + left. rewrite Hj in Ex by done. by eapply R8.
  - rewrite queue_bytes_app. cbn. lia.
  - rewrite queue_bytes_app. cbn. lia.
  - apply Forall_app. split; [done|]. by repeat constructor.
Qed.

(** No slot is lost: each is the place of a queued entry or free. *)
Lemma slots_partition b c q : repr b c q ->
  length (entries c) = length (order c) + length (free c).
Proof.
  intros R. destruct (repr_free _ _ _ R) as [Hnd Hf]. pose proof (repr_distinct _ _ _ R) as Hd.
  assert (seq 0 (length (entries c)) ≡ₚ map snd (order c) ++ free c) as HP.
  { apply NoDup_Permutation.
    - apply NoDup_seq.
    - apply NoDup_app. split_and!; [done| |done]. intros k (x & Ex)%(live_slot b c q k R) Hk.
      apply Hf in Hk. congruence.
    - intros k. rewrite elem_of_seq, elem_of_app. split.
      + intros [_ Hk]. destruct (lookup_lt_is_Some_2 (entries c) k) as [[e|] E]; [lia|..].
        * left. by apply (repr_live _ _ _ R k e).
        * right. by apply Hf.
      + intros [(x & Ex)%(live_slot b c q k R)|Hk%Hf]; split; try lia; by eapply lookup_lt_Some. }
  apply Permutation_length in HP. by rewrite length_seq, length_app, length_fmap in HP.
Qed.

(** The counters: every request hit or missed, every insert is still there or
    was evicted (modulo the width of the counters). *)
Record counted (s : InferenceCacheStatsV1) (n : nat) : Prop := MkCounted {
  counted_requests : requests s = wrap_u64 (hits s + misses s);
  counted_inserts : inserts s = wrap_u64 (evictions s + Z.of_nat n);
}.

Lemma wrap_inc_l x y : wrap_u64 (inc x + y) = inc (wrap_u64 (x + y)).
Proof.
  unfold inc, wrap_u64. rewrite !Z.add_mod_idemp_l by done. f_equal. lia.
Qed.

Lemma counted_eviction s n : counted s (S n) -> counted (note_eviction s) n.
Proof.
  intros [H1 H2]. split; cbn; [done|]. rewrite H2. unfold inc, wrap_u64.
  rewrite Z.add_mod_idemp_l by done. f_equal. lia.
Qed.
Lemma counted_evictions k : forall s n, counted s (k + n) -> counted (Nat.iter k note_eviction s) n.
Proof.
  induction k as [|k IH]; intros s n H; [done|]. rewrite Nat.iter_succ_r. apply IH.
  by apply counted_eviction.
Qed.
Lemma counted_insert x y s n : counted s n -> counted (note_insert x y s) (S n).
Proof.
  intros [H1 H2]. split; cbn; [done|]. rewrite H2. unfold inc, wrap_u64.
  rewrite Z.add_mod_idemp_l by done. f_equal. lia.
Qed.
Lemma counted_request key s n (b : bool) (same : bool) : counted s n ->
  counted ((if b then note_hit else note_miss same) (note_request key s)) n.
Proof.
  intros [H1 H2]. destruct b; split; cbn; try done; rewrite H1.
  - by rewrite wrap_inc_l.
  - by rewrite (Z.add_comm (hits s) (inc (misses s))), wrap_inc_l, (Z.add_comm (misses s)).
Qed.

(** The state of a cache: it holds this queue and its counters add up. *)
Definition holds (b : Z) (c : InferenceCacheV1) (q : queue) : Prop :=
  repr b c q /\ counted (stats c) (length q).

Lemma holds_new b : (0 <= b <= i64_max)%Z -> holds b (InferenceCacheV1_new b) [].
Proof. intros Hb. split; [by apply repr_new|by split]. Qed.

Lemma holds_get b c q hash key : holds b c q ->
  exists c', get hash key c = Some (queue_get hash key q, c') /\ holds b c' q.
Proof.
  intros [R C]. destruct (get_queue b c q hash key R) as (c' & E & R' & S & _). exists c'.
  split; [done|]. split; [done|]. rewrite S. destruct (queue_get hash key q).
  - by apply (counted_request key _ _ true false).
  - by apply (counted_request key _ _ false).
Qed.

Lemma holds_forward b c q : holds b c q -> holds b (count_forward c) q.
Proof. intros [R [C1 C2]]. split; [by apply repr_stats|by split]. Qed.

Lemma holds_insert b c q hash key logits value :
  holds b c q -> entry_fits (MkEntry key logits value) ->
  exists c', insert hash key logits value c = Some c' /\
    holds b c' (queue_insert b hash (MkEntry key logits value) q).
Proof.
  intros [R C] He. unfold insert. rewrite cost_exact by done. rewrite (repr_budget _ _ _ R).
  unfold queue_insert. case_decide as Hd.
  { eexists. split; [reflexivity|]. split; [by apply repr_stats|]. destruct C as [C1 C2]. by split. }
  set (e := MkEntry key logits value) in *. pose proof (exact_cost_pos e).
  destruct (evict_queue b (exact_cost e) q c R) as (c1 & -> & R1 & S1); [lia|]. cbn [mbind option_bind].
  pose proof (make_room_fits b (exact_cost e) q) as Hfit.
  assert (counted (stats c1) (length (make_room b (exact_cost e) q))) as C1.
  { rewrite S1. apply counted_evictions. destruct (make_room_suffix b (exact_cost e) q) as [n ->].
    rewrite length_drop. by replace (length q - (length q - n) + (length q - n)) with (length q) by lia. }
  set (q1 := make_room b (exact_cost e) q) in *.
  rewrite (room_test b c1 q1 (exact_cost e) R1) by lia.
  destruct (take_slot_queue b c1 q1 e R1) as (index & slots & free' & E & _).
  destruct (push_queue b c1 q1 hash e (queue_bytes q1 + exact_cost e)
    (note_insert (queue_bytes q1 + exact_cost e)
       (Z.of_nat (length (order c1 ++ [(hash, index)]))) (stats c1)) R1 He)
    as (index' & slots' & free'' & E' & R2); [lia|reflexivity|].
  rewrite E in *. injection E' as <- <- <-. cbn [mbind option_bind]. eexists. split; [reflexivity|].
  split; [exact R2|]. cbn [stats]. rewrite (length_app q1), Nat.add_comm. by apply counted_insert.
Qed.

(* ------------------------------------------------------------------ *)
(** ** Runs *)

Inductive cache_call :=
  | CallGet (hash : Z) (key : bytes)
  | CallInsert (hash : Z) (key : bytes) (logits : list Z) (value : Z)
  | CallForward
  | CallReset.

(** The calls on a cache, with what each [get] returned. *)
Fixpoint run_cache (calls : list cache_call) (c : InferenceCacheV1)
  : option (list (option (list Z * Z)) * InferenceCacheV1) :=
  match calls with
  | [] => Some ([], c)
  | CallGet hash key :: calls =>
      '(found, c) ← get hash key c;
      '(answers, c) ← run_cache calls c;
      Some (found :: answers, c)
  | CallInsert hash key logits value :: calls => c ← insert hash key logits value c; run_cache calls c
  | CallForward :: calls => run_cache calls (count_forward c)
  | CallReset :: calls => run_cache calls (reset c)
  end.

(** The same calls on the queue. *)
Fixpoint run_queue (b : Z) (calls : list cache_call) (q : queue)
  : list (option (list Z * Z)) * queue :=
  match calls with
  | [] => ([], q)
  | CallGet hash key :: calls =>
      let (answers, q') := run_queue b calls q in (queue_get hash key q :: answers, q')
  | CallInsert hash key logits value :: calls =>
      run_queue b calls (queue_insert b hash (MkEntry key logits value) q)
  | CallForward :: calls => run_queue b calls q
  | CallReset :: calls => run_queue b calls []
  end.

Definition call_fits (call : cache_call) : Prop :=
  match call with
  | CallInsert _ key logits value => entry_fits (MkEntry key logits value)
  | _ => True
  end.

Lemma run_cache_queue b : forall calls c q, Forall call_fits calls -> holds b c q ->
  exists c', run_cache calls c = Some (fst (run_queue b calls q), c') /\
    holds b c' (snd (run_queue b calls q)).
Proof.
  induction calls as [|call calls IH]; intros c q Hf H; [by exists c|].
  apply Forall_cons in Hf as [Hc Hf]. destruct call as [hash key|hash key logits value| |];
    cbn [run_cache run_queue].
  - destruct (holds_get b c q hash key H) as (c1 & -> & H1). cbn [mbind option_bind].
    destruct (IH c1 q Hf H1) as (c2 & -> & H2). cbn [mbind option_bind].
    destruct (run_queue b calls q) as [answers q']. by exists c2.
  - destruct (holds_insert b c q hash key logits value H Hc) as (c1 & -> & H1). cbn [mbind option_bind].
    by apply IH.
  - apply IH; [done|]. by apply holds_forward.
  - apply IH; [done|]. unfold reset. destruct H as [R _]. rewrite (repr_budget _ _ _ R).
    apply holds_new. pose proof (repr_machine _ _ _ R). pose proof (repr_within _ _ _ R).
    pose proof (queue_bytes_nonneg q). lia.
Qed.

(** Forwards of several models through one shared cache. *)
Section Forwards.
Context {E Model : Type} (digest : Model -> bytes)
  (forward : Model -> ForwardPathV1 -> ForwardActivationModeV1 -> NativeEncodedDecisionViewV1 ->
             result E (list Z * Z)).

Record forward_request := MkRequest {
  req_model : Model;
  req_path : ForwardPathV1;
  req_mode : ForwardActivationModeV1;
  req_view : NativeEncodedDecisionViewV1;
}.

Definition answer (r : forward_request) : result E (list Z * Z) :=
  forward (req_model r) (req_path r) (req_mode r) (req_view r).

Definition request_key (r : forward_request) : bytes :=
  write_key_v1 (digest (req_model r)) (req_path r) (req_mode r) (req_view r).

(** The request has machine types and its answer fits in memory. *)
Definition request_ok (r : forward_request) : Prop :=
  view_ok (req_path r) (req_view r) /\
  forall logits value, answer r = Ok (logits, value) ->
    entry_fits (MkEntry (request_key r) logits value).

Fixpoint run_forwards (requests : list forward_request) (c : InferenceCacheV1)
  : option (list (result E (list Z * Z)) * InferenceCacheV1) :=
  match requests with
  | [] => Some ([], c)
  | r :: requests =>
      '(scores, c) ← cached_forward_v1 (forward (req_model r)) (digest (req_model r))
                       (req_path r) (req_mode r) (req_view r) c;
      '(answers, c) ← run_forwards requests c;
      Some (scores :: answers, c)
  end.

(** What a queue of genuine answers holds. *)
Definition genuine (q : queue) : Prop :=
  Forall (fun he => exists r, request_ok r /\ fst he = hash_v1 (request_key r) /\
    entry_key (snd he) = request_key r /\
    answer r = Ok (entry_logits (snd he), entry_value (snd he))) q.

Lemma genuine_insert b r logits value q :
  genuine q -> request_ok r -> answer r = Ok (logits, value) ->
  genuine (queue_insert b (hash_v1 (request_key r)) (MkEntry (request_key r) logits value) q).
Proof.
  intros H Hr Ha. unfold queue_insert. case_decide; [done|]. apply Forall_app. split.
  - destruct (make_room_suffix b (exact_cost (MkEntry (request_key r) logits value)) q) as [n ->].
    by apply Forall_drop.
  - repeat constructor. by exists r.
Qed.

Lemma cached_forward_step b c q r :
  (forall m m', digest m = digest m' -> m = m') -> (forall m, length (digest m) = 32) ->
  holds b c q -> genuine q -> request_ok r ->
  exists c' q', cached_forward_v1 (forward (req_model r)) (digest (req_model r))
      (req_path r) (req_mode r) (req_view r) c = Some (answer r, c') /\ holds b c' q' /\ genuine q'.
Proof.
  intros Hinj H32 H Hg Hr. unfold cached_forward_v1. fold (request_key r).
  destruct (holds_get b c q (hash_v1 (request_key r)) (request_key r) H) as (c1 & -> & H1).
  cbn [mbind option_bind]. unfold queue_get.
  destruct (list_find _ q) as [[i he]|] eqn:Ef; cbn [fmap option_fmap].
  - apply list_find_Some in Ef as (Hi & [_ Ek] & _). cbn [option_map]. exists c1, q.
    split; [|done]. do 2 f_equal. apply list_elem_of_lookup_2 in Hi.
    destruct (proj1 (Forall_forall _ _) Hg he Hi) as (r' & [V' _] & _ & Ek' & Ea').
    rewrite Ek' in Ek. apply write_key_inj in Ek as (Em & Ep & Eo & Ev); [|by rewrite !H32|exact V'|apply Hr].
    change (Ok (entry_logits (snd he), entry_value (snd he)) = answer r). rewrite <- Ea'. unfold answer. rewrite (Hinj _ _ Em), Ep, Eo, Ev. done.
  - cbn [option_map]. pose proof (holds_forward b c1 q H1) as H2. fold (answer r).
    destruct (answer r) as [[logits value]|e] eqn:Ea; [|by exists (count_forward c1), q].
    destruct (storable logits value); cbn [mbind option_bind]; [|by exists (count_forward c1), q].
    destruct (holds_insert b (count_forward c1) q (hash_v1 (request_key r)) (request_key r) logits value H2)
      as (c3 & -> & H3); [by apply Hr|]. cbn [mbind option_bind].
    do 2 eexists. split; [reflexivity|]. split; [exact H3|]. by apply genuine_insert.
Qed.
End Forwards.

(* ------------------------------------------------------------------ *)
(** ** Properties *)

(** C9: every sequence of lookups, insertions, forward counts and resets on a
    fresh cache runs without a panic, returns exactly what a plain queue of
    entries returns that finds the oldest entry with the same hash and key and
    drops its oldest entries to make room, and leaves a cache that holds that
    queue, counts its bytes and stays within the budget; the counters add
    up: requests are hits plus misses, inserts are entries plus evictions. *)
Theorem cache_refines_queue (b : Z) (calls : list cache_call) :
  (0 <= b <= i64_max)%Z -> Forall call_fits calls ->
  exists c, run_cache calls (InferenceCacheV1_new b) = Some (fst (run_queue b calls []), c) /\
    let q := snd (run_queue b calls []) in
    cached_bytes c = queue_bytes q /\ (cached_bytes c <= b)%Z /\
    length (order c) = length q /\ length (entries c) = length (order c) + length (free c) /\
    requests (stats c) = wrap_u64 (hits (stats c) + misses (stats c)) /\
    inserts (stats c) = wrap_u64 (evictions (stats c) + Z.of_nat (length q)).
Proof.
  intros Hb Hf. destruct (run_cache_queue b calls _ [] Hf (holds_new b Hb)) as (c & E & R & C).
  exists c. split; [exact E|]. cbn zeta. pose proof (Forall2_length _ _ _ (repr_order _ _ _ R)) as Ho.
  split_and!; [apply R| |done|exact (slots_partition b c _ R)|apply C|apply C].
  rewrite (repr_bytes _ _ _ R). apply R.
Qed.

(** C8: forwards of any models through one shared cache answer what the models
    themselves answer, errors included, whatever was cached before: no
    collision, eviction or reuse of a slot can return another input's scores. The
    cache is keyed by a digest of the model that tells models apart, a forward
    depends on its declared inputs only, and a view carries a pairing relation only
    on the FlatV8 path. *)
Theorem cached_forwards_are_transparent {E Model : Type} (digest : Model -> bytes)
    (forward : Model -> ForwardPathV1 -> ForwardActivationModeV1 -> NativeEncodedDecisionViewV1 ->
               result E (list Z * Z)) (b : Z) (requests : list (forward_request (Model := Model))) :
  (forall m m', digest m = digest m' -> m = m') -> (forall m, length (digest m) = 32) ->
  (0 <= b <= i64_max)%Z -> Forall (request_ok digest forward) requests ->
  exists c, run_forwards digest forward requests (InferenceCacheV1_new b)
            = Some (map (answer forward) requests, c) /\ (cached_bytes c <= b)%Z.
Proof.
  intros Hinj H32 Hb Hr.
  assert (forall c q, holds b c q -> genuine digest forward q -> exists c' q',
    run_forwards digest forward requests c = Some (map (answer forward) requests, c') /\ holds b c' q') as K.
  { induction Hr as [|r requests Hr _ IH]; intros c q H Hg; [by exists c, q|].
    destruct (cached_forward_step digest forward b c q r Hinj H32 H Hg Hr) as (c1 & q1 & E1 & H1 & Hg1).
    destruct (IH c1 q1 H1 Hg1) as (c2 & q2 & E2 & H2). exists c2, q2.
    cbn [run_forwards]. rewrite E1. cbn [mbind option_bind]. by rewrite E2. }
  destruct (K _ [] (holds_new b Hb)) as (c & q & E1 & [R _]); [constructor|].
  exists c. split; [exact E1|]. rewrite (repr_bytes _ _ _ R). apply R.
Qed.

(* ------------------------------------------------------------------ *)
(** ** Witnesses *)

(** Two colliding keys in a budget for two entries, then a third. *)
Definition sample_calls : list cache_call :=
  [CallInsert 7 [1] [10; 11] 12; CallInsert 7 [2] [20; 21] 22; CallGet 7 [2];
   CallInsert 9 [3] [30; 31] 32; CallGet 7 [1]; CallGet 7 [2]]%Z.

Lemma cache_refines_queue_witness :
  exists c, run_cache sample_calls (InferenceCacheV1_new 280) =
    Some ([Some ([20; 21], 22); None; Some ([20; 21], 22)]%Z, c) /\ (cached_bytes c <= 280)%Z.
Proof.
  assert (0 <= 280 <= i64_max)%Z as Hb by (unfold i64_max; lia).
  assert (Forall call_fits sample_calls) as Hf.
  { repeat constructor; vm_compute; discriminate. }
  destruct (cache_refines_queue 280 sample_calls Hb Hf) as (c & E & _ & Hle & _).
  exists c. split; [exact E|exact Hle].
Defined.

Definition sample_schema : NativeEncodedDecisionSchemaV1 :=
  MkSchema [49]%Z [50]%Z [51]%Z [52]%Z 1 0 0 0 0 0.
Definition sample_view (x : Z) : NativeEncodedDecisionViewV1 :=
  MkView sample_schema [x] [] [] [] [] [] [] [] [] [] [] [] [] [].
Definition sample_digest (m : bool) : bytes := replicate 32 (if m then 1%Z else 0%Z).
Definition sample_forward (m : bool) (path : ForwardPathV1) (mode : ForwardActivationModeV1)
    (v : NativeEncodedDecisionViewV1) : result unit (list Z * Z) :=
  match view_state v with
  | [x] => Ok ([x; if m then 1 else 2]%Z, 0%Z)
  | _ => Err ()
  end.
Definition sample_requests : list (forward_request (Model := bool)) :=
  [MkRequest true Flat LibmTanh (sample_view 5); MkRequest false Flat LibmTanh (sample_view 5);
   MkRequest true Flat LibmTanh (sample_view 5)].

Lemma sample_view_ok x : (0 <= x < 4294967296)%Z -> view_ok Flat (sample_view x).
Proof.
  intros Hx. split; cbn; unfold floats_ok, integers_ok, slice_ok, short, usize, in_window, u64_max.
  - cbn. lia.
  - lia.
  - split_and!; try (by cbn; lia); try constructor; try constructor.
    all: change (256 ^ Z.of_nat 4)%Z with 4294967296%Z; lia.
  - split_and!; try (by cbn; lia); constructor.
  - done.
Qed.

Lemma cached_forwards_are_transparent_witness :
  exists c, run_forwards sample_digest sample_forward sample_requests (InferenceCacheV1_new 4096) =
    Some ([Ok ([5; 1], 0); Ok ([5; 2], 0); Ok ([5; 1], 0)]%Z, c) /\ (cached_bytes c <= 4096)%Z.
Proof.
  assert (0 <= 4096 <= i64_max)%Z as Hb by (unfold i64_max; lia).
  assert (forall m m', sample_digest m = sample_digest m' -> m = m') as Hd by (intros [] []; done).
  assert (forall m, length (sample_digest m) = 32) as H32 by (intros []; reflexivity).
  assert (Forall (request_ok sample_digest sample_forward) sample_requests) as Hr.
  { assert (forall m, request_ok sample_digest sample_forward (MkRequest m Flat LibmTanh (sample_view 5)))
      as K; [|by repeat (apply Forall_cons; split; [apply K|])].
    intros m. split; [apply sample_view_ok; lia|]. intros logits value E. injection E as <- <-.
    destruct m; vm_compute; discriminate. }
  destruct (cached_forwards_are_transparent sample_digest sample_forward 4096 sample_requests Hd H32 Hb Hr)
    as (c & E & Hle).
  exists c. split; [exact E|exact Hle].
Defined.
