(* ===== verification/Staleness.v ===== *)
(** * Bounded-staleness training (src/mtg-kernel/src/bounded_staleness_async_v1.rs)

    A producer thread scores episode batches with the weights the trainer last
    published, at most [max_staleness_updates] updates behind the update they
    will train. The threads meet in two mutexes: the scheduler state and the queue
    of ready batches; a step below is one critical section, so that every
    interleaving of the threads is a sequence of steps. The ledger belongs to
    the consumer. Weights and batches are arbitrary types and the caller's
    [produce] is an arbitrary function of the call's number and arguments. *)

From S2P Require Import Prelude Bytes.

(** ** Execution modes *)

Inductive TrainingExecutionModeV1 :=
  | SynchronousV1
  | BoundedStalenessAsyncV1 (max_staleness_updates : Z).

Definition default_mode : TrainingExecutionModeV1 := SynchronousV1.

Inductive TrainingExecutionModeValidationErrorV1 := ZeroStalenessBound.

Definition validate_v1 (mode : TrainingExecutionModeV1)
  : result TrainingExecutionModeValidationErrorV1 () :=
  match mode with
  | SynchronousV1 => Ok ()
  | BoundedStalenessAsyncV1 k => if decide (k = 0)%Z then Err ZeroStalenessBound else Ok ()
  end.

Definition is_synchronous_v1 (mode : TrainingExecutionModeV1) : bool :=
  match mode with SynchronousV1 => true | _ => false end.

Definition max_staleness_updates_v1 (mode : TrainingExecutionModeV1) : option Z :=
  match mode with SynchronousV1 => None | BoundedStalenessAsyncV1 k => Some k end.

(** ** The ledger *)

Record StalenessLedgerEntryV1 := MkLedgerEntry {
  episode_id : Z;
  scoring_weight_version : Z;
  consuming_update_version : Z;
}.

Definition saturating_sub (a b : Z) : Z := Z.max 0 (a - b).

Definition staleness_v1 (e : StalenessLedgerEntryV1) : Z :=
  saturating_sub (consuming_update_version e) (scoring_weight_version e).

Record StalenessBoundViolationV1 := MkViolation {
  violating_entry : StalenessLedgerEntryV1;
  violated_bound : Z;
}.

Definition check_staleness_bound_v1 (entry : StalenessLedgerEntryV1) (max_staleness_updates : Z)
  : result StalenessBoundViolationV1 () :=
  let violates_causality := (consuming_update_version entry <? scoring_weight_version entry)%Z in
  let violates_bound := (max_staleness_updates <? staleness_v1 entry)%Z in
  if violates_causality || violates_bound then Err (MkViolation entry max_staleness_updates) else Ok ().

Definition StalenessLedgerV1 := list StalenessLedgerEntryV1.

Definition record_v1 (ledger : StalenessLedgerV1) (entry : StalenessLedgerEntryV1) (k : Z)
  : result StalenessBoundViolationV1 () * StalenessLedgerV1 :=
  (check_staleness_bound_v1 entry k, ledger ++ [entry]).

Definition max_observed_staleness_v1 (ledger : StalenessLedgerV1) : option Z :=
  foldr (fun e acc => Some (match acc with None => staleness_v1 e | Some m => Z.max (staleness_v1 e) m end))
    None ledger.

Definition enforce_all_v1 (ledger : StalenessLedgerV1) (k : Z) : result StalenessBoundViolationV1 () :=
  try_fold (fun _ entry => check_staleness_bound_v1 entry k) () ledger.

(** ** The scheduler *)

Record BoundedStalenessConsumedBatchV1 (B : Type) := MkConsumed {
  consumed_batch : B;
  consumed_update : Z;
  consumed_scoring : Z;
}.
Arguments MkConsumed {B}.
Arguments consumed_batch {B} _.
Arguments consumed_update {B} _.
Arguments consumed_scoring {B} _.

Inductive BoundedStalenessConsumeErrorV1 :=
  | Timeout
  | BoundViolation (v : StalenessBoundViolationV1)
  | ProducerEnded.

Record SchedulerStateV1 (W : Type) := MkShared {
  published_version : Z;
  published_weights : W;
  next_dispatch_update : Z;
  stopped : bool;
}.
Arguments MkShared {W}.
Arguments published_version {W} _.
Arguments published_weights {W} _.
Arguments next_dispatch_update {W} _.
Arguments stopped {W} _.

Record ReadyBatchV1 (B : Type) := MkReady {
  ready_update : Z;
  ready_scoring : Z;
  ready_batch : B;
  episode_ids : list Z;
}.
Arguments MkReady {B}.
Arguments ready_update {B} _.
Arguments ready_scoring {B} _.
Arguments ready_batch {B} _.
Arguments episode_ids {B} _.

(** Where the producer thread is: at the top of its loop with so many batches
    left, producing a dispatched batch, or returned. *)
Inductive Worker (W : Type) :=
  | Dispatching (left_ : nat)
  | Producing (left_ : nat) (target scoring : Z) (weights : W)
  | Ended.
Arguments Dispatching {W}.
Arguments Producing {W}.
Arguments Ended {W}.

Record BoundedStalenessSchedulerV1 (W B : Type) := MkScheduler {
  shared : SchedulerStateV1 W;
  ready : list (ReadyBatchV1 B);
  ledger : StalenessLedgerV1;
  scheduler_bound : Z;
  worker : Worker W;
}.
Arguments MkScheduler {W B}.
Arguments shared {W B} _.
Arguments ready {W B} _.
Arguments ledger {W B} _.
Arguments scheduler_bound {W B} _.
Arguments worker {W B} _.

Section Scheduler.
Context {W B : Type} (produce : nat -> Z -> Z -> W -> B * list Z).
Implicit Types s : BoundedStalenessSchedulerV1 W B.

(** [for _ in 0..total_updates] *)
Definition loop_top (left_ : nat) : Worker W :=
  match left_ with O => Ended | _ => Dispatching left_ end.

(** [None] is the panic of the assertion. *)
Definition spawn_v1 (initial_weights : W) (max_staleness_updates : Z) (total_updates : nat)
  : option (BoundedStalenessSchedulerV1 W B) :=
  if decide (1 <= max_staleness_updates)%Z then
    Some (MkScheduler (MkShared 0 initial_weights 1 false) [] [] max_staleness_updates
            (loop_top total_updates))
  else None.

(** The producer's critical section on the state: return when stopped, dispatch
    when the bound allows it, otherwise wait for the condition variable. *)
Definition dispatch s : option (BoundedStalenessSchedulerV1 W B) :=
  match worker s with
  | Dispatching left_ =>
      let guard := shared s in
      if stopped guard then
        Some (MkScheduler guard (ready s) (ledger s) (scheduler_bound s) Ended)
      else
        let target_update := next_dispatch_update guard in
        let staleness_if_dispatched_now := saturating_sub target_update (published_version guard) in
        if decide (staleness_if_dispatched_now <= scheduler_bound s)%Z then
          Some (MkScheduler
                  (MkShared (published_version guard) (published_weights guard)
                     (wrap_u64 (target_update + 1)) (stopped guard))
                  (ready s) (ledger s) (scheduler_bound s)
                  (Producing left_ target_update (published_version guard) (published_weights guard)))
        else None
  | _ => None
  end.

(** [produce] returns and its batch is pushed. *)
Definition deliver (call : nat) s : option (BoundedStalenessSchedulerV1 W B) :=
  match worker s with
  | Producing left_ target scoring weights =>
      let (batch, episode_ids) := produce call target scoring weights in
      Some (MkScheduler (shared s) (ready s ++ [MkReady target scoring batch episode_ids])
              (ledger s) (scheduler_bound s) (loop_top (pred left_)))
  | _ => None
  end.

(** [produce] panics: the thread ends. *)
Definition crash s : option (BoundedStalenessSchedulerV1 W B) :=
  match worker s with
  | Producing _ _ _ _ =>
      Some (MkScheduler (shared s) (ready s) (ledger s) (scheduler_bound s) Ended)
  | _ => None
  end.

Definition publish_v1 (updates_completed : Z) (weights : W) s : BoundedStalenessSchedulerV1 W B :=
  MkScheduler
    (MkShared updates_completed weights (next_dispatch_update (shared s)) (stopped (shared s)))
    (ready s) (ledger s) (scheduler_bound s) (worker s).

Definition is_finished s : bool := match worker s with Ended => true | _ => false end.

(** Every episode of the batch is recorded; the first violation is reported. *)
Definition record_batch (k : Z) (b : ReadyBatchV1 B) (ledger : StalenessLedgerV1)
  : option StalenessBoundViolationV1 * StalenessLedgerV1 :=
  foldl (fun '(first_violation, ledger) id =>
    let (outcome, ledger) :=
      record_v1 ledger (MkLedgerEntry id (ready_scoring b) (ready_update b)) k in
    (match first_violation, outcome with
     | None, Err v => Some v
     | _, _ => first_violation
     end, ledger)) (None, ledger) (episode_ids b).

(** The wait ends with a batch or, by the timeout, with an empty queue. *)
Definition next_batch_v1 s
  : result BoundedStalenessConsumeErrorV1 (BoundedStalenessConsumedBatchV1 B)
    * BoundedStalenessSchedulerV1 W B :=
  match ready s with
  | [] => (Err (if is_finished s then ProducerEnded else Timeout), s)
  | b :: queue =>
      let (violation, ledger) := record_batch (scheduler_bound s) b (ledger s) in
      let s := MkScheduler (shared s) queue ledger (scheduler_bound s) (worker s) in
      (match violation with
       | Some v => Err (BoundViolation v)
       | None => Ok (MkConsumed (ready_batch b) (ready_update b) (ready_scoring b))
       end, s)
  end.

Definition ledger_snapshot_v1 s : StalenessLedgerV1 := ledger s.

(** [stop_and_join_v1] and [drop] until the join. *)
Definition stop s : BoundedStalenessSchedulerV1 W B :=
  MkScheduler
    (MkShared (published_version (shared s)) (published_weights (shared s))
       (next_dispatch_update (shared s)) true)
    (ready s) (ledger s) (scheduler_bound s) (worker s).
End Scheduler.
