(* ===== verification/StalenessFacts.v ===== *)
(** * Every interleaving keeps the staleness bound

    A run is a sequence of atomic actions of the producer thread and of the
    trainer. In every run the batches are taken in the order of their updates, each
    scored by weights that were published together with the version it names
    and not more than the bound behind. A trainer that publishes no more updates
    than it took batches never sees a violation, and the two threads never wait
    for each other. *)

From S2P Require Import Prelude Bytes Staleness.

(* ------------------------------------------------------------------ *)
(** ** The ledger *)

(** Admissible: not from the future, and within the bound. *)
Definition within (k update scoring : Z) : Prop := (scoring <= update <= scoring + k)%Z.

Lemma check_staleness_exact e k : (0 <= k)%Z ->
  check_staleness_bound_v1 e k =
  if decide (scoring_weight_version e <= consuming_update_version e <= scoring_weight_version e + k)%Z
  then Ok () else Err (MkViolation e k).
Proof.
  intros Hk. unfold check_staleness_bound_v1, staleness_v1, saturating_sub.
  case_decide as H; [rewrite (proj2 (Z.ltb_ge _ _)), (proj2 (Z.ltb_ge _ _)) by lia; done|].
  destruct (Z.ltb_spec (consuming_update_version e) (scoring_weight_version e)); [done|].
  rewrite (proj2 (Z.ltb_lt _ _)) by lia. done.
Qed.

Lemma enforce_all_exact k l : (0 <= k)%Z ->
  Forall (fun e => scoring_weight_version e < consuming_update_version e
                   <= scoring_weight_version e + k)%Z l ->
  enforce_all_v1 l k = Ok ().
Proof.
  intros Hk. unfold enforce_all_v1. induction 1 as [|e l He Hl IH]; [done|]. cbn.
  rewrite check_staleness_exact by done. case_decide as Hd; [done|]. exfalso. apply Hd. lia.
Qed.

Lemma record_batch_ledger {B} k (b : ReadyBatchV1 B) l :
  snd (record_batch k b l) =
  l ++ map (fun id => MkLedgerEntry id (ready_scoring b) (ready_update b)) (episode_ids b).
Proof.
  unfold record_batch. generalize (@None StalenessBoundViolationV1) as v. revert l.
  induction (episode_ids b) as [|id ids IH]; intros l v; cbn; [by rewrite app_nil_r|].
  rewrite IH. by rewrite <- app_assoc.
Qed.

(** A batch is reported exactly when it breaks the bound and names an episode. *)
Lemma record_batch_outcome {B} k (b : ReadyBatchV1 B) l : (0 <= k)%Z ->
  fst (record_batch k b l) =
  if decide (within k (ready_update b) (ready_scoring b)) then None
  else (fun id => MkViolation (MkLedgerEntry id (ready_scoring b) (ready_update b)) k)
         <$> head (episode_ids b).
Proof.
  intros Hk. unfold record_batch, within.
  assert (forall ids l v, fst (foldl (fun '(first_violation, ledger) id =>
    let (outcome, ledger) := record_v1 ledger (MkLedgerEntry id (ready_scoring b) (ready_update b)) k in
    (match first_violation, outcome with None, Err v => Some v | _, _ => first_violation end, ledger))
    (v, l) ids) = match v with
                  | Some v => Some v
                  | None => if decide (ready_scoring b <= ready_update b <= ready_scoring b + k)%Z then None
                            else (fun id => MkViolation (MkLedgerEntry id (ready_scoring b) (ready_update b)) k)
                                   <$> head ids
                  end) as K; [|by rewrite K].
  induction ids as [|id ids IH]; intros l0 v; cbn [foldl head fmap option_fmap option_map].
  { destruct v; cbn; [done|]. by case_decide. }
  unfold record_v1 at 2. rewrite check_staleness_exact by done. cbn [scoring_weight_version consuming_update_version].
  rewrite IH. destruct v; [done|]. case_decide; done.
Qed.

(* ------------------------------------------------------------------ *)
(** ** Runs *)

Section Runs.
Context {W B : Type} (produce : nat -> Z -> Z -> W -> B * list Z).
Implicit Types s : BoundedStalenessSchedulerV1 W B.

Inductive action :=
  | Dispatch
  | Deliver (call : nat)
  | Crash
  | Publish (updates_completed : Z) (weights : W)
  | Next
  | Stop.

Abbreviation taken := (result BoundedStalenessConsumeErrorV1 (BoundedStalenessConsumedBatchV1 B)).

(** One action; [None] where the thread has to wait or has ended. *)
Definition act (a : action) s : option (list taken * BoundedStalenessSchedulerV1 W B) :=
  match a with
  | Dispatch => pair [] <$> dispatch s
  | Deliver call => pair [] <$> deliver produce call s
  | Crash => pair [] <$> crash s
  | Publish v w => Some ([], publish_v1 v w s)
  | Next => let (r, s) := next_batch_v1 s in Some ([r], s)
  | Stop => Some ([], stop s)
  end.

Fixpoint run (actions : list action) s : option (list taken * BoundedStalenessSchedulerV1 W B) :=
  match actions with
  | [] => Some ([], s)
  | a :: actions =>
      '(r, s) ← act a s;
      '(rs, s) ← run actions s;
      Some (r ++ rs, s)
  end.

(** A result that took a batch off the queue. *)
Definition takes_batch (r : taken) : bool :=
  match r with Err Timeout | Err ProducerEnded => false | _ => true end.

Definition batches (rs : list taken) : nat := length (filter (fun r => takes_batch r = true) rs).

(** The update a result took a batch of. *)
Definition update_taken (r : taken) : option Z :=
  match r with
  | Ok b => Some (consumed_update b)
  | Err (BoundViolation v) => Some (consuming_update_version (violating_entry v))
  | Err _ => None
  end.

Definition published (a : action) : list (Z * W) :=
  match a with Publish v w => [(v, w)] | _ => [] end.

(** The versions published up to now, with their weights. *)
Definition publications (w0 : W) (actions : list action) : list (Z * W) :=
  (0%Z, w0) :: flat_map published actions.

(** A trainer that has published no more updates than it has taken batches. *)
Fixpoint honest (c : nat) (actions : list action) s : Prop :=
  match actions with
  | [] => True
  | a :: actions =>
      match a with Publish v _ => (0 <= v <= Z.of_nat c)%Z | _ => True end /\
      match act a s with
      | Some (r, s) => honest (c + batches r) actions s
      | None => True
      end
  end.

(* ------------------------------------------------------------------ *)
(** ** The invariant *)

(** A batch in flight: its place in the sequence, its weights, its bound. *)
Record flight (k : Z) (hist : list (Z * W)) (update scoring : Z) (w : W) : Prop := MkFlight {
  flight_weights : (scoring, w) ∈ hist;
  flight_bound : (update <= scoring + k)%Z;
}.

Definition dispatched s (c : nat) : nat :=
  c + length (ready s) + match worker s with Producing _ _ _ _ => 1 | _ => 0 end.

(** After [c] batches taken, with [hist] published, of [total]. *)
Record inv (k : Z) (total : nat) (hist : list (Z * W)) (c : nat) s : Prop := MkInv {
  inv_bound : scheduler_bound s = k;
  inv_published : (published_version (shared s), published_weights (shared s)) ∈ hist;
  inv_ready : forall i b, ready s !! i = Some b ->
    ready_update b = Z.of_nat (c + i + 1) /\
    exists call w, flight k hist (ready_update b) (ready_scoring b) w /\
      (ready_batch b, episode_ids b) = produce call (ready_update b) (ready_scoring b) w;
  inv_worker : match worker s with
    | Dispatching l => 0 < l /\ dispatched s c + l = total
    | Producing l target scoring w => 0 < l /\ dispatched s c + l = S total /\
        target = Z.of_nat (dispatched s c) /\ flight k hist target scoring w
    | Ended => dispatched s c <= total
    end;
  inv_next : worker s <> Ended -> next_dispatch_update (shared s) = Z.of_nat (dispatched s c + 1);
}.

Lemma flight_more k hist update scoring w p : flight k hist update scoring w ->
  flight k (hist ++ p) update scoring w.
Proof. intros [H1 H2]. split; [apply elem_of_app; by left|done]. Qed.

Lemma spawn_shape w0 k total s : spawn_v1 w0 k total = Some s ->
  (1 <= k)%Z /\
  s = MkScheduler (MkShared 0 w0 1 false) [] [] k (loop_top total : Worker W) :> BoundedStalenessSchedulerV1 W B.
Proof. unfold spawn_v1. case_decide; [|done]. by intros [= <-]. Qed.

Lemma spawn_inv w0 k total s : spawn_v1 w0 k total = Some s -> inv k total [(0%Z, w0)] 0 s.
Proof.
  intros E. apply spawn_shape in E as [Hk ->]. split; cbn; try done.
  - by left.
  - unfold dispatched; destruct total; cbn; lia.
  - intros _. unfold dispatched. by destruct total.
Qed.

Lemma next_batch_inv k total hist c s r s' : (0 <= k)%Z -> inv k total hist c s ->
  next_batch_v1 s = (r, s') ->
  inv k total hist (c + (if takes_batch r then 1 else 0)) s' /\
  (takes_batch r = true -> update_taken r = Some (Z.of_nat (c + 1))) /\
  match r with
  | Ok b => exists call w, flight k hist (consumed_update b) (consumed_scoring b) w /\
      consumed_batch b = fst (produce call (consumed_update b) (consumed_scoring b) w) /\
      (within k (consumed_update b) (consumed_scoring b) \/
       snd (produce call (consumed_update b) (consumed_scoring b) w) = [])
  | Err (BoundViolation v) => (consuming_update_version (violating_entry v) <
                               scoring_weight_version (violating_entry v))%Z
  | Err _ => s' = s
  end.
Proof.
  intros Hk HI. pose proof HI as [I1 I2 I3 I4 I5]. unfold next_batch_v1. destruct (ready s) as [|b queue] eqn:Er.
  { intros [= <- <-]. assert (takes_batch (Err (if is_finished s then ProducerEnded else Timeout)) = false)
      as -> by (by destruct (is_finished s)).
    rewrite Nat.add_0_r. split; [exact HI|]. split; [done|]. by destruct (is_finished s). }
  rewrite I1. pose proof (record_batch_outcome k b (ledger s) Hk) as Ho.
  destruct (record_batch k b (ledger s)) as [violation l']. cbn in Ho. intros [= <- <-].
  destruct (I3 0 b) as (Eu & call & w & Hf & Ep); [first [done | by rewrite Er]|]. rewrite Nat.add_0_r in Eu.
  assert (takes_batch (match violation with
    | Some v => Err (BoundViolation v)
    | None => Ok (MkConsumed (ready_batch b) (ready_update b) (ready_scoring b)) end) = true) as ->
    by (by destruct violation).
  assert (forall s', ready s' = queue -> worker s' = worker s -> dispatched s' (c + 1) = dispatched s c) as Hd.
  { intros s' E1 E2. unfold dispatched. rewrite E1, E2, Er. cbn. lia. }
  split; [|split].
  - split; cbn [scheduler_bound shared ready worker]; [done|done| | |].
    + intros i b' Hb'. destruct (I3 (S i) b') as (E & K); [first [done | by rewrite Er]|]. split; [lia|done].
    + destruct (worker s); rewrite Hd; done.
    + rewrite Hd by done. done.
  - intros _. destruct violation as [v|]; cbn; [|by rewrite Eu].
    revert Ho. case_decide; [done|]. destruct (episode_ids b); [done|]. intros [= ->]. cbn. by rewrite Eu.
  - destruct violation as [v|].
    + revert Ho. case_decide as Hw; [done|]. destruct (episode_ids b) eqn:Ei; [done|]. intros [= ->]. cbn.
      destruct Hf as [_ Hb]. unfold within in Hw. lia.
    + exists call, w. cbn. rewrite <- Ep. split; [done|]. split; [done|]. cbn.
      revert Ho. case_decide; [by left|]. destruct (episode_ids b); [by right|done].
Qed.

(** The state a dispatch leaves. *)
Lemma dispatch_step s s' : dispatch s = Some s' ->
  exists l, worker s = Dispatching l /\ ready s' = ready s /\ ledger s' = ledger s /\
    scheduler_bound s' = scheduler_bound s /\
    published_version (shared s') = published_version (shared s) /\
    published_weights (shared s') = published_weights (shared s) /\
    ((worker s' = Ended /\ shared s' = shared s) \/
     worker s' = Producing l (next_dispatch_update (shared s)) (published_version (shared s))
                   (published_weights (shared s)) /\
     next_dispatch_update (shared s') = wrap_u64 (next_dispatch_update (shared s) + 1) /\
     (next_dispatch_update (shared s) <= published_version (shared s) + scheduler_bound s \/
      scheduler_bound s < 0)%Z).
Proof.
  unfold dispatch. destruct (worker s) as [l| |] eqn:Ew; try done.
  destruct (stopped (shared s)); [intros [= <-]|case_decide as Hd; [intros [= <-]|done]]; exists l; cbn.
  - split_and!; try done. by left.
  - split_and!; try done. right. split_and!; try done. unfold saturating_sub in Hd. lia.
Qed.

Lemma act_inv k total hist c s a r s' :
  (0 <= k)%Z -> (Z.of_nat total < u64_max)%Z -> inv k total hist c s -> act a s = Some (r, s') ->
  inv k total (hist ++ published a) (c + batches r) s'.
Proof.
  intros Hk Ht HI E. pose proof HI as [I1 I2 I3 I4 I5].
  assert (forall i b p, ready s !! i = Some b -> ready_update b = Z.of_nat (c + i + 1) /\
    exists call w, flight k (hist ++ p) (ready_update b) (ready_scoring b) w /\
      (ready_batch b, episode_ids b) = produce call (ready_update b) (ready_scoring b) w) as I3'.
  { intros i b p Hb. destruct (I3 i b Hb) as (? & call & w & Hf & ?). split; [done|].
    exists call, w. split; [by apply flight_more|done]. }
  destruct a as [|call| |v w| |]; cbn in E.
  - destruct (dispatch s) as [s1|] eqn:Ed; [|done]. injection E as <- <-.
    rewrite app_nil_r, Nat.add_0_r. apply dispatch_step in Ed
      as (l & Ew & E1 & E2 & E3 & E4 & E5 & [[E6 E7]|(E6 & E7 & E8)]); rewrite Ew in I4;
      destruct I4 as [Hl Hd].
    + assert (dispatched s1 c = dispatched s c) as Hs by (unfold dispatched; by rewrite E1, E6, Ew).
      split; [by rewrite E3|by rewrite E4, E5|by rewrite E1|rewrite E6, Hs; lia|by rewrite E6].
    + assert (dispatched s1 c = S (dispatched s c)) as Hs
        by (unfold dispatched; rewrite E1, E6, Ew; lia).
      split; [by rewrite E3|by rewrite E4, E5|by rewrite E1| |].
      * rewrite E6, Hs. split; [done|]. split; [lia|]. split; [rewrite I5 by (by rewrite Ew); f_equal; lia|].
        split; [done|]. lia.
      * intros _. rewrite E7, Hs, I5 by (by rewrite Ew). unfold wrap_u64, u64_max in *. rewrite Z.mod_small; lia.
  - destruct (deliver produce call s) as [s1|] eqn:Ed; [|done]. injection E as <- <-.
    rewrite app_nil_r, Nat.add_0_r. unfold deliver in Ed.
    destruct (worker s) as [|l target scoring w|] eqn:Ew; try done.
    destruct (produce call target scoring w) as [batch ids] eqn:Ep. injection Ed as <-.
    destruct I4 as (Hl & Hd & Hg & Hf).
    assert (dispatched s c = c + length (ready s) + 1) as Hds by (unfold dispatched; by rewrite Ew).
    assert (forall x sh le sb, dispatched (MkScheduler sh (ready s ++ [x]) le sb (loop_top (pred l))) c
                               = dispatched s c) as Hs.
    { intros. unfold dispatched. cbn [ready worker]. rewrite length_app, Ew. cbn. destruct (pred l); cbn; lia. }
    split; cbn [scheduler_bound shared ready worker]; [done|done| | |].
    + intros i b Hb. apply lookup_app_Some in Hb as [Hb|[Hi Hb]]; [by apply I3|].
      apply list_lookup_singleton_Some in Hb as [Hi' <-]. cbn. split; [lia|]. exists call, w. by rewrite Ep.
    + destruct l as [|[|l]]; [lia| |]; cbn [pred loop_top]; rewrite Hs; [lia|]. split; lia.
    + intros _. rewrite Hs. by apply I5.
  - destruct (crash s) as [s1|] eqn:Ed; [|done]. injection E as <- <-.
    rewrite app_nil_r, Nat.add_0_r. unfold crash in Ed.
    destruct (worker s) as [|l target scoring w|] eqn:Ew; try done. injection Ed as <-.
    split; cbn [scheduler_bound shared ready worker]; [done|done|done| |done].
    destruct I4 as (_ & Hd & _). unfold dispatched in *. cbn [ready worker]. rewrite Ew in Hd. lia.
  - injection E as <- <-. rewrite Nat.add_0_r. cbn [published].
    split; cbn [publish_v1 scheduler_bound shared ready worker published_version published_weights
                next_dispatch_update]; [done| | | |done].
    + apply elem_of_app. right. by left.
    + intros i b. apply I3'.
    + change (dispatched (publish_v1 v w s) c) with (dispatched s c). destruct (worker s); [done| |done].
      destruct I4 as (? & ? & ? & Hf). split_and!; try done. by apply flight_more.
  - destruct (next_batch_v1 s) as [r0 s1] eqn:En. injection E as <- <-. rewrite app_nil_r.
    destruct (next_batch_inv k total hist c s r0 s1 Hk HI En) as (HI' & _ & _).
    unfold batches. rewrite filter_cons. cbn. by destruct (takes_batch r0).
  - injection E as <- <-. rewrite app_nil_r, Nat.add_0_r. by split.
Qed.

Lemma batches_app rs rs' : batches (rs ++ rs') = batches rs + batches rs'.
Proof. unfold batches. by rewrite filter_app, length_app. Qed.

(** What a result taken from the queue may be. *)
Definition genuine (k : Z) (hist : list (Z * W)) (r : taken) : Prop :=
  match r with
  | Ok b => exists call w, flight k hist (consumed_update b) (consumed_scoring b) w /\
      consumed_batch b = fst (produce call (consumed_update b) (consumed_scoring b) w) /\
      (within k (consumed_update b) (consumed_scoring b) \/
       snd (produce call (consumed_update b) (consumed_scoring b) w) = [])
  | Err (BoundViolation v) =>
      (consuming_update_version (violating_entry v) < scoring_weight_version (violating_entry v))%Z
  | Err _ => True
  end.

Lemma genuine_more k hist p r : genuine k hist r -> genuine k (hist ++ p) r.
Proof.
  destruct r as [b|e]; [|done]. intros (call & w & Hf & K). exists call, w. split; [by apply flight_more|done].
Qed.

Lemma act_results k total hist c s a r s' : (0 <= k)%Z -> inv k total hist c s -> act a s = Some (r, s') ->
  omap update_taken r = map Z.of_nat (seq (c + 1) (batches r)) /\ Forall (genuine k hist) r.
Proof.
  intros Hk HI E. destruct a; cbn in E.
  1-3: match type of E with context [pair [] <$> ?x] => destruct x; [|done] end; by injection E as <- <-.
  - by injection E as <- <-.
  - destruct (next_batch_v1 s) as [r0 s1] eqn:En. injection E as <- <-.
    destruct (next_batch_inv k total hist c s r0 s1 Hk HI En) as (_ & Hu & Hg). split.
    + unfold batches. rewrite filter_cons. cbn [omap list_omap]. destruct (takes_batch r0) eqn:Et.
      * by rewrite Hu.
      * destruct r0 as [b|[]]; done.
    + apply Forall_cons; split; [|done]. by destruct r0 as [b|[]].
  - by injection E as <- <-.
Qed.

Lemma run_inv k total actions : (0 <= k)%Z -> (Z.of_nat total < u64_max)%Z ->
  forall hist c s rs s', inv k total hist c s -> run actions s = Some (rs, s') ->
  inv k total (hist ++ flat_map published actions) (c + batches rs) s' /\
  omap update_taken rs = map Z.of_nat (seq (c + 1) (batches rs)) /\
  Forall (genuine k (hist ++ flat_map published actions)) rs.
Proof.
  intros Hk Ht. induction actions as [|a actions IH]; intros hist c s rs s' HI E; cbn in E.
  { injection E as <- <-. cbn. by rewrite app_nil_r, Nat.add_0_r. }
  destruct (act a s) as [[r1 s1]|] eqn:Ea; [|done]. cbn in E.
  destruct (run actions s1) as [[rs2 s2]|] eqn:Er; [|done]. injection E as <- <-.
  destruct (act_results k total hist c s a r1 s1 Hk HI Ea) as [Hu Hg].
  destruct (IH _ _ _ _ _ (act_inv k total hist c s a r1 s1 Hk Ht HI Ea) Er) as (HI' & Hu' & Hg').
  cbn [flat_map]. rewrite app_assoc, batches_app, Nat.add_assoc. split; [done|]. split.
  - rewrite omap_app, Hu, Hu', seq_app, map_app. do 3 f_equal. lia.
  - apply Forall_app. split; [|done]. eapply Forall_impl; [exact Hg|]. intros r Hr.
    by do 2 apply genuine_more.
Qed.

(* ------------------------------------------------------------------ *)
(** ** Trainers that publish what they trained *)

(** Everything in flight or in the ledger is behind its update. *)
Record behind (k : Z) (c : nat) s : Prop := MkBehind {
  behind_published : (published_version (shared s) <= Z.of_nat c)%Z;
  behind_ready : Forall (fun b => ready_scoring b < ready_update b)%Z (ready s);
  behind_worker : match worker s with
    | Producing _ target scoring _ => (scoring < target)%Z
    | _ => True
    end;
  behind_ledger : Forall (fun e => scoring_weight_version e < consuming_update_version e
                                   <= scoring_weight_version e + k)%Z (ledger s);
}.

Definition in_bound (k : Z) (r : taken) : Prop :=
  match r with
  | Ok b => (consumed_scoring b < consumed_update b <= consumed_scoring b + k)%Z
  | Err (BoundViolation _) => False
  | Err _ => True
  end.

Lemma next_batch_behind k total hist c s r s' : (0 <= k)%Z -> inv k total hist c s -> behind k c s ->
  next_batch_v1 s = (r, s') -> behind k (c + batches [r]) s' /\ in_bound k r.
Proof.
  intros Hk HI [H1 H2 H3 H4]. pose proof HI as [I1 I2 I3 I4 I5]. unfold next_batch_v1.
  destruct (ready s) as [|b queue] eqn:Er.
  { intros [= <- <-]. split; [|by destruct (is_finished s)]. split; rewrite ?Er; try done. lia. }
  apply Forall_cons in H2 as [Hb H2]. rewrite I1. pose proof (record_batch_outcome k b (ledger s) Hk) as Ho.
  pose proof (record_batch_ledger k b (ledger s)) as Hl. destruct (record_batch k b (ledger s)) as [v l'].
  cbn in Ho, Hl. destruct (I3 0 b) as (Eu & call & w & [_ Hf] & _); [first [done | by rewrite Er]|].
  revert Ho. unfold within. case_decide as Hw; [|exfalso; apply Hw; lia]. intros ->. intros [= <- <-].
  split; [|cbn; lia]. split; cbn [shared ready worker ledger]; [lia|done|done|].
  rewrite Hl. apply Forall_app. split; [done|]. apply Forall_map, Forall_true. cbn. lia.
Qed.

Lemma act_behind k total hist c s a r s' : (0 <= k)%Z -> inv k total hist c s -> behind k c s ->
  match a with Publish v _ => (0 <= v <= Z.of_nat c)%Z | _ => True end ->
  act a s = Some (r, s') -> behind k (c + batches r) s' /\ Forall (in_bound k) r.
Proof.
  intros Hk HI HB Ha E. pose proof HB as [H1 H2 H3 H4]. pose proof HI as [I1 I2 I3 I4 I5].
  destruct a as [|call| |v w| |]; cbn in E.
  - destruct (dispatch s) as [s1|] eqn:Ed; [|done]. injection E as <- <-. rewrite Nat.add_0_r. split; [|done].
    apply dispatch_step in Ed
      as (l & Ew & E1 & E2 & E3 & E4 & E5 & [[E6 E7]|(E6 & E7 & E8)]).
    + split; [by rewrite E4|by rewrite E1|by rewrite E6|by rewrite E2].
    + split; [by rewrite E4|by rewrite E1| |by rewrite E2]. rewrite E6, I5 by (by rewrite Ew).
      unfold dispatched. lia.
  - destruct (deliver produce call s) as [s1|] eqn:Ed; [|done]. injection E as <- <-. rewrite Nat.add_0_r.
    split; [|done]. unfold deliver in Ed. destruct (worker s) as [|l target scoring w|] eqn:Ew; try done.
    destruct (produce call target scoring w) as [batch ids]. injection Ed as <-.
    split; cbn [shared ready worker ledger]; [done| | |done].
    + apply Forall_app. split; [done|]. by apply Forall_singleton.
    + by destruct l as [|[|l]].
  - destruct (crash s) as [s1|] eqn:Ed; [|done]. injection E as <- <-. rewrite Nat.add_0_r.
    split; [|done]. unfold crash in Ed. destruct (worker s); try done. by injection Ed as <-.
  - injection E as <- <-. rewrite Nat.add_0_r. split; [|done]. split; cbn; try done. lia.
  - destruct (next_batch_v1 s) as [r0 s1] eqn:En. injection E as <- <-.
    destruct (next_batch_behind k total hist c s r0 s1 Hk HI HB En) as [K1 K2].
    split; [done|]. by apply Forall_singleton.
  - injection E as <- <-. rewrite Nat.add_0_r. by split.
Qed.

Lemma run_behind k total actions : (0 <= k)%Z -> (Z.of_nat total < u64_max)%Z ->
  forall hist c s rs s', inv k total hist c s -> behind k c s -> honest c actions s ->
  run actions s = Some (rs, s') ->
  behind k (c + batches rs) s' /\ Forall (in_bound k) rs.
Proof.
  intros Hk Ht. induction actions as [|a actions IH]; intros hist c s rs s' HI HB Hh E; cbn in E.
  { injection E as <- <-. cbn. by rewrite Nat.add_0_r. }
  destruct Hh as [Ha Hh].
  destruct (act a s) as [[r1 s1]|] eqn:Ea; [|done]. cbn in E.
  destruct (run actions s1) as [[rs2 s2]|] eqn:Er; [|done]. injection E as <- <-.
  destruct (act_behind k total hist c s a r1 s1 Hk HI HB Ha Ea) as [HB1 Hg].
  destruct (IH _ _ _ _ _ (act_inv k total hist c s a r1 s1 Hk Ht HI Ea) HB1 Hh Er) as [HB2 Hg2].
  rewrite batches_app, Nat.add_assoc. split; [done|]. by apply Forall_app.
Qed.

Lemma spawn_behind w0 k total s : spawn_v1 w0 k total = Some s -> behind k 0 s.
Proof. intros E. apply spawn_shape in E as [Hk ->]. split; cbn; try done. by destruct total. Qed.

(* ------------------------------------------------------------------ *)
(** ** Progress *)

(** No thread was stopped: the producer returns only after its last batch. *)
Definition alive (total c : nat) s : Prop :=
  stopped (shared s) = false /\ (worker s = Ended -> dispatched s c = total).

Lemma act_alive k total hist c s a r s' : (0 <= k)%Z -> inv k total hist c s -> alive total c s ->
  a <> Stop -> a <> Crash -> act a s = Some (r, s') -> alive total (c + batches r) s'.
Proof.
  intros Hk HI [H1 H2] Hs Hc E. pose proof HI as [I1 I2 I3 I4 I5]. destruct a as [|call| |v w| |]; cbn in E; try done.
  - unfold dispatch in E. destruct (worker s) as [l| |] eqn:Ew; try done. rewrite H1 in E. case_decide; [|done].
    injection E as <- <-. by split.
  - unfold deliver in E. destruct (worker s) as [|l target scoring w|] eqn:Ew; try done.
    destruct (produce call target scoring w) as [batch ids]. injection E as <- <-. rewrite Nat.add_0_r.
    split; [done|]. cbn [worker]. destruct I4 as (Hl & Hd & _). unfold dispatched in *. cbn [ready worker].
    rewrite Ew in Hd. rewrite length_app. destruct l as [|[|l]]; cbn in *; [lia| |done]. lia.
  - injection E as <- <-. rewrite Nat.add_0_r. by split.
  - destruct (next_batch_v1 s) as [r0 s1] eqn:En. injection E as <- <-. unfold next_batch_v1 in En.
    destruct (ready s) as [|b queue] eqn:Er.
    { injection En as <- <-. assert (batches [Err (if is_finished s then ProducerEnded else Timeout)] = 0) as ->
        by (by destruct (is_finished s)). rewrite Nat.add_0_r. by split. }
    destruct (record_batch _ b (ledger s)) as [v l']. injection En as <- <-.
    assert (batches [match v with
      | Some v => Err (BoundViolation v)
      | None => Ok (MkConsumed (ready_batch b) (ready_update b) (ready_scoring b)) end] = 1) as ->
      by (by destruct v).
    split; [done|]. intros Ew. cbn in Ew. rewrite <- H2 by done. unfold dispatched. rewrite Er. cbn. lia.
Qed.

Lemma run_alive k total actions : (0 <= k)%Z -> (Z.of_nat total < u64_max)%Z ->
  ~ Stop ∈ actions -> ~ Crash ∈ actions ->
  forall hist c s rs s', inv k total hist c s -> alive total c s -> run actions s = Some (rs, s') ->
  alive total (c + batches rs) s'.
Proof.
  intros Hk Ht. induction actions as [|a actions IH]; intros Hs Hc hist c s rs s' HI HA E; cbn in E.
  { injection E as <- <-. cbn. by rewrite Nat.add_0_r. }
  destruct (act a s) as [[r1 s1]|] eqn:Ea; [|done]. cbn in E.
  destruct (run actions s1) as [[rs2 s2]|] eqn:Er; [|done]. injection E as <- <-.
  rewrite not_elem_of_cons in Hs, Hc. destruct Hs as [Hs0 Hs], Hc as [Hc0 Hc].
  rewrite batches_app, Nat.add_assoc. eapply IH; [done|done| | |exact Er].
  - by eapply act_inv.
  - eapply act_alive; eauto.
Qed.

Lemma spawn_alive w0 k total s : spawn_v1 w0 k total = Some s -> alive total 0 s.
Proof. intros E. apply spawn_shape in E as [Hk ->]. split; [done|]. by destruct total. Qed.

(** With nothing stopped and everything taken also published, the producer
    alone can bring the next batch. *)
Lemma next_batch_comes k total hist c s call : (1 <= k)%Z -> inv k total hist c s -> alive total c s ->
  published_version (shared s) = Z.of_nat c -> c < total ->
  exists more rs s', length more <= 2 /\ Forall (fun a => a = Dispatch \/ a = Deliver call) more /\
    run (more ++ [Next]) s = Some (rs, s') /\ batches rs = 1.
Proof.
  intros Hk HI [A1 A2] Hp Hc. pose proof HI as [I1 I2 I3 I4 I5].
  assert (forall s1, ready s1 <> [] -> exists r s', next_batch_v1 s1 = (r, s') /\ batches [r] = 1) as Hnext.
  { intros s1 Hne. unfold next_batch_v1. destruct (ready s1); [done|]. destruct (record_batch _ _ _) as [v l'].
    do 2 eexists. split; [done|]. by destruct v. }
  assert (forall l target scoring w, worker s = Producing l target scoring w ->
    exists s1, deliver produce call s = Some s1 /\ ready s1 <> []) as Hdel.
  { intros * Ew. unfold deliver. rewrite Ew. destruct (produce _ _ _ _). eexists. split; [done|].
    cbn. by destruct (ready s). }
  destruct (decide (ready s = [])) as [Er|Er].
  2:{ destruct (Hnext s Er) as (r & s' & E & Hb). exists [], [r], s'. cbn [app run act length]. rewrite E. cbn.
      split_and!; try done. lia. }
  destruct (worker s) as [l|l target scoring w|] eqn:Ew.
  - assert (dispatched s c = c) as Hds by (unfold dispatched; rewrite Er, Ew; cbn; lia).
    assert (exists s1, dispatch s = Some s1 /\ exists l t sc w, worker s1 = Producing l t sc w) as (s1 & Ed & Hw).
    { unfold dispatch. rewrite Ew, A1, I5, Hds, Hp, I1 by done. rewrite decide_True.
      - eexists. split; [done|]. cbn. eauto.
      - unfold saturating_sub. lia. }
    destruct Hw as (l1 & t1 & sc1 & w1 & Hw).
    assert (exists s2, deliver produce call s1 = Some s2 /\ ready s2 <> []) as (s2 & E2 & Hne).
    { unfold deliver. rewrite Hw. destruct (produce _ _ _ _). eexists. split; [done|]. cbn. by destruct (ready s1). }
    destruct (Hnext s2 Hne) as (r & s' & E & Hb). exists [Dispatch; Deliver call], [r], s'.
    cbn [app run act length]. rewrite Ed. cbn. rewrite E2. cbn. rewrite E. cbn.
    split_and!; try done. rewrite !Forall_cons; auto.
  - destruct (Hdel _ _ _ _ eq_refl) as (s1 & E1 & Hne). destruct (Hnext s1 Hne) as (r & s' & E & Hb).
    exists [Deliver call], [r], s'. cbn [app run act length]. rewrite E1. cbn. rewrite E. cbn.
    split_and!; try done; [lia|]. rewrite !Forall_cons; auto.
  - specialize (A2 eq_refl). unfold dispatched in A2. rewrite Er, Ew in A2. cbn in A2. lia.
Qed.
End Runs.

(* ------------------------------------------------------------------ *)
(** ** The properties *)

(** C32: in every interleaving of the producer thread and the trainer - any
    publications, panics and stops included - the batches are taken in the order
    of their updates, one each; a batch handed to the trainer was made by
    [produce] from a version and the weights that were published together, at
    most the bound behind its update, and is not from the future unless it has
    no episodes; a reported violation is one of causality. *)
Theorem batches_keep_the_bound {W B} (produce : nat -> Z -> Z -> W -> B * list Z)
    (w0 : W) k total (s0 : BoundedStalenessSchedulerV1 W B) actions rs s :
  (Z.of_nat total < u64_max)%Z ->
  spawn_v1 w0 k total = Some s0 -> run produce actions s0 = Some (rs, s) ->
  batches rs <= total /\
  omap update_taken rs = map Z.of_nat (seq 1 (batches rs)) /\
  Forall (genuine produce k (publications w0 actions)) rs.
Proof.
  intros Ht E Er. pose proof (spawn_shape w0 k total s0 E) as [Hk _].
  destruct (run_inv produce k total actions ltac:(lia) Ht _ _ _ _ _ (spawn_inv produce w0 k total s0 E) Er)
    as ([_ _ _ I4 _] & Hu & Hg).
  split; [|split; [exact Hu|exact Hg]].
  unfold dispatched in I4. destruct (worker s); lia.
Qed.

(** A trainer that publishes no update before it has taken that update's
    batch never meets a violation: every batch it takes is at least one and at
    most the bound of updates behind, and the audit of the whole ledger at the
    end succeeds. *)
Theorem honest_trainer_sees_no_violation {W B} (produce : nat -> Z -> Z -> W -> B * list Z)
    (w0 : W) k total (s0 : BoundedStalenessSchedulerV1 W B) actions rs s :
  (Z.of_nat total < u64_max)%Z ->
  spawn_v1 w0 k total = Some s0 -> honest produce 0 actions s0 -> run produce actions s0 = Some (rs, s) ->
  Forall (in_bound k) rs /\ enforce_all_v1 (ledger_snapshot_v1 s) k = Ok ().
Proof.
  intros Ht E Hh Er. pose proof (spawn_shape w0 k total s0 E) as [Hk _].
  destruct (run_behind produce k total actions ltac:(lia) Ht _ _ _ _ _ (spawn_inv produce w0 k total s0 E)
              (spawn_behind w0 k total s0 E) Hh Er) as [[_ _ _ Hl] Hb].
  split; [exact Hb|]. apply enforce_all_exact; [lia|exact Hl].
Qed.

(** The two threads never wait for each other. As long as nothing was
    stopped and the trainer has published every batch it took, the producer alone
    reaches, in at most two of its steps, a state where taking the next batch
    succeeds, until all updates have their batch. *)
Theorem scheduler_never_deadlocks {W B} (produce : nat -> Z -> Z -> W -> B * list Z)
    (w0 : W) k total (s0 : BoundedStalenessSchedulerV1 W B) actions rs s call :
  (Z.of_nat total < u64_max)%Z ->
  spawn_v1 w0 k total = Some s0 -> ~ Stop ∈ actions -> ~ Crash ∈ actions ->
  run produce actions s0 = Some (rs, s) ->
  published_version (shared s) = Z.of_nat (batches rs) -> batches rs < total ->
  exists more rs' s', length more <= 2 /\ Forall (fun a => a = Dispatch \/ a = Deliver call) more /\
    run produce (more ++ [Next]) s = Some (rs', s') /\ batches rs' = 1.
Proof.
  intros Ht E Hs Hc Er Hp Hlt. pose proof (spawn_shape w0 k total s0 E) as [Hk _].
  pose proof (spawn_inv produce w0 k total s0 E) as HI.
  destruct (run_inv produce k total actions ltac:(lia) Ht _ _ _ _ _ HI Er) as (HI' & _ & _).
  eapply next_batch_comes; [done|exact HI'| |exact Hp|exact Hlt].
  eapply run_alive; [| |exact Hs|exact Hc|exact HI| |exact Er]; [lia|done|by eapply spawn_alive].
Qed.

(* ------------------------------------------------------------------ *)
(** ** Examples *)

(** Batches name the call and the weights they were made with; every one has
    two episodes. *)
Definition toy_produce (call : nat) (target scoring : Z) (w : Z) : (nat * Z) * list Z :=
  ((call, w), [(2 * target)%Z; (2 * target + 1)%Z]).

Abbreviation toy_scheduler := (BoundedStalenessSchedulerV1 Z (nat * Z)).

Definition toy_start : toy_scheduler :=
  MkScheduler (MkShared 0 100%Z 1 false) [] [] 2 (Dispatching 3).

(** Two batches ahead, then the trainer catches up. *)
Definition toy_actions : list (action (W := Z)) :=
  [Dispatch; Deliver 0; Dispatch; Deliver 1; Next; Publish 1 101%Z; Dispatch; Next; Deliver 2; Next; Next].

(** The third dispatch has to wait for a publication. *)
Example toy_dispatch_waits :
  run toy_produce [Dispatch; Deliver 0; Dispatch; Deliver 1; Dispatch] toy_start = None.
Proof. reflexivity. Qed.

Definition toy_outcome : list (result BoundedStalenessConsumeErrorV1 (BoundedStalenessConsumedBatchV1 (nat * Z)))
                         * toy_scheduler :=
  default ([], toy_start) (run toy_produce toy_actions toy_start).

Example toy_results : fst toy_outcome =
  [Ok (MkConsumed (0, 100%Z) 1 0); Ok (MkConsumed (1, 100%Z) 2 0); Ok (MkConsumed (2, 101%Z) 3 1);
   Err ProducerEnded].
Proof. reflexivity. Qed.

Lemma batches_keep_the_bound_witness :
  batches (fst toy_outcome) <= 3 /\
  omap update_taken (fst toy_outcome) = map Z.of_nat (seq 1 (batches (fst toy_outcome))) /\
  Forall (genuine toy_produce 2 (publications 100%Z toy_actions)) (fst toy_outcome).
Proof.
  apply (batches_keep_the_bound toy_produce 100%Z 2 3 toy_start toy_actions (fst toy_outcome) (snd toy_outcome));
    reflexivity.
Defined.

Lemma honest_trainer_sees_no_violation_witness :
  Forall (in_bound 2) (fst toy_outcome) /\
  enforce_all_v1 (ledger_snapshot_v1 (snd toy_outcome)) 2 = Ok ().
Proof.
  apply (honest_trainer_sees_no_violation toy_produce 100%Z 2 3 toy_start toy_actions
           (fst toy_outcome) (snd toy_outcome)); [reflexivity|reflexivity| |reflexivity].
  vm_compute. repeat (split || discriminate || done).
Defined.

(** After the first batch is trained and published. *)
Definition toy_prefix : list (action (W := Z)) := [Dispatch; Deliver 0; Next; Publish 1 101%Z].

Definition toy_middle : toy_scheduler :=
  snd (default ([], toy_start) (run toy_produce toy_prefix toy_start)).

Ltac not_listed :=
  let H := fresh in intros H;
  repeat (apply elem_of_cons in H as [?|H]; [discriminate|]); by apply elem_of_nil in H.

Lemma scheduler_never_deadlocks_witness :
  exists more rs s, length more <= 2 /\ Forall (fun a => a = Dispatch \/ a = Deliver 1) more /\
    run toy_produce (more ++ [Next]) toy_middle = Some (rs, s) /\ batches rs = 1.
Proof.
  apply (scheduler_never_deadlocks toy_produce 100%Z 2 3 toy_start toy_prefix
           [Ok (MkConsumed (0, 100%Z) 1 0)] toy_middle 1);
    [reflexivity|reflexivity|not_listed|not_listed
    |reflexivity|reflexivity|apply Nat.ltb_lt; reflexivity].
Defined.
