(* ===== verification/Bo3Match.v ===== *)
(** * Best-of-three match state (src/mtg-kernel/src/bo3_match.rs)

    The match owns the facts that outlive a game: who won which game, and
    who makes the play/draw choice of the next one. [BestOfThreeMatchStateV1]
    is the state; [choose_play_draw_v1] and [record_game_result_v1] are its
    two transitions, written as the code has them (a new state and a
    [result]), and [reachable] is the transition system they generate. *)

From S2P Require Import Prelude Ids.
Import PlayerIds.

Definition BEST_OF_THREE_WINS_REQUIRED_V1 : Z := 2.

Inductive PlayDrawChoiceV1 := Play | Draw.

Inductive GameOutcomeV1 := GameWin (winner : PlayerId) | GameDraw.

Inductive MatchOutcomeV1 := MatchWinner (winner : PlayerId) | MatchDraw.

Record GameStartV1 := MkGameStart {
  gs_game_index : Z;
  gs_chooser : PlayerId;
  gs_choice : PlayDrawChoiceV1;
  gs_starting_player : PlayerId;
}.

Definition player_on_draw (s : GameStartV1) : PlayerId :=
  opponent (gs_starting_player s).

Record CompletedMatchGameV1 := MkCompletedGame {
  cg_start : GameStartV1;
  cg_outcome : GameOutcomeV1;
}.

Inductive MatchPhaseV1 :=
  | AwaitingPlayDrawChoice (game_index : Z) (chooser : PlayerId)
  | AwaitingGameResult (start : GameStartV1)
  | Complete (outcome : MatchOutcomeV1).

Inductive MatchTransitionV1 :=
  | NextGameChoice (game_index : Z) (chooser : PlayerId)
  | TransitionComplete (outcome : MatchOutcomeV1).

Record BestOfThreeMatchStateV1 := MkMatch {
  m_wins : per_player Z;
  m_games : list CompletedMatchGameV1;
  m_phase : MatchPhaseV1;
}.

Inductive MatchStateErrorV1 :=
  | InvalidPlayer (actual : Z)
  | WrongChooser (expected actual : PlayerId)
  | PlayDrawChoiceRequired
  | GameAlreadyStarted
  | GameIndexExhausted
  | MatchComplete.

Definition validate_player_v1 (p : PlayerId) : result MatchStateErrorV1 unit :=
  if bool_decide (p <> P0) && bool_decide (p <> P1)
  then Err (InvalidPlayer (player_num p)) else Ok ().

Definition new_v1 (game_one_chooser : PlayerId)
  : result MatchStateErrorV1 BestOfThreeMatchStateV1 :=
  let? _ := validate_player_v1 game_one_chooser in
  Ok (MkMatch (PerPlayer 0%Z 0%Z) [] (AwaitingPlayDrawChoice 1 game_one_chooser)).

Definition wins (m : BestOfThreeMatchStateV1) (p : PlayerId)
  : result MatchStateErrorV1 Z :=
  let? _ := validate_player_v1 p in Ok (seat (m_wins m) p).

Definition outcome (m : BestOfThreeMatchStateV1) : option MatchOutcomeV1 :=
  match m_phase m with Complete o => Some o | _ => None end.

Definition choose_play_draw_v1 (m : BestOfThreeMatchStateV1)
    (chooser : PlayerId) (choice : PlayDrawChoiceV1)
  : BestOfThreeMatchStateV1 * result MatchStateErrorV1 GameStartV1 :=
  match validate_player_v1 chooser with
  | Err e => (m, Err e)
  | Ok _ =>
      match m_phase m with
      | AwaitingGameResult _ => (m, Err GameAlreadyStarted)
      | Complete _ => (m, Err MatchComplete)
      | AwaitingPlayDrawChoice game_index expected_chooser =>
          if bool_decide (chooser <> expected_chooser)
          then (m, Err (WrongChooser expected_chooser chooser))
          else
            let starting_player :=
              match choice with Play => chooser | Draw => opponent chooser end in
            let start := MkGameStart game_index chooser choice starting_player in
            (MkMatch (m_wins m) (m_games m) (AwaitingGameResult start), Ok start)
      end
  end.

(** [match outcome { Win { winner } => { validate_player_v1(winner)?; .. } }] *)
Definition game_winner_of (o : GameOutcomeV1)
  : result MatchStateErrorV1 (option PlayerId) :=
  match o with
  | GameWin w => let? _ := validate_player_v1 w in Ok (Some w)
  | GameDraw => Ok None
  end.

(** [wins] is an array of [u8]: the additions wrap. *)
Definition record_game_result_v1 (m : BestOfThreeMatchStateV1) (o : GameOutcomeV1)
  : BestOfThreeMatchStateV1 * result MatchStateErrorV1 MatchTransitionV1 :=
  match m_phase m with
  | AwaitingPlayDrawChoice _ _ => (m, Err PlayDrawChoiceRequired)
  | Complete _ => (m, Err MatchComplete)
  | AwaitingGameResult start =>
      match game_winner_of o with
      | Err e => (m, Err e)
      | Ok game_winner =>
          let match_winner :=
            match game_winner with
            | Some w =>
                if (BEST_OF_THREE_WINS_REQUIRED_V1 <=? wrap_u8 (seat (m_wins m) w + 1))%Z
                then Some w else None
            | None => None
            end in
          let next_game_index :=
            match match_winner with
            | None => checked_add_u8 (gs_game_index start) 1
            | Some _ => Some 0%Z
            end in
          match next_game_index with
          | None => (m, Err GameIndexExhausted)
          | Some game_index =>
              let wins' :=
                match game_winner with
                | Some w => set_seat (m_wins m) w (wrap_u8 (seat (m_wins m) w + 1))
                | None => m_wins m
                end in
              let games' := m_games m ++ [MkCompletedGame start o] in
              match match_winner with
              | Some w =>
                  let outcome := MatchWinner w in
                  (MkMatch wins' games' (Complete outcome), Ok (TransitionComplete outcome))
              | None =>
                  let chooser :=
                    match o with
                    | GameWin w => opponent w
                    | GameDraw => gs_chooser start
                    end in
                  (MkMatch wins' games' (AwaitingPlayDrawChoice game_index chooser),
                   Ok (NextGameChoice game_index chooser))
              end
          end
      end
  end.

(** ** The transition system *)

Inductive match_op :=
  | OpChoose (chooser : PlayerId) (choice : PlayDrawChoiceV1)
  | OpRecord (o : GameOutcomeV1).

Definition run_op (m : BestOfThreeMatchStateV1) (op : match_op)
  : BestOfThreeMatchStateV1 :=
  match op with
  | OpChoose p c => fst (choose_play_draw_v1 m p c)
  | OpRecord o => fst (record_game_result_v1 m o)
  end.

(** Any sequence of calls, failed ones included. *)
Inductive reachable : BestOfThreeMatchStateV1 -> Prop :=
  | reachable_new p m : new_v1 p = Ok m -> reachable m
  | reachable_op m op : reachable m -> reachable (run_op m op).

(** ** Specification: what the state must say about the games played *)

Definition won_by (p : PlayerId) (g : CompletedMatchGameV1) : bool :=
  match cg_outcome g with GameWin w => bool_decide (w = p) | GameDraw => false end.

Definition count_wins (p : PlayerId) (games : list CompletedMatchGameV1) : Z :=
  Z.of_nat (length (filter (fun g => won_by p g = true) games)).

(** Who must choose after the games played so far: the loser of the last
    game, or after a draw the player who chose for the drawn game. *)
Definition next_chooser (first : PlayerId) (games : list CompletedMatchGameV1)
  : PlayerId :=
  match last games with
  | None => first
  | Some g => match cg_outcome g with
              | GameWin w => opponent w
              | GameDraw => gs_chooser (cg_start g)
              end
  end.

Definition start_ok (s : GameStartV1) : Prop :=
  valid_player (gs_chooser s) /\
  gs_starting_player s =
    match gs_choice s with
    | Play => gs_chooser s
    | Draw => opponent (gs_chooser s)
    end.

Definition winner_ok (g : CompletedMatchGameV1) : Prop :=
  match cg_outcome g with GameWin w => valid_player w | GameDraw => True end.

Definition decisive (g : CompletedMatchGameV1) : bool :=
  match cg_outcome g with GameWin _ => true | GameDraw => false end.

Record match_inv (m : BestOfThreeMatchStateV1) : Prop := {
  inv_wins : forall p, valid_player p -> seat (m_wins m) p = count_wins p (m_games m);
  inv_bound : forall p, valid_player p -> (count_wins p (m_games m) <= 2)%Z;
  inv_starts : forall i g, m_games m !! i = Some g ->
      start_ok (cg_start g) /\ gs_game_index (cg_start g) = (Z.of_nat i + 1)%Z;
  inv_winners : Forall winner_ok (m_games m);
  inv_choosers : exists first, valid_player first /\
      (forall i g, m_games m !! i = Some g ->
         gs_chooser (cg_start g) = next_chooser first (take i (m_games m))) /\
      match m_phase m with
      | AwaitingPlayDrawChoice _ c => c = next_chooser first (m_games m)
      | AwaitingGameResult s => gs_chooser s = next_chooser first (m_games m)
      | Complete _ => True
      end;
  inv_phase :
      match m_phase m with
      | AwaitingPlayDrawChoice i c =>
          i = (Z.of_nat (length (m_games m)) + 1)%Z /\ (i <= 255)%Z /\ valid_player c /\
          (forall p, valid_player p -> (count_wins p (m_games m) <= 1)%Z)
      | AwaitingGameResult s =>
          gs_game_index s = (Z.of_nat (length (m_games m)) + 1)%Z /\
          (gs_game_index s <= 255)%Z /\ start_ok s /\
          (forall p, valid_player p -> (count_wins p (m_games m) <= 1)%Z)
      | Complete (MatchWinner w) =>
          valid_player w /\ count_wins w (m_games m) = 2%Z /\
          (count_wins (opponent w) (m_games m) <= 1)%Z /\
          exists g, last (m_games m) = Some g /\ cg_outcome g = GameWin w
      | Complete MatchDraw => False
      end;
}.

(* ------------------------------------------------------------------ *)
(** ** Lemmas *)

Lemma validate_player_ok p u : validate_player_v1 p = Ok u <-> valid_player p.
Proof.
  unfold validate_player_v1, valid_player. destruct u.
  destruct (_ && _) eqn:E; split; try done.
  - bool_to_prop. tauto.
  - intros _. apply andb_false_iff in E. rewrite !bool_decide_eq_false in E.
    destruct E as [E|E]; [left|right]; by apply dec_stable in E.
Qed.

Lemma validate_player_valid p : valid_player p -> validate_player_v1 p = Ok ().
Proof. intros. by apply validate_player_ok. Qed.
#[export] Hint Resolve validate_player_valid : kernel.

Lemma game_winner_of_ok o w :
  game_winner_of o = Ok w <->
  match o with GameWin p => valid_player p /\ w = Some p | GameDraw => w = None end.
Proof.
  destruct o as [p|]; cbn.
  - rewrite result_bind_ok. setoid_rewrite validate_player_ok. split.
    + intros (_ & ? & [= <-]); done.
    + intros [? ->]. by exists ().
  - split; [by intros [= <-] | by intros ->].
Qed.

Lemma count_wins_app p games g :
  count_wins p (games ++ [g]) =
  (count_wins p games + if won_by p g then 1 else 0)%Z.
Proof.
  unfold count_wins. rewrite filter_app, length_app. cbn.
  destruct (won_by p g); case_decide; cbn; try done; lia.
Qed.

Lemma count_wins_nonneg p games : (0 <= count_wins p games)%Z.
Proof. unfold count_wins. lia. Qed.

Lemma won_by_win w p s : won_by p (MkCompletedGame s (GameWin w)) = bool_decide (w = p).
Proof. reflexivity. Qed.
Lemma won_by_draw p s : won_by p (MkCompletedGame s GameDraw) = false.
Proof. reflexivity. Qed.
#[export] Hint Rewrite won_by_win won_by_draw count_wins_app : kernel.

Lemma next_chooser_app first games g :
  next_chooser first (games ++ [g]) =
  match cg_outcome g with
  | GameWin w => opponent w
  | GameDraw => gs_chooser (cg_start g)
  end.
Proof. unfold next_chooser. by rewrite last_snoc. Qed.

Lemma lookup_snoc_inv {A} (l : list A) x i y :
  (l ++ [x]) !! i = Some y -> l !! i = Some y /\ i < length l \/ i = length l /\ y = x.
Proof.
  rewrite lookup_app_Some. intros [H|[? H]].
  - left. split; [done|]. by eapply lookup_lt_Some.
  - right. destruct (i - length l) as [|k] eqn:E; cbn in H; [|done].
    split; [lia | congruence].
Qed.

Lemma new_inv p m : new_v1 p = Ok m -> match_inv m.
Proof.
  unfold new_v1. intros H. inv_bind H. subst m.
  apply validate_player_ok in E. split; cbn.
  - by intros q [->| ->].
  - intros q _. unfold count_wins; cbn. lia.
  - intros i g. by rewrite lookup_nil.
  - constructor.
  - exists p. split; [done|]. split; [|done]. intros i g. by rewrite lookup_nil.
  - split; [done|]. split; [lia|]. split; [done|]. intros. unfold count_wins; cbn; lia.
Qed.

Lemma choose_inv m p c :
  match_inv m -> match_inv (fst (choose_play_draw_v1 m p c)).
Proof.
  intros I. unfold choose_play_draw_v1.
  destruct (validate_player_v1 p) as [?|?] eqn:V; [|done].
  destruct (m_phase m) as [i ch|s|o] eqn:P; [|done|done].
  case_bool_decide as D; [done|]. subst ch.
  destruct I as [Iw Ib Is Iv Ic Ip]. rewrite P in Ic, Ip.
  destruct Ip as (-> & ? & ? & ?). destruct Ic as (f & ? & Hc & ->).
  split; cbn; try done. by exists f.
Qed.

(** The games and counters after recording [o] for the started game [s]. *)
Lemma record_games_inv m s o :
  match_inv m -> m_phase m = AwaitingGameResult s ->
  match o with GameWin w => valid_player w | GameDraw => True end ->
  let games' := m_games m ++ [MkCompletedGame s o] in
  (forall i g, games' !! i = Some g ->
      start_ok (cg_start g) /\ gs_game_index (cg_start g) = (Z.of_nat i + 1)%Z) /\
  exists first, valid_player first /\
    (forall i g, games' !! i = Some g ->
       gs_chooser (cg_start g) = next_chooser first (take i games')).
Proof.
  intros [Iw Ib Is Iv (f & Hf & Hc & Hp) Ip] P V games'. rewrite P in Hp, Ip.
  destruct Ip as (Hi & ? & Hs & ?). split.
  - intros i g Hg. apply lookup_snoc_inv in Hg as [[Hg _]|[-> ->]]; [eauto|].
    cbn. split; [done|]. by rewrite Hi.
  - exists f. split; [done|]. intros i g Hg.
    apply lookup_snoc_inv in Hg as [[Hg L]|[-> ->]].
    + unfold games'. rewrite take_app_le by lia. eauto.
    + unfold games'. by rewrite take_app_length.
Qed.

Lemma set_seat_wins m w s :
  match_inv m -> valid_player w -> (count_wins w (m_games m) <= 1)%Z ->
  forall p, valid_player p ->
    seat (set_seat (m_wins m) w (wrap_u8 (seat (m_wins m) w + 1))) p =
    count_wins p (m_games m ++ [MkCompletedGame s (GameWin w)]).
Proof.
  intros I Vw Hw p Vp. rewrite count_wins_app, won_by_win.
  destruct (decide (w = p)) as [->|N].
  - rewrite seat_set_eq, bool_decide_true by done. rewrite (inv_wins _ I) by done.
    apply wrap_u8_small. pose proof (count_wins_nonneg p (m_games m)). lia.
  - rewrite seat_set_ne, bool_decide_false by done. rewrite (inv_wins _ I) by done. lia.
Qed.

Lemma record_inv m o : match_inv m -> match_inv (fst (record_game_result_v1 m o)).
Proof.
  intros I. unfold record_game_result_v1.
  destruct (m_phase m) as [|s|] eqn:P; [done| |done].
  destruct (game_winner_of o) as [gw|e] eqn:W; [|done].
  apply game_winner_of_ok in W.
  assert (match o with GameWin w => valid_player w | GameDraw => True end) as V
    by (destruct o; [by destruct W|done]).
  pose proof (record_games_inv m s o I P V) as [Hst (f & Hf & Hch)].
  pose proof (inv_phase _ I) as Ip. rewrite P in Ip. destruct Ip as (Hi & Hi' & Hs & Hle).
  assert (Forall winner_ok (m_games m ++ [MkCompletedGame s o])) as Hv
    by (apply Forall_app; split; [apply (inv_winners _ I) | by repeat constructor]).
  unfold BEST_OF_THREE_WINS_REQUIRED_V1.
  destruct o as [w|].
  - destruct W as [Vw ->]. pose proof (Hle w Vw) as Hw.
    pose proof (count_wins_nonneg w (m_games m)) as Hw0.
    assert (wrap_u8 (seat (m_wins m) w + 1) = (count_wins w (m_games m) + 1)%Z) as Hwr
      by (rewrite (inv_wins _ I) by done; apply wrap_u8_small; lia).
    assert (forall p, valid_player p -> count_wins p (m_games m ++ [MkCompletedGame s (GameWin w)])
              <= 2)%Z as Hb.
    { intros p Vp. rewrite count_wins_app, won_by_win. pose proof (Hle p Vp).
      case_bool_decide; lia. }
    rewrite Hwr. destruct (2 <=? _)%Z eqn:B; bool_to_prop.
    + split; cbn; try done.
      * rewrite <- Hwr. by apply set_seat_wins.
      * by exists f.
      * split; [done|]. rewrite !count_wins_app, !won_by_win.
        rewrite bool_decide_true by done.
        rewrite bool_decide_false by (intros E; by apply (opponent_ne w Vw)).
        pose proof (Hle _ (opponent_valid w Vw)).
        split; [lia|]. split; [lia|]. eexists. by rewrite last_snoc.
    + destruct (checked_add_u8 _ 1) as [gi|] eqn:G; [|done].
      apply checked_unsigned_some in G as [-> G]. unfold u8_max in G.
      split; cbn; try done.
      * rewrite <- Hwr. by apply set_seat_wins.
      * exists f. split; [done|]. split; [done|]. by rewrite next_chooser_app.
      * rewrite length_app; cbn. split; [lia|]. split; [lia|].
        split; [by apply opponent_valid|]. intros p Vp.
        rewrite count_wins_app, won_by_win. pose proof (Hle p Vp).
        case_bool_decide; [subst; lia|lia].
  - subst gw. destruct (checked_add_u8 _ 1) as [gi|] eqn:G; [|done].
    apply checked_unsigned_some in G as [-> G]. unfold u8_max in G.
    assert (forall p, count_wins p (m_games m ++ [MkCompletedGame s GameDraw]) =
                      count_wins p (m_games m)) as Hd
      by (intros; rewrite count_wins_app, won_by_draw; lia).
    split; cbn; try done.
    + intros. rewrite Hd. by apply (inv_wins _ I).
    + intros. rewrite Hd. by apply (inv_bound _ I).
    + exists f. split; [done|]. split; [done|]. by rewrite next_chooser_app.
    + rewrite length_app; cbn. split; [lia|]. split; [lia|].
      split; [by destruct Hs|]. intros. rewrite Hd. by apply Hle.
Qed.

Lemma reachable_inv m : reachable m -> match_inv m.
Proof.
  induction 1 as [p m H|m op _ IH].
  - by apply (new_inv p).
  - destruct op; [by apply choose_inv | by apply record_inv].
Qed.

Lemma count_wins_total games :
  (count_wins P0 games + count_wins P1 games <= Z.of_nat (length games))%Z.
Proof.
  induction games as [|g games IH] using rev_ind; [done|].
  rewrite !count_wins_app, length_app; cbn. unfold won_by.
  destruct (cg_outcome g); cbn; [|lia].
  pose proof P0_ne_P1. repeat case_bool_decide; try lia. congruence.
Qed.


Lemma decisive_count games :
  Forall winner_ok games ->
  Z.of_nat (length (filter (fun g => decisive g = true) games)) =
  (count_wins P0 games + count_wins P1 games)%Z.
Proof.
  induction games as [|g games IH] using rev_ind; intros F; [done|].
  apply Forall_app in F as [F Fg]. inversion_clear Fg as [|? ? Hg _].
  rewrite !count_wins_app, filter_app, length_app, Nat2Z.inj_add, (IH F).
  unfold winner_ok in Hg. unfold won_by. cbn. unfold decisive.
  destruct (cg_outcome g) as [w|]; case_decide; try done; cbn; [|lia].
  pose proof P0_ne_P1. destruct Hg as [->| ->]; repeat case_bool_decide; try congruence; lia.
Qed.

Lemma match_inv_complete m w :
  match_inv m ->
  outcome m = Some (MatchWinner w) <-> valid_player w /\ count_wins w (m_games m) = 2%Z.
Proof.
  intros I. pose proof (inv_phase _ I) as Ip. unfold outcome.
  destruct (m_phase m) as [i c|s|[w'|]]; [| | |done].
  1,2: split; [done|]; intros [V H]; destruct Ip as (_ & _ & _ & Hle);
    specialize (Hle w V); lia.
  destruct Ip as (V' & H2 & Ho & _). split.
  - intros [= <-]. done.
  - intros [V H]. f_equal. f_equal. destruct (decide (w' = w)) as [|N]; [done|exfalso].
    destruct V as [->| ->], V' as [->| ->]; try done;
      rewrite ?opponent_P0, ?opponent_P1 in Ho; lia.
Qed.

(* ------------------------------------------------------------------ *)
(** ** Properties *)

(** C38: every state reachable by any sequence of calls, rejected ones
    included, is consistent with the games it records: the win counters
    count them, game indices are 1, 2, .., each game's play/draw choice was
    made by the loser of the previous game (by the previous chooser after a
    draw), and the match is complete exactly when its winner has two wins,
    the last of which ended it. *)
Theorem match_reachable_invariant m : reachable m -> match_inv m.
Proof. apply reachable_inv. Qed.

(** A reachable match has a winner exactly when that player has won two
    of the games played; it is never reported as a drawn match. *)
Theorem match_winner_iff_two_wins m :
  reachable m ->
  outcome m <> Some MatchDraw /\
  forall w, outcome m = Some (MatchWinner w) <->
    valid_player w /\ count_wins w (m_games m) = 2%Z.
Proof.
  intros R%reachable_inv. split.
  - pose proof (inv_phase _ R) as Ip. unfold outcome.
    destruct (m_phase m) as [| |[|]]; try done.
  - intros w. by apply match_inv_complete.
Qed.

(** A match needs at most three decisive games: it never records a
    fourth, and once it has three it is complete with a winner. *)
Theorem match_ends_by_third_decisive_game m :
  reachable m ->
  let n := length (filter (fun g => decisive g = true) (m_games m)) in
  n <= 3 /\ (n = 3 -> exists w, outcome m = Some (MatchWinner w)).
Proof.
  intros R%reachable_inv n.
  pose proof (decisive_count _ (inv_winners _ R)) as Hn. fold n in Hn.
  pose proof (inv_phase _ R) as Ip. unfold outcome.
  destruct (m_phase m) as [i c|s|[w|]]; [| | |done].
  1,2: destruct Ip as (_ & _ & _ & Hle);
    pose proof (Hle P0 valid_P0); pose proof (Hle P1 valid_P1); lia.
  destruct Ip as (V & H2 & Ho & _). split; [|by eauto].
  destruct V as [->| ->]; rewrite ?opponent_P0, ?opponent_P1 in Ho; lia.
Qed.

(** Recording a result is atomic, and fails only as documented: the
    state changes exactly when the call succeeds, and from a reachable state
    awaiting a result a valid outcome is refused only for a 255th game that
    does not decide the match. *)
Theorem record_result_atomic m s o :
  reachable m -> m_phase m = AwaitingGameResult s ->
  match o with GameWin w => valid_player w | GameDraw => True end ->
  (exists t, snd (record_game_result_v1 m o) = Ok t /\
     m_games (fst (record_game_result_v1 m o)) = m_games m ++ [MkCompletedGame s o]) \/
  (snd (record_game_result_v1 m o) = Err GameIndexExhausted /\
     fst (record_game_result_v1 m o) = m /\ length (m_games m) = 254).
Proof.
  intros R%reachable_inv P V. unfold record_game_result_v1. rewrite P.
  pose proof (inv_phase _ R) as Ip. rewrite P in Ip. destruct Ip as (Hi & Hi' & _ & _).
  assert (exists gw, game_winner_of o = Ok gw) as [gw ->].
  { destruct o as [w|]; eexists; apply game_winner_of_ok; done. }
  destruct (match gw with Some _ => _ | None => _ end) as [w|]; [left; by eexists|].
  destruct (checked_add_u8 _ 1) as [gi|] eqn:G; [left; by eexists|right].
  apply checked_unsigned_none in G. unfold u8_max in G. repeat split; lia.
Qed.

(** *** Witnesses *)

Definition sample_ops : list match_op :=
  [OpChoose P0 Play; OpRecord (GameWin P1); OpChoose P0 Draw; OpRecord GameDraw;
   OpChoose P0 Play; OpRecord (GameWin P0); OpChoose P1 Draw; OpRecord (GameWin P1)].

Definition sample_start : BestOfThreeMatchStateV1 :=
  MkMatch (PerPlayer 0%Z 0%Z) [] (AwaitingPlayDrawChoice 1 P0).

Definition sample_match (n : nat) : BestOfThreeMatchStateV1 :=
  fold_left run_op (take n sample_ops) sample_start.

Lemma run_ops_reachable m ops : reachable m -> reachable (fold_left run_op ops m).
Proof. revert m. induction ops; cbn; intros; [done|]. apply IHops. by constructor. Qed.

Lemma sample_reachable n : reachable (sample_match n).
Proof. apply run_ops_reachable. by apply (reachable_new P0). Qed.

Lemma match_reachable_invariant_witness :
  match_inv (sample_match 8) /\ outcome (sample_match 8) = Some (MatchWinner P1).
Proof.
  split; [apply (match_reachable_invariant (sample_match 8)), sample_reachable|].
  vm_compute. reflexivity.
Defined.

Lemma match_winner_iff_two_wins_witness : count_wins P1 (m_games (sample_match 8)) = 2%Z.
Proof.
  apply (match_winner_iff_two_wins (sample_match 8) (sample_reachable 8)).
  vm_compute. reflexivity.
Defined.

Lemma match_ends_by_third_decisive_game_witness :
  exists w, outcome (sample_match 8) = Some (MatchWinner w).
Proof.
  apply (match_ends_by_third_decisive_game (sample_match 8) (sample_reachable 8)).
  vm_compute. reflexivity.
Defined.

Lemma record_result_atomic_witness :
  exists t, snd (record_game_result_v1 (sample_match 1) (GameWin P1)) = Ok t.
Proof.
  destruct (record_result_atomic (sample_match 1) (MkGameStart 1 P0 Play P0) (GameWin P1)
    (sample_reachable 1) eq_refl valid_P1) as [[t [H _]]|[H _]]; [by exists t|].
  vm_compute in H. discriminate H.
Defined.
