(* ===== verification/Mana.v ===== *)
(** * Mana costs and the backtracking payment solver (src/mtg-kernel/src/mana.rs)

    Data of a cost and of a payment, and the solver as the code runs it: a
    search that mutates [used], [pool_remaining] and [plan] in place and
    undoes each mutation before it tries the next branch. [SolverState] is
    that mutable triple; every search function returns the [bool] of the
    Rust function together with the state it leaves behind.

    The facts about these definitions are in ManaSearch and ManaSolve. *)

From S2P Require Import Prelude Ids.

Inductive ManaColor := W | U | B | R | G | C.
#[export] Instance ManaColor_eq_dec : EqDecision ManaColor.
Proof. solve_decision. Defined.

Module ManaColors.
Definition ALL : list ManaColor := [W; U; B; R; G; C].
End ManaColors.

(** Index into [[u8; 6]] pools, in the order W, U, B, R, G, C. *)
Definition pool_index (c : ManaColor) : nat :=
  match c with W => 0 | U => 1 | B => 2 | R => 3 | G => 4 | C => 5 end.

(** ** [ManaColorSetV1]: a fixed-capacity color list *)
Module ManaColorSetV1.
Definition CAPACITY : nat := length ManaColors.ALL.

Record t := MkSet { colors : list ManaColor; len : nat }.

Definition new : t := MkSet (replicate CAPACITY W) 0.

Definition push (s : t) (c : ManaColor) : t :=
  if decide (len s < CAPACITY)
  then MkSet (<[len s := c]> (colors s)) (S (len s))
  else s.

Definition as_slice (s : t) : list ManaColor := take (len s) (colors s).
Definition contains (s : t) (c : ManaColor) : bool := bool_decide (c ∈ as_slice s).
End ManaColorSetV1.

Definition GENERIC_POOL_PAYMENT_ORDER : list ManaColor := [C; B; U; W; G; R].

Inductive Pip :=
  | Colored (c : ManaColor)
  | Hybrid (a b : ManaColor)
  | Phyrexian (c : ManaColor)
  | PhyrexianAnyColor (c : ManaColor).

(** [Cost]: [generic] and [x_count] are [u8]. *)
Record Cost := MkCost { pips : list Pip; generic : Z; x_count : Z }.
Definition zero_cost : Cost := MkCost [] 0 0.

Record ManaSource := MkSource {
  src_id : ObjectId;
  choices : list ManaColor;
  yield_per_tap : Z;
}.

(** A pool [[u8; 6]]. *)
Abbreviation Pool := (list Z).
Definition empty_pool : Pool := replicate 6 0%Z.
Definition pool_at (p : Pool) (c : ManaColor) : Z := p !!! pool_index c.
(** [pool[c] += d], wrapping. *)
Definition bump (c : ManaColor) (d : Z) (p : Pool) : Pool :=
  alter (fun x => wrap_u8 (x + d)) (pool_index c) p.

Record PaymentPlan := MkPlan {
  restricted_pool_used : list nat;
  taps : list (ObjectId * ManaColor);
  pool_used : Pool;
  life_paid : Z;
  surplus : Pool;
}.
Definition default_plan : PaymentPlan := MkPlan [] [] empty_pool 0 empty_pool.

Record SpellSourceChoicesV1 := MkChoices {
  aliases : list ObjectId;
  convoke : list bool;
  require_convoke : bool;
}.

Inductive PipManaPolicyV72 := Ordinary | AnyType.
#[export] Instance PipManaPolicy_eq_dec : EqDecision PipManaPolicyV72.
Proof. solve_decision. Defined.

(** The three [&mut] arguments of the search. *)
Record SolverState := MkSolver {
  used : list bool;
  pool_remaining : Pool;
  plan : PaymentPlan;
}.

(** ** Elementary mutations *)

Definition spend_pool (c : ManaColor) (d : Z) (st : SolverState) : SolverState :=
  let p := plan st in
  MkSolver (used st) (bump c (- d) (pool_remaining st))
    (MkPlan (restricted_pool_used p) (taps p) (bump c d (pool_used p))
       (life_paid p) (surplus p)).

Definition credit_extra (c : ManaColor) (d : Z) (st : SolverState) : SolverState :=
  let p := plan st in
  MkSolver (used st) (bump c d (pool_remaining st))
    (MkPlan (restricted_pool_used p) (taps p) (pool_used p)
       (life_paid p) (bump c d (surplus p))).

Definition push_tap (t : ObjectId * ManaColor) (st : SolverState) : SolverState :=
  let p := plan st in
  MkSolver (used st) (pool_remaining st)
    (MkPlan (restricted_pool_used p) (taps p ++ [t]) (pool_used p)
       (life_paid p) (surplus p)).

(** [Vec::pop] *)
Definition pop_tap (st : SolverState) : SolverState :=
  let p := plan st in
  MkSolver (used st) (pool_remaining st)
    (MkPlan (restricted_pool_used p) (take (length (taps p) - 1) (taps p)) (pool_used p)
       (life_paid p) (surplus p)).

(** [life_paid] is an [i32] that grows by two per pip; no cost has 2^30 pips. *)
Definition pay_life (d : Z) (st : SolverState) : SolverState :=
  let p := plan st in
  MkSolver (used st) (pool_remaining st)
    (MkPlan (restricted_pool_used p) (taps p) (pool_used p)
       (life_paid p + d) (surplus p)).

Definition set_spell_source_used_v1 (used : list bool) (index : nat) (value : bool)
    (ch : option SpellSourceChoicesV1) : list bool :=
  match ch with
  | Some ch =>
      imap (fun other u =>
        match aliases ch !! other, aliases ch !! index with
        | Some a, Some b => if decide (a = b) then value else u
        | _, _ => u
        end) used
  | None => <[index := value]> used
  end.

Definition mark_used (i : nat) (value : bool) (ch : option SpellSourceChoicesV1)
    (st : SolverState) : SolverState :=
  MkSolver (set_spell_source_used_v1 (used st) i value ch) (pool_remaining st) (plan st).

(** A [for] loop whose body returns [true] on success; a body that returns
    [false] leaves its (undone) state to the next iteration. *)
Fixpoint try_each {A S : Type} (f : A -> S -> bool * S) (l : list A) (s : S) : bool * S :=
  match l with
  | [] => (false, s)
  | a :: l => let '(ok, s') := f a s in if ok then (true, s') else try_each f l s'
  end.

(** ** The generic pass *)

(** [while needed > 0 && *amt > 0]; one unit of fuel per unit of [amt]. *)
Fixpoint drain_color (fuel : nat) (c : ManaColor) (needed : Z) (st : SolverState)
  : Z * SolverState :=
  match fuel with
  | O => (needed, st)
  | S fuel =>
      if ((0 <? needed) && (0 <? pool_at (pool_remaining st) c))%Z
      then drain_color fuel c (needed - 1) (spend_pool c 1 st)
      else (needed, st)
  end.

Fixpoint drain_pool (colors : list ManaColor) (needed : Z) (st : SolverState)
  : Z * SolverState :=
  match colors with
  | [] => (needed, st)
  | c :: colors =>
      let '(needed, st) :=
        drain_color (Z.to_nat (pool_at (pool_remaining st) c)) c needed st in
      drain_pool colors needed st
  end.

(** Stable [sort_by_key(Reverse(yield_per_tap))] of the source indices. *)
Fixpoint insert_by_yield (sources : list ManaSource) (i : nat) (l : list nat) : list nat :=
  match l with
  | [] => [i]
  | j :: l' =>
      let yi := match sources !! i with Some s => yield_per_tap s | None => 0%Z end in
      let yj := match sources !! j with Some s => yield_per_tap s | None => 0%Z end in
      if (yj <=? yi)%Z then i :: l else j :: insert_by_yield sources i l'
  end.
Definition yield_order (sources : list ManaSource) : list nat :=
  foldr (insert_by_yield sources) [] (seq 0 (length sources)).

Definition is_convoke (ch : option SpellSourceChoicesV1) (i : nat) : bool :=
  match ch with Some ch => default false (convoke ch !! i) | None => false end.

(** The color a source is tapped for when it pays generic. *)
Definition generic_color (ch : option SpellSourceChoicesV1) (i : nat) (s : ManaSource)
  : option ManaColor :=
  match head (choices s) with
  | Some c => Some c
  | None => if is_convoke ch i then Some C else None
  end.

Fixpoint tap_for_generic (sources : list ManaSource) (ch : option SpellSourceChoicesV1)
    (order : list nat) (needed : Z) (st : SolverState) : Z * SolverState :=
  match order with
  | [] => (needed, st)
  | i :: order =>
      if (needed =? 0)%Z then (needed, st)
      else
        match used st !! i, sources !! i with
        | Some false, Some s =>
            match generic_color ch i s with
            | Some c =>
                let st := push_tap (src_id s, c) (mark_used i true ch st) in
                let produced := Z.max (yield_per_tap s) 1 in
                let spent := Z.min produced needed in
                let extra := (produced - spent)%Z in
                let st := if (0 <? extra)%Z then credit_extra c extra st else st in
                tap_for_generic sources ch order (needed - spent) st
            | None => tap_for_generic sources ch order needed st
            end
        | _, _ => tap_for_generic sources ch order needed st
        end
  end.

Definition pay_generic_with_source_choices_v1 (needed : Z) (sources : list ManaSource)
    (ch : option SpellSourceChoicesV1) (st : SolverState) : bool * SolverState :=
  let '(needed, st) := drain_pool GENERIC_POOL_PAYMENT_ORDER needed st in
  let order :=
    match ch with
    | Some _ => yield_order sources
    | None => seq 0 (length sources)
    end in
  let '(needed, st) := tap_for_generic sources ch order needed st in
  ((needed =? 0)%Z, st).

Definition pay_generic (needed : Z) (sources : list ManaSource) (st : SolverState)
  : bool * SolverState :=
  pay_generic_with_source_choices_v1 needed sources None st.

(** The terminal branch of a spell's search works on clones, which replace
    the search state only when the payment succeeds. [convoke_candidate] is
    the clone for one candidate: with a required creature, source [index] is
    tapped for one generic first. *)
Definition convoke_candidate (requires_creature : bool) (generic : Z)
    (sources : list ManaSource) (ch : option SpellSourceChoicesV1) (index : nat)
    (st : SolverState) : Z * SolverState :=
  if requires_creature then
    match sources !! index with
    | Some s =>
        ((generic - 1)%Z,
         push_tap (src_id s, default C (head (choices s))) (mark_used index true ch st))
    | None => (generic, st)
    end
  else (generic, st).

Definition try_finish (requires_creature : bool) (generic : Z) (sources : list ManaSource)
    (ch : option SpellSourceChoicesV1) (index : nat) (st : SolverState)
  : bool * SolverState :=
  if requires_creature &&
     (default false (used st !! index) || negb (is_convoke ch index))
  then (false, st)
  else
    let '(remaining, candidate) :=
      convoke_candidate requires_creature generic sources ch index st in
    let '(ok, candidate) :=
      pay_generic_with_source_choices_v1 remaining sources ch candidate in
    if ok then (true, candidate) else (false, st).

Definition finish_spell_generic_payment_v1 (generic : Z) (sources : list ManaSource)
    (ch : option SpellSourceChoicesV1) (st : SolverState) : bool * SolverState :=
  let requires_creature :=
    match ch with
    | Some c =>
        require_convoke c &&
        negb (existsb (fun t => default false (convoke c !! Arena.index (fst t)))
                (taps (plan st)))
    | None => false
    end in
  if requires_creature && (generic =? 0)%Z then (false, st)
  else
    let candidates := if requires_creature then length sources else 1 in
    try_each (try_finish requires_creature generic sources ch) (seq 0 candidates) st.

(** ** The pip search *)

Definition candidate_colors (p : Pip) : list ManaColor :=
  match p with
  | Colored c => [c]
  | Hybrid a b => [a; b]
  | Phyrexian c => [c]
  | PhyrexianAnyColor _ => GENERIC_POOL_PAYMENT_ORDER
  end.

Definition is_phyrexian (p : Pip) : bool :=
  match p with Phyrexian _ | PhyrexianAnyColor _ => true | _ => false end.

Definition sum_Z (l : list Z) : Z := foldr Z.add 0%Z l.

(** The capacity bound checked at [idx == 0] of a spell's search. *)
Definition minimum_mana (generic : Z) (ps : list Pip) : Z :=
  fold_left (fun total p => total + (if is_phyrexian p then 0 else 1))%Z ps generic.
Definition capacity (sources : list ManaSource) (st : SolverState) : Z :=
  fold_left (fun total (su : ManaSource * bool) =>
      total + (if snd su then 0 else Z.max (yield_per_tap (fst su)) 1))%Z
    (zip sources (used st)) (sum_Z (pool_remaining st)).

Section Search.
Context (sources : list ManaSource) (max_life_payment : Z)
        (generic_needed : option Z) (source_choices : option SpellSourceChoicesV1)
        (policy : PipManaPolicyV72).

Definition mana_colors (p : Pip) : list ManaColor :=
  if decide (policy = AnyType) then GENERIC_POOL_PAYMENT_ORDER else candidate_colors p.

(** First loop: spend a floating unit of [c], recurse, or put it back. *)
Definition try_pool (recur : SolverState -> bool * SolverState) (c : ManaColor)
    (st : SolverState) : bool * SolverState :=
  if (0 <? pool_at (pool_remaining st) c)%Z then
    let '(ok, st) := recur (spend_pool c 1 st) in
    if ok then (true, st) else (false, spend_pool c (-1) st)
  else (false, st).

(** Second loop, one color of one source: tap it, recurse, or untap it. *)
Definition try_tap (recur : SolverState -> bool * SolverState) (i : nat) (s : ManaSource)
    (c : ManaColor) (st : SolverState) : bool * SolverState :=
  if bool_decide (c ∈ choices s) then
    let extra := Z.max 0 (yield_per_tap s - 1) in
    let st := credit_extra c extra
                (push_tap (src_id s, c) (mark_used i true source_choices st)) in
    let '(ok, st) := recur st in
    if ok then (true, st)
    else (false, mark_used i false source_choices (pop_tap (credit_extra c (- extra) st)))
  else (false, st).

Definition try_source (recur : SolverState -> bool * SolverState) (p : Pip) (i : nat)
    (st : SolverState) : bool * SolverState :=
  match used st !! i, sources !! i with
  | Some false, Some s =>
      let colors :=
        if is_convoke source_choices i then candidate_colors p else mana_colors p in
      try_each (try_tap recur i s) colors st
  | _, _ => (false, st)
  end.

Definition try_life (recur : SolverState -> bool * SolverState) (p : Pip)
    (st : SolverState) : bool * SolverState :=
  if is_phyrexian p && (life_paid (plan st) + 2 <=? max_life_payment)%Z then
    let '(ok, st) := recur (pay_life 2 st) in
    if ok then (true, st) else (false, pay_life (-2) st)
  else (false, st).

Definition over_capacity (idx : nat) (ps : list Pip) (st : SolverState) : bool :=
  match generic_needed with
  | Some g => (idx =? 0)%nat && (capacity sources st <? minimum_mana g ps)%Z
  | None => false
  end.

(** [rest] is [pips[idx..]]. *)
Fixpoint solve_pips_with_mana_policy_v72 (idx : nat) (rest : list Pip)
    (st : SolverState) : bool * SolverState :=
  if over_capacity idx rest st then (false, st)
  else
    match rest with
    | [] =>
        match generic_needed with
        | None => (true, st)
        | Some g => finish_spell_generic_payment_v1 g sources source_choices st
        end
    | p :: rest =>
        let recur := solve_pips_with_mana_policy_v72 (S idx) rest in
        let '(ok, st) := try_each (try_pool recur) (mana_colors p) st in
        if ok then (true, st)
        else
          let '(ok, st) := try_each (try_source recur p) (seq 0 (length sources)) st in
          if ok then (true, st) else try_life recur p st
    end.
End Search.

Definition solve_pips_with_life_budget_v1 (ps : list Pip) (idx : nat)
    (sources : list ManaSource) (max_life_payment : Z) (generic_needed : option Z)
    (ch : option SpellSourceChoicesV1) (st : SolverState) : bool * SolverState :=
  solve_pips_with_mana_policy_v72 sources max_life_payment generic_needed ch Ordinary
    idx ps st.

Definition solve_pips (ps : list Pip) (idx : nat) (sources : list ManaSource)
    (st : SolverState) : bool * SolverState :=
  solve_pips_with_life_budget_v1 ps idx sources i64_max None None st.

Definition initial_state (pool : Pool) (sources : list ManaSource) : SolverState :=
  MkSolver (replicate (length sources) false) pool default_plan.

(** [u32::from(cost.generic) + u32::from(cost.x_count) * u32::from(x_value)]:
    at most 255 + 255 * 255, so no [u32] overflow. *)
Definition generic_total (cost : Cost) (x_value : Z) : Z :=
  (generic cost + x_count cost * x_value)%Z.

Definition solve (cost : Cost) (x_value : Z) (pool : Pool) (sources : list ManaSource)
  : option PaymentPlan :=
  let '(ok, st) := solve_pips (pips cost) 0 sources (initial_state pool sources) in
  if ok then
    let '(ok, st) := pay_generic (generic_total cost x_value) sources st in
    if ok then Some (plan st) else None
  else None.

(** Rule 119.4. *)
Definition life_payment_affordable (life_paid life : Z) : bool :=
  ((life_paid =? 0) || (life_paid <=? life))%Z.

(** ** Restricted floating mana and the callers of [solve]

    [RestrictedManaUnit] is one floating restricted unit; [permits] stands
    for the guard both loops share, [authenticated_restricted_unit_v60 &&
    restriction_permits(..)], evaluated for the spell being paid. *)
Record RestrictedManaUnit := MkUnit { unit_color : ManaColor; permits : bool }.

(** What [can_pay_spell] reads of the game state: the player's floating pool,
    restricted units and life, and the sources [gather_sources_for_spell]
    returns for the spell. *)
Record PayerView := MkPayer {
  mana_pool : Pool;
  restricted_units : list RestrictedManaUnit;
  payer_life : Z;
  payer_sources : list ManaSource;
}.

Definition spell_floating_pool (v : PayerView) : Pool :=
  fold_left
    (fun pool u =>
       if permits u
       then alter (fun x => Z.min 255 (x + 1)) (pool_index (unit_color u)) pool
       else pool)
    (restricted_units v) (mana_pool v).

Fixpoint separate_from (index : nat) (us : list RestrictedManaUnit) (p : PaymentPlan)
  : PaymentPlan :=
  match us with
  | [] => p
  | u :: us =>
      let p :=
        if permits u && (0 <? pool_at (pool_used p) (unit_color u))%Z
        then MkPlan (restricted_pool_used p ++ [index]) (taps p)
               (bump (unit_color u) (-1) (pool_used p)) (life_paid p) (surplus p)
        else p in
      separate_from (S index) us p
  end.
Definition separate_restricted_spending (p : PaymentPlan) (v : PayerView) : PaymentPlan :=
  separate_from 0 (restricted_units v) p.

Definition can_pay_spell (cost : Cost) (x_value : Z) (v : PayerView)
  : option PaymentPlan :=
  match solve cost x_value (spell_floating_pool v) (payer_sources v) with
  | Some p =>
      if life_payment_affordable (life_paid p) (payer_life v)
      then Some (separate_restricted_spending p v) else None
  | None => None
  end.

Definition can_pay_excluding_sources (cost : Cost) (x_value : Z) (v : PayerView)
    (excluded : list ObjectId) : option PaymentPlan :=
  can_pay_spell cost x_value
    (MkPayer (mana_pool v) (restricted_units v) (payer_life v)
       (filter (fun s => src_id s ∉ excluded) (payer_sources v))).

Definition can_pay_excluding_source (cost : Cost) (x_value : Z) (v : PayerView)
    (excluded : ObjectId) : option PaymentPlan :=
  can_pay_excluding_sources cost x_value v [excluded].

(** [for k in 0..=max_k]: exile the first [k] graveyard cards. *)
Fixpoint delve_from (n k : nat) (cost : Cost) (x_value : Z) (v : PayerView)
    (graveyard : list ObjectId) : option (PaymentPlan * list ObjectId) :=
  let reduced := MkCost (pips cost) (generic cost - Z.of_nat k) (x_count cost) in
  match can_pay_spell reduced x_value v with
  | Some p => Some (p, take k graveyard)
  | None => match n with O => None | S n => delve_from n (S k) cost x_value v graveyard end
  end.
Definition delve_payment_plan (cost : Cost) (x_value : Z) (v : PayerView)
    (graveyard : list ObjectId) : option (PaymentPlan * list ObjectId) :=
  delve_from (Nat.min (length graveyard) (Z.to_nat (generic cost))) 0 cost x_value v graveyard.
