(* ===== verification/ManaSearch.v ===== *)
(** * The pip search: undo, soundness and completeness

    [pip_step] says, independently of the search, the legal ways of paying
    one pip; [pips_paid] chains them over a cost. The search leaves the state
    untouched when it fails, finds only legal payments, and finds one
    whenever a legal payment with a payable rest exists. *)

From S2P Require Import Prelude Ids Mana.

(* ------------------------------------------------------------------ *)
(** ** Specification *)

(** [SpellSourceChoicesV1] marks all aliases of one permanent together. *)
Definition alias_consistent (ch : option SpellSourceChoicesV1) (u : list bool) : Prop :=
  match ch with
  | None => True
  | Some ch => forall i j a x y,
      aliases ch !! i = Some a -> aliases ch !! j = Some a ->
      u !! i = Some x -> u !! j = Some y -> x = y
  end.

Definition pool_ok (p : Pool) : Prop :=
  length p = 6 /\ Forall (fun x => 0 <= x <= 255)%Z p.

(** What the types of the three [&mut] arguments guarantee, plus alias
    consistency. *)
Record state_ok (ch : option SpellSourceChoicesV1) (st : SolverState) : Prop := {
  ok_pool : pool_ok (pool_remaining st);
  ok_pool_used : pool_ok (pool_used (plan st));
  ok_surplus : pool_ok (surplus (plan st));
  ok_alias : alias_consistent ch (used st);
  ok_alias_len : match ch with Some ch => length (aliases ch) = length (used st) | None => True end;
}.

Section Spec.
Context (sources : list ManaSource) (max_life : Z)
        (ch : option SpellSourceChoicesV1) (policy : PipManaPolicyV72).

Definition source_colors (p : Pip) (i : nat) : list ManaColor :=
  if is_convoke ch i then candidate_colors p else mana_colors policy p.

Definition tap_state (i : nat) (s : ManaSource) (c : ManaColor) (st : SolverState)
  : SolverState :=
  credit_extra c (Z.max 0 (yield_per_tap s - 1))
    (push_tap (src_id s, c) (mark_used i true ch st)).

(** One pip paid from floating mana, by tapping an unused source, or with
    two life. *)
Inductive pip_step : Pip -> SolverState -> SolverState -> Prop :=
  | step_pool p c st :
      c ∈ mana_colors policy p -> (0 < pool_at (pool_remaining st) c)%Z ->
      pip_step p st (spend_pool c 1 st)
  | step_tap p i s c st :
      used st !! i = Some false -> sources !! i = Some s ->
      c ∈ source_colors p i -> c ∈ choices s ->
      pip_step p st (tap_state i s c st)
  | step_life p st :
      is_phyrexian p = true -> (life_paid (plan st) + 2 <= max_life)%Z ->
      pip_step p st (pay_life 2 st).

Inductive pips_paid : list Pip -> SolverState -> SolverState -> Prop :=
  | paid_nil st : pips_paid [] st st
  | paid_cons p ps st st1 st2 :
      pip_step p st st1 -> pips_paid ps st1 st2 -> pips_paid (p :: ps) st st2.
End Spec.

(* ------------------------------------------------------------------ *)
(** ** Pools *)

(** Destructs a pool of length six. *)
Ltac six p H :=
  destruct p as [|? [|? [|? [|? [|? [|? [|]]]]]]]; try discriminate H.

Lemma pool_at_range p c : pool_ok p -> (0 <= pool_at p c <= 255)%Z.
Proof.
  intros [L F]. six p L.
  rewrite !Forall_cons in F. unfold pool_at. destruct c; cbn; lia.
Qed.

Lemma length_bump c d p : length (bump c d p) = length p.
Proof. unfold bump. apply length_alter. Qed.

Lemma bump_ok c d p : pool_ok p -> pool_ok (bump c d p).
Proof.
  intros [L F]. split; [by rewrite length_bump|].
  apply Forall_lookup. intros i x. unfold bump. rewrite list_lookup_alter.
  case_decide as D; intros H; [|by eapply (Forall_lookup_1 _ _ _ _ F H)].
  apply fmap_Some in H as (y & Hy & ->). subst i.
  unfold wrap_u8. pose proof (Z.mod_pos_bound (y + d) 256). lia.
Qed.

Lemma wrap_u8_add x d : wrap_u8 (wrap_u8 (x + d) - d) = wrap_u8 x.
Proof.
  unfold wrap_u8. rewrite Zminus_mod_idemp_l. f_equal. lia.
Qed.

(** Undoing an addition restores the array, whether or not it wrapped. *)
Lemma bump_undo c d p : pool_ok p -> bump c (- d) (bump c d p) = p.
Proof.
  intros [L F]. apply list_eq. intros i. unfold bump. rewrite !list_lookup_alter.
  case_decide as D; [|done]. subst i. rewrite decide_True by done.
  destruct (p !! pool_index c) as [y|] eqn:E; cbn; [|done].
  pose proof (Forall_lookup_1 _ _ _ _ F E) as Hy; cbn in Hy. f_equal.
  replace (wrap_u8 (y + d) + - d)%Z with (wrap_u8 (y + d) - d)%Z by lia.
  rewrite wrap_u8_add. by apply wrap_u8_small.
Qed.

Lemma bump_undo' c d p : pool_ok p -> bump c d (bump c (- d) p) = p.
Proof. intros H. rewrite <- (Z.opp_involutive d) at 1. by apply bump_undo. Qed.

#[export] Hint Resolve bump_ok : kernel.

(* ------------------------------------------------------------------ *)
(** ** [used] *)

Lemma length_set_used u i v ch : length (set_spell_source_used_v1 u i v ch) = length u.
Proof. destruct ch; cbn; [apply length_imap | apply length_insert]. Qed.

Lemma lookup_set_used u i v ch j :
  set_spell_source_used_v1 u i v (Some ch) !! j =
  (fun x => match aliases ch !! j, aliases ch !! i with
            | Some a, Some b => if decide (a = b) then v else x
            | _, _ => x
            end) <$> u !! j.
Proof. cbn. apply list_lookup_imap. Qed.

Lemma set_used_consistent u i v ch :
  alias_consistent ch u -> alias_consistent ch (set_spell_source_used_v1 u i v ch).
Proof.
  destruct ch as [ch|]; [|done]. intros H j k a x y Hj Hk.
  rewrite !lookup_set_used, Hj, Hk.
  destruct (u !! j) as [xj|] eqn:Ej, (u !! k) as [xk|] eqn:Ek; cbn; try done.
  intros [= <-] [= <-]. destruct (aliases ch !! i); [|by apply (H j k a)].
  case_decide; [done|by apply (H j k a)].
Qed.

Lemma set_used_undo ch u i :
  alias_consistent ch u ->
  match ch with Some ch => length (aliases ch) = length u | None => True end ->
  u !! i = Some false ->
  set_spell_source_used_v1 (set_spell_source_used_v1 u i true ch) i false ch = u.
Proof.
  intros Hc Hl Hi. destruct ch as [ch|].
  - apply list_eq. intros j. rewrite !lookup_set_used.
    destruct (u !! j) as [x|] eqn:Ej; cbn; [|done].
    destruct (aliases ch !! j) as [a|] eqn:Ea; [|done].
    destruct (aliases ch !! i) as [b|] eqn:Eb; [|done].
    case_decide; [subst b|done]. f_equal. by apply (Hc i j a).
  - cbn. by rewrite list_insert_insert_eq, list_insert_id.
Qed.

(* ------------------------------------------------------------------ *)
(** ** The elementary mutations keep the state well formed and are undone
    exactly *)

Section Undo.
Context (ch : option SpellSourceChoicesV1).
Implicit Types st : SolverState.

Lemma spend_pool_ok c d st : state_ok ch st -> state_ok ch (spend_pool c d st).
Proof. intros []. split; cbn; auto with kernel. Qed.

Lemma credit_extra_ok c d st : state_ok ch st -> state_ok ch (credit_extra c d st).
Proof. intros []. split; cbn; auto with kernel. Qed.

Lemma push_tap_ok t st : state_ok ch st -> state_ok ch (push_tap t st).
Proof. intros []. split; cbn; auto with kernel. Qed.

Lemma pay_life_ok d st : state_ok ch st -> state_ok ch (pay_life d st).
Proof. intros []. split; cbn; auto with kernel. Qed.

Lemma mark_used_ok i v st : state_ok ch st -> state_ok ch (mark_used i v ch st).
Proof.
  intros []. split; cbn; auto using set_used_consistent.
  destruct ch; [|done]. by rewrite length_set_used.
Qed.

Lemma tap_state_ok i s c st : state_ok ch st -> state_ok ch (tap_state ch i s c st).
Proof. intros. by apply credit_extra_ok, push_tap_ok, mark_used_ok. Qed.

Lemma spend_pool_undo c st :
  state_ok ch st -> spend_pool c (-1) (spend_pool c 1 st) = st.
Proof.
  intros [Hp Hu _ _]. destruct st as [u p [r t pu l s]]; unfold spend_pool; cbn in *.
  by rewrite (bump_undo' c 1), (bump_undo c 1).
Qed.

Lemma pay_life_undo st : pay_life (-2) (pay_life 2 st) = st.
Proof.
  destruct st as [u p [r t pu l s]]; unfold pay_life; cbn.
  by replace (l + 2 + -2)%Z with l by lia.
Qed.

Lemma tap_undo i s c st :
  state_ok ch st -> used st !! i = Some false ->
  mark_used i false ch
    (pop_tap (credit_extra c (- Z.max 0 (yield_per_tap s - 1)) (tap_state ch i s c st)))
  = st.
Proof.
  intros [Hp _ Hs Ha Hl] Hi. destruct st as [u p [r t pu l sp]].
  unfold tap_state, mark_used, pop_tap, credit_extra, push_tap; cbn in *.
  rewrite !bump_undo by done. rewrite length_app; cbn.
  rewrite take_app_le, take_ge by lia. by rewrite set_used_undo.
Qed.
End Undo.
#[export] Hint Resolve spend_pool_ok credit_extra_ok push_tap_ok pay_life_ok mark_used_ok
  tap_state_ok : kernel.

(* ------------------------------------------------------------------ *)
(** ** Loops *)

Section TryEach.
Context {A S : Type} (f : A -> S -> bool * S).

(** If every body that fails restores the state, so does the loop. *)
Lemma try_each_undo l s s' :
  (forall a s', a ∈ l -> f a s = (false, s') -> s' = s) ->
  try_each f l s = (false, s') -> s' = s.
Proof.
  induction l as [|a l IH]; cbn; intros Hf.
  - by intros [= <-].
  - destruct (f a s) as [ok s1] eqn:E. destruct ok; [done|].
    assert (s1 = s) as -> by (eapply Hf; [left|done]).
    apply IH. intros. eapply Hf; [by right|done].
Qed.

Lemma try_each_sound l s s' :
  (forall a s', a ∈ l -> f a s = (false, s') -> s' = s) ->
  try_each f l s = (true, s') -> exists a, a ∈ l /\ f a s = (true, s').
Proof.
  induction l as [|a l IH]; cbn; intros Hf H; [done|].
  destruct (f a s) as [ok s1] eqn:E. destruct ok.
  - injection H as ->. exists a. split; [left|done].
  - assert (s1 = s) as -> by (eapply Hf; [left|done]).
    destruct IH as (b & ? & ?); [|done|].
    + intros. eapply Hf; [by right|done].
    + exists b. split; [by right|done].
Qed.

Lemma try_each_complete l s a :
  (forall a s', a ∈ l -> f a s = (false, s') -> s' = s) ->
  a ∈ l -> fst (f a s) = true -> fst (try_each f l s) = true.
Proof.
  induction l as [|b l IH]; cbn; intros Hf Ha H; [by apply not_elem_of_nil in Ha|].
  destruct (f b s) as [ok s1] eqn:E. destruct ok; [done|].
  assert (s1 = s) as -> by (eapply Hf; [left|done]).
  apply elem_of_cons in Ha as [->|Ha]; [by rewrite E in H|].
  apply IH; [|done|done]. intros. eapply Hf; [by right|done].
Qed.
End TryEach.

(* ------------------------------------------------------------------ *)
(** ** One pip: the three kinds of branch *)

Section Branches.
Context (max_life : Z) (sources : list ManaSource)
        (ch : option SpellSourceChoicesV1) (policy : PipManaPolicyV72).
Context (recur : SolverState -> bool * SolverState).
Context (recur_undo : forall st st',
           state_ok ch st -> recur st = (false, st') -> st' = st).
Implicit Types st : SolverState.

Lemma try_pool_undo c st st' :
  state_ok ch st -> try_pool recur c st = (false, st') -> st' = st.
Proof using recur_undo.
  unfold try_pool. intros Hok. destruct (0 <? _)%Z; [|by intros [= <-]].
  destruct (recur _) as [ok st1] eqn:E. destruct ok; [done|]. intros [= <-].
  rewrite (recur_undo _ _ (spend_pool_ok _ _ _ _ Hok) E).
  by apply (spend_pool_undo ch).
Qed.

Lemma try_pool_true c st st' :
  try_pool recur c st = (true, st') ->
  (0 < pool_at (pool_remaining st) c)%Z /\ recur (spend_pool c 1 st) = (true, st').
Proof.
  unfold try_pool. destruct (0 <? _)%Z eqn:P; [|done]. bool_to_prop.
  destruct (recur _) as [[|] st1]; [|done]. by intros [= <-].
Qed.

Lemma try_tap_undo i s c st st' :
  state_ok ch st -> used st !! i = Some false ->
  try_tap ch recur i s c st = (false, st') -> st' = st.
Proof using recur_undo.
  unfold try_tap. intros Hok Hi. case_bool_decide; [|by intros [= <-]].
  destruct (recur _) as [ok st1] eqn:E. destruct ok; [done|]. intros [= <-].
  rewrite (recur_undo _ _ (tap_state_ok ch i s c st Hok) E). by apply tap_undo.
Qed.

Lemma try_tap_true i s c st st' :
  try_tap ch recur i s c st = (true, st') ->
  c ∈ choices s /\ recur (tap_state ch i s c st) = (true, st').
Proof.
  unfold try_tap. case_bool_decide; [|done].
  fold (tap_state ch i s c st). destruct (recur _) as [[|] st1]; [|done].
  by intros [= <-].
Qed.

Lemma try_source_undo p i st st' :
  state_ok ch st -> try_source sources ch policy recur p i st = (false, st') -> st' = st.
Proof using recur_undo.
  unfold try_source. intros Hok.
  destruct (used st !! i) as [[|]|] eqn:Hi; [by intros [= <-]| |by intros [= <-]].
  destruct (sources !! i) as [s|]; [|by intros [= <-]].
  apply try_each_undo. intros c st1 _. by apply try_tap_undo.
Qed.

Lemma try_source_true p i st st' :
  state_ok ch st -> try_source sources ch policy recur p i st = (true, st') ->
  exists s c, used st !! i = Some false /\ sources !! i = Some s /\
    c ∈ source_colors ch policy p i /\ c ∈ choices s /\
    recur (tap_state ch i s c st) = (true, st').
Proof using recur_undo.
  unfold try_source. intros Hok.
  destruct (used st !! i) as [[|]|] eqn:Hi; try done.
  destruct (sources !! i) as [s|]; [|done]. intros H.
  apply try_each_sound in H as (c & Hc & H).
  - apply try_tap_true in H as [? ?]. exists s, c. by repeat split.
  - intros c st1 _. by apply try_tap_undo.
Qed.

Lemma try_life_undo p st st' :
  state_ok ch st -> try_life max_life recur p st = (false, st') -> st' = st.
Proof using recur_undo.
  unfold try_life. intros Hok. destruct (_ && _); [|by intros [= <-]].
  destruct (recur _) as [ok st1] eqn:E. destruct ok; [done|]. intros [= <-].
  rewrite (recur_undo _ _ (pay_life_ok _ _ _ Hok) E). apply pay_life_undo.
Qed.

Lemma try_life_true p st st' :
  try_life max_life recur p st = (true, st') ->
  is_phyrexian p = true /\ (life_paid (plan st) + 2 <= max_life)%Z /\
  recur (pay_life 2 st) = (true, st').
Proof.
  unfold try_life. destruct (_ && _) eqn:P; [|done]. bool_to_prop.
  destruct (recur _) as [[|] st1]; [|done]. by intros [= <-].
Qed.

Lemma try_pools_undo p st st' :
  state_ok ch st -> try_each (try_pool recur) (mana_colors policy p) st = (false, st') ->
  st' = st.
Proof using recur_undo. intros Hok. apply try_each_undo. intros c st1 _. by apply try_pool_undo. Qed.

Lemma try_sources_undo p st st' :
  state_ok ch st ->
  try_each (try_source sources ch policy recur p) (seq 0 (length sources)) st = (false, st') ->
  st' = st.
Proof using recur_undo. intros Hok. apply try_each_undo. intros i st1 _. by apply try_source_undo. Qed.

(** The body of the search for one pip, as one function. *)
Definition pay_pip (p : Pip) (st : SolverState) : bool * SolverState :=
  let '(ok, st) := try_each (try_pool recur) (mana_colors policy p) st in
  if ok then (true, st)
  else
    let '(ok, st) :=
      try_each (try_source sources ch policy recur p) (seq 0 (length sources)) st in
    if ok then (true, st) else try_life max_life recur p st.

Lemma pay_pip_undo p st st' :
  state_ok ch st -> pay_pip p st = (false, st') -> st' = st.
Proof using recur_undo.
  unfold pay_pip. intros Hok.
  destruct (try_each _ _ st) as [[|] st1] eqn:E1; [done|].
  apply try_pools_undo in E1 as ->; [|done].
  destruct (try_each _ (seq _ _) st) as [[|] st2] eqn:E2; [done|].
  apply try_sources_undo in E2 as ->; [|done]. by apply try_life_undo.
Qed.

Lemma pay_pip_sound p st st' :
  state_ok ch st -> pay_pip p st = (true, st') ->
  exists st1, pip_step sources max_life ch policy p st st1 /\ recur st1 = (true, st').
Proof using recur_undo.
  unfold pay_pip. intros Hok.
  destruct (try_each _ _ st) as [[|] st1] eqn:E1.
  { intros [= <-]. apply try_each_sound in E1 as (c & Hc & H).
    - apply try_pool_true in H as [? ?]. eexists. split; [by apply step_pool|done].
    - intros c st2 _. by apply try_pool_undo. }
  apply try_pools_undo in E1 as ->; [|done].
  destruct (try_each _ (seq _ _) st) as [[|] st2] eqn:E2.
  { intros [= <-]. apply try_each_sound in E2 as (i & Hi & H).
    - apply try_source_true in H as (s & c & ? & ? & ? & ? & ?); [|done].
      eexists. split; [by eapply step_tap|done].
    - intros i st3 _. by apply try_source_undo. }
  apply try_sources_undo in E2 as ->; [|done]. intros H.
  apply try_life_true in H as (? & ? & ?). eexists. split; [by apply step_life|done].
Qed.

Lemma fst_false (r : bool * SolverState) : fst r <> true -> exists st, r = (false, st).
Proof. destruct r as [[|] st]; [done|]. by exists st. Qed.

Lemma pay_pip_complete p st st1 :
  state_ok ch st -> pip_step sources max_life ch policy p st st1 ->
  fst (recur st1) = true -> fst (pay_pip p st) = true.
Proof using recur_undo.
  unfold pay_pip. intros Hok Hs Hr.
  destruct (try_each _ _ st) as [[|] st2] eqn:E1; [done|].
  pose proof (try_pools_undo _ _ _ Hok E1); subst st2.
  destruct (try_each _ (seq _ _) st) as [[|] st2] eqn:E2; [done|].
  pose proof (try_sources_undo _ _ _ Hok E2); subst st2.
  inversion Hs as [? c ? Hc Hp|? i s c ? Hi Hsrc Hcol Hch|? ? Hph Hl]; subst.
  - enough (fst (try_each (try_pool recur) (mana_colors policy p) st) = true) as Ht
      by (by rewrite E1 in Ht).
    apply (try_each_complete _ _ _ c); [|done|].
    + intros c' st' _. by apply try_pool_undo.
    + unfold try_pool. apply Z.ltb_lt in Hp as ->.
      by destruct (recur _) as [[|] ?].
  - enough (fst (try_each (try_source sources ch policy recur p)
                   (seq 0 (length sources)) st) = true) as Ht by (by rewrite E2 in Ht).
    apply (try_each_complete _ _ _ i).
    + intros j st' _. by apply try_source_undo.
    + apply elem_of_seq. apply lookup_lt_Some in Hsrc. lia.
    + unfold try_source. rewrite Hi, Hsrc.
      apply (try_each_complete _ _ _ c); [|done|].
      * intros c' st' _. by apply try_tap_undo.
      * unfold try_tap. rewrite bool_decide_true by done.
        fold (tap_state ch i s c st). by destruct (recur _) as [[|] ?].
  - unfold try_life. rewrite Hph. apply Z.leb_le in Hl as ->. cbn.
    by destruct (recur _) as [[|] ?].
Qed.
End Branches.

(* ------------------------------------------------------------------ *)
(** ** The whole search *)

Lemma pip_step_ok sources max_life ch policy p st st' :
  pip_step sources max_life ch policy p st st' -> state_ok ch st -> state_ok ch st'.
Proof. destruct 1; auto with kernel. Qed.

Lemma finish_undo g sources ch st st' :
  finish_spell_generic_payment_v1 g sources ch st = (false, st') -> st' = st.
Proof.
  unfold finish_spell_generic_payment_v1.
  destruct (_ && (g =? 0)%Z); [by intros [= <-]|].
  apply try_each_undo. intros i s _. unfold try_finish.
  destruct (_ && (_ || _)); [by intros [= <-]|].
  destruct (convoke_candidate _ _ _ _ _ _) as [n c].
  destruct (pay_generic_with_source_choices_v1 _ _ _ _) as [[|] ?]; [done|].
  by intros [= <-].
Qed.

Section SearchFacts.
Context (sources : list ManaSource) (max_life : Z) (gen : option Z)
        (ch : option SpellSourceChoicesV1) (policy : PipManaPolicyV72).

Abbreviation search := (solve_pips_with_mana_policy_v72 sources max_life gen ch policy).

(** The terminal branch of the search. *)
Definition finish (st : SolverState) : bool * SolverState :=
  match gen with
  | None => (true, st)
  | Some g => finish_spell_generic_payment_v1 g sources ch st
  end.

Lemma finish_gen_undo st st' : finish st = (false, st') -> st' = st.
Proof. unfold finish. destruct gen; [apply finish_undo | done]. Qed.

Lemma search_cons idx p rest st :
  search idx (p :: rest) st =
  if over_capacity sources gen idx (p :: rest) st then (false, st)
  else pay_pip max_life sources ch policy (search (S idx) rest) p st.
Proof. reflexivity. Qed.

Lemma search_nil idx st :
  search idx [] st =
  if over_capacity sources gen idx [] st then (false, st) else finish st.
Proof. reflexivity. Qed.

Lemma search_undo rest : forall idx st st',
  state_ok ch st -> search idx rest st = (false, st') -> st' = st.
Proof.
  induction rest as [|p rest IH]; intros idx st st' Hok.
  - rewrite search_nil. destruct (over_capacity _ _ _ _ _); [by intros [= <-]|].
    apply finish_gen_undo.
  - rewrite search_cons. destruct (over_capacity _ _ _ _ _); [by intros [= <-]|].
    apply pay_pip_undo; [|done]. intros. by eapply IH.
Qed.

Lemma search_sound rest : forall idx st st',
  state_ok ch st -> search idx rest st = (true, st') ->
  exists st1, pips_paid sources max_life ch policy rest st st1 /\ finish st1 = (true, st').
Proof.
  induction rest as [|p rest IH]; intros idx st st' Hok.
  - rewrite search_nil. destruct (over_capacity _ _ _ _ _); [done|].
    intros H. exists st. split; [constructor|done].
  - rewrite search_cons. destruct (over_capacity _ _ _ _ _); [done|]. intros H.
    apply pay_pip_sound in H as (st1 & Hs & H); [|intros; by eapply search_undo|done].
    apply IH in H as (st2 & ? & ?); [|by eapply pip_step_ok].
    exists st2. split; [by econstructor|done].
Qed.

Lemma over_capacity_later idx ps st : over_capacity sources gen (S idx) ps st = false.
Proof. unfold over_capacity. by destruct gen. Qed.

Lemma search_complete rest : forall idx st st1,
  state_ok ch st -> pips_paid sources max_life ch policy rest st st1 ->
  fst (finish st1) = true -> over_capacity sources gen idx rest st = false ->
  fst (search idx rest st) = true.
Proof.
  induction rest as [|p rest IH]; intros idx st st1 Hok Hp Hf Ho.
  - inversion Hp; subst. by rewrite search_nil, Ho.
  - inversion Hp as [|? ? ? st2 ? Hs Hps]; subst. rewrite search_cons, Ho.
    apply (pay_pip_complete _ _ _ _ _ (search_undo rest (S idx))
             p st st2); [done|done|].
    apply (IH (S idx) st2 st1); [by eapply pip_step_ok|done|done|].
    apply over_capacity_later.
Qed.
End SearchFacts.
