(* ===== verification/ManaSolve.v ===== *)
(** * What a payment plan pays

    [available] measures the mana a search state can still produce; every
    legal payment lowers it by exactly the mana it pays. On top of it: the
    generic pass succeeds exactly when enough mana is left, plans returned by
    [solve] pay their cost and nothing else, the search of a spell's total
    cost is exact, and [solve] is exact for costs without Phyrexian pips. *)

From S2P Require Import Prelude Ids Mana ManaSearch.

(* ------------------------------------------------------------------ *)
(** ** Specification *)

Definition source_yield (s : ManaSource) : Z :=
  if decide (choices s = []) then 0%Z else Z.max (yield_per_tap s) 1.

Fixpoint unused_yield (sources : list ManaSource) (u : list bool) : Z :=
  match sources, u with
  | s :: sources, b :: u => ((if b then 0 else source_yield s) + unused_yield sources u)%Z
  | _, _ => 0%Z
  end.

Definition total_yield (sources : list ManaSource) : Z := sum_Z (source_yield <$> sources).

Definition available (sources : list ManaSource) (st : SolverState) : Z :=
  (sum_Z (pool_remaining st) + unused_yield sources (used st))%Z.

(** The legal ways to pay part of a generic requirement: any floating unit,
    or any unused source for any of its colors, its excess mana floating. *)
Inductive generic_step (sources : list ManaSource)
  : Z -> SolverState -> Z -> SolverState -> Prop :=
  | gen_pool n c st :
      (0 < n)%Z -> (0 < pool_at (pool_remaining st) c)%Z ->
      generic_step sources n st (n - 1) (spend_pool c 1 st)
  | gen_tap n i s c st :
      (0 < n)%Z -> used st !! i = Some false -> sources !! i = Some s -> c ∈ choices s ->
      let spent := Z.min (Z.max (yield_per_tap s) 1) n in
      generic_step sources n st (n - spent)
        (credit_extra c (Z.max (yield_per_tap s) 1 - spent)
           (push_tap (src_id s, c) (mark_used i true None st))).

Inductive generic_run (sources : list ManaSource)
  : Z -> SolverState -> Z -> SolverState -> Prop :=
  | run_refl n st : generic_run sources n st n st
  | run_step n st n1 st1 n2 st2 :
      generic_step sources n st n1 st1 -> generic_run sources n1 st1 n2 st2 ->
      generic_run sources n st n2 st2.

Definition generic_paid (sources : list ManaSource) (n : Z) (st st' : SolverState) : Prop :=
  generic_run sources n st 0 st'.

(** The mana a plan of [sources] over [pool] can ever handle fits in a [u8]. *)
Definition mana_fits (sources : list ManaSource) (pool : Pool) : Prop :=
  pool_ok pool /\ (sum_Z pool + total_yield sources <= 255)%Z.

Definition tap_of (sources : list ManaSource) (i : nat) (t : ObjectId * ManaColor) : Prop :=
  exists s, sources !! i = Some s /\ fst t = src_id s /\ snd t ∈ choices s.

Definition tapped_yield (sources : list ManaSource) (idxs : list nat) : Z :=
  sum_Z ((fun i => match sources !! i with Some s => source_yield s | None => 0%Z end) <$> idxs).

(** The bookkeeping every partial payment keeps. *)
Record ledger (sources : list ManaSource) (pool0 : Pool) (st : SolverState)
    (idxs : list nat) : Prop := {
  led_ok : state_ok None st;
  led_len : length (used st) = length sources;
  led_pool : forall c, (pool_at (pool_remaining st) c + pool_at (pool_used (plan st)) c =
                        pool_at pool0 c + pool_at (surplus (plan st)) c)%Z;
  led_bound : (sum_Z pool0 + sum_Z (surplus (plan st)) + unused_yield sources (used st)
               <= 255)%Z;
  led_nodup : NoDup idxs;
  led_taps : Forall2 (tap_of sources) idxs (taps (plan st));
  led_used : forall i, used st !! i = Some true <-> i ∈ idxs;
  led_yield : (unused_yield sources (used st) + tapped_yield sources idxs =
               total_yield sources)%Z;
}.

(** A plan that pays [mana] mana and [life] life from [pool] and [sources]:
    distinct sources tapped for colors they make, no color overdrawn, and the
    mana produced and drawn is the mana paid plus the recorded surplus. *)
Record plan_pays (sources : list ManaSource) (pool : Pool) (mana life : Z)
    (p : PaymentPlan) : Prop := {
  pays_taps : exists idxs,
      NoDup idxs /\ Forall2 (tap_of sources) idxs (taps p) /\
      (sum_Z (pool_used p) + tapped_yield sources idxs = mana + sum_Z (surplus p))%Z;
  pays_pool : forall c, (0 <= pool_at (pool_used p) c <=
                         pool_at pool c + pool_at (surplus p) c)%Z;
  pays_surplus : forall c, (0 <= pool_at (surplus p) c)%Z;
  pays_life : life_paid p = life;
}.

(* ------------------------------------------------------------------ *)
(** ** Arithmetic of pools and yields *)

Lemma sum_Z_app l1 l2 : sum_Z (l1 ++ l2) = (sum_Z l1 + sum_Z l2)%Z.
Proof.
  induction l1 as [|x l1 IH]; [done|]. change (x + sum_Z (l1 ++ l2) = x + sum_Z l1 + sum_Z l2)%Z.
  rewrite IH. lia.
Qed.

Lemma pool_at_bump_eq c d p :
  length p = 6 -> pool_at (bump c d p) c = wrap_u8 (pool_at p c + d).
Proof. intros L. six p L. by destruct c. Qed.

Lemma pool_at_bump_ne c c' d p : c <> c' -> pool_at (bump c d p) c' = pool_at p c'.
Proof.
  intros N. unfold pool_at, bump. rewrite list_lookup_total_alter_ne; [done|].
  by destruct c, c'.
Qed.

Lemma sum_bump c d p :
  pool_ok p -> (0 <= pool_at p c + d <= 255)%Z ->
  sum_Z (bump c d p) = (sum_Z p + d)%Z.
Proof.
  intros [L _] H. six p L.
  destruct c; cbn in *; rewrite wrap_u8_small by lia; lia.
Qed.

Lemma pool_at_le_sum c p : pool_ok p -> (pool_at p c <= sum_Z p)%Z.
Proof.
  intros [L F]. six p L. rewrite !Forall_cons in F. destruct c; cbn; lia.
Qed.

Lemma sum_nonneg p : pool_ok p -> (0 <= sum_Z p)%Z.
Proof. intros [L F]. six p L. rewrite !Forall_cons in F. cbn. lia. Qed.

Lemma sum_by_color p :
  length p = 6 ->
  sum_Z p = (pool_at p W + pool_at p U + pool_at p B + pool_at p R + pool_at p G
             + pool_at p C)%Z.
Proof. intros L. six p L. cbn. lia. Qed.

Lemma pool_zero p : pool_ok p -> (forall c, pool_at p c = 0%Z) -> sum_Z p = 0%Z.
Proof. intros [L _] H. rewrite sum_by_color, !H by done. done. Qed.

Lemma source_yield_nonneg s : (0 <= source_yield s)%Z.
Proof. unfold source_yield. case_decide; lia. Qed.

Lemma source_yield_choice s c :
  c ∈ choices s -> source_yield s = Z.max (yield_per_tap s) 1.
Proof.
  unfold source_yield. intros H. rewrite decide_False; [done|].
  intros E. rewrite E in H. by apply not_elem_of_nil in H.
Qed.

Lemma unused_yield_nonneg sources u : (0 <= unused_yield sources u)%Z.
Proof.
  revert u. induction sources as [|s sources IH]; intros [|b u]; cbn; try lia.
  pose proof (IH u). pose proof (source_yield_nonneg s). destruct b; lia.
Qed.

Lemma unused_yield_mark sources : forall u i s,
  u !! i = Some false -> sources !! i = Some s ->
  unused_yield sources (<[i := true]> u) = (unused_yield sources u - source_yield s)%Z.
Proof.
  induction sources as [|s' sources IH]; intros [|b u] [|i] s; csimpl; try done.
  - intros [= ->] [= ->]. lia.
  - intros Hu Hs. rewrite (IH _ _ _ Hu Hs). lia.
Qed.

Lemma unused_yield_fresh sources :
  unused_yield sources (replicate (length sources) false) = total_yield sources.
Proof. induction sources as [|s sources IH]; cbn; [done|]. by rewrite IH. Qed.

Lemma unused_yield_all_used sources u :
  length u = length sources ->
  (forall i s, sources !! i = Some s -> choices s <> [] -> u !! i <> Some false) ->
  unused_yield sources u = 0%Z.
Proof.
  revert u. induction sources as [|s sources IH]; intros [|b u]; cbn; try done.
  intros [= L] H. rewrite IH; [|done|].
  - pose proof (H 0 s eq_refl) as H0; cbn in H0. destruct b; [lia|].
    unfold source_yield. case_decide as D; [lia|]. by destruct (H0 D).
  - intros i s' Hs. apply (H (S i) s' Hs).
Qed.

Lemma available_nonneg sources ch st : state_ok ch st -> (0 <= available sources st)%Z.
Proof.
  intros H. unfold available. pose proof (sum_nonneg _ (ok_pool _ _ H)).
  pose proof (unused_yield_nonneg sources (used st)). lia.
Qed.

Lemma unused_yield_source sources u i s :
  u !! i = Some false -> sources !! i = Some s ->
  (source_yield s <= unused_yield sources u)%Z.
Proof.
  intros Hu Hs. pose proof (unused_yield_mark _ _ _ _ Hu Hs).
  pose proof (unused_yield_nonneg sources (<[i := true]> u)). lia.
Qed.

(* ------------------------------------------------------------------ *)
(** ** Every legal step keeps the ledger and pays what it says *)

Section Ledger.
Context (sources : list ManaSource) (pool0 : Pool) (pool0_ok : pool_ok pool0).
Abbreviation ledger := (ledger sources pool0).
Abbreviation available := (available sources).

Lemma ledger_ranges st idxs c :
  ledger st idxs ->
  (0 <= pool_at (pool_remaining st) c)%Z /\ (0 <= pool_at (pool_used (plan st)) c)%Z /\
  (0 <= pool_at (surplus (plan st)) c)%Z /\ (0 <= pool_at pool0 c)%Z /\
  (pool_at pool0 c + pool_at (surplus (plan st)) c + unused_yield sources (used st)
   <= 255)%Z.
Proof using pool0_ok.
  intros L. destruct (led_ok _ _ _ _ L) as [Hp Hu Hs _ _].
  pose proof (pool_at_range _ c Hp). pose proof (pool_at_range _ c Hu).
  pose proof (pool_at_range _ c Hs). pose proof (led_bound _ _ _ _ L).
  pose proof (pool_at_range _ c pool0_ok).
  pose proof (pool_at_le_sum c _ Hs). pose proof (pool_at_le_sum c _ pool0_ok). lia.
Qed.

Lemma ledger_spend st idxs c :
  ledger st idxs -> (0 < pool_at (pool_remaining st) c)%Z ->
  ledger (spend_pool c 1 st) idxs /\
  available (spend_pool c 1 st) = (available st - 1)%Z.
Proof using pool0_ok.
  intros L Hc. destruct (ledger_ranges _ _ c L) as (? & ? & ? & ? & ?).
  pose proof (led_ok _ _ _ _ L) as Ho. destruct L as [_ Hlen Hpool Hb Hn Ht Hus Hy].
  pose proof (unused_yield_nonneg sources (used st)) as Hnn.
  pose proof (Hpool c) as Hpc. destruct Ho as [[Lp Fp] [Lu Fu] Hs Ha Hl].
  split.
  - split; try done; cbn.
    + by apply spend_pool_ok.
    + intros c'. destruct (decide (c = c')) as [<-|N].
      * rewrite !pool_at_bump_eq, !wrap_u8_small by (done || lia). lia.
      * rewrite !pool_at_bump_ne by done. apply Hpool.
  - unfold ManaSolve.available; cbn. rewrite sum_bump; [lia|done|].
    pose proof (pool_at_range _ c (conj Lp Fp)). lia.
Qed.

Lemma ledger_tap st idxs i s c d :
  ledger st idxs -> used st !! i = Some false -> sources !! i = Some s -> c ∈ choices s ->
  (0 <= d < source_yield s)%Z ->
  let st' := credit_extra c d (push_tap (src_id s, c) (mark_used i true None st)) in
  ledger st' (idxs ++ [i]) /\
  available st' = (available st - source_yield s + d)%Z.
Proof using pool0_ok.
  intros L Hi Hsrc Hc Hd st'. destruct (ledger_ranges _ _ c L) as (? & ? & ? & ? & ?).
  pose proof (unused_yield_source _ _ _ _ Hi Hsrc) as Hy1.
  pose proof (unused_yield_mark _ _ _ _ Hi Hsrc) as Hmark.
  pose proof (led_ok _ _ _ _ L) as Ho. destruct L as [_ Hlen Hpool Hb Hn Ht Hus Hy].
  pose proof (Hpool c) as Hpc. destruct Ho as [Hp [Lu Fu] Hs Ha Hl].
  pose proof (proj1 Hp) as Lp. pose proof (proj1 Hs) as Ls.
  split.
  - split; unfold st'; cbn.
    + by apply credit_extra_ok, push_tap_ok, (mark_used_ok None).
    + by rewrite length_insert.
    + intros c'. destruct (decide (c = c')) as [<-|N].
      * rewrite !pool_at_bump_eq, !wrap_u8_small by (done || lia). lia.
      * rewrite !pool_at_bump_ne by done. apply Hpool.
    + rewrite Hmark, sum_bump by (done || lia). lia.
    + apply NoDup_app. repeat split; [done| |apply NoDup_singleton].
      intros j Hj Hj'. apply list_elem_of_singleton in Hj' as ->.
      apply Hus in Hj. congruence.
    + apply Forall2_app; [done|]. repeat constructor. by exists s.
    + intros j. rewrite elem_of_app, list_elem_of_singleton.
      destruct (decide (i = j)) as [<-|N].
      * rewrite list_lookup_insert_eq by (by eapply lookup_lt_Some). by intuition.
      * rewrite list_lookup_insert_ne by done. rewrite Hus. intuition congruence.
    + rewrite Hmark. unfold tapped_yield in *. rewrite fmap_app.
      rewrite sum_Z_app. cbn. rewrite Hsrc. lia.
  - unfold ManaSolve.available, st'; cbn. rewrite Hmark, sum_bump by (done || lia). lia.
Qed.

Lemma ledger_life st idxs d :
  ledger st idxs -> ledger (pay_life d st) idxs /\ available (pay_life d st) = available st.
Proof. intros []. split; [|done]. split; try done. by apply pay_life_ok. Qed.

Lemma ledger_pip_step max_life policy p st st' idxs :
  ledger st idxs -> pip_step sources max_life None policy p st st' ->
  exists idxs' k, ledger st' idxs' /\ (0 <= k <= if is_phyrexian p then 1 else 0)%Z /\
    available st' = (available st - (1 - k))%Z /\
    life_paid (plan st') = (life_paid (plan st) + 2 * k)%Z.
Proof using pool0_ok.
  intros L H. destruct H as [p c st Hc Hp|p i s c st Hi Hs Hc Hch|p st Hph Hl].
  - destruct (ledger_spend _ _ _ L Hp) as [L' HA].
    exists idxs, 0%Z. rewrite HA. cbn [plan life_paid spend_pool]. destruct (is_phyrexian p); split_and!; try done; lia.
  - pose proof (source_yield_choice _ _ Hch) as Hy.
    destruct (ledger_tap _ _ _ _ _ (Z.max 0 (yield_per_tap s - 1)) L Hi Hs Hch) as [L' HA];
      [lia|].
    exists (idxs ++ [i]), 0%Z. unfold tap_state. rewrite HA.
    cbn [plan life_paid credit_extra push_tap mark_used].
    destruct (is_phyrexian p); split_and!; try done; lia.
  - destruct (ledger_life _ _ 2 L) as [L' HA].
    exists idxs, 1%Z. rewrite HA, Hph. cbn [plan life_paid pay_life]. split_and!; try done; lia.
Qed.

Definition phyrexian_count (ps : list Pip) : Z :=
  Z.of_nat (length (filter (fun p => is_phyrexian p = true) ps)).

Lemma ledger_pips_paid max_life policy ps st st' idxs :
  ledger st idxs -> pips_paid sources max_life None policy ps st st' ->
  exists idxs' k, ledger st' idxs' /\ (0 <= k <= phyrexian_count ps)%Z /\
    available st' = (available st - (Z.of_nat (length ps) - k))%Z /\
    life_paid (plan st') = (life_paid (plan st) + 2 * k)%Z.
Proof using pool0_ok.
  intros L H. revert idxs L.
  induction H as [st|p ps st st1 st2 Hs _ IH]; intros idxs L.
  - exists idxs, 0%Z. unfold phyrexian_count; cbn. split_and!; try done; lia.
  - destruct (ledger_pip_step _ _ _ _ _ _ L Hs) as (i1 & k1 & L1 & ? & ? & ?).
    destruct (IH _ L1) as (i2 & k2 & L2 & ? & ? & ?).
    exists i2, (k1 + k2)%Z. split; [done|]. unfold phyrexian_count in *.
    rewrite filter_cons. cbn [length].
    destruct (is_phyrexian p); case_decide; try done; cbn [length]; split_and!; lia.
Qed.

Lemma ledger_generic_run n st n' st' idxs :
  ledger st idxs -> generic_run sources n st n' st' -> (0 <= n)%Z ->
  exists idxs', ledger st' idxs' /\ (0 <= n' <= n)%Z /\
    available st' = (available st - (n - n'))%Z /\
    life_paid (plan st') = life_paid (plan st).
Proof using pool0_ok.
  intros L H. revert idxs L.
  induction H as [n st|n st n1 st1 n2 st2 Hs _ IH]; intros idxs L Hn.
  - exists idxs. split_and!; try done; lia.
  - destruct Hs as [n c st Hn0 Hp|n i s c st Hn0 Hi Hs Hc spent].
    + destruct (ledger_spend _ _ _ L Hp) as [L1 HA].
      destruct (IH _ L1) as (i2 & ? & ? & HA' & ?); [lia|].
      exists i2. rewrite HA', HA. split_and!; try done; lia.
    + pose proof (source_yield_choice _ _ Hc) as Hy.
      destruct (ledger_tap _ _ _ _ _ (Z.max (yield_per_tap s) 1 - spent) L Hi Hs Hc)
        as [L1 HA]; [unfold spent; lia|].
      destruct (IH _ L1) as (i2 & ? & ? & HA' & ?); [unfold spent; lia|].
      exists i2. rewrite HA', HA. split_and!; try done; unfold spent; lia.
Qed.
End Ledger.

(* ------------------------------------------------------------------ *)
(** ** The generic pass *)

Lemma generic_run_trans sources n st n1 st1 n2 st2 :
  generic_run sources n st n1 st1 -> generic_run sources n1 st1 n2 st2 ->
  generic_run sources n st n2 st2.
Proof. induction 1; [done|]. intros. econstructor; [done|]. auto. Qed.

Lemma credit_extra_zero ch c st : state_ok ch st -> credit_extra c 0 st = st.
Proof.
  intros [Hp _ Hs _ _]. destruct st as [u p [r t pu l s]]. unfold credit_extra; cbn in *.
  assert (forall q, pool_ok q -> bump c 0 q = q) as Hb.
  { intros q [L F]. unfold bump. apply list_eq. intros i. rewrite list_lookup_alter.
    case_decide as D; [|done]. subst i. destruct (q !! _) as [x|] eqn:E; cbn; [|done].
    pose proof (Forall_lookup_1 _ _ _ _ F E) as Hx; cbn in Hx.
    f_equal. rewrite Z.add_0_r. by apply wrap_u8_small. }
  by rewrite !Hb.
Qed.

Section Generic.
Context (sources : list ManaSource).
Abbreviation run := (generic_run sources).

Lemma drain_color_run fuel c : forall n st n' st',
  state_ok None st -> (0 <= n)%Z -> (pool_at (pool_remaining st) c <= Z.of_nat fuel)%Z ->
  drain_color fuel c n st = (n', st') ->
  run n st n' st' /\ state_ok None st' /\ (0 <= n')%Z /\ used st' = used st /\
  (n' = 0%Z \/ pool_at (pool_remaining st') c = 0%Z) /\
  (forall c', c <> c' ->
     pool_at (pool_remaining st') c' = pool_at (pool_remaining st) c').
Proof.
  induction fuel as [|fuel IH]; cbn; intros n st n' st' Ho Hn Hf.
  - intros [= <- <-]. pose proof (pool_at_range _ c (ok_pool _ _ Ho)).
    split_and!; try done; [constructor|]. right. lia.
  - destruct (_ && _) eqn:P.
    + bool_to_prop. intros H1.
      pose proof (pool_at_range _ c (ok_pool _ _ Ho)).
      apply IH in H1 as (? & ? & ? & ? & ? & Hne);
        [|by apply spend_pool_ok|lia|].
      * split_and!; try done.
        -- econstructor; [by apply gen_pool|done].
        -- intros c' N. rewrite Hne by done. cbn. by rewrite pool_at_bump_ne.
      * cbn. rewrite pool_at_bump_eq, wrap_u8_small by (try apply Ho; lia). lia.
    + intros [= <- <-]. pose proof (pool_at_range _ c (ok_pool _ _ Ho)).
      split_and!; try done; [constructor|].
      apply andb_false_iff in P as [P|P]; bool_to_prop; [left|right]; lia.
Qed.

Lemma drain_pool_run colors : forall n st n' st',
  NoDup colors -> state_ok None st -> (0 <= n)%Z -> drain_pool colors n st = (n', st') ->
  run n st n' st' /\ state_ok None st' /\ (0 <= n')%Z /\ used st' = used st /\
  (n' = 0%Z \/ forall c, c ∈ colors -> pool_at (pool_remaining st') c = 0%Z) /\
  (forall c, c ∉ colors ->
     pool_at (pool_remaining st') c = pool_at (pool_remaining st) c).
Proof.
  induction colors as [|c colors IH]; cbn; intros n st n' st' Hd Ho Hn.
  - intros [= <- <-]. split_and!; try done; [constructor|]. right.
    intros c Hc. by apply not_elem_of_nil in Hc.
  - apply NoDup_cons in Hd as [Hnc Hd].
    destruct (drain_color _ _ _ _) as [n1 st1] eqn:E. intros H.
    apply drain_color_run in E as (R1 & Ho1 & Hn1 & Hu1 & Hz1 & Hne1); [|done|done|lia].
    apply IH in H as (R2 & Ho2 & Hn2 & Hu2 & Hz2 & Hne2); [|done..].
    split_and!; try done.
    + by eapply generic_run_trans.
    + by rewrite Hu2.
    + destruct Hz2 as [->|Hz2]; [by left|].
      destruct Hz1 as [->|Hz1].
      * left. inversion R2 as [|? ? ? ? ? ? S _]; subst; [done|]. inversion S; lia.
      * right. intros c' [->|Hc']%elem_of_cons; [by rewrite Hne2|by apply Hz2].
    + intros c' [N Hc']%not_elem_of_cons. rewrite Hne2, Hne1 by congruence. done.
Qed.

(** Sources only ever become used. *)
Definition used_mono (u u' : list bool) : Prop :=
  forall i, u !! i <> Some false -> u' !! i <> Some false.

Lemma used_mono_trans u1 u2 u3 : used_mono u1 u2 -> used_mono u2 u3 -> used_mono u1 u3.
Proof. unfold used_mono. auto. Qed.

Lemma used_mono_mark u i : used_mono u (<[i := true]> u).
Proof.
  intros j Hj. destruct (decide (i = j)) as [<-|N].
  - destruct (decide (i < length u)).
    + by rewrite list_lookup_insert_eq.
    + by rewrite list_insert_ge by lia.
  - by rewrite list_lookup_insert_ne.
Qed.

Lemma generic_color_none i s c :
  generic_color None i s = Some c -> c ∈ choices s.
Proof.
  unfold generic_color; cbn. destruct (choices s) as [|c' l]; cbn; [done|].
  intros [= ->]. left.
Qed.

(** The state after tapping source [i], in the form the code writes it. *)
Lemma tap_generic_step n i s c st :
  state_ok None st -> (0 < n)%Z -> used st !! i = Some false -> sources !! i = Some s ->
  c ∈ choices s ->
  let extra := (Z.max (yield_per_tap s) 1 - Z.min (Z.max (yield_per_tap s) 1) n)%Z in
  let st1 := push_tap (src_id s, c) (mark_used i true None st) in
  let st2 := if (0 <? extra)%Z then credit_extra c extra st1 else st1 in
  generic_step sources n st (n - Z.min (Z.max (yield_per_tap s) 1) n) st2 /\
  state_ok None st2 /\ used st2 = <[i := true]> (used st) /\
  (extra = 0%Z \/ (n - Z.min (Z.max (yield_per_tap s) 1) n = 0)%Z) /\
  (extra = 0%Z -> pool_remaining st2 = pool_remaining st).
Proof.
  intros Ho Hn Hu Hs Hc extra st1 st2.
  assert (state_ok None st1) as Ho1 by (by apply push_tap_ok, (mark_used_ok None)).
  assert (st2 = credit_extra c extra st1) as E.
  { unfold st2. destruct (0 <? extra)%Z eqn:X; [done|]. bool_to_prop.
    replace extra with 0%Z by (unfold extra in *; lia).
    by rewrite (credit_extra_zero None). }
  split_and!.
  - rewrite E. by apply gen_tap.
  - rewrite E. by apply credit_extra_ok.
  - by rewrite E.
  - unfold extra. lia.
  - intros X. unfold st2. rewrite X. done.
Qed.

Lemma tap_for_generic_run order : forall n st n' st',
  state_ok None st -> (0 <= n)%Z ->
  tap_for_generic sources None order n st = (n', st') ->
  run n st n' st' /\ state_ok None st' /\ (0 <= n' <= n)%Z /\
  (n' = 0%Z \/
   pool_remaining st' = pool_remaining st /\ used_mono (used st) (used st') /\
   (forall i s, i ∈ order -> sources !! i = Some s -> choices s <> [] ->
      used st' !! i <> Some false)).
Proof.
  induction order as [|i order IH]; cbn; intros n st n' st' Ho Hn.
  { intros [= <- <-]. split_and!; [constructor|done|lia|lia|]. right.
    split_and!; [done|by intros ? ?|]. intros i s Hi. by apply not_elem_of_nil in Hi. }
  destruct (n =? 0)%Z eqn:Z0; bool_to_prop.
  { intros [= <- <-]. split_and!; [constructor|done|lia|lia|]. by left. }
  assert (tap_for_generic sources None order n st = (n', st') ->
    (forall s, sources !! i = Some s -> choices s <> [] -> used st !! i <> Some false) ->
    run n st n' st' /\ state_ok None st' /\ (0 <= n' <= n)%Z /\
    (n' = 0%Z \/
     pool_remaining st' = pool_remaining st /\ used_mono (used st) (used st') /\
     (forall j s, j ∈ i :: order -> sources !! j = Some s -> choices s <> [] ->
        used st' !! j <> Some false))) as Skip.
  { intros H Hi. apply IH in H as (R & Ho' & Hb & H); [|done..].
    split_and!; [done|done|lia|lia|]. destruct H as [?|(Hp & Hm & Ha)]; [by left|right].
    split_and!; [done|done|].
    intros j s [->|Hj]%elem_of_cons Hs Hch; [|by eapply Ha].
    apply Hm. by eapply Hi. }
  destruct (used st !! i) as [[|]|] eqn:Hu.
  - intros H. apply Skip; [done|]. congruence.
  - destruct (sources !! i) as [s|] eqn:Hs; [|intros H; by apply Skip].
    destruct (generic_color None i s) as [c|] eqn:Hc.
    + apply generic_color_none in Hc.
      destruct (tap_generic_step n i s c st Ho ltac:(lia) Hu Hs Hc)
        as (S1 & Ho1 & U1 & X1 & P1).
      intros H. apply IH in H as (R & Ho' & Hb & H); [|done|lia].
      split_and!; [by econstructor|done|lia|lia|].
      destruct H as [?|(Hp & Hm & Ha)]; [by left|].
      destruct X1 as [X1|X1]; [|left; lia]. right. rewrite U1 in Hm. split_and!.
      * rewrite Hp. by apply P1.
      * eapply used_mono_trans; [apply used_mono_mark|exact Hm].
      * intros j s' [->|Hj]%elem_of_cons Hs' Hch; [|by eapply Ha].
        apply Hm. rewrite list_lookup_insert_eq by (by eapply lookup_lt_Some). done.
    + intros H. apply Skip; [done|]. intros s' [= <-] Hch.
      unfold generic_color in Hc. by destruct (choices s).
  - intros H. apply Skip; [done|]. congruence.
Qed.

Lemma generic_order_all c : c ∈ GENERIC_POOL_PAYMENT_ORDER.
Proof. destruct c; unfold GENERIC_POOL_PAYMENT_ORDER; rewrite !elem_of_cons; tauto. Qed.

Lemma generic_order_nodup : NoDup GENERIC_POOL_PAYMENT_ORDER.
Proof. apply (bool_decide_unpack _). vm_compute. exact I. Qed.
End Generic.

(** The generic pass pays exactly when enough mana is available, and then by
    a legal sequence of payments. *)
Lemma pay_generic_spec sources pool0 st idxs n :
  pool_ok pool0 -> ledger sources pool0 st idxs -> (0 <= n)%Z ->
  match pay_generic n sources st with
  | (true, st') => generic_paid sources n st st'
  | (false, _) => (available sources st < n)%Z
  end.
Proof.
  intros Hp0 L Hn. unfold pay_generic, pay_generic_with_source_choices_v1.
  destruct (drain_pool _ n st) as [n1 st1] eqn:E1.
  apply (drain_pool_run sources) in E1 as (R1 & Ho1 & Hn1 & Hu1 & Hz1 & _);
    [|apply generic_order_nodup|apply (led_ok _ _ _ _ L)|done].
  destruct (tap_for_generic _ _ _ _ _) as [n2 st2] eqn:E2.
  apply tap_for_generic_run in E2 as (R2 & Ho2 & Hn2 & H2); [|done..].
  pose proof (generic_run_trans _ _ _ _ _ _ _ R1 R2) as R.
  destruct (n2 =? 0)%Z eqn:Z2; bool_to_prop; [by subst n2|].
  destruct H2 as [?|(Hpool & Hmono & Hall)]; [done|].
  destruct (ledger_generic_run _ _ Hp0 _ _ _ _ _ L R Hn) as (i2 & L2 & ? & HA & _).
  assert (available sources st2 = 0%Z) as HA0; [|lia].
  unfold available. rewrite Hpool.
  destruct Hz1 as [->|Hz1]; [lia|].
  rewrite (pool_zero (pool_remaining st1)), (unused_yield_all_used sources (used st2));
    [done| | |apply Ho1|].
  - apply (led_len _ _ _ _ L2).
  - intros i s Hs Hch. eapply Hall; [|done..]. apply elem_of_seq.
    apply lookup_lt_Some in Hs. lia.
  - intros c. apply Hz1, generic_order_all.
Qed.

Lemma generic_paid_available sources pool0 st idxs n st' :
  pool_ok pool0 -> ledger sources pool0 st idxs -> (0 <= n)%Z ->
  generic_paid sources n st st' -> (n <= available sources st)%Z.
Proof.
  intros Hp0 L Hn R. destruct (ledger_generic_run _ _ Hp0 _ _ _ _ _ L R Hn) as (i2 & L2 & ? & HA & _).
  pose proof (available_nonneg sources _ _ (led_ok _ _ _ _ L2)). lia.
Qed.

Lemma pay_generic_complete sources pool0 st idxs n :
  pool_ok pool0 -> ledger sources pool0 st idxs -> (0 <= n <= available sources st)%Z ->
  exists st', pay_generic n sources st = (true, st') /\ generic_paid sources n st st'.
Proof.
  intros Hp0 L Hn. pose proof (pay_generic_spec _ _ _ _ n Hp0 L ltac:(lia)) as H.
  destruct (pay_generic n sources st) as [[|] st']; [by exists st'|lia].
Qed.

(* ------------------------------------------------------------------ *)
(** ** From a cost to a plan *)

Lemma initial_ledger sources pool :
  mana_fits sources pool -> ledger sources pool (initial_state pool sources) [].
Proof.
  intros [Hp Hb].
  assert (pool_ok empty_pool) as He
    by (split; [done|]; apply Forall_replicate; lia).
  split; cbn.
  - by split.
  - apply length_replicate.
  - intros c. destruct c; cbn; lia.
  - rewrite unused_yield_fresh. lia.
  - constructor.
  - constructor.
  - intros i. split; [|by intros ?%not_elem_of_nil].
    intros H. apply lookup_replicate in H as [[=] _].
  - rewrite unused_yield_fresh. unfold tapped_yield; cbn. lia.
Qed.

Lemma ledger_plan_pays sources pool st idxs mana :
  pool_ok pool -> mana_fits sources pool -> ledger sources pool st idxs ->
  available sources st = (sum_Z pool + total_yield sources - mana)%Z ->
  plan_pays sources pool mana (life_paid (plan st)) (plan st).
Proof.
  intros Hp0 Hfit L HA.
  pose proof (led_pool _ _ _ _ L) as Hpool. pose proof (led_yield _ _ _ _ L) as Hy.
  split.
  - exists idxs. split_and!; [apply (led_nodup _ _ _ _ L)|apply (led_taps _ _ _ _ L)|].
    unfold available in HA. destruct (led_ok _ _ _ _ L) as [Hr Hu Hs _ _].
    rewrite (sum_by_color (pool_remaining st)), (sum_by_color pool) in HA
      by (apply Hr || apply Hp0).
    rewrite (sum_by_color (pool_used (plan st))), (sum_by_color (surplus (plan st)))
      by (apply Hu || apply Hs).
    pose proof (Hpool W). pose proof (Hpool U). pose proof (Hpool B).
    pose proof (Hpool R). pose proof (Hpool G). pose proof (Hpool C). lia.
  - intros c. destruct (ledger_ranges _ _ Hp0 _ _ c L) as (? & ? & ? & ? & ?).
    pose proof (Hpool c). lia.
  - intros c. by destruct (ledger_ranges _ _ Hp0 _ _ c L) as (? & ? & ? & ?).
  - done.
Qed.

Lemma initial_available sources pool :
  available sources (initial_state pool sources) = (sum_Z pool + total_yield sources)%Z.
Proof. unfold available; cbn. by rewrite unused_yield_fresh. Qed.

(** [solve] runs the pip search without a terminal payment. *)
Lemma solve_search ps sources st :
  solve_pips ps 0 sources st =
  solve_pips_with_mana_policy_v72 sources i64_max None None Ordinary 0 ps st.
Proof. reflexivity. Qed.

Lemma solve_some cost x pool sources p :
  mana_fits sources pool -> solve cost x pool sources = Some p ->
  exists st1 st2, pips_paid sources i64_max None Ordinary (pips cost)
                    (initial_state pool sources) st1 /\
    pay_generic (generic_total cost x) sources st1 = (true, st2) /\ plan st2 = p.
Proof.
  intros Hfit. unfold solve. rewrite solve_search.
  destruct (solve_pips_with_mana_policy_v72 _ _ _ _ _ _ _ _) as [[|] st1] eqn:E1; [|done].
  destruct (pay_generic _ _ _) as [[|] st2] eqn:E2; [|done]. intros [= <-].
  apply search_sound in E1 as (st1' & Hp & [= ->]);
    [|apply (led_ok _ _ _ _ (initial_ledger _ _ Hfit))].
  by exists st1, st2.
Qed.

Lemma phyrexian_count_zero ps :
  Forall (fun p => is_phyrexian p = false) ps -> phyrexian_count ps = 0%Z.
Proof.
  unfold phyrexian_count. induction 1 as [|p ps Hp _ IH]; [done|].
  rewrite filter_cons, Hp. case_decide; done.
Qed.

(* ------------------------------------------------------------------ *)
(** ** Capacity *)

Lemma fold_left_Z_add {A} (f : A -> Z) l a :
  fold_left (fun t x => t + f x)%Z l a = (a + sum_Z (f <$> l))%Z.
Proof.
  revert a. induction l as [|x l IH]; intros a; [cbn; lia|].
  change (fold_left (fun t x => t + f x)%Z l (a + f x) = a + (f x + sum_Z (f <$> l)))%Z.
  rewrite IH. lia.
Qed.

Lemma minimum_mana_count g ps :
  minimum_mana g ps = (g + Z.of_nat (length ps) - phyrexian_count ps)%Z.
Proof.
  unfold minimum_mana. rewrite fold_left_Z_add. unfold phyrexian_count.
  enough (sum_Z ((fun p => if is_phyrexian p then 0 else 1) <$> ps) =
    Z.of_nat (length ps) - Z.of_nat (length (filter (fun p => is_phyrexian p = true) ps)))%Z
    by lia.
  induction ps as [|p ps IH]; [done|].
  change (((if is_phyrexian p then 0 else 1) +
    sum_Z ((fun p => if is_phyrexian p then 0 else 1) <$> ps) =
    Z.of_nat (S (length ps)) -
    Z.of_nat (length (filter (fun p => is_phyrexian p = true) (p :: ps))))%Z).
  rewrite IH, filter_cons. destruct (is_phyrexian p); case_decide; try done; cbn [length]; lia.
Qed.

Lemma available_le_capacity sources st : (available sources st <= capacity sources st)%Z.
Proof.
  unfold available, capacity. rewrite fold_left_Z_add.
  enough (unused_yield sources (used st) <=
    sum_Z ((fun su : ManaSource * bool =>
       if snd su then 0 else Z.max (yield_per_tap (fst su)) 1) <$> zip sources (used st)))%Z
    by lia.
  generalize (used st). induction sources as [|s sources IH]; intros [|b u]; try done.
  cbn [zip zip_with unused_yield fmap list_fmap]. specialize (IH u).
  unfold sum_Z in *; cbn [foldr fst snd].
  assert (source_yield s <= Z.max (yield_per_tap s) 1)%Z
    by (unfold source_yield; case_decide; lia).
  destruct b; lia.
Qed.

Section Exact.
Context (sources : list ManaSource) (pool : Pool) (Hfit : mana_fits sources pool)
        (max_life g : Z) (policy : PipManaPolicyV72) (ps : list Pip) (Hg : (0 <= g)%Z).

Abbreviation st0 := (initial_state pool sources).
Abbreviation search :=
  (solve_pips_with_mana_policy_v72 sources max_life (Some g) None policy 0 ps st0).

Lemma finish_without_choices st :
  fst (finish sources (Some g) None st) = fst (pay_generic g sources st).
Proof.
  unfold finish, finish_spell_generic_payment_v1. cbn.
  unfold try_finish, pay_generic; cbn.
  by destruct (pay_generic_with_source_choices_v1 _ _ _ _) as [[|] ?].
Qed.

Lemma spell_search_complete st1 st2 :
  pips_paid sources max_life None policy ps st0 st1 ->
  generic_paid sources g st1 st2 -> fst search = true.
Proof using Hfit Hg.
  intros Hp Hgen. pose proof (initial_ledger _ _ Hfit) as L0.
  pose proof (proj1 Hfit) as Hpool.
  destruct (ledger_pips_paid _ _ Hpool _ _ _ _ _ _ L0 Hp) as (i1 & k & L1 & Hk & HA & _).
  pose proof (generic_paid_available _ _ _ _ _ _ Hpool L1 Hg Hgen) as Hle.
  apply (search_complete sources max_life (Some g) None policy ps 0 st0 st1).
  - apply (led_ok _ _ _ _ L0).
  - done.
  - rewrite finish_without_choices.
    by destruct (pay_generic_complete _ _ _ _ g Hpool L1 ltac:(lia)) as (? & -> & _).
  - unfold over_capacity. apply andb_false_iff. right. apply Z.ltb_ge.
    rewrite minimum_mana_count. pose proof (available_le_capacity sources st0). lia.
Qed.

Lemma spell_search_sound :
  fst search = true ->
  exists st1 st2, pips_paid sources max_life None policy ps st0 st1 /\
    generic_paid sources g st1 st2.
Proof using Hfit Hg.
  intros H. pose proof (initial_ledger _ _ Hfit) as L0.
  pose proof (proj1 Hfit) as Hpool.
  destruct search as [ok st] eqn:E. cbn in H. subst ok.
  apply search_sound in E as (st1 & Hp & Hf); [|apply (led_ok _ _ _ _ L0)].
  destruct (ledger_pips_paid _ _ Hpool _ _ _ _ _ _ L0 Hp) as (i1 & k & L1 & _).
  pose proof (finish_without_choices st1) as F. rewrite Hf in F. cbn in F.
  pose proof (pay_generic_spec _ _ _ _ g Hpool L1 Hg) as Hs.
  destruct (pay_generic g sources st1) as [[|] st2]; [|done]. by exists st1, st2.
Qed.
End Exact.

(* ------------------------------------------------------------------ *)
(** ** Restricted mana and delve *)

(** How many of the units [us] are of color [c] and may pay for the spell. *)
Definition permitted_count (c : ManaColor) (us : list RestrictedManaUnit) : Z :=
  Z.of_nat (length (filter (fun u => permits u && bool_decide (unit_color u = c) = true) us)).

Lemma permitted_count_cons c u us :
  permitted_count c (u :: us) =
  ((if permits u && bool_decide (unit_color u = c) then 1 else 0)
   + permitted_count c us)%Z.
Proof.
  unfold permitted_count. rewrite filter_cons.
  destruct (permits u && _); case_decide; try done; cbn [length]; lia.
Qed.

Lemma spell_floating_pool_le us : forall pool c,
  pool_ok pool ->
  let pool' := fold_left
    (fun pool u => if permits u
       then alter (fun x => Z.min 255 (x + 1)) (pool_index (unit_color u)) pool
       else pool) us pool in
  pool_ok pool' /\ (pool_at pool' c <= pool_at pool c + permitted_count c us)%Z.
Proof.
  induction us as [|u us IH]; intros pool c Hp; cbn.
  { split; [done|]. unfold permitted_count; cbn. lia. }
  rewrite permitted_count_cons. destruct (permits u); cbn; [|by apply IH].
  set (p1 := alter _ _ pool).
  assert (pool_ok p1 /\ pool_at p1 c <= pool_at pool c +
    (if bool_decide (unit_color u = c) then 1 else 0))%Z as [Ho1 Hle].
  { destruct Hp as [L F]. unfold p1. six pool L.
    repeat match goal with H : Forall _ (_ :: _) |- _ => apply Forall_cons_1 in H as [? ?] end.
    split; [split; [by destruct (unit_color u)|]|].
    - destruct (unit_color u); cbn; repeat (apply Forall_cons_2; [lia|]); apply Forall_nil_2.
    - unfold pool_at. destruct (unit_color u), c; cbn; case_bool_decide; congruence || lia. }
  destruct (IH p1 c Ho1) as [? ?]. split; [done|]. lia.
Qed.

Lemma separate_from_used us : forall index p c,
  pool_ok (pool_used p) ->
  pool_ok (pool_used (separate_from index us p)) /\
  pool_at (pool_used (separate_from index us p)) c =
    Z.max 0 (pool_at (pool_used p) c - permitted_count c us)%Z.
Proof.
  induction us as [|u us IH]; intros index p c Hp; cbn.
  { pose proof (pool_at_range _ c Hp). unfold permitted_count; cbn. split; [done|lia]. }
  rewrite permitted_count_cons. pose proof (pool_at_range _ c Hp).
  destruct (permits u); cbn; [|by apply IH].
  pose proof (pool_at_range _ (unit_color u) Hp) as Hr.
  assert (0 <= permitted_count c us)%Z by (unfold permitted_count; lia).
  destruct (0 <? _)%Z eqn:Z0; bool_to_prop.
  - match goal with |- context [separate_from _ _ ?q] =>
      destruct (IH (S index) q c ltac:(cbn; auto with kernel)) as [? ->] end.
    split; [done|]. cbn. case_bool_decide as D.
    + subst c. rewrite pool_at_bump_eq, wrap_u8_small by (apply Hp || lia). lia.
    + rewrite pool_at_bump_ne by done. lia.
  - destruct (IH (S index) p c Hp) as [? ->]. split; [done|].
    case_bool_decide as D; [subst c; lia|lia].
Qed.

Lemma separate_from_rest us : forall index p,
  let p' := separate_from index us p in
  taps p' = taps p /\ life_paid p' = life_paid p /\ surplus p' = surplus p.
Proof.
  induction us as [|u us IH]; intros index p; cbn; [done|].
  destruct (_ && _); [|by apply IH]. by destruct (IH (S index)
    (MkPlan (restricted_pool_used p ++ [index]) (taps p)
       (bump (unit_color u) (-1) (pool_used p)) (life_paid p) (surplus p))) as (-> & -> & ->).
Qed.

(** The indices recorded for restricted units are increasing and name units
    that may pay for the spell. *)
Lemma separate_from_indices us : forall index p,
  exists new, restricted_pool_used (separate_from index us p) =
    restricted_pool_used p ++ new /\
    StronglySorted lt new /\
    Forall (fun i => index <= i /\ exists u, us !! (i - index) = Some u /\ permits u = true) new.
Proof.
  induction us as [|u us IH]; intros index p; cbn.
  { exists []. rewrite app_nil_r. split_and!; [done|constructor|constructor]. }
  assert (forall new, Forall (fun i => S index <= i /\
      exists u, us !! (i - S index) = Some u /\ permits u = true) new ->
    Forall (fun i => index <= i /\
      exists u', (u :: us) !! (i - index) = Some u' /\ permits u' = true) new) as Shift.
  { intros new F. eapply Forall_impl; [exact F|]. intros i [Hi (u' & Hu & Hp)]. split; [lia|].
    exists u'. replace (i - index) with (S (i - S index)) by lia. done. }
  destruct (permits u && _) eqn:P.
  - match goal with |- context [separate_from _ _ ?q] =>
      destruct (IH (S index) q) as (new & -> & Hs & Hf) end.
    exists (index :: new). cbn. rewrite <- app_assoc. split_and!; [done| |].
    + constructor; [done|]. eapply Forall_impl; [exact Hf|]. intros i [? _]. lia.
    + constructor; [|by apply Shift]. split; [lia|]. exists u.
      rewrite Nat.sub_diag. apply andb_prop in P as [? _]. done.
  - destruct (IH (S index) p) as (new & -> & Hs & Hf).
    exists new. split_and!; [done|done|by apply Shift].
Qed.

(** The search itself never spends restricted units. *)
Lemma pips_keep_restricted sources max_life ch policy ps st st' :
  pips_paid sources max_life ch policy ps st st' ->
  restricted_pool_used (plan st') = restricted_pool_used (plan st).
Proof.
  induction 1 as [|? ? ? ? ? S _ IH]; [done|]. rewrite IH. by destruct S.
Qed.

Lemma run_keeps_restricted sources n st m st' :
  generic_run sources n st m st' ->
  restricted_pool_used (plan st') = restricted_pool_used (plan st).
Proof.
  induction 1 as [|? ? ? ? ? ? S _ IH]; [done|]. rewrite IH. by destruct S.
Qed.

Lemma delve_from_spec cost x v graveyard : forall n k,
  match delve_from n k cost x v graveyard with
  | Some (p, exiled) => exists j, k <= j <= k + n /\ exiled = take j graveyard /\
      can_pay_spell (MkCost (pips cost) (generic cost - Z.of_nat j) (x_count cost)) x v
        = Some p /\
      forall i, k <= i < j ->
        can_pay_spell (MkCost (pips cost) (generic cost - Z.of_nat i) (x_count cost)) x v = None
  | None => forall i, k <= i <= k + n ->
      can_pay_spell (MkCost (pips cost) (generic cost - Z.of_nat i) (x_count cost)) x v = None
  end.
Proof.
  induction n as [|n IH]; intros k; cbn.
  - destruct (can_pay_spell _ x v) as [p|] eqn:E.
    + exists k. split_and!; try done; lia.
    + intros i Hi. by replace i with k by lia.
  - destruct (can_pay_spell _ x v) as [p|] eqn:E.
    + exists k. split_and!; try done; lia.
    + specialize (IH (S k)). destruct (delve_from n (S k) _ _ _ _) as [[p ex]|].
      * destruct IH as (j & Hj & -> & Hp & Hn). exists j. split_and!; try done; try lia.
        intros i Hi. destruct (decide (i = k)) as [->|]; [done|]. apply Hn. lia.
      * intros i Hi. destruct (decide (i = k)) as [->|]; [done|]. apply IH. lia.
Qed.

(* ------------------------------------------------------------------ *)
(** ** Properties *)

(** A failed pip search leaves [used], the running pool and the plan
    exactly as it found them, whatever the sources, convoke alternatives,
    life budget, color policy and terminal payment, and even where the [u8]
    additions of a multi-yield source wrapped. *)
Theorem failed_search_restores_state sources max_life gen ch policy idx ps st st' :
  state_ok ch st ->
  solve_pips_with_mana_policy_v72 sources max_life gen ch policy idx ps st = (false, st') ->
  st' = st.
Proof. apply search_undo. Qed.

(** C35: a plan [solve] returns pays the cost and nothing else: it taps
    distinct sources for colors they produce, never draws more of a color
    than floats or is credited, its taps and draws produce exactly the mana
    of the pips not paid with life plus the generic part plus the recorded
    surplus, it pays two life per remaining (Phyrexian) pip, and its pips
    are paid by legal steps. *)
Theorem solve_plan_pays_cost cost x pool sources p :
  mana_fits sources pool -> (0 <= generic_total cost x)%Z ->
  solve cost x pool sources = Some p ->
  exists k st1 st2, (0 <= k <= phyrexian_count (pips cost))%Z /\
    plan_pays sources pool
      (Z.of_nat (length (pips cost)) - k + generic_total cost x) (2 * k) p /\
    pips_paid sources i64_max None Ordinary (pips cost) (initial_state pool sources) st1 /\
    generic_paid sources (generic_total cost x) st1 st2 /\ plan st2 = p.
Proof.
  intros Hfit Hg H. pose proof (initial_ledger _ _ Hfit) as L0.
  pose proof (proj1 Hfit) as Hpool.
  apply solve_some in H as (st1 & st2 & Hp & Hgen & <-); [|done].
  destruct (ledger_pips_paid _ _ Hpool _ _ _ _ _ _ L0 Hp) as (i1 & k & L1 & Hk & HA1 & Hl1).
  pose proof (pay_generic_spec _ _ _ _ _ Hpool L1 Hg) as Hs. rewrite Hgen in Hs.
  destruct (ledger_generic_run _ _ Hpool _ _ _ _ _ L1 Hs Hg) as (i2 & L2 & _ & HA2 & Hl2).
  exists k, st1, st2. split_and!; try done; try lia.
  pose proof (initial_available sources pool).
  replace (2 * k)%Z with (life_paid (plan st2)) by (rewrite Hl2, Hl1; cbn; lia).
  apply (ledger_plan_pays _ _ _ i2); [done|done|done|]. lia.
Qed.

(** C1: the search of a spell's total cost is exact: for every pip list
    (Phyrexian pips included), color policy and life budget, it succeeds if
    and only if some legal way of paying the pips leaves a legal way of
    paying the generic part. In particular the up-front capacity test never
    rejects a payable cost. *)
Theorem spell_search_exact sources pool max_life g policy ps :
  mana_fits sources pool -> (0 <= g)%Z ->
  fst (solve_pips_with_mana_policy_v72 sources max_life (Some g) None policy 0 ps
         (initial_state pool sources)) = true <->
  exists st1 st2,
    pips_paid sources max_life None policy ps (initial_state pool sources) st1 /\
    generic_paid sources g st1 st2.
Proof.
  intros Hfit Hg. split.
  - by apply spell_search_sound.
  - intros (st1 & st2 & ? & ?). by eapply spell_search_complete.
Qed.

(** [solve] is exact for every cost without Phyrexian pips: it returns a
    plan if and only if the cost can be paid at all, although the generic
    part is paid greedily after the first pip assignment found. *)
Theorem solve_exact_without_phyrexian cost x pool sources :
  mana_fits sources pool -> (0 <= generic_total cost x)%Z ->
  Forall (fun p => is_phyrexian p = false) (pips cost) ->
  is_Some (solve cost x pool sources) <->
  exists st1 st2,
    pips_paid sources i64_max None Ordinary (pips cost) (initial_state pool sources) st1 /\
    generic_paid sources (generic_total cost x) st1 st2.
Proof.
  intros Hfit Hg Hph. pose proof (initial_ledger _ _ Hfit) as L0.
  pose proof (proj1 Hfit) as Hpool. pose proof (phyrexian_count_zero _ Hph) as Hz.
  split.
  - intros [p H]. apply solve_some in H as (st1 & st2 & Hp & Hgen & _); [|done].
    destruct (ledger_pips_paid _ _ Hpool _ _ _ _ _ _ L0 Hp) as (i1 & k & L1 & _).
    pose proof (pay_generic_spec _ _ _ _ _ Hpool L1 Hg) as Hs. rewrite Hgen in Hs.
    by exists st1, st2.
  - intros (st1 & st2 & Hp & Hgen).
    destruct (ledger_pips_paid _ _ Hpool _ _ _ _ _ _ L0 Hp) as (i1 & k & L1 & Hk & HA & _).
    pose proof (generic_paid_available _ _ _ _ _ _ Hpool L1 Hg Hgen) as Hle.
    unfold solve. rewrite solve_search.
    pose proof (search_complete sources i64_max None None Ordinary (pips cost) 0 _ st1
      (led_ok _ _ _ _ L0) Hp eq_refl eq_refl) as Hs.
    destruct (solve_pips_with_mana_policy_v72 _ _ _ _ _ _ _ _) as [ok sa] eqn:E.
    cbn in Hs. subst ok.
    apply search_sound in E as (sa' & Hpa & [= ->]); [|apply (led_ok _ _ _ _ L0)].
    destruct (ledger_pips_paid _ _ Hpool _ _ _ _ _ _ L0 Hpa) as (ia & ka & La & Hka & HAa & _).
    destruct (pay_generic_complete _ _ _ _ (generic_total cost x) Hpool La ltac:(lia))
      as (sb & -> & _).
    by eexists.
Qed.

(** With a Phyrexian pip [solve] is not exact, against its description:
    one floating red mana pays {R/P}{1} legally (two life for the pip, the
    mana for the generic part), and [solve] finds no plan, because it fixes
    the pip assignment before it looks at the generic part. *)
Theorem solve_misses_phyrexian_life_payment :
  let cost := MkCost [Phyrexian R] 1 0 in
  let pool := [0; 0; 0; 1; 0; 0]%Z in
  solve cost 0 pool [] = None /\
  exists st1 st2,
    pips_paid [] i64_max None Ordinary (pips cost) (initial_state pool []) st1 /\
    generic_paid [] (generic_total cost 0) st1 st2.
Proof.
  split; [vm_compute; reflexivity|].
  eexists (pay_life 2 _), (spend_pool R 1 (pay_life 2 _)). split.
  - econstructor; [apply step_life; [done|vm_compute; discriminate]|constructor].
  - eapply run_step; [by apply (gen_pool _ _ R)|]. apply run_refl.
Qed.

(** A plan for a spell that may spend restricted mana never draws more
    unrestricted mana of a color than floats (or than the plan itself
    credits), takes restricted units only among those the spell may use, each
    once and in index order, and pays life only as rule 119.4 allows. *)
Theorem can_pay_spell_separates_restricted_mana cost x v p :
  pool_ok (mana_pool v) -> mana_fits (payer_sources v) (spell_floating_pool v) ->
  (0 <= generic_total cost x)%Z -> can_pay_spell cost x v = Some p ->
  (forall c, (0 <= pool_at (pool_used p) c <=
              pool_at (mana_pool v) c + pool_at (surplus p) c)%Z) /\
  StronglySorted lt (restricted_pool_used p) /\
  Forall (fun i => exists u, restricted_units v !! i = Some u /\ permits u = true)
    (restricted_pool_used p) /\
  (life_paid p = 0 \/ life_paid p <= payer_life v)%Z.
Proof.
  intros Hm Hfit Hg. unfold can_pay_spell.
  destruct (solve _ _ _ _) as [p0|] eqn:E; [|done].
  destruct (life_payment_affordable _ _) eqn:La; [|done]. intros [= <-].
  pose proof (initial_ledger _ _ Hfit) as L0. pose proof (proj1 Hfit) as Hpool.
  apply solve_some in E as (st1 & st2 & Hp & Hgen & <-); [|done].
  destruct (ledger_pips_paid _ _ Hpool _ _ _ _ _ _ L0 Hp) as (i1 & k & L1 & Hk & HA1 & Hl1).
  pose proof (pay_generic_spec _ _ _ _ _ Hpool L1 Hg) as Hs. rewrite Hgen in Hs.
  destruct (ledger_generic_run _ _ Hpool _ _ _ _ _ L1 Hs Hg) as (i2 & L2 & _ & HA2 & Hl2).
  assert (restricted_pool_used (plan st2) = []) as Hr0.
  { rewrite (run_keeps_restricted _ _ _ _ _ Hs).
    by rewrite (pips_keep_restricted _ _ _ _ _ _ _ Hp). }
  unfold separate_restricted_spending.
  destruct (separate_from_rest (restricted_units v) 0 (plan st2)) as (_ & -> & ->).
  destruct (separate_from_indices (restricted_units v) 0 (plan st2)) as (new & -> & Hsort & Hf).
  rewrite Hr0. cbn [app]. split_and!; [|done| |].
  - intros c. pose proof (ok_pool_used _ _ (led_ok _ _ _ _ L2)) as Hu.
    destruct (separate_from_used (restricted_units v) 0 (plan st2) c Hu) as [_ ->].
    destruct (spell_floating_pool_le (restricted_units v) (mana_pool v) c Hm) as [_ Hle].
    fold (spell_floating_pool v) in Hle.
    destruct (ledger_ranges _ _ Hpool _ _ c L2) as (? & ? & ? & ? & ?).
    pose proof (led_pool _ _ _ _ L2 c). pose proof (pool_at_range _ c Hm). lia.
  - eapply Forall_impl; [exact Hf|]. intros i [_ H]. by rewrite Nat.sub_0_r in H.
  - unfold life_payment_affordable in La. apply orb_true_iff in La as [La|La];
      bool_to_prop; [left|right]; lia.
Qed.

(** Delve exiles the fewest cards that make the cost payable, from the
    front of the graveyard, and refuses only when no number of cards up to
    the graveyard's size and the generic cost would do. *)
Theorem delve_exiles_fewest_cards cost x v graveyard :
  let max_k := Nat.min (length graveyard) (Z.to_nat (generic cost)) in
  let pay k := can_pay_spell (MkCost (pips cost) (generic cost - Z.of_nat k) (x_count cost)) x v in
  match delve_payment_plan cost x v graveyard with
  | Some (p, exiled) => exists k, k <= max_k /\ exiled = take k graveyard /\
      pay k = Some p /\ forall i, i < k -> pay i = None
  | None => forall k, k <= max_k -> pay k = None
  end.
Proof.
  intros max_k pay. pose proof (delve_from_spec cost x v graveyard max_k 0) as H.
  unfold delve_payment_plan. fold max_k.
  destruct (delve_from max_k 0 cost x v graveyard) as [[p ex]|].
  - destruct H as (j & ? & -> & ? & Hn). exists j. split_and!; try done; try lia.
    intros i Hi. apply Hn. lia.
  - intros k Hk. apply H. lia.
Qed.

(** *** Witnesses *)

Definition sample_source (n : Z) (cs : list ManaColor) (y : Z) : ManaSource :=
  MkSource (MkObjectId n) cs y.

(** A dual that must pay blue, a Mountain, and an assembled Urza's Mine. *)
Definition sample_sources : list ManaSource :=
  [sample_source 1 [R; U] 1; sample_source 2 [R] 1; sample_source 3 [C] 2].
Definition sample_pool : Pool := [0; 0; 0; 1; 0; 0]%Z.
Definition sample_cost : Cost := MkCost [Colored R; Colored U] 3 0.

Lemma sample_fits : mana_fits sample_sources sample_pool.
Proof. split; [split; [done|repeat constructor; lia]|]. vm_compute. discriminate. Qed.

Lemma sample_state_ok : state_ok None (initial_state sample_pool sample_sources).
Proof. apply (led_ok _ _ _ _ (initial_ledger _ _ sample_fits)). Qed.

Lemma failed_search_restores_state_witness :
  snd (solve_pips [Colored U; Colored U] 0 sample_sources
         (initial_state sample_pool sample_sources)) =
  initial_state sample_pool sample_sources.
Proof.
  apply (failed_search_restores_state sample_sources i64_max None None Ordinary 0
           [Colored U; Colored U] _ _ sample_state_ok).
  vm_compute. reflexivity.
Defined.

Lemma solve_plan_pays_cost_witness :
  exists p k, solve sample_cost 0 sample_pool sample_sources = Some p /\
    plan_pays sample_sources sample_pool (2 - k + 3) (2 * k) p.
Proof.
  destruct (solve sample_cost 0 sample_pool sample_sources) as [p|] eqn:E;
    [|vm_compute in E; discriminate E].
  destruct (solve_plan_pays_cost sample_cost 0 sample_pool sample_sources p
    sample_fits ltac:(vm_compute; discriminate) E) as (k & ? & ? & _ & H & _).
  by exists p, k.
Defined.

Lemma spell_search_exact_witness :
  exists st1 st2,
    pips_paid [] 20 None Ordinary [Phyrexian R] (initial_state sample_pool []) st1 /\
    generic_paid [] 1 st1 st2.
Proof.
  apply (spell_search_exact [] sample_pool 20 1 Ordinary [Phyrexian R]);
    [split; [split; [done|repeat constructor; lia]|vm_compute; discriminate]|lia|].
  vm_compute. reflexivity.
Defined.

Lemma solve_exact_without_phyrexian_witness :
  exists st1 st2,
    pips_paid sample_sources i64_max None Ordinary (pips sample_cost)
      (initial_state sample_pool sample_sources) st1 /\
    generic_paid sample_sources 3 st1 st2.
Proof.
  apply (solve_exact_without_phyrexian sample_cost 0 sample_pool sample_sources
           sample_fits); [vm_compute; discriminate|repeat constructor|].
  vm_compute. eexists. reflexivity.
Defined.

Definition sample_payer : PayerView :=
  MkPayer sample_pool [MkUnit R false; MkUnit U true; MkUnit U true] 20 [].

Lemma can_pay_spell_separates_restricted_mana_witness :
  exists p, can_pay_spell (MkCost [Colored R; Colored U] 0 0) 0 sample_payer = Some p /\
    restricted_pool_used p = [1] /\
    (pool_at (pool_used p) U <= pool_at sample_pool U + pool_at (surplus p) U)%Z.
Proof.
  destruct (can_pay_spell (MkCost [Colored R; Colored U] 0 0) 0 sample_payer) as [p|] eqn:E;
    [|vm_compute in E; discriminate E].
  exists p. split; [done|]. split; [vm_compute in E; injection E as <-; reflexivity|].
  destruct (can_pay_spell_separates_restricted_mana (MkCost [Colored R; Colored U] 0 0) 0
    sample_payer p) as [H _].
  - split; [done|repeat constructor; lia].
  - split; [split; [done|repeat constructor; vm_compute; intuition discriminate]|].
    vm_compute. discriminate.
  - vm_compute. discriminate.
  - exact E.
  - apply (H U).
Defined.
