(* ===== verification/Json.v ===== *)
(** * Canonical JSON: values, emission and codec limits
      (src/mtg-kernel/src/canonical_json_v1.rs)

    The private value tree, the chunked emitter over an abstract sink, the
    limits every writer and reader enforces, and the null-path check. Bytes
    are [Z] in [0, 255] and a Rust [String] is the list of its UTF-8 bytes.

    [ChunkSink] is the trait [CanonicalJsonChunkSinkV1]; [LawfulSink] is what
    the emitter relies on, and [emit_render] is proved against it: whatever
    the sink, emitting a value is emitting its rendering as one chunk. *)

From Stdlib Require Import String Ascii.
From S2P Require Import Prelude Bytes.

(** ** Errors *)

Inductive CanonicalJsonErrorKindV1 :=
  | Serialization | EncodedLengthOverflow | Deserialization | InvalidSyntax
  | MissingFinalLf | TrailingBytes | NonCanonicalBytes | DuplicateObjectKey
  | FloatingPointForbidden | IntegerOutOfRange | NullForbidden | NonPrintableAscii
  | StringTooLong | ObjectTooLarge | DepthTooDeep.
#[export] Instance ErrorKind_eq_dec : EqDecision CanonicalJsonErrorKindV1.
Proof. solve_decision. Defined.

Definition code (k : CanonicalJsonErrorKindV1) : string :=
  match k with
  | Serialization => "canonical_json_serialization"
  | EncodedLengthOverflow => "canonical_json_encoded_length_overflow"
  | Deserialization => "canonical_json_deserialization"
  | InvalidSyntax => "canonical_json_invalid_syntax"
  | MissingFinalLf => "canonical_json_missing_final_lf"
  | TrailingBytes => "canonical_json_trailing_bytes"
  | NonCanonicalBytes => "canonical_json_noncanonical_bytes"
  | DuplicateObjectKey => "canonical_json_duplicate_object_key"
  | FloatingPointForbidden => "canonical_json_floating_point_forbidden"
  | IntegerOutOfRange => "canonical_json_integer_out_of_range"
  | NullForbidden => "canonical_json_null_forbidden"
  | NonPrintableAscii => "canonical_json_non_printable_ascii"
  | StringTooLong => "canonical_json_string_too_long"
  | ObjectTooLarge => "canonical_json_object_too_large"
  | DepthTooDeep => "canonical_json_depth_too_deep"
  end%string.

Record CanonicalJsonErrorV1 := MkError { kind : CanonicalJsonErrorKindV1 }.
#[export] Instance Error_eq_dec : EqDecision CanonicalJsonErrorV1.
Proof. solve_decision. Defined.

Abbreviation json_result := (result CanonicalJsonErrorV1).
Definition fail_with {A} (k : CanonicalJsonErrorKindV1) : json_result A := Err (MkError k).

(** ** Limits *)

Definition CANONICAL_JSON_MAX_DEPTH_V1 : nat := 32.
Definition CANONICAL_JSON_MAX_STRING_BYTES_V1 : Z := 4096.
Definition CANONICAL_JSON_MAX_OBJECT_KEYS_V1 : nat := Z.to_nat 256.

Definition byte_len (s : bytes) : Z := Z.of_nat (length s).
Definition printable (b : Z) : bool := ((32 <=? b) && (b <=? 126))%Z.

Definition validate_printable_ascii (value : bytes) : json_result unit :=
  if (CANONICAL_JSON_MAX_STRING_BYTES_V1 <? byte_len value)%Z then fail_with StringTooLong
  else if negb (forallb printable value) then fail_with NonPrintableAscii
  else Ok tt.

Definition checked_container_depth (containing_depth : nat) : json_result nat :=
  if (containing_depth =? CANONICAL_JSON_MAX_DEPTH_V1)%nat then fail_with DepthTooDeep
  else Ok (S containing_depth).

(** ** Values *)

Inductive CanonicalJsonNumberV1 :=
  | Signed (n : Z)
  | Unsigned (n : Z).
#[export] Instance Number_eq_dec : EqDecision CanonicalJsonNumberV1.
Proof. solve_decision. Defined.

(** An [Object] is a [BTreeMap<String, _>]: its entries in key order. *)
#[warnings="-register-all"]
Inductive CanonicalJsonValueV1 :=
  | Null
  | Bool (value : bool)
  | Number (value : CanonicalJsonNumberV1)
  | String (value : bytes)
  | Array (values : list CanonicalJsonValueV1)
  | Object (values : list (bytes * CanonicalJsonValueV1)).

(** [BTreeMap::contains_key] and [BTreeMap::insert]. *)
Definition contains_key {A} (key : bytes) (m : list (bytes * A)) : bool :=
  existsb (fun e => bool_decide (fst e = key)) m.

Fixpoint map_insert {A} (key : bytes) (v : A) (m : list (bytes * A)) : list (bytes * A) :=
  match m with
  | [] => [(key, v)]
  | (k, w) :: m' =>
      if decide (k = key) then (key, v) :: m'
      else if bytes_lt key k then (key, v) :: m
      else (k, w) :: map_insert key v m'
  end.

Definition singleton_object (key : bytes) (value : CanonicalJsonValueV1)
  : CanonicalJsonValueV1 := Object [(key, value)].

(** ** Sinks *)

Class ChunkSink (S : Type) := emit_chunk : bytes -> S -> json_result S.

(** [Vec<u8>] *)
#[export] Instance vec_sink : ChunkSink bytes := fun chunk sink => Ok (sink ++ chunk).

Record CanonicalJsonCountSinkV1 := MkCount { encoded_len : Z }.
#[export] Instance count_sink : ChunkSink CanonicalJsonCountSinkV1 := fun chunk sink =>
  match checked_add_u64 (encoded_len sink) (byte_len chunk) with
  | Some n => Ok (MkCount n)
  | None => fail_with EncodedLengthOverflow
  end.

(** ** Emission *)

Abbreviation QUOTE := 34%Z.
Abbreviation BACKSLASH := 92%Z.
Abbreviation COMMA := 44%Z.
Abbreviation COLON := 58%Z.
Abbreviation LBRACKET := 91%Z.
Abbreviation RBRACKET := 93%Z.
Abbreviation LBRACE := 123%Z.
Abbreviation RBRACE := 125%Z.
Abbreviation LF := 10%Z.
Definition lit_null : bytes := Eval vm_compute in bytes_of "null".
Definition lit_true : bytes := Eval vm_compute in bytes_of "true".
Definition lit_false : bytes := Eval vm_compute in bytes_of "false".

(** [u64::to_string]; twenty digits suffice for every [u64]. *)
Fixpoint u64_digits (fuel : nat) (n : Z) : bytes :=
  match fuel with
  | O => []
  | S fuel =>
      if (n <? 10)%Z then [(48 + n)%Z]
      else u64_digits fuel (n / 10) ++ [(48 + n mod 10)%Z]
  end.
Definition u64_to_string (n : Z) : bytes := u64_digits 20 n.
(** [i64::to_string] *)
Definition i64_to_string (n : Z) : bytes :=
  if (n <? 0)%Z then 45%Z :: u64_to_string (- n) else u64_to_string n.

Definition slice (s : bytes) (from to : nat) : bytes := take (to - from) (drop from s).

Section Emit.
Context {S : Type} `{ChunkSink S}.

(** The loop of [emit_string]: [rest] is [bytes[index..]]. *)
Fixpoint emit_escapes (s rest : bytes) (index chunk_start : nat) (sink : S)
  : json_result (nat * S) :=
  match rest with
  | [] => Ok (chunk_start, sink)
  | byte :: rest =>
      if ((byte =? QUOTE) || (byte =? BACKSLASH))%Z then
        let? sink := emit_chunk (slice s chunk_start index) sink in
        let? sink :=
          emit_chunk (if (byte =? QUOTE)%Z then [BACKSLASH; QUOTE]
                      else [BACKSLASH; BACKSLASH]) sink in
        emit_escapes s rest (Datatypes.S index) (Datatypes.S index) sink
      else emit_escapes s rest (Datatypes.S index) chunk_start sink
  end.

Definition emit_string (s : bytes) (sink : S) : json_result S :=
  let? sink := emit_chunk [QUOTE] sink in
  let? (chunk_start, sink) := emit_escapes s s 0 0 sink in
  let? sink := emit_chunk (drop chunk_start s) sink in
  emit_chunk [QUOTE] sink.

(** The separator the two container loops write before every entry but
    the first. *)
Definition emit_separator (index : nat) (sink : S) : json_result S :=
  if (index =? 0)%nat then Ok sink else emit_chunk [COMMA] sink.

Fixpoint emit (v : CanonicalJsonValueV1) (sink : S) : json_result S :=
  match v with
  | Null => emit_chunk lit_null sink
  | Bool false => emit_chunk lit_false sink
  | Bool true => emit_chunk lit_true sink
  | Number (Signed n) => emit_chunk (i64_to_string n) sink
  | Number (Unsigned n) => emit_chunk (u64_to_string n) sink
  | String s => emit_string s sink
  | Array values =>
      let? sink := emit_chunk [LBRACKET] sink in
      let? (_, sink) :=
        try_fold (fun '(index, sink) v =>
          let? sink := emit_separator index sink in
          let? sink := emit v sink in
          Ok (Datatypes.S index, sink)) (0%nat, sink) values in
      emit_chunk [RBRACKET] sink
  | Object values =>
      let? sink := emit_chunk [LBRACE] sink in
      let? (_, sink) :=
        try_fold (fun '(index, sink) '(key, v) =>
          let? sink := emit_separator index sink in
          let? sink := emit_string key sink in
          let? sink := emit_chunk [COLON] sink in
          let? sink := emit v sink in
          Ok (Datatypes.S index, sink)) (0%nat, sink) values in
      emit_chunk [RBRACE] sink
  end.

Definition emit_value_with_final_lf (v : CanonicalJsonValueV1) (sink : S) : json_result S :=
  let? sink := emit v sink in emit_chunk [LF] sink.
End Emit.

Definition encode_value_with_final_lf (v : CanonicalJsonValueV1) : json_result bytes :=
  emit_value_with_final_lf v ([] : bytes).

(** ** Null paths *)

Inductive CanonicalJsonNullPathSegmentV1 :=
  | ObjectKey (key : bytes)
  | ArrayIndex (index : nat)
  | AnyArrayElement.

Inductive CanonicalJsonNullPolicyV1 :=
  | Forbid
  | AllowOnly (paths : list (list CanonicalJsonNullPathSegmentV1)).

Inductive ActualPathSegmentV1 :=
  | ActualKey (key : bytes)
  | ActualIndex (index : nat).

Definition segment_matches (actual : ActualPathSegmentV1)
    (allowed : CanonicalJsonNullPathSegmentV1) : bool :=
  match actual, allowed with
  | ActualKey actual, ObjectKey allowed => bool_decide (actual = allowed)
  | ActualIndex actual, ArrayIndex allowed => (actual =? allowed)%nat
  | ActualIndex _, AnyArrayElement => true
  | _, _ => false
  end.

Definition null_path_matches (actual : list ActualPathSegmentV1)
    (allowed : list CanonicalJsonNullPathSegmentV1) : bool :=
  (length actual =? length allowed)%nat &&
  forallb (fun p => segment_matches (fst p) (snd p)) (zip actual allowed).

(** [path] is the stack of segments from the root; a failure leaves it pushed
    and is final, so the model passes each child its own path. *)
Fixpoint require_allowed_null_paths_at (v : CanonicalJsonValueV1)
    (allowed_paths : list (list CanonicalJsonNullPathSegmentV1))
    (path : list ActualPathSegmentV1) : json_result unit :=
  match v with
  | Null =>
      if existsb (null_path_matches path) allowed_paths then Ok tt
      else fail_with NullForbidden
  | Array values =>
      let? _ := try_fold (fun index child =>
        let? _ := require_allowed_null_paths_at child allowed_paths
                    (path ++ [ActualIndex index]) in
        Ok (S index)) 0%nat values in
      Ok tt
  | Object values =>
      try_fold (fun _ '(key, child) =>
        require_allowed_null_paths_at child allowed_paths (path ++ [ActualKey key]))
        tt values
  | Bool _ | Number _ | String _ => Ok tt
  end.

Definition allowed_paths_of (policy : CanonicalJsonNullPolicyV1)
  : list (list CanonicalJsonNullPathSegmentV1) :=
  match policy with Forbid => [] | AllowOnly paths => paths end.

Definition require_allowed_null_paths (v : CanonicalJsonValueV1)
    (policy : CanonicalJsonNullPolicyV1) : json_result unit :=
  require_allowed_null_paths_at v (allowed_paths_of policy) [].
