(* ===== verification/JsonRender.v ===== *)
(** * Canonical JSON: the rendering specification

    [render] is the compact rendering of a value as one byte string, the
    specification of the chunked emitter; [wf_value] is the well-formedness
    every value of the codec has (bounded printable strings, integers of
    their width, strictly sorted keys); [canonical_value] adds the number
    normal form and the depth bound of a document. *)

From S2P Require Import Prelude Bytes Json.

(* ------------------------------------------------------------------ *)
(** ** Induction on values *)

Section ValueInd.
Context (P : CanonicalJsonValueV1 -> Prop)
        (Hnull : P Null) (Hbool : forall b, P (Bool b)) (Hnum : forall n, P (Number n))
        (Hstr : forall s, P (String s))
        (Harr : forall vs, Forall P vs -> P (Array vs))
        (Hobj : forall fs, Forall (fun e => P (snd e)) fs -> P (Object fs)).

Fixpoint value_nested_ind (v : CanonicalJsonValueV1) : P v :=
  match v with
  | Null => Hnull
  | Bool b => Hbool b
  | Number n => Hnum n
  | String s => Hstr s
  | Array vs => Harr vs
      ((fix all vs : Forall P vs :=
          match vs with
          | [] => Forall_nil_2 _
          | v :: vs => Forall_cons_2 _ _ _ (value_nested_ind v) (all vs)
          end) vs)
  | Object fs => Hobj fs
      ((fix all fs : Forall (fun e => P (snd e)) fs :=
          match fs with
          | [] => Forall_nil_2 _
          | e :: fs => Forall_cons_2 _ _ _ (value_nested_ind (snd e)) (all fs)
          end) fs)
  end.
End ValueInd.

(* ------------------------------------------------------------------ *)
(** ** Specification *)

(** Comma-separated concatenation. *)
Definition tail_join (rs : list bytes) : bytes := concat (map (cons COMMA) rs).
Definition join (rs : list bytes) : bytes :=
  match rs with [] => [] | r :: rs => r ++ tail_join rs end.

Definition escape (b : Z) : bytes :=
  if ((b =? QUOTE) || (b =? BACKSLASH))%Z then [BACKSLASH; b] else [b].
Definition render_string (s : bytes) : bytes := QUOTE :: concat (map escape s) ++ [QUOTE].

Fixpoint render (v : CanonicalJsonValueV1) : bytes :=
  match v with
  | Null => lit_null
  | Bool true => lit_true
  | Bool false => lit_false
  | Number (Signed n) => i64_to_string n
  | Number (Unsigned n) => u64_to_string n
  | String s => render_string s
  | Array vs => LBRACKET :: join (map render vs) ++ [RBRACKET]
  | Object fs =>
      LBRACE :: join (map (fun e => render_string (fst e) ++ COLON :: render (snd e)) fs)
        ++ [RBRACE]
  end.

Definition render_field (e : bytes * CanonicalJsonValueV1) : bytes :=
  render_string (fst e) ++ COLON :: render (snd e).

Definition max_depth (ds : list nat) : nat := foldr Nat.max 0 ds.

(** Number of containers around the deepest scalar. *)
Fixpoint depth (v : CanonicalJsonValueV1) : nat :=
  match v with
  | Array vs => S (max_depth (map depth vs))
  | Object fs => S (max_depth (map (fun e => depth (snd e)) fs))
  | _ => 0
  end.

Definition str_ok (s : bytes) : bool :=
  (byte_len s <=? CANONICAL_JSON_MAX_STRING_BYTES_V1)%Z && forallb printable s.

Definition number_ok (n : CanonicalJsonNumberV1) : bool :=
  match n with
  | Signed n => ((i64_min <=? n) && (n <=? i64_max))%Z
  | Unsigned n => ((0 <=? n) && (n <=? u64_max))%Z
  end.

Fixpoint keys_sorted {A} (m : list (bytes * A)) : bool :=
  match m with
  | [] => true
  | (k, _) :: m => forallb (fun e => bytes_lt k (fst e)) m && keys_sorted m
  end.

Fixpoint wf_value (v : CanonicalJsonValueV1) : bool :=
  match v with
  | Null | Bool _ => true
  | Number n => number_ok n
  | String s => str_ok s
  | Array vs => forallb wf_value vs
  | Object fs =>
      forallb (fun e => str_ok (fst e) && wf_value (snd e)) fs && keys_sorted fs &&
      (length fs <=? CANONICAL_JSON_MAX_OBJECT_KEYS_V1)%nat
  end.

(** The form in which the reader returns a number: signed only if negative. *)
Definition norm_number (n : CanonicalJsonNumberV1) : CanonicalJsonNumberV1 :=
  match n with Signed n => if (n <? 0)%Z then Signed n else Unsigned n | Unsigned n => Unsigned n end.

Fixpoint norm (v : CanonicalJsonValueV1) : CanonicalJsonValueV1 :=
  match v with
  | Number n => Number (norm_number n)
  | Array vs => Array (map norm vs)
  | Object fs => Object (map (fun e => (fst e, norm (snd e))) fs)
  | v => v
  end.

Definition canonical_value (v : CanonicalJsonValueV1) : Prop :=
  wf_value v = true /\ depth v <= CANONICAL_JSON_MAX_DEPTH_V1 /\ norm v = v.

(** Where a value contains a null, and which paths a policy admits. *)
Inductive null_at : CanonicalJsonValueV1 -> list ActualPathSegmentV1 -> Prop :=
  | null_here : null_at Null []
  | null_in_array vs i v path :
      vs !! i = Some v -> null_at v path -> null_at (Array vs) (ActualIndex i :: path)
  | null_in_object fs k v path :
      (k, v) ∈ fs -> null_at v path -> null_at (Object fs) (ActualKey k :: path).

Inductive segment_admits : CanonicalJsonNullPathSegmentV1 -> ActualPathSegmentV1 -> Prop :=
  | admits_key k : segment_admits (ObjectKey k) (ActualKey k)
  | admits_index i : segment_admits (ArrayIndex i) (ActualIndex i)
  | admits_any i : segment_admits AnyArrayElement (ActualIndex i).

Definition nulls_allowed (policy : CanonicalJsonNullPolicyV1) (v : CanonicalJsonValueV1)
  : Prop :=
  forall path, null_at v path ->
    exists allowed, allowed ∈ allowed_paths_of policy /\ Forall2 segment_admits allowed path.

(* ------------------------------------------------------------------ *)
(** ** Key order and [BTreeMap] *)

Lemma contains_key_spec {A} key (m : list (bytes * A)) :
  contains_key key m = true <-> key ∈ map fst m.
Proof.
  unfold contains_key. induction m as [|[k v] m IH]; cbn.
  - split; [done|]. by intros ?%elem_of_nil.
  - rewrite orb_true_iff, IH, bool_decide_eq_true, elem_of_cons. intuition congruence.
Qed.

Lemma map_insert_in {A} key (v : A) m k w :
  (k, w) ∈ map_insert key v m -> k = key /\ w = v \/ (k, w) ∈ m.
Proof.
  induction m as [|[k' w'] m IH]; cbn.
  - intros [= -> ->]%list_elem_of_singleton. by left.
  - case_decide as D; [|destruct (bytes_lt key k')].
    + intros [[= -> ->]|H]%elem_of_cons; [by left|right; by right].
    + intros [[= -> ->]|H]%elem_of_cons; [by left|by right].
    + intros [[= -> ->]|H]%elem_of_cons; [right; by left|].
      destruct (IH H) as [?|?]; [by left|right; by right].
Qed.

Lemma map_insert_length {A} key (v : A) m :
  ~ key ∈ map fst m -> length (map_insert key v m) = S (length m).
Proof.
  induction m as [|[k w] m IH]; intros Hni; csimpl; [done|].
  case_decide as D; [subst; destruct Hni; by left|].
  destruct (bytes_lt key k); csimpl; [done|]. rewrite IH; [done|].
  intros ?. apply Hni. by right.
Qed.

Lemma forallb_Forall {A} (f : A -> bool) l : forallb f l = true <-> Forall (fun a => f a = true) l.
Proof.
  induction l as [|a l IH]; cbn; [by split|].
  by rewrite andb_true_iff, IH, Forall_cons.
Qed.

Lemma map_insert_sorted {A} key (v : A) m :
  keys_sorted m = true -> keys_sorted (map_insert key v m) = true.
Proof.
  induction m as [|[k w] m IH]; cbn; [done|].
  rewrite andb_true_iff, forallb_Forall. intros [Hk Hm].
  case_decide as D; [subst; cbn; rewrite andb_true_iff, forallb_Forall; done|].
  destruct (bytes_lt key k) eqn:L; cbn; rewrite ?andb_true_iff, ?forallb_Forall.
  - split_and!; [done| |done|done].
    eapply Forall_impl; [exact Hk|]. cbn. intros [k' w'] H. by eapply bytes_lt_trans.
  - split; [|by apply IH]. apply Forall_forall. intros [k' w'] [[-> ->]|Hin]%map_insert_in; cbn.
    + apply bytes_lt_total in L; auto.
    + rewrite Forall_forall in Hk. apply (Hk _ Hin).
Qed.

(** Inserting a key above all others appends it. *)
Lemma map_insert_above {A} key (v : A) m :
  Forall (fun e => bytes_lt (fst e) key = true) m -> map_insert key v m = m ++ [(key, v)].
Proof.
  induction m as [|[k w] m IH]; cbn; [done|]. intros [Hk Hm]%Forall_cons. cbn in Hk.
  case_decide as D; [subst; by rewrite bytes_lt_irrefl in Hk|].
  destruct (bytes_lt key k) eqn:L.
  - pose proof (bytes_lt_trans _ _ _ Hk L) as C. by rewrite bytes_lt_irrefl in C.
  - by rewrite IH.
Qed.

Lemma keys_sorted_app {A} (m1 m2 : list (bytes * A)) :
  keys_sorted (m1 ++ m2) = true <->
  keys_sorted m1 = true /\ keys_sorted m2 = true /\
  Forall (fun e1 => Forall (fun e2 => bytes_lt (fst e1) (fst e2) = true) m2) m1.
Proof.
  induction m1 as [|[k v] m1 IH]; cbn.
  - split; [|tauto]. intros H. split_and!; [done|done|constructor].
  - rewrite forallb_app, !andb_true_iff, IH, Forall_cons, !forallb_Forall. cbn. tauto.
Qed.

Lemma keys_sorted_nodup {A} (m : list (bytes * A)) :
  keys_sorted m = true -> NoDup (map fst m).
Proof.
  induction m as [|[k v] m IH]; cbn; [constructor|].
  rewrite andb_true_iff, forallb_Forall. intros [Hk Hm]. constructor; [|by apply IH].
  intros (e & -> & Hin)%list_elem_of_fmap. rewrite Forall_forall in Hk.
  specialize (Hk _ Hin). by rewrite bytes_lt_irrefl in Hk.
Qed.

(* ------------------------------------------------------------------ *)
(** ** Decimal numerals *)

Definition digit (b : Z) : bool := ((48 <=? b) && (b <=? 57))%Z.

Lemma u64_digits_digits fuel n :
  (0 <= n)%Z -> Forall (fun b => digit b = true) (u64_digits fuel n).
Proof.
  revert n. induction fuel as [|fuel IH]; intros n Hn; cbn; [constructor|].
  assert (digit_of : forall d, (0 <= d < 10)%Z -> digit (48 + d) = true).
  { intros d Hd. unfold digit. apply andb_true_iff. split; apply Z.leb_le; lia. }
  destruct (n <? 10)%Z eqn:E; bool_to_prop.
  - repeat constructor. apply digit_of. lia.
  - apply Forall_app. split; [apply IH, Z.div_pos; lia|].
    repeat constructor. apply digit_of, Z.mod_pos_bound. lia.
Qed.

(** The value of a digit string, most significant first. *)
Definition digits_value (ds : bytes) : Z := foldl (fun v d => v * 10 + (d - 48))%Z 0%Z ds.

Lemma u64_digits_value fuel n :
  (0 <= n < 10 ^ Z.of_nat fuel)%Z -> digits_value (u64_digits fuel n) = n.
Proof.
  revert n. induction fuel as [|fuel IH]; intros n Hn; [cbn; cbn in Hn; lia|].
  rewrite Nat2Z.inj_succ, Z.pow_succ_r in Hn by lia. cbn [u64_digits].
  destruct (n <? 10)%Z eqn:E; [cbn; lia|]. bool_to_prop.
  unfold digits_value. rewrite foldl_app. cbn [foldl].
  fold (digits_value (u64_digits fuel (n / 10))).
  rewrite IH; [pose proof (Z.div_mod n 10); lia|].
  split; [apply Z.div_pos; lia|]. apply Z.div_lt_upper_bound; lia.
Qed.

Lemma u64_digits_nonempty fuel n : u64_digits (S fuel) n <> [].
Proof. cbn. destruct (n <? 10)%Z; [done|]. intros [_ [=]]%app_nil. Qed.

Lemma u64_digits_head fuel n d ds :
  (0 <= n < 10 ^ Z.of_nat fuel)%Z -> u64_digits fuel n = d :: ds ->
  (d = 48 -> n = 0 /\ ds = [])%Z.
Proof.
  revert n ds. induction fuel as [|fuel IH]; intros n ds Hn; [done|].
  rewrite Nat2Z.inj_succ, Z.pow_succ_r in Hn by lia. cbn [u64_digits].
  destruct (n <? 10)%Z eqn:E; bool_to_prop; [intros [= <- <-] ?; split; [lia|done]|].
  assert (0 < n / 10)%Z as Hpos by (apply Z.div_str_pos; lia).
  assert (n / 10 < 10 ^ Z.of_nat fuel)%Z by (apply Z.div_lt_upper_bound; lia).
  destruct (u64_digits fuel (n / 10)) as [|d' ds'] eqn:F.
  - apply (f_equal digits_value) in F. rewrite u64_digits_value in F by lia. cbn in F. lia.
  - intros [= <- <-] Hd. destruct (IH (n / 10)%Z ds' ltac:(lia) F Hd). exfalso. lia.
Qed.

Lemma u64_digits_spec fuel n :
  (0 <= n < 10 ^ Z.of_nat (S fuel))%Z ->
  exists d ds, u64_digits (S fuel) n = d :: ds /\
    Forall (fun b => digit b = true) (d :: ds) /\ digits_value (d :: ds) = n /\
    (d = 48 -> ds = [])%Z.
Proof.
  intros Hn.
  pose proof (u64_digits_value (S fuel) n Hn) as Hv.
  pose proof (u64_digits_digits (S fuel) n ltac:(lia)) as Hd.
  pose proof (fun d ds => u64_digits_head (S fuel) n d ds Hn) as Hh.
  pose proof (u64_digits_nonempty fuel n) as Hne.
  destruct (u64_digits (S fuel) n) as [|d ds]; [done|].
  exists d, ds. split_and!; [done|done|done|]. intros Ed. by apply (Hh d ds).
Qed.

Lemma u64_to_string_spec n :
  (0 <= n <= u64_max)%Z ->
  exists d ds, u64_to_string n = d :: ds /\
    Forall (fun b => digit b = true) (d :: ds) /\ digits_value (d :: ds) = n /\
    (d = 48 -> ds = [])%Z.
Proof.
  intros Hn. apply (u64_digits_spec 19).
  assert (10 ^ Z.of_nat 20 = 100000000000000000000)%Z as -> by reflexivity.
  unfold u64_max in Hn. lia.
Qed.

(* ------------------------------------------------------------------ *)
(** ** Lawful sinks

    What the emitter relies on: writing a concatenation is writing its
    parts, on the states [sink_ok] the sink can reach. *)

Class LawfulSink (S : Type) `{ChunkSink S} := {
  sink_ok : S -> Prop;
  sink_nil s : sink_ok s -> emit_chunk [] s = Ok s;
  sink_app a b s : sink_ok s ->
    emit_chunk (a ++ b) s = let? s := emit_chunk a s in emit_chunk b s;
  sink_keeps a s s' : sink_ok s -> emit_chunk a s = Ok s' -> sink_ok s';
}.

#[export] Instance vec_lawful : LawfulSink bytes.
Proof.
  refine {| sink_ok := fun _ => True |}.
  - intros s _. unfold emit_chunk, vec_sink. by rewrite app_nil_r.
  - intros a b s _. unfold emit_chunk, vec_sink; cbn. by rewrite app_assoc.
  - done.
Defined.

#[export] Instance count_lawful : LawfulSink CanonicalJsonCountSinkV1.
Proof.
  refine {| sink_ok := fun s => (0 <= encoded_len s <= u64_max)%Z |}.
  all: unfold emit_chunk, count_sink, checked_add_u64, byte_len.
  - intros [n] Hn; cbn in *. rewrite Z.add_0_r.
    destruct (checked_unsigned u64_max n) eqn:E.
    + apply checked_unsigned_some in E as [-> _]. done.
    + by apply checked_unsigned_none in E.
  - intros a b [n] Hn; cbn in *. rewrite length_app.
    destruct (checked_unsigned u64_max (n + Z.of_nat (length a))) as [m|] eqn:E1; cbn.
    + apply checked_unsigned_some in E1 as [-> _].
      replace (n + Z.of_nat (length a + length b))%Z
        with (n + Z.of_nat (length a) + Z.of_nat (length b))%Z by lia. done.
    + apply checked_unsigned_none in E1.
      destruct (checked_unsigned u64_max (n + Z.of_nat (length a + length b))) eqn:E2; [|done].
      apply checked_unsigned_some in E2 as [_ ?]. lia.
  - intros a [n] [n'] Hn; cbn in *.
    destruct (checked_unsigned u64_max _) eqn:E; [|done]. intros [= <-].
    by apply checked_unsigned_some in E as [-> ?].
Defined.

Section EmitRender.
Context {S : Type} `{LawfulSink S}.

(** Two writes in a row are one write. *)
Lemma emit_two a b (k : S -> json_result S) s :
  sink_ok s -> (forall s, sink_ok s -> k s = emit_chunk b s) ->
  (let? s := emit_chunk a s in k s) = emit_chunk (a ++ b) s.
Proof.
  intros Hs Hk. rewrite sink_app by done. apply result_bind_ext.
  intros s' E. apply Hk. by eapply sink_keeps.
Qed.

Lemma slice_succ s start index b rest :
  drop index s = b :: rest -> start <= index ->
  slice s start (Datatypes.S index) = slice s start index ++ [b].
Proof.
  intros Hd Hle. unfold slice. rewrite Nat.sub_succ_l by done. apply take_S_r.
  rewrite lookup_drop. replace (start + (index - start)) with (index + 0) by lia.
  by rewrite <- lookup_drop, Hd.
Qed.

Lemma emit_escapes_render s rest : forall index chunk_start sink,
  sink_ok sink -> drop index s = rest -> chunk_start <= index ->
  (let? (start, sink) := emit_escapes s rest index chunk_start sink in
   let? sink := emit_chunk (drop start s) sink in emit_chunk [QUOTE] sink) =
  emit_chunk (slice s chunk_start index ++ concat (map escape rest) ++ [QUOTE]) sink.
Proof.
  induction rest as [|b rest IH]; intros index start sink Hs Hd Hle; cbn.
  - rewrite (emit_two _ [QUOTE]); [|done|done]. f_equal. f_equal. unfold slice.
    symmetry. apply take_ge. rewrite length_drop.
    apply (f_equal length) in Hd. rewrite length_drop in Hd. cbn in Hd. lia.
  - assert (drop (Datatypes.S index) s = rest) as Hd'.
    { replace (Datatypes.S index) with (index + 1) by lia. by rewrite <- drop_drop, Hd. }
    unfold escape at 1. destruct (_ || _)%bool eqn:Q.
    + rewrite result_bind_assoc.
      apply emit_two; [done|]. clear sink Hs. intros sink Hs.
      rewrite result_bind_assoc.
      rewrite (emit_two _ (slice s (Datatypes.S index) (Datatypes.S index) ++
                 concat (map escape rest) ++ [QUOTE]));
        [|done|intros s' Hs'; apply IH; [done|done|lia]].
      f_equal. unfold slice. rewrite Nat.sub_diag. cbn.
      destruct (b =? QUOTE)%Z eqn:B; [by bool_to_prop; subst|].
      cbn in Q. bool_to_prop. by subst.
    + rewrite IH by (done || lia). f_equal. rewrite (slice_succ _ _ _ b rest) by done.
      by rewrite <- app_assoc.
Qed.

Lemma emit_string_render s sink :
  sink_ok sink -> emit_string s sink = emit_chunk (render_string s) sink.
Proof.
  intros Hs. unfold emit_string.
  apply (emit_two [QUOTE]); [done|]. clear sink Hs. intros sink Hs.
  by rewrite emit_escapes_render.
Qed.

(** The loop both containers share: [emit_entry] writes one entry. *)
Lemma emit_entries {A} (emit_entry : A -> S -> json_result S) (r : A -> bytes)
    (step : nat * S -> A -> json_result (nat * S)) l :
  (forall i s a, a ∈ l -> sink_ok s -> step (i, s) a =
     let? s := emit_separator i s in
     let? s := emit_entry a s in Ok (Datatypes.S i, s)) ->
  (forall a s, a ∈ l -> sink_ok s -> emit_entry a s = emit_chunk (r a) s) ->
  forall i s, sink_ok s ->
    try_fold step (i, s) l =
    let? s := emit_chunk (if (i =? 0)%nat then join (map r l) else tail_join (map r l)) s in
    Ok (i + length l, s).
Proof.
  intros Hstep He. induction l as [|a l IH]; intros i s Hs; cbn.
  { rewrite Nat.add_0_r.
    destruct i; cbn [Nat.eqb join tail_join map concat]; by rewrite sink_nil. }
  assert (forall s, sink_ok s ->
    (let? p := (let? s := emit_entry a s in Ok (Datatypes.S i, s)) in try_fold step p l) =
    let? s := emit_chunk (r a ++ tail_join (map r l)) s in Ok (i + Datatypes.S (length l), s))
    as Hrest.
  { intros s' Hs'. rewrite He by (done || by left).
    rewrite sink_app, !result_bind_assoc by done.
    apply result_bind_ext. intros s2 E2. cbn [result_bind]. rewrite IH.
    - cbn [Nat.eqb]. by rewrite Nat.add_succ_r.
    - intros ? ? ? ?. apply Hstep. by right.
    - intros ? ? ?. apply He. by right.
    - by eapply sink_keeps. }
  rewrite Hstep by (done || by left). rewrite result_bind_assoc.
  destruct i as [|i]; [apply (Hrest s Hs)|].
  unfold emit_separator. cbn [Nat.eqb].
  match goal with |- _ = let? _ := emit_chunk ?x s in _ =>
    change x with (tail_join (r a :: map r l)) end.
  assert (emit_chunk (tail_join (r a :: map r l)) s =
    let? s := emit_chunk [COMMA] s in emit_chunk (r a ++ tail_join (map r l)) s) as ->
    by by apply (sink_app [COMMA]).
  rewrite result_bind_assoc.
  apply result_bind_ext. intros s1 E1. apply Hrest. by eapply sink_keeps.
Qed.

Lemma emit_list_render {A} (emit_entry : A -> S -> json_result S) (r : A -> bytes)
    (step : nat * S -> A -> json_result (nat * S)) l opening closing sink :
  (forall i s a, a ∈ l -> sink_ok s -> step (i, s) a =
     let? s := emit_separator i s in
     let? s := emit_entry a s in Ok (Datatypes.S i, s)) ->
  (forall a s, a ∈ l -> sink_ok s -> emit_entry a s = emit_chunk (r a) s) ->
  sink_ok sink ->
  (let? sink := emit_chunk [opening] sink in
   let? (_, sink) := try_fold step (0, sink) l in
   emit_chunk [closing] sink) =
  emit_chunk (opening :: join (map r l) ++ [closing]) sink.
Proof.
  intros Hstep He Hs. apply (emit_two [opening]); [done|]. clear sink Hs. intros sink Hs.
  rewrite (emit_entries emit_entry r) by done. rewrite result_bind_assoc. cbn.
  by apply emit_two.
Qed.

(** Whatever the sink, emitting a value writes exactly its rendering. *)
Lemma emit_render v : forall sink, sink_ok sink -> emit v sink = emit_chunk (render v) sink.
Proof.
  induction v as [|[]|[]|s|vs IH|fs IH] using value_nested_ind; intros sink Hs;
    try done; cbn [emit render].
  - by apply emit_string_render.
  - apply (emit_list_render emit render); [done| |done].
    intros a s Ha. rewrite Forall_forall in IH. by apply IH.
  - apply (emit_list_render
      (fun e s => let? s := emit_string (fst e) s in
                  let? s := emit_chunk [COLON] s in emit (snd e) s) render_field); [| |done].
    + intros i s [k v] _ _. cbn. apply result_bind_ext. intros s1 _.
      rewrite !result_bind_assoc. apply result_bind_ext. intros s2 _.
      by rewrite !result_bind_assoc.
    + intros [k v] s He Hok. rewrite emit_string_render by done.
      apply emit_two; [done|]. clear s Hok. intros s Hok. cbn [fst snd].
      apply (emit_two [COLON]); [done|]. intros s' Hs'.
      rewrite Forall_forall in IH. by apply (IH _ He).
Qed.

Lemma emit_value_render v sink :
  sink_ok sink -> emit_value_with_final_lf v sink = emit_chunk (render v ++ [LF]) sink.
Proof.
  intros Hs. unfold emit_value_with_final_lf. rewrite emit_render by done. by apply emit_two.
Qed.
End EmitRender.

Lemma encode_render v : encode_value_with_final_lf v = Ok (render v ++ [LF]).
Proof. unfold encode_value_with_final_lf. by rewrite emit_value_render. Qed.

(* ------------------------------------------------------------------ *)
(** ** Null paths *)

Lemma segment_matches_spec actual allowed :
  segment_matches actual allowed = true <-> segment_admits allowed actual.
Proof.
  destruct actual as [k|i], allowed as [k'|i'|]; cbn;
    rewrite ?bool_decide_eq_true, ?Nat.eqb_eq.
  all: split; [intros H; first [discriminate H|subst; constructor]|by inversion 1].
Qed.

Lemma null_path_matches_spec actual allowed :
  null_path_matches actual allowed = true <-> Forall2 segment_admits allowed actual.
Proof.
  unfold null_path_matches. revert allowed.
  induction actual as [|a actual IH]; intros [|b allowed]; cbn.
  - split; [constructor|done].
  - split; [done|by inversion 1].
  - split; [done|by inversion 1].
  - rewrite !andb_true_iff, segment_matches_spec, Forall2_cons, <- IH, andb_true_iff. tauto.
Qed.

Lemma check_indexed {A} (chk : nat -> A -> json_result unit) l : forall i,
  (exists j, try_fold (fun i a => let? _ := chk i a in Ok (S i)) i l = Ok j) <->
  forall j a, l !! j = Some a -> chk (i + j) a = Ok tt.
Proof.
  induction l as [|a l IH]; intros i; cbn.
  - split; [done|by eexists].
  - split.
    + intros [j H]. destruct (chk i a) as [[]|] eqn:E; [cbn in H|discriminate H].
      assert (Hl := proj1 (IH (S i)) (ex_intro _ _ H)).
      intros [|k] b Hb; cbn in Hb; [injection Hb as <-; by rewrite Nat.add_0_r|].
      rewrite Nat.add_succ_r. by apply Hl.
    + intros H. pose proof (H 0 a eq_refl) as H0. rewrite Nat.add_0_r in H0. rewrite H0. cbn.
      apply IH. intros j b Hb. replace (S i + j) with (i + S j) by lia. by apply H.
Qed.

Lemma check_each {A} (chk : A -> json_result unit) l :
  try_fold (fun _ a => chk a) tt l = Ok tt <-> forall a, a ∈ l -> chk a = Ok tt.
Proof.
  induction l as [|a l IH]; cbn; [split; [by intros _ ? ?%elem_of_nil|done]|]. split.
  - intros H. destruct (chk a) as [[]|] eqn:E; [cbn in H|discriminate H].
    intros b [->|Hb]%elem_of_cons; [done|]. by apply IH.
  - intros H. rewrite (H a) by by left. cbn. apply IH. intros b Hb. apply H. by right.
Qed.

Lemma null_paths_at_spec allowed v : forall path,
  require_allowed_null_paths_at v allowed path = Ok tt <->
  forall p, null_at v p -> existsb (null_path_matches (path ++ p)) allowed = true.
Proof.
  induction v as [|b|n|s|vs IH|fs IH] using value_nested_ind; intros path; cbn;
    try (split; [by inversion 2|done]).
  - split.
    + intros H p Hp. inversion_clear Hp. rewrite app_nil_r.
      by destruct (existsb _ _).
    + intros H. specialize (H [] null_here). rewrite app_nil_r in H. by rewrite H.
  - rewrite Forall_forall in IH.
    pose proof (check_indexed (fun i v =>
      require_allowed_null_paths_at v allowed (path ++ [ActualIndex i])) vs 0) as C.
    cbn in C.
    transitivity (forall i v, vs !! i = Some v ->
      require_allowed_null_paths_at v allowed (path ++ [ActualIndex i]) = Ok tt).
    { rewrite <- C. destruct (try_fold _ _ _) as [j|e]; cbn; split; try done.
      - intros _. by exists j. - by intros [? [=]]. }
    split.
    + intros H p Hp. inversion Hp as [|? i v q Hl Hq|]; subst.
      pose proof (list_elem_of_lookup_2 _ _ _ Hl) as Hin.
      pose proof (proj1 (IH v Hin _) (H i v Hl) q Hq) as H'.
      by rewrite <- app_assoc in H'.
    + intros H i v Hl. apply IH; [by eapply list_elem_of_lookup_2|].
      intros p Hp. rewrite <- app_assoc. apply H. by econstructor.
  - rewrite Forall_forall in IH.
    pose proof (check_each (fun '(key, child) =>
      require_allowed_null_paths_at child allowed (path ++ [ActualKey key])) fs) as C.
    transitivity (forall k v, (k, v) ∈ fs ->
      require_allowed_null_paths_at v allowed (path ++ [ActualKey k]) = Ok tt).
    { etransitivity; [exact C|]. split; [intros H k v Hin; apply (H _ Hin)|].
      intros H [k v] Hin. by apply H. }
    split.
    + intros H p Hp. inversion Hp as [| |? k v q Hl Hq]; subst.
      pose proof (proj1 (IH _ Hl _) (H k v Hl) q Hq) as H'. by rewrite <- app_assoc in H'.
    + intros H k v Hl. apply (IH _ Hl). intros p Hp. rewrite <- app_assoc. apply H.
      by econstructor.
Qed.

Lemma null_paths_spec v policy :
  require_allowed_null_paths v policy = Ok tt <-> nulls_allowed policy v.
Proof.
  unfold require_allowed_null_paths, nulls_allowed. rewrite null_paths_at_spec. cbn.
  split; intros H p Hp; specialize (H p Hp).
  - apply existsb_exists in H as (a & Hin & Hm). exists a.
    split; [by apply list_elem_of_In|by apply null_path_matches_spec].
  - destruct H as (a & Hin & Hm). apply existsb_exists. exists a.
    split; [by apply list_elem_of_In|by apply null_path_matches_spec].
Qed.

(** A refusal is always [NullForbidden]. *)
Lemma null_paths_error v allowed : forall path e,
  require_allowed_null_paths_at v allowed path = Err e -> e = MkError NullForbidden.
Proof.
  assert (forall A (S : Type) (f : S -> A -> json_result S) l,
    (forall s a e, a ∈ l -> f s a = Err e -> e = MkError NullForbidden) ->
    forall s e, try_fold f s l = Err e -> e = MkError NullForbidden) as Fold.
  { intros A T f l. induction l as [|a l IHl]; intros Hf s e; cbn; [done|].
    destruct (f s a) eqn:E; cbn.
    - apply IHl. intros ? ? ? ?. apply Hf. by right.
    - intros [= <-]. eapply Hf; [by left|done]. }
  induction v as [|b|n|s|vs IH|fs IH] using value_nested_ind; intros path e; cbn; try done.
  - by destruct (existsb _ _); intros [= <-].
  - rewrite Forall_forall in IH. destruct (try_fold _ _ _) eqn:E; cbn; [done|]. intros [= <-].
    revert E. apply Fold. intros i v e' Hv.
    destruct (require_allowed_null_paths_at _ _ _) eqn:E'; cbn; [done|]. intros [= <-].
    by eapply IH.
  - rewrite Forall_forall in IH. apply Fold. intros [] [k v] e' Hv Hr. by eapply (IH _ Hv).
Qed.
