(* ===== verification/JsonParser.v ===== *)
(** * Canonical JSON: the raw parser
      (src/mtg-kernel/src/canonical_json_v1.rs, [ParserV1])

    The parser's state is its unread input: [position += k] drops [k] bytes,
    and [bytes[a..position]] is a prefix of the input at [a]. The recursive
    functions take fuel and report [OutOfFuel] apart from the parser's own
    errors; the theorems of JsonParserFacts show that the fuel of
    [parse_document] suffices for every input. *)

From S2P Require Import Prelude Bytes Json JsonRender.

Inductive ParseFailure :=
  | Failed (e : CanonicalJsonErrorV1)
  | OutOfFuel.
#[export] Instance ParseFailure_eq_dec : EqDecision ParseFailure.
Proof. solve_decision. Defined.

Abbreviation parsed := (result ParseFailure).
Definition reject {A} (k : CanonicalJsonErrorKindV1) : parsed A := Err (Failed (MkError k)).

(** A call of a function that returns the store's own [Result]. *)
Definition lift {A} (r : json_result A) : parsed A :=
  match r with Ok a => Ok a | Err e => Err (Failed e) end.

(** ** Lexical helpers *)

Definition peek (s : bytes) : option Z := head s.
Definition next (s : bytes) : option (Z * bytes) :=
  match s with [] => None | b :: s => Some (b, s) end.

Definition peek_is (p : Z -> bool) (s : bytes) : bool :=
  match peek s with Some b => p b | None => false end.

Definition consume (expected : Z) (s : bytes) : bool * bytes :=
  if peek_is (Z.eqb expected) s then (true, drop 1 s) else (false, s).

Definition require_byte (expected : Z) (s : bytes) : parsed bytes :=
  let '(ok, s) := consume expected s in if ok then Ok s else reject InvalidSyntax.

Definition require_literal (literal s : bytes) : parsed bytes :=
  if decide (take (length literal) s = literal) then Ok (drop (length literal) s)
  else reject InvalidSyntax.

Fixpoint skip_while (p : Z -> bool) (s : bytes) : bytes :=
  match s with [] => [] | b :: s' => if p b then skip_while p s' else s end.

Definition whitespace (b : Z) : bool :=
  ((b =? 32) || (b =? 9) || (b =? 10) || (b =? 13))%Z.
Definition skip_whitespace (s : bytes) : bytes := skip_while whitespace s.

Definition is_digit (b : Z) : bool := ((48 <=? b) && (b <=? 57))%Z.
Definition is_nonzero_digit (b : Z) : bool := ((49 <=? b) && (b <=? 57))%Z.

Definition require_digits (s : bytes) : parsed bytes :=
  if peek_is is_digit s then Ok (skip_while is_digit s) else reject InvalidSyntax.

(** ** Numbers *)

Definition parse_u64_decimal (digits : bytes) : json_result Z :=
  try_fold (fun value d =>
    match checked_mul_u64 value 10 with
    | Some value =>
        match checked_add_u64 value (d - 48) with
        | Some value => Ok value
        | None => fail_with IntegerOutOfRange
        end
    | None => fail_with IntegerOutOfRange
    end) 0%Z digits.

Definition number_of (negative : bool) (magnitude : Z) : json_result CanonicalJsonNumberV1 :=
  if negative then
    if (magnitude =? i64_max + 1)%Z then Ok (Signed i64_min)
    else if (magnitude <=? i64_max)%Z then Ok (Signed (- magnitude))
    else fail_with IntegerOutOfRange
  else Ok (Unsigned magnitude).

(** The integer digits: a lone zero, or a run without a leading zero. *)
Definition scan_integer (s : bytes) : parsed bytes :=
  if peek_is (Z.eqb 48) s then
    let s := drop 1 s in
    if peek_is is_digit s then reject InvalidSyntax else Ok s
  else if peek_is is_nonzero_digit s then Ok (skip_while is_digit (drop 1 s))
  else reject InvalidSyntax.

(** The fraction and the exponent, and whether there was one. *)
Definition scan_fraction (s : bytes) : parsed (bool * bytes) :=
  let '(ok, s) := consume 46 s in
  if ok then let? s := require_digits s in Ok (true, s) else Ok (false, s).

Definition scan_exponent (floating_point : bool) (s : bytes) : parsed (bool * bytes) :=
  if peek_is (fun b => (b =? 101) || (b =? 69))%Z s then
    let s := drop 1 s in
    let s := if peek_is (fun b => (b =? 43) || (b =? 45))%Z s then drop 1 s else s in
    let? s := require_digits s in Ok (true, s)
  else Ok (floating_point, s).

Definition parse_number (start : bytes) : parsed (CanonicalJsonValueV1 * bytes) :=
  let '(negative, digits_start) := consume 45 start in
  let? s := scan_integer digits_start in
  let? (floating_point, s) := scan_fraction s in
  let? (floating_point, s) := scan_exponent floating_point s in
  if floating_point then reject FloatingPointForbidden
  else
    let? magnitude :=
      lift (parse_u64_decimal (take (length digits_start - length s) digits_start)) in
    let? number := lift (number_of negative magnitude) in
    Ok (Number number, s).

(** ** Strings *)

Definition push_printable_ascii (output : bytes) (byte : Z) : json_result bytes :=
  if negb (printable byte) then fail_with NonPrintableAscii
  else if (byte_len output =? CANONICAL_JSON_MAX_STRING_BYTES_V1)%Z then fail_with StringTooLong
  else Ok (output ++ [byte]).

Definition hex_digit (b : Z) : option Z :=
  if ((48 <=? b) && (b <=? 57))%Z then Some (b - 48)%Z
  else if ((97 <=? b) && (b <=? 102))%Z then Some (b - 97 + 10)%Z
  else if ((65 <=? b) && (b <=? 70))%Z then Some (b - 65 + 10)%Z
  else None.

(** [count] is the number of digits left of [0..4]. *)
Fixpoint parse_hex_digits (count : nat) (value : Z) (s : bytes) : parsed (Z * bytes) :=
  match count with
  | O => Ok (value, s)
  | S count =>
      match next s with
      | None => reject InvalidSyntax
      | Some (byte, s) =>
          match hex_digit byte with
          | None => reject InvalidSyntax
          | Some d => parse_hex_digits count (Z.lor (Z.shiftl value 4) d) s
          end
      end
  end.
Definition parse_hex_quad (s : bytes) : parsed (Z * bytes) := parse_hex_digits 4 0 s.

Definition parse_unicode_escape (s : bytes) : parsed (Z * bytes) :=
  let? (first, s) := parse_hex_quad s in
  if ((55296 <=? first) && (first <=? 56319))%Z then
    let? s := require_byte BACKSLASH s in
    let? s := require_byte 117 s in
    let? (second, s) := parse_hex_quad s in
    if negb ((56320 <=? second) && (second <=? 57343))%Z then reject InvalidSyntax
    else Ok ((65536 + Z.shiftl (first - 55296) 10 + (second - 56320))%Z, s)
  else if ((56320 <=? first) && (first <=? 57343))%Z then reject InvalidSyntax
  else Ok (first, s).

(** The byte an escape stands for, after the backslash. *)
Definition parse_escape (s : bytes) : parsed (Z * bytes) :=
  match next s with
  | None => reject InvalidSyntax
  | Some (escaped, s) =>
      if (escaped =? QUOTE)%Z then Ok (QUOTE, s)
      else if (escaped =? 47)%Z then Ok (47%Z, s)
      else if (escaped =? BACKSLASH)%Z then Ok (BACKSLASH, s)
      else if (escaped =? 98)%Z then Ok (8%Z, s)
      else if (escaped =? 102)%Z then Ok (12%Z, s)
      else if (escaped =? 110)%Z then Ok (10%Z, s)
      else if (escaped =? 114)%Z then Ok (13%Z, s)
      else if (escaped =? 116)%Z then Ok (9%Z, s)
      else if (escaped =? 117)%Z then
        let? (scalar, s) := parse_unicode_escape s in
        if negb (printable scalar) then reject NonPrintableAscii else Ok (scalar, s)
      else reject InvalidSyntax
  end.

Fixpoint parse_string_body (fuel : nat) (decoded s : bytes) : parsed (bytes * bytes) :=
  match fuel with
  | O => Err OutOfFuel
  | S fuel =>
      match next s with
      | None => reject InvalidSyntax
      | Some (byte, s) =>
          if (byte =? QUOTE)%Z then Ok (decoded, s)
          else if (byte =? BACKSLASH)%Z then
            let? (decoded_byte, s) := parse_escape s in
            let? decoded := lift (push_printable_ascii decoded decoded_byte) in
            parse_string_body fuel decoded s
          else if printable byte then
            let? decoded := lift (push_printable_ascii decoded byte) in
            parse_string_body fuel decoded s
          else if ((0 <=? byte) && (byte <=? 31))%Z then reject InvalidSyntax
          else reject NonPrintableAscii
      end
  end.

Definition parse_string (s : bytes) : parsed (bytes * bytes) :=
  let? s := require_byte QUOTE s in
  parse_string_body (S (length s)) [] s.

(** ** Values *)

Section Parser.
Context (null_policy : CanonicalJsonNullPolicyV1).

Definition forbids_null : bool := match null_policy with Forbid => true | AllowOnly _ => false end.

Definition parse_null (s : bytes) : parsed (CanonicalJsonValueV1 * bytes) :=
  let? s := require_literal lit_null s in
  if forbids_null then reject NullForbidden else Ok (Null, s).

(** The scalar arms of [parse_value]. *)
Definition parse_scalar (s : bytes) : parsed (CanonicalJsonValueV1 * bytes) :=
  if peek_is (Z.eqb 110) s then parse_null s
  else if peek_is (Z.eqb 102) s then
    let? s := require_literal lit_false s in Ok (Bool false, s)
  else if peek_is (Z.eqb 116) s then
    let? s := require_literal lit_true s in Ok (Bool true, s)
  else if peek_is (Z.eqb QUOTE) s then
    let? (value, s) := parse_string s in Ok (String value, s)
  else if peek_is (fun b => (b =? 45)%Z || is_digit b) s then parse_number s
  else reject InvalidSyntax.

(** One loop iteration of [parse_object], up to its value: the key and
    the input after the colon. *)
Definition parse_key (values : list (bytes * CanonicalJsonValueV1)) (s : bytes)
  : parsed (bytes * bytes) :=
  if negb (peek_is (Z.eqb QUOTE) s) then reject InvalidSyntax
  else
    let? (key, s) := parse_string s in
    if contains_key key values then reject DuplicateObjectKey
    else if (length values =? CANONICAL_JSON_MAX_OBJECT_KEYS_V1)%nat then reject ObjectTooLarge
    else
      let? s := require_byte COLON (skip_whitespace s) in
      Ok (key, skip_whitespace s).

Fixpoint parse_value (fuel containing_depth : nat) (s : bytes) {struct fuel}
  : parsed (CanonicalJsonValueV1 * bytes) :=
  match fuel with
  | O => Err OutOfFuel
  | S fuel =>
      if peek_is (Z.eqb LBRACKET) s then
        let? depth := lift (checked_container_depth containing_depth) in
        let s := skip_whitespace (drop 1 s) in
        let '(closed, s) := consume RBRACKET s in
        if closed then Ok (Array [], s) else parse_elements fuel depth [] s
      else if peek_is (Z.eqb LBRACE) s then
        let? depth := lift (checked_container_depth containing_depth) in
        let s := skip_whitespace (drop 1 s) in
        let '(closed, s) := consume RBRACE s in
        if closed then Ok (Object [], s) else parse_members fuel depth [] s
      else parse_scalar s
  end
(** The loop of [parse_array]. *)
with parse_elements (fuel depth : nat) (values : list CanonicalJsonValueV1) (s : bytes)
    {struct fuel} : parsed (CanonicalJsonValueV1 * bytes) :=
  match fuel with
  | O => Err OutOfFuel
  | S fuel =>
      let? (value, s) := parse_value fuel depth s in
      let values := values ++ [value] in
      let s := skip_whitespace s in
      let '(closed, s) := consume RBRACKET s in
      if closed then Ok (Array values, s)
      else
        let? s := require_byte COMMA s in
        parse_elements fuel depth values (skip_whitespace s)
  end
(** The loop of [parse_object]. *)
with parse_members (fuel depth : nat) (values : list (bytes * CanonicalJsonValueV1))
    (s : bytes) {struct fuel} : parsed (CanonicalJsonValueV1 * bytes) :=
  match fuel with
  | O => Err OutOfFuel
  | S fuel =>
      let? (key, s) := parse_key values s in
      let? (value, s) := parse_value fuel depth s in
      let values := map_insert key value values in
      let s := skip_whitespace s in
      let '(closed, s) := consume RBRACE s in
      if closed then Ok (Object values, s)
      else
        let? s := require_byte COMMA s in
        parse_members fuel depth values (skip_whitespace s)
  end.

(** Two units per input byte: one for the container that consumes it, one
    for the loop iteration. *)
Definition document_fuel (s : bytes) : nat := 2 * length s + 1.

Definition parse_document (s : bytes) : parsed CanonicalJsonValueV1 :=
  let? (value, s') := parse_value (document_fuel s) 0 (skip_whitespace s) in
  match skip_whitespace s' with
  | [] => Ok value
  | _ :: _ => reject TrailingBytes
  end.
End Parser.
