(* ===== verification/JsonParserFacts.v ===== *)
(** * The parser accepts exactly the renderings

    Soundness: what the parser accepts is a rendering of the value it returns.
    Completeness: it accepts every rendering of a canonical value within the limits,
    and returns that value. *)

From S2P Require Import Prelude Bytes Json JsonRender JsonParser.

(** The final input may also be the whole of [s]. *)
Definition good_le {A} (P : A -> Prop) (s : bytes) (r : parsed (A * bytes)) : Prop :=
  match r with
  | Ok (a, s') => P a /\ length s' <= length s
  | Err (Failed _) => True
  | Err OutOfFuel => False
  end.
Definition good {A} (P : A -> Prop) (s : bytes) (r : parsed (A * bytes)) : Prop :=
  match r with
  | Ok (a, s') => P a /\ length s' < length s
  | Err (Failed _) => True
  | Err OutOfFuel => False
  end.
Definition progress (s : bytes) (r : parsed bytes) : Prop :=
  match r with
  | Ok s' => length s' < length s
  | Err (Failed _) => True
  | Err OutOfFuel => False
  end.

Lemma good_bind {A B} (P : A -> Prop) (Q : B -> Prop) s0 s (r : parsed (A * bytes))
    (k : A * bytes -> parsed (B * bytes)) :
  good P s0 r ->
  (forall a s', P a -> length s' < length s0 -> good Q s (k (a, s'))) ->
  good Q s (result_bind r k).
Proof.
  destruct r as [[a s']|[e|]]; cbn; [|done|done]. intros [HP Hl] Hk. by apply Hk.
Qed.

Lemma good_le_bind {A B} (P : A -> Prop) (Q : B -> Prop) s0 s (r : parsed (A * bytes))
    (k : A * bytes -> parsed (B * bytes)) :
  good_le P s0 r ->
  (forall a s', P a -> length s' <= length s0 -> good Q s (k (a, s'))) ->
  good Q s (result_bind r k).
Proof.
  destruct r as [[a s']|[e|]]; cbn; [|done|done]. intros [HP Hl] Hk. by apply Hk.
Qed.

Lemma progress_bind {B} (Q : B -> Prop) s0 s (r : parsed bytes)
    (k : bytes -> parsed (B * bytes)) :
  progress s0 r -> (forall s', length s' < length s0 -> good Q s (k s')) ->
  good Q s (result_bind r k).
Proof. destruct r as [s'|[e|]]; cbn; [|done|done]. intros Hl Hk. by apply Hk. Qed.

Lemma lift_bind {A B} (Q : B -> Prop) s (r : json_result A) (k : A -> parsed (B * bytes)) :
  (forall a, r = Ok a -> good Q s (k a)) -> good Q s (result_bind (lift r) k).
Proof. destruct r as [a|e]; cbn; auto. Qed.

(** ** Lexical helpers *)

Lemma skip_while_length p s : length (skip_while p s) <= length s.
Proof. induction s as [|b s IH]; cbn; [done|]. destruct (p b); cbn; lia. Qed.

Lemma skip_whitespace_length s : length (skip_whitespace s) <= length s.
Proof. apply skip_while_length. Qed.

Lemma peek_is_cons p s : peek_is p s = true -> exists b s', s = b :: s' /\ p b = true.
Proof. destruct s as [|b s]; [done|]. by exists b, s. Qed.

Lemma consume_spec b s ok s' :
  consume b s = (ok, s') -> if ok then s = b :: s' else s' = s.
Proof.
  unfold consume. destruct (peek_is _ s) eqn:P; intros [= <- <-]; [|done].
  apply peek_is_cons in P as (c & t & -> & E%Z.eqb_eq). by subst.
Qed.

Lemma require_byte_progress b s : progress s (require_byte b s).
Proof.
  unfold require_byte. destruct (consume b s) as [[] s'] eqn:C; [|done].
  apply consume_spec in C as ->. cbn. lia.
Qed.

Lemma require_literal_progress l s : l <> [] -> progress s (require_literal l s).
Proof.
  intros Hl. unfold require_literal. case_decide as D; [|done]. cbn.
  apply (f_equal length) in D. rewrite length_take in D. rewrite length_drop.
  assert (0 < length l) by (destruct l; [done|cbn; lia]). lia.
Qed.

Lemma require_digits_progress s : progress s (require_digits s).
Proof.
  unfold require_digits. destruct (peek_is _ s) eqn:P; [|done].
  apply peek_is_cons in P as (b & s' & -> & Hb). cbn. unfold is_digit in *.
  rewrite Hb. pose proof (skip_while_length is_digit s'). unfold is_digit in *. lia.
Qed.

Lemma drop_one_length p s : peek_is p s = true -> length (drop 1 s) < length s.
Proof. intros (b & s' & -> & _)%peek_is_cons. cbn. rewrite drop_0. lia. Qed.

(** ** Numbers *)

Lemma parse_u64_decimal_range ds v :
  parse_u64_decimal ds = Ok v -> (0 <= v <= u64_max)%Z.
Proof.
  unfold parse_u64_decimal. intros H.
  eapply (try_fold_invariant _ (fun v _ => 0 <= v <= u64_max)%Z) in H; [done| |].
  - clear. intros v d l v1 Hv.
    destruct (checked_mul_u64 v 10) as [w|]; [|done].
    destruct (checked_add_u64 w (d - 48)) as [x|] eqn:E; [|done]. intros [= <-].
    by apply checked_unsigned_some in E as [-> ?].
  - cbn. unfold u64_max. lia.
Qed.

Lemma number_of_ok neg m n :
  (0 <= m <= u64_max)%Z -> number_of neg m = Ok n -> number_ok n = true.
Proof.
  unfold number_of, i64_min, i64_max, u64_max. intros Hm.
  destruct neg; [destruct (_ =? _)%Z eqn:E; [|destruct (_ <=? _)%Z eqn:E2]|];
    intros [= <-]; cbn [number_ok]; bool_to_prop; apply andb_true_iff; rewrite !Z.leb_le;
    unfold i64_min, i64_max, u64_max; lia.
Qed.

Lemma scan_integer_progress s : progress s (scan_integer s).
Proof.
  unfold scan_integer. destruct (peek_is (Z.eqb 48) s) eqn:P0.
  - destruct (peek_is is_digit _); [done|]. cbn. by eapply drop_one_length.
  - destruct (peek_is is_nonzero_digit s) eqn:P1; [|done]. cbn.
    apply drop_one_length in P1. pose proof (skip_while_length is_digit (drop 1 s)). lia.
Qed.

Lemma scan_fraction_good s : good_le (fun _ => True) s (scan_fraction s).
Proof.
  unfold scan_fraction. destruct (consume 46 s) as [[] s'] eqn:C; cbn.
  - apply consume_spec in C as ->. pose proof (require_digits_progress s') as R.
    destruct (require_digits s') as [s2|[]]; cbn in *; [split; [done|lia]|done|done].
  - apply consume_spec in C as ->. by split.
Qed.

Lemma scan_exponent_good b s : good_le (fun _ => True) s (scan_exponent b s).
Proof.
  unfold scan_exponent. destruct (peek_is _ s) eqn:P; [|by split].
  apply drop_one_length in P. cbn.
  match goal with |- context [require_digits ?x] =>
    assert (length x <= length (drop 1 s)) as Hx
      by (case_match; rewrite ?length_drop; lia);
    pose proof (require_digits_progress x) as R; destruct (require_digits x) as [s2|[]]
  end; cbn in *; [split; [done|lia]|done|done].
Qed.

Definition scalar_ok (v : CanonicalJsonValueV1) : Prop := wf_value v = true /\ depth v = 0.

Lemma parse_number_good s : good scalar_ok s (parse_number s).
Proof.
  unfold parse_number. destruct (consume 45 s) as [neg s1] eqn:C.
  assert (length s1 <= length s) as H1.
  { apply consume_spec in C. destruct neg; subst; cbn; lia. }
  eapply progress_bind; [apply scan_integer_progress|]. intros s2 H2.
  eapply good_le_bind; [apply scan_fraction_good|]. intros fp s3 _ H3.
  eapply good_le_bind; [apply scan_exponent_good|]. intros fp' s4 _ H4.
  destruct fp'; [done|].
  apply lift_bind. intros m Hm. apply lift_bind. intros n Hn. cbn.
  split; [|lia]. split; [|done].
  eapply number_of_ok, Hn. by eapply parse_u64_decimal_range.
Qed.

(** ** Strings *)

Lemma parse_hex_digits_good n : forall v s,
  good_le (fun _ => True) s (parse_hex_digits n v s) /\
  (0 < n -> good (fun _ => True) s (parse_hex_digits n v s)).
Proof.
  induction n as [|n IH]; intros v s; cbn; [split; [done|lia]|].
  destruct s as [|b s]; cbn; [done|]. destruct (hex_digit b) as [d|]; [|done].
  destruct (IH (Z.lor (Z.shiftl v 4) d) s) as [H _].
  destruct (parse_hex_digits _ _ _) as [[x s']|[]]; cbn in *; [|done|done].
  split; [|intros _]; split; try done; lia.
Qed.

Lemma parse_hex_quad_good s : good (fun _ => True) s (parse_hex_quad s).
Proof. apply (parse_hex_digits_good 4). lia. Qed.

Lemma parse_unicode_escape_good s : good (fun _ => True) s (parse_unicode_escape s).
Proof.
  unfold parse_unicode_escape. eapply good_bind; [apply parse_hex_quad_good|].
  intros first s1 _ H1. destruct (_ && _)%bool.
  - eapply progress_bind; [apply require_byte_progress|]. intros s2 H2.
    eapply progress_bind; [apply require_byte_progress|]. intros s3 H3.
    eapply good_bind; [apply parse_hex_quad_good|]. intros second s4 _ H4.
    destruct (negb _); [done|]. cbn. split; [done|lia].
  - destruct (_ && _)%bool; [done|]. cbn. by split.
Qed.

Lemma parse_escape_good s : good (fun _ => True) s (parse_escape s).
Proof.
  unfold parse_escape. destruct s as [|b s]; cbn; [done|].
  repeat (destruct (b =? _)%Z; [try (cbn; split; [done|lia])|]); [|done].
  eapply good_bind; [apply parse_unicode_escape_good|]. intros scalar s1 _ H1.
  destruct (negb _); [done|]. cbn. split; [done|lia].
Qed.

Lemma str_ok_snoc s b s' :
  str_ok s = true -> push_printable_ascii s b = Ok s' -> str_ok s' = true.
Proof.
  unfold str_ok, push_printable_ascii, byte_len. intros Hs.
  destruct (printable b) eqn:P; cbn; [|done]. destruct (_ =? _)%Z eqn:L; [done|].
  intros [= <-]. bool_to_prop. rewrite forallb_app, length_app. cbn.
  rewrite !andb_true_iff, Z.leb_le. split_and!; try done. lia.
Qed.

Lemma parse_string_body_good fuel : forall decoded s,
  length s < fuel -> str_ok decoded = true ->
  good (fun d => str_ok d = true) s (parse_string_body fuel decoded s).
Proof.
  induction fuel as [|fuel IH]; intros decoded s Hf Hd; [lia|]. cbn.
  destruct s as [|b s]; cbn; [done|]. cbn in Hf.
  assert (forall d s', length s' <= length s -> str_ok d = true ->
    good (fun d => str_ok d = true) (b :: s) (parse_string_body fuel d s')) as Next.
  { intros d s' Hl Hd'. specialize (IH d s' ltac:(lia) Hd').
    destruct (parse_string_body _ _ _) as [[x t]|[]]; cbn in *; [|done|done].
    split; [tauto|lia]. }
  destruct (b =? QUOTE)%Z; [cbn; split; [done|lia]|].
  destruct (b =? BACKSLASH)%Z.
  - eapply good_bind; [apply parse_escape_good|]. intros c s1 _ H1.
    apply lift_bind. intros d E. apply Next; [lia|]. by eapply str_ok_snoc.
  - destruct (printable b); [|by destruct (_ && _)%bool].
    apply lift_bind. intros d E. apply Next; [lia|]. by eapply str_ok_snoc.
Qed.

Lemma parse_string_good s : good (fun d => str_ok d = true) s (parse_string s).
Proof.
  unfold parse_string. eapply progress_bind; [apply require_byte_progress|].
  intros s' Hl. pose proof (parse_string_body_good (S (length s')) [] s') as H.
  specialize (H ltac:(lia) eq_refl).
  destruct (parse_string_body _ _ _) as [[x t]|[]]; cbn in *; [|done|done].
  split; [tauto|lia].
Qed.

(* ------------------------------------------------------------------ *)
(** ** Values *)

Lemma good_weaken {A} (P Q : A -> Prop) s0 s (r : parsed (A * bytes)) :
  good P s0 r -> (forall a, P a -> Q a) -> length s0 <= length s -> good Q s r.
Proof.
  destruct r as [[a t]|[]]; cbn; [|done|done]. intros [HP Hl] HQ Hs. split; [auto|lia].
Qed.

Lemma checked_container_depth_ok d d' :
  d <= CANONICAL_JSON_MAX_DEPTH_V1 -> checked_container_depth d = Ok d' ->
  d' = S d /\ d' <= CANONICAL_JSON_MAX_DEPTH_V1.
Proof.
  unfold checked_container_depth, CANONICAL_JSON_MAX_DEPTH_V1.
  destruct (Nat.eqb_spec d 32); [done|]. intros ? [= <-]. lia.
Qed.

Lemma max_depth_le ds n : max_depth ds <= n <-> Forall (fun d => d <= n) ds.
Proof.
  unfold max_depth. induction ds as [|d ds IH]; cbn.
  - split; [constructor|lia].
  - rewrite Forall_cons, <- IH. lia.
Qed.

(** A value that may stand inside [d] containers. *)
Definition fits (d : nat) (v : CanonicalJsonValueV1) : Prop :=
  wf_value v = true /\ d + depth v <= CANONICAL_JSON_MAX_DEPTH_V1.

Lemma scalar_fits d v :
  d <= CANONICAL_JSON_MAX_DEPTH_V1 -> scalar_ok v -> fits d v.
Proof. intros Hd [Hw Hz]. split; [done|]. rewrite Hz. lia. Qed.

Lemma array_fits d vs :
  S d <= CANONICAL_JSON_MAX_DEPTH_V1 -> Forall (fits (S d)) vs -> fits d (Array vs).
Proof.
  intros Hd Hvs. split; cbn [wf_value depth].
  - apply forallb_Forall. eapply Forall_impl; [exact Hvs|]. by intros v [? _].
  - assert (max_depth (map depth vs) <= CANONICAL_JSON_MAX_DEPTH_V1 - S d); [|lia].
    apply max_depth_le, Forall_fmap. eapply Forall_impl; [exact Hvs|].
    intros v [_ ?]. unfold compose. lia.
Qed.

Definition entry_fits (d : nat) (e : bytes * CanonicalJsonValueV1) : Prop :=
  str_ok (fst e) = true /\ fits d (snd e).

Definition fields_fit (d : nat) (fs : list (bytes * CanonicalJsonValueV1)) : Prop :=
  Forall (entry_fits d) fs /\ keys_sorted fs = true /\
  length fs <= CANONICAL_JSON_MAX_OBJECT_KEYS_V1.

Lemma object_fits d fs :
  S d <= CANONICAL_JSON_MAX_DEPTH_V1 -> fields_fit (S d) fs -> fits d (Object fs).
Proof.
  intros Hd (Hfs & Hs & Hl). split; cbn [wf_value depth].
  - rewrite !andb_true_iff, Nat.leb_le, forallb_Forall. split_and!; [|done|done].
    eapply Forall_impl; [exact Hfs|]. intros [k v] [? [? _]]; cbn in *.
    by apply andb_true_iff.
  - assert (max_depth (map (fun e => depth (snd e)) fs) <=
            CANONICAL_JSON_MAX_DEPTH_V1 - S d); [|lia].
    apply max_depth_le, Forall_fmap. eapply Forall_impl; [exact Hfs|].
    intros [k v] [_ [_ ?]]; cbn [snd compose] in *. unfold compose. cbn [snd]. lia.
Qed.

Lemma fields_fit_insert d fs k v :
  fields_fit d fs -> str_ok k = true -> fits d v ->
  contains_key k fs = false -> length fs <> CANONICAL_JSON_MAX_OBJECT_KEYS_V1 ->
  fields_fit d (map_insert k v fs).
Proof.
  intros (Hf & Hs & Hl) Hk Hv Hc Hn. split_and!.
  - apply Forall_forall. intros [k' v'] [[-> ->]|Hin]%map_insert_in; [by split|].
    rewrite Forall_forall in Hf. by apply Hf.
  - by apply map_insert_sorted.
  - rewrite map_insert_length; [lia|].
    intros H%contains_key_spec. congruence.
Qed.

Section Sound.
Context (policy : CanonicalJsonNullPolicyV1).

Lemma parse_scalar_good s : good scalar_ok s (parse_scalar policy s).
Proof.
  unfold parse_scalar, parse_null.
  repeat match goal with |- context [if peek_is ?p s then _ else _] =>
    destruct (peek_is p s) end; try done; try apply parse_number_good.
  - eapply progress_bind; [by apply require_literal_progress|]. intros s' Hl.
    destruct (forbids_null _); [done|]. cbn. by split.
  - eapply progress_bind; [by apply require_literal_progress|]. intros s' Hl. cbn. by split.
  - eapply progress_bind; [by apply require_literal_progress|]. intros s' Hl. cbn. by split.
  - eapply good_bind; [apply parse_string_good|]. intros k s' Hk Hl. cbn. by split.
Qed.

Lemma parse_key_good values s :
  good (fun k => str_ok k = true /\ contains_key k values = false /\
                 length values <> CANONICAL_JSON_MAX_OBJECT_KEYS_V1)
    s (parse_key values s).
Proof.
  unfold parse_key. destruct (negb _); [done|].
  eapply good_bind; [apply parse_string_good|]. intros k s1 Hk H1.
  destruct (contains_key k values) eqn:C; [done|].
  destruct (Nat.eqb_spec (length values) CANONICAL_JSON_MAX_OBJECT_KEYS_V1); [done|].
  eapply progress_bind; [apply require_byte_progress|]. intros s2 H2.
  pose proof (skip_whitespace_length s1). pose proof (skip_whitespace_length s2).
  cbn [good]. split; [done|lia].
Qed.

(** One end-of-entry step of a container loop. *)
Lemma next_entry_good {A} (P : A -> Prop) closing s (done_ : A)
    (more : bytes -> parsed (A * bytes)) :
  P done_ ->
  (forall s', length s' < length s -> good P s' (more s')) ->
  good_le P s
    (let s := skip_whitespace s in
     let '(closed, s) := consume closing s in
     if closed then Ok (done_, s)
     else let? s := require_byte COMMA s in more (skip_whitespace s)).
Proof.
  intros HP Hmore. cbv zeta. pose proof (skip_whitespace_length s) as Hw.
  destruct (consume closing (skip_whitespace s)) as [closed t] eqn:C.
  apply consume_spec in C. destruct closed.
  - rewrite C in Hw. cbn in *. split; [done|lia].
  - subst t. pose proof (require_byte_progress COMMA (skip_whitespace s)) as R.
    destruct (require_byte _ _) as [t|[]]; cbn in *; [|done|done].
    pose proof (skip_whitespace_length t) as Ht.
    specialize (Hmore (skip_whitespace t) ltac:(lia)).
    destruct (more _) as [[a u]|[]]; cbn in *; [|done|done]. split; [tauto|lia].
Qed.

Lemma good_le_strict {A} (P : A -> Prop) s s' (r : parsed (A * bytes)) :
  good_le P s' r -> length s' < length s -> good P s r.
Proof.
  destruct r as [[a t]|[]]; cbn; [|done|done]. intros [? ?] ?. split; [done|lia].
Qed.

Definition value_good fuel := forall d s,
  2 * length s + 1 <= fuel -> d <= CANONICAL_JSON_MAX_DEPTH_V1 ->
  good (fits d) s (parse_value policy fuel d s).
Definition elements_good fuel := forall d vs s,
  2 * length s + 2 <= fuel -> S d <= CANONICAL_JSON_MAX_DEPTH_V1 ->
  Forall (fits (S d)) vs ->
  good (fits d) s (parse_elements policy fuel (S d) vs s).
Definition members_good fuel := forall d fs s,
  2 * length s + 2 <= fuel -> S d <= CANONICAL_JSON_MAX_DEPTH_V1 ->
  fields_fit (S d) fs ->
  good (fits d) s (parse_members policy fuel (S d) fs s).

Lemma value_good_step fuel :
  elements_good fuel -> members_good fuel -> value_good (S fuel).
Proof.
  intros HE HM d s Hf Hd. cbn [parse_value].
  pose proof (skip_whitespace_length (drop 1 s)) as Hw.
  destruct (peek_is (Z.eqb LBRACKET) s) eqn:PA.
  { apply drop_one_length in PA. apply lift_bind. intros d' Hd'.
    apply checked_container_depth_ok in Hd' as [-> Hd']; [|done].
    destruct (consume RBRACKET _) as [[] t] eqn:C; apply consume_spec in C.
    - rewrite C in Hw. cbn in *. split; [by apply array_fits|lia].
    - subst t. eapply good_weaken; [apply HE; [lia|done|constructor]|done|lia]. }
  destruct (peek_is (Z.eqb LBRACE) s) eqn:PO.
  { apply drop_one_length in PO. apply lift_bind. intros d' Hd'.
    apply checked_container_depth_ok in Hd' as [-> Hd']; [|done].
    assert (fields_fit (S d) []) as Hnil
      by (split_and!; [constructor|done|cbn; lia]).
    destruct (consume RBRACE _) as [[] t] eqn:C; apply consume_spec in C.
    - rewrite C in Hw. cbn in *. split; [by apply object_fits|lia].
    - subst t. eapply good_weaken; [apply HM; [lia|done|done]|done|lia]. }
  eapply good_weaken; [apply parse_scalar_good| |done].
  intros v. by apply scalar_fits.
Qed.

Lemma elements_good_step fuel :
  value_good fuel -> elements_good fuel -> elements_good (S fuel).
Proof.
  intros HV HE d vs s Hf Hd Hvs. cbn [parse_elements].
  eapply good_bind; [apply HV; [lia|lia]|]. intros v s1 Hv H1.
  assert (Forall (fits (S d)) (vs ++ [v])) as Hvs'
    by (apply Forall_app; split; [done|apply Forall_cons_2; [done|constructor]]).
  eapply good_le_strict; [|exact H1]. apply next_entry_good; [by apply array_fits|].
  intros s' Hl. apply HE; [lia|done|done].
Qed.

Lemma members_good_step fuel :
  value_good fuel -> members_good fuel -> members_good (S fuel).
Proof.
  intros HV HM d fs s Hf Hd Hfs. cbn [parse_members].
  eapply good_bind; [apply parse_key_good|]. intros k s1 (Hk & Hc & Hn) H1.
  eapply good_bind; [apply HV; lia|]. intros v s2 Hv H2.
  assert (fields_fit (S d) (map_insert k v fs)) as Hfs' by by apply fields_fit_insert.
  apply (good_le_strict _ _ s2); [|lia].
  apply next_entry_good; [by apply object_fits|].
  intros s' Hl. apply HM; [lia|done|done].
Qed.

Lemma parser_good fuel : value_good fuel /\ elements_good fuel /\ members_good fuel.
Proof.
  induction fuel as [|fuel (HV & HE & HM)].
  - split_and!; intros ?; intros; lia.
  - split_and!; [by apply value_good_step|by apply elements_good_step|
                 by apply members_good_step].
Qed.

(** The document parser never runs out of fuel, and what it accepts is
    well formed and within the depth limit. *)
Lemma parse_document_sound s :
  match parse_document policy s with
  | Ok v => fits 0 v
  | Err (Failed _) => True
  | Err OutOfFuel => False
  end.
Proof.
  unfold parse_document, document_fuel. pose proof (skip_whitespace_length s) as Hw.
  destruct (parser_good (2 * length s + 1)) as [H _].
  specialize (H 0 (skip_whitespace s) ltac:(lia) ltac:(unfold CANONICAL_JSON_MAX_DEPTH_V1; lia)).
  destruct (parse_value _ _ _ _) as [[v t]|[]]; cbn in *; [|done|done].
  destruct H. by destruct (skip_whitespace t).
Qed.
End Sound.

(** What may follow a value inside a document. *)
Definition delimited (rest : bytes) : Prop :=
  match rest with [] => True | b :: _ => b = COMMA \/ b = RBRACKET \/ b = RBRACE end.

Lemma delimited_peek p rest :
  delimited rest -> p COMMA = false -> p RBRACKET = false -> p RBRACE = false ->
  peek_is p rest = false.
Proof. destruct rest as [|b rest]; [done|]. cbn. intros [->|[->| ->]]; done. Qed.

Lemma skip_whitespace_stop b s : whitespace b = false -> skip_whitespace (b :: s) = b :: s.
Proof. unfold skip_whitespace. cbn. by intros ->. Qed.

Lemma require_literal_app l rest : require_literal l (l ++ rest) = Ok rest.
Proof.
  unfold require_literal. rewrite take_app_length. rewrite decide_True by done.
  by rewrite drop_app_length.
Qed.

Lemma consume_hit b s : consume b (b :: s) = (true, s).
Proof. unfold consume. cbn. by rewrite Z.eqb_refl, drop_0. Qed.

Lemma consume_miss b s : peek_is (Z.eqb b) s = false -> consume b s = (false, s).
Proof. unfold consume. by intros ->. Qed.

Lemma require_byte_hit b s : require_byte b (b :: s) = Ok s.
Proof. unfold require_byte. by rewrite consume_hit. Qed.

(** ** Numbers *)

Lemma skip_digits_app ds rest :
  Forall (fun b => digit b = true) ds -> peek_is is_digit rest = false ->
  skip_while is_digit (ds ++ rest) = rest.
Proof.
  intros Hds Hr. induction Hds as [|d ds Hd _ IH]; cbn.
  - destruct rest as [|b rest]; [done|]. cbn in *. by rewrite Hr.
  - unfold digit in Hd. unfold is_digit at 1. by rewrite Hd.
Qed.

Lemma scan_integer_digits d ds rest :
  Forall (fun b => digit b = true) (d :: ds) -> (d = 48 -> ds = [])%Z ->
  peek_is is_digit rest = false ->
  scan_integer (d :: ds ++ rest) = Ok rest.
Proof.
  intros [Hd Hds]%Forall_cons Hz Hr. unfold scan_integer. cbn [peek_is peek head drop].
  rewrite !drop_0. destruct (48 =? d)%Z eqn:E; bool_to_prop.
  - rewrite Hz by done. cbn. by rewrite Hr.
  - unfold is_nonzero_digit. unfold digit in Hd. bool_to_prop.
    rewrite (proj2 (Z.leb_le 49 d)), (proj2 (Z.leb_le d 57)) by lia. cbn.
    by rewrite skip_digits_app.
Qed.

Lemma parse_u64_decimal_value ds : forall v,
  Forall (fun b => digit b = true) ds -> (0 <= v)%Z ->
  (foldl (fun v d => v * 10 + (d - 48)) v ds <= u64_max)%Z ->
  try_fold (fun value d =>
    match checked_mul_u64 value 10 with
    | Some value =>
        match checked_add_u64 value (d - 48) with
        | Some value => Ok value
        | None => @fail_with Z IntegerOutOfRange
        end
    | None => fail_with IntegerOutOfRange
    end) v ds = Ok (foldl (fun v d => v * 10 + (d - 48)) v ds)%Z.
Proof.
  assert (forall ds v, Forall (fun b => digit b = true) ds -> (0 <= v)%Z ->
    (v <= foldl (fun v d => v * 10 + (d - 48)) v ds)%Z) as Grow.
  { clear. induction ds as [|d ds IH]; intros v Hd Hv; cbn; [lia|].
    apply Forall_cons in Hd as [Hd Hds]. unfold digit in Hd. bool_to_prop.
    specialize (IH (v * 10 + (d - 48))%Z Hds ltac:(lia)). lia. }
  induction ds as [|d ds IH]; intros v Hd Hv Hmax; cbn; [done|].
  apply Forall_cons in Hd as [Hd Hds]. cbn in Hmax.
  unfold digit in Hd. bool_to_prop.
  pose proof (Grow ds (v * 10 + (d - 48))%Z Hds ltac:(lia)).
  assert (checked_mul_u64 v 10 = Some (v * 10)%Z) as ->
    by (apply checked_unsigned_some; lia).
  assert (checked_add_u64 (v * 10) (d - 48) = Some (v * 10 + (d - 48))%Z) as ->
    by (apply checked_unsigned_some; lia).
  cbn. apply IH; [done|lia|done].
Qed.

Lemma take_prefix (a b : bytes) : take (length (a ++ b) - length b) (a ++ b) = a.
Proof.
  rewrite length_app. replace (_ + _ - _) with (length a) by lia. apply take_app_length.
Qed.

(** The numeral of a magnitude, after the sign. *)
Lemma parse_number_numeral (neg : bool) m n rest :
  (0 <= m <= u64_max)%Z -> number_of neg m = Ok n -> delimited rest ->
  parse_number ((if neg then [45%Z] else []) ++ u64_to_string m ++ rest) =
  Ok (Number n, rest).
Proof.
  intros Hm Hn Hr. unfold parse_number.
  destruct (u64_to_string_spec m Hm) as (d & ds & Es & Hds & Hv & Hz).
  assert (consume 45 ((if neg then [45%Z] else []) ++ u64_to_string m ++ rest) =
    (neg, u64_to_string m ++ rest)) as ->.
  { destruct neg; cbn [app]; [apply consume_hit|]. apply consume_miss. rewrite Es.
    apply Forall_cons in Hds as [Hd _]. unfold digit in Hd. bool_to_prop.
    apply (proj2 (Z.eqb_neq 45 d)). lia. }
  assert (forall p, p COMMA = false -> p RBRACKET = false -> p RBRACE = false ->
    peek_is p rest = false) as Hp by (intros; by apply delimited_peek).
  rewrite Es. change ((d :: ds) ++ rest) with (d :: ds ++ rest).
  rewrite scan_integer_digits by (done || by apply Hp). cbn [result_bind].
  unfold scan_fraction. rewrite consume_miss by by apply Hp. cbn [result_bind].
  unfold scan_exponent. rewrite Hp by done. cbn [result_bind].
  change (d :: ds ++ rest) with ((d :: ds) ++ rest). rewrite take_prefix.
  unfold parse_u64_decimal. rewrite parse_u64_decimal_value; [|done|lia|].
  - fold (digits_value (d :: ds)). rewrite Hv. cbn [lift result_bind]. by rewrite Hn.
  - fold (digits_value (d :: ds)). lia.
Qed.

Lemma parse_number_render n rest :
  number_ok n = true -> delimited rest ->
  parse_number (render (Number n) ++ rest) = Ok (Number (norm_number n), rest).
Proof.
  destruct n as [n|n]; cbn [number_ok]; intros Hn Hr; bool_to_prop;
    unfold i64_min, i64_max in *.
  - cbn [render norm_number]. unfold i64_to_string. destruct (n <? 0)%Z eqn:N; bool_to_prop.
    + apply (parse_number_numeral true); [unfold u64_max; lia| |done].
      unfold number_of, i64_max. destruct (- n =? _)%Z eqn:E; bool_to_prop.
      * do 2 f_equal. unfold i64_min. lia.
      * rewrite (proj2 (Z.leb_le _ _)) by lia. do 2 f_equal. lia.
    + apply (parse_number_numeral false); [unfold u64_max; lia|done|done].
  - apply (parse_number_numeral false); done.
Qed.

(** ** Strings *)

Lemma push_printable_ok acc b s :
  str_ok (acc ++ b :: s) = true -> push_printable_ascii acc b = Ok (acc ++ [b]).
Proof.
  unfold str_ok, push_printable_ascii, byte_len. rewrite forallb_app, length_app. cbn.
  intros H. bool_to_prop.
  match goal with H : printable b = true |- _ => rewrite H end. cbn.
  destruct (_ =? _)%Z eqn:E; [bool_to_prop; lia|done].
Qed.

Lemma parse_string_body_render fuel : forall s acc rest,
  length (concat (map escape s)) < fuel -> str_ok (acc ++ s) = true ->
  parse_string_body fuel acc (concat (map escape s) ++ QUOTE :: rest) = Ok (acc ++ s, rest).
Proof.
  induction fuel as [|fuel IH]; intros s acc rest Hf Hs; [lia|].
  destruct s as [|b s]; [by rewrite app_nil_r|].
  cbn [map concat] in *. rewrite length_app in Hf.
  replace (acc ++ b :: s) with ((acc ++ [b]) ++ s) in * by by rewrite <- app_assoc.
  assert (push_printable_ascii acc b = Ok (acc ++ [b])) as Hpush.
  { apply push_printable_ok with s. by rewrite <- app_assoc in Hs. }
  assert (printable b = true) as Hb.
  { unfold push_printable_ascii in Hpush. by destruct (printable b). }
  unfold escape in *. destruct ((b =? QUOTE) || (b =? BACKSLASH))%Z eqn:Q.
  - cbn [app parse_string_body next]. cbn [length] in Hf.
    rewrite (proj2 (Z.eqb_neq BACKSLASH QUOTE)) by done. rewrite Z.eqb_refl.
    assert (forall t, parse_escape (b :: t) = Ok (b, t)) as ->.
    { intros t. apply orb_prop in Q as [->%Z.eqb_eq| ->%Z.eqb_eq]; done. }
    cbn [result_bind]. rewrite Hpush. cbn [lift result_bind].
    apply IH; [lia|done].
  - bool_to_prop. cbn [app parse_string_body next]. cbn [length] in Hf.
    rewrite (proj2 (Z.eqb_neq _ _)), (proj2 (Z.eqb_neq _ _)) by done.
    rewrite Hb, Hpush. cbn [lift result_bind]. apply IH; [lia|done].
Qed.

Lemma parse_string_render s rest :
  str_ok s = true -> parse_string (render_string s ++ rest) = Ok (s, rest).
Proof.
  intros Hs. unfold parse_string, render_string. cbn [app]. rewrite require_byte_hit.
  cbn [result_bind]. rewrite <- app_assoc. cbn [app].
  apply (parse_string_body_render _ s []); [|done]. rewrite !length_app. lia.
Qed.

(* ------------------------------------------------------------------ *)
(** ** Values *)

Lemma render_number_head n rest :
  number_ok n = true ->
  exists b t, render (Number n) ++ rest = b :: t /\ (b = 45 \/ 48 <= b <= 57)%Z.
Proof.
  assert (forall m t, (0 <= m <= u64_max)%Z ->
    exists b t', u64_to_string m ++ t = b :: t' /\ (b = 45 \/ 48 <= b <= 57)%Z) as U.
  { intros m t Hm. destruct (u64_to_string_spec m Hm) as (d & ds & -> & Hd & _).
    apply Forall_cons in Hd as [Hd _]. unfold digit in Hd. bool_to_prop.
    exists d, (ds ++ t). split; [done|]. right. lia. }
  destruct n as [n|n]; cbn [number_ok render]; intros Hn; bool_to_prop.
  - unfold i64_to_string, i64_max, u64_max in *. destruct (n <? 0)%Z eqn:N; bool_to_prop.
    + by eexists _, _; split; [|left].
    + apply U. lia.
  - by apply U.
Qed.

Lemma render_head v rest :
  wf_value v = true ->
  exists b t, render v ++ rest = b :: t /\ whitespace b = false /\ b <> RBRACKET.
Proof.
  destruct v as [|[]|n|s|vs|fs]; intros Hw; try by (cbn; eexists _, _).
  destruct (render_number_head n rest Hw) as (b & t & -> & Hb). exists b, t.
  split; [done|]. split; [|lia]. unfold whitespace.
  repeat (rewrite (proj2 (Z.eqb_neq b _)) by lia). done.
Qed.

Lemma skip_whitespace_render v rest :
  wf_value v = true -> skip_whitespace (render v ++ rest) = render v ++ rest.
Proof.
  intros Hw. destruct (render_head v rest Hw) as (b & t & -> & Hb & _).
  by apply skip_whitespace_stop.
Qed.

Lemma render_length v : wf_value v = true -> 0 < length (render v).
Proof.
  intros Hw. destruct (render_head v [] Hw) as (b & t & E & _).
  rewrite app_nil_r in E. rewrite E. cbn. lia.
Qed.

Lemma tail_join_cons r rs : tail_join (r :: rs) = COMMA :: join (r :: rs).
Proof. done. Qed.

Section Complete.
Context (policy : CanonicalJsonNullPolicyV1).

(** A policy that forbids null everywhere reads only null-free values. *)
Definition readable (v : CanonicalJsonValueV1) : Prop :=
  wf_value v = true /\ (forbids_null policy = true -> forall p, ~ null_at v p).

Definition reads (v : CanonicalJsonValueV1) : Prop := forall fuel d rest,
  2 * length (render v) + 1 <= fuel -> d + depth v <= CANONICAL_JSON_MAX_DEPTH_V1 ->
  delimited rest ->
  parse_value policy fuel d (render v ++ rest) = Ok (norm v, rest).

Lemma readable_array vs :
  readable (Array vs) <-> Forall readable vs.
Proof.
  unfold readable. cbn [wf_value]. rewrite forallb_Forall, !Forall_forall. split.
  - intros [Hw Hn] v Hv. split; [by apply Hw|]. intros F p Hp.
    apply list_elem_of_lookup in Hv as [i Hi]. apply (Hn F (ActualIndex i :: p)).
    by econstructor.
  - intros H. split; [intros v Hv; apply (H v Hv)|]. intros F p Hp.
    inversion Hp as [|? i v q Hl Hq|]; subst.
    apply list_elem_of_lookup_2 in Hl. destruct (H v Hl) as [_ N]. by apply (N F q).
Qed.

Lemma readable_object fs :
  readable (Object fs) <->
  Forall (fun e => str_ok (fst e) = true /\ readable (snd e)) fs /\
  keys_sorted fs = true /\ length fs <= CANONICAL_JSON_MAX_OBJECT_KEYS_V1.
Proof.
  unfold readable. cbn [wf_value].
  rewrite !andb_true_iff, forallb_Forall, Nat.leb_le, !Forall_forall. split.
  - intros [[[Hw Hs] Hl] Hn]. split_and!; [|done|done]. intros [k v] Hin.
    specialize (Hw _ Hin). apply andb_prop in Hw as [? ?]. cbn in *.
    split_and!; [done|done|]. intros F p Hp. apply (Hn F (ActualKey k :: p)).
    by econstructor.
  - intros (H & Hs & Hl). split; [split; [split; [|done]|done]|].
    + intros [k v] Hin. destruct (H _ Hin) as (? & ? & _). by apply andb_true_iff.
    + intros F p Hp. inversion Hp as [| |? k v q Hl' Hq]; subst.
      destruct (H _ Hl') as (_ & _ & N). by apply (N F q).
Qed.

(** The end of an entry in either loop: the closing bracket, or a comma
    and the next entry. *)
Lemma scalar_value fuel d s :
  peek_is (Z.eqb LBRACKET) s = false -> peek_is (Z.eqb LBRACE) s = false ->
  parse_value policy (S fuel) d s = parse_scalar policy s.
Proof. intros HA HO. cbn [parse_value]. by rewrite HA, HO. Qed.

Lemma reads_scalar v :
  depth v = 0 ->
  (forall rest, delimited rest ->
     parse_scalar policy (render v ++ rest) = Ok (norm v, rest) /\
     peek_is (Z.eqb LBRACKET) (render v ++ rest) = false /\
     peek_is (Z.eqb LBRACE) (render v ++ rest) = false) -> reads v.
Proof.
  intros Hd H fuel d rest Hf _ Hr. destruct (H rest Hr) as (Hp & HA & HO).
  destruct fuel as [|fuel]; [lia|]. by rewrite scalar_value.
Qed.

Lemma reads_number n : number_ok n = true -> reads (Number n).
Proof.
  intros Hn. apply reads_scalar; [done|]. intros rest Hr.
  pose proof (parse_number_render n rest Hn Hr) as Hp.
  destruct (render_number_head n rest Hn) as (b & t & E & Hb).
  rewrite E in *. unfold parse_scalar, peek_is, peek. cbn [head].
  repeat (rewrite (proj2 (Z.eqb_neq _ b)) by lia).
  split_and!; [|done|done].
  assert (((b =? 45)%Z || is_digit b) = true) as ->; [|exact Hp].
  apply orb_true_iff. unfold is_digit. rewrite andb_true_iff, Z.eqb_eq, !Z.leb_le. lia.
Qed.

Lemma max_depth_bound {A} (f : A -> nat) l n d :
  d + S (max_depth (map f l)) <= n -> Forall (fun a => S d + f a <= n) l.
Proof.
  intros H. assert (max_depth (map f l) <= n - S d) as M by lia.
  apply max_depth_le, Forall_fmap in M. eapply Forall_impl; [exact M|].
  unfold compose. intros a Ha. cbn in Ha. lia.
Qed.

(** The loop of [parse_array] from any accumulated prefix. *)
Lemma reads_elements v vs : forall acc fuel d rest,
  Forall reads (v :: vs) -> Forall readable (v :: vs) ->
  Forall (fun v => d + depth v <= CANONICAL_JSON_MAX_DEPTH_V1) (v :: vs) ->
  2 * length (join (map render (v :: vs))) + 2 <= fuel ->
  parse_elements policy fuel d acc (join (map render (v :: vs)) ++ RBRACKET :: rest) =
  Ok (Array (acc ++ map norm (v :: vs)), rest).
Proof.
  revert v. induction vs as [|w vs IH]; intros v acc fuel d rest HR HW HD Hf;
    (destruct fuel as [|fuel]; [lia|]); cbn [parse_elements];
    apply Forall_cons in HR as [Hv HR]; apply Forall_cons in HD as [Hd HD];
    apply Forall_cons in HW as [Hw HW].
  - cbn in Hf. cbn [map join]. unfold tail_join. cbn [map concat]. rewrite app_nil_r.
    rewrite app_nil_r in Hf. rewrite Hv; [|lia|done|cbn; auto]. cbn [result_bind].
    rewrite skip_whitespace_stop, consume_hit by done. done.
  - cbn [map join] in *. rewrite tail_join_cons in *. rewrite length_app in Hf.
    cbn [length] in Hf. rewrite <- app_assoc. cbn [app].
    rewrite Hv; [|lia|done|cbn; auto]. cbn [result_bind].
    rewrite skip_whitespace_stop, consume_miss, require_byte_hit by done.
    cbn [result_bind]. cbn [map join] in IH.
    assert (forall t, skip_whitespace ((render w ++ tail_join (map render vs)) ++ t) =
      (render w ++ tail_join (map render vs)) ++ t) as Hskip.
    { intros t. rewrite <- app_assoc. apply skip_whitespace_render.
      apply Forall_cons in HW as [[? _] _]. done. }
    cbn [join] in *. rewrite Hskip, IH by (done || lia).
    by rewrite <- app_assoc.
Qed.

Lemma parse_key_render k v acc rest :
  str_ok k = true -> readable v -> keys_sorted (acc ++ [(k, v)]) = true ->
  length acc < CANONICAL_JSON_MAX_OBJECT_KEYS_V1 ->
  parse_key acc (render_field (k, v) ++ rest) = Ok (k, render v ++ rest).
Proof.
  intros Hk [Hv _] Hs Hl. unfold parse_key, render_field. cbn [fst snd].
  rewrite <- app_assoc. cbn [app].
  change (negb (peek_is (Z.eqb QUOTE) (render_string k ++ COLON :: render v ++ rest)))
    with false. cbv match. rewrite parse_string_render by done. cbn [result_bind].
  assert (contains_key k acc = false) as ->.
  { apply not_true_is_false. rewrite contains_key_spec.
    apply keys_sorted_nodup in Hs. rewrite map_app in Hs.
    apply NoDup_app in Hs as (_ & Hd & _). intros Hin. apply (Hd _ Hin). by left. }
  rewrite (proj2 (Nat.eqb_neq _ _)) by lia.
  rewrite skip_whitespace_stop, require_byte_hit by done. cbn [result_bind].
  by rewrite skip_whitespace_render.
Qed.

Lemma map_insert_last {A} k (v w : A) acc :
  keys_sorted (acc ++ [(k, v)]) = true -> map_insert k w acc = acc ++ [(k, w)].
Proof.
  intros (_ & _ & H)%keys_sorted_app. apply map_insert_above.
  eapply Forall_impl; [exact H|]. cbn. by intros e' [? _]%Forall_cons.
Qed.

(** Sortedness speaks of keys alone. *)
Lemma keys_sorted_focus {A} acc k (v w : A) fs :
  keys_sorted (acc ++ (k, v) :: fs) = true ->
  keys_sorted ((acc ++ [(k, w)]) ++ fs) = true /\ keys_sorted (acc ++ [(k, v)]) = true.
Proof.
  rewrite <- app_assoc. cbn [app].
  rewrite !keys_sorted_app. cbn. rewrite andb_true_iff. intros (? & [? ?] & Hf').
  split_and!; try done; try (rewrite andb_true_iff; done);
    (eapply Forall_impl; [exact Hf'|]); intros e' [? ?]%Forall_cons;
    apply Forall_cons; split; done || constructor.
Qed.

(** The loop of [parse_object] from any accumulated smaller keys. *)
Lemma reads_members e fs : forall acc fuel d rest,
  Forall (fun e => reads (snd e)) (e :: fs) ->
  Forall (fun e => str_ok (fst e) = true /\ readable (snd e)) (e :: fs) ->
  Forall (fun e => d + depth (snd e) <= CANONICAL_JSON_MAX_DEPTH_V1) (e :: fs) ->
  keys_sorted (acc ++ e :: fs) = true ->
  length acc + length (e :: fs) <= CANONICAL_JSON_MAX_OBJECT_KEYS_V1 ->
  2 * length (join (map render_field (e :: fs))) + 2 <= fuel ->
  parse_members policy fuel d acc (join (map render_field (e :: fs)) ++ RBRACE :: rest) =
  Ok (Object (acc ++ map (fun e => (fst e, norm (snd e))) (e :: fs)), rest).
Proof.
  revert e. induction fs as [|e' fs IH]; intros [k v] acc fuel d rest HR HW HD Hs Hl Hf;
    (destruct fuel as [|fuel]; [lia|]); cbn [parse_members];
    apply Forall_cons in HR as [Hv HR]; apply Forall_cons in HD as [Hd HD];
    apply Forall_cons in HW as [[Hk Hw] HW]; cbn [fst snd] in *;
    destruct (keys_sorted_focus acc k v (norm v) _ Hs) as [Hs' Hs1].
  - cbn [map join] in *. unfold tail_join in *. cbn [map concat length] in *.
    rewrite app_nil_r in *. rewrite parse_key_render by (done || lia). cbn [result_bind].
    unfold render_field in Hf. cbn in Hf. rewrite length_app in Hf. cbn in Hf.
    rewrite Hv; [|lia|done|cbn; auto]. cbn [result_bind].
    rewrite skip_whitespace_stop, consume_hit by done. by rewrite (map_insert_last k v).
  - cbn [map join length] in *. rewrite tail_join_cons in *. rewrite length_app in Hf.
    cbn [length] in Hf. rewrite <- app_assoc. cbn [app].
    rewrite parse_key_render by (done || lia). cbn [result_bind].
    unfold render_field in Hf at 1. cbn [fst snd] in Hf. rewrite length_app in Hf.
    cbn [length] in Hf.
    rewrite Hv; [|lia|done|cbn; auto]. cbn [result_bind].
    rewrite skip_whitespace_stop, consume_miss, require_byte_hit by done.
    cbn [result_bind]. rewrite (map_insert_last k v) by done.
    cbn [map join] in IH. cbn [join] in *.
    change (skip_whitespace ((render_field e' ++ tail_join (map render_field fs)) ++ RBRACE :: rest))
      with ((render_field e' ++ tail_join (map render_field fs)) ++ RBRACE :: rest).
    rewrite IH; [|done|done|done|done|rewrite length_app; cbn; lia|lia].
    by rewrite <- app_assoc.
Qed.

Lemma reads_array vs :
  Forall (fun v => readable v -> reads v) vs -> readable (Array vs) -> reads (Array vs).
Proof.
  intros IH HW.
  intros [|fuel] d rest Hf Hd Hr; [lia|]. cbn [parse_value render].
  cbn [app]. change (peek_is (Z.eqb LBRACKET) (LBRACKET :: _)) with true. cbv match.
  cbn [depth] in Hd. unfold checked_container_depth.
  rewrite (proj2 (Nat.eqb_neq _ _)) by lia. cbn [lift result_bind drop].
  rewrite drop_0, <- app_assoc. cbn [app].
  destruct vs as [|v vs].
  { cbn [map join app]. rewrite skip_whitespace_stop, consume_hit by done. done. }
  apply readable_array in HW.
  assert (Forall reads (v :: vs)) as HR.
  { apply Forall_forall. intros w Hw. rewrite Forall_forall in IH, HW. by apply IH, HW. }
  destruct (render_head v (tail_join (map render vs) ++ RBRACKET :: rest))
    as (b & t & E & Hb & Hne); [by apply Forall_cons in HW as [[? _] _]|].
  assert (join (map render (v :: vs)) ++ RBRACKET :: rest = b :: t) as E'
    by (cbn [map join]; by rewrite <- app_assoc).
  rewrite E', skip_whitespace_stop by done.
  rewrite consume_miss by (apply (proj2 (Z.eqb_neq RBRACKET b)); congruence). rewrite <- E'.
  apply (reads_elements v vs []); [done|done|by apply max_depth_bound|].
  cbn [render] in Hf. cbn [length] in Hf. rewrite length_app in Hf. cbn [length] in Hf. lia.
Qed.

Lemma reads_object fs :
  Forall (fun e => readable (snd e) -> reads (snd e)) fs ->
  readable (Object fs) -> reads (Object fs).
Proof.
  intros IH HW.
  intros [|fuel] d rest Hf Hd Hr; [lia|]. cbn [parse_value render].
  cbn [app]. change (peek_is (Z.eqb LBRACKET) (LBRACE :: _)) with false.
  change (peek_is (Z.eqb LBRACE) (LBRACE :: _)) with true. cbv match.
  cbn [depth] in Hd. unfold checked_container_depth.
  rewrite (proj2 (Nat.eqb_neq _ _)) by lia. cbn [lift result_bind drop].
  rewrite drop_0, <- app_assoc. cbn [app].
  destruct fs as [|e fs].
  { cbn [map join app]. rewrite skip_whitespace_stop, consume_hit by done. done. }
  apply readable_object in HW as (HW & Hs & Hl).
  assert (Forall (fun e => reads (snd e)) (e :: fs)) as HR.
  { apply Forall_forall. intros w Hw. rewrite Forall_forall in IH, HW. by apply IH, HW. }
  fold render_field.
  change (skip_whitespace (join (map render_field (e :: fs)) ++ RBRACE :: rest))
    with (join (map render_field (e :: fs)) ++ RBRACE :: rest).
  rewrite consume_miss by done.
  apply (reads_members e fs []); [done|done|by apply max_depth_bound|done|done|].
  cbn [render] in Hf. cbn [length] in Hf. rewrite length_app in Hf. cbn [length] in Hf.
  fold render_field in Hf. lia.
Qed.

Lemma reads_all v : readable v -> reads v.
Proof.
  induction v as [|[]|n|s|vs IH|fs IH] using value_nested_ind; intros HW.
  - apply reads_scalar; [done|]. intros rest _. split_and!; [|done|done].
    unfold parse_scalar. cbn [render app]. change (peek_is (Z.eqb 110) _) with true.
    cbv match. unfold parse_null. rewrite require_literal_app. cbn [result_bind].
    destruct HW as [_ HN]. destruct (forbids_null policy); [|done].
    by destruct (HN eq_refl [] null_here).
  - apply reads_scalar; [done|]. intros rest _. split_and!; [|done|done].
    change (parse_scalar policy _) with
      (let? s := require_literal lit_true (lit_true ++ rest) in Ok (Bool true, s)).
    by rewrite require_literal_app.
  - apply reads_scalar; [done|]. intros rest _. split_and!; [|done|done].
    change (parse_scalar policy _) with
      (let? s := require_literal lit_false (lit_false ++ rest) in Ok (Bool false, s)).
    by rewrite require_literal_app.
  - apply reads_number, HW.
  - apply reads_scalar; [done|]. intros rest _. split_and!; [|done|done].
    unfold parse_scalar. cbn [render norm].
    assert (forall p, peek_is p (render_string s ++ rest) = p QUOTE) as P by done.
    rewrite !P. cbn [Z.eqb Pos.eqb]. rewrite parse_string_render by apply HW. done.
  - by apply reads_array.
  - by apply reads_object.
Qed.

Lemma parse_document_render v :
  readable v -> depth v <= CANONICAL_JSON_MAX_DEPTH_V1 ->
  parse_document policy (render v) = Ok (norm v).
Proof.
  intros HW Hd. unfold parse_document, document_fuel.
  pose proof (skip_whitespace_render v [] (proj1 HW)) as Hs. rewrite app_nil_r in Hs.
  rewrite Hs. rewrite <- (app_nil_r (render v)) at 2.
  rewrite (reads_all v HW); [done|done|done|done].
Qed.
End Complete.
