(* ===== verification/JsonSerializer.v ===== *)
(** * Canonical JSON: the serde serializer
      (src/mtg-kernel/src/canonical_json_v1.rs, [ValueSerializerV1] and the
      compound builders)

    A [Serialize] implementation is client code: [Ser] is the tree of the
    serializer methods it calls. A compound builder hands the client the
    result of each call, so the rest of a script is a function of that
    result: the client may swallow an error and go on, and may end or drop the
    builder at any point ([SeqDrop] and the like return the client's own
    error). [SerFail] is a client that fails without calling the serializer
    ([serde::ser::Error::custom]), [SerRemap] one that replaces the error of
    an inner call. *)

From S2P Require Import Prelude Bytes Json JsonRender JsonParser JsonParserFacts.

Inductive Ser :=
  | SerBool (value : bool)
  | SerI8 (value : Z) | SerI16 (value : Z) | SerI32 (value : Z) | SerI64 (value : Z)
  | SerI128 (value : Z)
  | SerU8 (value : Z) | SerU16 (value : Z) | SerU32 (value : Z) | SerU64 (value : Z)
  | SerU128 (value : Z)
  | SerF32 | SerF64
  | SerChar (value : Z)
  | SerStr (value : bytes)
  | SerBytes (value : bytes)
  | SerNone
  | SerSome (value : Ser)
  | SerUnit
  | SerUnitStruct
  | SerUnitVariant (variant : bytes)
  | SerNewtypeStruct (value : Ser)
  | SerNewtypeVariant (variant : bytes) (value : Ser)
  | SerSeq (calls : SeqScript)
  | SerTuple (calls : SeqScript)
  | SerTupleStruct (calls : SeqScript)
  | SerTupleVariant (variant : bytes) (calls : SeqScript)
  | SerMap (calls : MapScript)
  | SerStruct (calls : StructScript)
  | SerStructVariant (variant : bytes) (calls : StructScript)
  | SerFail
  | SerRemap (value : Ser)
with SeqScript :=
  | SeqPush (value : Ser) (next : json_result unit -> SeqScript)
  | SeqEnd
  | SeqDrop (e : CanonicalJsonErrorV1)
with MapScript :=
  | MapKey (key : Ser) (next : json_result unit -> MapScript)
  | MapValue (value : Ser) (next : json_result unit -> MapScript)
  | MapEntry (key value : Ser) (next : json_result unit -> MapScript)
  | MapEnd
  | MapDrop (e : CanonicalJsonErrorV1)
with StructScript :=
  | StructField (key : bytes) (value : Ser) (next : json_result unit -> StructScript)
  | StructEnd
  | StructDrop (e : CanonicalJsonErrorV1).

Scheme Ser_mut := Induction for Ser Sort Prop
  with SeqScript_mut := Induction for SeqScript Sort Prop
  with MapScript_mut := Induction for MapScript Sort Prop
  with StructScript_mut := Induction for StructScript Sort Prop.
Combined Scheme Ser_mutind from Ser_mut, SeqScript_mut, MapScript_mut, StructScript_mut.

(** ** Scalars *)

Record ValueSerializerV1 := MkValueSerializer {
  null_policy : CanonicalJsonNullPolicyV1;
  containing_depth : nat;
}.
Definition nested (self : ValueSerializerV1) (d : nat) : ValueSerializerV1 :=
  MkValueSerializer (null_policy self) d.

Definition serialize_i64 (value : Z) : json_result CanonicalJsonValueV1 :=
  Ok (Number (Signed value)).
Definition serialize_u64 (value : Z) : json_result CanonicalJsonValueV1 :=
  Ok (Number (Unsigned value)).

Definition try_i64 (value : Z) : json_result Z :=
  if ((i64_min <=? value) && (value <=? i64_max))%Z then Ok value
  else fail_with IntegerOutOfRange.
Definition try_u64 (value : Z) : json_result Z :=
  if ((0 <=? value) && (value <=? u64_max))%Z then Ok value
  else fail_with IntegerOutOfRange.

Definition serialize_i128 (value : Z) : json_result CanonicalJsonValueV1 :=
  let? value := try_i64 value in serialize_i64 value.
Definition serialize_u128 (value : Z) : json_result CanonicalJsonValueV1 :=
  let? value := try_u64 value in serialize_u64 value.

Definition string (value : bytes) : json_result CanonicalJsonValueV1 :=
  let? _ := validate_printable_ascii value in Ok (String value).

(** [char::encode_utf8] of a scalar value. *)
Definition encode_utf8 (c : Z) : bytes :=
  (if c <? 128 then [c]
   else if c <? 2048 then
     [Z.lor 192 (Z.shiftr c 6); Z.lor 128 (Z.land c 63)]
   else if c <? 65536 then
     [Z.lor 224 (Z.shiftr c 12); Z.lor 128 (Z.land (Z.shiftr c 6) 63);
      Z.lor 128 (Z.land c 63)]
   else
     [Z.lor 240 (Z.shiftr c 18); Z.lor 128 (Z.land (Z.shiftr c 12) 63);
      Z.lor 128 (Z.land (Z.shiftr c 6) 63); Z.lor 128 (Z.land c 63)])%Z.

Definition serialize_bytes (value : bytes) (self : ValueSerializerV1)
  : json_result CanonicalJsonValueV1 :=
  let? _ := checked_container_depth (containing_depth self) in
  Ok (Array (map (fun b => Number (Unsigned b)) value)).

(** ** Map keys ([MapKeySerializerV1]) *)

Definition checked (value : bytes) : json_result bytes :=
  let? _ := validate_printable_ascii value in Ok value.
Definition unsupported {A} : json_result A := fail_with Serialization.
Definition bool_to_string (b : bool) : bytes := if b then lit_true else lit_false.

Fixpoint serialize_key_v1 (x : Ser) : json_result bytes :=
  match x with
  | SerBool b => checked (bool_to_string b)
  | SerI8 n | SerI16 n | SerI32 n | SerI64 n => checked (i64_to_string n)
  | SerI128 n => let? n := try_i64 n in checked (i64_to_string n)
  | SerU8 n | SerU16 n | SerU32 n | SerU64 n => checked (u64_to_string n)
  | SerU128 n => let? n := try_u64 n in checked (u64_to_string n)
  | SerF32 | SerF64 => fail_with FloatingPointForbidden
  | SerChar c => checked (encode_utf8 c)
  | SerStr s => checked s
  | SerSome x | SerNewtypeStruct x => serialize_key_v1 x
  | SerUnitVariant variant => checked variant
  | SerBytes _ | SerNone | SerUnit | SerUnitStruct | SerNewtypeVariant _ _ | SerSeq _
  | SerTuple _ | SerTupleStruct _ | SerTupleVariant _ _ | SerMap _ | SerStruct _
  | SerStructVariant _ _ => unsupported
  | SerFail => fail_with Serialization
  | SerRemap x => match serialize_key_v1 x with Ok k => Ok k | Err _ => fail_with Serialization end
  end.

(** ** First-error state of the compound builders *)

Record CompoundSerializerStateV1 := MkCompound { first_error : option CanonicalJsonErrorV1 }.
Definition compound_default : CompoundSerializerStateV1 := MkCompound None.

Definition require_usable (st : CompoundSerializerStateV1) : json_result unit :=
  match first_error st with Some e => Err e | None => Ok tt end.

Definition record {A} (r : json_result A) (st : CompoundSerializerStateV1)
  : json_result A * CompoundSerializerStateV1 :=
  match first_error st with
  | Some e => (Err e, st)
  | None => match r with Ok a => (Ok a, st) | Err e => (Err e, MkCompound (Some e)) end
  end.

Definition fail {A} (k : CanonicalJsonErrorKindV1) (st : CompoundSerializerStateV1)
  : json_result A * CompoundSerializerStateV1 :=
  record (fail_with k) st.

(** ** Sequences *)

(** A value to serialize is its [serialize] function. *)
Abbreviation Serialize := (ValueSerializerV1 -> json_result CanonicalJsonValueV1).

Record SequenceSerializerV1 := MkSequence {
  seq_values : list CanonicalJsonValueV1;
  seq_null_policy : CanonicalJsonNullPolicyV1;
  seq_depth : nat;
  seq_state : CompoundSerializerStateV1;
}.

Definition push (value : Serialize) (self : SequenceSerializerV1)
  : json_result unit * SequenceSerializerV1 :=
  match require_usable (seq_state self) with
  | Err e => (Err e, self)
  | Ok _ =>
      let '(value, state) :=
        record (value (MkValueSerializer (seq_null_policy self) (seq_depth self)))
          (seq_state self) in
      match value with
      | Err e => (Err e, MkSequence (seq_values self) (seq_null_policy self) (seq_depth self) state)
      | Ok v =>
          (Ok tt,
           MkSequence (seq_values self ++ [v]) (seq_null_policy self) (seq_depth self) state)
      end
  end.

Definition seq_finish (self : SequenceSerializerV1) : json_result CanonicalJsonValueV1 :=
  let? _ := require_usable (seq_state self) in Ok (Array (seq_values self)).

Record TupleVariantSerializerV1 := MkTupleVariant {
  tv_variant : bytes;
  tv_values : list CanonicalJsonValueV1;
  tv_null_policy : CanonicalJsonNullPolicyV1;
  array_depth : nat;
  tv_state : CompoundSerializerStateV1;
}.

Definition tuple_variant_field (value : Serialize) (self : TupleVariantSerializerV1)
  : json_result unit * TupleVariantSerializerV1 :=
  match require_usable (tv_state self) with
  | Err e => (Err e, self)
  | Ok _ =>
      let '(value, state) :=
        record (value (MkValueSerializer (tv_null_policy self) (array_depth self)))
          (tv_state self) in
      match value with
      | Err e =>
          (Err e, MkTupleVariant (tv_variant self) (tv_values self) (tv_null_policy self)
                    (array_depth self) state)
      | Ok v =>
          (Ok tt, MkTupleVariant (tv_variant self) (tv_values self ++ [v])
                    (tv_null_policy self) (array_depth self) state)
      end
  end.

Definition tuple_variant_end (self : TupleVariantSerializerV1)
  : json_result CanonicalJsonValueV1 :=
  let? _ := require_usable (tv_state self) in
  Ok (singleton_object (tv_variant self) (Array (tv_values self))).

(** ** Objects *)

Record ObjectSerializerV1 := MkObject {
  obj_values : list (bytes * CanonicalJsonValueV1);
  pending_key : option bytes;
  obj_null_policy : CanonicalJsonNullPolicyV1;
  obj_depth : nat;
  obj_state : CompoundSerializerStateV1;
}.

Definition object_new (policy : CanonicalJsonNullPolicyV1) (d : nat) : ObjectSerializerV1 :=
  MkObject [] None policy d compound_default.

Definition with_state (self : ObjectSerializerV1) (state : CompoundSerializerStateV1)
  : ObjectSerializerV1 :=
  MkObject (obj_values self) (pending_key self) (obj_null_policy self) (obj_depth self) state.
Definition with_pending (self : ObjectSerializerV1) (key : option bytes)
  : ObjectSerializerV1 :=
  MkObject (obj_values self) key (obj_null_policy self) (obj_depth self) (obj_state self).
Definition with_entry (self : ObjectSerializerV1) (key : bytes) (v : CanonicalJsonValueV1)
  : ObjectSerializerV1 :=
  MkObject (map_insert key v (obj_values self)) (pending_key self) (obj_null_policy self)
    (obj_depth self) (obj_state self).

(** [self.state.record(r)?]: records the result in the builder's state and
    hands a success to [k]. *)
Definition recording {A} (r : json_result A) (self : ObjectSerializerV1)
    (k : A -> ObjectSerializerV1 -> json_result unit * ObjectSerializerV1)
  : json_result unit * ObjectSerializerV1 :=
  let '(r, state) := record r (obj_state self) in
  let self := with_state self state in
  match r with Ok a => k a self | Err e => (Err e, self) end.

(** [self.state.require_usable()?] *)
Definition if_usable (self : ObjectSerializerV1)
    (k : json_result unit * ObjectSerializerV1) : json_result unit * ObjectSerializerV1 :=
  match require_usable (obj_state self) with Err e => (Err e, self) | Ok _ => k end.

Definition accept_key (self : ObjectSerializerV1) (key : bytes) : json_result unit :=
  if contains_key key (obj_values self) || bool_decide (pending_key self = Some key)
  then fail_with DuplicateObjectKey
  else if (length (obj_values self) =? CANONICAL_JSON_MAX_OBJECT_KEYS_V1)%nat
  then fail_with ObjectTooLarge
  else Ok tt.

(** [return self.state.fail(Serialization)] *)
Definition misuse (self : ObjectSerializerV1) : json_result unit * ObjectSerializerV1 :=
  let '(r, state) := fail Serialization (obj_state self) in (r, with_state self state).

Definition value_serializer (self : ObjectSerializerV1) : ValueSerializerV1 :=
  MkValueSerializer (obj_null_policy self) (obj_depth self).

Definition insert (key : bytes) (value : Serialize) (self : ObjectSerializerV1)
  : json_result unit * ObjectSerializerV1 :=
  if_usable self
    match pending_key self with
    | Some _ => misuse self
    | None =>
        recording (accept_key self key) self (fun _ self =>
        recording (value (value_serializer self)) self (fun v self =>
        (Ok tt, with_entry self key v)))
    end.

Definition object_finish (self : ObjectSerializerV1) : json_result CanonicalJsonValueV1 :=
  let? _ := require_usable (obj_state self) in
  match pending_key self with
  | Some _ => fst (fail Serialization (obj_state self))
  | None => Ok (Object (obj_values self))
  end.

Definition map_serialize_key (key : json_result bytes) (self : ObjectSerializerV1)
  : json_result unit * ObjectSerializerV1 :=
  if_usable self
    match pending_key self with
    | Some _ => misuse self
    | None =>
        recording key self (fun key self =>
        recording (accept_key self key) self (fun _ self =>
        (Ok tt, with_pending self (Some key))))
    end.

Definition map_serialize_value (value : Serialize) (self : ObjectSerializerV1)
  : json_result unit * ObjectSerializerV1 :=
  if_usable self
    match pending_key self with
    | None => misuse self
    | Some key =>
        let self := with_pending self None in
        recording (value (value_serializer self)) self (fun v self =>
        (Ok tt, with_entry self key v))
    end.

Definition map_serialize_entry (key : json_result bytes) (value : Serialize)
    (self : ObjectSerializerV1) : json_result unit * ObjectSerializerV1 :=
  if_usable self (recording key self (fun key self => insert key value self)).

Definition struct_serialize_field (key : bytes) (value : Serialize)
    (self : ObjectSerializerV1) : json_result unit * ObjectSerializerV1 :=
  if_usable self
    (recording (validate_printable_ascii key) self (fun _ self => insert key value self)).

(** ** The serializer *)

(** The prologue of the variant compounds: the variant name is checked, then
    the depth of the containers around the fields. *)
Definition variant_prologue (variant : bytes) (self : ValueSerializerV1) : json_result nat :=
  let? _ := validate_printable_ascii variant in
  let? object_depth := checked_container_depth (containing_depth self) in
  checked_container_depth object_depth.

Fixpoint serialize (x : Ser) (self : ValueSerializerV1) {struct x}
  : json_result CanonicalJsonValueV1 :=
  match x with
  | SerBool b => Ok (Bool b)
  | SerI8 n | SerI16 n | SerI32 n | SerI64 n => serialize_i64 n
  | SerI128 n => serialize_i128 n
  | SerU8 n | SerU16 n | SerU32 n | SerU64 n => serialize_u64 n
  | SerU128 n => serialize_u128 n
  | SerF32 | SerF64 => fail_with FloatingPointForbidden
  | SerChar c => string (encode_utf8 c)
  | SerStr s => string s
  | SerBytes s => serialize_bytes s self
  | SerNone | SerUnit | SerUnitStruct => Ok Null
  | SerSome x | SerNewtypeStruct x => serialize x self
  | SerUnitVariant variant => string variant
  | SerNewtypeVariant variant x =>
      let? _ := validate_printable_ascii variant in
      let? object_depth := checked_container_depth (containing_depth self) in
      let? v := serialize x (nested self object_depth) in
      Ok (singleton_object variant v)
  | SerSeq calls | SerTuple calls | SerTupleStruct calls =>
      let? depth := checked_container_depth (containing_depth self) in
      run_seq calls (MkSequence [] (null_policy self) depth compound_default)
  | SerTupleVariant variant calls =>
      let? array_depth := variant_prologue variant self in
      run_tuple_variant calls
        (MkTupleVariant variant [] (null_policy self) array_depth compound_default)
  | SerMap calls =>
      let? depth := checked_container_depth (containing_depth self) in
      run_map calls (object_new (null_policy self) depth)
  | SerStruct calls =>
      let? depth := checked_container_depth (containing_depth self) in
      run_struct calls (object_new (null_policy self) depth)
  | SerStructVariant variant calls =>
      let? fields_depth := variant_prologue variant self in
      let? fields := run_struct calls (object_new (null_policy self) fields_depth) in
      Ok (singleton_object variant fields)
  | SerFail => fail_with Serialization
  | SerRemap x =>
      match serialize x self with Ok v => Ok v | Err _ => fail_with Serialization end
  end
with run_seq (calls : SeqScript) (self : SequenceSerializerV1) {struct calls}
  : json_result CanonicalJsonValueV1 :=
  match calls with
  | SeqPush x next => let '(r, self) := push (serialize x) self in run_seq (next r) self
  | SeqEnd => seq_finish self
  | SeqDrop e => Err e
  end
with run_tuple_variant (calls : SeqScript) (self : TupleVariantSerializerV1) {struct calls}
  : json_result CanonicalJsonValueV1 :=
  match calls with
  | SeqPush x next =>
      let '(r, self) := tuple_variant_field (serialize x) self in
      run_tuple_variant (next r) self
  | SeqEnd => tuple_variant_end self
  | SeqDrop e => Err e
  end
with run_map (calls : MapScript) (self : ObjectSerializerV1) {struct calls}
  : json_result CanonicalJsonValueV1 :=
  match calls with
  | MapKey key next =>
      let '(r, self) := map_serialize_key (serialize_key_v1 key) self in run_map (next r) self
  | MapValue x next =>
      let '(r, self) := map_serialize_value (serialize x) self in run_map (next r) self
  | MapEntry key x next =>
      let '(r, self) := map_serialize_entry (serialize_key_v1 key) (serialize x) self in
      run_map (next r) self
  | MapEnd => object_finish self
  | MapDrop e => Err e
  end
with run_struct (calls : StructScript) (self : ObjectSerializerV1) {struct calls}
  : json_result CanonicalJsonValueV1 :=
  match calls with
  | StructField key x next =>
      let '(r, self) := struct_serialize_field key (serialize x) self in
      run_struct (next r) self
  | StructEnd => object_finish self
  | StructDrop e => Err e
  end.

(** ** Well-typed clients: every integer is in the range of its type *)

Fixpoint typed (x : Ser) : Prop :=
  match x with
  | SerI8 n => (-128 <= n <= 127)%Z
  | SerI16 n => (-32768 <= n <= 32767)%Z
  | SerI32 n => (i32_min <= n <= i32_max)%Z
  | SerI64 n => (i64_min <= n <= i64_max)%Z
  | SerU8 n => (0 <= n <= u8_max)%Z
  | SerU16 n => (0 <= n <= u16_max)%Z
  | SerU32 n => (0 <= n <= u32_max)%Z
  | SerU64 n => (0 <= n <= u64_max)%Z
  | SerBytes s => Forall (fun b => 0 <= b <= u8_max)%Z s
  | SerSome x | SerNewtypeStruct x | SerNewtypeVariant _ x | SerRemap x => typed x
  | SerSeq c | SerTuple c | SerTupleStruct c | SerTupleVariant _ c => typed_seq c
  | SerMap c => typed_map c
  | SerStruct c | SerStructVariant _ c => typed_struct c
  | _ => True
  end
with typed_seq (c : SeqScript) : Prop :=
  match c with
  | SeqPush x next => typed x /\ forall r, typed_seq (next r)
  | _ => True
  end
with typed_map (c : MapScript) : Prop :=
  match c with
  | MapKey _ next => forall r, typed_map (next r)
  | MapValue x next | MapEntry _ x next => typed x /\ forall r, typed_map (next r)
  | _ => True
  end
with typed_struct (c : StructScript) : Prop :=
  match c with
  | StructField _ x next => typed x /\ forall r, typed_struct (next r)
  | _ => True
  end.

(* ------------------------------------------------------------------ *)
(** ** The reference: a client that propagates every error

    The strict reading has no first-error state: the first failing call
    fails the whole value, and a map is a plain list of complete entries. *)

Definition add_field (key : bytes) (v : CanonicalJsonValueV1)
    (acc : list (bytes * CanonicalJsonValueV1))
  : list (bytes * CanonicalJsonValueV1) := map_insert key v acc.

Definition fresh_key (key : bytes) (acc : list (bytes * CanonicalJsonValueV1))
  : json_result unit :=
  if contains_key key acc then fail_with DuplicateObjectKey
  else if (length acc =? CANONICAL_JSON_MAX_OBJECT_KEYS_V1)%nat then fail_with ObjectTooLarge
  else Ok tt.

Section Strict.
(** Scripts, given the strict meaning [ser] of the values they push at
    the depth inside the container. *)
Context (policy : CanonicalJsonNullPolicyV1) (d : nat).
Let here := MkValueSerializer policy d.

Fixpoint strict_seq (acc : list CanonicalJsonValueV1) (c : SeqScript)
  : json_result (list CanonicalJsonValueV1) :=
  match c with
  | SeqPush x next =>
      let? v := serialize x here in strict_seq (acc ++ [v]) (next (Ok tt))
  | SeqEnd => Ok acc
  | SeqDrop e => Err e
  end.

Fixpoint strict_map (acc : list (bytes * CanonicalJsonValueV1)) (pending : option bytes)
    (c : MapScript) : json_result (list (bytes * CanonicalJsonValueV1)) :=
  match c, pending with
  | MapKey k next, None =>
      let? key := serialize_key_v1 k in
      let? _ := fresh_key key acc in
      strict_map acc (Some key) (next (Ok tt))
  | MapValue x next, Some key =>
      let? v := serialize x here in
      strict_map (add_field key v acc) None (next (Ok tt))
  | MapEntry k x next, None =>
      let? key := serialize_key_v1 k in
      let? _ := fresh_key key acc in
      let? v := serialize x here in
      strict_map (add_field key v acc) None (next (Ok tt))
  | MapEnd, None => Ok acc
  | MapDrop e, _ => Err e
  | _, _ => fail_with Serialization
  end.

Fixpoint strict_struct (acc : list (bytes * CanonicalJsonValueV1)) (c : StructScript)
  : json_result (list (bytes * CanonicalJsonValueV1)) :=
  match c with
  | StructField key x next =>
      let? _ := validate_printable_ascii key in
      let? _ := fresh_key key acc in
      let? v := serialize x here in
      strict_struct (add_field key v acc) (next (Ok tt))
  | StructEnd => Ok acc
  | StructDrop e => Err e
  end.
End Strict.
