(* ===== verification/JsonSerializerFacts.v ===== *)
(** * Canonical JSON: facts about the serializer

    The compound builders against the strict reading of a script
    ([run_seq_strict] and its companions), and well-formedness of every
    published value ([serialize_fits]). *)

From S2P Require Import Prelude Bytes Json JsonRender JsonParser JsonParserFacts JsonSerializer.

(** ** The first error is final *)

Lemma run_seq_poisoned c : forall self e v,
  first_error (seq_state self) = Some e -> run_seq c self <> Ok v.
Proof.
  induction c as [x next IH| |e']; intros [vs p d st] e v He; cbn in *.
  - unfold push, require_usable; cbn. rewrite He. by apply (IH _ _ e).
  - unfold seq_finish, require_usable; cbn. by rewrite He.
  - done.
Qed.

Lemma run_tuple_variant_poisoned c : forall self e v,
  first_error (tv_state self) = Some e -> run_tuple_variant c self <> Ok v.
Proof.
  induction c as [x next IH| |e']; intros [n vs p d st] e v He; cbn in *.
  - unfold tuple_variant_field, require_usable; cbn. rewrite He. by apply (IH _ _ e).
  - unfold tuple_variant_end, require_usable; cbn. by rewrite He.
  - done.
Qed.

Lemma if_usable_poisoned self k e :
  first_error (obj_state self) = Some e -> if_usable self k = (Err e, self).
Proof. unfold if_usable, require_usable. by intros ->. Qed.

Lemma object_finish_poisoned self e v :
  first_error (obj_state self) = Some e -> object_finish self <> Ok v.
Proof. unfold object_finish, require_usable. by intros ->. Qed.

Lemma run_map_poisoned c : forall self e v,
  first_error (obj_state self) = Some e -> run_map c self <> Ok v.
Proof.
  induction c as [k next IH|x next IH|k x next IH| |e']; intros self e v He; cbn;
    unfold map_serialize_key, map_serialize_value, map_serialize_entry;
    rewrite ?(if_usable_poisoned _ _ e) by done; try (by eapply IH).
  - by eapply object_finish_poisoned.
  - done.
Qed.

Lemma run_struct_poisoned c : forall self e v,
  first_error (obj_state self) = Some e -> run_struct c self <> Ok v.
Proof.
  induction c as [k x next IH| |e']; intros self e v He; cbn;
    unfold struct_serialize_field;
    rewrite ?(if_usable_poisoned _ _ e) by done; try (by eapply IH).
  - by eapply object_finish_poisoned.
  - done.
Qed.

(** ** Published compounds are strict *)

Lemma run_seq_strict c : forall p d acc v,
  run_seq c (MkSequence acc p d compound_default) = Ok v <->
  exists vs, strict_seq p d acc c = Ok vs /\ v = Array vs.
Proof.
  induction c as [x next IH| |e]; intros p d acc v; cbn.
  - unfold push; cbn. destruct (serialize x _) as [w|e] eqn:E; cbn; [apply IH|].
    split; [|by intros (? & [=] & _)]. intros H. by apply (run_seq_poisoned _ _ e) in H.
  - split; [intros [= <-]; by eexists|]. by intros (vs & [= <-] & ->).
  - split; [done|]. by intros (? & [=] & _).
Qed.

Lemma run_tuple_variant_strict c : forall n p d acc v,
  run_tuple_variant c (MkTupleVariant n acc p d compound_default) = Ok v <->
  exists vs, strict_seq p d acc c = Ok vs /\ v = singleton_object n (Array vs).
Proof.
  induction c as [x next IH| |e]; intros n p d acc v; cbn.
  - unfold tuple_variant_field; cbn. destruct (serialize x _) as [w|e] eqn:E; cbn; [apply IH|].
    split; [|by intros (? & [=] & _)]. intros H. by apply (run_tuple_variant_poisoned _ _ e) in H.
  - split; [intros [= <-]; by eexists|]. by intros (vs & [= <-] & ->).
  - split; [done|]. by intros (? & [=] & _).
Qed.

Lemma accept_key_fresh acc p d st key :
  accept_key (MkObject acc None p d st) key = fresh_key key acc.
Proof. unfold accept_key, fresh_key. cbn. by rewrite orb_false_r. Qed.

(** Rewrites a builder call on a usable builder into its strict outcome. *)
Ltac run_builder :=
  unfold if_usable, require_usable, insert, recording, misuse, fail, record,
    with_state, with_pending, with_entry, value_serializer, fail_with; cbn.

Lemma run_map_strict c : forall p d acc pending v,
  run_map c (MkObject acc pending p d compound_default) = Ok v <->
  exists fs, strict_map p d acc pending c = Ok fs /\ v = Object fs.
Proof.
  assert (forall c self e (r : json_result (list (bytes * CanonicalJsonValueV1))) e' v,
    first_error (obj_state self) = Some e -> r = Err e' ->
    run_map c self = Ok v <-> exists fs, r = Ok fs /\ v = Object fs) as Poison.
  { intros c0 self e r e' v He ->. split; [|by intros (? & [=] & _)].
    intros H. by apply (run_map_poisoned _ _ e) in H. }
  induction c as [k next IH|x next IH|k x next IH| |e]; intros p d acc pending v; cbn.
  - unfold map_serialize_key. run_builder.
    destruct pending as [key|]; cbn; [by eapply Poison|].
    destruct (serialize_key_v1 k) as [key|e] eqn:E; cbn; [|by eapply Poison].
    rewrite accept_key_fresh. destruct (fresh_key key acc) as [[]|e]; cbn; [|by eapply Poison].
    apply IH.
  - unfold map_serialize_value. run_builder.
    destruct pending as [key|]; cbn; [|by eapply Poison].
    destruct (serialize x _) as [w|e] eqn:E; cbn; [apply IH|by eapply Poison].
  - unfold map_serialize_entry. run_builder.
    destruct pending as [key|]; cbn.
    + destruct (serialize_key_v1 k) as [key'|e] eqn:E; cbn; by eapply Poison.
    + destruct (serialize_key_v1 k) as [key|e] eqn:E; cbn; [|by eapply Poison].
      rewrite accept_key_fresh. destruct (fresh_key key acc) as [[]|e]; cbn; [|by eapply Poison].
      destruct (serialize x _) as [w|e] eqn:E'; cbn; [apply IH|by eapply Poison].
  - unfold object_finish. destruct pending as [key|]; cbn.
    + split; [done|]. by intros (? & [=] & _).
    + split; [intros [= <-]; by eexists|]. by intros (fs & [= <-] & ->).
  - destruct pending; (split; [done|]; by intros (? & [=] & _)).
Qed.

Lemma run_struct_strict c : forall p d acc v,
  run_struct c (MkObject acc None p d compound_default) = Ok v <->
  exists fs, strict_struct p d acc c = Ok fs /\ v = Object fs.
Proof.
  assert (forall c self e (r : json_result (list (bytes * CanonicalJsonValueV1))) e' v,
    first_error (obj_state self) = Some e -> r = Err e' ->
    run_struct c self = Ok v <-> exists fs, r = Ok fs /\ v = Object fs) as Poison.
  { intros c0 self e r e' v He ->. split; [|by intros (? & [=] & _)].
    intros H. by apply (run_struct_poisoned _ _ e) in H. }
  induction c as [k x next IH| |e]; intros p d acc v; cbn.
  - unfold struct_serialize_field. run_builder.
    destruct (validate_printable_ascii k) as [[]|e] eqn:E; cbn; [|by eapply Poison].
    rewrite accept_key_fresh. destruct (fresh_key k acc) as [[]|e]; cbn; [|by eapply Poison].
    destruct (serialize x _) as [w|e] eqn:E'; cbn; [apply IH|by eapply Poison].
  - split; [intros [= <-]; by eexists|]. by intros (fs & [= <-] & ->).
  - split; [done|]. by intros (? & [=] & _).
Qed.

(** ** Published values are well formed *)

Lemma validate_ok s u : validate_printable_ascii s = Ok u <-> str_ok s = true.
Proof.
  unfold validate_printable_ascii, str_ok. destruct u.
  rewrite andb_true_iff, Z.leb_le. destruct (_ <? _)%Z eqn:L; bool_to_prop.
  - split; [done|lia].
  - destruct (forallb printable s); cbn; split; (done || (intros; split; [lia|done]) || intuition discriminate).
Qed.

Lemma checked_key_ok s k : checked s = Ok k -> str_ok k = true.
Proof.
  unfold checked. destruct (validate_printable_ascii s) eqn:E; cbn; [|done].
  intros [= <-]. by apply validate_ok in E.
Qed.

Lemma serialize_key_ok x : forall k, serialize_key_v1 x = Ok k -> str_ok k = true.
Proof.
  induction x; intros k; cbn; try done; try apply checked_key_ok; try auto.
  - destruct (try_i64 _); cbn; [apply checked_key_ok|done].
  - destruct (try_u64 _); cbn; [apply checked_key_ok|done].
  - destruct (serialize_key_v1 x); [|done]. intros [= <-]. auto.
Qed.

Lemma fresh_key_ok k acc u :
  fresh_key k acc = Ok u ->
  contains_key k acc = false /\ length acc <> CANONICAL_JSON_MAX_OBJECT_KEYS_V1.
Proof.
  unfold fresh_key. destruct (contains_key k acc); [done|].
  by destruct (Nat.eqb_spec (length acc) CANONICAL_JSON_MAX_OBJECT_KEYS_V1).
Qed.

Lemma string_fits d s v : d <= CANONICAL_JSON_MAX_DEPTH_V1 -> string s = Ok v -> fits d v.
Proof.
  unfold string. intros Hd. destruct (validate_printable_ascii s) eqn:E; cbn; [|done].
  intros [= <-]. apply validate_ok in E. by apply scalar_fits.
Qed.

Lemma number_fits d n :
  d <= CANONICAL_JSON_MAX_DEPTH_V1 -> number_ok n = true -> fits d (Number n).
Proof. intros Hd Hn. by apply scalar_fits. Qed.

Lemma singleton_fits d name v :
  S d <= CANONICAL_JSON_MAX_DEPTH_V1 -> str_ok name = true -> fits (S d) v ->
  fits d (singleton_object name v).
Proof.
  intros Hd Hn Hv. apply object_fits; [done|]. split_and!; [|done|unfold CANONICAL_JSON_MAX_OBJECT_KEYS_V1; cbn [length]; lia].
  apply Forall_cons_2; [by split|constructor].
Qed.

Lemma serialize_bytes_fits d p s v :
  d <= CANONICAL_JSON_MAX_DEPTH_V1 -> Forall (fun b => 0 <= b <= u8_max)%Z s ->
  serialize_bytes s (MkValueSerializer p d) = Ok v -> fits d v.
Proof.
  intros Hd Hs. unfold serialize_bytes. cbn.
  destruct (checked_container_depth d) eqn:E; cbn; [|done]. intros [= <-].
  apply checked_container_depth_ok in E as [-> E]; [|done].
  apply array_fits; [done|]. apply Forall_fmap. eapply Forall_impl; [exact Hs|].
  intros b Hb. apply number_fits; [done|]. cbn. unfold u8_max, u64_max in *.
  apply andb_true_iff. rewrite !Z.leb_le. lia.
Qed.

Ltac range_ok :=
  cbn [number_ok]; unfold i64_min, i64_max, u64_max, i32_min, i32_max, u8_max, u16_max,
    u32_max in *; apply andb_true_iff; rewrite !Z.leb_le; lia.

Definition publishes_fit (x : Ser) : Prop := forall p d v,
  typed x -> d <= CANONICAL_JSON_MAX_DEPTH_V1 ->
  serialize x (MkValueSerializer p d) = Ok v -> fits d v.
Definition seq_fit (c : SeqScript) : Prop := forall p d acc vs,
  typed_seq c -> d <= CANONICAL_JSON_MAX_DEPTH_V1 -> Forall (fits d) acc ->
  strict_seq p d acc c = Ok vs -> Forall (fits d) vs.
Definition map_fit (c : MapScript) : Prop := forall p d acc pending fs,
  typed_map c -> d <= CANONICAL_JSON_MAX_DEPTH_V1 -> fields_fit d acc ->
  (forall k, pending = Some k -> str_ok k = true /\ contains_key k acc = false /\
     length acc <> CANONICAL_JSON_MAX_OBJECT_KEYS_V1) ->
  strict_map p d acc pending c = Ok fs -> fields_fit d fs.
Definition struct_fit (c : StructScript) : Prop := forall p d acc fs,
  typed_struct c -> d <= CANONICAL_JSON_MAX_DEPTH_V1 -> fields_fit d acc ->
  strict_struct p d acc c = Ok fs -> fields_fit d fs.

Lemma fields_fit_nil d : fields_fit d [].
Proof. split_and!; [constructor|done|cbn; lia]. Qed.

Lemma seq_compound_fits c p d v :
  seq_fit c -> typed_seq c -> d <= CANONICAL_JSON_MAX_DEPTH_V1 ->
  (let? depth := checked_container_depth d in
   run_seq c (MkSequence [] p depth compound_default)) = Ok v -> fits d v.
Proof.
  intros Hc Ht Hd H. destruct (checked_container_depth d) as [d'|] eqn:E; [|done].
  apply checked_container_depth_ok in E as [-> E]; [|done]. cbn in H.
  apply run_seq_strict in H as (vs & H & ->). apply array_fits; [done|].
  eapply Hc; [done|done|constructor|done].
Qed.

Lemma variant_prologue_ok variant p d d' :
  d <= CANONICAL_JSON_MAX_DEPTH_V1 ->
  variant_prologue variant (MkValueSerializer p d) = Ok d' ->
  d' = S (S d) /\ d' <= CANONICAL_JSON_MAX_DEPTH_V1 /\ str_ok variant = true.
Proof.
  intros Hd. unfold variant_prologue. cbn.
  destruct (validate_printable_ascii variant) eqn:V; cbn; [|done].
  destruct (checked_container_depth d) as [d1|] eqn:E; cbn; [|done].
  apply checked_container_depth_ok in E as [-> E]; [|done]. intros H.
  apply checked_container_depth_ok in H as [-> H]; [|done].
  apply validate_ok in V. done.
Qed.

(** The scalar arms. *)
Ltac scalar_case :=
  intros p d v Ht Hd H; cbn in H; try discriminate H;
  first
  [ injection H as <-; first [by apply scalar_fits | apply number_fits; [done|]; cbn in Ht; range_ok]
  | by eapply string_fits
  | by eapply serialize_bytes_fits ].

Lemma try_number_fits d (r : json_result Z) (f : Z -> CanonicalJsonNumberV1) v :
  d <= CANONICAL_JSON_MAX_DEPTH_V1 -> (forall n, r = Ok n -> number_ok (f n) = true) ->
  (let? n := r in Ok (Number (f n))) = Ok v -> fits d v.
Proof.
  intros Hd Hr. destruct r as [n|e]; cbn; [|done]. intros [= <-].
  apply number_fits; auto.
Qed.

Lemma i128_fits d n v :
  d <= CANONICAL_JSON_MAX_DEPTH_V1 -> serialize_i128 n = Ok v -> fits d v.
Proof.
  intros Hd. apply try_number_fits; [done|]. intros m. unfold try_i64.
  destruct (_ && _)%bool eqn:E; [|done]. by intros [= <-].
Qed.

Lemma u128_fits d n v :
  d <= CANONICAL_JSON_MAX_DEPTH_V1 -> serialize_u128 n = Ok v -> fits d v.
Proof.
  intros Hd. apply try_number_fits; [done|]. intros m. unfold try_u64.
  destruct (_ && _)%bool eqn:E; [|done]. by intros [= <-].
Qed.

Lemma newtype_variant_fits name x :
  publishes_fit x -> publishes_fit (SerNewtypeVariant name x).
Proof.
  intros Hx p d v Ht Hd H. cbn in H, Ht.
  destruct (validate_printable_ascii name) eqn:V; [cbn in H|done].
  destruct (checked_container_depth d) as [d'|] eqn:E; [cbn in H|done].
  apply checked_container_depth_ok in E as [-> E]; [|done].
  unfold nested in H. cbn in H.
  destruct (serialize x _) as [w|] eqn:W; [cbn in H|done]. injection H as <-.
  apply validate_ok in V. apply singleton_fits; [done|done|]. by eapply Hx.
Qed.

Lemma tuple_variant_fits name c : seq_fit c -> publishes_fit (SerTupleVariant name c).
Proof.
  intros Hc p d v Ht Hd H. cbn in H, Ht.
  destruct (variant_prologue _ _) as [d'|] eqn:E; [cbn in H|done].
  apply variant_prologue_ok in E as (-> & E & Hn); [|done].
  apply run_tuple_variant_strict in H as (vs & H & ->).
  apply singleton_fits; [lia|done|]. apply array_fits; [done|].
  eapply Hc; [done|done|constructor|done].
Qed.

Lemma map_fits c : map_fit c -> publishes_fit (SerMap c).
Proof.
  intros Hc p d v Ht Hd H. cbn in H, Ht.
  destruct (checked_container_depth d) as [d'|] eqn:E; [cbn in H|done].
  apply checked_container_depth_ok in E as [-> E]; [|done].
  apply run_map_strict in H as (fs & H & ->). apply object_fits; [done|].
  by apply (Hc p (S d) [] None fs Ht E (fields_fit_nil _)).
Qed.

Lemma struct_fits d c p fs :
  struct_fit c -> typed_struct c -> S d <= CANONICAL_JSON_MAX_DEPTH_V1 ->
  run_struct c (object_new p (S d)) = Ok fs -> fits d fs.
Proof.
  intros Hc Ht Hd H. apply run_struct_strict in H as (fs' & H & ->).
  apply object_fits; [done|]. eapply Hc; [done|done|apply fields_fit_nil|done].
Qed.

Lemma seq_push_fit x next :
  publishes_fit x -> (forall r, seq_fit (next r)) -> seq_fit (SeqPush x next).
Proof.
  intros Hx IH p d acc vs [Htx Ht] Hd Ha H. cbn in H.
  destruct (serialize x _) as [w|] eqn:W; [cbn in H|done].
  eapply IH; [apply Ht|done| |exact H].
  apply Forall_app. split; [done|]. apply Forall_cons_2; [by eapply Hx|constructor].
Qed.

Lemma map_key_fit k next :
  (forall r, map_fit (next r)) -> map_fit (MapKey k next).
Proof.
  intros IH p d acc pending fs Ht Hd Ha Hp H. destruct pending as [key|]; [done|]. cbn in H.
  destruct (serialize_key_v1 k) as [key|] eqn:K; [cbn in H|done].
  destruct (fresh_key key acc) eqn:F; [cbn in H|done].
  apply (IH (Ok tt) p d acc (Some key) fs (Ht _) Hd Ha); [|exact H].
  intros k' [= <-]. apply serialize_key_ok in K. by apply fresh_key_ok in F.
Qed.

Lemma map_value_fit x next :
  publishes_fit x -> (forall r, map_fit (next r)) -> map_fit (MapValue x next).
Proof.
  intros Hx IH p d acc pending fs [Htx Ht] Hd Ha Hp H.
  destruct pending as [key|]; [|done]. cbn in H.
  destruct (serialize x _) as [w|] eqn:W; [cbn in H|done].
  destruct (Hp key eq_refl) as (Hk & Hc & Hl).
  apply (IH (Ok tt) p d (add_field key w acc) None fs (Ht _) Hd); [|done|exact H].
  apply fields_fit_insert; [done|done|by eapply Hx|done|done].
Qed.

Lemma map_entry_fit k x next :
  publishes_fit x -> (forall r, map_fit (next r)) -> map_fit (MapEntry k x next).
Proof.
  intros Hx IH p d acc pending fs [Htx Ht] Hd Ha Hp H.
  destruct pending as [key|]; [done|]. cbn in H.
  destruct (serialize_key_v1 k) as [key|] eqn:K; [cbn in H|done].
  destruct (fresh_key key acc) eqn:F; [cbn in H|done].
  destruct (serialize x _) as [w|] eqn:W; [cbn in H|done].
  apply serialize_key_ok in K. apply fresh_key_ok in F as [? ?].
  apply (IH (Ok tt) p d (add_field key w acc) None fs (Ht _) Hd); [|done|exact H].
  apply fields_fit_insert; [done|done|by eapply Hx|done|done].
Qed.

Lemma struct_field_fit k x next :
  publishes_fit x -> (forall r, struct_fit (next r)) -> struct_fit (StructField k x next).
Proof.
  intros Hx IH p d acc fs [Htx Ht] Hd Ha H. cbn in H.
  destruct (validate_printable_ascii k) eqn:K; [cbn in H|done].
  destruct (fresh_key k acc) eqn:F; [cbn in H|done].
  destruct (serialize x _) as [w|] eqn:W; [cbn in H|done].
  apply validate_ok in K. apply fresh_key_ok in F as [? ?].
  eapply IH; [apply Ht|done| |exact H].
  apply fields_fit_insert; [done|done|by eapply Hx|done|done].
Qed.

Lemma serialize_fits_all :
  (forall x, publishes_fit x) /\ (forall c, seq_fit c) /\ (forall c, map_fit c) /\
  (forall c, struct_fit c).
Proof.
  apply Ser_mutind; try scalar_case; try (intros n; scalar_case).
  - intros n p d v _ Hd. by apply i128_fits.
  - intros n p d v _ Hd. by apply u128_fits.
  - done.
  - done.
  - intros. by apply newtype_variant_fits.
  - intros c Hc p d v. cbn. by apply seq_compound_fits.
  - intros c Hc p d v. cbn. by apply seq_compound_fits.
  - intros c Hc p d v. cbn. by apply seq_compound_fits.
  - intros. by apply tuple_variant_fits.
  - intros. by apply map_fits.
  - intros c Hc p d v Ht Hd H. cbn in H, Ht.
    destruct (checked_container_depth d) as [d'|] eqn:E; [cbn in H|done].
    apply checked_container_depth_ok in E as [-> E]; [|done]. by eapply struct_fits.
  - intros name c Hc p d v Ht Hd H. cbn in H, Ht.
    destruct (variant_prologue _ _) as [d'|] eqn:E; [cbn in H|done].
    apply variant_prologue_ok in E as (-> & E & Hn); [|done].
    destruct (run_struct _ _) as [w|] eqn:W; [cbn in H|done]. injection H as <-.
    apply singleton_fits; [lia|done|]. by eapply struct_fits.
  - intros x Hx p d v Ht Hd. cbn. destruct (serialize x _) as [w|] eqn:W; [|done].
    intros [= <-]. by eapply Hx.
  - intros. by apply seq_push_fit.
  - intros p d acc vs _ _ Ha [= <-]. done.
  - done.
  - intros. by apply map_key_fit.
  - intros. by apply map_value_fit.
  - intros. by apply map_entry_fit.
  - intros p d acc [key|] fs _ _ Ha _ H; [done|]. by injection H as <-.
  - by intros e p d acc [key|] fs.
  - intros. by apply struct_field_fit.
  - intros p d acc fs _ _ Ha [= <-]. done.
  - done.
Qed.

(** What a well-typed client publishes fits the codec's limits. *)
Lemma serialize_fits x p d v :
  typed x -> d <= CANONICAL_JSON_MAX_DEPTH_V1 ->
  serialize x (MkValueSerializer p d) = Ok v -> fits d v.
Proof. apply serialize_fits_all. Qed.
