(* ===== verification/JsonCodec.v ===== *)
(** * Canonical JSON: the store's entry points
      (src/mtg-kernel/src/canonical_json_v1.rs)

    The writer [to_canonical_json_bytes_v1] and its counting twin, the reader
    [parse_and_require_canonical] behind every public reader, and their
    contract: the reader accepts exactly the renderings of canonical values,
    and the writer produces nothing else. *)

From S2P Require Import Prelude Bytes Json JsonRender JsonParser JsonParserFacts JsonSerializer JsonSerializerFacts.

Definition serialize_checked_value_v1 (value : Ser) (policy : CanonicalJsonNullPolicyV1)
  : json_result CanonicalJsonValueV1 :=
  let? v := serialize value (MkValueSerializer policy 0) in
  let? _ := require_allowed_null_paths v policy in
  Ok v.

Definition to_canonical_json_bytes_v1 (value : Ser) (policy : CanonicalJsonNullPolicyV1)
  : json_result bytes :=
  let? v := serialize_checked_value_v1 value policy in
  encode_value_with_final_lf v.

Definition count_canonical_json_bytes_v1 (value : Ser) (policy : CanonicalJsonNullPolicyV1)
  : json_result Z :=
  let? v := serialize_checked_value_v1 value policy in
  let? sink := emit_value_with_final_lf v (MkCount 0) in
  Ok (encoded_len sink).

(** [bytes.strip_suffix] of the final LF *)
Definition strip_final_lf (s : bytes) : option bytes :=
  match last s with
  | Some b => if (b =? LF)%Z then Some (take (length s - 1) s) else None
  | None => None
  end.

Definition parse_and_require_canonical (s : bytes) (policy : CanonicalJsonNullPolicyV1)
  : parsed CanonicalJsonValueV1 :=
  match strip_final_lf s with
  | None => reject MissingFinalLf
  | Some payload =>
      let? v := parse_document policy payload in
      let? _ := lift (require_allowed_null_paths v policy) in
      let? encoded := lift (encode_value_with_final_lf v) in
      if decide (encoded = s) then Ok v else reject NonCanonicalBytes
  end.

Definition validate_canonical_json_bytes_v1 (s : bytes) (policy : CanonicalJsonNullPolicyV1)
  : parsed unit :=
  result_map (fun _ => tt) (parse_and_require_canonical s policy).

(** [from_slice] is [serde_json::from_slice] at the target type: a parameter. *)
Definition from_canonical_json_bytes_v1 {T} (from_slice : bytes -> option T) (s : bytes)
    (policy : CanonicalJsonNullPolicyV1) : parsed T :=
  let? _ := parse_and_require_canonical s policy in
  match from_slice (take (length s - 1) s) with
  | Some t => Ok t
  | None => reject Deserialization
  end.

(* ------------------------------------------------------------------ *)
(** ** Lemmas *)

Lemma strip_final_lf_app s : strip_final_lf (s ++ [LF]) = Some s.
Proof.
  unfold strip_final_lf. rewrite last_snoc. cbn. f_equal.
  rewrite length_app. cbn. replace (length s + 1 - 1) with (length s) by lia.
  apply take_app_length.
Qed.

Lemma strip_final_lf_some s payload :
  strip_final_lf s = Some payload -> s = payload ++ [LF].
Proof.
  unfold strip_final_lf. destruct (last s) as [b|] eqn:L; [|done].
  destruct (b =? LF)%Z eqn:B; [|done]. intros [= <-]. bool_to_prop. subst.
  apply last_Some in L as [l ->]. rewrite length_app. cbn.
  replace (length l + 1 - 1) with (length l) by lia. by rewrite take_app_length.
Qed.

(** A value whose nulls are allowed is readable under the same policy. *)
Lemma allowed_readable policy v :
  wf_value v = true -> nulls_allowed policy v -> readable policy v.
Proof.
  intros Hw Hn. split; [done|]. intros F p Hp. destruct policy; [|done].
  destruct (Hn p Hp) as (a & Ha & _). by apply elem_of_nil in Ha.
Qed.

Lemma norm_null_at v p : null_at (norm v) p -> null_at v p.
Proof.
  revert p. induction v as [|b|n|s|vs IH|fs IH] using value_nested_ind; intros p; try done.
  - intros H. cbn in H. inversion H.
  - intros H. cbn in H. inversion H as [|? i w q Hl Hq|]; subst.
    change (map norm vs) with (norm <$> vs) in Hl.
    apply list_lookup_fmap_Some in Hl as (v & -> & Hl).
    econstructor; [done|]. rewrite Forall_forall in IH. apply IH; [|done].
    by eapply list_elem_of_lookup_2.
  - intros H. cbn in H. inversion H as [| |? k w q Hl Hq]; subst.
    apply list_elem_of_fmap in Hl as ([k' v] & [= -> ->] & Hl).
    econstructor; [done|]. rewrite Forall_forall in IH. by apply (IH _ Hl).
Qed.

Lemma norm_number_render n : render (Number (norm_number n)) = render (Number n).
Proof.
  destruct n as [n|n]; [|done]. cbn. destruct (n <? 0)%Z eqn:N; [done|].
  cbn. unfold i64_to_string. by rewrite N.
Qed.

Lemma norm_render v : render (norm v) = render v.
Proof.
  induction v as [|b|n|s|vs IH|fs IH] using value_nested_ind; try done.
  - apply norm_number_render.
  - cbn. rewrite map_map. do 2 f_equal. f_equal. apply map_ext_in.
    intros v Hv. rewrite Forall_forall in IH. by apply IH, list_elem_of_In.
  - cbn. rewrite map_map. do 2 f_equal. f_equal. apply map_ext_in.
    intros [k v] Hv. cbn. rewrite Forall_forall in IH. apply list_elem_of_In in Hv.
    specialize (IH _ Hv). cbn in IH. by rewrite IH.
Qed.

Lemma norm_number_ok n : number_ok n = true -> number_ok (norm_number n) = true.
Proof.
  destruct n as [n|n]; [|done]. cbn. destruct (n <? 0)%Z eqn:N; cbn; [done|].
  rewrite !andb_true_iff, !Z.leb_le. bool_to_prop. unfold i64_max, u64_max. lia.
Qed.

Lemma norm_keys_sorted fs :
  keys_sorted (map (fun e => (fst e, norm (snd e))) fs) = keys_sorted fs.
Proof.
  induction fs as [|[k v] fs IH]; [done|]. cbn. rewrite IH. f_equal.
  clear IH. induction fs as [|[k' v'] fs IH]; [done|]. cbn. by rewrite IH.
Qed.

Lemma norm_idempotent v : norm (norm v) = norm v.
Proof.
  induction v as [|b|n|s|vs IH|fs IH] using value_nested_ind; try done.
  - cbn. f_equal. destruct n as [n|n]; [|done]. cbn. by destruct (n <? 0)%Z eqn:N; cbn; rewrite ?N.
  - cbn. f_equal. rewrite map_map. apply map_ext_in. intros v Hv.
    rewrite Forall_forall in IH. by apply IH, list_elem_of_In.
  - cbn. f_equal. rewrite map_map. apply map_ext_in. intros [k v] Hv. cbn. f_equal.
    rewrite Forall_forall in IH. by apply (IH (k, v)), list_elem_of_In.
Qed.

Lemma forallb_map_imp {A B} (f : A -> bool) (g : B -> bool) (h : A -> B) l :
  Forall (fun a => f a = true -> g (h a) = true) l ->
  forallb f l = true -> forallb g (map h l) = true.
Proof.
  rewrite !forallb_Forall, Forall_fmap, !Forall_forall. unfold compose. auto.
Qed.

Lemma norm_wf v : wf_value v = true -> wf_value (norm v) = true.
Proof.
  induction v as [|b|n|s|vs IH|fs IH] using value_nested_ind; cbn [norm wf_value]; try done.
  - apply norm_number_ok.
  - by apply forallb_map_imp.
  - rewrite !andb_true_iff, length_fmap. intros [[H Hs] Hl].
    rewrite norm_keys_sorted. split_and!; [|done|done].
    revert H. apply forallb_map_imp. eapply Forall_impl; [exact IH|].
    intros [k v] Hv. cbn. rewrite !andb_true_iff. tauto.
Qed.

Lemma max_depth_map_ext {A} (f g : A -> nat) l :
  Forall (fun a => f a = g a) l -> max_depth (map f l) = max_depth (map g l).
Proof. 
  induction 1 as [|a l E _ IH]; [done|].
  change (Nat.max (f a) (max_depth (map f l)) = Nat.max (g a) (max_depth (map g l))).
  by rewrite E, IH.
Qed.

Lemma norm_depth v : depth (norm v) = depth v.
Proof.
  induction v as [|b|n|s|vs IH|fs IH] using value_nested_ind; try done.
  - cbn. rewrite map_map. f_equal. by apply max_depth_map_ext.
  - cbn. rewrite map_map. f_equal. by apply max_depth_map_ext.
Qed.

Lemma norm_canonical d v : fits d v -> canonical_value (norm v).
Proof.
  intros [Hw Hd]. split_and!; [by apply norm_wf| |apply norm_idempotent].
  rewrite norm_depth. lia.
Qed.

(** The reader on a rendering. *)
Lemma reader_accepts policy v :
  wf_value v = true -> depth v <= CANONICAL_JSON_MAX_DEPTH_V1 -> nulls_allowed policy v ->
  parse_and_require_canonical (render v ++ [LF]) policy = Ok (norm v).
Proof.
  intros Hw Hd Hn. unfold parse_and_require_canonical. rewrite strip_final_lf_app.
  rewrite parse_document_render by (done || by apply allowed_readable). cbn [result_bind].
  assert (require_allowed_null_paths (norm v) policy = Ok tt) as ->.
  { apply null_paths_spec. intros p Hp%norm_null_at. by apply Hn. }
  cbn [lift result_bind]. rewrite encode_render. cbn [lift result_bind].
  rewrite norm_render. by rewrite decide_True.
Qed.

Lemma reader_accepted policy s v :
  parse_and_require_canonical s policy = Ok v ->
  canonical_value v /\ nulls_allowed policy v /\ s = render v ++ [LF].
Proof.
  unfold parse_and_require_canonical.
  destruct (strip_final_lf s) as [payload|] eqn:S; [|done].
  apply strip_final_lf_some in S.
  pose proof (parse_document_sound policy payload) as Hs.
  destruct (parse_document policy payload) as [w|[]] eqn:P; cbn [result_bind]; [|done|done].
  destruct (require_allowed_null_paths w policy) as [[]|] eqn:N; cbn [lift result_bind]; [|done].
  rewrite encode_render. cbn [lift result_bind]. case_decide as D; [|done]. intros [= <-].
  rewrite S in D. apply app_inj_2 in D as [D _]; [|done]. subst payload.
  apply null_paths_spec in N. destruct Hs as [Hw Hd].
  rewrite parse_document_render in P by (done || by apply allowed_readable).
  injection P as P. by split_and!.
Qed.

(** The writer publishes renderings of values that fit. *)
Lemma writer_output policy x s :
  typed x -> to_canonical_json_bytes_v1 x policy = Ok s ->
  exists v, serialize x (MkValueSerializer policy 0) = Ok v /\ fits 0 v /\
    nulls_allowed policy v /\ s = render v ++ [LF].
Proof.
  intros Ht. unfold to_canonical_json_bytes_v1, serialize_checked_value_v1.
  destruct (serialize x _) as [v|] eqn:E; cbn [result_bind]; [|done].
  destruct (require_allowed_null_paths v policy) as [[]|] eqn:N; cbn [result_bind]; [|done].
  rewrite encode_render. intros [= <-]. exists v. apply null_paths_spec in N.
  split_and!; try done; apply (serialize_fits x policy 0); try done;
    unfold CANONICAL_JSON_MAX_DEPTH_V1; lia.
Qed.

(* ------------------------------------------------------------------ *)
(** ** Properties *)

(** C3: the canonical reader is exact. It accepts a byte string with value
    [v] if and only if [v] is canonical (printable bounded strings, strictly
    sorted keys, at most 256 of them, integers of their width in reader form,
    at most 32 nested containers), every null of [v] stands at a path the
    policy lists, and the bytes are the compact rendering of [v] and one LF:
    no other spelling of a value is accepted, and no spelling is shared. *)
Theorem canonical_reader_exact s policy v :
  parse_and_require_canonical s policy = Ok v <->
  canonical_value v /\ nulls_allowed policy v /\ s = render v ++ [LF].
Proof.
  split; [apply reader_accepted|]. intros ((Hw & Hd & Hn) & Hp & ->).
  rewrite reader_accepts by done. by rewrite Hn.
Qed.

(** The reader terminates on every byte string, hostile ones included:
    the fuel [2 * length + 1] of the document parser is never exhausted. *)
Theorem canonical_reader_total s policy :
  parse_and_require_canonical s policy <> Err OutOfFuel.
Proof.
  unfold parse_and_require_canonical. destruct (strip_final_lf s) as [payload|]; [|done].
  pose proof (parse_document_sound policy payload) as Hs.
  destruct (parse_document policy payload) as [v|[]]; cbn [result_bind]; [|done|done].
  destruct (require_allowed_null_paths v policy); cbn [lift result_bind]; [|done].
  rewrite encode_render. cbn [lift result_bind]. by case_decide.
Qed.

(** C37: whatever a well-typed client serializes, the bytes the writer
    publishes are accepted by the reader under the same null policy, and the
    value read back is the value serialized, its non-negative integers in
    unsigned form. *)
Theorem canonical_write_read x policy s :
  typed x -> to_canonical_json_bytes_v1 x policy = Ok s ->
  exists v, serialize x (MkValueSerializer policy 0) = Ok v /\
    parse_and_require_canonical s policy = Ok (norm v).
Proof.
  intros Ht Hs. apply writer_output in Hs as (v & Hv & [Hw Hd] & Hn & ->); [|done].
  exists v. split; [done|]. by apply reader_accepts.
Qed.

(** C40: an error of a compound builder is final. A sequence, tuple
    variant, map or struct is published if and only if the strict reading of
    its script, which stops at the first failing call, succeeds, and then with
    the strict reading's contents; a client that catches the error of an
    element, a key or a value and goes on publishes nothing. *)
Theorem swallowed_errors_publish_nothing p d :
  (forall c v, run_seq c (MkSequence [] p d compound_default) = Ok v <->
     exists vs, strict_seq p d [] c = Ok vs /\ v = Array vs) /\
  (forall c name v,
     run_tuple_variant c (MkTupleVariant name [] p d compound_default) = Ok v <->
     exists vs, strict_seq p d [] c = Ok vs /\ v = singleton_object name (Array vs)) /\
  (forall c v, run_map c (object_new p d) = Ok v <->
     exists fs, strict_map p d [] None c = Ok fs /\ v = Object fs) /\
  (forall c v, run_struct c (object_new p d) = Ok v <->
     exists fs, strict_struct p d [] c = Ok fs /\ v = Object fs).
Proof.
  split_and!; intros.
  - apply run_seq_strict.
  - apply run_tuple_variant_strict.
  - apply run_map_strict.
  - apply run_struct_strict.
Qed.

(** Counting is encoding: the counting entry point returns the length
    of the bytes the writer would produce, fails with the writer's error when
    the writer fails, and otherwise fails only when the length does not fit
    a [u64]. *)
Theorem count_is_encoded_length x policy :
  count_canonical_json_bytes_v1 x policy =
  match to_canonical_json_bytes_v1 x policy with
  | Ok s => if (byte_len s <=? u64_max)%Z then Ok (byte_len s) else fail_with EncodedLengthOverflow
  | Err e => Err e
  end.
Proof.
  unfold count_canonical_json_bytes_v1, to_canonical_json_bytes_v1.
  destruct (serialize_checked_value_v1 x policy) as [v|e]; cbn [result_bind]; [|done].
  rewrite encode_render, emit_value_render by (cbn; unfold u64_max; lia).
  unfold emit_chunk, count_sink, checked_add_u64. cbn [encoded_len].
  rewrite Z.add_0_l. unfold checked_unsigned.
  assert ((0 <=? byte_len (render v ++ [LF]))%Z = true) as ->
    by (apply Z.leb_le; unfold byte_len; lia).
  cbn [andb]. by destruct (_ <=? _)%Z.
Qed.

(** *** Witnesses *)

(** A client that writes field b (an i32) and then field a (a sequence of a
    string with a quote to escape, and an i64). *)
Definition sample_record : Ser :=
  SerStruct (StructField [98%Z] (SerI32 (-1)) (fun _ =>
    StructField [97%Z]
      (SerSeq (SeqPush (SerStr [113; 34]%Z) (fun _ => SeqPush (SerI64 5) (fun _ => SeqEnd))))
      (fun _ => StructEnd))).

Lemma canonical_write_read_witness :
  exists s v, to_canonical_json_bytes_v1 sample_record Forbid = Ok s /\
    parse_and_require_canonical s Forbid = Ok v /\ length s = 23.
Proof.
  destruct (to_canonical_json_bytes_v1 sample_record Forbid) as [s|] eqn:E;
    [|vm_compute in E; discriminate E].
  destruct (canonical_write_read sample_record Forbid s) as (v & _ & H).
  - cbn. unfold i32_min, i32_max, i64_min, i64_max. repeat split; lia.
  - exact E.
  - exists s, (norm v). split; [done|]. split; [exact H|].
    vm_compute in E. injection E as <-. reflexivity.
Defined.
