(* ===== verification/JsonMax.v ===== *)
(** * Canonical JSON: the closed-grammar size calculus
      (src/mtg-kernel/src/canonical_json_v1.rs, [CanonicalJsonClosedMaxV1])

    Store preflight bounds the size of a record from its grammar alone. The
    combinators are translated with their checked arithmetic ([usize] is 64
    bits wide); [Shape] is the grammar a client composes them by, and the
    facts at the end relate the bound of a shape to the renderings of the
    values that inhabit it. *)

From S2P Require Import Prelude Bytes Json JsonRender JsonParserFacts.

Record CanonicalJsonClosedMaxV1 := MkMax {
  token_bytes : Z;
  closed_depth : Z;
  max_object_keys : Z;
  max_string_bytes : Z;
}.

Inductive CanonicalJsonClosedMaxErrorV1 :=
  | Arithmetic | InvalidLiteral | UnsortedOrDuplicateKey | Depth | ObjectKeys | StringBytes.

Abbreviation max_result := (result CanonicalJsonClosedMaxErrorV1).

Definition ok_or_arithmetic (o : option Z) : max_result Z := ok_or Arithmetic o.

Definition validate_composed_v1 (value : CanonicalJsonClosedMaxV1)
  : max_result CanonicalJsonClosedMaxV1 :=
  if (Z.of_nat CANONICAL_JSON_MAX_DEPTH_V1 <? closed_depth value)%Z then Err Depth
  else if (Z.of_nat CANONICAL_JSON_MAX_OBJECT_KEYS_V1 <? max_object_keys value)%Z
  then Err ObjectKeys
  else if (CANONICAL_JSON_MAX_STRING_BYTES_V1 <? max_string_bytes value)%Z
  then Err StringBytes
  else Ok value.

Definition scalar_v1 (bytes : Z) : CanonicalJsonClosedMaxV1 := MkMax bytes 0 0 0.
Definition null_v1 : CanonicalJsonClosedMaxV1 := scalar_v1 4.
Definition bool_v1 (value : bool) : CanonicalJsonClosedMaxV1 := scalar_v1 (if value then 4 else 5).
Definition max_u63_v1 : CanonicalJsonClosedMaxV1 := scalar_v1 19.
Definition max_u32_v1 : CanonicalJsonClosedMaxV1 := scalar_v1 10.
Definition terminal_return_i8_v1 : CanonicalJsonClosedMaxV1 := scalar_v1 2.

Definition exact_unsigned_decimal_digits_v1 (digits : Z) : max_result CanonicalJsonClosedMaxV1 :=
  if negb ((1 <=? digits) && (digits <=? 19))%Z then Err InvalidLiteral
  else Ok (scalar_v1 digits).

(** [while value >= 10]: a [u64] takes at most twenty iterations. *)
Fixpoint count_digits (fuel : nat) (value digits : Z) : Z :=
  match fuel with
  | O => digits
  | S fuel =>
      if (10 <=? value)%Z then count_digits fuel (value / 10) (digits + 1) else digits
  end.
Definition exact_u64_v1 (value : Z) : CanonicalJsonClosedMaxV1 :=
  scalar_v1 (count_digits 20 value 1).

Definition escaped_step (escaped b : Z) : max_result Z :=
  if negb (printable b) then Err InvalidLiteral
  else ok_or_arithmetic (checked_add_u64 escaped
         (if ((b =? QUOTE) || (b =? BACKSLASH))%Z then 2 else 1)).

Definition fixed_ascii_string_v1 (literal : bytes) : max_result CanonicalJsonClosedMaxV1 :=
  if (CANONICAL_JSON_MAX_STRING_BYTES_V1 <? byte_len literal)%Z then Err StringBytes
  else
    let? escaped := try_fold escaped_step 0%Z literal in
    let? token := ok_or_arithmetic (checked_add_u64 escaped 2) in
    Ok (MkMax token 0 0 (byte_len literal)).

Definition fixed_ascii_string_bytes_v1 (decoded : Z) : max_result CanonicalJsonClosedMaxV1 :=
  if (CANONICAL_JSON_MAX_STRING_BYTES_V1 <? decoded)%Z then Err StringBytes
  else
    let? token := ok_or_arithmetic (checked_add_u64 decoded 2) in
    Ok (MkMax token 0 0 decoded).

Definition choice_v1 (left right : CanonicalJsonClosedMaxV1)
  : max_result CanonicalJsonClosedMaxV1 :=
  validate_composed_v1
    (MkMax (Z.max (token_bytes left) (token_bytes right))
       (Z.max (closed_depth left) (closed_depth right))
       (Z.max (max_object_keys left) (max_object_keys right))
       (Z.max (max_string_bytes left) (max_string_bytes right))).

Definition array_v1 (count : Z) (child : CanonicalJsonClosedMaxV1)
  : max_result CanonicalJsonClosedMaxV1 :=
  let? contents :=
    if (count =? 0)%Z then Ok 0%Z
    else
      let? product := ok_or_arithmetic (checked_mul_u64 count (token_bytes child)) in
      ok_or_arithmetic (checked_add_u64 product (count - 1)) in
  let? d :=
    if (count =? 0)%Z then Ok 1%Z else ok_or_arithmetic (checked_add_u64 (closed_depth child) 1) in
  let? token := ok_or_arithmetic (checked_add_u64 contents 2) in
  validate_composed_v1 (MkMax token d (max_object_keys child) (max_string_bytes child)).

(** The running maxima of the two folds: the [depth] field is the largest
    child depth until the container is closed. *)
Definition separator_v1 (index : nat) (token : Z) : max_result Z :=
  if (index =? 0)%nat then Ok token else ok_or_arithmetic (checked_add_u64 token 1).

Definition close_depth (empty : bool) (max_child_depth : Z) : max_result Z :=
  if empty then Ok 1%Z else ok_or_arithmetic (checked_add_u64 max_child_depth 1).

Definition fixed_array_step (acc : nat * CanonicalJsonClosedMaxV1)
    (child : CanonicalJsonClosedMaxV1) : max_result (nat * CanonicalJsonClosedMaxV1) :=
  let '(index, m) := acc in
  let? token := separator_v1 index (token_bytes m) in
  let? token := ok_or_arithmetic (checked_add_u64 token (token_bytes child)) in
  Ok (S index,
      MkMax token (Z.max (closed_depth m) (closed_depth child))
        (Z.max (max_object_keys m) (max_object_keys child))
        (Z.max (max_string_bytes m) (max_string_bytes child))).

Definition fixed_array_v1 (children : list CanonicalJsonClosedMaxV1)
  : max_result CanonicalJsonClosedMaxV1 :=
  let? (_, m) := try_fold fixed_array_step (0%nat, MkMax 2 0 0 0) children in
  let? d := close_depth (length children =? 0)%nat (closed_depth m) in
  validate_composed_v1 (MkMax (token_bytes m) d (max_object_keys m) (max_string_bytes m)).

Definition object_step (acc : option bytes * nat * CanonicalJsonClosedMaxV1)
    (field : bytes * CanonicalJsonClosedMaxV1)
  : max_result (option bytes * nat * CanonicalJsonClosedMaxV1) :=
  let '(previous_key, index, m) := acc in
  let '(key, child) := field in
  if match previous_key with Some p => negb (bytes_lt p key) | None => false end
  then Err UnsortedOrDuplicateKey
  else
    let? key_shape := fixed_ascii_string_v1 key in
    let? token := separator_v1 index (token_bytes m) in
    let? token := ok_or_arithmetic (checked_add_u64 token (token_bytes key_shape)) in
    let? token := ok_or_arithmetic (checked_add_u64 token 1) in
    let? token := ok_or_arithmetic (checked_add_u64 token (token_bytes child)) in
    Ok (Some key, S index,
        MkMax token (Z.max (closed_depth m) (closed_depth child))
          (Z.max (max_object_keys m) (max_object_keys child))
          (Z.max (Z.max (max_string_bytes m) (max_string_bytes key_shape))
             (max_string_bytes child))).

Definition object_v1 (fields : list (bytes * CanonicalJsonClosedMaxV1))
  : max_result CanonicalJsonClosedMaxV1 :=
  if (CANONICAL_JSON_MAX_OBJECT_KEYS_V1 <? length fields)%nat then Err ObjectKeys
  else
    let? (_, _, m) :=
      try_fold object_step (None, 0%nat, MkMax 2 0 (Z.of_nat (length fields)) 0) fields in
    let? d := close_depth (length fields =? 0)%nat (closed_depth m) in
    validate_composed_v1 (MkMax (token_bytes m) d (max_object_keys m) (max_string_bytes m)).

Definition canonical_document_bytes_v1 (m : CanonicalJsonClosedMaxV1) : max_result Z :=
  let? m := validate_composed_v1 m in
  ok_or_arithmetic (checked_add_u64 (token_bytes m) 1).

(* ------------------------------------------------------------------ *)
(** ** Specification *)

(** The largest object and the longest decoded string (or key) of a value. *)
Fixpoint object_keys (v : CanonicalJsonValueV1) : nat :=
  match v with
  | Array vs => max_depth (map object_keys vs)
  | Object fs => Nat.max (length fs) (max_depth (map (fun e => object_keys (snd e)) fs))
  | _ => 0
  end.
Fixpoint string_bytes (v : CanonicalJsonValueV1) : nat :=
  match v with
  | String s => length s
  | Array vs => max_depth (map string_bytes vs)
  | Object fs => max_depth (map (fun e => Nat.max (length (fst e)) (string_bytes (snd e))) fs)
  | _ => 0
  end.

Record covers (m : CanonicalJsonClosedMaxV1) (v : CanonicalJsonValueV1) : Prop := {
  cov_token : (byte_len (render v) <= token_bytes m)%Z;
  cov_depth : (Z.of_nat (depth v) <= closed_depth m)%Z;
  cov_keys : (Z.of_nat (object_keys v) <= max_object_keys m)%Z;
  cov_string : (Z.of_nat (string_bytes v) <= max_string_bytes m)%Z;
}.

(** A closed grammar: the shapes the combinators compose. *)
#[warnings="-register-all"]
Inductive Shape :=
  | ShapeNull
  | ShapeBool (value : bool)
  | ShapeU63
  | ShapeU32
  | ShapeReturn
  | ShapeDigits (digits : Z)
  | ShapeU64 (value : Z)
  | ShapeLiteral (literal : bytes)
  | ShapeText (decoded : Z)
  | ShapeChoice (left right : Shape)
  | ShapeArray (count : Z) (child : Shape)
  | ShapeFixedArray (children : list Shape)
  | ShapeObject (fields : list (bytes * Shape)).

(** The bound the combinators compute. *)
Fixpoint shape_max (sh : Shape) : max_result CanonicalJsonClosedMaxV1 :=
  match sh with
  | ShapeNull => Ok null_v1
  | ShapeBool b => Ok (bool_v1 b)
  | ShapeU63 => Ok max_u63_v1
  | ShapeU32 => Ok max_u32_v1
  | ShapeReturn => Ok terminal_return_i8_v1
  | ShapeDigits n => exact_unsigned_decimal_digits_v1 n
  | ShapeU64 n => Ok (exact_u64_v1 n)
  | ShapeLiteral s => fixed_ascii_string_v1 s
  | ShapeText n => fixed_ascii_string_bytes_v1 n
  | ShapeChoice l r =>
      let? l := shape_max l in let? r := shape_max r in choice_v1 l r
  | ShapeArray n c => let? c := shape_max c in array_v1 n c
  | ShapeFixedArray cs =>
      let? ms := try_fold (fun ms c => let? m := shape_max c in Ok (ms ++ [m])) [] cs in
      fixed_array_v1 ms
  | ShapeObject fs =>
      let? ms := try_fold (fun ms '(k, c) => let? m := shape_max c in Ok (ms ++ [(k, m)]))
                   [] fs in
      object_v1 ms
  end.

(** The [u64] parameters of a shape are in range. *)
Fixpoint shape_ok (sh : Shape) : Prop :=
  match sh with
  | ShapeU64 n | ShapeText n => (0 <= n <= u64_max)%Z
  | ShapeChoice l r => shape_ok l /\ shape_ok r
  | ShapeArray n c => (0 <= n <= u64_max)%Z /\ shape_ok c
  | ShapeFixedArray cs => foldr (fun c P => shape_ok c /\ P) True cs
  | ShapeObject fs => foldr (fun f P => shape_ok (snd f) /\ P) True fs
  | _ => True
  end.

(** Plain text: printable, nothing to escape. *)
Definition plain (b : Z) : Prop := printable b = true /\ b <> QUOTE /\ b <> BACKSLASH.

#[warnings="-register-all"]
Inductive inhabits : Shape -> CanonicalJsonValueV1 -> Prop :=
  | in_null : inhabits ShapeNull Null
  | in_bool b : inhabits (ShapeBool b) (Bool b)
  | in_u63 n : (0 <= n <= i64_max)%Z -> inhabits ShapeU63 (Number (Unsigned n))
  | in_u32 n : (0 <= n <= u32_max)%Z -> inhabits ShapeU32 (Number (Unsigned n))
  | in_return n : (-1 <= n <= 1)%Z -> inhabits ShapeReturn (Number (Signed n))
  | in_digits n k : (0 <= n < 10 ^ k)%Z -> inhabits (ShapeDigits k) (Number (Unsigned n))
  | in_u64 n m : (0 <= n <= m)%Z -> inhabits (ShapeU64 m) (Number (Unsigned n))
  | in_literal s : inhabits (ShapeLiteral s) (String s)
  | in_text n s : (byte_len s <= n)%Z -> Forall plain s -> inhabits (ShapeText n) (String s)
  | in_left l r v : inhabits l v -> inhabits (ShapeChoice l r) v
  | in_right l r v : inhabits r v -> inhabits (ShapeChoice l r) v
  | in_array n c vs : (Z.of_nat (length vs) <= n)%Z -> Forall (inhabits c) vs ->
      inhabits (ShapeArray n c) (Array vs)
  | in_fixed cs vs : Forall2 inhabits cs vs -> inhabits (ShapeFixedArray cs) (Array vs)
  | in_object fs vs :
      Forall2 (fun f e => fst f = fst e /\ inhabits (snd f) (snd e)) fs vs ->
      inhabits (ShapeObject fs) (Object vs).

(* ------------------------------------------------------------------ *)
(** ** Lemmas *)

Lemma ok_or_arithmetic_ok o z : ok_or_arithmetic o = Ok z <-> o = Some z.
Proof. unfold ok_or_arithmetic. destruct o; cbn; split; congruence. Qed.

Lemma checked_add_ok a b z :
  ok_or_arithmetic (checked_add_u64 a b) = Ok z -> z = (a + b)%Z /\ (0 <= z <= u64_max)%Z.
Proof. rewrite ok_or_arithmetic_ok. intros H. by apply checked_unsigned_some in H as [-> ?]. Qed.

Lemma checked_mul_ok a b z :
  ok_or_arithmetic (checked_mul_u64 a b) = Ok z -> z = (a * b)%Z /\ (0 <= z <= u64_max)%Z.
Proof. rewrite ok_or_arithmetic_ok. intros H. by apply checked_unsigned_some in H as [-> ?]. Qed.

(** Opens every checked operation of a successful combinator. *)
Ltac open_checked H :=
  inv_bind H;
  repeat match goal with
  | E : ok_or_arithmetic (checked_add_u64 _ _) = Ok _ |- _ => apply checked_add_ok in E as [-> ?]
  | E : ok_or_arithmetic (checked_mul_u64 _ _) = Ok _ |- _ => apply checked_mul_ok in E as [-> ?]
  end.

Lemma validate_composed_ok m m' :
  validate_composed_v1 m = Ok m' ->
  m' = m /\ (closed_depth m <= Z.of_nat CANONICAL_JSON_MAX_DEPTH_V1)%Z /\
  (max_object_keys m <= Z.of_nat CANONICAL_JSON_MAX_OBJECT_KEYS_V1)%Z /\
  (max_string_bytes m <= CANONICAL_JSON_MAX_STRING_BYTES_V1)%Z.
Proof.
  unfold validate_composed_v1.
  destruct (_ <? closed_depth m)%Z eqn:E1; [done|].
  destruct (_ <? max_object_keys m)%Z eqn:E2; [done|].
  destruct (_ <? max_string_bytes m)%Z eqn:E3; [done|].
  intros [= <-]. by bool_to_prop.
Qed.

Lemma max_depth_le_Z ds z :
  (0 <= z)%Z -> (Z.of_nat (max_depth ds) <= z)%Z <-> Forall (fun d => Z.of_nat d <= z)%Z ds.
Proof.
  intros Hz. replace z with (Z.of_nat (Z.to_nat z)) by lia.
  transitivity (max_depth ds <= Z.to_nat z); [lia|]. rewrite max_depth_le.
  split; intros HF; (eapply Forall_impl; [exact HF|]); cbv beta; intros; lia.
Qed.

(** *** Decimal lengths *)

Lemma count_digits_spec fuel : forall n d,
  (0 <= n < 10 ^ Z.of_nat (S fuel))%Z ->
  count_digits (S fuel) n d = (d - 1 + Z.of_nat (length (u64_digits (S fuel) n)))%Z.
Proof.
  induction fuel as [|fuel IH]; intros n d Hn;
    rewrite Nat2Z.inj_succ, Z.pow_succ_r in Hn by lia.
  - cbn in Hn. cbn. rewrite (proj2 (Z.leb_gt 10 n)), (proj2 (Z.ltb_lt n 10)) by lia. cbn. lia.
  - cbn [count_digits u64_digits].
    destruct (n <? 10)%Z eqn:E; bool_to_prop.
    + rewrite (proj2 (Z.leb_gt 10 n)) by lia. cbn. lia.
    + rewrite (proj2 (Z.leb_le 10 n)) by lia.
      rewrite length_app. cbn [length].
      specialize (IH (n / 10)%Z (d + 1)%Z). cbn [count_digits u64_digits] in IH.
      rewrite IH; [lia|]. split; [apply Z.div_pos; lia|]. apply Z.div_lt_upper_bound; lia.
Qed.

Lemma u64_digits_mono fuel : forall n m,
  (0 <= n <= m)%Z -> length (u64_digits fuel n) <= length (u64_digits fuel m).
Proof.
  induction fuel as [|fuel IH]; intros n m H; cbn; [done|].
  destruct (n <? 10)%Z eqn:E, (m <? 10)%Z eqn:F; bool_to_prop; cbn;
    rewrite ?length_app; cbn; try lia.
  assert (n / 10 <= m / 10)%Z by (apply Z.div_le_mono; lia).
  assert (0 <= n / 10)%Z by (apply Z.div_pos; lia).
  specialize (IH (n / 10) (m / 10))%Z. lia.
Qed.

Lemma numeral_length n m len :
  (0 <= n <= m)%Z -> Z.of_nat (length (u64_to_string m)) = len ->
  (byte_len (u64_to_string n) <= len)%Z.
Proof.
  intros H <-. unfold byte_len. pose proof (u64_digits_mono 20 n m H). unfold u64_to_string. lia.
Qed.

Lemma exact_u64_length m :
  (0 <= m <= u64_max)%Z -> token_bytes (exact_u64_v1 m) = byte_len (u64_to_string m).
Proof.
  intros Hm. unfold exact_u64_v1, u64_to_string, byte_len. cbn [token_bytes scalar_v1].
  rewrite (count_digits_spec 19); [lia|].
  replace (10 ^ Z.of_nat 20)%Z with 100000000000000000000%Z by reflexivity.
  unfold u64_max in Hm. lia.
Qed.

(** *** Strings *)

Lemma escaped_fold s : forall acc total,
  try_fold escaped_step acc s = Ok total ->
  total = (acc + byte_len (concat (map escape s)))%Z /\ forallb printable s = true.
Proof.
  induction s as [|b s IH]; intros acc total; cbn.
  - intros [= <-]. split; [unfold byte_len; cbn; lia|done].
  - unfold escaped_step at 1. destruct (printable b) eqn:P; cbn; [|done].
    intros H. open_checked H. apply IH in H as [-> ->]. split; [|done].
    unfold byte_len. rewrite length_app. unfold escape.
    destruct (_ || _)%bool; cbn [length]; lia.
Qed.

Lemma render_string_length s :
  byte_len (render_string s) = (2 + byte_len (concat (map escape s)))%Z.
Proof. unfold byte_len, render_string. cbn [length]. rewrite length_app. cbn. lia. Qed.

(** The bound of a literal is exactly its rendering. *)
Lemma fixed_ascii_string_spec s m :
  fixed_ascii_string_v1 s = Ok m ->
  m = MkMax (byte_len (render_string s)) 0 0 (byte_len s) /\ str_ok s = true.
Proof.
  unfold fixed_ascii_string_v1, str_ok. destruct (_ <? byte_len s)%Z eqn:L; [done|].
  intros H. open_checked H. subst. apply escaped_fold in E as [-> P].
  rewrite render_string_length, P. bool_to_prop. split; [f_equal; lia|].
  rewrite andb_true_r. by apply Z.leb_le.
Qed.

Lemma plain_escape s : Forall plain s -> concat (map escape s) = s.
Proof.
  induction 1 as [|b s (_ & Hq & Hb) _ IH]; [done|]. cbn. rewrite IH. unfold escape.
  by rewrite (proj2 (Z.eqb_neq _ _) Hq), (proj2 (Z.eqb_neq _ _) Hb).
Qed.

(** *** Containers *)

Lemma tail_join_length rs :
  byte_len (tail_join rs) = foldr (fun r n => 1 + byte_len r + n)%Z 0%Z rs.
Proof.
  induction rs as [|r rs IH]; [done|].
  change (tail_join (r :: rs)) with (COMMA :: r ++ tail_join rs).
  unfold byte_len in *. cbn [length foldr]. rewrite length_app, <- IH. lia.
Qed.

Lemma join_length r rs :
  byte_len (join (r :: rs)) = (byte_len r + byte_len (tail_join rs))%Z.
Proof. unfold byte_len. cbn [join]. rewrite length_app. lia. Qed.

Lemma tail_join_cons_length r rs :
  byte_len (tail_join (r :: rs)) = (1 + byte_len r + byte_len (tail_join rs))%Z.
Proof. by rewrite !tail_join_length. Qed.

Lemma bracket_length o c rs : byte_len (o :: rs ++ [c]) = (2 + byte_len rs)%Z.
Proof. unfold byte_len. cbn [length]. rewrite length_app. cbn. lia. Qed.

(** The text of entries [i ..] of a container: all but the first carry a
    separator. *)
Definition entries (i : nat) (rs : list bytes) : bytes :=
  if (i =? 0)%nat then join rs else tail_join rs.

Lemma entries_cons i r rs :
  byte_len (entries i (r :: rs)) =
  ((if (i =? 0)%nat then 0 else 1) + byte_len r + byte_len (entries (S i) rs))%Z.
Proof.
  unfold entries. cbn [Nat.eqb]. destruct (i =? 0)%nat.
  - rewrite join_length. lia.
  - rewrite !tail_join_length. cbn [foldr]. lia.
Qed.

Lemma separator_ok i t t' :
  separator_v1 i t = Ok t' -> t' = (t + if (i =? 0)%nat then 0 else 1)%Z.
Proof.
  unfold separator_v1. destruct (i =? 0)%nat; intros H; [injection H as <-; lia|].
  by apply checked_add_ok in H as [-> _].
Qed.

Lemma close_depth_ok empty d d' :
  close_depth empty d = Ok d' -> d' = if empty then 1%Z else (d + 1)%Z.
Proof.
  unfold close_depth. destruct empty; [by intros [= <-]|]. intros H.
  by apply checked_add_ok in H as [-> _].
Qed.

(** [m'] bounds whatever [m] bounds. *)
Record max_le (m m' : CanonicalJsonClosedMaxV1) : Prop := {
  le_depth : (closed_depth m <= closed_depth m')%Z;
  le_keys : (max_object_keys m <= max_object_keys m')%Z;
  le_string : (max_string_bytes m <= max_string_bytes m')%Z;
}.

(** A child of a container with bound [m] (its depth not yet closed). *)
Definition child_of (m : CanonicalJsonClosedMaxV1) (v : CanonicalJsonValueV1) : Prop :=
  (Z.of_nat (depth v) <= closed_depth m)%Z /\
  (Z.of_nat (object_keys v) <= max_object_keys m)%Z /\
  (Z.of_nat (string_bytes v) <= max_string_bytes m)%Z.

Lemma covers_child c m v : covers c v -> max_le c m -> child_of m v.
Proof. intros [? ? ? ?] [? ? ?]. split_and!; lia. Qed.

Lemma child_of_le m m' v : child_of m v -> max_le m m' -> child_of m' v.
Proof. intros (? & ? & ?) [? ? ?]. split_and!; lia. Qed.

Lemma max_le_trans m1 m2 m3 : max_le m1 m2 -> max_le m2 m3 -> max_le m1 m3.
Proof. intros [? ? ?] [? ? ?]. split; lia. Qed.

#[export] Instance max_le_preorder : PreOrder max_le.
Proof. split; [intros m; split; lia|intros ? ? ?; apply max_le_trans]. Qed.

Definition zero_max : CanonicalJsonClosedMaxV1 := MkMax 0 0 0 0.
Definition max_ok (m : CanonicalJsonClosedMaxV1) : Prop := max_le zero_max m.

Lemma fixed_array_step_ok i m c r :
  fixed_array_step (i, m) c = Ok r ->
  r = (S i, MkMax (token_bytes m + (if (i =? 0)%nat then 0 else 1) + token_bytes c)
              (Z.max (closed_depth m) (closed_depth c))
              (Z.max (max_object_keys m) (max_object_keys c))
              (Z.max (max_string_bytes m) (max_string_bytes c))).
Proof.
  unfold fixed_array_step. intros H. open_checked H.
  match goal with E : separator_v1 _ _ = Ok _ |- _ => apply separator_ok in E as -> end. done.
Qed.

Lemma object_step_ok prev i m k c r :
  object_step (prev, i, m) (k, c) = Ok r ->
  r = (Some k, S i,
       MkMax (token_bytes m + (if (i =? 0)%nat then 0 else 1) + byte_len (render_string k)
                + 1 + token_bytes c)
         (Z.max (closed_depth m) (closed_depth c))
         (Z.max (max_object_keys m) (max_object_keys c))
         (Z.max (Z.max (max_string_bytes m) (byte_len k)) (max_string_bytes c))) /\
  str_ok k = true /\ (forall p, prev = Some p -> bytes_lt p k = true).
Proof.
  unfold object_step. destruct (match prev with Some _ => _ | None => _ end) eqn:Hp; [done|].
  intros H. open_checked H.
  repeat match goal with
  | E : separator_v1 _ _ = Ok _ |- _ => apply separator_ok in E as ->
  | E : fixed_ascii_string_v1 _ = Ok _ |- _ => apply fixed_ascii_string_spec in E as [-> ?]
  end. subst r. split_and!; [done|done|]. intros p ->. by apply negb_false_iff in Hp.
Qed.

Lemma fixed_array_fold cs vs :
  Forall2 covers cs vs -> forall i m0 i' m,
  try_fold fixed_array_step (i, m0) cs = Ok (i', m) ->
  (token_bytes m0 + byte_len (entries i (map render vs)) <= token_bytes m)%Z /\
  max_le m0 m /\ Forall (child_of m) vs.
Proof.
  induction 1 as [|c v cs vs Hc _ IH]; intros i m0 i' m H; cbn in H.
  - injection H as _ <-. split_and!; [|done|constructor].
    unfold entries, byte_len. destruct (i =? 0)%nat; cbn; lia.
  - apply result_bind_ok in H as (r & E & H). apply fixed_array_step_ok in E as ->.
    apply IH in H as (Ht & Hle & Hch). cbn [token_bytes] in Ht.
    cbn [map]. rewrite entries_cons. pose proof (cov_token _ _ Hc). split_and!.
    + lia.
    + etransitivity; [|exact Hle]. split; cbn; lia.
    + apply Forall_cons_2; [|done]. apply (covers_child c); [done|].
      etransitivity; [|exact Hle]. split; cbn; lia.
Qed.

Definition field_covers (f : bytes * CanonicalJsonClosedMaxV1)
    (e : bytes * CanonicalJsonValueV1) : Prop := fst f = fst e /\ covers (snd f) (snd e).

Definition field_child (m : CanonicalJsonClosedMaxV1) (e : bytes * CanonicalJsonValueV1)
  : Prop := child_of m (snd e) /\ (byte_len (fst e) <= max_string_bytes m)%Z.

Lemma object_fold fs es :
  Forall2 field_covers fs es -> forall prev i m0 r m,
  try_fold object_step (prev, i, m0) fs = Ok (r, m) ->
  (token_bytes m0 + byte_len (entries i (map render_field es)) <= token_bytes m)%Z /\
  max_le m0 m /\ Forall (field_child m) es.
Proof.
  induction 1 as [|[k c] [k' v] fs es [Hk Hc] _ IH]; intros prev i m0 r m H; cbn in H.
  - injection H as _ <-. split_and!; [|done|constructor].
    unfold entries, byte_len. destruct (i =? 0)%nat; cbn; lia.
  - cbn in Hk, Hc. subst k'.
    apply result_bind_ok in H as (s & E & H). apply object_step_ok in E as (-> & _ & _).
    apply IH in H as (Ht & Hle & Hch). cbn [token_bytes] in Ht.
    cbn [map]. rewrite entries_cons. pose proof (cov_token _ _ Hc).
    assert (byte_len (render_field (k, v)) =
      byte_len (render_string k) + 1 + byte_len (render v))%Z as ->
      by (unfold byte_len, render_field; cbn [fst snd]; rewrite length_app; cbn [length]; lia).
    split_and!.
    + lia.
    + etransitivity; [|exact Hle]. split; cbn; lia.
    + apply Forall_cons_2; [|done]. split.
      * apply (covers_child c); [done|]. etransitivity; [|exact Hle]. split; cbn; lia.
      * destruct Hle as [_ _ Hs]. cbn in *. lia.
Qed.

(** Closing a container over children bounded by [m]. *)
Lemma covers_array m vs t d :
  max_ok m -> Forall (child_of m) vs -> (2 + byte_len (join (map render vs)) <= t)%Z ->
  (1 <= d)%Z -> (vs <> [] -> d = closed_depth m + 1)%Z ->
  covers (MkMax t d (max_object_keys m) (max_string_bytes m)) (Array vs).
Proof.
  intros [? ? ?] Hch Ht Hd Hd'. cbn in *.
  split; cbn [token_bytes closed_depth max_object_keys max_string_bytes render depth
              object_keys string_bytes].
  - by rewrite bracket_length.
  - destruct vs as [|v vs]; [cbn; lia|]. rewrite Hd' by done.
    assert (Z.of_nat (max_depth (map depth (v :: vs))) <= closed_depth m)%Z; [|lia].
    apply max_depth_le_Z, Forall_fmap; [lia|].
    eapply Forall_impl; [exact Hch|]. by intros w (? & _).
  - apply max_depth_le_Z, Forall_fmap; [lia|].
    eapply Forall_impl; [exact Hch|]. by intros w (_ & ? & _).
  - apply max_depth_le_Z, Forall_fmap; [lia|].
    eapply Forall_impl; [exact Hch|]. by intros w (_ & _ & ?).
Qed.

Lemma covers_object m es t d :
  max_ok m -> Forall (field_child m) es ->
  (2 + byte_len (join (map render_field es)) <= t)%Z ->
  (Z.of_nat (length es) <= max_object_keys m)%Z ->
  (1 <= d)%Z -> (es <> [] -> d = closed_depth m + 1)%Z ->
  covers (MkMax t d (max_object_keys m) (max_string_bytes m)) (Object es).
Proof.
  intros [? ? ?] Hch Ht Hl Hd Hd'. cbn in *.
  split; cbn [token_bytes closed_depth max_object_keys max_string_bytes render depth
              object_keys string_bytes].
  - fold render_field. by rewrite bracket_length.
  - destruct es as [|e es]; [cbn; lia|]. rewrite Hd' by done.
    assert (Z.of_nat (max_depth (map (fun e => depth (snd e)) (e :: es))) <= closed_depth m)%Z;
      [|lia].
    apply max_depth_le_Z, Forall_fmap; [lia|].
    eapply Forall_impl; [exact Hch|]. by intros w [(? & _) _].
  - assert (Z.of_nat (max_depth (map (fun e => object_keys (snd e)) es)) <=
      max_object_keys m)%Z; [|lia].
    apply max_depth_le_Z, Forall_fmap; [lia|].
    eapply Forall_impl; [exact Hch|]. by intros w [(_ & ? & _) _].
  - apply max_depth_le_Z, Forall_fmap; [lia|].
    eapply Forall_impl; [exact Hch|]. intros w [(_ & _ & ?) ?].
    unfold compose, byte_len in *. lia.
Qed.

(** *** Combinators *)

Lemma array_v1_covers n c m :
  (0 <= n)%Z -> max_ok c -> array_v1 n c = Ok m ->
  max_ok m /\ forall vs, (Z.of_nat (length vs) <= n)%Z -> Forall (covers c) vs ->
    covers m (Array vs).
Proof.
  intros Hn Hc H. unfold array_v1 in H.
  assert (forall vs, Forall (covers c) vs ->
    (byte_len (join (map render vs)) <=
     Z.of_nat (length vs) * token_bytes c + Z.of_nat (length vs - 1))%Z /\
    (byte_len (tail_join (map render vs)) <=
     Z.of_nat (length vs) * (token_bytes c + 1))%Z) as Len.
  { induction 1 as [|v vs Hv _ [_ IH]]; [by split|]. pose proof (cov_token _ _ Hv).
    cbn [map]. rewrite join_length, tail_join_cons_length. cbn [length].
    replace (S (length vs) - 1) with (length vs) by lia. split; nia. }
  apply result_bind_ok in H as (contents & Hcon & H).
  apply result_bind_ok in H as (d & Hd & H).
  apply result_bind_ok in H as (t & Ht & H).
  apply checked_add_ok in Ht as [-> Ht].
  apply validate_composed_ok in H as [-> _].
  pose proof Hc as [? ? ?]. cbn in *.
  assert (d = if (n =? 0)%Z then 1 else closed_depth c + 1)%Z as ->.
  { destruct (n =? 0)%Z; [by injection Hd as <-|]. by apply checked_add_ok in Hd as [-> _]. }
  split; [split; cbn; destruct (n =? 0)%Z; lia|]. intros vs Hl Hvs.
  destruct (Len vs Hvs) as [Hj _]. apply covers_array; [done| | | |].
  - eapply Forall_impl; [exact Hvs|]. intros v Hv. by apply (covers_child c).
  - destruct (n =? 0)%Z eqn:Z0; bool_to_prop.
    + injection Hcon as <-. destruct vs; [cbn in *; lia|cbn in Hl; lia].
    + apply result_bind_ok in Hcon as (q & Hq & Hcon).
      apply checked_mul_ok in Hq as [-> ?]. apply checked_add_ok in Hcon as [-> ?].
      destruct vs as [|v vs]; [change (byte_len (join (map render []))) with 0%Z; lia|].
      apply Forall_cons in Hvs as [Hv _]. pose proof (cov_token _ _ Hv).
      assert (0 <= token_bytes c)%Z by (unfold byte_len in *; lia).
      nia.
  - destruct (n =? 0)%Z; lia.
  - destruct (n =? 0)%Z eqn:Z0; [|done]. bool_to_prop. destruct vs; [done|cbn in Hl; lia].
Qed.

Lemma fixed_array_fold_le cs : forall i m0 i' m,
  Forall max_ok cs -> try_fold fixed_array_step (i, m0) cs = Ok (i', m) -> max_le m0 m.
Proof.
  induction cs as [|c cs IH]; intros i m0 i' m Hcs H; cbn in H; [by injection H as _ <-|].
  apply Forall_cons in Hcs as [[? ? ?] Hcs].
  apply result_bind_ok in H as (r & E & H). apply fixed_array_step_ok in E as ->.
  apply IH in H; [|done]. etransitivity; [|exact H]. split; cbn; lia.
Qed.

Lemma object_fold_le fs : forall s m0 s' m,
  Forall (fun f => max_ok (snd f)) fs -> try_fold object_step (s, m0) fs = Ok (s', m) ->
  max_le m0 m.
Proof.
  induction fs as [|[k c] fs IH]; intros [prev i] m0 s' m Hfs H; cbn in H;
    [by injection H as _ <-|].
  apply Forall_cons in Hfs as [[? ? ?] Hfs]. cbn in *.
  apply result_bind_ok in H as (r & E & H). apply object_step_ok in E as (-> & _ & _).
  apply IH in H; [|done]. etransitivity; [|exact H]. split; cbn; lia.
Qed.

Lemma fixed_array_v1_covers cs m :
  Forall max_ok cs -> fixed_array_v1 cs = Ok m ->
  max_ok m /\ forall vs, Forall2 covers cs vs -> covers m (Array vs).
Proof.
  intros Hcs H. unfold fixed_array_v1 in H.
  apply result_bind_ok in H as ([i m1] & Hf & H).
  apply result_bind_ok in H as (d & Hd & H). apply close_depth_ok in Hd.
  apply validate_composed_ok in H as [-> _].
  pose proof (fixed_array_fold_le _ _ _ _ _ Hcs Hf) as Hle.
  assert (max_ok m1) as Hm1 by (eapply max_le_trans; [|exact Hle]; split; cbn; lia).
  pose proof Hm1 as [? ? ?]. cbn in *.
  assert (1 <= d)%Z by (subst d; destruct (_ =? _)%nat; lia).
  split; [split; cbn; lia|]. intros vs Hvs.
  destruct (fixed_array_fold _ _ Hvs _ _ _ _ Hf) as (Ht & _ & Hch).
  apply covers_array; [done|done|exact Ht|done|].
  intros Hne. subst d. destruct Hvs; [done|]. done.
Qed.

Lemma object_v1_covers fs m :
  Forall (fun f => max_ok (snd f)) fs -> object_v1 fs = Ok m ->
  max_ok m /\ forall es, Forall2 field_covers fs es -> covers m (Object es).
Proof.
  intros Hfs H. unfold object_v1 in H. destruct (_ <? length fs)%nat; [done|].
  apply result_bind_ok in H as ([s m1] & Hf & H).
  destruct s as [prev i].
  apply result_bind_ok in H as (d & Hd & H). apply close_depth_ok in Hd.
  apply validate_composed_ok in H as [-> _].
  pose proof (object_fold_le _ _ _ _ _ Hfs Hf) as Hle.
  assert (max_ok m1) as Hm1 by (eapply max_le_trans; [|exact Hle]; split; cbn; lia).
  pose proof Hm1 as [? ? ?]. cbn in *.
  assert (1 <= d)%Z by (subst d; destruct (_ =? _)%nat; lia).
  split; [split; cbn; lia|]. intros es Hes.
  destruct (object_fold _ _ Hes _ _ _ _ _ Hf) as (Ht & _ & Hch).
  apply covers_object; [done|done|exact Ht| |done|].
  - rewrite <- (Forall2_length _ _ _ Hes). destruct Hle as [_ Hk _]. exact Hk.
  - intros Hne. subst d. destruct Hes; [done|]. done.
Qed.

Lemma choice_v1_covers l r m :
  max_ok l -> choice_v1 l r = Ok m ->
  max_ok m /\ forall v, covers l v \/ covers r v -> covers m v.
Proof.
  intros [? ? ?] H. apply validate_composed_ok in H as [-> _]. cbn in *.
  split; [split; cbn; lia|]. intros v [[? ? ? ?]|[? ? ? ?]]; split; cbn; lia.
Qed.

Lemma scalar_covers n v :
  depth v = 0 -> object_keys v = 0 -> string_bytes v = 0 ->
  (byte_len (render v) <= n)%Z -> covers (scalar_v1 n) v.
Proof. intros Hd Hk Hs Hn. split; rewrite ?Hd, ?Hk, ?Hs; cbn; lia. Qed.

(** *** Induction on shapes *)

Section ShapeInd.
Context (P : Shape -> Prop)
  (Hnull : P ShapeNull) (Hbool : forall b, P (ShapeBool b)) (Hu63 : P ShapeU63)
  (Hu32 : P ShapeU32) (Hret : P ShapeReturn) (Hdig : forall n, P (ShapeDigits n))
  (Hu64 : forall n, P (ShapeU64 n)) (Hlit : forall s, P (ShapeLiteral s))
  (Htext : forall n, P (ShapeText n))
  (Hchoice : forall l r, P l -> P r -> P (ShapeChoice l r))
  (Harr : forall n c, P c -> P (ShapeArray n c))
  (Hfix : forall cs, Forall P cs -> P (ShapeFixedArray cs))
  (Hobj : forall fs, Forall (fun f => P (snd f)) fs -> P (ShapeObject fs)).

Fixpoint shape_nested_ind (sh : Shape) : P sh :=
  match sh with
  | ShapeNull => Hnull | ShapeBool b => Hbool b | ShapeU63 => Hu63 | ShapeU32 => Hu32
  | ShapeReturn => Hret | ShapeDigits n => Hdig n | ShapeU64 n => Hu64 n
  | ShapeLiteral s => Hlit s | ShapeText n => Htext n
  | ShapeChoice l r => Hchoice l r (shape_nested_ind l) (shape_nested_ind r)
  | ShapeArray n c => Harr n c (shape_nested_ind c)
  | ShapeFixedArray cs => Hfix cs
      ((fix all cs : Forall P cs := match cs with
        | [] => Forall_nil_2 _
        | c :: cs => Forall_cons_2 _ _ _ (shape_nested_ind c) (all cs) end) cs)
  | ShapeObject fs => Hobj fs
      ((fix all fs : Forall (fun f => P (snd f)) fs := match fs with
        | [] => Forall_nil_2 _
        | f :: fs => Forall_cons_2 _ _ _ (shape_nested_ind (snd f)) (all fs) end) fs)
  end.
End ShapeInd.

Lemma collect_ok {A B} (f : A -> max_result B) l : forall acc r,
  try_fold (fun ms a => let? m := f a in Ok (ms ++ [m])) acc l = Ok r ->
  exists ms, r = acc ++ ms /\ Forall2 (fun a m => f a = Ok m) l ms.
Proof.
  induction l as [|a l IH]; intros acc r; cbn.
  - intros [= <-]. exists []. by rewrite app_nil_r.
  - destruct (f a) as [m|] eqn:E; cbn; [|done]. intros H.
    apply IH in H as (ms & -> & Hms). exists (m :: ms). rewrite <- app_assoc. by split; [|constructor].
Qed.

Lemma shape_ok_list cs : foldr (fun c P => shape_ok c /\ P) True cs <-> Forall shape_ok cs.
Proof. induction cs as [|c cs IH]; cbn; [by split|]. by rewrite IH, Forall_cons. Qed.

Lemma shape_ok_fields (fs : list (bytes * Shape)) :
  foldr (fun f P => shape_ok (snd f) /\ P) True fs <-> Forall (fun f => shape_ok (snd f)) fs.
Proof. induction fs as [|c cs IH]; cbn; [by split|]. by rewrite IH, Forall_cons. Qed.

(** *** Every inhabitant is covered *)

Lemma u63_covers n : (0 <= n <= i64_max)%Z -> covers max_u63_v1 (Number (Unsigned n)).
Proof.
  intros Hn. apply scalar_covers; try done. apply (numeral_length n i64_max); [done|].
  reflexivity.
Qed.

Lemma u32_covers n : (0 <= n <= u32_max)%Z -> covers max_u32_v1 (Number (Unsigned n)).
Proof.
  intros Hn. apply scalar_covers; try done. apply (numeral_length n u32_max); [done|].
  reflexivity.
Qed.

Lemma return_covers n : (-1 <= n <= 1)%Z -> covers terminal_return_i8_v1 (Number (Signed n)).
Proof.
  intros Hn. apply scalar_covers; try done.
  assert (n = -1 \/ n = 0 \/ n = 1)%Z as [->|[->| ->]] by lia; vm_compute; discriminate.
Qed.

Lemma pow_digits_length k :
  (1 <= k <= 19)%Z -> Z.of_nat (length (u64_to_string (10 ^ k - 1))) = k.
Proof.
  intros Hk.
  assert (forallb (fun k => Z.eqb (Z.of_nat (length (u64_to_string (10 ^ Z.of_nat k - 1))))
                                  (Z.of_nat k)) (seq 1 19) = true) as A
    by (vm_compute; reflexivity).
  rewrite forallb_forall in A. specialize (A (Z.to_nat k)).
  rewrite Z2Nat.id in A by lia. apply Z.eqb_eq, A. apply in_seq. lia.
Qed.

Lemma digits_ok k m :
  exact_unsigned_decimal_digits_v1 k = Ok m -> m = scalar_v1 k /\ (1 <= k <= 19)%Z.
Proof.
  unfold exact_unsigned_decimal_digits_v1. destruct (_ && _)%bool eqn:E; [|done].
  intros [= <-]. by bool_to_prop.
Qed.

Lemma text_ok n m :
  (0 <= n)%Z -> fixed_ascii_string_bytes_v1 n = Ok m ->
  m = MkMax (n + 2) 0 0 n /\ (n <= CANONICAL_JSON_MAX_STRING_BYTES_V1)%Z.
Proof.
  unfold fixed_ascii_string_bytes_v1. destruct (_ <? n)%Z eqn:E; [done|]. intros Hn H.
  open_checked H. bool_to_prop. by subst.
Qed.

Lemma literal_covers s m : fixed_ascii_string_v1 s = Ok m -> max_ok m /\ covers m (String s).
Proof.
  intros H. apply fixed_ascii_string_spec in H as [-> _].
  split; [split; cbn; unfold byte_len; lia|]. split; cbn; unfold byte_len; lia.
Qed.

Lemma text_covers n m s :
  (0 <= n)%Z -> fixed_ascii_string_bytes_v1 n = Ok m -> (byte_len s <= n)%Z ->
  Forall plain s -> covers m (String s).
Proof.
  intros Hn H Hl Hp. apply text_ok in H as [-> _]; [|done].
  split; cbn [render depth object_keys string_bytes token_bytes closed_depth max_object_keys
              max_string_bytes]; try lia.
  - rewrite render_string_length, plain_escape by done. lia.
  - exact Hl.
Qed.

Definition shape_sound (sh : Shape) : Prop := forall m,
  shape_ok sh -> shape_max sh = Ok m -> max_ok m /\ forall v, inhabits sh v -> covers m v.

Lemma fields_collect fs : forall acc r,
  try_fold (fun ms '(k, c) => let? m := shape_max c in Ok (ms ++ [(k, m)])) acc fs = Ok r ->
  exists ms, r = acc ++ ms /\
    Forall2 (fun (f : bytes * Shape) (m : bytes * CanonicalJsonClosedMaxV1) =>
      fst f = fst m /\ shape_max (snd f) = Ok (snd m)) fs ms.
Proof.
  induction fs as [|[k c] fs IH]; intros acc r; cbn.
  - intros [= <-]. exists []. by rewrite app_nil_r.
  - destruct (shape_max c) as [m|] eqn:E; cbn; [|done]. intros H.
    apply IH in H as (ms & -> & Hms). exists ((k, m) :: ms). rewrite <- app_assoc.
    by split; [|constructor].
Qed.

Lemma fixed_shape_sound cs : Forall shape_sound cs -> shape_sound (ShapeFixedArray cs).
Proof.
  intros IH m Hok H. cbn in H, Hok. apply shape_ok_list in Hok.
  apply result_bind_ok in H as (r & Hc & H). apply collect_ok in Hc as (ms & -> & Hms).
  cbn [app] in H.
  assert (Forall2 (fun c m => max_ok m /\ forall v, inhabits c v -> covers m v) cs ms) as Hs.
  { clear H. induction Hms as [|c m' cs ms Hm _ IHl]; constructor.
    - apply Forall_cons in IH as [IH _]. apply Forall_cons in Hok as [Hc _]. by apply IH.
    - apply Forall_cons in IH as [_ IH]. apply Forall_cons in Hok as [_ Hc]. by apply IHl. }
  apply fixed_array_v1_covers in H as [Hm Hv].
  - split; [done|]. intros v Hi. inversion Hi as [| | | | | | | | | | | |? vs Hvs|]; subst.
    apply Hv. clear -Hs Hvs. revert ms Hs.
    induction Hvs as [|c v cs vs Hc _ IHl]; intros ms Hs;
      inversion_clear Hs as [|? m ? ms' [_ Hi]]; constructor.
    + by apply Hi.
    + by apply IHl.
  - clear -Hs. induction Hs as [|c m cs ms [? _] _ IHl]; by constructor.
Qed.

Lemma object_shape_sound fs :
  Forall (fun f => shape_sound (snd f)) fs -> shape_sound (ShapeObject fs).
Proof.
  intros IH m Hok H. cbn in H, Hok. apply shape_ok_fields in Hok.
  apply result_bind_ok in H as (r & Hc & H). apply fields_collect in Hc as (ms & -> & Hms).
  cbn [app] in H.
  assert (Forall2 (fun (f : bytes * Shape) (m : bytes * CanonicalJsonClosedMaxV1) =>
            fst f = fst m /\ max_ok (snd m) /\
            forall v, inhabits (snd f) v -> covers (snd m) v) fs ms) as Hs.
  { clear H. induction Hms as [|f m' fs ms [Hk Hm] _ IHl]; constructor.
    - apply Forall_cons in IH as [IH _]. apply Forall_cons in Hok as [Hc _].
      split; [done|]. by apply IH.
    - apply Forall_cons in IH as [_ IH]. apply Forall_cons in Hok as [_ Hc]. by apply IHl. }
  apply object_v1_covers in H as [Hm Hv].
  - split; [done|]. intros v Hi. inversion Hi as [| | | | | | | | | | | | |? es Hes]; subst.
    apply Hv. clear -Hs Hes. revert ms Hs.
    induction Hes as [|f e fs es [Hk Hc] _ IHl]; intros ms Hs;
      inversion_clear Hs as [|? m ? ms' (Hk' & _ & Hi)]; constructor.
    + split; [congruence|]. by apply Hi.
    + by apply IHl.
  - clear -Hs. induction Hs as [|f m fs ms (_ & ? & _) _ IHl]; by constructor.
Qed.

Lemma shape_sound_all sh : shape_sound sh.
Proof.
  induction sh as [|b| | | |k|n|s|n|l r IHl IHr|n c IH|cs IH|fs IH] using shape_nested_ind;
    try (intros m Hok H; cbn in H, Hok;
         first [injection H as <-; split; [split; cbn; done || lia|intros v Hi; inversion Hi; subst]
               | idtac]).
  - by apply scalar_covers.
  - apply scalar_covers; try done. by destruct b.
  - by apply u63_covers.
  - by apply u32_covers.
  - by apply return_covers.
  - apply digits_ok in H as [-> Hk]. split; [split; cbn; lia|].
    intros v Hi. inversion Hi; subst. apply scalar_covers; try done.
    apply (numeral_length _ (10 ^ k - 1)); [lia|]. by apply pow_digits_length.
  - apply scalar_covers; try done.
    change (count_digits 20 n 1) with (token_bytes (exact_u64_v1 n)).
    rewrite exact_u64_length by done. by apply (numeral_length _ n).
  - apply literal_covers in H as [? ?]. split; [done|]. intros v Hi. by inversion Hi; subst.
  - pose proof H as H'. apply text_ok in H' as [E _]; [|lia].
    split; [subst m; split; cbn; lia|]. intros v Hi. inversion Hi; subst.
    by apply (text_covers n); try lia.
  - destruct Hok as [Hl Hr]. apply result_bind_ok in H as (ml & El & H).
    apply result_bind_ok in H as (mr & Er & H).
    destruct (IHl _ Hl El) as [Ol Cl]. destruct (IHr _ Hr Er) as [Or Cr].
    apply choice_v1_covers in H as [? Hv]; [|done]. split; [done|].
    intros v Hi. inversion Hi; subst; apply Hv; auto.
  - destruct Hok as [Hn Hc]. apply result_bind_ok in H as (mc & Ec & H).
    destruct (IH _ Hc Ec) as [Oc Cc]. apply array_v1_covers in H as [? Hv]; [|lia|done].
    split; [done|]. intros v Hi. inversion Hi as [| | | | | | | | | | |? ? vs Hl Hvs| |]; subst.
    apply Hv; [done|]. eapply Forall_impl; [exact Hvs|]. exact Cc.
  - by apply fixed_shape_sound.
  - by apply object_shape_sound.
Qed.

(** *** Some inhabitant attains the bound *)

Definition attained (sh : Shape) : Prop := forall m,
  shape_ok sh -> shape_max sh = Ok m ->
  exists v, inhabits sh v /\ byte_len (render v) = token_bytes m.

Definition exact (c : CanonicalJsonClosedMaxV1) (v : CanonicalJsonValueV1) : Prop :=
  byte_len (render v) = token_bytes c.

Lemma fixed_array_fold_exact cs vs :
  Forall2 exact cs vs -> forall i m0 i' m,
  try_fold fixed_array_step (i, m0) cs = Ok (i', m) ->
  token_bytes m = (token_bytes m0 + byte_len (entries i (map render vs)))%Z.
Proof.
  induction 1 as [|c v cs vs Hc _ IH]; intros i m0 i' m H; cbn in H.
  - injection H as _ <-. unfold entries, byte_len. destruct (i =? 0)%nat; cbn; lia.
  - apply result_bind_ok in H as (r & E & H). apply fixed_array_step_ok in E as ->.
    apply IH in H as ->. cbn [token_bytes map]. rewrite entries_cons. unfold exact in Hc. lia.
Qed.

Lemma object_fold_exact fs es :
  Forall2 (fun f e => fst f = fst e /\ exact (snd f) (snd e)) fs es -> forall prev i m0 r m,
  try_fold object_step (prev, i, m0) fs = Ok (r, m) ->
  token_bytes m = (token_bytes m0 + byte_len (entries i (map render_field es)))%Z.
Proof.
  induction 1 as [|[k c] [k' v] fs es [Hk Hc] _ IH]; intros prev i m0 r m H; cbn in H.
  - injection H as _ <-. unfold entries, byte_len. destruct (i =? 0)%nat; cbn; lia.
  - cbn in Hk, Hc. subst k'.
    apply result_bind_ok in H as (s & E & H). apply object_step_ok in E as (-> & _ & _).
    apply IH in H as ->. cbn [token_bytes map]. rewrite entries_cons. unfold exact in Hc.
    assert (byte_len (render_field (k, v)) =
      byte_len (render_string k) + 1 + byte_len (render v))%Z as ->
      by (unfold byte_len, render_field; cbn [fst snd]; rewrite length_app; cbn [length]; lia).
    lia.
Qed.

Lemma fixed_array_v1_exact cs m vs :
  fixed_array_v1 cs = Ok m -> Forall2 exact cs vs -> exact m (Array vs).
Proof.
  intros H Hvs. unfold fixed_array_v1 in H.
  apply result_bind_ok in H as ([i m1] & Hf & H).
  apply result_bind_ok in H as (d & _ & H). apply validate_composed_ok in H as [-> _].
  unfold exact. cbn [render token_bytes]. rewrite bracket_length.
  by rewrite (fixed_array_fold_exact _ _ Hvs _ _ _ _ Hf).
Qed.

Lemma object_v1_exact fs m es :
  object_v1 fs = Ok m ->
  Forall2 (fun f e => fst f = fst e /\ exact (snd f) (snd e)) fs es -> exact m (Object es).
Proof.
  intros H Hes. unfold object_v1 in H. destruct (_ <? length fs)%nat; [done|].
  apply result_bind_ok in H as ([[prev i] m1] & Hf & H).
  apply result_bind_ok in H as (d & _ & H). apply validate_composed_ok in H as [-> _].
  unfold exact. cbn [render token_bytes]. fold render_field. rewrite bracket_length.
  by rewrite (object_fold_exact _ _ Hes _ _ _ _ _ Hf).
Qed.

Lemma replicate_tail_length k r :
  byte_len (tail_join (replicate k r)) = (Z.of_nat k * (byte_len r + 1))%Z.
Proof.
  induction k as [|k IH]; [done|]. cbn [replicate].
  rewrite tail_join_cons_length, IH. lia.
Qed.

Lemma array_v1_exact n c m v :
  (0 <= n)%Z -> array_v1 n c = Ok m -> exact c v ->
  exact m (Array (replicate (Z.to_nat n) v)).
Proof.
  intros Hn H Hv. unfold array_v1 in H.
  apply result_bind_ok in H as (contents & Hcon & H).
  apply result_bind_ok in H as (d & _ & H).
  apply result_bind_ok in H as (t & Ht & H).
  apply checked_add_ok in Ht as [-> _]. apply validate_composed_ok in H as [-> _].
  unfold exact in *. cbn [render token_bytes]. rewrite bracket_length.
  change (map render) with (fmap (M := list) render). rewrite fmap_replicate.
  destruct (n =? 0)%Z eqn:Z0; bool_to_prop.
  - injection Hcon as <-. by subst n.
  - apply result_bind_ok in Hcon as (q & Hq & Hcon).
    apply checked_mul_ok in Hq as [-> _]. apply checked_add_ok in Hcon as [-> _].
    replace (Z.to_nat n) with (S (Z.to_nat (n - 1))) by lia. cbn [replicate].
    rewrite join_length, replicate_tail_length. rewrite Z2Nat.id by lia. rewrite Hv. lia.
Qed.

Lemma fixed_attained cs : Forall attained cs -> attained (ShapeFixedArray cs).
Proof.
  intros IH m Hok H. cbn in H, Hok. apply shape_ok_list in Hok.
  apply result_bind_ok in H as (r & Hc & H). apply collect_ok in Hc as (ms & -> & Hms).
  cbn [app] in H.
  assert (exists vs, Forall2 inhabits cs vs /\ Forall2 exact ms vs) as (vs & Hi & He).
  { clear H. induction Hms as [|c m' cs ms Hm _ IHl]; [by exists []; split|].
    apply Forall_cons in IH as [IHc IH]. apply Forall_cons in Hok as [Hc Hok].
    destruct (IHc _ Hc Hm) as (v & Hv & Ev). destruct (IHl IH Hok) as (vs & Hi & He).
    exists (v :: vs). by split; constructor. }
  exists (Array vs). split; [by constructor|]. by eapply fixed_array_v1_exact.
Qed.

Lemma object_attained fs :
  Forall (fun f => attained (snd f)) fs -> attained (ShapeObject fs).
Proof.
  intros IH m Hok H. cbn in H, Hok. apply shape_ok_fields in Hok.
  apply result_bind_ok in H as (r & Hc & H). apply fields_collect in Hc as (ms & -> & Hms).
  cbn [app] in H.
  assert (exists es : list (bytes * CanonicalJsonValueV1),
    Forall2 (fun f e => fst f = fst e /\ inhabits (snd f) (snd e)) fs es /\
    Forall2 (fun f e => fst f = fst e /\ exact (snd f) (snd e)) ms es) as (es & Hi & He).
  { clear H. induction Hms as [|f m' fs ms [Hk Hm] _ IHl]; [by exists []; split|].
    apply Forall_cons in IH as [IHc IH]. apply Forall_cons in Hok as [Hc Hok].
    destruct (IHc _ Hc Hm) as (v & Hv & Ev). destruct (IHl IH Hok) as (es & Hi & He).
    exists ((fst f, v) :: es). by split; constructor. }
  exists (Object es). split; [by constructor|]. by eapply object_v1_exact.
Qed.

Lemma attained_all sh : attained sh.
Proof.
  induction sh as [|b| | | |k|n|s|n|l r IHl IHr|n c IH|cs IH|fs IH] using shape_nested_ind;
    try (intros m Hok H; cbn in H, Hok; try injection H as <-).
  - exists Null. by split; [constructor|].
  - exists (Bool b). split; [constructor|]. by destruct b.
  - exists (Number (Unsigned i64_max)). split; [constructor; vm_compute; intuition discriminate|].
    by vm_compute.
  - exists (Number (Unsigned u32_max)). split; [constructor; vm_compute; intuition discriminate|].
    by vm_compute.
  - exists (Number (Signed (-1))). split; [constructor; lia|]. by vm_compute.
  - apply digits_ok in H as [-> Hk]. exists (Number (Unsigned (10 ^ k - 1))).
    split; [constructor; pose proof (Z.pow_pos_nonneg 10 k); lia|].
    by apply pow_digits_length.
  - exists (Number (Unsigned n)). split; [constructor; lia|]. symmetry.
    by apply exact_u64_length.
  - apply fixed_ascii_string_spec in H as [-> _]. exists (String s). by split; [constructor|].
  - apply text_ok in H as [-> _]; [|lia]. exists (String (replicate (Z.to_nat n) 97%Z)).
    assert (Forall plain (replicate (Z.to_nat n) 97%Z)) as Hp by by apply Forall_replicate.
    assert (byte_len (replicate (Z.to_nat n) 97%Z) = n) as Hl
      by (unfold byte_len; rewrite length_replicate; lia).
    split; [constructor; [by rewrite Hl|done]|].
    cbn [render token_bytes]. rewrite render_string_length, plain_escape, Hl by done. lia.
  - destruct Hok as [Hl Hr]. apply result_bind_ok in H as (ml & El & H).
    apply result_bind_ok in H as (mr & Er & H). apply validate_composed_ok in H as [-> _].
    destruct (IHl _ Hl El) as (vl & Il & Tl). destruct (IHr _ Hr Er) as (vr & Ir & Tr).
    cbn [token_bytes]. destruct (Z.max_spec (token_bytes ml) (token_bytes mr)) as [[_ ->]|[_ ->]].
    + exists vr. split; [by apply in_right|done].
    + exists vl. split; [by apply in_left|done].
  - destruct Hok as [Hn Hc]. apply result_bind_ok in H as (mc & Ec & H).
    destruct (IH _ Hc Ec) as (v & Iv & Tv).
    exists (Array (replicate (Z.to_nat n) v)). split.
    + constructor; [rewrite length_replicate; lia|]. by apply Forall_replicate.
    + eapply array_v1_exact; [|exact H|exact Tv]. lia.
  - by apply fixed_attained.
  - by apply object_attained.
Qed.

Lemma document_ok m n :
  canonical_document_bytes_v1 m = Ok n ->
  n = (token_bytes m + 1)%Z /\
  (closed_depth m <= Z.of_nat CANONICAL_JSON_MAX_DEPTH_V1)%Z /\
  (max_object_keys m <= Z.of_nat CANONICAL_JSON_MAX_OBJECT_KEYS_V1)%Z /\
  (max_string_bytes m <= CANONICAL_JSON_MAX_STRING_BYTES_V1)%Z.
Proof.
  unfold canonical_document_bytes_v1. intros H. apply result_bind_ok in H as (m' & H1 & H2).
  apply validate_composed_ok in H1 as [-> ?]. apply checked_add_ok in H2 as [-> _]. done.
Qed.

Lemma document_length v : byte_len (render v ++ [LF]) = (byte_len (render v) + 1)%Z.
Proof. unfold byte_len. rewrite length_app. cbn. lia. Qed.

(* ------------------------------------------------------------------ *)
(** ** Properties *)

(** The closed-grammar bound is sound: when the combinators give a
    grammar the document bound [n], every value of the grammar encodes, with
    its final LF, in at most [n] bytes, nests at most 32 containers, and has
    no object of more than 256 keys and no string or key of more than 4096
    bytes. *)
Theorem closed_max_bounds_documents sh m n v :
  shape_ok sh -> shape_max sh = Ok m -> canonical_document_bytes_v1 m = Ok n ->
  inhabits sh v ->
  (byte_len (render v ++ [LF]) <= n)%Z /\ depth v <= CANONICAL_JSON_MAX_DEPTH_V1 /\
  object_keys v <= CANONICAL_JSON_MAX_OBJECT_KEYS_V1 /\
  (Z.of_nat (string_bytes v) <= CANONICAL_JSON_MAX_STRING_BYTES_V1)%Z.
Proof.
  intros Hok Hm Hn Hv. apply document_ok in Hn as (-> & ? & ? & ?).
  destruct (shape_sound_all sh m Hok Hm) as [_ Hc]. destruct (Hc v Hv) as [? ? ? ?].
  rewrite document_length. split_and!; lia.
Qed.

(** The bound is attained: some value of the grammar encodes in exactly
    the number of bytes the combinators compute, so the preflight never
    overestimates a record. *)
Theorem closed_max_attained sh m n :
  shape_ok sh -> shape_max sh = Ok m -> canonical_document_bytes_v1 m = Ok n ->
  exists v, inhabits sh v /\ byte_len (render v ++ [LF]) = n.
Proof.
  intros Hok Hm Hn. apply document_ok in Hn as (-> & _).
  destruct (attained_all sh m Hok Hm) as (v & Hv & E). exists v.
  rewrite document_length, E. done.
Qed.

(** *** Witnesses *)

Definition sample_shape : Shape :=
  ShapeObject [([97%Z], ShapeArray 3 (ShapeU64 255)); ([98%Z], ShapeChoice ShapeNull (ShapeText 5))].
Definition sample_value : CanonicalJsonValueV1 :=
  Object [([97%Z], Array [Number (Unsigned 7)]); ([98%Z], Null)].

Lemma sample_inhabits : inhabits sample_shape sample_value.
Proof.
  apply in_object. repeat (apply Forall2_cons; split); [split; [done|]|split; [done|]|].
  - apply in_array; [cbn; lia|]. repeat constructor; lia.
  - apply in_left. constructor.
  - constructor.
Qed.

Lemma closed_max_bounds_documents_witness :
  (byte_len (render sample_value ++ [LF]) <= 32)%Z.
Proof.
  destruct (shape_max sample_shape) as [m|] eqn:E; [|vm_compute in E; discriminate E].
  apply (closed_max_bounds_documents sample_shape m 32 sample_value).
  - cbn. unfold u64_max. repeat split; lia.
  - exact E.
  - vm_compute in E. injection E as <-. reflexivity.
  - exact sample_inhabits.
Defined.

Lemma closed_max_attained_witness :
  exists v, inhabits sample_shape v /\ byte_len (render v ++ [LF]) = 32%Z.
Proof.
  destruct (shape_max sample_shape) as [m|] eqn:E; [|vm_compute in E; discriminate E].
  apply (closed_max_attained sample_shape m 32).
  - cbn. unfold u64_max. repeat split; lia.
  - exact E.
  - vm_compute in E. injection E as <-. reflexivity.
Defined.
