(* ===== verification/CombatDamage.v ===== *)
(** * Combat damage assignment (src/mtg-kernel/src/combat_damage_v1.rs and the
      attack recipient of src/mtg-kernel/src/attack_target_v1.rs)

    A damage wave is built from the combat, divided creature by creature
    through binary range answers, and committed in one batch. [Board] is what
    this module reads of [GameState]; the continuous-effect queries it asks the
    engine for are the fields of [Queries], and the engine's commit of the
    finished batch is the parameter [commit_combat_damage_events]. *)

From S2P Require Import Prelude Ids.

Inductive Target :=
  | TObject (id : ObjectId)
  | TPlayer (p : PlayerId)
  | TStackItem (id : StackItemId).
#[export] Instance Target_eq_dec : EqDecision Target.
Proof. solve_decision. Defined.

Record ObjectLinkV4 := MkLink { object : ObjectId; zone_change_count : Z }.
#[export] Instance ObjectLink_eq_dec : EqDecision ObjectLinkV4.
Proof. solve_decision. Defined.

Inductive DamagePhaseV1 := BeforeDamage | FirstStrike | Normal.
#[export] Instance DamagePhase_eq_dec : EqDecision DamagePhaseV1.
Proof. solve_decision. Defined.

Record DamageRecipientV1 := MkRecipient {
  target : Target;
  incarnation : option ObjectLinkV4;
  lethal : Z;
}.

Record CreatureDamageV1 := MkCreature {
  source : ObjectLinkV4;
  controller : PlayerId;
  power : Z;
  recipients : list DamageRecipientV1;
  trample : bool;
  amounts : list Z;
}.

Record DamageRangeV1 := MkRange { minimum : Z; maximum : Z }.

Record PendingDamageV1 := MkPending {
  creatures : list CreatureDamageV1;
  creature_index : nat;
  range : option DamageRangeV1;
}.

Record FoundationsCombatV1 := MkFoundations {
  phase : DamagePhaseV1;
  first_strikers : list ObjectLinkV4;
  pending : option PendingDamageV1;
}.
Definition default_foundations : FoundationsCombatV1 := MkFoundations BeforeDamage [] None.

(** ** What the module reads of the game state *)

Record ObjectView := MkView {
  on_battlefield : bool;
  view_zone_changes : Z;
  obj_controller : PlayerId;
  marked_damage : Z;
}.
Definition absent_object : ObjectView := MkView false 0 PlayerIds.P0 0.

Record Board := MkBoard {
  objects : Arena.t ObjectView;
  attackers : list ObjectId;
  blocked_by : list (ObjectId * list ObjectId);
  attackers_declared : bool;
  blockers_declared : bool;
  planeswalker_attacks : list (ObjectId * ObjectLinkV4);
  at_combat_damage : bool;
  stack_empty : bool;
}.

Inductive Keyword := KwFirstStrike | KwDoubleStrike | KwTrample | KwDeathtouch.

(** The engine's queries on the current continuous effects. *)
Record Queries := MkQueries {
  effective_power : Board -> ObjectId -> Z;
  effective_toughness : Board -> ObjectId -> Z;
  has_effective_keyword : Board -> ObjectId -> Keyword -> bool;
  assigns_no_combat_damage : Board -> ObjectId -> bool;
}.

(** [state.objects.get(id)]: an id outside the arena panics; every id the
    module reads comes from the combat or a link it recorded. *)
Definition get (b : Board) (id : ObjectId) : ObjectView :=
  default absent_object (Arena.try_get (objects b) id).

Definition link (b : Board) (id : ObjectId) : ObjectLinkV4 :=
  MkLink id (view_zone_changes (get b id)).

Definition live (b : Board) (reference : ObjectLinkV4) : bool :=
  match Arena.try_get (objects b) (object reference) with
  | Some o => on_battlefield o && (view_zone_changes o =? zone_change_count reference)%Z
  | None => false
  end.

Definition attacked_planeswalker (b : Board) (attacker : ObjectId) : option ObjectLinkV4 :=
  match List.find (fun e => bool_decide (fst e = attacker)) (planeswalker_attacks b) with
  | Some (_, planeswalker) => Some planeswalker
  | None => None
  end.

Definition damage_recipient (b : Board) (attacker : ObjectId)
  : option (Target * option ObjectLinkV4) :=
  match attacked_planeswalker b attacker with
  | None => Some (TPlayer (opponent (obj_controller (get b attacker))), None)
  | Some planeswalker =>
      if live b planeswalker
      then Some (TObject (object planeswalker), Some planeswalker) else None
  end.

(** ** Building a wave *)

Section Wave.
Context (q : Queries).

Definition assigned_power (b : Board) (creature : ObjectId) : Z :=
  if assigns_no_combat_damage q b creature then 0%Z
  else Z.max (effective_power q b creature) 0.

Definition participates (b : Board) (src : ObjectLinkV4) (ph : DamagePhaseV1)
    (first : list ObjectLinkV4) : bool :=
  if negb (live b src) then false
  else
    match ph with
    | FirstStrike => bool_decide (src ∈ first)
    | Normal =>
        negb (bool_decide (src ∈ first)) ||
        has_effective_keyword q b (object src) KwDoubleStrike
    | BeforeDamage => false
    end.

Definition remaining_toughness (b : Board) (blocker : ObjectId) : Z :=
  Z.max (effective_toughness q b blocker - marked_damage (get b blocker)) 0.

Definition blocker_recipient (b : Board) (attacker blocker : ObjectId)
  : DamageRecipientV1 :=
  let toughness := remaining_toughness b blocker in
  let lethal :=
    if has_effective_keyword q b attacker KwDeathtouch then Z.min toughness 1 else toughness in
  MkRecipient (TObject blocker) (Some (link b blocker)) lethal.

Definition excess_recipients (excess : option (Target * option ObjectLinkV4))
  : list DamageRecipientV1 :=
  match excess with
  | Some (target, incarnation) => [MkRecipient target incarnation 0]
  | None => []
  end.

Definition attacker_recipients (b : Board) (attacker : ObjectId) (trample : bool)
    (excess : option (Target * option ObjectLinkV4)) : list DamageRecipientV1 :=
  match List.find (fun e => bool_decide (fst e = attacker)) (blocked_by b) with
  | Some (_, blockers) =>
      map (blocker_recipient b attacker) (filter (fun id => live b (link b id) = true) blockers)
      ++ (if trample then excess_recipients excess else [])
  | None => excess_recipients excess
  end.

(** The body of the first loop: the attacker's share, if it has one. *)
Definition attacker_damage (b : Board) (ph : DamagePhaseV1) (first : list ObjectLinkV4)
    (attacker : ObjectId) : list CreatureDamageV1 :=
  let src := link b attacker in
  if negb (participates b src ph first) then []
  else
    let pw := assigned_power b attacker in
    if (pw =? 0)%Z then []
    else
      let excess := damage_recipient b attacker in
      let tr := has_effective_keyword q b attacker KwTrample && bool_decide (is_Some excess) in
      match attacker_recipients b attacker tr excess with
      | [] => []
      | rs => [MkCreature src (obj_controller (get b attacker)) pw rs tr []]
      end.

(** The body of the second loop. *)
Definition blocker_damage (b : Board) (ph : DamagePhaseV1) (first : list ObjectLinkV4)
    (recipient : ObjectLinkV4) (blocker : ObjectId) : list CreatureDamageV1 :=
  let src := link b blocker in
  if negb (participates b src ph first) then []
  else
    let pw := assigned_power b blocker in
    if (pw =? 0)%Z then []
    else
      [MkCreature src (obj_controller (get b blocker)) pw
         [MkRecipient (TObject (object recipient)) (Some recipient) 0] false []].

Definition blockers_damage (b : Board) (ph : DamagePhaseV1) (first : list ObjectLinkV4)
    (e : ObjectId * list ObjectId) : list CreatureDamageV1 :=
  let recipient := link b (fst e) in
  if negb (live b recipient) then []
  else concat (map (blocker_damage b ph first recipient) (snd e)).

Definition build_wave (b : Board) (ph : DamagePhaseV1) (first : list ObjectLinkV4)
  : PendingDamageV1 :=
  MkPending
    (concat (map (attacker_damage b ph first) (attackers b)) ++
     concat (map (blockers_damage b ph first) (blocked_by b)))
    0 None.

(** ** Division *)

Inductive CombatError :=
  | NegativeAssignment | AssignmentOverflow | ExceedsPower | RecipientMissing
  | BypassesLethal | InvalidContinuation | SourceChanged | RecipientChanged
  | NoPending | IncompleteAllocation | InvalidRange | RulesDisabled | NotOffered
  | NoCurrentSource | InvalidChoiceRange | CombatHasBegun
  | OutOfFuel.

Definition add_assigned (total amount : Z) : result CombatError Z :=
  if (amount <? 0)%Z then Err NegativeAssignment
  else ok_or AssignmentOverflow (checked_i32 (total + amount)).

(** Some earlier recipient is assigned less than lethal damage. *)
Definition bypasses (c : CreatureDamageV1) : bool :=
  existsb (fun p => (fst p <? lethal (snd p))%Z) (zip (amounts c) (recipients c)).

Definition next_range (c : CreatureDamageV1) : result CombatError DamageRangeV1 :=
  let? assigned := try_fold add_assigned 0%Z (amounts c) in
  let? remaining :=
    ok_or ExceedsPower
      (match checked_i32 (power c - assigned) with
       | Some v => if (0 <=? v)%Z then Some v else None
       | None => None
       end) in
  let index := length (amounts c) in
  let? recipient := ok_or RecipientMissing (recipients c !! index) in
  if (index + 1 =? length (recipients c))%nat then
    if trample c && (0 <? remaining)%Z && bypasses c then Err BypassesLethal
    else Ok (MkRange remaining remaining)
  else
    let last_blocker := trample c && (index + 2 =? length (recipients c))%nat in
    let min :=
      if last_blocker then
        if bypasses c then remaining else Z.min (lethal recipient) remaining
      else 0%Z in
    Ok (MkRange min remaining).

Definition source_valid (b : Board) (c : CreatureDamageV1) : bool :=
  live b (source c) &&
  bool_decide (obj_controller (get b (object (source c))) = controller c) &&
  (assigned_power b (object (source c)) =? power c)%Z &&
  (length (amounts c) <=? length (recipients c))%nat &&
  negb (length (recipients c) =? 0)%nat.

Definition recipient_valid (b : Board) (r : DamageRecipientV1) : bool :=
  match incarnation r with
  | Some reference =>
      bool_decide (target r = TObject (object reference)) && live b reference
  | None => true
  end.

Definition validate_pending (b : Board) (p : PendingDamageV1) : result CombatError unit :=
  if negb (at_combat_damage b) || negb (stack_empty b) ||
     (length (creatures p) <? creature_index p)%nat
  then Err InvalidContinuation
  else
    try_fold (fun _ c =>
      if negb (source_valid b c) then Err SourceChanged
      else if forallb (recipient_valid b) (recipients c) then Ok tt
      else Err RecipientChanged) tt (creatures p).

Definition push_amount (c : CreatureDamageV1) (v : Z) : CreatureDamageV1 :=
  MkCreature (source c) (controller c) (power c) (recipients c) (trample c) (amounts c ++ [v]).

Definition wrap_i32 (z : Z) : Z := ((z + 2147483648) mod 4294967296 - 2147483648)%Z.

(** One iteration of the [while] loop: it advances, it asks, it has
    nothing left, or it fails. *)
Inductive DrainStep :=
  | Advance (p : PendingDamageV1)
  | Ask (p : PendingDamageV1) (c : CreatureDamageV1) (r : DamageRangeV1)
  | Drained.

Definition drain_step (p : PendingDamageV1) : result CombatError DrainStep :=
  match creatures p !! creature_index p with
  | None => Ok Drained
  | Some c =>
      if (length (amounts c) =? length (recipients c))%nat then
        if negb (wrap_i32 (foldr Z.add 0 (amounts c)) =? power c)%Z
        then Err IncompleteAllocation
        else Ok (Advance (MkPending (creatures p) (S (creature_index p)) (range p)))
      else
        let? allowed := next_range c in
        let r := default allowed (range p) in
        if (minimum r <? minimum allowed)%Z || (maximum allowed <? maximum r)%Z ||
           (maximum r <? minimum r)%Z
        then Err InvalidRange
        else if (minimum r =? maximum r)%Z then
          Ok (Advance (MkPending
            (<[creature_index p := push_amount c (minimum r)]> (creatures p))
            (creature_index p) None))
        else Ok (Ask (MkPending (creatures p) (creature_index p) (Some r)) c r)
  end.

(** Iterations left: every missing amount and every unfinished creature. *)
Definition creature_work (c : CreatureDamageV1) : nat :=
  S (length (recipients c) - length (amounts c)).
Definition work (p : PendingDamageV1) : nat :=
  foldr (fun c n => creature_work c + n) 0 (drop (creature_index p) (creatures p)).

Inductive DrainOutcome :=
  | Asking (p : PendingDamageV1) (c : CreatureDamageV1) (r : DamageRangeV1)
  | Complete (p : PendingDamageV1).

Fixpoint drain (fuel : nat) (p : PendingDamageV1) : result CombatError DrainOutcome :=
  match fuel with
  | O => Err OutOfFuel
  | S fuel =>
      let? s := drain_step p in
      match s with
      | Advance p => drain fuel p
      | Ask p c r => Ok (Asking p c r)
      | Drained => Ok (Complete p)
      end
  end.

(** ** The continuation in the game state *)

(** [Decision::ChooseCombatDamageRange] *)
Record Decision := MkDecision {
  player : PlayerId;
  decision_source : ObjectId;
  recipient : Target;
  range_minimum : Z;
  range_maximum : Z;
  split_at : Z;
}.

(** [ProposedEvent::damage] *)
Record DamageEvent := MkEvent { event_source : ObjectId; event_target : Target; amount : Z }.

Record CombatState := MkCombat {
  board : Board;
  foundations_v1 : option FoundationsCombatV1;
}.

Definition split_point (r : DamageRangeV1) : Z :=
  (minimum r + Z.quot (maximum r - minimum r) 2)%Z.

Definition set_pending (f : FoundationsCombatV1) (p : option PendingDamageV1)
  : FoundationsCombatV1 := MkFoundations (phase f) (first_strikers f) p.

Definition creature_events (c : CreatureDamageV1) : list DamageEvent :=
  map (fun p => MkEvent (object (source c)) (target (fst p)) (snd p))
    (filter (fun p => (0 < snd p)%Z) (zip (recipients c) (amounts c))).
Definition wave_events (p : PendingDamageV1) : list DamageEvent :=
  concat (map creature_events (creatures p)).

Definition enable_foundations_combat_v1 (st : CombatState) : result CombatError CombatState :=
  if negb (bool_decide (attackers (board st) = [])) || attackers_declared (board st) ||
     blockers_declared (board st)
  then Err CombatHasBegun
  else Ok (MkCombat (board st) (Some default_foundations)).

Definition has_pending_assignment (st : CombatState) : bool :=
  match foundations_v1 st with
  | Some f => bool_decide (is_Some (pending f))
  | None => false
  end.

Definition needs_normal_wave (st : CombatState) : bool :=
  match foundations_v1 st with
  | Some f => bool_decide (phase f = FirstStrike) && negb (bool_decide (is_Some (pending f)))
  | None => false
  end.

Definition strikes_first (b : Board) (id : ObjectId) : bool :=
  on_battlefield (get b id) &&
  (has_effective_keyword q b id KwFirstStrike || has_effective_keyword q b id KwDoubleStrike).

Definition start_first_wave (st : CombatState) : CombatState :=
  let b := board st in
  let first :=
    map (link b)
      (filter (fun id => strikes_first b id = true)
         (attackers b ++ concat (map snd (blocked_by b)))) in
  let ph := match first with [] => Normal | _ :: _ => FirstStrike end in
  MkCombat b (Some (MkFoundations ph first (Some (build_wave b ph first)))).

(** [None] is the panic of [expect("rules enabled")]. *)
Definition start_normal_wave (st : CombatState) : option CombatState :=
  match foundations_v1 st with
  | None => None
  | Some f =>
      let p := build_wave (board st) Normal (first_strikers f) in
      Some (MkCombat (board st) (Some (MkFoundations Normal (first_strikers f) (Some p))))
  end.

(** The division in progress, as shown to every player. *)
Definition creature_assignments (c : CreatureDamageV1) : list DamageEvent :=
  map (fun p => MkEvent (object (source c)) (target (snd p)) (fst p))
    (zip (amounts c) (recipients c)).
Definition public_assignment_ids_v1 (st : CombatState)
  : option (DamagePhaseV1 * list DamageEvent) :=
  match foundations_v1 st with
  | None => None
  | Some f =>
      Some (phase f,
            match pending f with
            | Some p => concat (map creature_assignments (creatures p))
            | None => []
            end)
  end.

Context (commit_combat_damage_events : Board -> list DamageEvent -> Board).

Definition decision_of (c : CreatureDamageV1) (r : DamageRangeV1)
  : result CombatError Decision :=
  match recipients c !! length (amounts c) with
  | Some to =>
      Ok (MkDecision (controller c) (object (source c)) (target to)
            (minimum r) (maximum r) (split_point r))
  | None => Err RecipientMissing
  end.

Definition drain_or_decide (st : CombatState)
  : result CombatError (option Decision * CombatState) :=
  match foundations_v1 st with
  | Some f =>
      match pending f with
      | Some p =>
          let? _ := validate_pending (board st) p in
          let? outcome := drain (S (work p)) p in
          match outcome with
          | Asking p c r =>
              let? d := decision_of c r in
              Ok (Some d, MkCombat (board st) (Some (set_pending f (Some p))))
          | Complete p =>
              Ok (None,
                  MkCombat (commit_combat_damage_events (board st) (wave_events p))
                    (Some (set_pending f None)))
          end
      | None => Err NoPending
      end
  | None => Err NoPending
  end.

Definition halves (r : DamageRangeV1) (upper_half : bool) : DamageRangeV1 :=
  if upper_half then MkRange (split_point r + 1) (maximum r)
  else MkRange (minimum r) (split_point r).

Definition answer_range (st : CombatState) (upper_half : bool)
  : result CombatError CombatState :=
  match foundations_v1 st with
  | None => Err RulesDisabled
  | Some f =>
      match pending f with
      | None => Err NoPending
      | Some p =>
          let? _ := validate_pending (board st) p in
          let? r := ok_or NotOffered (range p) in
          let? c := ok_or NoCurrentSource (creatures p !! creature_index p) in
          let? allowed := next_range c in
          if (minimum r <? minimum allowed)%Z || (maximum allowed <? maximum r)%Z ||
             (maximum r <=? minimum r)%Z
          then Err InvalidChoiceRange
          else
            Ok (MkCombat (board st)
                  (Some (set_pending f
                     (Some (MkPending (creatures p) (creature_index p)
                              (Some (halves r upper_half)))))))
      end
  end.

(** A player's answers, one per decision, until the wave is committed. *)
Fixpoint play (answers : list bool) (st : CombatState) : result CombatError CombatState :=
  let? (d, st') := drain_or_decide st in
  match d, answers with
  | None, [] => Ok st'
  | Some _, upper_half :: answers => let? st'' := answer_range st' upper_half in play answers st''
  | None, _ :: _ => Err NotOffered
  | Some _, [] => Err IncompleteAllocation
  end.
End Wave.
