(* ===== verification/CombatDamageFacts.v ===== *)
(** * Combat damage assignment: legality, progress and completeness

    [legal_allocation] is the rules' notion of a division; [partial] says
    that the amounts chosen so far can be completed to one. The range the
    code offers is shown to be exactly the completable amounts, which carries
    the wave-level results: division never gets stuck, whatever is committed is
    legal, and every legal division can be reached by binary answers. *)

From S2P Require Import Prelude Ids CombatDamage.

Definition sum_list_Z (l : list Z) : Z := foldr Z.add 0%Z l.

(** Every blocker ahead of the excess recipient has lethal damage. *)
Definition lethal_ahead (a : list Z) (rs : list DamageRecipientV1) : Prop :=
  Forall (fun p => (lethal (snd p) <= fst p)%Z) (zip a rs).

Record legal_allocation (c : CreatureDamageV1) (a : list Z) : Prop := {
  leg_length : length a = length (recipients c);
  leg_nonneg : Forall (fun x => 0 <= x)%Z a;
  leg_sum : sum_list_Z a = power c;
  leg_trample : trample c = true -> forall blockers excess,
    a = blockers ++ [excess] -> (0 < excess)%Z -> lethal_ahead blockers (recipients c);
}.

(** A creature whose damage can be divided. *)
Record divisible (c : CreatureDamageV1) : Prop := {
  div_power : (0 <= power c <= i32_max)%Z;
  div_recipients : recipients c <> [];
  div_lethal : Forall (fun r => 0 <= lethal r)%Z (recipients c);
}.

Definition partial (c : CreatureDamageV1) : Prop :=
  exists rest, legal_allocation c (amounts c ++ rest).

(* ------------------------------------------------------------------ *)
(** ** Sums *)

Lemma sum_app a b : sum_list_Z (a ++ b) = (sum_list_Z a + sum_list_Z b)%Z.
Proof. unfold sum_list_Z. induction a as [|x a IH]; cbn; [done|]. rewrite IH. lia. Qed.

Lemma sum_list_nonneg a : Forall (fun x => 0 <= x)%Z a -> (0 <= sum_list_Z a)%Z.
Proof. unfold sum_list_Z. induction 1; cbn; lia. Qed.

Lemma sum_zeros n : sum_list_Z (replicate n 0%Z) = 0%Z.
Proof. unfold sum_list_Z. induction n; cbn; lia. Qed.

Lemma zeros_nonneg n : Forall (fun x => 0 <= x)%Z (replicate n 0%Z).
Proof. induction n; constructor; [lia|done]. Qed.

(** The checked running sum of [next_range]. *)
Lemma add_assigned_ok a total :
  Forall (fun x => 0 <= x)%Z a -> (0 <= total)%Z -> (total + sum_list_Z a <= i32_max)%Z ->
  try_fold add_assigned total a = Ok (total + sum_list_Z a)%Z.
Proof.
  intros Ha. revert total. induction Ha as [|x a Hx Ha IH]; intros total Ht Hs.
  - unfold sum_list_Z; cbn. f_equal. lia.
  - pose proof (sum_list_nonneg a Ha). unfold sum_list_Z in Hs; cbn in Hs. fold (sum_list_Z a) in Hs.
    cbn [try_fold]. unfold add_assigned at 1.
    rewrite (proj2 (Z.ltb_ge _ _)) by done. unfold checked_i32, i32_min.
    assert (((-2147483648 <=? total + x) && (total + x <=? i32_max))%Z = true) as ->
      by (apply andb_true_iff; rewrite !Z.leb_le; lia).
    cbn [ok_or result_bind]. rewrite IH by lia. f_equal.
    unfold sum_list_Z; cbn. lia.
Qed.

Lemma bypasses_false c : bypasses c = false <-> lethal_ahead (amounts c) (recipients c).
Proof.
  unfold bypasses, lethal_ahead. rewrite <- not_true_iff_false, existsb_exists, Forall_forall.
  split.
  - intros H p Hp. destruct (Z.le_gt_cases (lethal (snd p)) (fst p)) as [|L]; [done|].
    destruct H. exists p. split; [by apply list_elem_of_In|]. by apply Z.ltb_lt.
  - intros H (p & Hp & L). apply list_elem_of_In in Hp. apply Z.ltb_lt in L.
    specialize (H p Hp). lia.
Qed.

(* ------------------------------------------------------------------ *)
(** ** Which divisions can be completed *)

(** The three shapes of a partial division. *)
Lemma partial_spec c :
  divisible c ->
  partial c <->
  length (amounts c) <= length (recipients c) /\
  Forall (fun x => 0 <= x)%Z (amounts c) /\ (sum_list_Z (amounts c) <= power c)%Z /\
  (length (amounts c) = length (recipients c) -> legal_allocation c (amounts c)) /\
  (trample c = true -> length (amounts c) + 1 = length (recipients c) ->
   (sum_list_Z (amounts c) < power c)%Z -> lethal_ahead (amounts c) (recipients c)).
Proof.
  intros [Hp Hr Hl]. split.
  - intros [rest [L N S T]]. rewrite length_app in L. apply Forall_app in N as [Na Nr].
    rewrite sum_app in S. pose proof (sum_list_nonneg _ Nr). split_and!; [lia|done|lia| |].
    + intros E. assert (rest = []) as -> by (apply length_zero_iff_nil; lia).
      rewrite app_nil_r in T. split; [lia|done| |done].
      rewrite <- S. unfold sum_list_Z; cbn. lia.
    + intros Tr E Lt. destruct rest as [|x [|y rest]]; cbn in L; [lia| |lia].
      apply (T Tr _ x eq_refl). unfold sum_list_Z in S at 2; cbn in S. lia.
  - intros (L & N & S & F & T).
    set (k := length (recipients c) - length (amounts c)).
    destruct (decide (k = 0)) as [E0|E0]; [exists []; rewrite app_nil_r; apply F; lia|].
    exists ((power c - sum_list_Z (amounts c))%Z :: replicate (k - 1) 0%Z). split.
    + rewrite length_app. cbn. rewrite length_replicate. lia.
    + apply Forall_app. split; [done|]. constructor; [lia|apply zeros_nonneg].
    + rewrite sum_app. unfold sum_list_Z at 2; cbn. fold (sum_list_Z (replicate (k - 1) 0%Z)).
      rewrite sum_zeros. lia.
    + intros Tr blockers x E Hx. destruct (decide (k = 1)) as [E1|E1].
      * rewrite E1 in E. cbn in E. apply app_inj_tail in E as [<- <-].
        apply T; [done|lia|lia].
      * exfalso. replace (k - 1) with ((k - 2) + 1) in E by lia.
        rewrite replicate_add in E. cbn in E. rewrite app_comm_cons, app_assoc in E.
        apply app_inj_tail in E as [_ <-]. lia.
Qed.

Lemma push_sum c v : sum_list_Z (amounts (push_amount c v)) = (sum_list_Z (amounts c) + v)%Z.
Proof. cbn. rewrite sum_app. unfold sum_list_Z; cbn. lia. Qed.

Lemma lethal_ahead_snoc a v r rs :
  rs !! length a = Some r ->
  lethal_ahead (a ++ [v]) rs <-> lethal_ahead a rs /\ (lethal r <= v)%Z.
Proof.
  revert rs. unfold lethal_ahead.
  induction a as [|x a IH]; intros [|r' rs] H; cbn in *; try done.
  - injection H as ->. rewrite !Forall_cons. cbn. split; [tauto|].
    intros [_ ?]. split; [done|constructor].
  - rewrite !Forall_cons, IH by done. tauto.
Qed.

(** Completability of one more amount, by the recipients left after it. *)
Lemma partial_push c v r :
  divisible c -> partial c -> recipients c !! length (amounts c) = Some r ->
  partial (push_amount c v) <->
  (0 <= v)%Z /\ (sum_list_Z (amounts c) + v <= power c)%Z /\
  (length (amounts c) + 1 = length (recipients c) ->
     (sum_list_Z (amounts c) + v = power c)%Z) /\
  (trample c = true -> length (amounts c) + 2 = length (recipients c) ->
     (sum_list_Z (amounts c) + v < power c)%Z ->
     lethal_ahead (amounts c) (recipients c) /\ (lethal r <= v)%Z).
Proof.
  intros Hc Hpart Hr. pose proof (lookup_lt_Some _ _ _ Hr) as Hlt.
  assert (divisible (push_amount c v)) as Hc' by by destruct Hc.
  apply partial_spec in Hpart as (L & N & S & F & T); [|done].
  rewrite (partial_spec _ Hc'), push_sum. cbn [push_amount amounts recipients power trample].
  rewrite length_app. cbn [length]. split.
  - intros (L' & N' & S' & F' & T'). apply Forall_app in N' as [_ Nv].
    split_and!; [by inversion_clear Nv|done| |].
    + intros E. pose proof (leg_sum _ _ (F' ltac:(lia))) as E'. cbn in E'.
      rewrite sum_app in E'. unfold sum_list_Z in E' at 2; cbn in E'. lia.
    + intros Tr E Lt. apply (lethal_ahead_snoc _ _ r); [done|]. apply T'; [done|lia|done].
  - intros (Hv & S' & E' & T'). split_and!.
    + lia.
    + apply Forall_app. split; [done|]. by repeat constructor.
    + done.
    + intros E. split; cbn [push_amount amounts recipients power trample].
      * rewrite length_app. cbn. lia.
      * apply Forall_app. split; [done|]. by repeat constructor.
      * rewrite sum_app. unfold sum_list_Z at 2; cbn. rewrite Z.add_0_r. apply E'. lia.
      * intros Tr b x Eq Hx. apply app_inj_tail in Eq as [<- <-].
        apply T; [done|lia|]. specialize (E' ltac:(lia)). lia.
    + intros Tr E Lt. apply (lethal_ahead_snoc _ _ r); [done|]. apply T'; [done|lia|done].
Qed.

(** The offered range is exactly the set of completable amounts. *)
Lemma next_range_spec c :
  divisible c -> partial c -> length (amounts c) < length (recipients c) ->
  exists r, next_range c = Ok r /\ (minimum r <= maximum r)%Z /\
    forall v, (minimum r <= v <= maximum r)%Z <-> partial (push_amount c v).
Proof.
  intros Hc Hpart Hlt. pose proof Hc as [Hp Hr Hl].
  destruct (recipients c !! length (amounts c)) as [r|] eqn:R;
    [|apply lookup_ge_None in R; lia].
  pose proof Hpart as Hpart'. apply partial_spec in Hpart' as (L & N & S & F & T); [|done].
  pose proof (sum_list_nonneg _ N) as S0. unfold i32_max in Hp.
  assert (0 <= lethal r)%Z as Hlr
    by (rewrite Forall_forall in Hl; apply Hl; by eapply list_elem_of_lookup_2).
  unfold next_range. rewrite add_assigned_ok by (done || (unfold i32_max; lia)).
  cbn [result_bind]. rewrite Z.add_0_l. unfold checked_i32, i32_min, i32_max.
  assert (((-2147483648 <=? power c - sum_list_Z (amounts c)) &&
           (power c - sum_list_Z (amounts c) <=? 2147483647))%Z = true) as ->
    by (apply andb_true_iff; rewrite !Z.leb_le; lia).
  rewrite (proj2 (Z.leb_le 0 _)) by lia. cbn [ok_or result_bind]. rewrite R.
  cbn [ok_or result_bind].
  setoid_rewrite (partial_push c _ r Hc Hpart R).
  destruct (Nat.eqb_spec (length (amounts c) + 1) (length (recipients c))) as [E|E].
  - assert (trample c && (0 <? power c - sum_list_Z (amounts c))%Z && bypasses c = false) as ->.
    { destruct (trample c) eqn:Tr; [|done]. cbn [andb].
      destruct (0 <? _)%Z eqn:Pos; [|done]. cbn [andb]. bool_to_prop.
      apply bypasses_false, T; [done|lia|lia]. }
    eexists. split; [done|]. cbn [minimum maximum]. split; [lia|]. intros v. split.
    + intros Hv. split_and!; [lia|lia|lia|]. intros; lia.
    + intros (? & ? & Hs & _). specialize (Hs E). lia.
  - eexists. split; [done|]. cbn [minimum maximum].
    destruct (trample c) eqn:Tr; cbn [andb].
    + destruct (Nat.eqb_spec (length (amounts c) + 2) (length (recipients c))) as [E2|E2].
      * destruct (bypasses c) eqn:B.
        -- split; [lia|]. intros v. split; [intros; split_and!; lia|].
           intros (? & ? & _ & Hs).
           assert (~ sum_list_Z (amounts c) + v < power c)%Z; [|lia].
           intros Lt. destruct (Hs eq_refl E2 Lt) as [A%bypasses_false _]. congruence.
        -- apply bypasses_false in B. split; [lia|]. intros v. split.
           ++ intros Hv. split_and!; [lia|lia|lia|]. intros _ _ Lt. split; [done|lia].
           ++ intros (? & ? & _ & Hs).
              destruct (Z.lt_ge_cases (sum_list_Z (amounts c) + v) (power c)) as [Lt|]; [|lia].
              destruct (Hs eq_refl E2 Lt). lia.
      * split; [lia|]. intros v. split; [intros; split_and!; lia|]. lia.
    + split; [lia|]. intros v. split; [intros; split_and!; (done || lia)|]. lia.
Qed.

(* ------------------------------------------------------------------ *)
(** ** Waves in progress *)

Definition complete (c : CreatureDamageV1) : Prop :=
  length (amounts c) = length (recipients c).

(** The invariant of a continuation: every division is completable, the
    creatures before the index are done, and a stored range is a non-empty
    part of the current creature's. *)
Record wave_ok (p : PendingDamageV1) : Prop := {
  ok_divisible : Forall divisible (creatures p);
  ok_partial : Forall partial (creatures p);
  ok_done : Forall complete (take (creature_index p) (creatures p));
  ok_index : creature_index p <= length (creatures p);
  ok_range : forall r, range p = Some r ->
    exists c allowed, creatures p !! creature_index p = Some c /\ ~ complete c /\
      next_range c = Ok allowed /\
      (minimum allowed <= minimum r <= maximum r)%Z /\ (maximum r <= maximum allowed)%Z;
}.

Lemma partial_complete c : divisible c -> partial c -> complete c -> legal_allocation c (amounts c).
Proof. intros Hc Hp E. apply partial_spec in Hp as (_ & _ & _ & F & _); auto. Qed.

Lemma partial_length c : partial c -> length (amounts c) <= length (recipients c).
Proof. intros [rest [L _ _ _]]. rewrite length_app in L. lia. Qed.

Lemma wrap_i32_small z : (0 <= z <= i32_max)%Z -> wrap_i32 z = z.
Proof. unfold wrap_i32, i32_max. intros. rewrite Z.mod_small by lia. lia. Qed.

(** What the loop does at a creature of a wave in progress. *)
Lemma drain_step_ok p :
  wave_ok p ->
  (creature_index p = length (creatures p) /\ drain_step p = Ok Drained) \/
  exists c, creatures p !! creature_index p = Some c /\
    ((complete c /\ range p = None /\
      drain_step p = Ok (Advance (MkPending (creatures p) (S (creature_index p)) None))) \/
     (~ complete c /\ exists allowed r,
        next_range c = Ok allowed /\ default allowed (range p) = r /\
        (minimum allowed <= minimum r <= maximum r)%Z /\ (maximum r <= maximum allowed)%Z /\
        drain_step p =
          if (minimum r =? maximum r)%Z
          then Ok (Advance (MkPending
                 (<[creature_index p := push_amount c (minimum r)]> (creatures p))
                 (creature_index p) None))
          else Ok (Ask (MkPending (creatures p) (creature_index p) (Some r)) c r))).
Proof.
  intros [HD HP HC HI HR]. unfold drain_step.
  destruct (creatures p !! creature_index p) as [c|] eqn:Hc.
  2: { left. apply lookup_ge_None in Hc. split; [lia|done]. }
  right. exists c. split; [done|].
  assert (divisible c) as Dc
    by (rewrite Forall_forall in HD; apply HD; by eapply list_elem_of_lookup_2).
  assert (partial c) as Pc
    by (rewrite Forall_forall in HP; apply HP; by eapply list_elem_of_lookup_2).
  destruct (Nat.eqb_spec (length (amounts c)) (length (recipients c))) as [E|E].
  - left. split; [done|].
    assert (range p = None) as ->.
    { destruct (range p) as [r|] eqn:R; [|done]. destruct (HR r eq_refl) as (c' & a & H & N & _).
      injection H as <-. by destruct N. }
    split; [done|]. pose proof (partial_complete c Dc Pc E) as [_ _ Hs _].
    unfold sum_list_Z in Hs. rewrite Hs, wrap_i32_small, Z.eqb_refl by apply Dc. done.
  - right. split; [done|]. pose proof (partial_length c Pc).
    destruct (next_range_spec c Dc Pc ltac:(lia)) as (allowed & Ha & Hle & _).
    rewrite Ha. cbn [result_bind]. exists allowed, (default allowed (range p)).
    assert ((minimum allowed <= minimum (default allowed (range p)) <=
             maximum (default allowed (range p)))%Z /\
            (maximum (default allowed (range p)) <= maximum allowed)%Z) as [Hr1 Hr2].
    { destruct (range p) as [r|] eqn:R; cbn; [|lia].
      destruct (HR r eq_refl) as (c' & a & H' & N & Ha' & ?). injection H' as <-.
      rewrite Ha in Ha'. injection Ha' as <-. lia. }
    split_and!; try done; try lia.
    rewrite (proj2 (Z.ltb_ge _ _)), (proj2 (Z.ltb_ge _ _)), (proj2 (Z.ltb_ge _ _)) by lia.
    cbn [orb]. destruct (_ =? _)%Z eqn:Q; [done|done].
Qed.

Lemma wave_ok_advance p c :
  wave_ok p -> creatures p !! creature_index p = Some c -> complete c ->
  wave_ok (MkPending (creatures p) (S (creature_index p)) None).
Proof.
  intros [HD HP HC HI HR] Hc E. split; cbn; try done.
  - rewrite (take_S_r _ _ c) by done. apply Forall_app. split; [done|]. by repeat constructor.
  - by apply lookup_lt_Some in Hc.
Qed.

Lemma wave_ok_push p c v :
  wave_ok p -> creatures p !! creature_index p = Some c -> partial (push_amount c v) ->
  wave_ok (MkPending (<[creature_index p := push_amount c v]> (creatures p))
             (creature_index p) None).
Proof.
  intros [HD HP HC HI HR] Hc Hp. split; cbn; try done.
  - apply Forall_insert; [done|]. rewrite Forall_forall in HD.
    destruct (HD c) as [? ? ?]; [by eapply list_elem_of_lookup_2|]. by split.
  - by apply Forall_insert.
  - by rewrite take_insert_ge by lia.
  - by rewrite length_insert.
Qed.

Lemma work_advance p c :
  creatures p !! creature_index p = Some c ->
  work (MkPending (creatures p) (S (creature_index p)) None) < work p.
Proof.
  intros Hc. unfold work; cbn. rewrite (drop_S _ c _ Hc). cbn. unfold creature_work. lia.
Qed.

Lemma work_push p c v :
  creatures p !! creature_index p = Some c -> length (amounts c) < length (recipients c) ->
  work (MkPending (<[creature_index p := push_amount c v]> (creatures p))
          (creature_index p) None) < work p.
Proof.
  intros Hc L. unfold work; cbn. pose proof (lookup_lt_Some _ _ _ Hc).
  assert (<[creature_index p := push_amount c v]> (creatures p) !! creature_index p =
    Some (push_amount c v)) as Hc' by by apply list_lookup_insert_eq.
  rewrite (drop_S _ c _ Hc), (drop_S _ _ _ Hc'), drop_insert_lt by lia. cbn. unfold creature_work. cbn. rewrite length_app. cbn. lia.
Qed.

(** Where draining ends up: at a question with room to choose, or at the
    end with every division legal. [P] is carried along forced amounts. *)
Definition asks (p : PendingDamageV1) (c : CreatureDamageV1) (r : DamageRangeV1) : Prop :=
  wave_ok p /\ creatures p !! creature_index p = Some c /\ range p = Some r /\
  (minimum r < maximum r)%Z.
Definition finished (p : PendingDamageV1) : Prop :=
  wave_ok p /\ creature_index p = length (creatures p).

Lemma wave_ok_ask p c r allowed :
  wave_ok p -> creatures p !! creature_index p = Some c -> ~ complete c ->
  next_range c = Ok allowed ->
  (minimum allowed <= minimum r <= maximum r)%Z -> (maximum r <= maximum allowed)%Z ->
  wave_ok (MkPending (creatures p) (creature_index p) (Some r)).
Proof.
  intros [HD HP HC HI HR] Hc E Ha H1 H2. split; cbn; try done.
  intros r' [= <-]. by exists c, allowed.
Qed.

Section Drain.
(** A property of continuations that finishing a creature and each forced
    or asked step preserve. *)
Context (P : PendingDamageV1 -> Prop).
Context (P_advance : forall p c, wave_ok p -> P p -> range p = None ->
           creatures p !! creature_index p = Some c -> complete c ->
           P (MkPending (creatures p) (S (creature_index p)) None)).
Context (P_forced : forall p c v allowed r, wave_ok p -> P p ->
           creatures p !! creature_index p = Some c -> next_range c = Ok allowed ->
           ~ complete c ->
           default allowed (range p) = r -> minimum r = v -> maximum r = v ->
           P (MkPending (<[creature_index p := push_amount c v]> (creatures p))
                (creature_index p) None)).
Context (P_ask : forall p c allowed r, wave_ok p -> P p ->
           creatures p !! creature_index p = Some c -> next_range c = Ok allowed ->
           ~ complete c -> default allowed (range p) = r ->
           P (MkPending (creatures p) (creature_index p) (Some r))).

Lemma drain_ok fuel : forall p,
  wave_ok p -> P p -> work p < fuel ->
  (exists p' c r, drain fuel p = Ok (Asking p' c r) /\ asks p' c r /\ P p' /\
     work p' <= work p) \/
  (exists p', drain fuel p = Ok (Complete p') /\ finished p' /\ P p').
Proof using P_advance P_forced P_ask.
  induction fuel as [|fuel IH]; intros p Hok HP Hf; [lia|]. cbn [drain].
  destruct (drain_step_ok p Hok) as [[Hi ->]|(c & Hc & [(E & R & ->)|H])]; cbn [result_bind].
  - right. by exists p.
  - pose proof (work_advance p c Hc). destruct (IH _ (wave_ok_advance p c Hok Hc E)) as
      [(p' & c' & r & ? & ? & ? & ?)|?]; [by eapply P_advance|lia| |by right].
    left. exists p', c', r. split_and!; try done. lia.
  - destruct H as (E & allowed & r & Ha & Hr & H1 & H2 & ->).
    pose proof Hok as [HD HPa _ _ _]. rewrite Forall_forall in HD, HPa.
    assert (c ∈ creatures p) as Hin by by eapply list_elem_of_lookup_2.
    assert (length (amounts c) < length (recipients c)) as Hl
      by (pose proof (partial_length c (HPa c Hin)); unfold complete in E; lia).
    destruct (minimum r =? maximum r)%Z eqn:Q; bool_to_prop; cbn [result_bind].
    + destruct (next_range_spec c (HD c Hin) (HPa c Hin) Hl) as (a' & Ha' & _ & Hv).
      rewrite Ha in Ha'. injection Ha' as <-.
      assert (partial (push_amount c (minimum r))) as Hp by (apply Hv; lia).
      pose proof (work_push p c (minimum r) Hc Hl).
      destruct (IH _ (wave_ok_push p c _ Hok Hc Hp)) as
        [(p' & c' & r' & ? & ? & ? & ?)|?]; [by eapply P_forced|lia| |by right].
      left. exists p', c', r'. split_and!; try done. lia.
    + left. exists (MkPending (creatures p) (creature_index p) (Some r)), c, r.
      split_and!; [done| | |done].
      * split_and!; [by eapply wave_ok_ask|done|done|lia].
      * by eapply P_ask.
Qed.
End Drain.

(* ------------------------------------------------------------------ *)
(** ** The wave a continuation belongs to *)

(** Division changes nothing but the amounts. *)
Definition same_creature (c c' : CreatureDamageV1) : Prop :=
  exists a, c' = MkCreature (source c) (controller c) (power c) (recipients c) (trample c) a.

Definition with_amounts (c : CreatureDamageV1) (a : list Z) : CreatureDamageV1 :=
  MkCreature (source c) (controller c) (power c) (recipients c) (trample c) a.

Lemma same_creature_refl c : same_creature c c.
Proof. exists (amounts c). by destruct c. Qed.

Lemma same_creature_push c c' v : same_creature c c' -> same_creature c (push_amount c' v).
Proof. intros [a ->]. by eexists. Qed.

Lemma same_creature_legal c c' a :
  same_creature c c' -> legal_allocation c' a <-> legal_allocation c a.
Proof. intros [x ->]. split; intros [? ? ? ?]; by split. Qed.

Lemma same_creature_with c c' : same_creature c c' -> c' = with_amounts c (amounts c').
Proof. by intros [a ->]. Qed.

Definition same_wave (cs : list CreatureDamageV1) (p : PendingDamageV1) : Prop :=
  Forall2 same_creature cs (creatures p).

Lemma same_wave_push cs p c v n r :
  same_wave cs p -> creatures p !! creature_index p = Some c ->
  same_wave cs (MkPending (<[creature_index p := push_amount c v]> (creatures p)) n r).
Proof.
  intros H Hc. unfold same_wave; cbn.
  destruct (Forall2_lookup_r _ _ _ _ _ H Hc) as (c0 & H0 & Hs).
  rewrite <- (list_insert_id cs _ _ H0). apply Forall2_insert; [done|].
  by apply same_creature_push.
Qed.

Section Valid.
Context (q : Queries) (b : Board).

Lemma source_valid_same c c' :
  same_creature c c' -> length (amounts c') <= length (recipients c') ->
  source_valid q b c = true -> source_valid q b c' = true.
Proof.
  intros [a ->] L. unfold source_valid; cbn in *. rewrite !andb_true_iff.
  intros [[[[? ?] ?] _] ?]. split_and!; try done. by apply Nat.leb_le.
Qed.

Lemma validate_creatures cs :
  try_fold (fun _ c =>
    if negb (source_valid q b c) then Err SourceChanged
    else if forallb (recipient_valid b) (recipients c) then Ok tt
    else Err RecipientChanged) tt cs = Ok tt <->
  Forall (fun c => source_valid q b c = true /\
                   forallb (recipient_valid b) (recipients c) = true) cs.
Proof.
  induction cs as [|c cs IH]; cbn; [by split|]. rewrite Forall_cons.
  destruct (source_valid q b c); cbn; [|split; [done|by intros [[? _] _]]].
  destruct (forallb _ _); cbn; [|split; [done|by intros [[_ ?] _]]].
  rewrite IH. tauto.
Qed.

Definition valid (p : PendingDamageV1) : Prop := validate_pending q b p = Ok tt.

(** A continuation stays valid while its own wave is divided. *)
Lemma valid_same p p' :
  valid p -> Forall2 same_creature (creatures p) (creatures p') -> wave_ok p' -> valid p'.
Proof.
  unfold valid, validate_pending. intros H Hs Hok.
  destruct (negb (at_combat_damage b) || negb (stack_empty b)); [done|]. cbn [orb] in *.
  destruct (_ <? _)%nat; [done|].
  rewrite (proj2 (Nat.ltb_ge _ _)) by apply Hok.
  apply validate_creatures in H. apply validate_creatures.
  pose proof (ok_partial _ Hok) as HP. clear Hok. revert H HP.
  induction Hs as [|c c' cs cs' Hc _ IH]; [done|].
  rewrite !Forall_cons. intros [[H1 H2] H] [Hp HP]. split; [|by apply IH].
  split; [apply (source_valid_same c); [done|by apply partial_length|done]|].
  by destruct Hc as [a ->].
Qed.
End Valid.

Lemma same_wave_trans cs p p' :
  same_wave cs p -> Forall2 same_creature (creatures p) (creatures p') -> same_wave cs p'.
Proof.
  intros H H'. unfold same_wave in *. revert H'. generalize (creatures p').
  induction H as [|c c1 cs cs1 Hc _ IH]; intros l H'; inversion H'; subst; constructor.
  - destruct Hc as [a ->]. match goal with H : same_creature _ _ |- _ => destruct H as [a' ->] end.
    by eexists.
  - by apply IH.
Qed.

Lemma same_wave_refl p : Forall2 same_creature (creatures p) (creatures p).
Proof. induction (creatures p); constructor; auto using same_creature_refl. Qed.

(** *** The measure of a continuation: amounts missing, then room to choose *)

Definition width (p : PendingDamageV1) : Z :=
  match range p with Some r => (maximum r - minimum r)%Z | None => i32_max end.
Definition cost (p : PendingDamageV1) : Z := (Z.of_nat (work p) * (i32_max + 1) + width p)%Z.

Lemma range_bounds c allowed :
  divisible c -> partial c -> length (amounts c) < length (recipients c) ->
  next_range c = Ok allowed ->
  (0 <= minimum allowed)%Z /\ (maximum allowed <= i32_max)%Z.
Proof.
  intros Hc Hp Hl Ha. destruct (next_range_spec c Hc Hp Hl) as (r & Ha' & Hle & Hv).
  rewrite Ha in Ha'. injection Ha' as <-.
  assert (forall v, partial (push_amount c v) -> (0 <= v <= power c)%Z) as B.
  { intros v [rest [_ N S _]]. cbn in *. rewrite <- app_assoc in *. apply Forall_app in N as [N1 N2].
    rewrite sum_app in S. pose proof (sum_list_nonneg _ N1). cbn in N2. inversion_clear N2.
    unfold sum_list_Z in S at 2; cbn in S. fold (sum_list_Z rest) in S.
    pose proof (sum_list_nonneg rest ltac:(done)). lia. }
  pose proof (div_power _ Hc).
  pose proof (B _ (proj1 (Hv (minimum allowed)) ltac:(lia))).
  pose proof (B _ (proj1 (Hv (maximum allowed)) ltac:(lia))). lia.
Qed.

Lemma current_creature p c :
  wave_ok p -> creatures p !! creature_index p = Some c -> ~ complete c ->
  divisible c /\ partial c /\ length (amounts c) < length (recipients c).
Proof.
  intros Hok Hc E.
  assert (c ∈ creatures p) as Hin by by eapply list_elem_of_lookup_2.
  pose proof (ok_divisible _ Hok) as HD. pose proof (ok_partial _ Hok) as HP.
  rewrite Forall_forall in HD, HP. pose proof (partial_length _ (HP _ Hin)).
  unfold complete in E. split_and!; auto. lia.
Qed.

Lemma width_bounds p : wave_ok p -> (0 <= width p <= i32_max)%Z.
Proof.
  intros Hok. unfold width. destruct (range p) as [r|] eqn:R; [|unfold i32_max; lia].
  destruct (ok_range _ Hok r R) as (c & a & Hc & E & Ha & H1 & H2).
  destruct (current_creature p c Hok Hc E) as (Dc & Pc & Hl).
  pose proof (range_bounds c a Dc Pc Hl Ha). lia.
Qed.

Lemma cost_smaller p p' :
  wave_ok p -> wave_ok p' -> work p' < work p -> (cost p' <= cost p)%Z.
Proof.
  intros H H' L. pose proof (width_bounds _ H). pose proof (width_bounds _ H').
  unfold cost, i32_max in *. nia.
Qed.

(* ------------------------------------------------------------------ *)
(** ** Playing a wave *)

(** [p] is on the way to the division [alloc] of its wave. *)
Record follows (alloc : list (list Z)) (p : PendingDamageV1) : Prop := {
  fol_prefix : Forall2 (fun c a => exists rest, a = amounts c ++ rest) (creatures p) alloc;
  fol_range : forall r c a v, range p = Some r -> creatures p !! creature_index p = Some c ->
    alloc !! creature_index p = Some a -> a !! length (amounts c) = Some v ->
    (minimum r <= v <= maximum r)%Z;
}.

(** The next amount of the target division is on offer. *)
Lemma follows_next alloc p c r allowed :
  wave_ok p -> Forall2 legal_allocation (creatures p) alloc -> follows alloc p ->
  creatures p !! creature_index p = Some c -> ~ complete c ->
  next_range c = Ok allowed -> default allowed (range p) = r ->
  exists a v, alloc !! creature_index p = Some a /\ a !! length (amounts c) = Some v /\
    (minimum r <= v <= maximum r)%Z /\ exists rest, a = (amounts c ++ [v]) ++ rest.
Proof.
  intros Hok Hleg [Hpre Hran] Hc E Ha Hr.
  destruct (current_creature p c Hok Hc E) as (Dc & Pc & Hl).
  destruct (Forall2_lookup_l _ _ _ _ _ Hpre Hc) as (a & Hal & [rest Ea]).
  destruct (Forall2_lookup_l _ _ _ _ _ Hleg Hc) as (a' & Hal' & L).
  rewrite Hal in Hal'. injection Hal' as <-.
  pose proof (leg_length _ _ L) as Ll. rewrite Ea, length_app in Ll.
  destruct rest as [|v rest]; [cbn in Ll; lia|].
  assert (a !! length (amounts c) = Some v) as Hv
    by (rewrite Ea, lookup_app_r, Nat.sub_diag by lia; done).
  assert (a = (amounts c ++ [v]) ++ rest) as Ea' by by rewrite <- app_assoc.
  exists a, v. split; [done|]. split; [done|]. split; [|by exists rest].
  destruct (range p) as [r0|] eqn:R; cbn in Hr; subst r.
  - by eapply Hran.
  - destruct (next_range_spec c Dc Pc Hl) as (r & Ha' & _ & Hx).
    rewrite Ha in Ha'. injection Ha' as <-. apply Hx. exists rest.
    apply (same_creature_legal c); [apply same_creature_push, same_creature_refl|].
    cbn [push_amount amounts]. by rewrite <- Ea'.
Qed.

Lemma follows_push alloc p c v a n :
  follows alloc p -> creatures p !! creature_index p = Some c ->
  alloc !! creature_index p = Some a -> (exists rest, a = (amounts c ++ [v]) ++ rest) ->
  follows alloc (MkPending (<[creature_index p := push_amount c v]> (creatures p)) n None).
Proof.
  intros [Hpre _] Hc Ha Hrest. split; cbn; [|done].
  rewrite <- (list_insert_id alloc _ _ Ha). by apply Forall2_insert.
Qed.

Lemma legal_push alloc p c v n r :
  Forall2 legal_allocation (creatures p) alloc -> creatures p !! creature_index p = Some c ->
  Forall2 legal_allocation
    (creatures (MkPending (<[creature_index p := push_amount c v]> (creatures p)) n r)) alloc.
Proof.
  intros H Hc. cbn. destruct (Forall2_lookup_l _ _ _ _ _ H Hc) as (a & Ha & [? ? ? ?]).
  rewrite <- (list_insert_id alloc _ _ Ha). apply Forall2_insert; [done|]. by split.
Qed.

(** Halving keeps a range non-empty and makes it smaller. *)
Lemma halves_bounds r up :
  (minimum r < maximum r)%Z ->
  (minimum r <= minimum (halves r up))%Z /\
  (minimum (halves r up) <= maximum (halves r up))%Z /\
  (maximum (halves r up) <= maximum r)%Z /\
  (maximum (halves r up) - minimum (halves r up) < maximum r - minimum r)%Z.
Proof.
  intros H. unfold halves, split_point. rewrite Z.quot_div_nonneg by lia.
  pose proof (Z.div_mod (maximum r - minimum r) 2 ltac:(lia)).
  pose proof (Z.mod_pos_bound (maximum r - minimum r) 2 ltac:(lia)).
  destruct up; cbn; lia.
Qed.

Lemma halves_cover r v :
  (minimum r <= v <= maximum r)%Z ->
  exists up, (minimum (halves r up) <= v <= maximum (halves r up))%Z.
Proof.
  intros H. exists (split_point r <? v)%Z. destruct (_ <? _)%Z eqn:E; bool_to_prop; cbn; lia.
Qed.

Lemma asks_halves p c r up :
  asks p c r -> wave_ok (MkPending (creatures p) (creature_index p) (Some (halves r up))).
Proof.
  intros (Hok & Hc & R & L).
  destruct (ok_range _ Hok r R) as (c' & a & Hc' & E & Ha & H1 & H2).
  rewrite Hc in Hc'. injection Hc' as <-. pose proof (halves_bounds r up L).
  eapply wave_ok_ask; [done|done|done|done| |]; lia.
Qed.

Section Play.
Context (q : Queries) (commit : Board -> list DamageEvent -> Board).
Context (b : Board) (ph : DamagePhaseV1) (fs : list ObjectLinkV4).

Definition holding (p : option PendingDamageV1) : CombatState :=
  MkCombat b (Some (MkFoundations ph fs p)).
Definition committed (cs : list CreatureDamageV1) (alloc : list (list Z)) : CombatState :=
  MkCombat (commit b (concat (map creature_events (zip_with with_amounts cs alloc))))
    (Some (MkFoundations ph fs None)).

(** What a call to [drain_or_decide] does to a continuation in progress. *)
Lemma drain_or_decide_ok (P : PendingDamageV1 -> Prop) p :
  (forall p c, wave_ok p -> P p -> range p = None ->
     creatures p !! creature_index p = Some c -> complete c ->
     P (MkPending (creatures p) (S (creature_index p)) None)) ->
  (forall p c v allowed r, wave_ok p -> P p ->
     creatures p !! creature_index p = Some c -> next_range c = Ok allowed ->
     ~ complete c -> default allowed (range p) = r -> minimum r = v -> maximum r = v ->
     P (MkPending (<[creature_index p := push_amount c v]> (creatures p))
          (creature_index p) None)) ->
  (forall p c allowed r, wave_ok p -> P p ->
     creatures p !! creature_index p = Some c -> next_range c = Ok allowed ->
     ~ complete c -> default allowed (range p) = r ->
     P (MkPending (creatures p) (creature_index p) (Some r))) ->
  wave_ok p -> valid q b p -> P p ->
  (exists p' c r d, asks p' c r /\ P p' /\ decision_of c r = Ok d /\
     Forall2 same_creature (creatures p) (creatures p') /\
     drain_or_decide q commit (holding (Some p)) = Ok (Some d, holding (Some p'))) \/
  (exists p', finished p' /\ P p' /\
     Forall2 same_creature (creatures p) (creatures p') /\
     drain_or_decide q commit (holding (Some p)) =
       Ok (None, committed (creatures p) (map amounts (creatures p')))).
Proof using Type.
  intros HA HF HQ Hok Hv HP. unfold drain_or_decide, holding. cbn [foundations_v1 pending board].
  unfold valid in Hv. rewrite Hv. cbn [result_bind].
  destruct (drain_ok (fun p' => P p' /\ same_wave (creatures p) p')) with
    (fuel := S (work p)) (p := p) as [(p' & c & r & -> & Ha & [HP' Hs] & _)|(p' & -> & Hf & HP' & Hs)];
    try lia; try done.
  - intros p0 c ? [? ?] ? ? ?. split; [by eapply HA|done].
  - intros p0 c v allowed r ? [? ?] ? ? ? ? ? ?. split; [by eapply HF|by apply same_wave_push].
  - intros p0 c allowed r ? [? ?] ? ? ? ?. split; [by eapply HQ|done].
  - split; [done|apply same_wave_refl].
  - left. exists p', c, r. cbn [result_bind]. destruct Ha as (Hok' & Hc & R & L).
    destruct (ok_range _ Hok' r R) as (c' & a & Hc' & E & _).
    rewrite Hc in Hc'. injection Hc' as <-.
    destruct (current_creature p' c Hok' Hc E) as (_ & _ & Hl).
    unfold decision_of. destruct (recipients c !! length (amounts c)) as [to|] eqn:T;
      [|apply lookup_ge_None in T; lia]. eexists. by split_and!.
  - right. exists p'. cbn [result_bind]. split_and!; try done.
    unfold committed, wave_events. do 5 f_equal.
    clear -Hs. unfold same_wave in Hs. revert Hs. generalize (creatures p), (creatures p').
    induction 1 as [|c c' cs cs' Hc _ IH]; [done|]. cbn [map zip_with].
    rewrite <- IH. by rewrite <- (same_creature_with _ _ Hc).
Qed.

Lemma answer_range_ok p c r up :
  asks p c r -> valid q b p ->
  answer_range q (holding (Some p)) up =
  Ok (holding (Some (MkPending (creatures p) (creature_index p) (Some (halves r up))))).
Proof using Type.
  intros (Hok & Hc & R & L) Hv. unfold answer_range, holding. cbn [foundations_v1 pending board].
  unfold valid in Hv. rewrite Hv. cbn [result_bind]. rewrite R, Hc. cbn [ok_or result_bind].
  destruct (ok_range _ Hok r R) as (c' & a & Hc' & E & Ha & H1 & H2).
  rewrite Hc in Hc'. injection Hc' as <-. rewrite Ha. cbn [result_bind].
  rewrite (proj2 (Z.ltb_ge _ _)), (proj2 (Z.ltb_ge _ _)), (proj2 (Z.leb_gt _ _)) by lia. done.
Qed.

Lemma committed_same cs cs' alloc :
  Forall2 same_creature cs cs' -> committed cs' alloc = committed cs alloc.
Proof using Type.
  intros H. unfold committed. do 4 f_equal. revert alloc.
  induction H as [|c c' cs cs' [a ->] _ IH]; intros [|x alloc]; try done.
  cbn [zip_with]. by rewrite IH.
Qed.

Lemma legal_same cs cs' alloc :
  Forall2 same_creature cs cs' ->
  Forall2 legal_allocation cs' alloc <-> Forall2 legal_allocation cs alloc.
Proof using Type.
  intros H. revert alloc.
  induction H as [|c c' cs cs' Hc _ IH]; intros [|x alloc];
    try (by split; inversion 1). by rewrite !Forall2_cons, IH, (same_creature_legal _ _ _ Hc).
Qed.

Lemma finished_legal p :
  finished p -> Forall2 legal_allocation (creatures p) (map amounts (creatures p)).
Proof using Type.
  intros [[HD HP HC _ _] Hi]. rewrite Hi, firstn_all in HC. clear Hi.
  revert HD HP HC. generalize (creatures p) as cs.
  induction cs as [|c cs IH]; [constructor|]. intros HD HP HC.
  apply Forall_cons in HD as [? ?], HP as [? ?], HC as [? ?].
  constructor; [by apply partial_complete|by apply IH].
Qed.

(** Whatever a sequence of answers commits is a legal division. *)
Lemma play_sound answers : forall p st',
  wave_ok p -> valid q b p -> play q commit answers (holding (Some p)) = Ok st' ->
  exists alloc, Forall2 legal_allocation (creatures p) alloc /\
    st' = committed (creatures p) alloc.
Proof using Type.
  induction answers as [|up answers IH]; intros p st' Hok Hv H; cbn [play] in H;
    destruct (drain_or_decide_ok (fun _ => True) p) as
      [(p' & c & r & d & Ha & _ & _ & Hs & E)|(p' & Hf & _ & Hs & E)]; try done;
    rewrite E in H; cbn [result_bind] in H; try done.
  - injection H as <-. exists (map amounts (creatures p')). split; [|done].
    apply (legal_same _ _ _ Hs). by apply finished_legal.
  - assert (valid q b p') as Hv' by (eapply valid_same; [done|done|apply Ha]).
    rewrite (answer_range_ok _ c r) in H by done. cbn [result_bind] in H.
    pose proof (asks_halves p' c r up Ha) as Hok'.
    assert (valid q b (MkPending (creatures p') (creature_index p') (Some (halves r up))))
      as Hv'' by (eapply valid_same; [exact Hv'|exact (same_wave_refl p')|exact Hok']).
    destruct (IH _ _ Hok' Hv'' H) as (alloc & Hl & ->).
    exists alloc. cbn [creatures] in *. split; [by apply (legal_same _ _ _ Hs)|].
    by apply committed_same.
Qed.

Lemma cost_ask p c allowed r :
  wave_ok p -> creatures p !! creature_index p = Some c -> next_range c = Ok allowed ->
  ~ complete c -> default allowed (range p) = r ->
  (cost (MkPending (creatures p) (creature_index p) (Some r)) <= cost p)%Z.
Proof using Type.
  intros Hok Hc Ha E Hr. unfold cost. change (work (MkPending _ _ (Some r))) with (work p).
  assert (width (MkPending (creatures p) (creature_index p) (Some r)) <= width p)%Z; [|lia].
  unfold width. cbn [range]. destruct (range p) as [r0|]; cbn in Hr; subst r; [lia|].
  destruct (current_creature p c Hok Hc E) as (Dc & Pc & Hl).
  pose proof (range_bounds c allowed Dc Pc Hl Ha). lia.
Qed.

Lemma follows_finished alloc p :
  finished p -> Forall2 legal_allocation (creatures p) alloc -> follows alloc p ->
  map amounts (creatures p) = alloc.
Proof using Type.
  intros [Hok Hi] Hl [Hpre _]. pose proof (ok_done _ Hok) as HC.
  rewrite Hi, firstn_all in HC. clear Hi Hok. revert Hl HC.
  induction Hpre as [|c a cs alloc [rest ->] _ IH]; [done|].
  intros [L Hl]%Forall2_cons [E HC]%Forall_cons. cbn [map].
  pose proof (leg_length _ _ L) as Ll. rewrite length_app in Ll. unfold complete in E.
  assert (rest = []) as -> by (apply length_zero_iff_nil; lia).
  rewrite app_nil_r. f_equal. by apply IH.
Qed.

Definition heading (alloc : list (list Z)) (K : Z) (p : PendingDamageV1) : Prop :=
  follows alloc p /\ Forall2 legal_allocation (creatures p) alloc /\ (cost p <= K)%Z.

Lemma heading_forced alloc K p c v allowed r :
  wave_ok p -> heading alloc K p -> creatures p !! creature_index p = Some c ->
  next_range c = Ok allowed -> ~ complete c -> default allowed (range p) = r ->
  minimum r = v -> maximum r = v ->
  heading alloc K (MkPending (<[creature_index p := push_amount c v]> (creatures p))
                     (creature_index p) None).
Proof using Type.
  intros Hok (Hf & Hl & Hk) Hc Ha E Hr Hmin Hmax.
  destruct (follows_next alloc p c r allowed Hok Hl Hf Hc E Ha Hr)
    as (a & w & Hal & Hw & Hb & rest & Erest).
  assert (w = v) as -> by lia.
  destruct (current_creature p c Hok Hc E) as (Dc & Pc & Hlt).
  split_and!; [by eapply follows_push; [| | |exists rest]|by apply legal_push|].
  pose proof (work_push p c v Hc Hlt) as Hw'.
  assert (partial (push_amount c v)) as Hp.
  { exists rest. cbn [push_amount amounts]. rewrite <- Erest.
    destruct (Forall2_lookup_l _ _ _ _ _ Hl Hc) as (a' & Ha' & L).
    rewrite Hal in Ha'. injection Ha' as <-.
    apply (same_creature_legal c); [apply same_creature_push, same_creature_refl|done]. }
  pose proof (cost_smaller p _ Hok (wave_ok_push p c v Hok Hc Hp) Hw'). lia.
Qed.

(** Every legal division is reached by some answers. *)
Lemma play_complete alloc n : forall p,
  (cost p < Z.of_nat n)%Z -> wave_ok p -> valid q b p ->
  Forall2 legal_allocation (creatures p) alloc -> follows alloc p ->
  exists answers, play q commit answers (holding (Some p)) = Ok (committed (creatures p) alloc).
Proof using Type.
  induction n as [|n IH]; intros p Hn Hok Hv Hl Hf.
  { pose proof (width_bounds p Hok). unfold cost, i32_max in *. lia. }
  destruct (drain_or_decide_ok (heading alloc (cost p)) p) as
    [(p' & c & r & d & Ha & (Hf' & Hl' & Hk) & _ & Hs & E)|
     (p' & Hfin & (Hf' & Hl' & _) & Hs & E)]; try done.
  - intros p0 c0 Hok0 (Hf0 & Hl0 & Hk0) R Hc0 E0. split_and!; [|done|].
    + split; [apply Hf0|done].
    + pose proof (cost_smaller p0 _ Hok0 (wave_ok_advance p0 c0 Hok0 Hc0 E0)
        (work_advance p0 c0 Hc0)). lia.
  - intros. by eapply heading_forced.
  - intros p0 c0 allowed r Hok0 (Hf0 & Hl0 & Hk0) Hc Ha E Hr. split_and!; [|done|].
    + split; [apply Hf0|]. cbn. intros r' c' a v [= <-] Hc' Hal Hv'.
      destruct (follows_next alloc p0 c0 r allowed Hok0 Hl0 Hf0 Hc E Ha Hr)
        as (a' & w & Hal' & Hw & Hb & _). simplify_eq. done.
    + pose proof (cost_ask p0 c0 allowed r Hok0 Hc Ha E Hr). lia.
  - assert (valid q b p') as Hv' by (eapply valid_same; [done|done|apply Ha]).
    pose proof Ha as (Hok' & Hc & R & L).
    destruct (ok_range _ Hok' r R) as (c' & al & Hc' & Ec & Har & H1 & H2).
    rewrite Hc in Hc'. injection Hc' as <-.
    destruct (follows_next alloc p' c r al Hok' Hl' Hf' Hc Ec Har ltac:(by rewrite R))
      as (a & v & Hal & Hav & Hb & _).
    destruct (halves_cover r v Hb) as [up Hup].
    pose proof (halves_bounds r up L) as (_ & _ & _ & Hw).
    destruct (IH (MkPending (creatures p') (creature_index p') (Some (halves r up))))
      as [answers Hp].
    + unfold cost in *. change (work (MkPending _ _ _)) with (work p').
      unfold width in *. cbn [range]. rewrite R in Hk. lia.
    + by eapply asks_halves.
    + eapply valid_same; [exact Hv'|exact (same_wave_refl p')|by eapply asks_halves].
    + done.
    + split; [apply Hf'|]. cbn. intros r' c' a' v' [= <-] Hc' Hal' Hv0. by simplify_eq.
    + exists (up :: answers). cbn [play]. rewrite E. cbn [result_bind].
      rewrite (answer_range_ok _ c r) by done. cbn [result_bind]. rewrite Hp.
      f_equal. by apply committed_same.
  - exists []. cbn [play]. rewrite E. cbn [result_bind].
    by rewrite (follows_finished alloc p').
Qed.
End Play.

(* ------------------------------------------------------------------ *)
(** ** A freshly built wave *)

Section Built.
Context (q : Queries) (b : Board).
Context (power_fits : forall id, (effective_power q b id <= i32_max)%Z).

(** What [build_wave] guarantees of each share. *)
Definition fresh (c : CreatureDamageV1) : Prop :=
  divisible c /\ amounts c = [] /\ source_valid q b c = true /\
  forallb (recipient_valid b) (recipients c) = true.

Lemma fresh_partial c : divisible c -> amounts c = [] -> partial c.
Proof using Type.
  intros Hc E. apply partial_spec; [done|]. pose proof (div_power _ Hc).
  pose proof (div_recipients _ Hc) as Hr. rewrite E. cbn.
  split_and!; [lia|constructor|lia| |].
  - intros L. by destruct (recipients c).
  - intros _ _ _. constructor.
Qed.

Lemma assigned_power_bounds id : (0 <= assigned_power q b id <= i32_max)%Z.
Proof using power_fits.
  unfold assigned_power. specialize (power_fits id).
  destruct (assigns_no_combat_damage _ _ _); unfold i32_max in *; lia.
Qed.

Lemma fresh_share id rs tr ph first :
  participates q b (link b id) ph first = true -> rs <> [] ->
  Forall (fun r => 0 <= lethal r)%Z rs -> forallb (recipient_valid b) rs = true ->
  fresh (MkCreature (link b id) (obj_controller (get b id)) (assigned_power q b id) rs tr []).
Proof using power_fits.
  intros Hp Hne Hl Hv. split_and!; [|done| |done].
  - split; [apply assigned_power_bounds|done|done].
  - unfold source_valid; cbn. unfold participates in Hp.
    destruct (live b (link b id)); [|done]. rewrite Z.eqb_refl, bool_decide_true by done.
    by destruct rs.
Qed.

Lemma damage_recipient_valid id t inc :
  damage_recipient b id = Some (t, inc) -> recipient_valid b (MkRecipient t inc 0) = true.
Proof using Type.
  unfold damage_recipient, recipient_valid. cbn.
  destruct (attacked_planeswalker b id) as [w|]; [|by intros [= <- <-]].
  destruct (live b w) eqn:L; [|done]. intros [= <- <-].
  by rewrite bool_decide_true, L.
Qed.

Lemma excess_valid id :
  Forall (fun r => 0 <= lethal r)%Z (excess_recipients (damage_recipient b id)) /\
  forallb (recipient_valid b) (excess_recipients (damage_recipient b id)) = true.
Proof using Type.
  destruct (damage_recipient b id) as [[t inc]|] eqn:E; [|by split].
  cbn [excess_recipients]. split; [by repeat constructor|]. cbn [forallb].
  by rewrite (damage_recipient_valid id).
Qed.

Lemma attacker_recipients_valid id tr :
  Forall (fun r => 0 <= lethal r)%Z (attacker_recipients q b id tr (damage_recipient b id)) /\
  forallb (recipient_valid b) (attacker_recipients q b id tr (damage_recipient b id)) = true.
Proof using Type.
  unfold attacker_recipients. destruct (excess_valid id) as [E1 E2].
  destruct (List.find _ _) as [[a bs]|]; [|by split].
  rewrite Forall_app, forallb_app. split.
  - split; [|destruct tr; [done|constructor]]. apply Forall_fmap, Forall_forall.
    intros x _. unfold compose, blocker_recipient. cbn. unfold remaining_toughness.
    destruct (has_effective_keyword _ _ _ _); lia.
  - assert (forallb (recipient_valid b)
      (if tr then excess_recipients (damage_recipient b id) else []) = true) as ->
      by by destruct tr.
    rewrite andb_true_r. apply forallb_forall. intros r (x & <- & Hx)%in_map_iff.
    apply list_elem_of_In, list_elem_of_filter in Hx as [Lx _].
    unfold recipient_valid, blocker_recipient. cbn. by rewrite bool_decide_true, Lx.
Qed.

Lemma attacker_damage_fresh ph first id :
  Forall fresh (attacker_damage q b ph first id).
Proof using power_fits.
  unfold attacker_damage. destruct (participates _ _ _ _ _) eqn:P; cbn [negb]; [|constructor].
  destruct (_ =? 0)%Z; [constructor|].
  match goal with |- context [attacker_recipients q b id ?tr _] =>
    destruct (attacker_recipients_valid id tr) as [H1 H2] end.
  destruct (attacker_recipients q b id _ _) as [|r rs]; [constructor|].
  apply Forall_cons_2; [|constructor]. by eapply fresh_share.
Qed.

Lemma blocker_damage_fresh ph first ref id :
  live b ref = true -> Forall fresh (blocker_damage q b ph first ref id).
Proof using power_fits.
  intros L. unfold blocker_damage.
  destruct (participates _ _ _ _ _) eqn:P; cbn [negb]; [|constructor].
  destruct (_ =? 0)%Z; [constructor|]. apply Forall_cons_2; [|constructor].
  eapply fresh_share; [done|done|repeat constructor; cbn; lia|].
  cbn. unfold recipient_valid. cbn. by rewrite bool_decide_true, L.
Qed.

Lemma build_wave_fresh ph first : Forall fresh (creatures (build_wave q b ph first)).
Proof using power_fits.
  cbn. apply Forall_app. split; apply Forall_concat, Forall_fmap, Forall_forall.
  - intros id _. apply attacker_damage_fresh.
  - intros [a bs] _. unfold compose, blockers_damage. cbn.
    destruct (live b (link b a)) eqn:L; cbn [negb]; [|constructor].
    apply Forall_concat, Forall_fmap, Forall_forall. intros id _.
    by apply blocker_damage_fresh.
Qed.

Lemma build_wave_ok ph first : wave_ok (build_wave q b ph first).
Proof using power_fits.
  pose proof (build_wave_fresh ph first) as H. split; try done.
  - eapply Forall_impl; [exact H|]. by intros c (? & _).
  - eapply Forall_impl; [exact H|]. intros c (? & ? & _). by apply fresh_partial.
  - cbn. lia.
Qed.

Lemma build_wave_valid ph first :
  at_combat_damage b = true -> stack_empty b = true -> valid q b (build_wave q b ph first).
Proof using power_fits.
  intros Ha Hs. unfold valid, validate_pending. rewrite Ha, Hs. cbn [negb orb].
  rewrite (proj2 (Nat.ltb_ge _ _)) by (cbn; lia). apply validate_creatures.
  eapply Forall_impl; [apply build_wave_fresh|]. by intros c (_ & _ & ? & ?).
Qed.

Lemma build_wave_follows ph first alloc :
  Forall2 legal_allocation (creatures (build_wave q b ph first)) alloc ->
  follows alloc (build_wave q b ph first).
Proof using power_fits.
  intros H. split; [|done]. pose proof (build_wave_fresh ph first) as F. revert F.
  induction H as [|c a cs alloc L _ IH]; [constructor|].
  intros [(_ & E & _) F]%Forall_cons. constructor; [|by apply IH].
  exists a. by rewrite E.
Qed.
End Built.

(** The states a wave passes through: a question answered either way. *)
Inductive wave_reaches (q : Queries) (commit : Board -> list DamageEvent -> Board)
    (st : CombatState) : CombatState -> Prop :=
  | reaches_start : wave_reaches q commit st st
  | reaches_answer st1 st2 st3 d up :
      wave_reaches q commit st st1 -> drain_or_decide q commit st1 = Ok (Some d, st2) ->
      answer_range q st2 up = Ok st3 -> wave_reaches q commit st st3.

Lemma reaches_pending q commit b ph fs p st :
  wave_ok p -> valid q b p -> wave_reaches q commit (holding b ph fs (Some p)) st ->
  exists p', st = holding b ph fs (Some p') /\ wave_ok p' /\ valid q b p'.
Proof.
  intros Hok Hv. induction 1 as [|st1 st2 st3 d up _ (p1 & -> & Hok1 & Hv1) Hd Ha];
    [by exists p|].
  destruct (drain_or_decide_ok q commit b ph fs (fun _ => True) p1) as
    [(p' & c & r & d' & As & _ & _ & Hs & E)|(p' & _ & _ & _ & E)]; try done;
    rewrite E in Hd; [|done].
  injection Hd as _ <-. assert (valid q b p') as Hv' by (eapply valid_same; [done|done|apply As]).
  rewrite (answer_range_ok q b ph fs p' c r) in Ha by done. injection Ha as <-.
  pose proof (asks_halves p' c r up As) as Hok2.
  eexists. split; [done|]. split; [done|].
  eapply valid_same; [exact Hv'|exact (same_wave_refl p')|done].
Qed.

Lemma pending_progress q commit b ph fs p :
  wave_ok p -> valid q b p ->
  (exists st2, drain_or_decide q commit (holding b ph fs (Some p)) = Ok (None, st2)) \/
  (exists d st2, drain_or_decide q commit (holding b ph fs (Some p)) = Ok (Some d, st2) /\
     forall up, exists st3, answer_range q st2 up = Ok st3).
Proof.
  intros Hok Hv.
  destruct (drain_or_decide_ok q commit b ph fs (fun _ => True) p) as
    [(p' & c & r & d & As & _ & _ & Hsame & E)|(p' & _ & _ & _ & E)]; try done.
  - right. eexists d, _. split; [exact E|]. intros up.
    eexists. eapply answer_range_ok; [exact As|].
    eapply valid_same; [done|done|apply As].
  - left. eexists. exact E.
Qed.

Lemma zip_sum_positive {A} (rs : list A) (am : list Z) :
  length am = length rs -> Forall (fun x => 0 <= x)%Z am ->
  sum_list_Z (map snd (filter (fun p => (0 < snd p)%Z) (zip rs am))) = sum_list_Z am.
Proof.
  revert rs. induction am as [|x am IH]; intros [|r rs] L H; try done.
  apply Forall_cons in H as [Hx H]. injection L as L. cbn [zip zip_with].
  rewrite filter_cons. specialize (IH rs L H). unfold sum_list_Z in *.
  case_decide; cbn in *; lia.
Qed.

(* ------------------------------------------------------------------ *)
(** ** Properties *)

(** At every point of a division the range the code offers for the next
    recipient is exactly the set of amounts after which the division can still
    be completed legally (every amount non-negative, the source's whole power
    assigned, and a trampler's excess recipient gets damage only if every
    blocker is assigned at least lethal damage); in particular there always
    is one. *)
Theorem combat_range_is_the_completable_amounts c :
  divisible c -> partial c -> length (amounts c) < length (recipients c) ->
  exists r, next_range c = Ok r /\ (minimum r <= maximum r)%Z /\
    forall v, (minimum r <= v <= maximum r)%Z <-> partial (push_amount c v).
Proof. apply next_range_spec. Qed.

(** C2: a damage wave commits the legal divisions and only those. From the
    first wave of a combat damage step, every run of binary answers that
    reaches the commit has divided each creature's damage legally and commits
    the events of that division in one batch; and for every legal division of
    every creature there are answers that commit it. *)
Theorem combat_wave_commits_exactly_legal_divisions q commit st :
  (forall id, (effective_power q (board st) id <= i32_max)%Z) ->
  at_combat_damage (board st) = true -> stack_empty (board st) = true ->
  exists ph fs p, start_first_wave q st = holding (board st) ph fs (Some p) /\
    (forall answers st', play q commit answers (start_first_wave q st) = Ok st' ->
       exists alloc, Forall2 legal_allocation (creatures p) alloc /\
         st' = committed commit (board st) ph fs (creatures p) alloc) /\
    (forall alloc, Forall2 legal_allocation (creatures p) alloc ->
       exists answers, play q commit answers (start_first_wave q st) =
         Ok (committed commit (board st) ph fs (creatures p) alloc)).
Proof.
  intros Hp Ha Hs. unfold start_first_wave. do 3 eexists. split; [reflexivity|].
  match goal with |- context [build_wave q _ ?ph ?fs] =>
    pose proof (build_wave_ok q (board st) Hp ph fs) as Hok;
    pose proof (build_wave_valid q (board st) Hp ph fs Ha Hs) as Hv end.
  split.
  - intros answers st' H. by apply (play_sound _ _ _ _ _ answers) in H.
  - intros alloc Hl. eapply (play_complete _ _ _ _ _ alloc); [|done|done|done|].
    + rewrite Z2Nat.id; [apply Z.lt_succ_diag_r|].
      pose proof (width_bounds _ Hok). unfold cost, i32_max in *. lia.
    + by apply build_wave_follows.
Qed.

(** Division never gets stuck. In every state a wave passes through,
    the drain loop ends within its iteration bound without an error, and
    either commits or asks for an amount with at least two possibilities; and
    then both answers are accepted. *)
Theorem combat_division_never_stuck q commit st st1 :
  (forall id, (effective_power q (board st) id <= i32_max)%Z) ->
  at_combat_damage (board st) = true -> stack_empty (board st) = true ->
  wave_reaches q commit (start_first_wave q st) st1 ->
  (exists st2, drain_or_decide q commit st1 = Ok (None, st2)) \/
  (exists d st2, drain_or_decide q commit st1 = Ok (Some d, st2) /\
     forall up, exists st3, answer_range q st2 up = Ok st3).
Proof.
  intros Hp Ha Hs H. unfold start_first_wave in H.
  apply reaches_pending in H as (p & -> & Hok & Hv);
    [|by apply build_wave_ok|by apply build_wave_valid].
  by apply pending_progress.
Qed.

(** The events a legal division commits for a creature deal its whole
    power, in positive amounts. *)
Theorem combat_events_deal_the_power c a :
  legal_allocation c a ->
  sum_list_Z (map amount (creature_events (with_amounts c a))) = power c /\
  Forall (fun e => 0 < amount e)%Z (creature_events (with_amounts c a)).
Proof.
  intros [L N S _]. unfold creature_events. cbn [with_amounts recipients amounts source]. split.
  - rewrite map_map. cbn [amount]. rewrite <- S. by apply zip_sum_positive.
  - apply Forall_fmap, Forall_forall. intros p Hp.
    by apply list_elem_of_filter in Hp as [? _].
Qed.

(** *** Witnesses

    Player zero's 3/3 trampler is blocked by a 2/2 and attacks alone. *)

Definition sample_queries : Queries :=
  MkQueries (fun _ id => if decide (id = MkObjectId 0) then 3%Z else 2%Z)
            (fun _ _ => 2%Z)
            (fun _ id k => match k with KwTrample => bool_decide (id = MkObjectId 0) | _ => false end)
            (fun _ _ => false).
Definition sample_board : Board :=
  MkBoard (Arena.MkArena [MkView true 1 PlayerIds.P0 0; MkView true 1 PlayerIds.P1 0])
    [MkObjectId 0] [(MkObjectId 0, [MkObjectId 1])] true true [] true true.
Definition sample_combat : CombatState := MkCombat sample_board (Some default_foundations).
Definition keep_board (b : Board) (_ : list DamageEvent) : Board := b.

(** Two lethal damage to the blocker, one tramples over. *)
Definition sample_alloc : list (list Z) := [[2; 1]; [2]]%Z.

Lemma sample_power id : (effective_power sample_queries (board sample_combat) id <= i32_max)%Z.
Proof. cbn. unfold i32_max. case_decide; lia. Qed.

Definition sample_creature : CreatureDamageV1 :=
  MkCreature (MkLink (MkObjectId 0) 1) PlayerIds.P0 3
    [MkRecipient (TObject (MkObjectId 1)) (Some (MkLink (MkObjectId 1) 1)) 2;
     MkRecipient (TPlayer PlayerIds.P1) None 0] true [].

Lemma sample_legal : legal_allocation sample_creature [2; 1]%Z.
Proof.
  split; [done|repeat constructor; lia|done|].
  intros _ blockers x E _. apply (app_inj_tail [2%Z] blockers) in E as [<- _].
  repeat constructor; cbn; lia.
Qed.

Lemma sample_divisible : divisible sample_creature.
Proof. split; cbn; [unfold i32_max; lia|done|repeat constructor; cbn; lia]. Qed.

Lemma combat_range_is_the_completable_amounts_witness :
  exists r, next_range sample_creature = Ok r /\
    forall v, (minimum r <= v <= maximum r)%Z <-> partial (push_amount sample_creature v).
Proof.
  destruct (combat_range_is_the_completable_amounts sample_creature) as (r & H & _ & Hv).
  - apply sample_divisible.
  - exists [2; 1]%Z. exact sample_legal.
  - cbn. lia.
  - by exists r.
Defined.

Lemma combat_wave_commits_exactly_legal_divisions_witness :
  exists answers st', play sample_queries keep_board answers
    (start_first_wave sample_queries sample_combat) = Ok st'.
Proof.
  destruct (combat_wave_commits_exactly_legal_divisions sample_queries keep_board sample_combat)
    as (ph & fs & p & E & _ & H).
  - apply sample_power.
  - reflexivity.
  - reflexivity.
  - destruct (H sample_alloc) as [answers Ha]; [|by eexists answers, _].
    vm_compute in E. injection E as <- <- <-.
    constructor; [exact sample_legal|].
    constructor; [|constructor].
    split; [done|repeat constructor; lia|done|done].
Defined.

Lemma combat_division_never_stuck_witness :
  exists d st2, drain_or_decide sample_queries keep_board
    (start_first_wave sample_queries sample_combat) = Ok (Some d, st2) /\
    range_maximum d = 3%Z.
Proof.
  destruct (combat_division_never_stuck sample_queries keep_board sample_combat
    (start_first_wave sample_queries sample_combat)) as [[st2 H]|(d & st2 & H & _)].
  - apply sample_power.
  - reflexivity.
  - reflexivity.
  - apply reaches_start.
  - vm_compute in H. discriminate H.
  - exists d, st2. split; [exact H|]. vm_compute in H. injection H as <- _. reflexivity.
Defined.

Lemma combat_events_deal_the_power_witness :
  sum_list_Z (map amount (creature_events (with_amounts sample_creature [2; 1]%Z))) = 3%Z.
Proof.
  apply (combat_events_deal_the_power sample_creature [2; 1]%Z). exact sample_legal.
Defined.
