(* ===== verification/Sideboard.v ===== *)
(** * Sideboarding over a registered 60/15 deck (src/mtg-kernel/src/sideboard.rs)

    The registered deck, the exchange plan, the deterministic policy and the
    receipt, with their constructors and every operation on them. A
    [BTreeMap<u16, u8>] is a [gmap] iterated in key order; a [u8] count wraps
    as a release build wraps it. [Panicked] is a Rust panic: an out-of-range
    index or the [expect] of [push_len_v1].

    Parameters: the digest of the [sha2] crate, [serde_json]'s readers, the
    card table the build generates from data, and the two checked-in
    JSON files. *)

From Stdlib Require Import String.
From stdpp Require Import gmap.
From S2P Require Import Prelude Bytes.

Definition REGISTERED_MAINBOARD_SIZE_V1 : nat := 60.
Definition REGISTERED_SIDEBOARD_SIZE_V1 : nat := 15.
Definition REGISTERED_DECK_SIZE_V1 : nat :=
  REGISTERED_MAINBOARD_SIZE_V1 + REGISTERED_SIDEBOARD_SIZE_V1.
Definition SIDEBOARD_POLICY_SCHEMA_V1 : bytes := bytes_of "kernel_pauper_sideboard_policy/v1".
Definition SIDEBOARD_RECEIPT_SCHEMA_V1 : bytes := bytes_of "kernel_sideboard_receipt/v1".
Definition PAUPER_POOL_SCHEMA_V1 : bytes := bytes_of "kernel_pauper_pool/v1".
Definition SIDEBOARD_POLICY_MATCHUP_COVERAGE_V1 : bytes := bytes_of "all_registered_deck_pairs".
Definition DECK_CONFIGURATION_HASH_DOMAIN_V1 : bytes :=
  bytes_of "kernel-deck-configuration-sha256/v1".
Definition REGISTERED_DECK_HASH_DOMAIN_V1 : bytes := bytes_of "kernel-registered-75-sha256/v1".
Definition SIDEBOARD_POLICY_HASH_DOMAIN_V1 : bytes := bytes_of "kernel-sideboard-policy-sha256/v1".
Definition SIDEBOARD_RECEIPT_HASH_DOMAIN_V1 : bytes :=
  bytes_of "kernel-sideboard-receipt-sha256/v1".

(** ** Data *)

Record CardCountV1 := MkCardCount { card_id : Z; count : Z }.
#[export] Instance CardCountV1_eq_dec : EqDecision CardCountV1.
Proof. solve_decision. Defined.

Record DeckConfigurationV1 := MkConfiguration { mainboard : list Z; sideboard : list Z }.
#[export] Instance DeckConfigurationV1_eq_dec : EqDecision DeckConfigurationV1.
Proof. solve_decision. Defined.

Record RegisteredDeckV1 := MkRegisteredDeck {
  deck_id : bytes;
  registered_configuration : DeckConfigurationV1;
}.

Record SideboardPlanV1 := MkPlan {
  self_deck_id : bytes;
  opponent_deck_id : bytes;
  game_index : Z;
  cards_in : list CardCountV1;
  cards_out : list CardCountV1;
}.
#[export] Instance SideboardPlanV1_eq_dec : EqDecision SideboardPlanV1.
Proof. solve_decision. Defined.

Inductive SideboardDefaultPlanV1 := KeepRegisteredConfiguration.

Record DeterministicSideboardPolicyV1 := MkPolicy {
  policy_id : bytes;
  deck_ids : list bytes;
  default_plan : SideboardDefaultPlanV1;
  plans : list SideboardPlanV1;
}.

Record AppliedSideboardReceiptV1 := MkReceipt {
  r_schema : bytes;
  r_policy_id : bytes;
  r_policy_sha256 : bytes;
  r_self_deck_id : bytes;
  r_opponent_deck_id : bytes;
  r_game_index : Z;
  r_registered_75_sha256 : bytes;
  r_before_mainboard_sha256 : bytes;
  r_before_sideboard_sha256 : bytes;
  r_cards_in : list CardCountV1;
  r_cards_out : list CardCountV1;
  r_after_mainboard_sha256 : bytes;
  r_after_sideboard_sha256 : bytes;
}.

Inductive SideboardZoneV1 := RegisteredMainboard | RegisteredSideboard.

Inductive SideboardErrorV1 :=
  | InvalidIdentifier (field : bytes)
  | WrongMainboardSize (actual : nat)
  | WrongSideboardSize (actual : nat)
  | InvalidPostboardGameIndex (actual : Z)
  | ZeroCardCount (card : Z)
  | DuplicateCardCount (card : Z)
  | UnequalExchangeCounts (total_in total_out : Z)
  | ExchangeTooLarge (total : Z)
  | CardListedBothInAndOut (card : Z)
  | CardUnavailable (zone : SideboardZoneV1) (card requested available : Z)
  | PlanDeckMismatch (registered plan : bytes)
  | RegisteredMultisetChanged
  | UnknownRegisteredCardId (zone : SideboardZoneV1) (card : Z)
  | TokenInRegisteredDeck (zone : SideboardZoneV1) (card : Z) (card_name : bytes)
  | CardNotFullySupported (zone : SideboardZoneV1) (card : Z) (card_name : bytes)
  | NonbasicCopyLimitExceeded (card copies : Z)
  | PoolJson (message : bytes)
  | PoolSchemaMismatch (actual : bytes)
  | PoolDeckCount (actual : nat)
  | EmptyPool
  | DuplicatePoolDeckId (deck : bytes)
  | UnknownPoolDeckId (deck : bytes)
  | PoolPolicyDeckSetMismatch
  | PoolCopyCountMismatch (deck : bytes) (zone : SideboardZoneV1) (declared actual : nat)
  | DuplicatePoolCardName (deck : bytes) (zone : SideboardZoneV1) (card_name : bytes)
  | ZeroPoolCardCount (deck : bytes) (zone : SideboardZoneV1) (card_name : bytes)
  | UnregisteredPoolCard (deck : bytes) (zone : SideboardZoneV1) (card_name : bytes)
  | EmptyPolicyDeckSet
  | DuplicatePolicyDeckId (deck : bytes)
  | UnknownPolicyDeckId (deck : bytes)
  | DuplicatePlanKey (self opponent : bytes) (game : Z)
  | PolicyJson (message : bytes)
  | PolicySchemaMismatch (actual : bytes)
  | PolicyCoverageMismatch
  | UnknownDefaultPlan (actual : bytes).

Inductive Failure := Returned (e : SideboardErrorV1) | Panicked.
Abbreviation sideboard_result := (result Failure).
Definition returned {A} (e : SideboardErrorV1) : sideboard_result A := Err (Returned e).

(** The JSON documents as [serde] derives them. *)
Record SideboardPolicyCoverageDocumentV1 := MkCoverageDocument {
  ordered_matchups : bytes;
  postboard_game_index_minimum : Z;
}.
Record SideboardPlanDocumentV1 := MkPlanDocument {
  pd_self_deck_id : bytes;
  pd_opponent_deck_id : bytes;
  pd_game_index : Z;
  pd_cards_in : list CardCountV1;
  pd_cards_out : list CardCountV1;
}.
Record SideboardPolicyDocumentV1 := MkPolicyDocument {
  sd_schema : bytes;
  sd_policy_id : bytes;
  sd_deck_ids : list bytes;
  sd_coverage : SideboardPolicyCoverageDocumentV1;
  sd_default_plan : bytes;
  sd_plans : list SideboardPlanDocumentV1;
}.
Record PauperPoolCardDocumentV1 := MkPoolCard { pc_name : bytes; pc_count : Z }.
Record PauperPoolZoneDocumentV1 := MkPoolZone {
  copy_count : nat;
  pz_cards : list PauperPoolCardDocumentV1;
}.
Record PauperPoolDeckDocumentV1 := MkPoolDeck {
  pk_id : bytes;
  pk_mainboard : PauperPoolZoneDocumentV1;
  pk_sideboard : PauperPoolZoneDocumentV1;
}.
Record PauperPoolDocumentV1 := MkPool {
  pp_schema : bytes;
  pp_decks : list PauperPoolDeckDocumentV1;
}.

(** The part of the card table (card_def.rs) that registration reads. *)
Inductive CardCapability := NoEffect | Partial | Full.
Definition is_executable (c : CardCapability) : bool :=
  match c with NoEffect => false | _ => true end.
Definition is_fully_supported (c : CardCapability) : bool :=
  match c with Full => true | _ => false end.
Inductive Supertype := Basic | Snow | Legendary.
Record CardDef := MkCardDef {
  name : bytes;
  capability : CardCapability;
  supertypes : list Supertype;
  is_token : bool;
}.
Definition has_full_support (d : CardDef) : bool := is_fully_supported (capability d).
Definition is_basic (s : Supertype) : bool := match s with Basic => true | _ => false end.

(** ** Orders, sorting and adjacent pairs *)

(** The [Ord] of [String] and the one [CardCountV1] derives. *)
Definition bytes_le (a b : bytes) : Prop := bytes_lt b a = false.
Definition card_count_le (a b : CardCountV1) : Prop :=
  (card_id a < card_id b \/ card_id a = card_id b /\ count a <= count b)%Z.

(** [plan_key_v1], and the lexicographic order [sort_by] compares it with. *)
Definition plan_key_v1 (p : SideboardPlanV1) : bytes * bytes * Z :=
  (self_deck_id p, opponent_deck_id p, game_index p).
Definition plan_le (p q : SideboardPlanV1) : Prop :=
  bytes_lt (self_deck_id p) (self_deck_id q) = true \/
  self_deck_id p = self_deck_id q /\
  (bytes_lt (opponent_deck_id p) (opponent_deck_id q) = true \/
   opponent_deck_id p = opponent_deck_id q /\ (game_index p <= game_index q)%Z).

#[export] Instance bytes_le_dec : RelDecision bytes_le.
Proof. intros a b. unfold bytes_le. apply _. Defined.
#[export] Instance card_count_le_dec : RelDecision card_count_le.
Proof. intros a b. unfold card_count_le. apply _. Defined.
#[export] Instance plan_le_dec : RelDecision plan_le.
Proof. intros a b. unfold plan_le. apply _. Defined.

Definition sort_cards (l : list Z) : list Z := merge_sort Z.le l.

(** [<[T]>::windows(2)] *)
Fixpoint windows {A} (l : list A) : list (A * A) :=
  match l with
  | a :: ((b :: _) as l') => (a, b) :: windows l'
  | _ => []
  end.

(** A [for] loop whose body only checks. *)
Definition for_each {A} (check : A -> sideboard_result unit) (l : list A)
  : sideboard_result unit :=
  try_fold (fun _ a => check a) () l.

(** The [for pair in l.windows(2)] loop that rejects equal neighbours. *)
Definition reject_adjacent {A K} `{EqDecision K} (key : A -> K) (e : A -> SideboardErrorV1)
    (l : list A) : sideboard_result unit :=
  for_each (fun pair =>
    if decide (key (fst pair) = key (snd pair)) then returned (e (fst pair)) else Ok ())
    (windows l).

(** ** Card counts: [BTreeMap<u16, u8>] *)

Abbreviation counts := (gmap Z Z).

(** [BTreeMap::iter], in key order. *)
Definition counts_iter (m : counts) : list (Z * Z) :=
  map (fun c => (c, default 0%Z (m !! c))) (sort_cards (map fst (map_to_list m))).

(** [*counts.entry(c).or_insert(0) += n] *)
Definition entry_add (c n : Z) (m : counts) : counts :=
  <[c := wrap_u8 (default 0%Z (m !! c) + n)]> m.

Definition counts_from_cards_v1 (cards : list Z) : counts :=
  foldl (fun m c => entry_add c 1 m) ∅ cards.

Definition counts_to_rows_v1 (m : counts) : list CardCountV1 :=
  map (fun e => MkCardCount (fst e) (snd e)) (counts_iter m).

Definition expand_counts_v1 (m : counts) : list Z :=
  flat_map (fun e => replicate (Z.to_nat (snd e)) (fst e)) (counts_iter m).

Definition remove_count_v1 (m : counts) (row : CardCountV1) (zone : SideboardZoneV1)
  : sideboard_result counts :=
  let available := default 0%Z (m !! card_id row) in
  if (available <? count row)%Z then
    returned (CardUnavailable zone (card_id row) (count row) available)
  else if (available =? count row)%Z then Ok (delete (card_id row) m)
  else Ok (<[card_id row := (available - count row)%Z]> m).

Definition add_count_v1 (m : counts) (row : CardCountV1) : counts :=
  entry_add (card_id row) (count row) m.

Definition combined_card_counts_v1 (c : DeckConfigurationV1) : list CardCountV1 :=
  counts_to_rows_v1
    (foldl (fun m card => entry_add card 1 m) (counts_from_cards_v1 (mainboard c)) (sideboard c)).

Definition count_total_v1 (rows : list CardCountV1) : Z :=
  foldr Z.add 0%Z (map count rows).

(** ** Validation *)

(** [u8::is_ascii_graphic] or a space. *)
Definition identifier_byte (b : Z) : bool := (((33 <=? b) && (b <=? 126)) || (b =? 32))%Z.

Definition validate_identifier_v1 (field value : bytes) : sideboard_result unit :=
  if bool_decide (value = []) || (128 <? Z.of_nat (length value))%Z
     || negb (forallb identifier_byte value)
  then returned (InvalidIdentifier field) else Ok ().

Definition validate_postboard_game_index_v1 (game : Z) : sideboard_result unit :=
  if (game <? 2)%Z then returned (InvalidPostboardGameIndex game) else Ok ().

(** The rows are sorted in place: the sorted rows are returned. *)
Definition canonicalize_card_counts_v1 (rows : list CardCountV1)
  : sideboard_result (list CardCountV1) :=
  let rows := merge_sort card_count_le rows in
  let? _ := for_each (fun row =>
    if (count row =? 0)%Z then returned (ZeroCardCount (card_id row)) else Ok ()) rows in
  let? _ := reject_adjacent card_id (fun row => DuplicateCardCount (card_id row)) rows in
  Ok rows.

(** ** Canonical bytes *)

Definition push_len_v1 (b : bytes) (len : nat) : sideboard_result bytes :=
  if (Z.of_nat len <=? u32_max)%Z then Ok (b ++ to_be_bytes 4 (Z.of_nat len)) else Err Panicked.

Definition push_bytes_v1 (b value : bytes) : sideboard_result bytes :=
  let? b := push_len_v1 b (length value) in Ok (b ++ value).

Definition push_string_v1 (b value : bytes) : sideboard_result bytes := push_bytes_v1 b value.

Definition push_strings_v1 (b : bytes) (values : list bytes) : sideboard_result bytes :=
  let? b := push_len_v1 b (length values) in try_fold push_string_v1 b values.

Definition push_cards_v1 (b : bytes) (cards : list Z) : sideboard_result bytes :=
  let? b := push_len_v1 b (length cards) in
  Ok (foldl (fun b c => b ++ to_be_bytes 2 c) b cards).

Definition push_card_counts_v1 (b : bytes) (rows : list CardCountV1) : sideboard_result bytes :=
  let? b := push_len_v1 b (length rows) in
  Ok (foldl (fun b row => (b ++ to_be_bytes 2 (card_id row)) ++ [count row]) b rows).

Definition append_canonical_bytes_v1 (b : bytes) (p : SideboardPlanV1) : sideboard_result bytes :=
  let? b := push_string_v1 b (self_deck_id p) in
  let? b := push_string_v1 b (opponent_deck_id p) in
  let b := b ++ [game_index p] in
  let? b := push_card_counts_v1 b (cards_in p) in
  push_card_counts_v1 b (cards_out p).

Definition policy_canonical_bytes_v1 (p : DeterministicSideboardPolicyV1)
  : sideboard_result bytes :=
  let? b := push_string_v1 [] SIDEBOARD_POLICY_HASH_DOMAIN_V1 in
  let? b := push_string_v1 b SIDEBOARD_POLICY_SCHEMA_V1 in
  let? b := push_string_v1 b (policy_id p) in
  let? b := push_strings_v1 b (deck_ids p) in
  let b := b ++ [match default_plan p with KeepRegisteredConfiguration => 0%Z end] in
  let? b := push_len_v1 b (length (plans p)) in
  try_fold append_canonical_bytes_v1 b (plans p).

Definition receipt_canonical_bytes_v1 (r : AppliedSideboardReceiptV1) : sideboard_result bytes :=
  let? b := push_string_v1 [] SIDEBOARD_RECEIPT_HASH_DOMAIN_V1 in
  let? b := push_string_v1 b (r_schema r) in
  let? b := push_string_v1 b (r_policy_id r) in
  let b := b ++ r_policy_sha256 r in
  let? b := push_string_v1 b (r_self_deck_id r) in
  let? b := push_string_v1 b (r_opponent_deck_id r) in
  let b := b ++ [r_game_index r] in
  let b := b ++ r_registered_75_sha256 r in
  let b := b ++ r_before_mainboard_sha256 r in
  let b := b ++ r_before_sideboard_sha256 r in
  let? b := push_card_counts_v1 b (r_cards_in r) in
  let? b := push_card_counts_v1 b (r_cards_out r) in
  let b := b ++ r_after_mainboard_sha256 r in
  Ok (b ++ r_after_sideboard_sha256 r).

(** ** Constructors *)

Definition DeckConfigurationV1_new_exact_v1 (mainboard sideboard : list Z)
  : sideboard_result DeckConfigurationV1 :=
  if negb (length mainboard =? REGISTERED_MAINBOARD_SIZE_V1)%nat then
    returned (WrongMainboardSize (length mainboard))
  else if negb (length sideboard =? REGISTERED_SIDEBOARD_SIZE_V1)%nat then
    returned (WrongSideboardSize (length sideboard))
  else Ok (MkConfiguration (sort_cards mainboard) (sort_cards sideboard)).

Definition RegisteredDeckV1_new_exact_v1 (deck_id : bytes) (mainboard sideboard : list Z)
  : sideboard_result RegisteredDeckV1 :=
  let? _ := validate_identifier_v1 (bytes_of "deck_id") deck_id in
  let? configuration := DeckConfigurationV1_new_exact_v1 mainboard sideboard in
  Ok (MkRegisteredDeck deck_id configuration).

Definition SideboardPlanV1_new_v1 (self_deck_id opponent_deck_id : bytes) (game_index : Z)
    (cards_in cards_out : list CardCountV1) : sideboard_result SideboardPlanV1 :=
  let? _ := validate_identifier_v1 (bytes_of "self_deck_id") self_deck_id in
  let? _ := validate_identifier_v1 (bytes_of "opponent_deck_id") opponent_deck_id in
  let? _ := validate_postboard_game_index_v1 game_index in
  let? cards_in := canonicalize_card_counts_v1 cards_in in
  let? cards_out := canonicalize_card_counts_v1 cards_out in
  let cards_in_total := count_total_v1 cards_in in
  let cards_out_total := count_total_v1 cards_out in
  if negb (cards_in_total =? cards_out_total)%Z then
    returned (UnequalExchangeCounts cards_in_total cards_out_total)
  else if (Z.of_nat REGISTERED_SIDEBOARD_SIZE_V1 <? cards_in_total)%Z then
    returned (ExchangeTooLarge cards_in_total)
  else
    let cards_out_ids := map card_id cards_out in
    match List.find (fun card_id => bool_decide (card_id ∈ cards_out_ids))
            (map card_id cards_in) with
    | Some card_id => returned (CardListedBothInAndOut card_id)
    | None => Ok (MkPlan self_deck_id opponent_deck_id game_index cards_in cards_out)
    end.

Definition keep_registered_v1 (self_deck_id opponent_deck_id : bytes) (game_index : Z)
  : sideboard_result SideboardPlanV1 :=
  SideboardPlanV1_new_v1 self_deck_id opponent_deck_id game_index [] [].

Definition DeterministicSideboardPolicyV1_new_v1 (policy_id : bytes) (deck_ids : list bytes)
    (default_plan : SideboardDefaultPlanV1) (plans : list SideboardPlanV1)
  : sideboard_result DeterministicSideboardPolicyV1 :=
  let? _ := validate_identifier_v1 (bytes_of "policy_id") policy_id in
  if bool_decide (deck_ids = []) then returned EmptyPolicyDeckSet else
  let? _ := for_each (validate_identifier_v1 (bytes_of "policy deck_id")) deck_ids in
  let deck_ids := merge_sort bytes_le deck_ids in
  let? _ := reject_adjacent (fun d => d) DuplicatePolicyDeckId deck_ids in
  let? _ := for_each (fun plan =>
    if negb (bool_decide (self_deck_id plan ∈ deck_ids)) then
      returned (UnknownPolicyDeckId (self_deck_id plan))
    else if negb (bool_decide (opponent_deck_id plan ∈ deck_ids)) then
      returned (UnknownPolicyDeckId (opponent_deck_id plan))
    else Ok ()) plans in
  let plans := merge_sort plan_le plans in
  let? _ := reject_adjacent plan_key_v1 (fun plan =>
    DuplicatePlanKey (self_deck_id plan) (opponent_deck_id plan) (game_index plan)) plans in
  Ok (MkPolicy policy_id deck_ids default_plan plans).

(** ** Choosing a plan *)

(** [binary_search_by(|candidate| candidate.cmp(key))]: the slice is cut at
    its middle; [true] when the key is found. *)
Fixpoint binary_search (fuel : nat) (l : list bytes) (key : bytes) : bool :=
  match fuel with
  | O => false
  | S fuel =>
      let mid := Nat.div2 (length l) in
      match l !! mid with
      | None => false
      | Some candidate =>
          if decide (candidate = key) then true
          else if bytes_lt candidate key then binary_search fuel (drop (S mid) l) key
          else binary_search fuel (take mid l) key
      end
  end.

Definition knows_deck (p : DeterministicSideboardPolicyV1) (deck_id : bytes) : bool :=
  binary_search (S (length (deck_ids p))) (deck_ids p) deck_id.

Definition plan_for_v1 (p : DeterministicSideboardPolicyV1)
    (self opponent : bytes) (game : Z) : sideboard_result SideboardPlanV1 :=
  let? _ := validate_postboard_game_index_v1 game in
  let? _ := for_each (fun deck_id =>
    if knows_deck p deck_id then Ok () else returned (UnknownPolicyDeckId deck_id))
    [self; opponent] in
  match List.find (fun plan => bool_decide (self_deck_id plan = self)
            && bool_decide (opponent_deck_id plan = opponent)
            && (game_index plan =? game)%Z) (plans p) with
  | Some plan => Ok plan
  | None =>
      match default_plan p with
      | KeepRegisteredConfiguration => keep_registered_v1 self opponent game
      end
  end.

(** ** The operations that hash *)

Section Hashed.
Context (sha256_v1 : bytes -> bytes).

Definition configuration_zone_sha256_v1 (zone : bytes) (cards : list Z)
  : sideboard_result bytes :=
  let? b := push_string_v1 [] DECK_CONFIGURATION_HASH_DOMAIN_V1 in
  let? b := push_bytes_v1 b zone in
  let? b := push_cards_v1 b cards in
  Ok (sha256_v1 b).

Definition mainboard_sha256_v1 (c : DeckConfigurationV1) : sideboard_result bytes :=
  configuration_zone_sha256_v1 (bytes_of "mainboard") (mainboard c).

Definition sideboard_sha256_v1 (c : DeckConfigurationV1) : sideboard_result bytes :=
  configuration_zone_sha256_v1 (bytes_of "sideboard") (sideboard c).

Definition mainboard_slice_sha256_v1 (cards : list Z) : sideboard_result bytes :=
  configuration_zone_sha256_v1 (bytes_of "mainboard") cards.

Definition registered_75_sha256_v1 (d : RegisteredDeckV1) : sideboard_result bytes :=
  let? b := push_string_v1 [] REGISTERED_DECK_HASH_DOMAIN_V1 in
  let? b := push_string_v1 b (deck_id d) in
  let? b := push_cards_v1 b (mainboard (registered_configuration d)) in
  let? b := push_cards_v1 b (sideboard (registered_configuration d)) in
  Ok (sha256_v1 b).

Definition policy_sha256_v1 (p : DeterministicSideboardPolicyV1) : sideboard_result bytes :=
  let? b := policy_canonical_bytes_v1 p in Ok (sha256_v1 b).

Definition receipt_sha256_v1 (r : AppliedSideboardReceiptV1) : sideboard_result bytes :=
  let? b := receipt_canonical_bytes_v1 r in Ok (sha256_v1 b).

(** The two exchange loops of [apply_plan_v1]: each row leaves [source] and
    enters [destination]. *)
Definition exchange (zone : SideboardZoneV1) (maps : counts * counts)
    (rows : list CardCountV1) : sideboard_result (counts * counts) :=
  try_fold (fun maps row =>
    let? source := remove_count_v1 (fst maps) row zone in
    Ok (source, add_count_v1 (snd maps) row)) maps rows.

Definition apply_plan_v1 (d : RegisteredDeckV1) (plan : SideboardPlanV1)
    (policy_id policy_sha256 : bytes)
  : sideboard_result (DeckConfigurationV1 * AppliedSideboardReceiptV1) :=
  if negb (bool_decide (self_deck_id plan = deck_id d)) then
    returned (PlanDeckMismatch (deck_id d) (self_deck_id plan)) else
  let? _ := validate_identifier_v1 (bytes_of "policy_id") policy_id in
  let registered := registered_configuration d in
  let mainboard_counts := counts_from_cards_v1 (mainboard registered) in
  let sideboard_counts := counts_from_cards_v1 (sideboard registered) in
  let? (mainboard_counts, sideboard_counts) :=
    exchange RegisteredMainboard (mainboard_counts, sideboard_counts) (cards_out plan) in
  let? (sideboard_counts, mainboard_counts) :=
    exchange RegisteredSideboard (sideboard_counts, mainboard_counts) (cards_in plan) in
  let? configuration := DeckConfigurationV1_new_exact_v1
    (expand_counts_v1 mainboard_counts) (expand_counts_v1 sideboard_counts) in
  if negb (bool_decide (combined_card_counts_v1 configuration
                        = combined_card_counts_v1 registered)) then
    returned RegisteredMultisetChanged else
  let? registered_75_sha256 := registered_75_sha256_v1 d in
  let? before_mainboard_sha256 := mainboard_sha256_v1 registered in
  let? before_sideboard_sha256 := sideboard_sha256_v1 registered in
  let? after_mainboard_sha256 := mainboard_sha256_v1 configuration in
  let? after_sideboard_sha256 := sideboard_sha256_v1 configuration in
  Ok (configuration,
      MkReceipt SIDEBOARD_RECEIPT_SCHEMA_V1 policy_id policy_sha256 (deck_id d)
        (opponent_deck_id plan) (game_index plan) registered_75_sha256
        before_mainboard_sha256 before_sideboard_sha256 (cards_in plan) (cards_out plan)
        after_mainboard_sha256 after_sideboard_sha256).

Definition apply_v1 (p : DeterministicSideboardPolicyV1) (d : RegisteredDeckV1)
    (opponent_deck_id : bytes) (game_index : Z)
  : sideboard_result (DeckConfigurationV1 * AppliedSideboardReceiptV1) :=
  let? plan := plan_for_v1 p (deck_id d) opponent_deck_id game_index in
  let? policy_sha256 := policy_sha256_v1 p in
  apply_plan_v1 d plan (policy_id p) policy_sha256.
End Hashed.

(** ** Registration against the card table *)

Section Registration.
Context (CARD_DEFS : list CardDef) (card_id_by_name : bytes -> option Z).

Definition validate_registered_cards_v1 (cards : list Z) (zone : SideboardZoneV1)
  : sideboard_result unit :=
  for_each (fun card_id =>
    match CARD_DEFS !! Z.to_nat card_id with
    | None => returned (UnknownRegisteredCardId zone card_id)
    | Some definition =>
        if is_token definition then
          returned (TokenInRegisteredDeck zone card_id (name definition))
        else if negb (has_full_support definition)
                || negb (is_executable (capability definition)) then
          returned (CardNotFullySupported zone card_id (name definition))
        else Ok ()
    end) cards.

Definition new_fully_supported_v1 (deck_id : bytes) (mainboard0 sideboard0 : list Z)
  : sideboard_result RegisteredDeckV1 :=
  let? deck := RegisteredDeckV1_new_exact_v1 deck_id mainboard0 sideboard0 in
  let? _ := validate_registered_cards_v1
    (mainboard (registered_configuration deck)) RegisteredMainboard in
  let? _ := validate_registered_cards_v1
    (sideboard (registered_configuration deck)) RegisteredSideboard in
  Ok deck.

Definition validate_executable_v1 (d : RegisteredDeckV1) : sideboard_result unit :=
  let registered := registered_configuration d in
  let? _ := validate_registered_cards_v1 (mainboard registered) RegisteredMainboard in
  let? _ := validate_registered_cards_v1 (sideboard registered) RegisteredSideboard in
  for_each (fun row =>
    if (4 <? count row)%Z then
      match CARD_DEFS !! Z.to_nat (card_id row) with
      | None => Err Panicked
      | Some definition =>
          if negb (existsb is_basic (supertypes definition)) then
            returned (NonbasicCopyLimitExceeded (card_id row) (count row))
          else Ok ()
      end
    else Ok ()) (combined_card_counts_v1 registered).

Definition new_executable_v1 (deck_id : bytes) (mainboard0 sideboard0 : list Z)
  : sideboard_result RegisteredDeckV1 :=
  let? deck := RegisteredDeckV1_new_exact_v1 deck_id mainboard0 sideboard0 in
  let? _ := validate_executable_v1 deck in
  Ok deck.

(** One row of a pool zone: the names seen so far and the expanded cards. *)
Definition expand_pool_row (deck_id : bytes) (zone : SideboardZoneV1)
    (acc : list bytes * list Z) (row : PauperPoolCardDocumentV1)
  : sideboard_result (list bytes * list Z) :=
  if bool_decide (pc_name row ∈ fst acc) then
    returned (DuplicatePoolCardName deck_id zone (pc_name row))
  else if (pc_count row =? 0)%Z then
    returned (ZeroPoolCardCount deck_id zone (pc_name row))
  else
    match card_id_by_name (pc_name row) with
    | None => returned (UnregisteredPoolCard deck_id zone (pc_name row))
    | Some card_id =>
        Ok (pc_name row :: fst acc, snd acc ++ replicate (Z.to_nat (pc_count row)) card_id)
    end.

Definition expand_pool_zone_v1 (deck_id : bytes) (zone : SideboardZoneV1)
    (document : PauperPoolZoneDocumentV1) : sideboard_result (list Z) :=
  let? (_, cards) := try_fold (expand_pool_row deck_id zone) ([], []) (pz_cards document) in
  if negb (length cards =? copy_count document)%nat then
    returned (PoolCopyCountMismatch deck_id zone (copy_count document) (length cards))
  else Ok cards.

Definition register_pauper_pool_deck_v1 (deck : PauperPoolDeckDocumentV1)
  : sideboard_result RegisteredDeckV1 :=
  let? mainboard := expand_pool_zone_v1 (pk_id deck) RegisteredMainboard (pk_mainboard deck) in
  let? sideboard := expand_pool_zone_v1 (pk_id deck) RegisteredSideboard (pk_sideboard deck) in
  new_fully_supported_v1 (pk_id deck) mainboard sideboard.
End Registration.

(** ** The checked-in policy and pool *)

Definition from_document (document : SideboardPolicyDocumentV1)
  : sideboard_result DeterministicSideboardPolicyV1 :=
  if negb (bool_decide (sd_schema document = SIDEBOARD_POLICY_SCHEMA_V1)) then
    returned (PolicySchemaMismatch (sd_schema document))
  else if negb (bool_decide (ordered_matchups (sd_coverage document)
                             = SIDEBOARD_POLICY_MATCHUP_COVERAGE_V1))
       || negb (postboard_game_index_minimum (sd_coverage document) =? 2)%Z then
    returned PolicyCoverageMismatch
  else
    let? default_plan :=
      if bool_decide (sd_default_plan document = bytes_of "keep_registered_configuration")
      then Ok KeepRegisteredConfiguration
      else returned (UnknownDefaultPlan (sd_default_plan document)) in
    let? plans := try_fold (fun plans plan =>
      let? plan := SideboardPlanV1_new_v1 (pd_self_deck_id plan) (pd_opponent_deck_id plan)
        (pd_game_index plan) (pd_cards_in plan) (pd_cards_out plan) in
      Ok (plans ++ [plan])) [] (sd_plans document) in
    DeterministicSideboardPolicyV1_new_v1 (sd_policy_id document) (sd_deck_ids document)
      default_plan plans.

Section CheckedIn.
Context (CARD_DEFS : list CardDef) (card_id_by_name : bytes -> option Z)
  (policy_from_str : bytes -> result bytes SideboardPolicyDocumentV1)
  (pool_from_str : bytes -> result bytes PauperPoolDocumentV1)
  (PAUPER_SIDEBOARD_POLICY_JSON_V1 PAUPER_POOL_JSON_V1 : bytes).

Definition from_json_v1 (json : bytes) : sideboard_result DeterministicSideboardPolicyV1 :=
  match policy_from_str json with
  | Err error => returned (PolicyJson error)
  | Ok document => from_document document
  end.

Definition checked_in_pauper_v1 : sideboard_result DeterministicSideboardPolicyV1 :=
  from_json_v1 PAUPER_SIDEBOARD_POLICY_JSON_V1.

Definition checked_in_pauper_pool_document_v1 : sideboard_result PauperPoolDocumentV1 :=
  let? document :=
    match pool_from_str PAUPER_POOL_JSON_V1 with
    | Err error => returned (PoolJson error)
    | Ok document => Ok document
    end in
  if negb (bool_decide (pp_schema document = PAUPER_POOL_SCHEMA_V1)) then
    returned (PoolSchemaMismatch (pp_schema document))
  else match pp_decks document with
  | [] => returned EmptyPool
  | _ =>
    let pool_ids := map pk_id (pp_decks document) in
    let? _ := for_each (validate_identifier_v1 (bytes_of "pool deck id")) pool_ids in
    let pool_ids := merge_sort bytes_le pool_ids in
    let? _ := reject_adjacent (fun d => d) DuplicatePoolDeckId pool_ids in
    let? policy := checked_in_pauper_v1 in
    if negb (bool_decide (pool_ids = deck_ids policy)) then returned PoolPolicyDeckSetMismatch
    else Ok document
  end.

Definition checked_in_pauper_registered_decks_v1 : sideboard_result (list RegisteredDeckV1) :=
  let? document := checked_in_pauper_pool_document_v1 in
  try_fold (fun decks deck =>
    let? deck := register_pauper_pool_deck_v1 CARD_DEFS card_id_by_name deck in
    Ok (decks ++ [deck])) [] (pp_decks document).

Definition checked_in_pauper_registered_deck_by_id_v1 (deck_id : bytes)
  : sideboard_result RegisteredDeckV1 :=
  let? _ := validate_identifier_v1 (bytes_of "pool deck id") deck_id in
  let? document := checked_in_pauper_pool_document_v1 in
  match List.find (fun deck => bool_decide (pk_id deck = deck_id)) (pp_decks document) with
  | None => returned (UnknownPoolDeckId deck_id)
  | Some deck => register_pauper_pool_deck_v1 CARD_DEFS card_id_by_name deck
  end.
End CheckedIn.
