(* ===== verification/SideboardFacts.v ===== *)
(** * Sideboarding: orders, counts and the exchange

    The sorting lemmas, the multiset a count map stands for, and what
    [apply_plan_v1] returns on every branch: no branch changes the registered
    75 cards. *)

From Stdlib Require Import String.
From stdpp Require Import gmap.
From S2P Require Import Prelude Bytes Sideboard.

(* ------------------------------------------------------------------ *)
(** ** Loops that only check *)

Lemma for_each_ok {A} (check : A -> sideboard_result unit) l :
  for_each check l = Ok () <-> Forall (fun a => check a = Ok ()) l.
Proof.
  unfold for_each. induction l as [|a l IH]; cbn; [by split|].
  rewrite result_bind_ok, Forall_cons. split.
  - intros ([] & Ha & Hl). by rewrite IH in Hl.
  - intros [Ha Hl]. exists (). by rewrite IH.
Qed.

Lemma for_each_err {A} (check : A -> sideboard_result unit) l e :
  for_each check l = Err e -> exists a, a ∈ l /\ check a = Err e.
Proof.
  unfold for_each. induction l as [|a l IH]; cbn; [done|].
  destruct (check a) as [[]|e'] eqn:F; cbn.
  - intros (b & Hb & E)%IH. exists b. split; [by right|done].
  - intros [= ->]. exists a. split; [by left|done].
Qed.

(** The first element that fails decides. *)
Lemma for_each_first {A} (bad : A -> bool) (e : A -> Failure) l :
  for_each (fun a => if bad a then Err (e a) else Ok ()) l =
  match List.find bad l with Some a => Err (e a) | None => Ok () end.
Proof. unfold for_each. induction l as [|a l IH]; cbn; [done|]. by destruct (bad a). Qed.

(* ------------------------------------------------------------------ *)
(** ** Orders and sorting *)

#[export] Instance bytes_le_total : Total bytes_le.
Proof.
  intros a b. unfold bytes_le. destruct (bytes_lt b a) eqn:E; [right|by left].
  destruct (bytes_lt a b) eqn:E'; [|done].
  pose proof (bytes_lt_trans _ _ _ E E') as C. by rewrite bytes_lt_irrefl in C.
Qed.
#[export] Instance bytes_le_antisymm : AntiSymm (=) bytes_le.
Proof.
  intros a b H1 H2. destruct (decide (a = b)) as [|N]; [done|].
  apply bytes_lt_total in H2; [|done]. unfold bytes_le in H1. congruence.
Qed.
#[export] Instance bytes_le_trans : Transitive bytes_le.
Proof.
  intros a b c H1 H2. unfold bytes_le in *. destruct (bytes_lt c a) eqn:E; [|done].
  destruct (decide (a = b)) as [->|N]; [congruence|].
  apply bytes_lt_total in H1; [|done]. by rewrite (bytes_lt_trans _ _ _ E H1) in H2.
Qed.

#[export] Instance card_count_le_total : Total card_count_le.
Proof. intros a b. unfold card_count_le. lia. Qed.
#[export] Instance card_count_le_trans : Transitive card_count_le.
Proof. intros a b c. unfold card_count_le. lia. Qed.
#[export] Instance card_count_le_antisymm : AntiSymm (=) card_count_le.
Proof. intros [a n] [b k]. unfold card_count_le. cbn. intros. f_equal; lia. Qed.

Lemma bytes_lt_le a b : bytes_lt a b = true -> bytes_le a b.
Proof.
  intros H. unfold bytes_le. destruct (bytes_lt b a) eqn:E; [|done].
  pose proof (bytes_lt_trans _ _ _ H E) as C. by rewrite bytes_lt_irrefl in C.
Qed.

Lemma bytes_lt_trichotomy a b : bytes_lt a b = true \/ a = b \/ bytes_lt b a = true.
Proof.
  destruct (bytes_lt a b) eqn:E; [by left|right].
  destruct (decide (a = b)); [by left|right]. by apply bytes_lt_total.
Qed.

#[export] Instance plan_le_total : Total plan_le.
Proof.
  intros p q. unfold plan_le.
  destruct (bytes_lt_trichotomy (self_deck_id p) (self_deck_id q)) as [|[E|]]; [tauto| |tauto].
  rewrite E.
  destruct (bytes_lt_trichotomy (opponent_deck_id p) (opponent_deck_id q)) as [|[E'|]];
    [tauto| |tauto].
  rewrite E'. destruct (Z.le_ge_cases (game_index p) (game_index q)); tauto.
Qed.
#[export] Instance plan_le_trans : Transitive plan_le.
Proof.
  intros p q r. unfold plan_le.
  intros [Hp|[-> [Hp|[-> Hp]]]] [Hq|[Eq [Hq|[Eq' Hq]]]];
    rewrite ?Eq, ?Eq' in *; eauto 6 using bytes_lt_trans with lia.
Qed.

(** Plans that compare equal both ways have the same key. *)
Lemma plan_le_key p q : plan_le p q -> plan_le q p -> plan_key_v1 p = plan_key_v1 q.
Proof.
  unfold plan_le, plan_key_v1.
  assert (forall a b, bytes_lt a b = true -> bytes_lt b a = true -> False) as C.
  { intros a b H1 H2. pose proof (bytes_lt_trans _ _ _ H1 H2) as H3.
    by rewrite bytes_lt_irrefl in H3. }
  assert (forall a, bytes_lt a a = true -> False) as C1.
  { intros a H1. by rewrite bytes_lt_irrefl in H1. }
  intros Hp Hq.
  destruct Hp as [Hp|[Es Hp]], Hq as [Hq|[Es' Hq]].
  - exfalso. exact (C _ _ Hp Hq).
  - exfalso. rewrite Es' in Hp. exact (C1 _ Hp).
  - exfalso. rewrite Es in Hq. exact (C1 _ Hq).
  - destruct Hp as [Hp|[Eo Hp]], Hq as [Hq|[Eo' Hq]].
    + exfalso. exact (C _ _ Hp Hq).
    + exfalso. rewrite Eo' in Hp. exact (C1 _ Hp).
    + exfalso. rewrite Eo in Hq. exact (C1 _ Hq).
    + rewrite Es, Eo. f_equal. lia.
Qed.

Section Sorting.
Context {A : Type} (R : relation A) `{!RelDecision R} `{!Total R} `{!Transitive R}.

Lemma sorted_merge_sort l : StronglySorted R (merge_sort R l).
Proof using Type*. apply (StronglySorted_merge_sort R). Qed.

(** Sorting with a linear order forgets the order of the input. *)
Lemma merge_sort_perm `{!AntiSymm (=) R} l1 l2 :
  l1 ≡ₚ l2 -> merge_sort R l1 = merge_sort R l2.
Proof using Type*.
  intros H. apply (StronglySorted_unique R); [apply sorted_merge_sort..|].
  by rewrite !merge_sort_Permutation.
Qed.

Lemma merge_sort_sorted `{!AntiSymm (=) R} l : StronglySorted R l -> merge_sort R l = l.
Proof using Type*.
  intros H. apply (StronglySorted_unique R); [apply sorted_merge_sort|done|].
  apply merge_sort_Permutation.
Qed.

(** In a sorted list equal keys are neighbours, so the scan over
    [windows(2)] finds every duplicate. *)
Lemma reject_adjacent_sorted {K} `{EqDecision K} (key : A -> K) e l :
  (forall a b c, R a b -> R b c -> key a = key c -> key a = key b) ->
  StronglySorted R l ->
  reject_adjacent key e l = Ok () <-> NoDup (map key l).
Proof using Type*.
  intros Hkey HS. unfold reject_adjacent. rewrite for_each_ok.
  induction l as [|a l IH]; cbn [windows map]; [split; constructor|].
  apply StronglySorted_inv in HS as [HS Ha]. specialize (IH HS).
  destruct l as [|b l]; cbn [windows map].
  { split; [intros _; apply NoDup_singleton|constructor]. }
  rewrite Forall_cons, IH, (NoDup_cons (key a)). cbn [fst snd].
  cbn [map]. split; (intros [H1 H2]; split; [|done]).
  - intros Hin. case_decide as D; [discriminate|].
    apply elem_of_cons in Hin as [Hin|Hin]; [done|].
    apply list_elem_of_In, in_map_iff in Hin as (c & Ec & Hc).
    apply list_elem_of_In in Hc.
    apply StronglySorted_inv in HS as [_ Hb]. rewrite Forall_forall in Ha, Hb.
    apply D, (Hkey a b c); [apply Ha; by left|by apply Hb|done].
  - case_decide as D; [|done]. exfalso. apply H1. rewrite D. by left.
Qed.
End Sorting.

Lemma sort_cards_perm l : sort_cards l ≡ₚ l.
Proof. apply merge_sort_Permutation. Qed.
Lemma sort_cards_sorted l : StronglySorted Z.le (sort_cards l).
Proof. apply (sorted_merge_sort Z.le). Qed.
Lemma length_sort_cards l : length (sort_cards l) = length l.
Proof. by rewrite sort_cards_perm. Qed.

(* ------------------------------------------------------------------ *)
(** ** Multisets of cards *)

(** How many copies of [c] the list holds. *)
Definition occ (c : Z) (l : list Z) : Z := Z.of_nat (count_occ Z.eq_dec l c).

Lemma occ_perm l1 l2 : l1 ≡ₚ l2 <-> forall c, occ c l1 = occ c l2.
Proof.
  rewrite (Permutation_count_occ Z.eq_dec). unfold occ.
  split; intros H c; specialize (H c); lia.
Qed.

#[export] Instance occ_proper c : Proper ((≡ₚ) ==> (=)) (occ c).
Proof. intros l1 l2 H. by apply occ_perm. Qed.

Lemma occ_app c l1 l2 : occ c (l1 ++ l2) = (occ c l1 + occ c l2)%Z.
Proof. unfold occ. rewrite count_occ_app. lia. Qed.

Lemma occ_cons c x l : occ c (x :: l) = ((if decide (c = x) then 1 else 0) + occ c l)%Z.
Proof.
  unfold occ. cbn. destruct (Z.eq_dec x c) as [->|N].
  - rewrite decide_True by done. lia.
  - rewrite decide_False by congruence. lia.
Qed.

Lemma occ_bounds c l : (0 <= occ c l <= Z.of_nat (length l))%Z.
Proof. unfold occ. pose proof (count_occ_bound Z.eq_dec c l). lia. Qed.

Lemma occ_replicate c n x :
  occ c (replicate n x) = (if decide (c = x) then Z.of_nat n else 0)%Z.
Proof.
  induction n as [|n IH]; cbn [replicate]; [by case_decide|].
  rewrite occ_cons, IH. case_decide; lia.
Qed.

(** The cards a list of rows stands for, and how many of them are [c]. *)
Definition row_cards (rows : list CardCountV1) : list Z :=
  flat_map (fun r => replicate (Z.to_nat (count r)) (card_id r)) rows.
Definition amount (c : Z) (rows : list CardCountV1) : Z := occ c (row_cards rows).

Lemma amount_cons c r rows : (0 <= count r)%Z ->
  amount c (r :: rows) = ((if decide (c = card_id r) then count r else 0) + amount c rows)%Z.
Proof.
  intros H. unfold amount. cbn [row_cards flat_map]. rewrite occ_app, occ_replicate.
  case_decide; f_equal; lia.
Qed.

Lemma amount_nonneg c rows : (0 <= amount c rows)%Z.
Proof. apply occ_bounds. Qed.

Lemma amount_absent c rows : c ∉ map card_id rows -> amount c rows = 0%Z.
Proof.
  induction rows as [|r rows IH]; [done|]. cbn [map]. rewrite not_elem_of_cons. intros [N H].
  unfold amount. cbn [row_cards flat_map]. rewrite occ_app, occ_replicate, decide_False by done.
  by apply IH.
Qed.

(** Without duplicate rows a row carries its card's whole amount. *)
Lemma amount_row r rows :
  NoDup (map card_id rows) -> Forall (fun r => 0 <= count r)%Z rows -> r ∈ rows ->
  amount (card_id r) rows = count r.
Proof.
  induction rows as [|r' rows IH]; [by intros _ _ ?%elem_of_nil|].
  cbn [map]. intros [Nin ND]%NoDup_cons [P' P]%Forall_cons Hr.
  rewrite amount_cons by done. apply elem_of_cons in Hr as [->|Hr].
  - rewrite decide_True by done. rewrite amount_absent by done. lia.
  - rewrite decide_False; [by rewrite IH|]. intros E. apply Nin. rewrite <- E.
    apply list_elem_of_In, in_map_iff. exists r. split; [done|]. by apply list_elem_of_In.
Qed.

Lemma length_row_cards rows : Forall (fun r => 0 <= count r)%Z rows ->
  Z.of_nat (length (row_cards rows)) = count_total_v1 rows.
Proof.
  unfold count_total_v1. induction 1 as [|r rows H _ IH]; [done|].
  cbn [row_cards flat_map map foldr]. rewrite length_app, length_replicate.
  unfold row_cards in IH. lia.
Qed.

Lemma amount_le_total c rows : Forall (fun r => 0 <= count r)%Z rows ->
  (amount c rows <= count_total_v1 rows)%Z.
Proof. intros H. rewrite <- length_row_cards by done. apply occ_bounds. Qed.

(* ------------------------------------------------------------------ *)
(** ** The multiset a count map stands for *)

Definition nonzero (n : Z) : option Z := if decide (n = 0)%Z then None else Some n.

(** [m] holds [f c] copies of each card [c], and no zero entry. *)
Definition stands_for (m : counts) (f : Z -> Z) : Prop := forall c, m !! c = nonzero (f c).

Lemma stands_at m f c : stands_for m f -> default 0%Z (m !! c) = f c.
Proof. intros H. rewrite H. unfold nonzero. by case_decide. Qed.

Lemma stands_unique m m' f g :
  stands_for m f -> stands_for m' g -> (forall c, f c = g c) -> m = m'.
Proof. intros H H' E. apply map_eq. intros c. by rewrite H, H', E. Qed.

Lemma stands_ext m f g : stands_for m f -> (forall c, f c = g c) -> stands_for m g.
Proof. intros H E c. by rewrite <- E. Qed.

(** Adding never wraps while a card has at most 255 copies. *)
Lemma stands_add m f c n :
  stands_for m f -> (0 <= f c)%Z -> (0 < n)%Z -> (f c + n <= 255)%Z ->
  stands_for (entry_add c n m) (fun c' => f c' + (if decide (c' = c) then n else 0))%Z.
Proof.
  intros H Hf Hn Hb c'. unfold entry_add. rewrite (stands_at m f) by done.
  rewrite wrap_u8_small by lia. case_decide as D.
  - subst c'. rewrite lookup_insert_eq. unfold nonzero. by rewrite decide_False by lia.
  - rewrite lookup_insert_ne by done. by rewrite H, Z.add_0_r.
Qed.

Lemma stands_add_cards l : forall m f,
  stands_for m f -> (forall c, 0 <= f c)%Z -> (forall c, f c + occ c l <= 255)%Z ->
  stands_for (foldl (fun m c => entry_add c 1 m) m l) (fun c => f c + occ c l)%Z.
Proof.
  induction l as [|x l IH]; intros m f H Hf Hb; cbn [foldl].
  { eapply stands_ext; [exact H|]. intros c. change (occ c []) with 0%Z. lia. }
  assert (forall c, f c + ((if decide (c = x) then 1 else 0) + occ c l) <= 255)%Z as Hb'.
  { intros c. rewrite <- occ_cons. apply Hb. }
  eapply stands_ext; [apply IH; [apply stands_add; [exact H|apply Hf|lia|]|..]|].
  - specialize (Hb' x). rewrite decide_True in Hb' by done.
    pose proof (occ_bounds x l). lia.
  - intros c. cbn beta. specialize (Hf c). case_decide; lia.
  - intros c. cbn beta. specialize (Hb' c). case_decide; lia.
  - intros c. cbn beta. rewrite occ_cons. lia.
Qed.

Lemma stands_from_cards l : (length l <= 255)%nat ->
  stands_for (counts_from_cards_v1 l) (fun c => occ c l).
Proof.
  intros H. apply (stands_add_cards l ∅ (fun _ => 0%Z)); [done|done|].
  intros c. pose proof (occ_bounds c l). lia.
Qed.

(** [remove_count_v1] succeeds exactly when the copies are there. *)
Lemma remove_count_spec m f r zone :
  stands_for m f -> (0 < count r)%Z ->
  if (f (card_id r) <? count r)%Z then
    remove_count_v1 m r zone
    = returned (CardUnavailable zone (card_id r) (count r) (f (card_id r)))
  else exists m', remove_count_v1 m r zone = Ok m' /\
    stands_for m' (fun c => f c - (if decide (c = card_id r) then count r else 0))%Z.
Proof.
  intros H Hr. unfold remove_count_v1. rewrite (stands_at m f) by done.
  destruct (Z.ltb_spec (f (card_id r)) (count r)); [done|].
  destruct (Z.eqb_spec (f (card_id r)) (count r)) as [E|N]; eexists; (split; [done|]);
    intros c; destruct (decide (c = card_id r)) as [->|D].
  - rewrite lookup_delete_eq. unfold nonzero. by rewrite decide_True by lia.
  - rewrite lookup_delete_ne by done. by rewrite H, Z.sub_0_r.
  - rewrite lookup_insert_eq. unfold nonzero. by rewrite decide_False by lia.
  - rewrite lookup_insert_ne by done. by rewrite H, Z.sub_0_r.
Qed.

Lemma occ_expand_keys f c ks : NoDup ks -> (forall k, 0 <= f k)%Z ->
  occ c (flat_map (fun k => replicate (Z.to_nat (f k)) k) ks)
  = (if decide (c ∈ ks) then f c else 0)%Z.
Proof.
  intros ND Hf. induction ND as [|k ks Nin ND IH]; cbn [flat_map]; [done|].
  rewrite occ_app, occ_replicate, IH. specialize (Hf k).
  destruct (decide (c = k)) as [->|D].
  - rewrite (decide_False (P := k ∈ ks)) by done. rewrite decide_True by left. lia.
  - destruct (decide (c ∈ ks)) as [I|I]; [rewrite decide_True by (by right)|rewrite decide_False];
      [lia|lia|]. by rewrite not_elem_of_cons.
Qed.

Lemma occ_expand m f c : stands_for m f -> (forall k, 0 <= f k)%Z ->
  occ c (expand_counts_v1 m) = f c.
Proof.
  intros H Hf. unfold expand_counts_v1, counts_iter. rewrite !flat_map_concat_map, map_map.
  cbn [fst snd]. rewrite <- flat_map_concat_map.
  erewrite flat_map_ext; [|intros k; by rewrite (stands_at m f)].
  rewrite occ_expand_keys; [|rewrite sort_cards_perm; apply NoDup_fst_map_to_list|done].
  case_decide as D; [done|]. rewrite sort_cards_perm in D.
  pose proof (H c) as Hc. unfold nonzero in Hc. case_decide as E; [by rewrite E|].
  exfalso. apply D. apply list_elem_of_In, in_map_iff. exists (c, f c). split; [done|].
  by apply list_elem_of_In, elem_of_map_to_list.
Qed.

(* ------------------------------------------------------------------ *)
(** ** Well-formed values *)

Definition identifier_ok (v : bytes) : Prop :=
  v <> [] /\ (length v <= 128)%nat /\ Forall (fun b => identifier_byte b = true) v.

Lemma validate_identifier_ok field v :
  validate_identifier_v1 field v = Ok () <-> identifier_ok v.
Proof.
  unfold validate_identifier_v1, identifier_ok. rewrite Forall_forall.
  case_bool_decide as E1; cbn [orb]; [split; [done|tauto]|].
  destruct (Z.ltb_spec 128 (Z.of_nat (length v))); cbn [orb]; [split; [done|lia]|].
  destruct (forallb identifier_byte v) eqn:E2; cbn [negb].
  - rewrite forallb_forall in E2. split; [intros _|done]. split_and!; [done|lia|].
    intros b Hb. by apply E2, list_elem_of_In.
  - split; [done|]. intros (_ & _ & Hb). exfalso. apply not_true_iff_false in E2. apply E2.
    apply forallb_forall. intros b Hin. by apply Hb, list_elem_of_In.
Qed.

Record config_wf (c : DeckConfigurationV1) : Prop := {
  wf_mainboard_size : length (mainboard c) = REGISTERED_MAINBOARD_SIZE_V1;
  wf_sideboard_size : length (sideboard c) = REGISTERED_SIDEBOARD_SIZE_V1;
  wf_mainboard_sorted : StronglySorted Z.le (mainboard c);
  wf_sideboard_sorted : StronglySorted Z.le (sideboard c);
}.

Record deck_wf (d : RegisteredDeckV1) : Prop := {
  wf_deck_id : identifier_ok (deck_id d);
  wf_registered : config_wf (registered_configuration d);
}.

Record rows_wf (rows : list CardCountV1) : Prop := {
  wf_rows_sorted : StronglySorted card_count_le rows;
  wf_rows_positive : Forall (fun r => 0 < count r)%Z rows;
  wf_rows_distinct : NoDup (map card_id rows);
}.

Record plan_wf (p : SideboardPlanV1) : Prop := {
  wf_self : identifier_ok (self_deck_id p);
  wf_opponent : identifier_ok (opponent_deck_id p);
  wf_game : (2 <= game_index p)%Z;
  wf_in : rows_wf (cards_in p);
  wf_out : rows_wf (cards_out p);
  wf_equal : count_total_v1 (cards_in p) = count_total_v1 (cards_out p);
  wf_bounded : (count_total_v1 (cards_in p) <= 15)%Z;
  wf_disjoint : forall c, c ∈ map card_id (cards_in p) -> c ∉ map card_id (cards_out p);
}.

Lemma rows_wf_nonneg rows : rows_wf rows -> Forall (fun r => 0 <= count r)%Z rows.
Proof. intros [_ H _]. eapply Forall_impl; [exact H|]. cbn. lia. Qed.

Lemma configuration_new_ok m s c :
  DeckConfigurationV1_new_exact_v1 m s = Ok c <->
  length m = REGISTERED_MAINBOARD_SIZE_V1 /\ length s = REGISTERED_SIDEBOARD_SIZE_V1 /\
  c = MkConfiguration (sort_cards m) (sort_cards s).
Proof.
  unfold DeckConfigurationV1_new_exact_v1.
  destruct (Nat.eqb_spec (length m) REGISTERED_MAINBOARD_SIZE_V1); cbn [negb];
    [|split; [done|tauto]].
  destruct (Nat.eqb_spec (length s) REGISTERED_SIDEBOARD_SIZE_V1); cbn [negb];
    [|split; [done|tauto]].
  split; [intros [= <-]; done|]. by intros (_ & _ & ->).
Qed.

Lemma configuration_new_wf m s c :
  DeckConfigurationV1_new_exact_v1 m s = Ok c ->
  config_wf c /\ mainboard c ≡ₚ m /\ sideboard c ≡ₚ s.
Proof.
  intros (Hm & Hs & ->)%configuration_new_ok.
  split; [split; cbn|split; apply sort_cards_perm];
    rewrite ?length_sort_cards; auto using sort_cards_sorted.
Qed.

Lemma registered_new_wf id m s d :
  RegisteredDeckV1_new_exact_v1 id m s = Ok d ->
  deck_wf d /\ deck_id d = id /\
  mainboard (registered_configuration d) ≡ₚ m /\ sideboard (registered_configuration d) ≡ₚ s.
Proof.
  unfold RegisteredDeckV1_new_exact_v1. intros H. inv_bind H. subst d. cbn.
  destruct a as []. apply validate_identifier_ok in E. apply configuration_new_wf in E0.
  by destruct E0 as (? & ? & ?).
Qed.

(* ------------------------------------------------------------------ *)
(** ** The combined 75 cards *)

Definition all_cards (c : DeckConfigurationV1) : list Z := mainboard c ++ sideboard c.

Lemma length_all_cards c : config_wf c -> length (all_cards c) = REGISTERED_DECK_SIZE_V1.
Proof. intros [Hm Hs _ _]. unfold all_cards. by rewrite length_app, Hm, Hs. Qed.

Lemma stands_combined c : config_wf c ->
  stands_for (foldl (fun m card => entry_add card 1 m)
    (counts_from_cards_v1 (mainboard c)) (sideboard c)) (fun x => occ x (all_cards c)).
Proof.
  intros [Hm Hs _ _].
  eapply stands_ext; [apply stands_add_cards; [apply stands_from_cards|..]|].
  - rewrite Hm. by vm_compute; lia.
  - intros x. apply occ_bounds.
  - intros x. pose proof (occ_bounds x (mainboard c)). pose proof (occ_bounds x (sideboard c)).
    unfold REGISTERED_MAINBOARD_SIZE_V1, REGISTERED_SIDEBOARD_SIZE_V1 in *. lia.
  - intros x. cbn beta. unfold all_cards. by rewrite occ_app.
Qed.

Lemma expand_rows m : expand_counts_v1 m = row_cards (counts_to_rows_v1 m).
Proof.
  unfold expand_counts_v1, row_cards, counts_to_rows_v1.
  by rewrite !flat_map_concat_map, map_map.
Qed.

Lemma amount_combined c x : config_wf c ->
  amount x (combined_card_counts_v1 c) = occ x (all_cards c).
Proof.
  intros H. unfold amount, combined_card_counts_v1. rewrite <- expand_rows.
  apply (occ_expand _ (fun x => occ x (all_cards c))); [by apply stands_combined|].
  intros k. apply occ_bounds.
Qed.

(** Equal combined counts are exactly equal 75-card multisets. *)
Lemma combined_counts_perm c1 c2 : config_wf c1 -> config_wf c2 ->
  combined_card_counts_v1 c1 = combined_card_counts_v1 c2 <-> all_cards c1 ≡ₚ all_cards c2.
Proof.
  intros H1 H2. rewrite occ_perm. split.
  - intros E x. by rewrite <- !amount_combined, E.
  - intros E. unfold combined_card_counts_v1. f_equal.
    by eapply stands_unique; [apply stands_combined..|].
Qed.

(* ------------------------------------------------------------------ *)
(** ** The exchange *)

(** The first row that asks for more copies than [cards] has. *)
Definition short_row (f : Z -> Z) (rows : list CardCountV1) : option CardCountV1 :=
  List.find (fun r => f (card_id r) <? count r)%Z rows.

Lemma short_row_ext f g rows :
  (forall c, c ∈ map card_id rows -> f c = g c) -> short_row f rows = short_row g rows.
Proof.
  unfold short_row. induction rows as [|r rows IH]; intros H; cbn; [done|].
  rewrite (H (card_id r)) by left. rewrite IH; [done|]. intros c Hc. apply H. by right.
Qed.

Lemma short_row_none f rows c : short_row f rows = None -> rows_wf rows ->
  (forall c, 0 <= f c)%Z -> (amount c rows <= f c)%Z.
Proof.
  intros Hs W Hf. destruct (decide (c ∈ map card_id rows)) as [Hin|Hin].
  - apply list_elem_of_In, in_map_iff in Hin as (r & <- & Hr).
    pose proof (find_none _ _ Hs r Hr) as L. cbn in L. apply Z.ltb_ge in L.
    rewrite amount_row; [done|apply W|by apply rows_wf_nonneg|by apply list_elem_of_In].
  - rewrite amount_absent by done. apply Hf.
Qed.

Lemma exchange_spec zone rows : forall s d f g,
  stands_for s f -> stands_for d g -> (forall c, 0 <= f c)%Z -> (forall c, 0 <= g c)%Z ->
  NoDup (map card_id rows) -> Forall (fun r => 0 < count r)%Z rows ->
  (forall c, g c + amount c rows <= 255)%Z ->
  match short_row f rows with
  | Some r => exchange zone (s, d) rows
      = returned (CardUnavailable zone (card_id r) (count r) (f (card_id r)))
  | None => exists s' d', exchange zone (s, d) rows = Ok (s', d') /\
      stands_for s' (fun c => f c - amount c rows)%Z /\
      stands_for d' (fun c => g c + amount c rows)%Z
  end.
Proof.
  unfold exchange, short_row.
  induction rows as [|r rows IH]; intros s d f g Hs Hd Hf Hg ND P B; cbn [try_fold List.find].
  { exists s, d. split; [done|]. split; (eapply stands_ext; [eassumption|]);
      intros c; change (amount c []) with 0%Z; lia. }
  cbn [map] in ND. apply NoDup_cons in ND as [Nin ND]. apply Forall_cons in P as [Pr P].
  assert (forall c, amount c (r :: rows)
    = (if decide (c = card_id r) then count r else 0) + amount c rows)%Z as A.
  { intros c. apply amount_cons. lia. }
  pose proof (remove_count_spec s f r zone Hs Pr) as R. cbn [fst snd].
  destruct (Z.ltb_spec (f (card_id r)) (count r)) as [L|L]; [by rewrite R|].
  destruct R as (s1 & -> & Hs1). cbn [result_bind].
  assert (stands_for (add_count_v1 d r)
    (fun c => g c + (if decide (c = card_id r) then count r else 0))%Z) as Hd1.
  { apply stands_add; [done|apply Hg|done|]. specialize (B (card_id r)).
    rewrite A, decide_True in B by done. pose proof (amount_nonneg (card_id r) rows). lia. }
  assert (forall c, (0 <= (if decide (c = card_id r) then count r else 0))%Z) as P0.
  { intros c. case_decide; lia. }
  refine (_ (IH s1 (add_count_v1 d r) _ _ Hs1 Hd1 _ _ ND P _)); cbn beta.
  - fold (short_row f rows).
    rewrite (short_row_ext f (fun c => f c - (if decide (c = card_id r) then count r else 0))%Z).
    2:{ intros c Hc. rewrite decide_False by congruence. lia. }
    unfold short_row. destruct (List.find _ rows) as [r1|] eqn:F.
    + intros E. rewrite E. apply find_some in F as [Hin _].
      rewrite decide_False; [by rewrite Z.sub_0_r|]. intros E1. apply Nin. rewrite <- E1.
      apply list_elem_of_In, in_map_iff. eauto.
    + intros (s' & d' & E & H1 & H2). exists s', d'. split; [done|].
      split; (eapply stands_ext; [eassumption|]); intros c; cbn beta; rewrite A; lia.
  - intros c. specialize (Hf c). case_decide; subst; lia.
  - intros c. specialize (Hg c). specialize (P0 c). lia.
  - intros c. specialize (B c). rewrite A in B. lia.
Qed.

(** The multisets the exchange asks for. *)
Definition exchanged (plan : SideboardPlanV1) (before after : DeckConfigurationV1) : Prop :=
  forall c,
    occ c (mainboard after)
    = (occ c (mainboard before) - amount c (cards_out plan) + amount c (cards_in plan))%Z /\
    occ c (sideboard after)
    = (occ c (sideboard before) + amount c (cards_out plan) - amount c (cards_in plan))%Z.

(** The receipt of one application: the identities, the plan and the hashes
    of the zones before and after. *)
Record receipt_matches (sha : bytes -> bytes) (d : RegisteredDeckV1) (plan : SideboardPlanV1)
    (pid psha : bytes) (after : DeckConfigurationV1) (r : AppliedSideboardReceiptV1) : Prop := {
  rm_ids : (r_schema r, r_policy_id r, r_policy_sha256 r, r_self_deck_id r, r_opponent_deck_id r,
            r_game_index r, r_cards_in r, r_cards_out r)
           = (SIDEBOARD_RECEIPT_SCHEMA_V1, pid, psha, deck_id d, opponent_deck_id plan,
              game_index plan, cards_in plan, cards_out plan);
  rm_registered : registered_75_sha256_v1 sha d = Ok (r_registered_75_sha256 r);
  rm_before_main : mainboard_sha256_v1 sha (registered_configuration d)
                   = Ok (r_before_mainboard_sha256 r);
  rm_before_side : sideboard_sha256_v1 sha (registered_configuration d)
                   = Ok (r_before_sideboard_sha256 r);
  rm_after_main : mainboard_sha256_v1 sha after = Ok (r_after_mainboard_sha256 r);
  rm_after_side : sideboard_sha256_v1 sha after = Ok (r_after_sideboard_sha256 r);
}.

(** No length of a well-formed value panics. *)
Lemma push_len_small b n : (n <= 4096)%nat ->
  push_len_v1 b n = Ok (b ++ to_be_bytes 4 (Z.of_nat n)).
Proof. intros H. unfold push_len_v1, u32_max. by rewrite (proj2 (Z.leb_le _ _)) by lia. Qed.

Lemma zone_sha_total sha zone cards :
  (length zone <= 128)%nat -> (length cards <= 128)%nat ->
  exists h, configuration_zone_sha256_v1 sha zone cards = Ok h.
Proof.
  intros Hz Hc. unfold configuration_zone_sha256_v1, push_string_v1, push_bytes_v1, push_cards_v1.
  rewrite push_len_small by (vm_compute; lia). cbn [result_bind].
  rewrite push_len_small by lia. cbn [result_bind].
  rewrite push_len_small by lia. cbn [result_bind]. eauto.
Qed.

Lemma deck_sha_total sha d : deck_wf d -> exists h, registered_75_sha256_v1 sha d = Ok h.
Proof.
  intros [(_ & Hl & _) [Hm Hs _ _]].
  unfold REGISTERED_MAINBOARD_SIZE_V1, REGISTERED_SIDEBOARD_SIZE_V1 in *.
  unfold registered_75_sha256_v1, push_string_v1, push_bytes_v1, push_cards_v1.
  rewrite push_len_small by (vm_compute; lia). cbn [result_bind].
  rewrite push_len_small by lia. cbn [result_bind].
  rewrite push_len_small by lia. cbn [result_bind].
  rewrite push_len_small by lia. cbn [result_bind]. eauto.
Qed.

Lemma config_sha_total sha c : config_wf c ->
  (exists h, mainboard_sha256_v1 sha c = Ok h) /\ (exists h, sideboard_sha256_v1 sha c = Ok h).
Proof.
  intros [Hm Hs _ _]. unfold REGISTERED_MAINBOARD_SIZE_V1, REGISTERED_SIDEBOARD_SIZE_V1 in *.
  split; apply zone_sha_total; rewrite ?Hm, ?Hs; vm_compute; lia.
Qed.

(** Both exchange loops over a configuration, from its count maps to the
    count maps of the result. *)
Lemma both_exchanges c plan : config_wf c -> plan_wf plan ->
  match short_row (fun x => occ x (mainboard c)) (cards_out plan) with
  | Some r => exchange RegisteredMainboard
        (counts_from_cards_v1 (mainboard c), counts_from_cards_v1 (sideboard c)) (cards_out plan)
      = returned (CardUnavailable RegisteredMainboard (card_id r) (count r)
                   (occ (card_id r) (mainboard c)))
  | None => exists m1 s1,
      exchange RegisteredMainboard
        (counts_from_cards_v1 (mainboard c), counts_from_cards_v1 (sideboard c)) (cards_out plan)
      = Ok (m1, s1) /\
      match short_row (fun x => occ x (sideboard c)) (cards_in plan) with
      | Some r => exchange RegisteredSideboard (s1, m1) (cards_in plan)
          = returned (CardUnavailable RegisteredSideboard (card_id r) (count r)
                       (occ (card_id r) (sideboard c)))
      | None => exists s2 m2,
          exchange RegisteredSideboard (s1, m1) (cards_in plan) = Ok (s2, m2) /\
          stands_for m2 (fun x => occ x (mainboard c) - amount x (cards_out plan)
                                  + amount x (cards_in plan))%Z /\
          stands_for s2 (fun x => occ x (sideboard c) + amount x (cards_out plan)
                                  - amount x (cards_in plan))%Z
      end
  end.
Proof.
  intros [Hm Hs _ _] [_ _ _ Win Wout Eq Bd Disj].
  unfold REGISTERED_MAINBOARD_SIZE_V1, REGISTERED_SIDEBOARD_SIZE_V1 in *.
  assert (forall x, amount x (cards_in plan) <= 15)%Z as Bin.
  { intros x. pose proof (amount_le_total x _ (rows_wf_nonneg _ Win)). lia. }
  assert (forall x, amount x (cards_out plan) <= 15)%Z as Bout.
  { intros x. pose proof (amount_le_total x _ (rows_wf_nonneg _ Wout)). lia. }
  assert (stands_for (counts_from_cards_v1 (mainboard c)) (fun x => occ x (mainboard c))) as Sm.
  { apply stands_from_cards. lia. }
  assert (stands_for (counts_from_cards_v1 (sideboard c)) (fun x => occ x (sideboard c))) as Ss.
  { apply stands_from_cards. lia. }
  pose proof (exchange_spec RegisteredMainboard (cards_out plan) _ _ _ _ Sm Ss) as X.
  cbn beta in X.
  assert (forall x l, 0 <= occ x l)%Z as P by (intros; apply occ_bounds).
  specialize (X (fun x => P x _) (fun x => P x _) (wf_rows_distinct _ Wout)
                (wf_rows_positive _ Wout)).
  destruct (short_row (fun x => occ x (mainboard c)) (cards_out plan)) as [r|] eqn:F.
  { apply X.
    intros x. pose proof (occ_bounds x (sideboard c)). specialize (Bout x). lia. }
  destruct X as (m1 & s1 & -> & Hm1 & Hs1).
  { intros x. pose proof (occ_bounds x (sideboard c)). specialize (Bout x). lia. }
  exists m1, s1. split; [done|].
  pose proof (exchange_spec RegisteredSideboard (cards_in plan) _ _ _ _ Hs1 Hm1) as X.
  cbn beta in X.
  rewrite (short_row_ext _ (fun x => occ x (sideboard c))) in X.
  2:{ intros x Hx. rewrite (amount_absent x (cards_out plan)) by (by apply Disj). lia. }
  assert (forall x, 0 <= occ x (mainboard c) - amount x (cards_out plan))%Z as P1.
  { intros x. pose proof (short_row_none _ _ x F Wout (fun x => P x _)) as H. cbn in H. lia. }
  specialize (X (fun x => Z.add_nonneg_nonneg _ _ (P x _) (amount_nonneg x _)) P1
                (wf_rows_distinct _ Win) (wf_rows_positive _ Win)).
  destruct (short_row (fun x => occ x (sideboard c)) (cards_in plan)) as [r|] eqn:G.
  - rewrite X.
    + f_equal. f_equal. f_equal. apply find_some in G as [Hr _].
      rewrite (amount_absent _ (cards_out plan)); [lia|]. apply Disj.
      apply list_elem_of_In, in_map_iff. eauto.
    + intros x. pose proof (occ_bounds x (mainboard c)). specialize (Bin x).
      pose proof (amount_nonneg x (cards_out plan)). lia.
  - destruct X as (s2 & m2 & E2 & Hs2 & Hm2).
    + intros x. pose proof (occ_bounds x (mainboard c)). specialize (Bin x).
      pose proof (amount_nonneg x (cards_out plan)). lia.
    + exists s2, m2. done.
Qed.

(** The exchanged counts expand to a 60/15 configuration. *)
Lemma expanded_configuration c plan m2 s2 : config_wf c -> plan_wf plan ->
  stands_for m2 (fun x => occ x (mainboard c) - amount x (cards_out plan)
                          + amount x (cards_in plan))%Z ->
  stands_for s2 (fun x => occ x (sideboard c) + amount x (cards_out plan)
                          - amount x (cards_in plan))%Z ->
  (forall x, amount x (cards_out plan) <= occ x (mainboard c))%Z ->
  (forall x, amount x (cards_in plan) <= occ x (sideboard c))%Z ->
  exists after,
    DeckConfigurationV1_new_exact_v1 (expand_counts_v1 m2) (expand_counts_v1 s2) = Ok after /\
    config_wf after /\ exchanged plan c after.
Proof.
  intros [Hm Hs _ _] [_ _ _ Win Wout Eq _ _] Hm2 Hs2 Lm Ls.
  assert (forall x, occ x (expand_counts_v1 m2) = occ x (mainboard c)
            - amount x (cards_out plan) + amount x (cards_in plan))%Z as Om.
  { intros x. rewrite (occ_expand _ _ _ Hm2); [done|]. intros y. specialize (Lm y).
    pose proof (amount_nonneg y (cards_in plan)). lia. }
  assert (forall x, occ x (expand_counts_v1 s2) = occ x (sideboard c)
            + amount x (cards_out plan) - amount x (cards_in plan))%Z as Os.
  { intros x. rewrite (occ_expand _ _ _ Hs2); [done|]. intros y. specialize (Ls y).
    pose proof (amount_nonneg y (cards_out plan)). lia. }
  assert (expand_counts_v1 m2 ++ row_cards (cards_out plan)
          ≡ₚ mainboard c ++ row_cards (cards_in plan)) as Pm%Permutation_length.
  { apply occ_perm. intros x. rewrite !occ_app, Om. unfold amount. lia. }
  assert (expand_counts_v1 s2 ++ row_cards (cards_in plan)
          ≡ₚ sideboard c ++ row_cards (cards_out plan)) as Ps%Permutation_length.
  { apply occ_perm. intros x. rewrite !occ_app, Os. unfold amount. lia. }
  rewrite !length_app in Pm, Ps.
  pose proof (length_row_cards _ (rows_wf_nonneg _ Win)).
  pose proof (length_row_cards _ (rows_wf_nonneg _ Wout)).
  assert (length (expand_counts_v1 m2) = REGISTERED_MAINBOARD_SIZE_V1) as Em by lia.
  assert (length (expand_counts_v1 s2) = REGISTERED_SIDEBOARD_SIZE_V1) as Es by lia.
  eexists. split; [by apply configuration_new_ok|]. split.
  - by eapply configuration_new_wf, configuration_new_ok.
  - intros x. cbn [mainboard sideboard]. by rewrite !sort_cards_perm, Om, Os.
Qed.

Lemma exchanged_conserves plan before after :
  exchanged plan before after -> all_cards after ≡ₚ all_cards before.
Proof.
  intros H. apply occ_perm. intros x. unfold all_cards. rewrite !occ_app.
  destruct (H x) as [-> ->]. lia.
Qed.

(** Once the configuration is built nothing else fails. *)
Lemma apply_plan_receipt sha d plan pid psha after :
  deck_wf d -> config_wf after -> all_cards after ≡ₚ all_cards (registered_configuration d) ->
  exists r, receipt_matches sha d plan pid psha after r /\
  (if negb (bool_decide (combined_card_counts_v1 after
                         = combined_card_counts_v1 (registered_configuration d)))
   then returned RegisteredMultisetChanged else
   let? h0 := registered_75_sha256_v1 sha d in
   let? h1 := mainboard_sha256_v1 sha (registered_configuration d) in
   let? h2 := sideboard_sha256_v1 sha (registered_configuration d) in
   let? h3 := mainboard_sha256_v1 sha after in
   let? h4 := sideboard_sha256_v1 sha after in
   Ok (after, MkReceipt SIDEBOARD_RECEIPT_SCHEMA_V1 pid psha (deck_id d) (opponent_deck_id plan)
         (game_index plan) h0 h1 h2 (cards_in plan) (cards_out plan) h3 h4))
  = Ok (after, r).
Proof.
  intros Wd Wa P. pose proof (wf_registered _ Wd) as Wc.
  rewrite bool_decide_eq_true_2 by (by apply combined_counts_perm). cbn [negb].
  destruct (deck_sha_total sha d Wd) as [h0 H0]. rewrite H0. cbn [result_bind].
  destruct (config_sha_total sha _ Wc) as [[h1 H1] [h2 H2]].
  rewrite H1; cbn [result_bind]. rewrite H2; cbn [result_bind].
  destruct (config_sha_total sha _ Wa) as [[h3 H3] [h4 H4]].
  rewrite H3; cbn [result_bind]. rewrite H4; cbn [result_bind].
  eexists. split; [|done]. by split.
Qed.

(** Applying a plan is exactly the exchange it describes; otherwise the first
    short row, cards out first, is reported. *)
Lemma apply_plan_exact sha d plan pid psha :
  deck_wf d -> plan_wf plan -> self_deck_id plan = deck_id d -> identifier_ok pid ->
  let before := registered_configuration d in
  match short_row (fun c => occ c (mainboard before)) (cards_out plan),
        short_row (fun c => occ c (sideboard before)) (cards_in plan) with
  | Some r, _ => apply_plan_v1 sha d plan pid psha
      = returned (CardUnavailable RegisteredMainboard (card_id r) (count r)
                   (occ (card_id r) (mainboard before)))
  | None, Some r => apply_plan_v1 sha d plan pid psha
      = returned (CardUnavailable RegisteredSideboard (card_id r) (count r)
                   (occ (card_id r) (sideboard before)))
  | None, None => exists after r, apply_plan_v1 sha d plan pid psha = Ok (after, r) /\
      config_wf after /\ exchanged plan before after /\ all_cards after ≡ₚ all_cards before /\
      receipt_matches sha d plan pid psha after r
  end.
Proof.
  intros Wd Wp Hid Hpid before. unfold apply_plan_v1.
  rewrite bool_decide_eq_true_2 by done. cbn [negb].
  rewrite (proj2 (validate_identifier_ok _ _) Hpid). cbn [result_bind]. fold before.
  pose proof (both_exchanges before plan (wf_registered _ Wd) Wp) as X.
  destruct (short_row _ (cards_out plan)) as [r|] eqn:F; [by rewrite X|].
  destruct X as (m1 & s1 & -> & X). cbn [result_bind].
  destruct (short_row _ (cards_in plan)) as [r|] eqn:G; [by rewrite X|].
  destruct X as (s2 & m2 & -> & Hm & Hs). cbn [result_bind].
  assert (forall x l, 0 <= occ x l)%Z as P by (intros; apply occ_bounds).
  destruct (expanded_configuration before plan m2 s2 (wf_registered _ Wd) Wp Hm Hs)
    as (after & -> & Wa & Hx).
  - intros x. by apply (short_row_none _ _ x F); [apply Wp|intros; apply P].
  - intros x. by apply (short_row_none _ _ x G); [apply Wp|intros; apply P].
  - cbn [result_bind]. pose proof (exchanged_conserves _ _ _ Hx) as Hc.
    destruct (apply_plan_receipt sha d plan pid psha after Wd Wa Hc) as (r & Hr & E).
    exists after, r. done.
Qed.

(** Whatever the plan, a configuration [apply_plan_v1] returns is a 60/15
    configuration of the registered 75 cards. *)
Lemma apply_plan_conserves sha d plan pid psha after r : deck_wf d ->
  apply_plan_v1 sha d plan pid psha = Ok (after, r) ->
  config_wf after /\ all_cards after ≡ₚ all_cards (registered_configuration d).
Proof.
  intros Wd. unfold apply_plan_v1. case_bool_decide; cbn [negb]; [|done].
  intros E. apply result_bind_ok in E as (_ & _ & E).
  apply result_bind_ok in E as ([m1 s1] & _ & E).
  apply result_bind_ok in E as ([s2 m2] & _ & E).
  apply result_bind_ok in E as (c & Hc & E).
  case_bool_decide as Q; cbn [negb] in E; [|done]. inv_bind E. subst.
  apply configuration_new_wf in Hc as (Wc & _). split; [done|].
  apply combined_counts_perm; [done|apply Wd|done].
Qed.
