(* ===== verification/SideboardPolicy.v ===== *)
(** * Sideboarding: plans, policies and registrations

    What the constructors accept, that their results forget the order of
    their inputs, what [plan_for_v1] returns for every matchup, and which
    decks the card table admits. *)

From Stdlib Require Import String.
From stdpp Require Import gmap.
From S2P Require Import Prelude Bytes Sideboard SideboardFacts.

(* ------------------------------------------------------------------ *)
(** ** Plans *)

(** The rows a plan accepts, in any order. *)
Definition rows_ok (rows : list CardCountV1) : Prop :=
  Forall (fun r => count r <> 0%Z) rows /\ NoDup (map card_id rows).

Lemma reject_adjacent_err {A K} `{EqDecision K} (key : A -> K) e l s :
  reject_adjacent key e l = Err s -> exists x, x ∈ l /\ s = Returned (e x).
Proof.
  unfold reject_adjacent. intros ([a b] & Hin & E)%for_each_err. cbn [fst snd] in E.
  case_decide; [|done]. injection E as <-. exists a. split; [|done].
  clear -Hin. induction l as [|x [|y l] IH]; cbn [windows] in Hin;
    [by apply elem_of_nil in Hin..|].
  apply elem_of_cons in Hin as [[= -> ->]|Hin]; [by left|right; by apply IH].
Qed.

Lemma reject_duplicate_rows rows :
  reject_adjacent card_id (fun row => DuplicateCardCount (card_id row))
    (merge_sort card_count_le rows) = Ok () <-> NoDup (map card_id rows).
Proof.
  rewrite (reject_adjacent_sorted card_count_le);
    [by rewrite (merge_sort_Permutation card_count_le rows)|..].
  - unfold card_count_le. lia.
  - apply (sorted_merge_sort card_count_le).
Qed.

Lemma reject_zero_rows rows :
  for_each (fun row => if (count row =? 0)%Z
    then returned (ZeroCardCount (card_id row)) else Ok ()) rows = Ok ()
  <-> Forall (fun r => count r <> 0%Z) rows.
Proof.
  rewrite for_each_ok. apply Forall_iff. intros r.
  destruct (Z.eqb_spec (count r) 0); split; done.
Qed.

Lemma canonicalize_ok rows rows' :
  canonicalize_card_counts_v1 rows = Ok rows' <->
  rows_ok rows /\ rows' = merge_sort card_count_le rows.
Proof.
  unfold canonicalize_card_counts_v1, rows_ok.
  rewrite result_bind_ok. setoid_rewrite result_bind_ok. split.
  - intros ([] & Hz%reject_zero_rows & [] & Hd%reject_duplicate_rows & [= <-]).
    by rewrite merge_sort_Permutation in Hz.
  - intros [[Hz Hd] ->]. exists (). rewrite reject_zero_rows, merge_sort_Permutation.
    split; [done|]. exists (). by rewrite reject_duplicate_rows.
Qed.

Lemma canonicalize_perm rows1 rows2 : rows1 ≡ₚ rows2 ->
  canonicalize_card_counts_v1 rows1 = canonicalize_card_counts_v1 rows2.
Proof.
  intros H. unfold canonicalize_card_counts_v1.
  by rewrite (merge_sort_perm card_count_le _ _ H).
Qed.

Lemma total_perm rows1 rows2 : rows1 ≡ₚ rows2 -> count_total_v1 rows1 = count_total_v1 rows2.
Proof. unfold count_total_v1. induction 1; cbn; lia. Qed.
Lemma total_sorted rows :
  count_total_v1 (merge_sort card_count_le rows) = count_total_v1 rows.
Proof. apply total_perm, merge_sort_Permutation. Qed.

Lemma find_listed_both (xs ys : list Z) :
  List.find (fun x => bool_decide (x ∈ ys)) xs = None <-> forall x, x ∈ xs -> x ∉ ys.
Proof.
  induction xs as [|x xs IH]; cbn [List.find].
  - split; [|done]. by intros _ x ?%elem_of_nil.
  - case_bool_decide as D.
    + split; [done|]. intros H. exfalso. by apply (H x); [left|].
    + rewrite IH. split.
      * intros H z [->|Hz]%elem_of_cons; [done|]. by apply H.
      * intros H z Hz. apply H. by right.
Qed.

(** What [SideboardPlanV1::new_v1] accepts. *)
Record plan_accepted (self opponent : bytes) (game : Z) (ins outs : list CardCountV1)
  : Prop := {
  pa_self : identifier_ok self;
  pa_opponent : identifier_ok opponent;
  pa_game : (2 <= game)%Z;
  pa_in : rows_ok ins;
  pa_out : rows_ok outs;
  pa_equal : count_total_v1 ins = count_total_v1 outs;
  pa_bounded : (count_total_v1 ins <= 15)%Z;
  pa_disjoint : forall c, c ∈ map card_id ins -> c ∉ map card_id outs;
}.

Lemma validate_game_ok game : validate_postboard_game_index_v1 game = Ok () <-> (2 <= game)%Z.
Proof.
  unfold validate_postboard_game_index_v1. destruct (Z.ltb_spec game 2); split; done || lia.
Qed.

Lemma plan_new_ok self opponent game ins outs plan :
  SideboardPlanV1_new_v1 self opponent game ins outs = Ok plan <->
  plan_accepted self opponent game ins outs /\
  plan = MkPlan self opponent game (merge_sort card_count_le ins) (merge_sort card_count_le outs).
Proof.
  unfold SideboardPlanV1_new_v1. split.
  - intros H. apply result_bind_ok in H as ([] & Hs%validate_identifier_ok & H).
    apply result_bind_ok in H as ([] & Ho%validate_identifier_ok & H).
    apply result_bind_ok in H as ([] & Hg%validate_game_ok & H).
    apply result_bind_ok in H as (ins' & [Hi ->]%canonicalize_ok & H).
    apply result_bind_ok in H as (outs' & [Hu ->]%canonicalize_ok & H).
    rewrite !total_sorted in H.
    destruct (Z.eqb_spec (count_total_v1 ins) (count_total_v1 outs)); [|done]. cbn [negb] in H.
    destruct (Z.ltb_spec (Z.of_nat REGISTERED_SIDEBOARD_SIZE_V1) (count_total_v1 ins)); [done|].
    destruct (List.find _ _) eqn:F; [done|]. injection H as <-.
    rewrite find_listed_both in F. setoid_rewrite merge_sort_Permutation in F.
    split; [|done]. by split.
  - intros [[Hs Ho Hg Hi Hu He Hb Hd] ->].
    rewrite !(proj2 (validate_identifier_ok _ _)) by done. cbn [result_bind].
    rewrite (proj2 (validate_game_ok _)) by done. cbn [result_bind].
    rewrite (proj2 (canonicalize_ok _ _) (conj Hi eq_refl)). cbn [result_bind].
    rewrite (proj2 (canonicalize_ok _ _) (conj Hu eq_refl)). cbn [result_bind].
    rewrite !total_sorted.
    rewrite (proj2 (Z.eqb_eq _ _) He). cbn [negb].
    rewrite (proj2 (Z.ltb_ge _ _)) by done.
    rewrite (proj2 (find_listed_both _ _)); [done|].
    intros c. by rewrite !merge_sort_Permutation; apply Hd.
Qed.

Lemma rows_ok_wf rows : Forall (fun r => 0 <= count r)%Z rows -> rows_ok rows ->
  rows_wf (merge_sort card_count_le rows).
Proof.
  intros Hn [Hz Hd]. split.
  - apply (sorted_merge_sort card_count_le).
  - rewrite merge_sort_Permutation. rewrite !Forall_forall in *. intros r Hr.
    specialize (Hn r Hr). specialize (Hz r Hr). cbn in *. lia.
  - by rewrite merge_sort_Permutation.
Qed.

Lemma plan_new_wf self opponent game ins outs plan :
  Forall (fun r => 0 <= count r)%Z ins -> Forall (fun r => 0 <= count r)%Z outs ->
  SideboardPlanV1_new_v1 self opponent game ins outs = Ok plan -> plan_wf plan.
Proof.
  intros Pi Pu [[? ? ? ? ? He Hb Hd] ->]%plan_new_ok.
  split; cbn [self_deck_id opponent_deck_id game_index cards_in cards_out];
    try done; try by apply rows_ok_wf.
  - by rewrite !total_sorted.
  - by rewrite !total_sorted.
  - intros c. by rewrite !merge_sort_Permutation; apply Hd.
Qed.

(** A plan is canonical. [SideboardPlanV1::new_v1] answers the same,
    error included, however the caller orders its rows. It accepts exactly when
    both identifiers are valid, the game is a postboard game, no row is empty
    or repeated, as many cards come in as go out and at most fifteen, and no
    card is on both sides; the plan is then the given one with both lists
    sorted. *)
Theorem plan_construction_canonical self opponent game ins outs ins' outs' :
  ins ≡ₚ ins' -> outs ≡ₚ outs' ->
  SideboardPlanV1_new_v1 self opponent game ins outs
  = SideboardPlanV1_new_v1 self opponent game ins' outs' /\
  forall plan, SideboardPlanV1_new_v1 self opponent game ins outs = Ok plan <->
    plan_accepted self opponent game ins outs /\
    plan = MkPlan self opponent game
             (merge_sort card_count_le ins) (merge_sort card_count_le outs).
Proof.
  intros Hi Hu. split; [|apply plan_new_ok]. unfold SideboardPlanV1_new_v1.
  by rewrite (canonicalize_perm _ _ Hi), (canonicalize_perm _ _ Hu).
Qed.

Lemma keep_registered_ok self opponent game :
  identifier_ok self -> identifier_ok opponent -> (2 <= game)%Z ->
  keep_registered_v1 self opponent game = Ok (MkPlan self opponent game [] []).
Proof.
  intros Hs Ho Hg. apply plan_new_ok. split; [|done].
  split; try done; try (by split; constructor). by intros c ?%elem_of_nil.
Qed.

Lemma keep_plan_wf self opponent game :
  identifier_ok self -> identifier_ok opponent -> (2 <= game)%Z ->
  plan_wf (MkPlan self opponent game [] []).
Proof.
  intros Hs Ho Hg. eapply (plan_new_wf self opponent game [] []); [constructor..|].
  by apply keep_registered_ok.
Qed.

(* ------------------------------------------------------------------ *)
(** ** Policies *)

Record policy_accepted (id : bytes) (ids : list bytes) (ps : list SideboardPlanV1) : Prop := {
  po_id : identifier_ok id;
  po_decks : ids <> [];
  po_deck_ids : Forall identifier_ok ids;
  po_distinct : NoDup ids;
  po_known : Forall (fun p => self_deck_id p ∈ ids /\ opponent_deck_id p ∈ ids) ps;
  po_keys : NoDup (map plan_key_v1 ps);
}.

Lemma reject_duplicate_decks ids :
  reject_adjacent (fun d => d) DuplicatePolicyDeckId (merge_sort bytes_le ids) = Ok ()
  <-> NoDup ids.
Proof.
  rewrite (reject_adjacent_sorted bytes_le).
  - by rewrite map_id, (merge_sort_Permutation bytes_le ids).
  - intros a b c Hab Hbc ->. by apply (anti_symm bytes_le).
  - apply (sorted_merge_sort bytes_le).
Qed.

Lemma plan_le_of_key p q : plan_key_v1 p = plan_key_v1 q -> plan_le p q.
Proof. unfold plan_key_v1, plan_le. intros [= -> -> ->]. right. split; [done|]. right. split; [done|lia]. Qed.

Lemma reject_duplicate_plans e ps :
  reject_adjacent plan_key_v1 e (merge_sort plan_le ps) = Ok () <-> NoDup (map plan_key_v1 ps).
Proof.
  rewrite (reject_adjacent_sorted plan_le).
  - by rewrite (merge_sort_Permutation plan_le ps).
  - intros a b c Hab Hbc E. apply plan_le_key; [done|].
    transitivity c; [done|]. by apply plan_le_of_key.
  - apply (sorted_merge_sort plan_le).
Qed.

Lemma known_plans (ids : list bytes) ps :
  for_each (fun plan =>
    if negb (bool_decide (self_deck_id plan ∈ ids)) then
      returned (UnknownPolicyDeckId (self_deck_id plan))
    else if negb (bool_decide (opponent_deck_id plan ∈ ids)) then
      returned (UnknownPolicyDeckId (opponent_deck_id plan))
    else Ok ()) ps = Ok ()
  <-> Forall (fun p => self_deck_id p ∈ ids /\ opponent_deck_id p ∈ ids) ps.
Proof.
  rewrite for_each_ok. apply Forall_iff. intros p.
  do 2 (case_bool_decide; cbn [negb]; [|split; [done|tauto]]). done.
Qed.

Lemma policy_new_ok id ids dp ps p :
  DeterministicSideboardPolicyV1_new_v1 id ids dp ps = Ok p <->
  policy_accepted id ids ps /\
  p = MkPolicy id (merge_sort bytes_le ids) dp (merge_sort plan_le ps).
Proof.
  assert (merge_sort bytes_le ids ≡ₚ ids) as Pi by apply merge_sort_Permutation.
  unfold DeterministicSideboardPolicyV1_new_v1. split.
  - intros H. apply result_bind_ok in H as ([] & Hid%validate_identifier_ok & H).
    case_bool_decide; [done|].
    apply result_bind_ok in H as ([] & Hids & H). rewrite for_each_ok in Hids.
    apply result_bind_ok in H as ([] & Hd%reject_duplicate_decks & H).
    apply result_bind_ok in H as ([] & Hk%known_plans & H).
    apply result_bind_ok in H as ([] & Hp%reject_duplicate_plans & [= <-]).
    setoid_rewrite Pi in Hk. split; [|done]. split; try done.
    eapply Forall_impl; [exact Hids|]. intros d. apply validate_identifier_ok.
  - intros [[Hid Hne Hids Hd Hk Hp] ->].
    rewrite (proj2 (validate_identifier_ok _ _)) by done. cbn [result_bind].
    rewrite bool_decide_eq_false_2 by done.
    rewrite (proj2 (for_each_ok _ _)).
    2:{ eapply Forall_impl; [exact Hids|]. intros d. apply validate_identifier_ok. }
    cbn [result_bind]. rewrite (proj2 (reject_duplicate_decks _)) by done. cbn [result_bind].
    rewrite (proj2 (known_plans _ _)).
    2:{ eapply Forall_impl; [exact Hk|]. intros q [? ?]. cbn beta. by rewrite !Pi. }
    cbn [result_bind]. by rewrite (proj2 (reject_duplicate_plans _ _)) by done.
Qed.

Lemma sort_plans_perm ps ps' : NoDup (map plan_key_v1 ps) -> ps ≡ₚ ps' ->
  merge_sort plan_le ps = merge_sort plan_le ps'.
Proof.
  intros ND P. apply (StronglySorted_unique_strong plan_le);
    [|apply (sorted_merge_sort plan_le)..|by rewrite !merge_sort_Permutation].
  intros a b Ha Hb Hab Hba. rewrite merge_sort_Permutation in Ha, Hb. rewrite <- P in Hb.
  pose proof (plan_le_key _ _ Hab Hba) as E. clear -ND Ha Hb E.
  by apply (NoDup_map_inj plan_key_v1 ps).
Qed.

(** A policy is canonical. Whatever order its decks and plans are given
    in, [DeterministicSideboardPolicyV1::new_v1] accepts the same inputs and
    builds the same policy. It accepts exactly when the identifiers are valid,
    there is a deck, no deck is repeated, every plan names known decks and no
    two plans share a matchup and game; the policy is the given one with decks
    and plans sorted. *)
Theorem policy_construction_canonical id ids dp ps ids' ps' p :
  ids ≡ₚ ids' -> ps ≡ₚ ps' ->
  (DeterministicSideboardPolicyV1_new_v1 id ids dp ps = Ok p <->
   DeterministicSideboardPolicyV1_new_v1 id ids' dp ps' = Ok p) /\
  (DeterministicSideboardPolicyV1_new_v1 id ids dp ps = Ok p <->
   policy_accepted id ids ps /\
   p = MkPolicy id (merge_sort bytes_le ids) dp (merge_sort plan_le ps)).
Proof.
  intros Pi Pp. split; [|apply policy_new_ok]. rewrite !policy_new_ok.
  assert (policy_accepted id ids ps <-> policy_accepted id ids' ps') as A.
  { split; intros [Hid Hne Hids Hd Hk Hp]; split; try done;
      rewrite ?Pi, ?Pp in *; try done; try (by rewrite <- ?Pi, <- ?Pp);
      try (intros ->; by apply Permutation_nil_r in Pi || by apply Permutation_nil_l in Pi);
      (eapply Forall_impl; [exact Hk|]; intros q; cbn beta; by rewrite ?Pi). }
  rewrite <- A, (merge_sort_perm bytes_le _ _ Pi).
  split; intros [Ha ->]; (split; [done|]); f_equal;
    [|symmetry]; (apply sort_plans_perm; [apply Ha|done]).
Qed.

Record policy_wf (p : DeterministicSideboardPolicyV1) : Prop := {
  wf_accepted : policy_accepted (policy_id p) (deck_ids p) (plans p);
  wf_decks_sorted : StronglySorted bytes_le (deck_ids p);
  wf_plans_sorted : StronglySorted plan_le (plans p);
  wf_plans : Forall plan_wf (plans p);
}.

Lemma policy_new_wf id ids dp ps p : Forall plan_wf ps ->
  DeterministicSideboardPolicyV1_new_v1 id ids dp ps = Ok p -> policy_wf p.
Proof.
  intros W [[Hid Hne Hids Hd Hk Hp] ->]%policy_new_ok. split;
    cbn [policy_id deck_ids plans].
  - split; rewrite ?merge_sort_Permutation; try done.
    + intros E. apply Hne, Permutation_nil_r. rewrite <- E.
      symmetry. apply merge_sort_Permutation.
    + rewrite (merge_sort_Permutation plan_le ps). eapply Forall_impl; [exact Hk|].
      intros q. cbn beta. by rewrite !merge_sort_Permutation.
  - apply (sorted_merge_sort bytes_le).
  - apply (sorted_merge_sort plan_le).
  - by rewrite merge_sort_Permutation.
Qed.

(* ------------------------------------------------------------------ *)
(** ** Choosing a plan *)

Lemma sorted_split (l1 : list bytes) x l2 key :
  StronglySorted bytes_le (l1 ++ x :: l2) -> x <> key ->
  (bytes_lt x key = true -> key ∈ l1 ++ x :: l2 <-> key ∈ l2) /\
  (bytes_lt x key = false -> key ∈ l1 ++ x :: l2 <-> key ∈ l1).
Proof.
  intros HS N. rewrite elem_of_app, elem_of_cons. split; intros L.
  - assert (key ∉ l1); [|intuition congruence]. intros H.
    assert (bytes_le key x) as C; [|unfold bytes_le in C; congruence].
    apply (StronglySorted_app_1_elem_of bytes_le _ _ _ _ HS H). by left.
  - assert (key ∉ l2); [|intuition congruence]. intros H. apply N.
    apply StronglySorted_app_1_r in HS. apply StronglySorted_inv in HS as [_ F].
    rewrite Forall_forall in F. by apply (anti_symm bytes_le); [apply F|].
Qed.

(** On a sorted slice the binary search finds exactly the members. *)
Lemma binary_search_spec fuel : forall l key,
  (length l < fuel)%nat -> StronglySorted bytes_le l ->
  binary_search fuel l key = true <-> key ∈ l.
Proof.
  induction fuel as [|fuel IH]; intros l key Hf HS; [lia|].
  cbn [binary_search]; cbv zeta.
  destruct (l !! Nat.div2 (length l)) as [x|] eqn:L.
  - pose proof (take_drop_middle l _ _ L) as E.
    pose proof (lookup_lt_Some _ _ _ L) as B.
    destruct (decide (x = key)) as [->|N].
    { split; [intros _|done]. by eapply list_elem_of_lookup_2. }
    rewrite <- E in HS. destruct (sorted_split _ _ _ key HS N) as [S1 S2].
    rewrite E in S1, S2. destruct (bytes_lt x key).
    + rewrite S1 by done. apply IH; [rewrite length_drop; clear -B Hf; generalize dependent (Nat.div2 (length l)); lia|].
      by apply StronglySorted_app_1_r, StronglySorted_inv in HS as [? _].
    + rewrite S2 by done. apply IH; [rewrite length_take; clear -B Hf; generalize dependent (Nat.div2 (length l)); lia|].
      by apply StronglySorted_app_1_l in HS.
  - apply lookup_ge_None in L. destruct l as [|b l].
    + split; [done|]. by intros ?%elem_of_nil.
    + exfalso. pose proof (Nat.lt_div2 (length (b :: l))) as D. cbn [length] in *. lia.
Qed.

Lemma knows_deck_spec p d : policy_wf p -> knows_deck p d = true <-> d ∈ deck_ids p.
Proof. intros W. apply binary_search_spec; [lia|apply W]. Qed.

Lemma find_plan_spec self opponent game ps :
  match List.find (fun plan => bool_decide (self_deck_id plan = self)
            && bool_decide (opponent_deck_id plan = opponent)
            && (game_index plan =? game)%Z) ps with
  | Some plan => plan ∈ ps /\ plan_key_v1 plan = (self, opponent, game)
  | None => (self, opponent, game) ∉ map plan_key_v1 ps
  end.
Proof.
  destruct (List.find _ ps) as [plan|] eqn:F.
  - apply find_some in F as [Hin E]. bool_to_prop. split; [by apply list_elem_of_In|].
    unfold plan_key_v1. congruence.
  - intros (q & Eq & Hq)%list_elem_of_In%in_map_iff.
    pose proof (find_none _ _ F q Hq) as E. cbn beta in E. revert E.
    injection Eq as <- <- <-. by rewrite !bool_decide_eq_true_2, Z.eqb_refl.
Qed.

Lemma game_check_err game : (game < 2)%Z ->
  validate_postboard_game_index_v1 game = returned (InvalidPostboardGameIndex game).
Proof. intros H. unfold validate_postboard_game_index_v1. by rewrite (proj2 (Z.ltb_lt _ _)). Qed.

(** The plan a policy lists for a key, or the one that keeps the registered
    configuration. *)
Definition chosen_plan (p : DeterministicSideboardPolicyV1) (self opponent : bytes) (game : Z)
    (plan : SideboardPlanV1) : Prop :=
  plan_key_v1 plan = (self, opponent, game) /\
  (plan ∈ plans p \/
   ((self, opponent, game) ∉ map plan_key_v1 (plans p)) /\ plan = MkPlan self opponent game [] []).

Lemma plan_for_ok p self opponent game : policy_wf p ->
  (2 <= game)%Z -> self ∈ deck_ids p -> opponent ∈ deck_ids p ->
  exists plan, plan_for_v1 p self opponent game = Ok plan /\ plan_wf plan /\
    chosen_plan p self opponent game plan.
Proof.
  intros W Hg Hs Ho. pose proof (wf_accepted _ W) as A. unfold plan_for_v1.
  rewrite (proj2 (validate_game_ok _)) by done. cbn [result_bind for_each try_fold].
  rewrite !(proj2 (knows_deck_spec p _ W)) by done. cbn [result_bind].
  pose proof (find_plan_spec self opponent game (plans p)) as F.
  destruct (List.find _ (plans p)) as [plan|].
  - exists plan. destruct F as [Hin K]. split; [done|]. split; [|by split; [|left]].
    pose proof (wf_plans _ W) as P. rewrite Forall_forall in P. by apply P.
  - destruct (default_plan p). pose proof (po_deck_ids _ _ _ A) as I. rewrite Forall_forall in I.
    eexists. split; [apply keep_registered_ok; auto|]. split; [apply keep_plan_wf; auto|].
    split; [done|]. by right.
Qed.

(** The policy answers every matchup. On a well-formed policy
    [plan_for_v1] rejects a game before the second, then an unknown own deck,
    then an unknown opponent; for every other question it returns a well-formed
    plan for exactly that matchup and game: the one the policy lists, which is
    unique, or, when it lists none, the plan that exchanges nothing. *)
Theorem policy_answers_every_matchup p self opponent game :
  policy_wf p ->
  if (game <? 2)%Z then
    plan_for_v1 p self opponent game = returned (InvalidPostboardGameIndex game)
  else if bool_decide (self ∉ deck_ids p) then
    plan_for_v1 p self opponent game = returned (UnknownPolicyDeckId self)
  else if bool_decide (opponent ∉ deck_ids p) then
    plan_for_v1 p self opponent game = returned (UnknownPolicyDeckId opponent)
  else exists plan, plan_for_v1 p self opponent game = Ok plan /\ plan_wf plan /\
    chosen_plan p self opponent game plan /\
    forall q, q ∈ plans p -> plan_key_v1 q = (self, opponent, game) -> q = plan.
Proof.
  intros W.
  assert (forall d, d ∉ deck_ids p -> knows_deck p d = false) as U.
  { intros d N. apply not_true_iff_false. by rewrite knows_deck_spec. }
  destruct (Z.ltb_spec game 2) as [L|L].
  { unfold plan_for_v1. by rewrite game_check_err. }
  case_bool_decide as Hs; [|case_bool_decide as Ho].
  - unfold plan_for_v1. rewrite (proj2 (validate_game_ok _)) by done.
    cbn [result_bind for_each try_fold]. by rewrite U.
  - unfold plan_for_v1. rewrite (proj2 (validate_game_ok _)) by done.
    cbn [result_bind for_each try_fold]. rewrite (proj2 (knows_deck_spec p _ W) Hs).
    cbn [result_bind]. by rewrite U.
  - destruct (plan_for_ok p self opponent game W L Hs Ho) as (plan & E & Wp & K & C).
    exists plan. split; [done|]. split; [done|]. split; [done|]. intros q Hq Kq.
    destruct C as [Hin|[Nin _]].
    + eapply (NoDup_map_inj plan_key_v1); [apply (po_keys _ _ _ (wf_accepted _ W))|done..|].
      congruence.
    + exfalso. apply Nin. rewrite <- Kq. apply list_elem_of_In, in_map.
      by apply list_elem_of_In.
Qed.

(* ------------------------------------------------------------------ *)
(** ** A sample registration, plan and policy *)

Definition sample_deck : RegisteredDeckV1 :=
  MkRegisteredDeck (bytes_of "AlphaDeck")
    (MkConfiguration (replicate 58 1%Z ++ replicate 2 2%Z) (replicate 15 3%Z)).

Definition sample_plan : SideboardPlanV1 :=
  MkPlan (bytes_of "AlphaDeck") (bytes_of "BetaDeck") 2 [MkCardCount 3 2] [MkCardCount 2 2].

Definition sample_policy : DeterministicSideboardPolicyV1 :=
  MkPolicy (bytes_of "sample-policy") [bytes_of "AlphaDeck"; bytes_of "BetaDeck"]
    KeepRegisteredConfiguration [sample_plan].

Lemma sample_deck_wf : deck_wf sample_deck.
Proof.
  eapply (registered_new_wf (bytes_of "AlphaDeck")
    (replicate 58 1%Z ++ replicate 2 2%Z) (replicate 15 3%Z)). by vm_compute.
Qed.

Lemma sample_plan_wf : plan_wf sample_plan.
Proof.
  eapply (plan_new_wf (bytes_of "AlphaDeck") (bytes_of "BetaDeck") 2
    [MkCardCount 3 2] [MkCardCount 2 2]); [repeat (constructor; cbn; try lia)..|by vm_compute].
Qed.

Lemma sample_policy_wf : policy_wf sample_policy.
Proof.
  eapply (policy_new_wf (bytes_of "sample-policy") [bytes_of "BetaDeck"; bytes_of "AlphaDeck"]
    KeepRegisteredConfiguration [sample_plan]); [|by vm_compute].
  apply Forall_singleton, sample_plan_wf.
Qed.

Lemma plan_construction_canonical_witness :
  SideboardPlanV1_new_v1 (bytes_of "AlphaDeck") (bytes_of "BetaDeck") 2
    [MkCardCount 5 1; MkCardCount 3 2] [MkCardCount 2 3]
  = SideboardPlanV1_new_v1 (bytes_of "AlphaDeck") (bytes_of "BetaDeck") 2
      [MkCardCount 3 2; MkCardCount 5 1] [MkCardCount 2 3].
Proof.
  refine (proj1 (plan_construction_canonical (bytes_of "AlphaDeck") (bytes_of "BetaDeck") 2
    [MkCardCount 5 1; MkCardCount 3 2] [MkCardCount 2 3]
    [MkCardCount 3 2; MkCardCount 5 1] [MkCardCount 2 3] _ _)); [constructor|reflexivity].
Defined.

Lemma policy_construction_canonical_witness :
  DeterministicSideboardPolicyV1_new_v1 (bytes_of "sample-policy")
    [bytes_of "BetaDeck"; bytes_of "AlphaDeck"] KeepRegisteredConfiguration [sample_plan]
  = Ok sample_policy.
Proof.
  refine (proj1 (proj1 (policy_construction_canonical (bytes_of "sample-policy")
    [bytes_of "AlphaDeck"; bytes_of "BetaDeck"] KeepRegisteredConfiguration [sample_plan]
    [bytes_of "BetaDeck"; bytes_of "AlphaDeck"] [sample_plan] sample_policy _ _)) _);
    [constructor|reflexivity|vm_compute; reflexivity].
Defined.

Lemma policy_answers_every_matchup_witness :
  exists plan, plan_for_v1 sample_policy (bytes_of "BetaDeck") (bytes_of "AlphaDeck") 3 = Ok plan
    /\ plan_wf plan.
Proof.
  pose proof (policy_answers_every_matchup sample_policy (bytes_of "BetaDeck")
    (bytes_of "AlphaDeck") 3 sample_policy_wf) as H.
  rewrite !bool_decide_eq_false_2 in H;
    [|intros N; apply N; apply list_elem_of_here
     |intros N; apply N; apply list_elem_of_further, list_elem_of_here].
  destruct H as (plan & E & W & _). by exists plan.
Defined.
