(* ===== verification/SideboardBytes.v ===== *)
(** * Sideboarding: canonical bytes, application and admission

    The canonical bytes of a policy determine it, applying a policy to an
    unlisted matchup changes nothing, and exactly the decks the card table
    supports are admitted. *)

From Stdlib Require Import String.
From stdpp Require Import gmap.
From S2P Require Import Prelude Bytes Sideboard SideboardFacts SideboardPolicy.

(* ------------------------------------------------------------------ *)
(** ** Injective appends

    Every [push_*] appends to the buffer, and what it appends is
    self-delimiting: from equal continuations the pushed values are equal. *)

Definition extends {A} (push : bytes -> A -> sideboard_result bytes) : Prop :=
  forall pre a r, push pre a = Ok r -> exists e, r = pre ++ e.

Definition injects {A} (P : A -> Prop) (push : bytes -> A -> sideboard_result bytes) : Prop :=
  forall pre a1 a2 r1 r2 t1 t2, P a1 -> P a2 ->
    push pre a1 = Ok r1 -> push pre a2 = Ok r2 -> r1 ++ t1 = r2 ++ t2 -> a1 = a2 /\ r1 = r2.

Definition then_push {A B} (push1 : bytes -> A -> sideboard_result bytes)
    (push2 : bytes -> B -> sideboard_result bytes) (b : bytes) (ab : A * B)
  : sideboard_result bytes :=
  let? b := push1 b (fst ab) in push2 b (snd ab).

Lemma extends_then {A B} (push1 : bytes -> A -> _) (push2 : bytes -> B -> _) :
  extends push1 -> extends push2 -> extends (then_push push1 push2).
Proof.
  intros H1 H2 pre [a b] r (m & E1 & E2)%result_bind_ok. cbn in E1, E2.
  apply H1 in E1 as [e1 ->]. apply H2 in E2 as [e2 ->]. exists (e1 ++ e2). by rewrite <- app_assoc.
Qed.

Lemma injects_then {A B} P Q (push1 : bytes -> A -> _) (push2 : bytes -> B -> _) :
  injects P push1 -> injects Q push2 -> extends push2 ->
  injects (fun ab => P (fst ab) /\ Q (snd ab)) (then_push push1 push2).
Proof.
  intros I1 I2 X2 pre [a1 b1] [a2 b2] r1 r2 t1 t2 [P1 Q1] [P2 Q2]
    (m1 & E1 & F1)%result_bind_ok (m2 & E2 & F2)%result_bind_ok E. cbn in *.
  pose proof (X2 _ _ _ F1) as [e1 G1]. pose proof (X2 _ _ _ F2) as [e2 G2].
  destruct (I1 pre a1 a2 m1 m2 (e1 ++ t1) (e2 ++ t2)) as [-> ->]; try done.
  { rewrite !app_assoc, <- G1, <- G2. done. }
  destruct (I2 _ _ _ _ _ _ _ Q1 Q2 F1 F2 E) as [-> ->]. done.
Qed.

(** A push of a value through an injective view of it. *)
Lemma injects_view {A B} (f : A -> B) P (push : bytes -> B -> _) (push' : bytes -> A -> _) :
  (forall a1 a2, f a1 = f a2 -> a1 = a2) -> (forall b a, push' b a = push b (f a)) ->
  injects P push -> injects (fun a => P (f a)) push'.
Proof.
  intros Hf Hp I pre a1 a2 r1 r2 t1 t2 P1 P2 E1 E2 E. rewrite Hp in E1, E2.
  destruct (I _ _ _ _ _ _ _ P1 P2 E1 E2 E) as [Ea ->]. split; [by apply Hf|done].
Qed.

Lemma extends_fold {A} (push : bytes -> A -> _) : extends push -> extends (try_fold push).
Proof.
  intros X pre l. revert pre. induction l as [|a l IH]; intros pre r; cbn [try_fold].
  - intros [= <-]. exists []. by rewrite app_nil_r.
  - intros (m & E & F)%result_bind_ok. apply X in E as [e1 ->]. apply IH in F as [e2 ->].
    exists (e1 ++ e2). by rewrite <- app_assoc.
Qed.

Lemma injects_fold {A} P (push : bytes -> A -> _) : injects P push -> extends push ->
  forall l1 l2 pre r1 r2 t1 t2, length l1 = length l2 -> Forall P l1 -> Forall P l2 ->
  try_fold push pre l1 = Ok r1 -> try_fold push pre l2 = Ok r2 -> r1 ++ t1 = r2 ++ t2 ->
  l1 = l2 /\ r1 = r2.
Proof.
  intros I X. induction l1 as [|a1 l1 IH]; intros [|a2 l2] pre r1 r2 t1 t2 L;
    try discriminate L; cbn [try_fold].
  { by intros _ _ [= <-] [= <-]. }
  intros [P1 F1]%Forall_cons [P2 F2]%Forall_cons
    (m1 & E1 & G1)%result_bind_ok (m2 & E2 & G2)%result_bind_ok E.
  pose proof (extends_fold push X _ _ _ G1) as [e1 H1].
  pose proof (extends_fold push X _ _ _ G2) as [e2 H2].
  destruct (I pre a1 a2 m1 m2 (e1 ++ t1) (e2 ++ t2)) as [-> ->]; try done.
  { by rewrite !app_assoc, <- H1, <- H2. }
  destruct (IH l2 m2 r1 r2 t1 t2) as [-> ->]; try done. by injection L.
Qed.

(** A fixed number of bytes. *)
Lemma injects_fixed {A} (P : A -> Prop) (enc : A -> bytes) n :
  (forall a, length (enc a) = n) -> (forall a1 a2, P a1 -> P a2 -> enc a1 = enc a2 -> a1 = a2) ->
  injects P (fun b a => Ok (b ++ enc a)) /\ extends (fun b a => Ok (b ++ enc a)).
Proof.
  intros L I. split.
  - intros pre a1 a2 r1 r2 t1 t2 P1 P2 [= <-] [= <-] E.
    rewrite <- !app_assoc in E. apply app_inv_head in E.
    apply app_inj_1 in E as [E _]; [|by rewrite !L]. rewrite E. by rewrite (I a1 a2).
  - intros pre a r [= <-]. by exists (enc a).
Qed.

#[local] Opaque to_be_bytes.

(* ------------------------------------------------------------------ *)
(** ** The pushes of the source *)

Lemma push_len_as b n : push_len_v1 b n =
  if (Z.of_nat n <=? u32_max)%Z then Ok (b ++ to_be_bytes 4 (Z.of_nat n)) else Err Panicked.
Proof. done. Qed.

Lemma extends_len : extends push_len_v1.
Proof. intros pre n r. rewrite push_len_as. case_match; [|done]. intros [= <-]. eauto. Qed.

Lemma injects_len : injects (fun _ => True) push_len_v1.
Proof.
  intros pre a1 a2 r1 r2 t1 t2 _ _. rewrite !push_len_as.
  destruct (Z.leb_spec (Z.of_nat a1) u32_max) as [L1|]; [|done].
  destruct (Z.leb_spec (Z.of_nat a2) u32_max) as [L2|]; [|done].
  intros [= <-] [= <-] E. rewrite <- !app_assoc in E. apply app_inv_head in E.
  apply app_inj_1 in E as [E _]; [|by rewrite !length_be].
  unfold u32_max in *. apply to_be_bytes_inj in E; [|change (256 ^ Z.of_nat 4)%Z with 4294967296%Z; lia..].
  by apply Nat2Z.inj in E as ->.
Qed.

Lemma extends_bytes : extends push_bytes_v1.
Proof.
  intros pre v r (m & E & [= <-])%result_bind_ok. apply extends_len in E as [e ->].
  exists (e ++ v). by rewrite <- app_assoc.
Qed.

Lemma injects_bytes : injects (fun _ => True) push_bytes_v1.
Proof.
  intros pre a1 a2 r1 r2 t1 t2 _ _ (m1 & E1 & [= <-])%result_bind_ok
    (m2 & E2 & [= <-])%result_bind_ok E. rewrite <- !app_assoc in E.
  destruct (injects_len _ _ _ _ _ _ _ I I E1 E2 E) as [L ->].
  apply app_inv_head in E. by apply app_inj_1 in E as [-> _].
Qed.

(** A length-prefixed list of self-delimiting items. *)
Lemma list_push {A} P (push : bytes -> A -> sideboard_result bytes) push' :
  (forall b l, push' b l = let? b := push_len_v1 b (length l) in try_fold push b l) ->
  injects P push -> extends push -> injects (Forall P) push' /\ extends push'.
Proof.
  intros Hp I X. split.
  - intros pre l1 l2 r1 r2 t1 t2 P1 P2 E1 E2 E. rewrite Hp in E1, E2.
    apply result_bind_ok in E1 as (m1 & E1 & F1). apply result_bind_ok in E2 as (m2 & E2 & F2).
    pose proof (extends_fold push X _ _ _ F1) as [e1 H1].
    pose proof (extends_fold push X _ _ _ F2) as [e2 H2].
    destruct (injects_len pre (length l1) (length l2) m1 m2 (e1 ++ t1) (e2 ++ t2))
      as [L ->]; try done; [by rewrite !app_assoc, <- H1, <- H2|].
    by apply (injects_fold P push I X l1 l2 m2 r1 r2 t1 t2).
  - intros pre l r E. rewrite Hp in E. apply result_bind_ok in E as (m & E & F).
    apply extends_len in E as [e1 ->]. apply (extends_fold push X) in F as [e2 ->].
    exists (e1 ++ e2). by rewrite <- app_assoc.
Qed.

Lemma foldl_push {A} (f : bytes -> A -> bytes) push l :
  (forall b a, push b a = Ok (f b a)) ->
  forall b, @Ok Failure _ (foldl f b l) = try_fold push b l.
Proof.
  intros H. induction l as [|a l IH]; intros b; cbn; [done|]. rewrite H. apply IH.
Qed.

Lemma strings_push : injects (Forall (fun _ => True)) push_strings_v1 /\ extends push_strings_v1.
Proof. apply (list_push _ push_string_v1); [done|apply injects_bytes|apply extends_bytes]. Qed.

Definition u16 (z : Z) : Prop := (0 <= z <= u16_max)%Z.

Lemma rows_push :
  injects (Forall (fun r => u16 (card_id r))) push_card_counts_v1 /\ extends push_card_counts_v1.
Proof.
  destruct (injects_fixed (fun r => u16 (card_id r))
    (fun r => to_be_bytes 2 (card_id r) ++ [count r]) 3) as [I X].
  - intros r. by rewrite length_app, length_be.
  - intros [c1 n1] [c2 n2]. unfold u16, u16_max. cbn [card_id count]. intros H1 H2 E.
    apply app_inj_2 in E as [E [= ->]]; [|done].
    apply to_be_bytes_inj in E as ->; [done|change (256 ^ Z.of_nat 2)%Z with 65536%Z; lia..].
  - eapply list_push; [|exact I|exact X]. intros b l. unfold push_card_counts_v1.
    apply result_bind_ext. intros b' _. apply foldl_push. intros b1 r. by rewrite <- app_assoc.
Qed.

(** One byte. *)
Definition push_byte (b : bytes) (x : Z) : sideboard_result bytes := Ok (b ++ [x]).
Lemma byte_push : injects (fun _ => True) push_byte /\ extends push_byte.
Proof. apply (injects_fixed _ (fun x => [x]) 1); [done|]. by intros ? ? _ _ [= ->]. Qed.

(* ------------------------------------------------------------------ *)
(** ** The canonical bytes of a policy *)

Definition plan_in_range (p : SideboardPlanV1) : Prop :=
  Forall (fun r => u16 (card_id r)) (cards_in p) /\
  Forall (fun r => u16 (card_id r)) (cards_out p).

Lemma plan_push : injects plan_in_range append_canonical_bytes_v1 /\
  extends append_canonical_bytes_v1.
Proof.
  destruct rows_push as [Ir Xr], byte_push as [Ib Xb].
  pose proof (injects_then _ _ _ _ Ir Ir Xr) as I1. pose proof (extends_then _ _ Xr Xr) as X1.
  pose proof (injects_then _ _ _ _ Ib I1 X1) as I2. pose proof (extends_then _ _ Xb X1) as X2.
  pose proof (injects_then _ _ _ _ injects_bytes I2 X2) as I3.
  pose proof (extends_then _ _ extends_bytes X2) as X3.
  pose proof (injects_then _ _ _ _ injects_bytes I3 X3) as I4.
  pose proof (extends_then _ _ extends_bytes X3) as X4.
  set (view p := (self_deck_id p, (opponent_deck_id p, (game_index p, (cards_in p, cards_out p))))).
  split.
  - assert (forall a1 a2, view a1 = view a2 -> a1 = a2) as Hv.
    { by intros [] [] [= -> -> -> -> ->]. }
    pose proof (injects_view view _ _ append_canonical_bytes_v1 Hv (fun _ _ => eq_refl) I4) as V.
    intros pre a1 a2 r1 r2 t1 t2 [] []. by apply V; cbn.
  - intros pre p r E. by apply (X4 pre (view p)).
Qed.

Definition push_plans (b : bytes) (ps : list SideboardPlanV1) : sideboard_result bytes :=
  let? b := push_len_v1 b (length ps) in try_fold append_canonical_bytes_v1 b ps.

Lemma plans_push : injects (Forall plan_in_range) push_plans /\ extends push_plans.
Proof. by apply (list_push _ append_canonical_bytes_v1); [done|apply plan_push..]. Qed.

(** The canonical bytes determine the policy. Two policies with the same
    [canonical_bytes_v1] have the same identifier, the same decks and the same
    plans row by row, so the policy hash commits to all of them. *)
Theorem policy_bytes_injective p1 p2 b :
  Forall plan_in_range (plans p1) -> Forall plan_in_range (plans p2) ->
  policy_canonical_bytes_v1 p1 = Ok b -> policy_canonical_bytes_v1 p2 = Ok b -> p1 = p2.
Proof.
  intros R1 R2 E1 E2. unfold policy_canonical_bytes_v1 in E1, E2.
  apply result_bind_ok in E1 as (b1 & H1 & E1). rewrite H1 in E2. cbn [result_bind] in E2.
  apply result_bind_ok in E1 as (b2 & H2 & E1). rewrite H2 in E2. cbn [result_bind] in E2.
  destruct strings_push as [Is Xs], byte_push as [Ib Xb], plans_push as [Ip Xp].
  pose proof (injects_then _ _ _ _ Ib Ip Xp) as I1. pose proof (extends_then _ _ Xb Xp) as X1.
  pose proof (injects_then _ _ _ _ Is I1 X1) as I2. pose proof (extends_then _ _ Xs X1) as X2.
  pose proof (injects_then _ _ _ _ injects_bytes I2 X2) as I3.
  set (view p := (policy_id p, (deck_ids p,
    (match default_plan p with KeepRegisteredConfiguration => 0%Z end, plans p)))).
  assert (forall l : list bytes, Forall (fun _ => True) l) as T by (intros; by apply Forall_true).
  destruct (I3 b2 (view p1) (view p2) b b [] []) as [V _]; cbn; try done.
  destruct p1 as [? ? [] ?], p2 as [? ? [] ?]. by injection V as -> -> ->.
Qed.

(* ------------------------------------------------------------------ *)
(** ** Applying a policy *)

Definition policy_sized (p : DeterministicSideboardPolicyV1) : Prop :=
  (Z.of_nat (length (deck_ids p)) <= u32_max)%Z /\ (Z.of_nat (length (plans p)) <= u32_max)%Z.

Lemma push_string_ok b s : (length s <= 4096)%nat -> exists r, push_string_v1 b s = Ok r.
Proof.
  intros H. unfold push_string_v1, push_bytes_v1. rewrite push_len_small by done.
  cbn [result_bind]. eauto.
Qed.

Lemma push_rows_ok b rows : rows_wf rows -> (count_total_v1 rows <= 15)%Z ->
  exists r, push_card_counts_v1 b rows = Ok r.
Proof.
  intros W B. unfold push_card_counts_v1. rewrite push_len_small; [cbn [result_bind]; eauto|].
  assert (Z.of_nat (length rows) <= count_total_v1 rows)%Z; [|lia].
  clear B. pose proof (wf_rows_positive _ W) as P. clear W. unfold count_total_v1.
  induction P as [|r rows Hr _ IH]; cbn [map foldr length]; [done|]. lia.
Qed.

Lemma push_plan_ok b p : plan_wf p -> exists r, append_canonical_bytes_v1 b p = Ok r.
Proof.
  intros [(_ & Ls & _) (_ & Lo & _) _ Wi Wo He Hb _]. unfold append_canonical_bytes_v1.
  destruct (push_string_ok b (self_deck_id p)) as [r1 ->]; [lia|]. cbn [result_bind].
  destruct (push_string_ok r1 (opponent_deck_id p)) as [r2 ->]; [lia|]. cbn [result_bind].
  destruct (push_rows_ok (r2 ++ [game_index p]) (cards_in p)) as [r3 ->]; [done..|].
  cbn [result_bind]. apply push_rows_ok; [done|lia].
Qed.

Lemma try_fold_total {A} (push : bytes -> A -> sideboard_result bytes) l :
  (forall b a, a ∈ l -> exists r, push b a = Ok r) -> forall b, exists r, try_fold push b l = Ok r.
Proof.
  induction l as [|a l IH]; intros H b; cbn [try_fold]; [eauto|].
  destruct (H b a) as [r ->]; [by left|]. cbn [result_bind]. apply IH. intros. apply H. by right.
Qed.

Lemma push_len_ok b n : (Z.of_nat n <= u32_max)%Z -> exists r, push_len_v1 b n = Ok r.
Proof. intros H. rewrite push_len_as, (proj2 (Z.leb_le _ _)) by done. eauto. Qed.

Lemma policy_sha_total sha p : policy_wf p -> policy_sized p ->
  exists h, policy_sha256_v1 sha p = Ok h.
Proof.
  intros [[(_ & Lid & _) _ Hids _ _ _] _ _ Wp] [Sd Sp].
  unfold policy_sha256_v1, policy_canonical_bytes_v1, push_strings_v1.
  rewrite Forall_forall in Hids. rewrite Forall_forall in Wp.
  destruct (push_string_ok [] SIDEBOARD_POLICY_HASH_DOMAIN_V1) as [r1 ->]; [vm_compute; lia|].
  cbn [result_bind].
  destruct (push_string_ok r1 SIDEBOARD_POLICY_SCHEMA_V1) as [r2 ->]; [vm_compute; lia|].
  cbn [result_bind]. destruct (push_string_ok r2 (policy_id p)) as [r3 ->]; [lia|].
  cbn [result_bind]. destruct (push_len_ok r3 _ Sd) as [r4 ->]. cbn [result_bind].
  destruct (try_fold_total push_string_v1 (deck_ids p)) with (b := r4) as [r5 ->].
  { intros b s (_ & L & _)%Hids. apply push_string_ok. lia. }
  cbn [result_bind]. destruct (push_len_ok (r5 ++ [match default_plan p with
    KeepRegisteredConfiguration => 0%Z end]) _ Sp) as [r6 ->]. cbn [result_bind].
  destruct (try_fold_total append_canonical_bytes_v1 (plans p)) with (b := r6) as [r7 ->].
  { intros b q Hq. by apply push_plan_ok, Wp. }
  cbn [result_bind]. eauto.
Qed.

(** C6: sideboarding is exactly the exchange the policy chooses. For a
    registered 60/15 deck, a known opponent and a postboard game,
    [apply_v1] takes the chosen plan and succeeds exactly when the mainboard
    holds every copy the plan takes out and the sideboard every copy it takes
    in. The result is then the sorted 60/15 configuration whose zones are the
    registered ones with those cards moved, its 75 cards are the registered 75,
    and the receipt carries the policy hash and the zone hashes before and
    after. Otherwise the first short row, cards out first, is reported with
    what it asked for and what there was. There is no other failure and no
    panic. *)
Theorem policy_application_exact sha p d opponent game :
  policy_wf p -> policy_sized p -> deck_wf d ->
  (2 <= game)%Z -> deck_id d ∈ deck_ids p -> opponent ∈ deck_ids p ->
  exists plan psha, chosen_plan p (deck_id d) opponent game plan /\
  policy_sha256_v1 sha p = Ok psha /\
  let before := registered_configuration d in
  match short_row (fun c => occ c (mainboard before)) (cards_out plan),
        short_row (fun c => occ c (sideboard before)) (cards_in plan) with
  | Some r, _ => apply_v1 sha p d opponent game
      = returned (CardUnavailable RegisteredMainboard (card_id r) (count r)
                   (occ (card_id r) (mainboard before)))
  | None, Some r => apply_v1 sha p d opponent game
      = returned (CardUnavailable RegisteredSideboard (card_id r) (count r)
                   (occ (card_id r) (sideboard before)))
  | None, None => exists after r, apply_v1 sha p d opponent game = Ok (after, r) /\
      config_wf after /\ exchanged plan before after /\ all_cards after ≡ₚ all_cards before /\
      receipt_matches sha d plan (policy_id p) psha after r
  end.
Proof.
  intros Wp Sz Wd Hg Hs Ho. unfold apply_v1.
  destruct (plan_for_ok p _ _ _ Wp Hg Hs Ho) as (plan & -> & Wplan & C). cbn [result_bind].
  destruct (policy_sha_total sha p Wp Sz) as [psha E]. rewrite E. cbn [result_bind].
  exists plan, psha. split; [done|]. split; [done|].
  apply apply_plan_exact; [done|done| |apply Wp].
  destruct C as [K _]. by injection K.
Qed.

Lemma exchanged_nothing self opponent game before after :
  config_wf before -> config_wf after ->
  exchanged (MkPlan self opponent game [] []) before after -> after = before.
Proof.
  intros [_ _ Sm Ss] [_ _ Sm' Ss'] X. destruct before as [bm bs], after as [am as']. cbn in *.
  f_equal; apply (StronglySorted_unique Z.le); try done; apply occ_perm; intros c;
    destruct (X c) as [Xm Xs]; cbn in Xm, Xs; change (amount c []) with 0%Z in *; lia.
Qed.

(** Without a listed plan nothing changes. For a matchup and game the
    policy lists no plan for, [apply_v1] returns the registered configuration
    itself, and a receipt of an empty exchange whose hashes after are its
    hashes before. *)
Theorem unlisted_matchup_keeps_registration sha p d opponent game :
  policy_wf p -> policy_sized p -> deck_wf d ->
  (2 <= game)%Z -> deck_id d ∈ deck_ids p -> opponent ∈ deck_ids p ->
  (deck_id d, opponent, game) ∉ map plan_key_v1 (plans p) ->
  exists r, apply_v1 sha p d opponent game = Ok (registered_configuration d, r) /\
    r_cards_in r = [] /\ r_cards_out r = [] /\
    r_after_mainboard_sha256 r = r_before_mainboard_sha256 r /\
    r_after_sideboard_sha256 r = r_before_sideboard_sha256 r.
Proof.
  intros Wp Sz Wd Hg Hs Ho Nl. unfold apply_v1.
  destruct (plan_for_ok p _ _ _ Wp Hg Hs Ho) as (plan & -> & Wplan & K & C). cbn [result_bind].
  destruct (policy_sha_total sha p Wp Sz) as [psha ->]. cbn [result_bind].
  destruct C as [Hin|[_ ->]].
  { exfalso. apply Nl. rewrite <- K. apply list_elem_of_In, in_map. by apply list_elem_of_In. }
  destruct (apply_plan_exact sha d _ (policy_id p) psha Wd Wplan eq_refl (po_id _ _ _ (wf_accepted _ Wp)))
    as (after & r & E & Wa & X & _ & [Hids _ Bm Bs Am As]).
  apply (exchanged_nothing _ _ _ _ _ (wf_registered _ Wd) Wa) in X as ->.
  exists r. split; [done|]. injection Hids as _ _ _ _ _ _ -> ->.
  split; [done|]. split; [done|]. split; congruence.
Qed.

(* ------------------------------------------------------------------ *)
(** ** Witnesses *)

Definition sample_sha (b : bytes) : bytes := [Z.of_nat (length b)].

Definition sample_bytes : bytes :=
  match policy_canonical_bytes_v1 sample_policy with Ok b => b | Err _ => [] end.

Lemma policy_bytes_injective_witness : sample_policy = sample_policy.
Proof.
  apply (policy_bytes_injective sample_policy sample_policy sample_bytes).
  1-2: apply Forall_singleton; split; apply Forall_singleton; unfold u16, u16_max;
    cbn [card_id]; lia.
  all: vm_compute; reflexivity.
Defined.

Lemma sample_sized : policy_sized sample_policy.
Proof. split; vm_compute; discriminate. Qed.

Lemma policy_application_exact_witness :
  exists after r, apply_v1 sample_sha sample_policy sample_deck (bytes_of "BetaDeck") 2
                  = Ok (after, r) /\ config_wf after /\
    all_cards after ≡ₚ all_cards (registered_configuration sample_deck).
Proof.
  destruct (policy_application_exact sample_sha sample_policy sample_deck (bytes_of "BetaDeck") 2
    sample_policy_wf sample_sized sample_deck_wf ltac:(lia)
    ltac:(apply list_elem_of_here) ltac:(apply list_elem_of_further, list_elem_of_here))
    as (plan & psha & (K & [Hin|[Hn _]]) & _ & H).
  - apply list_elem_of_singleton in Hin as ->.
    destruct H as (after & r & E & W & _ & P & _). exists after, r. exact (conj E (conj W P)).
  - exfalso. apply Hn. apply list_elem_of_here.
Defined.

Lemma unlisted_matchup_keeps_registration_witness :
  exists r, apply_v1 sample_sha sample_policy sample_deck (bytes_of "BetaDeck") 3
            = Ok (registered_configuration sample_deck, r) /\ r_cards_in r = [].
Proof.
  destruct (unlisted_matchup_keeps_registration sample_sha sample_policy sample_deck
    (bytes_of "BetaDeck") 3
    sample_policy_wf sample_sized sample_deck_wf ltac:(lia)
    ltac:(apply list_elem_of_here) ltac:(apply list_elem_of_further, list_elem_of_here))
    as (r & E & Hin & _).
  - intros [=]%list_elem_of_singleton.
  - exists r. exact (conj E Hin).
Defined.
