(* ===== verification/SideboardAdmission.v ===== *)
(** * Sideboarding: which decks are admitted

    Registration against a card table: the executable 75-card decks are
    exactly the supported ones within the copy limit, and the checked-in pool
    answers the same whether it is read whole or by deck id. *)

From Stdlib Require Import String.
From stdpp Require Import gmap.
From S2P Require Import Prelude Bytes Sideboard SideboardFacts SideboardPolicy.

Section Admission.
Context (CARD_DEFS : list CardDef).

(** A card the registry knows, that is no token and is fully implemented. *)
Definition supported (c : Z) : Prop :=
  exists d, CARD_DEFS !! Z.to_nat c = Some d /\ is_token d = false /\ capability d = Full.

Definition basic_card (c : Z) : Prop :=
  exists d, CARD_DEFS !! Z.to_nat c = Some d /\ existsb is_basic (supertypes d) = true.

Lemma validate_cards_ok cards zone :
  validate_registered_cards_v1 CARD_DEFS cards zone = Ok () <-> Forall supported cards.
Proof.
  unfold validate_registered_cards_v1. rewrite for_each_ok. apply Forall_iff. intros c.
  unfold supported. destruct (CARD_DEFS !! Z.to_nat c) as [d|].
  - split.
    + intros H. exists d. unfold has_full_support in H.
      by destruct (is_token d), (capability d).
    + intros (d' & [= <-] & T & F). unfold has_full_support. by rewrite T, F.
  - split; [done|]. by intros (d & [=] & _).
Qed.

Lemma validate_cards_never_panics cards zone :
  validate_registered_cards_v1 CARD_DEFS cards zone <> Err Panicked.
Proof.
  intros (c & _ & E)%for_each_err. destruct (CARD_DEFS !! _); [|done].
  by repeat case_match.
Qed.

Lemma counts_rows_in m r : r ∈ counts_to_rows_v1 m <-> m !! card_id r = Some (count r).
Proof.
  unfold counts_to_rows_v1, counts_iter. rewrite map_map, list_elem_of_In, in_map_iff.
  cbn [fst snd]. split.
  - intros (c & <- & Hc). apply list_elem_of_In in Hc. rewrite sort_cards_perm in Hc.
    apply list_elem_of_In, in_map_iff in Hc as ([c' n] & <- & Hc). cbn [fst card_id count].
    apply list_elem_of_In, elem_of_map_to_list in Hc. by rewrite Hc.
  - intros H. exists (card_id r). rewrite H. split; [by destruct r|].
    apply list_elem_of_In. rewrite sort_cards_perm. apply list_elem_of_In, in_map_iff.
    exists (card_id r, count r). split; [done|]. by apply list_elem_of_In, elem_of_map_to_list.
Qed.

Lemma combined_row c r : config_wf c -> r ∈ combined_card_counts_v1 c <->
  count r = occ (card_id r) (all_cards c) /\ (0 < count r)%Z.
Proof.
  intros W. unfold combined_card_counts_v1. rewrite counts_rows_in, (stands_combined c W).
  unfold nonzero. pose proof (occ_bounds (card_id r) (all_cards c)).
  case_decide as D; split; try done.
  - intros [-> H']. lia.
  - intros [= <-]. split; [done|lia].
  - by intros [-> _].
Qed.

Lemma occ_in c l : (0 < occ c l)%Z -> c ∈ l.
Proof.
  intros H. apply list_elem_of_In, (count_occ_In Z.eq_dec). unfold occ in H. lia.
Qed.

Lemma split_supported c :
  Forall supported (all_cards c)
  <-> Forall supported (mainboard c) /\ Forall supported (sideboard c).
Proof. apply Forall_app. Qed.

Lemma validate_executable_ok d : config_wf (registered_configuration d) ->
  let cards := all_cards (registered_configuration d) in
  validate_executable_v1 CARD_DEFS d = Ok () <->
  Forall supported cards /\ (forall c, 4 < occ c cards -> basic_card c)%Z.
Proof.
  intros W cards. unfold validate_executable_v1, cards. rewrite split_supported. split.
  - intros ([] & Hm%validate_cards_ok & E)%result_bind_ok.
    apply result_bind_ok in E as ([] & Hs%validate_cards_ok & E). split; [done|].
    rewrite for_each_ok, Forall_forall in E. intros c Hc.
    specialize (E (MkCardCount c (occ c (all_cards (registered_configuration d))))).
    cbn [card_id count] in E. rewrite (proj2 (Z.ltb_lt _ _) Hc) in E.
    unfold basic_card. destruct (CARD_DEFS !! Z.to_nat c) as [def|] eqn:L.
    + exists def. split; [done|]. destruct (existsb is_basic _); [done|].
      discriminate E. apply combined_row; [done|]. cbn [card_id count]. split; [done|lia].
    + discriminate E. apply combined_row; [done|]. cbn [card_id count]. split; [done|lia].
  - intros [[Hm Hs] Hb]. rewrite (proj2 (validate_cards_ok _ _) Hm). cbn [result_bind].
    rewrite (proj2 (validate_cards_ok _ _) Hs). cbn [result_bind].
    apply for_each_ok, Forall_forall. intros r [Er Pr]%combined_row; [|done].
    destruct (Z.ltb_spec 4 (count r)); [|done].
    destruct (Hb (card_id r)) as (def & -> & ->); [lia|done].
Qed.

Lemma validate_executable_never_panics d : config_wf (registered_configuration d) ->
  validate_executable_v1 CARD_DEFS d <> Err Panicked.
Proof.
  intros W. unfold validate_executable_v1.
  destruct (validate_registered_cards_v1 _ (mainboard _) _) as [[]|e] eqn:Em;
    cbn [result_bind].
  2:{ intros [= ->]. by apply validate_cards_never_panics in Em. }
  destruct (validate_registered_cards_v1 _ (sideboard _) _) as [[]|e] eqn:Es;
    cbn [result_bind].
  2:{ intros [= ->]. by apply validate_cards_never_panics in Es. }
  apply validate_cards_ok in Em, Es. intros (r & Hr & E)%for_each_err.
  apply combined_row in Hr as [Er Pr]; [|done]. rewrite Er in Pr. apply occ_in in Pr.
  pose proof (proj2 (split_supported _) (conj Em Es)) as S. rewrite Forall_forall in S.
  destruct (S _ Pr) as (def & L & _). rewrite L in E. by repeat case_match.
Qed.

(** The executable registrations are exactly the supported 75s.
    [new_executable_v1] accepts a deck if and only if its identifier is
    valid, it has 60 mainboard and 15 sideboard cards, the table knows every
    card as a fully supported non-token, and no nonbasic card has more than
    four copies across the 75; it then holds both zones sorted. It never
    indexes outside the table. *)
Theorem executable_registration_exact id m s :
  (forall d, new_executable_v1 CARD_DEFS id m s = Ok d <->
    identifier_ok id /\ length m = REGISTERED_MAINBOARD_SIZE_V1 /\
    length s = REGISTERED_SIDEBOARD_SIZE_V1 /\ Forall supported (m ++ s) /\
    (forall c, 4 < occ c (m ++ s) -> basic_card c)%Z /\
    d = MkRegisteredDeck id (MkConfiguration (sort_cards m) (sort_cards s))) /\
  new_executable_v1 CARD_DEFS id m s <> Err Panicked.
Proof.
  assert (sort_cards m ++ sort_cards s ≡ₚ m ++ s) as P by (by rewrite !sort_cards_perm).
  split.
  - intros d. unfold new_executable_v1, RegisteredDeckV1_new_exact_v1. split.
    + intros (d' & E & H)%result_bind_ok.
      apply result_bind_ok in E as ([] & Hid%validate_identifier_ok & E).
      apply result_bind_ok in E as (c & Hc & [= <-]).
      apply result_bind_ok in H as ([] & H & [= <-]).
      pose proof (configuration_new_wf _ _ _ Hc) as (Wc & _).
      apply configuration_new_ok in Hc as (Lm & Ls & ->).
      apply validate_executable_ok in H as [Hs Hb]; [|done].
      unfold all_cards in Hs, Hb. cbn in Hs, Hb. rewrite P in Hs.
      split_and!; try done. intros x Hx. apply Hb. by rewrite P.
    + intros (Hid & Lm & Ls & Hs & Hb & ->).
      assert (DeckConfigurationV1_new_exact_v1 m s
              = Ok (MkConfiguration (sort_cards m) (sort_cards s))) as Hc
        by (by apply configuration_new_ok).
      rewrite (proj2 (validate_identifier_ok _ _) Hid). cbn [result_bind].
      rewrite Hc. cbn [result_bind].
      rewrite (proj2 (validate_executable_ok (MkRegisteredDeck id _)
                        (proj1 (configuration_new_wf _ _ _ Hc))));
        [done|].
      unfold all_cards. cbn [mainboard sideboard registered_configuration].
      split; [by rewrite P|]. intros x. rewrite P. apply Hb.
  - unfold new_executable_v1. intros H.
    destruct (RegisteredDeckV1_new_exact_v1 id m s) as [d|e] eqn:E; cbn [result_bind] in H.
    + apply registered_new_wf in E as ([_ W] & _).
      apply (validate_executable_never_panics d W).
      destruct (validate_executable_v1 CARD_DEFS d); cbn [result_bind] in H; congruence.
    + injection H as ->. revert E.
      unfold RegisteredDeckV1_new_exact_v1, validate_identifier_v1,
        DeckConfigurationV1_new_exact_v1, returned.
      destruct (_ || _ || _); [done|]. cbn [result_bind].
      destruct (negb _); [done|]. by destruct (negb _).
Qed.
End Admission.

(* ------------------------------------------------------------------ *)
(** ** The checked-in pool *)

Lemma reject_duplicate_pool_ids ids :
  reject_adjacent (fun d => d) DuplicatePoolDeckId (merge_sort bytes_le ids) = Ok ()
  <-> NoDup ids.
Proof.
  rewrite (reject_adjacent_sorted bytes_le).
  - by rewrite map_id, (merge_sort_Permutation bytes_le ids).
  - intros a b c Hab Hbc ->. by apply (anti_symm bytes_le).
  - apply (sorted_merge_sort bytes_le).
Qed.

Section Pool.
Context (CARD_DEFS : list CardDef) (card_id_by_name : bytes -> option Z)
  (policy_from_str : bytes -> result bytes SideboardPolicyDocumentV1)
  (pool_from_str : bytes -> result bytes PauperPoolDocumentV1)
  (policy_json pool_json : bytes).

Let read := checked_in_pauper_pool_document_v1 policy_from_str pool_from_str
  policy_json pool_json.
Let register := register_pauper_pool_deck_v1 CARD_DEFS card_id_by_name.

Lemma read_pool_ok document : read = Ok document ->
  Forall identifier_ok (map pk_id (pp_decks document)) /\
  NoDup (map pk_id (pp_decks document)).
Proof using Type.
  unfold read, checked_in_pauper_pool_document_v1.
  intros (document' & _ & E)%result_bind_ok.
  case_bool_decide; cbn [negb] in E; [|done].
  destruct (pp_decks document') as [|d ds] eqn:Ed; [done|]. rewrite <- Ed in E.
  apply result_bind_ok in E as ([] & Hids & E).
  apply result_bind_ok in E as ([] & Hd%reject_duplicate_pool_ids & E).
  apply result_bind_ok in E as (policy & _ & E). case_bool_decide; [|done].
  cbn [negb] in E. injection E as <-. split; [|done].
  rewrite for_each_ok in Hids. eapply Forall_impl; [exact Hids|].
  intros x. apply validate_identifier_ok.
Qed.

Lemma register_ok deck d : register deck = Ok d ->
  deck_wf d /\ deck_id d = pk_id deck /\
  Forall (supported CARD_DEFS) (all_cards (registered_configuration d)).
Proof using Type.
  unfold register, register_pauper_pool_deck_v1, new_fully_supported_v1.
  intros (m & _ & E)%result_bind_ok. apply result_bind_ok in E as (s & _ & E).
  apply result_bind_ok in E as (d' & Hd%registered_new_wf & E).
  apply result_bind_ok in E as ([] & Hm%validate_cards_ok & E).
  apply result_bind_ok in E as ([] & Hs%validate_cards_ok & [= <-]).
  destruct Hd as (W & Hid & _). split; [done|]. split; [done|]. by apply split_supported.
Qed.

(** [Iterator::collect] over the decks: each is registered, in order. *)
Lemma collect_decks decks : forall acc ds,
  try_fold (fun acc deck => let? deck := register deck in Ok (acc ++ [deck])) acc decks = Ok ds
  <-> exists ds', ds = acc ++ ds' /\ Forall2 (fun deck d => register deck = Ok d) decks ds'.
Proof using Type.
  induction decks as [|deck decks IH]; intros acc ds; cbn [try_fold].
  - split.
    + intros [= <-]. exists []. split; [by rewrite app_nil_r|constructor].
    + intros (ds' & -> & F). inversion F. by rewrite app_nil_r.
  - rewrite result_bind_ok. split.
    + intros (acc' & (d & Hd & [= <-])%result_bind_ok & H). apply IH in H as (ds' & -> & F).
      exists (d :: ds'). split; [by rewrite <- app_assoc|by constructor].
    + intros (ds' & -> & F). inversion F as [|? d ? ds1 Hd F']; subst.
      exists (acc ++ [d]). rewrite Hd. split; [done|]. apply IH.
      exists ds1. by rewrite <- app_assoc.
Qed.

Lemma find_deck decks deck : NoDup (map pk_id decks) -> deck ∈ decks ->
  List.find (fun k => bool_decide (pk_id k = pk_id deck)) decks = Some deck.
Proof using Type.
  intros ND Hin. destruct (List.find _ decks) as [k|] eqn:F.
  - apply find_some in F as [Hk E]. bool_to_prop. f_equal.
    by apply (NoDup_map_inj pk_id decks); [|apply list_elem_of_In|..].
  - apply list_elem_of_In in Hin. pose proof (find_none _ _ F deck Hin) as C.
    cbn beta in C. by rewrite bool_decide_eq_true_2 in C.
Qed.

(** The pool answers the same whole or deck by deck. When
    [checked_in_pauper_registered_decks_v1] returns the decks, every one of
    them is a 60/15 registration of fully supported cards, no two have the
    same id, and asking for one by its id returns exactly it; conversely a
    deck the pool returns by id is among them. *)
Theorem pool_decks_agree_by_id ds :
  checked_in_pauper_registered_decks_v1 CARD_DEFS card_id_by_name policy_from_str
    pool_from_str policy_json pool_json = Ok ds ->
  NoDup (map deck_id ds) /\
  forall d, d ∈ ds <->
    deck_wf d /\ Forall (supported CARD_DEFS) (all_cards (registered_configuration d)) /\
    checked_in_pauper_registered_deck_by_id_v1 CARD_DEFS card_id_by_name policy_from_str
      pool_from_str policy_json pool_json (deck_id d) = Ok d.
Proof using Type.
  unfold checked_in_pauper_registered_decks_v1, checked_in_pauper_registered_deck_by_id_v1.
  intros (document & Hdoc & E)%result_bind_ok.
  destruct (read_pool_ok _ Hdoc) as [Hids ND].
  apply collect_decks in E as (ds' & -> & F). cbn [app].
  assert (map deck_id ds' = map pk_id (pp_decks document)) as Emap.
  { clear -F. induction F as [|deck d decks ds Hd F IH]; cbn [map]; [done|].
    apply register_ok in Hd as (_ & -> & _). by rewrite IH. }
  split; [by rewrite Emap|]. intros d. split.
  - intros Hd. apply list_elem_of_lookup in Hd as [i Hi].
    destruct (Forall2_lookup_r _ _ _ _ _ F Hi) as (deck & Hdeck & R).
    apply list_elem_of_lookup_2 in Hdeck. pose proof (register_ok _ _ R) as (W & Eid & S).
    split; [done|]. split; [done|]. rewrite Eid.
    rewrite (proj2 (validate_identifier_ok _ _)) by (rewrite <- Eid; apply W).
    cbn [result_bind]. rewrite Hdoc. cbn [result_bind]. by rewrite find_deck.
  - intros (_ & _ & E). apply result_bind_ok in E as (_ & _ & E). rewrite Hdoc in E.
    cbn [result_bind] in E. destruct (List.find _ _) as [deck|] eqn:Fd; [|done].
    apply find_some in Fd as [Hin _]. apply list_elem_of_In, list_elem_of_lookup in Hin as [i Hi].
    destruct (Forall2_lookup_l _ _ _ _ _ F Hi) as (d' & Hd' & R).
    fold register in E. rewrite R in E. injection E as ->. by eapply list_elem_of_lookup_2.
Qed.
End Pool.

(* ------------------------------------------------------------------ *)
(** ** A sample pool *)

Definition sample_cards : list CardDef :=
  map (fun n => MkCardDef (bytes_of n) Full [Basic] false) ["zero"; "one"; "two"; "three"]%string.

Definition sample_card_id (card_name : bytes) : option Z :=
  if bool_decide (card_name = bytes_of "one") then Some 1%Z
  else if bool_decide (card_name = bytes_of "three") then Some 3%Z else None.

Definition sample_policy_document : SideboardPolicyDocumentV1 :=
  MkPolicyDocument SIDEBOARD_POLICY_SCHEMA_V1 (bytes_of "p") [bytes_of "AlphaDeck"]
    (MkCoverageDocument SIDEBOARD_POLICY_MATCHUP_COVERAGE_V1 2)
    (bytes_of "keep_registered_configuration") [].

Definition sample_pool_document : PauperPoolDocumentV1 :=
  MkPool PAUPER_POOL_SCHEMA_V1
    [MkPoolDeck (bytes_of "AlphaDeck") (MkPoolZone 60 [MkPoolCard (bytes_of "one") 60])
       (MkPoolZone 15 [MkPoolCard (bytes_of "three") 15])].

Definition sample_registered : RegisteredDeckV1 :=
  MkRegisteredDeck (bytes_of "AlphaDeck")
    (MkConfiguration (replicate 60 1%Z) (replicate 15 3%Z)).

Lemma pool_decks_agree_by_id_witness :
  checked_in_pauper_registered_deck_by_id_v1 sample_cards sample_card_id
    (fun _ => Ok sample_policy_document) (fun _ => Ok sample_pool_document) [] []
    (bytes_of "AlphaDeck") = Ok sample_registered.
Proof.
  refine (proj2 (proj2 (proj1 (proj2 (pool_decks_agree_by_id sample_cards sample_card_id
    (fun _ => Ok sample_policy_document) (fun _ => Ok sample_pool_document) [] []
    [sample_registered] _) sample_registered) _)));
    [vm_compute; reflexivity|apply list_elem_of_here].
Defined.
