(* ===== verification/Bo3Session.v ===== *)
(** * Best-of-three deck sessions (src/mtg-kernel/src/bo3_session.rs)

    A session composes the match state of [Bo3Match] with two registered decks
    and, for a static match, a sideboard policy. Preparing a game advances a
    copy of the match state and stores it only when both seats'
    configurations are accepted. [LiveSideboardSwapPolicyV1] is the trait a
    live policy implements; its evidence and its action records
    (learned_sideboard_v1.rs) pass through unread, so they are types here. *)

From Stdlib Require Import String.
From stdpp Require Import gmap.
From S2P Require Import Prelude Ids Bytes Bo3Match Sideboard SideboardFacts SideboardPolicy SideboardBytes SideboardAdmission.
Import PlayerIds.

Record PreparedMatchGameV1 := MkPrepared {
  pr_start : GameStartV1;
  pr_configurations : per_player DeckConfigurationV1;
  pr_sideboard_receipts : per_player (option AppliedSideboardReceiptV1);
}.

(** [array.get(player.index())] *)
Definition seat_get {T} (a : per_player T) (p : PlayerId) : option T :=
  if decide (p = P0) then Some (of_p0 a) else if decide (p = P1) then Some (of_p1 a) else None.

Definition configuration (g : PreparedMatchGameV1) (p : PlayerId) : option DeckConfigurationV1 :=
  seat_get (pr_configurations g) p.
Definition sideboard_receipt (g : PreparedMatchGameV1) (p : PlayerId)
  : option AppliedSideboardReceiptV1 :=
  mjoin (seat_get (pr_sideboard_receipts g) p).

(** The trait [LiveSideboardSwapPolicyV1]: [&mut self] is threaded. *)
Class LiveSideboardSwapPolicyV1 (Policy Evidence Action : Type) :=
  select_live_v1 : Policy -> Evidence -> DeckConfigurationV1 ->
    Policy * result bytes (DeckConfigurationV1 * list Action).

Record LiveSideboardConsultationV1 (Policy Evidence : Type) := MkConsultation {
  lc_policy : Policy;
  lc_evidence : Evidence;
  lc_current : DeckConfigurationV1;
}.
Arguments MkConsultation {Policy Evidence}.
Arguments lc_policy {Policy Evidence} _.
Arguments lc_evidence {Policy Evidence} _.
Arguments lc_current {Policy Evidence} _.

Record LiveSideboardSelectionRecordV1 (Action : Type) := MkSelection { actions : list Action }.
Arguments MkSelection {Action}.

Record LiveGamePreparationV1 (Action : Type) := MkLivePreparation {
  lp_prepared : PreparedMatchGameV1;
  lp_live_selections : per_player (option (LiveSideboardSelectionRecordV1 Action));
}.
Arguments MkLivePreparation {Action}.
Arguments lp_prepared {Action} _.
Arguments lp_live_selections {Action} _.

Record BestOfThreeDeckMatchV1 := MkSession {
  registered_decks : per_player RegisteredDeckV1;
  sideboard_policy : option DeterministicSideboardPolicyV1;
  match_state : BestOfThreeMatchStateV1;
}.

Inductive Bo3SessionErrorV1 :=
  | Match (e : MatchStateErrorV1)
  | SideboardError (e : SideboardErrorV1)
  | MirrorRegistrationMismatch (deck : bytes)
  | GameOneConfigurationChanged (player : PlayerId)
  | LiveConfigurationsRequired
  | LivePolicy (message : bytes).

Inductive SessionFailure := SessionReturned (e : Bo3SessionErrorV1) | SessionPanicked.
Abbreviation session_result := (result SessionFailure).
Definition session_err {A} (e : Bo3SessionErrorV1) : session_result A := Err (SessionReturned e).

(** The [From] conversions [?] applies. *)
Definition from_match {A} (r : result MatchStateErrorV1 A) : session_result A :=
  match r with Ok a => Ok a | Err e => session_err (Match e) end.
Definition from_sideboard {A} (r : sideboard_result A) : session_result A :=
  match r with
  | Ok a => Ok a
  | Err (Returned e) => session_err (SideboardError e)
  | Err Panicked => Err SessionPanicked
  end.

Definition set_match_state (s : BestOfThreeDeckMatchV1) (m : BestOfThreeMatchStateV1)
  : BestOfThreeDeckMatchV1 :=
  MkSession (registered_decks s) (sideboard_policy s) m.

(** The state is assigned on the way out of a successful call only. *)
Definition commit {A} (s : BestOfThreeDeckMatchV1) (next : BestOfThreeMatchStateV1)
    (r : session_result A) : BestOfThreeDeckMatchV1 * session_result A :=
  match r with Ok a => (set_match_state s next, Ok a) | Err e => (s, Err e) end.

Definition registered_deck (s : BestOfThreeDeckMatchV1) (p : PlayerId)
  : option RegisteredDeckV1 := seat_get (registered_decks s) p.

Definition registered_of (s : BestOfThreeDeckMatchV1) (p : PlayerId) : DeckConfigurationV1 :=
  registered_configuration (seat (registered_decks s) p).

Definition new_live_v1 (CARD_DEFS : list CardDef) (decks : per_player RegisteredDeckV1)
    (game_one_chooser : PlayerId) : session_result BestOfThreeDeckMatchV1 :=
  let? _ := from_sideboard (validate_executable_v1 CARD_DEFS (of_p0 decks)) in
  let? _ := from_sideboard (validate_executable_v1 CARD_DEFS (of_p1 decks)) in
  let? m := from_match (Bo3Match.new_v1 game_one_chooser) in
  Ok (MkSession decks None m).

Definition session_record_game_result_v1 (s : BestOfThreeDeckMatchV1) (o : GameOutcomeV1)
  : BestOfThreeDeckMatchV1 * session_result MatchTransitionV1 :=
  let '(m, r) := Bo3Match.record_game_result_v1 (match_state s) o in
  (set_match_state s m, from_match r).

(** One seat of the validation loop. *)
Definition admit_configuration (s : BestOfThreeDeckMatchV1) (start : GameStartV1)
    (p : PlayerId) (c : DeckConfigurationV1) : session_result unit :=
  if negb (bool_decide (combined_card_counts_v1 c = combined_card_counts_v1 (registered_of s p)))
  then session_err (SideboardError RegisteredMultisetChanged)
  else if (gs_game_index start =? 1)%Z && negb (bool_decide (c = registered_of s p))
  then session_err (GameOneConfigurationChanged p)
  else Ok ().

Definition prepare_game_with_configurations_v1 (s : BestOfThreeDeckMatchV1)
    (chooser : PlayerId) (choice : PlayDrawChoiceV1)
    (configurations : per_player DeckConfigurationV1)
  : BestOfThreeDeckMatchV1 * session_result PreparedMatchGameV1 :=
  let '(next, r) := choose_play_draw_v1 (match_state s) chooser choice in
  commit s next (
    let? start := from_match r in
    let? _ := admit_configuration s start P0 (of_p0 configurations) in
    let? _ := admit_configuration s start P1 (of_p1 configurations) in
    Ok (MkPrepared start configurations (PerPlayer None None))).

Section Hashed.
Context (sha256_v1 : bytes -> bytes).

Definition session_new_v1 (p0 p1 : RegisteredDeckV1) (policy : DeterministicSideboardPolicyV1)
    (game_one_chooser : PlayerId) : session_result BestOfThreeDeckMatchV1 :=
  let? mismatch :=
    if bool_decide (deck_id p0 = deck_id p1) then
      let? h0 := from_sideboard (registered_75_sha256_v1 sha256_v1 p0) in
      let? h1 := from_sideboard (registered_75_sha256_v1 sha256_v1 p1) in
      Ok (negb (bool_decide (h0 = h1)))
    else Ok false in
  if mismatch : bool then session_err (MirrorRegistrationMismatch (deck_id p0)) else
  let? _ := from_sideboard (plan_for_v1 policy (deck_id p0) (deck_id p1) 2) in
  let? _ := from_sideboard (plan_for_v1 policy (deck_id p1) (deck_id p0) 2) in
  let? m := from_match (Bo3Match.new_v1 game_one_chooser) in
  Ok (MkSession (PerPlayer p0 p1) (Some policy) m).

(** The static policy's configuration of one seat. *)
Definition static_seat (policy : DeterministicSideboardPolicyV1) (s : BestOfThreeDeckMatchV1)
    (game_index : Z) (p : PlayerId)
  : session_result (DeckConfigurationV1 * AppliedSideboardReceiptV1) :=
  from_sideboard (apply_v1 sha256_v1 policy (seat (registered_decks s) p)
    (deck_id (seat (registered_decks s) (opponent p))) game_index).

Definition prepare_game_v1 (s : BestOfThreeDeckMatchV1)
    (chooser : PlayerId) (choice : PlayDrawChoiceV1)
  : BestOfThreeDeckMatchV1 * session_result PreparedMatchGameV1 :=
  match sideboard_policy s with
  | None => (s, session_err LiveConfigurationsRequired)
  | Some policy =>
      let '(next, r) := choose_play_draw_v1 (match_state s) chooser choice in
      commit s next (
        let? start := from_match r in
        let? (configurations, receipts) :=
          if (gs_game_index start =? 1)%Z then
            Ok (PerPlayer (registered_of s P0) (registered_of s P1), PerPlayer None None)
          else
            let? (c0, r0) := static_seat policy s (gs_game_index start) P0 in
            let? (c1, r1) := static_seat policy s (gs_game_index start) P1 in
            Ok (PerPlayer c0 c1, PerPlayer (Some r0) (Some r1)) in
        Ok (MkPrepared start configurations receipts))
  end.

Section Live.
Context {Policy Evidence Action : Type} `{!LiveSideboardSwapPolicyV1 Policy Evidence Action}.

Abbreviation consultation := (option (LiveSideboardConsultationV1 Policy Evidence)).
Abbreviation selection := (option (LiveSideboardSelectionRecordV1 Action)).

(** One seat of the consultation loop: the consultation with its policy's
    new state, and the configuration. *)
Definition live_seat (s : BestOfThreeDeckMatchV1) (game_index : Z) (p : PlayerId)
    (live : consultation)
  : consultation * session_result (DeckConfigurationV1 * selection) :=
  match live with
  | Some c =>
      let '(policy, r) := select_live_v1 (lc_policy c) (lc_evidence c) (lc_current c) in
      (Some (MkConsultation policy (lc_evidence c) (lc_current c)),
       match r with
       | Ok (selected, actions) => Ok (selected, Some (MkSelection actions))
       | Err message => session_err (LivePolicy message)
       end)
  | None =>
      (None,
       match sideboard_policy s with
       | None => session_err LiveConfigurationsRequired
       | Some policy =>
           let? (c, _) := static_seat policy s game_index p in Ok (c, None)
       end)
  end.

Definition with_selections (r : BestOfThreeDeckMatchV1 * session_result PreparedMatchGameV1)
    (selections : per_player selection)
  : BestOfThreeDeckMatchV1 * session_result (LiveGamePreparationV1 Action) :=
  (fst r, let? prepared := snd r in Ok (MkLivePreparation prepared selections)).

Abbreviation live_outcome := (BestOfThreeDeckMatchV1 * per_player consultation
  * session_result (LiveGamePreparationV1 Action))%type.

(** From the probe on. The result also carries the consultations, whose
    policies are borrowed mutably and keep their new states. *)
Definition prepare_consulted (s : BestOfThreeDeckMatchV1)
    (chooser : PlayerId) (choice : PlayDrawChoiceV1) (live : per_player consultation)
  : live_outcome :=
  match snd (choose_play_draw_v1 (match_state s) chooser choice) with
  | Err e => (s, live, session_err (Match e))
  | Ok start =>
      if (gs_game_index start =? 1)%Z then
        let '(s', r) := with_selections (prepare_game_with_configurations_v1 s chooser choice
          (PerPlayer (registered_of s P0) (registered_of s P1))) (PerPlayer None None) in
        (s', live, r)
      else
        let '(live0, r0) := live_seat s (gs_game_index start) P0 (of_p0 live) in
        match r0 with
        | Err e => (s, PerPlayer live0 (of_p1 live), Err e)
        | Ok (c0, sel0) =>
            let '(live1, r1) := live_seat s (gs_game_index start) P1 (of_p1 live) in
            match r1 with
            | Err e => (s, PerPlayer live0 live1, Err e)
            | Ok (c1, sel1) =>
                let '(s', r) := with_selections
                  (prepare_game_with_configurations_v1 s chooser choice (PerPlayer c0 c1))
                  (PerPlayer sel0 sel1) in
                (s', PerPlayer live0 live1, r)
            end
        end
  end.

Definition prepare_game_with_live_policies_v1 (s : BestOfThreeDeckMatchV1)
    (chooser : PlayerId) (choice : PlayDrawChoiceV1) (live : per_player consultation)
  : live_outcome :=
  match of_p0 live, of_p1 live, sideboard_policy s with
  | None, None, Some _ =>
      let '(s', r) := with_selections (prepare_game_v1 s chooser choice)
        (PerPlayer None None) in
      (s', live, r)
  | _, _, _ => prepare_consulted s chooser choice live
  end.
End Live.
End Hashed.

Definition session_checked_in_pauper_v1 (sha256_v1 : bytes -> bytes) (CARD_DEFS : list CardDef)
    (card_id_by_name : bytes -> option Z)
    (policy_from_str : bytes -> result bytes SideboardPolicyDocumentV1)
    (pool_from_str : bytes -> result bytes PauperPoolDocumentV1)
    (policy_json pool_json p0_deck_id p1_deck_id : bytes) (game_one_chooser : PlayerId)
  : session_result BestOfThreeDeckMatchV1 :=
  let by_id := checked_in_pauper_registered_deck_by_id_v1 CARD_DEFS card_id_by_name
    policy_from_str pool_from_str policy_json pool_json in
  let? p0 := from_sideboard (by_id p0_deck_id) in
  let? p1 := from_sideboard (by_id p1_deck_id) in
  let? policy := from_sideboard (checked_in_pauper_v1 policy_from_str policy_json) in
  session_new_v1 sha256_v1 p0 p1 policy game_one_chooser.
