(* ===== verification/Bo3SessionFacts.v ===== *)
(** * Best-of-three deck sessions: the theorems

    The invariant of every session a caller can reach, what a prepared game
    holds, and that a failed preparation changes nothing. *)

From Stdlib Require Import String.
From stdpp Require Import gmap.
From S2P Require Import Prelude Ids Bytes Bo3Match Sideboard SideboardFacts SideboardPolicy SideboardBytes SideboardAdmission Bo3Session.
Import PlayerIds.

(* ------------------------------------------------------------------ *)
(** ** Conversions *)

Lemma from_match_ok {A} (r : result MatchStateErrorV1 A) a : from_match r = Ok a <-> r = Ok a.
Proof. destruct r; cbn; split; intros [= ->]; done. Qed.

Lemma from_sideboard_ok {A} (r : sideboard_result A) a : from_sideboard r = Ok a <-> r = Ok a.
Proof. destruct r as [x|[e|]]; cbn; split; intros [= ->]; done. Qed.

Lemma commit_inv {A} s next (r : session_result A) s' r' : commit s next r = (s', r') ->
  r' = r /\ s' = match r with Ok _ => set_match_state s next | Err _ => s end.
Proof. destruct r; cbn; by intros [= <- <-]. Qed.

(** [choose_play_draw_v1] succeeds in one phase only and sets one field. *)
Lemma choose_ok m p c m' start : choose_play_draw_v1 m p c = (m', Ok start) ->
  exists i, m_phase m = AwaitingPlayDrawChoice i p /\ gs_game_index start = i /\
    m' = MkMatch (m_wins m) (m_games m) (AwaitingGameResult start).
Proof.
  unfold choose_play_draw_v1. destruct (validate_player_v1 p); [|done].
  destruct (m_phase m) as [i e|s|o]; [|done|done]. case_bool_decide as D; [done|].
  subst e. intros [= <- <-]. exists i. done.
Qed.

(* ------------------------------------------------------------------ *)
(** ** The invariant *)

Record session_wf (s : BestOfThreeDeckMatchV1) : Prop := {
  sw_decks : forall p, valid_player p -> deck_wf (seat (registered_decks s) p);
  sw_match : match_inv (match_state s);
  sw_policy : forall policy, sideboard_policy s = Some policy ->
    policy_wf policy /\ policy_sized policy /\
    forall p, valid_player p -> deck_id (seat (registered_decks s) p) ∈ deck_ids policy;
}.

Lemma plan_for_known p self opponent game plan : policy_wf p ->
  plan_for_v1 p self opponent game = Ok plan -> self ∈ deck_ids p /\ opponent ∈ deck_ids p.
Proof.
  intros W. unfold plan_for_v1. intros (u & _ & E)%result_bind_ok.
  apply result_bind_ok in E as ([] & E & _). rewrite for_each_ok in E.
  apply Forall_cons in E as [Es E]. apply Forall_cons in E as [Eo _].
  destruct (knows_deck p self) eqn:Ks; [|done]. destruct (knows_deck p opponent) eqn:Ko; [|done].
  by rewrite !knows_deck_spec in Ks, Ko by done.
Qed.

Lemma forall_seats (P : PlayerId -> Prop) : P P0 -> P P1 -> forall p, valid_player p -> P p.
Proof. intros H0 H1 p [-> | ->]; done. Qed.

Lemma session_new_wf sha p0 p1 policy chooser s :
  deck_wf p0 -> deck_wf p1 -> policy_wf policy -> policy_sized policy ->
  session_new_v1 sha p0 p1 policy chooser = Ok s -> session_wf s.
Proof.
  intros W0 W1 Wp Sz. unfold session_new_v1. intros (b & _ & E)%result_bind_ok.
  destruct b; [done|].
  apply result_bind_ok in E as (q0 & E0%from_sideboard_ok & E).
  apply result_bind_ok in E as (q1 & _ & E).
  apply result_bind_ok in E as (m & Em%from_match_ok & [= <-]).
  apply plan_for_known in E0 as [K0 K1]; [|done].
  split; cbn [registered_decks sideboard_policy match_state].
  - by apply forall_seats.
  - by eapply new_inv.
  - intros q [= <-]. split; [done|]. split; [done|]. by apply forall_seats.
Qed.

Lemma new_live_wf defs decks chooser s :
  deck_wf (of_p0 decks) -> deck_wf (of_p1 decks) ->
  new_live_v1 defs decks chooser = Ok s -> session_wf s.
Proof.
  intros W0 W1. unfold new_live_v1. intros (u & _ & E)%result_bind_ok.
  apply result_bind_ok in E as (u' & _ & E).
  apply result_bind_ok in E as (m & Em%from_match_ok & [= <-]).
  split; cbn [registered_decks sideboard_policy match_state]; [|by eapply new_inv|done].
  by apply forall_seats.
Qed.

Lemma set_match_wf s m : session_wf s -> match_inv m -> session_wf (set_match_state s m).
Proof. intros [D M P] H. by split. Qed.

(* ------------------------------------------------------------------ *)
(** ** Preparing a game *)

(** What a prepared game holds, whichever call prepared it. *)
Record prepared_ok (s s' : BestOfThreeDeckMatchV1) (g : PreparedMatchGameV1) : Prop := {
  po_configurations : forall p, valid_player p ->
    config_wf (seat (pr_configurations g) p) /\
    all_cards (seat (pr_configurations g) p) ≡ₚ all_cards (registered_of s p) /\
    (gs_game_index (pr_start g) = 1%Z -> seat (pr_configurations g) p = registered_of s p);
  po_state : s' = set_match_state s (match_state s');
  po_choice : exists chooser choice,
    choose_play_draw_v1 (match_state s) chooser choice = (match_state s', Ok (pr_start g));
}.

Lemma registered_wf s p : session_wf s -> valid_player p -> config_wf (registered_of s p).
Proof. intros W V. apply (wf_registered _ (sw_decks _ W p V)). Qed.

Lemma admit_ok s start p c : session_wf s -> valid_player p -> config_wf c ->
  admit_configuration s start p c = Ok () ->
  all_cards c ≡ₚ all_cards (registered_of s p) /\
  (gs_game_index start = 1%Z -> c = registered_of s p).
Proof.
  intros W V Wc. unfold admit_configuration.
  case_bool_decide as Q; cbn [negb]; [|done].
  apply combined_counts_perm in Q; [|done|by apply registered_wf].
  destruct (Z.eqb_spec (gs_game_index start) 1); cbn [andb]; [|done].
  case_bool_decide; cbn [negb]; [|done]. done.
Qed.

Lemma prepare_with_inv s chooser choice cs s' r : session_wf s ->
  config_wf (of_p0 cs) -> config_wf (of_p1 cs) ->
  prepare_game_with_configurations_v1 s chooser choice cs = (s', r) ->
  match r with
  | Ok g => prepared_ok s s' g /\ pr_configurations g = cs
  | Err _ => s' = s
  end.
Proof.
  intros W W0 W1. unfold prepare_game_with_configurations_v1.
  destruct (choose_play_draw_v1 (match_state s) chooser choice) as [next r0] eqn:C.
  intros [-> ->]%commit_inv.
  destruct (from_match r0) as [start|] eqn:E0; cbn [result_bind]; [|done].
  apply from_match_ok in E0 as ->.
  destruct (admit_configuration s start P0 _) as [[]|] eqn:E0; cbn [result_bind]; [|done].
  destruct (admit_configuration s start P1 _) as [[]|] eqn:E1; cbn [result_bind]; [|done].
  apply admit_ok in E0 as [? ?]; [|done|by left|done].
  apply admit_ok in E1 as [? ?]; [|done|by right|done].
  split; [|done]. destruct cs. split; [by apply forall_seats|done|].
  by exists chooser, choice.
Qed.

Lemma static_seat_ok sha policy s game p c r : session_wf s -> valid_player p ->
  static_seat sha policy s game p = Ok (c, r) ->
  config_wf c /\ all_cards c ≡ₚ all_cards (registered_of s p).
Proof.
  intros W V E%from_sideboard_ok. unfold apply_v1 in E.
  apply result_bind_ok in E as (plan & _ & E). apply result_bind_ok in E as (h & _ & E).
  by eapply apply_plan_conserves, E; apply (sw_decks _ W p V).
Qed.

Lemma prepare_game_inv sha s chooser choice s' r : session_wf s ->
  prepare_game_v1 sha s chooser choice = (s', r) ->
  match r with Ok g => prepared_ok s s' g | Err _ => s' = s end.
Proof.
  intros W. unfold prepare_game_v1.
  destruct (sideboard_policy s) as [policy|]; [|by intros [= <- <-]].
  destruct (choose_play_draw_v1 (match_state s) chooser choice) as [next r0] eqn:C.
  intros [-> ->]%commit_inv.
  destruct (from_match r0) as [start|] eqn:E0; cbn [result_bind]; [|done].
  apply from_match_ok in E0 as ->.
  destruct (Z.eqb_spec (gs_game_index start) 1); cbn [result_bind].
  - split; [|done|by exists chooser, choice].
    apply forall_seats; cbn [pr_configurations]; rewrite ?seat_P0, ?seat_P1;
      (split; [apply registered_wf; [done|by left + right]|done]).
  - destruct (static_seat sha policy s _ P0) as [[c0 r0]|] eqn:S0; cbn [result_bind]; [|done].
    destruct (static_seat sha policy s _ P1) as [[c1 r1]|] eqn:S1; cbn [result_bind]; [|done].
    apply static_seat_ok in S0 as [? ?]; [|done|by left].
    apply static_seat_ok in S1 as [? ?]; [|done|by right].
    split; [|done|by exists chooser, choice].
    by apply forall_seats; cbn [pr_configurations pr_start].
Qed.

(** A live policy returns configurations built by the public constructor,
    which admits only sorted 60/15 ones. *)
Class LawfulLivePolicy (Policy Evidence Action : Type)
    `{!LiveSideboardSwapPolicyV1 Policy Evidence Action} : Prop :=
  select_wf : forall policy evidence current c acts,
    snd (select_live_v1 policy evidence current) = Ok (c, acts) -> config_wf c.

Section Live.
Context (sha : bytes -> bytes).
Context {Policy Evidence Action : Type} `{!LiveSideboardSwapPolicyV1 Policy Evidence Action}.
Context `{Lawful : !LawfulLivePolicy Policy Evidence Action}.

Lemma live_seat_wf s game p live live' c sel : session_wf s -> valid_player p ->
  live_seat sha s game p live = (live', Ok (c, sel)) -> config_wf c.
Proof using Lawful.
  intros W V. unfold live_seat. destruct live as [[policy evidence current]|];
    cbn [lc_policy lc_evidence lc_current].
  - destruct (select_live_v1 policy evidence current) as [policy' [[c' acts]|]] eqn:S; [|done].
    intros [= _ <- _]. eapply (select_wf policy evidence current). by rewrite S.
  - destruct (sideboard_policy s) as [q|]; [|done].
    destruct (static_seat sha q s game p) as [[c' r]|] eqn:S; [|done].
    cbn [result_bind]. intros [= _ <- _]. by eapply static_seat_ok.
Qed.

Lemma with_selections_inv s r0 sel s' (r : session_result (LiveGamePreparationV1 Action)) :
  match snd r0 with Ok g => prepared_ok s (fst r0) g | Err _ => fst r0 = s end ->
  with_selections r0 sel = (s', r) ->
  match r with Ok g => prepared_ok s s' (lp_prepared g) | Err _ => s' = s end.
Proof using Type. destruct r0 as [s0 [g|e]]; cbn; by intros H [= <- <-]. Qed.

Lemma prepare_with_snd s chooser choice cs : session_wf s ->
  config_wf (of_p0 cs) -> config_wf (of_p1 cs) ->
  match snd (prepare_game_with_configurations_v1 s chooser choice cs) with
  | Ok g => prepared_ok s (fst (prepare_game_with_configurations_v1 s chooser choice cs)) g
  | Err _ => fst (prepare_game_with_configurations_v1 s chooser choice cs) = s
  end.
Proof using Type.
  intros W W0 W1.
  destruct (prepare_game_with_configurations_v1 s chooser choice cs) as [s1 [g|e]] eqn:P;
    apply prepare_with_inv in P; [apply P|done..].
Qed.

Lemma prepare_live_inv s chooser choice live s' live' r : session_wf s ->
  prepare_game_with_live_policies_v1 sha s chooser choice live = (s', live', r) ->
  match r with Ok g => prepared_ok s s' (lp_prepared g) | Err _ => s' = s end.
Proof using Lawful.
  intros W. unfold prepare_game_with_live_policies_v1.
  assert (prepare_consulted sha s chooser choice live = (s', live', r) ->
    match r with Ok g => prepared_ok s s' (lp_prepared g) | Err _ => s' = s end) as Y.
  { unfold prepare_consulted. destruct (snd (choose_play_draw_v1 _ _ _)) as [start|e];
      [|by intros [= <- _ <-]].
    destruct (gs_game_index start =? 1)%Z.
    { destruct (with_selections _ _) as [s1 r1] eqn:E. intros [= <- _ <-].
      eapply with_selections_inv, E. apply prepare_with_snd; [done|..];
        apply registered_wf; [done|by left|done|by right]. }
    destruct (live_seat sha s _ P0 _) as [live0 [[c0 sel0]|e0]] eqn:L0; [|by intros [= <- _ <-]].
    destruct (live_seat sha s _ P1 _) as [live1 [[c1 sel1]|e1]] eqn:L1; [|by intros [= <- _ <-]].
    destruct (with_selections _ _) as [s1 r1] eqn:E. intros [= <- _ <-].
    eapply with_selections_inv, E. apply prepare_with_snd; [done|..]; cbn [of_p0 of_p1].
    - eapply live_seat_wf, L0; [done|by left].
    - eapply live_seat_wf, L1; [done|by right]. }
  destruct (of_p0 live), (of_p1 live), (sideboard_policy s); try exact Y.
  destruct (with_selections _ _) as [s1 r1] eqn:E. intros [= <- _ <-].
  eapply with_selections_inv, E. destruct (prepare_game_v1 sha s chooser choice) eqn:P.
  by apply prepare_game_inv in P.
Qed.

(** The calls a caller makes on a session; the prepared game, if any. *)
Inductive session_call (s : BestOfThreeDeckMatchV1)
  : BestOfThreeDeckMatchV1 -> option PreparedMatchGameV1 -> Prop :=
  | call_prepare chooser choice s' r :
      prepare_game_v1 sha s chooser choice = (s', r) ->
      session_call s s' (match r with Ok g => Some g | Err _ => None end)
  | call_configurations chooser choice cs s' r :
      config_wf (of_p0 cs) -> config_wf (of_p1 cs) ->
      prepare_game_with_configurations_v1 s chooser choice cs = (s', r) ->
      session_call s s' (match r with Ok g => Some g | Err _ => None end)
  | call_live chooser choice (live : per_player _) s' live' r :
      prepare_game_with_live_policies_v1 sha s chooser choice live = (s', live', r) ->
      session_call s s' (match r with Ok g => Some (lp_prepared g) | Err _ => None end)
  | call_record o s' r :
      session_record_game_result_v1 s o = (s', r) -> session_call s s' None.

Inductive session_reachable : BestOfThreeDeckMatchV1 -> Prop :=
  | reach_new p0 p1 policy chooser s :
      deck_wf p0 -> deck_wf p1 -> policy_wf policy -> policy_sized policy ->
      session_new_v1 sha p0 p1 policy chooser = Ok s -> session_reachable s
  | reach_live defs decks chooser s :
      deck_wf (of_p0 decks) -> deck_wf (of_p1 decks) ->
      new_live_v1 defs decks chooser = Ok s -> session_reachable s
  | reach_call s s' g : session_reachable s -> session_call s s' g -> session_reachable s'.

Lemma prepared_wf s s' g : session_wf s -> prepared_ok s s' g -> session_wf s'.
Proof using Type.
  intros W [_ -> (chooser & choice & C)]. apply set_match_wf; [done|].
  pose proof (choose_inv (match_state s) chooser choice (sw_match _ W)) as I.
  by rewrite C in I.
Qed.

(** What one call does to a well-formed session. *)
Lemma call_spec s s' g : session_wf s -> session_call s s' g ->
  match g with
  | Some g => prepared_ok s s' g
  | None => s' = s \/ exists o r, session_record_game_result_v1 s o = (s', r)
  end.
Proof using Lawful.
  intros W. destruct 1 as [chooser choice s' r P|chooser choice cs s' r W0 W1 P
    |chooser choice live s' live' r P|o s' r P].
  - apply prepare_game_inv in P; [|done]. destruct r; [done|by left].
  - apply prepare_with_inv in P; [|done..]. destruct r; [apply P|by left].
  - apply prepare_live_inv in P; [|done]. destruct r; [done|by left].
  - right. eauto.
Qed.

Lemma record_wf s o s' r : session_wf s ->
  session_record_game_result_v1 s o = (s', r) -> session_wf s'.
Proof using Type.
  intros W. unfold session_record_game_result_v1.
  pose proof (record_inv (match_state s) o (sw_match _ W)) as I.
  destruct (Bo3Match.record_game_result_v1 (match_state s) o) as [m r']. intros [= <- _].
  by apply set_match_wf.
Qed.

Lemma reachable_wf s : session_reachable s -> session_wf s.
Proof using Lawful.
  induction 1 as [|p0 decks chooser s W0 W1 E|s s' g _ IH C].
  - by eapply session_new_wf; [| | | |eassumption].
  - by eapply new_live_wf; [| |eassumption].
  - apply call_spec in C; [|done]. destruct g as [g|]; [by eapply prepared_wf|].
    destruct C as [->|(o & r & C)]; [done|by eapply record_wf].
Qed.

(** C36: every prepared game plays the registered decks. In every session a
    caller can reach, whatever calls succeeded or failed before, a game
    prepared by any of the three preparations gives each seat a sorted 60/15
    configuration of exactly its registered 75 cards, and the registered
    configuration itself in game one; only the match phase of the session
    changes, by the play/draw choice, and the match stays consistent with
    the games played. *)
Theorem prepared_games_play_the_registered_decks s s' g :
  session_reachable s -> session_call s s' (Some g) ->
  (forall p, valid_player p ->
    config_wf (seat (pr_configurations g) p) /\
    all_cards (seat (pr_configurations g) p) ≡ₚ all_cards (registered_of s p) /\
    (gs_game_index (pr_start g) = 1%Z -> seat (pr_configurations g) p = registered_of s p)) /\
  registered_decks s' = registered_decks s /\ sideboard_policy s' = sideboard_policy s /\
  (exists chooser choice,
    choose_play_draw_v1 (match_state s) chooser choice = (match_state s', Ok (pr_start g))) /\
  match_inv (match_state s').
Proof using Lawful.
  intros R%reachable_wf C. pose proof (call_spec _ _ _ R C) as P.
  pose proof (prepared_wf _ _ _ R P) as W'. destruct P as [Hc Hs Hch].
  split; [done|]. split; [by rewrite Hs|]. split; [by rewrite Hs|]. split; [done|apply W'].
Qed.

(** A failed call changes nothing. In every reachable session, a
    preparation that returns an error, whether the match phase, a policy, a
    shortage or a rejected configuration caused it, leaves the whole session
    as it was, and so does a result recorded in the wrong phase or for an
    invalid player. *)
Theorem failed_session_calls_change_nothing s : session_reachable s ->
  (forall chooser choice s' e, prepare_game_v1 sha s chooser choice = (s', Err e) -> s' = s) /\
  (forall chooser choice cs s' e, config_wf (of_p0 cs) -> config_wf (of_p1 cs) ->
    prepare_game_with_configurations_v1 s chooser choice cs = (s', Err e) -> s' = s) /\
  (forall chooser choice (live : per_player _) s' live' e,
    prepare_game_with_live_policies_v1 sha s chooser choice live = (s', live', Err e) ->
    s' = s) /\
  (forall o s' e, session_record_game_result_v1 s o = (s', Err e) -> s' = s).
Proof using Lawful.
  intros W%reachable_wf. split_and!.
  - intros chooser choice s' e P. by apply prepare_game_inv in P.
  - intros chooser choice cs s' e W0 W1 P. by apply prepare_with_inv in P.
  - intros chooser choice live s' live' e P. by apply prepare_live_inv in P.
  - intros o s' e. unfold session_record_game_result_v1, Bo3Match.record_game_result_v1.
    destruct s as [decks policy m]. cbn [match_state].
    cbn [from_match]. destruct (m_phase m) as [i c|start|out];
      cbn [from_match]; [by intros [= <-]| |by intros [= <-]].
    destruct (game_winner_of o) as [w|]; cbn [from_match]; [|by intros [= <-]].
    destruct (match _ with Some _ => Some 0%Z | None => _ end); cbn [from_match];
      [|by intros [= <-]].
    by destruct (match w with Some _ => _ | None => None end).
Qed.

(** The static preparation, step by step. *)
Lemma prepare_game_steps s policy chooser choice s' g :
  sideboard_policy s = Some policy -> prepare_game_v1 sha s chooser choice = (s', Ok g) ->
  exists next start, choose_play_draw_v1 (match_state s) chooser choice = (next, Ok start) /\
    s' = set_match_state s next /\ pr_start g = start /\
    if (gs_game_index start =? 1)%Z then
      pr_configurations g = PerPlayer (registered_of s P0) (registered_of s P1)
    else exists r0 r1,
      static_seat sha policy s (gs_game_index start) P0 = Ok (of_p0 (pr_configurations g), r0) /\
      static_seat sha policy s (gs_game_index start) P1 = Ok (of_p1 (pr_configurations g), r1).
Proof using Type.
  intros Hp. unfold prepare_game_v1. rewrite Hp.
  destruct (choose_play_draw_v1 (match_state s) chooser choice) as [next [start|e]];
    cbn [from_match result_bind]; [|by intros [? ?]%commit_inv].
  intros [E ->]%commit_inv. symmetry in E. exists next, start. split; [done|].
  destruct (gs_game_index start =? 1)%Z; cbn [result_bind] in E.
  - by injection E as <-.
  - destruct (static_seat sha policy s _ P0) as [[c0 r0]|]; cbn [result_bind] in E; [|done].
    destruct (static_seat sha policy s _ P1) as [[c1 r1]|]; cbn [result_bind] in E; [|done].
    injection E as <-. cbn [pr_start pr_configurations of_p0 of_p1]. eauto 6.
Qed.

(** Admissible configurations are accepted. *)
Lemma prepare_with_accepts s chooser choice next start cs : session_wf s ->
  choose_play_draw_v1 (match_state s) chooser choice = (next, Ok start) ->
  (forall p, valid_player p -> config_wf (seat cs p) /\
    all_cards (seat cs p) ≡ₚ all_cards (registered_of s p) /\
    (gs_game_index start = 1%Z -> seat cs p = registered_of s p)) ->
  prepare_game_with_configurations_v1 s chooser choice cs
  = (set_match_state s next, Ok (MkPrepared start cs (PerPlayer None None))).
Proof using Type.
  intros W C H. unfold prepare_game_with_configurations_v1. rewrite C.
  cbn [from_match result_bind].
  assert (forall p, valid_player p -> admit_configuration s start p (seat cs p) = Ok ()) as A.
  { intros p V. destruct (H p V) as (Wc & Hc & H1). unfold admit_configuration.
    rewrite bool_decide_eq_true_2 by (apply combined_counts_perm; [done|by apply registered_wf|done]).
    cbn [negb]. destruct (Z.eqb_spec (gs_game_index start) 1); cbn [andb]; [|done].
    by rewrite bool_decide_eq_true_2 by auto. }
  pose proof (A P0 (or_introl eq_refl)) as A0. pose proof (A P1 (or_intror eq_refl)) as A1.
  change (seat cs P0) with (of_p0 cs) in A0. change (seat cs P1) with (of_p1 cs) in A1.
  by rewrite A0, A1.
Qed.

Lemma live_seat_agrees s policy game p live cfg r : sideboard_policy s = Some policy ->
  static_seat sha policy s game p = Ok (cfg, r) ->
  (forall c, live = Some c -> exists acts,
    snd (select_live_v1 (lc_policy c) (lc_evidence c) (lc_current c)) = Ok (cfg, acts)) ->
  exists live' (sel : option (LiveSideboardSelectionRecordV1 Action)),
    live_seat (Policy := Policy) (Evidence := Evidence) sha s game p live = (live', Ok (cfg, sel)).
Proof using Type.
  intros Hp Hs Hl. unfold live_seat. destruct live as [c|].
  - destruct (Hl c eq_refl) as [acts E].
    destruct (select_live_v1 (lc_policy c) (lc_evidence c) (lc_current c)). cbn in E.
    rewrite E. eauto.
  - rewrite Hp, Hs. cbn [result_bind]. eauto.
Qed.

Lemma consulted_agrees s policy chooser choice live s' g : session_wf s ->
  sideboard_policy s = Some policy ->
  prepare_game_v1 sha s chooser choice = (s', Ok g) ->
  (forall p (c : LiveSideboardConsultationV1 Policy Evidence), valid_player p ->
    seat live p = Some c -> exists r acts,
      static_seat sha policy s (gs_game_index (pr_start g)) p
      = Ok (seat (pr_configurations g) p, r) /\
      snd (select_live_v1 (lc_policy c) (lc_evidence c) (lc_current c))
      = Ok (seat (pr_configurations g) p, acts)) ->
  exists live' (lg : LiveGamePreparationV1 Action),
    prepare_consulted sha s chooser choice live = (s', live', Ok lg) /\
    pr_start (lp_prepared lg) = pr_start g /\
    pr_configurations (lp_prepared lg) = pr_configurations g.
Proof using Type.
  intros W Hp P Hlive. pose proof P as PI. apply prepare_game_inv in PI; [|done].
  destruct PI as [Hc _ _].
  destruct (prepare_game_steps _ _ _ _ _ _ Hp P) as (next & start & C & -> & Hst & G).
  rewrite Hst in *. unfold prepare_consulted. rewrite C. cbn [snd].
  destruct (gs_game_index start =? 1)%Z.
  - rewrite <- G. rewrite (prepare_with_accepts _ _ _ _ _ _ W C Hc).
    cbn [with_selections fst snd result_bind]. eexists _, _. split; [done|]. done.
  - destruct G as (r0 & r1 & S0 & S1).
    destruct (live_seat_agrees s policy _ P0 (of_p0 live) _ _ Hp S0) as (l0 & sel0 & ->).
    { intros c E. destruct (Hlive P0 c (or_introl eq_refl) E) as (? & acts & _ & Es).
      by exists acts. }
    destruct (live_seat_agrees s policy _ P1 (of_p1 live) _ _ Hp S1) as (l1 & sel1 & ->).
    { intros c E. destruct (Hlive P1 c (or_intror eq_refl) E) as (? & acts & _ & Es).
      by exists acts. }
    assert (PerPlayer (of_p0 (pr_configurations g)) (of_p1 (pr_configurations g))
            = pr_configurations g) as -> by (by destruct (pr_configurations g)).
    rewrite (prepare_with_accepts _ _ _ _ _ _ W C Hc).
    cbn [with_selections fst snd result_bind]. eexists _, _. split; [done|]. done.
Qed.

(** What applying a policy can answer to a session's seat. *)
Lemma static_seat_outcomes s policy game p : session_wf s ->
  sideboard_policy s = Some policy -> (2 <= game)%Z -> valid_player p ->
  (exists c r, static_seat sha policy s game p = Ok (c, r)) \/
  exists zone card requested available, (available < requested)%Z /\
    static_seat sha policy s game p
    = session_err (SideboardError (CardUnavailable zone card requested available)).
Proof using Type.
  intros W Hp Hg V. destruct (sw_policy _ W _ Hp) as (Wp & Sz & K).
  assert (valid_player (opponent p)) as Vo.
  { destruct V as [-> | ->]; [right|left]; by vm_compute. }
  unfold static_seat, apply_v1.
  destruct (plan_for_ok policy _ _ game Wp Hg (K p V) (K _ Vo)) as (plan & -> & Wplan & Kp & _).
  cbn [result_bind]. destruct (policy_sha_total sha policy Wp Sz) as [h ->]. cbn [result_bind].
  pose proof (apply_plan_exact sha _ plan (policy_id policy) h (sw_decks _ W p V) Wplan
    ltac:(by injection Kp) (po_id _ _ _ (wf_accepted _ Wp))) as X. cbv zeta in X.
  destruct (short_row _ (cards_out plan)) as [r|] eqn:Fo;
    [|destruct (short_row _ (cards_in plan)) as [r|] eqn:Fi].
  - right. rewrite X. apply find_some in Fo as [_ L]. apply Z.ltb_lt in L.
    by eexists _, _, _, _.
  - right. rewrite X. apply find_some in Fi as [_ L]. apply Z.ltb_lt in L.
    by eexists _, _, _, _.
  - left. destruct X as (c & r & -> & _). by exists c, r.
Qed.

(** A static session fails only on a shortage. In a reachable session
    with a sideboard policy, the expected player's play/draw choice always
    prepares the first game; a later game is prepared too, unless a plan of
    the policy asks a zone for more copies of a card than the registered deck
    has there, which is the error reported. In particular no later game
    fails for an unknown deck, an invalid plan or a changed multiset. *)
Theorem static_preparation_fails_only_on_shortage s policy i chooser choice :
  session_reachable s -> sideboard_policy s = Some policy ->
  m_phase (match_state s) = AwaitingPlayDrawChoice i chooser ->
  (exists s' g, prepare_game_v1 sha s chooser choice = (s', Ok g)) \/
  i <> 1%Z /\ exists zone card requested available, (available < requested)%Z /\
    prepare_game_v1 sha s chooser choice
    = (s, session_err (SideboardError (CardUnavailable zone card requested available))).
Proof using Lawful.
  intros W%reachable_wf Hp Ph.
  pose proof (inv_phase _ (sw_match _ W)) as I. rewrite Ph in I.
  destruct I as (Ei & Bi & Vc & _). unfold prepare_game_v1, choose_play_draw_v1.
  rewrite Hp, Ph, (validate_player_valid _ Vc), bool_decide_eq_false_2 by tauto.
  cbn [from_match result_bind gs_game_index].
  destruct (Z.eqb_spec i 1) as [|N]; cbn [result_bind commit]; [left; eauto|].
  assert (2 <= i)%Z as Hi by lia.
  destruct (static_seat_outcomes s policy i P0 W Hp Hi (or_introl eq_refl))
    as [(c0 & r0 & ->)|(z & c & a & b & L & ->)];
    [|right; split; [done|]; exists z, c, a, b; done].
  cbn [result_bind].
  destruct (static_seat_outcomes s policy i P1 W Hp Hi (or_intror eq_refl))
    as [(c1 & r1 & ->)|(z & c & a & b & L & ->)];
    [|right; split; [done|]; exists z, c, a, b; done].
  cbn [result_bind commit]. left. eauto.
Qed.

(** A live policy that chooses what the static policy would prepares the
    same game. Take a reachable session with a static policy, and seats each
    of which is either not live or selects the configuration the static
    policy assigns it. Whenever [prepare_game_v1] succeeds,
    [prepare_game_with_live_policies_v1] succeeds too, with the same session,
    the same start and the same configurations. *)
Theorem live_preparation_agrees_with_static s policy chooser choice
    (live : per_player (option (LiveSideboardConsultationV1 Policy Evidence))) s' g :
  session_reachable s -> sideboard_policy s = Some policy ->
  prepare_game_v1 sha s chooser choice = (s', Ok g) ->
  (forall p c, valid_player p -> seat live p = Some c ->
    exists r acts,
      static_seat sha policy s (gs_game_index (pr_start g)) p
      = Ok (seat (pr_configurations g) p, r) /\
      snd (select_live_v1 (lc_policy c) (lc_evidence c) (lc_current c))
      = Ok (seat (pr_configurations g) p, acts)) ->
  exists live' (lg : LiveGamePreparationV1 Action),
    prepare_game_with_live_policies_v1 sha s chooser choice live = (s', live', Ok lg) /\
    pr_start (lp_prepared lg) = pr_start g /\
    pr_configurations (lp_prepared lg) = pr_configurations g.
Proof using Lawful.
  intros R%reachable_wf Hp P Hlive. unfold prepare_game_with_live_policies_v1.
  assert (exists live' (lg : LiveGamePreparationV1 Action),
    prepare_consulted sha s chooser choice live = (s', live', Ok lg) /\
    pr_start (lp_prepared lg) = pr_start g /\
    pr_configurations (lp_prepared lg) = pr_configurations g) as Y.
  { by eapply consulted_agrees. }
  rewrite Hp. destruct (of_p0 live); [exact Y|]. destruct (of_p1 live); [exact Y|].
  rewrite P. cbn [with_selections fst snd result_bind].
  eexists _, _. split; [done|]. done.
Qed.
End Live.

(* ------------------------------------------------------------------ *)
(** ** A sample match *)

(** A live policy that resubmits the configuration it is shown. *)
#[export] Instance resubmit : LiveSideboardSwapPolicyV1 unit unit unit :=
  fun policy _ current =>
    (policy, match DeckConfigurationV1_new_exact_v1 (mainboard current) (sideboard current) with
             | Ok c => Ok (c, [])
             | Err _ => Err (bytes_of "rejected")
             end).

#[export] Instance resubmit_lawful : LawfulLivePolicy unit unit unit.
Proof.
  intros policy evidence current c acts. unfold select_live_v1, resubmit. cbn [snd].
  destruct (DeckConfigurationV1_new_exact_v1 _ _) as [c'|] eqn:E; [|done].
  intros [= <- _]. by eapply configuration_new_wf.
Qed.

Definition sample_beta : RegisteredDeckV1 :=
  MkRegisteredDeck (bytes_of "BetaDeck") (MkConfiguration (replicate 60 9%Z) (replicate 15 10%Z)).

Lemma sample_beta_wf : deck_wf sample_beta.
Proof.
  eapply (registered_new_wf (bytes_of "BetaDeck") (replicate 60 9%Z) (replicate 15 10%Z)).
  by vm_compute.
Qed.

Definition sample_session : BestOfThreeDeckMatchV1 :=
  MkSession (PerPlayer sample_deck sample_beta) (Some sample_policy)
    (MkMatch (PerPlayer 0%Z 0%Z) [] (AwaitingPlayDrawChoice 1 P0)).

(** Game one is prepared and won by P0: P1 chooses game two. *)
Definition sample_game_two : BestOfThreeDeckMatchV1 :=
  fst (session_record_game_result_v1 (fst (prepare_game_v1 sample_sha sample_session P0 Play))
         (GameWin P0)).

Lemma sample_session_reachable :
  session_reachable (Policy := unit) (Evidence := unit) (Action := unit) sample_sha sample_session.
Proof.
  apply (reach_new _ sample_deck sample_beta sample_policy P0);
    [apply sample_deck_wf|apply sample_beta_wf|apply sample_policy_wf|apply sample_sized|].
  by vm_compute.
Qed.

Lemma sample_game_two_reachable :
  session_reachable (Policy := unit) (Evidence := unit) (Action := unit) sample_sha sample_game_two.
Proof.
  eapply reach_call; [eapply reach_call; [apply sample_session_reachable|]|].
  - eapply call_prepare. apply surjective_pairing.
  - eapply call_record. apply surjective_pairing.
Qed.

Definition sample_prepared : option PreparedMatchGameV1 :=
  match snd (prepare_game_v1 sample_sha sample_game_two P1 Play) with
  | Ok g => Some g | Err _ => None
  end.

(** The second game is played with two copies of card 3 for card 2. *)
Lemma prepared_games_play_the_registered_decks_witness :
  exists g, sample_prepared = Some g /\
    all_cards (of_p0 (pr_configurations g)) ≡ₚ all_cards (registered_of sample_game_two P0).
Proof.
  destruct sample_prepared as [g|] eqn:E; [|vm_compute in E; discriminate E].
  exists g. split; [reflexivity|].
  refine (proj1 (proj2 (proj1 (prepared_games_play_the_registered_decks
    (Policy := unit) (Evidence := unit) (Action := unit) sample_sha sample_game_two
    (fst (prepare_game_v1 sample_sha sample_game_two P1 Play)) g
    sample_game_two_reachable _) P0 (or_introl eq_refl)))).
  rewrite <- E. eapply call_prepare. apply surjective_pairing.
Defined.

Lemma failed_session_calls_change_nothing_witness :
  fst (prepare_game_v1 sample_sha sample_game_two P0 Play) = sample_game_two.
Proof.
  refine (proj1 (failed_session_calls_change_nothing (Policy := unit) (Evidence := unit)
    (Action := unit) sample_sha sample_game_two sample_game_two_reachable) P0 Play _
    (SessionReturned (Match (WrongChooser P1 P0))) _).
  vm_compute. reflexivity.
Defined.

Definition sample_consultation : LiveSideboardConsultationV1 unit unit :=
  MkConsultation () () (registered_of sample_game_two P1).

Lemma sample_prepared_ok g : sample_prepared = Some g ->
  prepare_game_v1 sample_sha sample_game_two P1 Play
  = (fst (prepare_game_v1 sample_sha sample_game_two P1 Play), Ok g).
Proof.
  unfold sample_prepared. destruct (prepare_game_v1 _ _ _ _) as [s [g'|e]]; cbn [fst snd];
    [by intros [= ->]|done].
Qed.

Lemma sample_static_seat : exists g r, sample_prepared = Some g /\
  static_seat sample_sha sample_policy sample_game_two (gs_game_index (pr_start g)) P1
  = Ok (of_p1 (pr_configurations g), r) /\
  snd (select_live_v1 () () (registered_of sample_game_two P1))
  = Ok (of_p1 (pr_configurations g), @nil unit).
Proof. eexists _, _. split; [vm_compute; reflexivity|]. split; vm_compute; reflexivity. Qed.

Lemma live_preparation_agrees_with_static_witness :
  exists live' (lg : LiveGamePreparationV1 unit),
    prepare_game_with_live_policies_v1 (Policy := unit) (Evidence := unit) sample_sha
      sample_game_two P1 Play (PerPlayer None (Some sample_consultation))
    = (fst (prepare_game_v1 sample_sha sample_game_two P1 Play), live', Ok lg).
Proof.
  destruct sample_static_seat as (g & r & E & S & L).
  destruct (live_preparation_agrees_with_static (Policy := unit) (Evidence := unit)
    (Action := unit) sample_sha sample_game_two sample_policy P1 Play
    (PerPlayer None (Some sample_consultation)) _ g
    sample_game_two_reachable eq_refl (sample_prepared_ok g E)) as (live' & lg & H & _).
  - intros p c [-> | ->] Hc; [discriminate Hc|]. injection Hc as <-.
    exists r, []. exact (conj S L).
  - exists live', lg. exact H.
Defined.

Lemma static_preparation_fails_only_on_shortage_witness :
  (exists s' g, prepare_game_v1 sample_sha sample_session P0 Play = (s', Ok g)).
Proof.
  destruct (static_preparation_fails_only_on_shortage (Policy := unit) (Evidence := unit)
    (Action := unit) sample_sha sample_session sample_policy 1 P0 Play sample_session_reachable)
    as [H|[N _]]; [reflexivity..|exact H|]. exfalso. apply N. reflexivity.
Defined.
