(* ===== verification/Float32.v ===== *)
(** * Binary32 arithmetic on bits

    An [f32] is its 32 bits. Its operations are those of the Standard Library's
    specification of IEEE-754 arithmetic, at 24 bits of precision and rounding to
    nearest even; the bits of a computed NaN are the canonical ones. *)

From Stdlib Require Import SpecFloat.
From stdpp Require Import strings.
From S2P Require Import Prelude FastSampler FastSamplerBits.

Local Open Scope Z_scope.

Definition f32_sign (bits : Z) : bool := bool_decide (2 ^ 31 <= bits).

Definition f32_decode (bits : Z) : spec_float :=
  let s := f32_sign bits in
  let m := f32_fraction bits in
  if decide (f32_exponent bits = 255) then
    if decide (m = 0) then S754_infinity s else S754_nan
  else if decide (f32_exponent bits = 0) then
    match m with Zpos p => S754_finite s p (-149) | _ => S754_zero s end
  else S754_finite s (Z.to_pos (m + 2 ^ 23)) (f32_exponent bits - 150).

Definition sign_bit (s : bool) : Z := if s then 2 ^ 31 else 0.

Definition f32_encode (x : spec_float) : Z :=
  match x with
  | S754_zero s => sign_bit s
  | S754_infinity s => sign_bit s + 0x7f800000
  | S754_nan => 0x7fc00000
  | S754_finite s m e =>
      if decide (Zpos m < 2 ^ 23) then sign_bit s + Zpos m
      else sign_bit s + (e + 150) * 2 ^ 23 + (Zpos m - 2 ^ 23)
  end.

Definition f32_op (op : spec_float -> spec_float -> spec_float) (a b : Z) : Z :=
  f32_encode (op (f32_decode a) (f32_decode b)).
Definition f32_mul : Z -> Z -> Z := f32_op (SFmul 24 128).
Definition f32_add : Z -> Z -> Z := f32_op (SFadd 24 128).
Definition f32_sub : Z -> Z -> Z := f32_op (SFsub 24 128).
Definition f32_div : Z -> Z -> Z := f32_op (SFdiv 24 128).
(** Negation flips the sign bit, of a NaN too. *)
Definition f32_neg (a : Z) : Z := Z.lxor a F32_SIGN_MASK.
Definition f32_le (a b : Z) : bool := SFleb (f32_decode a) (f32_decode b).
Definition f32_finite (a : Z) : bool := negb (f32_exponent a =? 255).

(** The conversion of an integer, [as f32]; a literal with an integer value is one. *)
Definition f32_of_int (z : Z) : Z := f32_encode (binary_normalize 24 128 z 0 false).

(* ------------------------------------------------------------------ *)
(** ** Fields *)

Lemma f32_encode_decode bits : 0 <= bits < 2 ^ 32 -> f32_finite bits = true ->
  f32_encode (f32_decode bits) = bits.
Proof.
  intros Hb Hf. unfold f32_decode, f32_finite in *.
  pose proof (bits_fields bits Hb) as E. pose proof (f32_fraction_bounds bits).
  pose proof (f32_exponent_bounds bits).
  assert (f32_exponent bits <> 255) as Hne by (destruct (Z.eqb_spec (f32_exponent bits) 255); done).
  rewrite decide_False by done. unfold f32_sign.
  assert (sign_bit (bool_decide (2 ^ 31 <= bits)) = if decide (bits < 2 ^ 31) then 0 else 2 ^ 31)
    as Es by (unfold sign_bit; case_bool_decide; case_decide; lia).
  rewrite <- Es in E. clear Es. destruct (decide (f32_exponent bits = 0)) as [E0|E0].
  - destruct (f32_fraction bits) as [|p|p] eqn:Ep; cbn [f32_encode].
    + lia.
    + rewrite decide_True by lia. lia.
    + lia.
  - cbn [f32_encode]. rewrite Z2Pos.id, decide_False by lia. lia.
Qed.

(** The unit value of the bits is that of the decoded number. *)
Lemma f32_decode_units bits : 0 <= bits < 2 ^ 32 -> f32_finite bits = true ->
  match f32_decode bits with
  | S754_finite s m e => -149 <= e /\ Zpos m < 2 ^ 24
      /\ (e = -149 \/ 2 ^ 23 <= Zpos m)
      /\ f32_units bits = (if s then - (Zpos m * 2 ^ (e + 149)) else Zpos m * 2 ^ (e + 149))
  | S754_zero _ => f32_units bits = 0
  | _ => False
  end.
Proof.
  intros Hb Hf. unfold f32_decode, f32_finite, f32_units, magnitude_units, f32_sign in *.
  pose proof (f32_fraction_bounds bits). pose proof (f32_exponent_bounds bits).
  assert (f32_exponent bits <> 255) as Hne by (destruct (Z.eqb_spec (f32_exponent bits) 255); done).
  rewrite decide_False by done. destruct (decide (f32_exponent bits = 0)) as [E0|E0].
  - destruct (f32_fraction bits) as [|p|p] eqn:Ep; [by case_decide| |lia].
    split; [done|]. split; [lia|]. split; [by left|].
    change (-149 + 149) with 0. rewrite Z.pow_0_r, Z.mul_1_r.
    case_decide; case_bool_decide; lia.
  - rewrite Z2Pos.id by lia.
    replace (f32_exponent bits - 150 + 149) with (f32_exponent bits - 1) by lia.
    split; [lia|]. split; [lia|]. split; [right; lia|].
    case_decide; case_bool_decide; lia.
Qed.

(* ------------------------------------------------------------------ *)
(** ** Negation *)

Lemma f32_neg_spec a : 0 <= a < 2 ^ 32 ->
  f32_neg a = if f32_sign a then a - 2 ^ 31 else a + 2 ^ 31.
Proof.
  intros Ha. unfold f32_neg, f32_sign. change F32_SIGN_MASK with (2 ^ 31). case_bool_decide.
  - replace a with (Z.lxor (a - 2 ^ 31) (2 ^ 31)) at 1.
    + by rewrite Z.lxor_assoc, Z.lxor_nilpotent, Z.lxor_0_r.
    + destruct (add_disjoint (a - 2 ^ 31) (2 ^ 31)) as [-> _]; [|lia].
      apply land_pow2_small; lia.
  - destruct (add_disjoint a (2 ^ 31)) as [-> _]; [apply land_pow2_small; lia|done].
Qed.

Lemma f32_neg_range a : 0 <= a < 2 ^ 32 -> 0 <= f32_neg a < 2 ^ 32.
Proof. intros Ha. rewrite f32_neg_spec by done. unfold f32_sign. case_bool_decide; lia. Qed.

Lemma f32_neg_fields a : 0 <= a < 2 ^ 32 ->
  f32_exponent (f32_neg a) = f32_exponent a /\ f32_fraction (f32_neg a) = f32_fraction a
  /\ f32_sign (f32_neg a) = negb (f32_sign a).
Proof.
  intros Ha. rewrite f32_neg_spec by done. unfold f32_exponent, f32_fraction, f32_sign.
  case_bool_decide; cbn [negb]; rewrite ?bool_decide_eq_true, ?bool_decide_eq_false.
  - replace (a - 2 ^ 31) with (a + (- (256)) * 2 ^ 23) by lia.
    rewrite Z_mod_plus_full, Z.div_add by done.
    replace (a / 2 ^ 23 + - (256)) with (a / 2 ^ 23 + (-1) * 256) by lia.
    rewrite Z_mod_plus_full. lia.
  - replace (a + 2 ^ 31) with (a + 256 * 2 ^ 23) by lia.
    rewrite Z_mod_plus_full, Z.div_add by done.
    replace (a / 2 ^ 23 + 256) with (a / 2 ^ 23 + 1 * 256) by lia.
    rewrite Z_mod_plus_full. lia.
Qed.

Lemma f32_decode_neg a : 0 <= a < 2 ^ 32 -> f32_decode (f32_neg a) = SFopp (f32_decode a).
Proof.
  intros Ha. unfold f32_decode. destruct (f32_neg_fields a Ha) as (-> & -> & ->).
  repeat case_decide; try done. by destruct (f32_fraction a).
Qed.

(** The bits of a number that is not a NaN determine its sign bit. *)
Definition not_nan (x : spec_float) : Prop := x <> S754_nan.

Lemma binary_round_aux_sign s s' m e : 
  match binary_round_aux 24 128 s m e loc_Exact with
  | S754_zero _ => binary_round_aux 24 128 s' m e loc_Exact = S754_zero s'
  | S754_infinity _ => binary_round_aux 24 128 s' m e loc_Exact = S754_infinity s'
  | S754_nan => binary_round_aux 24 128 s' m e loc_Exact = S754_nan
  | S754_finite _ m1 e1 => binary_round_aux 24 128 s' m e loc_Exact = S754_finite s' m1 e1
  end.
Proof.
  unfold binary_round_aux. destruct (shr_fexp 24 128 m e loc_Exact) as [mrs e'].
  destruct (shr_fexp 24 128 _ e' loc_Exact) as [mrs' e''].
  destruct (shr_m mrs') as [|p|p]; [done| |done]. by destruct (e'' <=? 128 - 24).
Qed.

Lemma binary_round_aux_has_sign s m e :
  match binary_round_aux 24 128 s m e loc_Exact with
  | S754_zero t | S754_infinity t | S754_finite t _ _ => t = s
  | S754_nan => True
  end.
Proof.
  unfold binary_round_aux. destruct (shr_fexp 24 128 m e loc_Exact) as [mrs e'].
  destruct (shr_fexp 24 128 _ e' loc_Exact) as [mrs' e''].
  destruct (shr_m mrs') as [|p|p]; [done| |done]. by destruct (e'' <=? 128 - 24).
Qed.

(** Multiplication commutes with negation. *)
Lemma SFmul_opp x y : SFmul 24 128 (SFopp x) y = SFopp (SFmul 24 128 x y).
Proof.
  destruct x as [s|s| |s m e], y as [t|t| |t n f]; cbn [SFmul SFopp]; rewrite ?negb_xorb_l; try done.
  pose proof (binary_round_aux_sign (xorb s t) (xorb (negb s) t) (Z.pos (m * n)) (e + f)) as H.
  pose proof (binary_round_aux_has_sign (xorb s t) (Z.pos (m * n)) (e + f)) as Hs.
  destruct (binary_round_aux 24 128 (xorb s t) _ _ _); cbn [SFopp]; subst;
    rewrite ?negb_xorb_l; exact H.
Qed.

(* ------------------------------------------------------------------ *)
(** ** Shifts of the specification *)

Lemma shr_1_spec r : 0 <= shr_m r ->
  shr_m (shr_1 r) = shr_m r / 2
  /\ (shr_m r mod 2 = 0 -> shr_r r = false -> shr_s r = false ->
      shr_1 r = Build_shr_record (shr_m r / 2) false false).
Proof.
  destruct r as [m r s]. cbn [shr_m shr_r shr_s]. intros Hm.
  destruct m as [|[p|p|]|p]; [split; [done|by intros _ -> ->]|..|lia]; cbn [shr_1 shr_m].
  - split; [by rewrite (Pos2Z.inj_xI p), Z.mul_comm, Z.div_add_l, Z.add_0_r by lia|].
    rewrite Pos2Z.inj_xI, Z.mul_comm, Z.add_comm, Z_mod_plus_full. done.
  - rewrite Pos2Z.inj_xO, Z.mul_comm, Z.div_mul by lia. split; [done|]. by intros _ -> ->.
  - split; [done|]. intros [=].
Qed.

Lemma iter_pos_iter {A} (f : A -> A) p x :
  SpecFloat.iter_pos f p x = Nat.iter (Pos.to_nat p) f x.
Proof.
  revert x. induction p as [p IH|p IH|]; intros x; cbn [SpecFloat.iter_pos].
  - rewrite !IH, <- Nat.iter_add, <- Nat.iter_succ_r. f_equal. lia.
  - rewrite !IH, <- Nat.iter_add. f_equal. lia.
  - done.
Qed.

Lemma shr_iter n r : 0 <= shr_m r ->
  shr_m (Nat.iter n shr_1 r) = shr_m r / 2 ^ Z.of_nat n
  /\ (shr_m r mod 2 ^ Z.of_nat n = 0 -> shr_r r = false -> shr_s r = false ->
      Nat.iter n shr_1 r = Build_shr_record (shr_m r / 2 ^ Z.of_nat n) false false).
Proof.
  intros Hm. induction n as [|n [IH1 IH2]].
  - change (2 ^ Z.of_nat 0) with 1. rewrite Z.div_1_r. split; [done|].
    destruct r; cbn. by intros _ -> ->.
  - change (Nat.iter (S n) shr_1 r) with (shr_1 (Nat.iter n shr_1 r)).
    assert (0 < 2 ^ Z.of_nat n) as Hp by (apply Z.pow_pos_nonneg; lia).
    replace (2 ^ Z.of_nat (S n)) with (2 ^ Z.of_nat n * 2)
      by (rewrite Nat2Z.inj_succ, Z.pow_succ_r by lia; ring).
    set (P := 2 ^ Z.of_nat n) in *. clearbody P. rewrite <- Z.div_div by lia.
    destruct (shr_1_spec (Nat.iter n shr_1 r)) as [E1 X1].
    { rewrite IH1. apply Z.div_pos; lia. }
    split; [by rewrite E1, IH1|]. intros Hd Hr Hs.
    apply Z.mod_divide in Hd as [c Hc]; [|lia].
    assert (shr_m r mod P = 0 /\ (shr_m r / P) mod 2 = 0) as [D1 D2].
    { rewrite Hc. replace (c * (P * 2)) with (c * 2 * P) by ring.
      rewrite Z.mod_mul, Z.div_mul, Z.mod_mul by lia. done. }
    rewrite (IH2 D1 Hr Hs). destruct (shr_1_spec (Build_shr_record (shr_m r / P) false false)) as [_ X].
    { cbn. apply Z.div_pos; lia. }
    by apply X.
Qed.

(* ------------------------------------------------------------------ *)
(** ** Rounding to the format *)

Lemma digits2_spec p : 2 ^ (Zpos (digits2_pos p) - 1) <= Zpos p < 2 ^ Zpos (digits2_pos p).
Proof.
  induction p as [p IH|p IH|]; cbn [digits2_pos]; [| |done];
    rewrite Pos2Z.inj_succ; (replace (Z.succ _ - 1) with (Z.succ (Zpos (digits2_pos p) - 1)) by lia);
    rewrite !Z.pow_succ_r by lia; lia.
Qed.

Lemma Zdigits2_spec m : 0 <= m -> 0 <= Zdigits2 m /\ m < 2 ^ Zdigits2 m
  /\ (0 < m -> 2 ^ (Zdigits2 m - 1) <= m).
Proof.
  intros Hm. destruct m as [|p|p]; [done| |lia]. cbn [Zdigits2]. pose proof (digits2_spec p). lia.
Qed.

Lemma Zdigits2_le m k : 0 <= k -> 0 <= m < 2 ^ k -> Zdigits2 m <= k.
Proof.
  intros Hk Hm. destruct (Zdigits2_spec m) as (H1 & H2 & H3); [lia|].
  destruct (decide (m = 0)) as [->|]; [done|].
  assert (2 ^ (Zdigits2 m - 1) < 2 ^ k) as Hlt by lia.
  apply Z.pow_lt_mono_r_iff in Hlt; lia.
Qed.

(** How far a mantissa is shifted to fit the format. *)
Definition excess (m e : Z) : Z := Z.max 0 (fexp 24 128 (Zdigits2 m + e) - e).

Lemma shr_fexp_spec m e : 0 <= m ->
  let n := excess m e in
  (shr_fexp 24 128 m e loc_Exact).2 = e + n
  /\ shr_m (shr_fexp 24 128 m e loc_Exact).1 = m / 2 ^ n
  /\ (m mod 2 ^ n = 0 ->
      (shr_fexp 24 128 m e loc_Exact).1 = Build_shr_record (m / 2 ^ n) false false)
  /\ m / 2 ^ n < 2 ^ 24 /\ -149 <= e + n.
Proof.
  intros Hm. cbv zeta. destruct (Zdigits2_spec m Hm) as (D1 & D2 & _).
  assert (m / 2 ^ excess m e < 2 ^ 24 /\ -149 <= e + excess m e) as Hb.
  { unfold excess, fexp, emin in *. set (k := Z.max 0 _). assert (0 <= k /\ Zdigits2 m <= 24 + k) by lia.
    split; [|lia]. apply Z.div_lt_upper_bound; [apply Z.pow_pos_nonneg; lia|].
    rewrite <- Z.pow_add_r by lia. eapply Z.lt_le_trans; [exact D2|]. apply Z.pow_le_mono_r; lia. }
  unfold shr_fexp, shr, excess in *. cbn [shr_record_of_loc].
  destruct (fexp 24 128 (Zdigits2 m + e) - e) as [|p|p] eqn:E.
  - change (Z.max 0 0) with 0 in *. rewrite Z.pow_0_r, Z.div_1_r in *. cbn. split_and!; lia || done.
  - rewrite (Z.max_r 0 (Zpos p)) in * by lia. cbn [fst snd]. rewrite iter_pos_iter.
    destruct (shr_iter (Pos.to_nat p) (Build_shr_record m false false) Hm) as [E1 E2].
    rewrite positive_nat_Z in E1, E2. cbn [shr_m shr_r shr_s] in *.
    split_and!; [done|done|auto|lia..].
  - change (Z.max 0 (Z.neg p)) with 0 in *. rewrite Z.pow_0_r, Z.div_1_r in *. cbn.
    split_and!; lia || done.
Qed.

Lemma excess_fits m e : 0 <= m < 2 ^ 24 -> -149 <= e -> excess m e = 0.
Proof.
  intros Hm He. pose proof (Zdigits2_le m 24 ltac:(lia) Hm). unfold excess, fexp, emin. lia.
Qed.

(** A number of the format, as [f32_encode] takes it. *)
Definition f32_number (x : spec_float) : Prop :=
  match x with
  | S754_finite _ m e => Zpos m < 2 ^ 24 /\ -149 <= e <= 104
  | _ => True
  end.

Lemma binary_round_aux_number s m e : 0 <= m ->
  f32_number (binary_round_aux 24 128 s m e loc_Exact)
  /\ binary_round_aux 24 128 s m e loc_Exact <> S754_nan.
Proof.
  intros Hm. unfold binary_round_aux. destruct (shr_fexp_spec m e Hm) as (E1 & E2 & _ & Hb & _).
  destruct (shr_fexp 24 128 m e loc_Exact) as [r e']. cbn [fst snd] in *. subst e'.
  assert (0 <= shr_m r) as Hr by (rewrite E2; apply Z.div_pos; [lia|apply Z.pow_pos_nonneg; unfold excess; lia]).
  set (m' := round_nearest_even _ _).
  assert (0 <= m') as Hm' by (subst m'; unfold round_nearest_even; repeat case_match; lia).
  destruct (shr_fexp_spec m' (e + excess m e) Hm') as (F1 & F2 & _ & Fb & Fe).
  destruct (shr_fexp 24 128 m' _ loc_Exact) as [r' e'']. cbn [fst snd] in *. subst e''.
  assert (0 <= shr_m r') as Hr' by (rewrite F2; apply Z.div_pos; [lia|apply Z.pow_pos_nonneg; unfold excess; lia]).
  rewrite <- F2 in Fb. destruct (shr_m r') as [|p|p]; [done| |lia].
  destruct (Z.leb_spec (e + excess m e + excess m' (e + excess m e)) (128 - 24)); [|done].
  split; [cbn; lia|done].
Qed.

(** Rounding a number that needs no rounding. *)
Lemma binary_round_aux_exact s m e : 0 < m -> m mod 2 ^ excess m e = 0 ->
  e + excess m e <= 104 ->
  binary_round_aux 24 128 s m e loc_Exact
  = S754_finite s (Z.to_pos (m / 2 ^ excess m e)) (e + excess m e).
Proof.
  intros Hm Hd He. unfold binary_round_aux.
  destruct (shr_fexp_spec m e) as (E1 & E2 & E3 & Hb & Hl); [lia|].
  destruct (shr_fexp 24 128 m e loc_Exact) as [r e']. cbn [fst snd] in *. subst e'.
  rewrite (E3 Hd). cbn [shr_m loc_of_shr_record round_nearest_even].
  assert (0 < 2 ^ excess m e) as Hp by (apply Z.pow_pos_nonneg; unfold excess; lia).
  set (P := 2 ^ excess m e) in *. clearbody P.
  assert (0 < m / P) as Hq by (apply Z.mod_divide in Hd as [c ->]; [rewrite Z.div_mul by lia|]; nia).
  destruct (shr_fexp_spec (m / P) (e + excess m e)) as (F1 & F2 & F3 & _); [lia|].
  pose proof (excess_fits (m / P) (e + excess m e) ltac:(lia) Hl) as X0.
  rewrite X0 in F1, F2, F3. rewrite Z.pow_0_r, Z.div_1_r in F2, F3.
  destruct (shr_fexp 24 128 (m / P) _ loc_Exact) as [r' e'']. cbn [fst snd] in *. subst e''.
  rewrite F2. destruct (m / P) as [|q|q] eqn:Eq; try lia.
  rewrite Z.add_0_r. destruct (Z.leb_spec (e + excess m e) (128 - 24)); [done|lia].
Qed.

Lemma SFmul_number x y : f32_number (SFmul 24 128 x y).
Proof. destruct x, y; cbn [SFmul]; try done. by apply binary_round_aux_number. Qed.

Lemma SFmul_not_nan a b : f32_finite a = true -> f32_finite b = true ->
  SFmul 24 128 (f32_decode a) (f32_decode b) <> S754_nan.
Proof.
  unfold f32_finite, f32_decode. intros Ha Hb.
  destruct (decide (f32_exponent a = 255)) as [E|]; [by rewrite E in Ha|].
  destruct (decide (f32_exponent b = 255)) as [E|]; [by rewrite E in Hb|].
  repeat case_decide; repeat case_match; cbn [SFmul]; try done; by apply binary_round_aux_number.
Qed.

Lemma f32_encode_range x : f32_number x -> 0 <= f32_encode x < 2 ^ 32.
Proof.
  destruct x as [s|s| |s m e]; cbn [f32_number f32_encode sign_bit]; intros H;
    try (destruct s; cbn; lia); try (cbn; lia).
  case_decide; destruct s; unfold sign_bit; lia.
Qed.

Lemma f32_encode_opp x : f32_number x -> x <> S754_nan -> f32_encode (SFopp x) = f32_neg (f32_encode x).
Proof.
  intros Hx Hn. rewrite f32_neg_spec by by apply f32_encode_range. unfold f32_sign.
  destruct x as [s|s| |s m e]; cbn [f32_number f32_encode SFopp] in *; try done;
    try (destruct s; done).
  case_decide; destruct s; cbn [sign_bit negb]; case_bool_decide; lia.
Qed.

(** Negating an operand negates the product. *)
Lemma f32_mul_neg a b : 0 <= a < 2 ^ 32 -> f32_finite a = true -> f32_finite b = true ->
  f32_mul (f32_neg a) b = f32_neg (f32_mul a b).
Proof.
  intros Ha Fa Fb. unfold f32_mul, f32_op. rewrite f32_decode_neg, SFmul_opp by done.
  apply f32_encode_opp; [apply SFmul_number|by apply SFmul_not_nan].
Qed.

(* ------------------------------------------------------------------ *)
(** ** Values in units of 2^-149 *)

(** A finite number of the format, in the one representation it has there. *)
Definition canonical (x : spec_float) : Prop :=
  match x with
  | S754_finite _ m e => Zpos m < 2 ^ 24 /\ -149 <= e <= 104 /\ (e = -149 \/ 2 ^ 23 <= Zpos m)
  | S754_zero _ => True
  | _ => False
  end.

Definition units (x : spec_float) : Z :=
  match x with
  | S754_finite s m e => (if s then -1 else 1) * (Zpos m * 2 ^ (e + 149))
  | _ => 0
  end.

Lemma f32_decode_canonical bits : 0 <= bits < 2 ^ 32 -> f32_finite bits = true ->
  canonical (f32_decode bits) /\ units (f32_decode bits) = f32_units bits.
Proof.
  intros Hb Hf. pose proof (f32_decode_units bits Hb Hf) as H. revert H.
  pose proof (f32_exponent_bounds bits). unfold f32_finite in Hf.
  assert (f32_exponent bits <> 255) as Hne by (destruct (Z.eqb_spec (f32_exponent bits) 255); done).
  assert (forall s m e, f32_decode bits = S754_finite s m e -> e <= 104) as He.
  { intros s m e. unfold f32_decode. rewrite decide_False by done.
    case_decide; [destruct (f32_fraction bits); intros [=]; lia|]. intros [= _ _ <-]. lia. }
  destruct (f32_decode bits) as [s|s| |s m e]; try done. intros (H1 & H2 & H3 & ->).
  cbn. specialize (He s m e eq_refl). destruct s; split; lia.
Qed.

Lemma sign_fields s E F : 0 <= E < 256 -> 0 <= F < 2 ^ 23 ->
  let bits := sign_bit s + E * 2 ^ 23 + F in
  0 <= bits < 2 ^ 32 /\ f32_exponent bits = E /\ f32_fraction bits = F /\ f32_sign bits = s.
Proof.
  intros HE HF. cbv zeta. unfold f32_exponent, f32_fraction, f32_sign.
  replace (sign_bit s + E * 2 ^ 23 + F) with (F + ((if s then 256 else 0) + E) * 2 ^ 23)
    by (unfold sign_bit; destruct s; lia).
  rewrite Z.div_add, Z_mod_plus_full, (Z.div_small F), (Z.mod_small F) by lia.
  split; [destruct s; lia|]. split; [destruct s|split; [done|]].
  - replace (0 + (256 + E)) with (E + 1 * 256) by lia. rewrite Z_mod_plus_full. by apply Z.mod_small.
  - by apply Z.mod_small.
  - destruct s; case_bool_decide; done || lia.
Qed.

Lemma f32_encode_units x : canonical x ->
  f32_finite (f32_encode x) = true /\ f32_units (f32_encode x) = units x.
Proof.
  destruct x as [s|s| |s m e]; cbn [canonical]; intros H; try done; [by destruct s|].
  destruct H as (Hm & He & Hn). unfold f32_finite, f32_units, magnitude_units.
  assert (exists E F, f32_encode (S754_finite s m e) = sign_bit s + E * 2 ^ 23 + F
    /\ 0 <= E < 255 /\ 0 <= F < 2 ^ 23
    /\ (if decide (E = 0) then F else (F + 2 ^ 23) * 2 ^ (E - 1)) = Zpos m * 2 ^ (e + 149))
    as (E & F & -> & HE & HF & Hv).
  { cbn [f32_encode]. case_decide.
    - exists 0, (Zpos m). replace e with (-149) by lia. split; [lia|]. split; [lia|]. split; [lia|].
      rewrite decide_True by done. change (-149 + 149) with 0. lia.
    - exists (e + 150), (Zpos m - 2 ^ 23). split; [lia|]. split; [lia|]. split; [lia|].
      rewrite decide_False by lia. replace (e + 150 - 1) with (e + 149) by lia.
      by rewrite Z.sub_add. }
  destruct (sign_fields s E F) as (Hr & -> & -> & Hs); [lia|done|]. unfold f32_sign in Hs.
  split; [by destruct (Z.eqb_spec E 255); [lia|]|]. rewrite Hv. cbn [units].
  destruct s; [apply bool_decide_eq_true in Hs; rewrite decide_False by lia
              |apply bool_decide_eq_false in Hs; rewrite decide_True by lia]; lia.
Qed.

Lemma units_lt m e n f : Zpos m < 2 ^ 24 -> -149 <= e -> e < f -> f = -149 \/ 2 ^ 23 <= Zpos n ->
  Zpos m * 2 ^ (e + 149) < Zpos n * 2 ^ (f + 149).
Proof.
  intros Hm He Hef Hn. replace (f + 149) with (e + 149 + 1 + (f - e - 1)) by lia.
  rewrite (Z.pow_add_r 2 (e + 149 + 1)), (Z.pow_add_r 2 (e + 149)) by lia. change (2 ^ 1) with 2.
  assert (0 < 2 ^ (e + 149)) by (apply Z.pow_pos_nonneg; lia).
  assert (1 <= 2 ^ (f - e - 1)) by (apply (Z.pow_le_mono_r 2 0); lia).
  set (x := 2 ^ (e + 149)) in *. set (y := 2 ^ (f - e - 1)) in *. clearbody x y.
  apply (Z.lt_le_trans _ (2 ^ 24 * x)); [nia|].
  replace (Zpos n * (x * 2 * y)) with (2 * Zpos n * y * x) by ring.
  apply Z.mul_le_mono_nonneg_r; nia.
Qed.

(** The order of the format is the order of the values. *)
Lemma SFleb_units x y : canonical x -> canonical y -> SFleb x y = bool_decide (units x <= units y).
Proof.
  intros Hx Hy. unfold SFleb.
  assert (forall e, -149 <= e -> 0 < 2 ^ (e + 149)) as Hpow by (intros; apply Z.pow_pos_nonneg; lia).
  destruct x as [s|s| |s m e], y as [t|t| |t n f]; cbn [canonical units SFcompare] in *; try done.
  - pose proof (Hpow f ltac:(lia)). destruct t; case_bool_decide; nia || done.
  - pose proof (Hpow e ltac:(lia)). destruct s; case_bool_decide; nia || done.
  - destruct Hx as (Hm & He & Cx), Hy as (Hn & Hf & Cy).
    pose proof (Hpow e ltac:(lia)). pose proof (Hpow f ltac:(lia)).
    destruct s, t; try (case_bool_decide; nia || done);
      change (Pos.compare_cont Eq m n) with (m ?= n)%positive;
      destruct (Z.compare_spec e f) as [<-|Hlt|Hlt];
      try (pose proof (units_lt m e n f Hm ltac:(lia) Hlt ltac:(tauto)); case_bool_decide; lia || done);
      try (pose proof (units_lt n f m e Hn ltac:(lia) Hlt ltac:(tauto)); case_bool_decide; lia || done);
      destruct (Pos.compare_spec m n) as [<-|Hp|Hp]; cbn [CompOpp];
      case_bool_decide; nia || done.
Qed.

Lemma f32_le_units a b : 0 <= a < 2 ^ 32 -> 0 <= b < 2 ^ 32 ->
  f32_finite a = true -> f32_finite b = true ->
  f32_le a b = bool_decide (f32_units a <= f32_units b).
Proof.
  intros Ha Hb Fa Fb. unfold f32_le.
  destruct (f32_decode_canonical a Ha Fa) as [Ca <-], (f32_decode_canonical b Hb Fb) as [Cb <-].
  by apply SFleb_units.
Qed.

(** What lies between two finite bounds is finite. *)
Lemma f32_between_finite l b u : f32_finite l = true -> f32_finite u = true ->
  f32_le l b = true -> f32_le b u = true -> f32_finite b = true.
Proof.
  unfold f32_le, SFleb, f32_finite, f32_decode. intros Fl Fu H1 H2.
  destruct (Z.eqb_spec (f32_exponent b) 255) as [E|]; [exfalso|done]. rewrite decide_True in * by done.
  destruct (decide (f32_exponent l = 255)) as [El|]; [by rewrite El in Fl|].
  destruct (decide (f32_exponent u = 255)) as [Eu|]; [by rewrite Eu in Fu|].
  case_decide; [|by repeat case_decide; repeat case_match].
  destruct (f32_sign b); repeat case_decide; destruct (f32_fraction l), (f32_fraction u); done.
Qed.

(* ------------------------------------------------------------------ *)
(** ** Scaling by 2^32 *)

(** A product with 2^32 needs no rounding. *)
Lemma SFmul_scale x : canonical x -> match x with S754_finite _ _ e => e <= 72 | _ => True end ->
  let y := SFmul 24 128 x (S754_finite false 8388608 9) in
  canonical y /\ units y = units x * 2 ^ 32.
Proof.
  destruct x as [s|s| |s m e]; cbn [canonical]; intros Hx He; try done. cbv zeta.
  destruct Hx as (Hm & He' & _). cbn [SFmul]. rewrite xorb_false_r.
  set (p := (m * 8388608)%positive). assert (Zpos p = Zpos m * 2 ^ 23) as Ep by (subst p; lia).
  destruct (Zdigits2_spec (Zpos p)) as (D1 & D2 & D3); [lia|]. specialize (D3 ltac:(lia)).
  assert (Zdigits2 (Zpos p) <= 47) as Dhi.
  { apply Zdigits2_le; [lia|]. split; [lia|]. rewrite Ep. lia. }
  assert (24 <= Zdigits2 (Zpos p)) as Dlo.
  { destruct (decide (24 <= Zdigits2 (Zpos p))) as [?|Hlt]; [done|].
    assert (2 ^ Zdigits2 (Zpos p) <= 2 ^ 23) by (apply Z.pow_le_mono_r; lia). lia. }
  set (D := Zdigits2 (Zpos p)) in *.
  assert (excess (Zpos p) (e + 9) = D - 24) as Ex.
  { unfold excess, fexp, emin. fold D. lia. }
  assert (2 ^ D = 2 ^ 24 * 2 ^ (D - 24)) as P1 by (rewrite <- Z.pow_add_r by lia; f_equal; lia).
  assert (2 ^ (D - 1) = 2 ^ 23 * 2 ^ (D - 24)) as P2 by (rewrite <- Z.pow_add_r by lia; f_equal; lia).
  assert (0 < 2 ^ (D - 24)) as Q0 by (apply Z.pow_pos_nonneg; lia).
  assert (Zpos p = Zpos m * 2 ^ (47 - D) * 2 ^ (D - 24)) as Eq.
  { rewrite Ep, <- Z.mul_assoc, <- Z.pow_add_r by lia. do 2 f_equal. lia. }
  rewrite binary_round_aux_exact; rewrite ?Ex; [|lia|rewrite Eq; by apply Z.mod_mul; lia|lia].
  rewrite Eq, Z.div_mul by lia.
  assert (2 ^ 23 <= Zpos m * 2 ^ (47 - D) < 2 ^ 24) as HM by nia.
  cbn [canonical units]. rewrite Z2Pos.id by lia. split; [lia|].
  replace (e + 9 + (D - 24) + 149) with (e + 149 + (D - 15)) by lia.
  rewrite (Z.pow_add_r 2 (e + 149)) by lia.
  replace (2 ^ 32) with (2 ^ (47 - D) * 2 ^ (D - 15)) by (rewrite <- Z.pow_add_r by lia; f_equal; lia).
  destruct s; ring.
Qed.

Lemma f32_mul_scale b : 0 <= b < 2 ^ 32 -> f32_exponent b <= 222 ->
  let y := f32_mul b (f32_of_int (2 ^ 32)) in
  0 <= y < 2 ^ 32 /\ f32_finite y = true /\ f32_units y = f32_units b * 2 ^ 32.
Proof.
  intros Hb He. cbv zeta. assert (f32_finite b = true) as Fb.
  { unfold f32_finite. by destruct (Z.eqb_spec (f32_exponent b) 255); [lia|]. }
  destruct (f32_decode_canonical b Hb Fb) as [Cb Eb]. unfold f32_mul, f32_op.
  assert (f32_decode (f32_of_int (2 ^ 32)) = S754_finite false 8388608 9) as -> by (by vm_compute).
  destruct (SFmul_scale (f32_decode b) Cb) as [Cy Ey].
  { unfold f32_decode. repeat case_decide; repeat case_match; try done; simplify_eq; lia. }
  split; [apply f32_encode_range, SFmul_number|].
  destruct (f32_encode_units _ Cy) as [-> ->]. by rewrite Ey, Eb.
Qed.

(* ------------------------------------------------------------------ *)
(** ** Rounding is round-half-even of the mantissa *)

(** After [n] shifts the record holds the quotient, the first bit below it, and
    whether anything is below that. *)
Lemma shr_iter_rest m n : 0 <= m ->
  let P := 2 ^ Z.of_nat n in
  Nat.iter n shr_1 (Build_shr_record m false false)
  = Build_shr_record (m / P) (bool_decide (P <= 2 * (m mod P))) (bool_decide ((2 * (m mod P)) mod P <> 0)).
Proof.
  intros Hm. cbv zeta. induction n as [|n IH].
  - change (2 ^ Z.of_nat 0) with 1. by rewrite !Z.mod_1_r, Z.div_1_r.
  - change (Nat.iter (S n) shr_1 ?r) with (shr_1 (Nat.iter n shr_1 r)). rewrite IH.
    rewrite Nat2Z.inj_succ, Z.pow_succ_r by lia.
    assert (0 < 2 ^ Z.of_nat n) as Hp by (apply Z.pow_pos_nonneg; lia).
    set (P := 2 ^ Z.of_nat n) in *. clearbody P.
    pose proof (Z.div_mod m P ltac:(lia)) as E1. pose proof (Z.mod_pos_bound m P Hp) as B1.
    pose proof (Z.div_mod (m / P) 2 ltac:(lia)) as E2. pose proof (Z.mod_pos_bound (m / P) 2 ltac:(lia)) as B2.
    assert (0 <= m / P) as Hq by (apply Z.div_pos; lia).
    assert (m / (2 * P) = m / P / 2) as Ed by (rewrite Z.div_div by lia; f_equal; lia).
    assert (m mod (2 * P) = (m / P) mod 2 * P + m mod P) as Em.
    { symmetry. apply (Z.mod_unique_pos _ _ (m / P / 2)); nia. }
    assert ((2 * (m mod (2 * P))) mod (2 * P) = 2 * (m mod P)) as Es.
    { rewrite Em. symmetry. apply (Z.mod_unique_pos _ _ ((m / P) mod 2)); nia. }
    rewrite Es, Em, Ed.
    assert (bool_decide (2 * (m mod P) <> 0)
      = bool_decide (P <= 2 * (m mod P)) || bool_decide ((2 * (m mod P)) mod P <> 0)) as ->.
    { destruct (decide (m mod P = 0)) as [E0|E0].
      - rewrite E0, Z.mul_0_r, Z.mod_0_l by lia. by rewrite (bool_decide_eq_false_2 (P <= 0)) by lia.
      - rewrite bool_decide_eq_true_2 by lia. symmetry. apply orb_true_iff.
        destruct (decide (P <= 2 * (m mod P))); [left|right]; apply bool_decide_eq_true_2; [done|].
        rewrite Z.mod_small; lia. }
    assert (bool_decide (2 * P <= 2 * ((m / P) mod 2 * P + m mod P)) = bool_decide ((m / P) mod 2 = 1)) as ->.
    { apply bool_decide_ext. nia. }
    generalize (bool_decide (P <= 2 * (m mod P))). generalize (bool_decide ((2 * (m mod P)) mod P <> 0)).
    intros b c. clear -Hq B2 E2. destruct (m / P) as [|[p|p|]|p]; try lia; cbn [shr_1].
    + done.
    + replace (Zpos p~1 / 2) with (Zpos p) by lia. by replace (Zpos p~1 mod 2) with 1 by lia.
    + replace (Zpos p~0 / 2) with (Zpos p) by lia. by replace (Zpos p~0 mod 2) with 0 by lia.
    + done.
Qed.

Lemma round_nearest_rest m n : 0 <= m ->
  let r := Nat.iter n shr_1 (Build_shr_record m false false) in
  round_nearest_even (shr_m r) (loc_of_shr_record r) = round_half_even m (2 ^ Z.of_nat n).
Proof.
  intros Hm. cbv zeta. rewrite shr_iter_rest by done.
  assert (0 < 2 ^ Z.of_nat n) as Hp by (apply Z.pow_pos_nonneg; lia).
  set (P := 2 ^ Z.of_nat n) in *. clearbody P. unfold round_half_even. cbn [shr_m].
  pose proof (Z.mod_pos_bound m P Hp) as B.
  destruct (decide (P <= 2 * (m mod P))) as [H1|H1].
  - assert ((2 * (m mod P)) mod P = 2 * (m mod P) - P) as E.
    { symmetry. apply (Z.mod_unique_pos _ _ 1); lia. }
    rewrite (bool_decide_eq_true_2 (P <= _)), E by done. case_bool_decide as H2; cbn.
    + rewrite decide_True by lia. done.
    + rewrite <- Z.negb_odd. destruct (Z.odd (m / P)); cbn.
      * rewrite decide_True; [done|]. right. split; [lia|done].
      * rewrite decide_False; [done|]. lia.
  - rewrite (bool_decide_eq_false_2 (P <= _)), decide_False by (cbn; lia).
    by case_bool_decide.
Qed.

(** The value of a rounded number, when it does not overflow. *)
Lemma binary_round_aux_units s m e : 0 < m -> 24 <= Zdigits2 m \/ e <= -149 ->
  e + excess m e <= 103 ->
  let x := binary_round_aux 24 128 s m e loc_Exact in
  let q := round_half_even m (2 ^ excess m e) in
  canonical x /\ units x = (if s then -1 else 1) * (q * 2 ^ (e + excess m e + 149)).
Proof.
  intros Hm HD He. cbv zeta. destruct (shr_fexp_spec m e ltac:(lia)) as (E1 & E2 & _ & Hb & Hl).
  assert (0 <= excess m e) as Hn by (unfold excess; lia).
  assert (round_nearest_even (shr_m (shr_fexp 24 128 m e loc_Exact).1)
            (loc_of_shr_record (shr_fexp 24 128 m e loc_Exact).1) = round_half_even m (2 ^ excess m e)) as Eq.
  { clear E1 E2. unfold shr_fexp, shr, excess in *. cbn [shr_record_of_loc].
    destruct (fexp 24 128 (Zdigits2 m + e) - e) as [|p|p]; cbn [fst].
    - exact (round_nearest_rest m 0 ltac:(lia)).
    - rewrite iter_pos_iter, round_nearest_rest, positive_nat_Z by lia. by rewrite Z.max_r by lia.
    - exact (round_nearest_rest m 0 ltac:(lia)). }
  unfold binary_round_aux. destruct (shr_fexp 24 128 m e loc_Exact) as [r e']. cbn [fst snd] in *. subst e'.
  rewrite Eq. set (n := excess m e) in *. set (q := round_half_even m (2 ^ n)) in *.
  pose proof (round_half_even_bounds m (2 ^ n) ltac:(apply Z.pow_pos_nonneg; lia)) as Hq. fold q in Hq.
  assert (0 <= m / 2 ^ n) by (apply Z.div_pos; [lia|apply Z.pow_pos_nonneg; lia]).
  destruct (shr_fexp_spec q (e + n) ltac:(lia)) as (F1 & F2 & _ & Fb & Fl).
  destruct (shr_fexp 24 128 q (e + n) loc_Exact) as [r' e'']. cbn [fst snd] in *. subst e''.
  assert (shr_m r' * 2 ^ excess q (e + n) = q /\ 0 <= excess q (e + n) <= 1
    /\ (e + n + excess q (e + n) = -149 \/ q = 0 \/ 2 ^ 23 <= shr_m r')) as (Ev & Hx & Hc).
  { rewrite F2. destruct (decide (q < 2 ^ 24)) as [Hlt|Hge].
    - rewrite excess_fits by lia. rewrite Z.pow_0_r, Z.div_1_r, Z.mul_1_r, Z.add_0_r.
      split; [done|]. split; [lia|]. destruct (decide (e + n = -149)); [by left|]. right. right.
      subst q. apply (Z.le_trans _ (m / 2 ^ n)); [|lia].
      destruct (Zdigits2_spec m ltac:(lia)) as (_ & _ & Hd). specialize (Hd Hm).
      assert (n = Z.max 0 (Z.max (Zdigits2 m + e - 24) (-149) - e)) as En by done.
      apply Z.div_le_lower_bound; [apply Z.pow_pos_nonneg; lia|]. rewrite <- Z.pow_add_r by lia.
      eapply Z.le_trans; [|exact Hd]. apply Z.pow_le_mono_r; [lia|].
      lia.
    - assert (q = 2 ^ 24) as -> by lia.
      assert (excess (2 ^ 24) (e + n) = 1) as ->
        by (unfold excess, fexp, emin; change (Zdigits2 (2 ^ 24)) with 25; lia).
      change (2 ^ 24 / 2 ^ 1) with (2 ^ 23). split; [done|]. split; [lia|]. right. right. lia. }
  destruct (shr_m r') as [|p|p]; [|rewrite (proj2 (Z.leb_le _ _)) by lia|exfalso; nia].
  - rewrite Z.mul_0_l in Ev. rewrite <- Ev. split; [done|]. cbn. destruct s; lia.
  - cbn [canonical units]. split; [lia|].
    assert (Zpos p * 2 ^ (e + n + excess q (e + n) + 149) = q * 2 ^ (e + n + 149)) as ->; [|done].
    replace (e + n + excess q (e + n) + 149) with (excess q (e + n) + (e + n + 149)) by lia.
    rewrite (Z.pow_add_r 2 (excess q (e + n))), Z.mul_assoc, Ev by lia. done.
Qed.

(* ------------------------------------------------------------------ *)
(** ** Results are bit patterns *)

Lemma f32_decode_number bits : f32_number (f32_decode bits).
Proof.
  unfold f32_decode. pose proof (f32_exponent_bounds bits). pose proof (f32_fraction_bounds bits).
  repeat case_decide; try done; [by destruct (f32_fraction bits); cbn; [|lia|]|].
  cbn. rewrite Z2Pos.id by lia. lia.
Qed.

Lemma binary_round_number s m e : f32_number (binary_round 24 128 s m e).
Proof.
  unfold binary_round. destruct (shl_align m e _) as [mz ez]. by apply binary_round_aux_number.
Qed.

Lemma SFsub_number x y : f32_number x -> f32_number y -> f32_number (SFsub 24 128 x y).
Proof.
  intros Hx Hy. destruct x as [s|s| |s m e], y as [t|t| |t n f]; cbn [SFsub]; try done;
    try (by destruct s, t).
  unfold binary_normalize. case_match; [done|apply binary_round_number..].
Qed.

Lemma f32_sub_range a b : 0 <= f32_sub a b < 2 ^ 32.
Proof. apply f32_encode_range, SFsub_number; apply f32_decode_number. Qed.
Lemma f32_mul_range a b : 0 <= f32_mul a b < 2 ^ 32.
Proof. apply f32_encode_range, SFmul_number. Qed.

(** A product with an infinity or a NaN is one. *)
Lemma f32_mul_not_finite a b : f32_finite a = false -> f32_finite (f32_mul a b) = false.
Proof.
  intros Ha. unfold f32_mul, f32_op. unfold f32_finite in Ha.
  assert (f32_exponent a = 255) as E by (destruct (Z.eqb_spec (f32_exponent a) 255); done).
  unfold f32_decode at 1. rewrite decide_True by done.
  case_decide; [|done]. destruct (f32_decode b) as [t|t| |t n f]; cbn [SFmul]; try done;
    by destruct (f32_sign a), t.
Qed.
