(* ===== verification/SearchMath.v ===== *)
(** * The arithmetic of the model-guided search

    src/mtg-kernel/src/model_guided_search_prior_quantization_v1.rs: a policy
    vector becomes integer priors that add up to a million.
    src/mtg-kernel/src/model_guided_search_value_quantization_v1.rs: a value-head
    output becomes an integer between -9000 and 9000.
    src/mtg-kernel/src/kernel_native_search_opponent_v1.rs: the integer selection
    bonus, with its logarithm and its square root.
    An [f32] is its 32 bits (Float32.v). *)

From stdpp Require Import strings sorting.
From S2P Require Import Prelude FastSampler Float32.

Local Open Scope Z_scope.

Definition saturating_mul_u64 (a b : Z) : Z := Z.min u64_max (a * b).
Definition wrap_u32 (z : Z) : Z := z mod 2 ^ 32.

(** [value.clamp(low, high)] *)
Definition clamp (low high value : Z) : Z :=
  if decide (value < low) then low else if decide (high < value) then high else value.

(** ** The selection bonus *)

Definition leading_zeros_u64 (value : Z) : Z := if decide (value = 0) then 64 else 63 - Z.log2 value.
Definition integer_ilog2_v1 (value : Z) : Z := wrap_u64 (63 - leading_zeros_u64 value).

(** The variable [bit] of the square root runs through 2^62, 2^60, ..., 1, 0: it
    is the [k]th of these, counted from 0 at the end. *)
Definition isqrt_bit (k : nat) : Z :=
  match k with O => 0 | S j => Z.shiftl 1 (2 * Z.of_nat j) end.

(** [while bit > value] *)
Fixpoint isqrt_start (value : Z) (k : nat) : nat :=
  match k with
  | O => O
  | S j => if decide (value < isqrt_bit k) then isqrt_start value j else k
  end.

(** [while bit != 0] *)
Fixpoint isqrt_loop (value result : Z) (k : nat) : Z :=
  match k with
  | O => result
  | S j =>
      let bit := isqrt_bit k in
      if decide (wrap_u64 (result + bit) <= value) then
        isqrt_loop (value - wrap_u64 (result + bit)) (wrap_u64 (Z.shiftr result 1 + bit)) j
      else isqrt_loop value (Z.shiftr result 1) j
  end.

Definition integer_isqrt_v1 (value : Z) : Z := isqrt_loop value 0 (isqrt_start value 32).

Definition integer_ucb_bonus_v1 (parent_visits child_visits : Z) : Z :=
  let log_term := integer_ilog2_v1 (parent_visits + 1) + 1 in
  let radicand :=
    if decide (child_visits = 0) then 0
    else saturating_mul_u64 1000000 log_term / child_visits in
  saturating_mul_u64 1414 (integer_isqrt_v1 radicand) / 1000.

(** ** Priors *)

Definition MODEL_GUIDED_SEARCH_PRIOR_QUANTIZATION_SCALE_V1 : Z := 1000000.
Definition MODEL_GUIDED_SEARCH_PRIOR_QUANTIZATION_FIXED_POINT_SCALE_BITS_V1 : Z := 32.
Definition MODEL_GUIDED_SEARCH_PRIOR_QUANTIZATION_FIXED_POINT_SCALE_V1 : Z :=
  f32_of_int (Z.shiftl 1 MODEL_GUIDED_SEARCH_PRIOR_QUANTIZATION_FIXED_POINT_SCALE_BITS_V1).

Inductive ModelGuidedSearchPriorQuantizationErrorV1 :=
  | EmptyLegalActionSet
  | WeightOutOfDomain (index : nat) (bits : Z)
  | ZeroTotalWeight
  | PuctBonusOverflow (bonus p_int : Z)
  | InternalInvariant (code : string).

#[export] Instance ModelGuidedSearchPriorQuantizationErrorV1_eq_dec :
  EqDecision ModelGuidedSearchPriorQuantizationErrorV1.
Proof. solve_decision. Defined.

(** [round_ties_even_f32_bits_v1] of the value module, which both quantizations
    call. *)
Definition round_ties_even_f32_bits_v1 (bits : Z) : Z :=
  let sign_negative := Z.land (Z.shiftr bits 31) 1 =? 1 in
  let raw_exponent := Z.land (Z.shiftr bits 23) 0xff in
  let raw_mantissa := Z.land bits 0x7fffff in
  if decide (raw_exponent = 0) then 0 else
  let unbiased_exponent := raw_exponent - 127 in
  if decide (unbiased_exponent < -1) then 0 else
  let significand := Z.lor (Z.shiftl 1 23) raw_mantissa in
  if decide (39 < unbiased_exponent - 23) then
    if sign_negative then i64_min else i64_max
  else
  let magnitude :=
    if decide (unbiased_exponent = -1) then if decide (raw_mantissa <> 0) then 1 else 0
    else if decide (23 <= unbiased_exponent) then Z.shiftl significand (unbiased_exponent - 23)
    else
      let frac_bits := 23 - unbiased_exponent in
      let integer_part := Z.shiftr significand frac_bits in
      let frac_mask := Z.shiftl 1 frac_bits - 1 in
      let frac := Z.land significand frac_mask in
      let half := Z.shiftl 1 (frac_bits - 1) in
      match Z.compare frac half with
      | Lt => integer_part
      | Gt => integer_part + 1
      | Eq => if decide (Z.land integer_part 1 = 0) then integer_part else integer_part + 1
      end in
  if sign_negative then - magnitude else magnitude.

(** [(low..=high).contains(&value)] *)
Definition f32_range_contains (low high value : Z) : bool := f32_le low value && f32_le value high.

Definition quantize_legal_action_weight_v1 (index : nat) (weight : Z)
  : result ModelGuidedSearchPriorQuantizationErrorV1 Z :=
  if negb (f32_range_contains (f32_of_int 0) (f32_of_int 1) weight) then
    Err (WeightOutOfDomain index weight)
  else
    let scaled := f32_mul weight MODEL_GUIDED_SEARCH_PRIOR_QUANTIZATION_FIXED_POINT_SCALE_V1 in
    Ok (wrap_u64 (round_ties_even_f32_bits_v1 scaled)).

(** The loop over the weights: quotients, remainders and the running floor. *)
Fixpoint prior_floors (total floor_total : Z) (ws : list Z)
  : result ModelGuidedSearchPriorQuantizationErrorV1 (list Z * list Z * Z) :=
  match ws with
  | [] => Ok ([], [], floor_total)
  | weight :: ws =>
      let numerator := wrap_u128 (weight * MODEL_GUIDED_SEARCH_PRIOR_QUANTIZATION_SCALE_V1) in
      let quotient := numerator / total in
      let remainder := numerator mod total in
      let floor_total := wrap_u128 (floor_total + quotient) in
      let? quotient := ok_or (InternalInvariant "prior-quotient-exceeds-scale")
                             (checked_unsigned u32_max quotient) in
      let? rest := prior_floors total floor_total ws in
      let '(quotients, remainders, floor_total) := rest in
      Ok (quotient :: quotients, remainder :: remainders, floor_total)
  end.

(** The order of the two [sort_by] closures: the larger entry first, then the
    lower index. *)
Definition larger_first (values : list Z) (a b : nat) : Prop :=
  nth b values 0 < nth a values 0 \/ nth a values 0 = nth b values 0 /\ (a <= b)%nat.
#[export] Instance larger_first_dec values : RelDecision (larger_first values).
Proof. intros a b. unfold larger_first. apply _. Defined.

Definition sort_larger_first (values : list Z) : list nat :=
  merge_sort (larger_first values) (seq 0 (length values)).

Definition hamilton_apportion_prior_v1 (fixed_point_weights : list Z)
  : result ModelGuidedSearchPriorQuantizationErrorV1 (list Z) :=
  if decide (fixed_point_weights = []) then Err EmptyLegalActionSet else
  let total := sum_u128 fixed_point_weights in
  if decide (total = 0) then Err ZeroTotalWeight else
  let scale := MODEL_GUIDED_SEARCH_PRIOR_QUANTIZATION_SCALE_V1 in
  let? floors := prior_floors total 0 fixed_point_weights in
  let '(quotients, remainders, floor_total) := floors in
  let? residual := ok_or (InternalInvariant "prior-floor-total-exceeds-scale")
                         (checked_sub_u128 scale floor_total) in
  if decide (Z.of_nat (length fixed_point_weights) <= residual) then
    Err (InternalInvariant "prior-residual-exceeds-legal-action-count")
  else
    let order := sort_larger_first remainders in
    Ok (foldl (fun quotients index => alter (fun q => wrap_u32 (q + 1)) index quotients)
              quotients (take (Z.to_nat residual) order)).

Fixpoint quantize_weights (index : nat) (weights : list Z)
  : result ModelGuidedSearchPriorQuantizationErrorV1 (list Z) :=
  match weights with
  | [] => Ok []
  | weight :: weights =>
      let? w := quantize_legal_action_weight_v1 index weight in
      let? rest := quantize_weights (S index) weights in
      Ok (w :: rest)
  end.

Definition quantize_prior_v1 (legal_action_weights : list Z)
  : result ModelGuidedSearchPriorQuantizationErrorV1 (list Z) :=
  if decide (legal_action_weights = []) then Err EmptyLegalActionSet else
  let? fixed_point := quantize_weights 0 legal_action_weights in
  hamilton_apportion_prior_v1 fixed_point.

Definition prior_expansion_order_v1 (p_int : list Z) : list nat := sort_larger_first p_int.

Definition puct_bonus_v1 (bonus p_int : Z) : result ModelGuidedSearchPriorQuantizationErrorV1 Z :=
  let product := wrap_u128 (bonus * p_int) in
  let quotient := product / MODEL_GUIDED_SEARCH_PRIOR_QUANTIZATION_SCALE_V1 in
  ok_or (PuctBonusOverflow bonus p_int) (checked_unsigned u64_max quotient).

(** ** Values *)

Definition MODEL_GUIDED_SEARCH_VALUE_QUANTIZATION_SCALE_V1 : Z := f32_of_int 9000.
Definition MODEL_GUIDED_SEARCH_VALUE_QUANTIZATION_CLAMP_MIN_V1 : Z := -9000.
Definition MODEL_GUIDED_SEARCH_VALUE_QUANTIZATION_CLAMP_MAX_V1 : Z := 9000.

Inductive ModelGuidedSearchValueHeadDomainV1 :=
  | Tanh
  | SigmoidFamily
  | Calibrated (lower upper : Z).

Inductive ModelGuidedSearchValueQuantizationErrorV1 :=
  | NonFiniteRawValue (bits : Z)
  | RawValueOutOfAnalyticDomain (bits lower_bits upper_bits : Z)
  | InvalidCalibratedDomain (lower_bits upper_bits : Z)
  | NonFiniteProduct (bits : Z).

#[export] Instance ModelGuidedSearchValueQuantizationErrorV1_eq_dec :
  EqDecision ModelGuidedSearchValueQuantizationErrorV1.
Proof. solve_decision. Defined.

Definition validate_domain (domain : ModelGuidedSearchValueHeadDomainV1)
  : result ModelGuidedSearchValueQuantizationErrorV1 () :=
  match domain with
  | Tanh | SigmoidFamily => Ok ()
  | Calibrated lower upper =>
      if negb (f32_finite lower) || negb (f32_finite upper) || f32_le upper lower then
        Err (InvalidCalibratedDomain lower upper)
      else Ok ()
  end.

Definition canonicalize_to_unit_domain_v1 (domain : ModelGuidedSearchValueHeadDomainV1) (v_raw : Z)
  : result ModelGuidedSearchValueQuantizationErrorV1 Z :=
  let? _ := validate_domain domain in
  if negb (f32_finite v_raw) then Err (NonFiniteRawValue v_raw) else
  match domain with
  | Tanh =>
      if negb (f32_range_contains (f32_of_int (-1)) (f32_of_int 1) v_raw) then
        Err (RawValueOutOfAnalyticDomain v_raw (f32_of_int (-1)) (f32_of_int 1))
      else Ok v_raw
  | SigmoidFamily =>
      if negb (f32_range_contains (f32_of_int 0) (f32_of_int 1) v_raw) then
        Err (RawValueOutOfAnalyticDomain v_raw (f32_of_int 0) (f32_of_int 1))
      else Ok (f32_sub (f32_mul (f32_of_int 2) v_raw) (f32_of_int 1))
  | Calibrated lower upper =>
      Ok (f32_sub (f32_div (f32_mul (f32_of_int 2) (f32_sub v_raw lower)) (f32_sub upper lower))
                  (f32_of_int 1))
  end.

Definition apply_root_perspective_v1 (v_unit : Z) (leaf_acting_player_is_root : bool) : Z :=
  if leaf_acting_player_is_root then v_unit else f32_neg v_unit.

Definition scale_signed_value_v1 (v_signed : Z) : Z :=
  f32_mul v_signed MODEL_GUIDED_SEARCH_VALUE_QUANTIZATION_SCALE_V1.

Definition round_and_clamp_value_v1 (product : Z)
  : result ModelGuidedSearchValueQuantizationErrorV1 Z :=
  if negb (f32_finite product) then Err (NonFiniteProduct product) else
  let rounded := round_ties_even_f32_bits_v1 product in
  let saturated := clamp i32_min i32_max rounded in
  Ok (clamp MODEL_GUIDED_SEARCH_VALUE_QUANTIZATION_CLAMP_MIN_V1
            MODEL_GUIDED_SEARCH_VALUE_QUANTIZATION_CLAMP_MAX_V1 saturated).

Definition quantize_value_v1 (domain : ModelGuidedSearchValueHeadDomainV1) (v_raw : Z)
    (leaf_acting_player_is_root : bool) : result ModelGuidedSearchValueQuantizationErrorV1 Z :=
  let? v_unit := canonicalize_to_unit_domain_v1 domain v_raw in
  let v_signed := apply_root_perspective_v1 v_unit leaf_acting_player_is_root in
  let product := scale_signed_value_v1 v_signed in
  round_and_clamp_value_v1 product.
