(* ===== verification/SearchMathFacts.v ===== *)
(** * The arithmetic of the model-guided search: facts

    The square root and the logarithm are the mathematical ones, the rounding on
    bits is round-half-even of the value, the prior is the largest-remainder
    apportionment of a million, and a value in the analytic domain is within half
    a unit (and the error of one product) of nine thousand times the output. *)

From stdpp Require Import strings sorting.
From Stdlib Require Import SpecFloat.
From S2P Require Import Prelude Hamilton FastSampler FastSamplerBits FastSamplerLoops Float32 SearchMath.

Local Open Scope Z_scope.

(* ------------------------------------------------------------------ *)
(** ** The square root *)

Lemma isqrt_bit_succ k : isqrt_bit (S k) = 4 ^ Z.of_nat k.
Proof.
  cbn [isqrt_bit]. rewrite Z.shiftl_1_l. change 4 with (2 ^ 2). by rewrite <- Z.pow_mul_r by lia.
Qed.

(** The next bit is the last one shifted right by two, down to 0. *)
Lemma isqrt_bit_shift k : isqrt_bit k = Z.shiftr (isqrt_bit (S k)) 2.
Proof.
  destruct k as [|k]; [done|]. rewrite !isqrt_bit_succ, Z.shiftr_div_pow2 by lia.
  rewrite Nat2Z.inj_succ, Z.pow_succ_r by lia. change (2 ^ 2) with 4.
  by rewrite Z.mul_comm, Z.div_mul.
Qed.

Lemma isqrt_start_spec value k : 0 <= value < 4 ^ Z.of_nat k ->
  (isqrt_start value k <= k)%nat /\ value < 4 ^ Z.of_nat (isqrt_start value k).
Proof.
  induction k as [|k IH]; intros Hv; [split; [done|apply Hv]|]. cbn [isqrt_start]. rewrite isqrt_bit_succ.
  case_decide; [destruct IH; lia|]. split; [lia|apply Hv].
Qed.

(** [a 2^k] is the root found so far, [value] what its square leaves. *)
Lemma isqrt_loop_spec k : forall value a,
  0 <= a -> (a + 1) * 4 ^ Z.of_nat k <= 2 ^ 64 -> 0 <= value < (2 * a + 1) * 4 ^ Z.of_nat k ->
  isqrt_loop value (a * 4 ^ Z.of_nat k) k = Z.sqrt (value + a * a * 4 ^ Z.of_nat k).
Proof.
  induction k as [|k IH]; intros value a Ha Hw Hv.
  - cbn [isqrt_loop]. change (4 ^ Z.of_nat 0) with 1 in *. symmetry. apply Z.sqrt_unique. nia.
  - cbn [isqrt_loop]. rewrite isqrt_bit_succ. rewrite Nat2Z.inj_succ, Z.pow_succ_r in * by lia.
    assert (0 < 4 ^ Z.of_nat k) as Hp by (apply Z.pow_pos_nonneg; lia).
    set (p := 4 ^ Z.of_nat k) in *. clearbody p.
    assert (wrap_u64 (a * (4 * p) + p) = a * (4 * p) + p) as -> by (apply Z.mod_small; nia).
    assert (Z.shiftr (a * (4 * p)) 1 = 2 * a * p) as ->.
    { rewrite Z.shiftr_div_pow2 by lia. change (2 ^ 1) with 2.
      replace (a * (4 * p)) with (2 * a * p * 2) by ring. by rewrite Z.div_mul. }
    case_decide as Hd.
    + assert (wrap_u64 (2 * a * p + p) = (2 * a + 1) * p) as ->.
      { rewrite <- (Z.mod_small ((2 * a + 1) * p) (2 ^ 64)); [|nia]. unfold wrap_u64. f_equal. ring. }
      rewrite IH by nia. f_equal. nia.
    + rewrite IH by nia. f_equal. ring.
Qed.

Lemma integer_isqrt_runs value : 0 <= value < 2 ^ 64 -> integer_isqrt_v1 value = Z.sqrt value.
Proof.
  intros Hv. unfold integer_isqrt_v1.
  destruct (isqrt_start_spec value 32) as [Hk Hlt]; [done|].
  pose proof (isqrt_loop_spec (isqrt_start value 32) value 0) as H.
  rewrite Z.mul_0_l, Z.add_0_r in H. apply H; [done| |lia].
  rewrite Z.mul_1_l. change (2 ^ 64) with (4 ^ Z.of_nat 32). apply Z.pow_le_mono_r; lia.
Qed.

Lemma integer_ilog2_runs value : 0 < value < 2 ^ 64 -> integer_ilog2_v1 value = Z.log2 value.
Proof.
  intros Hv. unfold integer_ilog2_v1, leading_zeros_u64. rewrite decide_False by lia.
  assert (0 <= Z.log2 value < 64) as Hl.
  { split; [apply Z.log2_nonneg|]. apply Z.log2_lt_pow2; lia. }
  unfold wrap_u64. rewrite Z.mod_small; lia.
Qed.

(** ** The bonus *)

Definition ucb_bonus (parent child : Z) : Z :=
  1414 * Z.sqrt (1000000 * (Z.log2 (parent + 1) + 1) / child) / 1000.

Lemma ucb_bonus_runs parent child : 0 <= parent < 2 ^ 32 -> 0 < child ->
  integer_ucb_bonus_v1 parent child = ucb_bonus parent child
  /\ 0 <= ucb_bonus parent child <= 8122.
Proof.
  intros Hp Hc. unfold integer_ucb_bonus_v1, ucb_bonus. rewrite integer_ilog2_runs by lia.
  assert (0 <= Z.log2 (parent + 1) <= 32) as Hl.
  { split; [apply Z.log2_nonneg|]. change 32 with (Z.log2 (2 ^ 32)). apply Z.log2_le_mono. lia. }
  set (l := Z.log2 (parent + 1)) in *. clearbody l. rewrite decide_False by lia.
  unfold saturating_mul_u64 at 2. rewrite (Z.min_r u64_max) by (unfold u64_max; lia).
  assert (0 <= 1000000 * (l + 1) / child <= 33000000) as Hr.
  { split; [apply Z.div_pos; lia|]. transitivity (1000000 * (l + 1)); [|lia].
    apply Z.div_le_upper_bound; [done|]. nia. }
  set (r := 1000000 * (l + 1) / child) in *. clearbody r.
  rewrite integer_isqrt_runs by lia.
  assert (0 <= Z.sqrt r <= 5744) as Hs.
  { split; [apply Z.sqrt_nonneg|]. change 5744 with (Z.sqrt 33000000). apply Z.sqrt_le_mono. lia. }
  set (s := Z.sqrt r) in *. clearbody s.
  unfold saturating_mul_u64. rewrite Z.min_r by (unfold u64_max; lia). split; [done|].
  pose proof (Z.div_mod (1414 * s) 1000 ltac:(lia)). pose proof (Z.mod_pos_bound (1414 * s) 1000 ltac:(lia)).
  lia.
Qed.

(* ------------------------------------------------------------------ *)
(** ** Rounding on bits *)

Lemma round_half_even_scale n d c : 0 < d -> 0 < c -> round_half_even (n * c) (d * c) = round_half_even n d.
Proof.
  intros Hd Hc. unfold round_half_even.
  rewrite Z.div_mul_cancel_r, Zmult_mod_distr_r by lia.
  pose proof (Z.mod_pos_bound n d Hd).
  assert (2 * (n mod d * c) = d * c <-> 2 * (n mod d) = d) as E1 by nia.
  assert (d * c < 2 * (n mod d * c) <-> d < 2 * (n mod d)) as E2 by nia.
  do 2 case_decide; tauto.
Qed.

Lemma round_half_even_small n d : 0 <= n -> 2 * n < d -> round_half_even n d = 0.
Proof.
  intros Hn Hd. unfold round_half_even. rewrite Z.div_small, Z.mod_small by lia.
  rewrite decide_False; [done|]. cbn. lia.
Qed.

Lemma round_half_even_exact q d : 0 < d -> round_half_even (q * d) d = q.
Proof.
  intros Hd. unfold round_half_even. rewrite Z.div_mul, Z.mod_mul by lia.
  rewrite decide_False; [done|]. lia.
Qed.

(** Round half to even of a signed number of units of 2^-149. *)
Definition round_units (u : Z) : Z := Z.sgn u * round_half_even (Z.abs u) (2 ^ 149).

Lemma round_units_opp u : round_units (- u) = - round_units u.
Proof. unfold round_units. rewrite Z.sgn_opp, Z.abs_opp. lia. Qed.

(** The code's tie decision on a significand with [fb] fraction bits. *)
Lemma split_round s fb : 0 <= s -> 0 < fb ->
  match Z.compare (Z.land s (Z.shiftl 1 fb - 1)) (Z.shiftl 1 (fb - 1)) with
  | Lt => Z.shiftr s fb
  | Gt => Z.shiftr s fb + 1
  | Eq => if decide (Z.land (Z.shiftr s fb) 1 = 0) then Z.shiftr s fb else Z.shiftr s fb + 1
  end = round_half_even s (2 ^ fb).
Proof.
  intros Hs Hfb. rewrite !Z.shiftl_1_l. rewrite <- (Z.ones_equiv fb) || rewrite Z.sub_1_r, <- Z.ones_equiv.
  rewrite Z.land_ones, Z.shiftr_div_pow2 by lia. unfold round_half_even.
  assert (2 ^ fb = 2 * 2 ^ (fb - 1)) as Ep by (rewrite <- Z.pow_succ_r by lia; f_equal; lia).
  assert (forall q, Z.land q 1 = 0 <-> Z.odd q = false) as Ho.
  { intros q. change 1 with (Z.ones 1) at 1. rewrite Z.land_ones, Zmod_odd by lia.
    destruct (Z.odd q); split; done. }
  rewrite Ep in *. destruct (Z.compare_spec (s mod (2 * 2 ^ (fb - 1))) (2 ^ (fb - 1))) as [E|E|E].
  - destruct (decide (Z.land _ 1 = 0)) as [El|El].
    + apply Ho in El. rewrite decide_False; [done|]. rewrite El. cbn. lia.
    + rewrite decide_True; [done|]. right. split; [lia|].
      destruct (Z.odd _) eqn:Eo; [done|]. by apply Ho in Eo.
  - rewrite decide_False; [done|]. lia.
  - rewrite decide_True; [done|]. left. lia.
Qed.

Lemma bit_fields bits : 0 <= bits < 2 ^ 32 ->
  (Z.land (Z.shiftr bits 31) 1 =? 1) = bool_decide (2 ^ 31 <= bits)
  /\ Z.land (Z.shiftr bits 23) 0xff = f32_exponent bits
  /\ Z.land bits 0x7fffff = f32_fraction bits
  /\ Z.lor (Z.shiftl 1 23) (f32_fraction bits) = f32_fraction bits + 2 ^ 23.
Proof.
  intros Hb. change 0xff with (Z.ones 8). change 0x7fffff with (Z.ones 23).
  change 1 with (Z.ones 1) at 1. rewrite !Z.land_ones, !Z.shiftr_div_pow2 by lia.
  pose proof (f32_fraction_bounds bits). split; [|split; [done|split; [done|]]].
  - rewrite Z.mod_small by (split; [apply Z.div_pos; lia|apply Z.div_lt_upper_bound; lia]).
    case_bool_decide.
    + apply Z.eqb_eq. symmetry. apply (Z.div_unique _ _ _ (bits - 2 ^ 31)); lia.
    + rewrite Z.div_small by lia. done.
  - rewrite Z.lor_comm. change (Z.shiftl 1 23) with (2 ^ 23).
    apply add_disjoint, land_pow2_small; lia.
Qed.

(** On a finite number: the nearest integer, ties to even, saturated. *)
Lemma round_ties_even_runs bits : 0 <= bits < 2 ^ 32 -> f32_finite bits = true ->
  round_ties_even_f32_bits_v1 bits = clamp i64_min i64_max (round_units (f32_units bits)).
Proof.
  intros Hb Hf. unfold round_ties_even_f32_bits_v1.
  destruct (bit_fields bits Hb) as (-> & -> & -> & ->).
  pose proof (f32_exponent_bounds bits) as HE. pose proof (f32_fraction_bounds bits) as HF.
  set (neg := bool_decide (2 ^ 31 <= bits)).
  assert (forall m, m = round_half_even (magnitude_units bits) (2 ^ 149) -> 0 <= m < 2 ^ 63 ->
    (if neg then - m else m) = clamp i64_min i64_max (round_units (f32_units bits))) as Hsmall.
  { intros m Em Hm.
    assert (round_units (f32_units bits) = if neg then - m else m) as ->.
    { pose proof (magnitude_units_nonneg bits) as Hn. subst neg.
      assert (round_units (magnitude_units bits) = m) as E.
      { unfold round_units. rewrite Z.abs_eq, <- Em by done.
        destruct (decide (magnitude_units bits = 0)) as [E0|]; [|rewrite Z.sgn_pos by lia; lia].
        rewrite E0 in *. cbn. rewrite round_half_even_small in Em; lia. }
      unfold f32_units. case_bool_decide; [rewrite decide_False by lia|rewrite decide_True by lia; done].
      by rewrite round_units_opp, E. }
    unfold clamp, i64_min, i64_max. destruct neg; repeat case_decide; lia. }
  unfold f32_finite in Hf. assert (f32_exponent bits <> 255) as HE255
    by (destruct (Z.eqb_spec (f32_exponent bits) 255); done).
  set (E := f32_exponent bits) in *. set (F := f32_fraction bits) in *.
  assert (magnitude_units bits = if decide (E = 0) then F else (F + 2 ^ 23) * 2 ^ (E - 1)) as EM by done.
  assert (forall k, 0 <= k -> 0 < 2 ^ k) as Hpow by (intros; by apply Z.pow_pos_nonneg).
  assert (0 = if neg then - 0 else 0) as E00 by (by destruct neg).
  case_decide as E0; [|case_decide as E1; [|case_decide as E2]].
  - rewrite E00. apply Hsmall; [|lia]. rewrite EM.
    symmetry. apply round_half_even_small; lia.
  - rewrite E00. apply Hsmall; [|lia]. rewrite EM.
    symmetry. assert (2 ^ (E - 1) <= 2 ^ 124) by (apply Z.pow_le_mono_r; lia).
    pose proof (Hpow (E - 1) ltac:(lia)). apply round_half_even_small; nia.
  - assert (2 ^ (E - 1) = 2 ^ (E - 150) * 2 ^ 149) as Ep by (rewrite <- Z.pow_add_r by lia; f_equal; lia).
    assert (2 ^ 40 <= 2 ^ (E - 150)) by (apply Z.pow_le_mono_r; lia).
    assert (magnitude_units bits = (F + 2 ^ 23) * 2 ^ (E - 150) * 2 ^ 149) as EM'
      by (rewrite EM, Ep; ring).
    assert (2 ^ 63 <= (F + 2 ^ 23) * 2 ^ (E - 150)) by nia.
    set (q := (F + 2 ^ 23) * 2 ^ (E - 150)) in *. clearbody q.
    assert (round_units (f32_units bits) = if neg then - q else q) as ->.
    { assert (round_units (q * 2 ^ 149) = q) as Eq.
      { unfold round_units. rewrite Z.abs_eq, round_half_even_exact, Z.sgn_pos by lia. lia. }
      unfold f32_units, neg. rewrite EM'.
      case_bool_decide; [rewrite decide_False by lia|rewrite decide_True by lia; done].
      by rewrite round_units_opp, Eq. }
    unfold clamp, i64_min, i64_max. destruct neg; repeat case_decide; lia.
  - apply Hsmall.
    + rewrite EM. case_decide as E3; [|case_decide as E4].
      * replace (E - 1) with 125 by lia. change (2 ^ 149) with (2 ^ 24 * 2 ^ 125).
        rewrite round_half_even_scale by lia. unfold round_half_even.
        rewrite Z.div_small, Z.mod_small by lia.
        case_decide; case_decide as E5; try done; [destruct E5; left; lia|].
        destruct E5 as [E5|[E5 E6]]; [lia|done].
      * replace (E - 1) with (E - 150 + 149) by lia. rewrite Z.pow_add_r, Z.mul_assoc by lia.
        rewrite round_half_even_exact by lia. rewrite Z.shiftl_mul_pow2 by lia. do 2 f_equal. lia.
      * replace (2 ^ 149) with (2 ^ (150 - E) * 2 ^ (E - 1)) by (rewrite <- Z.pow_add_r by lia; f_equal; lia).
        rewrite round_half_even_scale by (apply Hpow; lia).
        rewrite <- split_round by lia. by replace (23 - (E - 127)) with (150 - E) by lia.
    + case_decide as E3; [|case_decide as E4].
      * case_decide; lia.
      * rewrite Z.shiftl_mul_pow2 by lia. assert (2 ^ (E - 127 - 23) <= 2 ^ 39) by (apply Z.pow_le_mono_r; lia).
        pose proof (Hpow (E - 127 - 23) ltac:(lia)). nia.
      * rewrite split_round by lia.
        pose proof (round_half_even_bounds (F + 2 ^ 23) (2 ^ (23 - (E - 127))) ltac:(apply Hpow; lia)).
        assert (0 <= (F + 2 ^ 23) / 2 ^ (23 - (E - 127)) <= F + 2 ^ 23).
        { pose proof (Hpow (23 - (E - 127)) ltac:(lia)). split; [apply Z.div_pos; lia|].
          apply Z.div_le_upper_bound; nia. }
        lia.
Qed.

(* ------------------------------------------------------------------ *)
(** ** Priors *)

(** A weight of the policy head in the documented domain: finite, from 0 to 1. *)
Definition unit_weight (bits : Z) : Prop :=
  f32_finite bits = true /\ 0 <= f32_units bits <= 2 ^ 149.
#[export] Instance unit_weight_dec bits : Decision (unit_weight bits).
Proof. unfold unit_weight. apply _. Defined.

(** Its fixed-point value: in units of 2^-32, to the nearest, ties to even. *)
Definition weight_units (bits : Z) : Z := round_half_even (f32_units bits * 2 ^ 32) (2 ^ 149).

Lemma weight_units_bounds bits : 0 <= f32_units bits <= 2 ^ 149 -> 0 <= weight_units bits <= 2 ^ 32.
Proof.
  intros Hu. unfold weight_units. split; [apply round_half_even_nonneg; lia|].
  pose proof (round_half_even_mono (f32_units bits * 2 ^ 32) (2 ^ 32 * 2 ^ 149) (2 ^ 149)) as H.
  rewrite round_half_even_exact in H by lia. lia.
Qed.

Lemma zero_to_one bits : 0 <= bits < 2 ^ 32 ->
  f32_range_contains (f32_of_int 0) (f32_of_int 1) bits = bool_decide (unit_weight bits).
Proof.
  intros Hb. unfold f32_range_contains. destruct (decide (f32_finite bits = true)) as [Hf|Hf].
  - rewrite (bool_decide_ext (unit_weight bits) (0 <= f32_units bits <= 2 ^ 149))
      by (unfold unit_weight; tauto).
    rewrite !f32_le_units by done. change (f32_units (f32_of_int 0)) with 0.
    assert (f32_units (f32_of_int 1) = 2 ^ 149) as -> by (by vm_compute).
    destruct (decide (0 <= f32_units bits)).
    + rewrite (bool_decide_eq_true_2 (0 <= _)) by done. apply bool_decide_ext. tauto.
    + rewrite (bool_decide_eq_false_2 (0 <= f32_units bits)),
        (bool_decide_eq_false_2 (0 <= f32_units bits <= 2 ^ 149)) by lia. done.
  - rewrite (bool_decide_eq_false_2 (unit_weight bits)) by (unfold unit_weight; tauto).
    destruct (f32_le _ bits) eqn:E1; [|done]. destruct (f32_le bits _) eqn:E2; [|done].
    by destruct Hf; apply (f32_between_finite (f32_of_int 0) bits (f32_of_int 1)).
Qed.

Lemma unit_exponent bits : 0 <= bits < 2 ^ 32 -> f32_units bits <= 2 ^ 149 -> 0 <= f32_units bits ->
  f32_exponent bits <= 127.
Proof.
  intros Hb Hu Hn. destruct (decide (f32_exponent bits <= 127)) as [|Hgt]; [done|exfalso].
  assert (magnitude_units bits <= 2 ^ 149) as Hm.
  { unfold f32_units in *. pose proof (magnitude_units_nonneg bits). case_decide; lia. }
  unfold magnitude_units in Hm. rewrite decide_False in Hm by lia.
  assert (2 ^ 127 <= 2 ^ (f32_exponent bits - 1)) by (apply Z.pow_le_mono_r; lia).
  pose proof (f32_fraction_bounds bits). nia.
Qed.

(** The conversion of one weight: no rounding but the one to fixed point. *)
Lemma quantize_weight_runs index bits : 0 <= bits < 2 ^ 32 ->
  quantize_legal_action_weight_v1 index bits
  = if decide (unit_weight bits) then Ok (weight_units bits) else Err (WeightOutOfDomain index bits).
Proof.
  intros Hb. unfold quantize_legal_action_weight_v1. rewrite zero_to_one by done.
  case_decide as Hw; [rewrite bool_decide_eq_true_2 by done|by rewrite bool_decide_eq_false_2].
  cbn [negb]. f_equal. destruct Hw as [Hf Hu].
  pose proof (unit_exponent bits Hb ltac:(lia) ltac:(lia)).
  destruct (f32_mul_scale bits Hb ltac:(lia)) as (Hr & Hf' & Eu).
  change MODEL_GUIDED_SEARCH_PRIOR_QUANTIZATION_FIXED_POINT_SCALE_V1 with (f32_of_int (2 ^ 32)).
  rewrite round_ties_even_runs, Eu by done. unfold round_units.
  pose proof (weight_units_bounds bits Hu) as Hwb.
  assert (Z.sgn (f32_units bits * 2 ^ 32) * round_half_even (Z.abs (f32_units bits * 2 ^ 32)) (2 ^ 149)
          = weight_units bits) as ->.
  { rewrite Z.abs_eq by lia. fold (weight_units bits).
    destruct (decide (f32_units bits = 0)) as [E0|]; [|rewrite Z.sgn_pos; lia].
    rewrite E0. cbn. unfold weight_units. by rewrite E0, round_half_even_small. }
  unfold clamp, i64_min, i64_max. repeat case_decide; try lia. apply Z.mod_small. lia.
Qed.

(** The first weight outside the domain is the one reported. *)
Lemma quantize_weights_runs ws : forall index, Forall (fun b => 0 <= b < 2 ^ 32) ws ->
  quantize_weights index ws
  = match list_find (fun b => ~ unit_weight b) ws with
    | None => Ok (map weight_units ws)
    | Some (k, b) => Err (WeightOutOfDomain (index + k) b)
    end.
Proof.
  induction ws as [|b ws IH]; intros index H; [done|]. apply Forall_cons in H as [Hb H].
  cbn [quantize_weights list_find map]. rewrite quantize_weight_runs by done.
  destruct (decide (unit_weight b)) as [Hw|Hw]; cbn [result_bind].
  - rewrite decide_False by tauto. rewrite IH by done.
    destruct (list_find _ ws) as [[k c]|]; cbn; [|done]. do 2 f_equal. lia.
  - rewrite decide_True by tauto. cbn. by rewrite Nat.add_0_r.
Qed.

Lemma checked_unsigned_fits max z : 0 <= z <= max -> checked_unsigned max z = Some z.
Proof. intros Hz. by apply checked_unsigned_some. Qed.

Lemma larger_first_ranking values : sort_larger_first values = ranking values.
Proof. done. Qed.

Lemma prior_floors_runs total : forall ws acc,
  0 < total -> 0 <= acc -> Forall (fun w => 0 <= w <= total /\ w < 2 ^ 64) ws ->
  acc + 1000000 * Z.of_nat (length ws) < 2 ^ 128 ->
  prior_floors total acc ws
  = Ok (map (fun w => w * 1000000 / total) ws, map (fun w => w * 1000000 mod total) ws,
        acc + sumZ (map (fun w => w * 1000000 / total) ws)).
Proof.
  intros ws acc Ht. revert acc. induction ws as [|w ws IH]; intros acc Ha Hw Hl.
  - cbn. by rewrite Z.add_0_r.
  - apply Forall_cons in Hw as [[Hw Hw64] Hws]. cbn [length] in Hl.
    cbn [prior_floors map]. rewrite sumZ_cons.
    change MODEL_GUIDED_SEARCH_PRIOR_QUANTIZATION_SCALE_V1 with 1000000.
    unfold wrap_u128. rewrite (Z.mod_small (w * 1000000)) by lia.
    assert (0 <= w * 1000000 / total <= 1000000) as Hq.
    { split; [apply Z.div_pos; lia|]. apply Z.div_le_upper_bound; nia. }
    rewrite (Z.mod_small (acc + _)) by lia.
    rewrite checked_unsigned_fits by (unfold u32_max; lia).
    cbn [ok_or result_bind].
    rewrite IH by (done || lia). cbn [result_bind]. by rewrite Z.add_assoc.
Qed.

(** Distinct positions are each changed once. *)
Lemma foldl_alter_ext {A} (f g : A -> A) (indices : list nat) : forall l : list A, NoDup indices ->
  (forall i x, i ∈ indices -> l !! i = Some x -> f x = g x) ->
  foldl (fun l i => alter f i l) l indices = foldl (fun l i => alter g i l) l indices.
Proof.
  induction indices as [|i indices IH]; intros l Hn H; [done|]. cbn [foldl].
  apply NoDup_cons in Hn as [Hi Hn].
  assert (alter f i l = alter g i l) as ->.
  { apply list_eq. intros j. destruct (decide (i = j)) as [<-|Hne].
    - rewrite !list_lookup_alter_eq. destruct (l !! i) as [x|] eqn:E; [|done]. cbn. f_equal. apply (H i); [by left|done].
    - by rewrite !list_lookup_alter_ne. }
  apply IH; [done|]. intros j x Hj. rewrite list_lookup_alter_ne by (by intros ->).
  apply H. by right.
Qed.

(** With weights that are not all zero: largest-remainder apportionment of a
    million. *)
Lemma hamilton_prior_runs ws : ws <> [] -> Forall (fun w => 0 <= w < 2 ^ 64) ws ->
  Z.of_nat (length ws) < 2 ^ 64 ->
  hamilton_apportion_prior_v1 ws
  = if decide (sumZ ws = 0) then Err ZeroTotalWeight else Ok (hamilton 1000000 ws).
Proof.
  intros Hne Hw Hl. unfold hamilton_apportion_prior_v1. rewrite decide_False by done.
  assert (Forall (Z.le 0) ws) as Hpos by (eapply Forall_impl; [exact Hw|cbn; lia]).
  assert (0 <= sumZ ws <= Z.of_nat (length ws) * (2 ^ 64 - 1)) as Hs.
  { split; [by apply sumZ_nonneg|]. apply sumZ_bounds. eapply Forall_impl; [exact Hw|cbn; lia]. }
  rewrite sum_u128_spec by (done || nia). case_decide as E0; [done|].
  rewrite (prior_floors_runs (sumZ ws)); [|lia|lia| |lia].
  2: { apply Forall_forall. intros w Hin. pose proof (proj1 (Forall_forall _ _) Hw w Hin) as Hb.
       cbn in Hb. split; [|lia]. split; [lia|]. apply list_elem_of_lookup in Hin as [i Hi]. by eapply sumZ_lookup_le. }
  cbn [result_bind]. rewrite Z.add_0_l.
  fold (quotas 1000000 ws) (rests 1000000 ws) (leftover 1000000 ws).
  pose proof (leftover_bounds 1000000 ws ltac:(lia)) as Hlo. unfold leftover in Hlo.
  unfold checked_sub_u128. change MODEL_GUIDED_SEARCH_PRIOR_QUANTIZATION_SCALE_V1 with 1000000.
  rewrite checked_unsigned_fits by lia. cbn [ok_or result_bind]. rewrite decide_False by lia.
  f_equal. rewrite larger_first_ranking. change (1000000 - sumZ (quotas 1000000 ws)) with (leftover 1000000 ws).
  rewrite <- hamilton_bump by lia. apply foldl_alter_ext.
  - eapply sublist_NoDup; [apply ranking_nodup|apply sublist_take].
  - intros i q _ Hq. unfold quotas in Hq. rewrite list_lookup_fmap in Hq.
    destruct (ws !! i) as [w|] eqn:Ew; cbn in Hq; [|done]. injection Hq as <-.
    pose proof (sumZ_lookup_le ws i w Hpos Ew). pose proof (Forall_lookup_1 _ _ _ _ Hpos Ew).
    assert (0 <= w * 1000000 / sumZ ws <= 1000000) as Hq.
    { split; [apply Z.div_pos; lia|]. apply Z.div_le_upper_bound; nia. }
    unfold wrap_u32. rewrite Z.mod_small; lia.
Qed.

(* ------------------------------------------------------------------ *)
(** ** Values *)

Lemma clamp_spec low high v : low <= high -> clamp low high v = Z.max low (Z.min high v).
Proof. intros H. unfold clamp. repeat case_decide; lia. Qed.

(** Rounding, saturating and clamping. *)
Definition value_units (u : Z) : Z := Z.max (-9000) (Z.min 9000 (round_units u)).

Lemma round_and_clamp_runs bits : 0 <= bits < 2 ^ 32 ->
  round_and_clamp_value_v1 bits
  = if f32_finite bits then Ok (value_units (f32_units bits)) else Err (NonFiniteProduct bits).
Proof.
  intros Hb. unfold round_and_clamp_value_v1. destruct (f32_finite bits) eqn:Hf; cbn [negb]; [|done].
  rewrite round_ties_even_runs by done. f_equal. unfold value_units.
  change MODEL_GUIDED_SEARCH_VALUE_QUANTIZATION_CLAMP_MIN_V1 with (-9000).
  change MODEL_GUIDED_SEARCH_VALUE_QUANTIZATION_CLAMP_MAX_V1 with 9000.
  unfold i32_min, i32_max, i64_min, i64_max. rewrite !clamp_spec by lia. lia.
Qed.

Lemma f32_neg_units b : 0 <= b < 2 ^ 32 -> f32_units (f32_neg b) = - f32_units b
  /\ f32_finite (f32_neg b) = f32_finite b.
Proof.
  intros Hb. destruct (f32_neg_fields b Hb) as (E1 & E2 & E3).
  unfold f32_finite. split; [|by rewrite E1].
  unfold f32_units, magnitude_units. rewrite E1, E2. unfold f32_sign in E3.
  pose proof (bool_decide_eq_true (2 ^ 31 <= b)). pose proof (bool_decide_eq_true (2 ^ 31 <= f32_neg b)).
  rewrite E3 in *. destruct (bool_decide (2 ^ 31 <= b)); cbn [negb] in *.
  - rewrite (decide_False (P := b < 2 ^ 31)), decide_True by (intuition lia). lia.
  - rewrite (decide_True (P := b < 2 ^ 31)), decide_False by (intuition lia). lia.
Qed.

Lemma canonicalize_range domain v v_unit : 0 <= v < 2 ^ 32 ->
  canonicalize_to_unit_domain_v1 domain v = Ok v_unit -> 0 <= v_unit < 2 ^ 32.
Proof.
  intros Hv. unfold canonicalize_to_unit_domain_v1.
  destruct (validate_domain domain); cbn [result_bind]; [|done].
  destruct (negb (f32_finite v)); [discriminate|].
  destruct domain; [destruct (negb _); [discriminate|]|destruct (negb _); [discriminate|]|];
    intros E; apply Ok_inj in E; subst v_unit; [exact Hv|apply f32_sub_range..].
Qed.

(** Seen from the other side a value is its opposite. *)
Lemma quantize_value_opposite domain v r : 0 <= v < 2 ^ 32 ->
  quantize_value_v1 domain v true = Ok r <-> quantize_value_v1 domain v false = Ok (- r).
Proof.
  intros Hv. unfold quantize_value_v1.
  destruct (canonicalize_to_unit_domain_v1 domain v) as [v_unit|e] eqn:E; cbn [result_bind]; [|done].
  pose proof (canonicalize_range _ _ _ Hv E) as Hu.
  unfold apply_root_perspective_v1, scale_signed_value_v1.
  rewrite !round_and_clamp_runs by apply f32_mul_range.
  destruct (f32_finite v_unit) eqn:Hf.
  - rewrite f32_mul_neg by done. pose proof (f32_mul_range v_unit MODEL_GUIDED_SEARCH_VALUE_QUANTIZATION_SCALE_V1) as Hm.
    destruct (f32_neg_units _ Hm) as [-> ->]. case_match; [|done].
    unfold value_units. rewrite round_units_opp. split; intros [= E']; f_equal; lia.
  - rewrite !f32_mul_not_finite; [done| |done]. destruct (f32_neg_units v_unit Hu) as [_ ->]. done.
Qed.

(** An error of half a step of [N] is half a step of [B]. *)
Lemma scaled_error p q N B d : 0 < N -> 0 < B -> 2 * Z.abs (p - q * N) <= N -> d * N = (q * N - p) * B ->
  2 * Z.abs d <= B.
Proof.
  intros HN HB H E. assert (Z.abs d * N = Z.abs (p - q * N) * B) as Ea.
  { rewrite <- (Z.abs_eq N) at 1 by lia. rewrite <- (Z.abs_eq B) by lia.
    rewrite <- !Z.abs_mul, E, <- Z.abs_opp. f_equal. ring. }
  apply (Z.mul_le_mono_pos_r _ _ N HN).
  replace (2 * Z.abs d * N) with (2 * (Z.abs d * N)) by ring. rewrite Ea.
  replace (2 * (Z.abs (p - q * N) * B)) with (2 * Z.abs (p - q * N) * B) by ring.
  rewrite (Z.mul_comm B). apply Z.mul_le_mono_nonneg_r; lia.
Qed.

(** One product with nine thousand. *)
Lemma f32_mul_9000 b : 0 <= b < 2 ^ 32 -> f32_finite b = true -> Z.abs (f32_units b) <= 2 ^ 149 ->
  let y := f32_mul b MODEL_GUIDED_SEARCH_VALUE_QUANTIZATION_SCALE_V1 in
  f32_finite y = true /\ Z.abs (f32_units y - 9000 * f32_units b) <= 2 ^ 138.
Proof.
  intros Hb Hf Hu. cbv zeta. destruct (f32_decode_canonical b Hb Hf) as [Cb Eb].
  rewrite <- Eb in *. unfold f32_mul, f32_op.
  assert (f32_decode MODEL_GUIDED_SEARCH_VALUE_QUANTIZATION_SCALE_V1 = S754_finite false 9216000 (-10))
    as -> by (by vm_compute).
  set (y := SFmul 24 128 (f32_decode b) (S754_finite false 9216000 (-10))).
  assert (canonical y /\ Z.abs (units y - 9000 * units (f32_decode b)) <= 2 ^ 138) as [Cy Hy].
  { subst y. clear Eb. destruct (f32_decode b) as [s|s| |s m e]; cbn [canonical SFmul] in *; try done.
    destruct Cb as (Hm & He & Cn). rewrite xorb_false_r. cbn [units] in Hu.
    assert (0 < 2 ^ (e + 149)) as Hpe by (apply Z.pow_pos_nonneg; lia).
    assert (Zpos m * 2 ^ (e + 149) <= 2 ^ 149) as Hu' by (destruct s; lia).
    set (p := (m * 9216000)%positive). assert (Zpos p = Zpos m * 9216000) as Ep by (subst p; lia).
    destruct (Zdigits2_spec (Zpos p) ltac:(lia)) as (D1 & D2 & D3). specialize (D3 ltac:(lia)).
    assert (24 <= Zdigits2 (Zpos p)) as HD24.
    { destruct (decide (24 <= Zdigits2 (Zpos p))) as [|Hlt]; [done|].
      assert (2 ^ Zdigits2 (Zpos p) <= 2 ^ 23) by (apply Z.pow_le_mono_r; lia). lia. }
    assert (Zdigits2 (Zpos p) + e <= 24) as HD.
    { assert (2 ^ (Zdigits2 (Zpos p) - 1 + (e + 149)) < 2 ^ 173) as Hlt.
      { rewrite Z.pow_add_r by lia.
        apply (Z.le_lt_trans _ (Zpos p * 2 ^ (e + 149))); [apply Z.mul_le_mono_nonneg_r; lia|].
        rewrite Ep. replace (Zpos m * 9216000 * 2 ^ (e + 149)) with (9216000 * (Zpos m * 2 ^ (e + 149))) by ring.
        lia. }
      apply Z.pow_lt_mono_r_iff in Hlt; lia. }
    assert (0 <= excess (Zpos p) (e + -10) /\ e - 10 + excess (Zpos p) (e + -10) <= -10
            /\ -149 <= e - 10 + excess (Zpos p) (e + -10)) as (Hn & Hx & Hl)
      by (unfold excess, fexp, emin; lia).
    destruct (binary_round_aux_units s (Zpos p) (e + -10)) as [Cy ->]; [lia|by left|lia|].
    split; [done|]. cbn [units]. set (n := excess (Zpos p) (e + -10)) in *. clearbody n.
    destruct (round_half_even_nearest (Zpos p) (2 ^ n) ltac:(apply Z.pow_pos_nonneg; lia)) as [Hr _].
    set (q := round_half_even (Zpos p) (2 ^ n)) in *. clearbody q.
    assert (2 ^ (e + 149) * 2 ^ n = 2 ^ (e + -10 + n + 149) * 2 ^ 10) as E1
      by (rewrite <- !Z.pow_add_r by lia; f_equal; lia).
    assert (2 ^ (e + -10 + n + 149) <= 2 ^ 139) as E2 by (apply Z.pow_le_mono_r; lia).
    assert (0 < 2 ^ (e + -10 + n + 149)) as E3 by (apply Z.pow_pos_nonneg; lia).
    assert (0 < 2 ^ n) as E4 by (apply Z.pow_pos_nonneg; lia).
    set (A := 2 ^ (e + 149)) in *. set (B := 2 ^ (e + -10 + n + 149)) in *. set (N := 2 ^ n) in *.
    clearbody A B N.
    replace ((if s then -1 else 1) * (q * B) - 9000 * ((if s then -1 else 1) * (Zpos m * A)))
      with ((if s then -1 else 1) * (q * B - 9000 * (Zpos m * A))) by ring.
    assert (Z.abs (q * B - 9000 * (Zpos m * A)) <= 2 ^ 138) as Hd; [|destruct s; cbv iota; lia].
    assert ((q * B - 9000 * (Zpos m * A)) * N = (q * N - Zpos p) * B) as E5.
    { rewrite Ep. replace ((q * B - 9000 * (Zpos m * A)) * N) with (q * B * N - 9000 * Zpos m * (A * N)) by ring.
      rewrite E1. ring. }
    pose proof (scaled_error _ _ _ _ _ E4 E3 Hr E5). lia. }
  destruct (f32_encode_units y Cy) as [-> ->]. done.
Qed.

(** The weighted bonus of the tree. *)
Lemma puct_bonus_runs bonus p_int : 0 <= bonus <= 8122 -> 0 <= p_int <= 1000000 ->
  puct_bonus_v1 bonus p_int = Ok (bonus * p_int / 1000000)
  /\ 0 <= bonus * p_int / 1000000 <= bonus.
Proof.
  intros Hb Hp. assert (0 <= bonus * p_int / 1000000 <= bonus) as Hq.
  { split; [apply Z.div_pos; nia|]. apply Z.div_le_upper_bound; nia. }
  split; [|done]. unfold puct_bonus_v1, wrap_u128.
  change MODEL_GUIDED_SEARCH_PRIOR_QUANTIZATION_SCALE_V1 with 1000000.
  rewrite Z.mod_small by nia. by rewrite checked_unsigned_fits by (unfold u64_max; lia).
Qed.

Lemma round_units_nearest u : 2 * Z.abs (round_units u * 2 ^ 149 - u) <= 2 ^ 149.
Proof.
  unfold round_units. destruct (round_half_even_nearest (Z.abs u) (2 ^ 149) ltac:(lia)) as [H _].
  set (q := round_half_even (Z.abs u) (2 ^ 149)) in *. clearbody q.
  destruct (Z.sgn_spec u) as [[Hu ->]|[[Hu ->]|[Hu ->]]]; lia.
Qed.

Lemma quantize_tanh_runs v : 0 <= v < 2 ^ 32 -> f32_finite v = true ->
  Z.abs (f32_units v) <= 2 ^ 149 ->
  exists r, quantize_value_v1 Tanh v true = Ok r /\ -9000 <= r <= 9000
    /\ Z.abs (r * 2 ^ 149 - 9000 * f32_units v) <= 2 ^ 148 + 2 ^ 138.
Proof.
  intros Hv Hf Hu. unfold quantize_value_v1, canonicalize_to_unit_domain_v1, f32_range_contains.
  cbn [validate_domain result_bind]. rewrite Hf. cbn [negb].
  rewrite !f32_le_units by (done || vm_compute; done).
  assert (f32_units (f32_of_int (-1)) = - 2 ^ 149) as -> by (by vm_compute).
  assert (f32_units (f32_of_int 1) = 2 ^ 149) as -> by (by vm_compute).
  rewrite !bool_decide_eq_true_2 by lia. cbn [andb negb result_bind].
  unfold apply_root_perspective_v1, scale_signed_value_v1.
  rewrite round_and_clamp_runs by apply f32_mul_range.
  destruct (f32_mul_9000 v Hv Hf Hu) as [-> Hp].
  set (y := f32_units (f32_mul v _)) in *. clearbody y.
  exists (value_units y). split; [done|]. pose proof (round_units_nearest y).
  unfold value_units. split; lia.
Qed.

(* ------------------------------------------------------------------ *)
(** ** Statements *)

Lemma fixed_weights ws : list_find (fun b => ~ unit_weight b) ws = None ->
  Forall (fun w => 0 <= w <= 2 ^ 32) (map weight_units ws).
Proof.
  intros E%list_find_None. apply Forall_fmap. eapply Forall_impl; [exact E|].
  intros b Hu. cbv beta in Hu. destruct (decide (unit_weight b)) as [[_ Hw]|]; [|by destruct Hu].
  by apply weight_units_bounds.
Qed.

Lemma quantize_prior_runs ws : ws <> [] -> Forall (fun b => 0 <= b < 2 ^ 32) ws ->
  Z.of_nat (length ws) < 2 ^ 64 ->
  quantize_prior_v1 ws
  = match list_find (fun b => ~ unit_weight b) ws with
    | Some (k, b) => Err (WeightOutOfDomain k b)
    | None => if decide (sumZ (map weight_units ws) = 0) then Err ZeroTotalWeight
              else Ok (hamilton 1000000 (map weight_units ws))
    end.
Proof.
  intros Hne Hb Hl. unfold quantize_prior_v1. rewrite decide_False, quantize_weights_runs by done.
  destruct (list_find _ ws) as [[k b]|] eqn:E; cbn [result_bind]; [done|].
  rewrite hamilton_prior_runs; [done|by destruct ws| |by rewrite length_map].
  eapply Forall_impl; [by apply fixed_weights|]. cbn. lia.
Qed.

(** What a prior promises the tree: as many entries as actions, none negative,
    a million in all. *)
Definition is_prior (n : nat) (prior : list Z) : Prop :=
  length prior = n /\ Forall (Z.le 0) prior /\ sumZ prior = 1000000.

Lemma quantize_prior_is_prior ws prior : Forall (fun b => 0 <= b < 2 ^ 32) ws ->
  Z.of_nat (length ws) < 2 ^ 64 -> quantize_prior_v1 ws = Ok prior ->
  is_prior (length ws) prior /\ prior = hamilton 1000000 (map weight_units ws)
  /\ 0 < sumZ (map weight_units ws).
Proof.
  intros Hb Hl E. destruct (decide (ws = [])) as [->|Hne]; [done|].
  rewrite quantize_prior_runs in E by done.
  destruct (list_find _ ws) as [[k b]|] eqn:Ef; [done|].
  destruct (decide (sumZ _ = 0)) as [|E0] in E; [done|]. apply Ok_inj in E as <-.
  assert (Forall (Z.le 0) (map weight_units ws)) as Hpos
    by (eapply Forall_impl; [by apply fixed_weights|cbn; lia]).
  pose proof (sumZ_nonneg _ Hpos). split; [|split; [done|lia]].
  split; [by rewrite hamilton_length, length_map|].
  split; [apply hamilton_nonneg|apply hamilton_sum]; done || lia.
Qed.

(** C31: the prior of a node is the largest-remainder apportionment of one million
    in proportion to the weights, taken exactly to 32 fraction bits (the float
    product with 2^32 loses nothing, the rounding on bits is to the nearest, ties
    to even): it adds up to a million, each share is within one of its exact
    proportion, and a larger weight never gets less. The first weight that is not
    a finite number from 0 to 1 is the error reported, and weights that all round
    to zero are refused. *)
Theorem prior_is_hamilton ws : ws <> [] -> Forall (fun b => 0 <= b < 2 ^ 32) ws ->
  Z.of_nat (length ws) < 2 ^ 64 ->
  match list_find (fun b => ~ unit_weight b) ws with
  | Some (k, b) => quantize_prior_v1 ws = Err (WeightOutOfDomain k b)
  | None =>
      let fixed := map weight_units ws in
      if decide (sumZ fixed = 0) then quantize_prior_v1 ws = Err ZeroTotalWeight
      else exists prior, quantize_prior_v1 ws = Ok prior /\ prior = hamilton 1000000 fixed
        /\ sumZ prior = 1000000
        /\ (forall i w p, fixed !! i = Some w -> prior !! i = Some p ->
              w * 1000000 - sumZ fixed < p * sumZ fixed <= w * 1000000 + sumZ fixed)
        /\ (forall i j wi wj p q, fixed !! i = Some wi -> fixed !! j = Some wj -> wi < wj ->
              prior !! i = Some p -> prior !! j = Some q -> p <= q)
  end.
Proof.
  intros Hne Hb Hl. pose proof (quantize_prior_runs ws Hne Hb Hl) as E.
  destruct (list_find _ ws) as [[k b]|] eqn:Ef; [done|]. cbv zeta.
  destruct (decide (sumZ (map weight_units ws) = 0)) as [|E0]; [done|].
  eexists. split; [exact E|].
  destruct (quantize_prior_is_prior ws _ Hb Hl E) as ((_ & _ & Hs) & _ & Hpos).
  split; [done|]. split; [done|]. split.
  - intros i w p Hi Hp. by apply (hamilton_quota 1000000 (map weight_units ws) i).
  - intros i j wi wj p q Hi Hj Hlt. apply (hamilton_mono 1000000 (map weight_units ws) i j wi wj);
      done || (by left) || lia.
Qed.

Lemma words_ok l : forallb (fun b => (0 <=? b) && (b <? 2 ^ 32)) l = true ->
  Forall (fun b => 0 <= b < 2 ^ 32) l.
Proof.
  intros Hl. apply Forall_forall. intros b Hin. rewrite forallb_forall in Hl.
  apply list_elem_of_In in Hin. specialize (Hl b Hin). lia.
Qed.

(** Weights 1/2, 1/4 and 0; then one that is above 1. *)
Lemma prior_is_hamilton_witness :
  quantize_prior_v1 [0x3f000000; 0x3e800000; 0] = Ok [666667; 333333; 0]
  /\ sumZ [666667; 333333; 0] = 1000000
  /\ quantize_prior_v1 [0x3f000000; 0x3f800001] = Err (WeightOutOfDomain 1 0x3f800001).
Proof.
  assert (Forall (fun b => 0 <= b < 2 ^ 32) [0x3f000000; 0x3e800000; 0]) as HP by (apply words_ok; reflexivity).
  pose proof (prior_is_hamilton [0x3f000000; 0x3e800000; 0] ltac:(discriminate) HP eq_refl) as P.
  assert (Forall (fun b => 0 <= b < 2 ^ 32) [0x3f000000; 0x3f800001]) as HP' by (apply words_ok; reflexivity).
  pose proof (prior_is_hamilton [0x3f000000; 0x3f800001] ltac:(discriminate) HP' eq_refl) as P'.
  replace (list_find _ _) with (@None (nat * Z)) in P by (vm_compute; reflexivity).
  replace (list_find _ _) with (Some (1%nat, 0x3f800001)) in P' by (vm_compute; reflexivity).
  cbv zeta in P. rewrite decide_False in P by (vm_compute; discriminate).
  destruct P as (prior & E & Ep & Es & _).
  assert (prior = [666667; 333333; 0]) as -> by (rewrite Ep; vm_compute; reflexivity).
  exact (conj E (conj Es P')).
Defined.

(** The integer selection bonus is floor(1.414 * isqrt(10^6 * (log2(parent+1)
    + 1) / child)) with the true floors of the logarithm and of the square root,
    never more than 8122; weighted by a prior it is floor(bonus * prior / 10^6),
    at most the bonus itself, and the overflow error is unreachable. *)
Theorem selection_bonus_exact parent child p_int : 0 <= parent < 2 ^ 32 -> 0 < child ->
  0 <= p_int <= 1000000 ->
  let bonus := 1414 * Z.sqrt (1000000 * (Z.log2 (parent + 1) + 1) / child) / 1000 in
  integer_ucb_bonus_v1 parent child = bonus /\ bonus <= 8122
  /\ puct_bonus_v1 (integer_ucb_bonus_v1 parent child) p_int = Ok (bonus * p_int / 1000000)
  /\ 0 <= bonus * p_int / 1000000 <= bonus.
Proof.
  intros Hp Hc Hq. cbv zeta. fold (ucb_bonus parent child).
  destruct (ucb_bonus_runs parent child Hp Hc) as [-> Hb].
  split; [done|]. split; [lia|]. by apply puct_bonus_runs.
Qed.

(** A node visited 1000 times, an action of it visited 10 times. *)
Lemma selection_bonus_exact_witness :
  integer_ucb_bonus_v1 1000 10 = 1414 /\ puct_bonus_v1 1414 250000 = Ok 353.
Proof.
  destruct (selection_bonus_exact 1000 10 250000 ltac:(lia) ltac:(lia) ltac:(lia)) as (E1 & _ & E2 & _).
  exact (conj E1 E2).
Defined.

(** With a tanh head, an output from -1 to 1 becomes an integer within 1/2 +
    2^-11 of nine thousand times it (both in units of 2^-149 here), between -9000
    and 9000, and never an error; for the player across the table it is the
    opposite integer. *)
Theorem value_quantization_error v : 0 <= v < 2 ^ 32 -> f32_finite v = true ->
  Z.abs (f32_units v) <= 2 ^ 149 ->
  exists r, quantize_value_v1 Tanh v true = Ok r /\ quantize_value_v1 Tanh v false = Ok (- r)
    /\ -9000 <= r <= 9000
    /\ Z.abs (r * 2 ^ 149 - 9000 * f32_units v) <= 2 ^ 148 + 2 ^ 138.
Proof.
  intros Hv Hf Hu. destruct (quantize_tanh_runs v Hv Hf Hu) as (r & E & Hr & He).
  exists r. split; [done|]. split; [by apply quantize_value_opposite|]. done.
Qed.

(** 0.3 to the nearest float. *)
Lemma value_quantization_error_witness :
  quantize_value_v1 Tanh 0x3e99999a true = Ok 2700 /\ quantize_value_v1 Tanh 0x3e99999a false = Ok (-2700).
Proof.
  destruct (value_quantization_error 0x3e99999a ltac:(lia) eq_refl ltac:(vm_compute; discriminate))
    as (r & E1 & E2 & _).
  assert (r = 2700) as -> by (vm_compute in E1; congruence).
  exact (conj E1 E2).
Defined.
