(* ===== verification/SearchAuthority.v ===== *)
(** * The authority of a model-guided search
    (src/mtg-kernel/src/model_guided_search_authority_v1.rs)

    The record that fixes everything a search depends on: its tier, budget and
    depth cap, its seed, the build and the checkpoint. It is validated whenever it
    is made, hashed or used. A string is the list of its bytes. What the build,
    serde_json, sha2 and the contract digests contribute is an interface. *)

From stdpp Require Import strings.
From S2P Require Import Prelude Bytes.

Local Open Scope Z_scope.

(** ** Constants of kernel_native_search_opponent_v1.rs and state.rs *)

Definition KERNEL_NATIVE_SEARCH_AUTHORITY_KIND_V1 : bytes := bytes_of "kernel-native-search-opponent-v1".
Definition KERNEL_NATIVE_SEARCH_ALGORITHM_V1 : bytes :=
  bytes_of "deterministic-per-simulation-redeterminized-is-mcts-integer-ucb/v1".
Definition KERNEL_NATIVE_SEARCH_NODE_KEY_V1 : bytes :=
  bytes_of "sha256-serde-json-observation-v5-actions-remaining-depth/v1".
Definition KERNEL_NATIVE_SEARCH_SEED_DOMAIN_V1 : bytes :=
  bytes_of "sha256-kernel-native-search-authority-episode-decision-substep-simulation-player/v1".
Definition KERNEL_NATIVE_SEARCH_DEPTH_CAP_V1 : Z := 64.

Definition DIAGNOSTIC_STATE_HASH_ALGORITHM : bytes := bytes_of "fnv1a64-serde-json-game-state-envelope-v8".
Definition DIAGNOSTIC_STATE_HASH_ALGORITHM_ENVIRONMENT_V2 : bytes :=
  bytes_of "fnv1a64-serde-json-game-state-envelope-v9".

Inductive KernelNativeSearchTierV1 := T512 | T2048 | T8192 | T32768.

Definition tier_transition_budget (tier : KernelNativeSearchTierV1) : Z :=
  match tier with T512 => 512 | T2048 => 2048 | T8192 => 8192 | T32768 => 32768 end.

(** ** Constants of the module *)

Definition MODEL_GUIDED_SEARCH_AUTHORITY_SCHEMA_V1 : bytes := bytes_of "model_guided_searcher_authority/v1".
Definition MODEL_GUIDED_SEARCH_AUTHORITY_KIND_V1 : bytes := bytes_of "model-guided-searcher-v1".
Definition MODEL_GUIDED_SEARCH_ALGORITHM_V1 : bytes :=
  bytes_of "deterministic-per-simulation-redeterminized-is-mcts-puct-prior-value-head-integer-ucb/v1".
Definition MODEL_GUIDED_SEARCH_AUTHORITY_MAX_BYTES_V1 : nat := (16 * 1024)%nat.
Definition MODEL_GUIDED_SEARCH_IDENTITY_STRING_MAX_LEN_V1 : nat := 4096.
Definition MODEL_GUIDED_SEARCH_CHECKPOINT_GENERATION_MAX_V1 : Z := Z.shiftl 1 63 - 1.
Definition MODEL_GUIDED_SEARCH_AUTHORIZED_SEED_BLOCKS_V1 : list Z := [3101001; 3102001; 3103001; 3104001].

Definition authorized_seed_block_v1 (block_id : nat) : option Z :=
  MODEL_GUIDED_SEARCH_AUTHORIZED_SEED_BLOCKS_V1 !! block_id.

(** Of model_guided_search_contract_digests_v1.rs. *)
Definition MODEL_GUIDED_SEARCH_PRIOR_QUANTIZATION_CONTRACT_SHA256_V1 : bytes :=
  bytes_of "cd0b3bb345e7f413f38b7cc6cbad3571f0166d32a0eab009bfd0e7185d9bb20f".
Definition MODEL_GUIDED_SEARCH_VALUE_QUANTIZATION_CONTRACT_SHA256_V1 : bytes :=
  bytes_of "d06c8b302df558254646881bac682c64a6151c9d582cc7d30141e04fabc43663".
Definition MODEL_GUIDED_SEARCH_FORWARD_DETERMINISM_BUILD_SHA256_V1 : bytes :=
  bytes_of "093e978cacef906db300fd683349ed66f676d500c32ca5c6fb8d419b990b97d3".

(** [format!("{byte:02x}")] of every byte. *)
Definition hex_nibble (d : Z) : Z := if decide (d < 10) then 48 + d else 87 + d.
Definition lower_hex_digest_v1 (digest : bytes) : bytes :=
  flat_map (fun byte => [hex_nibble (byte / 16); hex_nibble (byte mod 16)]) digest.

Inductive ModelGuidedSearchConsumptionModeV1 :=
  | SearchAtInference
  | SearchAsOpponent
  | SearchAtTrainingTargets.

Record ModelGuidedSearchAuthorityV1 := MkAuthority {
  schema : bytes;
  authority_kind : bytes;
  algorithm_identity : bytes;
  node_key_identity : bytes;
  tier : KernelNativeSearchTierV1;
  transition_budget : Z;
  policy_step_depth_cap : Z;
  seed_domain : bytes;
  engine_commit : bytes;
  card_db_hash : Z;
  runtime_deck_catalog_sha256 : bytes;
  private_diagnostic_identity : bytes;
  action_seed : Z;
  checkpoint_store_path_or_lineage_id : bytes;
  checkpoint_generation : Z;
  checkpoint_weight_bytes_sha256 : bytes;
  net_architecture_identity : bytes;
  puct_prior_quantization_contract_sha256 : bytes;
  value_quantization_contract_sha256 : bytes;
  forward_determinism_build_identity : bytes;
  consumption_mode : ModelGuidedSearchConsumptionModeV1;
}.

Inductive ModelGuidedSearchAuthorityErrorKind :=
  | RecordTooLarge
  | InvalidSchema
  | InvalidNodeKeyIdentity
  | InvalidSearchLadder
  | InvalidSeedDomain
  | InvalidProvenance
  | InvalidActionSeed
  | InvalidCheckpointIdentity
  | InvalidNetArchitectureIdentity
  | InvalidPuctPriorQuantizationContractDigest
  | InvalidValueQuantizationContractDigest
  | InvalidForwardDeterminismBuildIdentity
  | ForbiddenBuildFlagOverride.

Record ModelGuidedSearchAuthorityError := MkAuthorityError { kind : ModelGuidedSearchAuthorityErrorKind }.

#[export] Instance KernelNativeSearchTierV1_eq_dec : EqDecision KernelNativeSearchTierV1.
Proof. solve_decision. Defined.
#[export] Instance ModelGuidedSearchConsumptionModeV1_eq_dec : EqDecision ModelGuidedSearchConsumptionModeV1.
Proof. solve_decision. Defined.
#[export] Instance ModelGuidedSearchAuthorityV1_eq_dec : EqDecision ModelGuidedSearchAuthorityV1.
Proof. solve_decision. Defined.
#[export] Instance ModelGuidedSearchAuthorityErrorKind_eq_dec : EqDecision ModelGuidedSearchAuthorityErrorKind.
Proof. solve_decision. Defined.
#[export] Instance ModelGuidedSearchAuthorityError_eq_dec : EqDecision ModelGuidedSearchAuthorityError.
Proof. solve_decision. Defined.

(** What a build contributes: its commit, the generated card and deck tables'
    hashes, the digests recomputed from the quantization contracts, whether a
    forbidden compiler flag was set; and the serializer and the hash function. *)
Class SearchBuild := {
  build_git_head : bytes;
  kernel_carddb_hash : Z;
  runtime_deck_catalog_file_sha256 : bytes;
  prior_quantization_contract_digest_v1 : bytes;
  value_quantization_contract_digest_v1 : bytes;
  forward_determinism_build_digest_v1 : bytes;
  build_flag_violation_v1 : bool;
  record_to_vec : ModelGuidedSearchAuthorityV1 -> option bytes;
  sha256 : bytes -> bytes;
}.

(** [byte.is_ascii_digit() || (b'a'..=b'f').contains(&byte)] *)
Definition is_lower_hex_v1 (value : bytes) (length : nat) : bool :=
  bool_decide (List.length value = length)
  && forallb (fun byte => ((48 <=? byte) && (byte <=? 57)) || ((97 <=? byte) && (byte <=? 102))) value.

(** [if condition { return Err(new(kind)) }] *)
Definition reject_if (condition : bool) (kind : ModelGuidedSearchAuthorityErrorKind)
  : result ModelGuidedSearchAuthorityError () :=
  if condition then Err (MkAuthorityError kind) else Ok ().

Section Authority.
Context `{SearchBuild}.
Implicit Types r : ModelGuidedSearchAuthorityV1.

Definition validate r : result ModelGuidedSearchAuthorityError () :=
  let? record_bytes := ok_or (MkAuthorityError RecordTooLarge) (record_to_vec r) in
  let? _ := reject_if
    (bool_decide (MODEL_GUIDED_SEARCH_AUTHORITY_MAX_BYTES_V1 < length record_bytes)%nat) RecordTooLarge in
  let? _ := reject_if
    (bool_decide (schema r <> MODEL_GUIDED_SEARCH_AUTHORITY_SCHEMA_V1)
     || bool_decide (authority_kind r <> MODEL_GUIDED_SEARCH_AUTHORITY_KIND_V1)
     || bool_decide (authority_kind r = KERNEL_NATIVE_SEARCH_AUTHORITY_KIND_V1)
     || bool_decide (algorithm_identity r <> MODEL_GUIDED_SEARCH_ALGORITHM_V1)
     || bool_decide (algorithm_identity r = KERNEL_NATIVE_SEARCH_ALGORITHM_V1)) InvalidSchema in
  let? _ := reject_if
    (bool_decide (node_key_identity r <> KERNEL_NATIVE_SEARCH_NODE_KEY_V1)) InvalidNodeKeyIdentity in
  let? _ := reject_if
    (bool_decide (transition_budget r <> tier_transition_budget (tier r))
     || bool_decide (policy_step_depth_cap r <> KERNEL_NATIVE_SEARCH_DEPTH_CAP_V1)) InvalidSearchLadder in
  let? _ := reject_if
    (bool_decide (seed_domain r <> KERNEL_NATIVE_SEARCH_SEED_DOMAIN_V1)) InvalidSeedDomain in
  let valid_diagnostic :=
    bool_decide (private_diagnostic_identity r = DIAGNOSTIC_STATE_HASH_ALGORITHM)
    || bool_decide (private_diagnostic_identity r = DIAGNOSTIC_STATE_HASH_ALGORITHM_ENVIRONMENT_V2) in
  let? _ := reject_if
    (bool_decide (engine_commit r <> build_git_head)
     || negb (is_lower_hex_v1 (engine_commit r) 40)
     || bool_decide (card_db_hash r <> kernel_carddb_hash)
     || bool_decide (runtime_deck_catalog_sha256 r <> runtime_deck_catalog_file_sha256)
     || negb valid_diagnostic) InvalidProvenance in
  let? _ := reject_if
    (bool_decide (action_seed r ∉ MODEL_GUIDED_SEARCH_AUTHORIZED_SEED_BLOCKS_V1)) InvalidActionSeed in
  let? _ := reject_if
    (bool_decide (checkpoint_store_path_or_lineage_id r = [])
     || bool_decide (MODEL_GUIDED_SEARCH_IDENTITY_STRING_MAX_LEN_V1
                     < length (checkpoint_store_path_or_lineage_id r))%nat
     || negb (is_lower_hex_v1 (checkpoint_weight_bytes_sha256 r) 64)
     || bool_decide (MODEL_GUIDED_SEARCH_CHECKPOINT_GENERATION_MAX_V1 < checkpoint_generation r))
    InvalidCheckpointIdentity in
  let? _ := reject_if
    (bool_decide (net_architecture_identity r = [])
     || bool_decide (MODEL_GUIDED_SEARCH_IDENTITY_STRING_MAX_LEN_V1
                     < length (net_architecture_identity r))%nat
     || bool_decide (net_architecture_identity r = checkpoint_weight_bytes_sha256 r))
    InvalidNetArchitectureIdentity in
  let? _ := reject_if
    (bool_decide (puct_prior_quantization_contract_sha256 r
                  <> MODEL_GUIDED_SEARCH_PRIOR_QUANTIZATION_CONTRACT_SHA256_V1)
     || bool_decide (puct_prior_quantization_contract_sha256 r
                     <> lower_hex_digest_v1 prior_quantization_contract_digest_v1))
    InvalidPuctPriorQuantizationContractDigest in
  let? _ := reject_if
    (bool_decide (value_quantization_contract_sha256 r
                  <> MODEL_GUIDED_SEARCH_VALUE_QUANTIZATION_CONTRACT_SHA256_V1)
     || bool_decide (value_quantization_contract_sha256 r
                     <> lower_hex_digest_v1 value_quantization_contract_digest_v1))
    InvalidValueQuantizationContractDigest in
  let? _ := reject_if
    (bool_decide (forward_determinism_build_identity r
                  <> MODEL_GUIDED_SEARCH_FORWARD_DETERMINISM_BUILD_SHA256_V1)
     || bool_decide (forward_determinism_build_identity r
                     <> lower_hex_digest_v1 forward_determinism_build_digest_v1))
    InvalidForwardDeterminismBuildIdentity in
  reject_if build_flag_violation_v1 ForbiddenBuildFlagOverride.

(** The record [new] makes before it validates it. *)
Definition fresh_record (tier : KernelNativeSearchTierV1) (action_seed : Z)
    (private_diagnostic_identity checkpoint_store_path_or_lineage_id : bytes)
    (checkpoint_generation : Z) (checkpoint_weight_bytes_sha256 net_architecture_identity : bytes)
    (consumption_mode : ModelGuidedSearchConsumptionModeV1) : ModelGuidedSearchAuthorityV1 := {|
  schema := MODEL_GUIDED_SEARCH_AUTHORITY_SCHEMA_V1;
  authority_kind := MODEL_GUIDED_SEARCH_AUTHORITY_KIND_V1;
  algorithm_identity := MODEL_GUIDED_SEARCH_ALGORITHM_V1;
  node_key_identity := KERNEL_NATIVE_SEARCH_NODE_KEY_V1;
  tier := tier;
  transition_budget := tier_transition_budget tier;
  policy_step_depth_cap := KERNEL_NATIVE_SEARCH_DEPTH_CAP_V1;
  seed_domain := KERNEL_NATIVE_SEARCH_SEED_DOMAIN_V1;
  engine_commit := build_git_head;
  card_db_hash := kernel_carddb_hash;
  runtime_deck_catalog_sha256 := runtime_deck_catalog_file_sha256;
  private_diagnostic_identity := private_diagnostic_identity;
  action_seed := action_seed;
  checkpoint_store_path_or_lineage_id := checkpoint_store_path_or_lineage_id;
  checkpoint_generation := checkpoint_generation;
  checkpoint_weight_bytes_sha256 := checkpoint_weight_bytes_sha256;
  net_architecture_identity := net_architecture_identity;
  puct_prior_quantization_contract_sha256 := MODEL_GUIDED_SEARCH_PRIOR_QUANTIZATION_CONTRACT_SHA256_V1;
  value_quantization_contract_sha256 := MODEL_GUIDED_SEARCH_VALUE_QUANTIZATION_CONTRACT_SHA256_V1;
  forward_determinism_build_identity := MODEL_GUIDED_SEARCH_FORWARD_DETERMINISM_BUILD_SHA256_V1;
  consumption_mode := consumption_mode;
|}.

Definition new tier action_seed private_diagnostic_identity checkpoint_store_path_or_lineage_id
    checkpoint_generation checkpoint_weight_bytes_sha256 net_architecture_identity consumption_mode
  : result ModelGuidedSearchAuthorityError ModelGuidedSearchAuthorityV1 :=
  let record := fresh_record tier action_seed private_diagnostic_identity
    checkpoint_store_path_or_lineage_id checkpoint_generation checkpoint_weight_bytes_sha256
    net_architecture_identity consumption_mode in
  let? _ := validate record in
  Ok record.

Definition digest r : result ModelGuidedSearchAuthorityError bytes :=
  let? _ := validate r in
  let? bytes := ok_or (MkAuthorityError RecordTooLarge) (record_to_vec r) in
  Ok (sha256 bytes).

Definition matches_fresh_reconstruction_v1 r : bool :=
  match new (tier r) (action_seed r) (private_diagnostic_identity r)
            (checkpoint_store_path_or_lineage_id r) (checkpoint_generation r)
            (checkpoint_weight_bytes_sha256 r) (net_architecture_identity r) (consumption_mode r) with
  | Err _ => false
  | Ok reconstructed =>
      match record_to_vec reconstructed, record_to_vec r with
      | Some a, Some b => bool_decide (sha256 a = sha256 b)
      | _, _ => false
      end
  end.

(* ------------------------------------------------------------------ *)
(** ** What a valid record is *)

(** The record [new] makes from the inputs it takes from [r]. *)
Definition refreshed r : ModelGuidedSearchAuthorityV1 :=
  fresh_record (tier r) (action_seed r) (private_diagnostic_identity r)
    (checkpoint_store_path_or_lineage_id r) (checkpoint_generation r)
    (checkpoint_weight_bytes_sha256 r) (net_architecture_identity r) (consumption_mode r).

(** What the build must be. *)
Definition valid_build : Prop :=
  is_lower_hex_v1 build_git_head 40 = true
  /\ MODEL_GUIDED_SEARCH_PRIOR_QUANTIZATION_CONTRACT_SHA256_V1
     = lower_hex_digest_v1 prior_quantization_contract_digest_v1
  /\ MODEL_GUIDED_SEARCH_VALUE_QUANTIZATION_CONTRACT_SHA256_V1
     = lower_hex_digest_v1 value_quantization_contract_digest_v1
  /\ MODEL_GUIDED_SEARCH_FORWARD_DETERMINISM_BUILD_SHA256_V1
     = lower_hex_digest_v1 forward_determinism_build_digest_v1
  /\ build_flag_violation_v1 = false.

(** What the caller's inputs must be. *)
Definition valid_inputs r : Prop :=
  private_diagnostic_identity r
    ∈ [DIAGNOSTIC_STATE_HASH_ALGORITHM; DIAGNOSTIC_STATE_HASH_ALGORITHM_ENVIRONMENT_V2]
  /\ action_seed r ∈ MODEL_GUIDED_SEARCH_AUTHORIZED_SEED_BLOCKS_V1
  /\ (0 < length (checkpoint_store_path_or_lineage_id r) <= MODEL_GUIDED_SEARCH_IDENTITY_STRING_MAX_LEN_V1)%nat
  /\ is_lower_hex_v1 (checkpoint_weight_bytes_sha256 r) 64 = true
  /\ checkpoint_generation r <= MODEL_GUIDED_SEARCH_CHECKPOINT_GENERATION_MAX_V1
  /\ (0 < length (net_architecture_identity r) <= MODEL_GUIDED_SEARCH_IDENTITY_STRING_MAX_LEN_V1)%nat
  /\ net_architecture_identity r <> checkpoint_weight_bytes_sha256 r.

Definition encodes_small r : Prop :=
  exists bytes, record_to_vec r = Some bytes /\ (length bytes <= MODEL_GUIDED_SEARCH_AUTHORITY_MAX_BYTES_V1)%nat.

Lemma reject_if_ok {A} b k (m : result ModelGuidedSearchAuthorityError A) v :
  result_bind (reject_if b k) (fun _ => m) = Ok v <-> b = false /\ m = Ok v.
Proof. destruct b; cbn; [split; [done|by intros [? _]]|tauto]. Qed.

Lemma nonempty_length {A} (l : list A) : l <> [] <-> (0 < length l)%nat.
Proof. destruct l; cbn; [split; [done|lia]|split; [lia|done]]. Qed.

Lemma refreshed_fields r : r = refreshed r <->
  schema r = MODEL_GUIDED_SEARCH_AUTHORITY_SCHEMA_V1
  /\ authority_kind r = MODEL_GUIDED_SEARCH_AUTHORITY_KIND_V1
  /\ algorithm_identity r = MODEL_GUIDED_SEARCH_ALGORITHM_V1
  /\ node_key_identity r = KERNEL_NATIVE_SEARCH_NODE_KEY_V1
  /\ transition_budget r = tier_transition_budget (tier r)
  /\ policy_step_depth_cap r = KERNEL_NATIVE_SEARCH_DEPTH_CAP_V1
  /\ seed_domain r = KERNEL_NATIVE_SEARCH_SEED_DOMAIN_V1
  /\ engine_commit r = build_git_head /\ card_db_hash r = kernel_carddb_hash
  /\ runtime_deck_catalog_sha256 r = runtime_deck_catalog_file_sha256
  /\ puct_prior_quantization_contract_sha256 r = MODEL_GUIDED_SEARCH_PRIOR_QUANTIZATION_CONTRACT_SHA256_V1
  /\ value_quantization_contract_sha256 r = MODEL_GUIDED_SEARCH_VALUE_QUANTIZATION_CONTRACT_SHA256_V1
  /\ forward_determinism_build_identity r = MODEL_GUIDED_SEARCH_FORWARD_DETERMINISM_BUILD_SHA256_V1.
Proof.
  split.
  - intros E. rewrite E. by split_and!.
  - destruct r. unfold refreshed, fresh_record. cbn. intros H1. by destruct_and! H1; subst.
Qed.

Lemma distinct_identities :
  MODEL_GUIDED_SEARCH_AUTHORITY_KIND_V1 <> KERNEL_NATIVE_SEARCH_AUTHORITY_KIND_V1
  /\ MODEL_GUIDED_SEARCH_ALGORITHM_V1 <> KERNEL_NATIVE_SEARCH_ALGORITHM_V1.
Proof. by split; vm_compute. Qed.

Lemma authority_valid r : validate r = Ok () <->
  encodes_small r /\ valid_build /\ valid_inputs r /\ r = refreshed r.
Proof.
  unfold validate, encodes_small. destruct (record_to_vec r) as [b|]; cbn [ok_or result_bind].
  2: { split; [done|]. intros ((? & [=] & _) & _). }
  rewrite !reject_if_ok.
  assert (forall c k, reject_if c k = Ok () <-> c = false) as -> by (intros []; done).
  rewrite !orb_false_iff, !bool_decide_eq_false, !negb_false_iff, !orb_true_iff, !bool_decide_eq_true.
  assert (forall x y : bytes, ~ x <> y <-> x = y) as dne by (intros; destruct (decide (x = y)); tauto).
  assert (forall x y : Z, ~ x <> y <-> x = y) as dnz by lia.
  rewrite !dne, !dnz, refreshed_fields. unfold valid_build, valid_inputs.
  rewrite elem_of_cons, list_elem_of_singleton, !nonempty_length.
  assert (forall b, ~ ~ action_seed r ∈ b <-> action_seed r ∈ b) as ->
    by (intros l; destruct (decide (action_seed r ∈ l)); tauto).
  destruct distinct_identities as [D1 D2]. split.
  - intros Hv. destruct_and! Hv. split; [exists b; split; [done|lia]|].
    split; [split_and!; congruence|]. split; [split_and!; (done || lia)|]. by split_and!.
  - intros ((b' & [= <-] & Hb) & Hbuild & Hin & Hr).
    destruct_and! Hbuild. destruct_and! Hin. destruct_and! Hr.
    split_and!; (congruence || lia || done).
Qed.

Lemma validate_refreshed r : validate r = Ok () -> validate (refreshed r) = Ok () /\ refreshed r = r.
Proof. intros Hv. pose proof Hv as E. apply authority_valid in E as (_ & _ & _ & <-). done. Qed.

(** A record passes validation exactly when it is, field for field, what [new]
    makes of its own inputs in this build, the inputs are admissible (a registered
    seed block among them), the build's live contract digests are the pinned ones
    and the record is small. Validation and the independent reconstruction agree:
    a valid record matches its reconstruction, and a record that matches is valid
    unless two different encodings have the same hash. A valid record carries the
    budget of its tier and depth cap 64. *)
Theorem validation_agrees_with_reconstruction r :
  (validate r = Ok () <-> encodes_small r /\ valid_build /\ valid_inputs r /\ r = refreshed r)
  /\ (validate r = Ok () -> matches_fresh_reconstruction_v1 r = true
        /\ 512 <= transition_budget r <= 32768 /\ policy_step_depth_cap r = 64)
  /\ ((forall a b, is_Some (record_to_vec a) -> record_to_vec a = record_to_vec b -> a = b) ->
      matches_fresh_reconstruction_v1 r = true ->
      validate r = Ok () \/ exists x y, x <> y /\ sha256 x = sha256 y).
Proof.
  split; [apply authority_valid|]. split.
  - intros Hv. destruct (validate_refreshed r Hv) as [Hf E].
    apply authority_valid in Hv as ((b & Eb & _) & _ & _ & Er).
    unfold matches_fresh_reconstruction_v1, new. fold (refreshed r). rewrite Hf. cbn [result_bind].
    rewrite E, Eb. split; [by apply bool_decide_eq_true|].
    apply refreshed_fields in Er as (_ & _ & _ & _ & -> & -> & _). by destruct (tier r).
  - intros Hinj. unfold matches_fresh_reconstruction_v1, new. fold (refreshed r).
    destruct (validate (refreshed r)) as [[]|e] eqn:Hf; cbn [result_bind]; [|done].
    destruct (record_to_vec (refreshed r)) as [a|] eqn:Ea; [|done].
    destruct (record_to_vec r) as [b|] eqn:Eb; [|done]. intros Hh%bool_decide_eq_true.
    destruct (decide (a = b)) as [->|Hne]; [left|right; by exists a, b].
    rewrite <- (Hinj (refreshed r) r); [done|by rewrite Ea|by rewrite Ea, Eb].
Qed.
End Authority.

(** A build whose contract digests are the pinned ones, and a record of it that is
    the only one its serializer accepts. *)
Section Sample.
Definition unhex_digit (c : Z) : Z := if decide (c < 58) then c - 48 else c - 87.
Fixpoint unhex (text : bytes) : bytes :=
  match text with
  | a :: b :: text => (unhex_digit a * 16 + unhex_digit b) :: unhex text
  | _ => []
  end.

Definition sample_commit : bytes := replicate 40 97.

Definition sample_record : ModelGuidedSearchAuthorityV1 := {|
  schema := MODEL_GUIDED_SEARCH_AUTHORITY_SCHEMA_V1;
  authority_kind := MODEL_GUIDED_SEARCH_AUTHORITY_KIND_V1;
  algorithm_identity := MODEL_GUIDED_SEARCH_ALGORITHM_V1;
  node_key_identity := KERNEL_NATIVE_SEARCH_NODE_KEY_V1;
  tier := T2048;
  transition_budget := 2048;
  policy_step_depth_cap := 64;
  seed_domain := KERNEL_NATIVE_SEARCH_SEED_DOMAIN_V1;
  engine_commit := sample_commit;
  card_db_hash := 7;
  runtime_deck_catalog_sha256 := [];
  private_diagnostic_identity := DIAGNOSTIC_STATE_HASH_ALGORITHM;
  action_seed := 3101001;
  checkpoint_store_path_or_lineage_id := bytes_of "lineage";
  checkpoint_generation := 0;
  checkpoint_weight_bytes_sha256 := replicate 64 48;
  net_architecture_identity := bytes_of "net8";
  puct_prior_quantization_contract_sha256 := MODEL_GUIDED_SEARCH_PRIOR_QUANTIZATION_CONTRACT_SHA256_V1;
  value_quantization_contract_sha256 := MODEL_GUIDED_SEARCH_VALUE_QUANTIZATION_CONTRACT_SHA256_V1;
  forward_determinism_build_identity := MODEL_GUIDED_SEARCH_FORWARD_DETERMINISM_BUILD_SHA256_V1;
  consumption_mode := SearchAtInference;
|}.

Definition sample_build : SearchBuild := {|
  build_git_head := sample_commit;
  kernel_carddb_hash := 7;
  runtime_deck_catalog_file_sha256 := [];
  prior_quantization_contract_digest_v1 := unhex MODEL_GUIDED_SEARCH_PRIOR_QUANTIZATION_CONTRACT_SHA256_V1;
  value_quantization_contract_digest_v1 := unhex MODEL_GUIDED_SEARCH_VALUE_QUANTIZATION_CONTRACT_SHA256_V1;
  forward_determinism_build_digest_v1 := unhex MODEL_GUIDED_SEARCH_FORWARD_DETERMINISM_BUILD_SHA256_V1;
  build_flag_violation_v1 := false;
  record_to_vec r := if decide (r = sample_record) then Some [123; 125] else None;
  sha256 b := b;
|}.
End Sample.

Lemma validation_agrees_with_reconstruction_witness :
  validate (H := sample_build) sample_record = Ok ()
  /\ matches_fresh_reconstruction_v1 (H := sample_build) sample_record = true
  /\ (forall a b, is_Some (record_to_vec (SearchBuild := sample_build) a) ->
       record_to_vec (SearchBuild := sample_build) a = record_to_vec (SearchBuild := sample_build) b -> a = b).
Proof.
  assert (validate (H := sample_build) sample_record = Ok ()) as Hv by (vm_compute; reflexivity).
  destruct (validation_agrees_with_reconstruction (H := sample_build) sample_record) as (_ & Hm & _).
  destruct (Hm Hv) as (Hm' & _).
  split; [exact Hv|]. split; [exact Hm'|]. intros a b Ha. cbn in *.
  destruct (decide (a = sample_record)) as [->|]; [|by destruct Ha].
  by destruct (decide (b = sample_record)) as [->|].
Defined.
