(* ===== verification/SearchTree.v ===== *)
(** * The model-guided search tree
    (src/mtg-kernel/src/model_guided_search_core_v1.rs, with the shared pieces of
    kernel_native_search_opponent_v1.rs)

    One decision is searched by simulations over redeterminized copies of the
    session, each walking the tree, growing it by one node at most, and backing
    the leaf's value up. The session and the leaf evaluator are interfaces; an
    index out of range is a panic; a call that fails loses its tree, as the
    [?] of the source does. *)

From stdpp Require Import strings.
From S2P Require Import Prelude Ids Bytes Randomness FastSampler Float32 SearchMath SearchAuthority InferenceCache.
Import PlayerIds.

Local Open Scope Z_scope.

(** ** Data of rl.rs and rl_session.rs *)

Inductive PlayerSeatV1 := SeatP0 | SeatP1.
Inductive FastActorDecisionKindV1 := Surface | AttackerInclusion | BlockerInclusion.

Record FastActorDecisionV1 := MkDecision {
  episode_id : Z;
  step : Z;
  environment_revision : Z;
  physical_decision_id : Z;
  substep_index : Z;
  substep_count : Z;
  acting_player : PlayerSeatV1;
  decision_kind : FastActorDecisionKindV1;
  legal_action_count : Z;
}.

Inductive TerminalOutcomeV1 := P0Win | P1Win | DrawGame | TruncatedGame | HaltedGame.
Inductive TerminalClassificationV1 := Natural | Truncated | Halted.

Inductive TerminalSafeCodeV2 := NaturalGameOver | DecisionCap | FailClosed.

Record RlSessionTerminalV1 := MkTerminal {
  terminal_schema_version : Z;
  deck_ids : bytes * bytes;
  deck_hashes : Z * Z;
  terminal_episode_id : Z;
  terminal_outcome : TerminalOutcomeV1;
  terminal_classification : TerminalClassificationV1;
  terminal_code : TerminalSafeCodeV2;
  winner : option PlayerSeatV1;
  terminal_reward : Z * Z;
  terminal_reason : bytes;
  policy_step_count : Z;
  physical_decision_count : Z;
}.

Inductive FastActorResponseV1 :=
  | Decision (decision : FastActorDecisionV1)
  | Terminal (terminal : RlSessionTerminalV1).

#[export] Instance PlayerSeatV1_eq_dec : EqDecision PlayerSeatV1.
Proof. solve_decision. Defined.
#[export] Instance FastActorDecisionKindV1_eq_dec : EqDecision FastActorDecisionKindV1.
Proof. solve_decision. Defined.
#[export] Instance FastActorDecisionV1_eq_dec : EqDecision FastActorDecisionV1.
Proof. solve_decision. Defined.
#[export] Instance TerminalOutcomeV1_eq_dec : EqDecision TerminalOutcomeV1.
Proof. solve_decision. Defined.
#[export] Instance TerminalClassificationV1_eq_dec : EqDecision TerminalClassificationV1.
Proof. solve_decision. Defined.
#[export] Instance TerminalSafeCodeV2_eq_dec : EqDecision TerminalSafeCodeV2.
Proof. solve_decision. Defined.
#[export] Instance RlSessionTerminalV1_eq_dec : EqDecision RlSessionTerminalV1.
Proof. solve_decision. Defined.
#[export] Instance FastActorResponseV1_eq_dec : EqDecision FastActorResponseV1.
Proof. solve_decision. Defined.

Definition player_id_v1 (player : PlayerSeatV1) : PlayerId :=
  match player with SeatP0 => P0 | SeatP1 => P1 end.

(** ** Errors *)

Inductive KernelNativeSearchErrorV1 :=
  | InvalidAuthority
  | InvalidDecision
  | UnsupportedFlatActionContract
  | BudgetSmallerThanRootActionCount (budget root_actions : Z)
  | HiddenStateContract
  | DeterminizationReferenceConflict
  | StaleOrTamperedBinding
  | NonNaturalTerminal
  | CorruptTree.

Inductive ModelGuidedSearchCoreErrorV1 :=
  | Tree (error : KernelNativeSearchErrorV1)
  | Authority (error : ModelGuidedSearchAuthorityError)
  | Prior (error : ModelGuidedSearchPriorQuantizationErrorV1)
  | Value (error : ModelGuidedSearchValueQuantizationErrorV1)
  | Forward (text : string)
  | EvaluatorContract
  | NoLiveDecisionToEncode
  | Encode
  | Tensorize (text : string).

(** What a call of the search answers: a value, an error, or a panic. *)
Abbreviation answer A := (result (Fault ModelGuidedSearchCoreErrorV1) A).

Definition refuse {A} (e : ModelGuidedSearchCoreErrorV1) : answer A := Err (Reject e).

(** [?] through the [From] conversions. *)
Definition lift_error {E A} (wrap : E -> ModelGuidedSearchCoreErrorV1) (r : result E A) : answer A :=
  match r with Ok a => Ok a | Err e => refuse (wrap e) end.
Definition or_corrupt {A} (o : option A) : answer A := ok_or (Reject (Tree CorruptTree)) o.

(** [values[index]] *)
Definition at_index {A} (values : list A) (index : nat) : answer A := ok_or Panic (values !! index).

(** ** The evaluator seam *)

Inductive ModelGuidedSearchLeafSiteV1 := RootPrior | NewlyExpandedNode | RevisitedDepthCapLeaf.

Record ModelGuidedSearchLeafForwardV1 := MkForward {
  legal_action_weights : list Z;
  v_raw : Z;
}.

(** ** Statistics, nodes, tree *)

Record SearchActionStatV1 := MkStat {
  stat_visits : Z;
  value_sum : Z;
  child_nodes : list nat;
}.

Definition mean (stat : SearchActionStatV1) : Z :=
  if decide (stat_visits stat = 0) then 0 else Z.quot (value_sum stat) (stat_visits stat).

Record ModelGuidedSearchNodeV1 := MkNode {
  node_key : bytes;
  actor : PlayerId;
  visits : Z;
  actions : list SearchActionStatV1;
  prior : list Z;
}.

(** [ModelGuidedSearchTreeV1]: its one field, the vector of nodes. *)
Abbreviation ModelGuidedSearchTreeV1 := (list ModelGuidedSearchNodeV1).

Definition new_node (key : bytes) (actor : PlayerId) (prior : list Z) : answer ModelGuidedSearchNodeV1 :=
  if decide (prior = []) then refuse (Tree CorruptTree)
  else Ok (MkNode key actor 0 (replicate (length prior) (MkStat 0 0 [])) prior).

Definition new_tree (root_key : bytes) (root_actor : PlayerId) (root_prior : list Z)
  : answer ModelGuidedSearchTreeV1 :=
  let? node := new_node root_key root_actor root_prior in Ok [node].

Definition find_node (tree : ModelGuidedSearchTreeV1) (key : bytes) : option nat :=
  fst <$> list_find (fun node => node_key node = key) tree.

(** ** Selection *)

Definition saturate_i64 (z : Z) : Z := clamp i64_min i64_max z.

(** [for &index in &prior_expansion_order_v1(&node.prior)] *)
Fixpoint first_unvisited (actions : list SearchActionStatV1) (order : list nat) : answer (option nat) :=
  match order with
  | [] => Ok None
  | index :: order =>
      let? action := at_index actions index in
      if decide (stat_visits action = 0) then Ok (Some index) else first_unvisited actions order
  end.

(** The loop over [node.actions.iter().enumerate()]. *)
Fixpoint best_action (node_visits : Z) (prior : list Z) (maximizing : bool)
    (index : nat) (actions : list SearchActionStatV1) (best_index : nat) (best_score : Z) : answer nat :=
  match actions with
  | [] => Ok best_index
  | action :: actions =>
      let bonus := integer_ucb_bonus_v1 node_visits (stat_visits action) in
      let? p := at_index prior index in
      let? bonus_puct := lift_error Prior (puct_bonus_v1 bonus p) in
      let? bonus_puct := or_corrupt (checked_unsigned i64_max bonus_puct) in
      let score :=
        if maximizing then saturate_i64 (mean action + bonus_puct)
        else saturate_i64 (mean action - bonus_puct) in
      let better := if maximizing then best_score <? score else score <? best_score in
      if better then best_action node_visits prior maximizing (S index) actions index score
      else best_action node_visits prior maximizing (S index) actions best_index best_score
  end.

Definition select_tree_action_puct_v1 (node : ModelGuidedSearchNodeV1) (root_player : PlayerId)
  : answer nat :=
  let? unvisited := first_unvisited (actions node) (prior_expansion_order_v1 (prior node)) in
  match unvisited with
  | Some index => Ok index
  | None =>
      let maximizing := bool_decide (actor node = root_player) in
      best_action (visits node) (prior node) maximizing 0 (actions node) 0
                  (if maximizing then i64_min else i64_max)
  end.

(** The loop of [select_final_root_action_v1]: index, visits and mean of the best
    so far. *)
Fixpoint final_best (index : nat) (actions : list SearchActionStatV1) (best : option (nat * Z * Z))
  : option (nat * Z * Z) :=
  match actions with
  | [] => best
  | action :: actions =>
      let candidate := (index, stat_visits action, mean action) in
      let better :=
        match best with
        | None => true
        | Some (_, best_visits, best_mean) =>
            (best_visits <? stat_visits action)
            || ((stat_visits action =? best_visits) && (best_mean <? mean action))
        end in
      final_best (S index) actions (if better then Some candidate else best)
  end.

Definition select_final_root_action_v1 (actions : list SearchActionStatV1)
  : result KernelNativeSearchErrorV1 Z :=
  let? best := ok_or CorruptTree (final_best 0 actions None) in
  ok_or CorruptTree (checked_unsigned u32_max (Z.of_nat (best.1.1))).

(** ** The census of leaves *)

Record ModelGuidedSearchLeafCensusV1 := MkCensus {
  natural_terminal_leaves : Z;
  truncated_terminal_leaves : Z;
  newly_expanded_leaves : Z;
  depth_cap_leaves : Z;
  max_simulation_depth : Z;
  summed_simulation_depth : Z;
}.

Definition default_census : ModelGuidedSearchLeafCensusV1 := MkCensus 0 0 0 0 0 0.

Definition saturating_succ_u32 (z : Z) : Z := Z.min u32_max (z + 1).

Definition count_natural (c : ModelGuidedSearchLeafCensusV1) : ModelGuidedSearchLeafCensusV1 :=
  MkCensus (saturating_succ_u32 (natural_terminal_leaves c)) (truncated_terminal_leaves c)
    (newly_expanded_leaves c) (depth_cap_leaves c) (max_simulation_depth c) (summed_simulation_depth c).
Definition count_truncated (c : ModelGuidedSearchLeafCensusV1) : ModelGuidedSearchLeafCensusV1 :=
  MkCensus (natural_terminal_leaves c) (saturating_succ_u32 (truncated_terminal_leaves c))
    (newly_expanded_leaves c) (depth_cap_leaves c) (max_simulation_depth c) (summed_simulation_depth c).
Definition count_expanded (c : ModelGuidedSearchLeafCensusV1) : ModelGuidedSearchLeafCensusV1 :=
  MkCensus (natural_terminal_leaves c) (truncated_terminal_leaves c)
    (saturating_succ_u32 (newly_expanded_leaves c)) (depth_cap_leaves c)
    (max_simulation_depth c) (summed_simulation_depth c).
Definition count_depth_cap (c : ModelGuidedSearchLeafCensusV1) : ModelGuidedSearchLeafCensusV1 :=
  MkCensus (natural_terminal_leaves c) (truncated_terminal_leaves c) (newly_expanded_leaves c)
    (saturating_succ_u32 (depth_cap_leaves c)) (max_simulation_depth c) (summed_simulation_depth c).
Definition count_depth (depth : Z) (c : ModelGuidedSearchLeafCensusV1) : ModelGuidedSearchLeafCensusV1 :=
  MkCensus (natural_terminal_leaves c) (truncated_terminal_leaves c) (newly_expanded_leaves c)
    (depth_cap_leaves c) (Z.max (max_simulation_depth c) depth)
    (Z.min u64_max (summed_simulation_depth c + depth)).

Definition natural_terminal_value_v1 (outcome : TerminalOutcomeV1) (root_player : PlayerId)
  : result KernelNativeSearchErrorV1 Z :=
  match outcome with
  | P0Win => if decide (root_player = P0) then Ok 10000 else Ok (-10000)
  | P1Win => if decide (root_player = P1) then Ok 10000 else Ok (-10000)
  | DrawGame => Ok 0
  | TruncatedGame | HaltedGame => Err NonNaturalTerminal
  end.

(** [SHA-256] of the domain, the digest, the decision and the simulation. *)
Definition derive_simulation_seed_v1 (sha256 : bytes -> bytes) (authority_digest : bytes)
    (decision : FastActorDecisionV1) (simulation_ordinal : Z) (player : PlayerId) : Z :=
  let message :=
    KERNEL_NATIVE_SEARCH_SEED_DOMAIN_V1 ++ authority_digest
    ++ to_le_bytes 8 (episode_id decision) ++ to_le_bytes 8 (physical_decision_id decision)
    ++ to_le_bytes 4 (substep_index decision) ++ to_le_bytes 8 simulation_ordinal
    ++ [player_num player] in
  from_le_bytes (take 8 (sha256 message)).

(** ** The interfaces *)

(** What the search asks of a session; [envelope_to_vec] is serde_json's rendering
    of the node-key envelope. *)
Class SearchSession (Session : Type) := {
  ObservationV5 : Type;
  ActionSemantics : Type;
  Binding : Type;
  current_response : Session -> FastActorResponseV1;
  flat_policy_observation_v2 : Session -> FastActorDecisionV1 -> result () ObservationV5;
  diagnostic_current_action_semantics : Session -> option ActionSemantics;
  native_full_trajectory_current_binding_v2 : Session -> FastActorDecisionV1 -> result () Binding;
  consume_current_flat_action_slice_v2 : Session -> Binding -> Z -> result () (Session * FastActorResponseV1);
  kernel_search_redeterminized_clone_v1 : Session -> Z -> result KernelNativeSearchErrorV1 Session;
  privileged_core_environment_hash : Session -> Z;
  kernel_search_private_diagnostic_identity_v1 : Session -> bytes;
  envelope_to_vec : ObservationV5 -> ActionSemantics -> Z -> option bytes;
}.

(** [ModelGuidedSearchLeafEvaluatorV1] *)
Class LeafEvaluator (Session : Type) := {
  evaluate_leaf_v1 : Session -> bytes -> Z -> ModelGuidedSearchLeafSiteV1
    -> result ModelGuidedSearchCoreErrorV1 ModelGuidedSearchLeafForwardV1;
}.

(** [MockLeafEvaluatorV1], the evaluator of the module's tests, without its call
    counters: everything follows from the key. *)
Definition thousandths (units : Z) : Z := f32_div (f32_of_int units) (f32_of_int 1000).

Fixpoint mock_weights (count : nat) (rng : SplitMix64) : list Z :=
  match count with
  | O => []
  | S count =>
      let (rng, u) := next_u64 rng in
      let w_units := u mod 1000 + 1 in
      thousandths w_units :: mock_weights count rng
  end.

Definition mock_evaluate_leaf_v1 (leaf_key : bytes) (legal_action_count : Z)
  : result ModelGuidedSearchCoreErrorV1 ModelGuidedSearchLeafForwardV1 :=
  if decide (legal_action_count = 0) then Err EvaluatorContract else
  let seed := from_le_bytes (take 8 leaf_key) in
  let rng := SplitMix64_seed seed in
  let (rng, u) := next_u64 rng in
  let v_units := u mod 2001 - 1000 in
  Ok (MkForward (mock_weights (Z.to_nat legal_action_count) rng) (thousandths v_units)).

#[export] Instance MockLeafEvaluatorV1 {Session} : LeafEvaluator Session | 100 :=
  {| evaluate_leaf_v1 := fun _ leaf_key count _ => mock_evaluate_leaf_v1 leaf_key count |}.

(** ** The search *)

Section Search.
Context {Session : Type} `{!SearchSession Session} `{!LeafEvaluator Session} `{!SearchBuild}.

Definition search_node_key_v1 (session : Session) (decision : FastActorDecisionV1) (remaining_depth : nat)
  : answer bytes :=
  let? observation := lift_error (fun _ => Tree StaleOrTamperedBinding)
                                 (flat_policy_observation_v2 session decision) in
  let? semantics := ok_or (Reject (Tree InvalidDecision)) (diagnostic_current_action_semantics session) in
  let? bytes := or_corrupt (envelope_to_vec observation semantics (Z.of_nat remaining_depth)) in
  Ok (sha256 bytes).

Definition quantize_value (value_domain : ModelGuidedSearchValueHeadDomainV1) (v : Z) (is_root : bool)
  : answer Z := lift_error Value (quantize_value_v1 value_domain v is_root).

Definition dispatch_revisited_leaf_value_v1 (value_domain : ModelGuidedSearchValueHeadDomainV1)
    (session : Session) (leaf_key : bytes) (leaf_action_count : Z) (leaf_acting_player_is_root : bool)
  : answer Z :=
  let? forward := lift_error id
    (evaluate_leaf_v1 session leaf_key leaf_action_count RevisitedDepthCapLeaf) in
  quantize_value value_domain (v_raw forward) leaf_acting_player_is_root.

Definition terminal_value_puct_v1 (value_domain : ModelGuidedSearchValueHeadDomainV1)
    (session : Session) (terminal : RlSessionTerminalV1) (root_player : PlayerId)
    (census : ModelGuidedSearchLeafCensusV1) : answer (Z * ModelGuidedSearchLeafCensusV1) :=
  match terminal_classification terminal with
  | Natural =>
      let census := count_natural census in
      let? value := lift_error Tree (natural_terminal_value_v1 (terminal_outcome terminal) root_player) in
      Ok (value, census)
  | Truncated =>
      let census := count_truncated census in
      let leaf_key := to_le_bytes 8 (privileged_core_environment_hash session) ++ replicate 24 0 in
      let? value := dispatch_revisited_leaf_value_v1 value_domain session leaf_key 1 true in
      Ok (value, census)
  | Halted => refuse (Tree NonNaturalTerminal)
  end.

(** The variables of one simulation. *)
Record Walk := MkWalk {
  walk_tree : ModelGuidedSearchTreeV1;
  walk_session : Session;
  walk_transitions : Z;
  walk_census : ModelGuidedSearchLeafCensusV1;
  node_path : list nat;
  edge_path : list (nat * nat);
}.

(** [tree.nodes[node_index].actions[action_index].child_nodes.push(child)] *)
Definition push_child (tree : ModelGuidedSearchTreeV1) (node_index action_index child : nat)
  : ModelGuidedSearchTreeV1 :=
  alter (fun node => MkNode (node_key node) (actor node) (visits node)
           (alter (fun a => MkStat (stat_visits a) (value_sum a) (child_nodes a ++ [child]))
                  action_index (actions node)) (prior node)) node_index tree.

(** The condition before it: the child is not linked yet. *)
Definition link_child (tree : ModelGuidedSearchTreeV1) (node_index action_index child : nat)
  : answer ModelGuidedSearchTreeV1 :=
  let? node := at_index tree node_index in
  let? action := at_index (actions node) action_index in
  if decide (child ∈ child_nodes action) then Ok tree
  else Ok (push_child tree node_index action_index child).

Definition choose_action (node : ModelGuidedSearchNodeV1) (node_index : nat) (root_player : PlayerId)
    (forced_root_action : option Z) : answer nat :=
  if decide (node_index = 0%nat) then
    match forced_root_action with
    | Some forced => Ok (Z.to_nat forced)
    | None => select_tree_action_puct_v1 node root_player
    end
  else select_tree_action_puct_v1 node root_player.

(** Site 2: the new successor. *)
Definition expand (value_domain : ModelGuidedSearchValueHeadDomainV1) (root_player : PlayerId)
    (w : Walk) (node_index action_index : nat) (next_key : bytes) (next_decision : FastActorDecisionV1)
  : answer (Walk * Z) :=
  let next_actor := player_id_v1 (acting_player next_decision) in
  let? forward := lift_error id
    (evaluate_leaf_v1 (walk_session w) next_key (legal_action_count next_decision) NewlyExpandedNode) in
  if decide (Z.of_nat (length (legal_action_weights forward)) <> legal_action_count next_decision) then
    refuse EvaluatorContract
  else
    let census := count_expanded (walk_census w) in
    let? prior := lift_error Prior (quantize_prior_v1 (legal_action_weights forward)) in
    let created := length (walk_tree w) in
    let? node := new_node next_key next_actor prior in
    let tree := walk_tree w ++ [node] in
    let? parent := at_index tree node_index in
    let? _ := at_index (actions parent) action_index in
    let tree := push_child tree node_index action_index created in
    let? value := quantize_value value_domain (v_raw forward) (bool_decide (next_actor = root_player)) in
    Ok (MkWalk tree (walk_session w) (walk_transitions w) census (node_path w ++ [created]) (edge_path w),
        value).

(** The leaf at a node of the tree: the budget or the depth is used up, or a forced
    simulation has made its transition. *)
Definition leaf_at_node (value_domain : ModelGuidedSearchValueHeadDomainV1) (root_player : PlayerId)
    (w : Walk) (node : ModelGuidedSearchNodeV1) : answer (Walk * Z) :=
  let census := count_depth_cap (walk_census w) in
  let? value := dispatch_revisited_leaf_value_v1 value_domain (walk_session w) (node_key node)
                  (wrap_u32 (Z.of_nat (length (actions node)))) (bool_decide (actor node = root_player)) in
  Ok (MkWalk (walk_tree w) (walk_session w) (walk_transitions w) census (node_path w) (edge_path w), value).

(** The transition: bind, consume, count. *)
Definition take_action (session : Session) (decision : FastActorDecisionV1) (action_index : nat)
    (transitions_used : Z) : answer (Session * FastActorResponseV1 * Z) :=
  let? binding := lift_error (fun _ => Tree StaleOrTamperedBinding)
    (native_full_trajectory_current_binding_v2 session decision) in
  let? stepped := lift_error (fun _ => Tree StaleOrTamperedBinding)
    (consume_current_flat_action_slice_v2 session binding (wrap_u32 (Z.of_nat action_index))) in
  let? transitions := or_corrupt (checked_unsigned u32_max (transitions_used + 1)) in
  Ok (stepped.1, stepped.2, transitions).

(** A turn of the loop ends the walk with a value or goes on at a node. *)
Inductive Flow := Break (w : Walk) (value : Z) | Continue (next_index : nat) (w : Walk).

Definition break (r : answer (Walk * Z)) : answer Flow :=
  let? valued := r in Ok (Break valued.1 valued.2).

(** [match response]; [w] has the session, the count and the edges after the
    transition. *)
Definition arrive (value_domain : ModelGuidedSearchValueHeadDomainV1) (root_player : PlayerId)
    (transition_budget : Z) (forced_root_action : option Z) (remaining_depth : nat)
    (node_index action_index : nat) (w : Walk) (response : FastActorResponseV1) : answer Flow :=
  match response with
  | Terminal terminal =>
      let? valued := terminal_value_puct_v1 value_domain (walk_session w) terminal root_player (walk_census w) in
      let '(value, census) := valued in
      Ok (Break (MkWalk (walk_tree w) (walk_session w) (walk_transitions w) census (node_path w) (edge_path w))
                value)
  | Decision next_decision =>
      let next_actor := player_id_v1 (acting_player next_decision) in
      if decide (remaining_depth = 0%nat \/ transition_budget <= walk_transitions w) then
        let? leaf_key := search_node_key_v1 (walk_session w) next_decision remaining_depth in
        let census := count_depth_cap (walk_census w) in
        let? value := dispatch_revisited_leaf_value_v1 value_domain (walk_session w) leaf_key
          (legal_action_count next_decision) (bool_decide (next_actor = root_player)) in
        Ok (Break (MkWalk (walk_tree w) (walk_session w) (walk_transitions w) census (node_path w) (edge_path w))
                  value)
      else
        let? next_key := search_node_key_v1 (walk_session w) next_decision remaining_depth in
        match find_node (walk_tree w) next_key with
        | None =>
            break (expand value_domain root_player w node_index action_index next_key next_decision)
        | Some next_index =>
            let? tree := link_child (walk_tree w) node_index action_index next_index in
            let w := MkWalk tree (walk_session w) (walk_transitions w) (walk_census w)
                            (node_path w ++ [next_index]) (edge_path w) in
            match forced_root_action with
            | Some _ =>
                let? node := at_index tree next_index in
                break (leaf_at_node value_domain root_player w node)
            | None => Ok (Continue next_index w)
            end
        end
  end.

(** One turn, below the check at its top. *)
Definition walk_step (value_domain : ModelGuidedSearchValueHeadDomainV1) (root_player : PlayerId)
    (transition_budget : Z) (forced_root_action : option Z) (remaining_depth : nat)
    (node_index : nat) (w : Walk) : answer Flow :=
  match current_response (walk_session w) with
  | Terminal _ => refuse (Tree CorruptTree)
  | Decision decision =>
      let? node := or_corrupt (walk_tree w !! node_index) in
      let? expected_key := search_node_key_v1 (walk_session w) decision remaining_depth in
      if decide (node_key node <> expected_key \/ actor node <> player_id_v1 (acting_player decision)) then
        refuse (Tree CorruptTree)
      else
      let? action_index := choose_action node node_index root_player forced_root_action in
      if decide (length (actions node) <= action_index)%nat then refuse (Tree CorruptTree) else
      let? stepped := take_action (walk_session w) decision action_index (walk_transitions w) in
      let '(session, response, transitions) := stepped in
      arrive value_domain root_player transition_budget forced_root_action (pred remaining_depth)
        node_index action_index
        (MkWalk (walk_tree w) session transitions (walk_census w) (node_path w)
                (edge_path w ++ [(node_index, action_index)])) response
  end.

(** The loop of [run_simulation_puct_v1]; the remaining depth decreases. *)
Fixpoint descend (value_domain : ModelGuidedSearchValueHeadDomainV1) (root_player : PlayerId)
    (transition_budget : Z) (forced_root_action : option Z)
    (remaining_depth : nat) (node_index : nat) (w : Walk) : answer (Walk * Z) :=
  if decide (remaining_depth = 0%nat \/ transition_budget <= walk_transitions w) then
    let? node := or_corrupt (walk_tree w !! node_index) in
    leaf_at_node value_domain root_player w node
  else
    let? flow := walk_step value_domain root_player transition_budget forced_root_action
                   remaining_depth node_index w in
    match flow, remaining_depth with
    | Break w value, _ => Ok (w, value)
    | Continue next_index w, S depth =>
        descend value_domain root_player transition_budget forced_root_action depth next_index w
    | Continue _ _, O => Err Panic
    end.

(** [for index in node_path] *)
Definition visit_node (tree : ModelGuidedSearchTreeV1) (index : nat) : answer ModelGuidedSearchTreeV1 :=
  let? node := or_corrupt (tree !! index) in
  let? count := or_corrupt (checked_unsigned u32_max (visits node + 1)) in
  Ok (<[index := MkNode (node_key node) (actor node) count (actions node) (prior node)]> tree).

Definition checked_i64 (z : Z) : option Z := if decide (i64_min <= z <= i64_max) then Some z else None.

(** [for (node_index, action_index) in edge_path] *)
Definition credit_edge (value : Z) (tree : ModelGuidedSearchTreeV1) (edge : nat * nat)
  : answer ModelGuidedSearchTreeV1 :=
  let '(node_index, action_index) := edge in
  let? node := or_corrupt (tree !! node_index) in
  let? action := or_corrupt (actions node !! action_index) in
  let? count := or_corrupt (checked_unsigned u32_max (stat_visits action + 1)) in
  let? total := or_corrupt (checked_i64 (value_sum action + value)) in
  Ok (<[node_index := MkNode (node_key node) (actor node) (visits node)
          (<[action_index := MkStat count total (child_nodes action)]> (actions node)) (prior node)]> tree).

(** The variables the simulations share. *)
Record SearchState := MkSearch {
  tree : ModelGuidedSearchTreeV1;
  transitions_used : Z;
  simulations : Z;
  leaf_census : ModelGuidedSearchLeafCensusV1;
}.

Definition run_simulation_puct_v1 (value_domain : ModelGuidedSearchValueHeadDomainV1)
    (root_player : PlayerId) (depth_cap transition_budget : Z) (forced_root_action : option Z)
    (sampled : Session) (s : SearchState) : answer SearchState :=
  let? walked := descend value_domain root_player transition_budget forced_root_action
    (Z.to_nat depth_cap) 0 (MkWalk (tree s) sampled (transitions_used s) (leaf_census s) [0%nat] []) in
  let '(w, value) := walked in
  let? simulation_depth := or_corrupt (checked_unsigned u16_max (Z.of_nat (length (edge_path w)))) in
  let census := count_depth simulation_depth (walk_census w) in
  let? tree := try_fold visit_node (walk_tree w) (node_path w) in
  let? tree := try_fold (credit_edge value) tree (edge_path w) in
  Ok (MkSearch tree (walk_transitions w) (simulations s) census).

(** One turn of [while transitions_used < transition_budget]. *)
Definition simulate_once (value_domain : ModelGuidedSearchValueHeadDomainV1) (session : Session)
    (expected : FastActorDecisionV1) (simulation_seed_digest root_key : bytes)
    (transition_budget depth_cap : Z) (s : SearchState) : answer SearchState :=
  let root_player := player_id_v1 (acting_player expected) in
  let simulation_seed := derive_simulation_seed_v1 sha256 simulation_seed_digest expected
                           (simulations s) root_player in
  let? sampled := lift_error Tree (kernel_search_redeterminized_clone_v1 session simulation_seed) in
  let? sampled_key := search_node_key_v1 sampled expected (Z.to_nat depth_cap) in
  if decide (sampled_key <> root_key) then refuse (Tree HiddenStateContract) else
  let forced_root_action :=
    if decide (simulations s < legal_action_count expected) then Some (simulations s) else None in
  let? s := run_simulation_puct_v1 value_domain root_player depth_cap transition_budget
              forced_root_action sampled s in
  let? simulations := or_corrupt (checked_unsigned u32_max (simulations s + 1)) in
  Ok (MkSearch (tree s) (transitions_used s) simulations (leaf_census s)).

(** The loop, for at most [fuel] turns; [None] when they do not suffice. *)
Fixpoint simulate (fuel : nat) (value_domain : ModelGuidedSearchValueHeadDomainV1) (session : Session)
    (expected : FastActorDecisionV1) (simulation_seed_digest root_key : bytes)
    (transition_budget depth_cap : Z) (s : SearchState) : option (answer SearchState) :=
  if decide (transitions_used s < transition_budget) then
    match fuel with
    | O => None
    | S fuel =>
        match simulate_once value_domain session expected simulation_seed_digest root_key
                transition_budget depth_cap s with
        | Err e => Some (Err e)
        | Ok s => simulate fuel value_domain session expected simulation_seed_digest root_key
                    transition_budget depth_cap s
        end
    end
  else Some (Ok s).

Record KernelNativeSearchActionStatV1 := MkActionStat {
  flat_action_index : Z;
  action_visits : Z;
  action_value_sum : Z;
  mean_value : Z;
}.

Record ModelGuidedSearchDecisionV1 := MkSearchDecision {
  selected_index : Z;
  decision_transitions_used : Z;
  decision_simulations : Z;
  tree_node_count : Z;
  root_action_stats : list KernelNativeSearchActionStatV1;
  decision_leaf_census : ModelGuidedSearchLeafCensusV1;
}.

Definition action_stats (actions : list SearchActionStatV1) : list KernelNativeSearchActionStatV1 :=
  imap (fun index stat => MkActionStat (wrap_u32 (Z.of_nat index)) (stat_visits stat) (value_sum stat) (mean stat))
       actions.

(** What follows the loop. *)
Definition conclude (session : Session) (hash_before : Z) (response_before : FastActorResponseV1)
    (s : SearchState) : answer ModelGuidedSearchDecisionV1 :=
  if decide (privileged_core_environment_hash session <> hash_before
             \/ current_response session <> response_before) then refuse (Tree HiddenStateContract) else
  let? root := or_corrupt (tree s !! 0%nat) in
  if existsb (fun action => stat_visits action =? 0) (actions root) then refuse (Tree CorruptTree) else
  let? selected_index := lift_error Tree (select_final_root_action_v1 (actions root)) in
  let? node_count := or_corrupt (checked_unsigned u32_max (Z.of_nat (length (tree s)))) in
  Ok (MkSearchDecision selected_index (transitions_used s) (simulations s) node_count
        (action_stats (actions root)) (leaf_census s)).

(** What precedes it: the checks, the root key and the root's prior. *)
Definition prepare (authority : ModelGuidedSearchAuthorityV1) (session : Session)
    (expected : FastActorDecisionV1) (transition_budget depth_cap : Z) : answer (bytes * SearchState) :=
  let? _ := lift_error Authority (validate authority) in
  match current_response session with
  | Terminal _ => refuse (Tree InvalidDecision)
  | Decision live =>
      if decide (live <> expected
                 \/ kernel_search_private_diagnostic_identity_v1 session
                    <> private_diagnostic_identity authority) then refuse (Tree InvalidDecision)
      else if decide (transition_budget < legal_action_count expected) then
        refuse (Tree (BudgetSmallerThanRootActionCount transition_budget (legal_action_count expected)))
      else
        let root_player := player_id_v1 (acting_player expected) in
        let? root_key := search_node_key_v1 session expected (Z.to_nat depth_cap) in
        let? root_forward := lift_error id
          (evaluate_leaf_v1 session root_key (legal_action_count expected) RootPrior) in
        if decide (Z.of_nat (length (legal_action_weights root_forward)) <> legal_action_count expected) then
          refuse EvaluatorContract
        else
          let? root_prior := lift_error Prior (quantize_prior_v1 (legal_action_weights root_forward)) in
          let? tree := new_tree root_key root_player root_prior in
          Ok (root_key, MkSearch tree 0 0 default_census)
  end.

Definition select_action_with_seed_digest_and_budget_v1 (fuel : nat)
    (authority : ModelGuidedSearchAuthorityV1) (session : Session) (expected : FastActorDecisionV1)
    (simulation_seed_digest : bytes) (transition_budget depth_cap : Z)
    (value_domain : ModelGuidedSearchValueHeadDomainV1) : option (answer ModelGuidedSearchDecisionV1) :=
  match prepare authority session expected transition_budget depth_cap with
  | Err e => Some (Err e)
  | Ok (root_key, s) =>
      match simulate fuel value_domain session expected simulation_seed_digest root_key
              transition_budget depth_cap s with
      | None => None
      | Some (Err e) => Some (Err e)
      | Some (Ok s) =>
          Some (conclude session (privileged_core_environment_hash session) (current_response session) s)
      end
  end.

Definition select_action_v1 (fuel : nat) (authority : ModelGuidedSearchAuthorityV1) (session : Session)
    (expected : FastActorDecisionV1) (value_domain : ModelGuidedSearchValueHeadDomainV1)
  : option (answer ModelGuidedSearchDecisionV1) :=
  match digest authority with
  | Err e => Some (refuse (Authority e))
  | Ok authority_digest =>
      select_action_with_seed_digest_and_budget_v1 fuel authority session expected authority_digest
        (transition_budget authority) (policy_step_depth_cap authority) value_domain
  end.

(** The diagnostic halves. *)
Inductive ModelGuidedSearchSeedHalfV1 := HalfA | HalfB.

Definition MODEL_GUIDED_SEARCH_SEED_HALF_DOMAIN_V1 : bytes :=
  bytes_of "model-guided-search-chosen-action-stability-seed-half/v1".

Definition tag_v1 (half : ModelGuidedSearchSeedHalfV1) : bytes :=
  match half with HalfA => bytes_of "half-a" | HalfB => bytes_of "half-b" end.

Definition simulation_seed_digest_v1 (half : ModelGuidedSearchSeedHalfV1) (authority_digest : bytes) : bytes :=
  sha256 (MODEL_GUIDED_SEARCH_SEED_HALF_DOMAIN_V1 ++ authority_digest ++ tag_v1 half).

Definition select_action_seed_half_v1 (fuel : nat) (authority : ModelGuidedSearchAuthorityV1)
    (session : Session) (expected : FastActorDecisionV1)
    (value_domain : ModelGuidedSearchValueHeadDomainV1) (half : ModelGuidedSearchSeedHalfV1)
  : option (answer ModelGuidedSearchDecisionV1) :=
  let half_budget := Z.max (transition_budget authority / 2) (legal_action_count expected) in
  match digest authority with
  | Err e => Some (refuse (Authority e))
  | Ok authority_digest =>
      select_action_with_seed_digest_and_budget_v1 fuel authority session expected
        (simulation_seed_digest_v1 half authority_digest) half_budget
        (policy_step_depth_cap authority) value_domain
  end.
End Search.
