(* ===== verification/SearchTreeFacts.v ===== *)
(** * The model-guided search tree: nodes, selection and backup

    What every tree satisfies whatever the session and the evaluator do, what the
    two selections choose, and what backing a value up changes. *)

From stdpp Require Import strings sorting.
From S2P Require Import Prelude Ids Bytes Hamilton SearchMath SearchMathFacts SearchAuthority SearchTree.

Local Open Scope Z_scope.

(** [r] is a value satisfying [P], or an error that [L] excludes; never a panic. *)
Definition answers (L : Prop) {A} (r : answer A) (P : A -> Prop) : Prop :=
  match r with
  | Ok a => P a
  | Err Panic => False
  | Err (Reject _) => ~ L
  end.

Lemma answers_bind L {A B} (r : answer A) (k : A -> answer B) Q P :
  answers L r Q -> (forall a, r = Ok a -> Q a -> answers L (k a) P) -> answers L (result_bind r k) P.
Proof. intros H Hk. destruct r as [a|[|e]]; cbn in *; auto. Qed.

Lemma answers_weaken L {A} (r : answer A) (P Q : A -> Prop) :
  answers L r P -> (forall a, P a -> Q a) -> answers L r Q.
Proof. destruct r as [a|[|e]]; cbn; auto. Qed.

Lemma answers_or_corrupt L {A} (o : option A) P :
  (forall a, o = Some a -> P a) -> (L -> is_Some o) -> answers L (or_corrupt o) P.
Proof. destruct o as [a|]; cbn; intros H Ho; [by apply H|]. intros HL. by destruct (Ho HL). Qed.

Lemma answers_at_index L {A} (l : list A) i P :
  (i < length l)%nat -> (forall a, l !! i = Some a -> P a) -> answers L (at_index l i) P.
Proof.
  intros Hi H. unfold at_index. destruct (lookup_lt_is_Some_2 l i Hi) as [a E]. rewrite E. by apply H.
Qed.

Lemma answers_lift L {E A} (wrap : E -> ModelGuidedSearchCoreErrorV1) (r : result E A) P :
  (forall a, r = Ok a -> P a) -> (L -> exists a, r = Ok a) -> answers L (lift_error wrap r) P.
Proof.
  destruct r as [a|e]; cbn; intros H Hr; [by apply H|]. intros HL. by destruct (Hr HL).
Qed.

(* ------------------------------------------------------------------ *)
(** ** Well-formed nodes *)

(** Each value backed up lies between -10000 and 10000. *)
Definition stat_ok (stat : SearchActionStatV1) : Prop :=
  0 <= stat_visits stat /\ Z.abs (value_sum stat) <= 10000 * stat_visits stat.

Definition node_ok (node : ModelGuidedSearchNodeV1) : Prop :=
  is_prior (length (actions node)) (prior node) /\ Forall stat_ok (actions node) /\ 0 <= visits node < 2 ^ 32.

Definition tree_ok (t : ModelGuidedSearchTreeV1) : Prop :=
  Forall node_ok t /\ NoDup (map node_key t).

Definition edge_visits (node : ModelGuidedSearchNodeV1) : Z := sumZ (map stat_visits (actions node)).
(** All transitions ever made, and all visits of nodes. *)
Definition edge_total (t : ModelGuidedSearchTreeV1) : Z := sumZ (map edge_visits t).
Definition node_total (t : ModelGuidedSearchTreeV1) : Z := sumZ (map visits t).

(** What selection and backup leave alone. *)
Definition shape (node : ModelGuidedSearchNodeV1) : bytes * PlayerId * list Z * nat :=
  (node_key node, actor node, prior node, length (actions node)).

Lemma mean_bounds stat : stat_ok stat -> Z.abs (mean stat) <= 10000.
Proof.
  intros [Hv Hs]. unfold mean. case_decide as E; [done|].
  rewrite <- Z.quot_abs by done. rewrite Z.quot_div_nonneg by lia.
  rewrite (Z.abs_eq (stat_visits stat)) by done. apply Z.div_le_upper_bound; lia.
Qed.

Lemma is_prior_bounds n p i x : is_prior n p -> p !! i = Some x -> 0 <= x <= 1000000.
Proof.
  intros (_ & Hp & Hs) E. pose proof (sumZ_lookup_le _ _ _ Hp E). rewrite Hs in *.
  pose proof (Forall_lookup_1 _ _ _ _ Hp E). lia.
Qed.

Lemma is_prior_nonempty n p : is_prior n p -> (0 < n)%nat.
Proof. intros (El & _ & Hs). destruct p; [done|]. cbn in El. lia. Qed.

(* ------------------------------------------------------------------ *)
(** ** Selection *)

Lemma ranking_permutation l : sort_larger_first l ≡ₚ seq 0 (length l).
Proof. rewrite larger_first_ranking. apply ranking_perm. Qed.

Lemma first_unvisited_spec acts order : (forall i, i ∈ order -> (i < length acts)%nat) ->
  exists r, first_unvisited acts order = Ok r /\
  match r with
  | Some i => exists before after, order = before ++ i :: after
      /\ (exists a, acts !! i = Some a /\ stat_visits a = 0)
      /\ Forall (fun j => exists a, acts !! j = Some a /\ stat_visits a <> 0) before
  | None => Forall (fun j => exists a, acts !! j = Some a /\ stat_visits a <> 0) order
  end.
Proof.
  induction order as [|i order IH]; intros Ho; cbn [first_unvisited]; [by exists None|].
  destruct (lookup_lt_is_Some_2 acts i) as [a E]; [apply Ho; by left|].
  unfold at_index. rewrite E. cbn [ok_or result_bind]. case_decide as Hv.
  - exists (Some i). split; [done|]. exists [], order. split; [done|]. split; [by exists a|done].
  - destruct IH as (r & -> & Hr); [intros j Hj; apply Ho; by right|].
    exists r. split; [done|]. destruct r as [k|].
    + destruct Hr as (before & after & -> & Hk & Hb). exists (i :: before), after.
      split; [done|]. split; [done|]. constructor; [by exists a|done].
    + constructor; [by exists a|done].
Qed.

(** The first of the largest scores, if any is above [best]. *)
Fixpoint first_best (index : nat) (scores : list Z) (best_index : nat) (best : Z) : nat :=
  match scores with
  | [] => best_index
  | x :: scores =>
      if decide (best < x) then first_best (S index) scores index x
      else first_best (S index) scores best_index best
  end.

Lemma first_best_spec scores : forall index bi b,
  (first_best index scores bi b = bi /\ Forall (fun y => y <= b) scores)
  \/ (exists k x, first_best index scores bi b = (index + k)%nat /\ scores !! k = Some x /\ b < x
      /\ forall j y, scores !! j = Some y -> y <= x /\ ((j < k)%nat -> y < x)).
Proof.
  induction scores as [|z scores IH]; intros index bi b; cbn [first_best]; [by left|].
  case_decide as Hz.
  - right. destruct (IH (S index) index z) as [[-> Hall]|(k & x & -> & Ek & Hx & Hall)].
    + exists 0%nat, z. rewrite Nat.add_0_r. split; [done|]. split; [done|]. split; [done|].
      intros [|j] y Ey; cbn in Ey; [injection Ey as <-; lia|].
      pose proof (Forall_lookup_1 _ _ _ _ Hall Ey). cbv beta in *. lia.
    + exists (S k), x. split; [lia|]. split; [done|]. split; [lia|].
      intros [|j] y Ey; cbn in Ey; [injection Ey as <-; lia|]. destruct (Hall j y Ey). lia.
  - destruct (IH (S index) bi b) as [[-> Hall]|(k & x & -> & Ek & Hx & Hall)].
    + left. split; [done|]. constructor; [lia|done].
    + right. exists (S k), x. split; [lia|]. split; [done|]. split; [done|].
      intros [|j] y Ey; cbn in Ey; [injection Ey as <-; lia|]. destruct (Hall j y Ey). lia.
Qed.

(** How good a visited action is for the player who chooses at the node: the mean
    seen from that player, raised by the weighted bonus. *)
Definition puct_score (maximizing : bool) (node_visits : Z) (stat : SearchActionStatV1) (p : Z) : Z :=
  (if maximizing then mean stat else - mean stat)
  + ucb_bonus node_visits (stat_visits stat) * p / 1000000.

Lemma best_action_runs V pr mx : 0 <= V < 2 ^ 32 -> Forall (fun p => 0 <= p <= 1000000) pr ->
  forall acts index bi bs,
  Forall (fun a => stat_ok a /\ 0 < stat_visits a) acts -> (index + length acts <= length pr)%nat ->
  best_action V pr mx index acts bi bs
  = Ok (first_best index (zip_with (puct_score mx V) acts (drop index pr)) bi (if mx then bs else - bs)).
Proof.
  intros HV Hpr. induction acts as [|a acts IH]; intros index bi bs Ha Hl; cbn [best_action]; [done|].
  apply Forall_cons in Ha as [[Hok Hv] Ha]. cbn [length] in Hl.
  destruct (lookup_lt_is_Some_2 pr index) as [p Ep]; [lia|].
  pose proof (Forall_lookup_1 _ _ _ _ Hpr Ep) as Hp. cbv beta in Hp.
  rewrite (drop_S _ _ _ Ep). cbn [zip_with first_best].
  unfold at_index. rewrite Ep. cbn [ok_or result_bind].
  destruct (ucb_bonus_runs V (stat_visits a) HV Hv) as [-> Hb].
  destruct (puct_bonus_runs _ p Hb Hp) as [-> Hw]. cbn [lift_error result_bind].
  rewrite checked_unsigned_fits by (unfold i64_max; lia). unfold or_corrupt. cbn [ok_or result_bind].
  pose proof (mean_bounds a Hok) as Hm. 
  assert (exists w, w = ucb_bonus V (stat_visits a) * p / 1000000) as [w Ew] by eauto.
  assert (puct_score mx V a p = (if mx then mean a else - mean a) + w) as -> by (by rewrite Ew).
  rewrite <- Ew in Hw |- *.
  assert (saturate_i64 (mean a + w) = mean a + w /\ saturate_i64 (mean a - w) = mean a - w) as [-> ->].
  { unfold saturate_i64, i64_min, i64_max. rewrite !clamp_spec by lia. lia. }
  destruct mx.
  - destruct (Z.ltb_spec bs (mean a + w)); [rewrite decide_True by lia|rewrite decide_False by lia];
      apply (IH (S index)); done || lia.
  - destruct (Z.ltb_spec (mean a - w) bs); [rewrite decide_True by lia|rewrite decide_False by lia].
    + rewrite (IH (S index)) by (done || lia). do 2 f_equal. lia.
    + apply (IH (S index)); done || lia.
Qed.

(** The choice at a node: the first unvisited action in the order of the prior, or
    the action with the best score, the first of equals. *)
Lemma select_tree_action_runs L node root_player : node_ok node ->
  answers L (select_tree_action_puct_v1 node root_player) (fun i =>
    exists a p, actions node !! i = Some a /\ prior node !! i = Some p /\
    ((stat_visits a = 0
       /\ forall j b q, actions node !! j = Some b -> prior node !! j = Some q -> stat_visits b = 0 ->
          q < p \/ q = p /\ (i <= j)%nat)
     \/ (Forall (fun b => 0 < stat_visits b) (actions node)
       /\ let score := puct_score (bool_decide (actor node = root_player)) (visits node) in
          forall j b q, actions node !! j = Some b -> prior node !! j = Some q ->
            score b q <= score a p /\ ((j < i)%nat -> score b q < score a p)))).
Proof.
  intros (Hp & Hst & HV). pose proof Hp as (Lp & Hp0 & _). unfold select_tree_action_puct_v1.
  pose proof (ranking_permutation (prior node)) as Hperm.
  assert (StronglySorted (precedes (prior node)) (prior_expansion_order_v1 (prior node))) as Hsort
    by apply ranking_sorted.
  change (sort_larger_first (prior node)) with (prior_expansion_order_v1 (prior node)) in Hperm.
  destruct (first_unvisited_spec (actions node) (prior_expansion_order_v1 (prior node))) as (r & -> & Hr).
  { intros i Hi. rewrite Hperm in Hi. apply elem_of_seq in Hi. lia. }
  assert (forall i a, actions node !! i = Some a -> exists p, prior node !! i = Some p
    /\ i ∈ prior_expansion_order_v1 (prior node)) as Hin.
  { intros i a Ei. apply lookup_lt_Some in Ei as Hlt. destruct (lookup_lt_is_Some_2 (prior node) i) as [p Ep]; [lia|].
    exists p. split; [done|]. rewrite Hperm. apply elem_of_seq. lia. }
  destruct r as [i|]; cbn [result_bind answers].
  - destruct Hr as (before & after & Eord & (a & Ea & Hv) & Hbefore).
    destruct (Hin i a Ea) as (p & Ep & _). exists a, p. split; [done|]. split; [done|]. left. split; [done|].
    intros j b q Ej Eq Hb. destruct (Hin j b Ej) as (_ & _ & Hj). rewrite Eord in Hj, Hsort.
    apply elem_of_app in Hj as [Hj|Hj].
    { rewrite Forall_forall in Hbefore. destruct (Hbefore j Hj) as (b' & Eb' & Hb'). congruence. }
    apply elem_of_cons in Hj as [->|Hj].
    { right. rewrite Ep in Eq. injection Eq as ->. lia. }
    apply StronglySorted_app in Hsort as (_ & _ & Hsort).
    apply StronglySorted_cons in Hsort as [Hall _]. rewrite Forall_forall in Hall.
    specialize (Hall j Hj). unfold precedes in Hall.
    rewrite (nth_lookup_Some _ _ _ _ Ep), (nth_lookup_Some _ _ _ _ Eq) in Hall. lia.
  - assert (Forall (fun b => stat_ok b /\ 0 < stat_visits b) (actions node)) as Hall.
    { apply Forall_lookup_2. intros i a Ei. pose proof (Forall_lookup_1 _ _ _ _ Hst Ei) as Hok.
      split; [done|]. destruct (Hin i a Ei) as (_ & _ & Hi). rewrite Forall_forall in Hr.
      destruct (Hr i Hi) as (a' & Ea' & Hv). destruct Hok. rewrite Ei in Ea'. injection Ea' as <-. lia. }
    assert (Forall (fun p => 0 <= p <= 1000000) (prior node)) as Hpb.
    { apply Forall_lookup_2. intros i p Ei. by eapply is_prior_bounds. }
    rewrite best_action_runs by (done || lia). rewrite drop_0. cbn [answers].
    set (mx := bool_decide (actor node = root_player)). set (sc := puct_score mx (visits node)).
    assert (forall i a p, actions node !! i = Some a -> prior node !! i = Some p ->
      - 10000 <= sc a p) as Hlow.
    { intros i a p Ei Ep. pose proof (Forall_lookup_1 _ _ _ _ Hall Ei) as [Hok Hv].
      pose proof (mean_bounds a Hok). pose proof (Forall_lookup_1 _ _ _ _ Hpb Ep). cbv beta in *.
      destruct (ucb_bonus_runs (visits node) (stat_visits a) HV Hv) as [_ Hb].
      destruct (puct_bonus_runs _ p Hb ltac:(done)) as [_ Hw]. subst sc. unfold puct_score. destruct mx; lia. }
    pose proof (is_prior_nonempty _ _ Hp) as Hne.
    destruct (first_best_spec (zip_with sc (actions node) (prior node)) 0 0
      (if mx then if mx then i64_min else i64_max else - (if mx then i64_min else i64_max)))
      as [[_ Hno]|(k & x & Ek & Ex & _ & Hbest)].
    + exfalso. destruct (lookup_lt_is_Some_2 (actions node) 0) as [a Ea]; [lia|].
      destruct (Hin _ _ Ea) as (p & Ep & _). pose proof (Hlow _ _ _ Ea Ep).
      assert (zip_with sc (actions node) (prior node) !! 0%nat = Some (sc a p)) as E0
        by (by rewrite lookup_zip_with, Ea; cbn; rewrite Ep).
      pose proof (Forall_lookup_1 _ _ _ _ Hno E0) as Hle. cbv beta in Hle.
      unfold i64_min, i64_max in Hle. destruct mx; lia.
    + rewrite Ek. cbn [Nat.add]. rewrite lookup_zip_with in Ex.
      destruct (actions node !! k) as [a|] eqn:Ea; cbn in Ex; [|done].
      destruct (prior node !! k) as [p|] eqn:Ep; cbn in Ex; [|done]. injection Ex as <-.
      exists a, p. split; [done|]. split; [done|]. right.
      split; [eapply Forall_impl; [exact Hall|]; tauto|]. cbv zeta. intros j b q Ej Eq.
      apply (Hbest j). by rewrite lookup_zip_with, Ej; cbn; rewrite Eq.
Qed.

(* ------------------------------------------------------------------ *)
(** ** The final choice *)

(** More visits, or as many and a higher mean. *)
Definition outranks (a b : SearchActionStatV1) : Prop :=
  stat_visits b < stat_visits a \/ stat_visits a = stat_visits b /\ mean b < mean a.

Lemma final_best_some acts : forall index (bi : nat) a,
  exists k c, final_best index acts (Some (bi, stat_visits a, mean a)) = Some (k, stat_visits c, mean c)
  /\ ((k = bi /\ c = a /\ Forall (fun b => ~ outranks b a) acts)
      \/ (exists j, k = (index + j)%nat /\ acts !! j = Some c /\ outranks c a
          /\ forall i b, acts !! i = Some b -> ~ outranks b c /\ ((i < j)%nat -> outranks c b))).
Proof.
  induction acts as [|x acts IH]; intros index bi a; cbn [final_best].
  { exists bi, a. split; [done|]. by left. }
  assert ((stat_visits a <? stat_visits x)
          || ((stat_visits x =? stat_visits a) && (mean a <? mean x)) = true <-> outranks x a) as Hdec.
  { unfold outranks. rewrite orb_true_iff, andb_true_iff, !Z.ltb_lt, Z.eqb_eq. lia. }
  destruct ((stat_visits a <? stat_visits x) || _).
  - assert (outranks x a) as Hxa by tauto.
    destruct (IH (S index) index x) as (k & c & -> & Hc). exists k, c. split; [done|]. right.
    destruct Hc as [(-> & -> & Hall)|(j & -> & Ej & Hcx & Hall)].
    + exists 0%nat. split; [lia|]. split; [done|]. split; [done|].
      intros [|i] b Eb; cbn in Eb; [injection Eb as <-; split; [unfold outranks; lia|lia]|].
      pose proof (Forall_lookup_1 _ _ _ _ Hall Eb). split; [done|lia].
    + exists (S j). split; [lia|]. split; [done|]. split; [unfold outranks in *; lia|].
      intros [|i] b Eb; cbn in Eb.
      * injection Eb as <-. unfold outranks in *. lia.
      * destruct (Hall i b Eb) as [H1 H2]. split; [done|]. intros Hi. apply H2. lia.
  - assert (~ outranks x a) as Hxa by (intros Hx; apply Hdec in Hx; done).
    destruct (IH (S index) bi a) as (k & c & -> & Hc). exists k, c. split; [done|].
    destruct Hc as [(-> & -> & Hall)|(j & -> & Ej & Hca & Hall)].
    + left. split; [done|]. split; [done|]. by constructor.
    + right. exists (S j). split; [lia|]. split; [done|]. split; [done|].
      intros [|i] b Eb; cbn in Eb.
      * injection Eb as <-. unfold outranks in *. lia.
      * destruct (Hall i b Eb) as [H1 H2]. split; [done|]. intros Hi. apply H2. lia.
Qed.

(** The most visited action, then the higher mean, then the lower index. *)
Lemma select_final_runs acts : acts <> [] -> Z.of_nat (length acts) <= u32_max ->
  exists k c, select_final_root_action_v1 acts = Ok (Z.of_nat k) /\ acts !! k = Some c
  /\ forall i b, acts !! i = Some b -> ~ outranks b c /\ ((i < k)%nat -> outranks c b).
Proof.
  intros Hne Hl. destruct acts as [|x acts]; [done|]. unfold select_final_root_action_v1. cbn [final_best].
  destruct (final_best_some acts 1 0 x) as (k & c & -> & Hc). cbn [ok_or result_bind fst].
  assert ((x :: acts) !! k = Some c
    /\ forall i b, (x :: acts) !! i = Some b -> ~ outranks b c /\ ((i < k)%nat -> outranks c b)) as [Ek Hall].
  { destruct Hc as [(-> & -> & Hall)|(j & -> & Ej & Hcx & Hall)].
    - split; [done|]. intros [|i] b Eb; cbn in Eb; [injection Eb as <-; split; [unfold outranks; lia|lia]|].
      pose proof (Forall_lookup_1 _ _ _ _ Hall Eb). split; [done|lia].
    - split; [done|]. intros [|i] b Eb; cbn in Eb.
      + injection Eb as <-. unfold outranks in *. lia.
      + destruct (Hall i b Eb) as [H1 H2]. split; [done|]. intros Hi. apply H2. lia. }
  exists k, c. split; [|done]. apply lookup_lt_Some in Ek.
  rewrite checked_unsigned_fits; [done|]. lia.
Qed.

(* ------------------------------------------------------------------ *)
(** ** Backup *)

Lemma sumZ_insert {A} (f : A -> Z) l : forall i x y, l !! i = Some x ->
  sumZ (map f (<[i := y]> l)) = sumZ (map f l) + f y - f x.
Proof.
  induction l as [|z l IH]; intros [|i] x y E; cbn in E; try done.
  - injection E as ->. cbn [insert list_insert map]. rewrite !sumZ_cons. lia.
  - change (<[S i := y]> (z :: l)) with (z :: <[i := y]> l). cbn [map]. rewrite !sumZ_cons, (IH _ _ _ E). lia.
Qed.

Lemma map_insert_same {A B} (f : A -> B) (l : list A) : forall i x y, l !! i = Some x -> f y = f x ->
  map f (<[i := y]> l) = map f l.
Proof.
  induction l as [|z l IH]; intros [|i] x y E Ef; cbn in E; try done.
  - injection E as ->. cbn. by rewrite Ef.
  - change (<[S i := y]> (z :: l)) with (z :: <[i := y]> l). cbn [map]. by rewrite (IH _ _ _ E Ef).
Qed.

(** Visits of one action, and of all actions of one node. *)
Definition visits_at (t : ModelGuidedSearchTreeV1) (edge : nat * nat) : Z :=
  default 0 (node ← t !! edge.1; stat ← actions node !! edge.2; Some (stat_visits stat)).
Definition visits_from (t : ModelGuidedSearchTreeV1) (i : nat) : Z :=
  default 0 (edge_visits <$> t !! i).

Definition edge_in (t : ModelGuidedSearchTreeV1) (edge : nat * nat) : Prop :=
  exists node, t !! edge.1 = Some node /\ (edge.2 < length (actions node))%nat.

Lemma edge_visits_bounds node : node_ok node -> 0 <= edge_visits node.
Proof.
  intros (_ & Hst & _). apply sumZ_nonneg, Forall_fmap. eapply Forall_impl; [exact Hst|]. by intros x [? _].
Qed.

Lemma edge_visits_le t i node : Forall node_ok t -> t !! i = Some node -> edge_visits node <= edge_total t.
Proof.
  intros Ht Ei. unfold edge_total. apply (sumZ_lookup_le _ i).
  - apply Forall_fmap. eapply Forall_impl; [exact Ht|]. intros x. apply edge_visits_bounds.
  - change (map edge_visits t) with (edge_visits <$> t). by rewrite list_lookup_fmap, Ei.
Qed.

Lemma stat_visits_le node a stat : node_ok node -> actions node !! a = Some stat ->
  stat_visits stat <= edge_visits node.
Proof.
  intros (_ & Hst & _) Ea. apply (sumZ_lookup_le _ a).
  - apply Forall_fmap. eapply Forall_impl; [exact Hst|]. by intros x [? _].
  - change (map stat_visits (actions node)) with (stat_visits <$> actions node). by rewrite list_lookup_fmap, Ea.
Qed.

Lemma node_visits_le t i node : Forall node_ok t -> t !! i = Some node -> visits node <= node_total t.
Proof.
  intros Ht Ei. unfold node_total. apply (sumZ_lookup_le _ i).
  - apply Forall_fmap. eapply Forall_impl; [exact Ht|]. intros x (_ & _ & Hv). cbn. lia.
  - change (map visits t) with (visits <$> t). by rewrite list_lookup_fmap, Ei.
Qed.

Lemma tree_ok_insert t i node node' : tree_ok t -> t !! i = Some node -> node_ok node' ->
  node_key node' = node_key node -> tree_ok (<[i := node']> t).
Proof.
  intros [Ht Hk] Ei Hn Ek. split; [by apply Forall_insert|]. by rewrite (map_insert_same _ _ _ _ _ Ei Ek).
Qed.

Lemma visit_node_spec L t i : tree_ok t -> (i < length t)%nat -> (L -> node_total t < u32_max) ->
  answers L (visit_node t i) (fun t' =>
    tree_ok t' /\ map shape t' = map shape t /\ map actions t' = map actions t
    /\ node_total t' = node_total t + 1).
Proof.
  intros Ht Hi HL. unfold visit_node. destruct (lookup_lt_is_Some_2 t i Hi) as [node E]. rewrite E.
  cbn [or_corrupt ok_or result_bind].
  pose proof (Forall_lookup_1 _ _ _ _ (proj1 Ht) E) as Hn. destruct (Hn) as (Hp & Hst & Hv).
  pose proof (node_visits_le t i node (proj1 Ht) E) as Hle.
  eapply (answers_bind L _ _ (fun c => c = visits node + 1 /\ c < 2 ^ 32)).
  - apply answers_or_corrupt.
    + intros c [-> Hc]%checked_unsigned_some. unfold u32_max in Hc. lia.
    + intros HLp. exists (visits node + 1). apply checked_unsigned_some. specialize (HL HLp). lia.
  - intros c _ [-> Hc]. cbn [answers].
    set (node' := MkNode _ _ _ _ _). split.
    + apply (tree_ok_insert t i node node' Ht E); [|done]. split; [done|]. split; [done|]. cbn. lia.
    + split; [by apply (map_insert_same _ _ _ _ _ E)|].
      split; [by apply (map_insert_same _ _ _ _ _ E)|].
      unfold node_total. rewrite (sumZ_insert _ _ _ _ node' E). cbn. lia.
Qed.

Lemma credit_edge_spec L v t edge : tree_ok t -> edge_in t edge -> Z.abs v <= 10000 ->
  (L -> edge_total t < u32_max) ->
  answers L (credit_edge v t edge) (fun t' =>
    tree_ok t' /\ map shape t' = map shape t /\ map visits t' = map visits t
    /\ edge_total t' = edge_total t + 1
    /\ (forall e, visits_at t' e = visits_at t e + (if decide (e = edge) then 1 else 0))
    /\ (forall i, visits_from t' i = visits_from t i + (if decide (i = edge.1) then 1 else 0))).
Proof.
  destruct edge as [i a]. intros Ht (node & E & Ha) Hval HL. unfold credit_edge. cbn [fst snd] in *. rewrite E.
  cbn [or_corrupt ok_or result_bind]. destruct (lookup_lt_is_Some_2 _ _ Ha) as [stat Es]. rewrite Es.
  cbn [ok_or result_bind].
  pose proof (Forall_lookup_1 _ _ _ _ (proj1 Ht) E) as Hn. pose proof Hn as (Hp & Hst & Hv).
  pose proof (Forall_lookup_1 _ _ _ _ Hst Es) as [Hs0 Hs1].
  pose proof (stat_visits_le node a stat Hn Es) as Hle1. pose proof (edge_visits_le t i node (proj1 Ht) E) as Hle2.
  eapply (answers_bind L _ _ (fun c => c = stat_visits stat + 1 /\ c <= u32_max)).
  { apply answers_or_corrupt.
    - intros c [-> Hc]%checked_unsigned_some. lia.
    - intros HLp. exists (stat_visits stat + 1). apply checked_unsigned_some. specialize (HL HLp). lia. }
  intros c _ [-> Hc]. unfold u32_max in Hc. unfold checked_i64. rewrite decide_True by (unfold i64_min, i64_max; lia).
  cbn [or_corrupt ok_or result_bind answers].
  set (stat' := MkStat _ _ _). set (node' := MkNode _ _ _ _ _).
  assert (node_ok node') as Hn'.
  { split; [|split].
    - cbn. by rewrite length_insert.
    - cbn. apply Forall_insert; [done|]. split; cbn; lia.
    - done. }
  assert (edge_visits node' = edge_visits node + 1) as Ev.
  { unfold edge_visits. cbn [node' actions]. rewrite (sumZ_insert _ _ _ _ stat' Es). cbn. lia. }
  split; [by apply (tree_ok_insert t i node)|].
  split; [apply (map_insert_same _ _ _ _ _ E); unfold shape; cbn; by rewrite length_insert|].
  split; [by apply (map_insert_same _ _ _ _ _ E)|].
  split; [unfold edge_total; rewrite (sumZ_insert _ _ _ _ node' E); lia|].
  pose proof (lookup_lt_Some _ _ _ E) as Hi. split.
  - intros [j b]. unfold visits_at. cbn [fst snd]. destruct (decide (j = i)) as [->|Hj].
    + rewrite list_lookup_insert_eq by done. rewrite E. cbn. destruct (decide (b = a)) as [->|Hb].
      * rewrite list_lookup_insert_eq by done. rewrite Es, decide_True by done. cbn. done.
      * rewrite list_lookup_insert_ne by done. rewrite decide_False by congruence. lia.
    + rewrite list_lookup_insert_ne by done. rewrite decide_False by congruence. lia.
  - intros j. unfold visits_from. destruct (decide (j = i)) as [->|Hj].
    + rewrite list_lookup_insert_eq by done. rewrite E. cbn. done.
    + rewrite list_lookup_insert_ne by done. lia.
Qed.

(** How often an edge is in a path, and how many edges leave a node. *)
Definition occurrences (edge : nat * nat) (path : list (nat * nat)) : Z :=
  Z.of_nat (length (filter (fun e => e = edge) path)).
Definition departures (i : nat) (path : list (nat * nat)) : Z :=
  Z.of_nat (length (filter (fun e => e.1 = i) path)).

Lemma occurrences_cons edge e path :
  occurrences edge (e :: path) = (if decide (edge = e) then 1 else 0) + occurrences edge path.
Proof. unfold occurrences. rewrite filter_cons. repeat case_decide; subst; cbn; try done; lia. Qed.
Lemma departures_cons i e path :
  departures i (e :: path) = (if decide (i = e.1) then 1 else 0) + departures i path.
Proof. unfold departures. rewrite filter_cons. repeat case_decide; subst; cbn; try done; lia. Qed.

Lemma visit_nodes_spec L path : forall t, tree_ok t -> Forall (fun i => (i < length t)%nat) path ->
  (L -> node_total t + Z.of_nat (length path) <= u32_max) ->
  answers L (try_fold visit_node t path) (fun t' =>
    tree_ok t' /\ map shape t' = map shape t /\ map actions t' = map actions t
    /\ node_total t' = node_total t + Z.of_nat (length path)).
Proof.
  induction path as [|i path IH]; intros t Ht Hp HL; cbn [try_fold].
  { cbn. split; [done|]. split; [done|]. split; [done|]. lia. }
  apply Forall_cons in Hp as [Hi Hp]. cbn [length] in HL.
  eapply answers_bind; [apply visit_node_spec; [done|done|intros HLp; specialize (HL HLp); lia]|].
  intros t1 _ (H1 & H2 & H3 & H4). assert (length t1 = length t) as El
    by (apply (f_equal length) in H2; by rewrite !length_map in H2).
  eapply answers_weaken; [apply IH; [done|by rewrite El|rewrite H4; intros HLp; specialize (HL HLp); lia]|].
  intros t2 (G1 & G2 & G3 & G4). split; [done|]. split; [congruence|]. split; [congruence|]. cbn [length]. lia.
Qed.

Lemma shape_edge_in t t' e : map shape t' = map shape t -> edge_in t e -> edge_in t' e.
Proof.
  intros Es (node & E & Ha). apply (f_equal (fun l => l !! e.1)) in Es.
  change (map shape) with (fmap (M := list) shape) in Es. rewrite !list_lookup_fmap, E in Es. cbn in Es.
  destruct (t' !! e.1) as [node'|] eqn:E'; [|done]. cbn in Es. injection Es as _ _ _ El.
  exists node'. split; [done|]. by rewrite El.
Qed.

Lemma credit_edges_spec L v path : forall t, tree_ok t -> Forall (edge_in t) path -> Z.abs v <= 10000 ->
  (L -> edge_total t + Z.of_nat (length path) <= u32_max) ->
  answers L (try_fold (credit_edge v) t path) (fun t' =>
    tree_ok t' /\ map shape t' = map shape t /\ map visits t' = map visits t
    /\ edge_total t' = edge_total t + Z.of_nat (length path)
    /\ (forall e, visits_at t' e = visits_at t e + occurrences e path)
    /\ (forall i, visits_from t' i = visits_from t i + departures i path)).
Proof.
  induction path as [|e path IH]; intros t Ht Hp Hv HL; cbn [try_fold].
  { cbn. split; [done|]. split; [done|]. split; [done|]. split; [lia|].
    split; intros; unfold occurrences, departures; cbn; lia. }
  apply Forall_cons in Hp as [He Hp]. cbn [length] in HL.
  eapply answers_bind; [apply credit_edge_spec; [done|done|done|intros HLp; specialize (HL HLp); lia]|].
  intros t1 _ (H1 & H2 & H3 & H4 & H5 & H6).
  eapply answers_weaken; [apply IH; [done| |done|rewrite H4; intros HLp; specialize (HL HLp); lia]|].
  { eapply Forall_impl; [exact Hp|]. intros x. by apply shape_edge_in. }
  intros t2 (G1 & G2 & G3 & G4 & G5 & G6). split; [done|]. split; [congruence|]. split; [congruence|].
  cbn [length]. split; [lia|]. split.
  - intros x. rewrite G5, H5, occurrences_cons. lia.
  - intros x. rewrite G6, H6, departures_cons. lia.
Qed.
