(* ===== verification/SearchWalk.v ===== *)
(** * The model-guided search: one simulation

    What a walk does to the tree, the counters and the paths, whatever the session
    and the evaluator answer; and that over a lawful session it cannot fail. *)

From stdpp Require Import strings.
From S2P Require Import Prelude Ids Bytes Hamilton SearchMath SearchMathFacts SearchAuthority SearchTree SearchTreeFacts.

Local Open Scope Z_scope.

(* ------------------------------------------------------------------ *)
(** ** Growth of the tree *)

(** A node without its links. *)
Definition core (node : ModelGuidedSearchNodeV1) : bytes * PlayerId * list Z * nat * Z * list (Z * Z) :=
  (shape node, visits node, map (fun a => (stat_visits a, value_sum a)) (actions node)).

Definition fresh (node : ModelGuidedSearchNodeV1) : Prop :=
  visits node = 0 /\ Forall (fun a => stat_visits a = 0 /\ value_sum a = 0) (actions node).

(** Links may be added, and one new node. *)
Definition grows (t t' : ModelGuidedSearchTreeV1) : Prop :=
  exists extra, map core t' = map core t ++ map core extra /\ (length extra <= 1)%nat /\ Forall fresh extra.

Lemma core_eq n n' : core n = core n' ->
  shape n = shape n' /\ visits n = visits n'
  /\ map stat_visits (actions n) = map stat_visits (actions n')
  /\ (node_ok n' -> node_ok n).
Proof.
  unfold core. intros E. injection E as E1 E2 E3 E4 E5 E6.
  assert (map stat_visits (actions n) = map stat_visits (actions n')) as Ev.
  { apply (f_equal (map fst)) in E6. rewrite !map_map in E6. exact E6. }
  split; [unfold shape; congruence|]. split; [done|]. split; [done|].
  intros (Hp & Hst & Hv). split; [congruence|]. split; [|congruence].
  clear -E6 Hst. revert E6. generalize (actions n). intros l. revert l.
  induction Hst as [|a l' Ha Hl IH]; intros [|b l] E; try done.
  cbn in E. injection E as E1 E2 E3. constructor; [|by apply IH].
  unfold stat_ok in *. by rewrite E1, E2.
Qed.

Lemma grows_refl t : grows t t.
Proof. exists []. cbn. rewrite app_nil_r. split; [done|]. split; [lia|done]. Qed.

Lemma grows_length t t' : grows t t' -> (length t <= length t' <= S (length t))%nat.
Proof.
  intros (extra & E & Hl & _). apply (f_equal length) in E.
  rewrite length_app, !length_map in E. lia.
Qed.

Lemma grows_lookup t t' i n : grows t t' -> t !! i = Some n -> exists n', t' !! i = Some n' /\ core n' = core n.
Proof.
  intros (extra & E & _) Ei. apply (f_equal (fun l => l !! i)) in E.
  rewrite lookup_app_l in E by (rewrite length_map; by eapply lookup_lt_Some).
  change (map core) with (fmap (M := list) core) in E. rewrite !list_lookup_fmap, Ei in E. cbn in E.
  destruct (t' !! i) as [n'|]; [|done]. cbn in E. exists n'. split; [done|]. congruence.
Qed.

Lemma grows_edge_in t t' e : grows t t' -> edge_in t e -> edge_in t' e.
Proof.
  intros Hg (n & En & Ha). destruct (grows_lookup _ _ _ _ Hg En) as (n' & En' & Ec).
  exists n'. split; [done|]. apply core_eq in Ec as (Es & _). injection Es as _ _ _ El. by rewrite El.
Qed.

Lemma fresh_totals extra : Forall fresh extra -> edge_total extra = 0 /\ node_total extra = 0.
Proof.
  unfold edge_total, node_total.
  induction 1 as [|n l [Hv Hn] Hl [IH1 IH2]]; cbn [map]; [done|]. rewrite !sumZ_cons, IH1, IH2, Hv.
  split; [|done]. rewrite Z.add_0_r. unfold edge_visits. clear -Hn.
  induction Hn as [|a l [Ha _] Hl IH]; [done|]. cbn [map]. by rewrite sumZ_cons, IH, Ha.
Qed.

Lemma core_totals t t' : map core t = map core t' -> edge_total t = edge_total t' /\ node_total t = node_total t'.
Proof.
  revert t'. unfold edge_total, node_total. induction t as [|n t IH]; intros [|n' t'] E; try done.
  cbn [map] in E |- *. apply (f_equal (fun l => (head l, tail l))) in E. cbn [head tail hd tl] in E.
  injection E as E1 E2 E3 E4 E5 E6 E7.
  assert (core n = core n') as Ec by (unfold core, shape; congruence).
  apply core_eq in Ec as (_ & Ev & Es & _). destruct (IH t' E7) as [I1 I2].
  rewrite !sumZ_cons, I1, I2, Ev. split; [|done]. unfold edge_visits. by rewrite Es.
Qed.

Lemma map_app_inv {A B} (f : A -> B) l l1 l2 : map f l = l1 ++ l2 ->
  exists a b, l = a ++ b /\ map f a = l1 /\ map f b = l2.
Proof.
  intros E. exists (take (length l1) l), (drop (length l1) l). split; [by rewrite take_drop|].
  rewrite <- firstn_map, <- skipn_map, E. split; [apply take_app_length|apply drop_app_length].
Qed.

Lemma grows_totals t t' : grows t t' -> edge_total t' = edge_total t /\ node_total t' = node_total t.
Proof.
  intros (extra & E & _ & Hf). apply map_app_inv in E as (a & b & -> & Ea & Eb).
  destruct (core_totals _ _ Ea) as [<- <-], (core_totals _ _ Eb) as [E1 E2].
  destruct (fresh_totals extra Hf) as [F1 F2]. rewrite F1 in E1. rewrite F2 in E2.
  unfold edge_total, node_total in *. rewrite !map_app, !sumZ_app. lia.
Qed.

(** Growth does not change what is counted. *)
Lemma grows_visits t t' : grows t t' ->
  (forall e, visits_at t' e = visits_at t e) /\ (forall i, visits_from t' i = visits_from t i).
Proof.
  intros Hg. pose proof Hg as (extra & E & Hl & Hf).
  assert (forall i n', t !! i = None -> t' !! i = Some n' ->
    map stat_visits (actions n') = map (fun _ => 0) (actions n')) as Hnew.
  { intros i n' En En'. apply map_app_inv in E as (a & b & -> & Ea & Eb).
    apply (f_equal length) in Ea as El. rewrite !length_map in El.
    apply lookup_ge_None in En. rewrite lookup_app_r in En' by lia.
    assert (core n' ∈ map core extra) as Hin.
    { rewrite <- Eb. apply list_elem_of_fmap. exists n'. split; [done|]. by eapply list_elem_of_lookup_2. }
    apply list_elem_of_fmap in Hin as (x & Ex & Hx). rewrite Forall_forall in Hf.
    destruct (Hf x Hx) as [_ Hz]. apply core_eq in Ex as (Es & _ & Ev & _). rewrite Ev.
    assert (length (actions n') = length (actions x)) as Ll by (unfold shape in Es; congruence).
    clear -Hz Ll. revert Ll. generalize (actions n'). induction Hz as [|y l [Hy _] Hl IH]; intros [|z m] Ll; try done.
    cbn. rewrite Hy. f_equal. apply IH. by injection Ll. }
  assert (forall l : list SearchActionStatV1, sumZ (map (fun _ => 0) l) = 0) as Hzero
    by (induction l; cbn [map]; rewrite ?sumZ_cons; lia || done).
  split.
  - intros [i a]. unfold visits_at. cbn [fst snd]. destruct (t !! i) as [n|] eqn:En; cbn.
    + destruct (grows_lookup _ _ _ _ Hg En) as (n' & -> & Ec). cbn.
      apply core_eq in Ec as (_ & _ & Ev & _). apply (f_equal (fun l => l !! a)) in Ev.
      change (map stat_visits) with (fmap (M := list) stat_visits) in Ev. rewrite !list_lookup_fmap in Ev.
      destruct (actions n' !! a), (actions n !! a); cbn in *; congruence.
    + destruct (t' !! i) as [n'|] eqn:En'; [|done]. cbn.
      pose proof (Hnew i n' En En') as Hz. apply (f_equal (fun l => l !! a)) in Hz.
      change (map ?f) with (fmap (M := list) f) in Hz. rewrite !list_lookup_fmap in Hz.
      destruct (actions n' !! a); cbn in *; congruence.
  - intros i. unfold visits_from. destruct (t !! i) as [n|] eqn:En; cbn.
    + destruct (grows_lookup _ _ _ _ Hg En) as (n' & -> & Ec). cbn.
      apply core_eq in Ec as (_ & _ & Ev & _). unfold edge_visits. by rewrite Ev.
    + destruct (t' !! i) as [n'|] eqn:En'; [|done]. cbn. unfold edge_visits.
      by rewrite (Hnew i n' En En').
Qed.

(** Linking a child changes no core. *)
Lemma map_alter_same {A B} (f : A -> B) (g : A -> A) (l : list A) : forall i,
  (forall x, l !! i = Some x -> f (g x) = f x) -> map f (alter g i l) = map f l.
Proof.
  induction l as [|x l IH]; intros [|i] H; try done.
  - cbn. by rewrite (H x).
  - change (alter g (S i) (x :: l)) with (x :: alter g i l). cbn [map]. f_equal. apply IH.
    intros y Ey. by apply H.
Qed.

Lemma push_child_core t i a child : map core (push_child t i a child) = map core t.
Proof.
  apply map_alter_same. intros n _. unfold core, shape. cbn. rewrite length_alter. f_equal.
  by apply map_alter_same.
Qed.

Lemma same_core_grows t t' : map core t' = map core t -> grows t t'.
Proof. intros E. exists []. cbn. rewrite app_nil_r. split; [done|]. split; [lia|done]. Qed.

Lemma same_core_ok t t' : map core t' = map core t -> tree_ok t -> tree_ok t'.
Proof.
  intros E [Ht Hk]. assert (map node_key t' = map node_key t) as Ek.
  { clear -E. revert t' E. induction t as [|n t IH]; intros [|n' t'] E; try done. cbn [map] in *.
    apply (f_equal (fun l => (head l, tail l))) in E. cbn [head tail hd tl] in E.
    injection E as E1 E2 E3 E4 E5 E6 E7. f_equal; [done|by apply IH]. }
  split; [|by rewrite Ek]. apply Forall_lookup_2. intros i n' En'.
  destruct (grows_lookup t' t i n' (same_core_grows _ _ (eq_sym E)) En') as (n & En & Ec).
  apply core_eq in Ec as (_ & _ & _ & _). destruct (grows_lookup t t' i n (same_core_grows _ _ E) En) as (n'' & En'' & Ec).
  rewrite En' in En''. injection En'' as <-. apply core_eq in Ec as (_ & _ & _ & Hok).
  apply Hok. exact (Forall_lookup_1 _ _ _ _ Ht En).
Qed.

Lemma grows_then_links t t' t'' : grows t t' -> map core t'' = map core t' -> grows t t''.
Proof. intros (extra & E & H) E'. exists extra. by rewrite E', E. Qed.

Lemma links_then_grows t t' t'' : map core t' = map core t -> grows t' t'' -> grows t t''.
Proof. intros E' (extra & E & H). exists extra. by rewrite E, E'. Qed.

Lemma find_node_some t key i : find_node t key = Some i -> exists n, t !! i = Some n /\ node_key n = key.
Proof.
  unfold find_node. destruct (list_find _ t) as [[j n]|] eqn:E; cbn; [|done]. intros [= <-].
  apply list_find_Some in E as (E & Hk & _). by exists n.
Qed.

Lemma find_node_none t key : find_node t key = None -> key ∉ map node_key t.
Proof.
  unfold find_node. destruct (list_find _ t) as [[j n]|] eqn:E; cbn; [done|]. intros _ Hin.
  apply list_find_None in E. apply list_elem_of_fmap in Hin as (n & -> & Hn).
  rewrite Forall_forall in E. by apply (E n Hn).
Qed.

Definition new_node_of (key : bytes) (who : PlayerId) (p : list Z) : ModelGuidedSearchNodeV1 :=
  MkNode key who 0 (replicate (length p) (MkStat 0 0 [])) p.

Lemma new_node_facts key who p : is_prior (length p) p ->
  new_node key who p = Ok (new_node_of key who p) /\ node_ok (new_node_of key who p)
  /\ fresh (new_node_of key who p).
Proof.
  intros Hp. unfold new_node. rewrite decide_False by (intros ->; by destruct Hp as (_ & _ & ?)).
  split; [done|]. unfold new_node_of. split.
  - unfold node_ok. cbn. rewrite length_replicate. split; [done|]. split; [|lia].
    apply Forall_replicate. by split.
  - split; [done|]. cbn. by apply Forall_replicate.
Qed.

(** One of the four leaf counts went up; the depths are counted later. *)
Definition leaf_counted (c c' : ModelGuidedSearchLeafCensusV1) : Prop :=
  c' = count_natural c \/ c' = count_truncated c \/ c' = count_expanded c \/ c' = count_depth_cap c.

(* ------------------------------------------------------------------ *)
(** ** Lawful sessions *)

Section Walks.
Context {Session : Type} `{!SearchSession Session} `{!LeafEvaluator Session} `{!SearchBuild}.

(** What the types of the source promise: the action count is a [u32] and every
    float is 32 bits. *)
Record typed_session : Prop := {
  typed_response : forall s d, current_response s = Decision d -> 0 <= legal_action_count d <= u32_max;
  typed_consume : forall s b i s' d, consume_current_flat_action_slice_v2 s b i = Ok (s', Decision d) ->
    0 <= legal_action_count d <= u32_max;
  typed_forward : forall s k c site f, evaluate_leaf_v1 s k c site = Ok f ->
    Forall (fun b => 0 <= b < 2 ^ 32) (legal_action_weights f) /\ 0 <= v_raw f < 2 ^ 32;
}.

(** A game that ended by the rules, with a winner or a draw: it was not halted, and not
    cut off by a cap of its session, where the evaluators refuse to answer
    (NoLiveDecisionToEncode). *)
Definition scorable (t : RlSessionTerminalV1) : Prop :=
  terminal_classification t = Natural /\ terminal_outcome t ∈ [P0Win; P1Win; DrawGame].

(** A session that keeps its word for the next [n] answers, among the states [good n]:
    keys are made, and tell decisions apart; every offered action can be taken, and
    leads to a state that keeps its word for one answer less; a copy for a simulation
    shows the searching player the same decision; and asked about the decision the
    session shows, the evaluator answers with a weight per action, not all zero, and a
    value of its domain. Nothing is asked of the evaluator at a terminal, or for
    another number of actions. *)
Record lawful (good : nat -> Session -> Prop) (value_domain : ModelGuidedSearchValueHeadDomainV1) : Prop := {
  law_count : forall n s d, good n s -> current_response s = Decision d -> 1 <= legal_action_count d <= u32_max;
  law_key : forall n s d r, good n s -> current_response s = Decision d ->
    exists k, search_node_key_v1 s d r = Ok k;
  law_key_identifies : forall n s d r n' s' d' r' k, good n s -> good n' s' ->
    current_response s = Decision d -> current_response s' = Decision d' ->
    search_node_key_v1 s d r = Ok k -> search_node_key_v1 s' d' r' = Ok k ->
    acting_player d = acting_player d' /\ legal_action_count d = legal_action_count d';
  law_step : forall n s d, good (S n) s -> current_response s = Decision d ->
    exists b, native_full_trajectory_current_binding_v2 s d = Ok b /\
    forall i, 0 <= i < legal_action_count d ->
    exists s' response, consume_current_flat_action_slice_v2 s b i = Ok (s', response)
      /\ good n s' /\ current_response s' = response
      /\ match response with Terminal t => scorable t | Decision _ => True end;
  law_clone : forall n s d seed, good n s -> current_response s = Decision d ->
    exists s', kernel_search_redeterminized_clone_v1 s seed = Ok s' /\ good n s'
      /\ current_response s' = Decision d
      /\ forall r, search_node_key_v1 s' d r = search_node_key_v1 s d r;
  law_evaluate : forall n s d k site, good n s -> current_response s = Decision d ->
    exists f, evaluate_leaf_v1 s k (legal_action_count d) site = Ok f
      /\ Z.of_nat (length (legal_action_weights f)) = legal_action_count d
      /\ Forall unit_weight (legal_action_weights f)
      /\ 0 < sumZ (map weight_units (legal_action_weights f))
      /\ forall is_root, exists v, quantize_value_v1 value_domain (v_raw f) is_root = Ok v;
}.

Context (typed : typed_session) (good : nat -> Session -> Prop)
        (value_domain : ModelGuidedSearchValueHeadDomainV1)
        (L : Prop) (laws : L -> lawful good value_domain).

(** A node of the tree stands for a decision of a good session. *)
Definition known (node : ModelGuidedSearchNodeV1) : Prop :=
  exists n s d r, good n s /\ current_response s = Decision d
    /\ search_node_key_v1 s d r = Ok (node_key node)
    /\ actor node = player_id_v1 (acting_player d)
    /\ Z.of_nat (length (actions node)) = legal_action_count d.

Lemma known_shape n n' : shape n = shape n' -> known n -> known n'.
Proof.
  unfold shape, known. intros E. injection E as -> -> _ ->. done.
Qed.

Lemma quantize_value_bounds v is_root r : 0 <= v < 2 ^ 32 ->
  quantize_value value_domain v is_root = Ok r -> Z.abs r <= 10000.
Proof.
  intros Hv. unfold quantize_value, quantize_value_v1.
  destruct (canonicalize_to_unit_domain_v1 value_domain v) as [u|e] eqn:E; cbn [result_bind lift_error]; [|done].
  rewrite round_and_clamp_runs by apply Float32.f32_mul_range. case_match; [|done].
  cbn [lift_error]. intros E'. apply Ok_inj in E' as <-. unfold value_units. lia.
Qed.

(** The session shows the decision that the evaluator is asked about. *)
Definition live_decision s (count : Z) : Prop :=
  exists n d, good n s /\ current_response s = Decision d /\ count = legal_action_count d.

Lemma live_evaluates s k count site : L -> live_decision s count ->
  exists f, evaluate_leaf_v1 s k count site = Ok f
    /\ Z.of_nat (length (legal_action_weights f)) = count
    /\ Forall unit_weight (legal_action_weights f)
    /\ 0 < sumZ (map weight_units (legal_action_weights f))
    /\ forall is_root, exists v, quantize_value_v1 value_domain (v_raw f) is_root = Ok v.
Proof using laws. intros HLp (n & d & Hg & Hc & ->). by apply (law_evaluate _ _ (laws HLp) n). Qed.

Lemma dispatch_answers s key count is_root : (L -> live_decision s count) ->
  answers L (dispatch_revisited_leaf_value_v1 value_domain s key count is_root) (fun v => Z.abs v <= 10000).
Proof using typed laws.
  intros HL. unfold dispatch_revisited_leaf_value_v1.
  eapply (answers_bind L _ _ (fun f => evaluate_leaf_v1 s key count RevisitedDepthCapLeaf = Ok f)).
  - apply answers_lift; [done|]. intros HLp.
    destruct (live_evaluates s key count RevisitedDepthCapLeaf HLp (HL HLp)) as (f & Ef & _). by exists f.
  - intros f _ Ef. destruct (typed_forward typed _ _ _ _ _ Ef) as [_ Hv]. unfold quantize_value.
    apply answers_lift.
    + intros v Ev. apply (quantize_value_bounds (v_raw f) is_root v Hv). unfold quantize_value. by rewrite Ev.
    + intros HLp.
      destruct (live_evaluates s key count RevisitedDepthCapLeaf HLp (HL HLp)) as (f' & Ef' & _ & _ & _ & Hq).
      rewrite Ef in Ef'. injection Ef' as <-. apply Hq.
Qed.

Lemma terminal_answers s t root_player c : (L -> scorable t) ->
  answers L (terminal_value_puct_v1 value_domain s t root_player c) (fun '(v, c') =>
    Z.abs v <= 10000 /\ leaf_counted c c').
Proof using typed laws.
  intros HL. unfold terminal_value_puct_v1, scorable in *. destruct (terminal_classification t).
  - eapply (answers_bind L _ _ (fun v => Z.abs v <= 10000)).
    + apply answers_lift.
      * intros v. unfold natural_terminal_value_v1.
        destruct (terminal_outcome t); repeat case_decide; intros [= <-]; lia.
      * intros HLp. destruct (HL HLp) as [_ Hs]. unfold natural_terminal_value_v1.
        rewrite !elem_of_cons, elem_of_nil in Hs.
        destruct Hs as [->|[->|[->|[]]]]; repeat case_decide; eauto.
    + intros v _ Hv. split; [done|]. by left.
  - eapply answers_bind; [apply dispatch_answers; intros HLp; by destruct (HL HLp)|].
    intros v _ Hv. split; [done|]. right. by left.
  - cbn. intros HLp. by destruct (HL HLp).
Qed.

Lemma known_core t t' : map core t' = map core t -> Forall known t -> Forall known t'.
Proof.
  intros E Ht. apply Forall_lookup_2. intros i n' En'.
  destruct (grows_lookup t' t i n' (same_core_grows _ _ (eq_sym E)) En') as (n & En & Ec).
  apply core_eq in Ec as (Es & _). apply (known_shape n); [done|]. exact (Forall_lookup_1 _ _ _ _ Ht En).
Qed.

Lemma prior_answers s k count site f : evaluate_leaf_v1 s k count site = Ok f ->
  0 <= Z.of_nat (length (legal_action_weights f)) <= u32_max ->
  (L -> live_decision s count) ->
  answers L (lift_error Prior (quantize_prior_v1 (legal_action_weights f))) (fun p =>
    is_prior (length (legal_action_weights f)) p).
Proof using typed laws.
  intros Ef Hlen HL. destruct (typed_forward typed _ _ _ _ _ Ef) as [Hw _].
  apply answers_lift.
  - intros p Ep. by destruct (quantize_prior_is_prior _ _ Hw ltac:(unfold u32_max in *; lia) Ep).
  - intros HLp. destruct (live_evaluates s k count site HLp (HL HLp)) as (f' & Ef' & Elen & Hu & Hs & _).
    rewrite Ef in Ef'. injection Ef' as <-.
    rewrite quantize_prior_runs; [|by intros E; rewrite E in Hs|done|unfold u32_max in *; lia].
    destruct (list_find _ _) as [[j b]|] eqn:Efind.
    + apply list_find_Some in Efind as (Ej & Hb & _). destruct Hb. exact (Forall_lookup_1 _ _ _ _ Hu Ej).
    + rewrite decide_False by lia. by eexists.
Qed.

Lemma expand_answers root_player w ni ai next_key d depth node :
  tree_ok (walk_tree w) -> (L -> Forall known (walk_tree w)) ->
  walk_tree w !! ni = Some node -> (ai < length (actions node))%nat ->
  find_node (walk_tree w) next_key = None -> 0 <= legal_action_count d <= u32_max ->
  (L -> good depth (walk_session w) /\ current_response (walk_session w) = Decision d
        /\ search_node_key_v1 (walk_session w) d depth = Ok next_key) ->
  answers L (expand value_domain root_player w ni ai next_key d) (fun '(w', v) =>
    tree_ok (walk_tree w') /\ grows (walk_tree w) (walk_tree w') /\ (L -> Forall known (walk_tree w'))
    /\ length (walk_tree w') = S (length (walk_tree w))
    /\ walk_transitions w' = walk_transitions w /\ edge_path w' = edge_path w
    /\ node_path w' = node_path w ++ [length (walk_tree w)]
    /\ leaf_counted (walk_census w) (walk_census w') /\ Z.abs v <= 10000).
Proof using typed laws.
  intros Hok Hknown Eni Hai Hnone Hcount HL. unfold expand.
  assert (L -> live_decision (walk_session w) (legal_action_count d)) as HL'
    by (intros HLp; destruct (HL HLp) as (Hg & Hc & _); by exists depth, d).
  eapply (answers_bind L _ _ (fun f => evaluate_leaf_v1 (walk_session w) next_key (legal_action_count d) NewlyExpandedNode = Ok f)).
  { apply answers_lift; [done|]. intros HLp.
    destruct (live_evaluates _ next_key _ NewlyExpandedNode HLp (HL' HLp)) as (f & Ef & _). by exists f. }
  intros f _ Ef. case_decide as Elen.
  { cbn. intros HLp.
    destruct (live_evaluates _ next_key _ NewlyExpandedNode HLp (HL' HLp)) as (f' & Ef' & El & _).
    rewrite Ef in Ef'. injection Ef' as <-. by apply Elen. }
  eapply answers_bind; [apply (prior_answers _ _ _ _ _ Ef); [lia|done]|].
  intros p _ Hp. assert (length p = length (legal_action_weights f)) as Elp by apply Hp.
  rewrite <- Elp in Hp. destruct (new_node_facts next_key (player_id_v1 (acting_player d)) p Hp) as (-> & Hnok & Hfresh).
  set (created := new_node_of next_key _ p) in *. cbn [result_bind].
  pose proof (lookup_lt_Some _ _ _ Eni) as Hni.
  assert ((walk_tree w ++ [created]) !! ni = Some node) as Eni' by (by rewrite lookup_app_l).
  unfold at_index at 1. rewrite Eni'. cbn [ok_or result_bind].
  destruct (lookup_lt_is_Some_2 _ _ Hai) as [stat Es]. unfold at_index. rewrite Es. cbn [ok_or result_bind].
  destruct (typed_forward typed _ _ _ _ _ Ef) as [_ Hv].
  eapply (answers_bind L _ _ (fun v => Z.abs v <= 10000)).
  { unfold quantize_value. apply answers_lift.
    - intros v Ev. eapply (quantize_value_bounds (v_raw f)); [done|]. unfold quantize_value. by rewrite Ev.
    - intros HLp.
      destruct (live_evaluates _ next_key _ NewlyExpandedNode HLp (HL' HLp)) as (f' & Ef' & _ & _ & _ & Hq).
      rewrite Ef in Ef'. injection Ef' as <-. apply Hq. }
  intros v _ Hvb. cbn [answers walk_tree walk_transitions edge_path node_path walk_census].
  assert (map core (push_child (walk_tree w ++ [created]) ni ai (length (walk_tree w)))
          = map core (walk_tree w ++ [created])) as Ec by apply push_child_core.
  assert (tree_ok (walk_tree w ++ [created])) as Hok1.
  { destruct Hok as [H1 H2]. split; [by apply Forall_app_2; [|constructor]|].
    rewrite map_app. apply NoDup_app. split; [done|]. split; [|apply NoDup_singleton].
    intros k Hk ->%list_elem_of_singleton. by apply (find_node_none _ _ Hnone). }
  assert (L -> Forall known (walk_tree w ++ [created])) as Hk1.
  { intros HLp. apply Forall_app_2; [by apply Hknown|]. constructor; [|done].
    destruct (HL HLp) as (Hg & Hc & Ek). exists depth, (walk_session w), d, depth. split; [done|]. split; [done|].
    split; [done|]. split; [done|]. cbn. rewrite length_replicate, Elp. lia. }
  split; [by apply (same_core_ok _ _ Ec)|].
  split; [exists [created]; rewrite Ec, map_app; split; [done|]; split; [done|by constructor]|].
  split; [intros HLp; by apply (known_core _ _ Ec), Hk1|].
  split; [apply (f_equal length) in Ec; rewrite !length_map, length_app in Ec; cbn in Ec; lia|].
  split; [done|]. split; [done|]. split; [done|]. split; [right; right; by left|done].
Qed.

Lemma leaf_at_node_answers root_player w node :
  (L -> exists n d, good n (walk_session w) /\ current_response (walk_session w) = Decision d
        /\ Z.of_nat (length (actions node)) = legal_action_count d) -> node_ok node ->
  answers L (leaf_at_node value_domain root_player w node) (fun '(w', v) =>
    walk_tree w' = walk_tree w /\ walk_transitions w' = walk_transitions w /\ edge_path w' = edge_path w
    /\ node_path w' = node_path w
    /\ leaf_counted (walk_census w) (walk_census w') /\ Z.abs v <= 10000).
Proof using typed laws.
  intros HL Hok. unfold leaf_at_node. eapply answers_bind.
  - apply dispatch_answers. intros HLp. destruct (HL HLp) as (n & d & Hg & Hc & El). exists n, d. split_and!; [done..|].
    pose proof (law_count _ _ (laws HLp) n _ d Hg Hc). rewrite El. unfold wrap_u32, u32_max in *. by rewrite Z.mod_small by lia.
  - intros v _ Hv. cbn. split; [done|]. split; [done|]. split; [done|]. split; [done|].
    split; [right; right; by right|done].
Qed.

Lemma link_child_answers t ni ai child node : tree_ok t -> t !! ni = Some node -> (ai < length (actions node))%nat ->
  answers L (link_child t ni ai child) (fun t' => map core t' = map core t).
Proof.
  intros Hok E Ha. unfold link_child, at_index at 1. rewrite E. cbn [ok_or result_bind].
  eapply (answers_bind L _ _ (fun _ => True)); [by apply answers_at_index|].
  intros stat _ _. case_decide; cbn; [done|]. apply push_child_core.
Qed.

Lemma choose_answers root_player node ni forced :
  node_ok node ->
  (L -> ni = 0%nat -> forall f, forced = Some f -> (Z.to_nat f < length (actions node))%nat) ->
  answers L (choose_action node ni root_player forced) (fun ai =>
    (ni = 0%nat -> forall f, forced = Some f -> ai = Z.to_nat f)
    /\ (L -> (ai < length (actions node))%nat)).
Proof.
  intros Hok HL. unfold choose_action.
  assert (answers L (select_tree_action_puct_v1 node root_player) (fun ai => (ai < length (actions node))%nat)) as Hs.
  { eapply answers_weaken; [by apply select_tree_action_runs|].
    intros i (a & p & Ea & _). by eapply lookup_lt_Some. }
  case_decide as E0; [destruct forced as [f|]|].
  - cbn. split; [by intros _ f' [= ->]|]. intros HLp. by apply HL.
  - eapply answers_weaken; [exact Hs|]. intros ai Hai. by split.
  - eapply answers_weaken; [exact Hs|]. intros ai Hai. by split.
Qed.

(** What a walk with [depth] transitions at most has done from the node [ni] on. *)
Definition walked (root_player : PlayerId) (budget : Z) (forced : option Z) (depth ni : nat)
    (w w' : Walk (Session := Session)) (v : Z) : Prop :=
  exists edges nodes,
    edge_path w' = edge_path w ++ edges /\ node_path w' = node_path w ++ nodes
    /\ walk_transitions w' = walk_transitions w + Z.of_nat (length edges)
    /\ walk_transitions w' <= budget /\ (length edges <= depth)%nat /\ (length nodes <= length edges)%nat
    /\ ((0 < depth)%nat -> walk_transitions w < budget -> exists a rest, edges = (ni, a) :: rest
          /\ (ni = 0%nat -> forall f, forced = Some f -> a = Z.to_nat f))
    /\ (is_Some forced -> (length edges <= 1)%nat)
    /\ tree_ok (walk_tree w') /\ grows (walk_tree w) (walk_tree w') /\ (L -> Forall known (walk_tree w'))
    /\ Forall (edge_in (walk_tree w')) edges /\ Forall (fun i => (i < length (walk_tree w'))%nat) nodes
    /\ leaf_counted (walk_census w) (walk_census w') /\ Z.abs v <= 10000.

Lemma known_decision n s d r node : L -> good n s -> current_response s = Decision d ->
  search_node_key_v1 s d r = Ok (node_key node) -> known node ->
  actor node = player_id_v1 (acting_player d) /\ Z.of_nat (length (actions node)) = legal_action_count d.
Proof using laws.
  intros HLp Hg Hc Ek (n0 & s0 & d0 & r0 & Hg0 & Hc0 & Ek0 & -> & ->).
  destruct (law_key_identifies _ _ (laws HLp) n s d r n0 s0 d0 r0 _ Hg Hg0 Hc Hc0 Ek Ek0) as [-> ->]. done.
Qed.

(** A walk that ends after one transition, or none. *)
Lemma key_answers s d r : (L -> exists k, search_node_key_v1 s d r = Ok k) ->
  answers L (search_node_key_v1 s d r) (fun k => search_node_key_v1 s d r = Ok k).
Proof.
  intros HL. destruct (search_node_key_v1 s d r) as [k|[|e]] eqn:E; cbn; [done| |].
  - unfold search_node_key_v1 in E. destruct (flat_policy_observation_v2 s d); cbn in E; [|done].
    destruct (diagnostic_current_action_semantics s); cbn in E; [|done].
    by destruct (envelope_to_vec _ _ _).
  - intros HLp. by destruct (HL HLp).
Qed.

(** A transition leads to a typed response, and over a lawful session it is made. *)
Lemma take_action_answers n s d ai transitions :
  current_response s = Decision d -> 0 <= transitions < u32_max ->
  (L -> good (S n) s /\ Z.of_nat ai < legal_action_count d) ->
  answers L (take_action s d ai transitions) (fun '(s', response, transitions') =>
    transitions' = transitions + 1
    /\ (forall next, response = Decision next -> 0 <= legal_action_count next <= u32_max)
    /\ (L -> good n s' /\ current_response s' = response
          /\ match response with Terminal t => scorable t | Decision _ => True end)).
Proof using typed laws.
  intros Eresp Htr HL. unfold take_action.
  pose proof (typed_response typed s d Eresp) as Hcount. unfold u32_max in Hcount.
  eapply (answers_bind L _ _ (fun b => native_full_trajectory_current_binding_v2 s d = Ok b)).
  { apply answers_lift; [done|]. intros HLp.
    destruct (law_step _ _ (laws HLp) _ _ _ (proj1 (HL HLp)) Eresp) as (b & Eb & _). by exists b. }
  intros b _ Eb.
  assert (L -> exists s' response, consume_current_flat_action_slice_v2 s b (wrap_u32 (Z.of_nat ai))
      = Ok (s', response) /\ good n s' /\ current_response s' = response
      /\ match response with Terminal t => scorable t | Decision _ => True end) as HLs.
  { intros HLp. destruct (HL HLp) as [Hg Hai].
    destruct (law_step _ _ (laws HLp) _ _ _ Hg Eresp) as (b' & Eb' & Hstep).
    rewrite Eb in Eb'. injection Eb' as <-. unfold wrap_u32. rewrite Z.mod_small by lia. apply Hstep. lia. }
  eapply (answers_bind L _ _ (fun p =>
    consume_current_flat_action_slice_v2 s b (wrap_u32 (Z.of_nat ai)) = Ok p)).
  { apply answers_lift; [done|]. intros HLp. destruct (HLs HLp) as (s1 & r1 & E1 & _). by eexists. }
  intros [s' response] _ Estep.
  eapply (answers_bind L _ _ (fun c => c = transitions + 1)).
  { apply answers_or_corrupt; [by intros c [-> _]%checked_unsigned_some|].
    intros _. exists (transitions + 1). apply checked_unsigned_some. lia. }
  intros t _ ->. cbn. split; [done|]. split; [intros next ->; by apply (typed_consume typed _ _ _ _ _ Estep)|].
  intros HLp. destruct (HLs HLp) as (s1 & r1 & E1 & H1). rewrite Estep in E1. injection E1 as -> ->. done.
Qed.

Lemma walked_leaf root_player budget forced depth ni w w' v :
  tree_ok (walk_tree w) -> (L -> Forall known (walk_tree w)) ->
  walk_tree w' = walk_tree w -> edge_path w' = edge_path w -> node_path w' = node_path w ->
  walk_transitions w' = walk_transitions w -> walk_transitions w <= budget ->
  (depth = 0%nat \/ budget <= walk_transitions w) ->
  leaf_counted (walk_census w) (walk_census w') -> Z.abs v <= 10000 ->
  walked root_player budget forced depth ni w w' v.
Proof.
  intros Hok Hk Et Ee En Etr Hb Hstop Hc Hv. exists [], []. rewrite Et, Ee, En, Etr, !app_nil_r.
  split; [done|]. split; [done|]. split; [cbn; lia|]. split; [done|]. split; [cbn; lia|]. split; [done|].
  split; [lia|]. split; [cbn; lia|]. split; [done|]. split; [apply grows_refl|]. by split_and!.
Qed.

Lemma walked_one root_player budget forced depth ni ai w w' v nodes node :
  walk_tree w !! ni = Some node -> (ai < length (actions node))%nat ->
  (ni = 0%nat -> forall f, forced = Some f -> ai = Z.to_nat f) ->
  edge_path w' = edge_path w ++ [(ni, ai)] -> node_path w' = node_path w ++ nodes ->
  (length nodes <= 1)%nat -> Forall (fun i => (i < length (walk_tree w'))%nat) nodes ->
  walk_transitions w' = walk_transitions w + 1 -> walk_transitions w < budget ->
  tree_ok (walk_tree w') -> grows (walk_tree w) (walk_tree w') -> (L -> Forall known (walk_tree w')) ->
  leaf_counted (walk_census w) (walk_census w') -> Z.abs v <= 10000 ->
  walked root_player budget forced (S depth) ni w w' v.
Proof.
  intros En Ha Hf Ee Enp Hl Hn Etr Hb Hok Hg Hk Hc Hv. exists [(ni, ai)], nodes.
  split; [done|]. split; [done|]. split; [done|]. split; [lia|]. split; [cbn; lia|]. split; [cbn; lia|].
  split; [intros _ _; by exists ai, []|]. split; [cbn; lia|]. split; [done|]. split; [done|]. split; [done|].
  split; [|by split_and!]. constructor; [|done]. apply (grows_edge_in _ _ _ Hg). by exists node.
Qed.

(** A transition along a link, and the rest of the walk. *)
Lemma walked_cons root_player budget depth ni ai next w w1 w' v node :
  walk_tree w !! ni = Some node -> (ai < length (actions node))%nat ->
  map core (walk_tree w1) = map core (walk_tree w) ->
  edge_path w1 = edge_path w ++ [(ni, ai)] -> node_path w1 = node_path w ++ [next] ->
  (next < length (walk_tree w1))%nat ->
  walk_transitions w1 = walk_transitions w + 1 -> walk_transitions w < budget ->
  walk_census w1 = walk_census w ->
  walked root_player budget None depth next w1 w' v ->
  walked root_player budget None (S depth) ni w w' v.
Proof.
  intros En Ha Ec Ee Enp Hnext Etr Hb Ecs
    (edges & nodes & E1 & E2 & E3 & H4 & H5 & H6 & H7 & H8 & H9 & H10 & H11 & H12 & H13 & H14 & H15).
  exists ((ni, ai) :: edges), (next :: nodes). rewrite E1, E2, E3, Ee, Enp, Etr, <- !app_assoc.
  split; [done|]. split; [done|]. split; [cbn [length]; lia|]. split; [lia|]. split; [cbn; lia|].
  split; [cbn; lia|]. split; [intros _ _; by exists ai, edges|]. split; [by intros [? [=]]|].
  split; [done|]. assert (grows (walk_tree w) (walk_tree w')) as Hg by (by apply (links_then_grows _ _ _ Ec)).
  split; [done|]. split; [done|].
  split; [constructor; [apply (grows_edge_in _ _ _ Hg); by exists node|done]|].
  split; [constructor; [apply grows_length in H10; lia|done]|].
  rewrite <- Ecs. by split.
Qed.

(** Where a walk can go on from. *)
Definition ready (budget : Z) (forced : option Z) (depth ni : nat) (w : Walk (Session := Session))
    (node : ModelGuidedSearchNodeV1) : Prop :=
  tree_ok (walk_tree w) /\ (L -> Forall known (walk_tree w)) /\ walk_tree w !! ni = Some node
  /\ 0 <= walk_transitions w <= budget
  /\ (L -> good depth (walk_session w)
        /\ exists d, current_response (walk_session w) = Decision d
             /\ search_node_key_v1 (walk_session w) d depth = Ok (node_key node))
  /\ (L -> ni = 0%nat -> forall f, forced = Some f -> (Z.to_nat f < length (actions node))%nat).

(** What one turn leaves to be done. *)
Definition stepped (root_player : PlayerId) (budget : Z) (forced : option Z) (depth ni : nat)
    (w : Walk (Session := Session)) (flow : Flow) : Prop :=
  match flow with
  | Break w' v => walked root_player budget forced (S depth) ni w w' v
  | Continue next w1 =>
      (exists n, ready budget forced depth next w1 n)
      /\ forall w' v, walked root_player budget forced depth next w1 w' v ->
           walked root_player budget forced (S depth) ni w w' v
  end.

Lemma break_answers (r : answer (Walk * Z)) (Q : Walk * Z -> Prop) (P : Flow (Session := Session) -> Prop) :
  answers L r Q -> (forall w v, Q (w, v) -> P (Break w v)) -> answers L (break r) P.
Proof.
  intros Hr HP. unfold break. eapply answers_bind; [exact Hr|]. intros [w v] _ HQ. by apply HP.
Qed.

Section Step.
Context (root_player : PlayerId) (budget : Z) (forced : option Z) (depth ni ai : nat)
        (w w1 : Walk (Session := Session)) (node : ModelGuidedSearchNodeV1) (response : FastActorResponseV1).
Context (Hready : ready budget forced (S depth) ni w node) (Hbelow : walk_transitions w < budget)
        (Hai : (ai < length (actions node))%nat)
        (Hforce : ni = 0%nat -> forall f, forced = Some f -> ai = Z.to_nat f).
(** [w1] is [w] after the transition. *)
Context (Et : walk_tree w1 = walk_tree w) (Ec : walk_census w1 = walk_census w)
        (En : node_path w1 = node_path w) (Ee : edge_path w1 = edge_path w ++ [(ni, ai)])
        (Etr : walk_transitions w1 = walk_transitions w + 1)
        (Htyped : forall next, response = Decision next -> 0 <= legal_action_count next <= u32_max)
        (HL : L -> good depth (walk_session w1) /\ current_response (walk_session w1) = response
              /\ match response with Terminal t => scorable t | Decision _ => True end).

(** Ending here, with the tree grown by what the last step added. *)
Lemma ends_here w' v nodes :
  edge_path w' = edge_path w1 -> node_path w' = node_path w1 ++ nodes ->
  (length nodes <= 1)%nat -> Forall (fun i => (i < length (walk_tree w'))%nat) nodes ->
  walk_transitions w' = walk_transitions w1 ->
  tree_ok (walk_tree w') -> grows (walk_tree w1) (walk_tree w') -> (L -> Forall known (walk_tree w')) ->
  leaf_counted (walk_census w1) (walk_census w') -> Z.abs v <= 10000 ->
  walked root_player budget forced (S depth) ni w w' v.
Proof using Hready Hbelow Hai Hforce Et Ec En Ee Etr.
  clear Htyped HL. intros E1 E2 Hl Hn E3 Hok Hg Hk Hc Hv. destruct Hready as (_ & _ & El & _).
  rewrite ?Et, ?Ec, ?En, ?Ee in *. apply (walked_one _ _ _ _ _ ai _ _ _ nodes node); try done; [lia].
Qed.

Lemma goes_on next t1 n2 : forced = None -> map core t1 = map core (walk_tree w) -> t1 !! next = Some n2 ->
  (L -> exists d, response = Decision d /\ search_node_key_v1 (walk_session w1) d depth = Ok (node_key n2)) ->
  stepped root_player budget forced depth ni w
    (Continue next (MkWalk t1 (walk_session w1) (walk_transitions w1) (walk_census w1)
                           (node_path w1 ++ [next]) (edge_path w1))).
Proof using Hready Hbelow Hai Et Ec En Ee Etr HL.
  clear Htyped Hforce. intros Hf Ecore En2 Hkey. destruct Hready as (Hok & Hknown & El & Hb & _ & _). split.
  - exists n2. split; [by apply (same_core_ok _ _ Ecore)|]. cbn [walk_tree walk_transitions walk_session].
    split; [intros HLp; by apply (known_core _ _ Ecore), Hknown|]. split; [done|]. split; [lia|].
    split; [|rewrite Hf; by intros _ _ ? [=]]. intros HLp. destruct (HL HLp) as (Hg & Hc & _).
    split; [done|]. destruct (Hkey HLp) as (d & -> & Hd). by exists d.
  - intros w' v. rewrite Hf. apply (walked_cons _ _ _ _ ai next w _ w' v node); cbn; try done.
    + by rewrite En.
    + by eapply lookup_lt_Some.
Qed.

Lemma arrive_answers :
  answers L (arrive value_domain root_player budget forced depth ni ai w1 response)
    (stepped root_player budget forced depth ni w).
Proof using typed laws Hready Hbelow Hai Hforce Et Ec En Ee Etr Htyped HL.
  pose proof Hready as (Hok & Hknown & El & _). pose proof HL as HL1.
  cut (forall o, response = o -> answers L (arrive value_domain root_player budget forced depth ni ai w1 o)
    (stepped root_player budget forced depth ni w)); [intros Hc; by apply Hc|].
  intros o Er. rewrite Er in HL1. unfold arrive. destruct o as [next|t].
  2: { eapply answers_bind; [apply terminal_answers; intros HLp; by destruct (HL1 HLp) as (_ & _ & ?)|].
       intros [v c] _ [Hv Hc]. apply (ends_here _ _ []); cbn; rewrite ?app_nil_r, ?Et; try done; [lia|apply grows_refl]. }
  pose proof (Htyped next Er) as Hnc.
  assert (L -> good depth (walk_session w1) /\ current_response (walk_session w1) = Decision next) as HLg
    by (intros HLp; by destruct (HL1 HLp) as (? & ? & _)).
  assert (forall r, L -> exists k, search_node_key_v1 (walk_session w1) next r = Ok k) as Hnk
    by (intros r HLp; destruct (HLg HLp); by apply (law_key _ _ (laws HLp) depth)).
  case_decide as Hstop.
  { eapply answers_bind; [apply key_answers, Hnk|]. intros leaf_key _ _. eapply answers_bind.
    { apply dispatch_answers. intros HLp. destruct (HLg HLp) as [Hg Hc]. by exists depth, next. }
    intros v _ Hv. apply (ends_here _ _ []); cbn; rewrite ?app_nil_r, ?Et; try done;
      [lia|apply grows_refl|right; right; by right]. }
  eapply answers_bind; [apply key_answers, Hnk|]. intros next_key _ Enk.
  destruct (find_node (walk_tree w1) next_key) as [next_index|] eqn:Efind.
  - apply find_node_some in Efind as (n1 & En1 & Ek1). rewrite Et in En1.
    eapply answers_bind; [rewrite Et; by apply (link_child_answers _ ni ai next_index node)|].
    intros t1 _ Ecore. destruct (grows_lookup _ _ _ _ (same_core_grows _ _ Ecore) En1) as (n2 & En2 & Ec2).
    apply core_eq in Ec2 as (Esh & _). pose proof (lookup_lt_Some _ _ _ En2) as Hlt2.
    pose proof (same_core_ok _ _ Ecore Hok) as Hok1.
    assert (L -> Forall known t1) as Hk1 by (intros HLp; by apply (known_core _ _ Ecore), Hknown).
    generalize (eq_refl forced). generalize forced at 2 3. intros [f|] Ef.
    + unfold at_index. rewrite En2. cbn [ok_or result_bind].
      eapply break_answers; [apply leaf_at_node_answers|].
      * intros HLp. destruct (HLg HLp) as [Hg Hc]. exists depth, next. split_and!; [done..|].
        eapply (known_decision depth (walk_session w1) next depth n2 HLp Hg Hc).
        -- rewrite Enk. unfold shape in Esh. congruence.
        -- exact (Forall_lookup_1 _ _ _ _ (Hk1 HLp) En2).
      * exact (Forall_lookup_1 _ _ _ _ (proj1 Hok1) En2).
      * intros w' v (E1 & E2 & E3 & E4 & E5 & E6). cbn in *.
        apply (ends_here _ _ [next_index]); rewrite ?E1, ?Et; try done; [by constructor|by apply same_core_grows].
    + cbn [answers]. apply (goes_on next_index t1 n2); [done|done|done|]. intros HLp. exists next. split; [done|].
      rewrite Enk. unfold shape in Esh. congruence.
  - eapply break_answers; [apply (expand_answers root_player w1 ni ai next_key next depth node)|].
    + by rewrite Et.
    + by rewrite Et.
    + by rewrite Et.
    + done.
    + done.
    + done.
    + intros HLp. by destruct (HLg HLp).
    + intros w' v (E1 & E2 & E3 & E4 & E5 & E6 & E7 & E8 & E9).
      apply (ends_here _ _ [length (walk_tree w1)]); try done. constructor; [lia|done].
Qed.
End Step.

Lemma walk_step_answers root_player budget forced depth ni w node : budget <= u32_max ->
  ready budget forced (S depth) ni w node -> walk_transitions w < budget ->
  answers L (walk_step value_domain root_player budget forced (S depth) ni w)
    (stepped root_player budget forced depth ni w).
Proof using typed laws.
  intros Hbud Hready Hb. pose proof Hready as (Hok & Hknown & En & Htr & HL & Hforced). unfold walk_step.
  assert (L -> exists d, current_response (walk_session w) = Decision d
    /\ search_node_key_v1 (walk_session w) d (S depth) = Ok (node_key node)) as HLd
    by (intros HLp; by apply HL).
  destruct (current_response (walk_session w)) as [d|t] eqn:Eresp.
  2: { cbn. intros HLp. by destruct (HLd HLp) as (? & [=] & _). }
  rewrite En. cbn [or_corrupt ok_or result_bind].
  eapply answers_bind; [apply key_answers; intros HLp; destruct (HLd HLp) as (? & [= <-] & ?); by eexists|].
  intros k _ Ekey. assert (L -> k = node_key node) as HLk
    by (intros HLp; destruct (HLd HLp) as (? & [= <-] & ?); congruence).
  assert (L -> actor node = player_id_v1 (acting_player d)
    /\ Z.of_nat (length (actions node)) = legal_action_count d) as HLn.
  { intros HLp. apply (known_decision (S depth) (walk_session w) d (S depth) node HLp); [by apply HL|done| |].
    - by rewrite <- (HLk HLp).
    - exact (Forall_lookup_1 _ _ _ _ (Hknown HLp) En). }
  case_decide as Hkey.
  { cbn. intros HLp. destruct (HLn HLp) as [Ha _]. rewrite (HLk HLp) in Hkey. by destruct Hkey. }
  eapply answers_bind; [apply choose_answers; [exact (Forall_lookup_1 _ _ _ _ (proj1 Hok) En)|done]|].
  intros ai _ [Hforce Hai].
  case_decide as Hlen; [cbn; intros HLp; specialize (Hai HLp); lia|]. apply Nat.nle_gt in Hlen.
  eapply answers_bind.
  { apply take_action_answers; [done|lia|]. intros HLp. split; [by apply HL|].
    destruct (HLn HLp) as [_ <-]. specialize (Hai HLp). lia. }
  intros [[session response] transitions] _ (-> & Htyped & HLs).
  by apply (arrive_answers _ _ _ _ _ ai w _ node).
Qed.

Lemma descend_answers root_player budget forced : budget <= u32_max ->
  forall depth ni w node, ready budget forced depth ni w node ->
  answers L (descend value_domain root_player budget forced depth ni w) (fun '(w', v) =>
    walked root_player budget forced depth ni w w' v).
Proof using typed laws.
  intros Hbud.
  assert (forall depth ni w node, ready budget forced depth ni w node ->
    depth = 0%nat \/ budget <= walk_transitions w ->
    answers L (let? node := or_corrupt (walk_tree w !! ni) in leaf_at_node value_domain root_player w node)
      (fun '(w', v) => walked root_player budget forced depth ni w w' v)) as Hleaf.
  { intros depth ni w node (Hok & Hknown & En & Htr & HL & _) Hstop.
    rewrite En. cbn [or_corrupt ok_or result_bind]. eapply answers_weaken; [apply leaf_at_node_answers|].
    - intros HLp. destruct (HL HLp) as (Hg & d & Hc & Ek). exists depth, d. split_and!; [done..|].
      eapply (known_decision depth (walk_session w) d depth node HLp Hg Hc Ek).
      exact (Forall_lookup_1 _ _ _ _ (Hknown HLp) En).
    - exact (Forall_lookup_1 _ _ _ _ (proj1 Hok) En).
    - intros [w' v] (E1 & E2 & E3 & E4 & E5 & E6). apply walked_leaf; try done. lia. }
  induction depth as [|depth IH]; intros ni w node Hready; cbn [descend].
  - rewrite decide_True by (by left). apply (Hleaf 0%nat ni w node Hready). by left.
  - case_decide as Hstop; [exact (Hleaf (S depth) ni w node Hready Hstop)|].
    eapply answers_bind; [apply (walk_step_answers _ _ _ _ _ _ node); [done|done|lia]|].
    intros [w' v|next w1] _ Hstep; [done|]. destruct Hstep as [[n Hn] Hrest].
    eapply answers_weaken; [by apply (IH next w1 n)|]. intros [w' v]. apply Hrest.
Qed.
End Walks.
