(* ===== verification/SearchFacts.v ===== *)
(** * The model-guided search: the whole decision

    The invariant of the simulation loop, its termination, and what a decision
    reports. The theorems are applied to a countdown, in which two players with two
    actions each alternate and which is cut off after so many answers, with an
    evaluator that has no preference, and refuses what the real ones refuse. *)

From stdpp Require Import strings.
From S2P Require Import Prelude Ids Bytes Hamilton FastSampler FastSamplerBits Float32 SearchMath SearchMathFacts SearchAuthority SearchTree SearchTreeFacts SearchWalk.

Local Open Scope Z_scope.

Definition toy_decision (n : nat) : FastActorDecisionV1 :=
  MkDecision 1 (Z.of_nat n) 0 (Z.of_nat n) 0 1 (if Nat.even n then SeatP0 else SeatP1) Surface 2.

(** Who has the last word wins. *)
Definition toy_terminal : RlSessionTerminalV1 :=
  MkTerminal 1 ([], []) (0, 0) 1 P1Win Natural NaturalGameOver (Some SeatP1) (-1, 1) [] 0 0.

Definition toy_cut_off : RlSessionTerminalV1 :=
  MkTerminal 1 ([], []) (0, 0) 1 P1Win Truncated NaturalGameOver None (0, 0) [] 0 0.

(** The count, and the answers that are left. *)
Definition toy_response (s : nat * nat) : FastActorResponseV1 :=
  match s with
  | (O, _) => Terminal toy_terminal
  | (_, O) => Terminal toy_cut_off
  | (n, _) => Decision (toy_decision n)
  end.

(** Action 0 counts down by one, action 1 by three. *)
Definition toy_step (s : nat * nat) (action : Z) : nat * nat :=
  (if decide (action = 0) then (s.1 - 1)%nat else (s.1 - 3)%nat, (s.2 - 1)%nat).

#[export] Instance toy_session : SearchSession (nat * nat) := {|
  ObservationV5 := nat;
  ActionSemantics := unit;
  Binding := unit;
  current_response := toy_response;
  flat_policy_observation_v2 s _ := Ok s.1;
  diagnostic_current_action_semantics _ := Some ();
  native_full_trajectory_current_binding_v2 _ _ := Ok ();
  consume_current_flat_action_slice_v2 s _ action :=
    let s := toy_step s action in Ok (s, toy_response s);
  kernel_search_redeterminized_clone_v1 s _ := Ok s;
  privileged_core_environment_hash s := Z.of_nat s.1;
  kernel_search_private_diagnostic_identity_v1 _ := DIAGNOSTIC_STATE_HASH_ALGORITHM;
  envelope_to_vec n _ depth := Some [Z.of_nat n; depth];
|}.

(** Only the live decision is evaluated, with its own number of actions. *)
Definition toy_evaluator : LeafEvaluator (nat * nat) := {|
  evaluate_leaf_v1 s _ count _ :=
    match toy_response s with
    | Terminal _ => Err NoLiveDecisionToEncode
    | Decision d =>
        if decide (legal_action_count d <> count) then Err EvaluatorContract
        else Ok (MkForward (replicate (Z.to_nat count) (f32_of_int 1)) (f32_of_int 0))
    end
|}.

#[local] Existing Instance toy_evaluator | 1.
#[local] Existing Instance sample_build.

Lemma toy_response_bounds s d : toy_response s = Decision d -> d = toy_decision s.1.
Proof. destruct s as [[|n] [|m]]; cbn; try done. by intros [= <-]. Qed.

Lemma toy_typed : typed_session (Session := nat * nat).
Proof.
  split.
  - intros s d ->%toy_response_bounds. unfold u32_max. cbn. lia.
  - intros s b i s' d E. apply Ok_inj in E.
    assert (toy_response (toy_step s i) = Decision d) as ->%toy_response_bounds by exact (f_equal snd E).
    unfold u32_max. cbn. lia.
  - intros s k c site f E. cbn in E. destruct (toy_response s); [|done]. case_decide; [done|]. injection E as <-.
    cbn [legal_action_weights v_raw].
    split; [apply Forall_replicate|]; vm_compute; intuition congruence.
Qed.

Lemma toy_key s d r : search_node_key_v1 s d r = Ok [Z.of_nat s.1; Z.of_nat r].
Proof. done. Qed.

(** Cut off, if at all, after more than [n] answers. *)
Definition toy_good (n : nat) (s : nat * nat) : Prop := (n < s.2)%nat.

Lemma toy_lawful : lawful toy_good Tanh.
Proof.
  split.
  - intros n s d _ ->%toy_response_bounds. unfold u32_max. cbn. lia.
  - intros n s d r _ _. by eexists.
  - intros n s d r n' s' d' r' k _ _ Hd Hd' E E'. apply toy_response_bounds in Hd as ->, Hd' as ->.
    rewrite toy_key in E, E'. apply Ok_inj in E as <-. apply Ok_inj in E'. injection E' as E' _.
    by assert (s'.1 = s.1) as -> by lia.
  - intros n s d Hg _. exists (). split; [done|]. intros i _. eexists _, _. split; [done|].
    assert (toy_good n (toy_step s i)) as Hg' by (unfold toy_good, toy_step in *; cbn; lia).
    split; [done|]. split; [done|]. destruct (toy_step s i) as [[|m] [|l]]; cbn; [..|by inversion Hg'|done];
      (split; [done|]); cbn; rewrite elem_of_cons, elem_of_cons; tauto.
  - intros n s d seed Hg Hd. exists s. by split_and!.
  - intros n s d k site _ Hd. pose proof (toy_response_bounds s d Hd) as ->. eexists. split.
    { unfold evaluate_leaf_v1, toy_evaluator. change (toy_response s = Decision (toy_decision s.1)) in Hd.
      rewrite Hd. by rewrite decide_False by (intros Hn; by apply Hn). }
    cbn [legal_action_weights v_raw]. split; [done|]. split.
    { apply Forall_replicate. split; [by vm_compute|]. by vm_compute; split. }
    split; [by vm_compute|]. intros []; eexists; by vm_compute.
Qed.

(* ------------------------------------------------------------------ *)
(** ** The census *)

Definition leaves (c : ModelGuidedSearchLeafCensusV1) : Z :=
  natural_terminal_leaves c + truncated_terminal_leaves c + newly_expanded_leaves c + depth_cap_leaves c.

(** The census after [n] simulations of [total] transitions, none longer than [cap]. *)
Definition census_ok (n total cap : Z) (c : ModelGuidedSearchLeafCensusV1) : Prop :=
  leaves c = n /\ summed_simulation_depth c = total /\ 0 <= max_simulation_depth c <= cap
  /\ 0 <= natural_terminal_leaves c /\ 0 <= truncated_terminal_leaves c
  /\ 0 <= newly_expanded_leaves c /\ 0 <= depth_cap_leaves c.

Lemma census_counted n total cap depth c c' : census_ok n total cap c -> leaf_counted c c' ->
  n < u32_max -> 0 <= depth <= cap -> 0 <= total + depth <= u32_max ->
  census_ok (n + 1) (total + depth) cap (count_depth depth c').
Proof.
  unfold census_ok, leaves. intros (H1 & H2 & H3 & H4 & H5 & H6 & H7) Hc Hn Hd Ht.
  assert (u64_max = 18446744073709551615) as Hu by done. unfold u32_max in *.
  destruct Hc as [->|[->|[->| ->]]]; cbn; unfold saturating_succ_u32, u32_max; lia.
Qed.

(* ------------------------------------------------------------------ *)
(** ** One simulation *)

Lemma shape_lookup t t' i n : map shape t' = map shape t -> t !! i = Some n ->
  exists n', t' !! i = Some n' /\ shape n' = shape n.
Proof.
  intros E Ei. apply (f_equal (fun l => l !! i)) in E.
  change (map shape) with (fmap (M := list) shape) in E. rewrite !list_lookup_fmap, Ei in E.
  destruct (t' !! i) as [n'|]; [|done]. cbn in E. exists n'. split; [done|]. congruence.
Qed.

Lemma same_visits_totals t t' :
  map shape t' = map shape t -> map actions t' = map actions t ->
  edge_total t' = edge_total t /\ (forall e, visits_at t' e = visits_at t e)
  /\ forall i, visits_from t' i = visits_from t i.
Proof.
  intros _ E.
  assert (forall i, actions <$> t' !! i = actions <$> t !! i) as El.
  { intros i. rewrite <- !list_lookup_fmap. by apply (f_equal (fun l => l !! i)) in E. }
  split; [|split].
  - unfold edge_total, edge_visits.
    assert (forall l, map (fun n => sumZ (map stat_visits (actions n))) l
                      = map (fun a => sumZ (map stat_visits a)) (map actions l)) as Em
      by (intros l; by rewrite map_map).
    by rewrite !Em, E.
  - intros [i a]. unfold visits_at. cbn [fst snd]. specialize (El i).
    destruct (t' !! i), (t !! i); cbn in *; congruence.
  - intros i. unfold visits_from, edge_visits. specialize (El i).
    destruct (t' !! i), (t !! i); cbn in *; congruence.
Qed.

Section Simulations.
Context {Session : Type} `{!SearchSession Session} `{!LeafEvaluator Session} `{!SearchBuild}.
Context (typed : typed_session) (good : nat -> Session -> Prop)
        (value_domain : ModelGuidedSearchValueHeadDomainV1)
        (L : Prop) (laws : L -> lawful good value_domain).

Abbreviation known := (known good).

Lemma known_shapes t t' : map shape t' = map shape t -> Forall known t -> Forall known t'.
Proof using Type.
  intros E Ht. apply Forall_lookup_2. intros i n' En'.
  destruct (shape_lookup _ _ _ _ (eq_sym E) En') as (n & En & Es).
  apply (known_shape good n); [done|]. exact (Forall_lookup_1 _ _ _ _ Ht En).
Qed.

(** What one simulation adds to the state. *)
Definition simulated (root : ModelGuidedSearchNodeV1) (budget depth_cap : Z) (forced : option Z)
    (s s' : SearchState) : Prop :=
  exists edges, (exists a rest, edges = (0%nat, a) :: rest /\ forall f, forced = Some f -> a = Z.to_nat f)
  /\ Z.of_nat (length edges) <= depth_cap /\ (is_Some forced -> length edges = 1%nat)
  /\ simulations s' = simulations s
  /\ transitions_used s' = transitions_used s + Z.of_nat (length edges) /\ transitions_used s' <= budget
  /\ tree_ok (tree s') /\ (L -> Forall known (tree s'))
  /\ (exists root', tree s' !! 0%nat = Some root' /\ shape root' = shape root)
  /\ (length (tree s) <= length (tree s') <= S (length (tree s)))%nat
  /\ edge_total (tree s') = edge_total (tree s) + Z.of_nat (length edges)
  /\ node_total (tree s') <= node_total (tree s) + 1 + Z.of_nat (length edges)
  /\ (forall e, visits_at (tree s') e = visits_at (tree s) e + occurrences e edges)
  /\ (forall i, visits_from (tree s') i = visits_from (tree s) i + departures i edges)
  /\ exists c, leaf_counted (leaf_census s) c
       /\ leaf_census s' = count_depth (Z.of_nat (length edges)) c.

Lemma run_simulation_answers root_player depth_cap budget forced sampled s root :
  budget <= u32_max -> 1 <= depth_cap <= u16_max ->
  tree_ok (tree s) -> (L -> Forall known (tree s)) -> tree s !! 0%nat = Some root ->
  0 <= transitions_used s < budget ->
  (L -> good (Z.to_nat depth_cap) sampled /\ exists d, current_response sampled = Decision d
        /\ search_node_key_v1 sampled d (Z.to_nat depth_cap) = Ok (node_key root)) ->
  (L -> forall f, forced = Some f -> (Z.to_nat f < length (actions root))%nat) ->
  (L -> edge_total (tree s) + (budget - transitions_used s) <= u32_max
        /\ node_total (tree s) + 1 + (budget - transitions_used s) <= u32_max) ->
  answers L (run_simulation_puct_v1 value_domain root_player depth_cap budget forced sampled s)
    (simulated root budget depth_cap forced s).
Proof using typed laws.
  intros Hbud Hcap Hok Hknown Eroot Htr HL Hforce Hroom. unfold run_simulation_puct_v1.
  assert (u16_max = 65535) as H16 by done.
  eapply answers_bind.
  { apply (descend_answers typed good value_domain L laws root_player budget forced Hbud (Z.to_nat depth_cap) 0
      (MkWalk (tree s) sampled (transitions_used s) (leaf_census s) [0%nat] []) root).
    split; [done|]. split; [done|]. split; [done|]. split; [cbn; lia|]. split; [|by intros HLp _; apply Hforce].
    exact HL. }
  intros [w v] _ (edges & nodes & E1 & E2 & E3 & H4 & H5 & H6 & H7 & H8 & H9 & H10 & H11 & H12 & H13 & H14 & H15).
  cbn [edge_path node_path walk_transitions walk_tree walk_census app] in *.
  destruct H7 as (a & rest & Eedges & Ha); [lia|lia|].
  rewrite E1. eapply (answers_bind L _ _ (fun d => d = Z.of_nat (length edges))).
  { apply answers_or_corrupt; [by intros d [-> _]%checked_unsigned_some|].
    intros _. exists (Z.of_nat (length edges)). apply checked_unsigned_some. lia. }
  intros d _ ->. rewrite E2.
  destruct (grows_totals _ _ H10) as [Get Gnt]. destruct (grows_visits _ _ H10) as [Gva Gvf].
  pose proof (grows_length _ _ H10) as Glen.
  destruct (grows_lookup _ _ _ _ H10 Eroot) as (root1 & Eroot1 & Ecore). apply core_eq in Ecore as (Esh1 & _).
  eapply answers_bind.
  { apply (visit_nodes_spec L (0%nat :: nodes) (walk_tree w) H9); [constructor; [by eapply lookup_lt_Some|done]|].
    intros HLp. rewrite Gnt. cbn [length]. specialize (Hroom HLp). lia. }
  intros t1 _ (V1 & V2 & V3 & V4). cbn [length] in V4.
  destruct (same_visits_totals _ _ V2 V3) as (S1 & S2 & S3).
  eapply answers_bind.
  { apply (credit_edges_spec L v edges t1 V1); [|done|].
    - eapply Forall_impl; [exact H12|]. intros e. by apply shape_edge_in.
    - intros HLp. specialize (Hroom HLp). lia. }
  intros t2 _ (C1 & C2 & C3 & C4 & C5 & C6).
  assert (map shape t2 = map shape (walk_tree w)) as Esh by congruence.
  assert (node_total t2 = node_total t1) as Ent by (unfold node_total; by rewrite C3).
  assert (length t2 = length (walk_tree w)) as Elen
    by (apply (f_equal length) in Esh; by rewrite !length_map in Esh).
  exists edges. cbn [tree transitions_used simulations leaf_census].
  split; [exists a, rest; split; [done|]; intros f; by apply Ha|].
  split; [lia|]. split; [intros Hf; specialize (H8 Hf); rewrite Eedges in *; cbn [length] in *; lia|].
  split; [done|]. split; [done|]. split; [done|]. split; [done|].
  split; [intros HLp; by apply (known_shapes (walk_tree w)), H11|].
  split; [destruct (shape_lookup _ _ _ _ Esh Eroot1) as (root2 & E & Es); exists root2; split; [done|congruence]|].
  split; [lia|]. split; [lia|]. split; [lia|].
  split; [intros e; by rewrite C5, S2, Gva|]. split; [intros i; by rewrite C6, S3, Gvf|].
  by exists (walk_census w).
Qed.

(* ------------------------------------------------------------------ *)
(** ** The loop *)

Section Loop.
Context (session : Session) (expected : FastActorDecisionV1) (simulation_seed_digest root_key : bytes)
        (budget depth_cap : Z).
Context (Hbudget : legal_action_count expected <= budget <= u32_max) (Hcap : 1 <= depth_cap <= u16_max)
        (HL : L -> good (Z.to_nat depth_cap) session /\ current_response session = Decision expected
              /\ search_node_key_v1 session expected (Z.to_nat depth_cap) = Ok root_key
              /\ 2 * budget <= u32_max).

(** What holds before and after every simulation. *)
Record searching (s : SearchState) : Prop := {
  searching_tree : tree_ok (tree s);
  searching_known : L -> Forall known (tree s);
  searching_root : exists root, tree s !! 0%nat = Some root /\ node_key root = root_key
    /\ Z.of_nat (length (actions root)) = legal_action_count expected;
  searching_counts : 0 <= simulations s <= transitions_used s /\ transitions_used s <= budget;
  searching_forced : simulations s <= legal_action_count expected -> transitions_used s = simulations s;
  searching_edges : edge_total (tree s) = transitions_used s;
  searching_nodes : node_total (tree s) <= simulations s + transitions_used s;
  searching_length : Z.of_nat (length (tree s)) <= simulations s + 1;
  searching_visited : forall a, Z.of_nat a < legal_action_count expected -> Z.of_nat a < simulations s ->
    1 <= visits_at (tree s) (0%nat, a);
  searching_departed : simulations s <= visits_from (tree s) 0;
  searching_census : census_ok (simulations s) (transitions_used s) depth_cap (leaf_census s);
}.

Lemma occurrences_nonneg e path : 0 <= occurrences e path.
Proof using Type. unfold occurrences. lia. Qed.

Lemma searching_simulated root s s' forced :
  searching s -> simulated root budget depth_cap forced s s' ->
  tree s !! 0%nat = Some root ->
  forced = (if decide (simulations s < legal_action_count expected) then Some (simulations s) else None) ->
  searching (MkSearch (tree s') (transitions_used s') (simulations s + 1) (leaf_census s'))
  /\ transitions_used s < transitions_used s'.
Proof using Hbudget Hcap.
  intros [Hok Hk Hr Hc Hf He Hn Hl Hv Hd Hcs] (edges & (a & rest & Eedges & Ha) & Hlen & H1 & Esim & Etr
    & Hb & Hok' & Hk' & (root' & Er' & Esh) & Hlt & Het & Hnt & Hva & Hvf & c & Hleaf & Ecs) Eroot Eforced.
  destruct Hr as (root0 & Er0 & Ekey & Ecount). rewrite Eroot in Er0. injection Er0 as <-.
  assert (1 <= Z.of_nat (length edges)) as Hpos by (rewrite Eedges; cbn [length]; lia).
  split; [|lia]. split; cbn [tree transitions_used simulations leaf_census]; try done; try lia.
  - exists root'. split; [done|]. unfold shape in Esh. injection Esh as E1 E2 E3 E4. rewrite E4. split; [congruence|done].
  - intros Hle. rewrite Etr. destruct (decide (simulations s < legal_action_count expected)) as [Hlt'|]; [|lia].
    rewrite H1 by (rewrite Eforced; by eexists). specialize (Hf ltac:(lia)). lia.
  - intros b Hb1 Hb2. rewrite Hva. pose proof (occurrences_nonneg (0%nat, b) edges).
    destruct (decide (Z.of_nat b < simulations s)) as [Hold|]; [specialize (Hv b Hb1 Hold); lia|].
    rewrite decide_True in Eforced by lia. specialize (Ha _ Eforced).
    rewrite Eedges, occurrences_cons, decide_True by (f_equal; lia).
    pose proof (occurrences_nonneg (0%nat, b) rest).
    assert (0 <= visits_at (tree s) (0%nat, b)); [|lia].
    unfold visits_at. cbn [fst snd]. rewrite Eroot. cbn. destruct (actions root !! b) as [stat|] eqn:Es; cbn; [|done].
    pose proof (Forall_lookup_1 _ _ _ _ (proj1 Hok) Eroot) as (_ & Hst & _).
    apply (Forall_lookup_1 _ _ _ _ Hst Es).
  - rewrite Hvf, Eedges, departures_cons, decide_True by done. unfold departures. lia.
  - rewrite Ecs, Etr. apply (census_counted _ _ _ _ (leaf_census s)); try done; lia.
Qed.

Lemma simulate_once_answers s : searching s -> transitions_used s < budget ->
  answers L (simulate_once value_domain session expected simulation_seed_digest root_key budget depth_cap s)
    (fun s' => searching s' /\ transitions_used s < transitions_used s').
Proof using typed laws Hbudget Hcap HL.
  intros Hs Hlt. pose proof Hs as [Hok Hk (root & Eroot & Ekey & Ecount) Hc Hf He Hn Hl Hv Hd Hcs].
  unfold simulate_once. set (seed := derive_simulation_seed_v1 _ _ _ _ _).
  eapply (answers_bind L _ _ (fun s' => kernel_search_redeterminized_clone_v1 session seed = Ok s')).
  { apply answers_lift; [done|]. intros HLp. destruct (HL HLp) as (Hg & Hcur & _).
    destruct (law_clone _ _ (laws HLp) _ _ _ seed Hg Hcur) as (s' & E & _). by exists s'. }
  intros sampled _ Eclone.
  assert (L -> good (Z.to_nat depth_cap) sampled /\ current_response sampled = Decision expected
    /\ search_node_key_v1 sampled expected (Z.to_nat depth_cap) = Ok root_key) as HLs.
  { intros HLp. destruct (HL HLp) as (Hg & Hcur & Hkey & _).
    destruct (law_clone _ _ (laws HLp) _ _ _ seed Hg Hcur) as (s' & E & Hg' & Hcur' & Hr).
    rewrite Eclone in E. injection E as <-. split; [done|]. split; [done|]. by rewrite Hr. }
  eapply answers_bind; [apply key_answers; intros HLp; eexists; by apply HLs|].
  intros k _ Ek. case_decide as Hne.
  { cbn. intros HLp. destruct (HLs HLp) as (_ & _ & Ek'). congruence. }
  eapply answers_bind.
  { apply (run_simulation_answers _ depth_cap budget _ sampled s root); try done; try lia.
    - intros HLp. destruct (HLs HLp) as (? & ? & ?). split; [done|]. exists expected. by rewrite Ekey.
    - intros _ f. case_decide; [|done]. intros [= <-]. lia.
    - intros HLp. destruct (HL HLp) as (_ & _ & _ & H2). lia. }
  intros s1 _ Hsim. destruct (searching_simulated root s s1 _ Hs Hsim Eroot eq_refl) as [Hs1 Hlt1].
  assert (simulations s1 = simulations s) as Esim by (by destruct Hsim as (? & _ & _ & _ & E & _)).
  eapply (answers_bind L _ _ (fun n => n = simulations s + 1)).
  { apply answers_or_corrupt; [by rewrite Esim; intros n [-> _]%checked_unsigned_some|].
    intros _. exists (simulations s1 + 1). apply checked_unsigned_some. lia. }
  intros n _ ->. done.
Qed.

Lemma simulate_answers fuel : forall s, searching s -> budget - transitions_used s <= Z.of_nat fuel ->
  exists r, simulate fuel value_domain session expected simulation_seed_digest root_key budget depth_cap s = Some r
  /\ answers L r (fun s' => searching s' /\ transitions_used s' = budget).
Proof using typed laws Hbudget Hcap HL.
  induction fuel as [|fuel IH]; intros s Hs Hfuel; cbn [simulate];
    pose proof (searching_counts s Hs) as Hc; case_decide as Hlt;
    try (eexists; split; [done|]; cbn; split; [done|lia]); [lia|].
  pose proof (simulate_once_answers s Hs Hlt) as Hone.
  destruct (simulate_once _ _ _ _ _ _ _ s) as [s'|e]; [|by exists (Err e)].
  destruct Hone as [Hs' Hlt']. apply IH; [done|lia].
Qed.

(** Any fuel that gives an answer gives this one. *)
Lemma simulate_more fuel : forall s r more, 
  simulate fuel value_domain session expected simulation_seed_digest root_key budget depth_cap s = Some r ->
  (fuel <= more)%nat ->
  simulate more value_domain session expected simulation_seed_digest root_key budget depth_cap s = Some r.
Proof using Type.
  induction fuel as [|fuel IH]; intros s r [|more] E Hle; cbn [simulate] in *; try done; try lia.
  - by case_decide.
  - case_decide; [|done]. destruct (simulate_once _ _ _ _ _ _ _ s) as [s'|e]; [|done].
    apply IH; [done|lia].
Qed.

(** What a decision reports when the books balance. *)
Definition balanced (d : ModelGuidedSearchDecisionV1) : Prop :=
  decision_transitions_used d = budget
  /\ legal_action_count expected <= decision_simulations d <= budget
  /\ census_ok (decision_simulations d) budget depth_cap (decision_leaf_census d)
  /\ 1 <= tree_node_count d <= decision_simulations d + 1
  /\ Z.of_nat (length (root_action_stats d)) = legal_action_count expected
  /\ (forall i a, root_action_stats d !! i = Some a ->
        flat_action_index a = Z.of_nat i /\ 1 <= action_visits a
        /\ Z.abs (action_value_sum a) <= 10000 * action_visits a
        /\ mean_value a = Z.quot (action_value_sum a) (action_visits a))
  /\ decision_simulations d <= sumZ (map action_visits (root_action_stats d)) <= budget
  /\ exists k best, selected_index d = Z.of_nat k /\ root_action_stats d !! k = Some best
     /\ forall j other, root_action_stats d !! j = Some other ->
          action_visits other < action_visits best
          \/ action_visits other = action_visits best
             /\ (mean_value other < mean_value best
                 \/ mean_value other = mean_value best /\ (k <= j)%nat).

Lemma action_stats_lookup acts i a : Z.of_nat (length acts) <= u32_max -> action_stats acts !! i = Some a ->
  exists stat, acts !! i = Some stat
  /\ a = MkActionStat (Z.of_nat i) (stat_visits stat) (value_sum stat) (mean stat).
Proof using Type.
  intros Hl E. unfold action_stats in E. rewrite list_lookup_imap in E.
  destruct (acts !! i) as [stat|] eqn:Es; [|done]. cbn in E. injection E as <-.
  exists stat. split; [done|]. apply lookup_lt_Some in Es. unfold wrap_u32, u32_max in *.
  by rewrite Z.mod_small by lia.
Qed.

Lemma action_stats_visits acts : map action_visits (action_stats acts) = map stat_visits acts.
Proof using Type.
  unfold action_stats. apply list_eq. intros i. change (map ?f) with (fmap (M := list) f).
  rewrite !list_lookup_fmap, list_lookup_imap. by destruct (acts !! i).
Qed.

Lemma conclude_answers s : searching s -> transitions_used s = budget ->
  answers L (conclude session (privileged_core_environment_hash session) (current_response session) s) balanced.
Proof using Hbudget Hcap HL.
  intros [Hok _ (root & Eroot & Ekey & Ecount) Hc Hf He Hn Hl Hv Hd Hcs] Et. unfold conclude.
  rewrite decide_False by tauto. rewrite Eroot. cbn [or_corrupt ok_or result_bind].
  pose proof (Forall_lookup_1 _ _ _ _ (proj1 Hok) Eroot) as Hroot. pose proof Hroot as (Hp & Hst & _).
  assert (legal_action_count expected <= simulations s) as Hsims by lia.
  assert (forall i a, actions root !! i = Some a -> 1 <= stat_visits a) as Hvis.
  { intros i a Ea. apply lookup_lt_Some in Ea as Hlt.
    specialize (Hv i ltac:(lia) ltac:(lia)). unfold visits_at in Hv. cbn [fst snd] in Hv.
    rewrite Eroot in Hv. cbn in Hv. by rewrite Ea in Hv. }
  destruct (existsb _ _) eqn:Eex.
  { exfalso. apply existsb_exists in Eex as (a & Ha & Ev). apply list_elem_of_In, list_elem_of_lookup in Ha as [i Ei].
    specialize (Hvis i a Ei). lia. }
  destruct (select_final_runs (actions root)) as (k & c & Esel & Ek & Hbest).
  { intros En. apply is_prior_nonempty in Hp. rewrite En in Hp. cbn in Hp. lia. }
  { lia. }
  rewrite Esel. cbn [lift_error result_bind].
  pose proof (lookup_lt_Some _ _ _ Eroot) as Hlen.
  eapply (answers_bind L _ _ (fun n => n = Z.of_nat (length (tree s)))).
  { apply answers_or_corrupt; [by intros n [-> _]%checked_unsigned_some|].
    intros HLp. exists (Z.of_nat (length (tree s))). apply checked_unsigned_some.
    destruct (HL HLp) as (_ & _ & _ & H2). unfold u32_max in *. lia. }
  intros n _ ->. cbn [answers]. unfold balanced. cbn.
  split; [done|]. split; [lia|]. split; [by rewrite <- Et|]. split; [lia|].
  split; [unfold action_stats; by rewrite length_imap|].
  split; [|split].
  - intros i a Ea. destruct (action_stats_lookup (actions root) i a ltac:(lia) Ea) as (stat & Es & ->).
    cbn. specialize (Hvis i stat Es). split; [done|]. split; [done|].
    split; [by apply (Forall_lookup_1 _ _ _ _ Hst Es)|]. unfold mean. by rewrite decide_False by lia.
  - rewrite action_stats_visits. change (sumZ (map stat_visits (actions root))) with (edge_visits root).
    unfold visits_from in Hd. rewrite Eroot in Hd. cbn in Hd.
    pose proof (edge_visits_le _ _ _ (proj1 Hok) Eroot). lia.
  - exists k. eexists. split; [done|]. split.
    { unfold action_stats. rewrite list_lookup_imap, Ek. done. }
    intros j other Ej. destruct (action_stats_lookup (actions root) j other ltac:(lia) Ej) as (stat & Es & ->).
    cbn. destruct (Hbest j stat Es) as [H1 H2]. unfold outranks in *. lia.
Qed.
End Loop.

Lemma prepare_answers authority session expected budget depth_cap : 0 <= budget -> 1 <= depth_cap ->
  (L -> validate authority = Ok () /\ good (Z.to_nat depth_cap) session /\ current_response session = Decision expected
    /\ kernel_search_private_diagnostic_identity_v1 session = private_diagnostic_identity authority
    /\ legal_action_count expected <= budget) ->
  answers L (prepare authority session expected budget depth_cap) (fun '(root_key, s) =>
    current_response session = Decision expected /\ legal_action_count expected <= budget
    /\ search_node_key_v1 session expected (Z.to_nat depth_cap) = Ok root_key
    /\ transitions_used s = 0
    /\ searching expected root_key budget depth_cap s).
Proof using typed laws.
  intros Hb Hcap HL. unfold prepare.
  eapply (answers_bind L _ _ (fun _ => True)).
  { apply answers_lift; [done|]. intros HLp. exists (). by apply HL. }
  intros _ _ _. destruct (current_response session) as [live|t] eqn:Ecur; [|cbn; intros HLp; by destruct (HL HLp) as (_ & _ & ? & _)].
  case_decide as Hlive.
  { cbn. intros HLp. destruct (HL HLp) as (_ & _ & [= ->] & Eid & _). rewrite Eid in Hlive. tauto. }
  assert (live = expected) as -> by (destruct (decide (live = expected)); tauto).
  case_decide as Hsmall; [cbn; intros HLp; specialize (HL HLp); lia|].
  pose proof (typed_response typed session expected Ecur) as Hcount.
  assert (L -> good (Z.to_nat depth_cap) session) as Hg by (intros HLp; by apply HL).
  assert (L -> live_decision good session (legal_action_count expected)) as Hlives
    by (intros HLp; exists (Z.to_nat depth_cap), expected; by split_and!; [apply Hg|..]).
  eapply answers_bind; [apply key_answers; intros HLp; by apply (law_key _ _ (laws HLp) (Z.to_nat depth_cap)), Ecur; apply Hg|].
  intros root_key _ Ekey.
  eapply (answers_bind L _ _ (fun f => evaluate_leaf_v1 session root_key (legal_action_count expected) RootPrior = Ok f)).
  { apply answers_lift; [done|]. intros HLp.
    destruct (live_evaluates good value_domain L laws session root_key _ RootPrior HLp (Hlives HLp)) as (f & Ef & _).
    by exists f. }
  intros f _ Ef. case_decide as Elen.
  { cbn. intros HLp.
    destruct (live_evaluates good value_domain L laws session root_key _ RootPrior HLp (Hlives HLp)) as (f' & Ef' & El & _).
    rewrite Ef in Ef'. injection Ef' as <-. by apply Elen. }
  assert (Z.of_nat (length (legal_action_weights f)) = legal_action_count expected) as El by lia. clear Elen.
  eapply answers_bind.
  { apply (prior_answers typed good value_domain L laws _ _ _ _ _ Ef); [lia|done]. }
  intros p _ Hp. assert (length p = length (legal_action_weights f)) as Elp by apply Hp.
  rewrite <- Elp in Hp. destruct (new_node_facts root_key (player_id_v1 (acting_player expected)) p Hp) as (Enew & Hnok & Hfresh).
  unfold new_tree. rewrite Enew. cbn [result_bind answers].
  set (root := new_node_of root_key _ p) in *.
  assert (Z.of_nat (length (actions root)) = legal_action_count expected) as Ec
    by (cbn; rewrite length_replicate; lia).
  destruct (fresh_totals [root]) as [E1 E2]; [by constructor|].
  split; [done|]. split; [lia|]. split; [done|]. split; [done|].
  split; cbn [tree transitions_used simulations leaf_census]; try done; try lia.
  - split; [by constructor|]. cbn. apply NoDup_singleton.
  - intros HLp. constructor; [|done]. exists (Z.to_nat depth_cap), session, expected, (Z.to_nat depth_cap).
    split; [by apply Hg|]. by split_and!.
  - by exists root.
  - exact (edge_visits_bounds root Hnok).
  - unfold census_ok, leaves. cbn. lia.
Qed.

(** The whole call, with as much fuel as transitions. *)
Lemma select_with_budget_answers fuel authority session expected seed_digest budget depth_cap :
  0 <= budget <= u32_max -> 1 <= depth_cap <= u16_max -> budget <= Z.of_nat fuel ->
  (L -> validate authority = Ok () /\ good (Z.to_nat depth_cap) session /\ current_response session = Decision expected
    /\ kernel_search_private_diagnostic_identity_v1 session = private_diagnostic_identity authority
    /\ legal_action_count expected <= budget /\ 2 * budget <= u32_max) ->
  exists r, select_action_with_seed_digest_and_budget_v1 fuel authority session expected seed_digest
              budget depth_cap value_domain = Some r
  /\ answers L r (balanced expected budget depth_cap).
Proof using typed laws.
  intros Hb Hcap Hfuel HL. unfold select_action_with_seed_digest_and_budget_v1.
  pose proof (prepare_answers authority session expected budget depth_cap) as Hprep.
  destruct (prepare _ _ _ _ _) as [[root_key s]|e]; cbn [answers] in Hprep.
  2: { exists (Err e). split; [done|]. apply Hprep; [lia|lia|]. intros HLp. specialize (HL HLp); tauto. }
  destruct Hprep as (Hcur & Hcount & Hkey & Htr & Hs); [lia|lia| |].
  { intros HLp. specialize (HL HLp); tauto. }
  assert (L -> good (Z.to_nat depth_cap) session /\ current_response session = Decision expected
    /\ search_node_key_v1 session expected (Z.to_nat depth_cap) = Ok root_key /\ 2 * budget <= u32_max) as HL1
    by (intros HLp; specialize (HL HLp); tauto).
  destruct (simulate_answers session expected seed_digest root_key budget depth_cap ltac:(lia) Hcap HL1 fuel s Hs
    ltac:(lia)) as (r & -> & Hr).
  destruct r as [s'|e]; [|by exists (Err e)]. destruct Hr as [Hs' Et].
  eexists. split; [done|]. apply (conclude_answers session expected root_key); try done. lia.
Qed.

Lemma digest_runs authority : validate authority = Ok () -> exists dig, digest authority = Ok dig.
Proof using Type.
  intros Hv. unfold digest. rewrite Hv. cbn [result_bind].
  apply authority_valid in Hv as ((b & Eb & _) & _). rewrite Eb. by eexists.
Qed.

Lemma select_with_budget_ok fuel authority session expected seed_digest budget depth_cap d :
  select_action_with_seed_digest_and_budget_v1 fuel authority session expected seed_digest
    budget depth_cap value_domain = Some (Ok d) ->
  validate authority = Ok () /\ current_response session = Decision expected
  /\ select_action_with_seed_digest_and_budget_v1 (fuel + Z.to_nat budget) authority session expected seed_digest
       budget depth_cap value_domain = Some (Ok d).
Proof using Type.
  unfold select_action_with_seed_digest_and_budget_v1. intros E.
  destruct (prepare _ _ _ _ _) as [[root_key s]|e] eqn:Eprep; [|done].
  assert (validate authority = Ok () /\ current_response session = Decision expected) as [Hv Hcur].
  { clear E. unfold prepare in Eprep. destruct (validate authority) as [[]|]; cbn in Eprep; [|done].
    split; [done|]. destruct (current_response session) as [live|]; [|done]. case_decide as Hlive; [done|].
    f_equal. destruct (decide (live = expected)); tauto. }
  split; [done|]. split; [done|].
  destruct (simulate fuel _ _ _ _ _ _ _ s) as [r|] eqn:Es; [|done].
  by rewrite (simulate_more session expected seed_digest root_key budget depth_cap fuel s r
                (fuel + Z.to_nat budget) Es ltac:(lia)).
Qed.
End Simulations.

(* ------------------------------------------------------------------ *)
(** ** Properties *)

Section Properties.
Context {Session : Type} `{!SearchSession Session} `{!LeafEvaluator Session} `{!SearchBuild}.

(** C10: when a search answers with a decision, its books balance, whatever the session and
    the evaluator did: the authority was valid and the decision searched was the live one;
    exactly the budget of transitions was used, in at least one simulation per root action
    and at most one per transition; the census accounts for every simulation and every
    transition, with no walk over the depth cap; the tree has at most one node more than
    there were simulations; there is a row per root action, visited at least once, with
    values of at most 10000 a visit and the truncated mean; and the selected action has the
    most visits, among those the highest mean, among those the lowest index. *)
Theorem decision_books_balance fuel authority (session : Session) expected seed_digest budget depth_cap
    value_domain d :
  typed_session (Session := Session) -> 0 <= budget <= u32_max -> 1 <= depth_cap <= u16_max ->
  select_action_with_seed_digest_and_budget_v1 fuel authority session expected seed_digest
    budget depth_cap value_domain = Some (Ok d) ->
  validate authority = Ok () /\ current_response session = Decision expected
  /\ balanced expected budget depth_cap d.
Proof.
  intros Ht Hb Hcap E. apply select_with_budget_ok in E as (Hv & Hcur & E). split; [done|]. split; [done|].
  destruct (select_with_budget_answers Ht (fun _ _ => True) value_domain False ltac:(done)
    (fuel + Z.to_nat budget) authority session expected seed_digest budget depth_cap Hb Hcap ltac:(lia) ltac:(done))
    as (r & Er & Hr).
  rewrite E in Er. by injection Er as <-.
Qed.

(** C11: the search always ends, after as many simulations as it may make transitions at
    most, since every simulation makes one; and no session or evaluator, however it
    answers within its types, makes it panic: every indexed access is in bounds, and every
    failure is a reported error. *)
Theorem search_terminates_without_panic authority (session : Session) expected seed_digest budget depth_cap
    value_domain :
  typed_session (Session := Session) -> 0 <= budget <= u32_max -> 1 <= depth_cap <= u16_max ->
  exists r, select_action_with_seed_digest_and_budget_v1 (Z.to_nat budget) authority session expected seed_digest
              budget depth_cap value_domain = Some r
  /\ r <> Err Panic.
Proof.
  intros Ht Hb Hcap.
  destruct (select_with_budget_answers Ht (fun _ _ => True) value_domain False ltac:(done)
    (Z.to_nat budget) authority session expected seed_digest budget depth_cap Hb Hcap ltac:(lia) ltac:(done))
    as (r & Er & Hr).
  exists r. split; [done|]. by intros ->.
Qed.

(** C12: over a session that keeps its word for the 64 answers the search looks ahead, so
    that no line of them is halted or cut off by a cap, asked for its live decision under a
    valid authority whose budget covers the root's actions, the search does decide, the
    whole search as well as both diagnostic halves: none of the tree's integrity checks can
    fail, and the evaluator is only ever asked about the decision the session shows, with
    that decision's number of actions. *)
Theorem lawful_search_decides authority (session : Session) expected value_domain (good : nat -> Session -> Prop) :
  typed_session (Session := Session) -> lawful good value_domain ->
  validate authority = Ok () -> good 64%nat session -> current_response session = Decision expected ->
  kernel_search_private_diagnostic_identity_v1 session = private_diagnostic_identity authority ->
  legal_action_count expected <= transition_budget authority ->
  (exists d, select_action_v1 (Z.to_nat (transition_budget authority)) authority session expected value_domain
             = Some (Ok d)
     /\ balanced expected (transition_budget authority) 64 d)
  /\ forall half, exists d,
       select_action_seed_half_v1 (Z.to_nat (transition_budget authority)) authority session expected value_domain half
       = Some (Ok d)
       /\ balanced expected (Z.max (transition_budget authority / 2) (legal_action_count expected)) 64 d.
Proof.
  intros Ht Hlaw Hv Hg Hcur Hid Hn. unfold select_action_v1, select_action_seed_half_v1.
  destruct (digest_runs authority Hv) as [dig ->].
  assert (policy_step_depth_cap authority = 64 /\ 512 <= transition_budget authority <= 32768) as [-> Hb].
  { apply authority_valid in Hv as (_ & _ & _ & Er).
    apply refreshed_fields in Er as (_ & _ & _ & _ & -> & -> & _). by destruct (tier authority). }
  pose proof (law_count _ _ Hlaw _ session expected Hg Hcur) as Hc.
  assert (forall seed_digest budget, legal_action_count expected <= budget <= transition_budget authority ->
    exists d, select_action_with_seed_digest_and_budget_v1 (Z.to_nat (transition_budget authority)) authority session
      expected seed_digest budget 64 value_domain = Some (Ok d) /\ balanced expected budget 64 d) as Hone.
  { intros seed_digest budget Hbud. unfold u32_max in *.
    destruct (select_with_budget_answers Ht good value_domain True ltac:(done)
      (Z.to_nat (transition_budget authority)) authority session expected seed_digest budget 64) as (r & Er & Hr);
      [unfold u32_max; lia|unfold u16_max; lia|lia|intros _; unfold u32_max; split_and!; done || lia|].
    destruct r as [d|[|e]]; [by exists d|done|by destruct Hr]. }
  split; [apply Hone; lia|]. intros half. apply Hone.
  pose proof (Z.div_le_upper_bound (transition_budget authority) 2 (transition_budget authority)). lia.
Qed.
End Properties.

(** C13: at a node of a search tree, the choice is the unvisited action with the largest
    prior, if there is one, the lowest index among equals; and otherwise the action whose
    mean, seen from the player to move, plus the prior's share of the exploration bonus is
    the largest, the lowest index among equals. It always answers. *)
Theorem tree_selection_is_puct node root_player : node_ok node ->
  exists i a p, select_tree_action_puct_v1 node root_player = Ok i
  /\ actions node !! i = Some a /\ prior node !! i = Some p
  /\ ((stat_visits a = 0
       /\ forall j b q, actions node !! j = Some b -> prior node !! j = Some q -> stat_visits b = 0 ->
          q < p \/ q = p /\ (i <= j)%nat)
     \/ (Forall (fun b => 0 < stat_visits b) (actions node)
       /\ let score b q :=
            (if decide (actor node = root_player) then mean b else - mean b)
            + integer_ucb_bonus_v1 (visits node) (stat_visits b) * q / 1000000 in
          forall j b q, actions node !! j = Some b -> prior node !! j = Some q ->
            score b q <= score a p /\ ((j < i)%nat -> score b q < score a p))).
Proof.
  intros Hok. pose proof (select_tree_action_runs True node root_player Hok) as H.
  destruct (select_tree_action_puct_v1 node root_player) as [i|[|e]]; cbn [answers] in H; [|done|by destruct H].
  destruct H as (a & p & Ea & Ep & Hc). exists i, a, p. split; [done|]. split; [done|]. split; [done|].
  destruct Hc as [Hc|[Hall Hc]]; [by left|]. right. split; [done|]. cbv zeta in *. intros j b q Ej Eq.
  destruct Hok as (_ & _ & Hvis).
  assert (forall k c x, actions node !! k = Some c ->
    (if decide (actor node = root_player) then mean c else - mean c)
      + integer_ucb_bonus_v1 (visits node) (stat_visits c) * x / 1000000
    = puct_score (bool_decide (actor node = root_player)) (visits node) c x) as Es.
  { intros k c x Ek. pose proof (Forall_lookup_1 _ _ _ _ Hall Ek) as Hpos.
    destruct (ucb_bonus_runs (visits node) (stat_visits c) Hvis Hpos) as [-> _].
    unfold puct_score, bool_decide. by repeat case_decide. }
  rewrite (Es j b q Ej), (Es i a p Ea). by apply (Hc j).
Qed.

(* ------------------------------------------------------------------ *)
(** ** The properties at the countdown *)

#[local] Existing Instance toy_evaluator | 1.
#[local] Existing Instance sample_build.

Lemma decision_books_balance_witness : exists d,
  select_action_with_seed_digest_and_budget_v1 9 sample_record (9, 100)%nat (toy_decision 9) [] 9 4 Tanh = Some (Ok d)
  /\ decision_simulations d = 5 /\ balanced (toy_decision 9) 9 4 d.
Proof.
  eexists. assert (forall d,
    select_action_with_seed_digest_and_budget_v1 9 sample_record (9, 100)%nat (toy_decision 9) [] 9 4 Tanh = Some (Ok d) ->
    balanced (toy_decision 9) 9 4 d) as Hd.
  { intros d E. refine (proj2 (proj2 (decision_books_balance 9 sample_record (9, 100)%nat (toy_decision 9) [] 9 4 Tanh d
      toy_typed _ _ E))); unfold u32_max, u16_max; lia. }
  split; [vm_compute; reflexivity|]. split; [reflexivity|]. apply Hd. vm_compute. reflexivity.
Defined.

Lemma search_terminates_without_panic_witness : exists r,
  select_action_with_seed_digest_and_budget_v1 9 sample_record (9, 100)%nat (toy_decision 9) [] 9 4 Tanh = Some r
  /\ r <> Err Panic.
Proof.
  apply (search_terminates_without_panic sample_record (9, 100)%nat (toy_decision 9) [] 9 4 Tanh toy_typed);
    unfold u32_max, u16_max; lia.
Defined.

Lemma lawful_search_decides_witness : exists d,
  select_action_v1 (Z.to_nat 2048) sample_record (100, 65)%nat (toy_decision 100) Tanh = Some (Ok d)
  /\ balanced (toy_decision 100) 2048 64 d.
Proof.
  refine (proj1 (lawful_search_decides sample_record (100, 65)%nat (toy_decision 100) Tanh toy_good
    toy_typed toy_lawful _ _ eq_refl eq_refl _)); [vm_compute; reflexivity|unfold toy_good; cbn; lia|cbn; lia].
Defined.

(** Two answers from the cap, the walks meet it and the evaluator refuses. *)
Example cut_off_search_refuses :
  select_action_with_seed_digest_and_budget_v1 9 sample_record (9, 2)%nat (toy_decision 9) [] 9 4 Tanh
  = Some (refuse NoLiveDecisionToEncode).
Proof. vm_compute. reflexivity. Qed.

(** Two actions of the maximizing player: the mean of the second outweighs the prior
    of the first. *)
Definition sample_node : ModelGuidedSearchNodeV1 :=
  MkNode [] Ids.PlayerIds.P0 8 [MkStat 4 0 []; MkStat 4 8000 []] [600000; 400000].

Lemma tree_selection_is_puct_witness :
  node_ok sample_node /\ select_tree_action_puct_v1 sample_node Ids.PlayerIds.P0 = Ok 1%nat
  /\ exists i a p, select_tree_action_puct_v1 sample_node Ids.PlayerIds.P0 = Ok i
     /\ actions sample_node !! i = Some a /\ prior sample_node !! i = Some p.
Proof.
  assert (node_ok sample_node) as Hok.
  { split; [|split].
    - split; [done|]. split; [repeat constructor; lia|done].
    - repeat constructor; cbn; lia.
    - cbn. lia. }
  split; [exact Hok|]. split; [vm_compute; reflexivity|].
  destruct (tree_selection_is_puct sample_node Ids.PlayerIds.P0 Hok) as (i & a & p & E & Ea & Ep & _).
  exists i, a, p. by split_and!.
Defined.
