(* ===== verification/Redetermine.v ===== *)
(** * Redetermination of hidden zones
    (src/mtg-kernel/src/kernel_native_search_opponent_v1.rs 1151-1285, with the
    census clone of rl_session.rs)

    A search looks at copies of the game in which every card the searching player
    does not know is some other card the owner may have there. The identities of
    the unknown cards of each owner are collected, sorted, shuffled without bias
    and dealt back. A panic of an index is [Panic]; the rejection loop takes fuel,
    and [None] is a loop that has not ended. *)

From S2P Require Import Prelude Ids Bytes Randomness SearchTree CombatDamage Library.
Import PlayerIds.

Local Open Scope Z_scope.

(** What the sampler reads and writes of the fields of an object that [V4] stands
    for: the attachments, and the name and static part looked up in [CARD_DEFS]
    ([None] where the table has no such entry). *)
Class HiddenCards (V4 : Type) := {
  attachments : V4 -> list ObjectId;
  become_card : Z -> V4 -> option V4;
}.

(** [engine.pending_effect] when it is a choice of targets: the player, the
    selected and the legal candidates. *)
Class PendingSelection (Rest : Type) := {
  pending_select_targets : Rest -> option (PlayerId * list Target * list Target);
}.

(** ** The rejection draw *)

(** At most [p] turns of a loop, which ends with [inl]. *)
Fixpoint turns {A B} (p : positive) (body : A -> B + A) (a : A) : B + A :=
  match p with
  | xH => body a
  | xO p =>
      match turns p body a with inl b => inl b | inr a => turns p body a end
  | xI p =>
      match body a with
      | inl b => inl b
      | inr a => match turns p body a with inl b => inl b | inr a => turns p body a end
      end
  end.

(** [bound.wrapping_neg() % bound] *)
Definition rejection_threshold (bound : Z) : Z := wrap_u64 (- bound) mod bound.

Definition draw_turn (bound : Z) (rng : SplitMix64) : SplitMix64 * Z + SplitMix64 :=
  let (rng, value) := next_u64 rng in
  if decide (rejection_threshold bound <= value) then inl (rng, value mod bound) else inr rng.

(** 2^64 turns: one for every state of the generator. *)
Definition unbiased_index_v1 (rng : SplitMix64) (bound : Z) : option (SplitMix64 * Z) :=
  match turns (2 ^ 64)%positive (draw_turn bound) rng with inl r => Some r | inr _ => None end.

(** [for index in (1..definitions.len()).rev()] *)
Fixpoint shuffle_definitions (index : nat) (rng : SplitMix64) (definitions : list Z)
  : option (SplitMix64 * list Z) :=
  match index with
  | O => Some (rng, definitions)
  | S below =>
      '(rng, j) ← unbiased_index_v1 rng (Z.of_nat index + 1);
      shuffle_definitions below rng (Randomness.swap definitions index (Z.to_nat j))
  end.

Section Redetermine.
Context {V4 Rest : Type} `{!HiddenCards V4} `{!PendingSelection Rest}.
Implicit Types s : GameState V4 Rest.

(** ** The unknown slots *)

Definition hand_known s (root_actor owner : PlayerId) (id : ObjectId) (object : GameObject V4) : bool :=
  existsb (fun e => bool_decide (hk_object e = id) && (hk_generation e =? zone_change_count object))
    (known_hand_cards s root_actor owner).

Definition library_known s (root_actor owner : PlayerId) (at_ : nat) (id : ObjectId)
    (object : GameObject V4) : bool :=
  existsb (fun e => (position e =? Z.of_nat at_) && bool_decide (lk_object e = id)
                    && (lk_generation e =? zone_change_count object))
    (known_library_cards s root_actor owner).

Fixpoint unknown_hand s (root_actor owner : PlayerId) (pinned ids : list ObjectId)
  : option (list ObjectId) :=
  match ids with
  | [] => Some []
  | id :: ids =>
      object ← get s id;
      slots ← unknown_hand s root_actor owner pinned ids;
      Some (if negb (hand_known s root_actor owner id object) && negb (bool_decide (id ∈ pinned))
            then id :: slots else slots)
  end.

Fixpoint unknown_library s (root_actor owner : PlayerId) (pinned : list ObjectId) (at_ : nat)
    (ids : list ObjectId) : option (list ObjectId) :=
  match ids with
  | [] => Some []
  | id :: ids =>
      object ← get s id;
      slots ← unknown_library s root_actor owner pinned (S at_) ids;
      Some (if negb (library_known s root_actor owner at_ id object) && negb (bool_decide (id ∈ pinned))
            then id :: slots else slots)
  end.

Definition unknown_slots s (root_actor owner : PlayerId) (pinned : list ObjectId)
  : option (list ObjectId) :=
  in_hand ← (if decide (owner <> root_actor)
             then unknown_hand s root_actor owner pinned (hand_of s owner) else Some []);
  in_library ← unknown_library s root_actor owner pinned 0 (library_of s owner);
  Some (in_hand ++ in_library).

(** ** Dealing the identities back *)

Definition hidden_card (object : GameObject V4) : bool :=
  bool_decide (zone object = Zone.Hand \/ zone object = Zone.Library)
  && negb (spell_copied object) && bool_decide (attachments (v4 object) = []).

Definition with_definition (card_def : Z) (v : V4) (object : GameObject V4) : GameObject V4 :=
  MkObject card_def (owner object) (controller object) (zone object) (zone_change_count object)
    (spell_copied object) v.

Definition relabel s (slot : ObjectId * Z) : result (Fault KernelNativeSearchErrorV1) (GameState V4 Rest) :=
  let '(id, card_def) := slot in
  let? object := ok_or Panic (get s id) in
  if hidden_card object then
    let? v := ok_or Panic (become_card card_def (v4 object)) in
    Ok (with_objects s (Arena.update (objects s) id (with_definition card_def v)))
  else Err (Reject HiddenStateContract).

Definition redeterminize_owner (root_actor : PlayerId) (pinned : list ObjectId)
    (owner : PlayerId) (rng : SplitMix64) s
  : option (result (Fault KernelNativeSearchErrorV1) (SplitMix64 * GameState V4 Rest)) :=
  match unknown_slots s root_actor owner pinned with
  | None => Some (Err Panic)
  | Some slots =>
      match mapM (fun id => card_def <$> get s id) slots with
      | None => Some (Err Panic)
      | Some definitions =>
          '(rng, definitions) ←
            shuffle_definitions (pred (length definitions)) rng (merge_sort Z.le definitions);
          Some (let? s := try_fold relabel s (zip slots definitions) in Ok (rng, s))
      end
  end.

Definition redeterminize_hidden_zones_pinned_v1 s (root_actor : PlayerId) (simulation_seed : Z)
    (pinned : list ObjectId) : option (result (Fault KernelNativeSearchErrorV1) (GameState V4 Rest)) :=
  if decide (root_actor <> P0 /\ root_actor <> P1) then Some (Err (Reject HiddenStateContract))
  else
    let rng := SplitMix64_seed simulation_seed in
    first ← redeterminize_owner root_actor pinned P0 rng s;
    match first with
    | Err e => Some (Err e)
    | Ok (rng, s) =>
        second ← redeterminize_owner root_actor pinned P1 rng s;
        Some (let? after := second in Ok after.2)
    end.

Definition redeterminize_hidden_zones_v1 s (root_actor : PlayerId) (simulation_seed : Z)
  : option (result (Fault KernelNativeSearchErrorV1) (GameState V4 Rest)) :=
  redeterminize_hidden_zones_pinned_v1 s root_actor simulation_seed [].

(** ** The census clone *)

Definition candidate_object (candidate : Target) : option ObjectId :=
  match candidate with TObject id => Some id | TPlayer _ | TStackItem _ => None end.

Definition in_hidden_zone s (id : ObjectId) : bool :=
  match get s id with
  | Some object => bool_decide (zone object = Zone.Hand \/ zone object = Zone.Library)
  | None => false
  end.

(** [dedup] of a sorted vector. *)
Fixpoint dedup (ids : list ObjectId) : list ObjectId :=
  match ids with
  | a :: ((b :: _) as rest) => if decide (a = b) then dedup rest else a :: dedup rest
  | _ => ids
  end.

Definition pending_selection_hidden_objects_v1 s (root_actor : PlayerId) : list ObjectId :=
  match pending_select_targets (rest s) with
  | Some (player, selected, legal) =>
      if decide (player <> root_actor) then []
      else dedup (merge_sort object_le
             (filter (fun id => in_hidden_zone s id) (omap candidate_object (selected ++ legal))))
  | None => []
  end.

(** The cards whose identity the sampler changed. *)
Fixpoint changed_cards (before : list (ObjectId * GameObject V4)) s : option (list ObjectId) :=
  match before with
  | [] => Some []
  | (id, object) :: before =>
      after ← get s id;
      changed ← changed_cards before s;
      Some (if bool_decide (zone object = Zone.Hand \/ zone object = Zone.Library)
               && negb (card_def object =? card_def after)
            then id :: changed else changed)
  end.

(** [census_redeterminized_clone_v1] on the state, with the errors of the sampler
    and of the provenance check; the check is flat_action_v4.rs. *)
Inductive CensusError := Sampler (error : KernelNativeSearchErrorV1) | HiddenSourceProvenanceConflict.

Definition census_redeterminized_clone_v1 (conflicts : GameState V4 Rest -> list ObjectId -> bool)
    s (actor : PlayerId) (seed : Z) : option (result (Fault CensusError) (GameState V4 Rest)) :=
  let pinned := pending_selection_hidden_objects_v1 s actor in
  sampled ← redeterminize_hidden_zones_pinned_v1 s actor seed pinned;
  Some match sampled with
  | Err Panic => Err Panic
  | Err (Reject e) => Err (Reject (Sampler e))
  | Ok sampled =>
      match changed_cards (Arena.iter (objects s)) sampled with
      | None => Err Panic
      | Some changed =>
          if conflicts s changed then Err (Reject HiddenSourceProvenanceConflict) else Ok sampled
      end
  end.
End Redetermine.
