(* ===== verification/RedetermineFacts.v ===== *)
(** * What the sampler of hidden zones does

    The rejection draw ends and is uniform; and the sampler permutes the identities of
    the cards a player does not know, within each owner, and changes nothing else. *)

From S2P Require Import Prelude Ids Bytes Randomness RandomnessFacts FastSampler FastSamplerBits FastSamplerDraw SearchMathFacts SearchTree CombatDamage Library LibraryRows LibraryFacts LibraryMoves LibraryReach LibraryKnowledge Redetermine.
Import PlayerIds.

Local Open Scope Z_scope.

(* ------------------------------------------------------------------ *)
(** ** The rejection draw *)

Fixpoint turns_nat {A B} (n : nat) (body : A -> B + A) (a : A) : B + A :=
  match n with
  | O => inr a
  | S n => match body a with inl b => inl b | inr a => turns_nat n body a end
  end.

Lemma turns_nat_add {A B} (body : A -> B + A) m : forall n a,
  turns_nat (n + m) body a = match turns_nat n body a with inl b => inl b | inr a => turns_nat m body a end.
Proof.
  intros n. induction n as [|n IH]; intros a; cbn; [done|]. destruct (body a); [done|apply IH].
Qed.

Lemma turns_as_nat {A B} (body : A -> B + A) p : forall a, turns p body a = turns_nat (Pos.to_nat p) body a.
Proof.
  induction p as [p IH|p IH|]; intros a; cbn [turns].
  - rewrite Pos2Nat.inj_xI. cbn [turns_nat]. destruct (body a) as [b|a1]; [done|].
    replace (2 * Pos.to_nat p)%nat with (Pos.to_nat p + Pos.to_nat p)%nat by lia.
    rewrite turns_nat_add, <- IH. destruct (turns p body a1) as [b|a2]; [done|]. by rewrite IH.
  - rewrite Pos2Nat.inj_xO. replace (2 * Pos.to_nat p)%nat with (Pos.to_nat p + Pos.to_nat p)%nat by lia.
    rewrite turns_nat_add, <- IH. destruct (turns p body a) as [b|a2]; [done|]. by rewrite IH.
  - change (Pos.to_nat 1) with 1%nat. cbn. by destruct (body a).
Qed.

(** The [k]th number of the stream. *)
Definition output (k : nat) (rng : SplitMix64) : Z := snd (next_u64 (steps k rng)).

Lemma output_S k rng : output (S k) rng = output k (fst (next_u64 rng)).
Proof. reflexivity. Qed.

Lemma draw_turns bound n : forall rng,
  (exists k, (k < n)%nat /\ (forall j, (j < k)%nat -> output j rng < rejection_threshold bound)
     /\ rejection_threshold bound <= output k rng
     /\ turns_nat n (draw_turn bound) rng = inl (steps (S k) rng, output k rng mod bound))
  \/ (forall j, (j < n)%nat -> output j rng < rejection_threshold bound).
Proof.
  induction n as [|n IH]; intros rng; [right; lia|]. cbn [turns_nat]. unfold draw_turn at 1.
  destruct (next_u64 rng) as [rng1 v] eqn:E.
  assert (output 0 rng = v) as E0 by (unfold output; cbn [steps]; by rewrite E).
  assert (rng1 = fst (next_u64 rng)) as E1 by (by rewrite E).
  case_decide as Hv.
  - left. exists 0%nat. split; [lia|]. split; [lia|]. rewrite E0. split; [done|]. cbn [steps]. by rewrite E.
  - destruct (IH rng1) as [(k & Hk & Hrej & Hacc & Ht)|Hall].
    + left. exists (S k). rewrite output_S, <- E1. split; [lia|]. split; [|split; [done|]].
      * intros [|j] Hj; [rewrite E0; lia|]. rewrite output_S, <- E1. apply Hrej. lia.
      * rewrite Ht. cbn [steps]. by rewrite E.
    + right. intros [|j] Hj; [rewrite E0; lia|]. rewrite output_S, <- E1. apply Hall. lia.
Qed.

(** The generator produces every word: its states are all visited and the output
    function is a permutation. *)
Lemma every_word_is_drawn rng w : is_word (sm_state rng) -> is_word w ->
  exists k, Z.of_nat k < 2 ^ 64 /\ output k rng = w.
Proof.
  intros Hr Hw. pose proof (seed_of_draw_is_word w) as Hs.
  set (target := seed_of_draw w) in *.
  set (k := ((target - sm_state rng) * 17428512612931826493) mod 2 ^ 64).
  pose proof (Z.mod_pos_bound ((target - sm_state rng) * 17428512612931826493) (2 ^ 64) ltac:(lia)) as Hk.
  fold k in Hk. exists (Z.to_nat k). split; [lia|]. unfold output.
  assert (sm_state (steps (Z.to_nat k) rng) = target) as E.
  { unfold is_word in *. rewrite steps_state by (unfold u64_max; lia). rewrite Z2Nat.id by lia. unfold wrap_u64.
    change 18446744073709551616 with (2 ^ 64).
    unfold k. rewrite Zplus_mod, Z.mul_mod_idemp_l, <- Zplus_mod by lia.
    rewrite <- Z.mul_assoc, (Z.mul_comm 17428512612931826493), gamma_inverse.
    change 18446744073709551616 with (2 ^ 64).
    replace (sm_state rng + (target - sm_state rng) * (10771413168148108919 * 2 ^ 64 + 1))
      with (target + ((target - sm_state rng) * 10771413168148108919) * 2 ^ 64) by ring.
    rewrite Z.mod_add by lia. apply Z.mod_small. lia. }
  rewrite <- (first_draw_of_seed w Hw). fold target. rewrite splitmix64_first_is_next_u64.
  f_equal. f_equal. destruct (steps (Z.to_nat k) rng) as [st]. cbn in E. by rewrite E.
Qed.

Lemma threshold_spec bound : 0 < bound <= u64_max ->
  rejection_threshold bound = 2 ^ 64 mod bound /\ 0 <= rejection_threshold bound < bound
  /\ 2 * rejection_threshold bound < 2 ^ 64
  /\ 2 ^ 64 - rejection_threshold bound = bound * (2 ^ 64 / bound).
Proof.
  intros Hb. unfold u64_max in Hb.
  assert (rejection_threshold bound = 2 ^ 64 mod bound) as ->.
  { unfold rejection_threshold, wrap_u64. change 18446744073709551616 with (2 ^ 64).
    rewrite <- (Z.mod_add (- bound) 1 (2 ^ 64)) by lia. rewrite (Z.mod_small (- bound + 1 * 2 ^ 64)) by lia.
    replace (- bound + 1 * 2 ^ 64) with (2 ^ 64 + (-1) * bound) by ring. by rewrite Z.mod_add by lia. }
  pose proof (Z.mod_pos_bound (2 ^ 64) bound ltac:(lia)). pose proof (Z.div_mod (2 ^ 64) bound ltac:(lia)) as E.
  split; [done|]. split; [done|]. split; [|lia].
  assert (1 <= 2 ^ 64 / bound) by (apply Z.div_le_lower_bound; lia). nia.
Qed.

Lemma unbiased_index_runs rng bound : is_word (sm_state rng) -> 0 < bound <= u64_max ->
  exists k, Z.of_nat k < 2 ^ 64 /\ (forall j, (j < k)%nat -> output j rng < rejection_threshold bound)
  /\ rejection_threshold bound <= output k rng
  /\ unbiased_index_v1 rng bound = Some (steps (S k) rng, output k rng mod bound).
Proof.
  intros Hr Hb. destruct (threshold_spec bound Hb) as (_ & Ht & Ht2 & _).
  destruct (every_word_is_drawn rng (2 ^ 64 - 1) Hr ltac:(unfold is_word; lia)) as (m & Hm & Em).
  unfold unbiased_index_v1. rewrite turns_as_nat.
  assert (Z.of_nat (Pos.to_nat (2 ^ 64)) = 2 ^ 64) as En by (rewrite positive_nat_Z; done).
  destruct (draw_turns bound (Pos.to_nat (2 ^ 64)) rng) as [(k & Hk & Hrej & Hacc & ->)|Hall].
  - exists k. split; [lia|]. by split_and!.
  - specialize (Hall m ltac:(lia)). lia.
Qed.

(** The draw of an index below [bound] ends for every state of the generator,
    within 2^64 numbers, with the first number that is not below the threshold,
    reduced modulo [bound]; the threshold rejects fewer than half of the numbers;
    and the numbers it accepts are spread evenly: each residue has exactly
    2^64 / bound of them. *)
Theorem rejection_draw_is_uniform rng bound : is_word (sm_state rng) -> 0 < bound <= u64_max ->
  (exists k, Z.of_nat k < 2 ^ 64
    /\ (forall j, (j < k)%nat -> output j rng < rejection_threshold bound)
    /\ rejection_threshold bound <= output k rng
    /\ unbiased_index_v1 rng bound = Some (steps (S k) rng, output k rng mod bound))
  /\ 2 * rejection_threshold bound < 2 ^ 64
  /\ forall r i, 0 <= r < bound -> 0 <= i < 2 ^ 64 / bound ->
       exists w, (rejection_threshold bound <= w < 2 ^ 64 /\ w mod bound = r
                  /\ (w - rejection_threshold bound) / bound = i)
         /\ forall w', rejection_threshold bound <= w' < 2 ^ 64 -> w' mod bound = r ->
              (w' - rejection_threshold bound) / bound = i -> w' = w.
Proof.
  intros Hr Hb. destruct (threshold_spec bound Hb) as (_ & Ht & Ht2 & Eq).
  split; [by apply unbiased_index_runs|]. split; [done|]. intros r i Hrr Hi.
  set (t := rejection_threshold bound) in *. set (q := 2 ^ 64 / bound) in *. clearbody t q.
  pose proof (Z.mod_pos_bound (r - t) bound ltac:(lia)) as Hm.
  assert ((t + (r - t) mod bound) mod bound = r) as Er.
  { rewrite Z.add_mod_idemp_r by lia. replace (t + (r - t)) with r by ring. by apply Z.mod_small. }
  exists (t + (r - t) mod bound + i * bound). split.
  - split; [nia|]. split; [by rewrite Z.mod_add by lia|].
    replace (t + (r - t) mod bound + i * bound - t) with ((r - t) mod bound + i * bound) by ring.
    rewrite Z.div_add, Z.div_small by lia. lia.
  - intros w' Hw Ew Ei. pose proof (Z.div_mod (w' - t) bound ltac:(lia)) as E. rewrite Ei in E.
    assert ((w' - t) mod bound = (r - t) mod bound) as E2.
    { rewrite <- Ew, Zminus_mod_idemp_l. done. }
    rewrite E2 in E. lia.
Qed.

Lemma rejection_draw_is_uniform_witness :
  unbiased_index_v1 (SplitMix64_seed 7) 6 = Some (steps 1 (SplitMix64_seed 7), 3)
  /\ 2 * rejection_threshold 6 < 2 ^ 64.
Proof.
  destruct (rejection_draw_is_uniform (SplitMix64_seed 7) 6) as (_ & H & _).
  - unfold is_word. cbn. lia.
  - unfold u64_max. lia.
  - split; [vm_compute; reflexivity|exact H].
Defined.

(* ------------------------------------------------------------------ *)
(** ** The shuffle *)

Lemma next_u64_is_word rng : is_word (sm_state (fst (next_u64 rng))).
Proof. rewrite next_u64_state. apply wrap_is_word. Qed.

Lemma steps_is_word n : forall rng, is_word (sm_state rng) -> is_word (sm_state (steps n rng)).
Proof. induction n as [|n IH]; intros rng Hr; [done|]. cbn [steps]. apply IH, next_u64_is_word. Qed.

Lemma shuffle_definitions_runs index : forall rng defs, is_word (sm_state rng) ->
  Z.of_nat index < u64_max ->
  exists js rng', admissible index js /\ is_word (sm_state rng')
  /\ shuffle_definitions index rng defs = Some (rng', shuffle_with index js defs).
Proof.
  induction index as [|below IH]; intros rng defs Hr Hi; cbn [shuffle_definitions].
  { by exists [], rng. }
  destruct (unbiased_index_runs rng (Z.of_nat (S below) + 1) Hr) as (k & _ & _ & _ & ->); [lia|].
  cbn [mbind option_bind].
  pose proof (Z.mod_pos_bound (output k rng) (Z.of_nat (S below) + 1) ltac:(lia)) as Hm.
  set (j := Z.to_nat (output k rng mod (Z.of_nat (S below) + 1))).
  destruct (IH (steps (S k) rng) (Randomness.swap defs (S below) j)) as (js & rng' & Hjs & Hw & E);
    [by apply steps_is_word|lia|].
  exists (j :: js), rng'. split; [|split; [done|exact E]]. cbn. split; [lia|done].
Qed.

Lemma shuffle_definitions_perm index : forall rng defs rng' defs',
  shuffle_definitions index rng defs = Some (rng', defs') -> defs' ≡ₚ defs.
Proof.
  induction index as [|below IH]; intros rng defs rng' defs'; cbn [shuffle_definitions]; [by intros [= _ <-]|].
  intros ([rng1 j] & _ & E)%bind_Some. apply IH in E. rewrite E. apply swap_perm.
Qed.

Lemma sorted_definitions_eq l l' : l ≡ₚ l' -> merge_sort Z.le l = merge_sort Z.le l'.
Proof.
  intros E. assert (Transitive Z.le) by (intros a b c; lia). assert (Total Z.le) by (intros a b; lia).
  assert (AntiSymm (=) Z.le) by (intros a b ??; lia).
  apply (StronglySorted_unique Z.le); [apply (StronglySorted_merge_sort Z.le)..|].
  by rewrite !merge_sort_Permutation.
Qed.

(* ------------------------------------------------------------------ *)
(** ** The unknown cards *)

Section Slots.
Context {V4 Rest : Type} `{!HiddenCards V4}.
Implicit Types s t : GameState V4 Rest.

(** A card of a hidden zone that [root_actor] does not know and that is not pinned:
    in a hand of the other player without a fact about it, or at a position of a
    library without a fact about that position. *)
Definition unknown_card s (root_actor : PlayerId) (pinned : list ObjectId) (owner : PlayerId)
    (id : ObjectId) : Prop :=
  (id ∉ pinned) /\
  ((owner <> root_actor /\ id ∈ hand_of s owner
      /\ id ∉ map hk_object (known_hand_cards s root_actor owner))
   \/ exists i, library_of s owner !! i = Some id /\ ~ knows s root_actor owner i).

Lemma unknown_hand_spec s root_actor owner pinned ids :
  (forall id, id ∈ ids -> is_Some (get s id)) ->
  exists slots, unknown_hand s root_actor owner pinned ids = Some slots /\ (slots `sublist_of` ids)
  /\ forall id, id ∈ slots <-> id ∈ ids /\ (id ∉ pinned)
       /\ exists o, get s id = Some o /\ hand_known s root_actor owner id o = false.
Proof.
  induction ids as [|id ids IH]; intros Hex; cbn [unknown_hand].
  { exists []. split; [done|]. split; [constructor|]. intros id. split; [by intros ?%elem_of_nil|by intros [?%elem_of_nil _]]. }
  destruct (Hex id) as [o Eo]; [by left|]. rewrite Eo. cbn [mbind option_bind].
  destruct IH as (slots & -> & Hsub & Hin); [intros x Hx; apply Hex; by right|]. cbn [mbind option_bind].
  eexists. split; [done|].
  destruct (negb (hand_known s root_actor owner id o) && negb (bool_decide (id ∈ pinned))) eqn:Eb.
  - apply andb_true_iff in Eb as [Ek%negb_true_iff Ep%negb_true_iff]. apply bool_decide_eq_false in Ep.
    split; [by constructor|]. intros x. rewrite !elem_of_cons, Hin. split.
    + intros [->|(H1 & H2 & H3)]; [|tauto]. split; [by left|]. split; [done|]. by exists o.
    + tauto.
  - split; [by apply sublist_cons|]. intros x. rewrite elem_of_cons, Hin. split; [tauto|].
    intros ([->|Hx] & H2 & o' & Eo' & Hk); [|split; [done|]; split; [done|]; by exists o']. rewrite Eo in Eo'. injection Eo' as <-.
    by rewrite Hk, bool_decide_eq_false_2 in Eb.
Qed.

Lemma unknown_library_spec s root_actor owner pinned ids : forall at_,
  (forall id, id ∈ ids -> is_Some (get s id)) ->
  exists slots, unknown_library s root_actor owner pinned at_ ids = Some slots /\ (slots `sublist_of` ids)
  /\ forall id, id ∈ slots <-> (id ∉ pinned)
       /\ exists i o, ids !! i = Some id /\ get s id = Some o
          /\ library_known s root_actor owner (at_ + i) id o = false.
Proof.
  induction ids as [|id ids IH]; intros at_ Hex; cbn [unknown_library].
  { exists []. split; [done|]. split; [constructor|]. intros id. split; [by intros ?%elem_of_nil|].
    by intros (_ & i & o & E & _). }
  destruct (Hex id) as [o Eo]; [by left|]. rewrite Eo. cbn [mbind option_bind].
  destruct (IH (S at_)) as (slots & -> & Hsub & Hin); [intros x Hx; apply Hex; by right|]. cbn [mbind option_bind].
  eexists. split; [done|].
  assert (forall x, (exists i o', (id :: ids) !! i = Some x /\ get s x = Some o'
      /\ library_known s root_actor owner (at_ + i) x o' = false)
    <-> (x = id /\ library_known s root_actor owner at_ id o = false)
        \/ exists i o', ids !! i = Some x /\ get s x = Some o'
             /\ library_known s root_actor owner (S at_ + i) x o' = false) as Hsplit.
  { intros x. split.
    - intros ([|i] & o' & Ei & Eo' & Hk).
      + injection Ei as ->. rewrite Eo in Eo'. injection Eo' as <-. rewrite Nat.add_0_r in Hk. by left.
      + right. exists i, o'. split; [done|]. split; [done|]. by replace (S at_ + i)%nat with (at_ + S i)%nat by lia.
    - intros [[-> Hk]|(i & o' & Ei & Eo' & Hk)].
      + exists 0%nat, o. split; [done|]. split; [done|]. by rewrite Nat.add_0_r.
      + exists (S i), o'. split; [done|]. split; [done|]. by replace (at_ + S i)%nat with (S at_ + i)%nat by lia. }
  destruct (negb (library_known s root_actor owner at_ id o) && negb (bool_decide (id ∈ pinned))) eqn:Eb.
  - apply andb_true_iff in Eb as [Ek%negb_true_iff Ep%negb_true_iff]. apply bool_decide_eq_false in Ep.
    split; [by constructor|]. intros x. rewrite elem_of_cons, Hin, Hsplit. split; [|tauto].
    intros [->|[H1 H2]]; [|tauto]. split; [done|]. by left.
  - split; [by apply sublist_cons|]. intros x. rewrite Hin, Hsplit. split; [tauto|].
    intros (H1 & [[-> Hk]|H2]); [|tauto]. by rewrite Hk, bool_decide_eq_false_2 in Eb.
Qed.

Lemma hand_known_spec s root_actor owner id o :
  hidden_ok s -> valid_player root_actor -> valid_player owner -> get s id = Some o ->
  hand_known s root_actor owner id o = true <-> id ∈ map hk_object (known_hand_cards s root_actor owner).
Proof.
  intros H Hr Hw Eo. unfold hand_known. rewrite existsb_exists, list_elem_of_fmap.
  destruct (H owner Hw) as [_ _ _ Hrow _]. destruct (Hrow root_actor Hr) as [Hent _]. split.
  - intros (e & He & Hb). apply andb_true_iff in Hb as [Hb%bool_decide_eq_true _].
    exists e. split; [done|]. by apply list_elem_of_In.
  - intros (e & -> & He). exists e. split; [by apply list_elem_of_In|].
    rewrite bool_decide_eq_true_2 by done. destruct (Hent e He) as [_ Hg].
    rewrite gen_of_ident in Hg. unfold generation_of in Hg. rewrite Eo in Hg. cbn in Hg. injection Hg as <-.
    by rewrite Z.eqb_refl.
Qed.

Lemma library_known_spec s root_actor owner id i o :
  hidden_ok s -> valid_player root_actor -> valid_player owner ->
  library_of s owner !! i = Some id -> get s id = Some o ->
  library_known s root_actor owner i id o = true <-> knows s root_actor owner i.
Proof.
  intros H Hr Hw Ei Eo. unfold library_known, knows. rewrite existsb_exists.
  destruct (H owner Hw) as [_ _ Hrow _ _]. destruct (Hrow root_actor Hr) as [Hent _]. split.
  - intros (e & He & Hb). rewrite !andb_true_iff in Hb. destruct Hb as [[Hb%Z.eqb_eq _] _].
    exists e. split; [by apply list_elem_of_In|]. unfold place. lia.
  - intros (e & He & Hp). exists e. split; [by apply list_elem_of_In|].
    destruct (Hent e He) as (Hpos & Hlk & Hg). rewrite Hp, Ei in Hlk. injection Hlk as Elk.
    rewrite bool_decide_eq_true_2 by done. rewrite <- Elk, gen_of_ident in Hg. unfold generation_of in Hg.
    rewrite Eo in Hg. cbn in Hg. injection Hg as <-. rewrite Z.eqb_refl, andb_true_r, andb_true_r.
    apply Z.eqb_eq. unfold place in Hp. lia.
Qed.

Lemma unknown_slots_runs s root_actor owner pinned :
  hidden_ok s -> valid_player root_actor -> valid_player owner ->
  exists slots, unknown_slots s root_actor owner pinned = Some slots /\ NoDup slots
  /\ (forall id, id ∈ slots <-> unknown_card s root_actor pinned owner id)
  /\ forall id, id ∈ slots -> 0 <= object_num id <= u32_max /\ exists o, get s id = Some o
       /\ Library.owner o = owner /\ (zone o = Zone.Hand \/ zone o = Zone.Library).
Proof.
  intros H Hr Hw. unfold unknown_slots.
  destruct (H owner Hw) as [[NL HL] [NH HH] _ _ _].
  assert (forall id, id ∈ library_of s owner -> exists o, get s id = Some o /\ Library.owner o = owner
    /\ zone o = Zone.Library) as HL'.
  { intros id Hid. destruct (HL id Hid) as (_ & g & E). apply ident_some in E as (o & ? & ? & ? & _). by exists o. }
  assert (forall id, id ∈ hand_of s owner -> exists o, get s id = Some o /\ Library.owner o = owner
    /\ zone o = Zone.Hand) as HH'.
  { intros id Hid. destruct (HH id Hid) as (_ & g & E). apply ident_some in E as (o & ? & ? & ? & _). by exists o. }
  assert (exists in_hand, (if decide (owner <> root_actor) then unknown_hand s root_actor owner pinned (hand_of s owner)
      else Some []) = Some in_hand /\ (in_hand `sublist_of` hand_of s owner)
    /\ forall id, id ∈ in_hand <-> (id ∉ pinned) /\ owner <> root_actor /\ id ∈ hand_of s owner
         /\ (id ∉ map hk_object (known_hand_cards s root_actor owner))) as (hd & -> & Hsub & Hin).
  { case_decide as Hne.
    - destruct (unknown_hand_spec s root_actor owner pinned (hand_of s owner)) as (slots & -> & Hsub & Hin).
      { intros id Hid. destruct (HH' id Hid) as (o & E & _). by exists o. }
      exists slots. split; [done|]. split; [done|]. intros id. rewrite Hin. split.
      + intros (H1 & H2 & o & Eo & Hk). split; [done|]. split; [done|]. split; [done|].
        intros Hkn. by rewrite (proj2 (hand_known_spec s root_actor owner id o H Hr Hw Eo)) in Hk.
      + intros (H1 & H2 & H3 & H4). split; [done|]. split; [done|]. destruct (HH' id H3) as (o & Eo & _).
        exists o. split; [done|]. destruct (hand_known s root_actor owner id o) eqn:Ek; [|done].
        by apply hand_known_spec in Ek.
    - exists []. split; [done|]. split; [apply sublist_nil_l|]. intros id. split; [by intros ?%elem_of_nil|]. tauto. }
  destruct (unknown_library_spec s root_actor owner pinned (library_of s owner) 0) as (lib & -> & Hsub' & Hin').
  { intros id Hid. destruct (HL' id Hid) as (o & E & _). by exists o. }
  cbn [mbind option_bind]. exists (hd ++ lib). split; [done|].
  assert (forall id, id ∈ lib -> id ∈ library_of s owner) as Hl by (intros id Hid; by eapply elem_of_sublist).
  split; [|split].
  - apply NoDup_app. split; [exact (sublist_NoDup _ _ NH Hsub)|]. split; [|exact (sublist_NoDup _ _ NL Hsub')].
    intros id H1 H2. apply Hin in H1 as (_ & _ & H1 & _). apply Hl in H2.
    destruct (HH' id H1) as (o & E & _ & Ez), (HL' id H2) as (o' & E' & _ & Ez'). congruence.
  - intros id. rewrite elem_of_app, Hin, Hin'. unfold unknown_card. split.
    + intros [(H1 & H2)|(H1 & i & o & Ei & Eo & Hk)]; [split; [done|]; by left|]. split; [done|]. right.
      exists i. split; [done|]. intros Hkn. cbn in Hk.
      by rewrite (proj2 (library_known_spec s root_actor owner id i o H Hr Hw Ei Eo)) in Hk.
    + intros (H1 & [H2|(i & Ei & Hk)]); [by left|]. right. split; [done|].
      destruct (HL' id) as (o & Eo & _); [by eapply list_elem_of_lookup_2|].
      exists i, o. split; [done|]. split; [done|]. destruct (library_known s root_actor owner (0 + i) id o) eqn:Ek; [|done].
      by apply library_known_spec in Ek.
  - intros id [H1|H1]%elem_of_app.
    + apply Hin in H1 as (_ & _ & H1 & _). destruct (HH id H1) as (Hn & _). split; [done|].
      destruct (HH' id H1) as (o & ? & ? & ?). exists o. tauto.
    + apply Hl in H1. destruct (HL id H1) as (Hn & _). split; [done|].
      destruct (HL' id H1) as (o & ? & ? & ?). exists o. tauto.
Qed.

(** The slots are found from the zones, the facts and the incarnations alone. *)
Lemma unknown_slots_ext s t root_actor owner pinned :
  (forall id, ident t id = ident s id) ->
  hand_of t owner = hand_of s owner -> library_of t owner = library_of s owner ->
  known_hand_cards t root_actor owner = known_hand_cards s root_actor owner ->
  known_library_cards t root_actor owner = known_library_cards s root_actor owner ->
  unknown_slots t root_actor owner pinned = unknown_slots s root_actor owner pinned.
Proof.
  intros Hi Eh El Ekh Ekl. unfold unknown_slots. rewrite Eh, El.
  assert (forall ids, unknown_hand t root_actor owner pinned ids = unknown_hand s root_actor owner pinned ids) as ->.
  { induction ids as [|id ids IH]; [done|]. cbn [unknown_hand]. rewrite IH. specialize (Hi id). unfold ident in Hi.
    unfold hand_known. rewrite Ekh. destruct (get t id) as [o'|], (get s id) as [o|]; try done.
    cbn in Hi |- *. injection Hi as _ _ ->. done. }
  assert (forall ids at_, unknown_library t root_actor owner pinned at_ ids
    = unknown_library s root_actor owner pinned at_ ids) as ->; [|done].
  induction ids as [|id ids IH]; intros at_; [done|]. cbn [unknown_library]. rewrite IH. specialize (Hi id).
  unfold ident in Hi. unfold library_known. rewrite Ekl. destruct (get t id) as [o'|], (get s id) as [o|]; try done.
  cbn in Hi |- *. injection Hi as _ _ ->. done.
Qed.
End Slots.

(* ------------------------------------------------------------------ *)
(** ** Dealing *)

Section Deal.
Context {V4 Rest : Type} `{!HiddenCards V4}.
Implicit Types s t : GameState V4 Rest.

Lemma get_with_objects s (id id' : ObjectId) f : 0 <= object_num id -> 0 <= object_num id' ->
  get (with_objects s (Arena.update (objects s) id f)) id'
  = if decide (id' = id) then f <$> get s id' else get s id'.
Proof.
  intros H1 H2. unfold get, Arena.try_get, Arena.update. cbn.
  case_decide as E; [subst; by rewrite list_lookup_alter_eq|].
  rewrite list_lookup_alter_ne; [done|]. unfold Arena.index. intros Ei. apply E, object_num_inj. lia.
Qed.

(** [o'] is [o] under a new identity. *)
Definition dealt (d : Z) (o o' : GameObject V4) : Prop :=
  exists v, become_card d (v4 o) = Some v /\ o' = with_definition d v o.

Lemma relabel_ok s id d s' : relabel s (id, d) = Ok s' -> 0 <= object_num id ->
  exists o v, get s id = Some o /\ hidden_card o = true /\ become_card d (v4 o) = Some v
  /\ s' = with_objects s (objects s') /\ Arena.len (objects s') = Arena.len (objects s)
  /\ forall x, 0 <= object_num x ->
       get s' x = if decide (x = id) then Some (with_definition d v o) else get s x.
Proof.
  intros E Hid. unfold relabel in E. destruct (get s id) as [o|] eqn:Eo; cbn [ok_or result_bind] in E; [|done].
  destruct (hidden_card o) eqn:Eh; [|done]. destruct (become_card d (v4 o)) as [v|] eqn:Ev; [|done].
  cbn [ok_or result_bind] in E. injection E as <-. exists o, v. split; [done|]. split; [done|]. split; [done|].
  split; [done|]. split; [unfold Arena.len; cbn; by rewrite length_alter|].
  intros x Hx. rewrite get_with_objects by done. case_decide as Ex; [subst; by rewrite Eo|done].
Qed.

Definition valid_ids (ids : list ObjectId) : Prop := Forall (fun id => 0 <= object_num id) ids.

(** A deal changes the objects only, keeps their number, and leaves every object
    off the slots alone. *)
Lemma deal_frame slots : forall s defs s', try_fold relabel s (zip slots defs) = Ok s' -> valid_ids slots ->
  s' = with_objects s (objects s') /\ Arena.len (objects s') = Arena.len (objects s)
  /\ forall x, 0 <= object_num x -> (x ∉ slots) -> get s' x = get s x.
Proof.
  induction slots as [|id slots IH]; intros s [|d defs] s' E Hv; cbn [zip zip_with try_fold] in E.
  - injection E as <-. by destruct s.
  - injection E as <-. by destruct s.
  - injection E as <-. by destruct s.
  - apply Forall_cons in Hv as [Hid Hv]. destruct (relabel s (id, d)) as [s1|] eqn:E1; cbn in E; [|done].
    destruct (relabel_ok _ _ _ _ E1 Hid) as (o & v & _ & _ & _ & Es & El & Hg).
    destruct (IH _ _ _ E Hv) as (Es' & El' & Hg'). split; [|split].
    + rewrite Es', Es. done.
    + congruence.
    + intros x Hx Hn. apply not_elem_of_cons in Hn as [Hne Hn]. rewrite Hg' by done.
      rewrite Hg by done. by rewrite decide_False.
Qed.

(** Over distinct hidden cards with entries in the table, each gets its new identity. *)
Lemma deal_runs slots : forall s defs, NoDup slots -> valid_ids slots -> length defs = length slots ->
  (forall id d, id ∈ slots -> d ∈ defs -> exists o, get s id = Some o /\ hidden_card o = true
     /\ is_Some (become_card d (v4 o))) ->
  exists s', try_fold relabel s (zip slots defs) = Ok s'
  /\ forall k id d o, slots !! k = Some id -> defs !! k = Some d -> get s id = Some o ->
       exists o', get s' id = Some o' /\ dealt d o o'.
Proof.
  induction slots as [|id slots IH]; intros s [|d defs] Hnd Hv Hl Hcards; try done; cbn [zip zip_with try_fold].
  { by exists s. }
  apply NoDup_cons in Hnd as [Hnin Hnd]. apply Forall_cons in Hv as [Hid Hv].
  destruct (Hcards id d) as (o & Eo & Eh & v & Ev); [by left|by left|].
  assert (exists s1, relabel s (id, d) = Ok s1) as [s1 E1].
  { unfold relabel. rewrite Eo. cbn [ok_or result_bind]. rewrite Eh, Ev. by eexists. }
  rewrite E1. cbn [result_bind]. destruct (relabel_ok _ _ _ _ E1 Hid) as (o1 & v1 & Eo1 & _ & Ev1 & _ & _ & Hg).
  rewrite Eo in Eo1. injection Eo1 as <-. rewrite Ev in Ev1. injection Ev1 as <-.
  assert (forall x, x ∈ slots -> get s1 x = get s x) as Hsame.
  { intros x Hx. rewrite Hg by exact (proj1 (Forall_forall _ _) Hv x Hx). rewrite decide_False; [done|]. by intros ->. }
  destruct (IH s1 defs Hnd Hv ltac:(cbn in Hl; lia)) as (s' & E & Hdealt).
  { intros x e Hx He. rewrite Hsame by done. apply Hcards; by right. }
  exists s'. split; [done|]. intros [|k] x e y Ex Ee Ey; cbn in Ex, Ee.
  - injection Ex as <-. injection Ee as <-. rewrite Eo in Ey. injection Ey as <-.
    destruct (deal_frame _ _ _ _ E Hv) as (_ & _ & Hfr). exists (with_definition d v o).
    rewrite Hfr by done. rewrite Hg, decide_True by done. split; [done|]. by exists v.
  - apply (Hdealt k); [done|done|]. rewrite Hsame; [done|]. by eapply list_elem_of_lookup_2.
Qed.

(** One slot that is not a plain hidden card is refused. *)
Lemma deal_refuses slots : forall s defs, NoDup slots -> valid_ids slots -> length defs = length slots ->
  (forall id d, id ∈ slots -> d ∈ defs -> exists o, get s id = Some o /\ is_Some (become_card d (v4 o))) ->
  (exists id o, id ∈ slots /\ get s id = Some o /\ hidden_card o = false) ->
  try_fold relabel s (zip slots defs) = Err (Reject HiddenStateContract).
Proof.
  induction slots as [|id slots IH]; intros s [|d defs] Hnd Hv Hl Hcards Hbad; try done.
  { by destruct Hbad as (? & ? & ?%elem_of_nil & _). }
  cbn [zip zip_with try_fold]. apply NoDup_cons in Hnd as [Hnin Hnd]. apply Forall_cons in Hv as [Hid Hv].
  destruct (Hcards id d) as (o & Eo & v & Ev); [by left|by left|].
  destruct (hidden_card o) eqn:Eh.
  2: { unfold relabel. rewrite Eo. cbn [ok_or result_bind]. by rewrite Eh. }
  assert (exists s1, relabel s (id, d) = Ok s1) as [s1 E1].
  { unfold relabel. rewrite Eo. cbn [ok_or result_bind]. rewrite Eh, Ev. by eexists. }
  rewrite E1. cbn [result_bind]. destruct (relabel_ok _ _ _ _ E1 Hid) as (o1 & v1 & _ & _ & _ & _ & _ & Hg).
  assert (forall x, x ∈ slots -> get s1 x = get s x) as Hsame.
  { intros x Hx. rewrite Hg by exact (proj1 (Forall_forall _ _) Hv x Hx). rewrite decide_False; [done|]. by intros ->. }
  apply IH; [done|done|cbn in Hl; lia| |].
  - intros x e Hx He. rewrite Hsame by done. apply Hcards; by right.
  - destruct Hbad as (x & y & [->|Hx]%elem_of_cons & Ey & Hb); [congruence|].
    exists x, y. by rewrite Hsame.
Qed.
End Deal.

(* ------------------------------------------------------------------ *)
(** ** One owner *)

Section Owner.
Context {V4 Rest : Type} `{!HiddenCards V4}.
Implicit Types s t : GameState V4 Rest.

(** The objects at these ids have these identities. *)
Definition identities s (ids : list ObjectId) (defs : list Z) : Prop :=
  Forall2 (fun id d => exists o, get s id = Some o /\ card_def o = d) ids defs.

Lemma identities_mapM s ids defs :
  mapM (fun id => card_def <$> get s id) ids = Some defs <-> identities s ids defs.
Proof.
  rewrite mapM_Some. split; intros H; (eapply Forall2_impl; [exact H|]); intros id d.
  - cbv beta. destruct (get s id) as [o|]; cbn; [|done]. intros [= <-]. by exists o.
  - intros (o & -> & <-). done.
Qed.

Lemma identities_exist s ids : (forall id, id ∈ ids -> is_Some (get s id)) -> exists defs, identities s ids defs.
Proof.
  induction ids as [|id ids IH]; intros H; [by exists []; constructor|].
  destruct (H id) as [o Eo]; [by left|]. destruct IH as [defs Hd]; [intros x Hx; apply H; by right|].
  exists (card_def o :: defs). constructor; [by exists o|done].
Qed.

Lemma identities_in s ids defs d : identities s ids defs -> d ∈ defs ->
  exists id o, id ∈ ids /\ get s id = Some o /\ card_def o = d.
Proof.
  intros H [k Ek]%list_elem_of_lookup. destruct (Forall2_lookup_r _ _ _ _ _ H Ek) as (id & Ei & o & Eo & Ed).
  exists id, o. split; [by eapply list_elem_of_lookup_2|done].
Qed.

(** Every identity the state has is in the card table. *)
Definition in_table s : Prop := forall id o v, get s id = Some o -> is_Some (become_card (card_def o) v).

Record owner_dealt s s' (slots : list ObjectId) (defs' : list Z) : Prop := MkOwnerDealt {
  dealt_frame : s' = with_objects s (objects s');
  dealt_len : Arena.len (objects s') = Arena.len (objects s);
  dealt_others : forall x, 0 <= object_num x -> (x ∉ slots) -> get s' x = get s x;
  dealt_slots : forall k id d o, slots !! k = Some id -> defs' !! k = Some d -> get s id = Some o ->
    exists o', get s' id = Some o' /\ dealt d o o';
}.

(** Object ids are u32, so there are not more slots than that. *)
Lemma slots_fit (slots : list ObjectId) : NoDup slots ->
  (forall id, id ∈ slots -> 0 <= object_num id <= u32_max) -> Z.of_nat (length slots) <= u32_max + 1.
Proof.
  intros Hnd Hex. assert (map object_num slots ⊆+ seqZ 0 4294967296) as Hs.
  { apply NoDup_submseteq.
    - apply NoDup_fmap_2; [intros a b; apply object_num_inj|done].
    - intros n (id & -> & Hid)%list_elem_of_fmap. apply elem_of_seqZ. specialize (Hex id Hid). unfold u32_max in *. lia. }
  apply submseteq_length in Hs. rewrite length_map, length_seqZ in Hs. unfold u32_max. lia.
Qed.

Lemma redeterminize_owner_runs s root_actor owner pinned rng :
  hidden_ok s -> valid_player root_actor -> valid_player owner -> is_word (sm_state rng) ->
  exists slots defs defs' rng', unknown_slots s root_actor owner pinned = Some slots
  /\ identities s slots defs /\ defs' ≡ₚ defs /\ is_word (sm_state rng')
  /\ ((forall id o v, id ∈ slots -> get s id = Some o -> is_Some (become_card (card_def o) v)) ->
      ((forall id o, id ∈ slots -> get s id = Some o -> hidden_card o = true) ->
        exists s', redeterminize_owner root_actor pinned owner rng s = Some (Ok (rng', s'))
          /\ owner_dealt s s' slots defs')
      /\ ((exists id o, id ∈ slots /\ get s id = Some o /\ hidden_card o = false) ->
        redeterminize_owner root_actor pinned owner rng s = Some (Err (Reject HiddenStateContract)))).
Proof.
  intros H Hr Hw Hrng. destruct (unknown_slots_runs s root_actor owner pinned H Hr Hw) as (slots & Es & Hnd & Hin & Hex).
  destruct (identities_exist s slots) as [defs Hd]; [intros id Hid; destruct (Hex id Hid) as (_ & o & E & _); by exists o|].
  pose proof (Forall2_length _ _ _ Hd) as Hlen.
  assert (valid_ids slots) as Hv by (apply Forall_forall; intros id Hid; destruct (Hex id Hid); lia).
  assert (Z.of_nat (length slots) <= u32_max + 1) as Hfits by (apply slots_fit; [done|]; intros id Hid; by apply Hex).
  destruct (shuffle_definitions_runs (pred (length defs)) rng (merge_sort Z.le defs) Hrng) as (js & rng' & Hjs & Hw' & Esh).
  { unfold u32_max, u64_max in *. lia. }
  set (defs' := shuffle_with (pred (length defs)) js (merge_sort Z.le defs)) in *.
  assert (defs' ≡ₚ defs) as Hperm by (unfold defs'; rewrite shuffle_with_perm; apply merge_sort_Permutation).
  exists slots, defs, defs', rng'. split; [done|]. split; [done|]. split; [done|]. split; [done|].
  intros Htab. unfold redeterminize_owner. rewrite Es, (proj2 (identities_mapM s slots defs) Hd).
  assert (length defs' = length slots) as Hlen' by (rewrite Hperm; lia).
  assert (shuffle_definitions (pred (length (merge_sort Z.le defs))) rng (merge_sort Z.le defs) = Some (rng', defs')) as Esh'.
  { by rewrite (Permutation_length (merge_sort_Permutation Z.le defs)). }
  assert (forall id d, id ∈ slots -> d ∈ defs' -> exists o, get s id = Some o /\ is_Some (become_card d (v4 o))) as Hcards.
  { intros id d Hid Hdin. destruct (Hex id Hid) as (_ & o & Eo & _). exists o. split; [done|].
    rewrite Hperm in Hdin. destruct (identities_in s slots defs d Hd Hdin) as (id' & o' & Hid' & Eo' & <-).
    by apply (Htab id' o'). }
  rewrite Esh. cbn [mbind option_bind]. split.
  - intros Hall. destruct (deal_runs slots s defs' Hnd Hv Hlen') as (s' & E & Hdealt).
    { intros id d Hid Hdin. destruct (Hcards id d Hid Hdin) as (o & Eo & Hs). exists o. split; [done|]. split; [by apply (Hall id)|done]. }
    exists s'. rewrite E. cbn [result_bind]. split; [done|]. destruct (deal_frame _ _ _ _ E Hv) as (F1 & F2 & F3).
    by split.
  - intros Hbad. by rewrite (deal_refuses slots s defs' Hnd Hv Hlen' Hcards Hbad).
Qed.

(** ** What a deal keeps *)

Lemma get_norm s id : get s id = get s (MkObjectId (Z.of_nat (Arena.index id))).
Proof. unfold get, Arena.try_get, Arena.index. cbn. by rewrite Nat2Z.id. Qed.

Lemma owner_dealt_ident s s' slots defs' : owner_dealt s s' slots defs' -> length defs' = length slots ->
  forall id, ident s' id = ident s id.
Proof.
  intros [_ Hlen Hoth Hsl] Hl id. unfold ident. rewrite (get_norm s' id), (get_norm s id).
  set (x := MkObjectId _). assert (0 <= object_num x) as Hx by (cbn; lia).
  destruct (decide (x ∈ slots)) as [Hin|Hn]; [|by rewrite Hoth].
  apply list_elem_of_lookup in Hin as [k Ek].
  destruct (lookup_lt_is_Some_2 defs' k) as [d Ed]; [apply lookup_lt_Some in Ek; lia|].
  destruct (get s x) as [o|] eqn:Eo.
  - destruct (Hsl k x d o Ek Ed Eo) as (o' & -> & v & _ & ->). done.
  - unfold get, Arena.try_get in Eo |- *. apply lookup_ge_None in Eo. unfold Arena.len in Hlen.
    by rewrite (lookup_ge_None_2 (Arena.items (objects s'))) by lia.
Qed.

Lemma owner_dealt_same_hidden s s' slots defs' : owner_dealt s s' slots defs' -> length defs' = length slots ->
  same_hidden s s'.
Proof.
  intros H Hl. pose proof (owner_dealt_ident s s' slots defs' H Hl) as Hi. destruct H as [-> _ _ _]. by split.
Qed.
End Owner.

(* ------------------------------------------------------------------ *)
(** ** Both owners *)

Section Both.
Context {V4 Rest : Type} `{!HiddenCards V4}.
Implicit Types s t : GameState V4 Rest.

Lemma hidden_card_cases s (ids : list ObjectId) :
  (forall id o, id ∈ ids -> get s id = Some o -> hidden_card o = true)
  \/ (exists id o, id ∈ ids /\ get s id = Some o /\ hidden_card o = false).
Proof.
  induction ids as [|id ids [IH|(x & o & Hx & Eo & Hb)]].
  - left. by intros id o ?%elem_of_nil.
  - destruct (get s id) as [o|] eqn:Eo; [destruct (hidden_card o) eqn:Eh|].
    + left. intros x y [->|Hx]%elem_of_cons Ey; [congruence|by apply (IH x)].
    + right. exists id, o. split; [by left|done].
    + left. intros x y [->|Hx]%elem_of_cons Ey; [congruence|by apply (IH x)].
  - right. exists x, o. split; [by right|done].
Qed.

(** A card no deal accepts: a copy of a spell, or something attached to it. *)
Definition odd_card (o : GameObject V4) : Prop := spell_copied o = true \/ attachments (v4 o) <> [].

Lemma hidden_card_odd (o : GameObject V4) : zone o = Zone.Hand \/ zone o = Zone.Library ->
  hidden_card o = false <-> odd_card o.
Proof.
  intros Hz. unfold hidden_card, odd_card. rewrite bool_decide_eq_true_2 by done. cbn.
  rewrite andb_false_iff, negb_false_iff, bool_decide_eq_false. done.
Qed.

Lemma dealt_identities s s' slots defs' : owner_dealt s s' slots defs' -> length defs' = length slots ->
  (forall id, id ∈ slots -> is_Some (get s id)) -> identities s' slots defs'.
Proof.
  intros [_ _ _ Hsl] Hl Hex. apply Forall2_same_length_lookup_2; [done|]. intros k id d Ek Ed.
  destruct (Hex id) as [o Eo]; [by eapply list_elem_of_lookup_2|].
  destruct (Hsl k id d o Ek Ed Eo) as (o' & E & v & _ & ->). by exists (with_definition d v o).
Qed.

Lemma identities_ext s t (ids : list ObjectId) defs : (forall id, id ∈ ids -> get t id = get s id) ->
  identities s ids defs -> identities t ids defs.
Proof.
  intros Hg H. induction H as [|id d ids defs (o & Eo & Ed) H IH]; constructor.
  - exists o. by rewrite Hg by left.
  - apply IH. intros x Hx. apply Hg. by right.
Qed.

(** What the deal did to the cards of one owner. *)
Record resampled s s' (root_actor : PlayerId) (pinned : list ObjectId) (owner : PlayerId) : Prop := MkResampled {
  resampled_multiset : exists slots defs defs',
    NoDup slots /\ (forall id, id ∈ slots <-> unknown_card s root_actor pinned owner id)
    /\ identities s slots defs /\ identities s' slots defs' /\ defs' ≡ₚ defs;
  resampled_cards : forall id o, unknown_card s root_actor pinned owner id -> get s id = Some o ->
    exists d o', get s' id = Some o' /\ dealt d o o';
}.

Lemma owner_dealt_resampled s s1 s' root_actor pinned owner slots defs defs' :
  NoDup slots -> (forall id, id ∈ slots <-> unknown_card s root_actor pinned owner id) ->
  (forall id, id ∈ slots -> is_Some (get s id)) -> identities s slots defs ->
  owner_dealt s s1 slots defs' -> defs' ≡ₚ defs -> (forall id, id ∈ slots -> get s' id = get s1 id) ->
  resampled s s' root_actor pinned owner.
Proof.
  intros Hnd Hin Hex Hd Hdealt Hperm Hs'. pose proof (Forall2_length _ _ _ Hd) as Hl.
  assert (length defs' = length slots) as Hl' by (rewrite Hperm; lia). split.
  - exists slots, defs, defs'. split; [done|]. split; [done|]. split; [done|]. split; [|done].
    apply (identities_ext s1); [done|]. by apply (dealt_identities s).
  - intros id o Hun Eo. apply Hin in Hun. rewrite Hs' by done.
    apply list_elem_of_lookup in Hun as [k Ek].
    destruct (lookup_lt_is_Some_2 defs' k) as [d Ed]; [apply lookup_lt_Some in Ek; lia|].
    destruct Hdealt as [_ _ _ Hsl]. destruct (Hsl k id d o Ek Ed Eo) as (o' & E & Hdl). by exists d, o'.
Qed.

Lemma unknown_card_same s t root_actor pinned owner id : same_hidden s t ->
  valid_player root_actor -> valid_player owner ->
  unknown_card t root_actor pinned owner id <-> unknown_card s root_actor pinned owner id.
Proof.
  intros [Hl Hh Hlk Hhk _] Hr Hw. unfold unknown_card, knows.
  by rewrite Hl, Hh, Hhk, Hlk by done.
Qed.

Lemma unknown_card_owner s root_actor pinned owner id : hidden_ok s -> valid_player owner ->
  unknown_card s root_actor pinned owner id ->
  0 <= object_num id /\ exists o, get s id = Some o /\ Library.owner o = owner
    /\ (zone o = Zone.Hand \/ zone o = Zone.Library).
Proof.
  intros H Hw [_ [(_ & Hid & _)|(i & Ei & _)]].
  - destruct (hand_lives s owner id H Hw Hid) as (Hn & g & E). split; [lia|].
    apply ident_some in E as (o & E & Eo & Ez & _). exists o. tauto.
  - destruct (library_lives s owner id H Hw) as (Hn & g & E); [by eapply list_elem_of_lookup_2|]. split; [lia|].
    apply ident_some in E as (o & E & Eo & Ez & _). exists o. tauto.
Qed.
End Both.

Section Results.
Context {V4 Rest : Type} `{!HiddenCards V4}.
Implicit Types s t : GameState V4 Rest.

(** One pass: refused for an odd card, or all unknown cards of the owner resampled
    and everything else as it was. *)
Record passed s s' (root_actor : PlayerId) (pinned : list ObjectId) (owner : PlayerId) : Prop := MkPassed {
  passed_frame : s' = with_objects s (objects s');
  passed_len : Arena.len (objects s') = Arena.len (objects s);
  passed_hidden : same_hidden s s';
  passed_others : forall id, 0 <= object_num id -> ~ unknown_card s root_actor pinned owner id ->
    get s' id = get s id;
  passed_cards : resampled s s' root_actor pinned owner;
  passed_plain : forall id o, unknown_card s root_actor pinned owner id -> get s id = Some o -> ~ odd_card o;
}.

Lemma owner_pass s root_actor owner pinned rng :
  hidden_ok s -> valid_player root_actor -> valid_player owner -> is_word (sm_state rng) ->
  (forall id o v, unknown_card s root_actor pinned owner id -> get s id = Some o ->
     is_Some (become_card (card_def o) v)) ->
  (redeterminize_owner root_actor pinned owner rng s = Some (Err (Reject HiddenStateContract))
   /\ exists id o, unknown_card s root_actor pinned owner id /\ get s id = Some o /\ odd_card o)
  \/ exists rng' s', redeterminize_owner root_actor pinned owner rng s = Some (Ok (rng', s'))
     /\ is_word (sm_state rng') /\ passed s s' root_actor pinned owner.
Proof.
  intros H Hr Hv Hw Htab.
  destruct (unknown_slots_runs s root_actor owner pinned H Hr Hv) as (slots & Es & Hnd & Hin & Hex).
  destruct (redeterminize_owner_runs s root_actor owner pinned rng H Hr Hv Hw)
    as (x & defs & defs' & rng' & Ex & Hd & Hperm & Hw' & Hrun).
  rewrite Es in Ex. injection Ex as <-.
  destruct Hrun as [Hok Hbad]; [by intros id o v Hid; apply Htab, Hin|].
  assert (length defs' = length slots) as Hl by (rewrite Hperm; symmetry; exact (Forall2_length _ _ _ Hd)).
  assert (forall id o, id ∈ slots -> get s id = Some o -> hidden_card o = false <-> odd_card o) as Hodd.
  { intros id o Hid Eo. destruct (Hex id Hid) as (_ & o' & Eo' & _ & Hz). rewrite Eo in Eo'. injection Eo' as <-.
    by apply hidden_card_odd. }
  destruct (hidden_card_cases s slots) as [Hall|Hsome].
  - right. destruct (Hok Hall) as (s' & E & Hdealt). exists rng', s'. split; [done|]. split; [done|].
    pose proof (owner_dealt_same_hidden _ _ _ _ Hdealt Hl) as Hsame. destruct (Hdealt) as [F L O _].
    split; try done.
    + intros id Hn Hno. apply O; [done|]. by rewrite Hin.
    + apply (owner_dealt_resampled s s' s' root_actor pinned owner slots defs defs'); try done.
      intros id Hid. destruct (Hex id Hid) as (_ & o & Eo & _). by exists o.
    + intros id o Hun%Hin Eo Ho. apply (Hodd id o Hun Eo) in Ho. by rewrite (Hall id o Hun Eo) in Ho.
  - left. split; [by apply Hbad|]. destruct Hsome as (id & o & Hid & Eo & Hb).
    exists id, o. split; [by apply Hin|]. split; [done|]. by apply (Hodd id o Hid Eo).
Qed.

Lemma unknown_cards_disjoint s root_actor pinned id : hidden_ok s ->
  unknown_card s root_actor pinned P0 id -> ~ unknown_card s root_actor pinned P1 id.
Proof.
  intros H H0 H1.
  destruct (unknown_card_owner s root_actor pinned P0 id H ltac:(auto with kernel) H0) as (_ & o & Eo & Ho & _).
  destruct (unknown_card_owner s root_actor pinned P1 id H ltac:(auto with kernel) H1) as (_ & o' & Eo' & Ho' & _).
  rewrite Eo in Eo'. injection Eo' as <-. rewrite Ho in Ho'. by apply P0_ne_P1.
Qed.

(** The two passes concern different cards. *)
Lemma passes_compose s s1 s2 root_actor pinned : hidden_ok s -> valid_player root_actor ->
  passed s s1 root_actor pinned P0 -> passed s1 s2 root_actor pinned P1 ->
  s2 = with_objects s (objects s2) /\ Arena.len (objects s2) = Arena.len (objects s)
  /\ same_hidden s s2
  /\ (forall id, 0 <= object_num id ->
        (forall owner, valid_player owner -> ~ unknown_card s root_actor pinned owner id) ->
        get s2 id = get s id)
  /\ (forall owner, valid_player owner -> resampled s s2 root_actor pinned owner)
  /\ forall owner id o, valid_player owner -> unknown_card s root_actor pinned owner id ->
       get s id = Some o -> ~ odd_card o.
Proof.
  intros H Hr [F0 L0 S0 O0 R0 P0'] [F1 L1 S1 O1 R1 P1'].
  assert (valid_player P0) as V0 by auto with kernel. assert (valid_player P1) as V1 by auto with kernel.
  assert (forall owner id, valid_player owner ->
    unknown_card s1 root_actor pinned owner id <-> unknown_card s root_actor pinned owner id) as Hun
    by (intros owner id Hv; by apply unknown_card_same).
  assert (forall id, unknown_card s root_actor pinned P1 id -> get s1 id = get s id) as Hg1.
  { intros id Hid. apply O0; [by destruct (unknown_card_owner _ _ _ _ _ H V1 Hid)|].
    intros Hid0. by apply (unknown_cards_disjoint s root_actor pinned id). }
  assert (forall id, unknown_card s root_actor pinned P0 id -> get s2 id = get s1 id) as Hg2.
  { intros id Hid. apply O1; [by destruct (unknown_card_owner _ _ _ _ _ H V0 Hid)|].
    rewrite Hun by done. by apply (unknown_cards_disjoint s root_actor pinned id). }
  split; [rewrite F1, F0; done|]. split; [congruence|]. split; [by transitivity s1|]. split; [|split].
  - intros id Hn Hno. rewrite O1, O0; [done|done|by apply Hno|done|]. rewrite Hun by done. by apply Hno.
  - intros owner [->| ->].
    + destruct R0 as [(sl & d & d' & ? & A & ? & ? & ?) Rc]. split.
      * exists sl, d, d'. split_and!; try done. apply (identities_ext s1); [|done]. intros id Hid. by apply Hg2, A.
      * intros id o Hu Eo. rewrite Hg2 by done. by apply Rc.
    + destruct R1 as [(sl & d & d' & ? & A & ? & ? & ?) Rc]. split.
      * exists sl, d, d'. split_and!; try done; [intros id; by rewrite A, Hun|].
        apply (identities_ext s1); [|done]. intros id Hid. symmetry. by apply Hg1, Hun, A.
      * intros id o Hu Eo. apply (Rc id o); [by apply Hun|]. by rewrite Hg1.
  - intros owner id o [->| ->] Hu Eo; [by apply (P0' id)|]. apply (P1' id); [by apply Hun|]. by rewrite Hg1.
Qed.

Lemma not_bad_root root_actor : valid_player root_actor -> ~ (root_actor <> P0 /\ root_actor <> P1).
Proof. intros [->| ->]; intros [H1 H2]; [by apply H1|by apply H2]. Qed.

Lemma redeterminize_runs s root_actor seed pinned :
  hidden_ok s -> valid_player root_actor -> is_word seed -> in_table s ->
  (redeterminize_hidden_zones_pinned_v1 s root_actor seed pinned = Some (Err (Reject HiddenStateContract))
   /\ exists owner id o, valid_player owner /\ unknown_card s root_actor pinned owner id
        /\ get s id = Some o /\ odd_card o)
  \/ exists s1 s2, redeterminize_hidden_zones_pinned_v1 s root_actor seed pinned = Some (Ok s2)
     /\ passed s s1 root_actor pinned P0 /\ passed s1 s2 root_actor pinned P1.
Proof.
  intros H Hr Hseed Htab. unfold redeterminize_hidden_zones_pinned_v1.
  rewrite decide_False by by apply not_bad_root.
  assert (valid_player P0) as V0 by auto with kernel. assert (valid_player P1) as V1 by auto with kernel.
  destruct (owner_pass s root_actor P0 pinned (SplitMix64_seed seed) H Hr V0 Hseed)
    as [(-> & id & o & Hodd)|(rng0 & s1 & -> & Hw0 & Hp0)]; [by intros id o v _; apply Htab| |].
  { left. split; [done|]. by exists P0, id, o. }
  cbn [mbind option_bind]. destruct (Hp0) as [_ _ Hsame Hoth _ _].
  assert (forall id, unknown_card s1 root_actor pinned P1 id ->
    unknown_card s root_actor pinned P1 id /\ get s1 id = get s id) as Hg.
  { intros id Hid. rewrite (unknown_card_same s s1) in Hid by done. split; [done|].
    apply Hoth; [by destruct (unknown_card_owner _ _ _ _ _ H V1 Hid)|].
    intros Hid0. by apply (unknown_cards_disjoint s root_actor pinned id). }
  destruct (owner_pass s1 root_actor P1 pinned rng0 (same_hidden_ok _ _ Hsame H) Hr V1 Hw0)
    as [(-> & id & o & Hid & Eo & Hodd)|(rng1 & s2 & -> & _ & Hp1)].
  - intros id o v Hid Eo. destruct (Hg id Hid) as [_ E]. rewrite E in Eo. by apply (Htab id).
  - left. split; [done|]. destruct (Hg id Hid) as [Hid' E]. rewrite E in Eo. by exists P1, id, o.
  - right. by exists s1, s2.
Qed.

(** C15: the sampler answers in every state a game can reach: with the contract error
    when a card the searching player does not know is a copy or has attachments,
    and otherwise with a state in which, of each owner, the unknown cards hold a
    permutation of the identities they had, with the static part of the new
    identity and the same owner, controller, zone and incarnation, and nothing else
    has changed: not the known cards, the pinned cards or the player's own hand, and
    nothing the player can tell by the hidden zones. *)
Theorem redeterminization_resamples_unknowns s root_actor seed pinned :
  hidden_ok s -> valid_player root_actor -> is_word seed -> in_table s ->
  (redeterminize_hidden_zones_pinned_v1 s root_actor seed pinned = Some (Err (Reject HiddenStateContract))
   /\ exists owner id o, valid_player owner /\ unknown_card s root_actor pinned owner id
        /\ get s id = Some o /\ odd_card o)
  \/ ((forall owner id o, valid_player owner -> unknown_card s root_actor pinned owner id ->
         get s id = Some o -> ~ odd_card o)
   /\ exists s', redeterminize_hidden_zones_pinned_v1 s root_actor seed pinned = Some (Ok s')
      /\ s' = with_objects s (objects s') /\ hidden_ok s' /\ indistinguishable root_actor s s'
      /\ (forall id, 0 <= object_num id ->
            (forall owner, valid_player owner -> ~ unknown_card s root_actor pinned owner id) ->
            get s' id = get s id)
      /\ forall owner, valid_player owner ->
           (exists slots defs defs', NoDup slots
              /\ (forall id, id ∈ slots <-> unknown_card s root_actor pinned owner id)
              /\ identities s slots defs /\ identities s' slots defs' /\ defs' ≡ₚ defs)
           /\ forall id o, unknown_card s root_actor pinned owner id -> get s id = Some o ->
                exists d v, become_card d (v4 o) = Some v /\ get s' id = Some (with_definition d v o)).
Proof.
  intros H Hr Hseed Htab.
  destruct (redeterminize_runs s root_actor seed pinned H Hr Hseed Htab) as [Hbad|(s1 & s2 & E & Hp0 & Hp1)];
    [by left|right].
  destruct (passes_compose s s1 s2 root_actor pinned H Hr Hp0 Hp1) as (F & _ & Hsame & Hoth & Hres & Hplain).
  split; [done|]. exists s2. split; [done|]. split; [done|]. split; [by eapply same_hidden_ok|].
  split; [by rewrite F|]. split; [done|]. intros owner Hv. destruct (Hres owner Hv) as [Hm Hc].
  split; [done|]. intros id o Hu Eo. destruct (Hc id o Hu Eo) as (d & o' & E' & v & Ev & ->). by exists d, v.
Qed.
End Results.

(* ------------------------------------------------------------------ *)
(** ** In the game of LibraryFacts.v *)

#[export] Instance BareHidden : HiddenCards unit := {
  attachments _ := [];
  become_card _ v := Some v;
}.

(** The player to act chooses among the first two cards of the library of P0. *)
#[export] Instance BareSelection : PendingSelection PlayerId := {
  pending_select_targets p := Some (p, [TObject (MkObjectId 0)], [TObject (MkObjectId 1); TPlayer P1]);
}.

Lemma bare_game_hidden_ok : hidden_ok bare_game.
Proof. exact (proj1 (reachable_ok toy_sha256 bare_game bare_game_reachable)). Qed.

Lemma bare_game_in_table : in_table bare_game.
Proof. intros id o v _. by exists v. Qed.

Lemma bare_game_plain id o : get bare_game id = Some o -> ~ odd_card o.
Proof.
  intros Eo [Hc|Ha]; [|by apply Ha].
  assert (Forall (fun x => spell_copied x = false) (Arena.items (objects bare_game))) as Hall by (by repeat constructor).
  apply (Forall_lookup_1 _ _ _ _ Hall) in Eo. congruence.
Qed.

Lemma redeterminization_resamples_unknowns_witness :
  exists s', redeterminize_hidden_zones_pinned_v1 bare_game P1 5 [] = Some (Ok s')
  /\ indistinguishable P1 bare_game s'.
Proof.
  destruct (redeterminization_resamples_unknowns bare_game P1 5 [] bare_game_hidden_ok valid_P1
    ltac:(unfold is_word; lia) bare_game_in_table) as [(_ & owner & id & o & _ & _ & Eo & Hodd)|(_ & s' & E & _ & _ & Hi & _)].
  - exfalso. by apply (bare_game_plain id o).
  - exists s'. split; [exact E|exact Hi].
Defined.
