(* ===== verification/RedetermineForgets.v ===== *)
(** * Redetermination forgets where the hidden cards are

    The outcome of the sampler does not depend on how the unknown cards of an owner
    are placed; and what the census clone keeps and refuses. *)

From S2P Require Import Prelude Ids Bytes Randomness RandomnessFacts FastSamplerBits SearchMathFacts SearchTree CombatDamage Library LibraryRows LibraryFacts LibraryMoves LibraryReach LibraryKnowledge Redetermine RedetermineFacts.
Import PlayerIds.

Local Open Scope Z_scope.

(* ------------------------------------------------------------------ *)
(** ** The outcome does not depend on where the unknown cards are *)

Section Forgets.
Context {V4 Rest : Type} `{!HiddenCards V4}.
Implicit Types s t : GameState V4 Rest.

(** Two objects that differ in their identity only. *)
Record alike (o o' : GameObject V4) : Prop := MkAlike {
  alike_owner : owner o' = owner o;
  alike_controller : controller o' = controller o;
  alike_zone : zone o' = zone o;
  alike_generation : zone_change_count o' = zone_change_count o;
  alike_copied : spell_copied o' = spell_copied o;
  alike_attachments : attachments (v4 o') = attachments (v4 o);
  alike_become : forall d, become_card d (v4 o') = become_card d (v4 o);
}.

Lemma alike_refl o : alike o o.
Proof. by split. Qed.

Lemma alike_hidden o o' : alike o o' -> hidden_card o' = hidden_card o.
Proof. intros [_ _ Hz _ Hc Ha _]. unfold hidden_card. by rewrite Hz, Hc, Ha. Qed.

Lemma alike_dealt o o' d v : alike o o' -> with_definition d v o' = with_definition d v o.
Proof. intros []. unfold with_definition. congruence. Qed.

(** The states are equal, but the objects of [Q] may have other identities. *)
Record agree (Q : ObjectId -> Prop) s t : Prop := MkAgree {
  agree_frame : t = with_objects s (objects t);
  agree_len : Arena.len (objects t) = Arena.len (objects s);
  agree_off : forall x, 0 <= object_num x -> ~ Q x -> get t x = get s x;
  agree_on : forall x, 0 <= object_num x -> Q x -> forall o, get s x = Some o ->
    exists o', get t x = Some o' /\ alike o o';
}.

Lemma same_domain s t x : Arena.len (objects t) = Arena.len (objects s) -> get s x = None -> get t x = None.
Proof.
  intros Hl E. unfold get, Arena.try_get, Arena.len in *. apply lookup_ge_None in E.
  apply lookup_ge_None. lia.
Qed.

Lemma agree_get Q {dQ : forall x, base.Decision (Q x)} s t x : agree Q s t -> 0 <= object_num x ->
  match get s x, get t x with Some o, Some o' => alike o o' | None, None => True | _, _ => False end.
Proof.
  intros [_ Hl Hoff Hon] Hx. destruct (get s x) as [o|] eqn:Eo.
  - destruct (decide (Q x)) as [HQ|HQ].
    + destruct (Hon x Hx HQ o Eo) as (o' & -> & Ha). done.
    + rewrite Hoff, Eo by done. apply alike_refl.
  - by rewrite (same_domain s t x Hl Eo).
Qed.

Lemma agree_ident Q {dQ : forall x, base.Decision (Q x)} s t : agree Q s t -> forall id, ident t id = ident s id.
Proof.
  intros H id. unfold ident. rewrite (get_norm t id), (get_norm s id).
  pose proof (agree_get Q s t (MkObjectId (Z.of_nat (Arena.index id))) H ltac:(cbn; lia)) as Hg.
  destruct (get s _) as [o|], (get t _) as [o'|]; try done. destruct Hg. cbn. congruence.
Qed.

Lemma agree_nothing Q s t : agree Q s t -> (forall x, 0 <= object_num x -> ~ Q x) -> t = s.
Proof.
  intros [F Hl Hoff _] HQ. rewrite F.
  assert (objects t = objects s) as ->; [|by destruct s].
  unfold get, Arena.try_get in Hoff. destruct (objects t) as [items'], (objects s) as [items]. cbn in Hoff.
  f_equal. apply list_eq. intros i.
  specialize (Hoff (MkObjectId (Z.of_nat i)) ltac:(cbn; lia) (HQ (MkObjectId (Z.of_nat i)) ltac:(cbn; lia))).
  unfold Arena.index in Hoff. cbn in Hoff. by rewrite Nat2Z.id in Hoff.
Qed.

Lemma agree_slots Q {dQ : forall x, base.Decision (Q x)} s t root_actor owner pinned : agree Q s t ->
  unknown_slots t root_actor owner pinned = unknown_slots s root_actor owner pinned.
Proof.
  intros Ha. pose proof (agree_ident Q s t Ha) as Hi. destruct Ha as [F _ _ _].
  apply unknown_slots_ext; [done|..]; by rewrite F.
Qed.

(** What two runs that agree answer. *)
Definition agreeing (Q : ObjectId -> Prop) (r r' : result (Fault KernelNativeSearchErrorV1) (GameState V4 Rest)) : Prop :=
  match r, r' with
  | Ok s, Ok t => agree Q s t
  | Err e, Err e' => e = e'
  | _, _ => False
  end.

Lemma relabel_agree Q {dQ : forall x, base.Decision (Q x)} s t id d : agree Q s t -> 0 <= object_num id ->
  agreeing (fun x => Q x /\ x <> id) (relabel s (id, d)) (relabel t (id, d)).
Proof.
  intros H Hid. pose proof (agree_get Q s t id H Hid) as Hg. unfold relabel.
  destruct (get s id) as [o|] eqn:Eo, (get t id) as [o'|] eqn:Eo'; try done; cbn [ok_or result_bind].
  rewrite (alike_hidden o o' Hg). destruct (hidden_card o); [|done].
  rewrite (alike_become o o' Hg). destruct (become_card d (v4 o)) as [v|]; [|done]. cbn [ok_or result_bind agreeing].
  destruct H as [F Hl Hoff Hon]. split.
  - rewrite F. done.
  - unfold Arena.len in *. cbn. by rewrite !length_alter.
  - intros x Hx HQ. rewrite !get_with_objects by done. case_decide as Ex.
    + subst. rewrite Eo, Eo'. cbn. f_equal. by apply alike_dealt.
    + apply Hoff; [done|]. tauto.
  - intros x Hx [HQ Hne] y Ey. rewrite get_with_objects, decide_False in Ey by done.
    rewrite get_with_objects, decide_False by done. by apply Hon.
Qed.

Lemma deal_agree l : forall (Q : ObjectId -> Prop) {dQ : forall x, base.Decision (Q x)} s t,
  agree Q s t -> valid_ids (map fst l) ->
  agreeing (fun x => Q x /\ (x ∉ map fst l)) (try_fold relabel s l) (try_fold relabel t l).
Proof.
  induction l as [|[id d] l IH]; intros Q HQ s t H Hv; cbn [try_fold].
  - destruct H as [F Hl Hoff Hon]. split; [done|done| |].
    + intros x Hx Hn. apply Hoff; [done|]. intros Hq. apply Hn. split; [done|apply not_elem_of_nil].
    + intros x Hx [Hq _]. by apply Hon.
  - apply Forall_cons in Hv as [Hid Hv]. pose proof (relabel_agree Q s t id d H Hid) as Hone.
    destruct (relabel s (id, d)) as [s1|e], (relabel t (id, d)) as [t1|e']; cbn [agreeing result_bind] in *; try done.
    specialize (IH (fun x => Q x /\ x <> id) _ s1 t1 Hone Hv).
    destruct (try_fold relabel s1 l) as [s2|], (try_fold relabel t1 l) as [t2|]; cbn [agreeing] in *; try done.
    destruct IH as [F Hl Hoff Hon]. split; [done|done| |].
    + intros x Hx Hn. apply Hoff; [done|]. intros [[Hq Hne] Hnin]. apply Hn. split; [done|].
      cbn. by apply not_elem_of_cons.
    + intros x Hx [Hq [Hne Hnin]%not_elem_of_cons]. by apply Hon.
Qed.

Lemma deal_ident l : forall s s', try_fold relabel s l = Ok s' -> valid_ids (map fst l) ->
  forall id, ident s' id = ident s id.
Proof.
  induction l as [|[id d] l IH]; intros s s' E Hv x; cbn [try_fold] in E; [by apply Ok_inj in E as ->|].
  apply Forall_cons in Hv as [Hid Hv]. destruct (relabel s (id, d)) as [s1|] eqn:E1; cbn in E; [|done].
  rewrite (IH s1 s' E Hv). destruct (relabel_ok _ _ _ _ E1 Hid) as (o & v & Eo & _ & _ & _ & _ & Hg).
  unfold ident. rewrite (get_norm s1 x), (get_norm s x), Hg by (cbn; lia).
  case_decide as Ex; [|done]. by rewrite Ex, Eo.
Qed.

Lemma deal_same_hidden s s' slots defs : try_fold relabel s (zip slots defs) = Ok s' -> valid_ids slots ->
  length defs = length slots -> same_hidden s s'.
Proof.
  intros E Hv Hl. assert (map fst (zip slots defs) = slots) as Ez by (apply fst_zip; lia).
  pose proof (deal_ident _ _ _ E ltac:(by rewrite Ez)) as Hi.
  destruct (deal_frame _ _ _ _ E Hv) as (F & _). rewrite F. by split; try done; intros id; rewrite <- F.
Qed.

Lemma identities_map s ids defs : identities s ids defs ->
  defs = map (fun id => default 0 (card_def <$> get s id)) ids.
Proof.
  intros H. induction H as [|id d ids defs (o & Eo & Ed) H IH]; [done|]. cbn. rewrite Eo, <- IH. cbn. by rewrite Ed.
Qed.

Lemma identities_perm s ids ids' defs defs' : identities s ids defs -> identities s ids' defs' ->
  ids ≡ₚ ids' -> defs ≡ₚ defs'.
Proof. intros -> %identities_map -> %identities_map Hp. by apply Permutation_map. Qed.

(** The runs of one owner. *)
Definition agreeing_runs (Q : ObjectId -> Prop)
    (r r' : option (result (Fault KernelNativeSearchErrorV1) (SplitMix64 * GameState V4 Rest))) : Prop :=
  match r, r' with
  | Some (Ok (rng, s)), Some (Ok (rng', t)) => rng' = rng /\ is_word (sm_state rng) /\ agree Q s t
  | Some (Err e), Some (Err e') => e = e'
  | _, _ => False
  end.

Lemma owner_frame s root_actor owner pinned rng slots rng' s' :
  valid_ids slots -> unknown_slots s root_actor owner pinned = Some slots ->
  redeterminize_owner root_actor pinned owner rng s = Some (Ok (rng', s')) ->
  same_hidden s s' /\ forall x, 0 <= object_num x -> (x ∉ slots) -> get s' x = get s x.
Proof.
  intros Hv Es E. unfold redeterminize_owner in E. rewrite Es in E.
  destruct (mapM _ slots) as [d|] eqn:Ed; [|done]. apply identities_mapM in Ed. pose proof (Forall2_length _ _ _ Ed) as Hl.
  destruct (shuffle_definitions _ rng _) as [[rng1 d']|] eqn:Esh; [|done]. cbn [mbind option_bind] in E.
  apply shuffle_definitions_perm in Esh. rewrite merge_sort_Permutation in Esh.
  destruct (try_fold relabel s (zip slots d')) as [s1|] eqn:Edl; cbn in E; [|done]. injection E as _ <-.
  split; [apply (deal_same_hidden _ _ _ _ Edl Hv); rewrite Esh; lia|].
  by apply (deal_frame _ _ _ _ Edl Hv).
Qed.

Lemma owner_agree Q {dQ : forall x, base.Decision (Q x)} s t root_actor owner pinned rng slots d e :
  agree Q s t -> is_word (sm_state rng) -> valid_ids slots -> Z.of_nat (length slots) <= u32_max + 1 ->
  unknown_slots s root_actor owner pinned = Some slots -> identities s slots d -> identities t slots e ->
  e ≡ₚ d ->
  agreeing_runs (fun x => Q x /\ (x ∉ slots)) (redeterminize_owner root_actor pinned owner rng s)
    (redeterminize_owner root_actor pinned owner rng t).
Proof.
  intros Ha Hw Hv Hfit Es Hd He Hp. unfold redeterminize_owner.
  rewrite Es, (agree_slots Q s t root_actor owner pinned Ha), Es.
  rewrite (proj2 (identities_mapM s slots d) Hd), (proj2 (identities_mapM t slots e) He).
  rewrite (sorted_definitions_eq e d Hp), (Permutation_length Hp).
  pose proof (Forall2_length _ _ _ Hd) as Hl.
  destruct (shuffle_definitions_runs (pred (length d)) rng (merge_sort Z.le d) Hw) as (js & rng' & _ & Hw' & Esh).
  { unfold u32_max, u64_max in *. lia. }
  rewrite Esh. cbn [mbind option_bind]. set (d' := shuffle_with _ _ _).
  assert (length d' = length slots) as Hl' by (unfold d'; rewrite shuffle_with_perm, merge_sort_Permutation; lia).
  assert (map fst (zip slots d') = slots) as Ez by (apply fst_zip; lia).
  pose proof (deal_agree (zip slots d') Q s t Ha) as Hrun. rewrite Ez in Hrun. specialize (Hrun Hv).
  destruct (try_fold relabel s (zip slots d')) as [s1|], (try_fold relabel t (zip slots d')) as [t1|];
    cbn in Hrun |- *; try done.
Qed.

(** The state [t] is [s] with the identities of the unknown cards of each owner
    exchanged among them. *)
Record rearranged (root_actor : PlayerId) (pinned : list ObjectId) s t : Prop := MkRearranged {
  rearranged_frame : t = with_objects s (objects t);
  rearranged_len : Arena.len (objects t) = Arena.len (objects s);
  rearranged_off : forall id, 0 <= object_num id ->
    (forall owner, valid_player owner -> ~ unknown_card s root_actor pinned owner id) -> get t id = get s id;
  rearranged_on : forall owner id o, valid_player owner -> unknown_card s root_actor pinned owner id ->
    get s id = Some o -> exists o', get t id = Some o' /\ alike o o';
  rearranged_deck : forall owner, valid_player owner -> exists slots d e, NoDup slots
    /\ (forall id, id ∈ slots <-> unknown_card s root_actor pinned owner id)
    /\ identities s slots d /\ identities t slots e /\ e ≡ₚ d;
}.

Lemma rearranged_slots s t root_actor pinned owner slots : rearranged root_actor pinned s t ->
  hidden_ok s -> valid_player root_actor -> valid_player owner -> NoDup slots ->
  (forall id, id ∈ slots <-> unknown_card s root_actor pinned owner id) ->
  exists d e, identities s slots d /\ identities t slots e /\ e ≡ₚ d.
Proof.
  intros Hre H Hr Hv Hnd Hin. destruct (rearranged_deck _ _ _ _ Hre owner Hv) as (ids & d & e & Hnd' & Hin' & Hd & He & Hp).
  assert (ids ≡ₚ slots) as Hids by (apply NoDup_Permutation; [done|done|]; intros x; by rewrite Hin, Hin').
  assert (forall (u : GameState V4 Rest) defs, identities u ids defs -> exists defs', identities u slots defs' /\ defs' ≡ₚ defs) as Hmove.
  { intros u defs Hu. destruct (identities_exist u slots) as [defs' Hu'].
    - intros id Hid. rewrite <- Hids in Hid. apply list_elem_of_lookup in Hid as [k Ek].
      destruct (Forall2_lookup_l _ _ _ _ _ Hu Ek) as (c & _ & o & Eo & _). by exists o.
    - exists defs'. split; [done|]. by apply (identities_perm u slots ids). }
  destruct (Hmove s d Hd) as (d' & Hd' & Ed), (Hmove t e He) as (e' & He' & Ee).
  exists d', e'. split; [done|]. split; [done|]. by rewrite Ee, Ed.
Qed.

Lemma rearranged_agree s t root_actor pinned slots0 slots1 : rearranged root_actor pinned s t ->
  (forall id, id ∈ slots0 <-> unknown_card s root_actor pinned P0 id) ->
  (forall id, id ∈ slots1 <-> unknown_card s root_actor pinned P1 id) ->
  agree (fun id => id ∈ slots0 ++ slots1) s t.
Proof.
  intros [F Hl Hoff Hon _] H0 H1. split; [done|done| |].
  - intros x Hx Hn. apply Hoff; [done|]. intros owner Hv Hu. apply Hn, elem_of_app.
    destruct Hv as [->| ->]; [left; by apply H0|right; by apply H1].
  - intros x Hx Hq o Eo. apply elem_of_app in Hq as [Hq%H0|Hq%H1].
    + apply (Hon P0 x o); [auto with kernel|done|done].
    + apply (Hon P1 x o); [auto with kernel|done|done].
Qed.

(** What the sampler finds for one owner. *)
Record slots_of s (root_actor owner : PlayerId) (pinned slots : list ObjectId) : Prop := MkSlotsOf {
  slots_found : unknown_slots s root_actor owner pinned = Some slots;
  slots_distinct : NoDup slots;
  slots_spec : forall id, id ∈ slots <-> unknown_card s root_actor pinned owner id;
  slots_valid : valid_ids slots;
  slots_bounded : Z.of_nat (length slots) <= u32_max + 1;
}.

Lemma slots_exist s root_actor owner pinned : hidden_ok s -> valid_player root_actor -> valid_player owner ->
  exists slots, slots_of s root_actor owner pinned slots.
Proof.
  intros H Hr Hv. destruct (unknown_slots_runs s root_actor owner pinned H Hr Hv) as (slots & E & N & I & X).
  exists slots. split; [done|done|done| |].
  - apply Forall_forall. intros id Hid. destruct (X id Hid). lia.
  - apply slots_fit; [done|]. intros id Hid. by apply X.
Qed.

Lemma decide_unknown s root_actor pinned id : hidden_ok s -> valid_player root_actor ->
  (exists owner, valid_player owner /\ unknown_card s root_actor pinned owner id)
  \/ (forall owner, valid_player owner -> ~ unknown_card s root_actor pinned owner id).
Proof.
  intros H Hr. destruct (slots_exist s root_actor P0 pinned H Hr) as (slots0 & [_ _ I0 _ _]); [auto with kernel|].
  destruct (slots_exist s root_actor P1 pinned H Hr) as (slots1 & [_ _ I1 _ _]); [auto with kernel|].
  destruct (decide (id ∈ slots0)) as [H0|H0]; [left; exists P0; split; [auto with kernel|by apply I0]|].
  destruct (decide (id ∈ slots1)) as [H1|H1]; [left; exists P1; split; [auto with kernel|by apply I1]|].
  right. intros owner [->| ->] Hu; [by apply H0, I0|by apply H1, I1].
Qed.

(** The first pass leaves the second its slots and their identities. *)
Lemma second_slots s s1 root_actor pinned slots0 slots1 d1 :
  hidden_ok s -> valid_player root_actor -> same_hidden s s1 ->
  (forall id, 0 <= object_num id -> (id ∉ slots0) -> get s1 id = get s id) ->
  slots_of s root_actor P0 pinned slots0 -> slots_of s root_actor P1 pinned slots1 -> identities s slots1 d1 ->
  unknown_slots s1 root_actor P1 pinned = Some slots1 /\ identities s1 slots1 d1.
Proof.
  intros H Hr [Hl Hh Hlk Hhk Hi] Hoth [_ _ I0 _ _] [E1 _ I1 L1 _] Hd. split.
  - rewrite <- E1. apply unknown_slots_ext; [exact Hi|..]; auto with kernel.
  - apply (identities_ext s); [|done]. intros id Hid. apply Hoth; [exact (proj1 (Forall_forall _ _) L1 id Hid)|].
    intros Hid0%I0. by apply (unknown_cards_disjoint s root_actor pinned id H Hid0), I1.
Qed.

(** C14: redetermination forgets where the unknown cards are: two states that differ
    in the identities of the cards the searching player does not know, each owner
    having the same ones in another order, are redetermined to the same state (or
    the same error) for every seed. So a search that starts from a redetermination
    learns nothing of the hidden cards but their number and their multiset. *)
Theorem redeterminization_forgets_the_truth s t root_actor seed pinned :
  hidden_ok s -> valid_player root_actor -> is_word seed -> rearranged root_actor pinned s t ->
  redeterminize_hidden_zones_pinned_v1 t root_actor seed pinned
  = redeterminize_hidden_zones_pinned_v1 s root_actor seed pinned.
Proof.
  intros H Hr Hseed Hre. unfold redeterminize_hidden_zones_pinned_v1. rewrite !decide_False by by apply not_bad_root.
  destruct (slots_exist s root_actor P0 pinned H Hr) as (slots0 & S0); [auto with kernel|].
  destruct (slots_exist s root_actor P1 pinned H Hr) as (slots1 & S1); [auto with kernel|].
  destruct (S0) as [E0 N0 I0 L0 B0], (S1) as [E1 N1 I1 L1 B1].
  destruct (rearranged_slots s t _ _ P0 slots0 Hre H Hr) as (d0 & e0 & Hd0 & He0 & Hp0); [auto with kernel|done|done|].
  destruct (rearranged_slots s t _ _ P1 slots1 Hre H Hr) as (d1 & e1 & Hd1 & He1 & Hp1); [auto with kernel|done|done|].
  pose proof (rearranged_agree s t _ _ _ _ Hre I0 I1) as Ha.
  pose proof (agree_slots _ s t root_actor P0 pinned Ha) as Et0.
  pose proof (owner_agree _ s t root_actor P0 pinned (SplitMix64_seed seed) slots0 d0 e0 Ha Hseed L0 B0 E0 Hd0 He0 Hp0) as Hrun.
  destruct (redeterminize_owner root_actor pinned P0 _ s) as [[[rng1 s1]|b]|] eqn:Rs,
    (redeterminize_owner root_actor pinned P0 _ t) as [[[rng2 t1]|b']|] eqn:Rt; cbn [agreeing_runs] in Hrun; try done.
  2: { by subst b'. }
  destruct Hrun as (-> & Hw1 & Ha1). cbn [mbind option_bind].
  destruct (owner_frame s _ _ _ _ slots0 _ _ L0 E0 Rs) as [Ss Os].
  destruct (owner_frame t _ _ _ _ slots0 _ _ L0 (eq_trans Et0 E0) Rt) as [_ Ot].
  destruct (second_slots s s1 root_actor pinned slots0 slots1 d1 H Hr Ss Os S0 S1 Hd1) as [E1' Hd1'].
  assert (identities t1 slots1 e1) as He1'.
  { apply (identities_ext t); [|done]. intros id Hid. apply Ot; [exact (proj1 (Forall_forall _ _) L1 id Hid)|].
    intros Hid0%I0. by apply (unknown_cards_disjoint s root_actor pinned id H Hid0), I1. }
  pose proof (owner_agree _ s1 t1 root_actor P1 pinned rng1 slots1 d1 e1 Ha1 Hw1 L1 B1 E1' Hd1' He1' Hp1) as Hrun2.
  destruct (redeterminize_owner root_actor pinned P1 rng1 s1) as [[[rng3 s2]|b]|],
    (redeterminize_owner root_actor pinned P1 rng1 t1) as [[[rng4 t2]|b']|]; cbn [agreeing_runs] in Hrun2; try done.
  2: { by subst b'. }
  destruct Hrun2 as (-> & _ & Ha2). cbn [mbind option_bind result_bind snd]. do 2 f_equal.
  apply (agree_nothing _ _ _ Ha2). intros x Hx [[Hq H0] H1]. apply elem_of_app in Hq as [?|?]; tauto.
Qed.
End Forgets.

(* ------------------------------------------------------------------ *)
(** ** The census clone *)

Section Census.
Context {V4 Rest : Type} `{!HiddenCards V4} `{!PendingSelection Rest}.
Implicit Types s t : GameState V4 Rest.

Lemma elem_of_dedup (ids : list ObjectId) (id : ObjectId) : id ∈ dedup ids <-> id ∈ ids.
Proof.
  induction ids as [|a ids IH]; [done|]. destruct ids as [|b ids]; [done|].
  change (dedup (a :: b :: ids)) with (if decide (a = b) then dedup (b :: ids) else a :: dedup (b :: ids)).
  case_decide as E.
  - subst. rewrite IH, !elem_of_cons. tauto.
  - by rewrite elem_of_cons, IH, (elem_of_cons (b :: ids)).
Qed.

(** What the actor's own pending selection offers or holds is pinned where it is
    hidden. *)
Lemma selection_is_pinned s actor selected legal id :
  pending_select_targets (rest s) = Some (actor, selected, legal) ->
  TObject id ∈ selected ++ legal ->
  id ∈ pending_selection_hidden_objects_v1 s actor <-> in_hidden_zone s id = true.
Proof.
  intros Ep Hid. unfold pending_selection_hidden_objects_v1. rewrite Ep, decide_False by (by intros []).
  rewrite elem_of_dedup, merge_sort_Permutation, list_elem_of_filter. split.
  - intros [Hz _]. by apply Is_true_true.
  - intros Hz. split; [by apply Is_true_true|]. apply list_elem_of_omap. by exists (TObject id).
Qed.

Lemma changed_cards_spec before : forall s, (forall id o, (id, o) ∈ before -> is_Some (get s id)) ->
  exists changed, changed_cards before s = Some changed
  /\ forall id, id ∈ changed <-> exists o o', (id, o) ∈ before
       /\ (zone o = Zone.Hand \/ zone o = Zone.Library) /\ get s id = Some o' /\ card_def o <> card_def o'.
Proof.
  induction before as [|[id o] before IH]; intros s Hex; cbn [changed_cards].
  { exists []. split; [done|]. intros id. split; [by intros ?%elem_of_nil|by intros (? & ? & ?%elem_of_nil & _)]. }
  destruct (Hex id o) as [o' Eo]; [by left|]. rewrite Eo. cbn [mbind option_bind].
  destruct (IH s) as (changed & -> & Hin); [intros x y Hx; apply (Hex x y); by right|]. cbn [mbind option_bind].
  eexists. split; [done|]. intros x.
  assert (bool_decide (zone o = Zone.Hand \/ zone o = Zone.Library) && negb (card_def o =? card_def o') = true
    <-> (zone o = Zone.Hand \/ zone o = Zone.Library) /\ card_def o <> card_def o') as Hb.
  { by rewrite andb_true_iff, bool_decide_eq_true, negb_true_iff, Z.eqb_neq. }
  destruct (_ && _); [rewrite elem_of_cons|]; rewrite Hin; split.
  - intros [->|(y & y' & Hy & H)]; [|exists y, y'; split; [by right|done]].
    destruct (proj1 Hb eq_refl) as [H1 H2]. exists o, o'. split; [by left|done].
  - intros (y & y' & [[= -> ->]|Hy]%elem_of_cons & H); [by left|]. right. by exists y, y'.
  - intros (y & y' & Hy & H). exists y, y'. split; [by right|done].
  - intros (y & y' & [[= -> ->]|Hy]%elem_of_cons & H1 & H2 & H3); [|by exists y, y'].
    rewrite Eo in H2. injection H2 as <-. destruct Hb as [_ Hb]. by discriminate Hb.
Qed.

Lemma iter_spec s id o : (id, o) ∈ Arena.iter (objects s) <-> 0 <= object_num id /\ get s id = Some o.
Proof.
  unfold Arena.iter, get, Arena.try_get, Arena.index. split.
  - intros [i Ei]%list_elem_of_lookup. rewrite list_lookup_imap in Ei.
    destruct (Arena.items (objects s) !! i) as [y|] eqn:Ey; [|done]. injection Ei as <- <-. cbn. rewrite Nat2Z.id.
    split; [lia|done].
  - intros [Hn Eo]. apply list_elem_of_lookup. exists (Z.to_nat (object_num id)). rewrite list_lookup_imap, Eo. cbn.
    rewrite Z2Nat.id by done. by destruct id.
Qed.

(** The census clone is a redetermination for the actor of the decision in which
    the cards that the actor's own pending selection offers or holds keep their
    identities; it is refused exactly for what the sampler refuses and for the
    provenance of the hidden cards that became others, and those are what the check
    is asked about. *)
Theorem census_clone_keeps_the_selection conflicts s actor seed :
  hidden_ok s -> valid_player actor -> is_word seed -> in_table s ->
  let pinned := pending_selection_hidden_objects_v1 s actor in
  (redeterminize_hidden_zones_pinned_v1 s actor seed pinned = Some (Err (Reject HiddenStateContract))
   /\ census_redeterminized_clone_v1 conflicts s actor seed = Some (Err (Reject (Sampler HiddenStateContract)))
   /\ exists owner id o, (valid_player owner /\ unknown_card s actor pinned owner id) /\ get s id = Some o /\ odd_card o)
  \/ exists s' changed, redeterminize_hidden_zones_pinned_v1 s actor seed pinned = Some (Ok s')
     /\ census_redeterminized_clone_v1 conflicts s actor seed
        = Some (if conflicts s changed then Err (Reject HiddenSourceProvenanceConflict) else Ok s')
     /\ (forall id, 0 <= object_num id -> id ∈ changed <-> exists o o', get s id = Some o
           /\ (zone o = Zone.Hand \/ zone o = Zone.Library) /\ get s' id = Some o' /\ card_def o <> card_def o')
     /\ (forall id, id ∈ changed -> exists owner, valid_player owner /\ unknown_card s actor pinned owner id)
     /\ forall selected legal id, pending_select_targets (rest s) = Some (actor, selected, legal) ->
          TObject id ∈ selected ++ legal -> 0 <= object_num id -> get s' id = get s id.
Proof.
  intros H Hr Hseed Htab pinned. unfold census_redeterminized_clone_v1. fold pinned.
  destruct (redeterminize_runs s actor seed pinned H Hr Hseed Htab) as [(-> & owner & id & o & Hv & Hu & Ho)|(s1 & s' & E & Hp0 & Hp1)].
  { left. split; [done|]. split; [done|]. exists owner, id, o. by split. }
  right. destruct (passes_compose s s1 s' actor pinned H Hr Hp0 Hp1) as (_ & Hl & _ & Hoth & _ & _).
  destruct (changed_cards_spec (Arena.iter (objects s)) s') as (changed & Ec & Hin).
  { intros id o [Hn Eo]%iter_spec. destruct (get s' id) as [o'|] eqn:Eo'; [by eexists|].
    by rewrite (same_domain s' s id (eq_sym Hl) Eo') in Eo. }
  assert (forall id, id ∈ changed -> exists owner, valid_player owner /\ unknown_card s actor pinned owner id) as Hunk.
  { intros id (o & o' & [Hn Eo]%iter_spec & _ & Eo' & Hne)%Hin.
    destruct (decide_unknown s actor pinned id H Hr) as [?|Hno]; [done|].
    rewrite Hoth, Eo in Eo' by done. congruence. }
  exists s', changed. split; [done|]. rewrite E. cbn [mbind option_bind]. rewrite Ec.
  split; [done|]. split; [|split; [done|]].
  - intros id Hn. rewrite Hin. split; intros (o & o' & H1 & H2); exists o, o'; (split; [|done]); by apply iter_spec.
  - intros selected legal id Ep Hid Hn. apply Hoth; [done|]. intros owner Hv Hu. destruct (Hu) as [Hnp _].
    apply Hnp, (selection_is_pinned s actor selected legal); [done|done|].
    destruct (unknown_card_owner s actor pinned owner id H Hv Hu) as (_ & o & Eo & _ & Hz).
    unfold in_hidden_zone. rewrite Eo. by apply bool_decide_eq_true_2.
Qed.
End Census.

(* ------------------------------------------------------------------ *)
(** ** In the game of LibraryFacts.v *)

(** [bare_game] with the first two cards of the library of P0 exchanged. *)
Definition exchanged_game : GameState unit PlayerId :=
  with_objects bare_game
    (Arena.update (Arena.update (objects bare_game) (MkObjectId 0) (with_definition 11 tt))
       (MkObjectId 1) (with_definition 10 tt)).

Lemma alike_unit (o : GameObject unit) d : alike o (with_definition d tt o).
Proof. by destruct o as [? ? ? ? ? ? []]. Qed.

Lemma bare_game_unknown id : 0 <= object_num id < 3 -> unknown_card bare_game P1 [] P0 id.
Proof.
  intros Hid. split; [apply not_elem_of_nil|]. right. exists (Z.to_nat (object_num id)). split.
  - assert (object_num id = 0 \/ object_num id = 1 \/ object_num id = 2) as Hc by lia.
    destruct id as [n]. cbn in Hc. by destruct Hc as [->|[->| ->]].
  - by intros (e & ?%elem_of_nil & _).
Qed.

Lemma exchanged_get id : 0 <= object_num id ->
  get exchanged_game id = if decide (id = MkObjectId 1) then with_definition 10 tt <$> get bare_game id
    else if decide (id = MkObjectId 0) then with_definition 11 tt <$> get bare_game id
    else get bare_game id.
Proof.
  intros Hn. unfold exchanged_game.
  pose proof (get_with_objects (with_objects bare_game (Arena.update (objects bare_game) (MkObjectId 0) (with_definition 11 tt)))
    (MkObjectId 1) id (with_definition 10 tt) ltac:(cbn; lia) Hn) as E.
  cbn [objects with_objects] in E. change (with_objects (with_objects bare_game ?a) ?b) with (with_objects bare_game b) in E.
  rewrite E, !get_with_objects by (cbn; lia). case_decide as E1; [|done].
  subst. by rewrite decide_False.
Qed.

Lemma exchanged_game_rearranged : rearranged P1 [] bare_game exchanged_game.
Proof.
  split; [done|done| | |].
  - intros id Hn Hno. rewrite exchanged_get by done.
    rewrite !decide_False; [done|intros ->|intros ->];
      by apply (Hno P0 valid_P0), bare_game_unknown.
  - intros owner id o Hv Hu Eo. destruct (unknown_card_owner _ _ _ _ _ bare_game_hidden_ok Hv Hu) as (Hn & _).
    rewrite exchanged_get, Eo by done. cbn [fmap option_fmap option_map].
    repeat case_decide; eexists; (split; [done|]); [apply alike_unit..|apply alike_refl].
  - intros owner Hv. destruct (slots_exist bare_game P1 owner [] bare_game_hidden_ok valid_P1 Hv) as (slots & [E N I _ _]).
    assert (slots = library_of bare_game owner) as -> by (destruct Hv as [->| ->]; cbv in E; by injection E as <-).
    destruct Hv as [->| ->].
    + exists (library_of bare_game P0), [10; 11; 12], [11; 10; 12]. split; [done|]. split; [done|].
      split; [repeat constructor; by eexists|]. split; [repeat constructor; by eexists|]. apply Permutation_swap.
    + exists (library_of bare_game P1), [20; 21], [20; 21]. split; [done|]. split; [done|].
      split; [repeat constructor; by eexists|]. split; [repeat constructor; by eexists|]. done.
Qed.

Lemma redeterminization_forgets_the_truth_witness :
  rearranged P1 [] bare_game exchanged_game
  /\ (card_def <$> get exchanged_game (MkObjectId 0)) <> (card_def <$> get bare_game (MkObjectId 0))
  /\ redeterminize_hidden_zones_pinned_v1 exchanged_game P1 5 []
     = redeterminize_hidden_zones_pinned_v1 bare_game P1 5 [].
Proof.
  split; [exact exchanged_game_rearranged|]. split; [by vm_compute|].
  apply (redeterminization_forgets_the_truth bare_game exchanged_game P1 5 []).
  - exact bare_game_hidden_ok.
  - exact valid_P1.
  - unfold is_word. lia.
  - exact exchanged_game_rearranged.
Defined.

Lemma census_clone_keeps_the_selection_witness :
  exists s' (changed : list ObjectId), census_redeterminized_clone_v1 (fun _ _ => false) bare_game P0 5 = Some (Ok s')
  /\ get s' (MkObjectId 1) = get bare_game (MkObjectId 1)
  /\ (MkObjectId 1 ∉ changed).
Proof.
  destruct (census_clone_keeps_the_selection (fun _ _ => false) bare_game P0 5 bare_game_hidden_ok valid_P0
    ltac:(unfold is_word; lia) bare_game_in_table) as [(_ & _ & owner & id & o & _ & Eo & Hodd)|(s' & changed & _ & E & Hch & _ & Hsel)].
  - exfalso. by apply (bare_game_plain id o).
  - exists s', changed. split; [exact E|].
    assert (get s' (MkObjectId 1) = get bare_game (MkObjectId 1)) as Eg.
    { apply (Hsel [TObject (MkObjectId 0)] [TObject (MkObjectId 1); TPlayer P1]); [done| |cbn; lia].
      right. by left. }
    split; [exact Eg|]. intros (o & o' & Eo & _ & Eo' & Hne)%Hch; [|cbn; lia].
    rewrite Eg, Eo in Eo'. apply Hne. f_equal. exact (inj Some _ _ Eo').
Defined.
