(* ===== verification/LegendRule.v ===== *)
(** * The legend rule (src/mtg-kernel/src/legend_rule_v1.rs)

    One simultaneous pass of state-based actions with choices in it: the permanents
    of a player with one name are a group, the player keeps one of each, and the
    others leave together with everything else the pass found. The state-based facts
    of an object are the fields of [PermanentView]; what the engine does with the
    departures is the class [LegendEngine]. *)

From stdpp Require Import sorting.
From S2P Require Import Prelude Ids Bytes CombatDamage.
Import PlayerIds.

(** What the pass reads of an object of the arena. *)
Record PermanentView := MkPermanent {
  zone_is_battlefield : bool;
  permanent_controller : PlayerId;
  generation : Z;
  legendary : bool;  (* and not exempt *)
  permanent_name : bytes;
  definition_is_token : bool;
  phased_out : bool;
  is_creature : bool;
  toughness : Z;
  damage : Z;
  deathtouch_damage : bool;
  indestructible : bool;
  is_attachment : bool;
  attached_to : option ObjectLinkV4;
  attached_here : list ObjectId;
  face_index : Z;
  lore_counters : Z;
  saga_chapters : option nat;
  zero_loyalty : bool;
}.

Record LegendGroupV1 := MkLegendGroup {
  group_controller : PlayerId;
  group_name : bytes;
  group_objects : list ObjectLinkV4;
}.
#[export] Instance LegendGroup_eq_dec : EqDecision LegendGroupV1.
Proof. solve_decision. Defined.

Record PreparedPassV1 := MkPreparedPass {
  groups_of : list LegendGroupV1;
  graveyard_of : list ObjectLinkV4;
  losses_of : list PlayerId;
  ceasing_of : list ObjectLinkV4;
}.
#[export] Instance PreparedPass_eq_dec : EqDecision PreparedPassV1.
Proof. solve_decision. Defined.

Record PendingLegendRuleV1 (Trigger : Type) := MkPendingLegend {
  pass : PreparedPassV1;
  kept : list ObjectLinkV4;
  waiting_triggers : list Trigger;
}.
Arguments MkPendingLegend {_} _ _ _.
Arguments pass {_} _.
Arguments kept {_} _.
Arguments waiting_triggers {_} _.

Record LegendGame (State Trigger : Type) := MkLegendGame {
  rules : State;
  pending_legend_rule_v1 : option (PendingLegendRuleV1 Trigger);
}.
Arguments MkLegendGame {_ _} _ _.
Arguments rules {_ _} _.
Arguments pending_legend_rule_v1 {_ _} _.

Inductive LegendError :=
  | ContinuationMismatch | NoLegendChoice | AllChoicesAnswered | NotInLegendGroup.

(** [Decision::ChooseLegendPermanent] *)
Record ChooseLegendPermanent := MkChooseLegend {
  legend_player : PlayerId;
  legend_candidates : list ObjectId;
}.

Class LegendEngine (State Trigger : Type) := {
  has_legendary_definitions : bool;
  turn_player : State -> PlayerId;
  permanents : State -> Arena.t PermanentView;
  (** [host_matches] of the attachment of the first object. *)
  host_matches : State -> ObjectId -> ObjectId -> bool;
  saga_final_chapter_is_pending : State -> ObjectId -> Z -> list Trigger -> bool;
  player_has_lost : State -> PlayerId -> bool;
  cannot_lose : State -> PlayerId -> bool;
  life : State -> PlayerId -> Z;
  drew_from_empty : State -> PlayerId -> bool;
  before_protected_departures : LegendGame State Trigger -> list ObjectId -> list Trigger -> LegendGame State Trigger;
  put_into_graveyards : LegendGame State Trigger -> list ObjectId -> LegendGame State Trigger;
  set_has_lost : LegendGame State Trigger -> PlayerId -> LegendGame State Trigger;
  cease_to_exist : LegendGame State Trigger -> ObjectId -> LegendGame State Trigger;
  collect_and_process_with_waiting : LegendGame State Trigger -> list Trigger -> LegendGame State Trigger * list Trigger;
  extend_pending_triggers : LegendGame State Trigger -> list Trigger -> LegendGame State Trigger;
}.

(** [BTreeMap::entry(name).or_default().push(..)] *)
Fixpoint push_name (name : bytes) (l : ObjectLinkV4) (m : list (bytes * list ObjectLinkV4)) : list (bytes * list ObjectLinkV4) :=
  match m with
  | [] => [(name, [l])]
  | (n, links) :: m' =>
      if decide (n = name) then (n, links ++ [l]) :: m'
      else if bytes_lt name n then (name, [l]) :: m
      else (n, links) :: push_name name l m'
  end.

(** [creature_dies_to_state_based_actions] of trigger.rs *)
Definition creature_dies_to_state_based_actions (toughness marked_damage : Z) (deathtouch_damage indestructible : bool) : bool :=
  ((toughness <=? 0) || (((toughness <=? marked_damage) || ((0 <? marked_damage) && deathtouch_damage)) && negb indestructible))%Z.

(** [dedup] of a vector. *)
Fixpoint dedup_links (l : list ObjectLinkV4) : list ObjectLinkV4 :=
  match l with
  | a :: (b :: _) as rest => if decide (a = b) then dedup_links rest else a :: dedup_links rest
  | _ => l
  end.

(** The order of [sort_by_key]. *)
Definition by_object (a b : ObjectLinkV4) : Prop := (object_num (object a) <= object_num (object b))%Z.
#[export] Instance by_object_dec a b : base.Decision (by_object a b) := Z_le_dec _ _.

Section LegendRule.
Context {State Trigger : Type} `{!LegendEngine State Trigger}.
Implicit Types s : State.
Implicit Types g : LegendGame State Trigger.

Definition link_of (e : ObjectId * PermanentView) : ObjectLinkV4 := MkLink e.1 (generation e.2).

Definition is_legend (controller : PlayerId) (v : PermanentView) : bool :=
  zone_is_battlefield v && bool_decide (permanent_controller v = controller) && legendary v.

Definition names_of s (controller : PlayerId) : list (bytes * list ObjectLinkV4) :=
  foldl (fun names e => if is_legend controller e.2 then push_name (permanent_name e.2) (link_of e) names else names)
    [] (Arena.iter (permanents s)).

Definition groups_for s (controller : PlayerId) : list LegendGroupV1 :=
  map (fun '(name, objects) => MkLegendGroup controller name objects)
    (filter (fun e => 1 < length e.2)%nat (names_of s controller)).

Definition groups s : list LegendGroupV1 :=
  if has_legendary_definitions then
    concat (map (groups_for s) [turn_player s; opponent (turn_player s)])
  else [].

Definition lethal (v : PermanentView) : bool :=
  is_creature v
  && creature_dies_to_state_based_actions (toughness v) (damage v) (deathtouch_damage v) (indestructible v).

Definition attached_properly s (id : ObjectId) (host_link : ObjectLinkV4) : bool :=
  match Arena.try_get (permanents s) (object host_link) with
  | Some host =>
      zone_is_battlefield host && bool_decide (generation host = zone_change_count host_link)
      && host_matches s id (object host_link) && bool_decide (id ∈ attached_here host)
  | None => false
  end.

Definition invalid_aura s (id : ObjectId) (v : PermanentView) : bool :=
  is_attachment v && negb (match attached_to v with Some host_link => attached_properly s id host_link | None => false end).

(** [chapters as i16] *)
Definition wrap_i16 (z : Z) : Z := ((z + 2 ^ 15) mod 2 ^ 16 - 2 ^ 15)%Z.

Definition completed_saga s (id : ObjectId) (v : PermanentView) (waiting : list Trigger) : bool :=
  bool_decide (face_index v = 0%Z)
  && match saga_chapters v with
     | Some chapters =>
         (wrap_i16 (Z.of_nat chapters) <=? lore_counters v)%Z && bool_decide (chapters <> 0%nat)
         && negb (saga_final_chapter_is_pending s id (generation v) waiting)
     | None => false
     end.

Definition departs s (waiting : list Trigger) (e : ObjectId * PermanentView) : bool :=
  zone_is_battlefield e.2
  && (lethal e.2 || invalid_aura s e.1 e.2 || completed_saga s e.1 e.2 waiting || zero_loyalty e.2).

Definition ceases (e : ObjectId * PermanentView) : bool :=
  negb (zone_is_battlefield e.2) && definition_is_token e.2 && negb (phased_out e.2).

Definition loses s (p : PlayerId) : bool :=
  negb (player_has_lost s p) && negb (cannot_lose s p) && ((life s p <=? 0)%Z || drew_from_empty s p).

Definition prepare s (waiting : list Trigger) : PreparedPassV1 :=
  MkPreparedPass (groups s)
    (map link_of (filter (fun e => departs s waiting e = true) (Arena.iter (permanents s))))
    (filter (fun p => loses s p = true) [P0; P1])
    (map link_of (filter (fun e => ceases e = true) (Arena.iter (permanents s)))).

Definition stage g (waiting : list Trigger) : LegendGame State Trigger * bool :=
  match pending_legend_rule_v1 g with
  | Some _ => (g, true)
  | None =>
      if decide (groups (rules g) = []) then (g, false) else
      (MkLegendGame (rules g) (Some (MkPendingLegend (prepare (rules g) waiting) [] waiting)), true)
  end.

Definition pending_holds s (pending : PendingLegendRuleV1 Trigger) : bool :=
  negb (bool_decide (groups_of (pass pending) = []))
  && bool_decide (pass pending = prepare s (waiting_triggers pending))
  && bool_decide (length (kept pending) <= length (groups_of (pass pending)))%nat
  && forallb (fun '(k, group) => bool_decide (k ∈ group_objects group)) (zip (kept pending) (groups_of (pass pending))).

Definition answer g (keep : ObjectId) : LegendGame State Trigger * result LegendError unit :=
  match pending_legend_rule_v1 g with
  | None => (g, Err NoLegendChoice)
  | Some pending =>
      if negb (pending_holds (rules g) pending) then (g, Err ContinuationMismatch) else
      match groups_of (pass pending) !! length (kept pending) with
      | None => (g, Err AllChoicesAnswered)
      | Some group =>
          match List.find (fun candidate => bool_decide (object candidate = keep)) (group_objects group) with
          | None => (g, Err NotInLegendGroup)
          | Some k =>
              (MkLegendGame (rules g)
                 (Some (MkPendingLegend (pass pending) (kept pending ++ [k]) (waiting_triggers pending))), Ok tt)
          end
      end
  end.

(** The graveyard list of the pass, with the legends that are not kept. *)
Definition departures (prepared : PreparedPassV1) (kept : list ObjectLinkV4) : list ObjectLinkV4 :=
  dedup_links (merge_sort by_object
    (graveyard_of prepared
     ++ concat (zip_with (fun group k => filter (fun o => o <> k) (group_objects group)) (groups_of prepared) kept))).

(** From the departures on; the pending pass has been taken. *)
Definition commit_pass g (prepared : PreparedPassV1) (leaving : list ObjectLinkV4) (waiting : list Trigger)
  : LegendGame State Trigger :=
  let g := before_protected_departures g (map object leaving) waiting in
  let g := put_into_graveyards g (map object leaving) in
  let g := foldl set_has_lost g (losses_of prepared) in
  let g := foldl (fun g binding => cease_to_exist g (object binding)) g (ceasing_of prepared) in
  let (g, triggers) := collect_and_process_with_waiting g waiting in
  extend_pending_triggers g triggers.

Definition drain_or_decide g : LegendGame State Trigger * result LegendError (option ChooseLegendPermanent) :=
  match pending_legend_rule_v1 g with
  | None => (g, Ok None)
  | Some pending =>
      if negb (pending_holds (rules g) pending) then (g, Err ContinuationMismatch) else
      match groups_of (pass pending) !! length (kept pending) with
      | Some group => (g, Ok (Some (MkChooseLegend (group_controller group) (map object (group_objects group)))))
      | None =>
          (commit_pass (MkLegendGame (rules g) None) (pass pending) (departures (pass pending) (kept pending))
             (waiting_triggers pending), Ok None)
      end
  end.
End LegendRule.
