(* ===== verification/LegendFacts.v ===== *)
(** * What a legend pass does

    The groups are exactly the legends that share a controller and a name; the
    choices are asked group by group and only members of the group are accepted; and
    the departures of a completed pass leave at most one legend of each name. *)

From stdpp Require Import sorting.
From S2P Require Import Prelude Ids Bytes CombatDamage LegendRule.
Import PlayerIds.

(** ** The map of names *)

Abbreviation names := (list (bytes * list ObjectLinkV4)).

Definition name_before (a b : bytes * list ObjectLinkV4) : Prop := bytes_lt a.1 b.1 = true.

Lemma push_name_in name l m n links :
  StronglySorted name_before m ->
  (n, links) ∈ push_name name l m <->
  ((n, links) ∈ m /\ n <> name)
  \/ (n = name /\ ((exists old, (name, old) ∈ m /\ links = old ++ [l])
                  \/ ((forall old, (name, old) ∉ m) /\ links = [l]))).
Proof.
  induction m as [|[n0 links0] m IH]; intros Hs; cbn [push_name].
  - rewrite elem_of_cons. split.
    + intros [[= -> ->]|?%elem_of_nil]; [|done]. right. split; [done|]. right. split; [|done]. by intros old ?%elem_of_nil.
    + intros [[?%elem_of_nil _]|[-> [(old & ?%elem_of_nil & _)|[_ ->]]]]; [done|done|by left].
  - apply StronglySorted_inv in Hs as [Hs Hall]. rewrite list.Forall_forall in Hall.
    destruct (decide (n0 = name)) as [->|Hne].
    { assert (forall old, (name, old) ∉ m) as Hnone.
      { intros old Hin. specialize (Hall _ Hin). unfold name_before in Hall. cbn in Hall. by rewrite bytes_lt_irrefl in Hall. }
      rewrite !elem_of_cons. split.
      - intros [[= -> ->]|Hin].
        + right. split; [done|]. left. exists links0. rewrite elem_of_cons. auto.
        + left. split; [by right|]. intros ->. by eapply Hnone.
      - intros [[[[= -> ->]|Hin] Hn]|[-> [(old & [[= ->]|Hin]%elem_of_cons & ->)|[Hno _]]]]; [done|by right|by left|by destruct (Hnone old)|].
        exfalso. apply (Hno links0). by left. }
    destruct (bytes_lt name n0) eqn:El.
    { assert (forall old, (name, old) ∉ (n0, links0) :: m) as Hnone.
      { intros old [[= -> _]|Hin]%elem_of_cons; [done|]. specialize (Hall _ Hin). unfold name_before in Hall. cbn in Hall.
        pose proof (bytes_lt_trans _ _ _ El Hall) as H. by rewrite bytes_lt_irrefl in H. }
      rewrite (elem_of_cons ((n0, links0) :: m)). split.
      - intros [[= -> ->]|Hin]; [right; split; [done|]; by right|]. left. split; [done|]. intros ->. by eapply Hnone.
      - intros [[Hin _]|[-> [(old & Hin & _)|[_ ->]]]]; [by right|by destruct (Hnone old)|by left]. }
    rewrite !elem_of_cons, IH by done. split.
    + intros [[= -> ->]|[[Hin Hn]|[-> [(old & Hin & ->)|[Hno ->]]]]].
      * left. split; [by left|done].
      * left. split; [by right|done].
      * right. split; [done|]. left. exists old. rewrite elem_of_cons. auto.
      * right. split; [done|]. right. split; [|done]. intros old [[= -> _]|Hin]%elem_of_cons; [done|by eapply Hno].
    + intros [[[[= -> ->]|Hin] Hn]|[-> [(old & [[= -> _]|Hin]%elem_of_cons & ->)|[Hno ->]]]]; [by left| |done| |].
      * right. left. by split.
      * right. right. split; [done|]. left. by exists old.
      * right. right. split; [done|]. right. split; [|done]. intros old Hin. apply (Hno old). by right.
Qed.

Lemma push_name_sorted name l m : StronglySorted name_before m -> StronglySorted name_before (push_name name l m).
Proof.
  induction m as [|[n0 links0] m IH]; intros Hs; cbn [push_name]; [by repeat constructor|].
  pose proof Hs as [Hs' Hall]%StronglySorted_inv.
  destruct (decide (n0 = name)) as [->|Hne]; [by constructor|].
  destruct (bytes_lt name n0) eqn:El.
  - constructor; [done|]. constructor; [done|]. eapply Forall_impl; [exact Hall|]. intros e He. by eapply bytes_lt_trans.
  - constructor; [by apply IH|]. apply list.Forall_forall. intros [n links] Hin. rewrite list.Forall_forall in Hall.
    apply push_name_in in Hin as [[Hin _]|[-> _]]; [by apply Hall|by apply bytes_lt_total|done].
Qed.

(** ** The groups *)

Section Groups.
Context {State Trigger : Type} `{!LegendEngine State Trigger}.
Implicit Types s : State.

(** The legends of a controller with a name, in the order of the arena. *)
Definition named (controller : PlayerId) (name : bytes) (e : ObjectId * PermanentView) : Prop :=
  is_legend controller e.2 = true /\ permanent_name e.2 = name.
#[local] Instance named_dec controller name e : base.Decision (named controller name e).
Proof. unfold named. apply _. Defined.

Definition legends s (controller : PlayerId) (name : bytes) : list ObjectLinkV4 :=
  map link_of (filter (named controller name) (Arena.iter (permanents s))).

Lemma names_from controller l :
  let m := foldl (fun names e => if is_legend controller e.2 then push_name (permanent_name e.2) (link_of e) names else names) [] l in
  StronglySorted name_before m
  /\ forall n links, (n, links) ∈ m <-> links = map link_of (filter (named controller n) l) /\ links <> [].
Proof.
  induction l as [|e l IH] using rev_ind; cbn zeta in *.
  { split; [constructor|]. intros n links. cbn. rewrite elem_of_nil. split; [done|]. by intros [-> ?]. }
  rewrite foldl_app. cbn [foldl]. set (m := foldl _ _ l) in *. destruct IH as [Hs Hm].
  destruct (is_legend controller e.2) eqn:El.
  - split; [by apply push_name_sorted|]. intros n links. rewrite push_name_in, Hm by done. rewrite filter_app, map_app.
    destruct (decide (n = permanent_name e.2)) as [->|Hn].
    + rewrite (filter_cons_True _ e []) by by split. cbn. split.
      * intros [[_ ?]|[_ [(old & Hold & ->)|[Hno ->]]]]; [done| |].
        -- apply Hm in Hold as [<- _]. split; [done|]. by destruct old.
        -- destruct (map link_of (filter (named controller (permanent_name e.2)) l)) as [|a r] eqn:E; [done|].
           destruct (Hno (a :: r)). apply Hm. by rewrite E.
      * intros [-> _]. right. split; [done|].
        destruct (map link_of (filter (named controller (permanent_name e.2)) l)) as [|a r] eqn:E.
        -- right. split; [|done]. intros old Hold. apply Hm in Hold as [Hold Hne]. congruence.
        -- left. exists (a :: r). split; [|done]. apply Hm. by rewrite E.
    + rewrite (filter_cons_False _ e []) by by intros [_ ?]. cbn. rewrite app_nil_r. split; [|by left].
      intros [[? _]|[? _]]; done.
  - split; [done|]. intros n links. rewrite Hm, filter_app, (filter_cons_False _ e []) by by intros [? _]; congruence.
    by rewrite app_nil_r.
Qed.

Lemma group_iff s controller name objects :
  MkLegendGroup controller name objects ∈ groups (Trigger:=Trigger) s
  <-> has_legendary_definitions = true /\ (controller = turn_player s \/ controller = opponent (turn_player s))
      /\ objects = legends s controller name /\ (1 < length objects)%nat.
Proof.
  unfold groups. destruct has_legendary_definitions; [|by rewrite elem_of_nil; split; [done|intros [? _]]].
  assert (forall c, MkLegendGroup controller name objects ∈ groups_for s c
    <-> controller = c /\ objects = legends s controller name /\ (1 < length objects)%nat) as Hfor.
  { intros c. unfold groups_for. destruct (names_from c (Arena.iter (permanents s))) as [_ Hin].
    rewrite list_elem_of_fmap. split.
    - intros ([n links] & [= -> -> ->] & Hf). apply list_elem_of_filter in Hf as [Hl Hf]. apply Hin in Hf as [-> _]. done.
    - intros (-> & -> & Hl). exists (name, legends s c name). split; [done|]. apply list_elem_of_filter. split; [done|].
      apply Hin. split; [done|]. intros E. rewrite E in Hl. cbn in Hl. lia. }
  cbn [map concat]. rewrite app_nil_r, elem_of_app, !Hfor. split.
  - intros [(-> & ? & ?)|(-> & ? & ?)]; auto.
  - intros (_ & [-> | ->] & ? & ?); auto.
Qed.

Lemma iter_ids_NoDup {A} (a : Arena.t A) : NoDup (map fst (Arena.iter a)).
Proof.
  unfold Arena.iter. apply NoDup_alt. intros i j x Hi Hj.
  apply list_lookup_fmap_Some in Hi as ([y v] & -> & Hi), Hj as ([z w] & Ej & Hj). cbn in Ej. subst z.
  rewrite list_lookup_imap in Hi, Hj. apply fmap_Some in Hi as (? & _ & [= -> _]), Hj as (? & _ & [= Ej _]). lia.
Qed.

Lemma iter_same {A} (a : Arena.t A) e e' : e ∈ Arena.iter a -> e' ∈ Arena.iter a -> e.1 = e'.1 -> e = e'.
Proof.
  intros H H' E. destruct e as [i v], e' as [j w]. cbn in E. subst j.
  apply list_elem_of_lookup in H as [k Hk], H' as [k' Hk'].
  pose proof (iter_ids_NoDup a) as Hnd. rewrite NoDup_alt in Hnd.
  assert (k = k') as <- by (apply (Hnd _ _ i); rewrite list_lookup_fmap, ?Hk, ?Hk'; done). congruence.
Qed.

Lemma legends_in s controller name l : l ∈ legends s controller name <->
  exists v, (object l, v) ∈ Arena.iter (permanents s) /\ generation v = zone_change_count l
            /\ is_legend controller v = true /\ permanent_name v = name.
Proof.
  unfold legends. rewrite list_elem_of_fmap. split.
  - intros ([id v] & -> & [[Hl Hn] Hin]%list_elem_of_filter). exists v. by split_and!.
  - intros (v & Hin & Hg & Hl & Hn). exists (object l, v). split; [destruct l; cbn in *; unfold link_of; cbn; by rewrite Hg|].
    apply list_elem_of_filter. by split.
Qed.

(** A link of the game: it names an object by its present incarnation. *)
Definition current_link s (l : ObjectLinkV4) : Prop :=
  exists v, (object l, v) ∈ Arena.iter (permanents s) /\ generation v = zone_change_count l.

Lemma current_same s l l' : current_link s l -> current_link s l' -> object l = object l' -> l = l'.
Proof.
  intros (v & Hv & Eg) (w & Hw & Eg') E. pose proof (iter_same _ _ _ Hv Hw E) as [= _ ->].
  destruct l, l'. cbn in *. congruence.
Qed.
End Groups.

(** ** The departures *)

Definition before_object (a b : ObjectLinkV4) : Prop := (object_num (object a) < object_num (object b))%Z.

Lemma dedup_links_in l x : x ∈ dedup_links l <-> x ∈ l.
Proof.
  induction l as [|a [|b l] IH]; [done|done|]. change (dedup_links (a :: b :: l))
    with (if decide (a = b) then dedup_links (b :: l) else a :: dedup_links (b :: l)).
  case_decide as E; [subst b; rewrite IH, !elem_of_cons; tauto|].
  rewrite (elem_of_cons (dedup_links (b :: l))), IH, !elem_of_cons. tauto.
Qed.

Lemma dedup_links_sorted l :
  StronglySorted by_object l -> (forall a b, a ∈ l -> b ∈ l -> object a = object b -> a = b) ->
  StronglySorted before_object (dedup_links l).
Proof.
  intros Hs Hsame. induction l as [|a [|b l] IH]; [constructor|by repeat constructor|].
  change (dedup_links (a :: b :: l)) with (if decide (a = b) then dedup_links (b :: l) else a :: dedup_links (b :: l)).
  apply StronglySorted_inv in Hs as [Hs Ha]. rewrite list.Forall_forall in Ha.
  assert (StronglySorted before_object (dedup_links (b :: l))) as Hrest.
  { apply IH; [done|]. intros x y Hx Hy. apply Hsame; by right. }
  case_decide as E; [done|]. constructor; [done|]. apply list.Forall_forall. intros c Hc. rewrite dedup_links_in in Hc.
  pose proof (Ha c Hc) as Hac. pose proof (Ha b ltac:(by left)) as Hab. unfold by_object, before_object in *.
  destruct (Z.eq_dec (object_num (object a)) (object_num (object c))) as [Ec|Ec]; [|lia]. exfalso.
  apply StronglySorted_inv in Hs as [_ Hb]. rewrite list.Forall_forall in Hb.
  assert (object_num (object b) <= object_num (object c))%Z as Hbc.
  { apply elem_of_cons in Hc as [->|Hc]; [lia|]. by apply Hb. }
  apply E, Hsame; [by left|by right; left|]. destruct (object a), (object b). cbn in *. f_equal. lia.
Qed.

#[export] Instance by_object_total : Total by_object.
Proof. intros a b. unfold by_object. lia. Qed.
#[export] Instance by_object_trans : Transitive by_object.
Proof. intros a b c. unfold by_object. lia. Qed.

Lemma before_object_NoDup l : StronglySorted before_object l -> NoDup (map object l).
Proof.
  induction l as [|a l IH]; intros Hs; [constructor|]. apply StronglySorted_inv in Hs as [Hs Ha].
  rewrite list.Forall_forall in Ha. constructor; [|by apply IH]. intros (b & E & Hb)%list_elem_of_fmap.
  specialize (Ha b Hb). unfold before_object in Ha. rewrite E in Ha. lia.
Qed.

Lemma zip_with_in {A B C} (f : A -> B -> C) l k c :
  c ∈ zip_with f l k <-> exists i a b, l !! i = Some a /\ k !! i = Some b /\ c = f a b.
Proof.
  rewrite list_elem_of_lookup. split.
  - intros [i Hi]. apply lookup_zip_with_Some in Hi as (a & b & -> & Ha & Hb). by exists i, a, b.
  - intros (i & a & b & Ha & Hb & ->). exists i. apply lookup_zip_with_Some. by exists a, b.
Qed.

Lemma departures_in prepared kept l :
  l ∈ departures prepared kept <->
  l ∈ graveyard_of prepared
  \/ exists i group k, groups_of prepared !! i = Some group /\ kept !! i = Some k /\ l ∈ group_objects group /\ l <> k.
Proof.
  unfold departures. rewrite dedup_links_in, merge_sort_Permutation, elem_of_app.
  split.
  - intros [?|Hc]; [by left|]. right. apply list_elem_of_In, List.in_concat in Hc as (objects & Hin & Hl). apply list_elem_of_In, zip_with_in in Hin as (i & group & k & Hg & Hk & ->).
    apply list_elem_of_In, list_elem_of_filter in Hl as [? ?]. by exists i, group, k.
  - intros [?|(i & group & k & Hg & Hk & Hl & Hne)]; [by left|]. right. apply list_elem_of_In, List.in_concat. eexists. split.
    + apply list_elem_of_In, zip_with_in. by exists i, group, k.
    + by apply list_elem_of_In, list_elem_of_filter.
Qed.

Section Pass.
Context {State Trigger : Type} `{!LegendEngine State Trigger}.
Implicit Types s : State.
Implicit Types g : LegendGame State Trigger.

Lemma group_current s group l : group ∈ groups (Trigger:=Trigger) s -> l ∈ group_objects group -> current_link s l.
Proof.
  destruct group as [c n objects]. cbn. intros (_ & _ & -> & _)%group_iff (v & Hv & Hg & _)%legends_in. by exists v.
Qed.

Lemma groups_NoDup s : valid_player (turn_player s) -> NoDup (groups (Trigger:=Trigger) s).
Proof.
  intros Hv. unfold groups. destruct has_legendary_definitions; [|constructor]. cbn [map concat]. rewrite app_nil_r.
  assert (forall c, NoDup (groups_for s c)) as Hfor.
  { intros c. unfold groups_for. destruct (names_from c (Arena.iter (permanents s))) as [Hs _].
    change (foldl _ _ _) with (names_of s c) in Hs. induction (names_of s c) as [|[n links] m IH]; [constructor|].
    apply StronglySorted_inv in Hs as [Hs Hn]. rewrite list.Forall_forall in Hn.
    rewrite filter_cons. case_decide; [|by apply IH]. cbn. constructor; [|by apply IH].
    intros ([n' links'] & [= <- _] & [_ Hin]%list_elem_of_filter)%list_elem_of_fmap. specialize (Hn _ Hin).
    unfold name_before in Hn. cbn in Hn. by rewrite bytes_lt_irrefl in Hn. }
  apply NoDup_app. split_and!; [apply Hfor| |apply Hfor].
  intros group (e & -> & _)%list_elem_of_fmap (e' & E & _)%list_elem_of_fmap. destruct e, e'. injection E as E _ _.
  by apply (opponent_ne (turn_player s)).
Qed.

(** Two groups with a common object are one. *)
Lemma groups_disjoint s i j a b l : valid_player (turn_player s) -> groups (Trigger:=Trigger) s !! i = Some a -> groups s !! j = Some b ->
  l ∈ group_objects a -> l ∈ group_objects b -> i = j.
Proof.
  intros Hvp Ha Hb Hla Hlb. pose proof (groups_NoDup s Hvp) as Hnd. rewrite NoDup_alt in Hnd.
  apply (Hnd i j a); [done|]. rewrite Hb. f_equal.
  apply list_elem_of_lookup_2 in Ha, Hb. destruct a as [ca na la], b as [cb nb lb]. cbn in *.
  apply group_iff in Ha as (_ & _ & -> & _), Hb as (_ & _ & -> & _).
  apply legends_in in Hla as (v & Hv & Hg & Hlv & Hnv), Hlb as (w & Hw & Hg' & Hlw & Hnw).
  pose proof (iter_same _ _ _ Hv Hw eq_refl) as [= <-]. subst na nb.
  assert (ca = cb) as -> by (unfold is_legend in *; by bool_to_prop; congruence). done.
Qed.
End Pass.

(** ** The choices *)

Section Choices.
Context {State Trigger : Type} `{!LegendEngine State Trigger}.
Implicit Types s : State.
Implicit Types g : LegendGame State Trigger.

(** One answer after the other, to the first refused one. *)
Fixpoint answers g (ids : list ObjectId) : LegendGame State Trigger * result LegendError unit :=
  match ids with
  | [] => (g, Ok tt)
  | id :: ids =>
      match answer g id with
      | (g, Ok _) => answers g ids
      | refused => refused
      end
  end.

(** The pass of [stage] with the choices so far. *)
Definition choosing s (waiting : list Trigger) (kept : list ObjectLinkV4) : LegendGame State Trigger :=
  MkLegendGame s (Some (MkPendingLegend (prepare s waiting) kept waiting)).

(** The kept links are of the first groups. *)
Definition fits s (kept : list ObjectLinkV4) : Prop :=
  Forall2 (fun k group => k ∈ group_objects group) kept (take (length kept) (groups (Trigger:=Trigger) s)).

Lemma fits_length s kept : fits s kept -> (length kept <= length (groups (Trigger:=Trigger) s))%nat.
Proof. intros H%Forall2_length. rewrite length_take in H. lia. Qed.

Lemma fits_lookup s kept i k group : fits s kept -> kept !! i = Some k -> groups (Trigger:=Trigger) s !! i = Some group ->
  k ∈ group_objects group.
Proof.
  intros H Hk Hg. pose proof (lookup_lt_Some _ _ _ Hk). eapply (Forall2_lookup_lr _ _ _ i k group H Hk). by rewrite lookup_take_lt.
Qed.

Lemma fits_snoc s kept k group : fits s kept -> groups (Trigger:=Trigger) s !! length kept = Some group ->
  k ∈ group_objects group -> fits s (kept ++ [k]).
Proof.
  intros H Hg Hk. unfold fits. rewrite length_app. cbn. rewrite Nat.add_1_r, (take_S_r _ _ group) by done.
  apply Forall2_app; [done|]. by repeat constructor.
Qed.

Lemma pending_fits s waiting kept : groups (Trigger:=Trigger) s <> [] -> fits s kept ->
  pending_holds s (MkPendingLegend (prepare s waiting) kept waiting) = true.
Proof.
  intros Hne H. unfold pending_holds. cbn. rewrite bool_decide_eq_false_2, !bool_decide_eq_true_2 by (done || by apply fits_length).
  cbn. apply List.forallb_forall. intros [k group] Hin. apply list_elem_of_In, list_elem_of_lookup in Hin as [i Hi].
  apply lookup_zip_Some in Hi as [Hk Hg]. apply bool_decide_eq_true. by eapply fits_lookup.
Qed.

(** The link of the group that an answer names. *)
Lemma find_choice s group id : group ∈ groups (Trigger:=Trigger) s ->
  match List.find (fun candidate => bool_decide (object candidate = id)) (group_objects group) with
  | Some k => k ∈ group_objects group /\ object k = id
  | None => id ∉ map object (group_objects group)
  end.
Proof.
  intros _. destruct (List.find _ _) as [k|] eqn:E.
  - apply List.find_some in E as [Hin Hk]. by rewrite list_elem_of_In, <-(bool_decide_eq_true (object k = id)).
  - intros (k & -> & Hk)%list_elem_of_fmap. apply list_elem_of_In in Hk.
    pose proof (List.find_none _ _ E _ Hk) as H. cbv beta in H. by rewrite bool_decide_eq_true_2 in H.
Qed.

Lemma answer_choosing s waiting kept group id :
  groups (Trigger:=Trigger) s <> [] -> fits s kept -> groups (Trigger:=Trigger) s !! length kept = Some group ->
  if decide (id ∈ map object (group_objects group)) then
    exists k, k ∈ group_objects group /\ object k = id /\ answer (choosing s waiting kept) id = (choosing s waiting (kept ++ [k]), Ok tt)
  else answer (choosing s waiting kept) id = (choosing s waiting kept, Err NotInLegendGroup).
Proof.
  intros Hne H Hg. pose proof (find_choice s group id (list_elem_of_lookup_2 _ _ _ Hg)) as Hf.
  unfold answer, choosing. cbn [pending_legend_rule_v1 rules]. rewrite pending_fits by done. cbn. rewrite Hg.
  destruct (List.find _ _) as [k|]; case_decide as Hd.
  - destruct Hf. by exists k.
  - destruct Hf as [Hk <-]. destruct Hd. apply list_elem_of_fmap. by exists k.
  - done.
  - done.
Qed.

Lemma answers_choosing s waiting ids : groups (Trigger:=Trigger) s <> [] -> forall kept,
  fits s kept ->
  Forall2 (fun id group => id ∈ map object (group_objects group)) ids
    (take (length ids) (drop (length kept) (groups (Trigger:=Trigger) s))) ->
  exists more, answers (choosing s waiting kept) ids = (choosing s waiting (kept ++ more), Ok tt)
    /\ map object more = ids /\ fits s (kept ++ more).
Proof.
  intros Hne. induction ids as [|id ids IH]; intros kept H Hids.
  { exists []. by rewrite app_nil_r. }
  destruct (drop (length kept) (groups s)) as [|group rest] eqn:Ed; [by apply Forall2_length in Hids|].
  cbn in Hids. apply Forall2_cons in Hids as [Hid Hids].
  assert (groups s !! length kept = Some group) as Hg by (rewrite <-(Nat.add_0_r (length kept)), <-lookup_drop, Ed; done).
  pose proof (answer_choosing s waiting kept group id Hne H Hg) as Ha. rewrite decide_True in Ha by done.
  destruct Ha as (k & Hk & <- & Ea).
  destruct (IH (kept ++ [k])) as (more & E & Em & Hf); [by eapply fits_snoc| |].
  { rewrite length_app. cbn. rewrite <-drop_drop, Ed. done. }
  exists (k :: more). cbn [answers]. rewrite Ea, E, <-app_assoc. cbn. rewrite Em. split_and!; [done|done|].
  by rewrite <-app_assoc in Hf.
Qed.
End Choices.

(** ** Properties *)

Section Properties.
Context {State Trigger : Type} `{!LegendEngine State Trigger}.
Implicit Types s : State.
Implicit Types g : LegendGame State Trigger.

(** What departs from a completed pass. *)
Lemma departures_of_choices s waiting kept l :
  valid_player (turn_player s) -> fits s kept -> length kept = length (groups (Trigger:=Trigger) s) ->
  l ∈ departures (prepare s waiting) kept <->
  l ∈ graveyard_of (prepare s waiting)
  \/ exists group, group ∈ groups (Trigger:=Trigger) s /\ l ∈ group_objects group /\ (object l ∉ map object kept).
Proof.
  intros Hv Hf Hlen. rewrite departures_in. cbn [groups_of prepare]. split; (intros [?|H]; [by left|right]).
  - destruct H as (i & group & k & Hg & Hk & Hl & Hne). exists group. split; [by eapply list_elem_of_lookup_2|]. split; [done|].
    intros (k' & E & Hk')%list_elem_of_fmap. apply list_elem_of_lookup in Hk' as [j Hj].
    destruct (lookup_lt_is_Some_2 (groups (Trigger:=Trigger) s) j) as [group' Hg'].
    { rewrite <-Hlen. by eapply lookup_lt_Some. }
    pose proof (fits_lookup _ _ _ _ _ Hf Hj Hg') as Hin.
    assert (l = k') as <-.
    { apply (current_same s); [| |done].
      - exact (group_current s group l (list_elem_of_lookup_2 _ _ _ Hg) Hl).
      - exact (group_current s group' k' (list_elem_of_lookup_2 _ _ _ Hg') Hin). }
    pose proof (groups_disjoint s i j group group' l Hv Hg Hg' Hl Hin) as <-. congruence.
  - destruct H as (group & [i Hi]%list_elem_of_lookup & Hl & Hno).
    destruct (lookup_lt_is_Some_2 kept i) as [k Hk]; [rewrite Hlen; by eapply lookup_lt_Some|].
    exists i, group, k. split_and!; [done|done|done|]. intros ->. apply Hno, list_elem_of_fmap. exists k.
    split; [done|]. by eapply list_elem_of_lookup_2.
Qed.

Lemma two_members {A} (l : list A) a b : a ∈ l -> b ∈ l -> a <> b -> (1 < length l)%nat.
Proof. destruct l as [|x [|y l]]; cbn; [by intros ?%elem_of_nil| |lia]. by intros ->%list_elem_of_singleton ->%list_elem_of_singleton. Qed.

Lemma departing_current s waiting kept l : l ∈ departures (prepare s waiting) kept -> current_link s l.
Proof.
  rewrite departures_in. intros [H|(i & group & k & Hg & _ & Hl & _)].
  - cbn in H. apply list_elem_of_fmap in H as ([id v] & -> & [_ Hin]%list_elem_of_filter). exists v. by split.
  - exact (group_current s group l (list_elem_of_lookup_2 _ _ _ Hg) Hl).
Qed.

(** The legends of a controller with one name: all but one leave. *)
Lemma one_of_each_name s waiting kept controller name l l' :
  valid_player (turn_player s) -> fits s kept -> length kept = length (groups (Trigger:=Trigger) s) ->
  has_legendary_definitions = true -> valid_player controller ->
  l ∈ legends s controller name -> l' ∈ legends s controller name -> l <> l' ->
  l ∈ departures (prepare s waiting) kept \/ l' ∈ departures (prepare s waiting) kept.
Proof.
  intros Hv Hf Hlen Hdef Hc Hl Hl' Hne. rewrite !departures_of_choices by done.
  assert (MkLegendGroup controller name (legends s controller name) ∈ groups (Trigger:=Trigger) s) as Hg.
  { apply group_iff. split; [done|]. split.
    - destruct Hc as [->| ->], Hv as [-> | ->]; auto.
    - split; [done|]. by apply two_members with l l'. }
  pose proof Hg as [i Hi]%list_elem_of_lookup.
  destruct (lookup_lt_is_Some_2 kept i) as [k Hk]; [rewrite Hlen; by eapply lookup_lt_Some|].
  assert (forall m, m ∈ legends s controller name -> m <> k -> object m ∉ map object kept) as Hout.
  { intros m Hm Hmk (k' & E & [j Hj]%list_elem_of_lookup)%list_elem_of_fmap.
    destruct (lookup_lt_is_Some_2 (groups (Trigger:=Trigger) s) j) as [group' Hg'].
    { rewrite <-Hlen. by eapply lookup_lt_Some. }
    pose proof (fits_lookup _ _ _ _ _ Hf Hj Hg') as Hin.
    assert (m = k') as <-.
    { apply (current_same s); [| |done].
      - exact (group_current s _ m Hg Hm).
      - exact (group_current s group' k' (list_elem_of_lookup_2 _ _ _ Hg') Hin). }
    pose proof (groups_disjoint s i j _ group' m Hv Hi Hg' Hm Hin) as <-. congruence. }
  destruct (decide (l = k)) as [->|Hlk]; [right|left]; right; (eexists; split; [exact Hg|]; split; [done|]); apply Hout; congruence.
Qed.

(** C26: a legend pass: the players concerned are asked group by group, a choice is accepted exactly when it is a member of
    the group asked about, and after the last choice one batch of departures is committed, each once and in the order of
    the ids: the objects the pass found and the legends that were not chosen. Of two legends of one player with the same
    name at least one departs. *)
Theorem a_legend_pass_leaves_one_of_each_name g waiting :
  pending_legend_rule_v1 g = None -> valid_player (turn_player (rules g)) -> groups (Trigger:=Trigger) (rules g) <> [] ->
  exists g0, stage g waiting = (g0, true) /\ forall ids,
  Forall2 (fun id group => id ∈ map object (group_objects group)) ids (take (length ids) (groups (Trigger:=Trigger) (rules g))) ->
  exists g', answers g0 ids = (g', Ok tt)
  /\ (forall group, groups (Trigger:=Trigger) (rules g) !! length ids = Some group ->
        drain_or_decide g' = (g', Ok (Some (MkChooseLegend (group_controller group) (map object (group_objects group)))))
        /\ forall id, (id ∉ map object (group_objects group)) -> answer g' id = (g', Err NotInLegendGroup))
  /\ (length ids = length (groups (Trigger:=Trigger) (rules g)) -> exists leaving,
        drain_or_decide g'
        = (commit_pass (MkLegendGame (rules g) None) (prepare (rules g) waiting) leaving waiting, Ok None)
        /\ StronglySorted before_object leaving
        /\ (forall l, l ∈ leaving <->
              l ∈ graveyard_of (prepare (rules g) waiting)
              \/ exists group, group ∈ groups (Trigger:=Trigger) (rules g) /\ l ∈ group_objects group /\ (object l ∉ ids))
        /\ (forall controller name l l', valid_player controller -> l ∈ legends (rules g) controller name ->
              l' ∈ legends (rules g) controller name -> l <> l' -> l ∈ leaving \/ l' ∈ leaving)).
Proof.
  intros Hnone Hv Hne. exists (choosing (rules g) waiting []). split.
  { unfold stage. by rewrite Hnone, decide_False. }
  intros ids Hids. destruct (answers_choosing (rules g) waiting ids Hne []) as (kept & E & Hk & Hf).
  { by apply Forall2_nil. }
  { done. }
  cbn [app] in *. exists (choosing (rules g) waiting kept). split; [done|].
  assert (length ids = length kept) as Hlen by by rewrite <-Hk, length_map. rewrite Hlen. split.
  - intros group Hg. split.
    + unfold drain_or_decide, choosing. cbn [pending_legend_rule_v1 rules]. rewrite pending_fits by done. cbn. by rewrite Hg.
    + intros id Hid. pose proof (answer_choosing (rules g) waiting kept group id Hne Hf Hg) as H. by rewrite decide_False in H.
  - intros Hfull. exists (departures (prepare (rules g) waiting) kept). split_and!.
    + unfold drain_or_decide, choosing. cbn [pending_legend_rule_v1 rules]. rewrite pending_fits by done. cbn.
      by rewrite lookup_ge_None_2 by lia.
    + apply dedup_links_sorted; [by apply StronglySorted_merge_sort; apply _|].
      intros a b Ha Hb. apply (current_same (rules g)); apply (departing_current (rules g) waiting kept); by apply dedup_links_in.
    + intros l. rewrite departures_of_choices, Hk by done. done.
    + intros controller name l l' Hc Hl Hl' Hll. apply (one_of_each_name (rules g) waiting kept controller name); try done.
      destruct (groups (rules g)) as [|[c n o] rest] eqn:Eg; [done|].
      assert (MkLegendGroup c n o ∈ groups (rules g)) as [? _]%group_iff by (rewrite Eg; by left). done.
Qed.
End Properties.

(** ** A table of four permanents *)

(** A legend with a name, with marked damage on a creature of toughness one. *)
Definition toy_legend (controller : PlayerId) (name : bytes) (damage : Z) : PermanentView :=
  MkPermanent true controller 0 true name false false true 1 damage false false false None [] 0 0 None false.

Definition leave (v : PermanentView) : PermanentView :=
  MkPermanent false (permanent_controller v) (generation v + 1) (legendary v) (permanent_name v) false false true 1 0
    false false false None [] 0 0 None false.

Abbreviation Table := (Arena.t PermanentView).

#[export] Instance toy_legend_engine : LegendEngine Table unit := {
  has_legendary_definitions := true;
  turn_player _ := P0;
  permanents t := t;
  host_matches _ _ _ := false;
  saga_final_chapter_is_pending _ _ _ _ := false;
  player_has_lost _ _ := false;
  cannot_lose _ _ := false;
  life _ _ := 20%Z;
  drew_from_empty _ _ := false;
  before_protected_departures g _ _ := g;
  put_into_graveyards g ids := MkLegendGame (foldl (fun t id => Arena.update t id leave) (rules g) ids) (pending_legend_rule_v1 g);
  set_has_lost g _ := g;
  cease_to_exist g _ := g;
  collect_and_process_with_waiting g waiting := (g, waiting);
  extend_pending_triggers g _ := g;
}.

(** Three legends of one name, of which player 0 controls two, and a dying one. *)
Definition toy_table : Table :=
  Arena.MkArena [toy_legend P0 [7%Z] 0; toy_legend P1 [7%Z] 0; toy_legend P0 [7%Z] 0; toy_legend P1 [8%Z] 1].

Lemma a_legend_pass_leaves_one_of_each_name_witness :
  exists g0 g', stage (Trigger:=unit) (MkLegendGame toy_table None) [] = (g0, true)
  /\ answers g0 [MkObjectId 2] = (g', Ok tt)
  /\ exists (leaving : list ObjectLinkV4) after, drain_or_decide g' = (after, Ok None)
     /\ (MkLink (MkObjectId 0) 0 ∈ leaving \/ MkLink (MkObjectId 2) 0 ∈ leaving).
Proof.
  destruct (a_legend_pass_leaves_one_of_each_name (LegendEngine0:=toy_legend_engine) (MkLegendGame toy_table None) [] eq_refl valid_P0
    ltac:(vm_compute; discriminate)) as (g0 & E0 & H).
  destruct (H [MkObjectId 2]) as (g' & E & _ & Hfull).
  { change (take _ _) with [MkLegendGroup P0 [7%Z] [MkLink (MkObjectId 0) 0; MkLink (MkObjectId 2) 0]].
    constructor; [|constructor]. right. left. }
  destruct (Hfull eq_refl) as (leaving & Ed & _ & _ & Hone).
  exists g0, g'. split; [exact E0|]. split; [exact E|].
  exists leaving. eexists. split; [exact Ed|].
  apply (Hone P0 [7%Z]); [by left| | |discriminate]; apply legends_in.
  - exists (toy_legend P0 [7%Z] 0). split; [left|]. by split_and!.
  - exists (toy_legend P0 [7%Z] 0). split; [right; right; left|]. by split_and!.
Defined.
