(* ===== verification/CombatRules.v ===== *)
(** * Declaring attackers and blockers
    (src/mtg-kernel/src/engine.rs 11773-11962 and 26738-26984)

    Which creatures may attack and block, which must attack, and the two
    validators of a whole declaration, over a view of the game state: the class
    [CombatView] holds what the rules engine answers about one creature. *)

From S2P Require Import Prelude Ids.

Local Open Scope Z_scope.

Module Step.
Inductive t :=
  | Untap | Upkeep | Draw | Main1 | BeginCombat | DeclareAttackers | DeclareBlockers
  | CombatDamage | EndCombat | Main2 | End_ | Cleanup.
End Step.
#[export] Instance Step_eq_dec : EqDecision Step.t.
Proof. solve_decision. Defined.

Record GoadStateV4 := MkGoad { goad_player : PlayerId; expires_at_turn : Z }.

(** What [can_attack] reads of an object. *)
Record AttackerView := MkAttackerView {
  av_executable : bool;
  av_creature : bool;
  av_tapped : bool;
  av_defender : bool;
  av_summoning_sick : bool;
  av_haste : bool;
  av_time_counters_v1 : Z;
  av_enduring_enchantment_v1 : bool;
}.

(** What [legal_blockers_for] reads of a possible blocker, with the
    prohibitions of continuous effects, which name the attacker or the blocker, as
    one query. *)
Record BlockerView := MkBlockerView {
  bv_executable : bool;
  bv_creature : bool;
  bv_tapped : bool;
  bv_flying : bool;
  bv_reach : bool;
}.

Class CombatView (State : Type) := {
  step_of : State -> Step.t;
  attackers_declared : State -> bool;
  blockers_declared : State -> bool;
  combat_active_player : State -> PlayerId;
  turn_key : State -> Z;
  extra_turn : State -> bool;
  battlefield_of : State -> PlayerId -> list ObjectId;
  on_battlefield : State -> ObjectId -> bool;
  controller_of : State -> ObjectId -> PlayerId;
  attacker_view : State -> ObjectId -> AttackerView;
  goaded_by : State -> ObjectId -> list GoadStateV4;
  must_attack_each_combat : State -> ObjectId -> bool;
  declared_attackers : State -> list ObjectId;
  (** [definition_minimum], the printed value where the printed abilities are active. *)
  printed_minimum_blockers : State -> ObjectId -> Z;
  has_menace : State -> ObjectId -> bool;
  minimum_blockers_override : State -> ObjectId -> option Z;
  is_flying : State -> ObjectId -> bool;
  (** Islandwalk against an island, "can't be blocked", and the monarch's creatures. *)
  unblockable : State -> ObjectId -> bool;
  blocker_view : State -> ObjectId -> BlockerView;
  block_prohibited : State -> ObjectId -> ObjectId -> bool;
  effective_power : State -> ObjectId -> Z;
}.

Inductive DeclareError :=
  | NoDeclareAttackersPending
  | NotAnEligibleAttacker
  | GoadedAttackerOmitted
  | RequiredAttackerOmitted
  | DuplicateAttacker
  | NoDeclareBlockersPending
  | NotAnAttacker (attacker : ObjectId)
  | CannotLegallyBlock (blocker attacker : ObjectId)
  | BlocksMoreThanOne (blocker : ObjectId)
  | TooFewBlockers (attacker : ObjectId) (minimum : Z).

Section Rules.
Context {State : Type} `{!CombatView State}.

(** ** Attackers *)

Definition can_attack (s : State) (id : ObjectId) : bool :=
  let v := attacker_view s id in
  av_executable v && av_creature v && negb (av_tapped v) && negb (av_defender v)
  && (negb (av_summoning_sick v) || av_haste v) && (av_time_counters_v1 v =? 0)
  && negb (av_enduring_enchantment_v1 v).

Definition eligible_attackers (s : State) : list ObjectId :=
  filter (fun id => can_attack s id) (battlefield_of s (combat_active_player s)).

Definition goad_is_active (s : State) (goad : GoadStateV4) : bool :=
  extra_turn s || (turn_key s <? expires_at_turn goad)
  || ((expires_at_turn goad =? turn_key s) && bool_decide (combat_active_player s <> goad_player goad)).

Definition required_goaded_attackers (s : State) (eligible : list ObjectId) : list ObjectId :=
  filter (fun id => existsb (goad_is_active s) (goaded_by s id)) eligible.

Definition required_attackers (s : State) (eligible : list ObjectId) : list ObjectId :=
  let goaded := required_goaded_attackers s eligible in
  filter (fun id => bool_decide (id ∈ goaded)
                    || bool_decide (controller_of s id = combat_active_player s)
                       && must_attack_each_combat s id) eligible.

(** The last check compares the length after sorting and removing duplicates. *)
Definition validate_declare_attackers (s : State) (attackers : list ObjectId) : result DeclareError unit :=
  if bool_decide (step_of s <> Step.DeclareAttackers) || attackers_declared s
  then Err NoDeclareAttackersPending else
  let eligible := eligible_attackers s in
  if negb (forallb (fun a => bool_decide (a ∈ eligible)) attackers) then Err NotAnEligibleAttacker else
  if negb (forallb (fun a => bool_decide (a ∈ attackers)) (required_goaded_attackers s eligible))
  then Err GoadedAttackerOmitted else
  if negb (forallb (fun a => bool_decide (a ∈ attackers)) (required_attackers s eligible))
  then Err RequiredAttackerOmitted else
  if decide (length (remove_dups attackers) <> length attackers) then Err DuplicateAttacker else Ok tt.

(** ** Blockers *)

Definition minimum_blockers_required (s : State) (attacker : ObjectId) : Z :=
  let keyword_minimum := if has_menace s attacker then 2 else 1 in
  Z.max (default (Z.max (printed_minimum_blockers s attacker) keyword_minimum)
           (minimum_blockers_override s attacker)) 1.

Definition may_block (s : State) (attacker id : ObjectId) : bool :=
  let v := blocker_view s id in
  negb (bv_tapped v) && bv_executable v && bv_creature v && negb (block_prohibited s attacker id)
  && (negb (is_flying s attacker) || bv_flying v || bv_reach v).

Definition legal_blockers_for (s : State) (attacker : ObjectId) : list ObjectId :=
  let defender := opponent (controller_of s attacker) in
  if unblockable s attacker then [] else
  let blockers := filter (fun id => may_block s attacker id) (battlefield_of s defender) in
  if Z.of_nat (length blockers) <? minimum_blockers_required s attacker then [] else blockers.

(** [is_still_in_combat] *)
Definition live_attackers (s : State) : list ObjectId :=
  filter (fun id => on_battlefield s id) (declared_attackers s).

(** The stable [sort_by_key] on [Reverse(effective_power)] of [advance_until_decision]. *)
Fixpoint insert_by_power (s : State) (id : ObjectId) (sorted : list ObjectId) : list ObjectId :=
  match sorted with
  | [] => [id]
  | other :: sorted =>
      if effective_power s other <=? effective_power s id then id :: other :: sorted
      else other :: insert_by_power s id sorted
  end.

Definition blocking_order (s : State) : list ObjectId := foldr (insert_by_power s) [] (live_attackers s).

Definition blocking_choices (s : State) : list (ObjectId * list ObjectId) :=
  map (fun a => (a, legal_blockers_for s a)) (blocking_order s).

(** [blocked_by] as [apply_declare_blockers] groups the blocks. *)
Fixpoint add_block (blocker attacker : ObjectId) (blocked_by : list (ObjectId * list ObjectId))
  : list (ObjectId * list ObjectId) :=
  match blocked_by with
  | [] => [(attacker, [blocker])]
  | (a, bs) :: rest =>
      if decide (a = attacker) then (a, bs ++ [blocker]) :: rest
      else (a, bs) :: add_block blocker attacker rest
  end.

Definition group_blocks (blocks : list (ObjectId * ObjectId)) : list (ObjectId * list ObjectId) :=
  fold_left (fun blocked_by b => add_block b.1 b.2 blocked_by) blocks [].

Definition check_block (s : State) (attackers used_blockers : list ObjectId) (block : ObjectId * ObjectId)
  : result DeclareError (list ObjectId) :=
  let '(blocker, attacker) := block in
  if decide (attacker ∉ attackers) then Err (NotAnAttacker attacker) else
  if decide (blocker ∉ legal_blockers_for s attacker) then Err (CannotLegallyBlock blocker attacker) else
  if decide (blocker ∈ used_blockers) then Err (BlocksMoreThanOne blocker) else
  Ok (used_blockers ++ [blocker]).

Definition assigned_to (blocks : list (ObjectId * ObjectId)) (attacker : ObjectId) : list (ObjectId * ObjectId) :=
  filter (fun b => b.2 = attacker) blocks.

Definition check_minimum (s : State) (blocks : list (ObjectId * ObjectId)) (_ : unit) (attacker : ObjectId)
  : result DeclareError unit :=
  let assigned := Z.of_nat (length (assigned_to blocks attacker)) in
  let minimum := minimum_blockers_required s attacker in
  if negb (assigned =? 0) && (assigned <? minimum) then Err (TooFewBlockers attacker minimum) else Ok tt.

Definition validate_declare_blockers (s : State) (blocks : list (ObjectId * ObjectId))
  : result DeclareError unit :=
  if bool_decide (step_of s <> Step.DeclareBlockers) || blockers_declared s
  then Err NoDeclareBlockersPending else
  let attackers := live_attackers s in
  let? _ := try_fold (check_block s attackers) [] blocks in
  try_fold (check_minimum s blocks) tt attackers.
End Rules.
