(* ===== verification/Surface.v ===== *)
(** * The decision surface over the engine
    (src/mtg-kernel/src/surface_v2.rs, with the shared types of surface.rs)

    [HarnessSurfaceV2] filters the decisions of the rules engine: it passes the
    priority windows nobody is asked about, asks for blockers one attacker at a
    time, for discards one card at a time, and for an optional cost in two stages.
    [SurfaceEngine] is what it calls and reads of the engine and its state. The
    texts and the debug log of the audit are left out. *)

From S2P Require Import Prelude Ids CombatRules.

Local Open Scope Z_scope.

(** ** Decisions and actions *)

Inductive OptionalCostChoice := Decline | PayDiscard | PaySacrificeLand | PayReturnPermanent.
#[export] Instance OptionalCostChoice_eq_dec : EqDecision OptionalCostChoice.
Proof. solve_decision. Defined.

(** [Decision] and [Action] of engine.rs: the variants the surfaces look into; the
    others are [Other]. *)
Module EngineDecision.
Inductive t (PendingTrigger OtherDecision : Type) :=
  | CastSpellOrPass (player : PlayerId) (castable_spells mana_abilities land_drops : list ObjectId)
      (activatable_abilities : list (ObjectId * Z)) (plot_actions : list ObjectId)
  | DeclareAttackers (player : PlayerId) (eligible : list ObjectId)
  | DeclareBlockers (player : PlayerId) (attackers : list ObjectId)
      (legal_blockers : list (ObjectId * list ObjectId))
  | Discard (player : PlayerId) (count : Z) (choices : list ObjectId)
  | ChooseOptionalCost (player : PlayerId)
      (discard_payable sacrifice_payable return_permanent_payable : bool)
  | OrderTriggers (player : PlayerId) (pending : list PendingTrigger)
  | GameOver (winner : option PlayerId)
  | Halted (mechanic : Z) (source : ObjectId)
  | Other (player : PlayerId) (decision : OtherDecision).
Arguments CastSpellOrPass {_ _} _ _ _ _ _ _.
Arguments DeclareAttackers {_ _} _ _.
Arguments DeclareBlockers {_ _} _ _ _.
Arguments Discard {_ _} _ _ _.
Arguments ChooseOptionalCost {_ _} _ _ _ _.
Arguments OrderTriggers {_ _} _ _.
Arguments GameOver {_ _} _.
Arguments Halted {_ _} _ _.
Arguments Other {_ _} _ _.
End EngineDecision.

Module EngineAction.
Inductive t (OtherAction : Type) :=
  | Pass
  | DeclareAttackers (attackers : list ObjectId)
  | DeclareBlockers (blocks : list (ObjectId * ObjectId))
  | Discard (cards : list ObjectId)
  | ChooseOptionalCost (choice : OptionalCostChoice)
  | ChooseOptionalCostStage (use_it : bool)
  | OrderTriggers (order : list nat)
  | ChooseMadnessCast (cast_it : bool)
  | Other (action : OtherAction).
Arguments Pass {_}.
Arguments DeclareAttackers {_} _.
Arguments DeclareBlockers {_} _.
Arguments Discard {_} _.
Arguments ChooseOptionalCost {_} _.
Arguments ChooseOptionalCostStage {_} _.
Arguments OrderTriggers {_} _.
Arguments ChooseMadnessCast {_} _.
Arguments Other {_} _.
End EngineAction.

Module SurfaceDecision.
Inductive t (PendingTrigger OtherDecision : Type) :=
  | Decision (decision : EngineDecision.t PendingTrigger OtherDecision)
  | DeclareBlockersForAttacker (attacker : ObjectId) (legal_blockers : list ObjectId).
Arguments Decision {_ _} _.
Arguments DeclareBlockersForAttacker {_ _} _ _.
End SurfaceDecision.

Module SurfaceAction.
Inductive t (OtherAction : Type) :=
  | Action (action : EngineAction.t OtherAction)
  | DeclareBlockersForAttacker (blockers : list ObjectId).
Arguments Action {_} _.
Arguments DeclareBlockersForAttacker {_} _.
End SurfaceAction.

#[export] Instance EngineDecision_eq_dec PendingTrigger OtherDecision `{!EqDecision PendingTrigger}
  `{!EqDecision OtherDecision} : EqDecision (EngineDecision.t PendingTrigger OtherDecision).
Proof. solve_decision. Defined.
#[export] Instance SurfaceDecision_eq_dec PendingTrigger OtherDecision `{!EqDecision PendingTrigger}
  `{!EqDecision OtherDecision} : EqDecision (SurfaceDecision.t PendingTrigger OtherDecision).
Proof. solve_decision. Defined.

(** ** The state of the surface *)

Record BlockersReshape := MkBlockersReshape {
  remaining : list (ObjectId * list ObjectId);
  accumulated : list (ObjectId * ObjectId);
  current_attacker : option ObjectId;
}.

Record DiscardReshape := MkDiscardReshape {
  discard_player : PlayerId;
  remaining_choices : list ObjectId;
  chosen : list ObjectId;
  remaining_needed : Z;
}.

Inductive OptionalCostStage := Use | Which.

Record OptionalCostReshape := MkOptionalCostReshape {
  cost_player : PlayerId;
  discard_payable : bool;
  sacrifice_payable : bool;
  cost_stage : OptionalCostStage;
}.

Inductive SuppressionReason :=
  | StepGated | NoRealOption | NoEligibleAttacker | NoEligibleBlockersForAttacker
  | CombatPriorityActionSpent | StackTopIsCastersOwn.

Record Suppression := MkSuppression {
  suppression_reason : SuppressionReason;
  state_hash_before : Z;
  state_hash_after : Z;
}.

Inductive SuppressionAuditMode := AuditFull | AuditCountOnly | AuditOff.

Record SuppressionCounts := MkSuppressionCounts {
  step_gated : Z;
  no_real_option : Z;
  no_eligible_attacker : Z;
  no_eligible_blockers_for_attacker : Z;
  combat_priority_action_spent : Z;
  stack_top_is_casters_own : Z;
}.

Definition zero_counts : SuppressionCounts := MkSuppressionCounts 0 0 0 0 0 0.

Definition saturating_succ_u64 (n : Z) : Z := Z.min (n + 1) u64_max.

Definition increment (c : SuppressionCounts) (reason : SuppressionReason) : SuppressionCounts :=
  let 'MkSuppressionCounts a b d e f g := c in
  match reason with
  | StepGated => MkSuppressionCounts (saturating_succ_u64 a) b d e f g
  | NoRealOption => MkSuppressionCounts a (saturating_succ_u64 b) d e f g
  | NoEligibleAttacker => MkSuppressionCounts a b (saturating_succ_u64 d) e f g
  | NoEligibleBlockersForAttacker => MkSuppressionCounts a b d (saturating_succ_u64 e) f g
  | CombatPriorityActionSpent => MkSuppressionCounts a b d e (saturating_succ_u64 f) g
  | StackTopIsCastersOwn => MkSuppressionCounts a b d e f (saturating_succ_u64 g)
  end.

(** The three fields of the audit. *)
Record Audit := MkAudit {
  suppression_audit_mode : SuppressionAuditMode;
  audit_counts : SuppressionCounts;
  suppressions : list Suppression;
}.

(** [HarnessSurfaceScalarsV1]: the nine numbers of the priority filter. *)
Record HarnessSurfaceScalarsV1 := MkScalars {
  combat_priority_spent : per_player bool;
  combat_priority_round_seen : option Z;
  combat_priority_stack_len_seen : nat;
  combat_priority_mana_count_seen : Z;
  combat_round_opening_mana_count : Z;
  round_opening_stack_len : nat;
  stack_len_round_seen : option Z;
  last_seen_stack_len : option nat;
  mana_count_at_last_stack_change : Z;
}.

Inductive PriorityModeV1 := HarnessV2 | EngineWindowsV1.

Record HarnessSurfaceV2 := MkHarness {
  priority_mode : PriorityModeV1;
  audit : Audit;
  blockers : option BlockersReshape;
  scalars : HarnessSurfaceScalarsV1;
  madness_cast_reprompt_exemption : option ObjectId;
  discard : option DiscardReshape;
  optional_cost : option OptionalCostReshape;
}.

Definition initial_scalars : HarnessSurfaceScalarsV1 :=
  MkScalars (PerPlayer false false) None 0 0 0 0 None None 0.

Definition new_with_priority_mode_v1 (mode : PriorityModeV1) (audit_mode : SuppressionAuditMode) : HarnessSurfaceV2 :=
  MkHarness mode (MkAudit audit_mode zero_counts []) None initial_scalars None None None.

Definition new_with_suppression_audit_mode (audit_mode : SuppressionAuditMode) : HarnessSurfaceV2 :=
  new_with_priority_mode_v1 HarnessV2 audit_mode.

Definition with_audit (h : HarnessSurfaceV2) (a : Audit) : HarnessSurfaceV2 :=
  MkHarness (priority_mode h) a (blockers h) (scalars h) (madness_cast_reprompt_exemption h)
    (discard h) (optional_cost h).
Definition with_blockers (h : HarnessSurfaceV2) (b : option BlockersReshape) : HarnessSurfaceV2 :=
  MkHarness (priority_mode h) (audit h) b (scalars h) (madness_cast_reprompt_exemption h)
    (discard h) (optional_cost h).
Definition with_scalars (h : HarnessSurfaceV2) (c : HarnessSurfaceScalarsV1) : HarnessSurfaceV2 :=
  MkHarness (priority_mode h) (audit h) (blockers h) c (madness_cast_reprompt_exemption h)
    (discard h) (optional_cost h).
Definition with_madness (h : HarnessSurfaceV2) (m : option ObjectId) : HarnessSurfaceV2 :=
  MkHarness (priority_mode h) (audit h) (blockers h) (scalars h) m (discard h) (optional_cost h).
Definition with_discard (h : HarnessSurfaceV2) (d : option DiscardReshape) : HarnessSurfaceV2 :=
  MkHarness (priority_mode h) (audit h) (blockers h) (scalars h) (madness_cast_reprompt_exemption h)
    d (optional_cost h).
Definition with_optional_cost (h : HarnessSurfaceV2) (o : option OptionalCostReshape) : HarnessSurfaceV2 :=
  MkHarness (priority_mode h) (audit h) (blockers h) (scalars h) (madness_cast_reprompt_exemption h)
    (discard h) o.

(** [suppression_counts] *)
Definition suppression_counts (h : HarnessSurfaceV2) : SuppressionCounts :=
  match suppression_audit_mode (audit h) with
  | AuditFull => fold_left (fun c s => increment c (suppression_reason s)) (suppressions (audit h)) zero_counts
  | AuditCountOnly => audit_counts (audit h)
  | AuditOff => zero_counts
  end.

(** [record]; the hashes are computed in the mode that keeps them. *)
Definition record (reason : SuppressionReason) (before after : Z) (h : HarnessSurfaceV2) : HarnessSurfaceV2 :=
  let a := audit h in
  match suppression_audit_mode a with
  | AuditCountOnly => with_audit h (MkAudit AuditCountOnly (increment (audit_counts a) reason) (suppressions a))
  | AuditOff => h
  | AuditFull => with_audit h (MkAudit AuditFull (audit_counts a)
                                 (suppressions a ++ [MkSuppression reason before after]))
  end.

(** ** What the surface calls *)

(** [engine_step] gives back the state also when it refuses; [stack_top] is the
    controller and the source of the top item. *)
Class SurfaceEngine (State PendingTrigger OtherDecision OtherAction : Type) := {
  advance_until_decision : State -> State * EngineDecision.t PendingTrigger OtherDecision;
  engine_step : State -> EngineAction.t OtherAction -> State * result (list Z) unit;
  state_hash : State -> Z;
  stack_len : State -> nat;
  stack_top : State -> option (PlayerId * ObjectId);
  priority_round : State -> Z;
  mana_ability_activations : State -> Z;
  last_mana_ability_activator : State -> option PlayerId;
  pending_cast_spell : State -> option ObjectId;
}.

Inductive SurfaceError :=
  | NoDeclareBlockersForAttacker
  | StaleAttackerBinding
  | BadBlocks (error : DeclareError)
  | NoDiscardPending
  | DiscardNotACandidate
  | DiscardCount (needed picked : Z)
  | NoOptionalCostPending
  | NeitherPayable
  | EngineRefused (text : list Z).

(** [harness_never_offers_priority] *)
Definition harness_never_offers_priority (step : Step.t) : bool :=
  match step with
  | Step.Upkeep | Step.Draw | Step.BeginCombat | Step.CombatDamage | Step.EndCombat | Step.End_ => true
  | _ => false
  end.

Section Surface.
Context {State PendingTrigger OtherDecision OtherAction : Type}.
Context `{!CombatView State} `{!SurfaceEngine State PendingTrigger OtherDecision OtherAction}.
Abbreviation decision := (EngineDecision.t PendingTrigger OtherDecision).
Abbreviation surfaced := (SurfaceDecision.t PendingTrigger OtherDecision).
Abbreviation action := (EngineAction.t OtherAction).
Implicit Types h : HarnessSurfaceV2.
Implicit Types s : State.

Definition refused (r : State * result (list Z) unit) : State * result SurfaceError unit :=
  let (s, r) := r in
  match r with Ok _ => (s, Ok tt) | Err text => (s, Err (EngineRefused text)) end.

(** An engine step that the surface takes itself, with its [expect]: a refusal is
    a panic, [Err tt]. *)
Definition forced_step s (a : action) : result unit State :=
  match engine_step s a with (s, Ok _) => Ok s | (_, Err _) => Err tt end.

(** ** Blockers, one attacker at a time *)

Fixpoint begin_remaining (legal_blockers : list (ObjectId * list ObjectId)) (before : Z) s h
  : list (ObjectId * list ObjectId) * HarnessSurfaceV2 :=
  match legal_blockers with
  | [] => ([], h)
  | (attacker, ids) :: rest =>
      match ids with
      | [] => begin_remaining rest before s (record NoEligibleBlockersForAttacker before (state_hash s) h)
      | _ => let (queue, h) := begin_remaining rest before s h in ((attacker, ids) :: queue, h)
      end
  end.

Definition begin_blockers_reshape (legal_blockers : list (ObjectId * list ObjectId)) (before : Z) s h
  : HarnessSurfaceV2 :=
  let (queue, h) := begin_remaining legal_blockers before s h in
  with_blockers h (Some (MkBlockersReshape queue [] None)).

(** [finish_blockers_reshape] *)
Definition finish_blockers_reshape (blocks : list (ObjectId * ObjectId)) s h
  : result unit (HarnessSurfaceV2 * State) :=
  let? s := forced_step s (EngineAction.DeclareBlockers blocks) in Ok (with_blockers h None, s).

(** The loop of [next_blockers_subdecision] over the queue of a reshape. *)
Fixpoint pop_attackers (queue : list (ObjectId * list ObjectId)) (blocks : list (ObjectId * ObjectId)) s h
  : result unit (HarnessSurfaceV2 * State * option surfaced) :=
  match queue with
  | [] => let? r := finish_blockers_reshape blocks s h in Ok (r.1, r.2, None)
  | (attacker, legal_blockers) :: queue =>
      let already_used := map fst blocks in
      match filter (.∉ already_used) legal_blockers with
      | [] => pop_attackers queue blocks s
                (record NoEligibleBlockersForAttacker (state_hash s) (state_hash s) h)
      | filtered =>
          Ok (with_blockers h (Some (MkBlockersReshape queue blocks (Some attacker))), s,
              Some (SurfaceDecision.DeclareBlockersForAttacker attacker filtered))
      end
  end.

Definition next_blockers_subdecision s h : result unit (HarnessSurfaceV2 * State * option surfaced) :=
  match blockers h with
  | None => Ok (h, s, None)
  | Some reshape => pop_attackers (remaining reshape) (accumulated reshape) s h
  end.

(** ** Discards and optional costs *)

Definition next_discard_subdecision h : option surfaced :=
  match discard h with
  | None => None
  | Some reshape =>
      Some (SurfaceDecision.Decision
              (EngineDecision.Discard (discard_player reshape) 1 (remaining_choices reshape)))
  end.

Definition next_optional_cost_subdecision h : option surfaced :=
  match optional_cost h with
  | None => None
  | Some reshape =>
      let sentinel := match cost_stage reshape with Use => false | Which => true end in
      Some (SurfaceDecision.Decision
              (EngineDecision.ChooseOptionalCost (cost_player reshape) sentinel sentinel false))
  end.

(** ** Priority windows *)

(** The two snapshots of the stack. *)
Definition see_stack s (c : HarnessSurfaceScalarsV1) : HarnessSurfaceScalarsV1 :=
  let c :=
    if decide (stack_len_round_seen c <> Some (priority_round s)) then
      MkScalars (combat_priority_spent c) (combat_priority_round_seen c) (combat_priority_stack_len_seen c)
        (combat_priority_mana_count_seen c) (combat_round_opening_mana_count c) (stack_len s)
        (Some (priority_round s)) (last_seen_stack_len c) (mana_count_at_last_stack_change c)
    else c in
  if decide (last_seen_stack_len c <> Some (stack_len s)) then
    MkScalars (combat_priority_spent c) (combat_priority_round_seen c) (combat_priority_stack_len_seen c)
      (combat_priority_mana_count_seen c) (combat_round_opening_mana_count c) (round_opening_stack_len c)
      (stack_len_round_seen c) (Some (stack_len s)) (mana_ability_activations s)
  else c.

(** [stack_top_is_fresh_own_item], before the exemption. *)
Definition fresh_own_item s (c : HarnessSurfaceScalarsV1) (player : PlayerId) : bool :=
  (round_opening_stack_len c <? stack_len s)%nat
  && match stack_top s with Some (controller, _) => bool_decide (controller = player) | None => false end
  && (mana_ability_activations s =? mana_count_at_last_stack_change c).

Definition exempted s (exemption : option ObjectId) : bool :=
  match exemption, stack_top s with
  | Some card, Some (_, source) => bool_decide (source = card)
  | _, _ => false
  end.

(** A new combat round. *)
Definition see_combat_round s (c : HarnessSurfaceScalarsV1) : HarnessSurfaceScalarsV1 :=
  if decide (combat_priority_round_seen c <> Some (priority_round s)) then
    MkScalars (PerPlayer false false) (Some (priority_round s)) (stack_len s)
      (mana_ability_activations s) (mana_ability_activations s) (round_opening_stack_len c)
      (stack_len_round_seen c) (last_seen_stack_len c) (mana_count_at_last_stack_change c)
  else c.

Definition mana_ability_is_fresh_own_action s (c : HarnessSurfaceScalarsV1) (player : PlayerId) : bool :=
  (combat_round_opening_mana_count c <? mana_ability_activations s)
  && bool_decide (last_mana_ability_activator s = Some player)
  && (stack_len s =? combat_priority_stack_len_seen c)%nat.

(** Both players may act again after a change of the stack or a mana ability. *)
Definition reopen s (c : HarnessSurfaceScalarsV1) : HarnessSurfaceScalarsV1 :=
  if negb (stack_len s =? combat_priority_stack_len_seen c)%nat
     || negb (mana_ability_activations s =? combat_priority_mana_count_seen c) then
    MkScalars (PerPlayer false false) (combat_priority_round_seen c) (stack_len s)
      (mana_ability_activations s) (combat_round_opening_mana_count c) (round_opening_stack_len c)
      (stack_len_round_seen c) (last_seen_stack_len c) (mana_count_at_last_stack_change c)
  else c.

Definition spend s (c : HarnessSurfaceScalarsV1) (player : PlayerId) : HarnessSurfaceScalarsV1 :=
  MkScalars (set_seat (combat_priority_spent c) player true) (combat_priority_round_seen c)
    (combat_priority_stack_len_seen c) (combat_priority_mana_count_seen c)
    (combat_round_opening_mana_count c) (round_opening_stack_len c) (stack_len_round_seen c)
    (last_seen_stack_len c) (mana_count_at_last_stack_change c).

(** The guards of [CastSpellOrPass] under [HarnessV2]: why the window is passed,
    if it is. *)
Definition priority_window s h (player : PlayerId) (no_option : bool)
  : HarnessSurfaceV2 * option SuppressionReason :=
  let c := see_stack s (scalars h) in
  let fresh := fresh_own_item s c player && negb (exempted s (madness_cast_reprompt_exemption h)) in
  let h := with_madness h None in
  let in_combat := bool_decide (step_of s = Step.DeclareAttackers \/ step_of s = Step.DeclareBlockers) in
  let gate (c : HarnessSurfaceScalarsV1) :=
    let step_gated := harness_never_offers_priority (step_of s) in
    (with_scalars h c,
     if step_gated then Some StepGated else if no_option then Some NoRealOption else None) in
  if in_combat then
    let c := see_combat_round s c in
    if fresh || mana_ability_is_fresh_own_action s c player
    then (with_scalars h c, Some StackTopIsCastersOwn)
    else
      let c := reopen s c in
      if seat (combat_priority_spent c) player then (with_scalars h c, Some CombatPriorityActionSpent)
      else gate (spend s c player)
  else if fresh then (with_scalars h c, Some StackTopIsCastersOwn)
  else gate c.

(** ** The loop *)

(** What a turn of the loop of [next_decision_inner] does: it returns a decision,
    or goes on. *)
Definition settle s h (before : Z) (d : decision) : result unit (HarnessSurfaceV2 * State * option surfaced) :=
  let surface h := Ok (h, s, Some (SurfaceDecision.Decision d)) in
  match d with
  | EngineDecision.CastSpellOrPass player castable_spells mana_abilities land_drops activatable_abilities _ =>
      match priority_mode h with
      | EngineWindowsV1 => surface h
      | HarnessV2 =>
          let no_option := bool_decide (castable_spells = []) && bool_decide (mana_abilities = [])
                           && bool_decide (land_drops = []) && bool_decide (activatable_abilities = []) in
          let (h, reason) := priority_window s h player no_option in
          match reason with
          | None => surface h
          | Some reason =>
              let? s := forced_step s EngineAction.Pass in
              Ok (record reason before (state_hash s) h, s, None)
          end
      end
  | EngineDecision.DeclareAttackers _ eligible =>
      match eligible with
      | [] =>
          let? s := forced_step s (EngineAction.DeclareAttackers []) in
          Ok (record NoEligibleAttacker before (state_hash s) h, s, None)
      | _ => surface h
      end
  | EngineDecision.DeclareBlockers _ _ legal_blockers =>
      next_blockers_subdecision s (begin_blockers_reshape legal_blockers before s h)
  | EngineDecision.Discard player count choices =>
      Ok (with_discard h (Some (MkDiscardReshape player choices [] count)), s, None)
  | EngineDecision.ChooseOptionalCost player discards sacrifices _ =>
      if discards || sacrifices then
        Ok (with_optional_cost h (Some (MkOptionalCostReshape player discards sacrifices Use)), s, None)
      else surface h
  | _ => surface h
  end.

Definition next_turn s h : result unit (HarnessSurfaceV2 * State * option surfaced) :=
  let? r := next_blockers_subdecision s h in
  let '(h, s, asked) := r in
  match asked with
  | Some sd => Ok (h, s, Some sd)
  | None =>
      match next_discard_subdecision h with
      | Some sd => Ok (h, s, Some sd)
      | None =>
          match next_optional_cost_subdecision h with
          | Some sd => Ok (h, s, Some sd)
          | None => let (s', d) := advance_until_decision s in settle s' h (state_hash s) d
          end
      end
  end.

(** [next_decision_inner], for at most [fuel] turns; [None] when they do not
    suffice. *)
Fixpoint next_decision (fuel : nat) s h : option (result unit (HarnessSurfaceV2 * State * surfaced)) :=
  match fuel with
  | O => None
  | S fuel =>
      match next_turn s h with
      | Err tt => Some (Err tt)
      | Ok (h, s, Some sd) => Some (Ok (h, s, sd))
      | Ok (h, s, None) => next_decision fuel s h
      end
  end.

(** ** Answers *)

(** [validate_declare_blockers_for_attacker] *)
Definition validate_declare_blockers_for_attacker s h (expected_attacker : ObjectId) (ids : list ObjectId)
  : result SurfaceError unit :=
  match blockers h with
  | None => Err NoDeclareBlockersForAttacker
  | Some reshape =>
      match current_attacker reshape with
      | None => Err NoDeclareBlockersForAttacker
      | Some attacker =>
          if decide (attacker <> expected_attacker) then Err StaleAttackerBinding else
          match validate_declare_blockers s (accumulated reshape ++ map (fun b => (b, attacker)) ids) with
          | Ok _ => Ok tt
          | Err e => Err (BadBlocks e)
          end
      end
  end.

Definition apply_blockers_for_attacker s h (ids : list ObjectId)
  : HarnessSurfaceV2 * State * result SurfaceError unit :=
  match reshape ← blockers h; attacker ← current_attacker reshape; Some (reshape, attacker) with
  | None => (h, s, Err NoDeclareBlockersForAttacker)
  | Some (reshape, attacker) =>
      match validate_declare_blockers_for_attacker s h attacker ids with
      | Err e => (h, s, Err e)
      | Ok _ =>
          let aggregate := accumulated reshape ++ map (fun b => (b, attacker)) ids in
          match remaining reshape with
          | [] =>
              let (s, r) := refused (engine_step s (EngineAction.DeclareBlockers aggregate)) in
              match r with
              | Err e => (h, s, Err e)
              | Ok _ => (with_blockers h None, s, Ok tt)
              end
          | _ => (with_blockers h (Some (MkBlockersReshape (remaining reshape) aggregate None)), s, Ok tt)
          end
      end
  end.

Definition apply_discard s h (picked : list ObjectId) : HarnessSurfaceV2 * State * result SurfaceError unit :=
  match discard h with
  | None => (h, s, Err NoDiscardPending)
  | Some reshape =>
      if negb (forallb (fun id => bool_decide (id ∈ remaining_choices reshape)) picked)
      then (h, s, Err DiscardNotACandidate) else
      if decide (Z.of_nat (length picked) mod 2 ^ 32 = remaining_needed reshape) then
        let (s, r) := refused (engine_step s (EngineAction.Discard (chosen reshape ++ picked))) in
        (with_discard h None, s, r)
      else
        match picked with
        | [id] =>
            (with_discard h (Some (MkDiscardReshape (discard_player reshape)
               (filter (fun c => c <> id) (remaining_choices reshape)) (chosen reshape ++ [id])
               ((remaining_needed reshape - 1) mod 2 ^ 32))), s, Ok tt)
        | _ => (h, s, Err (DiscardCount (remaining_needed reshape) (Z.of_nat (length picked))))
        end
  end.

Definition pay s h (choice : OptionalCostChoice) : HarnessSurfaceV2 * State * result SurfaceError unit :=
  let (s, r) := refused (engine_step s (EngineAction.ChooseOptionalCost choice)) in
  (with_optional_cost h None, s, r).

Definition apply_optional_cost_stage s h (use_it : bool) : HarnessSurfaceV2 * State * result SurfaceError unit :=
  match optional_cost h with
  | None => (h, s, Err NoOptionalCostPending)
  | Some reshape =>
      match cost_stage reshape with
      | Use =>
          if negb use_it then pay s h Decline
          else match discard_payable reshape, sacrifice_payable reshape with
               | true, true =>
                   (with_optional_cost h (Some (MkOptionalCostReshape (cost_player reshape)
                      (discard_payable reshape) (sacrifice_payable reshape) Which)), s, Ok tt)
               | true, false => pay s h PayDiscard
               | false, true => pay s h PaySacrificeLand
               | false, false => (h, s, Err NeitherPayable)
               end
      | Which => pay s h (if use_it then PayDiscard else PaySacrificeLand)
      end
  end.

Definition apply_madness_cast s h : HarnessSurfaceV2 * State * result SurfaceError unit :=
  let (s, r) := refused (engine_step s (EngineAction.ChooseMadnessCast true)) in
  match r with
  | Ok _ => (with_madness h (pending_cast_spell s), s, r)
  | Err _ => (h, s, r)
  end.

Definition apply_order_triggers s h (order : list nat) : HarnessSurfaceV2 * State * result SurfaceError unit :=
  let on_top := exempted s (madness_cast_reprompt_exemption h) in
  let (s, r) := refused (engine_step s (EngineAction.OrderTriggers order)) in
  match r with
  | Ok _ =>
      if on_top then
        let c := scalars h in
        (with_scalars h (MkScalars (combat_priority_spent c) (combat_priority_round_seen c)
           (combat_priority_stack_len_seen c) (combat_priority_mana_count_seen c)
           (combat_round_opening_mana_count c) (stack_len s) (Some (priority_round s))
           (last_seen_stack_len c) (mana_count_at_last_stack_change c)), s, r)
      else (h, s, r)
  | Err _ => (h, s, r)
  end.

(** [HarnessSurfaceV2::apply] *)
Definition surface_apply s h (a : SurfaceAction.t OtherAction) : HarnessSurfaceV2 * State * result SurfaceError unit :=
  match a with
  | SurfaceAction.DeclareBlockersForAttacker ids => apply_blockers_for_attacker s h ids
  | SurfaceAction.Action (EngineAction.ChooseMadnessCast true) => apply_madness_cast s h
  | SurfaceAction.Action (EngineAction.OrderTriggers order) => apply_order_triggers s h order
  | SurfaceAction.Action (EngineAction.Discard picked) => apply_discard s h picked
  | SurfaceAction.Action (EngineAction.ChooseOptionalCost choice) =>
      let (s, r) := refused (engine_step s (EngineAction.ChooseOptionalCost choice)) in
      (with_optional_cost h None, s, r)
  | SurfaceAction.Action (EngineAction.ChooseOptionalCostStage use_it) => apply_optional_cost_stage s h use_it
  | SurfaceAction.Action a =>
      let (s, r) := refused (engine_step s a) in (h, s, r)
  end.
End Surface.
