(* ===== verification/PolicySurface.v ===== *)
(** * The policy surface
    (src/mtg-kernel/src/policy_surface_v5.rs and policy_surface_v5/hunter_order_v45.rs)

    [PolicySurfaceV5] presents a combat declaration as a scan: one yes-or-no
    question per candidate, committed once after the last answer; and a large group
    of triggers as a permutation chosen one at a time. The rest passes through to
    [HarnessSurfaceV2]. A method on [&mut self] and [&mut state] returns both. *)

From S2P Require Import Prelude Ids Bytes SearchAuthority CombatRules Surface.

Local Open Scope Z_scope.

Definition MAX_TRIGGER_ORDER_OBJECTS : nat := 7.

(** ** Data *)

Inductive PolicySurfaceStageV5 := StageSurface | StageAttackerInclusion | StageBlockerInclusion.

Record PrivateCombatSelectionIdsV5 := MkSelectionIds {
  selection_attacker : option ObjectId;
  selection_candidate_index : Z;
  selection_candidate_count : Z;
  selection_selected : list ObjectId;
  current_candidate : ObjectId;
  remaining_after_current : list ObjectId;
}.

Record PolicySurfaceContextIdsV5 := MkContextIds {
  current_stage : PolicySurfaceStageV5;
  private_combat_selection : option PrivateCombatSelectionIdsV5;
}.

Module PolicyDecision.
Inductive t (PendingTrigger OtherDecision : Type) :=
  | Surface (surfaced : SurfaceDecision.t PendingTrigger OtherDecision)
  | AttackerInclusion (player : PlayerId) (attacker : ObjectId) (candidate_index candidate_count : Z)
  | BlockerInclusion (player : PlayerId) (attacker blocker : ObjectId) (candidate_index candidate_count : Z).
Arguments Surface {_ _} _.
Arguments AttackerInclusion {_ _} _ _ _ _.
Arguments BlockerInclusion {_ _} _ _ _ _ _.
End PolicyDecision.

#[export] Instance PolicyDecision_eq_dec PendingTrigger OtherDecision `{!EqDecision PendingTrigger}
  `{!EqDecision OtherDecision} : EqDecision (PolicyDecision.t PendingTrigger OtherDecision).
Proof. solve_decision. Defined.

Module PolicyAction.
Inductive t (OtherAction : Type) :=
  | Surface (action : SurfaceAction.t OtherAction)
  | ChooseAttackerInclusion (actor : PlayerId) (attacker : ObjectId) (include : bool)
  | ChooseBlockerInclusion (actor : PlayerId) (attacker blocker : ObjectId) (include : bool).
Arguments Surface {_} _.
Arguments ChooseAttackerInclusion {_} _ _ _.
Arguments ChooseBlockerInclusion {_} _ _ _ _.
End PolicyAction.

Inductive CombatScanBindingV5 := ExactSurfaceHash (hash : Z) | OwnedEnvironmentRevision (revision : Z).
Inductive EnvironmentBindingModeV5 := Exact | OwnedRevision (revision : Z).

(** The fields the two kinds of scan share. *)
Record ScanProgress := MkProgress {
  scan_player : PlayerId;
  ordered_candidates : list ObjectId;
  cursor : nat;
  selected : list ObjectId;
  binding : CombatScanBindingV5;
}.

Inductive CombatScanV5 :=
  | Attackers (progress : ScanProgress)
  | Blockers (attacker : ObjectId) (progress : ScanProgress).

Definition progress_of (scan : CombatScanV5) : ScanProgress :=
  match scan with Attackers p | Blockers _ p => p end.

Definition with_progress (scan : CombatScanV5) (p : ScanProgress) : CombatScanV5 :=
  match scan with Attackers _ => Attackers p | Blockers attacker _ => Blockers attacker p end.

Definition with_binding (p : ScanProgress) (b : CombatScanBindingV5) : ScanProgress :=
  MkProgress (scan_player p) (ordered_candidates p) (cursor p) (selected p) b.

Inductive FastActorInPlaceApplyErrorV1 := RejectedBeforeMutation | InternalApplyFailure.

Record TriggerOrderV45 (PendingTrigger : Type) := MkTriggerOrder {
  order_player : PlayerId;
  order_pending : list PendingTrigger;
  order_prefix : list nat;
  order_binding : CombatScanBindingV5;
}.
Arguments MkTriggerOrder {_} _ _ _ _.
Arguments order_player {_} _.
Arguments order_pending {_} _.
Arguments order_prefix {_} _.
Arguments order_binding {_} _.

Record PolicySurfaceV5 (PendingTrigger : Type) := MkPolicySurface {
  inner : HarnessSurfaceV2;
  scan : option CombatScanV5;
  hunter_order_enabled_v45 : bool;
  hunter_order_v45 : option (TriggerOrderV45 PendingTrigger);
  infoset_marks : list (Z * Z * Z);
}.
Arguments MkPolicySurface {_} _ _ _ _ _.
Arguments inner {_} _.
Arguments scan {_} _.
Arguments hunter_order_enabled_v45 {_} _.
Arguments hunter_order_v45 {_} _.
Arguments infoset_marks {_} _.

(** [HarnessSurfacePublicContextV2] *)
Record HarnessSurfacePublicContextV2 := MkPublicContext {
  engine_priority_version : option Z;
  public_blockers : option BlockersReshape;
  public_discard : option DiscardReshape;
  public_optional_cost : option OptionalCostReshape;
  public_scalars : HarnessSurfaceScalarsV1;
  public_madness : option ObjectId;
}.

Definition public_context (h : HarnessSurfaceV2) : HarnessSurfacePublicContextV2 :=
  MkPublicContext (match priority_mode h with HarnessV2 => None | EngineWindowsV1 => Some 1 end)
    (blockers h) (discard h) (optional_cost h) (scalars h) (madness_cast_reprompt_exemption h).

Inductive PolicyError :=
  | StaleScanBinding | UnknownHashAlgorithm | EnvelopeError (text : bytes) | CannotRebindExact
  | EmptyOrExhaustedScan | SelectedPrefixLength | SelectedOutsidePrefix
  | CandidateIndexExceedsU32 | CandidateCountExceedsU32
  | IllegalDeclaration (error : DeclareError) | Harness (error : SurfaceError)
  | NoActiveScan | NotTheActiveStep | InclusionWithoutScan | ActionKindMismatch
  | StaleActor | StaleCandidate | StaleBlockerScanAttacker
  | InvalidRevisionTransition | RestoredRevisionMustAdvance
  | PartiallyAnsweredScan | PartiallyAnsweredOrder
  | HunterStaleEnvironment | HunterGroupShape | HunterPrefixRange | HunterPrefixRepeats | HunterNotTheGroup
  | HunterOverlapsScan | HunterOriginChanged | HunterBeginsInScan | HunterNotExclusive
  | HunterNeedsOwningRevision | NoHunterScan | HunterNeedsOneOccurrence | HunterMalformedOccurrence
  | HunterPrefixExceedsU32 | HunterGroupExceedsU32 | HunterHeader | HunterSubstepsAbsent.

(** What the surface reads of the state besides [SurfaceEngine]; [envelope_to_vec]
    is serde_json's rendering of the binding envelope of a schema version. *)
Class PolicyEngine (State PendingTrigger : Type) := {
  trigger_controller : PendingTrigger -> PlayerId;
  diagnostic_state_hash_algorithm : State -> bytes;
  diagnostic_state_hash : State -> Z;
  binding_envelope_to_vec : Z -> bytes -> Z -> HarnessSurfacePublicContextV2 -> result bytes bytes;
}.

(** [fnv1a64] *)
Definition fnv1a64 (message : bytes) : Z :=
  fold_left (fun hash byte => wrap_u64 (Z.lxor hash byte * 1099511628211)) message 14695981039346656037.

(** ** The hash that binds a scan to its state *)

Section Binding.
Context {State PendingTrigger : Type} `{!PolicyEngine State PendingTrigger}.

Definition surface_binding_envelope_bytes (s : State) (h : HarnessSurfaceV2) : result PolicyError bytes :=
  let algorithm := diagnostic_state_hash_algorithm s in
  let to_vec version :=
    match binding_envelope_to_vec version algorithm (diagnostic_state_hash s) (public_context h) with
    | Ok message => Ok message
    | Err text => Err (EnvelopeError text)
    end in
  if decide (algorithm = DIAGNOSTIC_STATE_HASH_ALGORITHM) then to_vec 1 else
  if decide (algorithm = DIAGNOSTIC_STATE_HASH_ALGORITHM_ENVIRONMENT_V2) then to_vec 2 else
  Err UnknownHashAlgorithm.

Definition surface_binding_hash (s : State) (h : HarnessSurfaceV2) : result PolicyError Z :=
  let? message := surface_binding_envelope_bytes s h in Ok (fnv1a64 message).

Definition scan_binding (s : State) (h : HarnessSurfaceV2) (mode : EnvironmentBindingModeV5)
  : result PolicyError CombatScanBindingV5 :=
  match mode with
  | Exact => let? hash := surface_binding_hash s h in Ok (ExactSurfaceHash hash)
  | OwnedRevision revision => Ok (OwnedEnvironmentRevision revision)
  end.

(** The test of [validate_binding], which the trigger order repeats. *)
Definition scan_binding_holds (s : State) (h : HarnessSurfaceV2) (b : CombatScanBindingV5)
    (mode : EnvironmentBindingModeV5) : result PolicyError bool :=
  match b, mode with
  | ExactSurfaceHash expected, Exact => let? hash := surface_binding_hash s h in Ok (hash =? expected)
  | OwnedEnvironmentRevision expected, OwnedRevision actual => Ok (actual =? expected)
  | _, _ => Ok false
  end.

Definition validate_binding (s : State) (h : HarnessSurfaceV2) (scan : CombatScanV5)
    (mode : EnvironmentBindingModeV5) : result PolicyError unit :=
  let? valid := scan_binding_holds s h (binding (progress_of scan)) mode in
  if valid then Ok tt else Err StaleScanBinding.
End Binding.

Definition rebind_owned_revision (scan : CombatScanV5) (revision : Z) : result PolicyError CombatScanV5 :=
  match binding (progress_of scan) with
  | OwnedEnvironmentRevision _ =>
      Ok (with_progress scan (with_binding (progress_of scan) (OwnedEnvironmentRevision revision)))
  | ExactSurfaceHash _ => Err CannotRebindExact
  end.

(** ** One step of a scan *)

Definition validate_shape (scan : CombatScanV5) : result PolicyError unit :=
  let p := progress_of scan in
  if decide (length (ordered_candidates p) <= cursor p)%nat then Err EmptyOrExhaustedScan else
  if decide (cursor p < length (selected p))%nat then Err SelectedPrefixLength else
  if negb (forallb (fun id => bool_decide (id ∈ take (cursor p) (ordered_candidates p))) (selected p))
  then Err SelectedOutsidePrefix else Ok tt.

(** [ordered_candidates[cursor]], which the shape puts inside the list. *)
Definition current (p : ScanProgress) : ObjectId :=
  nth (cursor p) (ordered_candidates p) (MkObjectId 0).

Definition u32_of (e : PolicyError) (n : nat) : result PolicyError Z :=
  if Z.of_nat n <=? u32_max then Ok (Z.of_nat n) else Err e.

Definition context_for (scan : CombatScanV5) (observer : PlayerId) : result PolicyError PolicySurfaceContextIdsV5 :=
  let? _ := validate_shape scan in
  let p := progress_of scan in
  let (stage, attacker) :=
    match scan with
    | Attackers _ => (StageAttackerInclusion, None)
    | Blockers attacker _ => (StageBlockerInclusion, Some attacker)
    end in
  if decide (observer = scan_player p) then
    let? index := u32_of CandidateIndexExceedsU32 (cursor p) in
    let? count := u32_of CandidateCountExceedsU32 (length (ordered_candidates p)) in
    Ok (MkContextIds stage (Some (MkSelectionIds attacker index count (selected p) (current p)
          (drop (S (cursor p)) (ordered_candidates p)))))
  else Ok (MkContextIds stage None).

Section Probe.
Context {State PendingTrigger OtherDecision OtherAction : Type}.
Context `{!CombatView State} `{!SurfaceEngine State PendingTrigger OtherDecision OtherAction}.

(** The closure [validate] of [answer_keeps_a_legal_completion]. *)
Definition validate_declared (s : State) (h : HarnessSurfaceV2) (scan : CombatScanV5) (declared : list ObjectId)
  : result PolicyError unit :=
  match scan with
  | Attackers _ =>
      match validate_declare_attackers s declared with Ok _ => Ok tt | Err e => Err (IllegalDeclaration e) end
  | Blockers attacker _ =>
      match validate_declare_blockers_for_attacker s h attacker declared with
      | Ok _ => Ok tt
      | Err e => Err (Harness e)
      end
  end.

Definition answer_keeps_a_legal_completion (s : State) (h : HarnessSurfaceV2) (scan : CombatScanV5)
    (include : bool) : result PolicyError unit :=
  let p := progress_of scan in
  let smallest := selected p ++ (if include then [current p] else []) in
  match validate_declared s h scan smallest with
  | Ok _ => Ok tt
  | Err _ => validate_declared s h scan (smallest ++ drop (S (cursor p)) (ordered_candidates p))
  end.
End Probe.

(** ** Policy decisions *)

Section Decisions.
Context {State PendingTrigger OtherDecision : Type} `{!CombatView State}.
Abbreviation policy_decision := (PolicyDecision.t PendingTrigger OtherDecision).

Definition engine_actor (d : EngineDecision.t PendingTrigger OtherDecision) : option PlayerId :=
  match d with
  | EngineDecision.CastSpellOrPass player _ _ _ _ _
  | EngineDecision.DeclareAttackers player _
  | EngineDecision.DeclareBlockers player _ _
  | EngineDecision.Discard player _ _
  | EngineDecision.ChooseOptionalCost player _ _ _
  | EngineDecision.OrderTriggers player _
  | EngineDecision.Other player _ => Some player
  | EngineDecision.GameOver _ | EngineDecision.Halted _ _ => None
  end.

(** [actor] *)
Definition decision_actor (s : State) (d : policy_decision) : option PlayerId :=
  match d with
  | PolicyDecision.Surface (SurfaceDecision.Decision d) => engine_actor d
  | PolicyDecision.Surface (SurfaceDecision.DeclareBlockersForAttacker attacker _) =>
      Some (opponent (controller_of s attacker))
  | PolicyDecision.AttackerInclusion player _ _ _
  | PolicyDecision.BlockerInclusion player _ _ _ _ => Some player
  end.

Definition substep (d : policy_decision) : Z * Z :=
  match d with
  | PolicyDecision.Surface _ => (0, 1)
  | PolicyDecision.AttackerInclusion _ _ candidate_index candidate_count
  | PolicyDecision.BlockerInclusion _ _ _ candidate_index candidate_count => (candidate_index, candidate_count)
  end.

Definition is_terminal (d : policy_decision) : bool :=
  match d with
  | PolicyDecision.Surface (SurfaceDecision.Decision (EngineDecision.GameOver _ | EngineDecision.Halted _ _)) => true
  | _ => false
  end.

Definition policy_decision_for_scan (scan : CombatScanV5) : result PolicyError policy_decision :=
  let? _ := validate_shape scan in
  let p := progress_of scan in
  let? index := u32_of CandidateIndexExceedsU32 (cursor p) in
  let? count := u32_of CandidateCountExceedsU32 (length (ordered_candidates p)) in
  Ok match scan with
     | Attackers p => PolicyDecision.AttackerInclusion (scan_player p) (current p) index count
     | Blockers attacker p => PolicyDecision.BlockerInclusion (scan_player p) attacker (current p) index count
     end.

Definition order_origin (player : PlayerId) (pending : list PendingTrigger) : policy_decision :=
  PolicyDecision.Surface (SurfaceDecision.Decision (EngineDecision.OrderTriggers player pending)).
End Decisions.

(** ** The surface *)

Section PolicySurface.
Context {State PendingTrigger OtherDecision OtherAction : Type}.
Context `{!EqDecision State} `{!EqDecision PendingTrigger} `{!EqDecision OtherDecision}.
Context `{!CombatView State} `{!SurfaceEngine State PendingTrigger OtherDecision OtherAction}.
Context `{!PolicyEngine State PendingTrigger}.
Abbreviation surface := (PolicySurfaceV5 PendingTrigger).
Abbreviation decision := (PolicyDecision.t PendingTrigger OtherDecision).
Abbreviation action := (PolicyAction.t OtherAction).
Implicit Types s : State.
Implicit Types p : surface.

Definition with_inner p (h : HarnessSurfaceV2) : surface :=
  MkPolicySurface h (scan p) (hunter_order_enabled_v45 p) (hunter_order_v45 p) (infoset_marks p).
Definition with_scan p (sc : option CombatScanV5) : surface :=
  MkPolicySurface (inner p) sc (hunter_order_enabled_v45 p) (hunter_order_v45 p) (infoset_marks p).
Definition with_order p (o : option (TriggerOrderV45 PendingTrigger)) : surface :=
  MkPolicySurface (inner p) (scan p) (hunter_order_enabled_v45 p) o (infoset_marks p).

Definition policy_surface_new (mode : PriorityModeV1) (audit : SuppressionAuditMode) : surface :=
  MkPolicySurface (new_with_priority_mode_v1 mode audit) None false None [].

Definition enable_hunter_order_v45 p : surface :=
  MkPolicySurface (inner p) (scan p) true (hunter_order_v45 p) (infoset_marks p).

Definition scan_active p : bool := match scan p with Some _ => true | None => false end.

Definition discard_scan p : surface * result PolicyError unit :=
  match scan p with
  | None => (p, Ok tt)
  | Some sc =>
      if decide (cursor (progress_of sc) = 0)%nat then (with_scan p None, Ok tt)
      else (p, Err PartiallyAnsweredScan)
  end.

Definition discard_unanswered_scan p : surface * result PolicyError unit :=
  match hunter_order_v45 p with
  | Some order =>
      if decide (order_prefix order <> []) then (p, Err PartiallyAnsweredOrder) else
      discard_scan (with_order p None)
  | None => discard_scan p
  end.

Definition scan_context_for p (observer : PlayerId) : result PolicyError PolicySurfaceContextIdsV5 :=
  match scan p with
  | Some sc => context_for sc observer
  | None => Ok (MkContextIds StageSurface None)
  end.

Definition privileged_scan_context p : result PolicyError PolicySurfaceContextIdsV5 :=
  match scan p with
  | Some sc => context_for sc (scan_player (progress_of sc))
  | None => Ok (MkContextIds StageSurface None)
  end.

Definition scan_context_for_owned_revision_v1 p s (observer : PlayerId) (revision : Z)
  : result PolicyError PolicySurfaceContextIdsV5 :=
  let? _ := match scan p with
            | Some sc => validate_binding s (inner p) sc (OwnedRevision revision)
            | None => Ok tt
            end in
  scan_context_for p observer.

(** The answers [include: false] and [include: true]. *)
Definition feasible_scan_answers p s (d : decision) : result PolicyError (bool * bool) :=
  match scan p with
  | None => Err NoActiveScan
  | Some sc =>
      let? active := policy_decision_for_scan sc in
      if decide (active <> d) then Err NotTheActiveStep else
      Ok (is_ok (answer_keeps_a_legal_completion s (inner p) sc false),
          is_ok (answer_keeps_a_legal_completion s (inner p) sc true))
  end.

(** ** Ordering a large group of triggers *)

Fixpoint check_prefix (seen : list nat) (len : nat) (prefix : list nat) : result PolicyError unit :=
  match prefix with
  | [] => Ok tt
  | index :: prefix =>
      if decide (len <= index)%nat then Err HunterPrefixRange else
      if decide (index ∈ seen) then Err HunterPrefixRepeats else
      check_prefix (index :: seen) len prefix
  end.

(** [TriggerOrderV45::validate] *)
Definition order_validate s (h : HarnessSurfaceV2) (order : TriggerOrderV45 PendingTrigger)
    (mode : EnvironmentBindingModeV5) : result PolicyError unit :=
  let? valid := scan_binding_holds s h (order_binding order) mode in
  if negb valid then Err HunterStaleEnvironment else
  if bool_decide (length (order_pending order) <= MAX_TRIGGER_ORDER_OBJECTS
                  \/ length (order_pending order) <= length (order_prefix order))%nat
     || existsb (fun t => bool_decide (trigger_controller t <> order_player order)) (order_pending order)
  then Err HunterGroupShape else
  let? _ := check_prefix [] (length (order_pending order)) (order_prefix order) in
  let (probe, actual) := advance_until_decision s in
  if decide (probe <> s
             \/ actual <> EngineDecision.OrderTriggers (order_player order) (order_pending order))
  then Err HunterNotTheGroup else Ok tt.

Definition initialize_hunter_order_v45 p s (origin : decision) (revision : Z) : result PolicyError surface :=
  if negb (hunter_order_enabled_v45 p) then Ok p else
  match hunter_order_v45 p with
  | Some order =>
      if scan_active p then Err HunterOverlapsScan else
      let? _ := order_validate s (inner p) order (OwnedRevision revision) in
      if decide (origin <> order_origin (order_player order) (order_pending order))
      then Err HunterOriginChanged else Ok p
  | None =>
      match origin with
      | PolicyDecision.Surface (SurfaceDecision.Decision (EngineDecision.OrderTriggers player pending)) =>
          if decide (MAX_TRIGGER_ORDER_OBJECTS < length pending)%nat then
            if scan_active p then Err HunterBeginsInScan else
            let order := MkTriggerOrder player pending [] (OwnedEnvironmentRevision revision) in
            let? _ := order_validate s (inner p) order (OwnedRevision revision) in
            Ok (with_order p (Some order))
          else Ok p
      | _ => Ok p
      end
  end.

Definition mode_of (b : CombatScanBindingV5) : EnvironmentBindingModeV5 :=
  match b with OwnedEnvironmentRevision r => OwnedRevision r | ExactSurfaceHash _ => Exact end.

Definition hunter_order_parts_v45 p s : result PolicyError (option (TriggerOrderV45 PendingTrigger)) :=
  match hunter_order_v45 p with
  | None => Ok None
  | Some order =>
      if negb (hunter_order_enabled_v45 p) || scan_active p then Err HunterNotExclusive else
      let? _ := order_validate s (inner p) order (mode_of (order_binding order)) in
      Ok (Some order)
  end.

Definition hunter_order_substeps_v45 p s : result PolicyError (option (Z * Z)) :=
  let? parts := hunter_order_parts_v45 p s in
  match parts with
  | None => Ok None
  | Some order =>
      let? prefix := u32_of HunterPrefixExceedsU32 (length (order_prefix order)) in
      let? pending := u32_of HunterGroupExceedsU32 (length (order_pending order)) in
      Ok (Some (prefix, pending))
  end.

Definition validate_hunter_order_header_v45 p s (revision : Z) (origin : decision) (substeps : Z * Z)
  : result PolicyError bool :=
  match hunter_order_v45 p with
  | None => Ok false
  | Some order =>
      let? _ := order_validate s (inner p) order (OwnedRevision revision) in
      if decide (origin <> order_origin (order_player order) (order_pending order)) then Err HunterHeader else
      let? actual := hunter_order_substeps_v45 p s in
      if decide (actual <> Some substeps) then Err HunterHeader else Ok true
  end.

(** What an action against the active order must be; it gives the longer prefix. *)
Definition validate_hunter_order_action_v45 p s (a : action) (mode : EnvironmentBindingModeV5)
  : result PolicyError (TriggerOrderV45 PendingTrigger * list nat) :=
  match hunter_order_v45 p with
  | None => Err NoHunterScan
  | Some order =>
      let? _ := order_validate s (inner p) order mode in
      match a with
      | PolicyAction.Surface (SurfaceAction.Action (EngineAction.OrderTriggers next)) =>
          if bool_decide (length next <> S (length (order_prefix order))
                          \/ take (length (order_prefix order)) next <> order_prefix order)
             || match last next with
                | None => true
                | Some index => bool_decide (length (order_pending order) <= index \/ index ∈ order_prefix order)%nat
                end
          then Err HunterMalformedOccurrence else Ok (order, next)
      | _ => Err HunterNeedsOneOccurrence
      end
  end.

(** The surface behind the policy surface. *)
Definition apply_inner p s (a : SurfaceAction.t OtherAction) : surface * State * result PolicyError unit :=
  let '(h, s, r) := surface_apply s (inner p) a in
  (with_inner p h, s, match r with Ok _ => Ok tt | Err e => Err (Harness e) end).

Definition apply_hunter_order_v45 p s (a : action) (mode : EnvironmentBindingModeV5) (next_revision : option Z)
  : surface * State * result PolicyError unit :=
  match validate_hunter_order_action_v45 p s a mode with
  | Err e => (p, s, Err e)
  | Ok (order, next) =>
      if decide (length next < length (order_pending order))%nat then
        let b := match next_revision with
                 | Some revision => OwnedEnvironmentRevision revision
                 | None => order_binding order
                 end in
        (with_order p (Some (MkTriggerOrder (order_player order) (order_pending order) next b)), s, Ok tt)
      else
        let '(p, s, r) := apply_inner p s (SurfaceAction.Action (EngineAction.OrderTriggers next)) in
        match r with
        | Err e => (p, s, Err e)
        | Ok _ => (with_order p None, s, Ok tt)
        end
  end.

(** ** Presenting a decision *)

(** The three arms of [next_decision_with_binding] on a decision of the inner
    surface. *)
Definition open_scan p s (mode : EnvironmentBindingModeV5) (build : ScanProgress -> CombatScanV5)
    (player : PlayerId) (candidates : list ObjectId) : surface * State * result PolicyError decision :=
  match scan_binding s (inner p) mode with
  | Err e => (p, s, Err e)
  | Ok b =>
      let sc := build (MkProgress player candidates 0 [] b) in
      (with_scan p (Some sc), s, policy_decision_for_scan sc)
  end.

Definition present_other p s (mode : EnvironmentBindingModeV5) (sd : SurfaceDecision.t PendingTrigger OtherDecision)
  : surface * State * result PolicyError decision :=
  let origin := PolicyDecision.Surface sd in
  let large :=
    match sd with
    | SurfaceDecision.Decision (EngineDecision.OrderTriggers _ pending) =>
        bool_decide (MAX_TRIGGER_ORDER_OBJECTS < length pending)%nat
    | _ => false
    end in
  if hunter_order_enabled_v45 p && large then
    match mode with
    | Exact => (p, s, Err HunterNeedsOwningRevision)
    | OwnedRevision revision =>
        match initialize_hunter_order_v45 p s origin revision with
        | Err e => (p, s, Err e)
        | Ok p => (p, s, Ok origin)
        end
    end
  else (p, s, Ok origin).

Definition present p s (mode : EnvironmentBindingModeV5) (sd : SurfaceDecision.t PendingTrigger OtherDecision)
  : surface * State * result PolicyError decision :=
  match sd with
  | SurfaceDecision.Decision (EngineDecision.DeclareAttackers player ((_ :: _) as eligible)) =>
      open_scan p s mode Attackers player eligible
  | SurfaceDecision.DeclareBlockersForAttacker attacker ((_ :: _) as legal_blockers) =>
      open_scan p s mode (Blockers attacker) (opponent (controller_of s attacker)) legal_blockers
  | _ => present_other p s mode sd
  end.

(** [Err tt] is a panic; [None] means that the fuel of the inner loop ran out. *)
Definition next_decision_with_binding (fuel : nat) p s (mode : EnvironmentBindingModeV5)
  : option (result unit (surface * State * result PolicyError decision)) :=
  match hunter_order_v45 p with
  | Some order =>
      let origin := order_origin (order_player order) (order_pending order) in
      match mode with
      | Exact => Some (Ok (p, s, Err HunterNeedsOwningRevision))
      | OwnedRevision revision =>
          match initialize_hunter_order_v45 p s origin revision with
          | Err e => Some (Ok (p, s, Err e))
          | Ok p => Some (Ok (p, s, Ok origin))
          end
      end
  | None =>
      match scan p with
      | Some sc =>
          Some (Ok (p, s, let? _ := validate_binding s (inner p) sc mode in policy_decision_for_scan sc))
      | None =>
          match next_decision fuel s (inner p) with
          | None => None
          | Some (Err tt) => Some (Err tt)
          | Some (Ok (h, s, sd)) => Some (Ok (present (with_inner p h) s mode sd))
          end
      end
  end.

Definition rebind_owned_revision_after_restore_v1 p s (previous next : Z) : surface * result PolicyError unit :=
  if decide (next <= previous) then (p, Err RestoredRevisionMustAdvance) else
  match
    let? _ := match scan p with
              | Some sc =>
                  let? _ := validate_binding s (inner p) sc (OwnedRevision previous) in validate_shape sc
              | None => Ok tt
              end in
    match hunter_order_v45 p with
    | Some order =>
        let? substeps := hunter_order_substeps_v45 p s in
        match substeps with
        | None => Err HunterSubstepsAbsent
        | Some substeps =>
            let? _ := validate_hunter_order_header_v45 p s previous
                        (order_origin (order_player order) (order_pending order)) substeps in
            Ok tt
        end
    | None => Ok tt
    end
  with
  | Err e => (p, Err e)
  | Ok _ =>
      let b := OwnedEnvironmentRevision next in
      let p := with_scan p (sc ← scan p; Some (with_progress sc (with_binding (progress_of sc) b))) in
      (with_order p (order ← hunter_order_v45 p;
                     Some (MkTriggerOrder (order_player order) (order_pending order) (order_prefix order) b)),
       Ok tt)
  end.

(** ** Answering *)

(** The action against the active step of the scan: the answer. *)
Definition scan_answer (sc : CombatScanV5) (a : action) : result PolicyError bool :=
  let bind (actor : PlayerId) (candidate : ObjectId) (include : bool) :=
    if decide (actor <> scan_player (progress_of sc)) then Err StaleActor else
    if decide (candidate <> current (progress_of sc)) then Err StaleCandidate else Ok include in
  match sc, a with
  | Attackers _, PolicyAction.ChooseAttackerInclusion actor attacker include => bind actor attacker include
  | Blockers attacker _, PolicyAction.ChooseBlockerInclusion actor action_attacker blocker include =>
      if decide (action_attacker <> attacker) then Err StaleBlockerScanAttacker else bind actor blocker include
  | _, _ => Err ActionKindMismatch
  end.

Definition validate_fast_actor_current_action p s (a : action) (current_revision next_revision : Z)
  : result PolicyError unit :=
  if decide (checked_add_u64 current_revision 1 <> Some next_revision) then Err InvalidRevisionTransition else
  match hunter_order_v45 p with
  | Some _ =>
      let? _ := validate_hunter_order_action_v45 p s a (OwnedRevision current_revision) in Ok tt
  | None =>
      match scan p with
      | None => match a with PolicyAction.Surface _ => Ok tt | _ => Err InclusionWithoutScan end
      | Some sc =>
          let? _ := validate_binding s (inner p) sc (OwnedRevision current_revision) in
          let? _ := validate_shape sc in
          let? include := scan_answer sc a in
          answer_keeps_a_legal_completion s (inner p) sc include
      end
  end.

(** The answered step. *)
Definition advance_scan (pr : ScanProgress) (include : bool) : ScanProgress :=
  MkProgress (scan_player pr) (ordered_candidates pr) (S (cursor pr))
    (selected pr ++ (if include then [current pr] else [])) (binding pr).

(** The declaration a finished scan commits. *)
Definition scan_aggregate (sc : CombatScanV5) : SurfaceAction.t OtherAction :=
  match sc with
  | Attackers pr => SurfaceAction.Action (EngineAction.DeclareAttackers (selected pr))
  | Blockers _ pr => SurfaceAction.DeclareBlockersForAttacker (selected pr)
  end.

Definition apply_scan p s (sc : CombatScanV5) (a : action) (mode : EnvironmentBindingModeV5)
    (next_owned_revision : option Z) : surface * State * result PolicyError unit :=
  match
    let? _ := validate_binding s (inner p) sc mode in
    let? _ := validate_shape sc in
    let? include := scan_answer sc a in
    let pr := progress_of sc in
    let completes := bool_decide (S (cursor pr) = length (ordered_candidates pr)) in
    let? _ := if completes then Ok tt else answer_keeps_a_legal_completion s (inner p) sc include in
    Ok (with_progress sc (advance_scan pr include), completes)
  with
  | Err e => (p, s, Err e)
  | Ok (sc, false) =>
      match next_owned_revision with
      | None => (with_scan p (Some sc), s, Ok tt)
      | Some revision =>
          match rebind_owned_revision sc revision with
          | Ok sc => (with_scan p (Some sc), s, Ok tt)
          | Err e => (with_scan p (Some sc), s, Err e)
          end
      end
  | Ok (sc, true) =>
      let '(p, s, r) := apply_inner (with_scan p (Some sc)) s (scan_aggregate sc) in
      match r with
      | Err e => (p, s, Err e)
      | Ok _ => (with_scan p None, s, Ok tt)
      end
  end.

Definition apply_in_place p s (a : action) (mode : EnvironmentBindingModeV5) (next_owned_revision : option Z)
  : surface * State * result PolicyError unit :=
  match hunter_order_v45 p with
  | Some _ => apply_hunter_order_v45 p s a mode next_owned_revision
  | None =>
      match scan p with
      | None =>
          match a with
          | PolicyAction.Surface a => apply_inner p s a
          | _ => (p, s, Err InclusionWithoutScan)
          end
      | Some sc => apply_scan p s sc a mode next_owned_revision
      end
  end.

(** [apply] and [apply_owned] work on clones and keep them on success. *)
Definition commit_clone p s (r : surface * State * result PolicyError unit)
  : surface * State * result PolicyError unit :=
  match r with
  | (next_surface, next_state, Ok _) => (next_surface, next_state, Ok tt)
  | (_, _, Err e) => (p, s, Err e)
  end.

Definition policy_apply p s (a : action) : surface * State * result PolicyError unit :=
  commit_clone p s (apply_in_place p s a Exact None).

Definition apply_owned p s (a : action) (current_revision next_revision : Z)
  : surface * State * result PolicyError unit :=
  if decide (checked_add_u64 current_revision 1 <> Some next_revision)
  then (p, s, Err InvalidRevisionTransition)
  else commit_clone p s (apply_in_place p s a (OwnedRevision current_revision) (Some next_revision)).

(** A proof token of the session: its surface, compared by address, the action
    and the revisions; [owned] is the comparison. *)
Record FastActorCurrentCandidateProofV1 := MkCandidateProof {
  owned : bool;
  proof_action : action;
  current_revision : Z;
  next_revision : Z;
}.

Definition apply_fast_actor_current_candidate_in_place p s (proof : FastActorCurrentCandidateProofV1)
  : surface * State * result FastActorInPlaceApplyErrorV1 unit :=
  if negb (owned proof) then (p, s, Err RejectedBeforeMutation) else
  match validate_fast_actor_current_action p s (proof_action proof) (current_revision proof) (next_revision proof) with
  | Err _ => (p, s, Err RejectedBeforeMutation)
  | Ok _ =>
      let '(p, s, r) := apply_in_place p s (proof_action proof) (OwnedRevision (current_revision proof))
                          (Some (next_revision proof)) in
      (p, s, match r with Ok _ => Ok tt | Err _ => Err InternalApplyFailure end)
  end.

(** ** Marks of the presented decisions *)

Definition push_infoset_mark_v1 p (player : PlayerId) (events notes : Z) : surface :=
  let mark := (player_num player, events mod 2 ^ 32, notes mod 2 ^ 32) in
  if decide (last (infoset_marks p) = Some mark) then p else
  MkPolicySurface (inner p) (scan p) (hunter_order_enabled_v45 p) (hunter_order_v45 p) (infoset_marks p ++ [mark]).

Definition infoset_marks_v1 p (player : PlayerId) : list (Z * Z) :=
  map (fun m => (m.1.2, m.2)) (filter (fun m => m.1.1 = player_num player) (infoset_marks p)).

(** [carry_infoset_marks_v1] *)
Definition carry_infoset_marks_v1 p (from : surface) : surface :=
  MkPolicySurface (inner p) (scan p) (hunter_order_enabled_v45 p) (hunter_order_v45 p) (infoset_marks from).
End PolicySurface.
