(* ===== verification/CombatFacts.v ===== *)
(** * What the declaration validators accept

    [legal_attack] and [legal_block] say it without the order of the checks; the
    validators accept exactly those. *)

From S2P Require Import Prelude Ids CombatRules.

Local Open Scope Z_scope.

Lemma remove_dups_length {A} `{!EqDecision A} (l : list A) :
  length (remove_dups l) = length l <-> NoDup l.
Proof.
  split.
  - induction l as [|x l IH]; [constructor|]. cbn.
    assert (length (remove_dups l) <= length l)%nat as Hle.
    { clear. induction l as [|y l IH]; cbn; [lia|]. case_decide; cbn; lia. }
    case_decide as Hx; cbn; [lia|]. intros [= E]. constructor; auto.
  - induction 1 as [|x l Hx _ IH]; [done|]. cbn. case_decide; [done|]. cbn. lia.
Qed.

Lemma forallb_bool_decide {A} (P : A -> Prop) `{!forall a, base.Decision (P a)} l :
  forallb (fun a => bool_decide (P a)) l = true <-> Forall P l.
Proof.
  rewrite forallb_forall, list.Forall_forall. split; intros Hl x Hx.
  - eapply bool_decide_eq_true, Hl. by apply list_elem_of_In.
  - apply bool_decide_eq_true, Hl. by apply list_elem_of_In.
Qed.

Section Facts.
Context {State : Type} `{!CombatView State}.
Implicit Types s : State.

(** A legal attack: eligible creatures, none twice, all the required ones. *)
Record legal_attack s (attackers : list ObjectId) : Prop := {
  attack_step : step_of s = Step.DeclareAttackers;
  attack_open : attackers_declared s = false;
  attack_eligible : attackers ⊆ eligible_attackers s;
  attack_goaded : required_goaded_attackers s (eligible_attackers s) ⊆ attackers;
  attack_required : required_attackers s (eligible_attackers s) ⊆ attackers;
  attack_NoDup : NoDup attackers;
}.

(** A legal block: every blocker may block its attacker and blocks once, and a
    blocked attacker has its minimum. *)
Record legal_block s (blocks : list (ObjectId * ObjectId)) : Prop := {
  block_step : step_of s = Step.DeclareBlockers;
  block_open : blockers_declared s = false;
  block_pairs : forall b a, (b, a) ∈ blocks -> a ∈ live_attackers s /\ b ∈ legal_blockers_for s a;
  block_NoDup : NoDup (map fst blocks);
  block_minimum : forall a, a ∈ live_attackers s ->
    assigned_to blocks a = [] \/ minimum_blockers_required s a <= Z.of_nat (length (assigned_to blocks a));
}.
Lemma forallb_not_all {A} (P : A -> Prop) `{!forall a, base.Decision (P a)} l :
  negb (forallb (fun a => bool_decide (P a)) l) = false <-> Forall P l.
Proof. by rewrite negb_false_iff, forallb_bool_decide. Qed.

Lemma validate_attackers_ok s attackers :
  validate_declare_attackers s attackers = Ok tt <-> legal_attack s attackers.
Proof.
  unfold validate_declare_attackers.
  destruct (bool_decide _ || _) eqn:E0.
  { split; [done|]. intros [H1 H2 _ _ _ _]. rewrite H2, orb_false_r in E0.
    by apply bool_decide_eq_true in E0. }
  bool_to_prop. apply dec_stable in H.
  destruct (negb _) eqn:E1.
  { split; [done|]. intros [_ _ H' _ _ _]. exfalso. apply negb_true_iff, not_true_iff_false in E1.
    apply E1, forallb_bool_decide. by rewrite list.Forall_forall. }
  rewrite forallb_not_all, list.Forall_forall in E1.
  destruct (negb _) eqn:E2.
  { split; [done|]. intros [_ _ _ H' _ _]. exfalso. apply negb_true_iff, not_true_iff_false in E2.
    apply E2, forallb_bool_decide. by rewrite list.Forall_forall. }
  rewrite forallb_not_all, list.Forall_forall in E2.
  destruct (negb _) eqn:E3.
  { split; [done|]. intros [_ _ _ _ H' _]. exfalso. apply negb_true_iff, not_true_iff_false in E3.
    apply E3, forallb_bool_decide. by rewrite list.Forall_forall. }
  rewrite forallb_not_all, list.Forall_forall in E3.
  case_decide as HN; split.
  - done.
  - intros [_ _ _ _ _ HD]. by apply remove_dups_length in HD.
  - intros _. apply remove_dups_length in HN. by constructor.
  - done.
Qed.

(** ** Blocks *)

Lemma check_block_ok s attackers used b a used' :
  check_block s attackers used (b, a) = Ok used' <->
  a ∈ attackers /\ b ∈ legal_blockers_for s a /\ (b ∉ used) /\ used' = used ++ [b].
Proof.
  unfold check_block. repeat case_decide; split; try done.
  - by intros (? & _).
  - by intros (_ & ? & _).
  - by intros (_ & _ & ? & _).
  - intros [= <-]. repeat split; try done; by apply dec_stable.
  - by intros (_ & _ & _ & ->).
Qed.

Lemma check_blocks_ok s attackers blocks : forall used used',
  try_fold (check_block s attackers) used blocks = Ok used' <->
  (forall b a, (b, a) ∈ blocks -> a ∈ attackers /\ b ∈ legal_blockers_for s a)
  /\ NoDup (map fst blocks) /\ (forall b, b ∈ map fst blocks -> b ∉ used)
  /\ used' = used ++ map fst blocks.
Proof.
  induction blocks as [|[b a] blocks IH]; intros used used'; cbn [try_fold map].
  { split.
    - intros [= <-]. rewrite app_nil_r. repeat split; try by intros ? ?%elem_of_nil.
      + by apply elem_of_nil in H.
      + by apply elem_of_nil in H.
      + constructor.
    - intros (_ & _ & _ & ->). by rewrite app_nil_r. }
  rewrite result_bind_ok. cbn [fst]. split.
  - intros (u & (Ha & Hb & Hu & ->)%check_block_ok & (Hp & HN & Hd & ->)%IH). repeat split.
    + apply elem_of_cons in H as [[= -> ->]|H]; [done|]. by apply (Hp b0 a0).
    + apply elem_of_cons in H as [[= -> ->]|H]; [done|]. by apply (Hp b0 a0).
    + constructor; [|done]. intros Hin. apply (Hd b Hin), elem_of_app. right. by left.
    + intros b' [->|Hin]%elem_of_cons; [done|]. intros Hu'. apply (Hd b' Hin), elem_of_app. by left.
    + by rewrite <-app_assoc.
  - intros (Hp & [Hnb HN]%NoDup_cons & Hd & ->). exists (used ++ [b]). split.
    + apply check_block_ok. destruct (Hp b a) as [??]; [by left|]. repeat split; try done. apply Hd. by left.
    + apply IH. repeat split; [| |done| |by rewrite <-app_assoc].
      * by apply (Hp b0 a0); right.
      * by apply (Hp b0 a0); right.
      * intros b' Hin [Hu|Hu]%elem_of_app; [apply (Hd b'); [by right|done]|].
        apply list_elem_of_singleton in Hu as ->. done.
Qed.

Lemma check_minimum_ok s blocks u a :
  check_minimum s blocks u a = Ok tt <->
  assigned_to blocks a = [] \/ minimum_blockers_required s a <= Z.of_nat (length (assigned_to blocks a)).
Proof.
  unfold check_minimum. destruct (assigned_to blocks a) as [|x l]; cbn [length Z.of_nat].
  { cbn. naive_solver. }
  destruct (_ && _) eqn:E; split; try done.
  - bool_to_prop. intros [?|?]; [done|]. lia.
  - intros _. right. apply andb_false_iff in E as [E|E].
    + apply negb_false_iff, Z.eqb_eq in E. lia.
    + by apply Z.ltb_ge in E.
Qed.

Lemma check_minima_ok s blocks l :
  try_fold (check_minimum s blocks) tt l = Ok tt <->
  forall a, a ∈ l ->
    assigned_to blocks a = [] \/ minimum_blockers_required s a <= Z.of_nat (length (assigned_to blocks a)).
Proof.
  induction l as [|a l IH]; cbn [try_fold].
  { split; [|done]. by intros _ a ?%elem_of_nil. }
  rewrite result_bind_ok. split.
  - intros ([] & Ha%check_minimum_ok & Hl) a' [->|Hin]%elem_of_cons; [done|]. by apply IH.
  - intros H. exists tt. split; [apply check_minimum_ok, H; by left|]. apply IH. intros a' Hin. apply H. by right.
Qed.

Lemma validate_blockers_ok s blocks :
  validate_declare_blockers s blocks = Ok tt <-> legal_block s blocks.
Proof.
  unfold validate_declare_blockers. destruct (bool_decide _ || _) eqn:E0.
  { split; [done|]. intros [H1 H2 _ _ _]. rewrite H2, orb_false_r in E0.
    by apply bool_decide_eq_true in E0. }
  bool_to_prop. apply dec_stable in H. rewrite result_bind_ok. split.
  - intros (u & (Hp & HN & _ & _)%check_blocks_ok & Hm). rewrite check_minima_ok in Hm.
    by constructor.
  - intros [_ _ Hp HN Hm]. eexists. rewrite check_blocks_ok, check_minima_ok. repeat split; try done.
    + by apply Hp in H1 as [].
    + by apply Hp in H1 as [].
    + by intros b _ ?%elem_of_nil.
Qed.

Lemma minimum_is_positive s a : 1 <= minimum_blockers_required s a.
Proof. unfold minimum_blockers_required. lia. Qed.

Lemma assigned_app blocks1 blocks2 a :
  assigned_to (blocks1 ++ blocks2) a = assigned_to blocks1 a ++ assigned_to blocks2 a.
Proof. apply filter_app. Qed.

Lemma assigned_to_same ids a : assigned_to (map (fun b => (b, a)) ids) a = map (fun b => (b, a)) ids.
Proof.
  induction ids as [|b ids IH]; [done|]. unfold assigned_to in *. cbn [map].
  by rewrite filter_cons_True, IH.
Qed.

Lemma assigned_to_other ids a a' : a <> a' -> assigned_to (map (fun b => (b, a)) ids) a' = [].
Proof.
  intros Hne. induction ids as [|b ids IH]; [done|]. unfold assigned_to in *. cbn [map].
  by rewrite filter_cons_False, IH.
Qed.

Lemma map_fst_pair (ids : list ObjectId) (a : ObjectId) : map fst (map (fun b => (b, a)) ids) = ids.
Proof. induction ids as [|b ids IH]; [done|]. cbn. by rewrite IH. Qed.

(** ** Widening a legal declaration *)

(** An attack stays legal when eligible creatures join it. *)
Lemma legal_attack_widens s l l' :
  legal_attack s l -> l ⊆ l' -> l' ⊆ eligible_attackers s -> NoDup l' -> legal_attack s l'.
Proof. intros [????? ?] Hsub He HN. constructor; try done; by etrans. Qed.

(** So does the block of one attacker that already has a blocker, and emptying it
    leaves the others. *)
Lemma legal_block_widens s acc a ids ids' :
  legal_block s (acc ++ map (fun b => (b, a)) ids) ->
  assigned_to (acc ++ map (fun b => (b, a)) ids) a <> [] ->
  ids ⊆ ids' -> ids' ⊆ legal_blockers_for s a -> NoDup (map fst acc ++ ids') ->
  (length ids <= length ids')%nat ->
  legal_block s (acc ++ map (fun b => (b, a)) ids').
Proof.
  intros [H1 H2 Hp _ Hm] Hne Hsub Hl HN Hlen. constructor; try done.
  - intros b a' Hin. apply elem_of_app in Hin as [Hin|Hin].
    + apply Hp. apply elem_of_app. by left.
    + apply list_elem_of_fmap in Hin as (b' & [= -> ->] & Hb'). split; [|by apply Hl].
      destruct (assigned_to (acc ++ map (fun b => (b, a)) ids) a) as [|[b0 a0] rest] eqn:E; [done|].
      assert ((b0, a0) ∈ assigned_to (acc ++ map (fun b => (b, a)) ids) a) as Hin by (rewrite E; left).
      apply list_elem_of_filter in Hin as [Ha0 Hin]. cbn in Ha0. subst a0. by apply Hp in Hin as [].
  - by rewrite map_app, map_fst_pair.
  - intros a' Ha'. rewrite assigned_app. destruct (decide (a = a')) as [<-|Hna].
    + right. destruct (Hm a Ha') as [E|Hge]; [done|]. rewrite assigned_app, assigned_to_same in Hge.
      rewrite assigned_to_same. rewrite length_app, length_map in *. lia.
    + rewrite assigned_to_other, app_nil_r by done. specialize (Hm a' Ha').
      by rewrite assigned_app, assigned_to_other, app_nil_r in Hm by done.
Qed.

Lemma legal_block_empties s acc a ids ids' :
  legal_block s (acc ++ map (fun b => (b, a)) ids) ->
  assigned_to (acc ++ map (fun b => (b, a)) ids) a = [] -> ids' = [] ->
  legal_block s (acc ++ map (fun b => (b, a)) ids').
Proof.
  intros Hl E ->. rewrite assigned_app, assigned_to_same in E. apply app_eq_nil in E as [_ E].
  by apply map_eq_nil in E as ->.
Qed.
End Facts.
