(* ===== verification/ScanFacts.v ===== *)
(** * The answers a combat scan accepts, and whole scans

    [answer_keeps_a_legal_completion] looks at two completions of the declaration,
    the smallest and the largest. For a scan over creatures that may attack, or that
    may block and do not block yet, this decides whether any completion is legal.
    Then a scan answered to its end in an owning session, where the environment
    revision grows by one with every answer: each step, and the declaration the last
    one commits; and the in-place path of the fast actor next to the copying one. *)

From S2P Require Import Prelude Ids CombatRules Surface PolicySurface CombatFacts.

Local Open Scope Z_scope.

Section Probe.
Context {State : Type} `{!CombatView State}.
Implicit Types s : State.

(** The candidates may be declared, as far as each alone is concerned. *)
Definition candidates_fit s (h : HarnessSurfaceV2) (sc : CombatScanV5) : Prop :=
  match sc with
  | Attackers pr => ordered_candidates pr ⊆ eligible_attackers s
  | Blockers attacker pr =>
      ordered_candidates pr ⊆ legal_blockers_for s attacker
      /\ forall reshape, blockers h = Some reshape ->
         forall c, c ∈ ordered_candidates pr -> c ∉ map fst (accumulated reshape)
  end.

(** The scan stands before an answer; its selection is part of the answered prefix. *)
Record scan_wf s (h : HarnessSurfaceV2) (sc : CombatScanV5) : Prop := {
  wf_cursor : (cursor (progress_of sc) < length (ordered_candidates (progress_of sc)))%nat;
  wf_selected : selected (progress_of sc)
                `sublist_of` take (cursor (progress_of sc)) (ordered_candidates (progress_of sc));
  wf_NoDup : NoDup (ordered_candidates (progress_of sc));
  wf_fit : candidates_fit s h sc;
}.

(** The candidates after the current one, and the selection with the answer. *)
Definition later (pr : ScanProgress) : list ObjectId := drop (S (cursor pr)) (ordered_candidates pr).
Definition answered (pr : ScanProgress) (include : bool) : list ObjectId :=
  selected pr ++ (if include then [current pr] else []).

(** ** Lists of candidates *)

Lemma candidates_split pr :
  (cursor pr < length (ordered_candidates pr))%nat ->
  ordered_candidates pr = take (cursor pr) (ordered_candidates pr) ++ current pr :: later pr.
Proof.
  intros Hc. unfold current, later. destruct (ordered_candidates pr !! cursor pr) as [c|] eqn:E.
  - rewrite (nth_lookup_Some _ _ _ _ E). symmetry. by apply take_drop_middle.
  - apply lookup_ge_None in E. lia.
Qed.

Lemma answered_sublist pr include :
  (cursor pr < length (ordered_candidates pr))%nat ->
  selected pr `sublist_of` take (cursor pr) (ordered_candidates pr) ->
  answered pr include `sublist_of` take (S (cursor pr)) (ordered_candidates pr).
Proof.
  intros Hc Hs. unfold answered, current.
  destruct (ordered_candidates pr !! cursor pr) as [c|] eqn:E; [|apply lookup_ge_None in E; lia].
  rewrite (take_S_r _ _ _ E), (nth_lookup_Some _ _ _ _ E). apply sublist_app; [done|].
  destruct include; [done|]. apply sublist_nil_l.
Qed.

Lemma completion_sublist pr include rest :
  (cursor pr < length (ordered_candidates pr))%nat ->
  selected pr `sublist_of` take (cursor pr) (ordered_candidates pr) ->
  rest `sublist_of` later pr ->
  answered pr include ++ rest `sublist_of` ordered_candidates pr.
Proof.
  intros Hc Hs Hr. rewrite <-(take_drop (S (cursor pr)) (ordered_candidates pr)).
  apply sublist_app; [by apply answered_sublist|done].
Qed.

(** ** Validating a declaration *)

Lemma validate_declared_attackers s h pr l :
  validate_declared s h (Attackers pr) l = Ok tt <-> legal_attack s l.
Proof.
  cbn. rewrite <-validate_attackers_ok. by destruct (validate_declare_attackers s l) as [[]|].
Qed.

Lemma validate_declared_blockers s h attacker pr l :
  validate_declared s h (Blockers attacker pr) l = Ok tt <->
  exists reshape, blockers h = Some reshape /\ current_attacker reshape = Some attacker
    /\ legal_block s (accumulated reshape ++ map (fun b => (b, attacker)) l).
Proof.
  cbn. unfold validate_declare_blockers_for_attacker.
  destruct (blockers h) as [reshape|]; [|by split; [|intros (? & ? & _)]].
  destruct (current_attacker reshape) as [a|] eqn:Ea; [|split; [done|]; intros (? & [= <-] & E & _); congruence].
  case_decide as Hne.
  - split; [done|]. intros (? & [= <-] & E & _). congruence.
  - subst a.
    transitivity (legal_block s (accumulated reshape ++ map (fun b => (b, attacker)) l)).
    + rewrite <-validate_blockers_ok. by destruct (validate_declare_blockers s _) as [[]|].
    + split; [intros; exists reshape; done|]. by intros (? & [= <-] & _ & ?).
Qed.

(** ** The two probes *)

Lemma largest_completion_legal s h sc include rest :
  scan_wf s h sc -> rest `sublist_of` later (progress_of sc) ->
  validate_declared s h sc (answered (progress_of sc) include ++ rest) = Ok tt ->
  validate_declared s h sc (answered (progress_of sc) include) = Ok tt
  \/ validate_declared s h sc (answered (progress_of sc) include ++ later (progress_of sc)) = Ok tt.
Proof.
  intros [Hc Hs HN Hf] Hr Hv.
  pose proof (completion_sublist _ include _ Hc Hs (reflexivity _)) as Hmax.
  assert (answered (progress_of sc) include ++ rest `sublist_of`
          answered (progress_of sc) include ++ later (progress_of sc)) as Hsub.
  { by apply sublist_app. }
  pose proof (sublist_NoDup _ _ HN Hmax) as HNmax.
  destruct sc as [pr|attacker pr]; cbn [progress_of] in *.
  - right. rewrite validate_declared_attackers in *. eapply legal_attack_widens; [done| |..|done].
    + by apply sublist_subseteq.
    + etrans; [by apply sublist_subseteq|done].
  - rewrite !validate_declared_blockers in *. destruct Hv as (reshape & Eb & Ea & Hl).
    destruct Hf as [Hlegal Hfree]. specialize (Hfree reshape Eb).
    destruct (decide (assigned_to (accumulated reshape
               ++ map (fun b => (b, attacker)) (answered pr include ++ rest)) attacker = [])) as [E|Hne].
    + left. exists reshape. split; [done|split; [done|]]. eapply legal_block_empties; [done|done|].
      rewrite assigned_app, assigned_to_same in E. apply app_eq_nil in E as [_ E].
      apply map_eq_nil, app_eq_nil in E. tauto.
    + right. exists reshape. split; [done|split; [done|]]. eapply legal_block_widens; [done|done|..].
      * by apply sublist_subseteq.
      * etrans; [by apply sublist_subseteq|done].
      * apply NoDup_app. split; [|split; [|done]].
        -- destruct Hl as [_ _ _ Hl _]. rewrite map_app in Hl. by apply NoDup_app in Hl as [? _].
        -- intros c Hin Hin'. apply (Hfree c); [|done]. by eapply elem_of_sublist.
      * by apply sublist_length.
Qed.

(** [answer_keeps_a_legal_completion] decides whether some completion of the
    answered declaration is legal. *)
Lemma probe_decides s h sc include :
  scan_wf s h sc ->
  answer_keeps_a_legal_completion s h sc include = Ok tt <->
  exists rest, rest `sublist_of` later (progress_of sc)
    /\ validate_declared s h sc (answered (progress_of sc) include ++ rest) = Ok tt.
Proof.
  intros Hwf. unfold answer_keeps_a_legal_completion.
  fold (answered (progress_of sc) include) (later (progress_of sc)). split.
  - destruct (validate_declared s h sc (answered _ _)) as [[]|e] eqn:E.
    + intros _. exists []. split; [apply sublist_nil_l|]. by rewrite app_nil_r.
    + intros Hl. by exists (later (progress_of sc)).
  - intros (rest & Hr & Hv). destruct (largest_completion_legal _ _ _ _ _ Hwf Hr Hv) as [->|E]; [done|].
    rewrite E. by destruct (validate_declared s h sc (answered _ _)).
Qed.
End Probe.

(** What the scan relies on in the engine: [apply_declare_attackers] validates
    before anything else (engine.rs 26769). *)
Class DeclareLaws (State PendingTrigger OtherDecision OtherAction : Type)
    `{!CombatView State} `{!SurfaceEngine State PendingTrigger OtherDecision OtherAction} := {
  illegal_attack_refused : forall (s : State) attackers e,
    validate_declare_attackers s attackers = Err e ->
    exists text, (engine_step s (EngineAction.DeclareAttackers attackers)).2 = Err text;
}.

(** The answer to the active step. *)
Definition inclusion {OtherAction} (sc : CombatScanV5) (include : bool) : PolicyAction.t OtherAction :=
  match sc with
  | Attackers pr => PolicyAction.ChooseAttackerInclusion (scan_player pr) (current pr) include
  | Blockers attacker pr => PolicyAction.ChooseBlockerInclusion (scan_player pr) attacker (current pr) include
  end.

(** The scan after an answer, bound to the next revision. *)
Definition next_scan (sc : CombatScanV5) (include : bool) (revision : Z) : CombatScanV5 :=
  with_progress sc (with_binding (advance_scan (progress_of sc) include) (OwnedEnvironmentRevision revision)).

(** The candidates answered with yes. *)
Fixpoint chosen_by (bits : list bool) (candidates : list ObjectId) : list ObjectId :=
  match bits, candidates with
  | true :: bits, c :: candidates => c :: chosen_by bits candidates
  | false :: bits, _ :: candidates => chosen_by bits candidates
  | _, _ => []
  end.

Definition declaration {OtherAction} (sc : CombatScanV5) (ids : list ObjectId) : SurfaceAction.t OtherAction :=
  match sc with
  | Attackers _ => SurfaceAction.Action (EngineAction.DeclareAttackers ids)
  | Blockers _ _ => SurfaceAction.DeclareBlockersForAttacker ids
  end.

Section Runs.
Context {State PendingTrigger OtherDecision OtherAction : Type}.
Context `{!EqDecision State} `{!EqDecision PendingTrigger} `{!EqDecision OtherDecision}.
Context `{!CombatView State} `{!SurfaceEngine State PendingTrigger OtherDecision OtherAction}.
Context `{!PolicyEngine State PendingTrigger}.
Implicit Types s : State.
Implicit Types p : PolicySurfaceV5 PendingTrigger.

(** A blocker scan asks about the attacker the reshape stands at. *)
Definition same_attacker (h : HarnessSurfaceV2) (sc : CombatScanV5) : Prop :=
  match sc with
  | Attackers _ => True
  | Blockers attacker _ =>
      exists reshape, blockers h = Some reshape /\ current_attacker reshape = Some attacker
  end.

(** An owning session at a revision, with a scan before an answer. *)
Record at_scan p s (sc : CombatScanV5) (revision : Z) : Prop := {
  at_no_order : hunter_order_v45 p = None;
  at_active : scan p = Some sc;
  at_wf : scan_wf s (inner p) sc;
  at_attacker : same_attacker (inner p) sc;
  at_binding : binding (progress_of sc) = OwnedEnvironmentRevision revision;
  at_revision : 0 <= revision;
}.

Definition last_step (sc : CombatScanV5) : Prop :=
  S (cursor (progress_of sc)) = length (ordered_candidates (progress_of sc)).

(** ** One answer *)

Lemma progress_of_with sc pr : progress_of (with_progress sc pr) = pr.
Proof. by destruct sc. Qed.

Lemma scan_wf_shape s h sc : scan_wf s h sc -> validate_shape sc = Ok tt.
Proof.
  intros [Hc Hs _ _]. unfold validate_shape. rewrite decide_False by lia.
  pose proof (sublist_length _ _ Hs) as Hl. rewrite length_take in Hl. rewrite decide_False by lia.
  destruct (negb _) eqn:E; [|done]. apply negb_true_iff, not_true_iff_false in E. destruct E.
  apply forallb_bool_decide, list.Forall_forall. by apply sublist_subseteq.
Qed.

Lemma inclusion_answers sc include :
  scan_answer sc (inclusion (OtherAction:=OtherAction) sc include) = Ok include.
Proof. destruct sc as [pr|a pr]; cbn; rewrite !decide_False by (intros E; by apply E); done. Qed.

Lemma own_binding_holds s h sc revision :
  binding (progress_of sc) = OwnedEnvironmentRevision revision ->
  validate_binding s h sc (OwnedRevision revision) = Ok tt.
Proof. intros E. unfold validate_binding. rewrite E. cbn. by rewrite Z.eqb_refl. Qed.
Lemma apply_owned_inclusion p s sc revision include :
  at_scan p s sc revision -> revision < u64_max ->
  apply_owned p s (inclusion (OtherAction:=OtherAction) sc include) revision (revision + 1) =
  commit_clone p s
    (apply_scan p s sc (inclusion sc include) (OwnedRevision revision) (Some (revision + 1))).
Proof.
  intros [Ho Ha _ _ _ Hr] Hmax. unfold apply_owned, apply_in_place. rewrite Ho, Ha.
  assert (checked_add_u64 revision 1 = Some (revision + 1)) as ->.
  { apply checked_unsigned_some. lia. }
  by rewrite decide_False by (intros E; by apply E).
Qed.

(** An answer before the last. *)
Lemma apply_middle_answer p s sc revision include :
  at_scan p s sc revision -> revision < u64_max -> ~ last_step sc ->
  apply_owned p s (inclusion (OtherAction:=OtherAction) sc include) revision (revision + 1) =
  match answer_keeps_a_legal_completion s (inner p) sc include with
  | Err e => (p, s, Err e)
  | Ok _ => (with_scan p (Some (next_scan sc include (revision + 1))), s, Ok tt)
  end.
Proof.
  intros H Hmax Hlast. rewrite (apply_owned_inclusion _ _ _ _ _ H Hmax). destruct H as [_ _ Hwf _ Hb _].
  unfold apply_scan. rewrite (own_binding_holds _ _ _ _ Hb), (scan_wf_shape _ _ _ Hwf), inclusion_answers.
  cbn [result_bind]. rewrite bool_decide_eq_false_2 by done.
  destruct (answer_keeps_a_legal_completion s (inner p) sc include) as [[]|e]; [|done].
  cbn [result_bind]. unfold rebind_owned_revision. rewrite progress_of_with. cbn [binding advance_scan].
  rewrite Hb. unfold next_scan. by destruct sc.
Qed.

(** The last answer commits the declaration. *)
Lemma apply_last_answer p s sc revision include :
  at_scan p s sc revision -> revision < u64_max -> last_step sc ->
  apply_owned p s (inclusion (OtherAction:=OtherAction) sc include) revision (revision + 1) =
  match surface_apply s (inner p) (declaration sc (answered (progress_of sc) include)) with
  | (h, s', Ok _) => (with_scan (with_inner p h) None, s', Ok tt)
  | (_, _, Err e) => (p, s, Err (Harness e))
  end.
Proof.
  intros H Hmax Hlast. rewrite (apply_owned_inclusion _ _ _ _ _ H Hmax). destruct H as [_ _ Hwf _ Hb _].
  unfold apply_scan. rewrite (own_binding_holds _ _ _ _ Hb), (scan_wf_shape _ _ _ Hwf), inclusion_answers.
  cbn [result_bind]. rewrite bool_decide_eq_true_2 by done. cbn [result_bind].
  unfold apply_inner. cbn [inner with_scan].
  assert (scan_aggregate (OtherAction:=OtherAction) (with_progress sc (advance_scan (progress_of sc) include)) =
          declaration sc (answered (progress_of sc) include)) as -> by by destruct sc.
  by destruct (surface_apply s (inner p) _) as [[h s'] [[]|e]].
Qed.

(** The next step is a step again. *)
Lemma at_next_scan p s sc revision include :
  at_scan p s sc revision -> ~ last_step sc ->
  at_scan (with_scan p (Some (next_scan sc include (revision + 1)))) s
    (next_scan sc include (revision + 1)) (revision + 1).
Proof.
  intros [Ho Ha [Hc Hs HN Hf] Hat Hb Hr] Hlast. constructor; try done; [|by destruct sc| |lia].
  - unfold last_step in Hlast. constructor; unfold next_scan; rewrite ?progress_of_with; cbn; try done.
    + lia.
    + by apply answered_sublist.
    + by destruct sc.
  - unfold next_scan. by rewrite progress_of_with.
Qed.

(** ** All the answers *)

Fixpoint run_answers p s (revision : Z) (bits : list bool)
  : PolicySurfaceV5 PendingTrigger * State * result PolicyError unit :=
  match bits with
  | [] => (p, s, Ok tt)
  | include :: bits =>
      match scan p with
      | None => (p, s, Err NoActiveScan)
      | Some sc =>
          match apply_owned p s (inclusion sc include) revision (revision + 1) with
          | (p, s, Ok _) => run_answers p s (revision + 1) bits
          | (p, s, Err e) => (p, s, Err e)
          end
      end
  end.

Definition left_to_answer (sc : CombatScanV5) : nat :=
  length (ordered_candidates (progress_of sc)) - cursor (progress_of sc).

Definition declared_by (sc : CombatScanV5) (bits : list bool) : list ObjectId :=
  selected (progress_of sc)
  ++ chosen_by bits (drop (cursor (progress_of sc)) (ordered_candidates (progress_of sc))).

Lemma chosen_by_sublist bits : forall l, chosen_by bits l `sublist_of` l.
Proof.
  induction bits as [|[] bits IH]; intros [|c l]; cbn; try apply sublist_nil_l.
  - by apply sublist_skip.
  - by apply sublist_cons.
Qed.

Lemma chosen_by_all l bits : bits `sublist_of` l -> NoDup l -> chosen_by (map (fun c => bool_decide (c ∈ bits)) l) l = bits.
Proof.
  intros H. induction H as [|x l k H IH|x l k H IH]; intros HN; [done|..]; apply NoDup_cons in HN as [Hx HN].
  - cbn [map chosen_by]. rewrite bool_decide_eq_true_2 by by left. f_equal. etrans; [|by apply IH].
    f_equal. apply map_ext_in. intros c Hc%list_elem_of_In. apply bool_decide_ext.
    rewrite elem_of_cons. split; [intros [->|?]; done|tauto].
  - cbn [map chosen_by]. rewrite bool_decide_eq_false_2; [by apply IH|].
    intros Hin. apply Hx. by eapply elem_of_sublist.
Qed.

Lemma declared_step sc include bits revision :
  (cursor (progress_of sc) < length (ordered_candidates (progress_of sc)))%nat ->
  declared_by (next_scan sc include revision) bits = declared_by sc (include :: bits)
  /\ declared_by sc (include :: bits)
     = answered (progress_of sc) include ++ chosen_by bits (later (progress_of sc)).
Proof.
  intros Hc. unfold declared_by, next_scan. rewrite progress_of_with. cbn [selected cursor ordered_candidates
    with_binding advance_scan].
  assert (drop (cursor (progress_of sc)) (ordered_candidates (progress_of sc))
          = current (progress_of sc) :: later (progress_of sc)) as ->.
  { rewrite (candidates_split _ Hc) at 1. rewrite drop_app_length'; [done|]. rewrite length_take. lia. }
  unfold answered, later. rewrite <-app_assoc. by destruct include.
Qed.

(** The answers up to the last: either they all pass or one is refused and
    nothing has happened to the state. *)
Lemma run_last p s sc revision include :
  at_scan p s sc revision -> revision < u64_max -> last_step sc ->
  run_answers p s revision [include] =
  match surface_apply s (inner p) (declaration sc (declared_by sc [include])) with
  | (h, s', Ok _) => (with_scan (with_inner p h) None, s', Ok tt)
  | (_, _, Err e) => (p, s, Err (Harness e))
  end.
Proof.
  intros H Hmax Hlast. cbn [run_answers]. rewrite (at_active _ _ _ _ H), (apply_last_answer _ _ _ _ _ H Hmax Hlast).
  destruct (declared_step sc include [] 0 (wf_cursor _ _ _ (at_wf _ _ _ _ H))) as [_ ->].
  cbn [chosen_by]. rewrite app_nil_r. by destruct (surface_apply _ _ _) as [[h s'] [[]|e]].
Qed.

Lemma run_legal bits : forall p s sc revision,
  at_scan p s sc revision -> length bits = left_to_answer sc -> revision + Z.of_nat (length bits) <= u64_max ->
  validate_declared s (inner p) sc (declared_by sc bits) = Ok tt ->
  forall h s', surface_apply s (inner p) (declaration sc (declared_by sc bits)) = (h, s', Ok tt) ->
  run_answers p s revision bits = (with_scan (with_inner p h) None, s', Ok tt).
Proof.
  induction bits as [|include bits IH]; intros p s sc revision H Hl Hr Hv h s' Ha.
  { pose proof (wf_cursor _ _ _ (at_wf _ _ _ _ H)). unfold left_to_answer in Hl. cbn in Hl. lia. }
  pose proof (wf_cursor _ _ _ (at_wf _ _ _ _ H)) as Hc. cbn [length] in Hl, Hr.
  destruct (decide (last_step sc)) as [Hlast|Hlast].
  - assert (bits = []) as -> by (apply nil_length_inv; unfold left_to_answer, last_step in *; lia).
    rewrite (run_last _ _ _ _ _ H) by (done || lia). by rewrite Ha.
  - destruct (declared_step sc include bits (revision + 1) Hc) as [E1 E2].
    cbn [run_answers]. rewrite (at_active _ _ _ _ H), (apply_middle_answer _ _ _ _ _ H) by (done || lia).
    assert (answer_keeps_a_legal_completion s (inner p) sc include = Ok tt) as ->.
    { apply probe_decides; [exact (at_wf _ _ _ _ H)|]. eexists. rewrite <-E2. split; [|done].
      apply chosen_by_sublist. }
    rewrite <-E1 in Hv, Ha.
    rewrite (IH (with_scan p (Some (next_scan sc include (revision + 1)))) s
               (next_scan sc include (revision + 1)) (revision + 1)) with (h:=h) (s':=s'); try done.
    + by apply at_next_scan.
    + unfold left_to_answer, next_scan, last_step in *. rewrite progress_of_with. cbn. lia.
    + lia.
    + unfold next_scan in *. by destruct sc.
    + unfold next_scan in *. by destruct sc.
Qed.

(** Only a legal declaration is committed. *)
Lemma committed_is_legal `{!DeclareLaws State PendingTrigger OtherDecision OtherAction} s h sc ids h' s' :
  same_attacker h sc ->
  surface_apply s h (declaration (OtherAction:=OtherAction) sc ids) = (h', s', Ok tt) ->
  validate_declared s h sc ids = Ok tt.
Proof.
  destruct sc as [pr|attacker pr]; cbn.
  - intros _. destruct (validate_declare_attackers s ids) as [[]|e] eqn:E; [done|].
    destruct (illegal_attack_refused _ _ _ E) as [text Hr].
    destruct (engine_step s _) as [s1 [[]|t]]; cbn in *; [done|]. by intros [= _ _ ?].
  - intros (reshape & Eb & Ea). unfold apply_blockers_for_attacker. rewrite Eb. cbn. rewrite Ea. cbn.
    by destruct (validate_declare_blockers_for_attacker s h attacker ids) as [[]|e].
Qed.

Definition run_outcome p s (sc : CombatScanV5) (bits : list bool)
    (r : PolicySurfaceV5 PendingTrigger * State * result PolicyError unit) : Prop :=
  match r with
  | (p', s', Ok _) =>
      validate_declared s (inner p) sc (declared_by sc bits) = Ok tt
      /\ exists h, surface_apply s (inner p) (declaration sc (declared_by sc bits)) = (h, s', Ok tt)
                  /\ p' = with_scan (with_inner p h) None
  | (p', s', Err _) => s' = s /\ inner p' = inner p /\ is_Some (scan p')
  end.

Lemma run_has_outcome `{!DeclareLaws State PendingTrigger OtherDecision OtherAction} bits :
  forall p s sc revision,
  at_scan p s sc revision -> length bits = left_to_answer sc -> revision + Z.of_nat (length bits) <= u64_max ->
  run_outcome p s sc bits (run_answers p s revision bits).
Proof.
  induction bits as [|include bits IH]; intros p s sc revision H Hl Hr.
  { pose proof (wf_cursor _ _ _ (at_wf _ _ _ _ H)). unfold left_to_answer in Hl. cbn in Hl. lia. }
  pose proof (wf_cursor _ _ _ (at_wf _ _ _ _ H)) as Hc. cbn [length] in Hl, Hr.
  destruct (decide (last_step sc)) as [Hlast|Hlast].
  - assert (bits = []) as -> by (apply nil_length_inv; unfold left_to_answer, last_step in *; lia).
    rewrite (run_last _ _ _ _ _ H) by (done || lia).
    destruct (surface_apply _ _ _) as [[h s'] [[]|e]] eqn:Ea; cbn.
    + split; [eapply committed_is_legal; [exact (at_attacker _ _ _ _ H)|exact Ea]|]. by exists h.
    + by rewrite (at_active _ _ _ _ H).
  - destruct (declared_step sc include bits (revision + 1) Hc) as [E1 _].
    cbn [run_answers]. rewrite (at_active _ _ _ _ H), (apply_middle_answer _ _ _ _ _ H) by (done || lia).
    destruct (answer_keeps_a_legal_completion s (inner p) sc include) as [[]|e]; cbn;
      [|by rewrite (at_active _ _ _ _ H)].
    pose proof (IH (with_scan p (Some (next_scan sc include (revision + 1)))) s
               (next_scan sc include (revision + 1)) (revision + 1)) as Hrun.
    unfold run_outcome in *. rewrite E1 in Hrun.
    destruct (run_answers _ _ _ bits) as [[p' s'] [[]|e]]; cbn [inner with_scan] in Hrun.
    + destruct Hrun as (Hv & h & Ha & ->).
      * by apply at_next_scan.
      * unfold left_to_answer, next_scan, last_step in *. rewrite progress_of_with. cbn. lia.
      * lia.
      * split; [by destruct sc|]. exists h. split; [|done]. by destruct sc.
    + destruct Hrun as (-> & -> & ?); try done.
      * by apply at_next_scan.
      * unfold left_to_answer, next_scan, last_step in *. rewrite progress_of_with. cbn. lia.
      * lia.
Qed.
End Runs.

Section InPlace.
Context {State PendingTrigger OtherDecision OtherAction : Type}.
Context `{!EqDecision State} `{!EqDecision PendingTrigger} `{!EqDecision OtherDecision}.
Context `{!CombatView State} `{!SurfaceEngine State PendingTrigger OtherDecision OtherAction}.
Context `{!PolicyEngine State PendingTrigger}.
Implicit Types s : State.
Implicit Types p : PolicySurfaceV5 PendingTrigger.
Implicit Types a : PolicyAction.t OtherAction.

(** A scan of blockers is about the attacker of the reshape. *)
Definition scan_matches p : Prop :=
  forall sc, scan p = Some sc -> same_attacker (inner p) sc.

Definition failed {A E} (r : PolicySurfaceV5 PendingTrigger * State * result E A) : bool := negb (is_ok r.2).

(** What the preflight refuses, the in-place body refuses. *)
Lemma preflight_is_needed `{!DeclareLaws State PendingTrigger OtherDecision OtherAction} p s a now next e :
  scan_matches p -> checked_add_u64 now 1 = Some next ->
  validate_fast_actor_current_action p s a now next = Err e ->
  failed (apply_in_place p s a (OwnedRevision now) (Some next)) = true.
Proof.
  intros Hm Hn. unfold validate_fast_actor_current_action, apply_in_place.
  rewrite decide_False by (intros E; by apply E).
  destruct (hunter_order_v45 p) as [order|] eqn:Eo.
  { unfold apply_hunter_order_v45. by destruct (validate_hunter_order_action_v45 p s a _). }
  destruct (scan p) as [sc|] eqn:Es; [|by destruct a]. unfold apply_scan.
  destruct (validate_binding s (inner p) sc _) as [[]|]; cbn [result_bind]; [|done].
  destruct (validate_shape sc) as [[]|]; cbn [result_bind]; [|done].
  destruct (scan_answer sc a) as [include|]; cbn [result_bind]; [|done].
  case_bool_decide as Hlast; [|by destruct (answer_keeps_a_legal_completion s (inner p) sc include)].
  cbn [result_bind]. unfold answer_keeps_a_legal_completion. intros Hprobe.
  unfold apply_inner. cbn [inner with_scan].
  destruct (surface_apply s (inner p) _) as [[h s'] [[]|]] eqn:Ea; [|done].
  exfalso. assert (validate_declared s (inner p) sc (answered (progress_of sc) include) = Ok tt) as Hv.
  { eapply committed_is_legal; [exact (Hm _ Es)|]. rewrite <-Ea. by destruct sc. }
  unfold answered in Hv. by rewrite Hv in Hprobe.
Qed.

(** What the preflight lets through runs the same body. *)
Lemma in_place_runs `{!DeclareLaws State PendingTrigger OtherDecision OtherAction} p s a now next :
  scan_matches p ->
  apply_owned p s a now next =
  match apply_fast_actor_current_candidate_in_place p s (MkCandidateProof true a now next) with
  | (p', s', Ok _) => (p', s', Ok tt)
  | _ => (p, s, (apply_owned p s a now next).2)
  end
  /\ is_ok (apply_owned p s a now next).2
     = is_ok (apply_fast_actor_current_candidate_in_place p s (MkCandidateProof true a now next)).2.
Proof.
  intros Hm. unfold apply_fast_actor_current_candidate_in_place. cbn [owned proof_action current_revision next_revision negb].
  unfold apply_owned. case_decide as Hn.
  { unfold validate_fast_actor_current_action. by rewrite decide_True. }
  destruct (validate_fast_actor_current_action p s a now next) as [[]|e] eqn:Ev.
  - by destruct (apply_in_place p s a _ _) as [[p' s'] [[]|e]].
  - apply preflight_is_needed in Ev; [|done|done].
    by destruct (apply_in_place p s a _ _) as [[p' s'] [[]|e']].
Qed.
End InPlace.
