(* ===== verification/SurfaceInv.v ===== *)
(** * What holds at every decision of an owning session

    The loop of the surface ends when the engine runs out of windows that are answered
    for the players. The invariant of the two surfaces over a session that answers the
    decision it is shown and then asks for the next one: the blocks collected so far
    are legal, the queue of attackers is live, and a scan can still end in a legal
    declaration. *)

From S2P Require Import Prelude Ids CombatRules Surface PolicySurface CombatFacts ScanFacts.

Local Open Scope Z_scope.

Section Ends.
Context {State PendingTrigger OtherDecision OtherAction : Type}.
Context `{!CombatView State} `{!SurfaceEngine State PendingTrigger OtherDecision OtherAction}.
Implicit Types s : State.
Implicit Types h : HarnessSurfaceV2.

(** What the surface answers by itself. *)
Inductive answered_alone : EngineDecision.t PendingTrigger OtherDecision -> EngineAction.t OtherAction -> Prop :=
  | alone_pass player spells mana lands abilities plots :
      answered_alone (EngineDecision.CastSpellOrPass player spells mana lands abilities plots) EngineAction.Pass
  | alone_attack player :
      answered_alone (EngineDecision.DeclareAttackers player []) (EngineAction.DeclareAttackers [])
  | alone_block player attackers legal :
      answered_alone (EngineDecision.DeclareBlockers player attackers legal) (EngineAction.DeclareBlockers []).

(** [quiet] counts the answers the engine can still get that way. *)
Variable quiet : State -> nat.
Hypothesis quiet_drops : forall s s' d a s'',
  advance_until_decision s = (s', d) -> answered_alone d a -> forced_step s' a = Ok s'' ->
  (quiet s'' < quiet s)%nat.

Lemma record_keeps reason x y h :
  blockers (record reason x y h) = blockers h /\ discard (record reason x y h) = discard h
  /\ optional_cost (record reason x y h) = optional_cost h.
Proof. unfold record. by destruct (suppression_audit_mode (audit h)). Qed.

(** A queue that asks nothing commits what was collected. *)
Lemma pop_attackers_none queue : forall blocks s h h' s',
  pop_attackers (PendingTrigger:=PendingTrigger) (OtherDecision:=OtherDecision) queue blocks s h = Ok (h', s', None) ->
  forced_step s (EngineAction.DeclareBlockers blocks) = Ok s' /\ blockers h' = None.
Proof.
  induction queue as [|[a ids] queue IH]; intros blocks s h h' s'; cbn [pop_attackers].
  - unfold finish_blockers_reshape. destruct (forced_step s _) as [s1|]; cbn; [|done]. by intros [= <- <-].
  - destruct (filter _ ids); [|done]. apply IH.
Qed.

Lemma next_blockers_none s h h' s' :
  next_blockers_subdecision (PendingTrigger:=PendingTrigger) (OtherDecision:=OtherDecision) s h = Ok (h', s', None) ->
  blockers h' = None.
Proof.
  unfold next_blockers_subdecision. destruct (blockers h) as [rs|] eqn:Eb; [|by intros [= <- <-]].
  by intros [_ ?]%pop_attackers_none.
Qed.

Lemma priority_window_keeps s h player b :
  blockers (priority_window s h player b).1 = blockers h.
Proof.
  unfold priority_window. destruct (bool_decide _).
  - destruct (_ || _); [done|]. by destruct (seat _ _).
  - by destruct (_ && _).
Qed.

Definition ends s h : Prop := exists fuel, next_decision fuel s h <> None.

Lemma ends_turn s h :
  (forall h' s', next_turn s h = Ok (h', s', None) -> ends s' h') -> ends s h.
Proof.
  intros H. destruct (next_turn s h) as [[[h' s'] [sd|]]|[]] eqn:E.
  - exists 1%nat. cbn. by rewrite E.
  - destruct (H _ _ eq_refl) as [fuel Hf]. exists (S fuel). cbn. by rewrite E.
  - exists 1%nat. cbn. by rewrite E.
Qed.

Lemma ends_discard s h d : blockers h = None -> discard h = Some d -> ends s h.
Proof.
  intros Hb Hd. apply ends_turn. intros h' s'. unfold next_turn, next_blockers_subdecision. rewrite Hb. cbn.
  unfold next_discard_subdecision. by rewrite Hd.
Qed.

Lemma ends_optional s h o : blockers h = None -> optional_cost h = Some o -> ends s h.
Proof.
  intros Hb Ho. apply ends_turn. intros h' s'. unfold next_turn, next_blockers_subdecision. rewrite Hb. cbn.
  destruct (next_discard_subdecision h); [done|]. unfold next_optional_cost_subdecision. by rewrite Ho.
Qed.

(** What a settled decision leaves when it asks nothing. *)
Lemma settle_none s h before d h' s' :
  blockers h = None -> settle s h before d = Ok (h', s', None) ->
  blockers h' = None
  /\ ((exists a, answered_alone d a /\ forced_step s a = Ok s') \/ is_Some (discard h') \/ is_Some (optional_cost h')).
Proof.
  intros Hb. destruct d as [player spells mana lands abilities plots|player eligible|player attackers legal
                |player count choices|player x y z|player pending|w|m src|player o]; cbn [settle]; try done.
  - destruct (priority_mode h); [|done]. destruct (priority_window _ _ _ _) as [h1 [reason|]] eqn:Ew; [|done].
    destruct (forced_step s EngineAction.Pass) as [s1|] eqn:Ef; cbn; [|done]. intros [= <- <-].
    destruct (record_keeps reason before (state_hash s1) h1) as [-> _]. split.
    + pose proof (priority_window_keeps s h player (bool_decide (spells = []) && bool_decide (mana = [])
        && bool_decide (lands = []) && bool_decide (abilities = []))) as Hk. by rewrite Ew, Hb in Hk.
    + left. eexists. split; [constructor|done].
  - destruct eligible; [|done]. destruct (forced_step s _) as [s1|] eqn:Ef; cbn; [|done]. intros [= <- <-].
    destruct (record_keeps NoEligibleAttacker before (state_hash s1) h) as [-> _]. split; [done|].
    left. eexists. split; [constructor|done].
  - intros E. split; [by eapply next_blockers_none|]. left. exists (EngineAction.DeclareBlockers []).
    split; [constructor|]. unfold next_blockers_subdecision in E. unfold begin_blockers_reshape in E.
    destruct (begin_remaining legal before s h) as [queue h1]. cbn in E. by apply pop_attackers_none in E as [? _].
  - intros [= <- <-]. split; [done|]. right. left. by eexists.
  - destruct (_ || _); [|done]. intros [= <- <-]. split; [done|]. right. right. by eexists.
Qed.

Lemma ends_no_reshape n : forall s h, (quiet s <= n)%nat -> blockers h = None -> ends s h.
Proof using quiet_drops.
  induction n as [n IH] using lt_wf_ind. intros s h Hq Hb. apply ends_turn. intros h' s'.
  unfold next_turn, next_blockers_subdecision. rewrite Hb. cbn.
  destruct (next_discard_subdecision h); [done|]. destruct (next_optional_cost_subdecision h); [done|].
  destruct (advance_until_decision s) as [s1 d] eqn:Ea. intros E.
  destruct (settle_none _ _ _ _ _ _ Hb E) as [Hb' [(a & Hal & Hf)|[[x Hx]|[x Hx]]]].
  - pose proof (quiet_drops _ _ _ _ _ Ea Hal Hf). by apply (IH (quiet s') ltac:(lia)).
  - by eapply ends_discard.
  - by eapply ends_optional.
Qed.

Lemma loop_ends s h : ends s h.
Proof using quiet_drops.
  destruct (next_blockers_subdecision (PendingTrigger:=PendingTrigger) (OtherDecision:=OtherDecision) s h)
    as [[[h1 s1] [sd|]]|[]] eqn:Eb.
  - exists 1%nat. cbn. unfold next_turn. by rewrite Eb.
  - pose proof (next_blockers_none _ _ _ _ Eb) as Hb1.
    destruct (ends_no_reshape (quiet s1) s1 h1 ltac:(lia) Hb1) as [fuel Hf]. exists fuel.
    destruct fuel as [|fuel]; [done|]. cbn [next_decision] in *.
    assert (next_turn s h = next_turn s1 h1) as ->; [|done].
    unfold next_turn. rewrite Eb. unfold next_blockers_subdecision at 1. by rewrite Hb1.
  - exists 1%nat. cbn. unfold next_turn. by rewrite Eb.
Qed.
End Ends.

(** What the rules engine promises to the surfaces: the decisions of combat are the
    ones [advance_until_decision] builds (engine.rs 12538-12631), a discard is
    possible, and what the surfaces send without asking is accepted. A legal
    declaration is accepted in the state where [advance_until_decision] asks for it,
    and nowhere else: in between, while the targets of the attackers are chosen, the
    declaration is still legal and the engine refuses it (engine.rs 24196-24203). *)
Class EngineLaws (State PendingTrigger OtherDecision OtherAction : Type)
    `{!CombatView State} `{!SurfaceEngine State PendingTrigger OtherDecision OtherAction} := {
  sound_state : State -> Prop;
  sound_advance : forall s s' d, sound_state s -> advance_until_decision s = (s', d) -> sound_state s';
  sound_step : forall s s' a u, sound_state s -> engine_step s a = (s', Ok u) -> sound_state s';
  battlefield_NoDup : forall s player, sound_state s -> NoDup (battlefield_of s player);
  attackers_NoDup : forall s, sound_state s -> NoDup (declared_attackers s);
  advance_attackers : forall s s' player eligible, sound_state s ->
    advance_until_decision s = (s', EngineDecision.DeclareAttackers player eligible) ->
    step_of s' = Step.DeclareAttackers /\ attackers_declared s' = false
    /\ player = combat_active_player s' /\ eligible = eligible_attackers s';
  advance_blockers : forall s s' player attackers legal, sound_state s ->
    advance_until_decision s = (s', EngineDecision.DeclareBlockers player attackers legal) ->
    step_of s' = Step.DeclareBlockers /\ blockers_declared s' = false
    /\ attackers = blocking_order s' /\ legal = blocking_choices s';
  advance_discard : forall s s' player count choices, sound_state s ->
    advance_until_decision s = (s', EngineDecision.Discard player count choices) ->
    NoDup choices /\ 0 < count <= Z.of_nat (length choices) /\ Z.of_nat (length choices) <= u32_max;
  pass_accepted : forall s s' player spells mana lands abilities plots, sound_state s ->
    advance_until_decision s = (s', EngineDecision.CastSpellOrPass player spells mana lands abilities plots) ->
    is_ok (engine_step s' EngineAction.Pass).2 = true;
  legal_attack_accepted : forall s s' player eligible l, sound_state s ->
    advance_until_decision s = (s', EngineDecision.DeclareAttackers player eligible) -> legal_attack s' l ->
    is_ok (engine_step s' (EngineAction.DeclareAttackers l)).2 = true;
  legal_block_accepted : forall s s' player attackers legal l, sound_state s ->
    advance_until_decision s = (s', EngineDecision.DeclareBlockers player attackers legal) -> legal_block s' l ->
    is_ok (engine_step s' (EngineAction.DeclareBlockers l)).2 = true;
}.

Section Inv.
Context {State PendingTrigger OtherDecision OtherAction : Type}.
Context `{!EqDecision State} `{!EqDecision PendingTrigger} `{!EqDecision OtherDecision}.
Context `{!CombatView State} `{!SurfaceEngine State PendingTrigger OtherDecision OtherAction}.
Context `{!PolicyEngine State PendingTrigger}.
Context `{!EngineLaws State PendingTrigger OtherDecision OtherAction}.
Implicit Types s : State.
Implicit Types h : HarnessSurfaceV2.
Implicit Types p : PolicySurfaceV5 PendingTrigger.

(** ** The declarations the engine asks for *)

Definition attackers_asked s : Prop :=
  exists s0 player eligible,
    sound_state s0 /\ advance_until_decision s0 = (s, EngineDecision.DeclareAttackers player eligible).

Definition blockers_asked s : Prop :=
  exists s0 player attackers legal,
    sound_state s0 /\ advance_until_decision s0 = (s, EngineDecision.DeclareBlockers player attackers legal).

Lemma attack_accepted s l :
  attackers_asked s -> legal_attack s l -> is_ok (engine_step s (EngineAction.DeclareAttackers l)).2 = true.
Proof. intros (s0 & player & el & Hs & E). by eapply legal_attack_accepted. Qed.

Lemma block_accepted s l :
  blockers_asked s -> legal_block s l -> is_ok (engine_step s (EngineAction.DeclareBlockers l)).2 = true.
Proof. intros (s0 & player & ats & legal & Hs & E). by eapply legal_block_accepted. Qed.

(** ** The reshape of blocks *)

Definition pending_attackers (rs : BlockersReshape) : list ObjectId :=
  match current_attacker rs with Some a => [a] | None => [] end ++ map fst (remaining rs).

Record reshape_ok s (rs : BlockersReshape) : Prop := {
  ok_asked : blockers_asked s;
  ok_blocks : legal_block s (accumulated rs);
  ok_NoDup : NoDup (pending_attackers rs);
  ok_live : pending_attackers rs ⊆ live_attackers s;
  ok_lists : forall a ids, (a, ids) ∈ remaining rs -> ids = legal_blockers_for s a;
  ok_fresh : forall a, a ∈ pending_attackers rs -> assigned_to (accumulated rs) a = [];
}.

Definition discard_ok (d : DiscardReshape) : Prop :=
  NoDup (chosen d ++ remaining_choices d)
  /\ 0 < remaining_needed d <= Z.of_nat (length (remaining_choices d))
  /\ Z.of_nat (length (remaining_choices d)) <= u32_max.

Record inner_ok s h : Prop := {
  ok_sound : sound_state s;
  ok_blockers : forall rs, blockers h = Some rs -> reshape_ok s rs;
  ok_discard : forall d, discard h = Some d -> discard_ok d;
}.

(** Some answers to the rest of the scan make a legal declaration. *)
Definition completable s h (sc : CombatScanV5) : Prop :=
  exists rest,
    rest `sublist_of` drop (cursor (progress_of sc)) (ordered_candidates (progress_of sc))
    /\ validate_declared s h sc (selected (progress_of sc) ++ rest) = Ok tt.

(** ** A completable scan has an answer *)

Lemma completable_answer s h sc :
  scan_wf s h sc -> completable s h sc ->
  exists include, answer_keeps_a_legal_completion s h sc include = Ok tt.
Proof.
  intros Hwf (rest & Hr & Hv). pose proof (wf_cursor _ _ _ Hwf) as Hc.
  rewrite (candidates_split _ Hc) in Hr at 1. rewrite drop_app_length' in Hr by (rewrite length_take; lia).
  apply sublist_cons_r in Hr as [Hr|(rest' & -> & Hr)].
  - exists false. apply (probe_decides _ _ _ _ Hwf). exists rest. split; [done|].
    unfold answered. by rewrite app_nil_r.
  - exists true. apply (probe_decides _ _ _ _ Hwf). exists rest'. split; [done|].
    unfold answered. by rewrite <-app_assoc.
Qed.

Lemma answered_completable s h sc include revision :
  scan_wf s h sc -> answer_keeps_a_legal_completion s h sc include = Ok tt ->
  completable s h (next_scan sc include revision).
Proof.
  intros Hwf (rest & Hr & Hv)%(probe_decides _ _ _ _ Hwf). exists rest.
  unfold next_scan. rewrite progress_of_with. cbn. split; [done|]. by destruct sc.
Qed.

(** ** Opening a scan *)

Lemma eligible_NoDup s : sound_state s -> NoDup (eligible_attackers s).
Proof. intros H. apply NoDup_filter. by apply battlefield_NoDup. Qed.

Lemma legal_blockers_NoDup s a : sound_state s -> NoDup (legal_blockers_for s a).
Proof.
  intros H. unfold legal_blockers_for. destruct (unblockable s a); [constructor|].
  destruct (_ <? _); [constructor|]. apply NoDup_filter. by apply battlefield_NoDup.
Qed.

Lemma all_eligible_legal s :
  sound_state s -> step_of s = Step.DeclareAttackers -> attackers_declared s = false ->
  legal_attack s (eligible_attackers s).
Proof.
  intros Hs Hstep Hopen. constructor; try done; [| |by apply eligible_NoDup].
  - intros x Hx. by apply list_elem_of_filter in Hx as [_ Hx].
  - intros x Hx. by apply list_elem_of_filter in Hx as [_ Hx].
Qed.

Lemma open_attackers s h player b :
  sound_state s -> step_of s = Step.DeclareAttackers -> attackers_declared s = false ->
  eligible_attackers s <> [] ->
  let sc := Attackers (MkProgress player (eligible_attackers s) 0 [] b) in
  scan_wf s h sc /\ completable s h sc.
Proof.
  intros Hs Hstep Hopen Hne sc. split.
  - constructor; cbn; [|done|by apply eligible_NoDup|done].
    destruct (eligible_attackers s); [done|]. cbn. lia.
  - exists (eligible_attackers s). split; [done|].
    apply validate_declared_attackers. by apply all_eligible_legal.
Qed.

Lemma open_blockers s h player b rs a :
  sound_state s -> blockers h = Some rs -> reshape_ok s rs -> current_attacker rs = Some a ->
  let free := filter (.∉ map fst (accumulated rs)) (legal_blockers_for s a) in
  free <> [] ->
  let sc := Blockers a (MkProgress player free 0 [] b) in
  scan_wf s h sc /\ completable s h sc.
Proof.
  intros Hs Eb Hok Ea free Hne sc. split.
  - constructor; cbn; [by destruct free; [|cbn; lia]|done|by apply NoDup_filter, legal_blockers_NoDup|].
    split; [by apply sublist_subseteq, sublist_filter|].
    intros rs' E c Hc. rewrite Eb in E. injection E as <-. by apply list_elem_of_filter in Hc as [? _].
  - exists []. split; [apply sublist_nil_l|]. apply validate_declared_blockers.
    exists rs. split; [done|split; [done|]]. cbn. rewrite app_nil_r. exact (ok_blocks _ _ Hok).
Qed.

(** ** The queue of attackers *)

Lemma forced_step_ok s a : is_ok (engine_step s a).2 = true -> exists s', forced_step s a = Ok s' /\ (sound_state s -> sound_state s').
Proof.
  unfold forced_step. destruct (engine_step s a) as [s' [[]|]] eqn:E; [|done].
  intros _. exists s'. split; [done|]. intros Hs. by eapply sound_step.
Qed.

Lemma record_fields reason x y h :
  blockers (record reason x y h) = blockers h /\ discard (record reason x y h) = discard h.
Proof. unfold record. by destruct (suppression_audit_mode (audit h)). Qed.

Lemma reshape_pops s a ids queue blocks current :
  reshape_ok s (MkBlockersReshape ((a, ids) :: queue) blocks current) ->
  reshape_ok s (MkBlockersReshape queue blocks None) /\ reshape_ok s (MkBlockersReshape queue blocks (Some a)).
Proof.
  intros [Hask Hb HN Hl Hli Hf]. unfold pending_attackers in *. cbn in *.
  apply NoDup_app in HN as (_ & _ & HN).
  assert (a :: map fst queue ⊆ match current with Some a => [a] | None => [] end ++ a :: map fst queue) as Hsub.
  { intros x Hx. apply elem_of_app. by right. }
  assert (map fst queue ⊆ a :: map fst queue) as Hsub' by (intros x Hx; by right).
  split; constructor; unfold pending_attackers; cbn; try done.
  - by apply NoDup_cons in HN as [_ ?].
  - by etrans; [|etrans].
  - intros a' ids' Hin. apply Hli. by right.
  - intros a' Hin. by apply Hf, Hsub, Hsub'.
  - by etrans.
  - intros a' ids' Hin. apply Hli. by right.
  - intros a' Hin. by apply Hf, Hsub.
Qed.

Definition popped_ok s (r : HarnessSurfaceV2 * State * option (SurfaceDecision.t PendingTrigger OtherDecision)) : Prop :=
  match r with
  | (h', s', None) => inner_ok s' h' /\ blockers h' = None
  | (h', s', Some sd) =>
      s' = s /\ inner_ok s' h' /\ exists rs a,
        blockers h' = Some rs /\ current_attacker rs = Some a
        /\ filter (.∉ map fst (accumulated rs)) (legal_blockers_for s a) <> []
        /\ sd = SurfaceDecision.DeclareBlockersForAttacker a
                  (filter (.∉ map fst (accumulated rs)) (legal_blockers_for s a))
  end.

Lemma pop_attackers_ok queue : forall blocks current s h,
  sound_state s -> (forall d, discard h = Some d -> discard_ok d) ->
  reshape_ok s (MkBlockersReshape queue blocks current) ->
  exists r, pop_attackers queue blocks s h = Ok r /\ popped_ok s r.
Proof.
  induction queue as [|[a ids] queue IH]; intros blocks current s h Hs Hd Hok.
  - cbn. unfold finish_blockers_reshape.
    destruct (forced_step_ok s (EngineAction.DeclareBlockers blocks)) as (s' & -> & Hs').
    { apply block_accepted; [exact (ok_asked _ _ Hok)|exact (ok_blocks _ _ Hok)]. }
    eexists. split; [done|]. cbn. split; [|done]. by constructor; [apply Hs'| |].
  - destruct (reshape_pops _ _ _ _ _ _ Hok) as [Hrest Hcur]. cbn [pop_attackers].
    pose proof (ok_lists _ _ Hok a ids ltac:(by left)) as ->.
    destruct (filter (.∉ map fst blocks) (legal_blockers_for s a)) as [|c free] eqn:E.
    + pose proof (record_fields NoEligibleBlockersForAttacker (state_hash s) (state_hash s) h) as [_ Ed].
      eapply IH; [done|by rewrite Ed|exact Hrest].
    + eexists. split; [done|]. cbn. split; [done|]. split.
      * constructor; [done| |done]. by intros rs [= <-].
      * exists (MkBlockersReshape queue blocks (Some a)), a. cbn. by rewrite E.
Qed.

Lemma next_blockers_ok s h :
  inner_ok s h -> exists r, next_blockers_subdecision s h = Ok r /\ popped_ok s r.
Proof.
  intros Hok. unfold next_blockers_subdecision. destruct (blockers h) as [rs|] eqn:Eb.
  - destruct rs as [queue blocks current]. eapply pop_attackers_ok; [exact (ok_sound _ _ Hok)|exact (ok_discard _ _ Hok)|].
    by apply (ok_blockers _ _ Hok).
  - eexists. split; [done|]. by split.
Qed.

(** ** A turn of the loop *)

Lemma insert_by_power_perm s id l : insert_by_power s id l ≡ₚ id :: l.
Proof.
  induction l as [|x l IH]; [done|]. cbn. destruct (_ <=? _); [done|]. rewrite IH. constructor.
Qed.

Lemma blocking_order_perm s : blocking_order s ≡ₚ live_attackers s.
Proof.
  unfold blocking_order. induction (live_attackers s) as [|a l IH]; [done|]. cbn.
  by rewrite insert_by_power_perm, IH.
Qed.

Lemma begin_remaining_spec legal before s : forall h,
  (begin_remaining legal before s h).1 = filter (fun c => c.2 <> []) legal
  /\ blockers (begin_remaining legal before s h).2 = blockers h
  /\ discard (begin_remaining legal before s h).2 = discard h.
Proof.
  induction legal as [|[a ids] legal IH]; intros h; [done|]. cbn [begin_remaining]. destruct ids as [|b ids].
  - rewrite filter_cons_False by (intros H; by apply H).
    destruct (IH (record NoEligibleBlockersForAttacker before (state_hash s) h)) as (-> & -> & ->).
    by destruct (record_fields NoEligibleBlockersForAttacker before (state_hash s) h) as [-> ->].
  - rewrite filter_cons_True by done. specialize (IH h).
    destruct (begin_remaining legal before s h) as [queue h']. cbn in *. by destruct IH as (-> & -> & ->).
Qed.

Lemma no_block_legal s :
  step_of s = Step.DeclareBlockers -> blockers_declared s = false -> legal_block s [].
Proof.
  intros Hstep Hopen. constructor; try done; [|constructor|].
  - by intros b a ?%elem_of_nil.
  - intros a _. by left.
Qed.

Lemma begin_reshape_ok s h before :
  inner_ok s h -> blockers_asked s -> step_of s = Step.DeclareBlockers -> blockers_declared s = false ->
  inner_ok s (begin_blockers_reshape (blocking_choices s) before s h).
Proof.
  intros [Hs _ Hd] Hask Hstep Hopen. unfold begin_blockers_reshape.
  pose proof (begin_remaining_spec (blocking_choices s) before s h) as (Eq & _ & Ed).
  destruct (begin_remaining _ _ _ _) as [queue h']. cbn in Eq, Ed. subst queue.
  constructor; [done| |by cbn; rewrite Ed]. intros rs [= <-].
  assert (NoDup (map fst (blocking_choices s)) /\ map fst (blocking_choices s) ⊆ live_attackers s) as [HN Hsub].
  { unfold blocking_choices. rewrite map_map, map_id. split.
    - rewrite blocking_order_perm. apply NoDup_filter. by apply attackers_NoDup.
    - intros a. by rewrite blocking_order_perm. }
  assert (map fst (filter (fun c => c.2 <> []) (blocking_choices s)) `sublist_of` map fst (blocking_choices s)) as Hsl.
  { apply fmap_sublist, sublist_filter. }
  constructor; unfold pending_attackers; cbn; try done.
  - by apply no_block_legal.
  - by eapply sublist_NoDup.
  - etrans; [by apply sublist_subseteq|done].
  - intros a ids (_ & Hin)%list_elem_of_filter. apply list_elem_of_fmap in Hin as (a' & [= -> ->] & _). done.
Qed.

Lemma priority_window_fields s h player b :
  blockers (priority_window s h player b).1 = blockers h
  /\ discard (priority_window s h player b).1 = discard h
  /\ priority_mode (priority_window s h player b).1 = priority_mode h.
Proof.
  unfold priority_window. destruct (bool_decide _).
  - destruct (_ || _); [done|]. by destruct (seat _ _).
  - by destruct (_ && _).
Qed.

(** What the surface shows next to a decision. *)
Definition shown s h (sd : SurfaceDecision.t PendingTrigger OtherDecision) : Prop :=
  match sd with
  | SurfaceDecision.DeclareBlockersForAttacker a free =>
      exists rs, blockers h = Some rs /\ current_attacker rs = Some a /\ free <> []
        /\ free = filter (.∉ map fst (accumulated rs)) (legal_blockers_for s a)
  | SurfaceDecision.Decision (EngineDecision.DeclareAttackers _ eligible) =>
      blockers h = None /\ eligible <> [] /\ eligible = eligible_attackers s
      /\ step_of s = Step.DeclareAttackers /\ attackers_declared s = false /\ attackers_asked s
  | SurfaceDecision.Decision _ => blockers h = None
  end.

Definition turn_ok (r : HarnessSurfaceV2 * State * option (SurfaceDecision.t PendingTrigger OtherDecision)) : Prop :=
  match r with
  | (h, s, None) => inner_ok s h
  | (h, s, Some sd) => inner_ok s h /\ shown s h sd
  end.

Lemma popped_turn_ok s r : popped_ok s r -> turn_ok r.
Proof.
  destruct r as [[h s'] [sd|]]; cbn.
  - intros (-> & Hok & rs & a & Eb & Ea & Hne & ->). split; [done|]. by exists rs.
  - by intros [? _].
Qed.

Lemma inner_ok_fields s h h' :
  inner_ok s h -> blockers h' = blockers h -> discard h' = discard h -> inner_ok s h'.
Proof. intros [? Hb Hd] Eb Ed. constructor; [done|by rewrite Eb|by rewrite Ed]. Qed.

(** A step the surface takes alone, after which it only writes its audit. *)
Lemma forced_turn_ok s h a reason before :
  inner_ok s h -> blockers h = None -> is_ok (engine_step s a).2 = true ->
  exists s', forced_step s a = Ok s' /\ inner_ok s' (record reason before (state_hash s') h).
Proof.
  intros [Hs _ Hd] Hb Ha. destruct (forced_step_ok s a Ha) as (s' & E & Hs'). exists s'. split; [done|].
  destruct (record_fields reason before (state_hash s') h) as [Eb Ed].
  constructor; [by apply Hs'|by rewrite Eb, Hb|by rewrite Ed].
Qed.

Lemma settle_ok s0 s h before d :
  sound_state s0 -> advance_until_decision s0 = (s, d) -> inner_ok s h -> blockers h = None ->
  exists r, settle s h before d = Ok r /\ turn_ok r.
Proof.
  intros Hs0 Ead Hok Hb.
  assert (shown_other : forall sd, turn_ok (h, s, Some (SurfaceDecision.Decision sd)) ->
            exists r, Ok (E:=()) (h, s, Some (SurfaceDecision.Decision sd)) = Ok r /\ turn_ok r) by eauto.
  destruct d as [player spells mana lands abilities plots|player eligible|player attackers legal
                |player count choices|player x y z|player pending|w|m src|player o]; cbn [settle];
    try (apply shown_other; split; done).
  - destruct (priority_mode h); [|apply shown_other; by split].
    pose proof (priority_window_fields s h player
      (bool_decide (spells = []) && bool_decide (mana = []) && bool_decide (lands = [])
       && bool_decide (abilities = []))) as (Eb & Ed & _).
    destruct (priority_window _ _ _ _) as [h' [reason|]]; cbn in Eb, Ed.
    + destruct (forced_turn_ok s h' EngineAction.Pass reason before) as (s' & -> & Hok').
      * by eapply inner_ok_fields.
      * by rewrite Eb.
      * by eapply pass_accepted.
      * by eexists.
    + eexists. split; [done|]. split; [by eapply inner_ok_fields|]. cbn. by rewrite Eb.
  - assert (attackers_asked s) as Hask by (by exists s0, player, eligible).
    destruct (advance_attackers _ _ _ _ Hs0 Ead) as (Hstep & Hopen & _ & ->).
    destruct (eligible_attackers s) as [|c el] eqn:Ee.
    + destruct (forced_turn_ok s h (EngineAction.DeclareAttackers []) NoEligibleAttacker before Hok Hb)
        as (s' & -> & Hok'); [|by eexists].
      apply attack_accepted; [done|]. rewrite <-Ee.
      apply all_eligible_legal; [exact (ok_sound _ _ Hok)|done|done].
    + eexists. split; [done|]. split; [done|]. cbn. by rewrite Ee.
  - assert (blockers_asked s) as Hask by (by exists s0, player, attackers, legal).
    destruct (advance_blockers _ _ _ _ _ Hs0 Ead) as (Hstep & Hopen & _ & ->).
    destruct (next_blockers_ok s (begin_blockers_reshape (blocking_choices s) before s h)) as (r & E & Hr).
    + by apply begin_reshape_ok.
    + exists r. split; [exact E|]. by eapply popped_turn_ok.
  - eexists. split; [done|]. constructor; [exact (ok_sound _ _ Hok)| |].
    + cbn. by rewrite Hb.
    + intros d' [= <-]. destruct (advance_discard _ _ _ _ _ Hs0 Ead) as (HN & Hc & Hm).
      split; [done|split; done].
  - destruct (_ || _); [|apply shown_other; by split]. eexists. split; [done|].
    by eapply inner_ok_fields.
Qed.

Lemma next_turn_ok s h : inner_ok s h -> exists r, next_turn s h = Ok r /\ turn_ok r.
Proof.
  intros Hok. unfold next_turn. destruct (next_blockers_ok s h Hok) as ([[h' s'] [sd|]] & -> & Hp); cbn [result_bind].
  { eexists. split; [done|]. by apply (popped_turn_ok s). }
  destruct Hp as [Hok' Hb]. unfold next_discard_subdecision, next_optional_cost_subdecision.
  destruct (discard h') as [d|]; [eexists; split; [done|]; by split|].
  destruct (optional_cost h') as [o|]; [eexists; split; [done|]; by split|].
  destruct (advance_until_decision s') as [s2 d] eqn:Ead.
  pose proof (ok_sound _ _ Hok') as Hs'.
  eapply settle_ok; [exact Hs'|exact Ead| |done].
  constructor; [by eapply sound_advance| |exact (ok_discard _ _ Hok')]. by rewrite Hb.
Qed.

(** The loop never panics, and what it shows is what the engine asks. *)
Lemma next_decision_ok fuel : forall s h r,
  inner_ok s h -> next_decision fuel s h = Some r ->
  exists h' s' sd, r = Ok (h', s', sd) /\ inner_ok s' h' /\ shown s' h' sd.
Proof.
  induction fuel as [|fuel IH]; intros s h r Hok; [done|]. cbn [next_decision].
  destruct (next_turn_ok s h Hok) as ([[h' s'] [sd|]] & -> & Ht).
  - intros [= <-]. destruct Ht as [? ?]. by exists h', s', sd.
  - apply (IH _ _ _ Ht).
Qed.
End Inv.
