(* ===== verification/SurfaceToy.v ===== *)
(** * A small engine for the witnesses

    One combat: player 0 has the creatures 1 and 2, of which 2 must attack, player 1
    has 3 and 4, and blocking 1 takes two creatures. Some priority windows with
    nothing to do come first and last. An attack is declared in two steps: the engine
    takes the creatures, asks for their target, and refuses everything else, the same
    declaration included, until it is told. *)

From S2P Require Import Prelude Ids Bytes SearchAuthority CombatRules CombatFacts Surface PolicySurface ScanFacts SurfaceInv.
Import PlayerIds.

Local Open Scope Z_scope.

Record Toy := MkToy {
  toy_step : Step.t;
  toy_attacks : option (list ObjectId);
  toy_blocks : option (list (ObjectId * ObjectId));
  windows : nat;
  toy_target : option (list ObjectId);
}.
#[export] Instance Toy_eq_dec : EqDecision Toy.
Proof. solve_decision. Defined.

Definition oid (z : Z) : ObjectId := MkObjectId z.

Definition toy_battlefield (p : PlayerId) : list ObjectId :=
  if decide (p = P0) then [oid 1; oid 2] else [oid 3; oid 4].

#[export] Instance toy_view : CombatView Toy := {|
  step_of := toy_step;
  attackers_declared s := match toy_attacks s with Some _ => true | None => false end;
  blockers_declared s := match toy_blocks s with Some _ => true | None => false end;
  combat_active_player _ := P0;
  turn_key _ := 1;
  extra_turn _ := false;
  battlefield_of _ := toy_battlefield;
  on_battlefield _ _ := true;
  controller_of _ id := if object_num id <=? 2 then P0 else P1;
  attacker_view _ _ := MkAttackerView true true false false false false 0 false;
  goaded_by _ _ := [];
  must_attack_each_combat _ id := object_num id =? 2;
  declared_attackers s := default [] (toy_attacks s);
  printed_minimum_blockers _ _ := 1;
  has_menace _ id := object_num id =? 1;
  minimum_blockers_override _ _ := None;
  is_flying _ _ := false;
  unblockable _ _ := false;
  blocker_view _ _ := MkBlockerView true true false false false;
  block_prohibited _ _ _ := false;
  effective_power _ _ := 1;
|}.

Definition toy_advance (s : Toy) : Toy * EngineDecision.t nat unit :=
  match toy_target s, windows s with
  | Some _, _ => (s, EngineDecision.Other P0 tt)
  | None, S _ => (s, EngineDecision.CastSpellOrPass P0 [] [] [] [] [])
  | None, O =>
      match toy_step s, toy_attacks s, toy_blocks s with
      | Step.DeclareAttackers, None, _ => (s, EngineDecision.DeclareAttackers P0 (eligible_attackers s))
      | Step.DeclareBlockers, _, None =>
          (s, EngineDecision.DeclareBlockers P1 (blocking_order s) (blocking_choices s))
      | _, _, _ => (s, EngineDecision.GameOver None)
      end
  end.

Definition toy_engine_step (s : Toy) (a : EngineAction.t unit) : Toy * result (list Z) unit :=
  match toy_target s, a with
  | Some l, EngineAction.Other _ => (MkToy Step.DeclareBlockers (Some l) (toy_blocks s) (windows s) None, Ok tt)
  | Some _, _ => (s, Err [])
  | None, EngineAction.Pass => (MkToy (toy_step s) (toy_attacks s) (toy_blocks s) (pred (windows s)) None, Ok tt)
  | None, EngineAction.DeclareAttackers l =>
      match validate_declare_attackers s l, l with
      | Ok _, [] => (MkToy Step.DeclareBlockers (Some []) (toy_blocks s) (windows s) None, Ok tt)
      | Ok _, _ => (MkToy (toy_step s) (toy_attacks s) (toy_blocks s) (windows s) (Some l), Ok tt)
      | Err _, _ => (s, Err [])
      end
  | None, EngineAction.DeclareBlockers l =>
      match validate_declare_blockers s l with
      | Ok _ => (MkToy Step.Main2 (toy_attacks s) (Some l) 1 None, Ok tt)
      | Err _ => (s, Err [])
      end
  | None, EngineAction.Discard _ => (s, Ok tt)
  | None, _ => (s, Err [])
  end.

#[export] Instance toy_surface_engine : SurfaceEngine Toy nat unit unit := {|
  advance_until_decision := toy_advance;
  engine_step := toy_engine_step;
  state_hash s := Z.of_nat (windows s);
  stack_len _ := 0%nat;
  stack_top _ := None;
  priority_round _ := 1;
  mana_ability_activations _ := 0;
  last_mana_ability_activator _ := None;
  pending_cast_spell _ := None;
|}.

#[export] Instance toy_policy_engine : PolicyEngine Toy nat := {|
  trigger_controller _ := P0;
  diagnostic_state_hash_algorithm _ := DIAGNOSTIC_STATE_HASH_ALGORITHM;
  diagnostic_state_hash s := Z.of_nat (windows s);
  binding_envelope_to_vec _ _ hash _ := Ok [hash mod 256];
|}.

#[export] Instance toy_declare_laws : DeclareLaws Toy nat unit unit.
Proof.
  constructor. intros s l e E. cbn. unfold toy_engine_step. rewrite E.
  by destruct (toy_target s); eexists.
Qed.

Lemma toy_battlefield_NoDup p : NoDup (toy_battlefield p).
Proof.
  unfold toy_battlefield. case_decide; (repeat constructor; [|by intros ?%elem_of_nil]);
    by intros ?%list_elem_of_singleton.
Qed.

Definition toy_sound (s : Toy) : Prop := NoDup (declared_attackers s) /\ NoDup (default [] (toy_target s)).

Lemma toy_sound_step s s' a u : toy_sound s -> toy_engine_step s a = (s', Ok u) -> toy_sound s'.
Proof.
  destruct s as [st ats bl n [l|]]; intros [Hs Ht]; cbn in Ht.
  { destruct a; try done. intros [= <-]. split; [done|constructor]. }
  destruct a; cbn [toy_engine_step toy_target]; try done.
  - by intros [= <-].
  - destruct (validate_declare_attackers _ attackers) as [[]|] eqn:E; [|done].
    destruct attackers as [|c l]; intros [= <-]; (split; cbn); [constructor|constructor|done|].
    apply validate_attackers_ok in E. exact (attack_NoDup _ _ E).
  - destruct (validate_declare_blockers _ blocks) as [[]|]; [|done]. by intros [= <-].
  - by intros [= <-].
Qed.

Lemma toy_advance_state s : (toy_advance s).1 = s.
Proof. by destruct s as [[] [] [] [] []]. Qed.

(** The declarations are asked for when no target is. *)
Lemma toy_advance_declare s s' d :
  toy_advance s = (s', d) ->
  match d with
  | EngineDecision.DeclareAttackers _ _ | EngineDecision.DeclareBlockers _ _ _ => toy_target s' = None
  | _ => True
  end.
Proof. by destruct s as [[] [] [] [] []]; intros [= <- <-]. Qed.

#[export] Instance toy_engine_laws : EngineLaws Toy nat unit unit.
Proof.
  refine {| sound_state := toy_sound |}; cbn.
  - intros s s' d Hs E. pose proof (toy_advance_state s) as Es. rewrite E in Es. cbn in Es. by subst.
  - apply toy_sound_step.
  - intros s p _. apply toy_battlefield_NoDup.
  - by intros s [Hs _].
  - intros s s' player el _. destruct s as [[] [] [] [] []]; try discriminate; by intros [= <- <- <-].
  - intros s s' player ats legal _. destruct s as [[] [] [] [] []]; try discriminate; by intros [= <- <- <- <-].
  - intros s s' player c ch _. destruct s as [[] [] [] [] []]; discriminate.
  - intros s s' player spells mana lands abilities plots _. destruct s as [[] [] [] [] []]; try discriminate; by intros [= <-].
  - intros s s' player el l _ E Hl. apply validate_attackers_ok in Hl. apply toy_advance_declare in E.
    unfold toy_engine_step. rewrite E, Hl. by destruct l.
  - intros s s' player ats legal l _ E Hl. apply validate_blockers_ok in Hl. apply toy_advance_declare in E.
    unfold toy_engine_step. by rewrite E, Hl.
Defined.

(** A sound state with a legal declaration that the engine refuses: the creatures are
    declared, their target is not. *)
Lemma toy_refuses_while_pending :
  let s := MkToy Step.DeclareAttackers None None 0 (Some [oid 2]) in
  toy_sound s /\ legal_attack s [oid 2]
  /\ engine_step (OtherAction:=unit) s (EngineAction.DeclareAttackers [oid 2]) = (s, Err []).
Proof.
  split; [|split; [|done]].
  - split; [constructor|]. apply NoDup_singleton.
  - by apply validate_attackers_ok.
Qed.
