(* ===== verification/AttackTargets.v ===== *)
(** * What each attacking creature attacks
    (src/mtg-kernel/src/attack_target_v1.rs, with apply_declare_attackers of engine.rs)

    A declaration against a player who controls planeswalkers is completed by one
    answer per attacker. The extension is absent while every attacker attacks the
    player. What combat damage reads of it is in CombatDamage.v. *)

From S2P Require Import Prelude Ids Bytes CombatDamage CombatRules CombatFacts SurfaceToy.
Import PlayerIds.

Record PendingAttackDeclarationV1 := MkPendingAttack {
  declared : list ObjectId;
  chosen : list Target;
}.

Record AttackTargetsV1 := MkAttackTargets {
  planeswalker_attacks : list (ObjectId * ObjectLinkV4);
  pending_declaration : option PendingAttackDeclarationV1;
}.

Inductive AttackTargetError :=
  | NoAttackTargetChoice
  | InvalidAttackTargetContinuation
  | IllegalDeclaration (error : DeclareError)
  | IllegalAttackTarget.

(** [Decision::ChooseAttackTarget] *)
Record ChooseAttackTarget := MkChooseAttackTarget {
  attack_player : PlayerId;
  attack_attacker : ObjectId;
  attack_candidates : list Target;
}.

(** The game, and the extension of its combat. *)
Record AttackGame (State : Type) := MkAttackGame {
  game : State;
  attack_targets_v1 : option AttackTargetsV1;
}.
Arguments MkAttackGame {_} _ _.
Arguments game {_} _.
Arguments attack_targets_v1 {_} _.

(** What this part asks of the engine besides [CombatView]: two facts about a
    permanent, and the completion of a declaration. *)
Class AttackEngine (State : Type) := {
  is_planeswalker : State -> ObjectId -> bool;
  zone_changes : State -> ObjectId -> Z;
  finish_declare_attackers : AttackGame State -> list ObjectId -> AttackGame State;
}.

Section AttackTargets.
Context {State : Type} `{!CombatView State} `{!AttackEngine State}.
Implicit Types s : State.
Implicit Types g : AttackGame State.

Definition defending_planeswalkers s (defender : PlayerId) : list ObjectId :=
  filter (fun id => on_battlefield s id && bool_decide (controller_of s id = defender) && is_planeswalker s id = true)
    (battlefield_of s defender).

Definition has_pending g : bool :=
  match attack_targets_v1 g with
  | Some targets => bool_decide (is_Some (pending_declaration targets))
  | None => false
  end.

Definition begin g (attackers : list ObjectId) : AttackGame State * bool :=
  if decide (attackers = []) then (g, false) else
  if decide (defending_planeswalkers (game g) (opponent (combat_active_player (game g))) = []) then (g, false) else
  (MkAttackGame (game g) (Some (MkAttackTargets [] (Some (MkPendingAttack attackers [])))), true).

Definition candidates s : list Target :=
  let defender := opponent (combat_active_player s) in
  TPlayer defender :: map TObject (defending_planeswalkers s defender).

Definition pending_attack g : result AttackTargetError PendingAttackDeclarationV1 :=
  let? pending := ok_or NoAttackTargetChoice (attack_targets_v1 g ≫= pending_declaration) in
  if bool_decide (step_of (game g) <> Step.DeclareAttackers) || attackers_declared (game g)
     || bool_decide (length (declared pending) <= length (chosen pending))%nat
  then Err InvalidAttackTargetContinuation else
  match validate_declare_attackers (game g) (declared pending) with
  | Err e => Err (IllegalDeclaration e)
  | Ok _ => Ok pending
  end.

Definition attack_decision g : option ChooseAttackTarget :=
  match pending_attack g with
  | Err _ => None
  | Ok pending =>
      attacker ← declared pending !! length (chosen pending);
      Some (MkChooseAttackTarget (combat_active_player (game g)) attacker (candidates (game g)))
  end.

(** The loop over [zip]: the attacks on planeswalkers, each by its incarnation. *)
Definition record_attacks s (attackers : list ObjectId) (targets : list Target) : list (ObjectId * ObjectLinkV4) :=
  omap (fun '(attacker, target) =>
          match target with
          | TObject planeswalker => Some (attacker, MkLink planeswalker (zone_changes s planeswalker))
          | _ => None
          end) (zip attackers targets).

(** From the push of the answer on. *)
Definition push_target g (attacks : list (ObjectId * ObjectLinkV4)) (pending : PendingAttackDeclarationV1) (target : Target)
  : AttackGame State :=
  let pending := MkPendingAttack (declared pending) (chosen pending ++ [target]) in
  if decide (length (chosen pending) < length (declared pending))%nat
  then MkAttackGame (game g) (Some (MkAttackTargets attacks (Some pending))) else
  let attacks := attacks ++ record_attacks (game g) (declared pending) (chosen pending) in
  finish_declare_attackers
    (MkAttackGame (game g) (if decide (attacks = []) then None else Some (MkAttackTargets attacks None)))
    (declared pending).

Definition answer g (target : Target) : AttackGame State * result AttackTargetError unit :=
  match pending_attack g with
  | Err e => (g, Err e)
  | Ok pending =>
      if negb (bool_decide (target ∈ candidates (game g))) then (g, Err IllegalAttackTarget) else
      (push_target g (default [] (planeswalker_attacks <$> attack_targets_v1 g)) pending target, Ok tt)
  end.

(** [apply_declare_attackers] of engine.rs *)
Definition apply_declare_attackers g (attackers : list ObjectId) : AttackGame State * result AttackTargetError unit :=
  match validate_declare_attackers (game g) attackers with
  | Err e => (g, Err (IllegalDeclaration e))
  | Ok _ =>
      match begin g attackers with
      | (g, true) => (g, Ok tt)
      | (g, false) => (finish_declare_attackers g attackers, Ok tt)
      end
  end.
End AttackTargets.

Definition remove_from_combat (targets : option AttackTargetsV1) (id : ObjectId) : option AttackTargetsV1 :=
  match targets with
  | None => None
  | Some targets =>
      let attacks := filter (fun e => e.1 <> id) (planeswalker_attacks targets) in
      if decide (attacks = [] /\ pending_declaration targets = None) then None
      else Some (MkAttackTargets attacks (pending_declaration targets))
  end.

Definition inherit_ninjutsu_target (targets : option AttackTargetsV1) (attacker : ObjectId) (target : ObjectLinkV4)
  : option AttackTargetsV1 :=
  let targets := default (MkAttackTargets [] None) targets in
  Some (MkAttackTargets (filter (fun e => e.1 <> attacker) (planeswalker_attacks targets) ++ [(attacker, target)])
          (pending_declaration targets)).

(** ** Answering a declaration *)

Section Facts.
Context {State : Type} `{!CombatView State} `{!AttackEngine State}.
Implicit Types s : State.
Implicit Types g : AttackGame State.

(** One answer after the other, to the first refused one. *)
Fixpoint answers g (targets : list Target) : AttackGame State * result AttackTargetError unit :=
  match targets with
  | [] => (g, Ok tt)
  | target :: targets =>
      match answer g target with
      | (g, Ok _) => answers g targets
      | refused => refused
      end
  end.

(** The declaration with the answers so far. *)
Definition asking s (attackers : list ObjectId) (targets : list Target) : AttackGame State :=
  MkAttackGame s (Some (MkAttackTargets [] (Some (MkPendingAttack attackers targets)))).

(** The extension of a declaration that is complete. *)
Definition completed s (attackers : list ObjectId) (targets : list Target) : option AttackTargetsV1 :=
  let attacks := record_attacks s attackers targets in
  if decide (attacks = []) then None else Some (MkAttackTargets attacks None).

Lemma asking_pending s attackers targets : legal_attack s attackers -> (length targets < length attackers)%nat ->
  pending_attack (asking s attackers targets) = Ok (MkPendingAttack attackers targets).
Proof.
  intros H Hl. unfold pending_attack, asking. cbn. rewrite (bool_decide_eq_false_2 (_ <> _)) by (intros []; apply H).
  rewrite (attack_open _ _ H), bool_decide_eq_false_2 by lia. cbn. by rewrite (proj2 (validate_attackers_ok _ _) H).
Qed.

Lemma asking_answer s attackers targets t : legal_attack s attackers -> (length targets < length attackers)%nat ->
  answer (asking s attackers targets) t =
  if decide (t ∈ candidates s) then
    (if decide (S (length targets) < length attackers)%nat then asking s attackers (targets ++ [t])
     else finish_declare_attackers (MkAttackGame s (completed s attackers (targets ++ [t]))) attackers, Ok tt)
  else (asking s attackers targets, Err IllegalAttackTarget).
Proof.
  intros H Hl. unfold answer. rewrite asking_pending by done. cbn [game asking attack_targets_v1].
  case_decide as Hc; [rewrite bool_decide_eq_true_2 by done|by rewrite bool_decide_eq_false_2]. cbn.
  unfold push_target. cbn. rewrite length_app. cbn. rewrite Nat.add_1_r. by case_decide.
Qed.

Lemma answers_asking s attackers targets : legal_attack s attackers -> forall before,
  Forall (.∈ candidates s) targets -> (length before + length targets <= length attackers)%nat -> targets <> [] ->
  answers (asking s attackers before) targets =
  (if decide (length before + length targets < length attackers)%nat then asking s attackers (before ++ targets)
   else finish_declare_attackers (MkAttackGame s (completed s attackers (before ++ targets))) attackers, Ok tt).
Proof.
  intros H. induction targets as [|t targets IH]; intros before Hc Hl Hne; [done|].
  apply Forall_cons in Hc as [Ht Hc]. cbn in Hl. cbn [answers].
  rewrite asking_answer by (done || lia). rewrite decide_True by done.
  destruct targets as [|u targets].
  - cbn. rewrite (Nat.add_1_r (length before)). by case_decide.
  - rewrite decide_True by (cbn in Hl; lia). rewrite IH; [|done|rewrite length_app; cbn in *; lia|done].
    rewrite <-app_assoc. cbn. rewrite length_app. cbn.
    by replace (length before + 1 + S (length targets))%nat with (length before + S (S (length targets)))%nat by lia.
Qed.

Lemma recorded_none s attackers targets : length targets = length attackers -> Forall (.∈ candidates s) targets ->
  record_attacks s attackers targets = [] <-> Forall (eq (TPlayer (opponent (combat_active_player s)))) targets.
Proof.
  unfold record_attacks. revert attackers. induction targets as [|t targets IH]; intros [|a attackers] Hl Hc; try done.
  apply Forall_cons in Hc as [Ht Hc]. cbn in Hl. specialize (IH attackers ltac:(lia) Hc). cbn [zip zip_with]. rewrite Forall_cons.
  unfold candidates in Ht. apply elem_of_cons in Ht as [->|(w & -> & _)%list_elem_of_fmap]; cbn.
  - rewrite IH. tauto.
  - split; [done|]. by intros [[=] _].
Qed.

(** The recorded attacks, as combat damage finds them. *)
Lemma find_recorded s attackers targets i attacker t :
  NoDup attackers -> attackers !! i = Some attacker -> targets !! i = Some t ->
  List.find (fun e => bool_decide (e.1 = attacker)) (record_attacks s attackers targets)
  = match t with TObject w => Some (attacker, MkLink w (zone_changes s w)) | _ => None end.
Proof.
  revert targets i. unfold record_attacks.
  induction attackers as [|a attackers IH]; intros [|u targets] [|i] Hnd Ha Ht; try done; cbn [zip zip_with].
  - injection Ha as ->. injection Ht as ->. apply NoDup_cons in Hnd as [Hn _].
    assert (List.find (fun e => bool_decide (e.1 = attacker)) (record_attacks s attackers targets) = None) as Hnone.
    { destruct (List.find _ _) as [[x l]|] eqn:E; [|done]. exfalso. apply List.find_some in E as [Hin Hx].
      cbn in Hx. apply bool_decide_eq_true in Hx as ->. apply Hn. apply list_elem_of_In, list_elem_of_omap in Hin as ([y v] & Hin & Ev).
      apply elem_of_zip_l in Hin. by destruct v; simplify_eq. }
    destruct t; cbn; rewrite ?bool_decide_eq_true_2 by done; done.
  - apply NoDup_cons in Hnd as [Hn Hnd]. cbn in Ha, Ht.
    assert (a <> attacker) as Hne by (intros ->; apply Hn; by eapply list_elem_of_lookup_2).
    destruct u; cbn; rewrite ?bool_decide_eq_false_2 by done; by apply (IH targets i).
Qed.

(** ** Properties *)

(** C27: a legal declaration against a player who controls planeswalkers asks for each attacker in turn, offers the player
    and the planeswalkers and refuses any other target without an effect; the answer for the last attacker completes the
    declaration, with the extension gone exactly when every attacker attacks the player, and otherwise such that combat
    damage finds for each attacker the planeswalker chosen for it, in its present incarnation. *)
Theorem every_attacker_gets_its_target g attackers :
  legal_attack (game g) attackers -> attackers <> [] ->
  defending_planeswalkers (game g) (opponent (combat_active_player (game g))) <> [] ->
  exists g0, apply_declare_attackers g attackers = (g0, Ok tt) /\ forall ts,
  Forall (.∈ candidates (game g)) ts ->
  (forall attacker, attackers !! length ts = Some attacker ->
     exists g', answers g0 ts = (g', Ok tt)
     /\ attack_decision g' = Some (MkChooseAttackTarget (combat_active_player (game g)) attacker (candidates (game g)))
     /\ forall t, (t ∉ candidates (game g)) -> answer g' t = (g', Err IllegalAttackTarget))
  /\ (length ts = length attackers ->
      exists targets, answers g0 ts = (finish_declare_attackers (MkAttackGame (game g) targets) attackers, Ok tt)
      /\ (targets = None <-> Forall (eq (TPlayer (opponent (combat_active_player (game g))))) ts)
      /\ forall b i attacker t, CombatDamage.planeswalker_attacks b = default [] (planeswalker_attacks <$> targets) ->
         attackers !! i = Some attacker -> ts !! i = Some t ->
         attacked_planeswalker b attacker = match t with TObject w => Some (MkLink w (zone_changes (game g) w)) | _ => None end).
Proof.
  intros H Hne Hw. exists (asking (game g) attackers []). split.
  { unfold apply_declare_attackers, begin. rewrite (proj2 (validate_attackers_ok _ _) H), !decide_False by done. done. }
  intros ts Hts. split.
  - intros attacker Ha. pose proof (lookup_lt_Some _ _ _ Ha) as Hlt. exists (asking (game g) attackers ts). split_and!.
    + destruct ts as [|t ts]; [done|]. rewrite answers_asking by (done || cbn in *; lia). by rewrite decide_True.
    + unfold attack_decision. rewrite asking_pending by done. cbn. by rewrite Ha.
    + intros t Ht. rewrite asking_answer by done. by rewrite decide_False.
  - intros El. exists (completed (game g) attackers ts). split_and!.
    + rewrite answers_asking; [|done|done|cbn; lia|by intros ->; destruct attackers]. rewrite decide_False by (cbn; lia). done.
    + unfold completed. rewrite <-(recorded_none (game g) attackers ts) by done. by case_decide.
    + intros b i attacker t Eb Ha Ht. unfold attacked_planeswalker. rewrite Eb.
      replace (default [] _) with (record_attacks (game g) attackers ts) by (unfold completed; by case_decide).
      rewrite (find_recorded (game g) attackers ts i attacker t (attack_NoDup _ _ H) Ha Ht). by destruct t.
Qed.

(** Without planeswalkers or attackers the declaration is complete at once. *)
Lemma no_target_to_choose g attackers :
  legal_attack (game g) attackers ->
  attackers = [] \/ defending_planeswalkers (game g) (opponent (combat_active_player (game g))) = [] ->
  apply_declare_attackers g attackers = (finish_declare_attackers g attackers, Ok tt).
Proof.
  intros H Hor. unfold apply_declare_attackers, begin. rewrite (proj2 (validate_attackers_ok _ _) H).
  by destruct Hor as [->| ->]; case_decide; rewrite ?decide_True by done.
Qed.
End Facts.

(** A creature removed from combat attacks nothing, the others attack what they did. *)
Lemma removed_attacks_nothing targets id b b' attacker :
  CombatDamage.planeswalker_attacks b = default [] (planeswalker_attacks <$> targets) ->
  CombatDamage.planeswalker_attacks b' = default [] (planeswalker_attacks <$> remove_from_combat targets id) ->
  attacked_planeswalker b' attacker = if decide (attacker = id) then None else attacked_planeswalker b attacker.
Proof.
  intros Eb Eb'. unfold attacked_planeswalker. rewrite Eb, Eb'. destruct targets as [[l p]|]; cbn; [|by case_decide].
  replace (default [] _) with (filter (fun e => e.1 <> id) l) by (by case_decide as E; [destruct E as [-> _]|]).
  clear. induction l as [|[a w] l IH]; [by case_decide|]. cbn [List.find fst].
  rewrite filter_cons. cbn [fst]. destruct (decide (a <> id)) as [Ha|Ha]; [cbn [List.find fst]; case_bool_decide; [subst; by rewrite decide_False|done]|].
  apply dec_stable in Ha as ->. rewrite IH. case_decide as Hd; [done|]. by rewrite bool_decide_eq_false_2 by congruence.
Qed.

(** ** In the game of SurfaceToy.v *)

#[export] Instance toy_attack_engine : AttackEngine Toy := {
  is_planeswalker _ id := bool_decide (id = oid 3);
  zone_changes _ _ := 2%Z;
  finish_declare_attackers g attackers :=
    MkAttackGame (MkToy (toy_step (game g)) (Some attackers) (toy_blocks (game g)) (windows (game g)) None) (attack_targets_v1 g);
}.

Lemma every_attacker_gets_its_target_witness :
  exists g0, apply_declare_attackers (MkAttackGame (MkToy Step.DeclareAttackers None None 0 None) None) [oid 1; oid 2] = (g0, Ok tt)
  /\ exists targets, answers g0 [TObject (oid 3); TPlayer P1]
     = (MkAttackGame (MkToy Step.DeclareAttackers (Some [oid 1; oid 2]) None 0 None) targets, Ok tt).
Proof.
  destruct (every_attacker_gets_its_target (MkAttackGame (MkToy Step.DeclareAttackers None None 0 None) None) [oid 1; oid 2])
    as (g0 & E & H).
  - apply validate_attackers_ok. vm_compute. reflexivity.
  - discriminate.
  - vm_compute. discriminate.
  - exists g0. split; [exact E|]. destruct (H [TObject (oid 3); TPlayer P1]) as [_ Hfin].
    + (repeat constructor); apply (bool_decide_eq_true _); vm_compute; reflexivity.
    + destruct (Hfin eq_refl) as (targets & Et & _). exists targets. exact Et.
Defined.
