(* ===== verification/SessionInv.v ===== *)
(** * Sessions of the policy surface

    A session answers the decision it is shown and asks for the next one, at one
    more revision. Its invariant is that of SurfaceInv.v with the scan: what is
    shown can be answered, and asking never panics. *)

From S2P Require Import Prelude Ids CombatRules CombatFacts Surface PolicySurface ScanFacts SurfaceInv.

Local Open Scope Z_scope.

Section Session.
Context {State PendingTrigger OtherDecision OtherAction : Type}.
Context `{!EqDecision State} `{!EqDecision PendingTrigger} `{!EqDecision OtherDecision}.
Context `{!CombatView State} `{!SurfaceEngine State PendingTrigger OtherDecision OtherAction}.
Context `{!PolicyEngine State PendingTrigger}.
Context `{!EngineLaws State PendingTrigger OtherDecision OtherAction}.
Implicit Types s : State.
Implicit Types h : HarnessSurfaceV2.
Implicit Types p : PolicySurfaceV5 PendingTrigger.

(** ** Answers to the inner surface *)

Lemma refused_ok (r : State * result (list Z) unit) s' :
  refused r = (s', Ok tt) -> r = (s', Ok tt).
Proof. destruct r as [s1 [[]|]]; cbn; congruence. Qed.

Lemma engine_step_sound s s' a :
  sound_state s -> refused (engine_step (OtherAction:=OtherAction) s a) = (s', Ok tt) -> sound_state s'.
Proof. intros Hs E. apply refused_ok in E. by eapply sound_step. Qed.

Lemma inner_ok_step s s' h h' :
  inner_ok s h -> sound_state s' -> blockers h' = None -> (discard h' = None \/ discard h' = discard h) ->
  inner_ok s' h' /\ blockers h' = None.
Proof.
  intros [_ _ Hd] Hs' Hb Hd'. split; [|done]. constructor; [done|by rewrite Hb|].
  destruct Hd' as [->| ->]; [done|exact Hd].
Qed.

Lemma discard_one_ok d id :
  discard_ok d -> id ∈ remaining_choices d -> remaining_needed d <> 1 ->
  discard_ok (MkDiscardReshape (discard_player d) (filter (fun c => c <> id) (remaining_choices d))
                (chosen d ++ [id]) ((remaining_needed d - 1) mod 2 ^ 32)).
Proof.
  intros (HN & [Hpos Hle] & Hmax) Hin Hne. unfold discard_ok. cbn [chosen remaining_choices remaining_needed].
  apply NoDup_app in HN as (HNc & Hdis & HNr).
  assert (remaining_choices d ≡ₚ id :: filter (fun c => c <> id) (remaining_choices d)) as Hperm.
  { clear -Hin HNr. induction HNr as [|x l Hx HN IH]; [by apply elem_of_nil in Hin|].
    destruct (decide (x = id)) as [->|Hxi].
    - rewrite filter_cons_False by (intros Hn; by apply Hn). rewrite filter_all; [done|].
      apply list.Forall_forall. by intros c Hc ->.
    - apply elem_of_cons in Hin as [->|Hin]; [done|]. rewrite filter_cons_True by done.
      rewrite IH at 1 by done. constructor. }
  pose proof (Permutation_length Hperm) as Hlen. cbn [length] in Hlen.
  unfold u32_max in *. rewrite Z.mod_small by lia. split; [|split; lia].
  rewrite <-app_assoc. cbn. apply NoDup_app. split; [done|]. rewrite <-Hperm. split; [|done].
  intros c Hc. by rewrite <-Hperm; apply Hdis.
Qed.

Lemma discard_picked d id : discard_ok d -> Z.of_nat (length [id : ObjectId]) mod 2 ^ 32 <> remaining_needed d ->
  remaining_needed d <> 1.
Proof. cbn. intros _ H E. by rewrite E in H. Qed.

Lemma apply_discard_ok s h picked h' s' :
  inner_ok s h -> blockers h = None ->
  apply_discard (OtherAction:=OtherAction) s h picked = (h', s', Ok tt) -> inner_ok s' h' /\ blockers h' = None.
Proof.
  intros Hok Hb. unfold apply_discard. destruct (discard h) as [d|] eqn:Ed; [|done].
  destruct (negb _) eqn:Ec; [done|]. case_decide as Hn.
  - destruct (refused _) as [s1 r] eqn:Er. intros [= <- <- ->]. eapply inner_ok_step; [exact Hok| |done|by left].
    eapply engine_step_sound; [exact (ok_sound _ _ Hok)|exact Er].
  - destruct picked as [|id [|]]; try done. intros [= <- <-]. split; [|done].
    constructor; [exact (ok_sound _ _ Hok)|by cbn; rewrite Hb|]. intros d' [= <-].
    pose proof (ok_discard _ _ Hok d Ed) as Hd. apply discard_one_ok; [done| |by eapply discard_picked].
    apply negb_false_iff, forallb_bool_decide in Ec. by inversion Ec.
Qed.

Lemma surface_apply_ok s h a h' s' :
  inner_ok s h -> blockers h = None ->
  surface_apply (OtherAction:=OtherAction) s h a = (h', s', Ok tt) -> inner_ok s' h' /\ blockers h' = None.
Proof.
  intros Hok Hb. pose proof (ok_sound _ _ Hok) as Hs.
  assert (through : forall a h1, refused (engine_step s a) = (s', Ok tt) ->
            blockers h1 = None -> discard h1 = discard h -> inner_ok s' h1 /\ blockers h1 = None).
  { intros a' h1 E Hb1 Hd1. eapply inner_ok_step; [exact Hok|by eapply engine_step_sound|done|by right]. }
  assert (paid : forall choice, pay s h choice = (h', s', Ok tt) -> inner_ok s' h' /\ blockers h' = None).
  { intros choice. unfold pay. destruct (refused _) as [s1 r] eqn:Er. intros [= <- <- ->]. by eapply through. }
  destruct a as [a|ids].
  2:{ cbn. unfold apply_blockers_for_attacker. rewrite Hb. cbn. done. }
  assert (plain : forall a, (let (s1, r) := refused (engine_step s a) in (h, s1, r)) = (h', s', Ok tt) ->
            inner_ok s' h' /\ blockers h' = None).
  { intros a'. destruct (refused _) as [s1 r] eqn:Er. intros [= <- <- ->]. by eapply through. }
  destruct a as [| | |picked|choice|use_it|order|cast_it|o]; cbn [surface_apply];
    [exact (plain _)|exact (plain _)|exact (plain _)|by apply apply_discard_ok|exact (paid choice)|..|exact (plain _)].
  - unfold apply_optional_cost_stage. destruct (optional_cost h) as [o|]; [|done].
    destruct (cost_stage o); [|destruct use_it; apply paid].
    destruct use_it; cbn [negb]; [|apply paid].
    destruct (discard_payable o), (sacrifice_payable o); try apply paid; [|done].
    intros [= <- <-]. split; [|done]. by eapply inner_ok_fields.
  - unfold apply_order_triggers. destruct (refused _) as [s1 [[]|]] eqn:Er; [|done].
    destruct (exempted _ _); intros [= <- <-]; by eapply through.
  - destruct cast_it; [|exact (plain _)]. unfold apply_madness_cast.
    destruct (refused _) as [s1 [[]|]] eqn:Er; [|done]. intros [= <- <-]. by eapply through.
Qed.

(** ** The invariant *)

Record policy_ok p s (revision : Z) : Prop := {
  pol_inner : inner_ok s (inner p);
  pol_revision : 0 <= revision;
  pol_scan : forall sc, scan p = Some sc -> at_scan p s sc revision /\ completable s (inner p) sc;
  pol_attackers : forall pr, scan p = Some (Attackers pr) -> blockers (inner p) = None /\ attackers_asked s;
  pol_order : hunter_order_v45 p <> None -> scan p = None /\ blockers (inner p) = None;
}.

(** What holds next to a decision: a reshape is asked about by a scan. *)
Definition shown_ok p s (revision : Z) : Prop :=
  policy_ok p s revision /\ (scan p = None -> blockers (inner p) = None).

Lemma fresh_ok s mode audit : sound_state s -> policy_ok (policy_surface_new mode audit) s 0.
Proof. intros Hs. by constructor; [constructor|..]. Qed.

Lemma no_scan_ok p s h o revision :
  inner_ok s h -> blockers h = None -> 0 <= revision ->
  policy_ok (MkPolicySurface h None (hunter_order_enabled_v45 p) o (infoset_marks p)) s revision.
Proof. intros Hok Hb Hr. by constructor. Qed.

Lemma open_scan_ok p s sc revision :
  inner_ok s (inner p) -> 0 <= revision -> hunter_order_v45 p = None ->
  scan_wf s (inner p) sc -> completable s (inner p) sc -> same_attacker (inner p) sc ->
  binding (progress_of sc) = OwnedEnvironmentRevision revision ->
  match sc with Attackers _ => blockers (inner p) = None /\ attackers_asked s | _ => True end ->
  shown_ok (with_scan p (Some sc)) s revision.
Proof.
  intros Hok Hr Ho Hwf Hc Hsame Hb Hk. split; [|done]. constructor; try done.
  - intros sc' [= <-]. by split.
  - intros pr [= ->]. done.
Qed.

(** ** Presenting *)

Lemma initialize_fields p s origin revision p' :
  initialize_hunter_order_v45 (OtherDecision:=OtherDecision) p s origin revision = Ok p' ->
  inner p' = inner p /\ scan p' = scan p
  /\ (hunter_order_v45 p' = hunter_order_v45 p \/ scan p = None).
Proof.
  unfold initialize_hunter_order_v45, scan_active. destruct (negb _).
  { intros [= <-].
    split; [done|split; [done|by left]]. }
  destruct (hunter_order_v45 p) eqn:Eo.
  - destruct (scan p) eqn:Es; [done|]. rewrite result_bind_ok. intros (_ & _ & E). case_decide; [done|].
    injection E as <-. split; [done|split; [done|by right]].
  - assert (p' = p -> inner p' = inner p /\ scan p' = scan p /\ (hunter_order_v45 p' = None \/ scan p = None)) as same.
    { intros ->. split; [done|split; [done|by left]]. }
    destruct origin as [[d|]| |]; try (intros [= <-]; by apply same).
    destruct d; try (intros [= <-]; by apply same). case_decide; [|intros [= <-]; by apply same].
    destruct (scan p) eqn:Es; [done|]. rewrite result_bind_ok. intros (_ & _ & [= <-]). cbn. split; [done|split; [done|by right]].
Qed.

Lemma present_other_ok p s sd revision p' s' d :
  inner_ok s (inner p) -> 0 <= revision -> scan p = None -> blockers (inner p) = None ->
  present_other p s (OwnedRevision revision) sd = (p', s', Ok d) -> shown_ok p' s' revision.
Proof.
  intros Hok Hr Hs Hb. assert (Hp : shown_ok p s revision).
  { split; [|done]. constructor; try done; rewrite ?Hs; done. }
  unfold present_other. destruct (_ && _); [|by intros [= <- <- <-]].
  destruct (initialize_hunter_order_v45 p s _ revision) as [p1|] eqn:Ei; [|done]. intros [= <- <- <-].
  destruct (initialize_fields _ _ _ _ _ Ei) as (Ei1 & Ei2 & _). split; [|by rewrite Ei1].
  constructor; rewrite ?Ei1, ?Ei2, ?Hs; done.
Qed.

Lemma present_ok p s sd revision p' s' d :
  inner_ok s (inner p) -> 0 <= revision -> scan p = None -> hunter_order_v45 p = None -> shown s (inner p) sd ->
  present p s (OwnedRevision revision) sd = (p', s', Ok d) -> shown_ok p' s' revision.
Proof.
  intros Hok Hr Hs Ho Hsh. pose proof (ok_sound _ _ Hok) as Hsound.
  destruct sd as [[]|a [|b free]]; cbn [present];
    try (apply present_other_ok; done).
  - destruct eligible as [|c el]; [by destruct Hsh as (_ & ? & _)|].
    destruct Hsh as (Hb & Hne & Ee & Hstep & Hopen & Hask). rewrite Ee in Hne |- *. unfold open_scan. cbn [scan_binding].
    intros E. injection E as <- <- _.
    destruct (open_attackers s (inner p) player (OwnedEnvironmentRevision revision) Hsound Hstep Hopen Hne).
    by apply open_scan_ok.
  - by destruct Hsh as (rs & _ & _ & ? & _).
  - destruct Hsh as (rs & Eb & Ea & Hne & Ee). rewrite Ee in Hne |- *. unfold open_scan. cbn [scan_binding].
    intros E. injection E as <- <- _.
    destruct (open_blockers s (inner p) (opponent (controller_of s a)) (OwnedEnvironmentRevision revision) rs a
                Hsound Eb (ok_blockers _ _ Hok _ Eb) Ea Hne).
    apply open_scan_ok; try done. by exists rs.
Qed.

Lemma next_shown_ok fuel p s revision r :
  policy_ok p s revision ->
  next_decision_with_binding (OtherAction:=OtherAction) fuel p s (OwnedRevision revision) = Some r ->
  exists p' s' d, r = Ok (p', s', d) /\ (forall d', d = Ok d' -> shown_ok p' s' revision).
Proof.
  intros [Hok Hr Hsc Hat Ho]. unfold next_decision_with_binding.
  destruct (hunter_order_v45 p) as [order|] eqn:Eo.
  { destruct (initialize_hunter_order_v45 p s _ revision) as [p1|e] eqn:Ei.
    - intros [= <-]. do 3 eexists. split; [done|]. intros d' _.
      destruct (initialize_fields _ _ _ _ _ Ei) as (Ei1 & Ei2 & _).
      destruct Ho as [Hs Hb]; [done|].
      split; [|by rewrite Ei1]. constructor; rewrite ?Ei1, ?Ei2, ?Hs; done.
    - intros [= <-]. do 3 eexists. split; [done|]. done. }
  destruct (scan p) as [sc|] eqn:Es.
  { intros [= <-]. do 3 eexists. split; [done|]. intros d' _.
    split; [|by rewrite Es]. by constructor; rewrite ?Es, ?Eo. }
  destruct (next_decision fuel s (inner p)) as [r'|] eqn:En; [|done].
  destruct (next_decision_ok _ _ _ _ Hok En) as (h' & s' & sd & -> & Hok' & Hsh). intros [= <-].
  destruct (present (with_inner p h') s' (OwnedRevision revision) sd) as [[p1 s1] d] eqn:Ep.
  exists p1, s1, d. split; [done|]. intros d' ->.
  exact (present_ok (with_inner p h') s' sd revision p1 s1 d' Hok' Hr Es Eo Hsh Ep).
Qed.

(** ** Answering *)

Lemma apply_inner_ok p s a p' s' revision :
  inner_ok s (inner p) -> blockers (inner p) = None -> scan p = None -> hunter_order_v45 p = None ->
  0 <= revision ->
  apply_inner (OtherAction:=OtherAction) p s a = (p', s', Ok tt) -> policy_ok p' s' revision.
Proof.
  intros Hok Hb Hs Ho Hr. unfold apply_inner.
  destruct (surface_apply s (inner p) a) as [[h s1] [[]|e]] eqn:Ea; [|done]. intros [= <- <-].
  destruct (surface_apply_ok _ _ _ _ _ Hok Hb Ea) as [Hok' Hb'].
  constructor; cbn; rewrite ?Hs, ?Ho; done.
Qed.

Lemma scan_answer_inclusion sc a include :
  scan_answer (OtherAction:=OtherAction) sc a = Ok include -> a = inclusion sc include.
Proof.
  unfold scan_answer. destruct sc as [pr|att pr], a as [sa|actor c i|actor att' c i]; try done; cbn.
  - repeat case_decide; try done. intros [= ->]. by subst.
  - repeat case_decide; try done. intros [= ->]. by subst.
Qed.

(** The blocks of a finished scan. *)
Lemma committed_blocks_ok p s att pr ids h s' revision :
  policy_ok p s revision -> scan p = Some (Blockers att pr) ->
  surface_apply (OtherAction:=OtherAction) s (inner p) (SurfaceAction.DeclareBlockersForAttacker ids) = (h, s', Ok tt) ->
  inner_ok s' h.
Proof.
  intros [Hok _ Hsc _ _] Es. destruct (Hsc _ Es) as [Hat _].
  destruct (at_attacker _ _ _ _ Hat) as (rs & Eb & Ea). cbn. unfold apply_blockers_for_attacker.
  rewrite Eb. cbn. rewrite Ea. cbn.
  destruct (validate_declare_blockers_for_attacker s (inner p) att ids) as [[]|] eqn:Ev; [|done].
  pose proof (ok_blockers _ _ Hok _ Eb) as [Hask _ HN Hl Hli Hf]. unfold pending_attackers in *. rewrite Ea in *.
  destruct (remaining rs) as [|next queue] eqn:Er.
  - destruct (refused _) as [s1 [[]|]] eqn:Ee; [|done]. intros [= <- <-].
    constructor; [eapply engine_step_sound; [exact (ok_sound _ _ Hok)|exact Ee]|done|exact (ok_discard _ _ Hok)].
  - intros [= <- <-]. constructor; [exact (ok_sound _ _ Hok)| |exact (ok_discard _ _ Hok)]. intros rs' [= <-].
    assert (legal_block s (accumulated rs ++ map (fun b => (b, att)) ids)) as Hlegal.
    { apply validate_blockers_ok. unfold validate_declare_blockers_for_attacker in Ev. rewrite Eb, Ea in Ev.
      rewrite decide_False in Ev by (intros Hn; by apply Hn).
      by destruct (validate_declare_blockers s _) as [[]|]. }
    cbn [app] in HN. apply NoDup_cons in HN as [Hnin HN].
    constructor; unfold pending_attackers; cbn [accumulated current_attacker remaining app]; try done.
    + intros x Hx. apply Hl. by right.
    + intros a Hin. rewrite assigned_app, assigned_to_other, app_nil_r; [apply Hf; by right|].
      intros ->. done.
Qed.

Lemma apply_shown_ok p s a revision p' s' :
  shown_ok p s revision -> revision < u64_max ->
  apply_owned (OtherAction:=OtherAction) p s a revision (revision + 1) = (p', s', Ok tt) ->
  policy_ok p' s' (revision + 1).
Proof.
  intros [Hp Hsh] Hmax. pose proof Hp as [Hok Hr Hsc Hat Ho].
  destruct (hunter_order_v45 p) as [order|] eqn:Eo.
  { destruct Ho as [Hs Hb]; [done|]. unfold apply_owned. case_decide; [done|]. unfold apply_in_place. rewrite Eo.
    unfold apply_hunter_order_v45. destruct (validate_hunter_order_action_v45 p s a _) as [[order' next]|]; [|done].
    case_decide.
    - intros [= <- <-]. constructor; cbn; rewrite ?Hs; try done. lia.
    - unfold apply_inner. destruct (surface_apply s (inner p) _) as [[h s1] [[]|e]] eqn:Ea; [|done].
      intros [= <- <-]. destruct (surface_apply_ok _ _ _ _ _ Hok Hb Ea) as [Hok' Hb'].
      constructor; cbn; rewrite ?Hs; try done. lia. }
  destruct (scan p) as [sc|] eqn:Es.
  2:{ unfold apply_owned, apply_in_place. rewrite Eo, Es. case_decide; [done|].
      destruct a as [a| |]; try done. destruct (apply_inner p s a) as [[p1 s1] [[]|e]] eqn:Ea; [|done].
      intros [= <- <-]. by apply (apply_inner_ok p s a); [..|lia|]; auto. }
  destruct (Hsc _ eq_refl) as [Hscan Hcompl]. intros Happ.
  assert (exists include, a = inclusion sc include) as [include ->].
  { revert Happ. unfold apply_owned, apply_in_place. rewrite Eo, Es. case_decide; [done|]. unfold apply_scan.
    destruct (validate_binding s (inner p) sc _) as [[]|]; [|done].
    destruct (validate_shape sc) as [[]|]; [|done].
    destruct (scan_answer sc a) as [include|] eqn:Ean; [|done]. intros _. exists include.
    by apply scan_answer_inclusion. }
  destruct (decide (last_step sc)) as [Hlast|Hlast].
  - rewrite (apply_last_answer _ _ _ _ _ Hscan Hmax Hlast) in Happ.
    destruct (surface_apply s (inner p) _) as [[h s1] [[]|e]] eqn:Ea; [|done]. injection Happ as <- <-.
    assert (inner_ok s1 h) as Hok'.
    { destruct sc as [pr|att pr]; [|by eapply committed_blocks_ok].
      eapply surface_apply_ok; [exact Hok|by eapply Hat|exact Ea]. }
    constructor; cbn; rewrite ?Eo; try done. lia.
  - rewrite (apply_middle_answer _ _ _ _ _ Hscan Hmax Hlast) in Happ.
    destruct (answer_keeps_a_legal_completion s (inner p) sc include) as [[]|] eqn:Ek; [|done]. injection Happ as <- <-.
    constructor; cbn; rewrite ?Eo; try done; [lia| |].
    + intros sc' [= <-]. split; [by apply at_next_scan|].
      apply answered_completable; [exact (at_wf _ _ _ _ Hscan)|exact Ek].
    + intros pr [= E]. destruct sc; [by eapply Hat|done].
Qed.

(** ** Sessions *)

Inductive session : PolicySurfaceV5 PendingTrigger -> State -> Z -> Prop :=
  | session_start mode audit (hunter : bool) fuel s p' s' d :
      sound_state s ->
      next_decision_with_binding (OtherAction:=OtherAction) fuel
        (if hunter then enable_hunter_order_v45 (policy_surface_new mode audit) else policy_surface_new mode audit)
        s (OwnedRevision 0) = Some (Ok (p', s', Ok d)) ->
      session p' s' 0
  | session_answer fuel p s revision a p1 s1 p' s' d :
      session p s revision -> revision < u64_max ->
      apply_owned (OtherAction:=OtherAction) p s a revision (revision + 1) = (p1, s1, Ok tt) ->
      next_decision_with_binding (OtherAction:=OtherAction) fuel p1 s1 (OwnedRevision (revision + 1))
        = Some (Ok (p', s', Ok d)) ->
      session p' s' (revision + 1).

Lemma session_shown p s revision : session p s revision -> shown_ok p s revision.
Proof.
  induction 1 as [mode audit hunter fuel s p' s' d Hs En|fuel p s revision a p1 s1 p' s' d _ IH Hmax Ha En].
  - apply next_shown_ok in En as (p2 & s2 & d2 & [= -> -> <-] & H); [by eapply H|].
    destruct hunter; by constructor; [constructor|..].
  - pose proof (apply_shown_ok _ _ _ _ _ _ IH Hmax Ha) as Hp.
    apply next_shown_ok in En as (p2 & s2 & d2 & [= -> -> <-] & H); [by eapply H|done].
Qed.

(** ** Every scan has an answer *)

Lemma legal_declaration_accepted p s sc revision ids :
  policy_ok p s revision -> scan p = Some sc ->
  validate_declared s (inner p) sc ids = Ok tt ->
  exists h s', surface_apply (OtherAction:=OtherAction) s (inner p) (declaration sc ids) = (h, s', Ok tt).
Proof.
  intros [Hok _ Hsc Hatt _] Es. destruct (Hsc _ Es) as [Hat _].
  assert (accepted : forall a, is_ok (engine_step s a).2 = true ->
            exists s', refused (engine_step (OtherAction:=OtherAction) s a) = (s', Ok tt)).
  { intros a. destruct (engine_step s a) as [s' [[]|]]; [|done]. by exists s'. }
  destruct sc as [pr|att pr]; intros Hv.
  - apply validate_declared_attackers in Hv. cbn.
    destruct (accepted _ (attack_accepted s ids (proj2 (Hatt _ Es)) Hv)) as [s' ->]. by eexists _, s'.
  - pose proof Hv as Hv'. apply validate_declared_blockers in Hv' as (rs & Eb & Ea & Hl).
    cbn. unfold apply_blockers_for_attacker. rewrite Eb. cbn. rewrite Ea. cbn.
    cbn in Hv. destruct (validate_declare_blockers_for_attacker s (inner p) att ids) as [[]|]; [|done].
    destruct (remaining rs) as [|next queue]; [|by eexists _, s].
    destruct (accepted _ (block_accepted s _ (ok_asked _ _ (ok_blockers _ _ Hok _ Eb)) Hl)) as [s' ->]. by eexists _, s'.
Qed.

Lemma scan_answerable p s sc revision :
  shown_ok p s revision -> scan p = Some sc -> revision < u64_max ->
  exists include p' s',
    apply_owned (OtherAction:=OtherAction) p s (inclusion sc include) revision (revision + 1) = (p', s', Ok tt).
Proof.
  intros [Hp _] Es Hmax. pose proof (pol_scan _ _ _ Hp sc Es) as [Hat Hc].
  destruct (completable_answer _ _ _ (at_wf _ _ _ _ Hat) Hc) as [include Hk]. exists include.
  destruct (decide (last_step sc)) as [Hlast|Hlast].
  - rewrite (apply_last_answer _ _ _ _ _ Hat Hmax Hlast).
    apply (probe_decides _ _ _ _ (at_wf _ _ _ _ Hat)) in Hk as (rest & Hr & Hv).
    unfold later in Hr. rewrite drop_ge in Hr by (unfold last_step in Hlast; lia).
    apply sublist_nil_r in Hr as ->. rewrite app_nil_r in Hv.
    destruct (legal_declaration_accepted _ _ _ _ _ Hp Es Hv) as (h & s' & ->). by eexists _, s'.
  - rewrite (apply_middle_answer _ _ _ _ _ Hat Hmax Hlast), Hk. by eexists _, s.
Qed.
End Session.
