(* ===== verification/SurfaceDiscard.v ===== *)
(** * The audit mode, and discards asked card by card

    What the audit mode of the surface records changes no decision, result or game;
    and a discard of several cards commits the distinct picks in one step. *)

From S2P Require Import Prelude Ids CombatRules Surface PolicySurface SurfaceToy.
Import PlayerIds.

Local Open Scope Z_scope.

Definition counts_of (a : Audit) : SuppressionCounts :=
  match suppression_audit_mode a with
  | AuditFull => fold_left (fun c x => increment c (suppression_reason x)) (suppressions a) zero_counts
  | AuditCountOnly => audit_counts a
  | AuditOff => zero_counts
  end.

(** The counts agree where both modes keep them. *)
Definition same_counts (a1 a2 : Audit) : Prop :=
  suppression_audit_mode a1 <> AuditOff -> suppression_audit_mode a2 <> AuditOff -> counts_of a1 = counts_of a2.

Inductive agree (h1 : HarnessSurfaceV2) : HarnessSurfaceV2 -> Prop :=
  | agree_intro a : same_counts (audit h1) a -> agree h1 (with_audit h1 a).

(** [record] on the audit alone. *)
Definition record_audit (reason : SuppressionReason) (before after : Z) (a : Audit) : Audit :=
  match suppression_audit_mode a with
  | AuditCountOnly => MkAudit AuditCountOnly (increment (audit_counts a) reason) (suppressions a)
  | AuditOff => a
  | AuditFull => MkAudit AuditFull (audit_counts a) (suppressions a ++ [MkSuppression reason before after])
  end.

Lemma record_is_record_audit reason x y h : record reason x y h = with_audit h (record_audit reason x y (audit h)).
Proof. unfold record, record_audit. destruct (suppression_audit_mode (audit h)); try done. by destruct h. Qed.

Lemma record_audit_counts reason x y a :
  suppression_audit_mode a <> AuditOff ->
  suppression_audit_mode (record_audit reason x y a) <> AuditOff
  /\ counts_of (record_audit reason x y a) = increment (counts_of a) reason.
Proof.
  destruct a as [[] c l]; unfold record_audit, counts_of; cbn; intros Hm; try done.
  split; [done|]. by rewrite fold_left_app.
Qed.

Lemma record_audit_off reason x y a :
  suppression_audit_mode (record_audit reason x y a) = suppression_audit_mode a.
Proof. by destruct a as [[] c l]. Qed.

Lemma record_agree reason x y h1 h2 :
  agree h1 h2 -> agree (record reason x y h1) (record reason x y h2).
Proof.
  intros [a Hc]. rewrite !record_is_record_audit.
  apply (agree_intro (with_audit h1 (record_audit reason x y (audit h1)))). intros H1 H2. cbn [audit with_audit] in *.
  rewrite record_audit_off in H1, H2.
  destruct (record_audit_counts reason x y (audit h1) H1) as [_ ->].
  destruct (record_audit_counts reason x y a H2) as [_ ->]. by rewrite Hc.
Qed.

Section Inert.
Context {State PendingTrigger OtherDecision OtherAction : Type}.
Context `{!CombatView State} `{!SurfaceEngine State PendingTrigger OtherDecision OtherAction}.
Implicit Types s : State.
Implicit Types h : HarnessSurfaceV2.
Abbreviation surfaced := (SurfaceDecision.t PendingTrigger OtherDecision).

(** Results that agree up to the audit. *)
Inductive agree_turn : result unit (HarnessSurfaceV2 * State * option surfaced) ->
    result unit (HarnessSurfaceV2 * State * option surfaced) -> Prop :=
  | agree_ok h1 h2 s sd : agree h1 h2 -> agree_turn (Ok (h1, s, sd)) (Ok (h2, s, sd))
  | agree_panic : agree_turn (Err tt) (Err tt).

Lemma agree_with h1 h2 (f : HarnessSurfaceV2 -> HarnessSurfaceV2) :
  (forall h a, f (with_audit h a) = with_audit (f h) a) -> (forall h, audit (f h) = audit h) ->
  agree h1 h2 -> agree (f h1) (f h2).
Proof. intros Hf Ha [a Hc]. rewrite Hf. constructor. by rewrite Ha. Qed.

Lemma agree_fields h1 h2 : agree h1 h2 ->
  priority_mode h2 = priority_mode h1 /\ blockers h2 = blockers h1 /\ scalars h2 = scalars h1
  /\ madness_cast_reprompt_exemption h2 = madness_cast_reprompt_exemption h1
  /\ discard h2 = discard h1 /\ optional_cost h2 = optional_cost h1.
Proof. by intros []. Qed.

Lemma begin_remaining_agree legal before s : forall h1 h2, agree h1 h2 ->
  (begin_remaining legal before s h1).1 = (begin_remaining legal before s h2).1
  /\ agree (begin_remaining legal before s h1).2 (begin_remaining legal before s h2).2.
Proof.
  induction legal as [|[a ids] legal IH]; intros h1 h2 H; [done|]. cbn [begin_remaining].
  destruct ids; [by apply IH, record_agree|]. destruct (IH _ _ H) as [E1 E2].
  destruct (begin_remaining legal before s h1), (begin_remaining legal before s h2). cbn in *. by subst.
Qed.

Lemma pop_attackers_agree queue : forall blocks s h1 h2, agree h1 h2 ->
  agree_turn (pop_attackers queue blocks s h1) (pop_attackers queue blocks s h2).
Proof.
  induction queue as [|[a ids] queue IH]; intros blocks s h1 h2 H; cbn [pop_attackers].
  - unfold finish_blockers_reshape. destruct (forced_step s _) as [s'|[]]; cbn; constructor.
    by apply (agree_with _ _ (fun h => with_blockers h None)).
  - destruct (filter _ ids) as [|b free]; [by apply IH, record_agree|]. constructor.
    by apply (agree_with _ _ (fun h => with_blockers h (Some (MkBlockersReshape queue blocks (Some a))))).
Qed.

Lemma next_blockers_agree s h1 h2 :
  agree h1 h2 -> agree_turn (next_blockers_subdecision s h1) (next_blockers_subdecision s h2).
Proof.
  intros H. unfold next_blockers_subdecision. destruct (agree_fields _ _ H) as (_ & -> & _).
  destruct (blockers h1); [by apply pop_attackers_agree|by constructor].
Qed.

Lemma priority_window_agree s h1 h2 player b : agree h1 h2 ->
  (priority_window s h1 player b).2 = (priority_window s h2 player b).2
  /\ agree (priority_window s h1 player b).1 (priority_window s h2 player b).1.
Proof.
  intros H. destruct (agree_fields _ _ H) as (_ & _ & Es & Em & _). unfold priority_window. rewrite Es, Em.
  assert (forall c, agree (with_scalars (with_madness h1 None) c) (with_scalars (with_madness h2 None) c)) as Hc.
  { intros c. by apply (agree_with _ _ (fun h => with_scalars (with_madness h None) c)). }
  destruct (bool_decide _).
  - destruct (_ || _); [split; [done|apply Hc]|]. destruct (seat _ _); (split; [done|apply Hc]).
  - destruct (_ && _); (split; [done|apply Hc]).
Qed.

Lemma settle_agree s h1 h2 before d :
  agree h1 h2 -> agree_turn (settle s h1 before d) (settle s h2 before d).
Proof.
  intros H. destruct d as [player spells mana lands abilities plots|player eligible|player attackers legal
                |player count choices|player x y z|player pending|w|m src|player o]; cbn [settle]; try by constructor.
  - destruct (agree_fields _ _ H) as (-> & _). destruct (priority_mode h1); [|by constructor].
    destruct (priority_window_agree s h1 h2 player (bool_decide (spells = []) && bool_decide (mana = [])
      && bool_decide (lands = []) && bool_decide (abilities = [])) H) as [E1 E2].
    destruct (priority_window s h1 _ _) as [h1' r1], (priority_window s h2 _ _) as [h2' r2]. cbn in *. subst r2.
    destruct r1 as [reason|]; [|by constructor].
    destruct (forced_step s _) as [s'|[]]; cbn; constructor. by apply record_agree.
  - destruct eligible; [|by constructor]. destruct (forced_step s _) as [s'|[]]; cbn; constructor. by apply record_agree.
  - apply next_blockers_agree. unfold begin_blockers_reshape.
    destruct (begin_remaining_agree legal before s _ _ H) as [E1 E2].
    destruct (begin_remaining legal before s h1) as [q1 h1'], (begin_remaining legal before s h2) as [q2 h2'].
    cbn in *. subst q2. by apply (agree_with _ _ (fun h => with_blockers h (Some (MkBlockersReshape q1 [] None)))).
  - constructor. by apply (agree_with _ _ (fun h => with_discard h (Some (MkDiscardReshape player choices [] count)))).
  - destruct (_ || _); constructor; [|done].
    by apply (agree_with _ _ (fun h => with_optional_cost h (Some (MkOptionalCostReshape player x y Use)))).
Qed.

Lemma next_turn_agree s h1 h2 : agree h1 h2 -> agree_turn (next_turn s h1) (next_turn s h2).
Proof.
  intros H. unfold next_turn. destruct (next_blockers_agree s h1 h2 H) as [h1' h2' s' sd H'|]; [|constructor].
  cbn [result_bind]. destruct sd as [sd|]; [by constructor|].
  destruct (agree_fields _ _ H') as (_ & _ & _ & _ & Ed & Eo).
  unfold next_discard_subdecision, next_optional_cost_subdecision. rewrite Ed, Eo.
  destruct (discard h1'); [by constructor|]. destruct (optional_cost h1'); [by constructor|].
  destruct (advance_until_decision s') as [s2 d]. by apply settle_agree.
Qed.

Inductive agree_next : option (result unit (HarnessSurfaceV2 * State * surfaced)) ->
    option (result unit (HarnessSurfaceV2 * State * surfaced)) -> Prop :=
  | next_same h1 h2 s sd : agree h1 h2 -> agree_next (Some (Ok (h1, s, sd))) (Some (Ok (h2, s, sd)))
  | next_panic : agree_next (Some (Err tt)) (Some (Err tt))
  | next_fuel : agree_next None None.

Lemma next_decision_agree fuel : forall s h1 h2, agree h1 h2 ->
  agree_next (next_decision fuel s h1) (next_decision fuel s h2).
Proof.
  induction fuel as [|fuel IH]; intros s h1 h2 H; cbn [next_decision]; [constructor|].
  destruct (next_turn_agree s h1 h2 H) as [h1' h2' s' [sd|] H'|]; [by constructor|by apply IH|constructor].
Qed.

Inductive agree_apply : HarnessSurfaceV2 * State * result SurfaceError unit ->
    HarnessSurfaceV2 * State * result SurfaceError unit -> Prop :=
  | apply_same h1 h2 s r : agree h1 h2 -> agree_apply (h1, s, r) (h2, s, r).

Lemma through_agree s h1 h2 a : agree h1 h2 ->
  agree_apply (let (s', r) := refused (engine_step s a) in (h1, s', r))
              (let (s', r) := refused (engine_step s a) in (h2, s', r)).
Proof. intros H. destruct (refused _). by constructor. Qed.

Lemma agree_optional h1 h2 o : agree h1 h2 -> agree (with_optional_cost h1 o) (with_optional_cost h2 o).
Proof. by apply (agree_with _ _ (fun h => with_optional_cost h o)). Qed.
Lemma agree_discard h1 h2 d : agree h1 h2 -> agree (with_discard h1 d) (with_discard h2 d).
Proof. by apply (agree_with _ _ (fun h => with_discard h d)). Qed.
Lemma agree_blockers h1 h2 b : agree h1 h2 -> agree (with_blockers h1 b) (with_blockers h2 b).
Proof. by apply (agree_with _ _ (fun h => with_blockers h b)). Qed.

Lemma apply_blockers_agree s h1 h2 ids : agree h1 h2 ->
  agree_apply (apply_blockers_for_attacker s h1 ids) (apply_blockers_for_attacker s h2 ids).
Proof.
  intros H. destruct (agree_fields _ _ H) as (_ & Eb & _).
  unfold apply_blockers_for_attacker, validate_declare_blockers_for_attacker. rewrite Eb.
  destruct (blockers h1) as [rs|]; cbn; [|by constructor]. destruct (current_attacker rs) as [a|]; cbn; [|by constructor].
  destruct (decide _); [by constructor|]. destruct (validate_declare_blockers s _); [|by constructor].
  destruct (remaining rs); [|by constructor; apply agree_blockers].
  destruct (refused _) as [s' [[]|]]; constructor; [by apply agree_blockers|done].
Qed.

Lemma apply_discard_agree s h1 h2 picked : agree h1 h2 ->
  agree_apply (apply_discard s h1 picked) (apply_discard s h2 picked).
Proof.
  intros H. destruct (agree_fields _ _ H) as (_ & _ & _ & _ & Ed & _). unfold apply_discard. rewrite Ed.
  destruct (discard h1) as [d|]; [|by constructor]. destruct (negb _); [by constructor|]. case_decide.
  - destruct (refused _). constructor. by apply agree_discard.
  - destruct picked as [|id [|]]; constructor; try done. by apply agree_discard.
Qed.

Lemma apply_optional_agree s h1 h2 use_it : agree h1 h2 ->
  agree_apply (apply_optional_cost_stage s h1 use_it) (apply_optional_cost_stage s h2 use_it).
Proof.
  intros H. destruct (agree_fields _ _ H) as (_ & _ & _ & _ & _ & Eo).
  assert (forall choice, agree_apply (pay s h1 choice) (pay s h2 choice)) as Hpay.
  { intros choice. unfold pay. destruct (refused _). constructor. by apply agree_optional. }
  unfold apply_optional_cost_stage. rewrite Eo. destruct (optional_cost h1) as [o|]; [|by constructor].
  destruct (cost_stage o); [|apply Hpay]. destruct (negb use_it); [apply Hpay|].
  destruct (discard_payable o), (sacrifice_payable o); try apply Hpay; constructor; [by apply agree_optional|done].
Qed.

Lemma surface_apply_agree s h1 h2 a : agree h1 h2 ->
  agree_apply (surface_apply s h1 a) (surface_apply s h2 a).
Proof.
  intros H. destruct a as [a|ids]; [|by apply apply_blockers_agree].
  destruct a as [| | |picked|choice|use_it|order|[|]|o]; cbn [surface_apply]; try by apply through_agree.
  - by apply apply_discard_agree.
  - destruct (refused _). constructor. by apply agree_optional.
  - by apply apply_optional_agree.
  - destruct (agree_fields _ _ H) as (_ & _ & Ec & Em & _). unfold apply_order_triggers. rewrite Ec, Em.
    destruct (refused _) as [s' [[]|]]; [|by constructor]. destruct (exempted _ _); constructor; [|done].
    by apply (agree_with _ _ (fun h => with_scalars h _)).
  - unfold apply_madness_cast. destruct (refused _) as [s' [[]|]]; constructor; [|done].
    by apply (agree_with _ _ (fun h => with_madness h _)).
Qed.

(** ** Driving a surface through answers *)

Fixpoint drive (fuel : nat) s h (answers : list (SurfaceAction.t OtherAction))
  : option (result unit (list (surfaced * result SurfaceError unit) * State * HarnessSurfaceV2)) :=
  match answers with
  | [] => Some (Ok ([], s, h))
  | a :: answers =>
      match next_decision fuel s h with
      | None => None
      | Some (Err tt) => Some (Err tt)
      | Some (Ok (h, s, sd)) =>
          let '(h, s, r) := surface_apply s h a in
          match drive fuel s h answers with
          | Some (Ok (trace, s, h)) => Some (Ok ((sd, r) :: trace, s, h))
          | other => other
          end
      end
  end.

Lemma drive_agree fuel answers : forall s h1 h2, agree h1 h2 ->
  match drive fuel s h1 answers, drive fuel s h2 answers with
  | Some (Ok (t1, s1, h1)), Some (Ok (t2, s2, h2)) => t1 = t2 /\ s1 = s2 /\ agree h1 h2
  | Some (Err tt), Some (Err tt) | None, None => True
  | _, _ => False
  end.
Proof.
  induction answers as [|a answers IH]; intros s h1 h2 H; cbn [drive]; [done|].
  destruct (next_decision_agree fuel s h1 h2 H) as [h1' h2' s' sd H'| |]; [|done|done].
  destruct (surface_apply_agree s' h1' h2' a H') as [h1a h2a sa r Ha]. specialize (IH sa h1a h2a Ha).
  destruct (drive fuel sa h1a answers) as [[[[t1 s1] x1]|[]]|], (drive fuel sa h2a answers) as [[[[t2 s2] x2]|[]]|];
    try done. by destruct IH as (-> & -> & ?).
Qed.

(** The audit mode changes nothing but the audit: two fresh surfaces driven by the same answers show the
    same decisions, give the same results and reach the same game and public context; where both keep counts,
    the counts are equal. *)
Theorem audit_modes_are_inert fuel s (mode : PriorityModeV1) (audit1 audit2 : SuppressionAuditMode)
    (answers : list (SurfaceAction.t OtherAction)) :
  match drive fuel s (new_with_priority_mode_v1 mode audit1) answers,
        drive fuel s (new_with_priority_mode_v1 mode audit2) answers with
  | Some (Ok (t1, s1, h1)), Some (Ok (t2, s2, h2)) =>
      t1 = t2 /\ s1 = s2 /\ public_context h1 = public_context h2
      /\ (suppression_audit_mode (audit h1) <> AuditOff -> suppression_audit_mode (audit h2) <> AuditOff ->
          suppression_counts h1 = suppression_counts h2)
  | Some (Err tt), Some (Err tt) | None, None => True
  | _, _ => False
  end.
Proof.
  assert (agree (new_with_priority_mode_v1 mode audit1) (new_with_priority_mode_v1 mode audit2)) as H.
  { apply (agree_intro (new_with_priority_mode_v1 mode audit1) (MkAudit audit2 zero_counts [])).
    by destruct audit1, audit2. }
  pose proof (drive_agree fuel answers s _ _ H) as Hd.
  destruct (drive fuel s _ answers) as [[[[t1 s1] h1]|[]]|]; destruct (drive fuel s _ answers) as [[[[t2 s2] h2]|[]]|];
    try done. destruct Hd as (-> & -> & [a Hc]). split; [done|split; [done|split; [done|]]]. exact Hc.
Qed.
End Inert.

Section Discards.
Context {State PendingTrigger OtherDecision OtherAction : Type}.
Context `{!CombatView State} `{!SurfaceEngine State PendingTrigger OtherDecision OtherAction}.
Implicit Types s : State.
Implicit Types h : HarnessSurfaceV2.

(** Single picks, up to the first refusal. *)
Fixpoint discard_each s h (picks : list ObjectId) : HarnessSurfaceV2 * State * result SurfaceError unit :=
  match picks with
  | [] => (h, s, Ok tt)
  | id :: picks =>
      match surface_apply s h (SurfaceAction.Action (EngineAction.Discard [id])) with
      | (h, s, Ok _) => discard_each s h picks
      | other => other
      end
  end.

Lemma discard_each_from picks : forall s h d,
  discard h = Some d -> picks <> [] -> remaining_needed d = Z.of_nat (length picks) ->
  remaining_needed d <= u32_max ->
  (NoDup picks -> picks ⊆ remaining_choices d ->
     discard_each s h picks =
     let (s', r) := refused (engine_step s (EngineAction.Discard (chosen d ++ picks))) in (with_discard h None, s', r))
  /\ (~ (NoDup picks /\ picks ⊆ remaining_choices d) ->
     exists h', discard_each s h picks = (h', s, Err DiscardNotACandidate)).
Proof.
  induction picks as [|id picks IH]; intros s h d Hd Hne Hn Hmax; [done|].
  cbn [discard_each surface_apply]. unfold apply_discard. rewrite Hd. cbn [forallb length].
  rewrite andb_true_r. destruct (decide (id ∈ remaining_choices d)) as [Hin|Hnin].
  2:{ rewrite bool_decide_eq_false_2 by done. cbn [negb]. split; [|by eexists].
      intros _ Hsub. exfalso. apply Hnin, Hsub. by left. }
  rewrite bool_decide_eq_true_2 by done. cbn [negb]. change (Z.of_nat 1 mod 2 ^ 32) with 1.
  destruct picks as [|id2 picks].
  - rewrite decide_True by (cbn in Hn; lia). split.
    + intros _ _. by destruct (refused _) as [s' [[]|]].
    + intros H. exfalso. apply H. split; [apply NoDup_singleton|]. by intros x ->%list_elem_of_singleton.
  - cbn [length] in Hn. rewrite decide_False by lia. unfold u32_max in Hmax.
    set (d' := MkDiscardReshape (discard_player d) (filter (fun c => c <> id) (remaining_choices d)) (chosen d ++ [id])
                 ((remaining_needed d - 1) mod 2 ^ 32)).
    assert (remaining_needed d' = Z.of_nat (length (id2 :: picks))) as Hn'.
    { cbn [remaining_needed d' length]. rewrite Z.mod_small by lia. lia. }
    destruct (IH s (with_discard h (Some d')) d' eq_refl ltac:(done) Hn' ltac:(rewrite Hn'; cbn [length]; unfold u32_max; lia)) as [H1 H2].
    assert (id2 :: picks ⊆ remaining_choices d' <-> (id ∉ id2 :: picks) /\ id2 :: picks ⊆ remaining_choices d) as Hsub.
    { unfold d'. cbn [remaining_choices]. split.
      - intros Hs. split; [intros Hx; by apply Hs, list_elem_of_filter in Hx as [? _]|].
        intros x Hx. by apply Hs, list_elem_of_filter in Hx as [_ ?].
      - intros [Hx Hs] x Hin'. apply list_elem_of_filter. split; [by intros ->|by apply Hs]. }
    split.
    + intros [Hx HN]%NoDup_cons Hs. rewrite H1; [|done|].
      * cbn [chosen d']. rewrite <-app_assoc. done.
      * apply Hsub. split; [done|]. intros y Hy. apply Hs. by right.
    + intros H. apply H2. intros [HN [Hx Hs]%Hsub]. apply H. split; [by constructor|].
      intros y [->|Hy]%elem_of_cons; [done|by apply Hs].
Qed.
End Discards.

(** A discard of several cards asked one card at a time commits exactly the picked cards, in the order of the
    picks, in one engine step, when they are distinct cards of the offered ones; otherwise some pick is refused and the game
    is as before. *)
Theorem discards_commit_the_distinct_picks {State PendingTrigger OtherDecision OtherAction : Type}
    `{!CombatView State} `{!SurfaceEngine State PendingTrigger OtherDecision OtherAction}
    (s : State) (h : HarnessSurfaceV2) (player : PlayerId) (choices picks : list ObjectId) :
  discard h = Some (MkDiscardReshape player choices [] (Z.of_nat (length picks))) ->
  picks <> [] -> Z.of_nat (length picks) <= u32_max ->
  (NoDup picks -> picks ⊆ choices ->
     discard_each s h picks =
     let (s', r) := refused (engine_step s (EngineAction.Discard picks)) in (with_discard h None, s', r))
  /\ (~ (NoDup picks /\ picks ⊆ choices) ->
     exists h', discard_each s h picks = (h', s, Err DiscardNotACandidate)).
Proof.
  intros Hd Hne Hmax. exact (discard_each_from picks s h _ Hd Hne eq_refl Hmax).
Qed.

Lemma discards_commit_the_distinct_picks_witness :
  let h := with_discard (new_with_priority_mode_v1 EngineWindowsV1 AuditOff)
             (Some (MkDiscardReshape P0 [oid 1; oid 2; oid 3] [] 2)) in
  exists h', discard_each (MkToy Step.Main1 None None 0 None) h [oid 2; oid 2]
             = (h', MkToy Step.Main1 None None 0 None, Err DiscardNotACandidate).
Proof.
  refine (proj2 (discards_commit_the_distinct_picks (MkToy Step.Main1 None None 0 None)
    (with_discard (new_with_priority_mode_v1 EngineWindowsV1 AuditOff)
       (Some (MkDiscardReshape P0 [oid 1; oid 2; oid 3] [] 2))) P0
    [oid 1; oid 2; oid 3] [oid 2; oid 2] eq_refl _ _) _).
  - discriminate.
  - vm_compute. discriminate.
  - intros [HN _]. apply NoDup_cons in HN as [Hx _]. apply Hx. by left.
Defined.
