(* ===== verification/SurfaceFacts.v ===== *)
(** * What the decision surfaces guarantee

    The answers of a combat scan, the declarations it commits, the in-place path,
    and sessions: no scan is stuck and asking never panics. *)

From S2P Require Import Prelude Ids CombatRules CombatFacts Surface PolicySurface ScanFacts SurfaceInv SessionInv SurfaceToy.
Import PlayerIds.

Local Open Scope Z_scope.

(** ** Helpers for the witnesses *)

(** The attack declaration of the small engine, before the first answer. *)
Definition toy_attack : Toy := MkToy Step.DeclareAttackers None None 0 None.
Definition toy_attack_scan (b : CombatScanBindingV5) : CombatScanV5 :=
  Attackers (MkProgress P0 [oid 1; oid 2] 0 [] b).
Definition toy_surface : PolicySurfaceV5 nat :=
  with_scan (policy_surface_new EngineWindowsV1 AuditOff) (Some (toy_attack_scan (OwnedEnvironmentRevision 0))).

Lemma toy_attack_wf h b : scan_wf toy_attack h (toy_attack_scan b).
Proof.
  constructor; cbn; [lia|done| |done].
  repeat constructor; [by intros ?%list_elem_of_singleton|by intros ?%elem_of_nil].
Qed.

Lemma toy_at_scan : at_scan toy_surface toy_attack (toy_attack_scan (OwnedEnvironmentRevision 0)) 0.
Proof. constructor; try done. apply toy_attack_wf. Qed.

(** The first decision of a session of the small engine: the attack. *)
Definition toy_windows : Toy := MkToy Step.DeclareAttackers None None 2 None.

Lemma toy_session : session (OtherAction:=unit) toy_surface toy_attack 0.
Proof.
  eapply (session_start EngineWindowsV1 AuditOff false 1 toy_attack toy_surface toy_attack); [split; constructor|reflexivity].
Qed.

(** A session where the surface passes the two empty windows first. *)
Definition toy_passing : PolicySurfaceV5 nat := policy_surface_new HarnessV2 AuditFull.

(** The windows the small engine can still open for the surface alone. *)
Definition toy_quiet (s : Toy) : nat :=
  windows s + (if toy_attacks s is Some _ then 0 else 1) + (if toy_blocks s is Some _ then 0 else 2).

Lemma toy_quiet_drops (s s' : Toy) d a s'' :
  advance_until_decision s = (s', d) -> answered_alone d a -> forced_step s' a = Ok s'' ->
  (toy_quiet s'' < toy_quiet s)%nat.
Proof.
  cbn. unfold toy_advance, forced_step. intros E Hd. destruct s as [st ats bl n [l|]]; cbn in *.
  { injection E as <- <-. inversion Hd. }
  destruct n as [|n].
  - destruct st, ats as [ats|], bl as [bl|]; injection E as <- <-; inversion Hd; subst;
      cbn [engine_step toy_surface_engine toy_engine_step toy_target];
      try (destruct (validate_declare_attackers _ _); [|discriminate]);
      try (destruct (validate_declare_blockers _ _); [|discriminate]); intros [= <-]; cbn; lia.
  - injection E as <- <-. inversion Hd; subst. cbn. intros [= <-]. cbn. lia.
Qed.

(** ** Properties *)

(** C16: accepting an answer during a combat scan is exact: the two probes, the smallest and the largest
    completion, find a legal declaration if and only if some completion of the answered prefix is one the
    validator of the rules engine accepts. *)
Theorem probing_two_completions_is_exact {State : Type} `{!CombatView State}
    (s : State) (h : HarnessSurfaceV2) (sc : CombatScanV5) (include : bool) :
  scan_wf s h sc ->
  answer_keeps_a_legal_completion s h sc include = Ok tt <->
  exists rest, rest `sublist_of` drop (S (cursor (progress_of sc))) (ordered_candidates (progress_of sc))
    /\ validate_declared s h sc
         (selected (progress_of sc) ++ (if include then [current (progress_of sc)] else []) ++ rest) = Ok tt.
Proof.
  intros Hwf. rewrite (probe_decides _ _ _ _ Hwf). unfold answered, later.
  split; intros (rest & ? & ?); exists rest; by rewrite ?app_assoc in *.
Qed.

(** Declining the creature that must attack is refused where including it is not. *)
Lemma probing_two_completions_is_exact_witness :
  let sc := toy_attack_scan (OwnedEnvironmentRevision 0) in
  answer_keeps_a_legal_completion toy_attack (inner toy_surface) sc false = Ok tt
  <-> exists rest, rest `sublist_of` [oid 2]
      /\ validate_declared toy_attack (inner toy_surface) sc ([] ++ [] ++ rest) = Ok tt.
Proof.
  exact (probing_two_completions_is_exact toy_attack (inner toy_surface)
    (toy_attack_scan (OwnedEnvironmentRevision 0)) false (toy_attack_wf _ _)).
Defined.

(** C17: answering a scan to its end succeeds if and only if the chosen creatures are a declaration that the
    validator accepts and the surface commits, and then it has the effect of that one declaration; a run that fails
    has changed neither the game nor the surface behind the scan. *)
Theorem scan_commits_exactly_its_declaration {State PendingTrigger OtherDecision OtherAction : Type}
    `{!EqDecision State} `{!EqDecision PendingTrigger} `{!EqDecision OtherDecision}
    `{!CombatView State} `{!SurfaceEngine State PendingTrigger OtherDecision OtherAction}
    `{!PolicyEngine State PendingTrigger} `{!DeclareLaws State PendingTrigger OtherDecision OtherAction}
    (p : PolicySurfaceV5 PendingTrigger) (s : State) (sc : CombatScanV5) (revision : Z) (bits : list bool) :
  at_scan p s sc revision -> length bits = left_to_answer sc ->
  revision + Z.of_nat (length bits) <= u64_max ->
  (forall p' s', run_answers (OtherAction:=OtherAction) p s revision bits = (p', s', Ok tt) <->
     validate_declared s (inner p) sc (declared_by sc bits) = Ok tt
     /\ exists h, surface_apply (OtherAction:=OtherAction) s (inner p) (declaration sc (declared_by sc bits)) = (h, s', Ok tt)
                 /\ p' = with_scan (with_inner p h) None)
  /\ (forall p' s' e, run_answers (OtherAction:=OtherAction) p s revision bits = (p', s', Err e) ->
        s' = s /\ inner p' = inner p /\ is_Some (scan p')).
Proof.
  intros H Hl Hr. pose proof (run_has_outcome (OtherAction:=OtherAction) bits p s sc revision H Hl Hr) as Ho.
  split; [intros p' s'; split|].
  - intros E. by rewrite E in Ho.
  - intros (Hv & h & Ha & ->). by eapply run_legal.
  - intros p' s' e E. by rewrite E in Ho.
Qed.

Lemma scan_commits_exactly_its_declaration_witness :
  let run bits := run_answers (OtherAction:=unit) toy_surface toy_attack 0 bits in
  is_ok (run [false; true]).2 = true /\ is_ok (run [true; false]).2 = false
  /\ (forall p' s', run [false; true] = (p', s', Ok tt) ->
        validate_declared toy_attack (inner toy_surface) (toy_attack_scan (OwnedEnvironmentRevision 0)) [oid 2] = Ok tt).
Proof.
  split; [reflexivity|split; [reflexivity|]]. intros p' s' E.
  exact (proj1 (proj1 (proj1 (scan_commits_exactly_its_declaration (OtherAction:=unit) toy_surface toy_attack
    (toy_attack_scan (OwnedEnvironmentRevision 0)) 0 [false; true] toy_at_scan eq_refl ltac:(vm_compute; discriminate))
    p' s') E)).
Defined.

(** C18: the in-place path of the fast actor does what the copying path does: it succeeds when the copying path
    succeeds, with the same surface and game, and where the preflight rejects, the copying path fails too. *)
Theorem in_place_answers_equal_the_copies {State PendingTrigger OtherDecision OtherAction : Type}
    `{!EqDecision State} `{!EqDecision PendingTrigger} `{!EqDecision OtherDecision}
    `{!CombatView State} `{!SurfaceEngine State PendingTrigger OtherDecision OtherAction}
    `{!PolicyEngine State PendingTrigger} `{!DeclareLaws State PendingTrigger OtherDecision OtherAction}
    (p : PolicySurfaceV5 PendingTrigger) (s : State) (a : PolicyAction.t OtherAction) (now next : Z) :
  scan_matches p ->
  let fast := apply_fast_actor_current_candidate_in_place p s (MkCandidateProof true a now next) in
  let copied := apply_owned p s a now next in
  is_ok fast.2 = is_ok copied.2
  /\ (is_ok fast.2 = true -> fast.1 = copied.1)
  /\ (fast.2 = Err RejectedBeforeMutation -> fast.1 = (p, s))
  /\ (is_ok copied.2 = false -> copied.1 = (p, s)).
Proof.
  intros Hm fast copied. destruct (in_place_runs p s a now next Hm) as [E1 E2]. split; [done|split; [|split]].
  - unfold copied in *. rewrite E1. destruct fast as [[p' s'] [[]|e]] eqn:Ef; [|done].
    unfold fast in Ef. by rewrite Ef.
  - unfold fast, apply_fast_actor_current_candidate_in_place. cbn [negb owned].
    destruct (validate_fast_actor_current_action _ _ _ _ _) as [[]|]; [|done].
    by destruct (apply_in_place p s _ _ _) as [[p' s'] [[]|]].
  - unfold copied, apply_owned. case_decide; [done|].
    by destruct (apply_in_place p s a _ _) as [[p' s'] [[]|]].
Qed.

Lemma in_place_answers_equal_the_copies_witness :
  let a := inclusion (OtherAction:=unit) (toy_attack_scan (OwnedEnvironmentRevision 0)) true in
  is_ok (apply_owned toy_surface toy_attack a 0 1).2 = true
  /\ (apply_fast_actor_current_candidate_in_place toy_surface toy_attack (MkCandidateProof true a 0 1)).1
     = (apply_owned toy_surface toy_attack a 0 1).1.
Proof.
  split; [reflexivity|]. refine (proj1 (proj2 (in_place_answers_equal_the_copies toy_surface toy_attack
    (inclusion (toy_attack_scan (OwnedEnvironmentRevision 0)) true) 0 1 _)) eq_refl).
  intros sc [= <-]. exact I.
Defined.

(** No scan is stuck: in every session, whatever was answered before, the step of a combat scan that is shown
    has an answer that is accepted, the last step included, whose declaration the engine then takes. *)
Theorem no_scan_is_stuck {State PendingTrigger OtherDecision OtherAction : Type}
    `{!EqDecision State} `{!EqDecision PendingTrigger} `{!EqDecision OtherDecision}
    `{!CombatView State} `{!SurfaceEngine State PendingTrigger OtherDecision OtherAction}
    `{!PolicyEngine State PendingTrigger} `{!EngineLaws State PendingTrigger OtherDecision OtherAction}
    (p : PolicySurfaceV5 PendingTrigger) (s : State) (revision : Z) (sc : CombatScanV5) :
  session (OtherAction:=OtherAction) p s revision -> scan p = Some sc -> revision < u64_max ->
  exists include p' s',
    apply_owned (OtherAction:=OtherAction) p s (inclusion sc include) revision (revision + 1) = (p', s', Ok tt).
Proof. intros H. by apply scan_answerable, session_shown. Qed.

Lemma no_scan_is_stuck_witness : exists include p' s',
  apply_owned (OtherAction:=unit) toy_surface toy_attack
    (inclusion (toy_attack_scan (OwnedEnvironmentRevision 0)) include) 0 1 = (p', s', Ok tt).
Proof.
  exact (no_scan_is_stuck toy_surface toy_attack 0 (toy_attack_scan (OwnedEnvironmentRevision 0)) toy_session eq_refl
    (eq_refl : 0 < u64_max)).
Defined.

(** C19: asking for the next decision ends and never panics: after any accepted answer of a session, if the engine
    can open only finitely many windows that the surface answers alone, enough fuel gives an outcome, every outcome is
    a value, and the blocks collected so far are still a legal declaration. *)
Theorem asking_ends_without_panic {State PendingTrigger OtherDecision OtherAction : Type}
    `{!EqDecision State} `{!EqDecision PendingTrigger} `{!EqDecision OtherDecision}
    `{!CombatView State} `{!SurfaceEngine State PendingTrigger OtherDecision OtherAction}
    `{!PolicyEngine State PendingTrigger} `{!EngineLaws State PendingTrigger OtherDecision OtherAction}
    (quiet : State -> nat) (p p1 : PolicySurfaceV5 PendingTrigger) (s s1 : State) (revision : Z)
    (a : PolicyAction.t OtherAction) :
  (forall s s' d a s'', advance_until_decision s = (s', d) -> answered_alone d a -> forced_step s' a = Ok s'' ->
     (quiet s'' < quiet s)%nat) ->
  session (OtherAction:=OtherAction) p s revision -> revision < u64_max ->
  apply_owned p s a revision (revision + 1) = (p1, s1, Ok tt) ->
  (exists fuel r, next_decision_with_binding (OtherAction:=OtherAction) fuel p1 s1 (OwnedRevision (revision + 1)) = Some r)
  /\ (forall fuel r,
        next_decision_with_binding (OtherAction:=OtherAction) fuel p1 s1 (OwnedRevision (revision + 1)) = Some r ->
        r <> Err tt)
  /\ (forall rs, blockers (inner p1) = Some rs -> legal_block s1 (accumulated rs)).
Proof.
  intros Hq Hs Hmax Ha. pose proof (apply_shown_ok _ _ _ _ _ _ (session_shown _ _ _ Hs) Hmax Ha) as Hok.
  split; [|split].
  - destruct (loop_ends quiet Hq s1 (inner p1)) as [fuel Hf]. exists fuel. unfold next_decision_with_binding.
    destruct (hunter_order_v45 p1) as [o|]; [destruct (initialize_hunter_order_v45 _ _ _ _); by eexists|].
    destruct (scan p1); [by eexists|]. destruct (next_decision fuel s1 (inner p1)) as [[[[h s2] sd]|[]]|]; [..|done]; by eexists.
  - intros fuel r E ->. apply (next_shown_ok _ _ _ _ _ Hok) in E as (? & ? & ? & [=] & _).
  - intros rs Eb. exact (ok_blocks _ _ (ok_blockers _ _ (pol_inner _ _ _ Hok) rs Eb)).
Qed.

Lemma asking_ends_without_panic_witness :
  let a := inclusion (OtherAction:=unit) (toy_attack_scan (OwnedEnvironmentRevision 0)) false in
  let r := apply_owned toy_surface toy_attack a 0 1 in
  exists fuel r', next_decision_with_binding (OtherAction:=unit) fuel r.1.1 r.1.2 (OwnedRevision 1) = Some r'.
Proof.
  exact (proj1 (asking_ends_without_panic toy_quiet toy_surface _ toy_attack _ 0
    (inclusion (toy_attack_scan (OwnedEnvironmentRevision 0)) false) toy_quiet_drops toy_session (eq_refl : 0 < u64_max) eq_refl)).
Defined.
