(* ===== verification/RulesSession.v ===== *)
(** * Rules-only sessions
    (src/mtg-kernel/src/rl_session/rules_only_v1.rs, with the step of rl_session.rs and the candidate lists of rl.rs)

    An episode: the policy surface asks, the session binds the answers it offers to
    the revision and the counters, a step applies one of them in place and asks
    again. A panic is [Err Panic]; [None] means that the loop behind the surface ran
    out of fuel. The caches of encoded actions, absent in this mode, and the
    optional trace are left out. *)

From stdpp Require Import strings.
From S2P Require Import Prelude Ids Bytes Randomness Json Sideboard SearchAuthority SearchTree CombatRules Surface PolicySurface.
Import PlayerIds.

Local Open Scope Z_scope.

(** ** Candidates *)

Module ActionSemantic.
Inductive t (CardRef OtherSemantic : Type) :=
  | ChooseAttackerInclusion (actor : PlayerSeatV1) (attacker : CardRef) (include : bool)
  | ChooseBlockerInclusion (actor : PlayerSeatV1) (attacker blocker : CardRef) (include : bool)
  | ChooseTriggerOrderNext (actor : PlayerSeatV1) (source : CardRef) (trigger_index : nat)
      (ordered_prefix : list nat) (pending_count : nat)
  | ChooseFullRangeCastXValueV59 (actor : PlayerSeatV1) (source : CardRef) (x_value : Z)
  | Other (semantic : OtherSemantic).
Arguments ChooseAttackerInclusion {_ _} _ _ _.
Arguments ChooseBlockerInclusion {_ _} _ _ _ _.
Arguments ChooseTriggerOrderNext {_ _} _ _ _ _ _.
Arguments ChooseFullRangeCastXValueV59 {_ _} _ _ _.
Arguments Other {_ _} _.
End ActionSemantic.

#[export] Instance ActionSemantic_eq_dec CardRef OtherSemantic `{!EqDecision CardRef}
  `{!EqDecision OtherSemantic} : EqDecision (ActionSemantic.t CardRef OtherSemantic).
Proof. solve_decision. Defined.

Record CorePolicyActionCandidateV1 (OtherAction CardRef OtherSemantic : Type) := MkCandidate {
  semantic : ActionSemantic.t CardRef OtherSemantic;
  policy_action : PolicyAction.t OtherAction;
}.
Arguments MkCandidate {_ _ _} _ _.
Arguments semantic {_ _ _} _.
Arguments policy_action {_ _ _} _.

(** The text of an error of the builders, or an error of the surface. *)
Inductive CandidateError := Contract (text : bytes) | SurfaceRefused (error : PolicyError).

(** What the session calls in the rest of the program: the references to cards,
    the menus of the decisions the surface passes through, and the construction
    of a fresh game. *)
Class RulesEngine (State PendingTrigger OtherDecision OtherAction CardRef OtherSemantic : Type) := {
  card_ref : State -> ObjectId -> result bytes CardRef;
  trigger_source : PendingTrigger -> ObjectId;
  variable_cast_candidates : PolicyDecision.t PendingTrigger OtherDecision -> State -> PolicySurfaceV5 PendingTrigger ->
    result bytes (option (list (CorePolicyActionCandidateV1 OtherAction CardRef OtherSemantic)));
  is_entry_color : OtherDecision -> bool;
  entry_color_candidates : PolicyDecision.t PendingTrigger OtherDecision -> State ->
    result bytes (list (CorePolicyActionCandidateV1 OtherAction CardRef OtherSemantic));
  is_mill : State -> bool;
  mill_candidates : PolicyDecision.t PendingTrigger OtherDecision -> State ->
    result bytes (list (CorePolicyActionCandidateV1 OtherAction CardRef OtherSemantic));
  (** The state validations of the cumulative scope. *)
  scope_validation : State -> result bytes unit;
  full_range_cast_x : OtherDecision -> option ObjectId;
  validate_full_range_cast_x_v59 : State -> PlayerId -> ObjectId -> result bytes unit;
  choose_effect_option : Z -> OtherAction;
  core_surface_action_candidates : SurfaceDecision.t PendingTrigger OtherDecision -> State ->
    result bytes (list (ActionSemantic.t CardRef OtherSemantic * SurfaceAction.t OtherAction));
  (** [Ambiguous], the aggregate combat semantics and the Divine ones. *)
  semantic_refused : OtherSemantic -> option bytes;
  new_from_libraries : list Z -> list Z -> Z -> PlayerId -> State;
  opening_draw : PlayerId -> State -> State;
  enable_foundations_combat : State -> result bytes State;
  enable_london_mulligans : State -> result bytes State;
  mechanic_debug : Z -> bytes;
  candidate_error_text : CandidateError -> bytes;
}.

Inductive RlSessionErrorCode :=
  | EpisodeAlreadyTerminal | EpisodeIdMismatch | ExpectedStepMismatch | SelectedIndexOutOfRange
  | StaleEnvironmentBinding | UnsupportedDeck | EnvironmentRandomization.

(** [From<PlayerId> for PlayerSeatV1] *)
Definition seat_from {E} (p : PlayerId) : result (Fault E) PlayerSeatV1 :=
  if decide (p = P0) then Ok SeatP0 else if decide (p = P1) then Ok SeatP1 else Err Panic.

Section Candidates.
Context {State PendingTrigger OtherDecision OtherAction CardRef OtherSemantic : Type}.
Context `{!EqDecision State} `{!EqDecision PendingTrigger} `{!EqDecision OtherDecision}.
Context `{!EqDecision CardRef} `{!EqDecision OtherSemantic}.
Context `{!CombatView State} `{!SurfaceEngine State PendingTrigger OtherDecision OtherAction}.
Context `{!PolicyEngine State PendingTrigger}.
Context `{!RulesEngine State PendingTrigger OtherDecision OtherAction CardRef OtherSemantic}.
Abbreviation candidate := (CorePolicyActionCandidateV1 OtherAction CardRef OtherSemantic).
Abbreviation decision := (PolicyDecision.t PendingTrigger OtherDecision).
Abbreviation surface := (PolicySurfaceV5 PendingTrigger).
Abbreviation menu := (result (Fault CandidateError) (list candidate)).
Implicit Types s : State.
Implicit Types p : surface.

Definition contract {A} (r : result bytes A) : result (Fault CandidateError) A :=
  match r with Ok a => Ok a | Err text => Err (Reject (Contract text)) end.
Definition surfaced {A} (r : result PolicyError A) : result (Fault CandidateError) A :=
  match r with Ok a => Ok a | Err e => Err (Reject (SurfaceRefused e)) end.

(** The loop over the prefix of [hunter_trigger_order_candidates_v45]. *)
Fixpoint mark_prefix (count : nat) (seen prefix : list nat) : result bytes (list nat) :=
  match prefix with
  | [] => Ok seen
  | index :: prefix =>
      if decide (count <= index)%nat then Err (bytes_of "trigger prefix index is out of range") else
      if decide (index ∈ seen) then Err (bytes_of "trigger prefix repeats an index") else
      mark_prefix count (index :: seen) prefix
  end.

Definition hunter_trigger_order_candidates_v45 (player : PlayerId) (pending : list PendingTrigger)
    (ordered_prefix : list nat) s : menu :=
  let? seen := contract (mark_prefix (length pending) [] ordered_prefix) in
  try_fold (fun out '(index, trigger) =>
    if decide (index ∈ seen) then Ok out else
    let? actor := seat_from player in
    let? source := contract (card_ref s (trigger_source trigger)) in
    Ok (out ++ [MkCandidate
                  (ActionSemantic.ChooseTriggerOrderNext actor source index ordered_prefix (length pending))
                  (PolicyAction.Surface (SurfaceAction.Action (EngineAction.OrderTriggers (ordered_prefix ++ [index]))))]))
    [] (imap pair pending).

(** The two arms of [core_policy_action_candidates_next_five_scoped_v59] on a scan step. *)
Definition inclusion_candidates s (d : decision) : menu :=
  match d with
  | PolicyDecision.AttackerInclusion player attacker _ _ =>
      let? actor := seat_from player in
      let? attacker_ref := contract (card_ref s attacker) in
      Ok (map (fun include =>
                 MkCandidate (ActionSemantic.ChooseAttackerInclusion actor attacker_ref include)
                   (PolicyAction.ChooseAttackerInclusion player attacker include)) [false; true])
  | PolicyDecision.BlockerInclusion player attacker blocker _ _ =>
      let? actor := seat_from player in
      let? attacker_ref := contract (card_ref s attacker) in
      let? blocker_ref := contract (card_ref s blocker) in
      Ok (map (fun include =>
                 MkCandidate (ActionSemantic.ChooseBlockerInclusion actor attacker_ref blocker_ref include)
                   (PolicyAction.ChooseBlockerInclusion player attacker blocker include)) [false; true])
  | PolicyDecision.Surface _ => Ok []
  end.

Definition validate_policy_action_semantic_v5 (semantic : ActionSemantic.t CardRef OtherSemantic) : result bytes unit :=
  match semantic with
  | ActionSemantic.ChooseFullRangeCastXValueV59 _ _ _ =>
      Err (bytes_of "Divine V44 actions require their named successor")
  | ActionSemantic.Other o => match semantic_refused o with Some text => Err text | None => Ok tt end
  | _ => Ok tt
  end.

(** The short list compares pairs and the long one hashes: both refuse a repetition. *)
Definition validate_core_policy_action_candidates_v5 (actions : list candidate) : result bytes unit :=
  let? _ := try_fold (fun _ a => validate_policy_action_semantic_v5 (semantic a)) tt actions in
  if decide (NoDup (map semantic actions)) then Ok tt
  else Err (bytes_of "duplicate policy action semantic within one decision").

Definition full_range_of (d : decision) : option (PlayerId * ObjectId) :=
  match d with
  | PolicyDecision.Surface (SurfaceDecision.Decision (EngineDecision.Other player o)) =>
      spell ← full_range_cast_x o; Some (player, spell)
  | _ => None
  end.

(** With every scope flag set and the scope [KaitoV75]. *)
Definition core_policy_action_candidates_next_five_scoped_v59 (d : decision) s : menu :=
  let? _ := contract (scope_validation s) in
  match full_range_of d with
  | Some (player, spell) =>
      let? _ := contract (validate_full_range_cast_x_v59 s player spell) in
      let? source := contract (card_ref s spell) in
      let? actor := seat_from player in
      Ok (map (fun x => MkCandidate (ActionSemantic.ChooseFullRangeCastXValueV59 actor source (Z.of_nat x))
                          (PolicyAction.Surface (SurfaceAction.Action (EngineAction.Other (choose_effect_option (Z.of_nat x))))))
            (seq 0 (Z.to_nat 65536)))
  | None =>
      let? out :=
        match d with
        | PolicyDecision.Surface sd =>
            let? rows := contract (core_surface_action_candidates sd s) in
            Ok (map (fun row => MkCandidate row.1 (PolicyAction.Surface row.2)) rows)
        | _ => inclusion_candidates s d
        end in
      let? _ := contract (validate_core_policy_action_candidates_v5 out) in
      Ok out
  end.

Definition asks_entry_color (d : decision) : bool :=
  match d with
  | PolicyDecision.Surface (SurfaceDecision.Decision (EngineDecision.Other _ o)) => is_entry_color o
  | _ => false
  end.

Definition rules_only_origin_candidates_v1 (origin : decision) s p : menu :=
  let? parts := surfaced (hunter_order_parts_v45 p s) in
  match parts with
  | Some order => hunter_trigger_order_candidates_v45 (order_player order) (order_pending order) (order_prefix order) s
  | None =>
      let? variable := contract (variable_cast_candidates origin s p) in
      match variable with
      | Some candidates => Ok candidates
      | None =>
          if asks_entry_color origin then contract (entry_color_candidates origin s)
          else if is_mill s then contract (mill_candidates origin s)
          else core_policy_action_candidates_next_five_scoped_v59 origin s
      end
  end.

(** The closure of [retain] in [flat_scan_menu_v2]. *)
Definition offered (feasible : bool * bool) (c : candidate) : bool :=
  match policy_action c with
  | PolicyAction.ChooseAttackerInclusion _ _ include
  | PolicyAction.ChooseBlockerInclusion _ _ _ include => if include then feasible.2 else feasible.1
  | PolicyAction.Surface _ => true
  end.

Definition flat_scan_menu_v2 p s (origin : decision) (candidates : list candidate) : menu :=
  match origin with
  | PolicyDecision.Surface _ => Ok candidates
  | _ =>
      let? feasible := surfaced (feasible_scan_answers p s origin) in
      Ok (filter (fun c => offered feasible c = true) candidates)
  end.

Definition rules_only_candidates_v1 (origin : decision) s p : menu :=
  let? candidates := rules_only_origin_candidates_v1 origin s p in
  flat_scan_menu_v2 p s origin candidates.
End Candidates.

(** ** The session *)

(** [FastActorCurrentDecisionV1] *)
Module CurrentDecision.
Record t (PendingTrigger OtherDecision OtherAction CardRef OtherSemantic : Type) := Make {
  actor : PlayerId;
  decision_kind : FastActorDecisionKindV1;
  origin_decision : PolicyDecision.t PendingTrigger OtherDecision;
  physical_decision_id : Z;
  substep_index : Z;
  substep_count : Z;
  candidates : list (CorePolicyActionCandidateV1 OtherAction CardRef OtherSemantic);
  environment_revision : Z;
  bound_policy_step_count : Z;
  bound_physical_decision_count : Z;
}.
Arguments Make {_ _ _ _ _} _ _ _ _ _ _ _ _ _ _.
Arguments actor {_ _ _ _ _} _.
Arguments decision_kind {_ _ _ _ _} _.
Arguments origin_decision {_ _ _ _ _} _.
Arguments physical_decision_id {_ _ _ _ _} _.
Arguments substep_index {_ _ _ _ _} _.
Arguments substep_count {_ _ _ _ _} _.
Arguments candidates {_ _ _ _ _} _.
Arguments environment_revision {_ _ _ _ _} _.
Arguments bound_policy_step_count {_ _ _ _ _} _.
Arguments bound_physical_decision_count {_ _ _ _ _} _.
End CurrentDecision.

(** [FastActorSessionV1]: what names the episode, and what a step changes. *)
Module Session.
Record identity := MkIdentity {
  deck_ids : bytes * bytes;
  deck_hashes : Z * Z;
  episode_id : Z;
  max_physical_decisions : Z;
  max_policy_steps : Z;
}.

Record t (State PendingTrigger OtherDecision OtherAction CardRef OtherSemantic : Type) := Make {
  ident : identity;
  state : State;
  surface : PolicySurfaceV5 PendingTrigger;
  environment_revision : Z;
  policy_step_count : Z;
  physical_decision_count : Z;
  current : option (CurrentDecision.t PendingTrigger OtherDecision OtherAction CardRef OtherSemantic);
  terminal : option RlSessionTerminalV1;
}.
Arguments Make {_ _ _ _ _ _} _ _ _ _ _ _ _ _.
Arguments ident {_ _ _ _ _ _} _.
Arguments state {_ _ _ _ _ _} _.
Arguments surface {_ _ _ _ _ _} _.
Arguments environment_revision {_ _ _ _ _ _} _.
Arguments policy_step_count {_ _ _ _ _ _} _.
Arguments physical_decision_count {_ _ _ _ _ _} _.
Arguments current {_ _ _ _ _ _} _.
Arguments terminal {_ _ _ _ _ _} _.
End Session.

Definition RL_SESSION_SCHEMA_VERSION : Z := 5.

(** [saturating_add] of [u64] *)
Definition saturating_add_u64 (a b : Z) : Z := Z.min (a + b) u64_max.

Section Session.
Context {State PendingTrigger OtherDecision OtherAction CardRef OtherSemantic : Type}.
Context `{!EqDecision State} `{!EqDecision PendingTrigger} `{!EqDecision OtherDecision}.
Context `{!EqDecision CardRef} `{!EqDecision OtherSemantic}.
Context `{!CombatView State} `{!SurfaceEngine State PendingTrigger OtherDecision OtherAction}.
Context `{!PolicyEngine State PendingTrigger}.
Context `{!RulesEngine State PendingTrigger OtherDecision OtherAction CardRef OtherSemantic}.
Abbreviation session := (Session.t State PendingTrigger OtherDecision OtherAction CardRef OtherSemantic).
Abbreviation decision := (PolicyDecision.t PendingTrigger OtherDecision).
Abbreviation current_decision := (CurrentDecision.t PendingTrigger OtherDecision OtherAction CardRef OtherSemantic).
Implicit Types x : session.
Implicit Types c : current_decision.

(** ** Terminals *)

Definition make_terminal x (outcome : TerminalOutcomeV1) (classification : TerminalClassificationV1)
    (code : TerminalSafeCodeV2) (winner : option PlayerSeatV1) (reward : Z * Z) (reason : bytes) : RlSessionTerminalV1 :=
  MkTerminal RL_SESSION_SCHEMA_VERSION (Session.deck_ids (Session.ident x)) (Session.deck_hashes (Session.ident x))
    (Session.episode_id (Session.ident x)) outcome classification code winner reward reason
    (Session.policy_step_count x) (Session.physical_decision_count x).

(** A winner that is neither seat panics. *)
Definition terminal_from_winner x (winner : option PlayerId) (reason : bytes) : result unit RlSessionTerminalV1 :=
  match winner with
  | None => Ok (make_terminal x DrawGame Natural NaturalGameOver None (0, 0) reason)
  | Some w =>
      if decide (w = P0) then Ok (make_terminal x P0Win Natural NaturalGameOver (Some SeatP0) (1, -1) reason) else
      if decide (w = P1) then Ok (make_terminal x P1Win Natural NaturalGameOver (Some SeatP1) (-1, 1) reason) else
      Err tt
  end.

Definition halted_terminal x (reason : bytes) : RlSessionTerminalV1 :=
  make_terminal x HaltedGame Halted FailClosed None (0, 0) reason.
Definition truncated_terminal x (reason : bytes) : RlSessionTerminalV1 :=
  make_terminal x TruncatedGame Truncated DecisionCap None (0, 0) reason.

(** ** Field updates *)

Definition with_game x (p : PolicySurfaceV5 PendingTrigger) (s : State) : session :=
  Session.Make (Session.ident x) s p (Session.environment_revision x) (Session.policy_step_count x)
    (Session.physical_decision_count x) (Session.current x) (Session.terminal x).
Definition with_current x (c : option current_decision) : session :=
  Session.Make (Session.ident x) (Session.state x) (Session.surface x) (Session.environment_revision x)
    (Session.policy_step_count x) (Session.physical_decision_count x) c (Session.terminal x).
Definition with_terminal x (t : RlSessionTerminalV1) : session :=
  Session.Make (Session.ident x) (Session.state x) (Session.surface x) (Session.environment_revision x)
    (Session.policy_step_count x) (Session.physical_decision_count x) (Session.current x) (Some t).
Definition with_counters x (revision steps physical : Z) : session :=
  Session.Make (Session.ident x) (Session.state x) (Session.surface x) revision steps physical
    (Session.current x) (Session.terminal x).

Definition halt x (reason : bytes) : session := with_terminal x (halted_terminal x reason).
Definition truncate x (reason : bytes) : session := with_terminal x (truncated_terminal x reason).
(** [let _ = self.surface.discard_unanswered_scan()] *)
Definition discard_unanswered x : session :=
  with_game x (discard_unanswered_scan (Session.surface x)).1 (Session.state x).

(** ** Asking *)

Definition decision_kind_of (d : decision) : FastActorDecisionKindV1 :=
  match d with
  | PolicyDecision.Surface _ => SearchTree.Surface
  | PolicyDecision.AttackerInclusion _ _ _ _ => SearchTree.AttackerInclusion
  | PolicyDecision.BlockerInclusion _ _ _ _ _ => SearchTree.BlockerInclusion
  end.

(** From the acting player to the end of [advance_rules_only_v1]. *)
Definition bind_current x (d : decision) (substep_index substep_count : Z) : result unit session :=
  match decision_actor (Session.state x) d with
  | None => Ok (halt x (bytes_of "fail_closed:nonterminal decision without acting player"))
  | Some actor =>
      match rules_only_candidates_v1 d (Session.state x) (Session.surface x) with
      | Err Panic => Err tt
      | Err (Reject e) => Ok (halt x (bytes_of "fail_closed:" ++ candidate_error_text e))
      | Ok [] => Ok (halt x (bytes_of "fail_closed:nonterminal decision produced zero legal actions"))
      | Ok candidates =>
          if u32_max <? Z.of_nat (length candidates)
          then Ok (halt x (bytes_of "fail_closed:policy action index exceeds u32"))
          else Ok (with_current x (Some (CurrentDecision.Make actor (decision_kind_of d) d
                     (Session.physical_decision_count x) substep_index substep_count candidates
                     (Session.environment_revision x) (Session.policy_step_count x) (Session.physical_decision_count x))))
      end
  end.

(** The two caps, with the steps the rest of the decision still takes. *)
Definition admit_decision x (d : decision) : result unit session :=
  match hunter_order_substeps_v45 (Session.surface x) (Session.state x) with
  | Err _ => Ok (halt x (bytes_of "fail_closed:Hunter trigger ordering"))
  | Ok substeps =>
      let (substep_index, substep_count) := default (substep d) substeps in
      if (substep_index =? 0)
         && (Session.max_physical_decisions (Session.ident x) <=? Session.physical_decision_count x)
      then Ok (truncate (discard_unanswered x) (bytes_of "physical_decision_cap_reached:"
                 ++ u64_to_string (Session.max_physical_decisions (Session.ident x))))
      else
        let remaining_group_steps := (substep_count - substep_index) mod 2 ^ 32 in
        if Session.max_policy_steps (Session.ident x)
           <? saturating_add_u64 (Session.policy_step_count x) remaining_group_steps
        then Ok (truncate (if substep_index =? 0 then discard_unanswered x else x)
                   (bytes_of "policy_step_cap_reached:" ++ u64_to_string (Session.max_policy_steps (Session.ident x))))
        else bind_current x d substep_index substep_count
  end.

Definition bind_decision x (d : decision) : result unit session :=
  match d with
  | PolicyDecision.Surface (SurfaceDecision.Decision (EngineDecision.GameOver winner)) =>
      let? t := terminal_from_winner x winner (bytes_of "game_over") in Ok (with_terminal x t)
  | PolicyDecision.Surface (SurfaceDecision.Decision (EngineDecision.Halted mechanic source)) =>
      Ok (halt x (bytes_of "engine_halted:" ++ mechanic_debug mechanic ++ bytes_of ":source:"
                    ++ u64_to_string (object_num source)))
  | _ => admit_decision x d
  end.

Definition advance_rules_only_v1 (fuel : nat) x : option (result unit session) :=
  match next_decision_with_binding (OtherAction:=OtherAction) fuel (Session.surface x) (Session.state x)
          (OwnedRevision (Session.environment_revision x)) with
  | None => None
  | Some (Err tt) => Some (Err tt)
  | Some (Ok (p, s, surfaced)) =>
      let x := with_current (with_game x p s) None in
      Some match surfaced with
           | Err _ => Ok (halt x (bytes_of "fail_closed:policy_surface_environment"))
           | Ok d => bind_decision x d
           end
  end.

(** ** Reading and stepping *)

Definition current_response x : result unit FastActorResponseV1 :=
  match Session.terminal x, Session.current x with
  | Some t, _ => Ok (Terminal t)
  | None, None => Err tt
  | None, Some c =>
      match seat_from (E:=Empty_set) (CurrentDecision.actor c) with
      | Err _ => Err tt
      | Ok seat =>
          if u32_max <? Z.of_nat (length (CurrentDecision.candidates c)) then Err tt else
          Ok (Decision (MkDecision (Session.episode_id (Session.ident x)) (Session.policy_step_count x)
                (Session.environment_revision x) (CurrentDecision.physical_decision_id c)
                (CurrentDecision.substep_index c) (CurrentDecision.substep_count c) seat
                (CurrentDecision.decision_kind c) (Z.of_nat (length (CurrentDecision.candidates c)))))
      end
  end.

(** [FastActorCurrentCandidateProofV1::from_current]: the token names the
    session's own surface. *)
Definition from_current c (selected_index : nat) (next_revision : Z)
  : option (FastActorCurrentCandidateProofV1 (OtherAction:=OtherAction)) :=
  selected ← CurrentDecision.candidates c !! selected_index;
  Some (MkCandidateProof true (policy_action selected) (CurrentDecision.environment_revision c) next_revision).

Definition exhausted (o : option Z) : result RlSessionErrorCode Z := ok_or StaleEnvironmentBinding o.

(** What a step checks before it applies: the counters it will leave, and the token. *)
Definition step_plan x c (selected_index : Z)
  : result RlSessionErrorCode (Z * Z * Z * FastActorCurrentCandidateProofV1 (OtherAction:=OtherAction)) :=
  if bool_decide (CurrentDecision.environment_revision c <> Session.environment_revision x
       \/ CurrentDecision.bound_policy_step_count c <> Session.policy_step_count x
       \/ CurrentDecision.bound_physical_decision_count c <> Session.physical_decision_count x)
  then Err StaleEnvironmentBinding else
  let? next_revision := exhausted (checked_add_u64 (Session.environment_revision x) 1) in
  let? next_steps := exhausted (checked_add_u64 (Session.policy_step_count x) 1) in
  let completes_physical :=
    bool_decide (checked_unsigned u32_max (CurrentDecision.substep_index c + 1) = Some (CurrentDecision.substep_count c)) in
  let? next_physical :=
    if completes_physical then exhausted (checked_add_u64 (Session.physical_decision_count x) 1)
    else Ok (Session.physical_decision_count x) in
  let? proof := ok_or SelectedIndexOutOfRange (from_current c (Z.to_nat selected_index) next_revision) in
  Ok (next_revision, next_steps, next_physical, proof).

Definition in_place_halt x : session :=
  halt (with_current x None) (bytes_of "fail_closed:fast_actor_in_place_apply").

(** [apply_prechecked_step_v1] on the path [InPlace]; in this mode [step] and
    [limited_trusted_step_v1] are this function. *)
Definition apply_prechecked_step_v1 (fuel : nat) x (episode_id expected_step selected_index : Z)
  : option (result unit (session * result RlSessionErrorCode FastActorResponseV1)) :=
  if decide (episode_id <> Session.episode_id (Session.ident x)) then Some (Ok (x, Err EpisodeIdMismatch)) else
  if decide (expected_step <> Session.policy_step_count x) then Some (Ok (x, Err ExpectedStepMismatch)) else
  match Session.terminal x, Session.current x with
  | Some _, _ => Some (Ok (x, Err EpisodeAlreadyTerminal))
  | None, None => Some (Err tt)
  | None, Some c =>
      match step_plan x c selected_index with
      | Err e => Some (Ok (x, Err e))
      | Ok (next_revision, next_steps, next_physical, proof) =>
          let '(p, s, applied) :=
            apply_fast_actor_current_candidate_in_place (Session.surface x) (Session.state x) proof in
          let moved := with_game x p s in
          match applied with
          | Err InternalApplyFailure => Some (Ok (in_place_halt moved, Err StaleEnvironmentBinding))
          | Err RejectedBeforeMutation => Some (Ok (moved, Err StaleEnvironmentBinding))
          | Ok _ =>
              match advance_rules_only_v1 fuel
                      (with_counters (with_current moved None) next_revision next_steps next_physical) with
              | None => None
              | Some (Err tt) => Some (Err tt)
              | Some (Ok next) => Some (let? response := current_response next in Ok (next, Ok response))
              end
          end
      end
  end.

(** ** Starting *)

(** [explicit_deck_hash_v1]: the hash of the sorted deck, as a JSON array. *)
Fixpoint json_numbers (l : list Z) : bytes :=
  match l with
  | [] => []
  | [n] => u64_to_string n
  | n :: l => u64_to_string n ++ bytes_of "," ++ json_numbers l
  end.
Definition explicit_deck_hash_v1 (mainboard : list Z) : Z :=
  fnv1a64 (bytes_of "[" ++ json_numbers (merge_sort Z.le mainboard) ++ bytes_of "]").

Definition shuffled_library (sha256 : bytes -> bytes) (seed : Z) (owner : PhysicalOwnerV2) (deck : list Z)
  : result RlSessionErrorCode (list Z) :=
  match derive_environment_randomization_seed_v2 sha256 seed owner InitialLibraryShuffle 0 with
  | Ok derived => Ok (permutation_v2 derived deck)
  | Err _ => Err EnvironmentRandomization
  end.

Definition rules_only_deck_pair_state_v1 (sha256 : bytes -> bytes) (seed : Z) (mainboards : list Z * list Z)
    (starting_player : PlayerId) : result RlSessionErrorCode State :=
  let? library0 := shuffled_library sha256 seed PhysicalP0 mainboards.1 in
  let? library1 := shuffled_library sha256 seed PhysicalP1 mainboards.2 in
  Ok (Nat.iter 7 (fun s => opening_draw P1 (opening_draw P0 s))
        (new_from_libraries library0 library1 seed starting_player)).

Definition MAX_CUSTOM_DECK_CARDS_V1 : nat := Z.to_nat 10000.

Definition deck_size_refused (deck : list Z) : bool :=
  bool_decide (length deck < 40 \/ MAX_CUSTOM_DECK_CARDS_V1 < length deck)%nat.

(** The closure of [find]: the card may play. *)
Definition admitted (CARD_DEFS : list CardDef) (admits : Z -> bool) (card : Z) : bool :=
  match CARD_DEFS !! Z.to_nat card with
  | Some def => negb (is_token def) && (has_full_support def || (is_executable (capability def) && admits card))
  | None => false
  end.

Definition unsupported_deck {A} (r : result bytes A) : result RlSessionErrorCode A :=
  match r with Ok a => Ok a | Err _ => Err UnsupportedDeck end.

(** The checks of [reset_rules_only_v1], in a build with the Foundations catalog,
    and the session before its first question. *)
Definition fresh_session (sha256 : bytes -> bytes) (CARD_DEFS : list CardDef) (episode_id env_seed : Z) (limits : Z * Z)
    (deck_ids : bytes * bytes) (mainboards : list Z * list Z) (starting_player : PlayerId) (admits : Z -> bool)
  : result RlSessionErrorCode session :=
  if bool_decide (starting_player <> P0 /\ starting_player <> P1)
     || (deck_size_refused mainboards.1 || deck_size_refused mainboards.2)
     || (limits.1 =? 0) || (limits.2 =? 0)
  then Err UnsupportedDeck else
  if negb (forallb (admitted CARD_DEFS admits) (mainboards.1 ++ mainboards.2)) then Err UnsupportedDeck else
  let? s := rules_only_deck_pair_state_v1 sha256 env_seed mainboards starting_player in
  let? s := unsupported_deck (enable_foundations_combat s) in
  let? s := unsupported_deck (enable_london_mulligans s) in
  Ok (Session.Make
        (Session.MkIdentity deck_ids (explicit_deck_hash_v1 mainboards.1, explicit_deck_hash_v1 mainboards.2)
           episode_id limits.1 limits.2)
        s (enable_hunter_order_v45 (policy_surface_new EngineWindowsV1 AuditOff)) 0 0 0 None None).

Definition reset_rules_only_v1 (fuel : nat) (sha256 : bytes -> bytes) (CARD_DEFS : list CardDef) (episode_id env_seed : Z)
    (limits : Z * Z) (deck_ids : bytes * bytes) (mainboards : list Z * list Z) (starting_player : PlayerId)
    (admits : Z -> bool) : option (result (Fault RlSessionErrorCode) session) :=
  match fresh_session sha256 CARD_DEFS episode_id env_seed limits deck_ids mainboards starting_player admits with
  | Err e => Some (Err (Reject e))
  | Ok x =>
      match advance_rules_only_v1 fuel x with
      | None => None
      | Some (Err tt) => Some (Err Panic)
      | Some (Ok x) => Some (Ok x)
      end
  end.
End Session.
