(* ===== verification/RulesSessionInv.v ===== *)
(** * The invariant of a rules-only session

    A physical decision is answered in a group of steps: the questions of a scan,
    the choices of a trigger order, or the one step of anything else. This file says
    where in its group a surface stands after an answer and after asking, what holds
    between two steps, and what a step needs to ask again. *)

From S2P Require Import Prelude Ids Bytes SearchTree CombatRules Surface PolicySurface CombatFacts ScanFacts SurfaceInv SessionInv RulesSession.

Local Open Scope Z_scope.

Section Groups.
Context {State PendingTrigger OtherDecision OtherAction : Type}.
Context `{!EqDecision State} `{!EqDecision PendingTrigger} `{!EqDecision OtherDecision}.
Context `{!CombatView State} `{!SurfaceEngine State PendingTrigger OtherDecision OtherAction}.
Context `{!PolicyEngine State PendingTrigger}.
Implicit Types s : State.
Implicit Types p : PolicySurfaceV5 PendingTrigger.
Implicit Types d : PolicyDecision.t PendingTrigger OtherDecision.

(** Steps answered and steps in all. *)
Definition position p : nat * nat :=
  match hunter_order_v45 p, scan p with
  | Some order, _ => (length (order_prefix order), length (order_pending order))
  | None, Some sc => (cursor (progress_of sc), length (ordered_candidates (progress_of sc)))
  | None, None => (0, 1)%nat
  end.

(** Nothing is half answered. *)
Definition between_groups p : Prop := hunter_order_v45 p = None /\ scan p = None.

(** The decision is the one the surface stands at. *)
Definition stands_at p d : Prop :=
  match hunter_order_v45 p, scan p with
  | Some order, _ => d = order_origin (order_player order) (order_pending order)
  | None, Some sc => policy_decision_for_scan sc = Ok d
  | None, None => exists sd, d = PolicyDecision.Surface sd
  end.

(** ** Asking *)

Lemma initialize_position p s origin revision p' :
  initialize_hunter_order_v45 (OtherDecision:=OtherDecision) p s origin revision = Ok p' ->
  (forall order, hunter_order_v45 p' = Some order ->
     origin = order_origin (order_player order) (order_pending order) \/ hunter_order_v45 p = Some order)
  /\ (hunter_order_v45 p = None -> forall order, hunter_order_v45 p' = Some order -> order_prefix order = [])
  /\ (forall order, hunter_order_v45 p = Some order -> p' = p).
Proof.
  unfold initialize_hunter_order_v45. destruct (negb _).
  { intros [= <-]. split_and!; [auto|congruence|done]. }
  destruct (hunter_order_v45 p) as [o|] eqn:Eo.
  - destruct (scan_active p); [done|]. rewrite result_bind_ok. intros (_ & _ & E). case_decide; [done|].
    injection E as <-. split_and!; [intros order; rewrite Eo; by right|done|done].
  - assert (same : Ok (E:=PolicyError) p = Ok p' -> hunter_order_v45 p' = None) by congruence.
    destruct origin as [[d|]| |]; try (intros E; rewrite (same E); by split_and!).
    destruct d; try (intros E; rewrite (same E); by split_and!).
    case_decide; [|intros E; rewrite (same E); by split_and!].
    destruct (scan_active p); [done|]. rewrite result_bind_ok. intros (_ & _ & [= <-]).
    split_and!; [|by intros _ order [= <-]|done]. intros order [= <-]. by left.
Qed.

Lemma present_position p s revision sd p' s' d :
  between_groups p -> present p s (OwnedRevision revision) sd = (p', s', Ok d) ->
  stands_at p' d /\ (position p').1 = 0%nat.
Proof.
  intros [Ho Hs].
  assert (scanned : forall build player l,
    (forall pr, progress_of (build pr) = pr) ->
    open_scan (OtherDecision:=OtherDecision) p s (OwnedRevision revision) build player l = (p', s', Ok d) ->
    stands_at p' d /\ (position p').1 = 0%nat).
  { intros build player l Hb. unfold open_scan. cbn [scan_binding]. intros E. injection E as <- <- E.
    unfold stands_at, position. cbn [hunter_order_v45 scan with_scan]. rewrite Ho, Hb. by split. }
  assert (other : present_other p s (OwnedRevision revision) sd = (p', s', Ok d) ->
                  stands_at p' d /\ (position p').1 = 0%nat).
  { unfold present_other. destruct (_ && _).
    - destruct (initialize_hunter_order_v45 p s _ revision) as [p1|] eqn:Ei; [|done]. intros [= <- <- <-].
      destruct (initialize_fields _ _ _ _ _ Ei) as (_ & Es & _).
      destruct (initialize_position _ _ _ _ _ Ei) as (H1 & H2 & _).
      unfold stands_at, position. destruct (hunter_order_v45 p1) as [order|].
      + destruct (H1 order eq_refl) as [->|]; [|congruence]. cbn. by rewrite (H2 Ho order eq_refl).
      + rewrite Es, Hs. split; [by eexists|done].
    - intros [= <- <- <-]. unfold stands_at, position. rewrite Ho, Hs. split; [by eexists|done]. }
  destruct sd as [[]|a [|b free]]; cbn [present]; try exact other.
  - destruct eligible; [exact other|]. by apply scanned.
  - by apply scanned.
Qed.

Lemma asked_position fuel p s revision p' s' d :
  next_decision_with_binding (OtherAction:=OtherAction) fuel p s (OwnedRevision revision) = Some (Ok (p', s', Ok d)) ->
  (hunter_order_v45 p <> None -> scan p = None) ->
  stands_at p' d /\ (between_groups p -> (position p').1 = 0%nat)
  /\ (~ between_groups p -> p' = p /\ s' = s).
Proof.
  intros E Hex. unfold next_decision_with_binding in E. unfold between_groups.
  destruct (hunter_order_v45 p) as [order|] eqn:Eo.
  { destruct (initialize_hunter_order_v45 p s _ revision) as [p1|] eqn:Ei; [|done]. injection E as <- <- <-.
    destruct (initialize_position _ _ _ _ _ Ei) as (_ & _ & H). rewrite (H order Eo).
    split_and!; [|by intros [? _]|done]. unfold stands_at. by rewrite Eo. }
  destruct (scan p) as [sc|] eqn:Es.
  { injection E as <- <- E. split_and!; [|by intros [_ ?]|done]. unfold stands_at. rewrite Eo, Es.
    by apply result_bind_ok in E as (_ & _ & E). }
  destruct (next_decision fuel s (inner p)) as [[[[h s1] sd]|[]]|]; [|done|done].
  destruct (present (with_inner p h) s1 (OwnedRevision revision) sd) as [[p1 s2] d1] eqn:Ep. injection E as -> -> ->.
  destruct (present_position (with_inner p h) s1 revision sd p' s' d) as [H1 H2]; [by split|done|].
  split_and!; [done|done|]. intros H. by destruct H.
Qed.

(** What the session reads as the place of the decision. *)
Lemma shown_substeps p s d parts :
  stands_at p d -> hunter_order_substeps_v45 p s = Ok parts ->
  (hunter_order_v45 p <> None -> scan p = None) ->
  default (substep d) parts = (Z.of_nat (position p).1, Z.of_nat (position p).2).
Proof.
  unfold stands_at, hunter_order_substeps_v45, hunter_order_parts_v45, position.
  destruct (hunter_order_v45 p) as [order|] eqn:Eo.
  - intros -> E _. apply result_bind_ok in E as (o & E1 & E2).
    destruct (negb _ || _); [done|]. apply result_bind_ok in E1 as (_ & _ & [= <-]).
    unfold u32_of in E2. do 2 (destruct (_ <=? _); cbn in E2; [|done]). by injection E2 as <-.
  - cbn. intros H [= <-] _. cbn. destruct (scan p) as [sc|].
    + unfold policy_decision_for_scan in H. apply result_bind_ok in H as (_ & _ & H).
      unfold u32_of in H. do 2 (destruct (_ <=? _); cbn in H; [|done]). injection H as <-. by destruct sc.
    + by destruct H as [sd ->].
Qed.

Lemma order_position p s parts :
  hunter_order_substeps_v45 p s = Ok parts -> hunter_order_v45 p <> None ->
  ((position p).1 < (position p).2)%nat /\ Z.of_nat (position p).2 <= u32_max.
Proof.
  unfold hunter_order_substeps_v45, hunter_order_parts_v45, position.
  destruct (hunter_order_v45 p) as [order|] eqn:Eo; [|done]. intros E _.
  apply result_bind_ok in E as (o & E1 & E2). destruct (negb _ || _); [done|].
  apply result_bind_ok in E1 as (u1 & Ev & [= <-]). split.
  - unfold order_validate in Ev. apply result_bind_ok in Ev as (v & _ & Ev). destruct (negb v); [done|].
    destruct (bool_decide _ || _) eqn:Eb; [done|]. apply orb_false_elim in Eb as [Eb _].
    apply bool_decide_eq_false in Eb. cbn. lia.
  - unfold u32_of in E2. destruct (Z.of_nat (length (order_prefix order)) <=? u32_max); cbn in E2; [|done].
    destruct (Z.of_nat (length (order_pending order)) <=? u32_max) eqn:El; cbn in E2; [|done].
    cbn. by apply Z.leb_le.
Qed.

Lemma scan_position p d sc :
  hunter_order_v45 p = None -> scan p = Some sc -> policy_decision_for_scan (PendingTrigger:=PendingTrigger) sc = Ok d ->
  ((position p).1 < (position p).2)%nat /\ Z.of_nat (position p).2 <= u32_max.
Proof.
  intros Eo Es H. unfold position. rewrite Eo, Es. unfold policy_decision_for_scan, validate_shape in H.
  apply result_bind_ok in H as (u1 & Hv & H). case_decide; [done|]. split; [cbn; lia|].
  unfold u32_of in H. destruct (Z.of_nat (cursor _) <=? u32_max); cbn in H; [|done].
  destruct (Z.of_nat (length _) <=? u32_max) eqn:El; cbn in H; [|done]. cbn. by apply Z.leb_le.
Qed.

Lemma position_in_group p s d parts :
  stands_at p d -> hunter_order_substeps_v45 p s = Ok parts ->
  ((position p).1 < (position p).2)%nat /\ Z.of_nat (position p).2 <= u32_max.
Proof.
  intros Hd Hs. destruct (hunter_order_v45 p) as [order|] eqn:Eo.
  - eapply order_position; [exact Hs|by rewrite Eo].
  - unfold stands_at in Hd. rewrite Eo in Hd. destruct (scan p) as [sc|] eqn:Es.
    + by eapply scan_position.
    + unfold position. rewrite Eo, Es. cbn. unfold u32_max. lia.
Qed.

(** ** Answering *)

Lemma answered_position p s a now next p' s' :
  apply_owned (OtherAction:=OtherAction) p s a now next = (p', s', Ok tt) ->
  (hunter_order_v45 p <> None -> scan p = None) ->
  if decide (S (position p).1 = (position p).2) then between_groups p'
  else ~ between_groups p' /\ position p' = (S (position p).1, (position p).2).
Proof.
  unfold apply_owned. case_decide; [done|]. unfold apply_in_place, position, between_groups. intros E Hex.
  destruct (hunter_order_v45 p) as [order|] eqn:Eo.
  - specialize (Hex ltac:(done)). unfold apply_hunter_order_v45 in E.
    destruct (validate_hunter_order_action_v45 p s a _) as [[o nxt]|] eqn:Ev; [|done].
    assert (o = order /\ length nxt = S (length (order_prefix order))) as [-> Hn].
    { unfold validate_hunter_order_action_v45 in Ev. rewrite Eo in Ev.
      apply result_bind_ok in Ev as (_ & _ & Ev). destruct a as [[[]|]| |]; try done.
      destruct (bool_decide _ || _) eqn:Eb; [done|]. injection Ev as <- <-. split; [done|].
      apply orb_false_elim in Eb as [Eb _]. apply bool_decide_eq_false in Eb.
      destruct (decide (length order0 = S (length (order_prefix order)))); [done|]. destruct Eb. by left. }
    case_decide as Hl.
    + injection E as <- <-. cbn [fst snd hunter_order_v45 with_order]. rewrite decide_False by lia.
      split; [by intros [? _]|]. cbn. by rewrite Hn.
    + unfold apply_inner in E. destruct (surface_apply _ _ _) as [[h s1] [[]|]]; [|done]. injection E as <- <-.
      assert (length (order_prefix order) < length (order_pending order))%nat.
      { unfold validate_hunter_order_action_v45 in Ev. rewrite Eo in Ev.
        apply result_bind_ok in Ev as (u1 & Ev & _). unfold order_validate in Ev.
        apply result_bind_ok in Ev as (v & _ & Ev). destruct (negb v); [done|].
        destruct (bool_decide _ || _) eqn:Eb; [done|]. apply orb_false_elim in Eb as [Eb _].
        apply bool_decide_eq_false in Eb. lia. }
      cbn [fst snd]. rewrite decide_True by lia. by split.
  - destruct (scan p) as [sc|] eqn:Es.
    + unfold apply_scan in E. destruct (validate_binding _ _ _ _) as [[]|]; cbn [result_bind] in E; [|done].
      destruct (validate_shape sc) as [[]|]; cbn [result_bind] in E; [|done].
      destruct (scan_answer sc a) as [include|]; cbn [result_bind] in E; [|done]. cbn [fst snd].
      case_bool_decide as Hl.
      * rewrite decide_True by done. cbn [result_bind] in E. unfold apply_inner in E.
        destruct (surface_apply _ _ _) as [[h s1] [[]|]]; [|done]. injection E as <- <-. by split.
      * rewrite decide_False by done. destruct (answer_keeps_a_legal_completion _ _ _ _) as [[]|]; cbn [result_bind] in E; [|done].
        destruct (rebind_owned_revision _ next) as [sc'|] eqn:Er; [|done]. injection E as <- <-.
        cbn [hunter_order_v45 scan with_scan]. rewrite Eo. split; [by intros [_ ?]|].
        unfold rebind_owned_revision in Er. destruct (binding _); [done|]. injection Er as <-.
        by rewrite !progress_of_with.
    + destruct a as [a| |]; [|done|done]. unfold apply_inner in E.
      destruct (surface_apply _ _ _) as [[h s1] [[]|]]; [|done]. injection E as <- <-.
      cbn. by rewrite Eo, Es.
Qed.
End Groups.

Section Inv.
Context {State PendingTrigger OtherDecision OtherAction CardRef OtherSemantic : Type}.
Context `{!EqDecision State} `{!EqDecision PendingTrigger} `{!EqDecision OtherDecision}.
Context `{!EqDecision CardRef} `{!EqDecision OtherSemantic}.
Context `{!CombatView State} `{!SurfaceEngine State PendingTrigger OtherDecision OtherAction}.
Context `{!PolicyEngine State PendingTrigger}.
Context `{!RulesEngine State PendingTrigger OtherDecision OtherAction CardRef OtherSemantic}.
Context `{!EngineLaws State PendingTrigger OtherDecision OtherAction}.
Abbreviation session := (Session.t State PendingTrigger OtherDecision OtherAction CardRef OtherSemantic).
Abbreviation current_decision := (CurrentDecision.t PendingTrigger OtherDecision OtherAction CardRef OtherSemantic).
Implicit Types x y : session.
Implicit Types c : current_decision.

Definition steps_left x : Z := Session.max_policy_steps (Session.ident x) - Session.policy_step_count x.

(** The counters, within their caps. *)
Record counters_ok x : Prop := {
  cap_steps : 0 <= Session.policy_step_count x <= Session.max_policy_steps (Session.ident x);
  cap_u64 : Session.max_policy_steps (Session.ident x) < u64_max;
  cap_physical : 0 <= Session.physical_decision_count x <= Session.max_physical_decisions (Session.ident x);
  cap_physical_u64 : Session.max_physical_decisions (Session.ident x) <= u64_max;
  cap_order : Session.physical_decision_count x <= Session.policy_step_count x;
  cap_revision : Session.environment_revision x = Session.policy_step_count x;
}.

(** The rest of the group fits under both caps. *)
Definition group_fits x : Prop :=
  Session.physical_decision_count x < Session.max_physical_decisions (Session.ident x)
  /\ Z.of_nat (position (Session.surface x)).2 - Z.of_nat (position (Session.surface x)).1 <= steps_left x.

(** The session before it asks. *)
Record ready x : Prop := {
  ready_counters : counters_ok x;
  ready_policy : policy_ok (OtherAction:=OtherAction) (Session.surface x) (Session.state x) (Session.environment_revision x);
  ready_group : ~ between_groups (Session.surface x) -> group_fits x;
  ready_open : Session.terminal x = None;
}.

(** The decision that is offered. *)
Record bound_ok x c : Prop := {
  bound_revision : CurrentDecision.environment_revision c = Session.environment_revision x;
  bound_steps : CurrentDecision.bound_policy_step_count c = Session.policy_step_count x;
  bound_physical : CurrentDecision.bound_physical_decision_count c = Session.physical_decision_count x;
  bound_id : CurrentDecision.physical_decision_id c = Session.physical_decision_count x;
  bound_shown : shown_ok (OtherAction:=OtherAction) (Session.surface x) (Session.state x) (Session.environment_revision x);
  bound_stands : stands_at (Session.surface x) (CurrentDecision.origin_decision c);
  bound_actor : decision_actor (Session.state x) (CurrentDecision.origin_decision c) = Some (CurrentDecision.actor c);
  bound_index : CurrentDecision.substep_index c = Z.of_nat (position (Session.surface x)).1;
  bound_count : CurrentDecision.substep_count c = Z.of_nat (position (Session.surface x)).2;
  bound_within : ((position (Session.surface x)).1 < (position (Session.surface x)).2)%nat
                 /\ Z.of_nat (position (Session.surface x)).2 <= u32_max;
  bound_menu : rules_only_candidates_v1 (CurrentDecision.origin_decision c) (Session.state x) (Session.surface x)
               = Ok (CurrentDecision.candidates c);
  bound_nonempty : CurrentDecision.candidates c <> [];
  bound_u32 : Z.of_nat (length (CurrentDecision.candidates c)) <= u32_max;
  bound_fits : group_fits x;
}.

(** A terminal reports the counters the session stopped at. *)
Definition terminal_ok x (t : RlSessionTerminalV1) : Prop :=
  SearchTree.policy_step_count t = Session.policy_step_count x
  /\ SearchTree.physical_decision_count t = Session.physical_decision_count x
  /\ SearchTree.terminal_episode_id t = Session.episode_id (Session.ident x).

Record session_ok x : Prop := {
  ok_counters : counters_ok x;
  ok_either : match Session.terminal x, Session.current x with
              | Some t, None => terminal_ok x t
              | None, Some c => bound_ok x c
              | _, _ => False
              end;
}.

(** ** Asking *)

(** What asking leaves alone. *)
Definition same_counters x y : Prop :=
  Session.ident y = Session.ident x /\ Session.environment_revision y = Session.environment_revision x
  /\ Session.policy_step_count y = Session.policy_step_count x
  /\ Session.physical_decision_count y = Session.physical_decision_count x.

Lemma counters_carry x y : same_counters x y -> counters_ok x -> counters_ok y.
Proof. intros (E1 & E2 & E3 & E4) [? ? ? ? ? ?]. constructor; rewrite ?E1, ?E2, ?E3, ?E4; done. Qed.

Lemma stopped_ok x y t :
  counters_ok x -> same_counters x y -> Session.terminal y = Some t -> Session.current y = None -> terminal_ok y t ->
  session_ok y /\ same_counters x y.
Proof. intros Hc Hs Et Ec Ht. split; [|done]. constructor; [by apply (counters_carry x)|]. by rewrite Et, Ec. Qed.

Lemma halt_ok x reason :
  counters_ok x -> Session.current x = None -> session_ok (halt x reason) /\ same_counters x (halt x reason).
Proof. intros Hc E. by eapply stopped_ok. Qed.

Lemma truncate_ok x y reason :
  counters_ok x -> same_counters x y -> Session.current y = None ->
  session_ok (truncate y reason) /\ same_counters x (truncate y reason).
Proof. intros Hc (E1 & E2 & E3 & E4) E. by eapply stopped_ok. Qed.

Lemma terminal_from_winner_ok x w reason t : terminal_from_winner x w reason = Ok t -> terminal_ok x t.
Proof. unfold terminal_from_winner. destruct w; [|by intros [= <-]]. repeat case_decide; try done; by intros [= <-]. Qed.

Lemma bind_current_ok x d parts index count y :
  counters_ok x -> Session.current x = None -> Session.terminal x = None ->
  shown_ok (OtherAction:=OtherAction) (Session.surface x) (Session.state x) (Session.environment_revision x) ->
  stands_at (Session.surface x) d -> hunter_order_substeps_v45 (Session.surface x) (Session.state x) = Ok parts ->
  index = Z.of_nat (position (Session.surface x)).1 -> count = Z.of_nat (position (Session.surface x)).2 ->
  group_fits x -> bind_current x d index count = Ok y -> session_ok y /\ same_counters x y.
Proof.
  intros Hc Ec Et Hsh Hst Hparts -> -> Hfits. unfold bind_current.
  destruct (decision_actor (Session.state x) d) as [actor|] eqn:Ea; [|intros [= <-]; by apply halt_ok].
  destruct (rules_only_candidates_v1 d (Session.state x) (Session.surface x)) as [[|m l]|[|e]] eqn:Em;
    [intros [= <-]; by apply halt_ok| |done|intros [= <-]; by apply halt_ok].
  destruct (u32_max <? _) eqn:El; intros [= <-]; [by apply halt_ok|]. split; [|done].
  constructor; [by apply (counters_carry x)|]. cbn. rewrite Et. apply Z.ltb_ge in El.
  constructor; try done. by eapply position_in_group.
Qed.

Lemma group_remainder n i :
  (i < n)%nat -> Z.of_nat n <= u32_max -> (Z.of_nat n - Z.of_nat i) mod 2 ^ 32 = Z.of_nat n - Z.of_nat i.
Proof. unfold u32_max. intros. apply Z.mod_small. lia. Qed.

Lemma admission_bound_ok x d y :
  counters_ok x -> Session.current x = None -> Session.terminal x = None ->
  shown_ok (OtherAction:=OtherAction) (Session.surface x) (Session.state x) (Session.environment_revision x) ->
  stands_at (Session.surface x) d ->
  ((position (Session.surface x)).1 <> 0%nat -> group_fits x) ->
  admit_decision x d = Ok y -> session_ok y /\ same_counters x y.
Proof.
  intros Hc Ec Et Hsh Hst Hmid. unfold admit_decision.
  destruct (hunter_order_substeps_v45 (Session.surface x) (Session.state x)) as [parts|] eqn:Ep;
    [|intros [= <-]; by apply halt_ok].
  rewrite (shown_substeps _ _ _ _ Hst Ep) by (intros H; by apply (pol_order _ _ _ (proj1 Hsh))).
  destruct (position_in_group _ _ _ _ Hst Ep) as [Hlt Hmax].
  destruct ((_ =? 0) && _) eqn:Ephys; [intros [= <-]; by apply truncate_ok|].
  rewrite group_remainder by done.
  destruct (Session.max_policy_steps _ <? _) eqn:Esteps.
  { intros [= <-]. destruct (_ =? 0); by apply truncate_ok. }
  intros E. eapply bind_current_ok; [done..|exact Ep|done|done| |exact E].
  apply Z.ltb_ge in Esteps. unfold saturating_add_u64 in Esteps. pose proof (cap_u64 _ Hc).
  split; [|unfold steps_left; lia].
  destruct (decide ((position (Session.surface x)).1 = 0%nat)) as [E0|E0]; [|by apply Hmid].
  rewrite E0 in Ephys. cbn in Ephys. by apply Z.leb_gt in Ephys.
Qed.

Lemma bind_decision_ok x d y :
  counters_ok x -> Session.current x = None -> Session.terminal x = None ->
  shown_ok (OtherAction:=OtherAction) (Session.surface x) (Session.state x) (Session.environment_revision x) ->
  stands_at (Session.surface x) d ->
  ((position (Session.surface x)).1 <> 0%nat -> group_fits x) ->
  bind_decision x d = Ok y -> session_ok y /\ same_counters x y.
Proof.
  intros Hc Ec Et Hsh Hst Hmid E.
  assert (Hadmit : admit_decision x d = Ok y -> session_ok y /\ same_counters x y) by by apply admission_bound_ok.
  destruct d as [[[]|]| |]; try exact (Hadmit E); cbn [bind_decision] in E.
  - apply result_bind_ok in E as (t & E & [= <-]). apply terminal_from_winner_ok in E. by eapply stopped_ok.
  - apply Ok_inj in E as <-. by apply halt_ok.
Qed.

Lemma advance_ok fuel x y :
  ready x -> advance_rules_only_v1 fuel x = Some (Ok y) -> session_ok y /\ same_counters x y.
Proof.
  intros [Hc Hp Hg Ht]. unfold advance_rules_only_v1.
  destruct (next_decision_with_binding fuel _ _ _) as [r|] eqn:En; [|done].
  destruct (next_shown_ok _ _ _ _ _ Hp En) as (p & s & d & -> & Hsh). cbn [fst snd].
  destruct d as [d|e]; intros [= E].
  2:{ subst y. match goal with |- session_ok (halt ?z ?r) /\ _ => destruct (halt_ok z r) as [H1 H2] end;
        [by apply (counters_carry x)|done|by split]. }
  destruct (asked_position _ _ _ _ _ _ _ En) as (Hst & H0 & Hsame).
  { intros H. by apply (pol_order _ _ _ Hp). }
  destruct (bind_decision_ok (with_current (with_game x p s) None) d y) as [H1 H2]; [by apply (counters_carry x)|done|done|..].
  - by apply (Hsh d).
  - done.
  - cbn. intros Hne. assert (~ between_groups (Session.surface x)) as Hmid by (intros Hb; by apply Hne, H0).
    destruct (Hsame Hmid) as [-> ->]. exact (Hg Hmid).
  - done.
  - by split.
Qed.

(** ** Answering *)

Lemma applied_as_copy `{!DeclareLaws State PendingTrigger OtherDecision OtherAction} x c index (proof : FastActorCurrentCandidateProofV1) p s :
  counters_ok x -> bound_ok x c ->
  from_current c index (Session.policy_step_count x + 1) = Some proof ->
  apply_fast_actor_current_candidate_in_place (Session.surface x) (Session.state x) proof = (p, s, Ok tt) ->
  apply_owned (Session.surface x) (Session.state x) (proof_action proof) (Session.environment_revision x)
    (Session.environment_revision x + 1) = (p, s, Ok tt).
Proof.
  intros Hc Hb Hf. unfold from_current in Hf. apply bind_Some in Hf as (cand & _ & [= <-]).
  rewrite (bound_revision _ _ Hb). cbn [proof_action]. rewrite (cap_revision _ Hc). intros E.
  destruct (in_place_runs (Session.surface x) (Session.state x) (policy_action cand)
    (Session.policy_step_count x) (Session.policy_step_count x + 1)) as [H _].
  - intros sc Es. destruct (bound_shown _ _ Hb) as [Hp _]. by destruct (pol_scan _ _ _ Hp sc Es) as [[]].
  - by rewrite H, E.
Qed.

(** The plan of a step of a bound decision. *)
Lemma step_plan_bound x c i :
  counters_ok x -> bound_ok x c ->
  step_plan x c i =
  match from_current c (Z.to_nat i) (Session.policy_step_count x + 1) with
  | None => Err SelectedIndexOutOfRange
  | Some proof =>
      Ok (Session.policy_step_count x + 1, Session.policy_step_count x + 1,
          (if bool_decide (S (position (Session.surface x)).1 = (position (Session.surface x)).2)
           then Session.physical_decision_count x + 1 else Session.physical_decision_count x), proof)
  end.
Proof.
  intros Hc Hb. pose proof Hc as [Hs Hu Hph Hphu Ho Hr]. destruct (bound_fits _ _ Hb) as [Hf1 Hf2].
  destruct (bound_within _ _ Hb) as [Hlt Hmax]. unfold step_plan.
  rewrite bool_decide_eq_false_2 by (rewrite (bound_revision _ _ Hb), (bound_steps _ _ Hb), (bound_physical _ _ Hb); tauto).
  unfold steps_left in Hf2. rewrite Hr.
  assert (checked_add_u64 (Session.policy_step_count x) 1 = Some (Session.policy_step_count x + 1)) as ->
    by (apply checked_unsigned_some; lia).
  cbn [exhausted ok_or result_bind]. rewrite (bound_index _ _ Hb), (bound_count _ _ Hb).
  assert (checked_unsigned u32_max (Z.of_nat (position (Session.surface x)).1 + 1)
          = Some (Z.of_nat (position (Session.surface x)).1 + 1)) as -> by (apply checked_unsigned_some; lia).
  rewrite (bool_decide_ext (Some (Z.of_nat (position (Session.surface x)).1 + 1) = Some (Z.of_nat (position (Session.surface x)).2))
             (S (position (Session.surface x)).1 = (position (Session.surface x)).2)).
  2:{ split; [intros [=]; lia|intros <-; f_equal; lia]. }
  assert (checked_add_u64 (Session.physical_decision_count x) 1 = Some (Session.physical_decision_count x + 1)) as ->
    by (apply checked_unsigned_some; lia).
  by destruct (bool_decide _), (from_current c _ _).
Qed.
End Inv.
