(* ===== verification/RulesSessionSteps.v ===== *)
(** * Steps of a rules-only session

    An accepted step keeps the invariant and moves each counter as it should; a
    refused one changes nothing or ends the episode. The menu of a scan question is
    the answers that keep a legal declaration in reach; each of them is accepted, and
    before the last question the next one is shown. *)

From S2P Require Import Prelude Ids Bytes SearchTree CombatRules Surface PolicySurface CombatFacts ScanFacts SurfaceInv SessionInv RulesSession RulesSessionInv.

Local Open Scope Z_scope.

(** The engine asks for a combat declaration, and stands where it asked. *)
Definition declaring {State PendingTrigger OtherDecision OtherAction : Type}
    `{!CombatView State} `{!SurfaceEngine State PendingTrigger OtherDecision OtherAction}
    `{!EngineLaws State PendingTrigger OtherDecision OtherAction} (s : State) : Prop :=
  attackers_asked s \/ blockers_asked s.

(** What the session relies on: a fresh game is a sound state; where a combat
    declaration is asked for nothing else is pending and the state passes its
    validations; and a card on the battlefield has a reference. *)
Class SessionLaws (State PendingTrigger OtherDecision OtherAction CardRef OtherSemantic : Type)
    `{!CombatView State} `{!SurfaceEngine State PendingTrigger OtherDecision OtherAction}
    `{!EngineLaws State PendingTrigger OtherDecision OtherAction}
    `{!RulesEngine State PendingTrigger OtherDecision OtherAction CardRef OtherSemantic} := {
  start_sound : forall library0 library1 seed starting s s',
    enable_foundations_combat
      (Nat.iter 7 (fun s => opening_draw Ids.PlayerIds.P1 (opening_draw Ids.PlayerIds.P0 s))
         (new_from_libraries library0 library1 seed starting)) = Ok s ->
    enable_london_mulligans s = Ok s' -> sound_state s';
  declaring_scope : forall s, sound_state s -> declaring s -> scope_validation s = Ok tt;
  declaring_no_mill : forall s, sound_state s -> declaring s -> is_mill s = false;
  declaring_no_cast : forall s p d, sound_state s -> declaring s ->
    (forall sd, d <> PolicyDecision.Surface sd) -> variable_cast_candidates d s p = Ok None;
  battlefield_card_ref : forall s player id, sound_state s -> id ∈ battlefield_of s player ->
    exists r, card_ref s id = Ok r;
}.

Section Steps.
Context {State PendingTrigger OtherDecision OtherAction CardRef OtherSemantic : Type}.
Context `{!EqDecision State} `{!EqDecision PendingTrigger} `{!EqDecision OtherDecision}.
Context `{!EqDecision CardRef} `{!EqDecision OtherSemantic}.
Context `{!CombatView State} `{!SurfaceEngine State PendingTrigger OtherDecision OtherAction}.
Context `{!PolicyEngine State PendingTrigger}.
Context `{!RulesEngine State PendingTrigger OtherDecision OtherAction CardRef OtherSemantic}.
Context `{!EngineLaws State PendingTrigger OtherDecision OtherAction}.
Context `{!DeclareLaws State PendingTrigger OtherDecision OtherAction}.
Abbreviation session := (Session.t State PendingTrigger OtherDecision OtherAction CardRef OtherSemantic).
Abbreviation current_decision := (CurrentDecision.t PendingTrigger OtherDecision OtherAction CardRef OtherSemantic).
Implicit Types x y z : session.
Implicit Types c : current_decision.

(** The step completes the physical decision. *)
Definition completes x : bool :=
  bool_decide (S (position (Session.surface x)).1 = (position (Session.surface x)).2).

(** The session between an applied answer and the next question. *)
Definition after x (p : PolicySurfaceV5 PendingTrigger) (s : State) : session :=
  with_counters (with_current (with_game x p s) None) (Session.policy_step_count x + 1) (Session.policy_step_count x + 1)
    (if completes x then Session.physical_decision_count x + 1 else Session.physical_decision_count x).

Lemma after_ready x c index proof p s :
  session_ok x -> Session.terminal x = None -> bound_ok x c ->
  from_current c index (Session.policy_step_count x + 1) = Some proof ->
  apply_fast_actor_current_candidate_in_place (Session.surface x) (Session.state x) proof = (p, s, Ok tt) ->
  ready (after x p s).
Proof using Type DeclareLaws0.
  intros [Hc _] Ht Hb Hf E. pose proof (applied_as_copy x c index proof p s Hc Hb Hf E) as Ha.
  pose proof Hc as [Hs Hu Hph Hphu Ho Hr]. destruct (bound_fits _ _ Hb) as [Hf1 Hf2]. unfold steps_left in Hf2.
  destruct (bound_within _ _ Hb) as [Hlt Hmax]. pose proof (bound_shown _ _ Hb) as Hsh.
  constructor.
  - constructor; cbn; try done; try lia; destruct (completes x); lia.
  - cbn. rewrite <-Hr. eapply apply_shown_ok; [exact Hsh|lia|exact Ha].
  - cbn. intros Hmid. apply answered_position in Ha; [|intros H; by apply (pol_order _ _ _ (proj1 Hsh))].
    case_decide as Hl; [by destruct Hmid|]. destruct Ha as [_ Ha].
    assert (completes x = false) as Hx by by apply bool_decide_eq_false.
    unfold group_fits, steps_left, after. rewrite Hx. cbn [Session.surface with_counters with_current with_game].
    rewrite Ha. cbn. lia.
  - done.
Qed.

(** The outcomes of a step. *)
Inductive stepped x : session -> result RlSessionErrorCode FastActorResponseV1 -> Prop :=
  | step_accepted y response :
      Session.terminal x = None -> session_ok y -> Session.ident y = Session.ident x ->
      Session.policy_step_count y = Session.policy_step_count x + 1 ->
      Session.physical_decision_count y =
        (if completes x then Session.physical_decision_count x + 1 else Session.physical_decision_count x) ->
      current_response y = Ok response -> stepped x y (Ok response)
  | step_refused e : stepped x x (Err e)
  | step_halted y t :
      session_ok y -> same_counters x y -> Session.terminal y = Some t -> terminal_classification t = Halted ->
      stepped x y (Err StaleEnvironmentBinding).

Lemma rejected_unchanged x proof p s :
  apply_fast_actor_current_candidate_in_place (OtherAction:=OtherAction) (Session.surface x) (Session.state x) proof
    = (p, s, Err RejectedBeforeMutation) ->
  with_game x p s = x.
Proof.
  unfold apply_fast_actor_current_candidate_in_place. destruct x as [i st su r n m cu te]. cbn.
  destruct (negb _); [by intros [= <- <-]|].
  destruct (validate_fast_actor_current_action _ _ _ _ _); [|by intros [= <- <-]].
  destruct (apply_in_place _ _ _ _ _) as [[p' s'] [[]|]]; done.
Qed.

Lemma step_outcome fuel x episode step i y r :
  session_ok x -> apply_prechecked_step_v1 fuel x episode step i = Some (Ok (y, r)) -> stepped x y r.
Proof using Type DeclareLaws0.
  intros Hok. unfold apply_prechecked_step_v1. case_decide; [intros [= <- <-]; constructor|].
  case_decide; [intros [= <- <-]; constructor|].
  destruct (Session.terminal x) as [t|] eqn:Et; [intros [= <- <-]; constructor|].
  pose proof (ok_either _ Hok) as He. rewrite Et in He. destruct (Session.current x) as [c|] eqn:Ec; [|done].
  rewrite (step_plan_bound x c i (ok_counters _ Hok) He).
  destruct (from_current c _ _) as [proof|] eqn:Ef; [|intros [= <- <-]; constructor].
  destruct (apply_fast_actor_current_candidate_in_place _ _ proof) as [[p s] [[]|[]]] eqn:Ea.
  - pose proof (after_ready x c _ proof p s Hok Et He Ef Ea) as Hready.
    change (with_counters _ _ _ _) with (after x p s).
    destruct (advance_rules_only_v1 fuel (after x p s)) as [[z|[]]|] eqn:En; [|done..].
    destruct (advance_ok _ _ _ Hready En) as [Hz (E1 & E2 & E3 & E4)].
    destruct (current_response z) as [response|] eqn:Er; [|done]. intros [= <- <-]. by constructor.
  - intros [= <- <-]. rewrite (rejected_unchanged _ _ _ _ Ea). constructor.
  - intros E. apply (f_equal (fun o => match o with Some (Ok yr) => yr | _ => (x, r) end)) in E.
    apply pair_eq in E as [E1 <-]. rewrite <-E1. unfold in_place_halt.
    eapply step_halted; [|done|done|done].
    apply halt_ok; [|done]. by apply (counters_carry x), Hok.
Qed.

Lemma stepped_ok x y r : session_ok x -> stepped x y r -> session_ok y /\ Session.ident y = Session.ident x.
Proof. intros Hx []; [done|done|]. split; [done|]. apply H0. Qed.

(** ** Plays *)

(** Calls of [step], [n] of them accepted. *)
Inductive plays x : nat -> session -> Prop :=
  | plays_start : plays x 0 x
  | plays_step fuel n y z r episode step i :
      plays x n y -> apply_prechecked_step_v1 fuel y episode step i = Some (Ok (z, r)) ->
      plays x (if is_ok r then S n else n) z.

Lemma plays_ok x n y :
  session_ok x -> plays x n y ->
  session_ok y /\ Session.ident y = Session.ident x
  /\ Session.policy_step_count y = Session.policy_step_count x + Z.of_nat n.
Proof using Type DeclareLaws0.
  intros Hx. induction 1 as [|fuel n y z r episode step i _ (Hy & Hi & Hn) E]; [by rewrite Z.add_0_r|].
  apply step_outcome in E; [|done]. destruct (stepped_ok _ _ _ Hy E) as [Hz Hiz].
  split; [done|]. split; [by rewrite Hiz|]. destruct E as [z response _ _ _ Es _ _| |z t _ Es _ _]; cbn.
  - lia.
  - done.
  - destruct Es as (_ & _ & -> & _). done.
Qed.

Lemma fresh_ready `{!SessionLaws State PendingTrigger OtherDecision OtherAction CardRef OtherSemantic}
    sha256 CARD_DEFS episode seed limits ids mainboards starting admits x :
  0 <= limits.1 <= u64_max -> 0 <= limits.2 < u64_max ->
  fresh_session sha256 CARD_DEFS episode seed limits ids mainboards starting admits = Ok x ->
  ready x /\ Session.policy_step_count x = 0 /\ Session.physical_decision_count x = 0
  /\ Session.ident x = Session.MkIdentity ids
       (explicit_deck_hash_v1 mainboards.1, explicit_deck_hash_v1 mainboards.2) episode limits.1 limits.2.
Proof.
  intros H1 H2. unfold fresh_session. destruct (bool_decide _ || _ || _ || _); [done|].
  destruct (negb _); [done|]. unfold rules_only_deck_pair_state_v1. rewrite result_bind_ok. intros (s0 & E0 & E).
  apply result_bind_ok in E0 as (l0 & _ & E0). apply result_bind_ok in E0 as (l1 & _ & E0). apply Ok_inj in E0 as <-.
  apply result_bind_ok in E as (s1 & E1 & E). apply result_bind_ok in E as (s2 & E2 & E). apply Ok_inj in E as <-.
  unfold unsupported_deck in E1, E2. destruct (enable_foundations_combat _) as [s1'|] eqn:Ef; [|done].
  destruct (enable_london_mulligans _) as [s2'|] eqn:El; [|done]. apply Ok_inj in E1 as ->. apply Ok_inj in E2 as ->.
  split; [|done]. constructor; cbn; [| | |done].
  - constructor; cbn; lia.
  - constructor; [constructor; [|done|done]|done..]. eapply start_sound; [exact Ef|exact El].
  - intros H. by destruct H.
Qed.

Lemma reset_ok `{!SessionLaws State PendingTrigger OtherDecision OtherAction CardRef OtherSemantic}
    fuel sha256 CARD_DEFS episode seed limits ids mainboards starting admits x :
  0 <= limits.1 <= u64_max -> 0 <= limits.2 < u64_max ->
  reset_rules_only_v1 fuel sha256 CARD_DEFS episode seed limits ids mainboards starting admits = Some (Ok x) ->
  session_ok x /\ Session.policy_step_count x = 0 /\ Session.physical_decision_count x = 0
  /\ Session.ident x = Session.MkIdentity ids
       (explicit_deck_hash_v1 mainboards.1, explicit_deck_hash_v1 mainboards.2) episode limits.1 limits.2.
Proof.
  intros H1 H2. unfold reset_rules_only_v1.
  destruct (fresh_session _ _ _ _ _ _ _ _ _) as [x0|] eqn:Ef; [|done].
  destruct (advance_rules_only_v1 fuel x0) as [[x1|[]]|] eqn:Ea; [|done..]. intros [= <-].
  destruct (fresh_ready _ _ _ _ _ _ _ _ _ _ H1 H2 Ef) as (Hr & Hn & Hph & Hi).
  destruct (advance_ok _ _ _ Hr Ea) as [Hx (E1 & E2 & E3 & E4)]. by rewrite E3, E4, E1.
Qed.

(** ** Termination of a call *)

Lemma asking_answers (quiet : State -> nat) :
  (forall s s' d a s'', advance_until_decision s = (s', d) -> SurfaceInv.answered_alone d a -> forced_step s' a = Ok s'' ->
     (quiet s'' < quiet s)%nat) ->
  forall x, exists fuel r, advance_rules_only_v1 fuel x = Some r.
Proof.
  intros Hq x. destruct (loop_ends quiet Hq (Session.state x) (inner (Session.surface x))) as [fuel Hf].
  exists fuel. unfold advance_rules_only_v1, next_decision_with_binding.
  destruct (hunter_order_v45 (Session.surface x)) as [o|].
  { destruct (initialize_hunter_order_v45 _ _ _ _); by eexists. }
  destruct (scan (Session.surface x)); [by eexists|].
  destruct (next_decision fuel _ _) as [[[[h s2] sd]|[]]|]; [|by eexists|done].
  destruct (present _ _ _ _) as [[p s] d]. by eexists.
Qed.
End Steps.

Section Scan.
Context {State PendingTrigger OtherDecision OtherAction CardRef OtherSemantic : Type}.
Context `{!EqDecision State} `{!EqDecision PendingTrigger} `{!EqDecision OtherDecision}.
Context `{!EqDecision CardRef} `{!EqDecision OtherSemantic}.
Context `{!CombatView State} `{!SurfaceEngine State PendingTrigger OtherDecision OtherAction}.
Context `{!PolicyEngine State PendingTrigger}.
Context `{!RulesEngine State PendingTrigger OtherDecision OtherAction CardRef OtherSemantic}.
Context `{!EngineLaws State PendingTrigger OtherDecision OtherAction}.
Context `{!SessionLaws State PendingTrigger OtherDecision OtherAction CardRef OtherSemantic}.
Context `{!DeclareLaws State PendingTrigger OtherDecision OtherAction}.
Abbreviation session := (Session.t State PendingTrigger OtherDecision OtherAction CardRef OtherSemantic).
Abbreviation candidate := (CorePolicyActionCandidateV1 OtherAction CardRef OtherSemantic).
Implicit Types s : State.
Implicit Types p : PolicySurfaceV5 PendingTrigger.
Implicit Types d : PolicyDecision.t PendingTrigger OtherDecision.
Implicit Types x y : session.

(** The answers that keep a legal declaration in reach. *)
Definition kept s (h : HarnessSurfaceV2) (sc : CombatScanV5) : list bool :=
  filter (fun include => is_ok (answer_keeps_a_legal_completion s h sc include) = true) [false; true].

(** The player of the scan has a seat and the attacker asked about a reference. *)
Definition answerable s (sc : CombatScanV5) : Prop :=
  (exists seat, seat_from (E:=CandidateError) (scan_player (progress_of sc)) = Ok seat)
  /\ match sc with
     | Attackers _ => True
     | Blockers attacker _ => exists r, contract (card_ref s attacker) = Ok r
     end.

Lemma scan_declaring p s sc revision :
  policy_ok (OtherAction:=OtherAction) p s revision -> scan p = Some sc -> declaring s.
Proof.
  intros Hp Es. destruct sc as [pr|att pr].
  - left. by apply (pol_attackers _ _ _ Hp pr).
  - right. destruct (pol_scan _ _ _ Hp _ Es) as [Hat _]. destruct (at_attacker _ _ _ _ Hat) as (rs & Eb & _).
    exact (ok_asked _ _ (ok_blockers _ _ (pol_inner _ _ _ Hp) rs Eb)).
Qed.

Lemma candidate_referenced s h sc :
  sound_state s -> scan_wf s h sc -> exists r, contract (card_ref s (current (progress_of sc))) = Ok r.
Proof using Type SessionLaws0.
  intros Hs [Hc _ _ Hf].
  assert (current (progress_of sc) ∈ ordered_candidates (progress_of sc)) as Hin.
  { unfold current. by apply list_elem_of_In, nth_In. }
  assert (exists player, current (progress_of sc) ∈ battlefield_of s player) as [player Hb].
  { destruct sc as [pr|att pr]; cbn in *.
    - apply Hf, list_elem_of_filter in Hin as [_ Hin]. by eexists.
    - destruct Hf as [Hf _]; apply Hf in Hin. unfold legal_blockers_for in Hin.
      destruct (unblockable s att); [by apply elem_of_nil in Hin|].
      destruct (_ <? _); [by apply elem_of_nil in Hin|]. apply list_elem_of_filter in Hin as [_ Hin]. by eexists. }
  destruct (battlefield_card_ref s player _ Hs Hb) as [r E]. exists r. unfold contract. by rewrite E.
Qed.

(** The pair of answers before the filter. *)
Lemma inclusion_pair s h sc d :
  sound_state s -> scan_wf s h sc -> policy_decision_for_scan sc = Ok d ->
  (forall menu, inclusion_candidates s d = Ok menu -> answerable s sc)
  /\ (answerable s sc -> exists f : bool -> ActionSemantic.t CardRef OtherSemantic,
       f false <> f true /\ (forall b, validate_policy_action_semantic_v5 (f b) = Ok tt)
       /\ inclusion_candidates s d = Ok (map (fun b => MkCandidate (f b) (inclusion sc b)) [false; true])).
Proof using Type SessionLaws0.
  intros Hs Hwf Hd. destruct (candidate_referenced s h sc Hs Hwf) as [r Er].
  unfold policy_decision_for_scan in Hd. apply result_bind_ok in Hd as (_ & _ & Hd).
  apply result_bind_ok in Hd as (i & _ & Hd). apply result_bind_ok in Hd as (n & _ & [= <-]).
  destruct sc as [pr|att pr]; cbn in Er |- *; unfold answerable; cbn.
  - split.
    + intros menu (seat & Eseat & _)%result_bind_ok. by split; [eexists|].
    + intros [[seat ->] _]. cbn [result_bind]. rewrite Er.
      by exists (ActionSemantic.ChooseAttackerInclusion seat r).
  - split.
    + intros menu (seat & Eseat & (ra & Era & _)%result_bind_ok)%result_bind_ok. by split; eexists.
    + intros [[seat ->] [ra ->]]. cbn [result_bind]. rewrite Er.
      by exists (ActionSemantic.ChooseBlockerInclusion seat ra r).
Qed.

(** The question goes to the pair: nothing else is pending. *)
Lemma scan_origin_candidates p s sc d revision :
  at_scan p s sc revision -> declaring s -> sound_state s -> policy_decision_for_scan sc = Ok d ->
  rules_only_origin_candidates_v1 d s p =
  let? out := inclusion_candidates s d in
  let? _ := contract (validate_core_policy_action_candidates_v5 out) in Ok out.
Proof using Type SessionLaws0.
  intros [Ho _ _ _ _ _] Hdecl Hs Hd.
  assert ((forall sd, d <> PolicyDecision.Surface sd) /\ full_range_of d = None /\ asks_entry_color d = false
    /\ forall (a : result (Fault CandidateError) (list candidate)) b,
         match d with PolicyDecision.Surface sd => a | _ => b end = b) as (Hn & Hfull & Hcolor & Hmatch).
  { unfold policy_decision_for_scan in Hd. apply result_bind_ok in Hd as (_ & _ & Hd).
    apply result_bind_ok in Hd as (i & _ & Hd). apply result_bind_ok in Hd as (n & _ & [= <-]). by destruct sc. }
  unfold rules_only_origin_candidates_v1, hunter_order_parts_v45. rewrite Ho. cbn [surfaced result_bind].
  rewrite (declaring_no_cast s p d Hs Hdecl Hn). cbn [contract result_bind].
  rewrite Hcolor, (declaring_no_mill s Hs Hdecl). unfold core_policy_action_candidates_next_five_scoped_v59.
  rewrite (declaring_scope s Hs Hdecl), Hfull. cbn [contract result_bind].
  destruct d as [sd| |]; [by destruct (Hn sd)|done|done].
Qed.

Lemma pair_valid (f : bool -> ActionSemantic.t CardRef OtherSemantic) (sc : CombatScanV5) :
  f false <> f true -> (forall b, validate_policy_action_semantic_v5 (f b) = Ok tt) ->
  validate_core_policy_action_candidates_v5
    (map (fun b => MkCandidate (f b) (inclusion (OtherAction:=OtherAction) sc b)) [false; true]) = Ok tt.
Proof.
  intros Hne Hv. unfold validate_core_policy_action_candidates_v5. cbn [map try_fold semantic].
  rewrite !Hv. cbn [result_bind]. rewrite decide_True; [done|].
  repeat constructor; [|by intros ?%elem_of_nil..]. by rewrite list_elem_of_singleton.
Qed.

Lemma offered_inclusion sc (feasible : bool * bool) (f : bool -> ActionSemantic.t CardRef OtherSemantic) b :
  offered feasible (MkCandidate (f b) (inclusion (OtherAction:=OtherAction) sc b)) = if b then feasible.2 else feasible.1.
Proof. by destruct sc. Qed.

(** The menu of a question. *)
Lemma scan_menu p s sc d revision :
  at_scan p s sc revision -> declaring s -> sound_state s -> policy_decision_for_scan sc = Ok d ->
  answerable s sc ->
  exists menu, rules_only_candidates_v1 d s p = Ok menu
    /\ map policy_action menu = map (inclusion sc) (kept s (inner p) sc).
Proof using Type SessionLaws0.
  intros Hat Hc Hs Hd Ha. pose proof (at_wf _ _ _ _ Hat) as Hwf.
  destruct (proj2 (inclusion_pair s (inner p) sc d Hs Hwf Hd) Ha) as (f & Hne & Hv & E).
  unfold rules_only_candidates_v1. rewrite (scan_origin_candidates p s sc d revision Hat Hc Hs Hd), E.
  cbn [result_bind]. rewrite (pair_valid f sc Hne Hv). cbn [contract result_bind].
  assert (flat_scan_menu_v2 p s d (map (fun b => MkCandidate (f b) (inclusion (OtherAction:=OtherAction) sc b)) [false; true])
          = Ok (filter (fun c => offered (is_ok (answer_keeps_a_legal_completion s (inner p) sc false),
                                          is_ok (answer_keeps_a_legal_completion s (inner p) sc true)) c = true)
                 (map (fun b => MkCandidate (f b) (inclusion sc b)) [false; true]))) as ->.
  { assert (feasible_scan_answers p s d = Ok (is_ok (answer_keeps_a_legal_completion s (inner p) sc false),
                                              is_ok (answer_keeps_a_legal_completion s (inner p) sc true))) as Ef.
    { unfold feasible_scan_answers. rewrite (at_active _ _ _ _ Hat), Hd. cbn [result_bind].
      by rewrite decide_False by (intros Hn; by apply Hn). }
    unfold flat_scan_menu_v2. rewrite Ef. cbn [surfaced result_bind].
    unfold policy_decision_for_scan in Hd. apply result_bind_ok in Hd as (_ & _ & Hd).
    apply result_bind_ok in Hd as (i & _ & Hd). apply result_bind_ok in Hd as (n & _ & [= <-]). by destruct sc. }
  eexists. split; [done|]. unfold kept. cbn [map]. rewrite !filter_cons, !filter_nil, !offered_inclusion. cbn [fst snd].
  by destruct (is_ok (answer_keeps_a_legal_completion s (inner p) sc false)),
    (is_ok (answer_keeps_a_legal_completion s (inner p) sc true)).
Qed.

(** A menu that was built shows that the scan is answerable. *)
Lemma menu_answerable p s sc d revision menu :
  at_scan p s sc revision -> declaring s -> sound_state s -> policy_decision_for_scan sc = Ok d ->
  rules_only_candidates_v1 d s p = Ok menu -> answerable s sc.
Proof using Type SessionLaws0.
  intros Hat Hc Hs Hd E. unfold rules_only_candidates_v1 in E. apply result_bind_ok in E as (out & E & _).
  rewrite (scan_origin_candidates p s sc d revision Hat Hc Hs Hd) in E. apply result_bind_ok in E as (o & E & _).
  by eapply (proj1 (inclusion_pair s (inner p) sc d Hs (at_wf _ _ _ _ Hat) Hd)).
Qed.

Lemma kept_nonempty s h sc : scan_wf s h sc -> completable s h sc -> kept s h sc <> [].
Proof.
  intros Hwf Hc. destruct (completable_answer _ _ _ Hwf Hc) as [include E] . unfold kept.
  intros Hn. assert (include ∈ ([] : list bool)) as H; [|by apply elem_of_nil in H].
  rewrite <-Hn. apply list_elem_of_filter. rewrite E. split; [done|]. destruct include; repeat constructor.
Qed.

Lemma kept_short s h sc : (length (kept s h sc) <= 2)%nat.
Proof. unfold kept. etrans; [apply length_filter|]. done. Qed.

Lemma kept_answers s h sc include : include ∈ kept s h sc -> answer_keeps_a_legal_completion s h sc include = Ok tt.
Proof.
  intros [E _]%list_elem_of_filter. by destruct (answer_keeps_a_legal_completion s h sc include) as [[]|].
Qed.

(** ** Accepting *)

Lemma kept_accepted p s sc revision include :
  shown_ok (OtherAction:=OtherAction) p s revision -> scan p = Some sc -> revision < u64_max ->
  answer_keeps_a_legal_completion s (inner p) sc include = Ok tt ->
  exists p' s', apply_owned (OtherAction:=OtherAction) p s (inclusion sc include) revision (revision + 1) = (p', s', Ok tt)
    /\ (~ last_step sc -> p' = with_scan p (Some (next_scan sc include (revision + 1))) /\ s' = s).
Proof.
  intros [Hp _] Es Hmax Hk. pose proof (pol_scan _ _ _ Hp sc Es) as [Hat Hc].
  destruct (decide (last_step sc)) as [Hlast|Hlast].
  - rewrite (apply_last_answer _ _ _ _ _ Hat Hmax Hlast).
    apply (probe_decides _ _ _ _ (at_wf _ _ _ _ Hat)) in Hk as (rest & Hr & Hv).
    unfold later in Hr. rewrite drop_ge in Hr by (unfold last_step in Hlast; lia).
    apply sublist_nil_r in Hr as ->. rewrite app_nil_r in Hv.
    destruct (legal_declaration_accepted _ _ _ _ _ Hp Es Hv) as (h & s' & ->). by eexists _, s'.
  - rewrite (apply_middle_answer _ _ _ _ _ Hat Hmax Hlast), Hk. by eexists _, s.
Qed.

Lemma accepted_in_place p s a now p' s' :
  scan_matches p -> apply_owned (OtherAction:=OtherAction) p s a now (now + 1) = (p', s', Ok tt) ->
  apply_fast_actor_current_candidate_in_place p s (MkCandidateProof true a now (now + 1)) = (p', s', Ok tt).
Proof using Type DeclareLaws0.
  intros Hm E. destruct (in_place_runs p s a now (now + 1) Hm) as [H1 H2]. rewrite E in H1, H2.
  revert H1 H2. destruct (apply_fast_actor_current_candidate_in_place _ _ _) as [[p1 s1] [[]|]]; [by intros [= -> ->]|done].
Qed.
(** ** A question of a session *)

(** The session shows question [cursor] of the scan [sc]. *)
Record asks x (c : CurrentDecision.t PendingTrigger OtherDecision OtherAction CardRef OtherSemantic) (sc : CombatScanV5) : Prop := {
  asks_ok : session_ok x;
  asks_open : Session.terminal x = None;
  asks_current : Session.current x = Some c;
  asks_scan : scan (Session.surface x) = Some sc;
}.

Lemma asks_bound x c sc : asks x c sc -> bound_ok x c.
Proof. intros [Hx Ht Hc _]. pose proof (ok_either _ Hx) as H. by rewrite Ht, Hc in H. Qed.

Lemma asks_at x c sc : asks x c sc ->
  at_scan (Session.surface x) (Session.state x) sc (Session.environment_revision x)
  /\ completable (Session.state x) (inner (Session.surface x)) sc /\ sound_state (Session.state x)
  /\ policy_decision_for_scan sc = Ok (CurrentDecision.origin_decision c).
Proof.
  intros H. pose proof (asks_bound _ _ _ H) as Hb. destruct (bound_shown _ _ Hb) as [Hp _].
  destruct (pol_scan _ _ _ Hp sc (asks_scan _ _ _ H)) as [Hat Hc]. split_and!; [done|done|apply (ok_sound _ _ (pol_inner _ _ _ Hp))|].
  pose proof (bound_stands _ _ Hb) as Hst. unfold stands_at in Hst.
  by rewrite (at_no_order _ _ _ _ Hat), (asks_scan _ _ _ H) in Hst.
Qed.

Lemma asks_declaring x c sc : asks x c sc -> declaring (Session.state x).
Proof.
  intros H. exact (scan_declaring _ _ _ _ (proj1 (bound_shown _ _ (asks_bound _ _ _ H))) (asks_scan _ _ _ H)).
Qed.

Lemma asks_position x c sc : asks x c sc ->
  position (Session.surface x) = (cursor (progress_of sc), length (ordered_candidates (progress_of sc))).
Proof.
  intros H. destruct (asks_at _ _ _ H) as (Hat & _). unfold position.
  by rewrite (at_no_order _ _ _ _ Hat), (asks_scan _ _ _ H).
Qed.

Lemma asks_menu x c sc : asks x c sc ->
  answerable (Session.state x) sc
  /\ map policy_action (CurrentDecision.candidates c) = map (inclusion sc) (kept (Session.state x) (inner (Session.surface x)) sc).
Proof using Type SessionLaws0.
  intros H. destruct (asks_at _ _ _ H) as (Hat & _ & Hs & Hd). pose proof (asks_declaring _ _ _ H) as Hc.
  pose proof (bound_menu _ _ (asks_bound _ _ _ H)) as Hm.
  pose proof (menu_answerable _ _ _ _ _ _ Hat Hc Hs Hd Hm) as Ha. split; [done|].
  destruct (scan_menu _ _ _ _ _ Hat Hc Hs Hd Ha) as (menu & E & Hmenu). rewrite E in Hm. by apply Ok_inj in Hm as <-.
Qed.

(** Every candidate of the menu is applied. *)
Lemma offered_answer_applies x c sc i :
  asks x c sc -> (i < length (CurrentDecision.candidates c))%nat ->
  exists include proof p s, include ∈ kept (Session.state x) (inner (Session.surface x)) sc
    /\ from_current c i (Session.policy_step_count x + 1) = Some proof
    /\ apply_fast_actor_current_candidate_in_place (Session.surface x) (Session.state x) proof = (p, s, Ok tt)
    /\ (~ last_step sc ->
         p = with_scan (Session.surface x) (Some (next_scan sc include (Session.environment_revision x + 1)))
         /\ s = Session.state x).
Proof using Type SessionLaws0 DeclareLaws0.
  intros H Hi. pose proof (asks_bound _ _ _ H) as Hb. destruct (asks_at _ _ _ H) as (Hat & Hc & Hs & Hd).
  destruct (asks_menu _ _ _ H) as [_ Hmenu]. pose proof (asks_ok _ _ _ H) as Hx. pose proof (ok_counters _ Hx) as Hcnt.
  destruct (lookup_lt_is_Some_2 _ _ Hi) as [cand Ei].
  assert (exists include, policy_action cand = inclusion sc include
            /\ include ∈ kept (Session.state x) (inner (Session.surface x)) sc) as (include & Ea & Hk).
  { assert (policy_action cand ∈ map (inclusion sc) (kept (Session.state x) (inner (Session.surface x)) sc)) as Hin.
    { rewrite <-Hmenu. apply list_elem_of_fmap. exists cand. split; [done|]. by eapply list_elem_of_lookup_2. }
    by apply list_elem_of_fmap in Hin. }
  destruct (kept_accepted (Session.surface x) (Session.state x) sc (Session.environment_revision x) include) as (p & s & E & Hmid);
    [exact (bound_shown _ _ Hb)|exact (asks_scan _ _ _ H)| |by apply kept_answers|].
  { destruct Hcnt. destruct (bound_fits _ _ Hb) as [_ Hf]. unfold steps_left in Hf. lia. }
  exists include, (MkCandidateProof true (inclusion sc include) (Session.environment_revision x) (Session.policy_step_count x + 1)), p, s.
  split_and!; [done| | |done].
  - unfold from_current. rewrite Ei. cbn. by rewrite Ea, (bound_revision _ _ Hb).
  - rewrite <-(cap_revision _ Hcnt). apply accepted_in_place; [|done].
    intros sc' E'. rewrite (asks_scan _ _ _ H) in E'. injection E' as <-. exact (at_attacker _ _ _ _ Hat).
Qed.

Lemma step_offered fuel x c sc i include proof p s :
  asks x c sc -> include ∈ kept (Session.state x) (inner (Session.surface x)) sc ->
  from_current c (Z.to_nat i) (Session.policy_step_count x + 1) = Some proof ->
  apply_fast_actor_current_candidate_in_place (Session.surface x) (Session.state x) proof = (p, s, Ok tt) ->
  apply_prechecked_step_v1 fuel x (Session.episode_id (Session.ident x)) (Session.policy_step_count x) i =
  match advance_rules_only_v1 fuel (after x p s) with
  | None => None
  | Some (Err tt) => Some (Err tt)
  | Some (Ok next) => Some (let? response := current_response next in Ok (next, Ok response))
  end.
Proof.
  intros H _ Hf Ha. unfold apply_prechecked_step_v1. rewrite !decide_False by (intros Hn; by apply Hn).
  rewrite (asks_open _ _ _ H), (asks_current _ _ _ H), (step_plan_bound x c i (ok_counters _ (asks_ok _ _ _ H)) (asks_bound _ _ _ H)).
  by rewrite Hf, Ha.
Qed.

(** Before the last question the next one is shown. *)
Lemma middle_advance x c sc include :
  asks x c sc -> ~ last_step sc -> include ∈ kept (Session.state x) (inner (Session.surface x)) sc ->
  let sc' := next_scan sc include (Session.environment_revision x + 1) in
  let y := after x (with_scan (Session.surface x) (Some sc')) (Session.state x) in
  exists c', (forall fuel, advance_rules_only_v1 fuel y = Some (Ok (with_current y (Some c'))))
    /\ CurrentDecision.actor c' = scan_player (progress_of sc)
    /\ CurrentDecision.substep_index c' = Z.of_nat (S (cursor (progress_of sc)))
    /\ CurrentDecision.substep_count c' = Z.of_nat (length (ordered_candidates (progress_of sc)))
    /\ CurrentDecision.physical_decision_id c' = Session.physical_decision_count x
    /\ (length (CurrentDecision.candidates c') <= 2)%nat.
Proof using Type SessionLaws0 DeclareLaws0.
  intros H Hlast Hk sc' y. pose proof (asks_bound _ _ _ H) as Hb. destruct (asks_at _ _ _ H) as (Hat & Hc & Hs & Hd).
  destruct (asks_menu _ _ _ H) as [Hans _]. pose proof (ok_counters _ (asks_ok _ _ _ H)) as Hcnt.
  pose proof (asks_position _ _ _ H) as Hpos. destruct (bound_within _ _ Hb) as [Hlt Hmax].
  destruct (bound_fits _ _ Hb) as [Hf1 Hf2]. rewrite Hpos in *. cbn [fst snd] in *. unfold last_step in Hlast.
  pose proof (at_next_scan _ _ _ _ include Hat Hlast) as Hat'. fold sc' in Hat'.
  pose proof (answered_completable _ _ _ include (Session.environment_revision x + 1) (at_wf _ _ _ _ Hat) (kept_answers _ _ _ _ Hk)) as Hc'.
  fold sc' in Hc'.
  assert (progress_of sc' = with_binding (advance_scan (progress_of sc) include) (OwnedEnvironmentRevision (Session.environment_revision x + 1)))
    as Hpr by (unfold sc', next_scan; by rewrite progress_of_with).
  assert (exists d', policy_decision_for_scan (PendingTrigger:=PendingTrigger) (OtherDecision:=OtherDecision) sc' = Ok d'
            /\ decision_actor (Session.state x) d' = Some (scan_player (progress_of sc))
            /\ substep d' = (Z.of_nat (S (cursor (progress_of sc))), Z.of_nat (length (ordered_candidates (progress_of sc))))
            /\ forall z, bind_decision (State:=State) (OtherAction:=OtherAction) (CardRef:=CardRef) (OtherSemantic:=OtherSemantic) z d' = admit_decision z d')
    as (d' & Hd' & Hactor & Hsub & Hbind).
  { unfold policy_decision_for_scan. rewrite (scan_wf_shape _ _ _ (at_wf _ _ _ _ Hat')). cbn [result_bind].
    rewrite Hpr. cbn [with_binding advance_scan cursor ordered_candidates]. unfold u32_of.
    rewrite !(proj2 (Z.leb_le _ _)) by lia. cbn [result_bind]. eexists. split; [done|].
    unfold sc', next_scan. by destruct sc. }
  assert (answerable (Session.state x) sc') as Hans' by (unfold sc'; by destruct sc).
  destruct (scan_menu _ _ _ _ _ Hat' (asks_declaring _ _ _ H) Hs Hd' Hans') as (menu & Em & Hmenu).
  assert (menu <> [] /\ (length menu <= 2)%nat) as [Hne Hshort].
  { rewrite <-(length_map policy_action menu), Hmenu, length_map. split; [|apply kept_short].
    intros ->. cbn in Hmenu. symmetry in Hmenu. apply map_eq_nil in Hmenu.
    by apply (kept_nonempty (Session.state x) (inner (Session.surface x)) sc' (at_wf _ _ _ _ Hat') Hc'). }
  assert (completes x = false) as Hcomp by (apply bool_decide_eq_false; rewrite Hpos; exact Hlast).
  assert (forall fuel, next_decision_with_binding (OtherAction:=OtherAction) fuel (Session.surface y) (Session.state y)
            (OwnedRevision (Session.environment_revision y)) = Some (Ok (Session.surface y, Session.state y, Ok d'))) as Enext.
  { intros fuel. unfold next_decision_with_binding. cbn. rewrite (at_no_order _ _ _ _ Hat), (own_binding_holds _ _ _ (Session.policy_step_count x + 1)).
    - cbn. by rewrite Hd'.
    - rewrite Hpr. cbn. by rewrite (cap_revision _ Hcnt). }
  assert (hunter_order_substeps_v45 (Session.surface y) (Session.state y) = Ok None) as Eorder.
  { unfold hunter_order_substeps_v45, hunter_order_parts_v45. cbn. by rewrite (at_no_order _ _ _ _ Hat). }
  assert (Session.physical_decision_count y = Session.physical_decision_count x) as Ephys by (cbn; by rewrite Hcomp).
  assert (forall fuel, advance_rules_only_v1 fuel y = Some (bind_decision y d')) as Eadvance.
  { intros fuel. unfold advance_rules_only_v1. by rewrite Enext. }
  setoid_rewrite Eadvance. rewrite Hbind. unfold admit_decision. rewrite Eorder. cbn [default]. rewrite Hsub.
  rewrite (proj2 (Z.eqb_neq _ _)) by lia. cbn [andb]. rewrite group_remainder by lia.
  rewrite (proj2 (Z.ltb_ge _ _)) by (unfold saturating_add_u64, steps_left in *; cbn; lia).
  unfold bind_current. change (Session.state y) with (Session.state x). rewrite Hactor.
  change (Session.surface y) with (with_scan (Session.surface x) (Some sc')). rewrite Em.
  destruct menu as [|m menu]; [done|]. rewrite (proj2 (Z.ltb_ge _ _)) by (unfold u32_max; lia).
  eexists. split; [done|]. cbn [CurrentDecision.actor CurrentDecision.substep_index CurrentDecision.substep_count
    CurrentDecision.physical_decision_id CurrentDecision.candidates]. by rewrite Ephys.
Qed.
End Scan.
