(* ===== verification/RulesSessionFacts.v ===== *)
(** * What a rules-only session guarantees

    The counters and caps of an episode, its end, the effect of a refused step, and
    the questions of a combat declaration. *)

From S2P Require Import Prelude Ids Bytes Randomness Sideboard SearchTree CombatRules CombatFacts Surface PolicySurface ScanFacts SurfaceInv SessionInv SurfaceToy SurfaceFacts RulesSession RulesSessionInv RulesSessionSteps.
Import PlayerIds.

Local Open Scope Z_scope.

(** ** An episode of the small engine *)

#[export] Instance toy_rules : RulesEngine Toy nat unit unit Z unit := {|
  card_ref _ id := Ok (object_num id);
  trigger_source _ := oid 0;
  variable_cast_candidates _ _ _ := Ok None;
  is_entry_color _ := false;
  entry_color_candidates _ _ := Ok [];
  is_mill _ := false;
  mill_candidates _ _ := Ok [];
  scope_validation _ := Ok tt;
  full_range_cast_x _ := None;
  validate_full_range_cast_x_v59 _ _ _ := Ok tt;
  choose_effect_option _ := tt;
  core_surface_action_candidates _ _ := Ok [(ActionSemantic.Other tt, SurfaceAction.Action EngineAction.Pass)];
  semantic_refused _ := None;
  new_from_libraries _ _ _ _ := toy_attack;
  opening_draw _ s := s;
  enable_foundations_combat s := Ok s;
  enable_london_mulligans s := Ok s;
  mechanic_debug _ := [];
  candidate_error_text _ := [];
|}.

#[export] Instance toy_session_laws : SessionLaws Toy nat unit unit Z unit.
Proof.
  constructor.
  - cbn. intros _ _ _ _ s s' [= <-] [= <-]. split; constructor.
  - done.
  - done.
  - done.
  - intros s player id _ _. by eexists.
Qed.

Definition toy_deck : list Z := replicate 40 0.
Definition toy_reset (limits : Z * Z) :=
  reset_rules_only_v1 (State:=Toy) (OtherAction:=unit) (CardRef:=Z) (OtherSemantic:=unit) 3 (fun _ => replicate 32 0)
    [MkCardDef [] Full [] false] 7 11 limits ([1], [2]) (toy_deck, toy_deck) P0 (fun _ => false).

Abbreviation toy_episode := (Session.t Toy nat unit unit Z unit).
Definition toy_x (limits : Z * Z) : toy_episode :=
  match toy_reset limits with
  | Some (Ok x) => x
  | _ => Session.Make (Session.MkIdentity ([], []) (0, 0) 0 0 0) toy_attack toy_surface 0 0 0 None None
  end.

(** The answers by index, from a session. *)
Fixpoint toy_plays (x : toy_episode) (answers : list Z) : toy_episode :=
  match answers with
  | [] => x
  | i :: answers =>
      match apply_prechecked_step_v1 5 x 7 (Session.policy_step_count x) i with
      | Some (Ok (x, _)) => toy_plays x answers
      | _ => x
      end
  end.

Lemma toy_reset_ok : toy_reset (10, 10) = Some (Ok (toy_x (10, 10))).
Proof. vm_compute. reflexivity. Qed.

(** ** Properties *)

Section Facts.
Context {State PendingTrigger OtherDecision OtherAction CardRef OtherSemantic : Type}.
Context `{!EqDecision State} `{!EqDecision PendingTrigger} `{!EqDecision OtherDecision}.
Context `{!EqDecision CardRef} `{!EqDecision OtherSemantic}.
Context `{!CombatView State} `{!SurfaceEngine State PendingTrigger OtherDecision OtherAction}.
Context `{!PolicyEngine State PendingTrigger}.
Context `{!RulesEngine State PendingTrigger OtherDecision OtherAction CardRef OtherSemantic}.
Context `{!EngineLaws State PendingTrigger OtherDecision OtherAction}.
Context `{!SessionLaws State PendingTrigger OtherDecision OtherAction CardRef OtherSemantic}.
Context `{!DeclareLaws State PendingTrigger OtherDecision OtherAction}.
Abbreviation session := (Session.t State PendingTrigger OtherDecision OtherAction CardRef OtherSemantic).

(** The sessions that an episode with these limits reaches, after [n] accepted steps. *)
Inductive reached (limits : Z * Z) (n : nat) : session -> Prop :=
  | reached_after fuel sha256 CARD_DEFS episode seed ids mainboards starting admits x y :
      reset_rules_only_v1 fuel sha256 CARD_DEFS episode seed limits ids mainboards starting admits = Some (Ok x) ->
      plays x n y -> reached limits n y.

Lemma reached_ok limits n y :
  0 <= limits.1 <= u64_max -> 0 <= limits.2 < u64_max -> reached limits n y ->
  session_ok y /\ Session.policy_step_count y = Z.of_nat n
  /\ Session.max_physical_decisions (Session.ident y) = limits.1
  /\ Session.max_policy_steps (Session.ident y) = limits.2.
Proof using Type SessionLaws0 DeclareLaws0.
  intros H1 H2 [fuel sha cards ep seed ids decks st ad x y' E Hp].
  destruct (reset_ok _ _ _ _ _ _ _ _ _ _ _ H1 H2 E) as (Hx & En & _ & Hi).
  destruct (plays_ok _ _ _ Hx Hp) as (Hy & Hi' & ->). rewrite Hi', Hi, En. by split_and!.
Qed.

(** C20: in every session that an episode reaches, the revision and the step counter are the accepted steps, both
    counters respect their caps, and exactly one of a terminal, which reports the counters, and a decision, bound to
    them and answerable within the caps, is there. *)
Theorem counters_stay_within_the_limits limits n (y : session) :
  0 <= limits.1 <= u64_max -> 0 <= limits.2 < u64_max -> reached limits n y ->
  Session.policy_step_count y = Z.of_nat n /\ Session.environment_revision y = Z.of_nat n
  /\ Z.of_nat n <= limits.2
  /\ 0 <= Session.physical_decision_count y <= Z.min limits.1 (Z.of_nat n)
  /\ match Session.terminal y, Session.current y with
     | Some t, None => SearchTree.policy_step_count t = Z.of_nat n
         /\ SearchTree.physical_decision_count t = Session.physical_decision_count y
     | None, Some c =>
         CurrentDecision.environment_revision c = Z.of_nat n /\ CurrentDecision.bound_policy_step_count c = Z.of_nat n
         /\ CurrentDecision.bound_physical_decision_count c = Session.physical_decision_count y
         /\ CurrentDecision.candidates c <> []
         /\ Session.physical_decision_count y < limits.1
         /\ 0 <= CurrentDecision.substep_index c < CurrentDecision.substep_count c
         /\ Z.of_nat n + (CurrentDecision.substep_count c - CurrentDecision.substep_index c) <= limits.2
     | _, _ => False
     end.
Proof using Type SessionLaws0 DeclareLaws0.
  intros H1 H2 H. destruct (reached_ok _ _ _ H1 H2 H) as ([Hc He] & En & E1 & E2).
  pose proof Hc as [Hs Hu Hph Hphu Ho Hr]. rewrite E1, E2, En in *. split_and!; try done; try lia.
  destruct (Session.terminal y) as [t|], (Session.current y) as [c|]; try done.
  - destruct He as (-> & -> & _). by rewrite En.
  - pose proof He as [B1 B2 B3 _ _ _ _ B4 B5 [B6 _] _ B7 _ [B8 B9]].
    unfold steps_left in B9. rewrite E1 in B8. rewrite E2, En in B9. rewrite B1, B2, B3, B4, B5, En, Hr. split_and!; try done; lia.
Qed.

(** C23: an episode ends: no run has more accepted steps than the policy-step limit, after that many the session is
    terminal, a terminal session refuses every step and stays as it is, and, if the engine can open only finitely many
    windows that the surface answers alone, every call of a step has an outcome. *)
Theorem episodes_end_within_their_limits (quiet : State -> nat) limits n (y : session) :
  (forall s s' d a s'', advance_until_decision s = (s', d) -> answered_alone d a -> forced_step s' a = Ok s'' ->
     (quiet s'' < quiet s)%nat) ->
  0 <= limits.1 <= u64_max -> 0 <= limits.2 < u64_max -> reached limits n y ->
  Z.of_nat n <= limits.2
  /\ (Z.of_nat n = limits.2 -> is_Some (Session.terminal y))
  /\ (is_Some (Session.terminal y) -> forall fuel episode step i,
        exists e, apply_prechecked_step_v1 fuel y episode step i = Some (Ok (y, Err e)))
  /\ (forall episode step i, exists fuel r, apply_prechecked_step_v1 fuel y episode step i = Some r).
Proof using Type SessionLaws0 DeclareLaws0.
  intros Hq H1 H2 H. destruct (reached_ok _ _ _ H1 H2 H) as ([Hc He] & En & E1 & E2).
  pose proof (cap_steps _ Hc). split_and!; [lia|..].
  - intros Hn. destruct (Session.terminal y); [by eexists|]. destruct (Session.current y) as [c|]; [|done].
    destruct (bound_fits _ _ He) as [_ Hf]. destruct (bound_within _ _ He) as [Hlt _]. unfold steps_left in Hf. lia.
  - intros [t Et] fuel episode step i. unfold apply_prechecked_step_v1. rewrite Et. repeat case_decide; by eexists.
  - intros episode step i. unfold apply_prechecked_step_v1.
    case_decide; [by exists 0%nat; eexists|]. case_decide; [by exists 0%nat; eexists|].
    destruct (Session.terminal y); [by exists 0%nat; eexists|]. destruct (Session.current y) as [c|]; [|by exists 0%nat; eexists].
    destruct (step_plan y c i) as [[[[a1 a2] a3] proof]|]; [|by exists 0%nat; eexists].
    destruct (apply_fast_actor_current_candidate_in_place _ _ _) as [[p s] [|[]]]; try (by exists 0%nat; eexists).
    destruct (asking_answers quiet Hq (with_counters (with_current (with_game y p s) None) a1 a2 a3)) as (fuel & r & E).
    exists fuel. rewrite E. destruct r as [z|[]]; by eexists.
Qed.

(** C22: a step that fails changes nothing, or, when the engine refuses an action that was offered, ends the episode as
    halted with the counters where they were; and only a step that names the episode and the step count, against a
    session that is not terminal, succeeds. *)
Theorem failed_steps_change_nothing_or_halt limits n (y z : session) fuel episode step i r :
  0 <= limits.1 <= u64_max -> 0 <= limits.2 < u64_max -> reached limits n y ->
  apply_prechecked_step_v1 fuel y episode step i = Some (Ok (z, r)) ->
  match r with
  | Err e =>
      z = y \/ (e = StaleEnvironmentBinding
                /\ Session.policy_step_count z = Session.policy_step_count y
                /\ Session.physical_decision_count z = Session.physical_decision_count y
                /\ exists t, Session.terminal z = Some t /\ terminal_classification t = Halted)
  | Ok response =>
      episode = Session.episode_id (Session.ident y) /\ step = Session.policy_step_count y
      /\ Session.terminal y = None /\ current_response z = Ok response
      /\ Session.policy_step_count z = Session.policy_step_count y + 1
  end.
Proof using Type SessionLaws0 DeclareLaws0.
  intros H1 H2 H E. destruct (reached_ok _ _ _ H1 H2 H) as (Hy & _ & _ & _).
  pose proof (step_outcome _ _ _ _ _ _ _ Hy E) as Ho. destruct Ho as [z response Ht _ _ Hn _ Hr| |z t _ (_ & _ & Es & Ep) Et Hc].
  - unfold apply_prechecked_step_v1 in E. case_decide; [done|]. case_decide; [done|]. by split_and!.
  - by left.
  - right. split_and!; try done. by eexists.
Qed.

Lemma seat_of {E E'} (player : PlayerId) seat :
  seat_from (E:=E) player = Ok seat -> seat_from (E:=E') player = Ok seat.
Proof. unfold seat_from. repeat case_decide; congruence. Qed.

(** C21: the questions of a combat declaration in an episode: the menu is exactly the answers that keep a legal
    declaration in reach, no answer of the menu is refused, and before the last question every answer leads to the next
    question of the same physical decision: the caps never cut a declaration short. *)
Theorem declarations_are_never_cut_short limits n (y : session) c sc :
  0 <= limits.1 <= u64_max -> 0 <= limits.2 < u64_max -> reached limits n y ->
  Session.current y = Some c -> scan (Session.surface y) = Some sc ->
  map policy_action (CurrentDecision.candidates c)
  = map (inclusion sc) (kept (Session.state y) (inner (Session.surface y)) sc)
  /\ forall i, 0 <= i < Z.of_nat (length (CurrentDecision.candidates c)) ->
     let step fuel := apply_prechecked_step_v1 fuel y (Session.episode_id (Session.ident y)) (Session.policy_step_count y) i in
     (forall fuel z e, step fuel <> Some (Ok (z, Err e)))
     /\ (CurrentDecision.substep_index c + 1 < CurrentDecision.substep_count c ->
         exists z d, (forall fuel, step fuel = Some (Ok (z, Ok (Decision d))))
           /\ substep_index d = CurrentDecision.substep_index c + 1
           /\ substep_count d = CurrentDecision.substep_count c
           /\ physical_decision_id d = CurrentDecision.physical_decision_id c).
Proof using Type SessionLaws0 DeclareLaws0.
  intros H1 H2 H Ec Es. destruct (reached_ok _ _ _ H1 H2 H) as (Hy & _ & _ & _).
  assert (asks y c sc) as Ha.
  { constructor; try done. pose proof (ok_either _ Hy) as He. rewrite Ec in He. by destruct (Session.terminal y). }
  destruct (asks_menu _ _ _ Ha) as [[[seat Hseat] _] Hmenu]. split; [done|]. intros i Hi step.
  destruct (offered_answer_applies y c sc (Z.to_nat i) Ha ltac:(lia)) as (include & proof & p & s & Hk & Hf & Hap & Hmid).
  assert (forall fuel, step fuel = _) as Estep by (intros fuel; exact (step_offered fuel y c sc i include proof p s Ha Hk Hf Hap)).
  split.
  - intros fuel z e. rewrite Estep. destruct (advance_rules_only_v1 fuel _) as [[w|[]]|]; [|done|done].
    by destruct (current_response w).
  - pose proof (asks_bound _ _ _ Ha) as Hb. rewrite (bound_index _ _ Hb), (bound_count _ _ Hb), (asks_position _ _ _ Ha).
    cbn [fst snd]. intros Hl. assert (~ last_step sc) as Hlast by (unfold last_step; lia).
    destruct (Hmid Hlast) as [-> ->].
    destruct (middle_advance y c sc include Ha Hlast Hk) as (c' & Hadv & Eactor & Ei & En & Eid & Elen).
    eexists _, _. split.
    { intros fuel. rewrite Estep, Hadv. unfold current_response. cbn [Session.terminal Session.current with_current].
      rewrite Eactor, (seat_of _ _ Hseat). rewrite (proj2 (Z.ltb_ge _ _)) by (unfold u32_max; lia).
      unfold after. cbn [Session.terminal with_counters with_current with_game]. rewrite (asks_open _ _ _ Ha).
      cbn [result_bind]. reflexivity. }
    cbn. rewrite Ei, En, Eid, (bound_id _ _ Hb). split_and!; lia.
Qed.
End Facts.

(** ** Witnesses *)

Lemma toy_reached_start : reached (10, 10) 0 (toy_x (10, 10)).
Proof.
  exact (reached_after (10, 10) 0 3 _ _ 7 11 ([1], [2]) (toy_deck, toy_deck) P0 _ _ _ toy_reset_ok (plays_start _)).
Qed.

(** After the first creature stays home. *)
Definition toy_y : toy_episode := toy_plays (toy_x (10, 10)) [0].

Lemma toy_reached : reached (10, 10) 1 toy_y.
Proof.
  eapply (reached_after (10, 10) 1 3 _ _ 7 11 ([1], [2]) (toy_deck, toy_deck) P0 _ _ _ toy_reset_ok).
  eapply (plays_step _ 5 0 _ _ (Ok _) 7 0 0 (plays_start _)). vm_compute. reflexivity.
Qed.

Lemma toy_limits : 0 <= (10, 10).1 <= u64_max /\ 0 <= (10, 10).2 < u64_max.
Proof. cbn. unfold u64_max. lia. Qed.

Lemma counters_stay_within_the_limits_witness :
  Session.policy_step_count toy_y = 1 /\ Session.physical_decision_count toy_y = 0
  /\ Session.environment_revision toy_y = 1.
Proof.
  split; [reflexivity|split; [reflexivity|]].
  exact (proj1 (proj2 (counters_stay_within_the_limits (10, 10) 1 toy_y (proj1 toy_limits) (proj2 toy_limits) toy_reached))).
Defined.

Lemma episodes_end_within_their_limits_witness :
  exists fuel r, apply_prechecked_step_v1 fuel toy_y 7 1 0 = Some r.
Proof.
  exact (proj2 (proj2 (proj2 (episodes_end_within_their_limits toy_quiet (10, 10) 1 toy_y toy_quiet_drops
    (proj1 toy_limits) (proj2 toy_limits) toy_reached))) 7 1 0).
Defined.

(** The second creature must attack: staying home is not on the menu. *)
Lemma failed_steps_change_nothing_or_halt_witness :
  apply_prechecked_step_v1 5 toy_y 7 1 1 = Some (Ok (toy_y, Err SelectedIndexOutOfRange))
  /\ (toy_y = toy_y \/ SelectedIndexOutOfRange = StaleEnvironmentBinding).
Proof.
  split; [vm_compute; reflexivity|].
  destruct (failed_steps_change_nothing_or_halt (10, 10) 1 toy_y toy_y 5 7 1 1 (Err SelectedIndexOutOfRange)
    (proj1 toy_limits) (proj2 toy_limits) toy_reached ltac:(vm_compute; reflexivity)) as [E|(E & _)]; [by left|by right].
Defined.

Definition toy_c (x : toy_episode) :=
  default (CurrentDecision.Make P1 SearchTree.Surface (PolicyDecision.Surface (SurfaceDecision.DeclareBlockersForAttacker (oid 0) []))
             0 0 0 [] 0 0 0) (Session.current x).

Lemma declarations_are_never_cut_short_witness :
  let c := toy_c (toy_x (10, 10)) in
  length (CurrentDecision.candidates c) = 2%nat
  /\ exists z d, (forall fuel, apply_prechecked_step_v1 fuel (toy_x (10, 10)) 7 0 1 = Some (Ok (z, Ok (Decision d))))
       /\ substep_index d = 1.
Proof.
  split; [vm_compute; reflexivity|].
  destruct (proj2 (proj2 (declarations_are_never_cut_short (10, 10) 0 (toy_x (10, 10)) (toy_c (toy_x (10, 10)))
    (toy_attack_scan (OwnedEnvironmentRevision 0)) (proj1 toy_limits) (proj2 toy_limits) toy_reached_start
    ltac:(vm_compute; reflexivity) ltac:(vm_compute; reflexivity)) 1 ltac:(vm_compute; split; congruence))
    ltac:(vm_compute; reflexivity)) as (z & d & H & E & _).
  exists z, d. split; [exact H|exact E].
Defined.
