(* ===== verification/Belief.v ===== *)
(** * Belief worlds of Limited search
    (src/mtg-kernel/src/limited_match_v1.rs, with limited_belief_clone_v1 of rl_session.rs)

    A fair search draws the opponent's unseen cards from a public corpus of decks,
    given the cards the searching player has seen. The corpus holds sorted decks;
    the shuffles use the rejection draw of Redetermine.v. *)

From stdpp Require Import strings.
From S2P Require Import Prelude Ids Bytes Randomness SearchTree Library Redetermine.
Import PlayerIds.

Local Open Scope Z_scope.

(** The fields of an object that the sampler of worlds reads besides [HiddenCards]. *)
Class BeliefCards (V4 : Type) := {
  token : V4 -> bool;
  face_down : V4 -> bool;
}.

(** ** Sorted multisets *)

(** [LimitedBeliefV1]: the sorted decks. *)
Definition belief_new (decks : list (list Z)) : list (list Z) := map (merge_sort Z.le) decks.

(** [while j < big.len() && big[j] < x { j += 1 }]: the list from [j] on. *)
Fixpoint skip_below (x : Z) (l : list Z) : list Z :=
  match l with
  | [] => []
  | y :: l' => if y <? x then skip_below x l' else l
  end.

Fixpoint is_submultiset (small big : list Z) : bool :=
  match small with
  | [] => true
  | x :: small =>
      match skip_below x big with
      | y :: big => if y =? x then is_submultiset small big else false
      | [] => false
      end
  end.

Fixpoint remainder (big small : list Z) : list Z * nat :=
  match big with
  | [] => ([], 0%nat)
  | x :: big =>
      match skip_below x small with
      | y :: small' =>
          if y =? x then let (out, shared) := remainder big small' in (out, S shared)
          else let (out, shared) := remainder big (y :: small') in (x :: out, shared)
      | [] => let (out, shared) := remainder big [] in (x :: out, shared)
      end
  end.

(** ** Draws *)

Definition draw (rng : SplitMix64) (bound : nat) : option (SplitMix64 * nat) :=
  '(rng, value) ← unbiased_index_v1 rng (Z.of_nat bound); Some (rng, Z.to_nat value).

(** [to_le_bytes] and [from_le_bytes] of a [u64]. *)
Definition to_le_bytes8 (z : Z) : bytes := rev (to_be_bytes 8 z).
Definition from_le_bytes8 (b : bytes) : Z := from_be_bytes (rev b).

Definition derive_seed (sha256 : bytes -> bytes) (domain : bytes) (parts : list Z) : Z :=
  from_le_bytes8 (take 8 (sha256 (domain ++ concat (map to_le_bytes8 parts)))).

(** [b"...\0"] *)
Definition domain_of (s : string) : bytes := bytes_of s ++ [0].

(** ** Worlds *)

Inductive BeliefDrawV1 := Consistent | NearestDeck.

Inductive WorldError := EmptyBeliefCorpus | NoCardsLeft | NeedsCorpus
  | WorldSampler (error : KernelNativeSearchErrorV1) | HiddenSourceConflict.

Abbreviation worlds A := (option (result (Fault WorldError) A)).

(** What a corpus offers next to the observed cards. *)
Definition consistent_decks (belief : list (list Z)) (observed : list Z) (total : nat) : list (list Z) :=
  filter (fun deck => length deck = total /\ is_submultiset observed deck = true) belief.

Definition nearest_decks (belief : list (list Z)) (observed : list Z) : list (list Z) :=
  let shared := map (fun deck => (remainder deck observed).2) belief in
  let best := foldr Nat.max 0%nat shared in
  filter (fun deck => (remainder deck observed).2 = best) belief.

Section Worlds.
Context {V4 Rest : Type} `{!HiddenCards V4} `{!PendingSelection Rest} `{!BeliefCards V4}.
Variable sha256 : bytes -> bytes.
Implicit Types s : GameState V4 Rest.

(** The same walk as that of the sampler, hand then library. *)
Definition unknown_slots_v1 s (actor owner : PlayerId) (pinned : list ObjectId) : option (list ObjectId) :=
  unknown_slots s actor owner pinned.

(** Every zone the enumeration has is one of the seven of the match. *)
Definition deck_card s (owner_ : PlayerId) (unknown : list ObjectId) (entry : ObjectId * GameObject V4) : bool :=
  bool_decide (owner entry.2 = owner_) && negb (token (v4 entry.2)) && negb (spell_copied entry.2)
  && bool_decide (entry.1 ∉ unknown).

Definition observed_cards_v1 s (owner : PlayerId) (unknown : list ObjectId) : list Z :=
  merge_sort Z.le (map (fun e => card_def e.2)
    (filter (fun e => deck_card s owner unknown e && negb (face_down (v4 e.2)) = true) (Arena.iter (objects s)))).

Definition face_down_count s (owner : PlayerId) (unknown : list ObjectId) : nat :=
  length (filter (fun e => deck_card s owner unknown e && face_down (v4 e.2) = true) (Arena.iter (objects s))).

(** [object.card_def = def] with the name and the static part of the table. *)
Definition write_card s (slot : ObjectId * Z) : result (Fault WorldError) (GameState V4 Rest) :=
  let '(id, def) := slot in
  let? object := ok_or Panic (get s id) in
  let? v := ok_or Panic (become_card def (v4 object)) in
  Ok (with_objects s (Arena.update (objects s) id (with_definition def v))).

(** [rest[k % rest.len()]], slot after slot. *)
Definition cycle (rest : list Z) (slots : list ObjectId) : list (ObjectId * Z) :=
  imap (fun k id => (id, nth (k mod length rest) rest 0)) slots.

(** [seed] has seeded the generator; [decks] are those to choose from. *)
Definition deal_deck (observed : list Z) (slots : list ObjectId) (decks : list (list Z)) (rng : SplitMix64) s
  : worlds (GameState V4 Rest) :=
  '(rng, choice) ← draw rng (length decks);
  let deck := nth choice decks [] in
  let cards := (remainder deck observed).1 in
  if decide (cards = []) then Some (Err (Reject NoCardsLeft)) else
  '(rng, cards) ← shuffle_definitions (pred (length cards)) rng cards;
  Some (try_fold write_card s (cycle cards slots)).

Definition apply_belief_v1 s (actor : PlayerId) (pinned : list ObjectId) (belief : list (list Z)) (seed : Z)
  : worlds (GameState V4 Rest * BeliefDrawV1) :=
  if decide (belief = []) then Some (Err (Reject EmptyBeliefCorpus)) else
  match unknown_slots_v1 s actor (opponent actor) pinned with
  | None => Some (Err Panic)
  | Some [] => Some (Ok (s, Consistent))
  | Some slots =>
      let observed := observed_cards_v1 s (opponent actor) slots in
      let total := (length observed + length slots + face_down_count s (opponent actor) slots)%nat in
      let rng := SplitMix64_seed (derive_seed sha256 (domain_of "mtg-kernel/limited-belief/v1") [seed]) in
      let consistent := consistent_decks belief observed total in
      let kind := if decide (consistent = []) then NearestDeck else Consistent in
      let decks := if decide (consistent = []) then nearest_decks belief observed else consistent in
      r ← deal_deck observed slots decks rng s;
      Some (let? s := r in Ok (s, kind))
  end.

(** [limited_belief_clone_v1] on the state, for the player of the current decision;
    [conflicts] is the provenance check of flat_action_v4.rs. *)
Definition limited_belief_clone_v1 (conflicts : GameState V4 Rest -> list ObjectId -> bool) s (actor : PlayerId) (seed : Z)
    (rewrite_ : GameState V4 Rest -> list ObjectId -> worlds (GameState V4 Rest)) : worlds (GameState V4 Rest) :=
  let pinned := pending_selection_hidden_objects_v1 s actor in
  match unknown_slots_v1 s actor P0 pinned, unknown_slots_v1 s actor P1 pinned with
  | Some slots0, Some slots1 =>
      if conflicts s (slots0 ++ slots1) then Some (Err (Reject HiddenSourceConflict)) else
      sampled ← redeterminize_hidden_zones_pinned_v1 s actor seed pinned;
      match sampled with
      | Err Panic => Some (Err Panic)
      | Err (Reject e) => Some (Err (Reject (WorldSampler e)))
      | Ok sampled => rewrite_ sampled pinned
      end
  | _, _ => Some (Err Panic)
  end.

Inductive WorldModeV1 := ClosedList | TrueList | Peek.

(** [sample_world_v1] on the state. *)
Definition sample_world_v1 (conflicts : GameState V4 Rest -> list ObjectId -> bool) s (actor : PlayerId)
    (mode : WorldModeV1) (belief : option (list (list Z))) (seed : Z) : worlds (GameState V4 Rest) :=
  match mode with
  | Peek => Some (Ok s)
  | TrueList => limited_belief_clone_v1 conflicts s actor seed (fun s _ => Some (Ok s))
  | ClosedList =>
      match belief with
      | None => Some (Err (Reject NeedsCorpus))
      | Some belief =>
          limited_belief_clone_v1 conflicts s actor seed (fun s pinned =>
            r ← apply_belief_v1 s actor pinned belief seed; Some (let? after := r in Ok after.1))
      end
  end.
End Worlds.

(** ** Dealing a pair *)

(** [Err tt]: fewer than two decks. The two deck indices, the shared seed and the
    starting seat. *)
Definition deal_pair_v1 (sha256 : bytes -> bytes) (seed pair : Z) (count : nat)
  : option (result unit (nat * nat * Z * PlayerId)) :=
  if decide (count < 2)%nat then Some (Err tt) else
  let rng := SplitMix64_seed (derive_seed sha256 (domain_of "mtg-kernel/limited-match-pair/v1") [seed; pair]) in
  '(rng, first) ← draw rng count;
  '(rng, second) ← draw rng (count - 1);
  let second := if decide (first <= second)%nat then S second else second in
  let (rng, env_seed) := next_u64 rng in
  let (_, coin) := next_u64 rng in
  Some (Ok (first, second, env_seed, if decide (Z.land coin 1 = 0) then P0 else P1)).
