(* ===== verification/BeliefFacts.v ===== *)
(** * A consistent belief world is a deck of the corpus

    The walks over sorted lists are the multiset operations, the draws always end,
    and what the belief draw writes into the opponent's unknown slots. *)

From stdpp Require Import strings.
From S2P Require Import Prelude Ids Bytes Randomness RandomnessFacts FastSamplerBits Library LibraryFacts SearchMathFacts Redetermine RedetermineFacts Belief.
Import PlayerIds.

Local Open Scope Z_scope.

Abbreviation sorted := (StronglySorted Z.le).

Lemma skip_below_split x l : sorted l ->
  exists low, l = low ++ skip_below x l /\ Forall (fun y => y < x) low
    /\ sorted (skip_below x l) /\ Forall (fun y => x <= y) (skip_below x l).
Proof.
  induction l as [|y l IH]; intros Hs; cbn; [by exists []|].
  apply StronglySorted_inv in Hs as [Hs Hy]. destruct (y <? x) eqn:E; bool_to_prop.
  - destruct (IH Hs) as (low & El & Hl & Hs' & Hge). exists (y :: low). cbn. rewrite <-El. by repeat constructor.
  - exists []. split_and!; [done|done|by constructor|]. constructor; [done|].
    eapply Forall_impl; [exact Hy|]. intros z. cbn. lia.
Qed.

(** What is not in the first part is in the second. *)
Lemma submseteq_skip_l (l low k : list Z) : l ⊆+ low ++ k -> (forall z, z ∈ low -> z ∉ l) -> l ⊆+ k.
Proof.
  induction low as [|a low IH]; intros H Hn; [done|]. cbn in H. apply IH.
  - apply submseteq_cons_r in H as [H|(l' & E & H)]; [done|]. exfalso. apply (Hn a); [by left|]. rewrite E. by left.
  - intros z Hz. apply Hn. by right.
Qed.

Lemma is_submultiset_spec small : forall big, sorted small -> sorted big ->
  is_submultiset small big = true <-> small ⊆+ big.
Proof.
  induction small as [|x small IH]; intros big Hs Hb; cbn; [split; [intros _; apply submseteq_nil_l|done]|].
  apply StronglySorted_inv in Hs as [Hs Hx]. destruct (skip_below_split x big Hb) as (low & Eb & Hlow & Hs' & Hge).
  assert (Hnot : forall z, z ∈ low -> z ∉ x :: small).
  { intros z Hz. apply (proj1 (Forall_forall _ _) Hlow) in Hz. cbn in Hz. intros [->|Hin]%elem_of_cons; [lia|].
    apply (proj1 (Forall_forall _ _) Hx) in Hin. lia. }
  destruct (skip_below x big) as [|y big'].
  - split; [done|]. intros H. rewrite Eb in H. apply submseteq_skip_l in H; [|done].
    apply submseteq_nil_r in H. done.
  - apply StronglySorted_inv in Hs' as [Hs' Hy]. destruct (y =? x) eqn:E; bool_to_prop.
    + subst y. rewrite IH by done. rewrite Eb. split; intros H.
      * apply submseteq_app_r. exists [], (x :: small). split_and!; [done|apply submseteq_nil_l|]. by apply submseteq_skip.
      * apply submseteq_skip_l in H; [|done].
        by apply submseteq_app_inv_l with [x].
    + split; [done|]. intros H. rewrite Eb in H. apply submseteq_skip_l in H; [|done]. exfalso.
      assert (x ∈ y :: big') as Hin by (eapply elem_of_submseteq; [|exact H]; by left).
      apply elem_of_cons in Hin as [Hin|Hin]; [done|]. apply (proj1 (Forall_forall _ _) Hy) in Hin.
      apply Forall_cons in Hge as [? _]. lia.
Qed.

Lemma remainder_nil big : remainder big [] = (big, 0%nat).
Proof. induction big as [|x big IH]; cbn; [done|]. by rewrite IH. Qed.

(** The multiset difference and the size of the intersection. *)
Lemma remainder_spec big : forall small, sorted big -> sorted small ->
  exists common rest, remainder big small = ((remainder big small).1, length common)
    /\ big ≡ₚ (remainder big small).1 ++ common /\ small ≡ₚ common ++ rest
    /\ forall z, z ∈ (remainder big small).1 -> z ∉ rest.
Proof.
  induction big as [|x big IH]; intros small Hb Hs; cbn [remainder].
  { exists [], small. split_and!; try done. by intros z ?%elem_of_nil. }
  apply StronglySorted_inv in Hb as [Hb Hx]. destruct (skip_below_split x small Hs) as (low & Es & Hlow & Hs' & Hge).
  assert (Hbelow : forall z, x <= z -> z ∉ low).
  { intros z Hz Hin. apply (proj1 (Forall_forall _ _) Hlow) in Hin. lia. }
  destruct (skip_below x small) as [|y small'].
  - rewrite remainder_nil. cbn. exists [], small. rewrite app_nil_r. split_and!; try done.
    rewrite Es, app_nil_r. intros z [->|Hz]%elem_of_cons; apply Hbelow; [lia|].
    by apply (proj1 (Forall_forall _ _) Hx) in Hz.
  - assert (sorted (y :: small')) as Hys by done. apply StronglySorted_inv in Hs' as [Hs' Hy].
    assert (Hin_big : forall k z, sorted k -> z ∈ (remainder big k).1 -> x <= z).
    { intros k z Hk Hz. destruct (IH k Hb Hk) as (c & r & _ & Ebig & _ & _).
      apply (proj1 (Forall_forall _ _) Hx). rewrite Ebig. apply elem_of_app. by left. }
    destruct (y =? x) eqn:E; bool_to_prop.
    + subst y. destruct (IH small' Hb Hs') as (c & r & Er & Ebig & Esmall & Hdis).
      rewrite Er. cbn [fst]. exists (x :: c), (low ++ r). split_and!; [done| | |].
      * rewrite Ebig at 1. by rewrite Permutation_middle.
      * rewrite Es at 1. cbn. rewrite Esmall. by rewrite !Permutation_middle, (Permutation_app_comm low), <-!app_assoc, (Permutation_app_comm low).
      * intros z Hz [Hz'|Hz']%elem_of_app; [|by apply (Hdis z)]. by apply (Hbelow z); [apply (Hin_big small')|].
    + destruct (IH (y :: small') Hb Hys) as (c & r & Er & Ebig & Esmall & Hdis).
      rewrite Er. cbn [fst]. exists c, (low ++ r). split_and!; [done| | |].
      * rewrite Ebig at 1. done.
      * rewrite Es at 1. rewrite Esmall. rewrite !app_assoc. by rewrite (Permutation_app_comm low).
      * intros z [->|Hz]%elem_of_cons [Hz'|Hz']%elem_of_app.
        -- by apply (Hbelow x); [lia|].
        -- assert (x ∈ y :: small') as Hin by (rewrite Esmall; apply elem_of_app; by right).
           apply elem_of_cons in Hin as [Hin|Hin]; [done|]. apply (proj1 (Forall_forall _ _) Hy) in Hin.
           apply Forall_cons in Hge as [? _]. lia.
        -- by apply (Hbelow z); [apply (Hin_big (y :: small'))|].
        -- by apply (Hdis z).
Qed.

(** Of a deck that contains the observed cards, the rest is what was not observed. *)
Lemma remainder_contained big small : sorted big -> sorted small -> small ⊆+ big ->
  big ≡ₚ (remainder big small).1 ++ small.
Proof.
  intros Hb Hs H. destruct (remainder_spec big small Hb Hs) as (c & r & _ & Ebig & Esmall & Hdis).
  assert (r = []) as ->.
  { set (out := (remainder big small).1) in *. rewrite Ebig, Esmall, (Permutation_app_comm out c) in H.
    apply submseteq_app_inv_l in H. destruct r as [|z r]; [done|]. exfalso. apply (Hdis z); [|by left]. eapply elem_of_submseteq; [|exact H]. by left. }
  rewrite app_nil_r in Esmall. etrans; [exact Ebig|]. apply Permutation_app_head. by symmetry.
Qed.

(** ** Draws *)

Lemma draw_runs rng bound : is_word (sm_state rng) -> (0 < bound)%nat -> Z.of_nat bound <= u64_max ->
  exists rng' j, draw rng bound = Some (rng', j) /\ (j < bound)%nat /\ is_word (sm_state rng').
Proof.
  intros Hw Hb Hm. destruct (unbiased_index_runs rng (Z.of_nat bound) Hw ltac:(lia)) as (k & _ & _ & _ & E).
  unfold draw. rewrite E. cbn [mbind option_bind]. eexists _, _. split; [done|].
  pose proof (Z.mod_pos_bound (output k rng) (Z.of_nat bound) ltac:(lia)). split; [lia|]. by apply steps_is_word.
Qed.

(** A digest is 32 bytes. *)
Definition digests (sha256 : bytes -> bytes) : Prop :=
  forall m, length (sha256 m) = 32%nat /\ Forall (fun b => 0 <= b < 256) (sha256 m).

Lemma from_be_bytes_range l : forall acc, 0 <= acc -> Forall (fun b => 0 <= b < 256) l ->
  acc * 256 ^ Z.of_nat (length l) <= foldl (fun acc byte => acc * 256 + byte) acc l < (acc + 1) * 256 ^ Z.of_nat (length l).
Proof.
  induction l as [|b l IH]; intros acc Ha Hl; cbn [foldl length]; [lia|].
  apply Forall_cons in Hl as [Hb Hl]. specialize (IH (acc * 256 + b) ltac:(lia) Hl).
  rewrite Nat2Z.inj_succ, Z.pow_succ_r by lia. pose proof (Z.pow_pos_nonneg 256 (Z.of_nat (length l)) ltac:(lia) ltac:(lia)).
  nia.
Qed.

Lemma derived_seed_is_word sha256 domain parts : digests sha256 -> is_word (derive_seed sha256 domain parts).
Proof.
  intros H. unfold derive_seed, from_le_bytes8, is_word, from_be_bytes. set (m := domain ++ _).
  destruct (H m) as [Hl Hb]. pose proof (from_be_bytes_range (rev (take 8 (sha256 m))) 0 ltac:(lia)) as Hr.
  rewrite length_rev, length_take, Hl in Hr. cbn in Hr. apply Hr. apply Forall_rev. by apply Forall_take.
Qed.

Section Facts.
Context {V4 Rest : Type} `{!HiddenCards V4} `{!BeliefCards V4}.
Implicit Types s : GameState V4 Rest.

(** Over distinct cards, each gets its new identity. *)
Lemma write_runs slots : forall s defs, NoDup slots -> valid_ids slots -> length defs = length slots ->
  (forall id, id ∈ slots -> is_Some (get s id)) ->
  (forall d, d ∈ defs -> forall v, is_Some (become_card d v)) ->
  exists s', try_fold write_card s (zip slots defs) = Ok s' /\ owner_dealt s s' slots defs.
Proof.
  induction slots as [|id slots IH]; intros s [|d defs] Hnd Hv Hl Hex Ht; try done; cbn [zip zip_with try_fold].
  { exists s. split; [done|]. split; [by destruct s|done|done|done]. }
  apply NoDup_cons in Hnd as [Hnin Hnd]. apply Forall_cons in Hv as [Hid Hv].
  destruct (Hex id) as [o Eo]; [by left|]. destruct (Ht d ltac:(by left) (v4 o)) as [v Ev].
  set (s1 := with_objects s (Arena.update (objects s) id (with_definition d v))).
  assert (write_card s (id, d) = Ok s1) as ->.
  { unfold write_card. rewrite Eo. cbn [ok_or result_bind]. by rewrite Ev. }
  cbn [result_bind].
  assert (Hg : forall x, 0 <= object_num x -> get s1 x = if decide (x = id) then with_definition d v <$> get s x else get s x)
    by (intros x Hx; by apply get_with_objects).
  assert (Hsame : forall x, x ∈ slots -> get s1 x = get s x).
  { intros x Hx. rewrite Hg by exact (proj1 (Forall_forall _ _) Hv x Hx). rewrite decide_False; [done|]. by intros ->. }
  destruct (IH s1 defs Hnd Hv ltac:(cbn in Hl; lia)) as (s' & E & [F Hlen Hoth Hsl]).
  { intros x Hx. rewrite Hsame by done. apply Hex. by right. }
  { intros e He. apply Ht. by right. }
  exists s'. split; [done|]. split.
  - rewrite F. done.
  - rewrite Hlen. unfold Arena.len. cbn. by rewrite length_alter.
  - intros x Hx [Hne Hn]%not_elem_of_cons. rewrite Hoth, Hg by done. by rewrite decide_False.
  - intros [|k] x e y Ex Ee Ey; cbn in Ex, Ee.
    + injection Ex as <-. injection Ee as <-. rewrite Eo in Ey. injection Ey as <-.
      exists (with_definition d v o). rewrite Hoth, Hg, decide_True, Eo by done. split; [done|]. by exists v.
    + apply (Hsl k); [done|done|]. rewrite Hsame; [done|]. by eapply list_elem_of_lookup_2.
Qed.

(** The identities dealt to [n] slots. *)
Definition dealt_cards (cards : list Z) (n : nat) : list Z :=
  map (fun k => nth (k mod length cards) cards 0) (seq 0 n).

Lemma cycle_zip cards slots : cycle cards slots = zip slots (dealt_cards cards (length slots)).
Proof.
  unfold cycle, dealt_cards. apply list_eq. intros k. rewrite list_lookup_imap, lookup_zip_with.
  rewrite list_lookup_fmap. destruct (slots !! k) as [id|] eqn:E; [|done]. cbn.
  by rewrite lookup_seq_lt by (by eapply lookup_lt_Some).
Qed.

Lemma dealt_cards_length cards n : length (dealt_cards cards n) = n.
Proof. unfold dealt_cards. by rewrite length_map, length_seq. Qed.

Lemma dealt_cards_in cards n d : cards <> [] -> d ∈ dealt_cards cards n -> d ∈ cards.
Proof.
  intros Hne (k & -> & _)%list_elem_of_fmap. apply list_elem_of_In, nth_In, Nat.mod_upper_bound. by destruct cards.
Qed.

(** Enough cards are dealt once each. *)
Lemma dealt_cards_take cards n : (n <= length cards)%nat -> dealt_cards cards n = take n cards.
Proof.
  intros H. apply list_eq. intros k. unfold dealt_cards. rewrite list_lookup_fmap.
  destruct (decide (k < n)%nat) as [Hk|Hk].
  - rewrite lookup_seq_lt, lookup_take_lt by done. cbn. rewrite Nat.mod_small by lia.
    destruct (cards !! k) as [c|] eqn:E; [by rewrite (nth_lookup_Some _ _ _ _ E)|]. apply lookup_ge_None in E. lia.
  - rewrite lookup_seq_ge, lookup_take_ge by lia. done.
Qed.

(** One deck is chosen, and what is left of it is dealt in some order. *)
Lemma deal_deck_runs s observed slots decks rng :
  is_word (sm_state rng) -> decks <> [] -> Z.of_nat (length decks) <= u64_max ->
  (forall deck, deck ∈ decks -> Z.of_nat (length deck) <= u64_max
     /\ (sorted deck) /\ Forall (fun c => forall v, is_Some (become_card c v)) deck) ->
  sorted observed -> NoDup slots -> valid_ids slots -> (forall id, id ∈ slots -> is_Some (get s id)) ->
  exists deck cards, deck ∈ decks /\ cards ≡ₚ (remainder deck observed).1
    /\ ((cards = [] /\ deal_deck observed slots decks rng s = Some (Err (Reject NoCardsLeft)))
        \/ (cards <> [] /\ exists s', deal_deck observed slots decks rng s = Some (Ok s')
              /\ owner_dealt s s' slots (dealt_cards cards (length slots)))).
Proof.
  intros Hw Hne Hfit Hdecks Hobs Hnd Hv Hex. unfold deal_deck.
  destruct (draw_runs rng (length decks) Hw ltac:(destruct decks; [done|cbn; lia]) Hfit) as (rng1 & j & -> & Hj & Hw1).
  cbn [mbind option_bind]. set (deck := nth j decks []).
  assert (deck ∈ decks) as Hin by (by apply list_elem_of_In, nth_In).
  destruct (Hdecks deck Hin) as (Hlen & Hs & Htab). exists deck.
  destruct (remainder_spec deck observed Hs Hobs) as (c & r & _ & Edeck & _ & _).
  case_decide as Hc; [exists []; rewrite Hc; split_and!; [done|done|by left]|].
  set (cards := (remainder deck observed).1) in *.
  destruct (shuffle_definitions_runs (pred (length cards)) rng1 cards Hw1) as (js & rng2 & _ & _ & Esh).
  { apply Permutation_length in Edeck. rewrite length_app in Edeck. lia. }
  rewrite Esh. cbn [mbind option_bind]. set (dealt := shuffle_with _ _ _) in *.
  apply shuffle_definitions_perm in Esh. fold dealt in Esh.
  assert (dealt <> []) as Hd by (intros E; rewrite E in Esh; by apply Permutation_nil_l in Esh).
  exists dealt. split; [done|]. split; [done|]. right. split; [done|].
  destruct (write_runs slots s (dealt_cards dealt (length slots)) Hnd Hv) as (s' & E & Ho);
    [by rewrite dealt_cards_length|done| |].
  - intros d Hdin. apply dealt_cards_in in Hdin; [|done]. rewrite Esh in Hdin.
    apply (proj1 (Forall_forall _ _) Htab). rewrite Edeck. apply elem_of_app. by left.
  - exists s'. rewrite cycle_zip. by rewrite E.
Qed.

(** ** The decks to choose from *)

Lemma observed_sorted s owner unknown : sorted (observed_cards_v1 s owner unknown).
Proof.
  assert (Transitive Z.le) by (intros a b c; lia). assert (Total Z.le) by (intros a b; lia).
  apply (StronglySorted_merge_sort Z.le).
Qed.

(** A corpus of sorted decks of cards of the table. *)
Definition corpus_ok (belief : list (list Z)) : Prop :=
  belief <> [] /\ Z.of_nat (length belief) <= u64_max
  /\ forall deck, deck ∈ belief -> Z.of_nat (length deck) <= u64_max /\ sorted deck
       /\ Forall (fun c => forall v : V4, is_Some (become_card c v)) deck.

Lemma filtered_fits (P : list Z -> Prop) `{!forall d, base.Decision (P d)} belief :
  Z.of_nat (length belief) <= u64_max -> Z.of_nat (length (filter P belief)) <= u64_max.
Proof. pose proof (length_filter P belief). lia. Qed.

Lemma consistent_spec belief observed total deck : corpus_ok belief -> sorted observed ->
  deck ∈ consistent_decks belief observed total <-> deck ∈ belief /\ length deck = total /\ observed ⊆+ deck.
Proof.
  intros (_ & _ & Hc) Ho. unfold consistent_decks. rewrite list_elem_of_filter. split.
  - intros [[Hl Hs] Hin]. destruct (Hc deck Hin) as (_ & Hsd & _). rewrite is_submultiset_spec in Hs by done. done.
  - intros (Hin & Hl & Hs). destruct (Hc deck Hin) as (_ & Hsd & _). rewrite is_submultiset_spec by done. done.
Qed.

Lemma max_shared (f : list Z -> nat) l : (forall d, d ∈ l -> (f d <= foldr Nat.max 0 (map f l))%nat)
  /\ (l <> [] -> exists d, d ∈ l /\ f d = foldr Nat.max 0%nat (map f l)).
Proof.
  induction l as [|a l [IH1 IH2]]; cbn; [by split; [intros d ?%elem_of_nil|]|]. split.
  - intros d [->|Hd]%elem_of_cons; [lia|]. specialize (IH1 d Hd). lia.
  - intros _. destruct l as [|b l]; [exists a; split; [by left|cbn; lia]|].
    destruct IH2 as (d & Hd & E); [done|].
    destruct (Nat.max_spec (f a) (foldr Nat.max 0%nat (map f (b :: l)))) as [[_ ->]|[_ ->]].
    + exists d. split; [by right|done].
    + exists a. split; [by left|done].
Qed.

Lemma nearest_spec belief observed : belief <> [] ->
  nearest_decks belief observed <> []
  /\ forall deck, deck ∈ nearest_decks belief observed -> deck ∈ belief
       /\ forall deck', deck' ∈ belief -> ((remainder deck' observed).2 <= (remainder deck observed).2)%nat.
Proof.
  intros Hne. destruct (max_shared (fun deck => (remainder deck observed).2) belief) as [Hle Hex]. split.
  - destruct (Hex Hne) as (d & Hd & E). intros Hn. assert (d ∈ nearest_decks belief observed) as H.
    { apply list_elem_of_filter. by split. }
    rewrite Hn in H. by apply elem_of_nil in H.
  - intros deck [E Hin]%list_elem_of_filter. split; [done|]. intros deck' Hd'. rewrite E. by apply Hle.
Qed.

(** What a run wrote: these identities to the slots, and nothing else. *)
Record wrote s s' (slots : list ObjectId) (dealt : list Z) : Prop := {
  wrote_slots : identities s' slots dealt;
  wrote_frame : s' = with_objects s (objects s');
  wrote_others : forall id, 0 <= object_num id -> (id ∉ slots) -> get s' id = get s id;
}.

Lemma dealt_wrote s s' slots defs : owner_dealt s s' slots defs -> length defs = length slots ->
  (forall id, id ∈ slots -> is_Some (get s id)) -> wrote s s' slots defs.
Proof. intros H Hl Hex. pose proof (dealt_identities _ _ _ _ H Hl Hex). destruct H. by constructor. Qed.

(** C25: the world of a fair search, drawn from a corpus: if a deck of the corpus has the right size and contains the
    cards seen, then a consistent world is drawn, in which the opponent's unknown cards, the cards seen and as many
    cards as lie face down make up exactly one deck of the corpus; otherwise the cards come from a deck that shares the
    most cards with those seen, unless that deck has no other card. Nothing else of the game changes. *)
Theorem belief_worlds_are_corpus_decks sha256 s actor pinned belief seed slots :
  hidden_ok s -> valid_player actor -> digests sha256 -> corpus_ok belief ->
  unknown_slots_v1 s actor (opponent actor) pinned = Some slots -> slots <> [] ->
  let observed := observed_cards_v1 s (opponent actor) slots in
  let hidden := face_down_count s (opponent actor) slots in
  let fits deck := deck ∈ belief /\ length deck = (length observed + length slots + hidden)%nat /\ observed ⊆+ deck in
  ((exists deck, fits deck) ->
     exists s' deck dealt unseen, apply_belief_v1 sha256 s actor pinned belief seed = Some (Ok (s', Consistent))
       /\ fits deck /\ length unseen = hidden /\ deck ≡ₚ dealt ++ observed ++ unseen /\ wrote s s' slots dealt)
  /\ (~ (exists deck, fits deck) ->
     exists deck, deck ∈ belief
       /\ (forall deck', deck' ∈ belief -> ((remainder deck' observed).2 <= (remainder deck observed).2)%nat)
       /\ ((deck ⊆+ observed /\ apply_belief_v1 sha256 s actor pinned belief seed = Some (Err (Reject NoCardsLeft)))
           \/ exists s' dealt, apply_belief_v1 sha256 s actor pinned belief seed = Some (Ok (s', NearestDeck))
                /\ Forall (.∈ deck) dealt /\ wrote s s' slots dealt)).
Proof.
  intros Hok Hv Hsha Hc Es Hne observed hidden fits. pose proof Hc as (Hb & Hfit & Hdecks).
  destruct (unknown_slots_runs s actor (opponent actor) pinned Hok Hv) as (slots' & Es' & Hnd & _ & Hex);
    [by apply opponent_valid|]. unfold unknown_slots_v1 in Es. rewrite Es in Es'. injection Es' as <-.
  assert (valid_ids slots) as Hids by (apply Forall_forall; intros id Hid; destruct (Hex id Hid); lia).
  assert (Hsome : forall id, id ∈ slots -> is_Some (get s id)).
  { intros id Hid. destruct (Hex id Hid) as (_ & o & E & _). by exists o. }
  pose proof (observed_sorted s (opponent actor) slots) as Hobs. fold observed in Hobs.
  unfold apply_belief_v1, unknown_slots_v1. rewrite decide_False, Es by done.
  destruct slots as [|id0 slots0]; [done|]. set (slots := id0 :: slots0) in *. fold observed hidden.
  set (total := (length observed + length slots + hidden)%nat) in *.
  pose proof (derived_seed_is_word sha256 (domain_of "mtg-kernel/limited-belief/v1") [seed] Hsha) as Hw.
  pose proof (consistent_spec belief observed total) as Hspec.
  assert (run : forall decks, decks <> [] -> Z.of_nat (length decks) <= u64_max -> (forall d, d ∈ decks -> d ∈ belief) ->
    exists deck cards, deck ∈ decks /\ cards ≡ₚ (remainder deck observed).1
    /\ ((cards = [] /\ deal_deck observed slots decks (SplitMix64_seed (derive_seed sha256 (domain_of "mtg-kernel/limited-belief/v1") [seed])) s
           = Some (Err (Reject NoCardsLeft)))
        \/ (cards <> [] /\ exists s', deal_deck observed slots decks (SplitMix64_seed (derive_seed sha256 (domain_of "mtg-kernel/limited-belief/v1") [seed])) s
           = Some (Ok s') /\ owner_dealt s s' slots (dealt_cards cards (length slots))))).
  { intros decks Hd Hl Hsub. apply deal_deck_runs; try done. intros deck Hin. by apply Hdecks, Hsub. }
  split.
  - intros [deck0 Hfits]. assert (consistent_decks belief observed total <> []) as Hcons.
    { intros E. apply (Hspec deck0 Hc Hobs) in Hfits. rewrite E in Hfits. by apply elem_of_nil in Hfits. }
    rewrite !decide_False by done.
    destruct (run (consistent_decks belief observed total) Hcons) as (deck & cards & Hin & Hcards & Hrun);
      [by apply filtered_fits|by intros d [_ ?]%list_elem_of_filter|].
    apply (Hspec deck Hc Hobs) in Hin. pose proof Hin as (Hin' & Hlen & Hsub).
    destruct (Hdecks deck Hin') as (_ & Hsd & _). pose proof (remainder_contained deck observed Hsd Hobs Hsub) as Hrem.
    rewrite <-Hcards in Hrem. pose proof (Permutation_length Hrem) as Hl. rewrite length_app, Hlen in Hl. unfold total in Hl.
    destruct Hrun as [[-> _]|(Hcne & s' & -> & Hdealt)]; [cbn in Hl; lia|].
    rewrite dealt_cards_take in Hdealt by lia.
    exists s', deck, (take (length slots) cards), (drop (length slots) cards). split_and!; [done|done| | |].
    + rewrite length_drop. lia.
    + etrans; [exact Hrem|]. rewrite <-(take_drop (length slots) cards) at 1. rewrite <-app_assoc.
      apply Permutation_app_head, Permutation_app_comm.
    + apply dealt_wrote; [done|rewrite length_take; lia|done].
  - intros Hno. assert (consistent_decks belief observed total = []) as Hcons.
    { destruct (consistent_decks belief observed total) as [|d l] eqn:E; [done|]. exfalso. apply Hno. exists d.
      apply (proj1 (Hspec d Hc Hobs)). by left. }
    rewrite !decide_True by done. destruct (nearest_spec belief observed Hb) as [Hnn Hnear].
    destruct (run (nearest_decks belief observed) Hnn) as (deck & cards & Hin & Hcards & Hrun);
      [by apply filtered_fits|by intros d [_ ?]%list_elem_of_filter|].
    destruct (Hnear deck Hin) as [Hin' Hbest]. exists deck. split; [done|]. split; [done|].
    destruct (Hdecks deck Hin') as (_ & Hsd & _).
    destruct (remainder_spec deck observed Hsd Hobs) as (c & r & _ & Edeck & Eobs & _). rewrite <-Hcards in Edeck.
    destruct Hrun as [[-> E]|(Hcne & s' & E & Hdealt)]; rewrite E.
    + left. split; [|done]. rewrite Edeck, Eobs. cbn. by apply submseteq_inserts_r.
    + right. exists s', (dealt_cards cards (length slots)). split; [done|]. split.
      * apply Forall_forall. intros d Hd. apply dealt_cards_in in Hd; [|done]. rewrite Edeck. apply elem_of_app. by left.
      * apply dealt_wrote; [done|apply dealt_cards_length|done].
Qed.
End Facts.

(** ** Dealing a pair *)

Lemma bind_step {A B} (m : option A) (f : A -> option B) a r : m = Some a -> f a = r -> m ≫= f = r.
Proof. by intros -> <-. Qed.

Theorem pairs_are_two_decks sha256 seed pair count :
  digests sha256 -> (2 <= count)%nat -> Z.of_nat count <= u64_max ->
  exists first second env_seed starting,
    deal_pair_v1 sha256 seed pair count = Some (Ok (first, second, env_seed, starting))
    /\ (first < count)%nat /\ (second < count)%nat /\ first <> second /\ valid_player starting.
Proof.
  intros Hd Hc Hm. pose proof (derived_seed_is_word sha256 (domain_of "mtg-kernel/limited-match-pair/v1") [seed; pair] Hd) as Hw.
  destruct (draw_runs (SplitMix64_seed (derive_seed sha256 (domain_of "mtg-kernel/limited-match-pair/v1") [seed; pair]))
    count Hw ltac:(lia) Hm) as (rng1 & i & Ei & Hi & Hw1).
  destruct (draw_runs rng1 (count - 1) Hw1 ltac:(lia) ltac:(lia)) as (rng2 & j & Ej & Hj & _).
  destruct (next_u64 rng2) as [rng3 env] eqn:E3. destruct (next_u64 rng3) as [rng4 coin] eqn:E4.
  exists i, (if decide (i <= j)%nat then S j else j), env, (if decide (Z.land coin 1 = 0) then P0 else P1).
  split; [|split; [exact Hi|split; [case_decide; lia|split; [case_decide; lia|case_decide; [by left|by right]]]]].
  unfold deal_pair_v1. rewrite decide_False by lia. refine (bind_step _ _ _ _ Ei _). cbv beta iota.
  refine (bind_step _ _ _ _ Ej _). cbv beta iota zeta. by rewrite E3, E4.
Qed.

(** ** In the game of LibraryFacts.v *)

#[export] Instance BareBelief : BeliefCards unit := { token _ := false; face_down _ := false }.

Definition sevens (_ : bytes) : bytes := replicate 32 7.

Lemma sevens_digests : digests sevens.
Proof. intros m. split; [done|]. by apply Forall_replicate. Qed.

Lemma bare_slots : unknown_slots_v1 bare_game P1 (opponent P1) [] = Some [MkObjectId 0; MkObjectId 1; MkObjectId 2].
Proof. vm_compute. reflexivity. Qed.

Lemma bare_corpus_ok : corpus_ok (V4:=unit) [[10; 10; 13]; [7; 8]].
Proof.
  split; [done|]. split; [by vm_compute|]. intros deck [->|[->|?%elem_of_nil]%elem_of_cons]%elem_of_cons; [| |done];
    (split; [by vm_compute|]); (split; [repeat constructor; lia|]); repeat constructor; intros []; by eexists.
Qed.

Lemma belief_worlds_are_corpus_decks_witness :
  exists s' dealt, apply_belief_v1 sevens bare_game P1 [] [[10; 10; 13]; [7; 8]] 3 = Some (Ok (s', Consistent))
  /\ identities s' [MkObjectId 0; MkObjectId 1; MkObjectId 2] dealt /\ length dealt = 3%nat.
Proof.
  destruct (belief_worlds_are_corpus_decks sevens bare_game P1 [] [[10; 10; 13]; [7; 8]] 3
    [MkObjectId 0; MkObjectId 1; MkObjectId 2] bare_game_hidden_ok (or_intror eq_refl) sevens_digests bare_corpus_ok
    bare_slots ltac:(discriminate)) as [H _].
  destruct H as (s' & deck & dealt & unseen & E & _ & _ & _ & Hw).
  - exists [10; 10; 13]. split; [by left|]. split; [vm_compute; reflexivity|]. apply submseteq_nil_l.
  - exists s', dealt. split; [exact E|]. split; [exact (wrote_slots _ _ _ _ Hw)|].
    exact (eq_sym (Forall2_length _ _ _ (wrote_slots _ _ _ _ Hw))).
Defined.
