(* ===== verification/BeliefBlind.v ===== *)
(** * A fair world never reads the hidden cards

    The worlds of the mode [ClosedList] are the same whatever the opponent's unknown
    cards are, and however the player's own library is ordered. *)

From stdpp Require Import strings.
From S2P Require Import Prelude Ids Bytes Randomness RandomnessFacts FastSamplerBits SearchMathFacts SearchTree CombatDamage Library LibraryRows LibraryFacts LibraryMoves LibraryReach LibraryKnowledge Redetermine RedetermineFacts RedetermineForgets Belief BeliefFacts.
Import PlayerIds.

Local Open Scope Z_scope.

(** [become_card] replaces the name and the static part, and keeps the rest. *)
Class HiddenLaws (V4 : Type) `{!HiddenCards V4} := {
  become_again : forall d v w, become_card d v = Some w -> forall e, become_card e w = become_card e v;
  become_attachments : forall d v w, become_card d v = Some w -> attachments w = attachments v;
}.

Section Blind.
Context {V4 Rest : Type} `{!HiddenCards V4} `{!PendingSelection Rest} `{!BeliefCards V4} `{!HiddenLaws V4}.
Implicit Types s t : GameState V4 Rest.

(** ** Dealing any identities *)

Lemma alike_new (o o' : GameObject V4) d e v w : alike o o' -> become_card d (v4 o) = Some v -> become_card e (v4 o') = Some w ->
  alike (with_definition d v o) (with_definition e w o').
Proof using Type HiddenLaws0.
  intros [H1 H2 H3 H4 H5 H6 H7] Ev Ew. split; cbn; try done.
  - by rewrite (become_attachments _ _ _ Ev), (become_attachments _ _ _ Ew).
  - intros x. by rewrite (become_again _ _ _ Ev), (become_again _ _ _ Ew).
Qed.

Lemma relabel_any Q {dQ : forall x, base.Decision (Q x)} s t id d e :
  agree Q s t -> 0 <= object_num id -> Q id ->
  (forall v : V4, is_Some (become_card d v)) -> (forall v : V4, is_Some (become_card e v)) ->
  agreeing Q (relabel s (id, d)) (relabel t (id, e)).
Proof using Type HiddenLaws0.
  intros H Hid HQ Hd He. pose proof (agree_get Q s t id H Hid) as Hg. unfold relabel.
  destruct (get s id) as [o|] eqn:Eo, (get t id) as [o'|] eqn:Eo'; try done; cbn [ok_or result_bind].
  rewrite (alike_hidden o o' Hg). destruct (hidden_card o); [|done].
  destruct (Hd (v4 o)) as [v Ev], (He (v4 o')) as [w Ew]. rewrite Ev, Ew. cbn [ok_or result_bind agreeing].
  destruct H as [F Hl Hoff Hon]. split.
  - rewrite F. done.
  - unfold Arena.len in *. cbn. by rewrite !length_alter.
  - intros x Hx Hn. rewrite !get_with_objects by done. rewrite !decide_False by (intros ->; done). by apply Hoff.
  - intros x Hx HQx y Ey. rewrite get_with_objects in Ey by done. rewrite get_with_objects by done.
    case_decide as Ex.
    + subst x. rewrite Eo in Ey. injection Ey as <-. rewrite Eo'. eexists. split; [done|]. by apply alike_new.
    + by apply Hon.
Qed.

Lemma deal_any slots : forall Q {dQ : forall x, base.Decision (Q x)} s t ds es,
  agree Q s t -> valid_ids slots -> (forall id, id ∈ slots -> Q id) -> length ds = length slots -> length es = length slots ->
  (forall d, d ∈ ds -> forall v : V4, is_Some (become_card d v)) ->
  (forall e, e ∈ es -> forall v : V4, is_Some (become_card e v)) ->
  agreeing Q (try_fold relabel s (zip slots ds)) (try_fold relabel t (zip slots es)).
Proof using Type HiddenLaws0.
  induction slots as [|id slots IH]; intros Q dQ s t [|d ds] [|e es] H Hv HQ Hl Hl' Hd He; try done; cbn [zip zip_with try_fold].
  apply Forall_cons in Hv as [Hid Hv].
  assert (agreeing Q (relabel s (id, d)) (relabel t (id, e))) as Hone.
  { apply (relabel_any Q s t id d e H Hid); [apply HQ; by left|apply Hd; by left|apply He; by left]. }
  destruct (relabel s (id, d)) as [s1|], (relabel t (id, e)) as [t1|]; cbn [agreeing result_bind] in *; try done.
  apply (IH Q dQ); [exact Hone|exact Hv| |cbn in Hl; lia|cbn in Hl'; lia| |].
  - intros x Hx. apply HQ. by right.
  - intros c Hc. apply Hd. by right.
  - intros c Hc. apply He. by right.
Qed.

Lemma shuffle_rng index : forall rng l l' r l1,
  shuffle_definitions index rng l = Some (r, l1) -> exists l1', shuffle_definitions index rng l' = Some (r, l1').
Proof.
  induction index as [|below IH]; intros rng l l' r l1; cbn [shuffle_definitions]; [intros [= <- <-]; by eexists|].
  intros ([rng1 j] & -> & E)%bind_Some. cbn [mbind option_bind]. by eapply IH.
Qed.

Lemma owner_any Q {dQ : forall x, base.Decision (Q x)} s t root_actor owner pinned rng slots d e :
  agree Q s t -> is_word (sm_state rng) -> valid_ids slots -> Z.of_nat (length slots) <= u32_max + 1 ->
  unknown_slots s root_actor owner pinned = Some slots -> (forall id, id ∈ slots -> Q id) ->
  identities s slots d -> identities t slots e ->
  (forall c, c ∈ d ++ e -> forall v : V4, is_Some (become_card c v)) ->
  agreeing_runs Q (redeterminize_owner root_actor pinned owner rng s) (redeterminize_owner root_actor pinned owner rng t).
Proof using Type HiddenLaws0.
  intros Ha Hw Hv Hfit Es HQ Hd He Htab. unfold redeterminize_owner.
  rewrite Es, (agree_slots Q s t root_actor owner pinned Ha), Es.
  rewrite (proj2 (identities_mapM s slots d) Hd), (proj2 (identities_mapM t slots e) He).
  pose proof (Forall2_length _ _ _ Hd) as Hl. pose proof (Forall2_length _ _ _ He) as Hl'.
  destruct (shuffle_definitions_runs (pred (length d)) rng (merge_sort Z.le d) Hw) as (js & rng' & _ & Hw' & Esh).
  { unfold u32_max, u64_max in *. lia. }
  destruct (shuffle_rng _ _ _ (merge_sort Z.le e) _ _ Esh) as [e' Esh'].
  replace (length e) with (length d) by lia. rewrite Esh, Esh'. cbn [mbind option_bind].
  set (d' := shuffle_with _ _ _) in *.
  apply shuffle_definitions_perm in Esh, Esh'. rewrite merge_sort_Permutation in Esh, Esh'.
  pose proof (deal_any slots Q s t d' e' Ha Hv HQ) as Hrun.
  destruct (try_fold relabel s (zip slots d')) as [s1|], (try_fold relabel t (zip slots e')) as [t1|];
    cbn in Hrun |- *; try (split_and!; [done|done|]); apply Hrun; try (by rewrite ?Esh, ?Esh'; lia);
    intros c Hc; apply Htab, elem_of_app; rewrite ?Esh, ?Esh' in Hc; auto.
Qed.

(** ** The belief draw on states that agree *)

Lemma iter_agree Q {dQ : forall x, base.Decision (Q x)} s t : agree Q s t ->
  Forall2 (fun a b => b.1 = a.1 /\ 0 <= object_num a.1 /\ (~ Q a.1 -> b.2 = a.2))
    (Arena.iter (objects s)) (Arena.iter (objects t)).
Proof.
  intros [_ Hl Hoff _]. unfold Arena.iter. apply Forall2_same_length_lookup_2.
  { rewrite !length_imap. unfold Arena.len in Hl. lia. }
  intros i a b Ea Eb. rewrite list_lookup_imap in Ea, Eb.
  apply fmap_Some in Ea as (o & Eo & ->), Eb as (o' & Eo' & ->). cbn. split_and!; [done|lia|]. intros Hn.
  specialize (Hoff (MkObjectId (Z.of_nat i)) ltac:(cbn; lia) Hn). unfold get, Arena.try_get, Arena.index in Hoff.
  cbn in Hoff. rewrite Nat2Z.id in Hoff. congruence.
Qed.

Lemma filter_agree (Q : ObjectId -> Prop) {B} (g : ObjectId * GameObject V4 -> B) (P : ObjectId * GameObject V4 -> Prop)
    `{!forall e, base.Decision (P e)} l l' :
  (forall e, Q e.1 -> ~ P e) -> (forall x, base.Decision (Q x)) ->
  Forall2 (fun a b => b.1 = a.1 /\ 0 <= object_num a.1 /\ (~ Q a.1 -> b.2 = a.2)) l l' ->
  map g (filter P l') = map g (filter P l).
Proof.
  intros HP dQ Hall. induction Hall as [|[i o] [j o'] l l' (Ei & _ & Eo) _ IH]; [done|]. cbn in Ei, Eo. subst j.
  destruct (dQ i) as [HQ|HQ].
  - by rewrite !filter_cons_False by (by apply HP).
  - rewrite (Eo HQ). rewrite !filter_cons. case_decide; cbn; by rewrite IH.
Qed.

Lemma seen_agree (Q : ObjectId -> Prop) {dQ : forall x, base.Decision (Q x)} s t owner slots :
  agree Q s t -> (forall id, Q id -> id ∈ slots) ->
  observed_cards_v1 t owner slots = observed_cards_v1 s owner slots
  /\ face_down_count t owner slots = face_down_count s owner slots.
Proof.
  intros Ha HQ. pose proof (iter_agree Q s t Ha) as Hi.
  assert (forall e : ObjectId * GameObject V4, Q e.1 -> deck_card s owner slots e = false) as Hn.
  { intros e He. unfold deck_card. rewrite (bool_decide_eq_false_2 (e.1 ∉ slots)); [by rewrite andb_false_r|].
    intros Hn. by apply Hn, HQ. }
  unfold observed_cards_v1, face_down_count. split.
  - f_equal. apply (filter_agree Q); [|done|done]. intros e He. change (deck_card t) with (deck_card s). by rewrite Hn.
  - rewrite <-(length_map (fun e => e) (filter _ (Arena.iter (objects t)))), <-(length_map (fun e => e.1) (filter _ (Arena.iter (objects s)))).
    rewrite length_map, <-(length_map (fun e => e.1)). f_equal.
    apply (filter_agree Q); [|done|done]. intros e He. change (deck_card t) with (deck_card s). by rewrite Hn.
Qed.

(** Writing the same cards makes the slots equal. *)
Definition writing (Q : ObjectId -> Prop) (r r' : result (Fault WorldError) (GameState V4 Rest)) : Prop :=
  match r, r' with
  | Ok s, Ok t => agree Q s t
  | Err e, Err e' => e = e'
  | _, _ => False
  end.

Lemma write_agree Q {dQ : forall x, base.Decision (Q x)} s t id d : agree Q s t -> 0 <= object_num id ->
  writing (fun x => Q x /\ x <> id) (write_card s (id, d)) (write_card t (id, d)).
Proof.
  intros H Hid. pose proof (agree_get Q s t id H Hid) as Hg. unfold write_card.
  destruct (get s id) as [o|] eqn:Eo, (get t id) as [o'|] eqn:Eo'; try done; cbn [ok_or result_bind].
  rewrite (alike_become o o' Hg). destruct (become_card d (v4 o)) as [v|]; [|done]. cbn [ok_or result_bind writing].
  destruct H as [F Hl Hoff Hon]. split.
  - rewrite F. done.
  - unfold Arena.len in *. cbn. by rewrite !length_alter.
  - intros x Hx HQ. rewrite !get_with_objects by done. case_decide as Ex.
    + subst. rewrite Eo, Eo'. cbn. f_equal. by apply alike_dealt.
    + apply Hoff; [done|]. tauto.
  - intros x Hx [HQ Hne] y Ey. rewrite get_with_objects, decide_False in Ey by done.
    rewrite get_with_objects, decide_False by done. by apply Hon.
Qed.

Lemma writes_agree l : forall Q {dQ : forall x, base.Decision (Q x)} s t, agree Q s t -> valid_ids (map fst l) ->
  writing (fun x => Q x /\ (x ∉ map fst l)) (try_fold write_card s l) (try_fold write_card t l).
Proof.
  induction l as [|[id d] l IH]; intros Q dQ s t H Hv; cbn [try_fold].
  { destruct H as [F Hl Hoff Hon]. split; [done|done| |].
    - intros x Hx Hn. apply Hoff; [done|]. intros Hq. apply Hn. split; [done|apply not_elem_of_nil].
    - intros x Hx [Hq _]. by apply Hon. }
  apply Forall_cons in Hv as [Hid Hv]. pose proof (write_agree Q s t id d H Hid) as Hone.
  destruct (write_card s (id, d)) as [s1|], (write_card t (id, d)) as [t1|]; cbn [writing result_bind] in *; try done.
  specialize (IH (fun x => Q x /\ x <> id) _ s1 t1 Hone Hv).
  destruct (try_fold write_card s1 l) as [s2|], (try_fold write_card t1 l) as [t2|]; cbn [writing] in *; try done.
  destruct IH as [F Hl Hoff Hon]. split; [done|done| |].
  - intros x Hx Hn. apply Hoff; [done|]. intros [[Hq Hne] Hnin]. apply Hn. split; [done|]. cbn. by apply not_elem_of_cons.
  - intros x Hx [Hq [Hne Hnin]%not_elem_of_cons]. by apply Hon.
Qed.

Lemma deal_deck_agree Q {dQ : forall x, base.Decision (Q x)} s t observed slots decks rng :
  agree Q s t -> valid_ids slots -> (forall id, Q id -> id ∈ slots) ->
  deal_deck observed slots decks rng t = deal_deck observed slots decks rng s.
Proof.
  intros Ha Hv HQ. unfold deal_deck. destruct (draw rng (length decks)) as [[rng1 j]|]; [|done]. cbn [mbind option_bind].
  case_decide; [done|]. destruct (shuffle_definitions _ _ _) as [[rng2 cards]|]; [|done]. cbn [mbind option_bind].
  assert (map fst (cycle cards slots) = slots) as Ez by (rewrite cycle_zip, fst_zip; [done|rewrite dealt_cards_length; lia]).
  pose proof (writes_agree (cycle cards slots) Q s t Ha ltac:(by rewrite Ez)) as Hw. rewrite Ez in Hw.
  destruct (try_fold write_card s _) as [s1|], (try_fold write_card t _) as [t1|]; cbn [writing] in Hw; try done; [|by rewrite Hw].
  do 2 f_equal. eapply agree_nothing; [exact Hw|]. intros x _ [Hq Hn]. by apply Hn, HQ.
Qed.

Lemma apply_belief_agree Q {dQ : forall x, base.Decision (Q x)} sha256 s t actor pinned belief seed slots :
  agree Q s t -> unknown_slots s actor (opponent actor) pinned = Some slots -> valid_ids slots ->
  (forall id, Q id -> id ∈ slots) ->
  apply_belief_v1 sha256 t actor pinned belief seed = apply_belief_v1 sha256 s actor pinned belief seed.
Proof.
  intros Ha Es Hv HQ. unfold apply_belief_v1, unknown_slots_v1. case_decide; [done|].
  rewrite (agree_slots Q s t actor _ pinned Ha), Es. destruct slots as [|id slots].
  { do 3 f_equal. apply (agree_nothing Q); [done|]. intros x _ Hx. by apply HQ, elem_of_nil in Hx. }
  destruct (seen_agree Q s t (opponent actor) (id :: slots) Ha HQ) as [-> ->].
  by rewrite (deal_deck_agree Q s t _ (id :: slots)).
Qed.

(** ** States that only the hidden cards tell apart *)

(** [t] is [s] with other identities of the opponent's unknown cards, and those of
    the player's own library exchanged among themselves. *)
Record unseen_differ (root_actor : PlayerId) (pinned : list ObjectId) s t : Prop := MkUnseenDiffer {
  unseen_frame : t = with_objects s (objects t);
  unseen_len : Arena.len (objects t) = Arena.len (objects s);
  unseen_off : forall id, 0 <= object_num id ->
    (forall owner, valid_player owner -> ~ unknown_card s root_actor pinned owner id) -> get t id = get s id;
  unseen_on : forall owner id o, valid_player owner -> unknown_card s root_actor pinned owner id ->
    get s id = Some o -> exists o', get t id = Some o' /\ alike o o';
  unseen_own : exists slots d e, NoDup slots
    /\ (forall id, id ∈ slots <-> unknown_card s root_actor pinned root_actor id)
    /\ identities s slots d /\ identities t slots e /\ e ≡ₚ d;
}.

Lemma unseen_agree s t root_actor pinned slots0 slots1 : unseen_differ root_actor pinned s t ->
  (forall id, id ∈ slots0 <-> unknown_card s root_actor pinned P0 id) ->
  (forall id, id ∈ slots1 <-> unknown_card s root_actor pinned P1 id) ->
  agree (fun id => id ∈ slots0 ++ slots1) s t.
Proof.
  intros [F Hl Hoff Hon _] H0 H1. split; [done|done| |].
  - intros x Hx Hn. apply Hoff; [done|]. intros owner Hv Hu. apply Hn, elem_of_app.
    destruct Hv as [->| ->]; [left; by apply H0|right; by apply H1].
  - intros x Hx Hq o Eo. apply elem_of_app in Hq as [Hq%H0|Hq%H1].
    + apply (Hon P0 x o); [auto with kernel|done|done].
    + apply (Hon P1 x o); [auto with kernel|done|done].
Qed.

(** The identities at the slots the sampler finds. *)
Lemma identities_at s (ids slots : list ObjectId) d : identities s ids d -> ids ≡ₚ slots ->
  exists d', identities s slots d' /\ d' ≡ₚ d.
Proof.
  intros Hd Hp. destruct (identities_exist s slots) as [d' Hd'].
  - intros id Hid. rewrite <- Hp in Hid. apply list_elem_of_lookup in Hid as [k Ek].
    destruct (Forall2_lookup_l _ _ _ _ _ Hd Ek) as (c & _ & o & Eo & _). by exists o.
  - exists d'. split; [done|]. symmetry. by apply (identities_perm s ids slots).
Qed.

Lemma own_identities s t root_actor pinned slots : unseen_differ root_actor pinned s t ->
  slots_of s root_actor root_actor pinned slots ->
  exists d e, identities s slots d /\ identities t slots e /\ e ≡ₚ d.
Proof.
  intros Hd [_ N I _ _]. destruct (unseen_own _ _ _ _ Hd) as (ids & d & e & N' & I' & Hs & Ht & Hp).
  assert (ids ≡ₚ slots) as Hids by (apply NoDup_Permutation; [done|done|]; intros x; by rewrite I, I').
  destruct (identities_at s ids slots d Hs Hids) as (d' & Hd' & Ed), (identities_at t ids slots e Ht Hids) as (e' & He' & Ee).
  exists d', e'. split_and!; [done|done|]. by rewrite Ee, Ed.
Qed.

Lemma unknown_slots_same s s' root_actor owner pinned : same_hidden s s' -> valid_player root_actor -> valid_player owner ->
  unknown_slots s' root_actor owner pinned = unknown_slots s root_actor owner pinned.
Proof. intros [Hl Hh Hlk Hhk Hi] Hr Hv. apply unknown_slots_ext; [exact Hi|..]; auto. Qed.

(** The table knows every identity at the slots. *)
Lemma identities_in_table s slots d c : in_table s -> identities s slots d -> c ∈ d -> forall v : V4, is_Some (become_card c v).
Proof. intros Ht Hd Hc v. destruct (identities_in _ _ _ _ Hd Hc) as (id & o & _ & Eo & <-). by apply (Ht id). Qed.

(** What the two passes answer: the same error, or states in which only the
    opponent's slots differ. *)
Definition sampled_alike (Q : ObjectId -> Prop) s (r r' : option (result (Fault KernelNativeSearchErrorV1) (GameState V4 Rest))) : Prop :=
  match r, r' with
  | Some (Ok a), Some (Ok b) => same_hidden s a /\ agree Q a b
  | Some (Err e), Some (Err e') => e = e'
  | _, _ => False
  end.

Lemma others_identities (slots slots' : list ObjectId) s s1 d :
  identities s slots' d -> valid_ids slots' -> (forall id, id ∈ slots' -> id ∉ slots) ->
  (forall x, 0 <= object_num x -> (x ∉ slots) -> get s1 x = get s x) -> identities s1 slots' d.
Proof.
  intros Hd Hv Hdis Hoff. apply (identities_ext s); [|done]. intros id Hid.
  apply Hoff; [exact (proj1 (Forall_forall _ _) Hv id Hid)|by apply Hdis].
Qed.

(** One pass leaves the own cards equal, and the opponent's as they may be. *)
Definition left_by (Q : ObjectId -> Prop) (root_actor owner : PlayerId) (slots : list ObjectId) (id : ObjectId) : Prop :=
  Q id /\ (owner = root_actor -> id ∉ slots).

#[local] Instance left_by_dec Q {dQ : forall x, base.Decision (Q x)} root_actor owner slots x : base.Decision (left_by Q root_actor owner slots x).
Proof. apply _. Defined.

(** What a pass needs of the identities at its slots. *)
Record pass_ready (root_actor owner : PlayerId) (Q : ObjectId -> Prop) s t (slots : list ObjectId) (d e : list Z) : Prop := MkPassReady {
  pass_s : identities s slots d;
  pass_t : identities t slots e;
  pass_own : owner = root_actor -> e ≡ₚ d;
  pass_in : forall id, id ∈ slots -> Q id;
  pass_table : forall c, c ∈ d ++ e -> forall v : V4, is_Some (become_card c v);
}.

Lemma agree_ext (Q Q' : ObjectId -> Prop) s t : (forall x, Q x <-> Q' x) -> agree Q s t -> agree Q' s t.
Proof.
  intros HQ [F Hl Hoff Hon]. split; [done|done| |].
  - intros x Hx Hn. apply Hoff; [done|]. by rewrite HQ.
  - intros x Hx Hq. apply Hon; [done|]. by apply HQ.
Qed.

Lemma agreeing_runs_ext (Q Q' : ObjectId -> Prop) r r' : (forall x, Q x <-> Q' x) ->
  agreeing_runs (V4:=V4) (Rest:=Rest) Q r r' -> agreeing_runs Q' r r'.
Proof.
  intros HQ. destruct r as [[[rng s]|]|], r' as [[[rng' t]|]|]; cbn; try done. intros (? & ? & ?).
  split_and!; [done|done|]. by apply (agree_ext Q).
Qed.

Lemma pass_alike Q {dQ : forall x, base.Decision (Q x)} s t root_actor owner pinned rng slots d e :
  agree Q s t -> is_word (sm_state rng) -> valid_ids slots -> Z.of_nat (length slots) <= u32_max + 1 ->
  unknown_slots s root_actor owner pinned = Some slots -> pass_ready root_actor owner Q s t slots d e ->
  agreeing_runs (left_by Q root_actor owner slots) (redeterminize_owner root_actor pinned owner rng s)
    (redeterminize_owner root_actor pinned owner rng t).
Proof using Type HiddenLaws0.
  intros Ha Hw Hv Hb Es [Hs Ht Hown Hin Htab]. destruct (decide (owner = root_actor)) as [Eo|Hne].
  - eapply agreeing_runs_ext; [|by apply (owner_agree Q s t root_actor owner pinned rng slots d e); auto].
    intros x. unfold left_by. tauto.
  - eapply agreeing_runs_ext; [|by apply (owner_any Q s t root_actor owner pinned rng slots d e)].
    intros x. unfold left_by. tauto.
Qed.

(** A pass over the other cards keeps what the second pass needs. *)
Lemma ready_after (Q : ObjectId -> Prop) s t s1 t1 root_actor slots0 slots1 d e :
  pass_ready root_actor P1 Q s t slots1 d e -> valid_ids slots1 -> (forall id, id ∈ slots1 -> id ∉ slots0) ->
  (forall x, 0 <= object_num x -> (x ∉ slots0) -> get s1 x = get s x) ->
  (forall x, 0 <= object_num x -> (x ∉ slots0) -> get t1 x = get t x) ->
  pass_ready root_actor P1 (left_by Q root_actor P0 slots0) s1 t1 slots1 d e.
Proof.
  intros [Hs Ht Hown Hin Htab] Hv Hdis Os Ot. split; [by apply (others_identities slots0 slots1 s)|by apply (others_identities slots0 slots1 t)|done| |done].
  intros id Hid. split; [by apply Hin|]. intros _. by apply Hdis.
Qed.

Lemma pass_ready_start s t root_actor owner pinned slots slots0 slots1 :
  hidden_ok s -> valid_player root_actor -> valid_player owner -> in_table s -> in_table t ->
  unseen_differ root_actor pinned s t -> agree (fun id => id ∈ slots0 ++ slots1) s t ->
  slots_of s root_actor owner pinned slots -> (forall id, id ∈ slots -> id ∈ slots0 ++ slots1) ->
  exists d e, pass_ready root_actor owner (fun id => id ∈ slots0 ++ slots1) s t slots d e.
Proof.
  intros H Hr Hv Hts Htt Hd Ha Hslots Hin.
  assert (Hget : forall id, id ∈ slots -> is_Some (get s id) /\ is_Some (get t id)).
  { intros id Hid. destruct (unknown_slots_runs s root_actor owner pinned H Hr Hv) as (a & Ea & _ & _ & Xa).
    rewrite (slots_found _ _ _ _ _ Hslots) in Ea. injection Ea as <-. destruct (Xa id Hid) as (Hn & o & Eo & _).
    pose proof (agree_get _ s t id Ha ltac:(lia)) as Hg. rewrite Eo in Hg |- *. by destruct (get t id). }
  assert (exists d e, identities s slots d /\ identities t slots e /\ (owner = root_actor -> e ≡ₚ d)) as (d & e & Es & Et & Hp).
  { destruct (decide (owner = root_actor)) as [->|Hne].
    - destruct (own_identities s t root_actor pinned slots Hd Hslots) as (d & e & ? & ? & ?). by exists d, e.
    - destruct (identities_exist s slots) as [d Es]; [intros id Hid; by apply Hget|].
      destruct (identities_exist t slots) as [e Et]; [intros id Hid; by apply Hget|]. by exists d, e. }
  exists d, e. split; try done. intros c [Hc|Hc]%elem_of_app; [by apply (identities_in_table s slots d)|by apply (identities_in_table t slots e)].
Qed.

Lemma passes_alike s t root_actor seed pinned slots0 slots1 :
  hidden_ok s -> valid_player root_actor -> is_word seed -> in_table s -> in_table t ->
  unseen_differ root_actor pinned s t ->
  slots_of s root_actor P0 pinned slots0 -> slots_of s root_actor P1 pinned slots1 ->
  sampled_alike (left_by (left_by (fun id => id ∈ slots0 ++ slots1) root_actor P0 slots0) root_actor P1 slots1) s
    (redeterminize_hidden_zones_pinned_v1 s root_actor seed pinned)
    (redeterminize_hidden_zones_pinned_v1 t root_actor seed pinned).
Proof using Type HiddenLaws0.
  intros H Hr Hseed Hts Htt Hd S0 S1. pose proof S0 as [E0 N0 I0 L0 B0]. pose proof S1 as [E1 N1 I1 L1 B1].
  assert (valid_player P0) as V0 by auto with kernel. assert (valid_player P1) as V1 by auto with kernel.
  assert (Hdis : forall id, id ∈ slots1 -> id ∉ slots0).
  { intros id H1%I1 H0%I0. by apply (unknown_cards_disjoint s root_actor pinned id H H0). }
  pose proof (unseen_agree s t root_actor pinned slots0 slots1 Hd I0 I1) as Ha.
  destruct (pass_ready_start s t root_actor P0 pinned slots0 slots0 slots1 H Hr V0 Hts Htt Hd Ha S0) as (d0 & e0 & R0);
    [intros id ?; apply elem_of_app; by left|].
  destruct (pass_ready_start s t root_actor P1 pinned slots1 slots0 slots1 H Hr V1 Hts Htt Hd Ha S1) as (d1 & e1 & R1);
    [intros id ?; apply elem_of_app; by right|].
  pose proof (agree_slots _ s t root_actor P0 pinned Ha) as Et0. rewrite E0 in Et0.
  unfold redeterminize_hidden_zones_pinned_v1. rewrite !decide_False by by apply not_bad_root.
  pose proof (pass_alike _ s t root_actor P0 pinned (SplitMix64_seed seed) slots0 d0 e0 Ha Hseed L0 B0 E0 R0) as Hrun.
  destruct (redeterminize_owner root_actor pinned P0 _ s) as [[[rng1 s1]|b]|] eqn:Rs,
    (redeterminize_owner root_actor pinned P0 _ t) as [[[rng2 t1]|b']|] eqn:Rt; cbn [agreeing_runs] in Hrun; try done.
  destruct Hrun as (-> & Hw1 & Ha1). cbn [mbind option_bind].
  destruct (owner_frame s _ _ _ _ slots0 _ _ L0 E0 Rs) as [Ss Os]. destruct (owner_frame t _ _ _ _ slots0 _ _ L0 Et0 Rt) as [_ Ot].
  pose proof (ready_after _ _ _ _ _ _ _ _ _ _ R1 L1 Hdis Os Ot) as R1'.
  assert (unknown_slots s1 root_actor P1 pinned = Some slots1) as E1' by by rewrite (unknown_slots_same s).
  pose proof (pass_alike _ s1 t1 root_actor P1 pinned rng1 slots1 d1 e1 Ha1 Hw1 L1 B1 E1' R1') as Hrun2.
  destruct (redeterminize_owner root_actor pinned P1 rng1 s1) as [[[rng3 s2]|b]|] eqn:Rs2,
    (redeterminize_owner root_actor pinned P1 rng1 t1) as [[[rng4 t2]|b']|]; cbn [agreeing_runs] in Hrun2; try done.
  destruct Hrun2 as (_ & _ & Ha2). cbn. split; [|done].
  transitivity s1; [done|]. by apply (owner_frame s1 root_actor P1 pinned rng1 slots1 rng3 s2).
Qed.

(** ** The property *)

Lemma pinned_same Q {dQ : forall x, base.Decision (Q x)} s t actor : agree Q s t ->
  pending_selection_hidden_objects_v1 t actor = pending_selection_hidden_objects_v1 s actor.
Proof.
  intros Ha. assert (forall id, in_hidden_zone t id = in_hidden_zone s id) as Hz.
  { intros id. unfold in_hidden_zone. rewrite (get_norm t id), (get_norm s id).
    pose proof (agree_get Q s t (MkObjectId (Z.of_nat (Arena.index id))) Ha ltac:(cbn; lia)) as Hg.
    destruct (get s _) as [o|], (get t _) as [o'|]; try done. by rewrite (alike_zone _ _ Hg). }
  unfold pending_selection_hidden_objects_v1. assert (rest t = rest s) as -> by (destruct Ha as [-> _ _ _]; done).
  destruct (pending_select_targets (rest s)) as [[[player selected] legal]|]; [|done]. case_decide; [done|].
  do 2 f_equal. apply list_filter_iff. intros id. by rewrite Hz.
Qed.

(** C24: a fair world never reads the hidden cards: two games that differ only in the identities of the opponent's
    unknown cards, whatever they are, and in the order of the player's own library give the same world, or the same
    refusal, for every corpus and every seed. So what a fair search does is a function of what the player knows. *)
Theorem fair_worlds_never_read_the_hidden_cards sha256 (conflicts : GameState V4 Rest -> list ObjectId -> bool) s t actor belief seed :
  hidden_ok s -> valid_player actor -> is_word seed -> in_table s -> in_table t ->
  (forall u a l, conflicts (with_objects u a) l = conflicts u l) ->
  unseen_differ actor (pending_selection_hidden_objects_v1 s actor) s t ->
  sample_world_v1 sha256 conflicts t actor ClosedList belief seed = sample_world_v1 sha256 conflicts s actor ClosedList belief seed.
Proof using Type HiddenLaws0.
  intros H Hr Hseed Hts Htt Hconf Hd. set (pinned := pending_selection_hidden_objects_v1 s actor) in *.
  destruct belief as [belief|]; [|done]. cbn [sample_world_v1]. unfold limited_belief_clone_v1, unknown_slots_v1.
  destruct (slots_exist s actor P0 pinned H Hr) as (slots0 & S0); [auto with kernel|].
  destruct (slots_exist s actor P1 pinned H Hr) as (slots1 & S1); [auto with kernel|].
  pose proof S0 as [E0 _ I0 L0 _]. pose proof S1 as [E1 _ I1 L1 _].
  pose proof (unseen_agree s t actor pinned slots0 slots1 Hd I0 I1) as Ha.
  rewrite (pinned_same _ s t actor Ha). fold pinned. rewrite !(agree_slots _ s t actor _ pinned Ha), E0, E1.
  assert (conflicts t (slots0 ++ slots1) = conflicts s (slots0 ++ slots1)) as ->.
  { destruct Ha as [F _ _ _]. rewrite F. apply Hconf. }
  destruct (conflicts s (slots0 ++ slots1)); [done|].
  pose proof (passes_alike s t actor seed pinned slots0 slots1 H Hr Hseed Hts Htt Hd S0 S1) as Hrun.
  destruct (redeterminize_hidden_zones_pinned_v1 s actor seed pinned) as [[s2|b]|],
    (redeterminize_hidden_zones_pinned_v1 t actor seed pinned) as [[t2|b']|]; cbn [sampled_alike] in Hrun; try done; [|by rewrite Hrun].
  destruct Hrun as [Hsame Ha2]. cbn [mbind option_bind].
  assert (exists slots, unknown_slots s2 actor (opponent actor) pinned = Some slots /\ valid_ids slots
    /\ forall id, left_by (left_by (fun id => id ∈ slots0 ++ slots1) actor P0 slots0) actor P1 slots1 id -> id ∈ slots) as (slots & Es & Hv & HQ).
  { assert (forall id, left_by (left_by (fun id => id ∈ slots0 ++ slots1) actor P0 slots0) actor P1 slots1 id ->
      (id ∈ slots0 \/ id ∈ slots1) /\ (P0 = actor -> id ∉ slots0) /\ (P1 = actor -> id ∉ slots1)) as Hleft.
    { intros id [[Hq ?] ?]. apply elem_of_app in Hq. done. }
    destruct Hr as [->| ->]; rewrite ?opponent_P0, ?opponent_P1.
    - exists slots1. rewrite (unknown_slots_same s) by auto with kernel. split_and!; [done|done|].
      intros id (? & ? & ?)%Hleft. tauto.
    - exists slots0. rewrite (unknown_slots_same s) by auto with kernel. split_and!; [done|done|].
      intros id (? & ? & ?)%Hleft. tauto. }
  by rewrite (apply_belief_agree _ sha256 s2 t2 actor pinned belief seed slots Ha2 Es Hv HQ).
Qed.
End Blind.

(** ** In the game of LibraryFacts.v *)

#[export] Instance BareHiddenLaws : HiddenLaws unit.
Proof. by split. Qed.

(** [bare_game] where the first card of P0 is one of another deck. *)
Definition changed_game : GameState unit PlayerId :=
  with_objects bare_game (Arena.update (objects bare_game) (MkObjectId 0) (with_definition 99 tt)).

Lemma changed_get id : 0 <= object_num id ->
  get changed_game id = if decide (id = MkObjectId 0) then with_definition 99 tt <$> get bare_game id else get bare_game id.
Proof. intros Hn. unfold changed_game. by rewrite get_with_objects. Qed.

Lemma changed_game_differs : unseen_differ P1 [] bare_game changed_game.
Proof.
  split; [done|done| | |].
  - intros id Hn Hno. rewrite changed_get by done. rewrite decide_False; [done|]. intros ->.
    by apply (Hno P0 valid_P0), bare_game_unknown.
  - intros owner id o Hv Hu Eo. destruct (unknown_card_owner _ _ _ _ _ bare_game_hidden_ok Hv Hu) as (Hn & _).
    rewrite changed_get, Eo by done. cbn [fmap option_fmap option_map].
    case_decide; eexists; (split; [done|]); [apply alike_unit|apply alike_refl].
  - destruct (slots_exist bare_game P1 P1 [] bare_game_hidden_ok valid_P1 valid_P1) as (slots & [E N I _ _]).
    assert (slots = library_of bare_game P1) as -> by (cbv in E; by injection E as <-).
    exists (library_of bare_game P1), [20; 21], [20; 21]. split; [done|]. split; [done|].
    split; [repeat constructor; by eexists|]. split; [repeat constructor; by eexists|]. done.
Qed.

Lemma fair_worlds_never_read_the_hidden_cards_witness :
  (card_def <$> get changed_game (MkObjectId 0)) <> (card_def <$> get bare_game (MkObjectId 0))
  /\ sample_world_v1 sevens (fun _ _ => false) changed_game P1 ClosedList (Some [[10; 10; 13]; [7; 8]]) 3
     = sample_world_v1 sevens (fun _ _ => false) bare_game P1 ClosedList (Some [[10; 10; 13]; [7; 8]]) 3.
Proof.
  split; [by vm_compute|].
  apply (fair_worlds_never_read_the_hidden_cards sevens (fun _ _ => false) bare_game changed_game P1 (Some [[10; 10; 13]; [7; 8]]) 3).
  - exact bare_game_hidden_ok.
  - exact valid_P1.
  - unfold is_word. lia.
  - exact bare_game_in_table.
  - intros id o v _. by exists v.
  - done.
  - exact changed_game_differs.
Defined.
